(* ===== verification/_CoqProject ===== *)
-Q . S2P
Prelude.v
Mem.v
Layout.v
CString.v
Kmem.v
KmemInv.v
KmemSafety.v
KmemRealloc.v
KmemProps.v
Frames.v
Pmm.v
Paging.v
PagingInit.v
HeapApi.v
Vfs.v
VfsProps.v
Block.v
Ext2.v
Ext2Props.v
Ext2Mount.v
Printf.v
PrintfProps.v
Klog.v
Disk.v
DiskProps.v
TermTables.v
Flanterm.v
TermSafe.v
FbTerm.v
FbQueue.v
FbPlot.v
FbFlush.v
FbSafe.v
FbText.v
TermUtf8.v
FbInit.v
FbInitProps.v
TermProps.v
Keyboard.v
KeyboardProps.v
ShellProps.v
Hw.v
Pci.v
PciProps.v
Trap.v
Apic.v
ApicProps.v
Irq.v
Timer.v
KernelApi.v
AcpiBits.v
AcpiField.v
AcpiFieldProps.v
AcpiRegion.v
AcpiGas.v
AcpiRegs.v
AcpiStr.v
AcpiFmt.v
AcpiFmtProps.v
AcpiLock.v
AcpiRwLock.v
AcpiLockProps.v
AcpiOsi.v
AcpiNs.v
AcpiNsProps.v
AcpiNsTree.v
AcpiNsIter.v
AcpiNsWipe.v
AcpiNsInit.v
AcpiNsObj.v
AcpiDynArray.v
AcpiFadt.v
AcpiTables.v
AcpiTablesOps.v
AcpiTablesProps.v
AcpiTablesThm.v
Nvme.v
NvmeProps.v
Boot.v
BootMem.v
