(* ===== verification/Prelude.v ===== *)
(** * TomatoOs: a verification library for the kernel under [src/src/]

    TomatoOs is a hobby x86-64 kernel started by the Limine boot loader.  This library
    translates its own C code into Rocq definitions, one per C function or loop body, and
    proves what the rest of the kernel relies on.

    ** The program

    [kmain] (main.c) takes the boot loader's memory map, starts the page allocator
    (mem/pmm.c), builds page tables over it (mem/paging.c), fills the descriptor tables
    (cpu/gdt.c, cpu/idt.c), starts the heap (kmem/), finds the interrupt controllers in the
    ACPI tables (cpu/apic.c), calibrates the timer (cpu/apic_timer.c, cpu/pit.c), installs
    the keyboard and the in-memory file system (fs/vfs.c), starts uACPI (uacpi/, a library kept
    in the tree), which calls back through cpu/kernel_api.c, enumerates PCI (drivers/x86/pci.c), and enters the shell
    (drivers/keyboard.c).  The NVMe driver (drivers/x86/nvme.c) hands its disks to
    drivers/x86/disk.c, which mounts ext2 partitions (fs/ext2/).  Everything prints through
    stdio/printf.c and stdio/klog.c, which write to the terminal (flanterm/): flanterm.c decodes
    bytes and escape sequences and calls fb.c, which draws characters into the framebuffer.

    ** Files

    Foundations.  [Prelude]: integers of a width, bit fields, counted and fuelled loops,
    tactics and hints.  [Mem]: byte memory with little-endian accesses.  [Layout]: offsets of C
    structures.  [CString]: string/.  [Hw]: ports, device memory and instructions as
    classes, the state monad of the drivers (util.h).

    Memory.  [Kmem] is kmem/ with the block headers in the heap's own bytes;
    [KmemInv], [KmemSafety], [KmemRealloc] hold the invariant and the cases of the three entry
    points, [KmemProps] the abstract object store and its refinement.  [Frames] is the
    interface between paging and page allocator ([FrameAllocator]), [Pmm] is pmm.c and
    implements it, [Paging] and [PagingInit] are paging.c, proved against it.  [HeapApi] is
    the interface of the heap to its clients, implemented by [Kmem].  [BootMem] composes the
    managers the way [kmain] does.

    File systems and disks.  [Vfs], [VfsProps]: fs/vfs.c.  [Block]: the disk and
    allocator contracts of disk.h.  [Ext2], [Ext2Props], [Ext2Mount]: fs/ext2/.  [Disk],
    [DiskProps]: disk.c, mbr.h, gpt.h.  [Nvme], [NvmeProps]: nvme.c.

    Console and shell.  [Printf], [PrintfProps], [Klog]: printf.c, klog.c, spinlock.c.
    [Keyboard], [KeyboardProps], [ShellProps]: keyboard.c.

    Terminal.  [TermTables]: tables of flanterm.c and fb.c and the functions that search them.
    [Flanterm]: flanterm.c over the class [Backend], its function pointers; [TermSafe] proves it
    against [BackendOk], what a back end promises.  [FbTerm]: fb.c, an instance of [Backend];
    [FbQueue] (the queue of changed cells), [FbPlot] (pixels), [FbFlush] (showing) build up its
    invariant, and [FbSafe] the instance of [BackendOk].  [FbText]: the terminal as a typewriter
    on pages of lines.  [TermUtf8]: code points.  [FbInit], [FbInitProps]: the bump allocator and
    [flanterm_fb_init].  [TermProps]: the theorems on the whole, with [kprintf] on top.

    Processor and buses.  [Pci], [PciProps]: pci.c.  [Trap]: gdt.c, idt.c, asm/idt.asm,
    [dump_Registers] of util.c.  [Apic], [ApicProps]: apic.c, acpi.h, [initKeyboard].  [Irq]: irq.c.
    [Timer]: apic_timer.c, pit.c.  [KernelApi]: kernel_api.c.  [Boot]: [init_framebuffer] of
    main.c, acpi.c, power.c, the configuration accessors of util.c, ktest.c.

    uACPI (uacpi/).  [AcpiBits]: bit copies and buffer fields (io.c).  [AcpiField],
    [AcpiFieldProps]: field units over the class [FieldHost]; [ByteRegion] states what a region
    promises them.  [AcpiRegion]: operation regions (opregion.c, default_handlers.c), whose memory
    regions implement [ByteRegion].  [AcpiGas]: generic addresses (io.c).  [AcpiRegs]: the fixed
    registers (registers.c).  [AcpiStr]: numbers and names (utilities.c).  [AcpiFmt],
    [AcpiFmtProps]: formatted output (stdlib.c).  [AcpiLock], [AcpiRwLock], [AcpiLockProps]: locks
    and reference counts (mutex.c, shareable.c).  [AcpiOsi]: interfaces (osi.c).
    The namespace (namespace.c).  [AcpiNs]: nodes, search, paths, installing and uninstalling;
    [AcpiNsProps], [AcpiNsTree]: the invariant of its links and that every change keeps it.  [AcpiNsIter]: walks.
    [AcpiNsWipe], [AcpiNsInit]: its end and its setup.  [AcpiNsObj]: the objects of nodes.
    The tables.  [AcpiDynArray]: the list that grows (dynamic_array.h).  [AcpiFadt]: repairs of the
    FADT.  [AcpiTables], [AcpiTablesOps]: installing, searching, mapping and giving back (tables.c);
    [AcpiTablesProps], [AcpiTablesThm]: the invariant of the list and its theorems.

    ** How code is modelled

    A C integer is a [Z] with the truncation of its type written where it can wrap.  Data that the
    code shares through pointers (block headers, the bitmap, page tables, descriptor tables, disk
    buffers, NVMe queues, superblocks, ACPI tables) is bytes of a [mem]; statics and
    structures nobody aliases are records.  A call that may not return normally answers
    [None] or an outcome that names why (a NULL dereference, an access out of bounds, a division by
    zero, a lock taken twice, a processor that halts).  Code outside the repository's own
    is a parameter: devices are classes ([PortIo], [Mmio], [PciBus], [IoApicDev], [DiskDev],
    [NvmeDma], [Interrupts]) whose laws state their documented behaviour, each with an instance
    that satisfies them; the entry points of uACPI that run AML are variables.  Locking functions
    are programs of atomic actions ([AcpiLock.prog]), run alone or interleaved.

    ** What the theorems show

    - Heap: [kmalloc], [kfree] and [krealloc] refine a store of disjoint objects on every
      legal call and return; [kmalloc] fails only when the heap has no room.
    - Page allocator: first fit, free undoes allocation, what [init_PMM] leaves.  Page tables:
      [map_page] maps exactly its range, [initPML4] builds the direct map and the kernel
      image, address conversions are inverse.  At boot all of it holds together.  The frame
      number of an entry is a bit-field of 40 bits and is shifted as one, so all of this is for
      physical memory below 1 TiB.
    - In-memory file system: operations refine a list of named entries.  ext2: validation implies a
      sound geometry, the block map follows the block tree, inodes and blocks are read where
      they are, a failed mount gives everything back.  Disks: a partition is mounted or its
      resources are returned, and with enough memory ([Block.budget]) every valid file system at a
      place the kernel looks at is mounted.
    - NVMe: from a cleared completion queue each completion is taken once, in order, across the wrap of the
      queue; a command describes the caller's buffer; transfers end.
    - PCI accesses touch the addressed field only and enumeration equals a reference scan; the MADT
      walk accepts exactly well-formed tables and ends; a created interrupt reaches its
      handler; exceptions are named by their error code; sleeping ends after at least the ticks asked
      for, wherever in its loop interrupts come.
    - Console: [kprintf] renders a grammar of formats, numbers convert exactly, locked messages do
      not interleave.  Terminal: any bytes are handled without an access out of bounds, whatever the
      back end; text appears as a typewriter would put it, on the pixels of the framebuffer;
      scrolling moves whole lines; UTF-8 is decoded; character widths equal a plain look-up; the
      kernel's terminal comes up at every resolution.  Keyboard: scancodes arrive first in first out under any interleaving
      with the interrupt, the shell refines one that works on lists.

    - uACPI: buffer fields, field units and register fields keep what is written to them and leave
      their neighbours as the update rule says, on memory regions (attached on first use, accesses
      beyond their end refused) and on registers of one or two blocks; formatted output stays in its
      buffer for every width and numbers can be read back; readers-writer and recursive locks
      exclude under any interleaving and do not deadlock over hosts whose mutexes and thread
      identifiers keep the contract of kernel_api.h, and do not exclude over those of
      kernel_api.c; the list of interfaces refines a finite map and loses no memory.  The
      links of the namespace are ordered scopes under search, installing and uninstalling, and its
      reference counts stay in balance ([AcpiNsTree.ledger]) also when a field unit that is freed
      gives up its references to other nodes; the path of a node leads back to it; the walk
      without a stack is the recursive traversal; setup gives the predefined names, and the end
      takes away every node nobody refers to.  A table is mapped exactly while it is used, a search
      finds the first valid one that matches, the FADT is put in order, and the end of the list
      gives everything back.

    Some theorems describe behaviour the code probably does not intend (the exception
    number taken from the error code, narrow reads that clear their neighbours, bits of the page
    bitmap that are never cleared, physical addresses above 1 TiB that lose their high bits, a total
    size that deletions do not reduce, mutexes that do not exclude, a query handler that is not
    asked about unknown interfaces, the end of [TermProps], a global lock that cannot be released,
    an acknowledged event that clears all others, a
    missing scope that faults, the object of an interface method that is never given back, a table
    that was not installed and is reported installed, an invalid one that keeps the mutex, an FADT that
    names itself, event blocks in memory that become ports); they state what the code does.

    ** Bounds and fuel

    Counted loops need no fuel.  A loop over a list in memory gets one round per element the region
    can hold: [Kmem.max_blocks] headers fit the heap, a bitmap search has one round per page
    and one for the last test, the terminal's loops one round per value of a sequence, column, cell
    or table entry and one for the test (an invariant shows that they suffice), the MADT walk at most 257 entries (the code's own limit) and two
    tests.  Scans of strings take fuel as an argument; the theorems ask for more fuel than
    the string is long and conclude that the scan returns.  Waiting for a device has fuel:
    the time-outs of the NVMe driver count in steps of ten, so 101 and 501 rounds are
    enough and [transfers_terminate] proves it ([ADMIN_ROUNDS] covers the admin queue, whose
    limit is a thousand times its argument); [sleep] returns with fuel for the passes it waits
    ([sleep_returns]).  A format has one round per character ([vsnprintf_truncates]).  The waits
    without a time-out in the source (the controller's ready bit, the interval timer) keep fuel as
    an argument and report when it ran out.
    In uACPI a bit copy has one round per 8 bits of its destination and two more, a generic address at
    most 32 accesses ([GAS_ROUNDS]), a number at most 64 digits; the compare-and-exchange loops of
    the global lock take the number of interferences as an argument.  Searches in the namespace have a
    round per node and one more ([rounds]), its walk and its end two per node, which the theorems
    ask for.  Tables that lead to one another are installed with fuel ([Endless] when it ends): two
    rounds are enough with strict signatures and no handler ([install_returns]).

    ** Not modelled

    The AML interpreter of uACPI and what is built on its object store (interpreter.c, event.c, notify.c,
    resources.c, sleep.c, opcodes.c, uacpi.c; of types.c only the references a field unit gives up and the type bits), the client callback of the terminal, which the kernel does not
    set, the Limine declarations, and
    headers that only declare; instructions that load tables and registers (lgdt, lidt, ltr, mov to
    cr3, invlpg); the text of the drivers' log lines; [init_kernel], which copies the boot loader's
    answers into what are parameters here; the order of the calls of [kmain] after the
    memory managers; endless loops ([halt], [shell_run]).  The commands of the shell are events, not calls
    of [Boot] and [Vfs]; the NVMe driver is not connected to the [DiskDev] of the file systems. *)

From stdpp Require Export base numbers list gmap.
From Stdlib Require Export ZArith Lia.

#[global] Open Scope Z_scope.

(** ** Machine integers

    A C integer of [w] bits is a [Z]; arithmetic that can wrap around is
    written with the truncation of its type around it. *)

Definition u8 (x : Z) : Z := x mod 256.
Definition u16 (x : Z) : Z := x mod 65536.
Definition u32 (x : Z) : Z := x mod 4294967296.
Definition u64 (x : Z) : Z := x mod 18446744073709551616.
(** Two's complement reading of the low 32 bits: the conversion to [int]. *)
Definition i32 (x : Z) : Z := (x + 2147483648) mod 4294967296 - 2147483648.

Declare Scope c_scope.
Delimit Scope c_scope with c.
(** Bitwise operators, spelled as in the sources. *)
Notation "x '&&&' y" := (Z.land x y) (at level 40, left associativity) : c_scope.
Notation "x '|||' y" := (Z.lor x y) (at level 50, left associativity) : c_scope.
Notation "x '<<<' n" := (Z.shiftl x n) (at level 34, left associativity) : c_scope.
Notation "x '>>>' n" := (Z.shiftr x n) (at level 34, left associativity) : c_scope.
#[global] Open Scope c_scope.

(** C's truth value of an integer. *)
Definition truthy (x : Z) : bool := negb (x =? 0).

Lemma truthy_nz (x : Z) : x <> 0 -> truthy x = true.
Proof. intros. unfold truthy. by rewrite (proj2 (Z.eqb_neq x 0)). Qed.
Lemma truthy_iff (x : Z) : truthy x = true <-> x <> 0.
Proof. unfold truthy. rewrite negb_true_iff. apply Z.eqb_neq. Qed.
Lemma truthy_false (x : Z) : truthy x = false <-> x = 0.
Proof. unfold truthy. rewrite negb_false_iff. apply Z.eqb_eq. Qed.

(** ** Arithmetic automation *)

(** [wrap_lia]: linear arithmetic through the wrap-around operators and
    division or remainder by a constant. *)
Ltac wrap_lia := unfold u8, u16, u32, u64, i32 in *; Z.div_mod_to_equations; lia.

Ltac split_and_all := repeat match goal with |- _ /\ _ => split end.

(** Turn the boolean comparisons of the code into the propositions. *)
Ltac bool_to_prop :=
  repeat match goal with
  | H : (_ <? _) = true |- _ => apply Z.ltb_lt in H
  | H : (_ <? _) = false |- _ => apply Z.ltb_ge in H
  | H : (_ <=? _) = true |- _ => apply Z.leb_le in H
  | H : (_ <=? _) = false |- _ => apply Z.leb_gt in H
  | H : (_ =? _) = true |- _ => apply Z.eqb_eq in H
  | H : (_ =? _) = false |- _ => apply Z.eqb_neq in H
  | H : truthy _ = true |- _ => apply truthy_iff in H
  | H : truthy _ = false |- _ => apply truthy_false in H
  | H : negb _ = true |- _ => apply negb_true_iff in H
  | H : negb _ = false |- _ => apply negb_false_iff in H
  | H : _ && _ = true |- _ => apply andb_true_iff in H; destruct H
  | H : _ || _ = false |- _ => apply orb_false_iff in H; destruct H
  end.

(** Case analysis on the test of the topmost [if] of the goal. *)
Ltac case_if :=
  match goal with
  | |- context [if ?b then _ else _] => let E := fresh "E" in destruct b eqn:E
  end; bool_to_prop.

(** The same for a hypothesis. *)
Ltac case_if_in H :=
  match type of H with
  | context [if ?b then _ else _] => let E := fresh "E" in destruct b eqn:E
  end; bool_to_prop.

Create HintDb word.
Create Rewrite HintDb wordrw.

Lemma u8_small (x : Z) : 0 <= x < 256 -> u8 x = x.
Proof. intros. wrap_lia. Qed.
Lemma u16_small (x : Z) : 0 <= x < 65536 -> u16 x = x.
Proof. intros. wrap_lia. Qed.
Lemma u32_small (x : Z) : 0 <= x < 4294967296 -> u32 x = x.
Proof. intros. wrap_lia. Qed.
Lemma u64_small (x : Z) : 0 <= x < 18446744073709551616 -> u64 x = x.
Proof. intros. wrap_lia. Qed.
Lemma i32_small (x : Z) : -2147483648 <= x < 2147483648 -> i32 x = x.
Proof. intros. wrap_lia. Qed.

Lemma u8_range (x : Z) : 0 <= u8 x < 256.
Proof. wrap_lia. Qed.
Lemma u16_range (x : Z) : 0 <= u16 x < 65536.
Proof. wrap_lia. Qed.
Lemma u32_range (x : Z) : 0 <= u32 x < 4294967296.
Proof. wrap_lia. Qed.
Lemma u64_range (x : Z) : 0 <= u64 x < 18446744073709551616.
Proof. wrap_lia. Qed.

Lemma u8_idem (x : Z) : u8 (u8 x) = u8 x.
Proof. wrap_lia. Qed.

#[export] Hint Resolve u8_range u16_range u32_range u64_range : word.
#[export] Hint Rewrite u8_idem : wordrw.

(** ** Loops

    [floop n lo f a] is [for (i = lo; i < lo + n; i++) a = f(i, a);]. *)
Fixpoint floop {A : Type} (n : nat) (lo : Z) (f : Z -> A -> A) (a : A) : A :=
  match n with
  | O => a
  | S n' => floop n' (lo + 1) f (f lo a)
  end.

(** The proof rule of a counted loop: an invariant indexed by the counter. *)
Lemma floop_inv {A} (P : Z -> A -> Prop) (f : Z -> A -> A) n lo a :
  P lo a ->
  (forall i x, lo <= i < lo + Z.of_nat n -> P i x -> P (i + 1) (f i x)) ->
  P (lo + Z.of_nat n) (floop n lo f a).
Proof.
  revert lo a. induction n as [|n IH]; intros lo a H0 Hs; cbn [floop].
  - by rewrite Z.add_0_r.
  - replace (lo + Z.of_nat (S n)) with (lo + 1 + Z.of_nat n) by lia.
    apply IH; [apply Hs; [lia|done]|]. intros i x Hi. apply Hs. lia.
Qed.

Lemma floop_S {A} (f : Z -> A -> A) n lo a :
  floop (S n) lo f a = f (lo + Z.of_nat n) (floop n lo f a).
Proof.
  revert lo a. induction n as [|n IH]; intros lo a.
  - cbn. by rewrite Z.add_0_r.
  - change (floop (S (S n)) lo f a) with (floop (S n) (lo + 1) f (f lo a)).
    rewrite IH. cbn [floop]. f_equal. lia.
Qed.

(** [ploop n lo f a] is the same loop with an early exit: the body answers
    [inl b] to leave the loop with [b] and [inr a] to go on. *)
Fixpoint ploop {A B : Type} (n : nat) (lo : Z) (f : Z -> A -> B + A) (a : A) : B + A :=
  match n with
  | O => inr a
  | S n' => match f lo a with inl b => inl b | inr a' => ploop n' (lo + 1) f a' end
  end.

Lemma ploop_inv {A B} (P : Z -> A -> Prop) (Q : B -> Prop) (f : Z -> A -> B + A) n lo a :
  P lo a ->
  (forall i x, lo <= i < lo + Z.of_nat n -> P i x ->
     match f i x with inl b => Q b | inr x' => P (i + 1) x' end) ->
  match ploop n lo f a with
  | inl b => Q b
  | inr x => P (lo + Z.of_nat n) x
  end.
Proof.
  revert lo a. induction n as [|n IH]; intros lo a H0 Hs; cbn [ploop].
  - by rewrite Z.add_0_r.
  - pose proof (Hs lo a ltac:(lia) H0) as H1.
    destruct (f lo a) as [b|a']; [done|].
    replace (lo + Z.of_nat (S n)) with (lo + 1 + Z.of_nat n) by lia.
    apply IH; [done|]. intros i x Hi. apply Hs. lia.
Qed.

(** [wloop fuel body s]: an unbounded loop whose body answers [inl b] to
    leave and [inr s] to go round again; [None] when the fuel runs out. *)
Fixpoint wloop {S B : Type} (fuel : nat) (body : S -> B + S) (s : S) : option B :=
  match fuel with
  | O => None
  | Datatypes.S f => match body s with inl b => Some b | inr s' => wloop f body s' end
  end.

(** Total correctness of [wloop]: an invariant and a variant bounded by the fuel. *)
Lemma wloop_total {S B} (P : S -> Prop) (Q : B -> Prop) (v : S -> Z)
    (body : S -> B + S) fuel s :
  P s -> 0 <= v s < Z.of_nat fuel ->
  (forall x, P x -> 0 <= v x ->
     match body x with inl b => Q b | inr x' => P x' /\ 0 <= v x' < v x end) ->
  exists b, wloop fuel body s = Some b /\ Q b.
Proof.
  revert s. induction fuel as [|fuel IH]; intros s HP Hv Hb; [lia|]. cbn [wloop].
  pose proof (Hb s HP ltac:(lia)) as H1. destruct (body s) as [b|s']; [eauto|].
  destruct H1 as [H1 H2]. apply IH; [done|lia|done].
Qed.

(** More fuel never changes an answer. *)
Lemma wloop_mono {S B} (body : S -> B + S) f1 f2 s b :
  (f1 <= f2)%nat -> wloop f1 body s = Some b -> wloop f2 body s = Some b.
Proof.
  revert f2 s. induction f1 as [|f1 IH]; intros f2 s Hle H; [done|].
  destruct f2 as [|f2]; [lia|]. cbn [wloop] in *.
  destruct (body s); [done|]. apply IH; [lia|done].
Qed.

(** ** Bit operations with constant masks *)

Lemma land_mod (x n : Z) : 0 <= n -> x &&& (2 ^ n - 1) = x mod 2 ^ n.
Proof. intros. rewrite <- Z.land_ones by lia. f_equal. rewrite Z.ones_equiv. lia. Qed.

Lemma shiftr_div (x n : Z) : 0 <= n -> x >>> n = x / 2 ^ n.
Proof. intros. by rewrite Z.shiftr_div_pow2. Qed.

Lemma shiftl_mul (x n : Z) : 0 <= n -> x <<< n = x * 2 ^ n.
Proof. intros. by rewrite Z.shiftl_mul_pow2. Qed.

Lemma testbit_pow2 (i j : Z) : 0 <= i -> 0 <= j -> Z.testbit (2 ^ i) j = (i =? j).
Proof. intros. rewrite Z.pow2_bits_eqb by lia. done. Qed.

(** Disjoint bit fields add up. *)
Lemma lor_add_shift (x y n : Z) :
  0 <= n -> 0 <= x < 2 ^ n -> x ||| (y <<< n) = x + y * 2 ^ n.
Proof.
  intros Hn Hx. rewrite Z.shiftl_mul_pow2 by lia. symmetry.
  apply Z.add_nocarry_lor. apply Z.bits_inj'. intros i Hi.
  rewrite Z.land_spec, Z.bits_0. destruct (Z_lt_ge_dec i n) as [Hl|Hl].
  - rewrite Z.mul_pow2_bits_low by lia. apply andb_false_r.
  - rewrite <- (Z.mod_small x (2 ^ n)) by lia. rewrite Z.mod_pow2_bits_high by lia. done.
Qed.

(** Rounding a number of [w] bits down to a multiple of a power of two. *)
Lemma align_down_mod (w x n : Z) : 0 <= x < 2 ^ w -> 0 <= n <= w -> x &&& (Z.lnot (2 ^ n - 1) mod 2 ^ w) = x / 2 ^ n * 2 ^ n.
Proof.
  intros Hx Hn. rewrite Z.sub_1_r, <- Z.ones_equiv.
  apply Z.bits_inj'. intros i Hi. rewrite Z.land_spec.
  rewrite <- shiftr_div, <- shiftl_mul by lia. destruct (Z_lt_ge_dec i n).
  - rewrite Z.shiftl_spec_low, Z.mod_pow2_bits_low, Z.lnot_spec, Z.testbit_ones_nonneg by lia.
    replace (i <? n) with true by lia. apply andb_false_r.
  - rewrite Z.shiftl_spec, Z.shiftr_spec by lia. replace (i - n + n) with i by lia. destruct (Z_lt_ge_dec i w).
    + rewrite Z.mod_pow2_bits_low, Z.lnot_spec, Z.testbit_ones_nonneg by lia.
      replace (i <? n) with false by lia. apply andb_true_r.
    + rewrite <- (Z.mod_small x (2 ^ w)) by lia. by rewrite !Z.mod_pow2_bits_high by lia.
Qed.
Lemma align_down (x n : Z) : 0 <= x < 2 ^ 64 -> 0 <= n <= 64 -> x &&& u64 (Z.lnot (2 ^ n - 1)) = x / 2 ^ n * 2 ^ n.
Proof. apply (align_down_mod 64). Qed.

(** ** Bit fields: [w] bits from bit [lo] on *)

Definition bf_get (e lo w : Z) : Z := (e >>> lo) mod 2 ^ w.
Definition bf_set (e lo w v : Z) : Z :=
  (e &&& Z.lnot (Z.ones w <<< lo)) ||| ((v mod 2 ^ w) <<< lo).

Lemma bf_set_bit e lo w v i :
  0 <= lo -> 0 <= w -> 0 <= i ->
  Z.testbit (bf_set e lo w v) i =
    if (lo <=? i) && (i <? lo + w) then Z.testbit v (i - lo) else Z.testbit e i.
Proof.
  intros Hlo Hw Hi. unfold bf_set.
  rewrite Z.lor_spec, Z.land_spec, Z.lnot_spec, !Z.shiftl_spec by lia.
  destruct (Z_lt_ge_dec i lo) as [Hl|Hl].
  - rewrite !(Z.testbit_neg_r _ (i - lo)) by lia. replace (lo <=? i) with false by lia.
    cbn. by rewrite andb_true_r, orb_false_r.
  - replace (lo <=? i) with true by lia. cbn [andb]. rewrite Z.testbit_ones_nonneg by lia.
    destruct (Z_lt_ge_dec i (lo + w)).
    + replace (i <? lo + w) with true by lia. replace (i - lo <? w) with true by lia.
      cbn. rewrite andb_false_r, Z.mod_pow2_bits_low by lia. done.
    + replace (i <? lo + w) with false by lia. replace (i - lo <? w) with false by lia.
      cbn. rewrite andb_true_r, Z.mod_pow2_bits_high by lia. apply orb_false_r.
Qed.

Lemma bf_get_bit e lo w i :
  0 <= lo -> 0 <= w -> 0 <= i -> Z.testbit (bf_get e lo w) i = (i <? w) && Z.testbit e (i + lo).
Proof.
  intros Hlo Hw Hi. unfold bf_get. destruct (Z_lt_ge_dec i w).
  - rewrite Z.mod_pow2_bits_low, Z.shiftr_spec by lia. replace (i <? w) with true by lia. done.
  - rewrite Z.mod_pow2_bits_high by lia. replace (i <? w) with false by lia. done.
Qed.

Lemma bf_get_set_same e lo w v : 0 <= lo -> 0 <= w -> bf_get (bf_set e lo w v) lo w = v mod 2 ^ w.
Proof.
  intros Hlo Hw. apply Z.bits_inj'. intros i Hi. rewrite bf_get_bit, bf_set_bit by lia.
  destruct (Z_lt_ge_dec i w).
  - replace (i <? w) with true by lia. replace (_ && (_ <? _)) with true by lia. cbn.
    rewrite Z.mod_pow2_bits_low by lia. f_equal. lia.
  - replace (i <? w) with false by lia. rewrite Z.mod_pow2_bits_high by lia. done.
Qed.

Lemma bf_get_set_other e lo w v lo' w' :
  0 <= lo -> 0 <= w -> 0 <= lo' -> 0 <= w' -> lo' + w' <= lo \/ lo + w <= lo' ->
  bf_get (bf_set e lo w v) lo' w' = bf_get e lo' w'.
Proof.
  intros. apply Z.bits_inj'. intros i Hi. rewrite !bf_get_bit, bf_set_bit by lia.
  destruct (Z_lt_ge_dec i w'); [|by replace (i <? w') with false by lia].
  replace ((lo <=? i + lo') && (i + lo' <? lo + w)) with false by lia. done.
Qed.

(** Setting a field within the low [n] bits keeps an [n] bit value. *)
Lemma bf_set_fits n e lo w v :
  0 <= lo -> 0 <= w -> lo + w <= n -> 0 <= e < 2 ^ n -> 0 <= bf_set e lo w v < 2 ^ n.
Proof.
  intros Hlo Hw Hh He. replace (bf_set e lo w v) with (bf_set e lo w v mod 2 ^ n); [apply Z.mod_pos_bound; lia|].
  apply Z.bits_inj'. intros i Hi. destruct (Z_lt_ge_dec i n); [by rewrite Z.mod_pow2_bits_low by lia|].
  rewrite Z.mod_pow2_bits_high, bf_set_bit by lia. replace ((lo <=? i) && (i <? lo + w)) with false by lia.
  rewrite <- (Z.mod_small e (2 ^ n)) by lia. symmetry. apply Z.mod_pow2_bits_high. lia.
Qed.

Lemma bf_set_range e lo w v :
  0 <= lo -> 0 <= w -> lo + w <= 64 -> 0 <= e < 2 ^ 64 -> 0 <= bf_set e lo w v < 2 ^ 64.
Proof. apply bf_set_fits. Qed.

Lemma bf_get_range e lo w : 0 <= w -> 0 <= bf_get e lo w < 2 ^ w.
Proof. intros. apply Z.mod_pos_bound. lia. Qed.

Ltac bf_simpl :=
  repeat first [ rewrite bf_get_set_same by lia | rewrite bf_get_set_other by lia ].

(** ** Lists *)

Lemma elem_mid {A} (l1 : list A) x l2 : x ∈ l1 ++ x :: l2.
Proof. apply elem_of_app. right. left. Qed.

(** Array accesses: [None] is an access outside the array. *)
Definition zget {A} (l : list A) (i : Z) : option A := if i <? 0 then None else l !! Z.to_nat i.
Definition zset {A} (l : list A) (i : Z) (v : A) : option (list A) :=
  if (0 <=? i) && (i <? Z.of_nat (length l)) then Some (<[Z.to_nat i := v]> l) else None.

Lemma zget_Some {A} (l : list A) i : 0 <= i < Z.of_nat (length l) -> exists v, zget l i = Some v.
Proof.
  intros Hi. unfold zget. replace (i <? 0) with false by lia. apply lookup_lt_is_Some_2. lia.
Qed.
Lemma zget_lt {A} (l : list A) i v : zget l i = Some v -> 0 <= i < Z.of_nat (length l).
Proof. unfold zget. case_if; [done|]. intros H%lookup_lt_Some. lia. Qed.
Lemma zset_ok {A} (l : list A) i v : 0 <= i < Z.of_nat (length l) -> zset l i v = Some (<[Z.to_nat i := v]> l).
Proof. intros Hi. unfold zset. by replace (_ && _) with true by lia. Qed.
Lemma zget_insert {A} (l : list A) i j v : 0 <= i < Z.of_nat (length l) ->
  zget (<[Z.to_nat i := v]> l) j = if j =? i then Some v else zget l j.
Proof.
  intros Hi. unfold zget. destruct (j =? i) eqn:E; bool_to_prop.
  - subst. replace (i <? 0) with false by lia. apply list_lookup_insert_eq. lia.
  - case_if; [done|]. apply list_lookup_insert_ne. lia.
Qed.
Lemma zget_ext {A} (l k : list A) :
  length l = length k -> (forall i, 0 <= i < Z.of_nat (length l) -> zget l i = zget k i) -> l = k.
Proof.
  intros Hl H. apply list_eq_same_length with (length k); [done|done|]. intros i x y Hi Hx Hy.
  specialize (H (Z.of_nat i) ltac:(lia)). unfold zget in H. replace (_ <? 0) with false in H by lia.
  rewrite Nat2Z.id in H. congruence.
Qed.
Lemma Forall_zget {A} (P : A -> Prop) l : Forall P l <-> forall i v, zget l i = Some v -> P v.
Proof.
  unfold zget. rewrite Forall_lookup. split.
  - intros H i v. destruct (i <? 0); [done|]. apply H.
  - intros H i v E. apply (H (Z.of_nat i)). destruct (Z.ltb_spec (Z.of_nat i) 0); [lia|]. by rewrite Nat2Z.id.
Qed.
Lemma zget_replicate {A} n (v : A) i : 0 <= i < Z.of_nat n -> zget (replicate n v) i = Some v.
Proof. intros Hi. unfold zget. replace (i <? 0) with false by lia. apply lookup_replicate_2. lia. Qed.

(** A counted loop whose body can fault, when it does not. *)
Lemma floop_some {A} (f : Z -> option A -> option A) (g : Z -> A -> A) n lo a :
  (forall i x, lo <= i < lo + Z.of_nat n -> f i (Some x) = Some (g i x)) ->
  floop n lo f (Some a) = Some (floop n lo g a).
Proof.
  revert lo a. induction n as [|n IH]; intros lo a H; cbn [floop]; [done|].
  rewrite H by lia. apply IH. intros; apply H; lia.
Qed.

(** ** Record update

    [r <| f := v |>] is [r] with the field [f] replaced; a record type gets it from an
    instance of [Eta]. *)

Class Eta (R : Type) := EtaOf { eta_of : R -> R }.
Class Setter {R E : Type} (proj : R -> E) := SetterOf { set : E -> R -> R }.
Arguments set {R E} proj {_} v r /.

Ltac setter_for proj :=
  lazymatch type of proj with
  | ?R -> ?E =>
      let i := constr:(@eta_of R _) in
      let i' := eval hnf in i in
      exact (SetterOf R E proj (fun (v : E) (r : R) => ltac:(
        let e := eval cbv beta in (i' r) in
        match e with context C [proj r] => let t := context C [v] in exact t end)))
  end.
#[export] Hint Extern 0 (Setter ?proj) => setter_for proj : typeclass_instances.

Declare Scope record_scope.
Notation "r <| f := v |>" := (set f v r) (at level 1, f at level 0, v at level 99, left associativity,
  format "r <| f  :=  v |>") : record_scope.
#[global] Open Scope record_scope.
