(* ===== verification/Mem.v ===== *)
(** * Byte-addressed memory

    The kernel's data structures live in memory and are reached through
    pointers: the heap's block headers, the page allocator's bitmap, the page
    tables and the I/O buffers.  [mem] is that memory; an access of [n] bytes
    at an address is little-endian, as on x86-64.  A byte cell is read modulo
    256, so a load is in range whatever the memory holds. *)

From S2P Require Import Prelude.

Definition mem : Type := Z -> Z.

Definition ld8 (m : mem) (a : Z) : Z := u8 (m a).
Definition st8 (m : mem) (a v : Z) : mem := fun x => if x =? a then u8 v else m x.

(** Little-endian load and store of [n] bytes. *)
Fixpoint ldn (n : nat) (m : mem) (a : Z) : Z :=
  match n with
  | O => 0
  | S n' => u8 (m a) + 256 * ldn n' m (a + 1)
  end.

Fixpoint stn (n : nat) (m : mem) (a v : Z) : mem :=
  match n with
  | O => m
  | S n' => stn n' (st8 m a v) (a + 1) (v / 256)
  end.

Abbreviation ld16 := (ldn 2).
Abbreviation ld32 := (ldn 4).
Abbreviation ld64 := (ldn 8).
Abbreviation st16 := (stn 2).
Abbreviation st32 := (stn 4).
Abbreviation st64 := (stn 8).

(** Two memories agree on the [n] bytes at [a]. *)
Definition agree (m m' : mem) (a n : Z) : Prop :=
  forall x, a <= x < a + n -> m' x = m x.

(** ** Laws of loads and stores *)

Lemma st8_same m a v : st8 m a v a = u8 v.
Proof. unfold st8. by rewrite Z.eqb_refl. Qed.

Lemma st8_other m a v x : x <> a -> st8 m a v x = m x.
Proof. intros. unfold st8. by rewrite (proj2 (Z.eqb_neq x a)). Qed.

Lemma stn_out n m a v x : x < a \/ a + Z.of_nat n <= x -> stn n m a v x = m x.
Proof.
  revert m a v. induction n as [|n IH]; intros m a v Hx; cbn [stn]; [done|].
  rewrite IH by lia. apply st8_other. lia.
Qed.

Lemma ldn_ext n m m' a : agree m m' a (Z.of_nat n) -> ldn n m' a = ldn n m a.
Proof.
  revert a. induction n as [|n IH]; intros a H; cbn [ldn]; [done|].
  rewrite (H a) by lia. rewrite IH; [done|]. intros x Hx. apply H. lia.
Qed.

(** Bytes that are 0 load as 0. *)
Lemma ldn_zero n m a : (forall x, a <= x < a + Z.of_nat n -> m x = 0) -> ldn n m a = 0.
Proof.
  revert a. induction n as [|n IH]; intros a H; [done|].
  change (ldn (S n) m a) with (u8 (m a) + 256 * ldn n m (a + 1)).
  rewrite IH, H by (intros; try apply H; lia). done.
Qed.

Lemma ldn_range n m a : 0 <= ldn n m a < 256 ^ Z.of_nat n.
Proof.
  revert a. induction n as [|n IH]; intros a; cbn [ldn]; [done|].
  pose proof (IH (a + 1)). pose proof (u8_range (m a)).
  rewrite Nat2Z.inj_succ, Z.pow_succ_r by lia. lia.
Qed.

Lemma ldn_stn_same n m a v : ldn n (stn n m a v) a = v mod 256 ^ Z.of_nat n.
Proof.
  revert m a v. induction n as [|n IH]; intros m a v; cbn [ldn stn].
  - by rewrite Z.mod_1_r.
  - rewrite stn_out by lia. rewrite st8_same, u8_idem, IH. unfold u8.
    rewrite Nat2Z.inj_succ, Z.pow_succ_r by lia.
    rewrite Z.rem_mul_r by lia. lia.
Qed.

Lemma ldn_stn_disj k n m a b v :
  b + Z.of_nat k <= a \/ a + Z.of_nat n <= b -> ldn k (stn n m a v) b = ldn k m b.
Proof. intros H. apply ldn_ext. intros x Hx. apply stn_out. lia. Qed.

Lemma ld64_range m a : 0 <= ld64 m a < 18446744073709551616.
Proof. exact (ldn_range 8 m a). Qed.
Lemma ld32_range m a : 0 <= ld32 m a < 4294967296.
Proof. exact (ldn_range 4 m a). Qed.
Lemma ld16_range m a : 0 <= ld16 m a < 65536.
Proof. exact (ldn_range 2 m a). Qed.

Lemma ld64_st64_same m a v :
  0 <= v < 18446744073709551616 -> ld64 (st64 m a v) a = v.
Proof. intros. rewrite ldn_stn_same. by apply Z.mod_small. Qed.
Lemma ld32_st32_same m a v :
  0 <= v < 4294967296 -> ld32 (st32 m a v) a = v.
Proof. intros. rewrite ldn_stn_same. by apply Z.mod_small. Qed.

#[export] Hint Resolve ld64_range ld32_range ld16_range : word.

Lemma agree_refl m a n : agree m m a n.
Proof. by intros x _. Qed.

Lemma agree_trans m1 m2 m3 a n : agree m1 m2 a n -> agree m2 m3 a n -> agree m1 m3 a n.
Proof. intros H1 H2 x Hx. rewrite H2, H1; done. Qed.

Lemma agree_sub m m' a n b k :
  agree m m' a n -> a <= b -> b + k <= a + n -> agree m m' b k.
Proof. intros H ? ? x Hx. apply H. lia. Qed.

Lemma agree_stn n m a v b k :
  b + k <= a \/ a + Z.of_nat n <= b -> agree m (stn n m a v) b k.
Proof. intros H x Hx. apply stn_out. lia. Qed.

Lemma agree_st8 m a v b k : b + k <= a \/ a + 1 <= b -> agree m (st8 m a v) b k.
Proof. intros H x Hx. apply st8_other. lia. Qed.

#[export] Hint Resolve agree_refl : word.

Arguments ldn : simpl never.
Arguments stn : simpl never.
Arguments st8 : simpl never.

(** Read back through a chain of stores: the load hits the store or passes it. *)
Ltac mem_step :=
  match goal with
  | |- context [ldn ?k (stn ?k ?m ?a ?v) ?a] =>
      rewrite (ldn_stn_same k m a v)
  | |- context [ldn ?k (stn ?n ?m ?a ?v) ?b] =>
      rewrite (ldn_stn_disj k n m a b v) by lia
  end.
Ltac mem_simpl := repeat mem_step.

(** The bytes of a stored number. *)
Lemma stn_byte n m a v j : (j < n)%nat -> stn n m a v (a + Z.of_nat j) = u8 (v / 256 ^ Z.of_nat j).
Proof.
  revert m a v j. induction n as [|n IH]; intros m a v j Hj; [lia|].
  change (stn (S n) m a v) with (stn n (st8 m a v) (a + 1) (v / 256)). destruct j as [|j].
  - rewrite stn_out, Z.add_0_r, st8_same by lia. by rewrite Z.div_1_r.
  - replace (a + Z.of_nat (S j)) with (a + 1 + Z.of_nat j) by lia. rewrite IH by lia.
    rewrite Nat2Z.inj_succ, Z.pow_succ_r, Z.div_div by (try apply Z.pow_pos_nonneg; lia). done.
Qed.

(** Byte accesses as accesses of one byte, for the laws above. *)
Lemma ld8_ldn m a : ld8 m a = ldn 1 m a.
Proof. change (ldn 1 m a) with (u8 (m a) + 256 * 0). unfold ld8. lia. Qed.

(** Loads through stores at addresses that are linear in the same base. *)
Ltac byte_simpl :=
  repeat match goal with |- context [st8 ?m ?a ?v] => change (st8 m a v) with (stn 1 m a v) end;
  rewrite ?ld8_ldn; repeat first [ rewrite ldn_stn_same | rewrite ldn_stn_disj by lia ].
