(* ===== verification/Layout.v ===== *)
(** * Layout of C structures

    A structure declaration is a list of members with their sizes in bytes, in order.
    Objects are read at numeric offsets; each component proves that the offsets it uses
    are those of the declarations. *)

From stdpp Require Import strings.
From S2P Require Import Prelude.

(** Members with their sizes; padding, where the compiler puts some, is a member. *)
Definition layout : Type := list (string * Z).

Fixpoint offset_of (l : layout) (field : string) : option Z :=
  match l with
  | [] => None
  | (f, n) :: l' => if String.eqb f field then Some 0 else o ← offset_of l' field; Some (n + o)
  end.

Definition size_of (l : layout) : Z := foldr (fun f n => f.2 + n) 0 l.

