(* ===== verification/CString.v ===== *)
(** * The freestanding string library, [src/src/string/*.c]

    One definition per C function, over [Mem.mem].  A pointer is its address;
    a loop bounded by a [size_t] is a counted loop, a loop that runs to the NUL
    byte takes fuel and answers [None] when the fuel runs out. *)

From S2P Require Import Prelude Mem.

(** ** The functions *)

Definition memset (m : mem) (bufptr value size : Z) : mem :=
  floop (Z.to_nat size) 0 (fun i m => st8 m (bufptr + i) value) m.

Definition memcpy (m : mem) (dstptr srcptr size : Z) : mem :=
  floop (Z.to_nat size) 0 (fun i m => st8 m (dstptr + i) (ld8 m (srcptr + i))) m.

(** The second loop counts [i] down from [size] to 1; its [k]-th round has
    [i = size - k]. *)
Definition memmove (m : mem) (dstptr srcptr size : Z) : mem :=
  if dstptr <? srcptr
  then floop (Z.to_nat size) 0 (fun i m => st8 m (dstptr + i) (ld8 m (srcptr + i))) m
  else floop (Z.to_nat size) 0
         (fun k m => let i := size - k in
                     st8 m (dstptr + (i - 1)) (ld8 m (srcptr + (i - 1)))) m.

(** The two buffers may lie in different objects, so each has its memory. *)
Definition memcmp2 (ma : mem) (aptr : Z) (mb : mem) (bptr size : Z) : Z :=
  match ploop (Z.to_nat size) 0
          (fun i (_ : unit) =>
             if ld8 ma (aptr + i) <? ld8 mb (bptr + i) then inl (-1)
             else if ld8 mb (bptr + i) <? ld8 ma (aptr + i) then inl 1
             else inr tt) tt with
  | inl r => r
  | inr _ => 0
  end.

Definition memcmp (m : mem) (aptr bptr size : Z) : Z := memcmp2 m aptr m bptr size.

(** The two strings may lie in different objects, so each has its memory. *)
Definition strcmp2 (fuel : nat) (m1 : mem) (s1 : Z) (m2 : mem) (s2 : Z) : option Z :=
  wloop fuel
    (fun p : Z * Z =>
       let (s1, s2) := p in
       if truthy (ld8 m1 s1) && (ld8 m1 s1 =? ld8 m2 s2)
       then inr (s1 + 1, s2 + 1)
       else inl (ld8 m1 s1 - ld8 m2 s2)) (s1, s2).

Definition strcmp (fuel : nat) (m : mem) (s1 s2 : Z) : option Z := strcmp2 fuel m s1 m s2.

(** [NULL] is address 0. *)
Definition memchr2 (fuel : nat) (m : mem) (str ch : Z) : option Z :=
  wloop fuel
    (fun s => if truthy (ld8 m s)
              then if ld8 m s =? u8 ch then inl s else inr (s + 1)
              else inl 0) str.

Definition strlen (fuel : nat) (m : mem) (str : Z) : option Z :=
  wloop fuel
    (fun len => if truthy (ld8 m (str + len)) then inr (len + 1) else inl len) 0.

(** The loop stops after [n] bytes or after copying the NUL; its state is
    [(i, dst, src, m)]. *)
Definition strncpy (fuel : nat) (m : mem) (dst src n : Z) : option mem :=
  wloop fuel
    (fun st : Z * Z * Z * mem =>
       let '(i, dst, src, m) := st in
       if i =? n then inl m
       else let c := ld8 m src in
            let m' := st8 m dst c in
            if truthy c then inr (i + 1, dst + 1, src + 1, m') else inl m')
    (0, dst, src, m).

(** ** NUL-terminated strings *)

(** The C string at [a] is [l]: its bytes, none of them 0, and then a 0. *)
Fixpoint cstr (m : mem) (a : Z) (l : list Z) : Prop :=
  match l with
  | [] => ld8 m a = 0
  | c :: l' => ld8 m a = c /\ c <> 0 /\ cstr m (a + 1) l'
  end.

(** Lexicographic order of byte strings, the order of [strcmp]'s sign. *)
Fixpoint lex_lt (l1 l2 : list Z) : Prop :=
  match l1, l2 with
  | _, [] => False
  | [], _ :: _ => True
  | x :: l1', y :: l2' => x < y \/ (x = y /\ lex_lt l1' l2')
  end.

Lemma ld8_range m a : 0 <= ld8 m a < 256.
Proof. apply u8_range. Qed.
#[export] Hint Resolve ld8_range : word.

Lemma u8_ld8 m a : u8 (ld8 m a) = ld8 m a.
Proof. apply u8_idem. Qed.
#[export] Hint Rewrite u8_ld8 : wordrw.

Lemma cstr_ext m m' a l :
  agree m m' a (Z.of_nat (length l) + 1) -> cstr m a l -> cstr m' a l.
Proof.
  revert a. induction l as [|c l IH]; intros a Ha; cbn [cstr length].
  - unfold ld8. by rewrite (Ha a) by (cbn; lia).
  - intros (H1 & H2 & H3). cbn [length] in Ha. split_and_all; [|done|].
    + unfold ld8. rewrite (Ha a) by lia. done.
    + apply IH; [|done]. intros x Hx. apply Ha. lia.
Qed.

(** The same for memories that agree as bytes. *)
Lemma cstr_ext8 m m' a b l :
  (forall i, 0 <= i <= Z.of_nat (length l) -> ld8 m' (b + i) = ld8 m (a + i)) -> cstr m a l -> cstr m' b l.
Proof.
  revert a b. induction l as [|c l IH]; intros a b Ha; cbn [cstr length].
  - specialize (Ha 0 ltac:(cbn; lia)). rewrite !Z.add_0_r in Ha. congruence.
  - intros (H1 & H2 & H3). cbn [length] in Ha. split_and_all; [|done|].
    + specialize (Ha 0 ltac:(lia)). rewrite !Z.add_0_r in Ha. congruence.
    + apply (IH (a + 1)); [|done]. intros i Hi. rewrite <- !Z.add_assoc. apply Ha. lia.
Qed.

(** The terminator. *)
Lemma cstr_end m a l : cstr m a l -> ld8 m (a + Z.of_nat (length l)) = 0.
Proof.
  revert a. induction l as [|c l IH]; intros a; cbn [cstr length]; [by rewrite Z.add_0_r|].
  intros (_ & _ & H3%IH). rewrite <- H3. f_equal. lia.
Qed.

(** A string determines its memory: there is one string at an address. *)
Lemma cstr_inj m a l1 l2 : cstr m a l1 -> cstr m a l2 -> l1 = l2.
Proof.
  revert a l2. induction l1 as [|c l1 IH]; intros a [|d l2]; cbn [cstr]; intros H1 H2;
    [done| destruct H2; lia | destruct H1; lia |].
  destruct H1 as (? & ? & H1), H2 as (? & ? & H2). f_equal; [lia|]. eauto.
Qed.

(** ** Block operations *)

Lemma memset_at m a v n x :
  0 <= n -> memset m a v n x = if (a <=? x) && (x <? a + n) then u8 v else m x.
Proof.
  intros Hn. unfold memset.
  pose proof (floop_inv (fun i (m' : mem) => forall x,
      m' x = if (a <=? x) && (x <? a + i) then u8 v else m x)
    (fun i m => st8 m (a + i) v) (Z.to_nat n) 0 m) as H.
  rewrite Z.add_0_l, Z2Nat.id in H by lia. apply H.
  - intros y. replace ((a <=? y) && (y <? a + 0)) with false by lia. done.
  - intros i m' Hi Hm y. unfold st8. destruct (y =? a + i) eqn:E; bool_to_prop.
    + replace ((a <=? y) && (y <? a + (i + 1))) with true by lia. done.
    + rewrite Hm. replace (y <? a + (i + 1)) with (y <? a + i) by lia. done.
Qed.

(** The simultaneous copy, what [memmove] promises for any two areas. *)
Definition copied (m : mem) (dst src n : Z) : mem :=
  fun x => if (dst <=? x) && (x <? dst + n) then ld8 m (src + (x - dst)) else m x.

(** The upward loop is a simultaneous copy when it does not run over bytes it
    has still to read. *)
Lemma memcpy_copied m dst src n :
  0 <= n -> dst <= src \/ src + n <= dst ->
  forall x, memcpy m dst src n x = copied m dst src n x.
Proof.
  intros Hn Hov. unfold memcpy.
  pose proof (floop_inv (fun i (m' : mem) => forall x, m' x = copied m dst src i x)
    (fun i m => st8 m (dst + i) (ld8 m (src + i))) (Z.to_nat n) 0 m) as H.
  rewrite Z.add_0_l, Z2Nat.id in H by lia. apply H; unfold copied.
  - intros y. replace ((dst <=? y) && (y <? dst + 0)) with false by lia. done.
  - intros i m' Hi Hm y. unfold st8. destruct (y =? dst + i) eqn:E; bool_to_prop.
    + replace ((dst <=? y) && (y <? dst + (i + 1))) with true by lia.
      rewrite u8_ld8. unfold ld8. rewrite Hm.
      replace ((dst <=? src + i) && (src + i <? dst + i)) with false by lia.
      f_equal. f_equal. lia.
    + rewrite Hm. replace (y <? dst + (i + 1)) with (y <? dst + i) by lia. done.
Qed.

Lemma memmove_down m dst src n :
  0 <= n -> src <= dst ->
  forall x, floop (Z.to_nat n) 0
    (fun k m => let i := n - k in st8 m (dst + (i - 1)) (ld8 m (src + (i - 1)))) m x
  = copied m dst src n x.
Proof.
  intros Hn Hov.
  pose proof (floop_inv (fun k (m' : mem) => forall x,
      m' x = if (dst + (n - k) <=? x) && (x <? dst + n)
             then ld8 m (src + (x - dst)) else m x)
    (fun k m => let i := n - k in st8 m (dst + (i - 1)) (ld8 m (src + (i - 1))))
    (Z.to_nat n) 0 m) as H.
  rewrite Z.add_0_l, Z2Nat.id in H by lia. unfold copied.
  replace (n - n) with 0 in H by lia. rewrite Z.add_0_r in H. apply H.
  - intros y. replace ((dst + (n - 0) <=? y) && (y <? dst + n)) with false by lia. done.
  - intros k m' Hk Hm y. cbn zeta. unfold st8.
    destruct (y =? dst + (n - k - 1)) eqn:E; bool_to_prop.
    + replace ((dst + (n - (k + 1)) <=? y) && (y <? dst + n)) with true by lia.
      rewrite u8_ld8. unfold ld8. rewrite Hm.
      replace (dst + (n - k) <=? src + (n - k - 1)) with false by lia. cbn [andb].
      f_equal. f_equal. lia.
    + rewrite Hm. replace (dst + (n - (k + 1)) <=? y) with (dst + (n - k) <=? y) by lia.
      done.
Qed.

(** C memmove: for any two areas, overlapping or not, [memmove] leaves in the
    destination the bytes the source held before the call and changes nothing else. *)
Lemma memmove_copied m dst src n :
  0 <= n -> forall x, memmove m dst src n x = copied m dst src n x.
Proof.
  intros Hn x. unfold memmove. case_if.
  - apply memcpy_copied; lia.
  - apply memmove_down; lia.
Qed.

Lemma memcpy_out m dst src n x :
  0 <= n -> (x < dst \/ dst + n <= x) -> memcpy m dst src n x = m x.
Proof.
  intros Hn Hx. unfold memcpy.
  pose proof (floop_inv (fun i (m' : mem) => m' x = m x)
    (fun i m => st8 m (dst + i) (ld8 m (src + i))) (Z.to_nat n) 0 m) as H.
  apply H; [done|]. intros i m' Hi Hm. rewrite st8_other by lia. done.
Qed.

(** [memcmp]'s answer follows the first difference. *)
Lemma memcmp_spec m a b n :
  0 <= n ->
  let same k := forall i, 0 <= i < k -> ld8 m (a + i) = ld8 m (b + i) in
  (memcmp m a b n = 0 /\ same n) \/
  (exists k, 0 <= k < n /\ same k /\ ld8 m (a + k) < ld8 m (b + k) /\ memcmp m a b n = -1) \/
  (exists k, 0 <= k < n /\ same k /\ ld8 m (b + k) < ld8 m (a + k) /\ memcmp m a b n = 1).
Proof.
  intros Hn same. unfold memcmp, memcmp2.
  match goal with |- context [ploop ?nn ?lo ?f ?s] =>
    pose proof (ploop_inv (fun i (_ : unit) => same i)
      (fun r => exists k, 0 <= k < n /\ same k /\
         ((r = -1 /\ ld8 m (a + k) < ld8 m (b + k)) \/
          (r = 1 /\ ld8 m (b + k) < ld8 m (a + k)))) f nn lo s) as H;
    rewrite Z.add_0_l, Z2Nat.id in H by lia;
    destruct (ploop nn lo f s) as [r|[]]; cbn beta iota in H |- *
  end.
  - right. destruct H as (k & Hk & Hs & Hr).
    + intros i Hi. lia.
    + intros i _ Hi Hs. case_if; [exists i; split_and_all; [lia|lia|done|auto]|].
      case_if; [exists i; split_and_all; [lia|lia|done|auto]|].
      intros j Hj. destruct (decide (j = i)) as [->|]; [lia|]. apply Hs. lia.
    + destruct Hr as [[-> Hr]|[-> Hr]]; [left|right]; eauto 10.
  - left. split; [done|]. apply H; [intros i Hi; lia|].
    intros i _ Hi Hs. case_if; [exists i; split_and_all; [lia|lia|done|auto]|].
    case_if; [exists i; split_and_all; [lia|lia|done|auto]|].
    intros j Hj. destruct (decide (j = i)) as [->|]; [lia|]. apply Hs. lia.
Qed.

Lemma memcmp_0 m a b n :
  0 <= n -> memcmp m a b n = 0 <-> (forall i, 0 <= i < n -> ld8 m (a + i) = ld8 m (b + i)).
Proof.
  intros Hn. destruct (memcmp_spec m a b n Hn) as [[-> H]|[(k & Hk & _ & Hl & ->)|(k & Hk & _ & Hl & ->)]].
  - done.
  - split; [done|]. intros H. specialize (H k Hk). lia.
  - split; [done|]. intros H. specialize (H k Hk). lia.
Qed.

(** ** String operations *)

Lemma cstr_byte m a l : cstr m a l -> forall i c, l !! i = Some c ->
  ld8 m (a + Z.of_nat i) = c /\ c <> 0.
Proof.
  revert a. induction l as [|d l IH]; intros a H i c Hi; [done|].
  destruct H as (H1 & H2 & H3). destruct i as [|i]; cbn in Hi.
  - injection Hi as <-. rewrite Z.add_0_r. done.
  - destruct (IH _ H3 i c Hi) as [<- ?]. split; [f_equal; lia|done].
Qed.

Lemma strlen_from m a l k fuel :
  cstr m (a + k) l -> (length l < fuel)%nat ->
  wloop fuel (fun len => if truthy (ld8 m (a + len)) then inr (len + 1) else inl len) k
  = Some (k + Z.of_nat (length l)).
Proof.
  revert k fuel. induction l as [|c l IH]; intros k fuel H Hf;
    destruct fuel as [|fuel]; cbn in Hf; [lia| |lia|]; cbn [wloop].
  - cbn in H. rewrite H. cbn. f_equal. lia.
  - destruct H as (H1 & H2 & H3). rewrite H1, (truthy_nz c H2). cbn [negb].
    rewrite IH; [f_equal; cbn [length]; lia| |lia].
    replace (a + (k + 1)) with (a + k + 1) by lia. done.
Qed.

(** [strlen] counts the bytes before the NUL. *)
Lemma strlen_cstr m a l fuel :
  cstr m a l -> (length l < fuel)%nat -> strlen fuel m a = Some (Z.of_nat (length l)).
Proof.
  intros H Hf. unfold strlen. rewrite (strlen_from m a l 0); [done| |done].
  by rewrite Z.add_0_r.
Qed.

Lemma strcmp2_cstr m m' l1 l2 a b fuel :
  cstr m a l1 -> cstr m' b l2 -> (length l1 < fuel)%nat ->
  exists r, strcmp2 fuel m a m' b = Some r /\
    (r = 0 <-> l1 = l2) /\ (r < 0 <-> lex_lt l1 l2).
Proof.
  unfold strcmp2. revert l2 a b fuel.
  induction l1 as [|c l1 IH]; intros l2 a b fuel H1 H2 Hf;
    destruct fuel as [|fuel]; cbn in Hf; [lia| |lia|]; cbn [wloop].
  - cbn [cstr] in H1. rewrite H1. cbn [truthy negb Z.eqb andb].
    eexists. split; [done|]. destruct l2 as [|d l2]; cbn [cstr lex_lt] in *.
    + rewrite H2. split; [done|lia].
    + destruct H2 as (H2 & H3 & _). pose proof (ld8_range m' b).
      split; [split; [lia|done]|]. split; [done|lia].
  - destruct H1 as (H1 & H1' & H1''). rewrite H1, (truthy_nz c H1'). cbn [negb andb].
    destruct l2 as [|d l2]; cbn [cstr] in H2.
    + rewrite H2. replace (c =? 0) with false by lia.
      pose proof (ld8_range m a). eexists. split; [done|]. cbn [lex_lt].
      split; [split; [lia|done]|lia].
    + destruct H2 as (H2 & H2' & H2''). rewrite H2. destruct (c =? d) eqn:E; bool_to_prop.
      * destruct (IH l2 (a + 1) (b + 1) fuel H1'' H2'' ltac:(lia)) as (r & Hr & Hz & Hl).
        exists r. split; [done|]. subst d. cbn [lex_lt]. split.
        -- rewrite Hz. split; [congruence|by intros [= ->]].
        -- rewrite Hl. intuition lia.
      * eexists. split; [done|]. cbn [lex_lt]. split; [split; [lia|congruence]|].
        intuition lia.
Qed.

(** The first occurrence of [ch], or NULL when the string has none. *)
Lemma memchr2_cstr m a l ch fuel :
  cstr m a l -> (length l < fuel)%nat ->
  (memchr2 fuel m a ch = Some 0 /\ (u8 ch ∉ l)) \/
  (exists k, l !! k = Some (u8 ch) /\ (u8 ch ∉ take k l) /\
             memchr2 fuel m a ch = Some (a + Z.of_nat k)).
Proof.
  unfold memchr2. revert a fuel. induction l as [|c l IH]; intros a fuel H Hf;
    destruct fuel as [|fuel]; cbn in Hf; [lia| |lia|]; cbn [wloop cstr] in *.
  - rewrite H. left. split; [done|]. apply not_elem_of_nil.
  - destruct H as (H1 & H2 & H3). rewrite H1, (truthy_nz c H2). cbn [negb].
    destruct (c =? u8 ch) eqn:E; bool_to_prop.
    + right. exists 0%nat. rewrite <- E. split_and_all; [done|apply not_elem_of_nil|].
      f_equal. lia.
    + destruct (IH (a + 1) fuel H3 ltac:(lia)) as [[-> Hn]|(k & Hk & Hn & ->)].
      * left. split; [done|]. apply not_elem_of_cons. split; [lia|done].
      * right. exists (S k). split_and_all; [done| |f_equal; lia].
        cbn [take]. apply not_elem_of_cons. split; [lia|done].
Qed.

(** ** Properties *)

(** [memmove] copies correctly whatever the overlap: byte [x] of the
    destination holds what the source held before the call, and every byte
    outside the destination is unchanged. *)
Theorem memmove_handles_overlap (m : mem) (dst src n x : Z) :
  0 <= n ->
  memmove m dst src n x =
    if (dst <=? x) && (x <? dst + n) then ld8 m (src + (x - dst)) else m x.
Proof. intros Hn. by apply memmove_copied. Qed.

Lemma memmove_handles_overlap_witness :
  memmove (fun x => x) 3 1 4 5 = 3 /\ memmove (fun x => x) 1 3 4 2 = 4.
Proof.
  split.
  - rewrite (memmove_handles_overlap (fun x => x) 3 1 4 5); [reflexivity|lia].
  - rewrite (memmove_handles_overlap (fun x => x) 1 3 4 2); [reflexivity|lia].
Defined.

(** On NUL-terminated strings [strlen], [strcmp] and [memchr2] return (fuel
    above the length of the string is enough): the length is the number of bytes
    before the NUL, the comparison is 0 exactly for equal strings and negative
    exactly when the first is smaller in byte order, and the search finds the first
    occurrence or NULL. *)
Theorem string_scans_correct (m : mem) (a b ch : Z) (l1 l2 : list Z) (fuel : nat) :
  cstr m a l1 -> cstr m b l2 -> (length l1 < fuel)%nat ->
  strlen fuel m a = Some (Z.of_nat (length l1)) /\
  (exists r, strcmp fuel m a b = Some r /\ (r = 0 <-> l1 = l2) /\ (r < 0 <-> lex_lt l1 l2)) /\
  ((memchr2 fuel m a ch = Some 0 /\ (u8 ch ∉ l1)) \/
   (exists k, l1 !! k = Some (u8 ch) /\ (u8 ch ∉ take k l1) /\
              memchr2 fuel m a ch = Some (a + Z.of_nat k))).
Proof.
  intros H1 H2 Hf. split_and_all; [by apply strlen_cstr|by apply strcmp2_cstr|by apply memchr2_cstr].
Qed.

(** ["ab"] at 16 and ["b"] at 32. *)
Definition demo_strings : mem :=
  fun x => if x =? 16 then 97 else if x =? 17 then 98 else if x =? 32 then 98 else 0.

Lemma string_scans_correct_witness :
  strlen 3 demo_strings 16 = Some 2 /\ memchr2 3 demo_strings 16 98 = Some 17 /\
  exists r, strcmp 3 demo_strings 16 32 = Some r /\ r < 0.
Proof.
  assert (H1 : cstr demo_strings 16 [97; 98]) by (repeat split; discriminate).
  assert (H2 : cstr demo_strings 32 [98]) by (repeat split; discriminate).
  destruct (string_scans_correct demo_strings 16 32 98 [97; 98] [98] 3 H1 H2 ltac:(cbn; lia))
    as (Hl & (r & Hr & _ & Hlt) & _).
  split; [exact Hl|]. split; [reflexivity|]. exists r. split; [exact Hr|].
  apply Hlt. left. reflexivity.
Defined.
