(* ===== verification/Kmem.v ===== *)
(** * The kernel heap, [src/src/kmem/*.c] and [src/src/include/kmem.h]

    A first-fit allocator over the array [heap] of 16 MiB.  Every block starts
    with a 40 byte header ([struct meta_block]) that lives in the heap itself:
    [free] at offset 0, [size] at 8, [next] at 16, [prev] at 24, [ptr] at 32,
    and the data from 40 on.  The header fields are loads and stores of
    [Mem.mem], so a write through a stray pointer would corrupt them here as it
    does in the kernel. *)

From S2P Require Import Prelude Mem CString.

Definition HEAP_SIZE : Z := 16777216.
Definition META_BLOCK_SIZE : Z := 40.

Definition align4 (x : Z) : Z := u64 (u64 ((u64 (x - 1) >>> 2) <<< 2) + 4).

(** ** [struct meta_block] *)

Definition b_free (m : mem) (b : Z) : Z := ld32 m b.
Definition b_size (m : mem) (b : Z) : Z := ld64 m (b + 8).
Definition b_next (m : mem) (b : Z) : Z := ld64 m (b + 16).
Definition b_prev (m : mem) (b : Z) : Z := ld64 m (b + 24).
Definition b_ptr (m : mem) (b : Z) : Z := ld64 m (b + 32).
Definition b_data (b : Z) : Z := b + 40.

Definition set_free (m : mem) (b v : Z) : mem := st32 m b v.
Definition set_size (m : mem) (b v : Z) : mem := st64 m (b + 8) v.
Definition set_next (m : mem) (b v : Z) : mem := st64 m (b + 16) v.
Definition set_prev (m : mem) (b v : Z) : mem := st64 m (b + 24) v.
Definition set_ptr (m : mem) (b v : Z) : mem := st64 m (b + 32) v.

(** ** The allocator's globals and the memory they point into *)

Record kheap := KHeap { kmem : mem; brk : Z; endp : Z; base : Z }.

Definition with_mem (h : kheap) (m : mem) : kheap := KHeap m (brk h) (endp h) (base h).
Definition with_base (h : kheap) (b : Z) : kheap := KHeap (kmem h) (brk h) (endp h) b.

(** Walks over the block list: each block takes at least its 40 byte header, so
    a list has at most [HEAP_SIZE / 40] blocks. *)
Definition max_blocks : nat := Z.to_nat (HEAP_SIZE / META_BLOCK_SIZE + 2).

(** The [while] loop of [find_block]; the answer is the block found (0 when
    there is none) and the value left in [*last]. *)
Definition find_block (h : kheap) (last size : Z) : option (Z * Z) :=
  wloop max_blocks
    (fun p : Z * Z =>
       let (b, last) := p in
       if truthy b && (negb (truthy (b_free (kmem h) b)) || (b_size (kmem h) b <? size))
       then inr (b_next (kmem h) b, b)
       else inl (b, last)) (base h, last).

Definition kmem_init (heap : Z) (m : mem) : kheap := KHeap m heap (heap + HEAP_SIZE) 0.

(** [(void * )-1] is [u64 (-1)]. *)
Definition sbrk (h : kheap) (size : Z) : kheap * Z :=
  if size =? 0 then (h, brk h)
  else if endp h <? u64 (brk h + size) then (h, u64 (-1))
  else (KHeap (kmem h) (u64 (brk h + size)) (endp h) (base h), brk h).

Definition split (m : mem) (block size : Z) : mem :=
  let newblock := u64 (b_data block + size) in
  let m := set_size m newblock (u64 (b_size m block - size - META_BLOCK_SIZE)) in
  let m := set_next m newblock (b_next m block) in
  let m := set_free m newblock 1 in
  let m := set_ptr m newblock (b_data newblock) in
  let m := set_prev m newblock block in
  let m := set_next m block newblock in
  let m := set_size m block size in
  if truthy (b_next m newblock)
  then set_prev m (b_next m newblock) newblock
  else m.

Definition extend_heap (h : kheap) (last size : Z) : kheap * Z :=
  let old_break := snd (sbrk h 0) in
  let (h, new_break) := sbrk h (u64 (META_BLOCK_SIZE + size)) in
  if new_break =? u64 (-1) then (h, 0)
  else
    let m := set_size (kmem h) old_break size in
    let m := set_free m old_break 0 in
    let m := set_next m old_break 0 in
    let m := set_prev m old_break 0 in
    let m := set_ptr m old_break (b_data old_break) in
    let m := if truthy last then set_next m last old_break else m in
    (with_mem h m, old_break).

(** The pointer [kmalloc] returns is 0 when it fails. *)
Definition kmalloc (h : kheap) (size : Z) : option (kheap * Z) :=
  let s := align4 size in
  if truthy (base h) then
    '(block, last) ← find_block h (base h) s;
    if truthy block then
      let m := if META_BLOCK_SIZE + 4 <=? u64 (b_size (kmem h) block - s)
               then split (kmem h) block s else kmem h in
      let m := set_free m block 0 in
      Some (with_mem h m, b_data block)
    else
      let (h, block) := extend_heap h last s in
      if truthy block then Some (h, b_data block) else Some (h, 0)
  else
    let (h, block) := extend_heap h 0 s in
    if truthy block then Some (with_base h block, b_data block) else Some (h, 0).

Definition merge_blocks (m : mem) (block : Z) : mem :=
  let m :=
    if truthy (b_next m block) && truthy (b_free m (b_next m block)) then
      let m := set_size m block
                 (u64 (b_size m block + (META_BLOCK_SIZE + b_size m (b_next m block)))) in
      set_next m block (b_next m (b_next m block))
    else m in
  if truthy (b_next m block) then set_prev m (b_next m block) block else m.

Definition get_last_block (h : kheap) : option Z :=
  wloop max_blocks
    (fun current =>
       if truthy current && truthy (b_next (kmem h) current)
       then inr (b_next (kmem h) current) else inl current) (base h).

Definition get_block_addr (p : Z) : Z := u64 (p - META_BLOCK_SIZE).

Definition is_addr_valid (h : kheap) (p : Z) : bool :=
  if truthy (base h) then
    if (base h <? p) && (p <? snd (sbrk h 0))
    then p =? b_ptr (kmem h) (get_block_addr p)
    else false
  else false.

Definition cbrk (h : kheap) (addr : Z) : kheap * Z :=
  if (endp h <=? addr) || (addr <? brk h) then (h, -1)
  else (KHeap (kmem h) addr (endp h) (base h), 0).

Definition kfree (h : kheap) (ptr : Z) : option kheap :=
  if is_addr_valid h ptr then
    let block := get_block_addr ptr in
    let m := set_free (kmem h) block 1 in
    let '(m, block) :=
      if truthy (b_prev m block) && truthy (b_free m (b_prev m block))
      then (merge_blocks m (b_prev m block), b_prev m block)
      else (m, block) in
    if truthy (b_next m block) then Some (with_mem h (merge_blocks m block))
    else
      let h :=
        if truthy (b_prev m block)
        then with_mem h (set_next m (b_prev m block) 0)
        else with_base (with_mem h m) 0 in
      last ← get_last_block h;
      if block =? last then Some (fst (cbrk h block)) else Some h
  else Some h.

Definition krealloc (h : kheap) (ptr size : Z) : option (kheap * Z) :=
  if negb (truthy ptr) then kmalloc h size
  else if size =? 0 then h ← kfree h ptr; Some (h, 0)
  else
    let s := align4 size in
    let block := u64 (ptr - META_BLOCK_SIZE) in
    let m := kmem h in
    if s <=? b_size m block then
      let m := if META_BLOCK_SIZE + 4 <=? u64 (b_size m block - s)
               then split m block s else m in
      Some (with_mem h m, ptr)
    else if truthy (b_next m block) && truthy (b_free m (b_next m block)) &&
            (s <=? u64 (b_size m block + META_BLOCK_SIZE + b_size m (b_next m block)))
    then
      let combined := u64 (b_size m block + META_BLOCK_SIZE + b_size m (b_next m block)) in
      let next := b_next m block in
      let m := set_size m block combined in
      let m := set_next m block (b_next m next) in
      let m := if truthy (b_next m block) then set_prev m (b_next m block) block else m in
      let m := if META_BLOCK_SIZE + 4 <=? u64 (b_size m block - s)
               then split m block s else m in
      Some (with_mem h m, ptr)
    else
      '(h, newptr) ← kmalloc h size;
      if negb (truthy newptr) then Some (h, 0)
      else
        let m := kmem h in
        let newblock := u64 (newptr - META_BLOCK_SIZE) in
        let copy_size :=
          if b_size m block <? b_size m newblock then b_size m block else b_size m newblock in
        (* for (size_t i = 0; i < copy_size; i++) dst[i] = src[i]; *)
        let m := floop (Z.to_nat copy_size) 0
                   (fun i m => st8 m (newptr + i) (ld8 m (ptr + i))) m in
        h ← kfree (with_mem h m) ptr;
        Some (h, newptr).
