(* ===== verification/KmemInv.v ===== *)
(** * The heap's block lists: ghost structure and how the primitive list
    operations of [src/src/kmem/*.c] act on it

    The allocator keeps a doubly linked list of blocks sorted by address, but
    not a tidy one: a block appended by [extend_heap] has no [prev] link until a
    neighbour is freed, and the blocks need not touch.  [seg] describes a
    segment of such a list in memory, with the ghost list of its blocks. *)

From S2P Require Import Prelude Mem CString Kmem.

Record blk := Blk { ba : Z; bsz : Z; bfree : bool }.

#[export] Instance blk_eq_dec : EqDecision blk.
Proof. solve_decision. Defined.

(** The first address after a block. *)
Definition bend (b : blk) : Z := ba b + 40 + bsz b.

(** The header of [b] is in place; its [prev] is missing or is [pred]. *)
Definition hdr (m : mem) (pred : Z) (b : blk) : Prop :=
  b_size m (ba b) = bsz b /\
  b_free m (ba b) = (if bfree b then 1 else 0) /\
  b_ptr m (ba b) = ba b + 40 /\
  (b_prev m (ba b) = 0 \/ b_prev m (ba b) = pred).

(** [seg m pred lo a bs pred' lo' a']: starting at address [a], reached from
    block [pred], the list runs through the blocks [bs], all of them at [lo] or
    above and each after the end of the one before; it leaves block [pred'],
    whose end is [lo'], towards address [a']. *)
Fixpoint seg (m : mem) (pred lo a : Z) (bs : list blk) (pred' lo' a' : Z) : Prop :=
  match bs with
  | [] => pred' = pred /\ lo' = lo /\ a' = a
  | b :: bs' =>
      a = ba b /\ lo <= a /\ 0 <= bsz b /\ hdr m pred b /\
      seg m a (bend b) (b_next m a) bs' pred' lo' a'
  end.

(** Field accesses as loads and stores. *)
Ltac kunfold := unfold set_free, set_size, set_next, set_prev, set_ptr,
  b_free, b_size, b_next, b_prev, b_ptr, b_data, META_BLOCK_SIZE in *.

Lemma seg_app m bs1 bs2 pred lo a pred' lo' a' :
  seg m pred lo a (bs1 ++ bs2) pred' lo' a' <->
  exists p l e, seg m pred lo a bs1 p l e /\ seg m p l e bs2 pred' lo' a'.
Proof.
  revert pred lo a. induction bs1 as [|b bs1 IH]; intros pred lo a; cbn [app seg].
  - split; [intros H; by exists pred, lo, a|]. intros (p & l & e & (-> & -> & ->) & H). done.
  - rewrite IH. split.
    + intros (-> & ? & ? & ? & p & l & e & Hs1 & Hs2). exists p, l, e. done.
    + intros (p & l & e & (-> & ? & ? & ? & Hs1) & Hs2).
      split_and_all; [done..|]. exists p, l, e. done.
Qed.

(** A segment seen from one of its blocks. *)
Lemma seg_focus m bs1 b bs2 pred lo a pred' lo' a' :
  seg m pred lo a (bs1 ++ b :: bs2) pred' lo' a' <->
  exists p l, seg m pred lo a bs1 p l (ba b) /\ l <= ba b /\ 0 <= bsz b /\ hdr m p b /\
    seg m (ba b) (bend b) (b_next m (ba b)) bs2 pred' lo' a'.
Proof.
  rewrite seg_app. cbn [seg]. split.
  - intros (p & l & e & Hs1 & -> & ? & ? & ? & Hs2). exists p, l. done.
  - intros (p & l & Hs1 & ? & ? & ? & Hs2). exists p, l, (ba b). split_and_all; done.
Qed.

Lemma seg_le m pred lo a bs pred' lo' a' : seg m pred lo a bs pred' lo' a' -> lo <= lo'.
Proof.
  revert pred lo a. induction bs as [|b bs IH]; intros pred lo a; cbn [seg]; [lia|].
  intros (-> & ? & ? & _ & H%IH). unfold bend in *. lia.
Qed.

Lemma seg_bounds m pred lo a bs pred' lo' a' b :
  seg m pred lo a bs pred' lo' a' -> b ∈ bs -> lo <= ba b /\ 0 <= bsz b /\ bend b <= lo'.
Proof.
  revert pred lo a. induction bs as [|c bs IH]; intros pred lo a H Hin; [by apply not_elem_of_nil in Hin|].
  destruct H as (-> & ? & ? & _ & H). pose proof (seg_le _ _ _ _ _ _ _ _ H).
  apply elem_of_cons in Hin as [->|Hin]; [lia|].
  destruct (IH _ _ _ H Hin) as (? & ? & ?). unfold bend in *. lia.
Qed.

(** Only the headers of the blocks matter. *)
Lemma seg_frame m m' pred lo a bs pred' lo' a' :
  (forall b, b ∈ bs -> agree m m' (ba b) 40) ->
  seg m pred lo a bs pred' lo' a' -> seg m' pred lo a bs pred' lo' a'.
Proof.
  revert pred lo a. induction bs as [|b bs IH]; intros pred lo a Hf; cbn [seg]; [done|].
  intros (-> & Hlo & Hsz & (H1 & H2 & H3 & H4) & H5).
  assert (Hb : agree m m' (ba b) 40) by (apply Hf; left).
  assert (Hl : forall o, 0 <= o <= 32 -> ld64 m' (ba b + o) = ld64 m (ba b + o)).
  { intros o Ho. apply ldn_ext. apply (agree_sub _ _ _ _ _ _ Hb); lia. }
  assert (Hl4 : ld32 m' (ba b) = ld32 m (ba b)).
  { apply ldn_ext. apply (agree_sub _ _ _ _ _ _ Hb); lia. }
  unfold hdr. kunfold. rewrite !Hl, Hl4 by lia.
  split_and_all; try done. apply IH; [|done]. intros c Hc. apply Hf. by right.
Qed.

(** A change of memory below or above the segment leaves it alone. *)
Lemma seg_frame_in m m' pred lo a bs pred' lo' a' :
  (forall x, lo <= x < lo' -> m' x = m x) ->
  seg m pred lo a bs pred' lo' a' -> seg m' pred lo a bs pred' lo' a'.
Proof.
  intros Hf H. apply (seg_frame m); [|done]. intros b Hb x Hx.
  destruct (seg_bounds _ _ _ _ _ _ _ _ _ H Hb) as (? & ? & ?). apply Hf. unfold bend in *. lia.
Qed.

(** Where a segment starts: at its first block, or where it ends if it is empty. *)
Lemma seg_head_pos m pred lo a bs pred' lo' a' :
  seg m pred lo a bs pred' lo' a' -> 0 < lo -> bs <> [] -> 0 < a.
Proof. destruct bs as [|b bs]; [done|]. intros (-> & ? & _) ? _. lia. Qed.

Lemma seg_null m pred lo bs pred' lo' :
  seg m pred lo 0 bs pred' lo' 0 -> 0 < lo -> bs = [] /\ pred' = pred /\ lo' = lo.
Proof.
  destruct bs as [|b bs]; cbn [seg]; [intros (-> & -> & _) _; done|]. intros (H & ? & _) ?. lia.
Qed.

Lemma seg_cons_of_nz m pred lo a bs pred' lo' :
  seg m pred lo a bs pred' lo' 0 -> a <> 0 -> exists b bs', bs = b :: bs' /\ ba b = a.
Proof. destruct bs as [|b bs]; cbn [seg]; [intros (_ & _ & <-); done|]. intros (-> & _). eauto. Qed.

(** Moving the lower limit of a segment. *)
Lemma seg_lower m pred lo lo2 a bs pred' lo' a' :
  seg m pred lo a bs pred' lo' a' -> lo2 <= lo ->
  exists lo'', seg m pred lo2 a bs pred' lo'' a' /\ lo'' <= lo'.
Proof.
  destruct bs as [|b bs]; cbn [seg].
  - intros (-> & -> & ->) ?. exists lo2. done.
  - intros (-> & Hl & Hr) ?. exists lo'. split; [|lia]. split_and_all; try lia; try apply Hr.
Qed.

(** ** Relinking the [prev] field of the first block of a segment *)

(** What [split], [merge_blocks] and [krealloc] do last. *)
Definition relink (m : mem) (a pred : Z) : mem := if truthy a then set_prev m a pred else m.

Lemma relink_out m a pred x : a = 0 \/ x < a + 24 \/ a + 32 <= x -> relink m a pred x = m x.
Proof. intros H. unfold relink. case_if; [|done]. kunfold. apply stn_out. lia. Qed.

Lemma seg_relink m pred lo a bs pred' lo' q :
  seg m pred lo a bs pred' lo' 0 -> 0 < lo -> lo' < 18446744073709551616 ->
  0 <= q < 18446744073709551616 ->
  exists pred'', seg (relink m a q) q lo a bs pred'' lo' 0.
Proof.
  intros H Hlo Hhi Hq. destruct bs as [|b bs]; cbn [seg] in *.
  - destruct H as (-> & -> & <-). exists q. done.
  - destruct H as (-> & Hl & Hsz & (H1 & H2 & H3 & H4) & H5). exists pred'.
    unfold relink. rewrite truthy_nz by lia. unfold hdr. kunfold. mem_simpl.
    split_and_all; try done.
    + right. by apply Z.mod_small.
    + eapply seg_frame_in, H5. intros x Hx. unfold bend in Hx. apply stn_out. lia.
Qed.

Lemma ldn_relink k m a q x :
  a = 0 \/ x + Z.of_nat k <= a + 24 -> ldn k (relink m a q) x = ldn k m x.
Proof.
  intros [->|H]; [done|]. apply ldn_ext. intros y Hy. apply relink_out. lia.
Qed.

Lemma seg_head_ge m pred lo a bs pred' lo' :
  seg m pred lo a bs pred' lo' 0 -> a = 0 \/ lo <= a.
Proof. destruct bs as [|b bs]; cbn [seg]; [intros (_ & _ & <-); by left|]. intros (-> & ? & _). by right. Qed.

(** Loads of the fields of one header through a relink further up. *)
Ltac relink_simpl Hge :=
  repeat match goal with
  | |- context [ldn ?k (relink ?m ?a ?q) ?x] =>
      rewrite (ldn_relink k m a q x) by (destruct Hge; [left; done|right; cbn in *; lia])
  end.

Section Ops.
Context (m : mem) (pred lo a pred' lo' : Z).
Hypothesis Hlo : 0 < lo.
Hypothesis Hlo' : lo' < 18446744073709551616.

(** [split] cuts a block in two; the second part is free. *)
Lemma seg_split bs1 b bs2 s :
  seg m pred lo a (bs1 ++ b :: bs2) pred' lo' 0 -> 0 <= s -> s + 40 <= bsz b ->
  exists p', seg (split m (ba b) s) pred lo a
    (bs1 ++ Blk (ba b) s (bfree b) :: Blk (ba b + 40 + s) (bsz b - s - 40) true :: bs2) p' lo' 0.
Proof.
  intros H Hs Hsz. apply seg_focus in H as (p & l & H1 & Hl & Hb & (Hh1 & Hh2 & Hh3 & Hh4) & H2).
  pose proof (seg_le _ _ _ _ _ _ _ _ H1) as Hl1.
  pose proof (seg_le _ _ _ _ _ _ _ _ H2) as Hl2. unfold bend in Hl2.
  pose proof (seg_head_ge _ _ _ _ _ _ _ H2) as Hge. unfold bend in Hge.
  set (nx := b_next m (ba b)) in *.
  unfold split. rewrite (u64_small (b_data (ba b) + s)) by (unfold b_data; lia).
  replace (b_data (ba b) + s) with (ba b + 40 + s) by (unfold b_data; lia).
  set (nb := ba b + 40 + s) in *. rewrite Hh1, (u64_small (bsz b - _ - _)) by (unfold META_BLOCK_SIZE; lia).
  match goal with |- context [truthy (b_next ?mm nb)] => set (m2 := mm) end.
  assert (Enx : b_next m2 nb = nx).
  { subst m2. unfold nx. kunfold. mem_simpl. rewrite Z.mod_small; [done|]. apply ld64_range. }
  rewrite Enx. change (if truthy nx then set_prev m2 nx nb else m2) with (relink m2 nx nb).
  assert (Hfr : forall x, x < ba b \/ bend b <= x -> m2 x = m x).
  { intros x Hx. unfold bend in Hx. subst m2. kunfold. repeat rewrite stn_out by lia. done. }
  destruct (seg_relink m2 (ba b) (bend b) nx bs2 pred' lo' nb) as (p' & Hrl);
    [eapply seg_frame_in, H2; intros x Hx; apply Hfr; lia|unfold bend; lia|lia|lia|].
  set (mF := relink m2 nx nb) in *.
  assert (Hm : forall v, 0 <= v < 18446744073709551616 -> v mod 256 ^ Z.of_nat 8 = v)
    by (intros; by apply Z.mod_small).
  assert (E1 : b_next mF (ba b) = nb).
  { subst mF. kunfold. relink_simpl Hge. subst m2. mem_simpl. apply Hm. lia. }
  assert (E2 : b_next mF nb = nx).
  { rewrite <- Enx. subst mF. kunfold. relink_simpl Hge. done. }
  exists p'. apply seg_focus. exists p, l. cbn [ba bsz]. rewrite E1. cbn [seg]. cbn [ba bsz].
  rewrite E2. replace (bend (Blk nb _ _)) with (bend b) by (unfold bend; cbn; lia).
  split_and_all; try lia; try done.
  - eapply seg_frame_in, H1. intros x Hx. subst mF. rewrite relink_out by lia.
    apply Hfr. lia.
  - unfold hdr. cbn [ba bsz bfree]. subst mF. kunfold. relink_simpl Hge. subst m2. mem_simpl.
    rewrite !Hm by lia. done.
  - unfold hdr. cbn [ba bsz bfree]. subst mF. kunfold. relink_simpl Hge. subst m2. mem_simpl.
    rewrite !Hm by lia. split_and_all; [lia|done|done|by right].
Qed.

(** [merge_blocks] on a block whose successor is free swallows the successor. *)
Lemma seg_merge_free bs1 b b2 bs2 :
  seg m pred lo a (bs1 ++ b :: b2 :: bs2) pred' lo' 0 -> bfree b2 = true ->
  exists p' l', seg (merge_blocks m (ba b)) pred lo a
    (bs1 ++ Blk (ba b) (bsz b + 40 + bsz b2) (bfree b) :: bs2) p' l' 0 /\ l' <= lo'.
Proof.
  intros H Hf. apply seg_focus in H as (p & l & H1 & Hl & Hb & (Hh1 & Hh2 & Hh3 & Hh4) & H2).
  cbn [seg] in H2. destruct H2 as (En & Hl2 & Hb2 & (Hg1 & Hg2 & Hg3 & Hg4) & H2).
  rewrite Hf in Hg2.
  pose proof (seg_le _ _ _ _ _ _ _ _ H1) as Hle1. pose proof (seg_le _ _ _ _ _ _ _ _ H2) as Hle2.
  pose proof (seg_head_ge _ _ _ _ _ _ _ H2) as Hge. unfold bend in *.
  rewrite En in *. set (nx := b_next m (ba b2)) in *.
  unfold merge_blocks. rewrite En, (truthy_nz (ba b2)), Hg2 by lia. cbn [truthy negb Z.eqb andb].
  rewrite Hh1, Hg1, u64_small by (unfold META_BLOCK_SIZE; lia).
  set (sz := bsz b + (META_BLOCK_SIZE + bsz b2)).
  assert (Hsz : sz = bsz b + 40 + bsz b2) by (unfold sz, META_BLOCK_SIZE; lia).
  assert (Hm : forall v, 0 <= v < 18446744073709551616 -> v mod 256 ^ Z.of_nat 8 = v)
    by (intros; by apply Z.mod_small).
  match goal with |- context [truthy (b_next ?mm (ba b))] => set (m2 := mm) end.
  assert (Enx : b_next m2 (ba b) = nx).
  { subst m2. unfold b_next, set_next, set_size in *. mem_simpl. rewrite En. mem_simpl.
    apply Hm. subst nx. apply ld64_range. }
  rewrite Enx. change (if truthy nx then set_prev m2 nx (ba b) else m2) with (relink m2 nx (ba b)).
  assert (Hfr : forall x, x < ba b \/ ba b + 40 <= x -> m2 x = m x).
  { intros x Hx. subst m2. kunfold. repeat rewrite stn_out by lia. done. }
  destruct (seg_lower m (ba b2) (ba b2 + 40 + bsz b2) (ba b + 40 + sz) nx bs2 pred' lo' 0 H2 ltac:(lia))
    as (l' & H2' & Hl').
  destruct (seg_relink m2 (ba b2) (ba b + 40 + sz) nx bs2 pred' l' (ba b)) as (p' & Hrl); try lia.
  { eapply seg_frame_in, H2'. intros x Hx. apply Hfr. lia. }
  set (mF := relink m2 nx (ba b)) in *.
  assert (E1 : b_next mF (ba b) = nx).
  { subst mF. unfold b_next at 1. relink_simpl Hge. exact Enx. }
  exists p', l'. split; [|done]. apply seg_focus. exists p, l. cbn [ba bsz]. rewrite E1.
  unfold bend. cbn [ba bsz]. rewrite <- Hsz. split_and_all; try lia; try done.
  - eapply seg_frame_in, H1. intros x Hx. subst mF. rewrite relink_out by lia. apply Hfr. lia.
  - unfold hdr. cbn [ba bsz bfree]. subst mF. kunfold. relink_simpl Hge. subst m2. mem_simpl.
    rewrite !Hm by lia. done.
Qed.

(** ... and on one whose successor is in use, or that is the last, only repairs
    the successor's [prev]. *)
Lemma seg_merge_used bs1 b bs2 :
  seg m pred lo a (bs1 ++ b :: bs2) pred' lo' 0 ->
  match bs2 with b2 :: _ => bfree b2 = false | [] => True end ->
  exists p', seg (merge_blocks m (ba b)) pred lo a (bs1 ++ b :: bs2) p' lo' 0.
Proof.
  intros H Hf. apply seg_focus in H as (p & l & H1 & Hl & Hb & Hh & H2).
  pose proof (seg_le _ _ _ _ _ _ _ _ H1) as Hle1. pose proof (seg_le _ _ _ _ _ _ _ _ H2) as Hle2.
  pose proof (seg_head_ge _ _ _ _ _ _ _ H2) as Hge. unfold bend in *.
  set (nx := b_next m (ba b)) in *.
  assert (E : merge_blocks m (ba b) = relink m nx (ba b)).
  { assert (Hc : truthy nx && truthy (b_free m nx) = false).
    { destruct bs2 as [|b2 bs2]; cbn [seg] in H2; [by destruct H2 as (_ & _ & <-)|].
      destruct H2 as (En & _ & _ & (_ & Hg & _) & _). rewrite Hf in Hg. rewrite En, Hg.
      by rewrite andb_comm. }
    unfold merge_blocks. fold nx. rewrite Hc. fold nx. done. }
  destruct (seg_relink m (ba b) (ba b + 40 + bsz b) nx bs2 pred' lo' (ba b) H2) as (p' & Hrl); try lia.
  exists p'. rewrite E. apply seg_focus. exists p, l.
  replace (b_next _ (ba b)) with nx by (unfold b_next; relink_simpl Hge; done).
  split_and_all; try done.
  - eapply seg_frame_in, H1. intros x Hx. rewrite relink_out by lia. done.
  - destruct Hh as (Hh1 & Hh2 & Hh3 & Hh4). unfold hdr. kunfold. relink_simpl Hge. done.
Qed.

(** Marking a block used or free. *)
Lemma seg_set_free bs1 b bs2 (v : bool) :
  seg m pred lo a (bs1 ++ b :: bs2) pred' lo' 0 ->
  seg (set_free m (ba b) (if v then 1 else 0)) pred lo a
    (bs1 ++ Blk (ba b) (bsz b) v :: bs2) pred' lo' 0.
Proof.
  intros H. apply seg_focus in H as (p & l & H1 & Hl & Hb & (Hh1 & Hh2 & Hh3 & Hh4) & H2).
  apply seg_focus. exists p, l. cbn [ba bsz]. unfold hdr. cbn [ba bsz bfree].
  unfold bend in *. cbn [ba bsz]. kunfold. mem_simpl.
  split_and_all; try done.
  - eapply seg_frame_in, H1. intros x Hx. apply stn_out. lia.
  - destruct v; done.
  - eapply seg_frame_in, H2. intros x Hx. apply stn_out. lia.
Qed.

(** Cutting the last block off. *)
Lemma seg_drop_last bs1 b c :
  seg m pred lo a (bs1 ++ [b; c]) pred' lo' 0 ->
  seg (set_next m (ba b) 0) pred lo a (bs1 ++ [b]) (ba b) (bend b) 0 /\ bend b <= lo'.
Proof.
  intros H. apply seg_focus in H as (p & l & H1 & Hl & Hb & (Hh1 & Hh2 & Hh3 & Hh4) & H2).
  pose proof (seg_le _ _ _ _ _ _ _ _ H2) as Hle. split; [|lia].
  apply seg_focus. exists p, l. unfold hdr. cbn [seg]. kunfold. mem_simpl.
  split_and_all; try done.
  eapply seg_frame_in, H1. intros x Hx. apply stn_out. lia.
Qed.

(** Appending a fresh block at [nb], linked from the last block if there is one
    ([extend_heap] leaves its [prev] empty). *)
Definition fresh_header (m : mem) (nb s : Z) : mem :=
  set_ptr (set_prev (set_next (set_free (set_size m nb s) nb 0) nb 0) nb 0) nb (b_data nb).

Lemma seg_snoc bs nb s :
  seg m pred lo a bs pred' lo' 0 -> lo' <= nb -> 0 <= s -> nb + 40 + s < 18446744073709551616 ->
  (bs = [] -> pred' = 0) -> (bs <> [] -> lo <= pred') ->
  let m1 := fresh_header m nb s in
  let m2 := if truthy pred' then set_next m1 pred' nb else m1 in
  seg m2 pred lo (if truthy a then a else nb) (bs ++ [Blk nb s false]) nb (nb + 40 + s) 0.
Proof.
  intros H Hnb Hs Hhi Hp Hp' m1 m2.
  pose proof (seg_le _ _ _ _ _ _ _ _ H) as Hle.
  assert (Hm : forall v, 0 <= v < 18446744073709551616 -> v mod 256 ^ Z.of_nat 8 = v)
    by (intros; by apply Z.mod_small).
  assert (Hh : forall q, hdr m1 q (Blk nb s false) /\ b_next m1 nb = 0).
  { intros q. subst m1. unfold fresh_header, hdr. cbn [ba bsz bfree]. kunfold. mem_simpl.
    rewrite !Hm by lia. split_and_all; try done. by left. }
  assert (Hout : forall x, x < nb -> m1 x = m x).
  { intros x Hx. subst m1. unfold fresh_header. kunfold. repeat rewrite stn_out by lia. done. }
  destruct bs as [|b0 bs0] eqn:Ebs.
  - destruct H as (-> & -> & <-). specialize (Hp eq_refl). subst m2. rewrite Hp. cbn [truthy negb Z.eqb].
    cbn [app seg ba bsz]. destruct (Hh 0) as [Hh1 ->]. unfold bend; cbn. split_and_all; try lia. done.
  - rewrite <- Ebs in *. assert (Hne : bs <> []) by (subst; done). clear Hp. specialize (Hp' Hne).
    rewrite (truthy_nz a) by (pose proof (seg_head_pos _ _ _ _ _ _ _ _ H Hlo Hne); lia).
    subst m2. rewrite truthy_nz by lia.
    destruct (exists_last Hne) as (bs1 & b & ->). clear Ebs Hne b0 bs0.
    apply seg_focus in H as (p & l & H1 & Hl & Hb & (Hh1 & Hh2 & Hh3 & Hh4) & H2).
    cbn [seg] in H2. destruct H2 as (-> & -> & _). unfold bend in *.
    assert (Hfr : forall x, x < ba b + 40 -> m1 x = m x) by (intros; apply Hout; lia).
    rewrite <- app_assoc. cbn [app]. apply seg_focus. exists p, l. cbn [seg ba bsz].
    assert (Eb : forall o, 0 <= o <= 32 -> o <> 16 -> o <= 8 \/ 24 <= o ->
               ld64 (set_next m1 (ba b) nb) (ba b + o) = ld64 m (ba b + o)).
    { intros o Ho1 Ho2 Ho3. kunfold. rewrite ldn_stn_disj by lia. apply ldn_ext.
      intros x Hx. apply Hout. lia. }
    replace (b_next (set_next m1 (ba b) nb) (ba b)) with nb by (kunfold; mem_simpl; rewrite Hm; lia).
    destruct (Hh (ba b)) as [(G1 & G2 & G3 & G4) G5]. cbn [ba bsz bfree] in *.
    unfold bend; cbn [ba bsz]. split_and_all; try lia.
    + eapply seg_frame_in, H1. intros x Hx. unfold set_next. rewrite stn_out by lia. apply Hout. lia.
    + unfold hdr, b_size, b_ptr, b_prev, b_free. rewrite !Eb by lia.
      unfold set_next. rewrite ldn_stn_disj by lia.
      rewrite (ldn_ext 4 m) by (intros x Hx; apply Hout; lia). done.
    + unfold hdr. cbn [ba bsz bfree]. unfold set_next, b_size, b_ptr, b_prev, b_free in *. mem_simpl. done.
    + unfold set_next, b_next in *. mem_simpl. done.
Qed.
End Ops.
