(* ===== verification/KmemSafety.v ===== *)
(** * Safety of the kernel heap

    The heap invariant, what [kmalloc], [kfree] and [krealloc] of
    [src/src/kmem/] do to it, and the theorems about any sequence of calls. *)

From S2P Require Import Prelude Mem CString Kmem KmemInv.

(** ** The heap as a sequence of lists

    Freeing the last block of the list when its [prev] link is missing sets
    [base] to NULL: the whole list is then out of the allocator's reach, though
    the blocks in it may be in use.  So the heap holds the current list and,
    below it, the lists abandoned so far. *)

Definition caddr (c : list blk) : Z := match c with b :: _ => ba b | [] => 0 end.

Fixpoint chains (m : mem) (lo : Z) (cs : list (list blk)) (hi : Z) : Prop :=
  match cs with
  | [] => lo <= hi
  | c :: cs' => exists p l, seg m 0 lo (caddr c) c p l 0 /\ chains m l cs' hi
  end.

Record heap_inv (heap : Z) (h : kheap) (cs : list (list blk)) : Prop := {
  hi_heap : 0 < heap /\ heap + HEAP_SIZE < 18446744073709551615;
  hi_end : endp h = heap + HEAP_SIZE;
  hi_brk : heap <= brk h <= endp h;
  hi_chains : chains (kmem h) heap cs (brk h);
  hi_base : base h = 0 \/ exists cs' c, cs = cs' ++ [c] /\ c <> [] /\ base h = caddr c }.

(** The blocks in use, in every list. *)
Definition used (cs : list (list blk)) (b : blk) : Prop := b ∈ concat cs /\ bfree b = false.

(** A request that [sbrk]'s pointer arithmetic can represent. *)
Definition size_ok (heap size : Z) : Prop :=
  0 <= size /\ heap + HEAP_SIZE + size + 44 < 18446744073709551616.

(** The bytes of every block of [P] are the same in [m'] as in [m]. *)
Definition keeps (m m' : mem) (P : blk -> Prop) : Prop :=
  forall c, P c -> agree m m' (ba c + 40) (bsz c).

(** ** Structure of [chains] *)

Lemma chains_le m lo cs hi : chains m lo cs hi -> lo <= hi.
Proof.
  revert lo. induction cs as [|c cs IH]; intros lo; cbn [chains]; [done|].
  intros (p & l & H%seg_le & H2%IH). lia.
Qed.

Lemma chains_app m lo cs1 cs2 hi :
  chains m lo (cs1 ++ cs2) hi <-> exists mid, chains m lo cs1 mid /\ chains m mid cs2 hi.
Proof.
  revert lo. induction cs1 as [|c cs1 IH]; intros lo; cbn [app chains].
  - split; [intros H; exists lo; split; [lia|done]|].
    intros (mid & Hle & H). revert Hle H. revert lo mid. induction cs2 as [|c cs2 IH2]; intros lo mid Hle; cbn [chains]; [lia|].
    intros (p & l & Hs & Hc). destruct (seg_lower _ _ _ lo _ _ _ _ _ Hs Hle) as (l' & Hs' & Hl').
    exists p, l'. split; [done|]. eapply IH2; [exact Hl'|done].
  - split.
    + intros (p & l & Hs & (mid & H1 & H2)%IH). eauto 10.
    + intros (mid & (p & l & Hs & H1) & H2). exists p, l. split; [done|]. apply IH. eauto.
Qed.

Lemma chains_weaken m lo lo2 cs hi : chains m lo cs hi -> lo2 <= lo -> chains m lo2 cs hi.
Proof. intros H Hle. apply (chains_app m lo2 [] cs hi). exists lo. done. Qed.

Lemma chains_hi m lo cs hi hi2 : chains m lo cs hi -> hi <= hi2 -> chains m lo cs hi2.
Proof.
  intros H Hle. rewrite <- (app_nil_r cs). apply chains_app. exists hi. done.
Qed.

Lemma chains_focus m lo cs1 c cs2 hi :
  chains m lo (cs1 ++ c :: cs2) hi <->
  exists l1 p l2, chains m lo cs1 l1 /\ seg m 0 l1 (caddr c) c p l2 0 /\ chains m l2 cs2 hi.
Proof.
  rewrite chains_app. cbn [chains]. split.
  - intros (l1 & H1 & p & l2 & Hs & H2). eauto 10.
  - intros (l1 & p & l2 & H1 & Hs & H2). eauto 10.
Qed.

Lemma chains_frame m m' lo cs hi :
  (forall x, lo <= x < hi -> m' x = m x) -> chains m lo cs hi -> chains m' lo cs hi.
Proof.
  revert lo. induction cs as [|c cs IH]; intros lo Hf; cbn [chains]; [done|].
  intros (p & l & Hs & Hc). pose proof (seg_le _ _ _ _ _ _ _ _ Hs). pose proof (chains_le _ _ _ _ Hc).
  exists p, l. split; [|apply IH; [|done]; intros; apply Hf; lia].
  eapply seg_frame_in, Hs. intros. apply Hf. lia.
Qed.

(** Replacing one list, within its extent. *)
Lemma chains_replace m m' lo cs1 c c' cs2 hi l1 p l2 p' l2' :
  chains m lo cs1 l1 -> seg m 0 l1 (caddr c) c p l2 0 -> chains m l2 cs2 hi ->
  (forall x, x < l1 \/ l2 <= x -> m' x = m x) ->
  seg m' 0 l1 (caddr c') c' p' l2' 0 -> l2' <= l2 ->
  chains m' lo (cs1 ++ c' :: cs2) hi.
Proof.
  intros H1 Hs H2 Hf Hs' Hle. apply chains_focus. exists l1, p', l2'. split_and_all; [|done|].
  - eapply chains_frame, H1. intros. apply Hf. lia.
  - eapply chains_weaken; [|exact Hle]. eapply chains_frame, H2. intros. apply Hf. lia.
Qed.

Lemma chains_bounds m lo cs hi b :
  chains m lo cs hi -> b ∈ concat cs -> lo <= ba b /\ 0 <= bsz b /\ bend b <= hi.
Proof.
  revert lo. induction cs as [|c cs IH]; intros lo; cbn [chains concat]; [by intros _ ?%not_elem_of_nil|].
  intros (p & l & Hs & Hc) [Hb|Hb]%elem_of_app.
  - pose proof (chains_le _ _ _ _ Hc). destruct (seg_bounds _ _ _ _ _ _ _ _ _ Hs Hb). lia.
  - pose proof (seg_le _ _ _ _ _ _ _ _ Hs). destruct (IH _ Hc Hb). lia.
Qed.

Lemma seg_disjoint m pred lo a bs pred' lo' a' b c :
  seg m pred lo a bs pred' lo' a' -> b ∈ bs -> c ∈ bs ->
  b = c \/ bend b <= ba c \/ bend c <= ba b.
Proof.
  revert pred lo a. induction bs as [|d bs IH]; intros pred lo a H Hb Hc; [by apply not_elem_of_nil in Hb|].
  destruct H as (-> & _ & _ & _ & H).
  apply elem_of_cons in Hb as [->|Hb]; apply elem_of_cons in Hc as [->|Hc].
  - by left.
  - right; left. by destruct (seg_bounds _ _ _ _ _ _ _ _ _ H Hc).
  - right; right. by destruct (seg_bounds _ _ _ _ _ _ _ _ _ H Hb).
  - eauto.
Qed.

(** Any two blocks of the heap are the same one or do not overlap. *)
Lemma chains_disjoint m lo cs hi b c :
  chains m lo cs hi -> b ∈ concat cs -> c ∈ concat cs ->
  b = c \/ bend b <= ba c \/ bend c <= ba b.
Proof.
  revert lo. induction cs as [|d cs IH]; intros lo; cbn [chains concat]; [by intros _ ?%not_elem_of_nil|].
  intros (p & l & Hs & Hch) [Hb|Hb]%elem_of_app [Hc|Hc]%elem_of_app.
  - eapply seg_disjoint; eauto.
  - right; left. destruct (seg_bounds _ _ _ _ _ _ _ _ _ Hs Hb). destruct (chains_bounds _ _ _ _ _ Hch Hc). lia.
  - right; right. destruct (seg_bounds _ _ _ _ _ _ _ _ _ Hs Hc). destruct (chains_bounds _ _ _ _ _ Hch Hb). lia.
  - eauto.
Qed.

Lemma elem_concat_focus (cs1 cs2 : list (list blk)) c b :
  b ∈ concat (cs1 ++ c :: cs2) <-> b ∈ concat cs1 \/ b ∈ c \/ b ∈ concat cs2.
Proof. rewrite concat_app. cbn [concat]. rewrite !elem_of_app. done. Qed.

Lemma elem_concat_split (cs : list (list blk)) b :
  b ∈ concat cs -> exists cs1 c1 c2 cs2, cs = cs1 ++ (c1 ++ b :: c2) :: cs2.
Proof.
  induction cs as [|c cs IH]; cbn [concat]; [by intros ?%not_elem_of_nil|].
  intros [(c1 & c2 & ->)%list_elem_of_split|H]%elem_of_app.
  - by exists [], c1, c2, cs.
  - destruct (IH H) as (cs1 & c1 & c2 & cs2 & ->). by exists (c :: cs1), c1, c2, cs2.
Qed.

(** ** What each primitive leaves alone *)

(** [x] lies in no header of the list [c]. *)
Definition off_hdrs (c : list blk) (x : Z) : Prop :=
  forall d, d ∈ c -> x < ba d \/ ba d + 40 <= x.

Lemma next_in_list m pred lo a c1 b c2 pred' lo' :
  seg m pred lo a (c1 ++ b :: c2) pred' lo' 0 ->
  (b_next m (ba b) = 0 /\ c2 = []) \/ exists b2 c3, c2 = b2 :: c3 /\ b_next m (ba b) = ba b2.
Proof.
  intros (p & l & _ & _ & _ & _ & H)%seg_focus. destruct c2 as [|b2 c3]; cbn [seg] in H.
  - left. by destruct H as (_ & _ & <-).
  - right. exists b2, c3. by destruct H as (-> & _).
Qed.

Lemma off_hdrs_at c1 b c2 x : off_hdrs (c1 ++ b :: c2) x -> x < ba b \/ ba b + 40 <= x.
Proof. intros H. apply H, elem_mid. Qed.

Lemma off_hdrs_next m pred lo a c1 b c2 pred' lo' x :
  seg m pred lo a (c1 ++ b :: c2) pred' lo' 0 -> off_hdrs (c1 ++ b :: c2) x ->
  b_next m (ba b) = 0 \/ x < b_next m (ba b) \/ b_next m (ba b) + 40 <= x.
Proof.
  intros H Hx. destruct (next_in_list _ _ _ _ _ _ _ _ _ H) as [[-> _]|(b2 & c3 & -> & ->)]; [by left|].
  right. apply Hx. apply elem_of_app. right. right. left.
Qed.

Lemma split_frame m pred lo a c1 b c2 pred' lo' s x :
  seg m pred lo a (c1 ++ b :: c2) pred' lo' 0 -> 0 < lo -> lo' < 18446744073709551616 ->
  0 <= s -> s + 40 <= bsz b ->
  off_hdrs (c1 ++ b :: c2) x -> x < ba b + 40 + s \/ bend b <= x ->
  split m (ba b) s x = m x.
Proof.
  intros H Hlo Hhi Hs Hsz Hx Hx2. pose proof (off_hdrs_at _ _ _ _ Hx) as Hxb.
  pose proof (off_hdrs_next _ _ _ _ _ _ _ _ _ _ H Hx) as Hxn.
  pose proof (elem_mid c1 b c2) as Hb.
  destruct (seg_bounds _ _ _ _ _ _ _ _ _ H Hb) as (Hb1 & Hb2 & Hb3). unfold bend in *.
  unfold split. rewrite (u64_small (b_data (ba b) + s)) by (unfold b_data; lia).
  set (nb := b_data (ba b) + s). assert (Enb : nb = ba b + 40 + s) by (unfold nb, b_data; lia).
  match goal with |- context [truthy (b_next ?mm nb)] => set (m2 := mm) end.
  assert (Enx : b_next m2 nb = b_next m (ba b)).
  { subst m2. kunfold. mem_simpl. rewrite Z.mod_small; [done|]. apply ld64_range. }
  rewrite Enx. change (if truthy ?n then set_prev m2 ?n nb else m2) with (relink m2 n nb).
  rewrite relink_out by lia. subst m2. kunfold. repeat rewrite stn_out by lia. done.
Qed.

Lemma merge_frame m pred lo a c1 b c2 pred' lo' x :
  seg m pred lo a (c1 ++ b :: c2) pred' lo' 0 -> 0 < lo ->
  off_hdrs (c1 ++ b :: c2) x -> merge_blocks m (ba b) x = m x.
Proof.
  intros H Hlo Hx. pose proof (off_hdrs_at _ _ _ _ Hx) as Hxb.
  unfold merge_blocks.
  destruct (next_in_list _ _ _ _ _ _ _ _ _ H) as [[E _]|(b2 & c3 & -> & E)].
  { rewrite E. cbn [truthy negb Z.eqb andb]. rewrite E. done. }
  assert (H2 : seg m pred lo a ((c1 ++ [b]) ++ b2 :: c3) pred' lo' 0) by (by rewrite <- app_assoc).
  assert (Hx2 : off_hdrs ((c1 ++ [b]) ++ b2 :: c3) x) by (by rewrite <- app_assoc).
  pose proof (off_hdrs_at _ _ _ _ Hx2) as Hxb2.
  pose proof (off_hdrs_next _ _ _ _ _ _ _ _ _ _ H2 Hx2) as Hxn2.
  assert (Hlt : ba b + 40 <= ba b2).
  { apply seg_focus in H as (p & l & _ & _ & Hb & _ & Hs). cbn [seg] in Hs.
    destruct Hs as (En & Hle & _). unfold bend in Hle. lia. }
  rewrite E.
  match goal with |- context [truthy (b_next ?mm (ba b))] => set (m2 := mm) end.
  assert (Hm2 : m2 x = m x /\ (b_next m2 (ba b) = ba b2 \/ b_next m2 (ba b) = b_next m (ba b2))).
  { subst m2. case_if; [|split; [done|by left]]. split.
    - unfold set_next, set_size. repeat rewrite stn_out by lia. done.
    - right. unfold b_next, set_next, set_size in *. mem_simpl. rewrite E. mem_simpl.
      rewrite Z.mod_small; [done|]. apply ld64_range. }
  destruct Hm2 as [Hm2 Hn]. case_if; [|done]. unfold set_prev. rewrite stn_out by lia. done.
Qed.

Lemma set_free_frame m c1 b c2 v x :
  off_hdrs (c1 ++ b :: c2) x -> set_free m (ba b) v x = m x.
Proof. intros H%off_hdrs_at. unfold set_free. apply stn_out. lia. Qed.

(** Data of a used block is off every header of the heap and off every other block. *)
Lemma data_off m lo cs hi c d x :
  chains m lo cs hi -> c ∈ concat cs -> d ∈ concat cs -> ba c + 40 <= x < bend c ->
  (x < ba d \/ ba d + 40 <= x) /\ (c <> d -> x < ba d \/ bend d <= x).
Proof.
  intros H Hc Hd Hx. destruct (chains_bounds _ _ _ _ _ H Hc) as (_ & Hc2 & _).
  destruct (chains_bounds _ _ _ _ _ H Hd) as (_ & Hd2 & _).
  destruct (chains_disjoint _ _ _ _ _ _ H Hc Hd) as [->|Hdis]; unfold bend in *; [|lia].
  split; [lia|done].
Qed.

Lemma data_off_hdrs m lo cs1 c cs2 hi d x :
  chains m lo (cs1 ++ c :: cs2) hi -> d ∈ concat (cs1 ++ c :: cs2) ->
  ba d + 40 <= x < bend d -> off_hdrs c x.
Proof.
  intros H Hd Hx e He. eapply (data_off _ _ _ _ d e); eauto. apply elem_concat_focus. auto.
Qed.

Lemma outside_off_hdrs m pred lo a c pred' lo' a' x :
  seg m pred lo a c pred' lo' a' -> x < lo \/ lo' <= x -> off_hdrs c x.
Proof.
  intros H Hx d Hd. destruct (seg_bounds _ _ _ _ _ _ _ _ _ H Hd). unfold bend in *. lia.
Qed.

(** ** The list walks terminate *)

Lemma seg_length m pred lo a bs pred' lo' a' :
  seg m pred lo a bs pred' lo' a' -> 40 * Z.of_nat (length bs) <= lo' - lo.
Proof.
  revert pred lo a. induction bs as [|b bs IH]; intros pred lo a; cbn [seg length]; [lia|].
  intros (-> & ? & ? & _ & H%IH). unfold bend in *. lia.
Qed.

Lemma seg_fuel m pred lo a bs pred' lo' a' heap :
  seg m pred lo a bs pred' lo' a' -> heap <= lo -> lo' <= heap + HEAP_SIZE ->
  (length bs < max_blocks)%nat.
Proof.
  intros H%seg_length ? ?. unfold max_blocks, HEAP_SIZE, META_BLOCK_SIZE in *.
  apply Nat2Z.inj_lt. rewrite Z2Nat.id by done.
  change (16777216 / 40 + 2) with 419432. lia.
Qed.

(** The body of [find_block]'s loop. *)
Definition find_step (m : mem) (size : Z) (p : Z * Z) : (Z * Z) + (Z * Z) :=
  let (b, last) := p in
  if truthy b && (negb (truthy (b_free m b)) || (b_size m b <? size))
  then inr (b_next m b, b) else inl (b, last).

(** [b] is too small or in use. *)
Definition unfit (s : Z) (b : blk) : Prop := bfree b = false \/ bsz b < s.

Lemma find_block_seg m s pred lo a bs pred' lo' last fuel :
  seg m pred lo a bs pred' lo' 0 -> 0 < lo -> (length bs < fuel)%nat ->
  exists x y, wloop fuel (find_step m s) (a, last) = Some (x, y) /\
   ((exists c1 b c2, bs = c1 ++ b :: c2 /\ x = ba b /\ bfree b = true /\ s <= bsz b /\
                     Forall (unfit s) c1) \/
    (x = 0 /\ y = (match bs with [] => last | _ => pred' end) /\ Forall (unfit s) bs)).
Proof.
  revert pred lo a last fuel.
  induction bs as [|b bs IH]; intros pred lo a last fuel H Hlo Hf;
    destruct fuel as [|fuel]; cbn [length] in Hf; [lia| |lia|]; cbn [wloop seg] in *.
  - destruct H as (-> & -> & <-). cbn. exists 0, last. split; [done|]. right. done.
  - destruct H as (-> & Hb1 & Hb2 & (Hh1 & Hh2 & Hh3 & Hh4) & H).
    unfold find_step at 1. rewrite (truthy_nz (ba b)), Hh1, Hh2 by lia. cbn [andb].
    destruct (negb (truthy (if bfree b then 1 else 0)) || (bsz b <? s)) eqn:E.
    + assert (Hu : unfit s b).
      { apply orb_true_iff in E as [E|E]; [left; destruct (bfree b); done|right; lia]. }
      destruct (IH _ _ _ (ba b) fuel H ltac:(unfold bend; lia) ltac:(lia))
        as (x & y & Ew & [(c1 & b' & c2 & -> & -> & Hb' & Hs & Hc)|(-> & -> & Hc)]).
      * exists (ba b'), y. split; [done|]. left. exists (b :: c1), b', c2.
        split_and_all; try done. by constructor.
      * eexists 0, _. split; [exact Ew|]. right. split_and_all; [done| |by constructor].
        destruct bs; [|done]. cbn [seg] in H. by destruct H as (-> & _).
    + apply orb_false_iff in E as [E1 E2]. exists (ba b), last. split; [done|]. left.
      exists [], b, bs. bool_to_prop. split_and_all; try done. destruct (bfree b); done.
Qed.

(** [get_last_block] finds the end of the current list. *)
Lemma get_last_seg m pred lo a bs pred' lo' fuel :
  seg m pred lo a bs pred' lo' 0 -> 0 < lo -> (length bs < fuel)%nat ->
  wloop fuel (fun current => if truthy current && truthy (b_next m current)
                             then inr (b_next m current) else inl current) a
  = Some (match bs with [] => 0 | _ => pred' end).
Proof.
  revert pred lo a fuel. induction bs as [|b bs IH]; intros pred lo a fuel H Hlo Hf;
    destruct fuel as [|fuel]; cbn [length] in Hf; [lia| |lia|]; cbn [wloop seg] in *.
  - by destruct H as (_ & _ & <-).
  - destruct H as (-> & Hb1 & Hb2 & _ & H). rewrite (truthy_nz (ba b)) by lia. cbn [andb].
    destruct bs as [|b2 bs]; cbn [seg] in H.
    + destruct H as (-> & _ & <-). done.
    + destruct H as (E & Hb3 & H). rewrite E, (truthy_nz (ba b2)) by (unfold bend in *; lia).
      rewrite <- E. apply (IH (ba b) (bend b)); [exact (conj E (conj Hb3 H))|unfold bend; lia|lia].
Qed.

(** ** Growing the heap *)

Lemma align4_spec (size : Z) : 0 <= size -> size + 4 < 18446744073709551616 ->
  size <= align4 size < size + 4 /\ align4 size mod 4 = 0.
Proof.
  intros H1 H2. unfold align4. rewrite shiftr_div, shiftl_mul by lia.
  change (2 ^ 2) with 4. wrap_lia.
Qed.

Section Growth.
Context (heap : Z) (h : kheap) (cs : list (list blk)).
Hypothesis Hinv : heap_inv heap h cs.

Lemma sbrk_0 : snd (sbrk h 0) = brk h.
Proof. done. Qed.

Lemma extend_heap_full last s :
  0 <= s -> heap + HEAP_SIZE + s + 40 < 18446744073709551616 -> endp h < brk h + 40 + s ->
  extend_heap h last s = (h, 0).
Proof.
  intros Hs Hb Hf. destruct Hinv as [Hh He Hbr _ _]. unfold extend_heap, META_BLOCK_SIZE, HEAP_SIZE in *.
  rewrite sbrk_0, (u64_small (40 + s)) by lia. unfold sbrk.
  replace (40 + s =? 0) with false by lia. rewrite u64_small by lia.
  replace (endp h <? brk h + (40 + s)) with true by lia.
  by rewrite Z.eqb_refl.
Qed.

Lemma extend_heap_fits last s :
  0 <= s -> heap + HEAP_SIZE + s + 40 < 18446744073709551616 -> brk h + 40 + s <= endp h ->
  extend_heap h last s =
    (KHeap (if truthy last then set_next (fresh_header (kmem h) (brk h) s) last (brk h)
            else fresh_header (kmem h) (brk h) s)
       (brk h + 40 + s) (endp h) (base h), brk h).
Proof.
  intros Hs Hb Hf. destruct Hinv as [Hh He Hbr _ _]. unfold extend_heap, META_BLOCK_SIZE, HEAP_SIZE in *.
  rewrite sbrk_0, (u64_small (40 + s)) by lia. unfold sbrk.
  replace (40 + s =? 0) with false by lia. rewrite u64_small by lia.
  replace (endp h <? brk h + (40 + s)) with false by lia. cbn [kmem brk endp base].
  replace (brk h =? u64 (-1)) with false by (change (u64 (-1)) with 18446744073709551615; lia).
  unfold with_mem. cbn [brk endp base]. rewrite Z.add_assoc. done.
Qed.

(** The list the allocator works on. *)
Lemma current_list :
  (base h = 0) \/
  exists cs' c l1 p l2, cs = cs' ++ [c] /\ c <> [] /\ base h = caddr c /\ base h <> 0 /\
    chains (kmem h) heap cs' l1 /\ heap <= l1 /\ seg (kmem h) 0 l1 (caddr c) c p l2 0 /\
    l2 <= brk h /\ (length c < max_blocks)%nat.
Proof.
  destruct Hinv as [Hh He Hbr Hc [Hb|(cs' & c & -> & Hne & Hb)]]; [by left|right].
  apply chains_focus in Hc as (l1 & p & l2 & H1 & Hs & H2). cbn [chains] in H2.
  pose proof (chains_le _ _ _ _ H1). exists cs', c, l1, p, l2.
  split_and_all; try done.
  - rewrite Hb. pose proof (seg_head_pos _ _ _ _ _ _ _ _ Hs ltac:(lia) Hne). lia.
  - eapply seg_fuel; [exact Hs|exact H|lia].
Qed.
End Growth.

Lemma seg_last_ge m pred lo a bs pred' lo' a' :
  seg m pred lo a bs pred' lo' a' -> bs <> [] -> lo <= pred'.
Proof.
  intros H Hne. destruct (exists_last Hne) as (bs1 & b & ->).
  apply seg_focus in H as (p & l & H1%seg_le & Hl & _ & _ & H2). cbn [seg] in H2.
  destruct H2 as (-> & _). lia.
Qed.

Lemma caddr_mid (c1 c2 c2' : list blk) b b' : ba b = ba b' -> caddr (c1 ++ b :: c2) = caddr (c1 ++ b' :: c2').
Proof. by destruct c1. Qed.

Lemma used_snoc cs c b : used (cs ++ [c]) b <-> used cs b \/ (b ∈ c /\ bfree b = false).
Proof.
  unfold used. rewrite concat_app. cbn [concat]. rewrite app_nil_r, elem_of_app. tauto.
Qed.

(** ** [kmalloc] *)

(** A successful allocation: a new used block with room for the request, at an
    address no used block has, with every other used block and its data kept. *)
Definition allocated (heap : Z) (h : kheap) (cs : list (list blk)) (size : Z)
    (h' : kheap) (p : Z) (cs' : list (list blk)) (b : blk) : Prop :=
  heap_inv heap h' cs' /\ p = ba b + 40 /\ size <= bsz b /\
  (forall c, used cs' c <-> c = b \/ used cs c) /\
  (forall c, used cs c -> ba c <> ba b) /\
  keeps (kmem h) (kmem h') (used cs) /\ brk h <= brk h'.

(** A block appended at the break belongs to no block in use. *)
Lemma fresh_not_used heap h cs c : heap_inv heap h cs -> used cs c -> ba c <> brk h.
Proof.
  intros Hinv [Hc _]. destruct (chains_bounds _ _ _ _ _ (hi_chains _ _ _ Hinv) Hc). unfold bend in *. lia.
Qed.

Section Kmalloc.
Context (heap : Z) (h : kheap) (cs : list (list blk)).
Hypothesis Hinv : heap_inv heap h cs.

(** Taking a free block of the current list, with or without a split. *)
Lemma kmalloc_found cs' c1 b c2 l1 p l2 s :
  cs = cs' ++ [c1 ++ b :: c2] -> base h = caddr (c1 ++ b :: c2) ->
  chains (kmem h) heap cs' l1 -> seg (kmem h) 0 l1 (caddr (c1 ++ b :: c2)) (c1 ++ b :: c2) p l2 0 ->
  l2 <= brk h -> bfree b = true -> 0 <= s <= bsz b ->
  let m1 := if META_BLOCK_SIZE + 4 <=? u64 (b_size (kmem h) (ba b) - s)
            then split (kmem h) (ba b) s else kmem h in
  exists cs2 b2, allocated heap h cs s (with_mem h (set_free m1 (ba b) 0)) (ba b + 40) cs2 b2.
Proof.
  intros -> Hbase Hc Hs Hl2 Hfree Hsz m1. pose proof Hinv as [Hh He Hbr Hch _].
  pose proof (chains_le _ _ _ _ Hc) as Hl1. pose proof (elem_mid c1 b c2) as Hbin.
  destruct (seg_bounds _ _ _ _ _ _ _ _ _ Hs Hbin) as (Hb1 & Hb2 & Hb3). unfold bend in Hb3.
  assert (Hbs : b_size (kmem h) (ba b) = bsz b).
  { by apply seg_focus in Hs as (? & ? & _ & _ & _ & (? & _) & _). }
  unfold HEAP_SIZE in *. assert (Hl1p : 0 < l1) by lia. assert (Hl2p : l2 < 18446744073709551616) by lia.
  (* the new list, the new block, and the memory where it is not changed *)
  assert (exists c2' b2 p', seg (set_free m1 (ba b) 0) 0 l1 (caddr (c1 ++ b :: c2)) (c1 ++ b2 :: c2') p' l2 0 /\
     ba b2 = ba b /\ s <= bsz b2 <= bsz b /\ bfree b2 = false /\
     (forall c, c ∈ c2' -> bfree c = false -> c ∈ c2) /\ (forall c, c ∈ c2 -> c ∈ c2') /\
     (forall x, off_hdrs (c1 ++ b :: c2) x -> x < ba b \/ bend b <= x -> set_free m1 (ba b) 0 x = kmem h x))
    as (c2' & b2 & p' & Hs' & Eb2 & Hs2 & Hf2 & Hin1 & Hin2 & Hfr).
  { subst m1. rewrite Hbs. unfold META_BLOCK_SIZE. rewrite u64_small by lia. case_if.
    - destruct (seg_split _ _ _ _ _ _ Hl1p Hl2p c1 b c2 s Hs ltac:(lia) ltac:(lia)) as (p' & Hsp).
      apply (seg_set_free _ _ _ _ _ _ _ _ _ false) in Hsp. cbn [ba bsz] in Hsp.
      eexists _, (Blk (ba b) s false), p'. split; [exact Hsp|]. cbn [ba bsz bfree].
      split_and_all; try done; try lia.
      + intros c [->|?]%elem_of_cons; [done|done].
      + intros c ?. by right.
      + intros x Hx Hx2. unfold bend in Hx2.
        rewrite (set_free_frame _ c1 b c2) by done.
        eapply split_frame; [exact Hs|lia..|done|unfold bend; lia].
    - apply (seg_set_free _ _ _ _ _ _ c1 b c2 false) in Hs.
      exists c2, (Blk (ba b) (bsz b) false), p. cbn [ba bsz bfree]. split_and_all; try done; try lia.
      intros x Hx Hx2. by rewrite (set_free_frame _ c1 b c2). }
  assert (Eca : caddr (c1 ++ b :: c2) = caddr (c1 ++ b2 :: c2')) by (apply caddr_mid; done).
  exists (cs' ++ [c1 ++ b2 :: c2']), b2. unfold allocated. cbn [kmem brk with_mem]. split_and_all.
  - constructor; try done; [|right; exists cs', (c1 ++ b2 :: c2'); split_and_all; [done|by destruct c1|]].
    + eapply chains_replace; [exact Hc|exact Hs|exact Hl2| |rewrite <- Eca; exact Hs'|lia].
      intros x Hx. apply Hfr; [eapply outside_off_hdrs; eauto|unfold bend; lia].
    + cbn [base with_mem]. rewrite Hbase. done.
  - lia.
  - lia.
  - intros c. rewrite !used_snoc, !elem_of_app, !elem_of_cons. split.
    + intros [H|[[H|[->|H]] Hf]]; auto 10.
    + intros [->|[H|[[H|[->|H]] Hf]]]; auto 10. congruence.
  - intros c [Hcin Hcf] E. assert (Hcb : c = b).
    { destruct (chains_disjoint _ _ _ _ c b Hch Hcin) as [?|Hd]; [|done|].
      - apply elem_concat_focus. auto.
      - destruct (chains_bounds _ _ _ _ _ Hch Hcin). unfold bend in *. lia. }
    congruence.
  - intros c [Hcin Hcf] x Hx. apply Hfr; [eapply data_off_hdrs; [exact Hch|exact Hcin|unfold bend; lia]|].
    eapply (data_off _ _ _ _ c b); [exact Hch|done|apply elem_concat_focus; auto|unfold bend; lia|congruence].
  - lia.
Qed.

Lemma fresh_header_out m nb s x : x < nb \/ nb + 40 <= x -> fresh_header m nb s x = m x.
Proof. intros Hx. unfold fresh_header. kunfold. repeat rewrite stn_out by lia. done. Qed.

(** Appending to the current list. *)
Lemma kmalloc_grow cs' c l1 p l2 s :
  cs = cs' ++ [c] -> c <> [] -> base h = caddr c ->
  chains (kmem h) heap cs' l1 -> seg (kmem h) 0 l1 (caddr c) c p l2 0 -> l2 <= brk h ->
  0 <= s -> heap + HEAP_SIZE + s + 40 < 18446744073709551616 -> brk h + 40 + s <= endp h ->
  exists cs2 b2, allocated heap h cs s (fst (extend_heap h p s)) (brk h + 40) cs2 b2 /\
                 snd (extend_heap h p s) = brk h.
Proof.
  intros -> Hne Hbase Hc Hs Hl2 Hs0 Hso Hfit. rewrite (extend_heap_fits _ _ _ Hinv) by done.
  pose proof Hinv as [Hh He Hbr Hch _]. pose proof (chains_le _ _ _ _ Hc) as Hl1. unfold HEAP_SIZE in *.
  pose proof (seg_last_ge _ _ _ _ _ _ _ _ Hs Hne) as Hp. cbn [fst snd].
  pose proof (seg_head_pos _ _ _ _ _ _ _ _ Hs ltac:(lia) Hne) as Hca.
  assert (Hplt : p + 40 <= brk h /\ forall x, off_hdrs c x -> x < p \/ p + 40 <= x).
  { destruct (exists_last Hne) as (c1 & b & ->). apply seg_focus in Hs as (q & l & _ & _ & Hb & _ & Hs2).
    cbn [seg] in Hs2. destruct Hs2 as (-> & -> & _). unfold bend in *. split; [lia|].
    intros x Hx. by apply off_hdrs_at in Hx. }
  destruct Hplt as [Hplt Hpo].
  set (b2 := Blk (brk h) s false). exists (cs' ++ [c ++ [b2]]), b2. split; [|done].
  unfold allocated. cbn [kmem brk]. rewrite truthy_nz by lia.
  set (m' := set_next (fresh_header (kmem h) (brk h) s) p (brk h)).
  assert (Hfr : forall x, off_hdrs c x -> x < brk h -> m' x = kmem h x).
  { intros x Hx Hxb. specialize (Hpo x Hx). subst m'. unfold set_next. rewrite stn_out by lia.
    apply fresh_header_out. lia. }
  assert (Hsn : seg m' 0 l1 (caddr c) (c ++ [b2]) (brk h) (brk h + 40 + s) 0).
  { pose proof (seg_snoc (kmem h) 0 l1 (caddr c) p l2 ltac:(lia) ltac:(lia) c (brk h) s Hs Hl2 Hs0 ltac:(lia)) as Hsn.
    rewrite !truthy_nz in Hsn by lia. apply Hsn; [done|lia]. }
  split_and_all.
  - constructor; cbn [kmem brk endp base]; try done; [lia| |].
    + apply chains_focus. exists l1, (brk h), (brk h + 40 + s). split_and_all; [| |cbn; lia].
      * eapply chains_frame, Hc. intros x Hx. apply Hfr; [|lia]. eapply outside_off_hdrs; [exact Hs|lia].
      * replace (caddr (c ++ [b2])) with (caddr c) by (by destruct c). done.
    + right. exists cs', (c ++ [b2]). split_and_all; [done|by destruct c|]. rewrite Hbase. by destruct c.
  - done.
  - cbn. lia.
  - intros d. rewrite !used_snoc, elem_of_app, list_elem_of_singleton. split; [|intros [->|[?|[? ?]]]; auto].
    intros [?|[[?| ->] ?]]; auto.
  - intros d Hd. by eapply fresh_not_used.
  - intros d [Hd _] x Hx. destruct (chains_bounds _ _ _ _ _ Hch Hd). unfold bend in *.
    apply Hfr; [|lia]. eapply data_off_hdrs; [exact Hch|exact Hd|unfold bend; lia].
  - lia.
Qed.

(** The first block of a list. *)
Lemma kmalloc_first s :
  base h = 0 ->
  0 <= s -> heap + HEAP_SIZE + s + 40 < 18446744073709551616 -> brk h + 40 + s <= endp h ->
  exists cs2 b2, allocated heap h cs s (with_base (fst (extend_heap h 0 s)) (brk h)) (brk h + 40) cs2 b2 /\
                 snd (extend_heap h 0 s) = brk h.
Proof.
  intros Hbase Hs0 Hso Hfit. rewrite (extend_heap_fits _ _ _ Hinv) by done.
  pose proof Hinv as [Hh He Hbr Hch _]. unfold HEAP_SIZE in *. cbn [fst snd truthy negb Z.eqb].
  set (b2 := Blk (brk h) s false). exists (cs ++ [[b2]]), b2. split; [|done].
  assert (Hsn : seg (fresh_header (kmem h) (brk h) s) 0 (brk h) (brk h) [b2] (brk h) (brk h + 40 + s) 0).
  { apply (seg_snoc (kmem h) 0 (brk h) 0 0 (brk h) ltac:(lia) ltac:(lia) [] (brk h) s); try done; lia. }
  unfold allocated, with_base. cbn [kmem brk]. split_and_all.
  - constructor; cbn [kmem brk endp base]; try done; [lia| |right; by exists cs, [b2]].
    apply chains_focus. exists (brk h), (brk h), (brk h + 40 + s). split_and_all; [|done|cbn; lia].
    eapply chains_frame, Hch. intros x Hx. apply fresh_header_out. lia.
  - done.
  - cbn. lia.
  - intros d. rewrite used_snoc, list_elem_of_singleton. split; [|intros [->|?]; auto].
    intros [?|[-> ?]]; auto.
  - intros d Hd. by eapply fresh_not_used.
  - intros d [Hd _] x Hx. destruct (chains_bounds _ _ _ _ _ Hch Hd). unfold bend in *.
    apply fresh_header_out. lia.
  - lia.
Qed.

(** The whole of [kmalloc]: it always returns; it fails exactly when no block of
    the current list fits and the break cannot move, and then changes nothing. *)
Lemma kmalloc_cases size :
  size_ok heap size ->
  exists h' p, kmalloc h size = Some (h', p) /\
   ((p = 0 /\ h' = h /\ endp h < brk h + 40 + align4 size /\
     (base h = 0 \/ exists cs' c, cs = cs' ++ [c] /\ Forall (unfit (align4 size)) c)) \/
    (p <> 0 /\ exists cs' b, allocated heap h cs size h' p cs' b)).
Proof.
  intros [Hsz Hso]. pose proof Hinv as [Hh He Hbr Hch _].
  destruct (align4_spec size Hsz ltac:(unfold HEAP_SIZE in *; lia)) as [Ha _].
  assert (Hso' : heap + HEAP_SIZE + align4 size + 40 < 18446744073709551616) by lia.
  assert (Hw : forall h' p cs' b, allocated heap h cs (align4 size) h' p cs' b ->
               p <> 0 /\ exists cs' b, allocated heap h cs size h' p cs' b).
  { intros h' p cs' b (H1 & H2 & H3 & H4 & H5). split; [|exists cs', b; unfold allocated; split_and_all; try done; try apply H5; lia].
    assert (Hbin : b ∈ concat cs') by (apply H4; by left).
    destruct (chains_bounds _ _ _ _ _ (hi_chains _ _ _ H1) Hbin). lia. }
  unfold kmalloc.
  destruct (current_list heap h cs Hinv) as [Hb|(cs' & c & l1 & p & l2 & Ecs & Hne & Hbc & Hb & Hc & Hl1 & Hs & Hl2 & Hlen)].
  - rewrite Hb. cbn [truthy negb Z.eqb]. destruct (Z_lt_ge_dec (endp h) (brk h + 40 + align4 size)) as [Hf|Hf].
    + rewrite (extend_heap_full _ _ _ Hinv) by lia. cbn. exists h, 0. split; [done|]. left. auto.
    + destruct (kmalloc_first (align4 size) Hb ltac:(lia) ltac:(lia) ltac:(lia)) as (cs2 & b2 & Hal & Hsnd).
      destruct (extend_heap h 0 (align4 size)) as [h1 blk0]. cbn [fst snd] in *. subst blk0.
      rewrite truthy_nz by lia. eexists _, _. split; [done|]. right. eapply Hw, Hal.
  - rewrite truthy_nz by done. unfold find_block. fold (find_step (kmem h) (align4 size)).
    rewrite Hbc. destruct (find_block_seg _ (align4 size) _ _ _ _ _ _ (caddr c) max_blocks Hs ltac:(lia) Hlen)
      as (x & y & -> & [(c1 & b & c2 & -> & -> & Hbf & Hfit & _)|(-> & -> & Hunf)]); cbn [mbind option_bind].
    + pose proof (elem_mid c1 b c2) as Hbin.
      destruct (seg_bounds _ _ _ _ _ _ _ _ _ Hs Hbin) as (Hb1 & _). rewrite truthy_nz by lia.
      destruct (kmalloc_found _ _ _ _ _ _ _ (align4 size) Ecs Hbc Hc Hs Hl2 Hbf ltac:(lia)) as (cs2 & b2 & Hal).
      eexists _, _. split; [done|]. right. eapply Hw, Hal.
    + cbn [truthy negb Z.eqb]. replace (match c with [] => caddr c | _ => p end) with p by (by destruct c).
      destruct (Z_lt_ge_dec (endp h) (brk h + 40 + align4 size)) as [Hf|Hf].
      * rewrite (extend_heap_full _ _ _ Hinv) by lia. cbn. exists h, 0. split; [done|]. left. eauto 10.
      * destruct (kmalloc_grow _ _ _ _ _ (align4 size) Ecs Hne Hbc Hc Hs Hl2 ltac:(lia) ltac:(lia) ltac:(lia))
          as (cs2 & b2 & Hal & Hsnd).
        destruct (extend_heap h p (align4 size)) as [h1 blk0]. cbn [fst snd] in *. subst blk0.
        rewrite truthy_nz by lia. eexists _, _. split; [done|]. right. eapply Hw, Hal.
Qed.
End Kmalloc.

(** ** [kfree] *)

Lemma seg_split_neq m pred lo a c1 b c2 pred' lo' a' d :
  seg m pred lo a (c1 ++ b :: c2) pred' lo' a' -> d ∈ c1 \/ d ∈ c2 -> ba d <> ba b.
Proof.
  intros (p & l & H1 & Hl & Hb & _ & H2)%seg_focus [Hd|Hd].
  - destruct (seg_bounds _ _ _ _ _ _ _ _ _ H1 Hd). unfold bend in *. lia.
  - destruct (seg_bounds _ _ _ _ _ _ _ _ _ H2 Hd). unfold bend in *. lia.
Qed.

(** [c'] is the list [c] after a change that only wrote headers: the blocks in
    use are those of [c] but [b], and no header has moved. *)
Record relisted (m m' : mem) (l1 l2 : Z) (c c' : list blk) (b : blk) : Prop := {
  rl_seg : exists p' l', seg m' 0 l1 (caddr c) c' p' l' 0 /\ l' <= l2;
  rl_addr : caddr c' = caddr c;
  rl_frame : forall x, off_hdrs c x -> m' x = m x;
  rl_hdrs : forall x, off_hdrs c x -> off_hdrs c' x;
  rl_used : forall d, d ∈ c' /\ bfree d = false <-> d ∈ c /\ bfree d = false /\ d <> b }.

Section Kfree.
Context (m : mem) (l1 l2 p : Z) (c1 c2 : list blk) (b : blk).
Let c := c1 ++ b :: c2.
Hypothesis Hl1 : 0 < l1.
Hypothesis Hl2 : l2 < 18446744073709551616.
Hypothesis Hs : seg m 0 l1 (caddr c) c p l2 0.
Hypothesis Hbf : bfree b = false.

Lemma off_hdrs_mono (d d' : list blk) x :
  (forall e, e ∈ d' -> exists e', e' ∈ d /\ ba e' = ba e) -> off_hdrs d x -> off_hdrs d' x.
Proof. intros H Hx e (e' & He' & <-)%H. by apply Hx. Qed.

Lemma used_without d : bfree d = false ->
  d ∈ c1 \/ d ∈ c2 <-> (d ∈ c /\ d <> b).
Proof.
  intros Hd. unfold c. rewrite elem_of_app, elem_of_cons. split; [|tauto].
  intros H. split; [tauto|]. intros ->. by apply (seg_split_neq _ _ _ _ _ _ _ _ _ _ b Hs H).
Qed.

(** Marking [b] free. *)
Lemma relisted_mark :
  relisted m (set_free m (ba b) 1) l1 l2 c (c1 ++ Blk (ba b) (bsz b) true :: c2) b.
Proof.
  constructor.
  - exists p, l2. split; [|lia]. apply (seg_set_free _ _ _ _ _ _ c1 b c2 true). done.
  - by apply caddr_mid.
  - intros x Hx. by eapply set_free_frame.
  - intros x. apply off_hdrs_mono. unfold c. intros e. rewrite elem_of_app, elem_of_cons.
    intros [?|[->|?]]; [exists e|exists b|exists e]; (split; [|done]); set_solver.
  - intros d. rewrite elem_of_app, elem_of_cons. split.
    + intros [[H|[->|H]] Hf]; [|done|]; (destruct (used_without d Hf) as [Hu _]; tauto).
    + intros (Hd & Hf & Hne). split; [|done]. apply used_without in Hf as Hu. tauto.
Qed.
End Kfree.

Lemma relisted_trans m m' m'' l1 l2 c c' c'' b p'' l'' :
  relisted m m' l1 l2 c c' b ->
  seg m'' 0 l1 (caddr c') c'' p'' l'' 0 -> l'' <= l2 -> caddr c'' = caddr c' ->
  (forall x, off_hdrs c' x -> m'' x = m' x) ->
  (forall e, e ∈ c'' -> exists e', e' ∈ c' /\ ba e' = ba e) ->
  (forall d, bfree d = false -> (d ∈ c'' <-> d ∈ c')) ->
  relisted m m'' l1 l2 c c'' b.
Proof.
  intros [H1 H2 H3 H4 H5] Hs Hl Ha Hf Hh Hu. constructor.
  - exists p'', l''. rewrite <- H2. done.
  - by rewrite Ha.
  - intros x Hx. rewrite Hf by auto. auto.
  - intros x Hx. eapply off_hdrs_mono; [exact Hh|auto].
  - intros d. rewrite <- H5. split; intros [Hd Hf']; (split; [|done]); by apply (Hu d Hf').
Qed.

(** [merge_blocks] on a free block keeps the blocks in use. *)
Lemma merge_step m l1 a d1 d d2 p l2 :
  seg m 0 l1 a (d1 ++ d :: d2) p l2 0 -> 0 < l1 -> l2 < 18446744073709551616 -> bfree d = true ->
  exists d' d2' p' l', seg (merge_blocks m (ba d)) 0 l1 a (d1 ++ d' :: d2') p' l' 0 /\ l' <= l2 /\
    ba d' = ba d /\ bfree d' = true /\ (d2 = [] -> d2' = []) /\
    (forall e, e ∈ d2' -> e ∈ d2) /\ (forall e, bfree e = false -> e ∈ d2 -> e ∈ d2').
Proof.
  intros Hs Hl1 Hl2 Hd. destruct d2 as [|e d3].
  - destruct (seg_merge_used m 0 l1 a p l2 Hl1 Hl2 d1 d [] Hs I) as (p' & Hs').
    exists d, [], p', l2. split_and_all; try done; lia.
  - destruct (bfree e) eqn:He.
    + destruct (seg_merge_free m 0 l1 a p l2 Hl1 Hl2 d1 d e d3 Hs He) as (p' & l' & Hs' & Hl').
      eexists (Blk (ba d) _ (bfree d)), d3, p', l'. split; [exact Hs'|]. split_and_all; try done.
      * intros x Hx. by right.
      * intros x Hx [->|?]%elem_of_cons; [congruence|done].
    + destruct (seg_merge_used m 0 l1 a p l2 Hl1 Hl2 d1 d (e :: d3) Hs He) as (p' & Hs').
      exists d, (e :: d3), p', l2. split_and_all; try done; lia.
Qed.

Lemma relisted_merge m m' l1 l2 c d1 d d2 b :
  relisted m m' l1 l2 c (d1 ++ d :: d2) b -> 0 < l1 -> l2 < 18446744073709551616 -> bfree d = true ->
  exists d' d2', relisted m (merge_blocks m' (ba d)) l1 l2 c (d1 ++ d' :: d2') b /\
    ba d' = ba d /\ bfree d' = true /\ (d2 = [] -> d2' = []).
Proof.
  intros Hr Hl1 Hl2 Hd. pose proof (rl_addr _ _ _ _ _ _ _ Hr) as Ha.
  destruct (rl_seg _ _ _ _ _ _ _ Hr) as (p & l & Hs & Hl). rewrite <- Ha in Hs.
  destruct (merge_step _ _ _ _ _ _ _ _ Hs Hl1 ltac:(lia) Hd) as (d' & d2' & p' & l' & Hs' & Hl' & E & Hd' & Hn & Hi & Hi').
  exists d', d2'. split_and_all; try done. eapply relisted_trans; [exact Hr|exact Hs'|lia|by apply caddr_mid| | |].
  - intros x Hx. eapply merge_frame; [exact Hs|done|done].
  - intros e. rewrite elem_of_app, elem_of_cons. intros [?|[->|?]].
    + exists e. rewrite elem_of_app. auto.
    + exists d. rewrite elem_of_app, elem_of_cons. auto.
    + exists e. rewrite elem_of_app, elem_of_cons. auto.
  - intros e He. rewrite !elem_of_app, !elem_of_cons. split.
    + intros [?|[->|?]]; [auto|congruence|auto].
    + intros [?|[->|?]]; [auto|congruence|auto].
Qed.

(** The predecessor link of a block in the middle of a list. *)
Lemma prev_in_list m l1 a d1 d d2 p l2 :
  seg m 0 l1 a (d1 ++ d :: d2) p l2 0 -> 0 < l1 -> b_prev m (ba d) <> 0 ->
  exists d1' e, d1 = d1' ++ [e] /\ b_prev m (ba d) = ba e.
Proof.
  intros (q & l & H1 & _ & _ & (_ & _ & _ & Hp) & _)%seg_focus Hl1 Hnz.
  destruct Hp as [Hp|Hp]; [done|]. destruct d1 as [|e0 d1]; [cbn in H1; destruct H1 as (-> & _); done|].
  destruct (@exists_last _ (e0 :: d1) ltac:(done)) as (d1' & e & E). exists d1', e. split; [done|].
  rewrite E in H1. apply seg_focus in H1 as (q' & l' & _ & _ & _ & _ & H2).
  cbn in H2. destruct H2 as (-> & _). done.
Qed.

(** The first half of [kfree]: mark the block free and merge it into a free
    predecessor. *)
Lemma kfree_back m l1 l2 p c1 b c2 :
  seg m 0 l1 (caddr (c1 ++ b :: c2)) (c1 ++ b :: c2) p l2 0 -> 0 < l1 ->
  l2 < 18446744073709551616 -> bfree b = false ->
  let m1 := set_free m (ba b) 1 in
  let r := if truthy (b_prev m1 (ba b)) && truthy (b_free m1 (b_prev m1 (ba b)))
           then (merge_blocks m1 (b_prev m1 (ba b)), b_prev m1 (ba b)) else (m1, ba b) in
  exists d1 d d2, relisted m (fst r) l1 l2 (c1 ++ b :: c2) (d1 ++ d :: d2) b /\
    bfree d = true /\ snd r = ba d.
Proof.
  intros Hs Hl1 Hl2 Hb m1 r.
  pose proof (relisted_mark m l1 l2 p c1 c2 b Hl1 Hl2 Hs Hb) as Hr. fold m1 in Hr.
  set (b' := Blk (ba b) (bsz b) true) in *.
  destruct (rl_seg _ _ _ _ _ _ _ Hr) as (p1 & l1' & Hs1 & Hle1).
  subst r. case_if; [|exists c1, b', c2; done].
  destruct (prev_in_list _ _ _ _ _ _ _ _ Hs1 Hl1 ltac:(done)) as (c0 & e & -> & Ep).
  cbn [ba b'] in Ep. rewrite Ep in *. rewrite <- !app_assoc in Hr, Hs1. cbn [app] in Hr, Hs1. rewrite <- !app_assoc. cbn [app].
  assert (He : bfree e = true).
  { apply seg_focus in Hs1 as (_ & _ & _ & _ & _ & (_ & Hf & _) & _). destruct (bfree e); congruence. }
  destruct (relisted_merge _ _ _ _ _ _ _ _ _ Hr Hl1 Hl2 He) as (d' & d2' & Hr' & E' & Hd' & _).
  exists c0, d', d2'. cbn [fst snd]. by rewrite E'.
Qed.

(** The block is gone from the blocks in use; the others keep their data. *)
Definition freed (heap : Z) (h : kheap) (cs : list (list blk)) (b : blk)
    (h' : kheap) (cs' : list (list blk)) : Prop :=
  heap_inv heap h' cs' /\ brk h' = brk h /\
  (forall c, used cs' c <-> used cs c /\ c <> b) /\
  keeps (kmem h) (kmem h') (fun c => used cs c /\ c <> b).

Section KfreeHeap.
Context (heap : Z) (h : kheap) (cs : list (list blk)) (b : blk).
Hypothesis Hinv : heap_inv heap h cs.
Hypothesis Hb : used cs b.

(** A block the allocator accepts is in the current list. *)
Lemma valid_current :
  is_addr_valid h (ba b + 40) = true ->
  exists cs' c1 c2 l1 p l2, cs = cs' ++ [c1 ++ b :: c2] /\ base h = caddr (c1 ++ b :: c2) /\
    chains (kmem h) heap cs' l1 /\ heap <= l1 /\
    seg (kmem h) 0 l1 (caddr (c1 ++ b :: c2)) (c1 ++ b :: c2) p l2 0 /\ l2 <= brk h.
Proof.
  intros Hv. destruct Hb as [Hbin Hbf]. unfold is_addr_valid in Hv.
  destruct (current_list heap h cs Hinv) as [Hb0|(cs' & c & l1 & p & l2 & Ecs & Hne & Hbc & Hb0 & Hc & Hl1 & Hs & Hl2 & Hlen)];
    [rewrite Hb0 in Hv; done|].
  rewrite truthy_nz in Hv by done. case_if_in Hv; [|done]. rewrite Ecs in Hbin.
  apply elem_concat_focus in Hbin as [Hbin|[Hbin|Hbin]]; [| |by apply not_elem_of_nil in Hbin].
  - destruct (chains_bounds _ _ _ _ _ Hc Hbin). unfold bend in *.
    destruct c as [|d c]; [done|]. cbn [seg caddr] in *. destruct Hs as (_ & ? & _). lia.
  - apply list_elem_of_split in Hbin as (c1 & c2 & ->). exists cs', c1, c2, l1, p, l2. auto 10.
Qed.

(** Putting a relisted current list back into the heap. *)
Lemma freed_by cs' c1 c2 c' l1 p l2 m' base' :
  cs = cs' ++ [c1 ++ b :: c2] -> base h = caddr (c1 ++ b :: c2) ->
  chains (kmem h) heap cs' l1 ->
  seg (kmem h) 0 l1 (caddr (c1 ++ b :: c2)) (c1 ++ b :: c2) p l2 0 -> l2 <= brk h ->
  relisted (kmem h) m' l1 l2 (c1 ++ b :: c2) c' b ->
  (base' = 0 \/ (base' = base h /\ c' <> [])) ->
  freed heap h cs b (KHeap m' (brk h) (endp h) base') (cs' ++ [c']).
Proof.
  intros Ecs Hbase Hc Hs Hl2 Hr Hb'. pose proof Hinv as [Hh He Hbr Hch _].
  destruct Hr as [(p' & l' & Hs' & Hl') Ha Hf _ Hu]. unfold freed. cbn [kmem brk]. split_and_all; [|done| |].
  - constructor; cbn [kmem brk endp base]; try done.
    + eapply chains_replace; [exact Hc|exact Hs|cbn; exact Hl2| |rewrite Ha; exact Hs'|lia].
      intros x Hx. apply Hf. by eapply outside_off_hdrs.
    + destruct Hb' as [->|[-> Hne]]; [by left|right]. exists cs', c'. by rewrite Ha.
  - intros d. rewrite Ecs, !used_snoc, Hu. split; [|tauto].
    intros [Hd|?]; [|tauto]. split; [tauto|]. intros ->. destruct Hd as [Hd _].
    destruct (chains_bounds _ _ _ _ _ Hc Hd). pose proof (elem_mid c1 b c2) as Hbin.
    destruct (seg_bounds _ _ _ _ _ _ _ _ _ Hs Hbin). unfold bend in *. lia.
  - intros d [[Hd _] _] x Hx. apply Hf. rewrite Ecs in Hch, Hd.
    eapply data_off_hdrs; [exact Hch|exact Hd|unfold bend; lia].
Qed.

Lemma kfree_cases :
  exists h', kfree h (ba b + 40) = Some h' /\
    ((h' = h /\ is_addr_valid h (ba b + 40) = false) \/
     (is_addr_valid h (ba b + 40) = true /\ exists cs', freed heap h cs b h' cs')).
Proof.
  pose proof Hinv as [Hh He Hbr Hch _]. destruct Hb as [Hbin Hbf].
  destruct (chains_bounds _ _ _ _ _ Hch Hbin) as (Hb1 & Hb2 & Hb3).
  unfold kfree. destruct (is_addr_valid h (ba b + 40)) eqn:Hv; [|exists h; auto].
  destruct (valid_current Hv) as (cs' & c1 & c2 & l1 & p & l2 & Ecs & Hbase & Hc & Hl1 & Hs & Hl2).
  unfold get_block_addr, META_BLOCK_SIZE, HEAP_SIZE, bend in *. rewrite u64_small by lia.
  replace (ba b + 40 - 40) with (ba b) by lia.
  destruct (kfree_back _ _ _ _ _ _ _ Hs ltac:(lia) ltac:(lia) Hbf) as (d1 & d & d2 & Hr & Hdf & Er).
  match type of Hr with relisted _ (fst ?r) _ _ _ _ _ => destruct r as [m2 blk2] eqn:Er2 end.
  cbn [fst snd] in *. subst blk2.
  destruct (rl_seg _ _ _ _ _ _ _ Hr) as (p2 & l2' & Hs2 & Hle2).
  pose proof (seg_bounds _ _ _ _ _ _ _ _ d Hs2 (elem_mid d1 d d2)) as (Hd1 & _).
  destruct (truthy (b_next m2 (ba d))) eqn:En; bool_to_prop.
  - eexists. split; [reflexivity|]. right. split; [done|].
    destruct (relisted_merge _ _ _ _ _ _ _ _ _ Hr ltac:(lia) ltac:(lia) Hdf) as (d' & d2' & Hr' & _).
    exists (cs' ++ [d1 ++ d' :: d2']). eapply freed_by; eauto. right. split; [done|by destruct d1].
  - destruct (next_in_list _ _ _ _ _ _ _ _ _ Hs2) as [[_ ->]|(e & d3 & -> & E)]; cycle 1.
    { pose proof (seg_bounds _ _ _ _ _ _ _ _ e Hs2) as Hbe.
      rewrite elem_of_app, !elem_of_cons in Hbe. destruct Hbe as (? & _); [auto|lia]. }
    destruct (truthy (b_prev m2 (ba d))) eqn:Ep; bool_to_prop.
    + (* the predecessor becomes the last block *)
      destruct (prev_in_list _ _ _ _ _ _ _ _ Hs2 ltac:(lia) Ep) as (d0 & e & -> & Epe).
      rewrite <- app_assoc in Hs2, Hr. cbn [app] in Hs2, Hr. rewrite Epe.
      destruct (seg_drop_last m2 0 l1 _ p2 l2' d0 e d Hs2) as [Hs3 Hle3].
      set (m3 := set_next m2 (ba e) 0) in *.
      assert (Hr3 : relisted (kmem h) m3 l1 l2 (c1 ++ b :: c2) (d0 ++ [e]) b).
      { eapply relisted_trans; [exact Hr| |exact (Z.le_trans _ _ _ Hle3 Hle2)|by destruct d0| | |].
        - rewrite (rl_addr _ _ _ _ _ _ _ Hr). exact Hs3.
        - intros x Hx%off_hdrs_at. subst m3. unfold set_next. apply stn_out. lia.
        - intros x. rewrite elem_of_app, list_elem_of_singleton. intros Hx. exists x.
          rewrite elem_of_app, !elem_of_cons. tauto.
        - intros x Hx. rewrite !elem_of_app, !elem_of_cons.
          assert (x <> d) by congruence. assert (x ∉ @nil blk) by apply not_elem_of_nil. tauto. }
      unfold get_last_block. cbn [kmem base with_mem]. rewrite Hbase.
      rewrite (get_last_seg _ _ _ _ _ _ _ _ Hs3 ltac:(lia)) by
        (eapply seg_fuel; [exact Hs3|exact Hl1|unfold HEAP_SIZE, bend in *; lia]).
      cbn [mbind option_bind].
      replace (match d0 ++ [e] with [] => 0 | _ => ba e end) with (ba e) by (by destruct d0).
      assert (Hne : ba d <> ba e).
      { intros E. apply (seg_split_neq _ _ _ _ _ _ _ _ _ _ d Hs2); [right; by left|done]. }
      rewrite (proj2 (Z.eqb_neq _ _) Hne). eexists. split; [reflexivity|]. right. split; [done|].
      exists (cs' ++ [d0 ++ [e]]). eapply freed_by; eauto. right. split; [done|by destruct d0].
    + (* no link back: the list is abandoned *)
      unfold get_last_block. cbn [kmem base with_mem with_base].
      replace (wloop max_blocks _ 0) with (Some 0)
        by (unfold max_blocks, HEAP_SIZE, META_BLOCK_SIZE; symmetry; reflexivity).
      cbn [mbind option_bind]. rewrite (proj2 (Z.eqb_neq (ba d) 0)) by lia.
      eexists. split; [reflexivity|]. right. split; [done|].
      exists (cs' ++ [d1 ++ [d]]). eapply freed_by; eauto.
Qed.
End KfreeHeap.

(** ** [krealloc] *)

Lemma chains_frame_hdrs m m' lo cs hi :
  (forall b, b ∈ concat cs -> agree m m' (ba b) 40) -> chains m lo cs hi -> chains m' lo cs hi.
Proof.
  revert lo. induction cs as [|c cs IH]; intros lo Hf; cbn [chains concat]; [done|].
  intros (p & l & Hs & Hc). exists p, l. split.
  - eapply seg_frame, Hs. intros b Hb. apply Hf. cbn. apply elem_of_app. auto.
  - apply IH; [|done]. intros b Hb. apply Hf. cbn. apply elem_of_app. auto.
Qed.

(** A write that misses every header leaves the invariant intact. *)
Lemma heap_inv_write heap h cs m' :
  heap_inv heap h cs -> (forall b, b ∈ concat cs -> agree (kmem h) m' (ba b) 40) ->
  heap_inv heap (with_mem h m') cs.
Proof.
  intros [Hh He Hbr Hch Hb] Hf. constructor; try done. by eapply chains_frame_hdrs.
Qed.

Lemma block_size_field heap h cs b :
  heap_inv heap h cs -> b ∈ concat cs -> b_size (kmem h) (ba b) = bsz b.
Proof.
  intros [_ _ _ Hch _] (cs1 & c1 & c2 & cs2 & ->)%elem_concat_split.
  apply chains_focus in Hch as (l1 & p & l2 & _ & Hs & _).
  by apply seg_focus in Hs as (? & ? & _ & _ & _ & (? & _) & _).
Qed.

(** The block has room for the new size and its first bytes are the old ones;
    the other blocks in use are kept. *)
Definition reallocated (heap : Z) (h : kheap) (cs : list (list blk)) (b : blk) (size : Z)
    (h' : kheap) (q : Z) (cs' : list (list blk)) (b' : blk) : Prop :=
  heap_inv heap h' cs' /\ q = ba b' + 40 /\ size <= bsz b' /\ used cs' b' /\
  (forall c, used cs c -> c <> b -> used cs' c /\ ba c <> ba b') /\
  (forall c, used cs' c -> c = b' \/ used cs c) /\
  keeps (kmem h) (kmem h') (fun c => used cs c /\ c <> b) /\
  (forall i, 0 <= i < Z.min (bsz b) size -> ld8 (kmem h') (q + i) = ld8 (kmem h) (ba b + 40 + i)).

Lemma snoc_focus {A} (cs1 cs2 cs' : list A) c c0 :
  cs1 ++ c :: cs2 = cs' ++ [c0] ->
  (cs2 = [] /\ c = c0 /\ cs1 = cs') \/ (exists cs3, cs2 = cs3 ++ [c0] /\ cs' = cs1 ++ c :: cs3).
Proof.
  destruct cs2 as [|x cs2] using rev_ind.
  - intros H. apply app_inj_tail in H as [-> ->]. by left.
  - rewrite app_comm_cons, app_assoc. intros H. apply app_inj_tail in H as [<- ->]. right. by exists cs2.
Qed.

Lemma elem_focus_other (cs1 cs2 : list (list blk)) c1 b c2 d :
  used (cs1 ++ (c1 ++ b :: c2) :: cs2) d -> d <> b ->
  (d ∈ concat cs1 \/ d ∈ concat cs2) \/ ((d ∈ c1 \/ d ∈ c2) /\ bfree d = false).
Proof.
  intros [Hd Hf] Hne. apply elem_concat_focus in Hd. rewrite elem_of_app, elem_of_cons in Hd. tauto.
Qed.

Section InPlace.
Context (heap : Z) (h : kheap) (cs1 cs2 : list (list blk)) (c1 c2 : list blk) (b : blk).
Context (l1 p l2 : Z).
Let c := c1 ++ b :: c2.
Let cs := cs1 ++ c :: cs2.
Hypothesis Hinv : heap_inv heap h cs.
Hypothesis Hbf : bfree b = false.
Hypothesis Hc1 : chains (kmem h) heap cs1 l1.
Hypothesis Hs : seg (kmem h) 0 l1 (caddr c) c p l2 0.
Hypothesis Hc2 : chains (kmem h) l2 cs2 (brk h).

(** Changing one block of one list where it stands. *)
Lemma in_place b' c2' p' l' m' size :
  seg m' 0 l1 (caddr c) (c1 ++ b' :: c2') p' l' 0 -> l' <= l2 ->
  ba b' = ba b -> bfree b' = false -> size <= bsz b' ->
  (forall d, bfree d = false -> (d ∈ c2' <-> d ∈ c2)) ->
  (forall x, x < l1 \/ l2 <= x -> m' x = kmem h x) ->
  (forall d, d ∈ c1 \/ d ∈ c2 -> bfree d = false -> agree (kmem h) m' (ba d + 40) (bsz d)) ->
  agree (kmem h) m' (ba b + 40) (Z.min (bsz b) size) ->
  reallocated heap h cs b size (with_mem h m') (ba b + 40) (cs1 ++ (c1 ++ b' :: c2') :: cs2) b'.
Proof.
  intros Hs' Hl' Ea Hf' Hsz Hu Hout Hkeep Hself. pose proof Hinv as [Hh He Hbr Hch Hbase].
  assert (Eca : caddr (c1 ++ b' :: c2') = caddr c) by (by apply caddr_mid).
  assert (Hb'in : used (cs1 ++ (c1 ++ b' :: c2') :: cs2) b').
  { split; [|done]. apply elem_concat_focus. right. left. apply elem_mid. }
  assert (Hoth : forall d, used cs d -> d <> b -> ba d <> ba b).
  { intros d [Hd _] Hne E. unfold cs in Hch.
    destruct (chains_disjoint _ _ _ _ d b Hch Hd) as [?|Hdis]; [apply elem_concat_focus; right; left; apply elem_mid|done|].
    destruct (chains_bounds _ _ _ _ _ Hch Hd). unfold bend in *.
    pose proof (seg_bounds _ _ _ _ _ _ _ _ b Hs (elem_mid c1 b c2)). lia. }
  unfold reallocated. cbn [kmem with_mem]. split_and_all; try done; try lia.
  - constructor; cbn [kmem brk endp base with_mem]; try done.
    + eapply chains_replace; [exact Hc1|exact Hs|exact Hc2|exact Hout|rewrite Eca; exact Hs'|done].
    + destruct Hbase as [?|(cs' & c0 & E & Hne & Hb0)]; [by left|right].
      apply snoc_focus in E as [(-> & <- & <-)|(cs3 & -> & ->)].
      * exists cs1, (c1 ++ b' :: c2'). split_and_all; [done|by destruct c1|congruence].
      * exists (cs1 ++ (c1 ++ b' :: c2') :: cs3), c0. split_and_all; [by rewrite <- app_assoc|done|done].
  - intros d Hd Hne. split; [|rewrite Ea; by apply Hoth].
    apply elem_focus_other in Hd as Hd'; [|done]. destruct Hd as [_ Hdf]. split; [|done].
    apply elem_concat_focus. rewrite elem_of_app, elem_of_cons. specialize (Hu d Hdf). tauto.
  - intros d [Hd Hdf]. apply elem_concat_focus in Hd. rewrite elem_of_app, elem_of_cons in Hd.
    specialize (Hu d Hdf). unfold used, cs, c. rewrite elem_concat_focus, elem_of_app, elem_of_cons. tauto.
  - intros d [Hd Hne]. apply elem_focus_other in Hd as [[Hd|Hd]|[Hd Hdf]]; [| |by apply Hkeep|done].
    + destruct (chains_bounds _ _ _ _ _ Hc1 Hd). intros x Hx. apply Hout. unfold bend in *. lia.
    + destruct (chains_bounds _ _ _ _ _ Hc2 Hd). intros x Hx. apply Hout. unfold bend in *. lia.
  - intros i Hi. unfold ld8. rewrite Hself by lia. done.
Qed.
End InPlace.
