(* ===== verification/KmemRealloc.v ===== *)
(** * [krealloc], [src/src/kmem/krealloc.c]

    The three ways a block is resized - trimmed where it stands, grown over a
    free successor, or moved - all establish [reallocated]. *)

From S2P Require Import Prelude Mem CString Kmem KmemInv KmemSafety.

(** The optional split at the end of the two in-place branches. *)
Definition trim (m : mem) (block s : Z) : mem :=
  if META_BLOCK_SIZE + 4 <=? u64 (b_size m block - s) then split m block s else m.

Lemma trim_seg m l1 a c1 b c2 p l2 s :
  seg m 0 l1 a (c1 ++ b :: c2) p l2 0 -> 0 < l1 -> l2 < 18446744073709551616 -> 0 <= s <= bsz b ->
  exists b' c2' p', seg (trim m (ba b) s) 0 l1 a (c1 ++ b' :: c2') p' l2 0 /\
    ba b' = ba b /\ s <= bsz b' /\ bfree b' = bfree b /\
    (forall d, bfree d = false -> (d ∈ c2' <-> d ∈ c2)) /\
    (forall x, off_hdrs (c1 ++ b :: c2) x -> x < ba b + 40 + s \/ bend b <= x ->
               trim m (ba b) s x = m x).
Proof.
  intros Hs Hl1 Hl2 Hsz. pose proof (seg_bounds _ _ _ _ _ _ _ _ b Hs (elem_mid c1 b c2)) as (_ & _ & Hb3).
  assert (Hbs : b_size m (ba b) = bsz b) by (by apply seg_focus in Hs as (? & ? & _ & _ & _ & (? & _) & _)).
  pose proof (seg_bounds _ _ _ _ _ _ _ _ b Hs (elem_mid c1 b c2)) as (Hb1 & _). unfold bend in Hb3.
  unfold trim. rewrite Hbs. unfold META_BLOCK_SIZE. rewrite u64_small by lia. case_if.
  - destruct (seg_split _ _ _ _ _ _ Hl1 Hl2 c1 b c2 s Hs ltac:(lia) ltac:(lia)) as (p' & Hsp).
    eexists (Blk (ba b) s (bfree b)), _, p'. split; [exact Hsp|]. cbn [ba bsz bfree].
    split_and_all; try done; try lia.
    + intros d Hd. rewrite elem_of_cons. split; [intros [->|?]; done|auto].
    + intros x Hx Hx2. eapply split_frame; [exact Hs|lia..|done|done].
  - exists b, c2, p. split_and_all; try done; lia.
Qed.

(** Growing over a free successor is [merge_blocks]. *)
Lemma krealloc_merge m b :
  truthy (b_next m b) = true -> truthy (b_free m (b_next m b)) = true ->
  let m1 := set_size m b (u64 (b_size m b + META_BLOCK_SIZE + b_size m (b_next m b))) in
  let m2 := set_next m1 b (b_next m1 (b_next m b)) in
  (if truthy (b_next m2 b) then set_prev m2 (b_next m2 b) b else m2) = merge_blocks m b.
Proof.
  intros H1 H2 m1 m2. unfold merge_blocks. rewrite H1, H2. cbn [andb].
  rewrite Z.add_assoc. fold m1.
  assert (E : b_next m1 b = b_next m b) by (subst m1; kunfold; mem_simpl; done).
  rewrite E. done.
Qed.

(** Order of the blocks around one of them. *)
Lemma seg_before m pred lo a c1 b c2 pred' lo' a' d :
  seg m pred lo a (c1 ++ b :: c2) pred' lo' a' -> d ∈ c1 -> bend d <= ba b.
Proof. intros (p & l & H1 & Hl & _)%seg_focus Hd. destruct (seg_bounds _ _ _ _ _ _ _ _ _ H1 Hd). lia. Qed.

Lemma seg_after m pred lo a c1 b c2 pred' lo' a' d :
  seg m pred lo a (c1 ++ b :: c2) pred' lo' a' -> d ∈ c2 -> bend b <= ba d.
Proof.
  intros (p & l & _ & _ & _ & _ & H2)%seg_focus Hd. by destruct (seg_bounds _ _ _ _ _ _ _ _ _ H2 Hd).
Qed.

Section Krealloc.
Context (heap : Z) (h : kheap) (cs : list (list blk)) (b : blk) (size : Z).
Hypothesis Hinv : heap_inv heap h cs.
Hypothesis Hb : used cs b.
Hypothesis Hsz : size_ok heap size.

Lemma aligned_ge : size <= align4 size.
Proof.
  pose proof Hinv as [Hh _ _ _ _]. destruct Hsz as [H1 H2]. unfold HEAP_SIZE in *.
  destruct (align4_spec size H1 ltac:(lia)). lia.
Qed.

(** The data of the other used blocks of a list, away from the block [b]. *)
Lemma other_data cs1 c1 c2 cs2 d x :
  cs = cs1 ++ (c1 ++ b :: c2) :: cs2 -> d ∈ c1 \/ d ∈ c2 -> d <> b -> ba d + 40 <= x < bend d ->
  off_hdrs (c1 ++ b :: c2) x /\ (x < ba b \/ bend b <= x).
Proof.
  intros -> Hd Hne Hx. pose proof (hi_chains _ _ _ Hinv) as Hch.
  assert (Hin : d ∈ concat (cs1 ++ (c1 ++ b :: c2) :: cs2)).
  { apply elem_concat_focus. rewrite elem_of_app, elem_of_cons. tauto. }
  split; [eapply data_off_hdrs; eauto|].
  eapply (data_off _ _ _ _ d b); [exact Hch|done|apply elem_concat_focus; right; left; apply elem_mid|done|done].
Qed.

(** The block is large enough already. *)
Lemma krealloc_shrink :
  align4 size <= bsz b ->
  exists cs' b', reallocated heap h cs b size (with_mem h (trim (kmem h) (ba b) (align4 size))) (ba b + 40) cs' b'.
Proof.
  intros Hfit. destruct Hb as [Hbin Hbf]. pose proof Hinv as [Hh He Hbr Hch _]. pose proof aligned_ge as Ha.
  destruct Hsz as [Hs0 _]. destruct (elem_concat_split _ _ Hbin) as (cs1 & c1 & c2 & cs2 & Ecs).
  pose proof Hch as Hch'. rewrite Ecs in Hch'. apply chains_focus in Hch' as (l1 & p & l2 & Hc1 & Hs & Hc2).
  pose proof (chains_le _ _ _ _ Hc1). pose proof (chains_le _ _ _ _ Hc2). unfold HEAP_SIZE in *.
  destruct (trim_seg _ _ _ _ _ _ _ _ (align4 size) Hs ltac:(lia) ltac:(lia) ltac:(lia))
    as (b' & c2' & p' & Hs' & Ea & Hsz' & Hf' & Hu & Hfr).
  exists (cs1 ++ (c1 ++ b' :: c2') :: cs2), b'. rewrite Ecs.
  eapply in_place with (p := p) (l1 := l1) (l2 := l2) (p' := p') (l' := l2); try done; try lia; try congruence.
  - intros x Hx. apply Hfr; [by eapply outside_off_hdrs|].
    pose proof (seg_bounds _ _ _ _ _ _ _ _ b Hs (elem_mid c1 b c2)). unfold bend in *. lia.
  - intros d Hd Hdf x Hx. destruct (decide (d = b)) as [->|Hne].
    { exfalso. by apply (seg_split_neq _ _ _ _ _ _ _ _ _ _ b Hs). }
    destruct (other_data _ _ _ _ d x Ecs Hd Hne ltac:(unfold bend; lia)). apply Hfr; [done|lia].
  - intros x Hx. apply Hfr; [|lia]. rewrite Ecs in Hch. eapply data_off_hdrs; [exact Hch|rewrite <- Ecs; exact Hbin|unfold bend; lia].
Qed.

(** The free successor is taken in. *)
Lemma krealloc_grow_over :
  truthy (b_next (kmem h) (ba b)) = true -> truthy (b_free (kmem h) (b_next (kmem h) (ba b))) = true ->
  align4 size <= b_size (kmem h) (ba b) + 40 + b_size (kmem h) (b_next (kmem h) (ba b)) ->
  exists cs' b', reallocated heap h cs b size
    (with_mem h (trim (merge_blocks (kmem h) (ba b)) (ba b) (align4 size))) (ba b + 40) cs' b'.
Proof.
  intros Hn1 Hn2 Hfit. destruct Hb as [Hbin Hbf]. pose proof Hinv as [Hh He Hbr Hch _]. pose proof aligned_ge as Ha.
  destruct Hsz as [Hs0 _]. destruct (elem_concat_split _ _ Hbin) as (cs1 & c1 & c2 & cs2 & Ecs).
  pose proof Hch as Hch'. rewrite Ecs in Hch'. apply chains_focus in Hch' as (l1 & p & l2 & Hc1 & Hs & Hc2).
  pose proof (chains_le _ _ _ _ Hc1). pose proof (chains_le _ _ _ _ Hc2). unfold HEAP_SIZE in *.
  destruct (next_in_list _ _ _ _ _ _ _ _ _ Hs) as [[E _]|(b2 & c3 & -> & En)]; [by rewrite E in Hn1|].
  rewrite En in *. assert (Hs2 : seg (kmem h) 0 l1 (caddr (c1 ++ b :: b2 :: c3)) ((c1 ++ [b]) ++ b2 :: c3) p l2 0)
    by (by rewrite <- app_assoc).
  assert (Hb2 : b2 ∈ concat cs).
  { rewrite Ecs. apply elem_concat_focus. right; left. apply elem_of_app. right; right; left. }
  rewrite (block_size_field heap h cs b Hinv Hbin), (block_size_field heap h cs b2 Hinv Hb2) in Hfit.
  assert (Hf2 : bfree b2 = true).
  { apply seg_focus in Hs2 as (_ & _ & _ & _ & _ & (_ & Hf & _) & _). rewrite Hf in Hn2. by destruct (bfree b2). }
  destruct (seg_merge_free (kmem h) 0 l1 _ p l2 ltac:(lia) ltac:(lia) _ _ _ _ Hs Hf2) as (pm & lm & Hsm & Hlm).
  set (bm := Blk (ba b) (bsz b + 40 + bsz b2) (bfree b)) in *.
  destruct (trim_seg _ _ _ _ bm _ _ _ (align4 size) Hsm ltac:(lia) ltac:(lia) ltac:(unfold bm; cbn; lia))
    as (b' & c2' & p' & Hs' & Ea & Hsz' & Hf' & Hu & Hfr). cbn [ba bfree bm] in Ea, Hf', Hfr, Hs'.
  set (m' := trim _ _ _) in *.
  assert (Hgap : bend b <= ba b2 /\ bend b2 <= l2 /\ l1 <= ba b).
  { pose proof (seg_bounds _ _ _ _ _ _ _ _ b2 Hs2 (elem_mid _ _ _)).
    pose proof (seg_bounds _ _ _ _ _ _ _ _ b Hs (elem_mid _ _ _)).
    apply seg_focus in Hs as (? & ? & _ & _ & _ & _ & Hs3). cbn [seg] in Hs3. lia. }
  assert (Hfr2 : forall x, off_hdrs (c1 ++ b :: b2 :: c3) x -> x < ba b + 40 + align4 size \/ bend b2 <= x ->
                 m' x = kmem h x).
  { intros x Hx Hx2. rewrite Hfr.
    - eapply merge_frame; [exact Hs|lia|done].
    - intros d. rewrite elem_of_app, elem_of_cons. intros [?|[->|?]]; [..|].
      + apply Hx. rewrite elem_of_app. auto.
      + apply (Hx b), elem_mid.
      + apply Hx. rewrite elem_of_app, !elem_of_cons. auto.
    - unfold bend in *. cbn [ba bsz bm]. lia. }
  exists (cs1 ++ (c1 ++ b' :: c2') :: cs2), b'. rewrite Ecs.
  eapply in_place with (p := p) (l1 := l1) (l2 := l2) (p' := p') (l' := lm); try done; try lia; try congruence.
  - intros d Hd. rewrite Hu by done. rewrite elem_of_cons. split; [auto|]. intros [->|?]; congruence.
  - intros x Hx. apply Hfr2; [by eapply outside_off_hdrs|]. unfold bend in *.
    pose proof (seg_bounds _ _ _ _ _ _ _ _ b Hs (elem_mid _ _ _)). lia.
  - intros d Hd Hdf x Hx. destruct (decide (d = b)) as [->|Hne].
    { exfalso. by apply (seg_split_neq _ _ _ _ _ _ _ _ _ _ b Hs). }
    destruct (other_data _ _ _ _ d x Ecs Hd Hne ltac:(unfold bend; lia)) as [Hx1 Hx2]. apply Hfr2; [done|].
    destruct Hd as [Hd|Hd]; [pose proof (seg_before _ _ _ _ _ _ _ _ _ _ d Hs Hd); unfold bend in *; lia|].
    apply elem_of_cons in Hd as [->|Hd]; [congruence|].
    pose proof (seg_after _ _ _ _ _ _ _ _ _ _ d Hs2 Hd). unfold bend in *. lia.
  - intros x Hx. apply Hfr2; [|unfold bend in *; lia]. rewrite Ecs in Hch. eapply data_off_hdrs; [exact Hch|rewrite <- Ecs; exact Hbin|unfold bend; lia].
Qed.

(** Copying into the new block touches no header and no other block. *)
Lemma copy_into h1 cs1 nb n m' :
  heap_inv heap h1 cs1 -> used cs1 nb -> 0 <= n <= bsz nb ->
  m' = memcpy (kmem h1) (ba nb + 40) (ba b + 40) n ->
  heap_inv heap (with_mem h1 m') cs1 /\ keeps (kmem h1) m' (fun c => used cs1 c /\ c <> nb).
Proof.
  intros Hi Hnb Hn ->. pose proof (hi_chains _ _ _ Hi) as Hch. split.
  - apply heap_inv_write; [done|]. intros d Hd x Hx.
    destruct (chains_bounds _ _ _ _ _ Hch Hd).
    destruct (chains_disjoint _ _ _ _ d nb Hch Hd (proj1 Hnb)) as [->|?]; apply memcpy_out; unfold bend in *; lia.
  - intros d [[Hd _] Hne] x Hx. destruct (chains_disjoint _ _ _ _ d nb Hch Hd (proj1 Hnb)) as [?|?]; [done|].
    apply memcpy_out; unfold bend in *; lia.
Qed.

(** The block is moved. *)
Lemma krealloc_move h1 cs1 nb :
  allocated heap h cs size h1 (ba nb + 40) cs1 nb ->
  let m' := memcpy (kmem h1) (ba nb + 40) (ba b + 40) (Z.min (bsz b) (bsz nb)) in
  exists h2 cs2, kfree (with_mem h1 m') (ba b + 40) = Some h2 /\
    reallocated heap h cs b size h2 (ba nb + 40) cs2 nb.
Proof.
  intros (Hi & _ & Hsn & Hu & Hfresh & Hk & Hbrk) m'.
  assert (Hnb : used cs1 nb) by (apply Hu; by left). assert (Hb1 : used cs1 b) by (apply Hu; by right).
  assert (Hne : nb <> b) by (intros ->; by apply (Hfresh b)).
  pose proof (hi_chains _ _ _ Hi) as Hch.
  destruct (chains_bounds _ _ _ _ _ Hch (proj1 Hnb)) as (_ & Hn0 & _).
  destruct (chains_bounds _ _ _ _ _ Hch (proj1 Hb1)) as (_ & Hb0 & _).
  destruct (copy_into h1 cs1 nb (Z.min (bsz b) (bsz nb)) m' Hi Hnb ltac:(lia) eq_refl) as [Hi' Hk'].
  assert (Hcopy : forall i, 0 <= i < Z.min (bsz b) size -> m' (ba nb + 40 + i) = ld8 (kmem h) (ba b + 40 + i)).
  { intros i Hr. unfold m'. rewrite memcpy_copied; [|lia|].
    - unfold copied. replace (_ && _) with true by lia. unfold ld8. f_equal.
      replace (ba b + 40 + (ba nb + 40 + i - (ba nb + 40))) with (ba b + 40 + i) by lia.
      apply (Hk b Hb). lia.
    - destruct (chains_disjoint _ _ _ _ _ _ Hch (proj1 Hnb) (proj1 Hb1)) as [?|?]; [done|]. unfold bend in *; lia. }
  destruct (kfree_cases heap _ cs1 b Hi' Hb1) as (h2 & Ef & [[-> _]|(_ & cs2 & Hi2 & _ & Hu2 & Hk2)]).
  - exists (with_mem h1 m'), cs1. split; [done|]. unfold reallocated. cbn [kmem with_mem]. split_and_all; try done.
    + intros c Hc _. split; [apply Hu; auto|by apply Hfresh].
    + intros c Hc. by apply Hu.
    + intros c [Hc Hcb]. eapply agree_trans; [by apply Hk|]. apply Hk'. split; [apply Hu; auto|]. intros ->. by apply (Hfresh nb).
    + intros i Hr. unfold ld8 at 1. rewrite Hcopy by done. apply u8_ld8.
  - exists h2, cs2. split; [done|]. unfold reallocated. split_and_all; try done.
    + by apply Hu2.
    + intros c Hc Hcb. split; [apply Hu2; split; [apply Hu; auto|done]|by apply Hfresh].
    + intros c [Hc _]%Hu2. by apply Hu.
    + intros c [Hc Hcb]. assert (Hc1 : used cs1 c) by (apply Hu; auto). cbn [kmem with_mem] in Hk2.
      eapply agree_trans; [by apply Hk|]. eapply agree_trans; [apply Hk'; split; [done|]|by apply Hk2].
      intros ->. by apply (Hfresh nb).
    + intros i Hr. unfold ld8 at 1. rewrite (Hk2 nb (conj Hnb Hne)) by lia. cbn [kmem with_mem].
      rewrite Hcopy by done. apply u8_ld8.
Qed.

(** The whole of [krealloc] on a block in use. *)
Lemma krealloc_cases :
  0 < size ->
  exists h' q, krealloc h (ba b + 40) size = Some (h', q) /\
   ((q = 0 /\ h' = h) \/ (q <> 0 /\ exists cs' b', reallocated heap h cs b size h' q cs' b')).
Proof.
  intros Hs0. pose proof Hinv as [Hh He Hbr Hch _]. destruct Hb as [Hbin Hbf].
  destruct (chains_bounds _ _ _ _ _ Hch Hbin) as (Hb1 & Hb2 & Hb3). unfold HEAP_SIZE, bend in *.
  assert (Hq : forall h' q cs' b', reallocated heap h cs b size h' q cs' b' ->
    q <> 0 /\ exists cs' b', reallocated heap h cs b size h' q cs' b').
  { intros h' q cs' b' Hr. split; [|eauto]. destruct Hr as (Hi & -> & _ & [Hin _] & _).
    destruct (chains_bounds _ _ _ _ _ (hi_chains _ _ _ Hi) Hin). lia. }
  unfold krealloc. rewrite truthy_nz by lia. cbn [negb].
  replace (size =? 0) with false by lia.
  assert (Eblk : forall d, 0 <= d < 18446744073709551616 -> u64 (d + 40 - META_BLOCK_SIZE) = d)
    by (unfold META_BLOCK_SIZE; intros; wrap_lia).
  cbv zeta. rewrite Eblk by lia.
  pose proof (block_size_field heap h cs b Hinv Hbin) as Ebs.
  destruct (align4 size <=? b_size (kmem h) (ba b)) eqn:E1; bool_to_prop.
  { destruct krealloc_shrink as (cs' & b' & Hr); [lia|]. eexists _, _. split; [reflexivity|]. right. eapply Hq, Hr. }
  match goal with |- context [if ?t then _ else _] => destruct t eqn:E2 end.
  { apply andb_prop in E2 as [E2 E3]. apply andb_prop in E2 as [E2 E4].
    destruct krealloc_grow_over as (cs' & b' & Hr); [done|done| |].
    - unfold META_BLOCK_SIZE in E3. bool_to_prop.
      pose proof (ld64_range (kmem h) (b_next (kmem h) (ba b) + 8)).
      unfold b_size in *. wrap_lia.
    - rewrite krealloc_merge by done. eexists _, _. split; [reflexivity|]. right. eapply Hq, Hr. }
  destruct (kmalloc_cases heap h cs Hinv size Hsz) as (h1 & q & -> & [(-> & -> & _)|(Hqn & cs1 & nb & Hal)]);
    cbn [mbind option_bind]; [exists h, 0; auto|].
  rewrite truthy_nz by done. cbn [negb]. pose proof Hal as (Hi & -> & _ & Hu & _).
  assert (Hnb : used cs1 nb) by (apply Hu; by left). assert (Hb' : used cs1 b) by (apply Hu; by right).
  destruct (chains_bounds _ _ _ _ _ (hi_chains _ _ _ Hi) (proj1 Hnb)) as (Hc1 & Hc2 & Hc3).
  pose proof (hi_brk _ _ _ Hi). pose proof (hi_end _ _ _ Hi). unfold bend, HEAP_SIZE in *.
  rewrite Eblk by lia.
  rewrite (block_size_field heap h1 cs1 b Hi (proj1 Hb')), (block_size_field heap h1 cs1 nb Hi (proj1 Hnb)).
  replace (if bsz b <? bsz nb then bsz b else bsz nb) with (Z.min (bsz b) (bsz nb)) by (case_if; lia).
  destruct (krealloc_move h1 cs1 nb Hal) as (h2 & cs2 & Ef & Hr). unfold memcpy in Ef. rewrite Ef.
  cbn [mbind option_bind]. eexists _, _. split; [reflexivity|]. right. eapply Hq, Hr.
Qed.
End Krealloc.
