(* ===== verification/KmemProps.v ===== *)
(** * What the kernel heap promises its clients

    The contract of [kmalloc], [kfree] and [krealloc] as an abstract object
    store, and the proof that [src/src/kmem/*.c] implements it for any sequence
    of legal calls and client writes. *)

From S2P Require Import Prelude Mem CString Kmem KmemInv KmemSafety KmemRealloc.

(** ** The abstract store: live objects with their bytes *)

Definition astore := list (Z * list Z).

Inductive cop :=
  | CAlloc (size : Z)
  | CFree (p : Z)
  | CRealloc (p size : Z)
  | CWrite (p : Z) (i : nat) (v : Z).

(** Two objects that share no byte (and no address). *)
Definition apart (x y : Z * list Z) : Prop :=
  fst x <> fst y /\
  (fst x + Z.of_nat (length (snd x)) <= fst y \/ fst y + Z.of_nat (length (snd y)) <= fst x).

(** The specification of one call with its answer. *)
Inductive astep (A : astore) : cop -> Z -> astore -> Prop :=
  | AAllocFail size : astep A (CAlloc size) 0 A
  | AAlloc size p bs : p <> 0 -> Z.of_nat (length bs) = size -> Forall (apart (p, bs)) A ->
      astep A (CAlloc size) p ((p, bs) :: A)
  | AFree p bs A1 A2 : A = A1 ++ (p, bs) :: A2 -> astep A (CFree p) 0 (A1 ++ A2)
  | AReallocFail p size : astep A (CRealloc p size) 0 A
  | ARealloc p size q bs bs' A1 A2 : A = A1 ++ (p, bs) :: A2 -> q <> 0 ->
      Z.of_nat (length bs') = size -> take (length bs) bs' = take (length bs') bs ->
      Forall (apart (q, bs')) (A1 ++ A2) ->
      astep A (CRealloc p size) q ((q, bs') :: A1 ++ A2)
  | AWrite p i v bs A1 A2 : A = A1 ++ (p, bs) :: A2 ->
      astep A (CWrite p i v) 0 (A1 ++ (p, <[i := v]> bs) :: A2).

(** What a client may do: free, resize and write only what it holds. *)
Definition legal (heap : Z) (A : astore) (op : cop) : Prop :=
  match op with
  | CAlloc size => size_ok heap size
  | CFree p => exists bs, (p, bs) ∈ A
  | CRealloc p size => size_ok heap size /\ 0 < size /\ exists bs, (p, bs) ∈ A
  | CWrite p i v => 0 <= v < 256 /\ exists bs, (p, bs) ∈ A /\ (i < length bs)%nat
  end.

(** The call in the model of the code. *)
Definition kexec (h : kheap) (op : cop) : option (kheap * Z) :=
  match op with
  | CAlloc size => kmalloc h size
  | CFree p => h' ← kfree h p; Some (h', 0)
  | CRealloc p size => krealloc h p size
  | CWrite p i v => Some (with_mem h (st8 (kmem h) (p + Z.of_nat i) v), 0)
  end.

(** ** The representation relation *)

(** The object is in a block in use and its bytes are in memory. *)
Definition held (m : mem) (cs : list (list blk)) (o : Z * list Z) : Prop :=
  exists b, used cs b /\ fst o = ba b + 40 /\ Z.of_nat (length (snd o)) <= bsz b /\
    forall i v, snd o !! i = Some v -> ld8 m (fst o + Z.of_nat i) = v.

Definition represents (heap : Z) (h : kheap) (A : astore) : Prop :=
  exists cs, heap_inv heap h cs /\ NoDup (fst <$> A) /\ Forall (held (kmem h) cs) A.

(** The bytes of memory from [p] on. *)
Definition bytes_at (m : mem) (p : Z) (n : nat) : list Z :=
  (fun i => ld8 m (p + Z.of_nat i)) <$> seq 0 n.

Lemma bytes_at_length m p n : length (bytes_at m p n) = n.
Proof. unfold bytes_at. by rewrite length_fmap, length_seq. Qed.

Lemma bytes_at_lookup m p n i v :
  bytes_at m p n !! i = Some v <-> ld8 m (p + Z.of_nat i) = v /\ (i < n)%nat.
Proof.
  unfold bytes_at. rewrite list_lookup_fmap, fmap_Some. split.
  - intros (j & [-> Hlt]%lookup_seq & ->). done.
  - intros [<- Hlt]. exists i. rewrite lookup_seq. done.
Qed.

(** Objects in different blocks are apart. *)
Lemma held_apart heap h cs m o1 o2 :
  heap_inv heap h cs -> held m cs o1 -> held m cs o2 -> fst o1 <> fst o2 -> apart o1 o2.
Proof.
  intros Hi (b1 & [Hb1 _] & E1 & Hl1 & _) (b2 & [Hb2 _] & E2 & Hl2 & _) Hne. split; [done|].
  destruct (chains_disjoint _ _ _ _ b1 b2 (hi_chains _ _ _ Hi) Hb1 Hb2) as [->|Hd]; [lia|].
  unfold bend in Hd. lia.
Qed.

(** An object survives a change of memory that keeps its block. *)
Lemma held_keeps m m' cs cs' o (P : blk -> Prop) :
  held m cs o -> keeps m m' P ->
  (forall b, used cs b -> fst o = ba b + 40 -> P b /\ used cs' b) -> held m' cs' o.
Proof.
  intros (b & Hb & E & Hl & Hv) Hk HP. destruct (HP b Hb E) as [HPb Hb']. exists b.
  split_and_all; try done. intros i v Hi. rewrite <- (Hv i v Hi). unfold ld8.
  rewrite (Hk b HPb); [done|]. apply lookup_lt_Some in Hi. lia.
Qed.

(** The block an object lives in. *)
Lemma held_block heap h A p bs :
  represents heap h A -> (p, bs) ∈ A ->
  exists cs b, heap_inv heap h cs /\ used cs b /\ p = ba b + 40 /\ Z.of_nat (length bs) <= bsz b /\
    NoDup (fst <$> A) /\ Forall (held (kmem h) cs) A /\
    (forall i v, bs !! i = Some v -> ld8 (kmem h) (p + Z.of_nat i) = v).
Proof.
  intros (cs & Hi & Hnd & Hf) Hin. rewrite Forall_forall in Hf. pose proof (Hf _ Hin) as (b & Hb & E & Hl & Hv).
  exists cs, b. split_and_all; try done. by rewrite Forall_forall.
Qed.

Lemma fst_nodup_others (A1 A2 : astore) p bs o :
  NoDup (fst <$> (A1 ++ (p, bs) :: A2)) -> o ∈ A1 ++ A2 -> fst o <> p.
Proof.
  rewrite fmap_app, fmap_cons. intros H Hin E.
  rewrite NoDup_app, NoDup_cons in H. destruct H as (_ & H1 & H2 & _).
  apply elem_of_app in Hin as [Hin|Hin].
  - apply (H1 (fst o)); [exact (list_elem_of_fmap_2 fst _ o Hin)|]. rewrite E. left.
  - apply H2. rewrite <- E. exact (list_elem_of_fmap_2 fst _ o Hin).
Qed.

Lemma fst_nodup_remove (A1 A2 : astore) o :
  NoDup (fst <$> (A1 ++ o :: A2)) -> NoDup (fst <$> (A1 ++ A2)).
Proof.
  rewrite !fmap_app, fmap_cons. intros H. apply NoDup_app. apply NoDup_app in H as (H1 & H2 & H3).
  apply NoDup_cons in H3 as [_ H3]. split_and_all; try done. intros x Hx Hx'. apply (H2 x Hx). by right.
Qed.

(** ** One lemma per call *)

(** The state with a new object in block [b], the others kept. *)
Lemma represents_cons heap h' cs' b p n A :
  heap_inv heap h' cs' -> used cs' b -> p = ba b + 40 -> Z.of_nat n <= bsz b ->
  NoDup (fst <$> A) -> Forall (held (kmem h') cs') A -> Forall (fun o => fst o <> p) A ->
  let bs := bytes_at (kmem h') p n in
  represents heap h' ((p, bs) :: A) /\ Forall (apart (p, bs)) A.
Proof.
  intros Hi Hb Ep Hn Hnd HA Hne bs.
  assert (Hh : held (kmem h') cs' (p, bs)).
  { exists b. cbn [fst snd]. unfold bs. rewrite bytes_at_length. split_and_all; try done.
    by intros i v [? _]%bytes_at_lookup. }
  rewrite Forall_forall in HA, Hne. split.
  - exists cs'. split_and_all; [done| |constructor; [done|by rewrite Forall_forall]].
    rewrite fmap_cons. apply NoDup_cons. split; [|done]. cbn [fst].
    intros (o & Eo & Ho)%list_elem_of_fmap. by apply (Hne o).
  - apply Forall_forall. intros o Ho. eapply held_apart; eauto. cbn [fst]. intros E. by apply (Hne o).
Qed.

Lemma step_alloc heap h A size :
  represents heap h A -> size_ok heap size ->
  exists h' p A', kmalloc h size = Some (h', p) /\ astep A (CAlloc size) p A' /\ represents heap h' A'.
Proof.
  intros (cs & Hi & Hnd & HA) Hsz.
  destruct (kmalloc_cases heap h cs Hi size Hsz) as (h' & p & E & [(-> & -> & _)|(Hp & cs' & b & Hi' & -> & Hb & Hu & Hne & Hk & _)]).
  - exists h, 0, A. split_and_all; [done|constructor|by exists cs].
  - destruct Hsz as [Hs0 _].
    destruct (represents_cons heap h' cs' b (ba b + 40) (Z.to_nat size) A) as [HR Hap]; try done.
    + apply Hu. by left.
    + lia.
    + eapply Forall_impl; [exact HA|]. intros o Ho. eapply held_keeps; [exact Ho|exact Hk|].
      intros c Hc _. split; [done|]. apply Hu. by right.
    + eapply Forall_impl; [exact HA|]. intros o (c & Hc & -> & _) E'. apply (Hne c Hc). lia.
    + exists h'. eexists _, _. split_and_all; [exact E| |exact HR].
      apply AAlloc; [done| |done]. rewrite bytes_at_length. lia.
Qed.

Lemma step_free heap h A p :
  represents heap h A -> (exists bs, (p, bs) ∈ A) ->
  exists h' A', kfree h p = Some h' /\ astep A (CFree p) 0 A' /\ represents heap h' A'.
Proof.
  intros HR [bs Hin]. destruct (held_block _ _ _ _ _ HR Hin) as (cs & b & Hi & Hb & -> & _ & Hnd & HA & _).
  apply list_elem_of_split in Hin as (A1 & A2 & ->).
  pose proof (fst_nodup_remove _ _ _ Hnd) as Hnd'.
  assert (HA' : Forall (held (kmem h) cs) (A1 ++ A2)).
  { rewrite Forall_app in *. rewrite Forall_cons in HA. tauto. }
  destruct (kfree_cases heap h cs b Hi Hb) as (h' & E & [[-> _]|(_ & cs' & Hi' & _ & Hu & Hk)]);
    eexists _, (A1 ++ A2); (split_and_all; [exact E|by econstructor|]).
  - by exists cs.
  - exists cs'. split_and_all; [done|done|]. rewrite Forall_forall in *. intros o Ho.
    eapply held_keeps; [by apply HA'|exact Hk|]. intros c Hc Ec.
    assert (c <> b) by (intros ->; by apply (fst_nodup_others A1 A2 _ bs o Hnd Ho)).
    split; [done|]. apply Hu. done.
Qed.

Lemma step_realloc heap h A p size :
  represents heap h A -> size_ok heap size -> 0 < size -> (exists bs, (p, bs) ∈ A) ->
  exists h' q A', krealloc h p size = Some (h', q) /\ astep A (CRealloc p size) q A' /\ represents heap h' A'.
Proof.
  intros HR Hsz Hs0 [bs Hin].
  destruct (held_block _ _ _ _ _ HR Hin) as (cs & b & Hi & Hb & -> & Hlen & Hnd & HA & Hv).
  apply list_elem_of_split in Hin as (A1 & A2 & ->).
  destruct (krealloc_cases heap h cs b size Hi Hb Hsz Hs0) as
    (h' & q & E & [[-> ->]|(Hq & cs' & b' & Hi' & -> & Hsz' & Hb' & Hoth & _ & Hk & Hcp)]).
  { exists h, 0, (A1 ++ (ba b + 40, bs) :: A2). split_and_all; [done|constructor|done]. }
  assert (HA' : Forall (held (kmem h) cs) (A1 ++ A2)).
  { rewrite Forall_app in *. rewrite Forall_cons in HA. tauto. }
  assert (Hother : forall o c, o ∈ A1 ++ A2 -> used cs c -> fst o = ba c + 40 -> c <> b).
  { intros o c Ho Hc Ec ->. by apply (fst_nodup_others A1 A2 _ bs o Hnd Ho). }
  rewrite Forall_forall in HA'.
  destruct (represents_cons heap h' cs' b' (ba b' + 40) (Z.to_nat size) (A1 ++ A2)) as [HR' Hap]; try done; try lia.
  - by eapply fst_nodup_remove.
  - rewrite Forall_forall. intros o Ho. eapply held_keeps; [by apply HA'|exact Hk|]. intros c Hc Ec.
    pose proof (Hother o c Ho Hc Ec). split; [done|]. by apply Hoth.
  - rewrite Forall_forall. intros o Ho E'. destruct (HA' o Ho) as (c & Hc & Ec & _).
    destruct (Hoth c Hc (Hother o c Ho Hc Ec)) as [_ Hne]. lia.
  - exists h'. eexists _, _. split_and_all; [exact E| |exact HR'].
    eapply ARealloc; try done; rewrite ?bytes_at_length; [lia|].
    apply list_eq. intros i. destruct (decide (i < length bs /\ i < Z.to_nat size)%nat) as [[H1 H2]|Hn].
    + rewrite !lookup_take_lt by lia. destruct (lookup_lt_is_Some_2 bs i H1) as [v Hbv]. rewrite Hbv.
      apply bytes_at_lookup. split; [|done]. rewrite Hcp by lia. by apply Hv.
    + rewrite !lookup_ge_None_2; [done|rewrite length_take; lia|rewrite length_take, bytes_at_length; lia].
Qed.

Lemma step_write heap h A p i v bs :
  represents heap h A -> (p, bs) ∈ A -> (i < length bs)%nat -> 0 <= v < 256 ->
  exists A', astep A (CWrite p i v) 0 A' /\
             represents heap (with_mem h (st8 (kmem h) (p + Z.of_nat i) v)) A'.
Proof.
  intros HR Hin Hi Hv. destruct (held_block _ _ _ _ _ HR Hin) as (cs & b & Hinv & Hb & -> & Hlen & Hnd & HA & Hbs).
  apply list_elem_of_split in Hin as (A1 & A2 & ->). pose proof (hi_chains _ _ _ Hinv) as Hch.
  assert (Hd : forall d x, d ∈ concat cs -> d <> b -> ba d <= x < bend d ->
            st8 (kmem h) (ba b + 40 + Z.of_nat i) v x = kmem h x).
  { intros d x Hd Hne Hx. apply st8_other.
    destruct (chains_disjoint _ _ _ _ d b Hch Hd (proj1 Hb)) as [?|?]; [done|]. unfold bend in *. lia. }
  exists (A1 ++ (ba b + 40, <[i := v]> bs) :: A2). split; [by econstructor|]. exists cs. split_and_all.
  - apply heap_inv_write; [done|]. intros d Hdin x Hx. destruct (chains_bounds _ _ _ _ _ Hch Hdin).
    destruct (decide (d = b)) as [->|Hne]; [apply st8_other; lia|]. apply (Hd d); [done|done|unfold bend in *; lia].
  - rewrite fmap_app, fmap_cons in *. done.
  - cbn [kmem with_mem]. assert (HA' : forall o, o ∈ A1 ++ A2 -> held (st8 (kmem h) (ba b + 40 + Z.of_nat i) v) cs o).
    { intros o Ho. assert (HAo : held (kmem h) cs o).
      { rewrite Forall_forall in HA. apply HA. apply elem_of_app in Ho. rewrite elem_of_app, elem_of_cons. tauto. }
      destruct HAo as (c & Hc & Ec & Hl & Hvo). exists c. split_and_all; try done. intros j w Hj.
      rewrite <- (Hvo j w Hj). unfold ld8. f_equal. apply (Hd c); [apply Hc| |unfold bend; apply lookup_lt_Some in Hj; lia].
      intros ->. by apply (fst_nodup_others A1 A2 _ bs o Hnd Ho). }
    rewrite Forall_app, Forall_cons. rewrite !Forall_forall. split_and_all; try (intros o Ho; apply HA', elem_of_app; auto).
    exists b. cbn [fst snd]. rewrite length_insert. split_and_all; try done. intros j w. rewrite list_lookup_insert.
    case_decide as Hj; [intros [= <-]; destruct Hj as [<- _]; unfold ld8; rewrite st8_same; wrap_lia|].
    intros Hw. unfold ld8. rewrite st8_other; [by apply Hbs|]. apply lookup_lt_Some in Hw as Hwl. lia.
Qed.

(** Every legal call on a represented heap. *)
Lemma step_simulated heap h A op :
  represents heap h A -> legal heap A op ->
  exists h' r A', kexec h op = Some (h', r) /\ astep A op r A' /\ represents heap h' A'.
Proof.
  intros HR Hl. destruct op as [size|p|p size|p i v]; cbn [legal kexec] in *.
  - by apply step_alloc.
  - destruct (step_free heap h A p HR Hl) as (h' & A' & -> & ? & ?). exists h', 0, A'. done.
  - destruct Hl as (? & ? & ?). by apply step_realloc.
  - destruct Hl as (Hv & bs & Hin & Hi). destruct (step_write _ _ _ _ _ v _ HR Hin Hi Hv) as (A' & ? & ?).
    exists (with_mem h (st8 (kmem h) (p + Z.of_nat i) v)), 0, A'. done.
Qed.

(** ** Properties *)

Definition heap_placed (heap : Z) : Prop := 0 < heap /\ heap + HEAP_SIZE < 18446744073709551615.

Lemma represents_init heap m0 : heap_placed heap -> represents heap (kmem_init heap m0) [].
Proof.
  intros Hp. exists []. unfold kmem_init. split_and_all; [|constructor|constructor].
  constructor; cbn; try done; [unfold HEAP_SIZE; lia|by left].
Qed.

(** C1: the heap implements the abstract object store.  After [kmem_init] the
    store is empty, and from any heap that represents a store every legal call -
    [kmalloc], [kfree] and [krealloc] of an object the client holds, or a write
    into one - returns, answers as the store's specification allows (a new object
    shares no byte with a live one, a resized object keeps its bytes up to the
    smaller size, the other objects keep theirs) and leaves a heap that
    represents the new store. *)
Theorem heap_refines_store (heap : Z) (m0 : mem) :
  heap_placed heap ->
  represents heap (kmem_init heap m0) [] /\
  forall h A op, represents heap h A -> legal heap A op ->
    exists h' r A', kexec h op = Some (h', r) /\ astep A op r A' /\ represents heap h' A'.
Proof. intros Hp. split; [by apply represents_init|]. intros h A op. apply step_simulated. Qed.

Lemma heap_refines_store_witness :
  exists h r A, kexec (kmem_init 4096 (fun _ => 0)) (CAlloc 100) = Some (h, r) /\
                astep [] (CAlloc 100) r A /\ represents 4096 h A.
Proof.
  assert (Hp : heap_placed 4096) by (split; reflexivity).
  destruct (heap_refines_store 4096 (fun _ => 0) Hp) as [H0 Hs].
  apply Hs; [exact H0|]. split; [discriminate|reflexivity].
Defined.

(** A fresh heap, for the examples. *)
Definition demo_heap : kheap := kmem_init 4096 (fun _ => 0).

(** Every block of the list is in use or too small. *)
Definition no_room (s : Z) (c : list blk) : Prop :=
  Forall (fun b => bfree b = false \/ bsz b < s) c.

(** C20: [kmalloc] gives up only when it must.  On a well-formed heap, for a request that does
    not wrap around, it returns; and if the answer is NULL, the break cannot move by the aligned
    size and a header, no free block of the current list is large enough, and nothing has
    changed. *)
Theorem kmalloc_fails_only_when_full (heap : Z) (h : kheap) (cs : list (list blk)) (size : Z) :
  heap_inv heap h cs -> size_ok heap size ->
  exists h' p, kmalloc h size = Some (h', p) /\
    (p = 0 -> h' = h /\ heap + HEAP_SIZE < brk h + META_BLOCK_SIZE + align4 size /\
       (base h = 0 \/ exists cs' c, cs = cs' ++ [c] /\ no_room (align4 size) c)).
Proof.
  intros Hi Hsz. destruct (kmalloc_cases heap h cs Hi size Hsz) as (h' & p & E & H). exists h', p.
  split; [done|]. intros ->. destruct H as [(_ & -> & Hf & Hc)|[? _]]; [|done].
  rewrite <- (hi_end _ _ _ Hi). unfold META_BLOCK_SIZE. done.
Qed.

(** A heap whose break has reached the end. *)
Lemma full_heap_inv : heap_inv 4096 (KHeap (fun _ => 0) 16781312 16781312 0) [].
Proof. constructor; cbn; try done; by left. Qed.

Lemma kmalloc_fails_only_when_full_witness :
  exists h' p, kmalloc (KHeap (fun _ => 0) 16781312 16781312 0) 8 = Some (h', p) /\ p = 0.
Proof.
  destruct (kmalloc_fails_only_when_full 4096 (KHeap (fun _ => 0) 16781312 16781312 0) [] 8) as (h' & p & E & _).
  - exact full_heap_inv.
  - split; [discriminate|reflexivity].
  - exists h', p. split; [exact E|]. vm_compute in E. congruence.
Defined.

(** A block appended by [extend_heap] has no [prev] link, so freeing the last
    of two blocks clears [base]: the heap then no longer knows the first block,
    [kfree] of it does nothing, and its memory is never used again - the next
    allocation is placed after both. *)
Theorem freeing_last_block_abandons_list :
  let run := '(h1, p1) ← kmalloc demo_heap 64; '(h2, p2) ← kmalloc h1 64;
             h3 ← kfree h2 p2; h4 ← kfree h3 p1; '(h5, p3) ← kmalloc h4 64;
             Some (p1, p2, base h3, is_addr_valid h3 p1, b_free (kmem h4) (p1 - 40), p3, brk h5) in
  run = Some (4136, 4240, 0, false, 0, 4344, 4408).
Proof. vm_compute. reflexivity. Qed.
