(* ===== verification/Frames.v ===== *)
(** * What the page-table code needs from the page allocator

    [src/src/mem/paging.c] takes page frames with [pmm_alloc_page(1)] and reaches
    them through the direct map.  [FrameAllocator] is that contract: the theorems
    about page tables are proved against it, and [Pmm.v] discharges it for
    [src/src/mem/pmm.c]. *)

From S2P Require Import Prelude Mem.

Class FrameAllocator (hhdm : Z) (S : Type) := {
  fa_mem : S -> mem;
  fa_upd : S -> mem -> S;
  (** one page; address 0 means failure, [None] that the call does not return *)
  fa_alloc : S -> option (S * Z);
  fa_ok : S -> Prop;
  (** the frames handed out so far *)
  fa_frame : S -> Z -> Prop;
  (** the bytes the allocator keeps for itself *)
  fa_private : S -> Z -> Prop;
  (** how many more frames there are *)
  fa_avail : S -> nat;

  fa_mem_upd s m : fa_mem (fa_upd s m) = m;
  fa_private_upd s m x : fa_private (fa_upd s m) x <-> fa_private s x;
  (** writes that leave the private bytes alone change nothing *)
  fa_ok_upd s m : fa_ok s -> (forall x, fa_private s x -> m x = fa_mem s x) ->
    fa_ok (fa_upd s m) /\ (forall f, fa_frame (fa_upd s m) f <-> fa_frame s f) /\
    fa_avail (fa_upd s m) = fa_avail s;
  (** frames lie below 1 TiB: [Paging.pe_frame] keeps no more of an address *)
  fa_frame_ok s f : fa_ok s -> fa_frame s f ->
    0 < f < 2 ^ 40 /\ f mod 4096 = 0 /\ 0 < f + hhdm /\ f + hhdm + 4096 <= 2 ^ 64 /\
    forall x, f + hhdm <= x < f + hhdm + 4096 -> ~ fa_private s x;
  fa_alloc_ok s n : fa_ok s -> fa_avail s = Datatypes.S n ->
    exists s' a, fa_alloc s = Some (s', a) /\ fa_ok s' /\ a <> 0 /\ fa_avail s' = n /\
      ~ fa_frame s a /\ (forall f, fa_frame s' f <-> f = a \/ fa_frame s f) /\
      (forall x, fa_private s' x <-> fa_private s x) /\
      (forall x, ~ fa_private s x -> fa_mem s' x = fa_mem s x) }.
