(* ===== verification/Pmm.v ===== *)
(** * The physical page allocator, [src/src/mem/pmm.c] and [src/src/include/pmm.h]

    A bitmap with one bit per 4 KiB page of the largest usable memory region; it
    lives at the start of the region itself, seen through the higher-half direct
    map at [physical.base + hhdm].  The model keeps the statics of [pmm.c] and the
    byte memory the bitmap is in. *)

From S2P Require Import Prelude Mem CString Frames.

Definition BLOCK_SIZE : Z := 4096.

(** ** The bitmap macros *)

Definition BITMAP_SET (m : mem) (map bit : Z) : mem :=
  st8 m (map + bit / 8) (ld8 m (map + bit / 8) ||| (1 <<< (bit mod 8))).
Definition BITMAP_CLEAR (m : mem) (map bit : Z) : mem :=
  st8 m (map + bit / 8) (ld8 m (map + bit / 8) &&& Z.lnot (1 <<< (bit mod 8))).
Definition BITMAP_TEST (m : mem) (map bit : Z) : bool :=
  truthy (ld8 m (map + bit / 8) &&& (1 <<< (bit mod 8))).

(** ** State *)

Record pmm := Pmm {
  pmem : mem;
  phys_base : Z;
  phys_size : Z;
  bitmap : Z;
  total_pages : Z;
  bitmap_size : Z;
  usable_base : Z }.

Definition with_pmem (s : pmm) (m : mem) : pmm :=
  Pmm m (phys_base s) (phys_size s) (bitmap s) (total_pages s) (bitmap_size s) (usable_base s).

(** ** The bootloader's memory map *)

Definition LIMINE_MEMMAP_USABLE : Z := 0.
Record memmap_entry := MemmapEntry { me_base : Z; me_length : Z; me_type : Z }.

(** The loop of [init_PMM] that looks for the largest usable region. *)
Definition largest_usable (entries : list memmap_entry) : option memmap_entry :=
  fold_left (fun largest entry =>
    if me_type entry =? LIMINE_MEMMAP_USABLE then
      match largest with
      | None => Some entry
      | Some l => if me_length l <? me_length entry then Some entry else largest
      end
    else largest) entries None.

(** [None]: no usable region, the code dereferences NULL.  [sizeof(bitmap_size)]
    is 8. *)
Definition init_PMM (m : mem) (hhdm : Z) (entries : list memmap_entry) : option pmm :=
  largest ← largest_usable entries;
  let base := me_base largest in
  let size := me_length largest in
  let total := size / BLOCK_SIZE in
  let map := u64 (base + hhdm) in
  let bsize := (total + 7) / 8 in
  let m := memset m map 0 8 in
  let bitmap_pages := (bsize + BLOCK_SIZE - 1) / BLOCK_SIZE in
  let m := floop (Z.to_nat bitmap_pages) 0 (fun i m => BITMAP_SET m map i) m in
  Some (Pmm m base size map total bsize (u64 (base + bitmap_pages * BLOCK_SIZE))).

(** What [printMemoryMaps] adds up for its last line. *)
Definition total_available (entries : list memmap_entry) : Z :=
  fold_left (fun acc e => if me_type e =? 1 then u64 (acc + me_length e) else acc) entries 0.

(** ** Allocation *)

(** The inner loop: the first [j >= i] that is taken, or the end of the run. *)
Definition run_end (s : pmm) (i page_needed : Z) : Z :=
  let n := Z.min page_needed (total_pages s - i) in
  match ploop (Z.to_nat n) i
          (fun j (_ : unit) => if BITMAP_TEST (pmem s) (bitmap s) j then inl j else inr tt) tt with
  | inl j => j
  | inr _ => i + n
  end.

Definition set_run (m : mem) (map i n : Z) : mem :=
  floop (Z.to_nat n) i (fun k m => BITMAP_SET m map k) m.
Definition clear_run (m : mem) (map i n : Z) : mem :=
  floop (Z.to_nat n) i (fun k m => BITMAP_CLEAR m map k) m.

(** Page 0 is the failure answer. *)
Definition pmm_alloc_page (s : pmm) (size : Z) : option (pmm * Z) :=
  let page_needed := u64 (size + BLOCK_SIZE - 1) / BLOCK_SIZE in
  wloop (S (Z.to_nat (total_pages s)))
    (fun i =>
       if i <? total_pages s then
         if BITMAP_TEST (pmem s) (bitmap s) i then inr (i + 1)
         else
           let j := run_end s i page_needed in
           if j =? i + page_needed
           then inl (with_pmem s (set_run (pmem s) (bitmap s) i page_needed),
                     u64 (phys_base s + i * BLOCK_SIZE))
           else inr (j + 1)
       else inl (s, 0)) 0.

Definition pmm_free (s : pmm) (addr pages : Z) : pmm :=
  if addr =? 0 then s
  else
    let idx := u64 (addr - phys_base s) / BLOCK_SIZE in
    with_pmem s (clear_run (pmem s) (bitmap s) idx pages).

Definition test_pmm (s : pmm) : option pmm :=
  '(s, p1) ← pmm_alloc_page s 1;
  '(s, _) ← pmm_alloc_page s 100;
  let s := pmm_free s p1 1 in
  '(s, _) ← pmm_alloc_page s 100;
  Some s.

(** ** Bits *)

Lemma bitmap_test_bit m map i :
  0 <= i -> BITMAP_TEST m map i = Z.testbit (ld8 m (map + i / 8)) (i mod 8).
Proof.
  intros Hi. unfold BITMAP_TEST, truthy. assert (0 <= i mod 8 < 8) by (apply Z.mod_pos_bound; lia).
  set (x := ld8 m (map + i / 8)). set (k := i mod 8) in *. rewrite Z.shiftl_1_l.
  destruct (Z.testbit x k) eqn:E.
  - destruct (Z.land x (2 ^ k) =? 0) eqn:E2; [|done]. bool_to_prop.
    assert (Z.testbit (Z.land x (2 ^ k)) k = true) as Hb.
    { rewrite Z.land_spec, E, Z.pow2_bits_true by lia. done. }
    rewrite E2, Z.bits_0 in Hb. done.
  - replace (Z.land x (2 ^ k)) with 0; [done|]. symmetry. apply Z.bits_inj'. intros n Hn.
    rewrite Z.land_spec, Z.bits_0, Z.pow2_bits_eqb by lia.
    destruct (k =? n) eqn:E2; bool_to_prop; [subst n; by rewrite E|apply andb_false_r].
Qed.

Lemma u8_testbit x k : 0 <= k < 8 -> Z.testbit (u8 x) k = Z.testbit x k.
Proof. intros. unfold u8. change 256 with (2 ^ 8). apply Z.mod_pow2_bits_low. lia. Qed.

(** Reading a bit after changing one. *)
Lemma bitmap_test_st8 m map i j v :
  0 <= i -> 0 <= j ->
  BITMAP_TEST (st8 m (map + i / 8) v) map j =
    if i / 8 =? j / 8 then Z.testbit v (j mod 8) else BITMAP_TEST m map j.
Proof.
  intros Hi Hj. rewrite !bitmap_test_bit by lia. assert (0 <= j mod 8 < 8) by (apply Z.mod_pos_bound; lia).
  unfold ld8. case_if.
  - rewrite E, st8_same, u8_idem. by apply u8_testbit.
  - rewrite st8_other by lia. done.
Qed.

Lemma bitmap_test_set m map i j :
  0 <= i -> 0 <= j -> BITMAP_TEST (BITMAP_SET m map i) map j = (i =? j) || BITMAP_TEST m map j.
Proof.
  intros Hi Hj. unfold BITMAP_SET. rewrite bitmap_test_st8, !bitmap_test_bit by lia.
  rewrite Z.lor_spec, Z.shiftl_1_l, Z.pow2_bits_eqb by (apply Z.mod_pos_bound; lia). case_if.
  - rewrite E. replace (i mod 8 =? j mod 8) with (i =? j); [apply orb_comm|].
    apply eq_true_iff_eq. rewrite !Z.eqb_eq. split; [congruence|]. intros. wrap_lia.
  - replace (i =? j) with false; [done|]. symmetry. apply Z.eqb_neq. congruence.
Qed.

Lemma bitmap_test_clear m map i j :
  0 <= i -> 0 <= j -> BITMAP_TEST (BITMAP_CLEAR m map i) map j = negb (i =? j) && BITMAP_TEST m map j.
Proof.
  intros Hi Hj. unfold BITMAP_CLEAR. rewrite bitmap_test_st8, !bitmap_test_bit by lia.
  assert (0 <= j mod 8) by (apply Z.mod_pos_bound; lia).
  rewrite Z.land_spec, Z.lnot_spec, Z.shiftl_1_l, Z.pow2_bits_eqb by (done || (apply Z.mod_pos_bound; lia)). case_if.
  - rewrite E. replace (i mod 8 =? j mod 8) with (i =? j); [apply andb_comm|].
    apply eq_true_iff_eq. rewrite !Z.eqb_eq. split; [congruence|]. intros. wrap_lia.
  - replace (i =? j) with false; [done|]. symmetry. apply Z.eqb_neq. congruence.
Qed.

Lemma set_run_test m map i n j :
  0 <= i -> 0 <= n -> 0 <= j ->
  BITMAP_TEST (set_run m map i n) map j = ((i <=? j) && (j <? i + n)) || BITMAP_TEST m map j.
Proof.
  intros Hi Hn Hj. unfold set_run.
  pose proof (floop_inv (fun k m' => BITMAP_TEST m' map j = ((i <=? j) && (j <? k)) || BITMAP_TEST m map j)
    (fun k m => BITMAP_SET m map k) (Z.to_nat n) i m) as H.
  rewrite Z2Nat.id in H by lia. apply H.
  - by replace ((i <=? j) && (j <? i)) with false by lia.
  - intros k m' Hk IH. rewrite bitmap_test_set, IH by lia. rewrite orb_assoc. f_equal. lia.
Qed.

Lemma clear_run_test m map i n j :
  0 <= i -> 0 <= n -> 0 <= j ->
  BITMAP_TEST (clear_run m map i n) map j = negb ((i <=? j) && (j <? i + n)) && BITMAP_TEST m map j.
Proof.
  intros Hi Hn Hj. unfold clear_run.
  pose proof (floop_inv (fun k m' => BITMAP_TEST m' map j = negb ((i <=? j) && (j <? k)) && BITMAP_TEST m map j)
    (fun k m => BITMAP_CLEAR m map k) (Z.to_nat n) i m) as H.
  rewrite Z2Nat.id in H by lia. apply H.
  - by replace ((i <=? j) && (j <? i)) with false by lia.
  - intros k m' Hk IH. rewrite bitmap_test_clear, IH by lia. rewrite andb_assoc. f_equal. lia.
Qed.

(** The bytes a run touches. *)
Lemma set_run_out m map i n x :
  0 <= i -> 0 <= n -> x < map + i / 8 \/ map + (i + n + 7) / 8 <= x -> set_run m map i n x = m x.
Proof.
  intros Hi Hn Hx. unfold set_run.
  apply (floop_inv (fun k m' => m' x = m x) (fun k m => BITMAP_SET m map k) (Z.to_nat n) i m); [done|].
  intros k m' Hk IH. unfold BITMAP_SET. rewrite st8_other; [done|].
  assert (i / 8 <= k / 8) by (apply Z.div_le_mono; lia). wrap_lia.
Qed.

Lemma clear_run_out m map i n x :
  0 <= i -> 0 <= n -> x < map + i / 8 \/ map + (i + n + 7) / 8 <= x -> clear_run m map i n x = m x.
Proof.
  intros Hi Hn Hx. unfold clear_run.
  apply (floop_inv (fun k m' => m' x = m x) (fun k m => BITMAP_CLEAR m map k) (Z.to_nat n) i m); [done|].
  intros k m' Hk IH. unfold BITMAP_CLEAR. rewrite st8_other; [done|].
  assert (i / 8 <= k / 8) by (apply Z.div_le_mono; lia). wrap_lia.
Qed.

(** ** The scan *)

(** Page [i] is taken. *)
Definition taken (s : pmm) (i : Z) : bool := BITMAP_TEST (pmem s) (bitmap s) i.

(** [n] pages from [i] on are inside the region and free. *)
Definition free_run (s : pmm) (i n : Z) : Prop :=
  0 <= i /\ i + n <= total_pages s /\ forall k, i <= k < i + n -> taken s k = false.

Lemma run_end_spec s i n :
  0 <= i < total_pages s -> 0 < n ->
  let j := run_end s i n in
  i <= j <= total_pages s /\ (forall k, i <= k < j -> taken s k = false) /\
  (j = i + n \/ (j < i + n /\ (j = total_pages s \/ (j < total_pages s /\ taken s j = true)))).
Proof.
  intros Hi Hn. unfold run_end. set (n' := Z.min n (total_pages s - i)).
  match goal with |- context [ploop ?nn ?lo ?f ?a] =>
    pose proof (ploop_inv (fun j (_ : unit) => forall k, i <= k < j -> taken s k = false)
      (fun j => i <= j < i + n' /\ taken s j = true /\ forall k, i <= k < j -> taken s k = false)
      f nn lo a) as H; rewrite Z2Nat.id in H by lia;
    destruct (ploop nn lo f a) as [j|[]] end.
  all: cbn beta iota in H.
  - destruct H as (Hj & Ht & Hf).
    + intros k Hk. lia.
    + intros k _ Hk Hf. fold (taken s k). destruct (taken s k) eqn:E; [done|].
      intros j' Hj'. destruct (decide (j' = k)) as [->|]; [done|]. apply Hf. lia.
    + split_and_all; [lia|lia|done|]. right. split; [lia|]. right. split; [lia|done].
  - split_and_all; [lia|lia| |lia]. apply H.
    + intros k Hk. lia.
    + intros k _ Hk Hf. fold (taken s k). destruct (taken s k) eqn:E; [done|].
      intros j' Hj'. destruct (decide (j' = k)) as [->|]; [done|]. apply Hf. lia.
Qed.

(** [pmm_alloc_page] on at least one page: it returns; it takes the first run
    of free pages that is long enough, and fails only when there is none. *)
Lemma pmm_alloc_cases s size :
  0 <= total_pages s -> 0 < size -> size + 4095 < 18446744073709551616 ->
  let n := (size + 4095) / 4096 in
  exists s' a, pmm_alloc_page s size = Some (s', a) /\
   ((s' = s /\ a = 0 /\ forall i, ~ free_run s i n) \/
    (exists i, free_run s i n /\ (forall k, k < i -> ~ free_run s k n) /\
       a = u64 (phys_base s + i * 4096) /\ s' = with_pmem s (set_run (pmem s) (bitmap s) i n))).
Proof.
  intros Ht Hs Hw n. unfold pmm_alloc_page, BLOCK_SIZE.
  replace (size + 4096 - 1) with (size + 4095) by lia. rewrite u64_small by lia. fold n.
  assert (Hn : 0 < n) by (unfold n; apply Z.div_str_pos; lia).
  match goal with |- context [wloop ?fuel ?body ?i0] =>
    destruct (wloop_total
      (fun i => 0 <= i <= total_pages s + 1 /\ forall k, k < i -> ~ free_run s k n)
      (fun r : pmm * Z => (r = (s, 0) /\ forall i, ~ free_run s i n) \/
         exists i, free_run s i n /\ (forall k, k < i -> ~ free_run s k n) /\
           r = (with_pmem s (set_run (pmem s) (bitmap s) i n), u64 (phys_base s + i * 4096)))
      (fun i => Z.max 0 (total_pages s - i)) body fuel i0) as (r & Hr & HQ) end.
  - split; [lia|]. intros k Hk (? & _). lia.
  - lia.
  - intros i [Hi Hno] _. case_if.
    2: { left. split; [done|]. intros k Hfr. destruct (Z_lt_ge_dec k i) as [Hlt|Hge]; [by apply (Hno k)|].
         destruct Hfr as (_ & ? & _). lia. }
    fold (taken s i). destruct (taken s i) eqn:Et.
    { split; [split; [lia|]|lia]. intros k Hk Hfr. destruct (Z_lt_ge_dec k i) as [Hlt|Hge]; [by apply (Hno k)|].
      destruct Hfr as (_ & _ & Hf). rewrite Hf in Et by lia. done. }
    destruct (run_end_spec s i n ltac:(lia) Hn) as (Hj & Hfree & Hend). cbv zeta.
    set (j := run_end s i n) in *. destruct (j =? i + n) eqn:Ej; bool_to_prop.
    + right. exists i. split_and_all; [|done|done]. split; [lia|]. split; [lia|]. intros k Hk. apply Hfree. lia.
    + destruct Hend as [?|[Hlt Hstop]]; [done|]. split; [split; [lia|]|lia].
      intros k Hk Hfr. destruct (Z_lt_ge_dec k i) as [Hkl|Hge]; [by apply (Hno k)|].
      destruct Hfr as (_ & Hb & Hf). destruct Hstop as [->|[_ Htk]]; [lia|].
      rewrite Hf in Htk by lia. done.
  - destruct r as [s' a]. exists s', a. split; [exact Hr|].
    destruct HQ as [[[= -> ->] ?]|(i & ? & ? & [= -> ->])]; [left; done|right; exists i; done].
Qed.

(** ** The allocator as a source of page frames *)

(** The first page that is not part of the bitmap. *)
Definition bitmap_pages (s : pmm) : Z := (bitmap_size s + 4095) / 4096.

(** The region is page aligned and reachable through the direct map, the bitmap
    is at its start, and the pages of the bitmap are taken. *)
Record pmm_ok (hhdm : Z) (s : pmm) : Prop := {
  po_base : 0 < phys_base s /\ phys_base s mod 4096 = 0;
  po_total : 0 <= total_pages s /\ phys_base s + total_pages s * 4096 <= 2 ^ 52;
  po_hhdm : 0 <= hhdm /\ hhdm + phys_base s + total_pages s * 4096 <= 2 ^ 64;
  po_bitmap : bitmap s = phys_base s + hhdm;
  po_bsize : bitmap_size s = (total_pages s + 7) / 8;
  po_self : forall i, 0 <= i < bitmap_pages s -> taken s i = true }.

(** The same with the whole region below 1 TiB, which the page-table code needs. *)
Definition pmm_low (hhdm : Z) (s : pmm) : Prop :=
  pmm_ok hhdm s /\ phys_base s + total_pages s * 4096 <= 2 ^ 40.

Definition page_frame (s : pmm) (a : Z) : Prop :=
  exists i, bitmap_pages s <= i < total_pages s /\ a = phys_base s + i * 4096 /\ taken s i = true.

Definition bitmap_byte (s : pmm) (x : Z) : Prop := bitmap s <= x < bitmap s + bitmap_size s.

Definition free_pages (s : pmm) : nat :=
  length (List.filter (fun i => negb (taken s (Z.of_nat i))) (seq 0 (Z.to_nat (total_pages s)))).

Lemma taken_upd s m i :
  0 <= i < total_pages s -> bitmap_size s = (total_pages s + 7) / 8 ->
  (forall x, bitmap_byte s x -> m x = pmem s x) -> taken (with_pmem s m) i = taken s i.
Proof.
  intros Hi Hb Hm. unfold taken. cbn [pmem bitmap with_pmem]. rewrite !bitmap_test_bit by lia.
  unfold ld8. rewrite Hm; [done|]. unfold bitmap_byte. rewrite Hb. wrap_lia.
Qed.

Lemma filter_length_ext {A} (f g : A -> bool) l :
  (forall x, In x l -> f x = g x) -> length (List.filter f l) = length (List.filter g l).
Proof.
  induction l as [|x l IH]; intros H; [done|]. cbn. rewrite (H x) by (by left).
  destruct (g x); cbn; rewrite IH; auto; intros y Hy; apply H; by right.
Qed.

Lemma free_pages_ext s s' :
  total_pages s' = total_pages s ->
  (forall i, 0 <= i < total_pages s -> taken s' i = taken s i) -> free_pages s' = free_pages s.
Proof.
  intros Ht H. unfold free_pages. rewrite Ht. apply filter_length_ext. intros i Hi%in_seq. rewrite H by lia. done.
Qed.

Lemma filter_drop_one {A} (f g : A -> bool) l x :
  NoDup l -> In x l -> f x = true -> g x = false -> (forall y, y <> x -> g y = f y) ->
  length (List.filter f l) = S (length (List.filter g l)).
Proof.
  induction l as [|y l IH]; intros Hnd Hin Hf Hg Ho; [done|]. apply NoDup_cons in Hnd as [Hy Hnd].
  cbn. destruct Hin as [->|Hin].
  - rewrite Hf, Hg. cbn. f_equal. apply filter_length_ext. intros z Hz. symmetry. apply Ho. intros ->.
    apply Hy. by apply list_elem_of_In.
  - assert (y <> x) by (intros ->; apply Hy; by apply list_elem_of_In).
    rewrite Ho by done. destruct (f y); cbn; rewrite IH; auto.
Qed.

(** Taking one free page. *)
Lemma free_pages_set s i :
  0 <= i < total_pages s -> taken s i = false ->
  free_pages s = S (free_pages (with_pmem s (set_run (pmem s) (bitmap s) i 1))).
Proof.
  intros Hi Ht. unfold free_pages. cbn [total_pages with_pmem].
  apply (filter_drop_one _ _ _ (Z.to_nat i)).
  - apply NoDup_seq.
  - apply in_seq. lia.
  - rewrite Z2Nat.id by lia. by rewrite Ht.
  - unfold taken. cbn [pmem bitmap with_pmem]. rewrite Z2Nat.id, set_run_test by lia. by rewrite Z.leb_refl, (proj2 (Z.ltb_lt i (i + 1)) ltac:(lia)).
  - intros y Hy. unfold taken. cbn [pmem bitmap with_pmem]. rewrite set_run_test by lia. f_equal.
    replace (_ && _) with false by lia. done.
Qed.

Lemma free_pages_exists s n : 0 <= total_pages s -> free_pages s = S n -> exists i, free_run s i 1.
Proof.
  intros Ht H. unfold free_pages in H.
  destruct (List.filter _ _) as [|x l] eqn:E; [done|].
  assert (Hx : In x (x :: l)) by (by left). rewrite <- E in Hx.
  apply filter_In in Hx as [Hx%in_seq Hf]. apply negb_true_iff in Hf.
  exists (Z.of_nat x). split; [lia|]. split; [lia|]. intros k Hk. by replace k with (Z.of_nat x) by lia.
Qed.

Lemma pmm_ok_upd hhdm s m :
  pmm_ok hhdm s -> (forall x, bitmap_byte s x -> m x = pmem s x) ->
  pmm_ok hhdm (with_pmem s m) /\ (forall f, page_frame (with_pmem s m) f <-> page_frame s f) /\
  free_pages (with_pmem s m) = free_pages s.
Proof.
  intros [H1 H2 H3 H4 H5 H6] Hm.
  assert (Htk : forall i, 0 <= i < total_pages s -> taken (with_pmem s m) i = taken s i)
    by (intros; by apply taken_upd).
  assert (Hbp : bitmap_pages s <= total_pages s \/ total_pages s = 0).
  { unfold bitmap_pages. rewrite H5. wrap_lia. }
  assert (Hbp0 : 0 <= bitmap_pages s) by (unfold bitmap_pages; rewrite H5; wrap_lia).
  split_and_all.
  - constructor; try done. intros i Hi. change (bitmap_pages (with_pmem s m)) with (bitmap_pages s) in Hi.
    rewrite Htk; [by apply H6|]. destruct Hbp as [?|E]; [lia|].
    assert (Hb0 : bitmap_pages s = 0) by (unfold bitmap_pages; rewrite H5, E; reflexivity). lia.
  - intros f. unfold page_frame. change (bitmap_pages (with_pmem s m)) with (bitmap_pages s).
    cbn [total_pages phys_base with_pmem].
    split; intros (i & Hi & -> & Ht); exists i; (rewrite Htk in * by lia); done.
  - by apply free_pages_ext.
Qed.

Lemma page_frame_ok hhdm s f :
  pmm_low hhdm s -> page_frame s f ->
  0 < f < 2 ^ 40 /\ f mod 4096 = 0 /\ 0 < f + hhdm /\ f + hhdm + 4096 <= 2 ^ 64 /\
  forall x, f + hhdm <= x < f + hhdm + 4096 -> ~ bitmap_byte s x.
Proof.
  intros [[H1 H2 H3 H4 H5 H6] Hlow] (i & Hi & -> & _).
  assert (Hbp : bitmap_size s <= bitmap_pages s * 4096 /\ 0 <= bitmap_size s).
  { unfold bitmap_pages. rewrite H5. wrap_lia. }
  assert (Hbp0 : 0 <= bitmap_pages s) by (unfold bitmap_pages; apply Z.div_pos; lia).
  split_and_all; try lia.
  - rewrite Z_mod_plus_full. apply H1.
  - intros x Hx [? ?]. lia.
Qed.

Lemma pmm_alloc_one hhdm s n :
  pmm_low hhdm s -> free_pages s = S n ->
  exists s' a, pmm_alloc_page s 1 = Some (s', a) /\ pmm_low hhdm s' /\ a <> 0 /\ free_pages s' = n /\
    ~ page_frame s a /\ (forall f, page_frame s' f <-> f = a \/ page_frame s f) /\
    (forall x, bitmap_byte s' x <-> bitmap_byte s x) /\
    (forall x, ~ bitmap_byte s x -> pmem s' x = pmem s x).
Proof.
  intros [Hok Hlow] Hn. pose proof Hok as [H1 H2 H3 H4 H5 H6].
  destruct (pmm_alloc_cases s 1 ltac:(lia) ltac:(lia) ltac:(lia)) as (s' & a & E & Hc).
  change ((1 + 4095) / 4096) with 1 in Hc. exists s', a. split; [exact E|].
  destruct Hc as [(_ & _ & Hno)|(i & Hfr & _ & -> & ->)].
  { destruct (free_pages_exists s n ltac:(lia) Hn) as [i Hi]. by destruct (Hno i). }
  pose proof Hfr as (Hi0 & Hi1 & Hf). assert (Hti : taken s i = false) by (apply Hf; lia).
  assert (Hbi : bitmap_pages s <= i).
  { destruct (Z_lt_ge_dec i (bitmap_pages s)); [|lia]. rewrite H6 in Hti by lia. done. }
  rewrite u64_small by lia.
  assert (Htk : forall k, 0 <= k -> taken (with_pmem s (set_run (pmem s) (bitmap s) i 1)) k = (k =? i) || taken s k).
  { intros k Hk. unfold taken. cbn [pmem bitmap with_pmem]. rewrite set_run_test by lia. f_equal. lia. }
  assert (Hbp0 : 0 <= bitmap_pages s) by (unfold bitmap_pages; rewrite H5; wrap_lia).
  split_and_all.
  - split; [|done]. constructor; try done. intros k Hk. change (bitmap_pages (with_pmem _ _)) with (bitmap_pages s) in Hk.
    rewrite Htk by lia. rewrite H6 by lia. apply orb_true_r.
  - lia.
  - pose proof (free_pages_set s i ltac:(lia) Hti). congruence.
  - intros (k & Hk & E' & Ht). replace k with i in Ht by lia. congruence.
  - intros f. unfold page_frame. change (bitmap_pages (with_pmem _ _)) with (bitmap_pages s).
    cbn [total_pages phys_base with_pmem]. split.
    + intros (k & Hk & -> & Ht). rewrite Htk in Ht by lia. destruct (k =? i) eqn:Ek; bool_to_prop; [left; lia|].
      right. exists k. done.
    + intros [->|(k & Hk & -> & Ht)].
      * exists i. split_and_all; [lia|lia|done|]. rewrite Htk by lia. by rewrite Z.eqb_refl.
      * exists k. split_and_all; [lia|lia|done|]. rewrite Htk by lia. rewrite Ht. apply orb_true_r.
  - done.
  - intros x Hx. cbn [pmem with_pmem]. apply set_run_out; [lia|lia|].
    unfold bitmap_byte in Hx. rewrite H5 in Hx. 
    assert (0 <= i / 8) by (apply Z.div_pos; lia).
    assert ((i + 1 + 7) / 8 <= (total_pages s + 7) / 8) by (apply Z.div_le_mono; lia). lia.
Qed.

Lemma pmm_low_upd hhdm s m :
  pmm_low hhdm s -> (forall x, bitmap_byte s x -> m x = pmem s x) ->
  pmm_low hhdm (with_pmem s m) /\ (forall f, page_frame (with_pmem s m) f <-> page_frame s f) /\
  free_pages (with_pmem s m) = free_pages s.
Proof. intros [Hok Hlow] Hm. destruct (pmm_ok_upd hhdm s m Hok Hm) as (H1 & H2 & H3). done. Qed.

(** [pmm.c] is a source of page frames. *)
#[export] Instance pmm_frames (hhdm : Z) : FrameAllocator hhdm pmm := {|
  fa_mem := pmem; fa_upd := with_pmem; fa_alloc s := pmm_alloc_page s 1;
  fa_ok := pmm_low hhdm; fa_frame := page_frame; fa_private := bitmap_byte; fa_avail := free_pages;
  fa_mem_upd s m := eq_refl;
  fa_private_upd s m x := iff_refl _;
  fa_ok_upd := pmm_low_upd hhdm;
  fa_frame_ok := page_frame_ok hhdm;
  fa_alloc_ok := pmm_alloc_one hhdm |}.

(** ** Properties *)

(** C9: [pmm_alloc_page] for at least one page returns, and takes the first run of
    free pages long enough for the request: every page of the run was free and is
    now taken, no other page changes, nothing but the bitmap is written, and no
    earlier run would have done.  It answers 0 and changes nothing only when the
    region has no such run. *)
Theorem pmm_alloc_first_fit (hhdm : Z) (s : pmm) (size : Z) :
  pmm_ok hhdm s -> 0 < size < 2 ^ 63 ->
  let n := (size + 4095) / 4096 in
  exists s' a, pmm_alloc_page s size = Some (s', a) /\
   ((s' = s /\ a = 0 /\ forall i, ~ free_run s i n) \/
    (exists i, a = phys_base s + i * 4096 /\ free_run s i n /\ (forall k, k < i -> ~ free_run s k n) /\
       (forall k, 0 <= k -> taken s' k = ((i <=? k) && (k <? i + n)) || taken s k) /\
       (forall x, ~ bitmap_byte s x -> pmem s' x = pmem s x))).
Proof.
  intros Hok Hs n. pose proof Hok as [H1 H2 H3 H4 H5 _].
  destruct (pmm_alloc_cases s size ltac:(lia) ltac:(lia) ltac:(lia)) as (s' & a & E & Hc).
  exists s', a. split; [exact E|]. destruct Hc as [?|(i & Hfr & Hmin & -> & ->)]; [by left|right].
  pose proof Hfr as (Hi0 & Hi1 & _). fold n in Hi1, Hfr, Hmin |- *. assert (Hn : 0 < n) by (unfold n; wrap_lia).
  exists i. rewrite u64_small by lia. split_and_all; try done.
  - intros k Hk. unfold taken. cbn [pmem bitmap with_pmem]. rewrite set_run_test by lia. done.
  - intros x Hx. cbn [pmem with_pmem]. apply set_run_out; [lia|lia|].
    unfold bitmap_byte in Hx. rewrite H5 in Hx. assert (0 <= i / 8) by (apply Z.div_pos; lia).
    assert ((i + n + 7) / 8 <= (total_pages s + 7) / 8) by (apply Z.div_le_mono; lia). lia.
Qed.

(** [pmm_free] undoes [pmm_alloc_page]: after allocating and freeing the same
    pages, every page is taken exactly if it was before. *)
Theorem pmm_free_undoes_alloc (hhdm : Z) (s s' : pmm) (size a k : Z) :
  pmm_ok hhdm s -> 0 < size < 2 ^ 63 -> pmm_alloc_page s size = Some (s', a) -> a <> 0 -> 0 <= k ->
  taken (pmm_free s' a ((size + 4095) / 4096)) k = taken s k.
Proof.
  intros Hok Hs E Ha Hk. pose proof Hok as [H1 H2 H3 H4 H5 _].
  destruct (pmm_alloc_cases s size ltac:(lia) ltac:(lia) ltac:(lia)) as (s2 & a2 & E2 & Hc).
  rewrite E in E2. injection E2 as <- <-. destruct Hc as [(_ & ? & _)|(i & Hfr & _ & -> & ->)]; [done|].
  set (n := (size + 4095) / 4096) in *. assert (Hn : 0 < n) by (unfold n; wrap_lia).
  pose proof Hfr as (Hi0 & Hi1 & Hf). rewrite u64_small in * by lia.
  unfold pmm_free. replace (phys_base s + i * 4096 =? 0) with false by lia.
  cbn [phys_base with_pmem pmem bitmap]. unfold BLOCK_SIZE.
  replace (phys_base s + i * 4096 - phys_base s) with (i * 4096) by lia.
  rewrite u64_small, Z.div_mul by lia. unfold taken. cbn [pmem bitmap with_pmem].
  rewrite clear_run_test, set_run_test by lia.
  destruct ((i <=? k) && (k <? i + n)) eqn:Ek; [|done]. cbn. symmetry. apply Hf. lia.
Qed.

(** The region chosen is usable and none is larger. *)
Lemma largest_usable_spec entries e :
  largest_usable entries = Some e ->
  e ∈ entries /\ me_type e = 0 /\
  forall e', e' ∈ entries -> me_type e' = 0 -> me_length e' <= me_length e.
Proof.
  unfold largest_usable, LIMINE_MEMMAP_USABLE. revert e.
  induction entries as [|x l IH] using rev_ind; intros e; [done|]. rewrite fold_left_app. cbn [fold_left].
  destruct (fold_left _ l None) as [l0|] eqn:El.
  - destruct (IH l0 eq_refl) as (H1 & H2 & H3). setoid_rewrite elem_of_app. setoid_rewrite list_elem_of_singleton.
    destruct (me_type x =? 0) eqn:Et; bool_to_prop; [destruct (me_length l0 <? me_length x) eqn:Ex; bool_to_prop|];
      intros [= <-]; (split_and_all; [auto|done|]); intros e' [He'| ->] Ht; try lia; try (by apply H3).
    specialize (H3 e' He' Ht). lia.
  - assert (Hno : forall e', e' ∈ l -> me_type e' = 0 -> False).
    { clear IH. revert El. induction l as [|y l IH] using rev_ind; [intros _ ? ?%not_elem_of_nil; done|].
      rewrite fold_left_app. cbn [fold_left]. intros El e'. rewrite elem_of_app, list_elem_of_singleton.
      destruct (fold_left _ l None); [destruct (me_type y =? 0); [destruct (_ <? _)|]; done|].
      destruct (me_type y =? 0) eqn:Ey; [done|]. bool_to_prop. intros [He'| ->] Ht; [by apply (IH El e')|done]. }
    destruct (me_type x =? 0) eqn:Et; bool_to_prop; [|done]. intros [= <-].
    setoid_rewrite elem_of_app. setoid_rewrite list_elem_of_singleton. split_and_all; [auto|done|].
    intros e' [He'| ->] Ht; [exfalso; eauto|lia].
Qed.

(** Which bits [init_PMM] leaves set. *)
Lemma init_bits m hhdm e entries s :
  largest_usable entries = Some e -> init_PMM m hhdm entries = Some s -> 0 <= me_length e ->
  forall i, 0 <= i ->
    taken s i = (i <? bitmap_pages s) || ((64 <=? i) && BITMAP_TEST m (bitmap s) i).
Proof.
  intros He Hi Hl i Hi0. unfold init_PMM in Hi. rewrite He in Hi. cbn [mbind option_bind] in Hi.
  injection Hi as <-. unfold taken, bitmap_pages. cbn [pmem bitmap bitmap_size]. unfold BLOCK_SIZE.
  set (map := u64 (me_base e + hhdm)). set (bs := (me_length e / 4096 + 7) / 8).
  assert (Hbs : 0 <= bs) by (unfold bs; wrap_lia).
  replace (bs + 4096 - 1) with (bs + 4095) by lia. fold (set_run (memset m map 0 8) map 0 ((bs + 4095) / 4096)).
  rewrite set_run_test by wrap_lia. rewrite Z.add_0_l. f_equal; [lia|].
  rewrite !bitmap_test_bit by lia. unfold ld8. rewrite memset_at by lia.
  destruct (Z_lt_ge_dec i 64).
  - replace (_ && _) with true by wrap_lia. change (u8 (u8 0)) with 0. rewrite Z.bits_0.
    replace (64 <=? i) with false by lia. done.
  - replace (_ && _) with false by wrap_lia. replace (64 <=? i) with true by lia. done.
Qed.

Lemma init_PMM_ok (m : mem) (hhdm : Z) (entries : list memmap_entry) (e : memmap_entry) s :
  largest_usable entries = Some e -> init_PMM m hhdm entries = Some s ->
  0 < me_base e /\ me_base e mod 4096 = 0 -> 0 <= me_length e ->
  me_base e + me_length e <= 2 ^ 52 -> 0 <= hhdm /\ hhdm + me_base e + me_length e <= 2 ^ 64 ->
  hhdm + me_base e < 2 ^ 64 ->
  pmm_ok hhdm s /\ phys_base s = me_base e /\ total_pages s = me_length e / 4096.
Proof.
  intros He Ei Hb Hl H52 H64 Hm. pose proof (init_bits m hhdm e entries s He Ei Hl) as Hbits.
  unfold init_PMM in Ei. rewrite He in Ei. cbn [mbind option_bind] in Ei. injection Ei as Es.
  rewrite <- Es in *. split; [|done].
  constructor; cbn [phys_base total_pages bitmap bitmap_size]; try done.
  - unfold BLOCK_SIZE. wrap_lia.
  - unfold BLOCK_SIZE. wrap_lia.
  - rewrite u64_small; lia.
  - intros i Hi. rewrite Hbits by lia. rewrite (proj2 (Z.ltb_lt i _)) by lia. done.
Qed.

(** [init_PMM] takes the largest usable region and leaves an allocator whose
    bitmap lies in pages it has marked taken, so that no allocation can overlap the
    bitmap.  Only the first 64 bits of the bitmap are cleared: the state of every
    further page is whatever the memory held. *)
Theorem init_PMM_establishes (m : mem) (hhdm : Z) (entries : list memmap_entry) (e : memmap_entry) :
  largest_usable entries = Some e ->
  0 < me_base e /\ me_base e mod 4096 = 0 -> 0 <= me_length e ->
  me_base e + me_length e <= 2 ^ 52 -> 0 <= hhdm /\ hhdm + me_base e + me_length e <= 2 ^ 64 ->
  hhdm + me_base e < 2 ^ 64 ->
  exists s, init_PMM m hhdm entries = Some s /\ pmm_ok hhdm s /\
    phys_base s = me_base e /\ total_pages s = me_length e / 4096 /\
    (forall e', e' ∈ entries -> me_type e' = LIMINE_MEMMAP_USABLE -> me_length e' <= me_length e) /\
    forall i, 0 <= i ->
      taken s i = (i <? bitmap_pages s) || ((64 <=? i) && BITMAP_TEST m (bitmap s) i).
Proof.
  intros He Hb Hl H52 H64 Hm. destruct (init_PMM m hhdm entries) as [s|] eqn:Ei;
    [|unfold init_PMM in Ei; by rewrite He in Ei].
  destruct (init_PMM_ok m hhdm entries e s He Ei Hb Hl H52 H64 Hm) as (Hok & Hpb & Ht).
  exists s. split_and_all; try done; [by apply largest_usable_spec|by eapply init_bits].
Qed.

(** A machine with 1 MiB of usable memory at 1 MiB. *)
Definition demo_map : list memmap_entry :=
  [MemmapEntry 0 4096 1; MemmapEntry 1048576 1048576 0; MemmapEntry 4194304 65536 0].
Definition demo_hhdm : Z := 18446603336221196288.

Lemma init_PMM_establishes_witness :
  exists s, init_PMM (fun _ => 0) demo_hhdm demo_map = Some s /\ pmm_ok demo_hhdm s /\
            total_pages s = 256 /\ taken s 0 = true /\ taken s 1 = false.
Proof.
  destruct (init_PMM_establishes (fun _ => 0) demo_hhdm demo_map (MemmapEntry 1048576 1048576 0))
    as (s & E & Hok & _ & Ht & _ & Hb); [reflexivity|split; reflexivity|discriminate|discriminate|split; discriminate|reflexivity|].
  exists s. split; [exact E|]. split; [exact Hok|]. split; [exact Ht|].
  injection E as <-. split; vm_compute; reflexivity.
Defined.

(** The allocator of that machine, for the witnesses. *)
Definition demo_pmm : pmm :=
  match init_PMM (fun _ => 0) demo_hhdm demo_map with Some s => s | None => Pmm (fun _ => 0) 0 0 0 0 0 0 end.

Lemma demo_pmm_ok : pmm_ok demo_hhdm demo_pmm.
Proof.
  apply (init_PMM_ok (fun _ => 0) demo_hhdm demo_map (MemmapEntry 1048576 1048576 0));
    [reflexivity|reflexivity|split; reflexivity|discriminate|discriminate|split; discriminate|reflexivity].
Qed.

Lemma demo_pmm_low : pmm_low demo_hhdm demo_pmm.
Proof. split; [exact demo_pmm_ok|]. vm_compute. discriminate. Qed.

Lemma pmm_alloc_first_fit_witness :
  exists s' a, pmm_alloc_page demo_pmm 8192 = Some (s', a) /\ a = 1052672 /\ free_run demo_pmm 1 2.
Proof.
  destruct (pmm_alloc_first_fit demo_hhdm demo_pmm 8192 demo_pmm_ok ltac:(lia)) as (s' & a & E & H).
  exists s', a. split; [exact E|].
  assert (Ea : snd <$> pmm_alloc_page demo_pmm 8192 = Some 1052672) by (vm_compute; reflexivity).
  rewrite E in Ea. cbn in Ea. injection Ea as ->. split; [reflexivity|].
  destruct H as [(_ & ? & _)|(i & Hi & Hf & _)]; [discriminate|].
  assert (Hb : phys_base demo_pmm = 1048576) by (vm_compute; reflexivity).
  rewrite Hb in Hi. replace i with 1 in Hf by lia. exact Hf.
Defined.

Lemma pmm_free_undoes_alloc_witness :
  exists s' a, pmm_alloc_page demo_pmm 8192 = Some (s', a) /\ taken (pmm_free s' a 2) 1 = false.
Proof.
  assert (Ea : snd <$> pmm_alloc_page demo_pmm 8192 = Some 1052672) by (vm_compute; reflexivity).
  destruct (pmm_alloc_page demo_pmm 8192) as [[s' a]|] eqn:E; [|discriminate].
  cbn in Ea. injection Ea as Ea. exists s', a. split; [reflexivity|].
  change 2 with ((8192 + 4095) / 4096).
  rewrite (pmm_free_undoes_alloc demo_hhdm demo_pmm s' 8192 a 1 demo_pmm_ok ltac:(lia) E ltac:(lia) ltac:(lia)).
  vm_compute. reflexivity.
Defined.

(** A request for 0 bytes gets the address of a free page that is not taken:
    the next allocation returns the same page. *)
Theorem pmm_alloc_zero_not_reserved :
  exists s1 s2 a, pmm_alloc_page demo_pmm 0 = Some (s1, a) /\ a <> 0 /\
                  pmm_alloc_page s1 1 = Some (s2, a).
Proof.
  destruct (pmm_alloc_page demo_pmm 0) as [[s1 a]|] eqn:E1; [|by vm_compute in E1].
  assert (H : (pmm_alloc_page demo_pmm 0 ≫= fun x => snd <$> pmm_alloc_page (fst x) 1) = Some 1052672)
    by (vm_compute; reflexivity).
  assert (H0 : snd <$> pmm_alloc_page demo_pmm 0 = Some 1052672) by (vm_compute; reflexivity).
  rewrite E1 in H, H0. cbn [mbind option_bind fst] in H. cbn in H0.
  destruct (pmm_alloc_page s1 1) as [[s2 b]|] eqn:E2; [|done].
  cbn in H. exists s1, s2, a. split; [done|]. split; [congruence|congruence].
Qed.
