(* ===== verification/Paging.v ===== *)
(** * Page tables, [src/src/mem/paging.c] and [src/src/include/paging.h]

    The four-level tables live in page frames reached through the direct map.  The
    model is written against the [FrameAllocator] interface; its memory holds the
    tables, the allocator's bitmap and everything else. *)

From S2P Require Import Prelude Mem CString Frames Pmm.

(** ** Page table entries *)

(** [struct PageEntry]. *)
Definition pe_present (e : Z) : Z := bf_get e 0 1.
Definition pe_writable (e : Z) : Z := bf_get e 1 1.
Definition pe_user_accessible (e : Z) : Z := bf_get e 2 1.
Definition pe_global (e : Z) : Z := bf_get e 8 1.
Definition pe_physical_address (e : Z) : Z := bf_get e 12 40.
Definition pe_no_execute (e : Z) : Z := bf_get e 63 1.

Definition PTE_PRESENT : Z := 1.
Definition PTE_WRITABLE : Z := 2.
Definition KERNEL_PFLAG_PRESENT : Z := 1.
Definition KERNEL_PFLAG_WRITE : Z := 2.
Definition PAGE_SIZE : Z := 4096.

Definition flag_bit (flags mask : Z) : Z := if truthy (flags &&& mask) then 1 else 0.

(** [entry.physical_address << 12].  The operand is a bit-field of 40 bits, wider than [int], so
    it is not promoted: the compiler shifts it in its own 40 bits, and the 12 highest bits of
    the frame number are lost. *)
Definition pe_frame (e : Z) : Z := (pe_physical_address e <<< 12) mod 2 ^ 40.

(** The new value of the entry; [flags] is a [uint8_t], [available] a
    [uint16_t]. *)
Definition pte_value (e flags physical_address available : Z) : Z :=
  let flags := u8 flags in
  let e := bf_set e 0 1 (flag_bit flags 1) in
  let e := bf_set e 1 1 (flag_bit flags 2) in
  let e := bf_set e 2 1 (flag_bit flags 4) in
  let e := bf_set e 3 1 (flag_bit flags 8) in
  let e := bf_set e 4 1 (flag_bit flags 16) in
  let e := bf_set e 5 1 0 in
  let e := bf_set e 6 1 0 in
  let e := bf_set e 8 1 (flag_bit flags 256) in
  let e := bf_set e 9 3 (available &&& 3) in
  let e := bf_set e 12 40 (physical_address >>> 12) in
  let e := bf_set e 52 11 (available >>> 3) in
  bf_set e 63 1 (flag_bit flags 512).

Definition setPageTableEntry (m : mem) (entry flags physical_address available : Z) : mem :=
  st64 m entry (pte_value (ld64 m entry) flags physical_address available).

(** ** Operations *)

(** [&table->entries[index]]. *)
Definition entry_at (table index : Z) : Z := table + 8 * index.

Record kernel_addr := KernelAddr { physical_base : Z; virtual_base : Z }.

Section Model.
Context {hhdm : Z} {S : Type} `{FA : FrameAllocator hhdm S}.

Definition phys_to_virt (phys : Z) : Z := u64 (phys + hhdm).

(** [next_of]: [phys_to_virt(table->entries[index].physical_address << 12)]. *)
Definition next_of (m : mem) (table index : Z) : Z :=
  phys_to_virt (pe_frame (ld64 m (entry_at table index))).

Definition is_present (m : mem) (table index : Z) : bool :=
  truthy (pe_present (ld64 m (entry_at table index))).

(** NULL is 0. *)
Definition getPhysicalAddress (m : mem) (PML4 virt_add : Z) : Z :=
  let offset := virt_add &&& 4095 in
  let pt_idx := (virt_add >>> 12) &&& 511 in
  let pd_idx := (virt_add >>> 21) &&& 511 in
  let pdp_idx := (virt_add >>> 30) &&& 511 in
  let pml4_idx := (virt_add >>> 39) &&& 511 in
  if negb (is_present m PML4 pml4_idx) then 0
  else
    let pdp := next_of m PML4 pml4_idx in
    if negb (is_present m pdp pdp_idx) then 0
    else
      let page_directory := next_of m pdp pdp_idx in
      if negb (is_present m page_directory pd_idx) then 0
      else
        let page_table := next_of m page_directory pd_idx in
        if negb (is_present m page_table pt_idx) then 0
        else u64 (pe_frame (ld64 m (entry_at page_table pt_idx)) + offset).

Definition virt_to_phys (m : mem) (PML4 : Z) (k : kernel_addr) (virt : Z) : Z :=
  if hhdm <=? virt then u64 (virt - hhdm)
  else if virtual_base k <=? virt
  then u64 (virt - u64 (virtual_base k - physical_base k))
  else getPhysicalAddress m PML4 virt.

(** The answer is the new table's physical address, 0 on failure. *)
Definition allocateEntry (s : S) (table index flags : Z) : option (S * Z) :=
  '(s, phys) ← fa_alloc s;
  if phys =? 0 then Some (s, 0)
  else
    let pt := phys_to_virt phys in
    let m := memset (fa_mem s) pt 0 4096 in
    let m := setPageTableEntry m (entry_at table index)
               (flags ||| PTE_PRESENT ||| PTE_WRITABLE) phys 0 in
    Some (fa_upd s m, phys).

(** One level of [map_page]: make the entry present if it is not (the answer of
    [allocateEntry] is not looked at) and follow it. *)
Definition descend (s : S) (table index : Z) : option (S * Z) :=
  s ← (if negb (is_present (fa_mem s) table index)
       then '(s, _) ← allocateEntry s table index PTE_WRITABLE; Some s
       else Some s);
  Some (s, next_of (fa_mem s) table index).

(** One round of the loop of [map_page]; [flushTLB] has no effect on memory. *)
Definition map_one (PML4 : Z) (s : S) (vir phy flags : Z) : option S :=
  let pml4_idx := (vir >>> 39) &&& 511 in
  let pdp_idx := (vir >>> 30) &&& 511 in
  let pd_idx := (vir >>> 21) &&& 511 in
  let pt_idx := (vir >>> 12) &&& 511 in
  '(s, pdp) ← descend s PML4 pml4_idx;
  '(s, pd) ← descend s pdp pdp_idx;
  '(s, pt) ← descend s pd pd_idx;
  Some (fa_upd s (setPageTableEntry (fa_mem s) (entry_at pt pt_idx) flags phy 0)).

Definition map_page (PML4 : Z) (s : S) (virt phys flags num_pages : Z) : option S :=
  floop (Z.to_nat num_pages) 0
    (fun i os => s ← os; map_one PML4 s (u64 (virt + i * 4096)) (u64 (phys + i * 4096)) flags)
    (Some s).

Definition map_kernel (PML4 : Z) (s : S) (k : kernel_addr)
    (p_kernel_start p_writeallowed_start p_kernel_end : Z) : option S :=
  let offset := u64 (virtual_base k - physical_base k) in
  let virt_ro_start := p_kernel_start in
  let virt_rw_start := p_writeallowed_start in
  let virt_end := p_kernel_end in
  let phys_ro_start := u64 (virt_ro_start - offset) in
  let phys_rw_start := u64 (virt_rw_start - offset) in
  let readonly_pages := u64 (virt_rw_start - virt_ro_start + PAGE_SIZE - 1) / PAGE_SIZE in
  let writable_pages := u64 (virt_end - virt_rw_start + PAGE_SIZE - 1) / PAGE_SIZE in
  s ← map_page PML4 s virt_ro_start phys_ro_start KERNEL_PFLAG_PRESENT readonly_pages;
  map_page PML4 s virt_rw_start phys_rw_start
    (KERNEL_PFLAG_PRESENT ||| KERNEL_PFLAG_WRITE) writable_pages.

Definition map_all_mem (PML4 : Z) (s : S) (entries : list memmap_entry) (k : kernel_addr)
    (p_kernel_start p_writeallowed_start p_kernel_end : Z) : option S :=
  s ← fold_left (fun os entry =>
        s ← os;
        if (me_type entry =? 1) || (me_type entry =? 4) then Some s
        else
          let phys := me_base entry in
          let virt := u64 (phys + hhdm) in
          let pages := u64 (me_length entry + PAGE_SIZE - 1) / PAGE_SIZE in
          let flags := KERNEL_PFLAG_PRESENT ||| KERNEL_PFLAG_WRITE in
          map_page PML4 s virt phys flags pages) entries (Some s);
  map_kernel PML4 s k p_kernel_start p_writeallowed_start p_kernel_end.

(** The answer: the state, the table's address [PML4] and the value of [cr3]. *)
Definition initPML4 (s : S) (entries : list memmap_entry) (k : kernel_addr)
    (p_kernel_start p_writeallowed_start p_kernel_end : Z) : option (S * Z * Z) :=
  '(s, pml4_phys) ← fa_alloc s;
  let PML4 := phys_to_virt pml4_phys in
  let s := fa_upd s (memset (fa_mem s) PML4 0 PAGE_SIZE) in
  s ← map_all_mem PML4 s entries k p_kernel_start p_writeallowed_start p_kernel_end;
  Some (s, PML4, pml4_phys).
End Model.

(** ** Flag bits *)

Lemma flag_bit_1 flags : flag_bit (u8 flags) 1 = flags mod 2.
Proof.
  unfold flag_bit. change 1 with (2 ^ 1 - 1) at 1. rewrite land_mod by lia. change (2 ^ 1) with 2.
  replace (u8 flags mod 2) with (flags mod 2) by wrap_lia. case_if; wrap_lia.
Qed.

Lemma flag_bit_range flags mask : 0 <= flag_bit flags mask < 2.
Proof. unfold flag_bit. case_if; lia. Qed.

Lemma pte_value_fields e flags pa :
  pe_present (pte_value e flags pa 0) = flags mod 2 /\
  pe_physical_address (pte_value e flags pa 0) = (pa >>> 12) mod 2 ^ 40 /\
  pe_global (pte_value e flags pa 0) = 0 /\ pe_no_execute (pte_value e flags pa 0) = 0.
Proof.
  unfold pte_value, pe_present, pe_physical_address, pe_global, pe_no_execute. cbv zeta. bf_simpl.
  rewrite flag_bit_1, Z.mod_mod by lia. split_and_all; try done.
  - unfold flag_bit. replace (u8 flags &&& 256) with 0; [done|]. symmetry.
    apply Z.bits_inj'. intros i Hi. rewrite Z.land_spec, Z.bits_0. change 256 with (2 ^ 8) at 1.
    rewrite Z.pow2_bits_eqb by lia. destruct (8 =? i) eqn:E; [|apply andb_false_r]. bool_to_prop. subst i.
    unfold u8. change 256 with (2 ^ 8). rewrite Z.mod_pow2_bits_high by lia. done.
  - unfold flag_bit. replace (u8 flags &&& 512) with 0; [done|]. symmetry.
    apply Z.bits_inj'. intros i Hi. rewrite Z.land_spec, Z.bits_0. change 512 with (2 ^ 9).
    rewrite Z.pow2_bits_eqb by lia. destruct (9 =? i) eqn:E; [|apply andb_false_r]. bool_to_prop. subst i.
    unfold u8. change 256 with (2 ^ 8). rewrite Z.mod_pow2_bits_high by lia. done.
Qed.

(** Below 1 TiB nothing is lost. *)
Lemma frame_back g : 0 <= g < 2 ^ 40 -> g mod 4096 = 0 -> (((g >>> 12) mod 2 ^ 40) <<< 12) mod 2 ^ 40 = g.
Proof.
  intros Hg Hm. rewrite shiftr_div, shiftl_mul by lia. change (2 ^ 12) with 4096. change (2 ^ 40) with 1099511627776 in *.
  rewrite (Z.mod_small (g / 4096)) by wrap_lia. wrap_lia.
Qed.

Lemma pte_value_range e flags pa av : 0 <= e < 2 ^ 64 -> 0 <= pte_value e flags pa av < 2 ^ 64.
Proof. intros He. unfold pte_value. cbv zeta. repeat (apply bf_set_range; [lia|lia|lia|]). done. Qed.

Lemma set_entry_same m a flags pa :
  ld64 (setPageTableEntry m a flags pa 0) a = pte_value (ld64 m a) flags pa 0.
Proof.
  unfold setPageTableEntry. apply ld64_st64_same, pte_value_range. pose proof (ld64_range m a). lia.
Qed.

(** ** Addresses *)

(** The index into the level [l] table and the part of the address above it. *)
Definition idx (l : nat) (va : Z) : Z := (va >>> (3 + 9 * Z.of_nat l)) &&& 511.
Definition pre (l : nat) (va : Z) : Z := (va >>> (12 + 9 * Z.of_nat l)) mod 2 ^ (36 - 9 * Z.of_nat l).
(** The page number, [pre 0]. *)
Definition vpn (va : Z) : Z := (va >>> 12) mod 2 ^ 36.

Lemma idx_range l va : 0 <= idx l va < 512.
Proof. unfold idx. change 511 with (2 ^ 9 - 1). rewrite land_mod by lia. apply Z.mod_pos_bound. lia. Qed.

Lemma pre_step (l : nat) va : (l <= 3)%nat -> pre l va = pre (S l) va * 512 + idx (S l) va.
Proof.
  intros Hl. unfold pre, idx. change 511 with (2 ^ 9 - 1). rewrite land_mod by lia.
  replace (3 + 9 * Z.of_nat (S l)) with (12 + 9 * Z.of_nat l) by lia.
  replace (12 + 9 * Z.of_nat (S l)) with (12 + 9 * Z.of_nat l + 9) by lia.
  rewrite <- (Z.shiftr_shiftr va (12 + 9 * Z.of_nat l) 9) by lia. set (x := va >>> (12 + 9 * Z.of_nat l)).
  replace (36 - 9 * Z.of_nat l) with (9 + (36 - 9 * Z.of_nat (S l))) by lia.
  rewrite Z.pow_add_r, Z.rem_mul_r by lia. rewrite (Z.shiftr_div_pow2 x 9) by lia. change (2 ^ 9) with 512. lia.
Qed.

Lemma pre_4 va : pre 4 va = 0.
Proof. unfold pre. cbn. apply Z.mod_1_r. Qed.

Section Tables.
Context {hhdm : Z} {St : Type} `{FA : FrameAllocator hhdm St}.

(** The entry for [va] in the table at frame [f]. *)
Definition entry (m : mem) (f i : Z) : Z := ld64 m (entry_at (f + hhdm) i).

(** A table walk from level [l] down, by recursion on the level. *)
Fixpoint walk (m : mem) (l : nat) (f va : Z) : Z :=
  match l with
  | O => 0
  | S l' =>
      let e := entry m f (idx l va) in
      if truthy (pe_present e) then
        match l' with
        | O => u64 (pe_frame e + (va &&& 4095))
        | _ => walk m l' (pe_frame e) va
        end
      else 0
  end.

(** The frames that hold tables, with their level and the part of the address
    space they cover. *)
Definition ptmap := Z -> option (nat * Z).

Record pt_inv (s : St) (root : Z) (T : ptmap) : Prop := {
  pi_ok : fa_ok s;
  pi_root : T root = Some (4%nat, 0);
  pi_frame : forall f l p, T f = Some (l, p) -> (1 <= l <= 4)%nat /\ fa_frame s f;
  pi_next : forall f l p i, T f = Some (l, p) -> (1 < l)%nat -> 0 <= i < 512 ->
    truthy (pe_present (entry (fa_mem s) f i)) = true ->
    T (pe_frame (entry (fa_mem s) f i)) = Some (Nat.pred l, p * 512 + i);
  pi_inj : forall f g l p, T f = Some (l, p) -> T g = Some (l, p) -> f = g;
  pi_parent : forall h k q, T h = Some (k, q) -> (k < 4)%nat ->
    exists f, T f = Some (S k, q / 512) /\
      truthy (pe_present (entry (fa_mem s) f (q mod 512))) = true /\
      pe_frame (entry (fa_mem s) f (q mod 512)) = h }.

(** A walk only reads the entries on its path. *)
Lemma walk_same s root T m' va l f :
  pt_inv s root T -> T f = Some (l, pre l va) -> (1 <= l <= 4)%nat ->
  (forall g k, (1 <= k <= l)%nat -> T g = Some (k, pre k va) ->
     entry m' g (idx k va) = entry (fa_mem s) g (idx k va)) ->
  walk m' l f va = walk (fa_mem s) l f va.
Proof.
  intros Hinv. revert f. induction l as [|l IH]; intros f HT Hl Hsame; [lia|]. cbn [walk].
  rewrite (Hsame f (S l)) by (done || lia). case_if; [|done]. destruct l as [|l']; [done|].
  apply IH; [|lia|intros; apply Hsame; [lia|done]].
  rewrite (pi_next _ _ _ Hinv f (S (S l')) (pre (S (S l')) va)); [|done|lia|apply idx_range|by apply truthy_iff].
  cbn [Nat.pred]. by rewrite <- pre_step by lia.
Qed.

(** A walk passes through the table that covers the address. *)
Lemma walk_reach s root T va n k f :
  pt_inv s root T -> (n + k = 4)%nat -> (1 <= k)%nat -> T f = Some (k, pre k va) ->
  walk (fa_mem s) 4 root va = walk (fa_mem s) k f va.
Proof.
  intros Hinv. revert k f. induction n as [|n IH]; intros k f Hk Hk1 HT.
  - cbn in Hk. subst k. rewrite pre_4 in HT.
    by rewrite (pi_inj _ _ _ Hinv f root _ _ HT (pi_root _ _ _ Hinv)).
  - destruct (pi_parent _ _ _ Hinv f k _ HT ltac:(lia)) as (f' & HT' & Hp & Ha).
    assert (E1 : pre k va / 512 = pre (S k) va /\ pre k va mod 512 = idx (S k) va).
    { pose proof (idx_range (S k) va). rewrite (pre_step k) by lia. wrap_lia. }
    destruct E1 as [E1 E2]. rewrite E1 in HT'. rewrite E2 in Hp, Ha.
    rewrite (IH (S k) f') by (lia || done). cbn [walk]. rewrite Hp, Ha. destruct k; [lia|done].
Qed.

Lemma getPhysicalAddress_walk s root T va :
  pt_inv s root T -> getPhysicalAddress (hhdm := hhdm) (fa_mem s) (root + hhdm) va = walk (fa_mem s) 4 root va.
Proof.
  intros Hinv.
  assert (Hnext : forall f l p i, T f = Some (l, p) -> (1 < l)%nat -> 0 <= i < 512 ->
    is_present (fa_mem s) (f + hhdm) i = true ->
    let g := pe_frame (entry (fa_mem s) f i) in
    T g = Some (Nat.pred l, p * 512 + i) /\ next_of (hhdm := hhdm) (fa_mem s) (f + hhdm) i = g + hhdm).
  { intros f l p i HT Hl Hi Hp g. pose proof (pi_next _ _ _ Hinv f l p i HT Hl Hi Hp) as Hn. split; [exact Hn|].
    destruct (pi_frame _ _ _ Hinv _ _ _ Hn) as [_ Hfr].
    destruct (fa_frame_ok _ _ (pi_ok _ _ _ Hinv) Hfr) as (H1 & _ & H2 & H3 & _).
    unfold next_of, phys_to_virt. fold (entry (fa_mem s) f i). fold g. fold g in H1, H2, H3.
    rewrite u64_small by lia. done. }
  unfold getPhysicalAddress. cbv zeta.
  change ((va >>> 39) &&& 511) with (idx 4 va). change ((va >>> 30) &&& 511) with (idx 3 va).
  change ((va >>> 21) &&& 511) with (idx 2 va). change ((va >>> 12) &&& 511) with (idx 1 va).
  cbn [walk]. destruct (is_present (fa_mem s) (root + hhdm) (idx 4 va)) eqn:E4; cbn [negb];
    unfold is_present in E4; fold (entry (fa_mem s) root (idx 4 va)) in E4; rewrite E4; [|done].
  destruct (Hnext root 4%nat 0 (idx 4 va) (pi_root _ _ _ Hinv) ltac:(lia) (idx_range _ _) E4) as [HT3 E].
  rewrite E. clear E. set (f3 := pe_frame (entry (fa_mem s) root (idx 4 va))) in *. cbn [Nat.pred] in HT3.
  destruct (is_present (fa_mem s) (f3 + hhdm) (idx 3 va)) eqn:E3; cbn [negb];
    unfold is_present in E3; fold (entry (fa_mem s) f3 (idx 3 va)) in E3; rewrite E3; [|done].
  destruct (Hnext f3 3%nat _ (idx 3 va) HT3 ltac:(lia) (idx_range _ _) E3) as [HT2 E].
  rewrite E. clear E. set (f2 := pe_frame (entry (fa_mem s) f3 (idx 3 va))) in *. cbn [Nat.pred] in HT2.
  destruct (is_present (fa_mem s) (f2 + hhdm) (idx 2 va)) eqn:E2; cbn [negb];
    unfold is_present in E2; fold (entry (fa_mem s) f2 (idx 2 va)) in E2; rewrite E2; [|done].
  destruct (Hnext f2 2%nat _ (idx 2 va) HT2 ltac:(lia) (idx_range _ _) E2) as [HT1 E].
  rewrite E. clear E. set (f1 := pe_frame (entry (fa_mem s) f2 (idx 2 va))) in *.
  unfold is_present. fold (entry (fa_mem s) f1 (idx 1 va)). set (e := entry (fa_mem s) f1 (idx 1 va)).
  by destruct (truthy (pe_present e)).
Qed.

(** ** One page of memory per table *)

(** Distinct frames do not overlap. *)
Lemma frames_apart s f g x :
  fa_ok s -> fa_frame s f -> fa_frame s g -> f <> g ->
  f + hhdm <= x < f + hhdm + 4096 -> x < g + hhdm \/ g + hhdm + 4096 <= x.
Proof.
  intros Hok Hf Hg Hne Hx. destruct (fa_frame_ok _ _ Hok Hf) as (_ & Hfm & _).
  destruct (fa_frame_ok _ _ Hok Hg) as (_ & Hgm & _). wrap_lia.
Qed.

(** Table entries through a change of memory. *)
Lemma entry_ext (m m' : mem) f i :
  0 <= i < 512 -> (forall x, f + hhdm <= x < f + hhdm + 4096 -> m' x = m x) -> entry m' f i = entry m f i.
Proof. intros Hi Hm. unfold entry, entry_at. apply ldn_ext. intros x Hx. apply Hm. lia. Qed.

Lemma entry_set_same m f i flags pa :
  entry (setPageTableEntry m (entry_at (f + hhdm) i) flags pa 0) f i = pte_value (entry m f i) flags pa 0.
Proof. apply set_entry_same. Qed.

Lemma entry_set_other m f i g j flags pa :
  0 <= i < 512 -> 0 <= j < 512 -> (f, i) <> (g, j) ->
  (f <> g -> forall x, f + hhdm <= x < f + hhdm + 4096 -> x < g + hhdm \/ g + hhdm + 4096 <= x) ->
  entry (setPageTableEntry m (entry_at (g + hhdm) j) flags pa 0) f i = entry m f i.
Proof.
  intros Hi Hj Hne Hap. unfold entry, setPageTableEntry, entry_at. apply ldn_ext. intros x Hx.
  apply stn_out. destruct (Z.eq_dec f g) as [->|Hfg].
  - assert (i <> j) by congruence. lia.
  - specialize (Hap Hfg x ltac:(lia)). lia.
Qed.

Lemma setPageTableEntry_out m a flags pa x :
  x < a \/ a + 8 <= x -> setPageTableEntry m a flags pa 0 x = m x.
Proof. intros. unfold setPageTableEntry. apply stn_out. lia. Qed.

(** What building page tables leaves alone: the page of every frame that was
    handed out before and is not a table. *)
Definition kept (s s' : St) (T T' : ptmap) : Prop :=
  forall f, fa_frame s f -> T f = None ->
    fa_frame s' f /\ T' f = None /\
    forall x, f + hhdm <= x < f + hhdm + 4096 -> fa_mem s' x = fa_mem s x.

Lemma kept_refl s T : kept s s T T.
Proof. intros f Hf HT. done. Qed.

Lemma kept_trans s1 s2 s3 T1 T2 T3 : kept s1 s2 T1 T2 -> kept s2 s3 T2 T3 -> kept s1 s3 T1 T3.
Proof.
  intros H1 H2 f Hf HT. destruct (H1 f Hf HT) as (Hf2 & HT2 & Hm2). destruct (H2 f Hf2 HT2) as (Hf3 & HT3 & Hm3).
  split_and_all; try done. intros x Hx. rewrite Hm3 by done. by apply Hm2.
Qed.

Definition tab_add (T : ptmap) (g : Z) (x : nat * Z) : ptmap := fun f => if f =? g then Some x else T f.

Section AllocateEntry.
Context (s : St) (root : Z) (T : ptmap) (f : Z) (l : nat) (p i : Z).
Hypothesis Hinv : pt_inv s root T.
Hypothesis HT : T f = Some (l, p).
Hypothesis Hl : (1 < l)%nat.
Hypothesis Hi : 0 <= i < 512.
Hypothesis Habs : truthy (pe_present (entry (fa_mem s) f i)) = false.

(** No table covers the range of an entry that is not present. *)
Lemma absent_uncovered h : T h <> Some (Nat.pred l, p * 512 + i).
Proof.
  intros Hh. destruct (pi_frame _ _ _ Hinv _ _ _ HT) as [Hl4 _].
  destruct (pi_parent _ _ _ Hinv h _ _ Hh ltac:(lia)) as (f' & HT' & Hp & _).
  replace (S (Nat.pred l)) with l in HT' by lia. replace ((p * 512 + i) / 512) with p in HT' by wrap_lia.
  rewrite (pi_inj _ _ _ Hinv f' f _ _ HT' HT) in Hp. replace ((p * 512 + i) mod 512) with i in Hp by wrap_lia.
  congruence.
Qed.

(** The new table [g] hangs off entry [i] of [f], is empty, and the other
    entries of the tables are as before. *)
Record added (s' : St) (g : Z) : Prop := {
  ad_ok : fa_ok s';
  ad_frames : forall h, fa_frame s' h <-> h = g \/ fa_frame s h;
  ad_new : T g = None;
  ad_present : truthy (pe_present (entry (fa_mem s') f i)) = true;
  ad_phys : pe_frame (entry (fa_mem s') f i) = g;
  ad_same : forall h j, T h <> None -> 0 <= j < 512 -> (h, j) <> (f, i) ->
            entry (fa_mem s') h j = entry (fa_mem s) h j;
  ad_empty : forall j, 0 <= j < 512 -> entry (fa_mem s') g j = 0 }.

Let T' (g : Z) : ptmap := tab_add T g (Nat.pred l, p * 512 + i).

Lemma tab_add_inv g h x :
  T' g h = Some x -> (h = g /\ x = (Nat.pred l, p * 512 + i)) \/ (h <> g /\ T h = Some x).
Proof. unfold T', tab_add. destruct (h =? g) eqn:E; bool_to_prop; [intros [= <-]; auto|auto]. Qed.

Lemma tab_add_old g h x : T g = None -> T h = Some x -> T' g h = Some x.
Proof. intros Hg Hh. unfold T', tab_add. destruct (h =? g) eqn:E; bool_to_prop; [congruence|done]. Qed.

Lemma added_inv s' g : added s' g -> pt_inv s' root (T' g).
Proof.
  intros [Hok Hfr Hg Hpr Hph Hsame Hemp]. destruct (pi_frame _ _ _ Hinv _ _ _ HT) as [Hl4 Hff].
  constructor.
  - exact Hok.
  - apply tab_add_old; [exact Hg|apply (pi_root _ _ _ Hinv)].
  - intros h k q [[-> [= -> ->]]|[Hne Hh]]%tab_add_inv; [split; [lia|apply Hfr; by left]|].
    destruct (pi_frame _ _ _ Hinv _ _ _ Hh). split; [lia|]. apply Hfr. by right.
  - intros h k q j [[-> [= -> ->]]|[Hne Hh]]%tab_add_inv Hk Hj Hpj; [rewrite Hemp in Hpj by lia; discriminate|].
    destruct (decide ((h, j) = (f, i))) as [[= -> ->]|Hd].
    + rewrite Hph. rewrite HT in Hh. injection Hh as <- <-. unfold T', tab_add. by rewrite Z.eqb_refl.
    + rewrite Hsame in * by (try congruence; lia). apply tab_add_old; [exact Hg|].
      by apply (pi_next _ _ _ Hinv).
  - intros h1 h2 k q [[-> E1]|[Hne1 Hh1]]%tab_add_inv [[-> E2]|[Hne2 Hh2]]%tab_add_inv; [reflexivity| | |].
    + exfalso. apply (absent_uncovered h2). congruence.
    + exfalso. apply (absent_uncovered h1). congruence.
    + by apply (pi_inj _ _ _ Hinv h1 h2 k q).
  - intros h k q [[-> [= -> ->]]|[Hne Hh]]%tab_add_inv Hk.
    + exists f. replace (S (Nat.pred l)) with l by lia. replace ((p * 512 + i) / 512) with p by wrap_lia.
      replace ((p * 512 + i) mod 512) with i by wrap_lia. split; [by apply tab_add_old|auto].
    + destruct (pi_parent _ _ _ Hinv h k q Hh Hk) as (f' & HT' & Hp' & Hpa').
      exists f'. assert (Hd : (f', q mod 512) <> (f, i)) by (intros [= -> E]; rewrite E in Hp'; congruence).
      rewrite Hsame by (try congruence; apply Z.mod_pos_bound; lia).
      split; [by apply tab_add_old|auto].
Qed.

(** Adding an empty table changes no translation. *)
Lemma added_walk s' g va :
  added s' g -> walk (fa_mem s') 4 root va = walk (fa_mem s) 4 root va.
Proof.
  intros Had. pose proof (added_inv s' g Had) as Hinv'. destruct Had as [_ _ Hg Hpr Hph Hsame Hemp].
  destruct (pi_frame _ _ _ Hinv _ _ _ HT) as [Hl4 _].
  destruct (decide (pre l va = p /\ idx l va = i)) as [[Ep Ei]|Hd].
  - rewrite (walk_reach s root T va (4 - l) l f Hinv); [|lia|lia|by rewrite Ep].
    rewrite (walk_reach s' root _ va (4 - l) l f Hinv'); [|lia|lia|apply tab_add_old; [done|by rewrite Ep]].
    destruct l as [|l']; [lia|]. cbn [walk]. rewrite Ei, Hpr, Hph, Habs.
    destruct l' as [|l'']; [lia|]. cbn [walk]. rewrite Hemp by apply idx_range. done.
  - apply (walk_same s root T); [done|rewrite pre_4; apply (pi_root _ _ _ Hinv)|lia|].
    intros h k Hk Hh. apply Hsame; [congruence|apply idx_range|]. intros [= -> E].
    rewrite HT in Hh. injection Hh as E1 E2. subst k. apply Hd. auto.
Qed.

Lemma table_frame h : T h <> None -> fa_frame s h.
Proof. intros Hh. destruct (T h) as [[k q]|] eqn:E; [exact (proj2 (pi_frame _ _ _ Hinv _ _ _ E))|congruence]. Qed.

(** The memory [allocateEntry] writes, given the frame [g] it got. *)
Section NewTable.
Context (s1 : St) (g : Z).
Hypothesis Hok1 : fa_ok s1.
Hypothesis Hng : ~ fa_frame s g.
Hypothesis Hfr1 : forall h, fa_frame s1 h <-> h = g \/ fa_frame s h.
Hypothesis Hpr1 : forall x, fa_private s1 x <-> fa_private s x.
Hypothesis Hm1 : forall x, ~ fa_private s x -> fa_mem s1 x = fa_mem s x.
Let flags := PTE_WRITABLE ||| PTE_PRESENT ||| PTE_WRITABLE.
Let m2 := memset (fa_mem s1) (g + hhdm) 0 4096.
Let m3 := setPageTableEntry m2 (entry_at (f + hhdm) i) flags g 0.

Lemma new_page_bytes h x : fa_frame s h -> h + hhdm <= x < h + hhdm + 4096 -> m2 x = fa_mem s x.
Proof.
  intros Hh Hx. unfold m2. rewrite memset_at by lia. assert (Hhg : h <> g) by congruence.
  pose proof (frames_apart s1 h g x Hok1 (proj2 (Hfr1 h) (or_intror Hh)) (proj2 (Hfr1 g) (or_introl eq_refl)) Hhg Hx).
  destruct ((g + hhdm <=? x) && (x <? g + hhdm + 4096)) eqn:E; [lia|].
  apply Hm1. destruct (fa_frame_ok _ _ (pi_ok _ _ _ Hinv) Hh) as (_ & _ & _ & _ & Hp). by apply Hp.
Qed.

Lemma new_private x : fa_private s1 x -> m3 x = fa_mem s1 x.
Proof.
  intros Hx. destruct (pi_frame _ _ _ Hinv _ _ _ HT) as [_ Hff].
  destruct (fa_frame_ok _ _ Hok1 (proj2 (Hfr1 g) (or_introl eq_refl))) as (_ & _ & _ & _ & Hgp).
  destruct (fa_frame_ok _ _ Hok1 (proj2 (Hfr1 f) (or_intror Hff))) as (_ & _ & _ & _ & Hfp).
  specialize (Hgp x). specialize (Hfp x). unfold m3. rewrite setPageTableEntry_out.
  - unfold m2. rewrite memset_at by lia. destruct ((g + hhdm <=? x) && (x <? g + hhdm + 4096)) eqn:E; [|reflexivity].
    exfalso. apply Hgp; [lia|exact Hx].
  - unfold entry_at. destruct (decide (f + hhdm <= x < f + hhdm + 4096)); [exfalso; tauto|lia].
Qed.

Lemma new_added : added (fa_upd s1 m3) g /\ (forall h, fa_frame s h -> T h = None ->
    forall x, h + hhdm <= x < h + hhdm + 4096 -> m3 x = fa_mem s x).
Proof.
  destruct (pi_frame _ _ _ Hinv _ _ _ HT) as [_ Hff]. pose proof (pi_ok _ _ _ Hinv) as Hok.
  pose proof (proj2 (Hfr1 g) (or_introl eq_refl)) as Hgf.
  destruct (fa_frame_ok _ _ Hok1 Hgf) as (Hg1 & Hg2 & _).
  destruct (fa_ok_upd s1 m3 Hok1 new_private) as (Hok3 & Hfr3 & _).
  assert (Hnef : f <> g) by congruence. split.
  - pose proof (entry_set_same m2 f i flags g) as Hfe. fold m3 in Hfe.
    destruct (pte_value_fields (entry m2 f i) flags g) as (Hp1 & Hp2 & _). rewrite <- Hfe in Hp1, Hp2.
    constructor; rewrite ?fa_mem_upd.
    + exact Hok3.
    + intros h. rewrite Hfr3. apply Hfr1.
    + destruct (T g) as [[k q]|] eqn:E; [|reflexivity]. destruct (pi_frame _ _ _ Hinv _ _ _ E). contradiction.
    + rewrite Hp1. reflexivity.
    + unfold pe_frame. rewrite Hp2. apply frame_back; [lia|done].
    + intros h j Hh%table_frame Hj Hne. unfold m3. rewrite entry_set_other; [|exact Hj|exact Hi|exact Hne|].
      * apply entry_ext; [exact Hj|]. intros x Hx. by apply (new_page_bytes h).
      * intros Hhf x Hx. by apply (frames_apart s h f).
    + intros j Hj. unfold m3. rewrite entry_set_other; [|exact Hj|exact Hi|congruence|].
      * unfold entry, entry_at. apply ldn_zero. intros x Hx. unfold m2. rewrite memset_at by lia.
        by rewrite (proj2 (andb_true_iff _ _)) by lia.
      * intros _ x Hx. apply (frames_apart s1 g f); [exact Hok1|exact Hgf|apply Hfr1; by right|congruence|exact Hx].
  - intros h Hh HTh x Hx. unfold m3. rewrite setPageTableEntry_out; [by apply (new_page_bytes h)|].
    assert (Hhf : h <> f) by congruence. pose proof (frames_apart s h f x Hok Hh Hff Hhf Hx).
    unfold entry_at. lia.
Qed.
End NewTable.

Lemma allocateEntry_ok n :
  fa_avail s = S n ->
  exists s' g, allocateEntry s (f + hhdm) i PTE_WRITABLE = Some (s', g) /\
    added s' g /\ fa_avail s' = n /\ kept s s' T (T' g).
Proof.
  intros Hav. pose proof (pi_ok _ _ _ Hinv) as Hok.
  destruct (fa_alloc_ok s n Hok Hav) as (s1 & g & Ea & Hok1 & Hg0 & Hav1 & Hng & Hfr1 & Hpr1 & Hm1).
  destruct (fa_frame_ok _ _ Hok1 (proj2 (Hfr1 g) (or_introl eq_refl))) as (_ & _ & Hg3 & Hg4 & _).
  unfold allocateEntry. rewrite Ea. cbn [mbind option_bind]. rewrite (proj2 (Z.eqb_neq g 0)) by exact Hg0.
  unfold phys_to_virt. rewrite u64_small by lia.
  assert (Hna := new_added s1 g). assert (Hpv := new_private s1 g).
  repeat match goal with
  | Hx : ?P, Hy : ?P -> _ |- _ => match type of P with Prop => specialize (Hy Hx) end
  end.
  destruct Hna as [Had Hk].
  set (m3 := setPageTableEntry _ _ _ _ _) in *.
  destruct (fa_ok_upd s1 m3 Hok1 Hpv) as (_ & _ & Hav3).
  eexists _, g. split; [reflexivity|]. split; [exact Had|]. split; [congruence|].
  intros h Hh HTh. split_and_all.
  - apply (ad_frames _ _ Had). by right.
  - unfold T', tab_add. destruct (h =? g) eqn:E; bool_to_prop; [congruence|exact HTh].
  - rewrite fa_mem_upd. exact (Hk h Hh HTh).
Qed.
End AllocateEntry.

(** Some table covers this part of the address space. *)
Definition covered (T : ptmap) (l : nat) (q : Z) : Prop := exists g, T g = Some (l, q).

Definition extends (T T' : ptmap) : Prop := forall h x, T h = Some x -> T' h = Some x.

Lemma extends_trans T1 T2 T3 : extends T1 T2 -> extends T2 T3 -> extends T1 T3.
Proof. intros H1 H2 h x Hh. by apply H2, H1. Qed.

Lemma covered_extends T T' l q : extends T T' -> covered T l q -> covered T' l q.
Proof. intros H [g Hg]. exists g. by apply H. Qed.

(** One level down: the entry is there afterwards and no translation changed; a
    frame is used only if no table covered the range. *)
Lemma descend_ok s root T f l p i n (c : nat) :
  pt_inv s root T -> T f = Some (l, p) -> (1 < l)%nat -> 0 <= i < 512 ->
  (1 <= c)%nat \/ covered T (Nat.pred l) (p * 512 + i) -> (c + n <= fa_avail s)%nat ->
  exists s' g T', descend s (f + hhdm) i = Some (s', g + hhdm) /\ pt_inv s' root T' /\
    T' g = Some (Nat.pred l, p * 512 + i) /\ (n <= fa_avail s')%nat /\ extends T T' /\
    (forall va, walk (fa_mem s') 4 root va = walk (fa_mem s) 4 root va) /\ kept s s' T T'.
Proof.
  intros Hinv HT Hl Hi Hc Hav. unfold descend, is_present. fold (entry (fa_mem s) f i).
  assert (Hnext : forall s' T' g, pt_inv s' root T' -> T' g = Some (Nat.pred l, p * 512 + i) ->
    pe_frame (entry (fa_mem s') f i) = g ->
    next_of (hhdm := hhdm) (fa_mem s') (f + hhdm) i = g + hhdm).
  { intros s' T' g Hinv' HTg <-. destruct (pi_frame _ _ _ Hinv' _ _ _ HTg) as [_ Hfr].
    destruct (fa_frame_ok _ _ (pi_ok _ _ _ Hinv') Hfr) as (H1 & _ & H2 & H3 & _).
    unfold next_of, phys_to_virt. fold (entry (fa_mem s') f i). rewrite u64_small by lia. done. }
  destruct (truthy (pe_present (entry (fa_mem s) f i))) eqn:Ep; cbn [negb mbind option_bind].
  - pose proof (pi_next _ _ _ Hinv f l p i HT Hl Hi Ep) as Hn. eexists s, _, T.
    rewrite (Hnext s T _ Hinv Hn eq_refl). split_and_all; [done|done|done|lia|intros h x Hh; exact Hh|done|apply kept_refl].
  - destruct Hc as [Hc|[g Hg]].
    2: { exfalso. by apply (absent_uncovered s root T f l p i Hinv HT Hl Hi Ep g). }
    destruct (fa_avail s) as [|n'] eqn:Ea; [lia|].
    destruct (allocateEntry_ok s root T f l p i Hinv HT Hl Hi Ep n' Ea) as (s' & g & -> & Had & Hav' & Hk).
    cbn [mbind option_bind]. set (T' := tab_add T g (Nat.pred l, p * 512 + i)) in *.
    pose proof (added_inv s root T f l p i Hinv HT Hl Hi Ep s' g Had) as Hinv'.
    assert (HTg : T' g = Some (Nat.pred l, p * 512 + i)) by (unfold T', tab_add; by rewrite Z.eqb_refl).
    exists s', g, T'. rewrite (Hnext s' T' g Hinv' HTg (ad_phys _ _ _ _ _ _ Had)).
    split_and_all; try done; [lia|intros h x Hh; eapply tab_add_old; [..|exact Hh]; eauto using ad_new|].
    intros va. by eapply added_walk.
Qed.

(** Writing a leaf entry. *)
Lemma set_leaf s root T f p i flags pa :
  pt_inv s root T -> T f = Some (1%nat, p) -> 0 <= i < 512 ->
  let s' := fa_upd s (setPageTableEntry (fa_mem s) (entry_at (f + hhdm) i) flags pa 0) in
  pt_inv s' root T /\ fa_avail s' = fa_avail s /\ kept s s' T T /\
  forall va, walk (fa_mem s') 4 root va =
    if vpn va =? p * 512 + i
    then if truthy (flags mod 2) then u64 ((((pa >>> 12) mod 2 ^ 40) <<< 12) mod 2 ^ 40 + (va &&& 4095)) else 0
    else walk (fa_mem s) 4 root va.
Proof.
  intros Hinv HT Hi s'. destruct (pi_frame _ _ _ Hinv _ _ _ HT) as [_ Hff]. pose proof (pi_ok _ _ _ Hinv) as Hok.
  set (m' := setPageTableEntry (fa_mem s) (entry_at (f + hhdm) i) flags pa 0) in *.
  assert (Hout : forall x, x < f + hhdm \/ f + hhdm + 4096 <= x -> m' x = fa_mem s x).
  { intros x Hx. apply setPageTableEntry_out. unfold entry_at. lia. }
  assert (Hoe : forall h j, T h <> None -> 0 <= j < 512 -> (h, j) <> (f, i) -> entry m' h j = entry (fa_mem s) h j).
  { intros h j Hh Hj Hne. apply entry_set_other; [done|done|done|]. intros Hhf x Hx.
    apply (frames_apart s h f); try done. by eapply table_frame. }
  assert (Hlev : forall h j k q, T h = Some (k, q) -> (1 < k)%nat -> 0 <= j < 512 -> entry m' h j = entry (fa_mem s) h j).
  { intros h j k q Hh Hk Hj. apply Hoe; [congruence|done|]. intros [= -> _]. rewrite HT in Hh. injection Hh as <- _. lia. }
  assert (Hpriv : forall x, fa_private s x -> m' x = fa_mem s x).
  { intros x Hx. apply Hout. destruct (fa_frame_ok _ _ Hok Hff) as (_ & _ & _ & _ & Hp). specialize (Hp x).
    destruct (decide (f + hhdm <= x < f + hhdm + 4096)); [exfalso; tauto|lia]. }
  destruct (fa_ok_upd s m' Hok Hpriv) as (Hok' & Hfr' & Hav').
  assert (Hinv' : pt_inv s' root T).
  { destruct Hinv as [_ H2 H3 H4 H5 H6]. subst s'. constructor; rewrite ?fa_mem_upd; try done.
    - intros h k q Hh. destruct (H3 h k q Hh). split; [done|by apply Hfr'].
    - intros h k q j Hh Hk Hj. rewrite (Hlev h j k q) by done. by apply H4.
    - intros h k q Hh Hk. destruct (H6 h k q Hh Hk) as (f' & HT' & Hp). exists f'. split; [done|].
      destruct (H3 _ _ _ Hh). rewrite (Hlev f' _ _ _ HT') by (lia || apply Z.mod_pos_bound; lia). done. }
  split_and_all; [done|done| |].
  - intros h Hh HTh. split_and_all; [by apply Hfr'|done|]. intros x Hx. subst s'. rewrite fa_mem_upd.
    apply Hout. assert (h <> f) by congruence. by apply (frames_apart s h f).
  - intros va. change (vpn va) with (pre 0 va). rewrite (pre_step 0) by lia.
    destruct (pre 1 va * 512 + idx 1 va =? p * 512 + i) eqn:E; bool_to_prop.
    + pose proof (idx_range 1 va). assert (Ep : pre 1 va = p /\ idx 1 va = i) by lia. destruct Ep as [Ep Ei].
      rewrite (walk_reach s' root T va 3 1 f Hinv'); [|lia|lia|by rewrite Ep]. cbn [walk]. rewrite Ei.
      subst s'. rewrite fa_mem_upd. unfold m'. rewrite (entry_set_same (fa_mem s) f i flags pa). unfold pe_frame.
      destruct (pte_value_fields (entry (fa_mem s) f i) flags pa) as (-> & -> & _). done.
    + apply (walk_same s root T); [done|rewrite pre_4; apply (pi_root _ _ _ Hinv)|lia|].
      intros h k Hk Hh. subst s'. rewrite fa_mem_upd. apply Hoe; [congruence|apply idx_range|].
      intros [= -> Ei]. rewrite HT in Hh. injection Hh as <- Ep. congruence.
Qed.

(** One page; [c3], [c2] and [c1] are the frames its tables may take. *)
Lemma map_one_ok s root T vir phy flags n (c3 c2 c1 : nat) :
  pt_inv s root T ->
  (1 <= c3)%nat \/ covered T 3 (pre 3 vir) -> (1 <= c2)%nat \/ covered T 2 (pre 2 vir) ->
  (1 <= c1)%nat \/ covered T 1 (pre 1 vir) -> (c3 + c2 + c1 + n <= fa_avail s)%nat ->
  exists s' T', map_one (root + hhdm) s vir phy flags = Some s' /\ pt_inv s' root T' /\
    (n <= fa_avail s')%nat /\ extends T T' /\ (forall l, (1 <= l <= 3)%nat -> covered T' l (pre l vir)) /\
    kept s s' T T' /\
    forall va, walk (fa_mem s') 4 root va =
      if vpn va =? vpn vir
      then if truthy (flags mod 2) then u64 ((((phy >>> 12) mod 2 ^ 40) <<< 12) mod 2 ^ 40 + (va &&& 4095)) else 0
      else walk (fa_mem s) 4 root va.
Proof.
  intros Hinv Hc3 Hc2 Hc1 Hav. unfold map_one. cbv zeta.
  change ((vir >>> 39) &&& 511) with (idx 4 vir). change ((vir >>> 30) &&& 511) with (idx 3 vir).
  change ((vir >>> 21) &&& 511) with (idx 2 vir). change ((vir >>> 12) &&& 511) with (idx 1 vir).
  assert (E3 : pre 3 vir = 0 * 512 + idx 4 vir) by (rewrite (pre_step 3), pre_4 by lia; lia).
  destruct (descend_ok s root T root 4 0 (idx 4 vir) (c2 + c1 + n) c3 Hinv (pi_root _ _ _ Hinv) ltac:(lia) (idx_range _ _)
    ltac:(rewrite <- E3; exact Hc3) ltac:(lia))
    as (s1 & f3 & T1 & -> & Hinv1 & HT3 & Hav1 & Hx1 & Hw1 & Hk1). cbn [mbind option_bind Nat.pred] in *.
  rewrite <- E3 in HT3. pose proof (pre_step 2 vir ltac:(lia)) as E2. pose proof (pre_step 1 vir ltac:(lia)) as E1.
  destruct (descend_ok s1 root T1 f3 3 _ (idx 3 vir) (c1 + n) c2 Hinv1 HT3 ltac:(lia) (idx_range _ _)
    ltac:(rewrite <- E2; destruct Hc2; [auto|right; by eapply covered_extends]) ltac:(lia))
    as (s2 & f2 & T2 & -> & Hinv2 & HT2 & Hav2 & Hx2 & Hw2 & Hk2). cbn [mbind option_bind Nat.pred] in *.
  rewrite <- E2 in HT2. assert (Hx02 : extends T T2) by (by eapply extends_trans).
  destruct (descend_ok s2 root T2 f2 2 _ (idx 2 vir) n c1 Hinv2 HT2 ltac:(lia) (idx_range _ _)
    ltac:(rewrite <- E1; destruct Hc1; [auto|right; by eapply covered_extends]) ltac:(lia))
    as (s3 & f1 & T3 & -> & Hinv3 & HT1 & Hav3 & Hx3 & Hw3 & Hk3). cbn [mbind option_bind Nat.pred] in *.
  destruct (set_leaf s3 root T3 f1 _ (idx 1 vir) flags phy Hinv3 HT1 (idx_range _ _)) as (Hinv4 & Hav4 & Hk4 & Hw4).
  eexists _, T3. split; [reflexivity|]. split; [exact Hinv4|]. split; [lia|]. split; [by eapply extends_trans|]. split_and_all.
  - intros l Hl. assert (Hl3 : l = 3%nat \/ l = 2%nat \/ l = 1%nat) by lia. destruct Hl3 as [->|[->| ->]].
    + exists f3. by apply Hx3, Hx2.
    + exists f2. by apply Hx3.
    + exists f1. by rewrite E1.
  - eapply kept_trans, Hk4. eapply kept_trans, Hk3. eapply kept_trans; eassumption.
  - intros va. rewrite Hw4, Hw3, Hw2, Hw1. f_equal. f_equal. change (vpn vir) with (pre 0 vir).
    rewrite (pre_step 0 vir), E1 by lia. lia.
Qed.
End Tables.

Section MapPage.
Context {hhdm : Z} {St : Type} `{FA : FrameAllocator hhdm St}.

(** The position of an address in the range of pages that starts at [virt]. *)
Definition page_pos (virt va : Z) : Z := (vpn va - vpn virt) mod 2 ^ 36.

Lemma vpn_step virt i va :
  0 <= i < 2 ^ 36 -> virt mod 4096 = 0 ->
  (vpn va =? vpn (virt + i * 4096)) = (page_pos virt va =? i).
Proof.
  intros Hi Ha. unfold page_pos, vpn. rewrite !shiftr_div by lia. change (2 ^ 12) with 4096.
  rewrite Z.div_add by lia. change (2 ^ 36) with 68719476736 in *.
  set (a := va / 4096). set (b := virt / 4096). apply eq_true_iff_eq. rewrite !Z.eqb_eq. wrap_lia.
Qed.

(** Page tables that a range of [num] pages from page number [q] needs on level [l]. *)
Definition span (q num : Z) (l : nat) : Z := (q + num - 1) / 512 ^ Z.of_nat l - q / 512 ^ Z.of_nat l.

Definition tables_needed (virt num : Z) : Z :=
  let q := virt / 4096 in (span q num 1 + 1) + (span q num 2 + 1) + (span q num 3 + 1).

Lemma pre_page l virt i :
  (l <= 3)%nat -> pre l (virt + i * 4096) = ((virt / 4096 + i) / 512 ^ Z.of_nat l) mod 2 ^ (36 - 9 * Z.of_nat l).
Proof.
  intros Hl. unfold pre. rewrite <- (Z.shiftr_shiftr _ 12) by lia. rewrite !shiftr_div by lia.
  change (2 ^ 12) with 4096. rewrite Z.div_add by lia. f_equal. f_equal.
  rewrite Z.pow_mul_r by lia. done.
Qed.

(** Either the table of the next page is the one of this page, or one fewer is
    left to pay for. *)
Lemma next_span T q num i (l : nat) virt :
  (1 <= l <= 3)%nat -> q = virt / 4096 -> covered T l (pre l (virt + i * 4096)) ->
  exists c : nat, ((1 <= c)%nat \/ covered T l (pre l (virt + (i + 1) * 4096))) /\
    Z.of_nat c + span (q + (i + 1)) (num - (i + 1)) l <= span (q + i) (num - i) l.
Proof.
  intros Hl -> Hc. unfold span. rewrite !pre_page in * by lia.
  set (d := 512 ^ Z.of_nat l) in *. assert (Hd : 0 < d) by (apply Z.pow_pos_nonneg; lia).
  replace (virt / 4096 + (i + 1) + (num - (i + 1)) - 1) with (virt / 4096 + num - 1) by lia.
  replace (virt / 4096 + i + (num - i) - 1) with (virt / 4096 + num - 1) by lia.
  set (b := virt / 4096) in *. assert (Hle : (b + i) / d <= (b + (i + 1)) / d) by (apply Z.div_le_mono; lia).
  destruct (decide ((b + (i + 1)) / d = (b + i) / d)) as [E|E].
  - exists 0%nat. split; [right; by rewrite E|lia].
  - exists 1%nat. split; [by left|lia].
Qed.

Lemma map_page_ok s root T virt phys flags num :
  pt_inv s root T -> 0 < num <= 2 ^ 36 -> tables_needed virt num <= Z.of_nat (fa_avail s) ->
  0 <= virt -> virt + num * 4096 <= 2 ^ 64 -> virt mod 4096 = 0 ->
  0 <= phys -> phys + num * 4096 <= 2 ^ 40 -> phys mod 4096 = 0 -> flags mod 2 = 1 ->
  exists s' T', map_page (root + hhdm) s virt phys flags num = Some s' /\ pt_inv s' root T' /\ kept s s' T T' /\
    (Z.of_nat (fa_avail s) - tables_needed virt num <= Z.of_nat (fa_avail s')) /\
    forall va, walk (hhdm := hhdm) (fa_mem s') 4 root va =
      if page_pos virt va <? num then phys + page_pos virt va * 4096 + va mod 4096
      else walk (hhdm := hhdm) (fa_mem s) 4 root va.
Proof.
  intros Hinv Hn Hav Hv1 Hv2 Hv3 Hp1 Hp2 Hp3 Hfl. unfold map_page. set (q := virt / 4096).
  set (spare := Z.of_nat (fa_avail s) - tables_needed virt num).
  pose proof (floop_inv (fun i os => exists s' T', os = Some s' /\ pt_inv s' root T' /\ kept s s' T T' /\
      (i <= num) /\ (spare <= Z.of_nat (fa_avail s')) /\
      (i < num -> exists c3 c2 c1 : nat,
        ((1 <= c3)%nat \/ covered T' 3 (pre 3 (virt + i * 4096))) /\
        ((1 <= c2)%nat \/ covered T' 2 (pre 2 (virt + i * 4096))) /\
        ((1 <= c1)%nat \/ covered T' 1 (pre 1 (virt + i * 4096))) /\
        Z.of_nat c3 + span (q + i) (num - i) 3 + (Z.of_nat c2 + span (q + i) (num - i) 2) +
          (Z.of_nat c1 + span (q + i) (num - i) 1) + spare <= Z.of_nat (fa_avail s')) /\
      forall va, walk (hhdm := hhdm) (fa_mem s') 4 root va =
        if page_pos virt va <? i then phys + page_pos virt va * 4096 + va mod 4096
        else walk (hhdm := hhdm) (fa_mem s) 4 root va)
    (fun i os => s ← os; map_one (root + hhdm) s (u64 (virt + i * 4096)) (u64 (phys + i * 4096)) flags)
    (Z.to_nat num) 0 (Some s)) as HL.
  assert (Hsp : forall i l, (l <= 3)%nat -> i < num -> 0 <= span (q + i) (num - i) l).
  { intros i l Hl Hi. unfold span. assert ((q + i) / 512 ^ Z.of_nat l <= (q + i + (num - i) - 1) / 512 ^ Z.of_nat l); [|lia].
    apply Z.div_le_mono; [apply Z.pow_pos_nonneg; lia|lia]. }
  destruct HL as (s' & T' & E & Hi' & Hk & _ & Hsp' & _ & Hw).
  - exists s, T. split_and_all; [done|done|apply kept_refl|lia| | |].
    + pose proof (Hsp 0 1%nat ltac:(lia) ltac:(lia)). pose proof (Hsp 0 2%nat ltac:(lia) ltac:(lia)).
      pose proof (Hsp 0 3%nat ltac:(lia) ltac:(lia)). rewrite Z.add_0_r, Z.sub_0_r in *.
      unfold spare, tables_needed. cbv zeta. fold q. lia.
    + intros _. exists 1%nat, 1%nat, 1%nat. rewrite (Z.add_0_r q), Z.sub_0_r. unfold spare, tables_needed. cbv zeta. fold q.
      split_and_all; [by left|by left|by left|lia].
    + intros va. rewrite (proj2 (Z.ltb_ge _ _)); [done|]. unfold page_pos. apply Z.mod_pos_bound. lia.
  - intros i os Hi (s1 & T1 & -> & Hi1 & Hk1 & _ & _ & Hc & Hw1). cbn [mbind option_bind].
    destruct (Hc ltac:(lia)) as (c3 & c2 & c1 & Hc3 & Hc2 & Hc1 & Hcost).
    pose proof (Hsp i 1%nat ltac:(lia) ltac:(lia)). pose proof (Hsp i 2%nat ltac:(lia) ltac:(lia)).
    pose proof (Hsp i 3%nat ltac:(lia) ltac:(lia)). rewrite !u64_small by lia.
    destruct (map_one_ok s1 root T1 (virt + i * 4096) (phys + i * 4096) flags (fa_avail s1 - (c3 + c2 + c1))%nat c3 c2 c1 Hi1 Hc3 Hc2 Hc1)
      as (s2 & T2 & -> & Hi2 & Hav2 & Hx2 & Hcov & Hk2 & Hw2); [lia|].
    exists s2, T2. split_and_all; [done|done|by eapply kept_trans|lia|lia| |].
    + intros Hlt.
      destruct (next_span T2 q num i 3 virt ltac:(lia) eq_refl (Hcov 3%nat ltac:(lia))) as (d3 & Hd3 & Hs3).
      destruct (next_span T2 q num i 2 virt ltac:(lia) eq_refl (Hcov 2%nat ltac:(lia))) as (d2 & Hd2 & Hs2).
      destruct (next_span T2 q num i 1 virt ltac:(lia) eq_refl (Hcov 1%nat ltac:(lia))) as (d1 & Hd1 & Hs1).
      exists d3, d2, d1. split_and_all; [done|done|done|lia].
    + intros va. rewrite Hw2, Hw1, Hfl. rewrite vpn_step by (done || lia). set (k := page_pos virt va).
      assert (Hk0 : 0 <= k) by (unfold k, page_pos; apply Z.mod_pos_bound; lia). cbn [truthy negb Z.eqb].
      destruct (k =? i) eqn:Ek; bool_to_prop; [|replace (k <? i + 1) with (k <? i) by lia; done].
      rewrite (proj2 (Z.ltb_lt k (i + 1))), Ek by lia.
      rewrite frame_back by wrap_lia. change 4095 with (2 ^ 12 - 1). rewrite land_mod by lia.
      change (2 ^ 12) with 4096. rewrite u64_small by wrap_lia. lia.
  - rewrite Z.add_0_l, Z2Nat.id in Hw by lia. exists s', T'. done.
Qed.

(** C13: [map_page] builds the mapping it is asked for and disturbs no other.  On
    well-formed page tables, with a free frame for every table the range spans and a physical
    range below 1 TiB (see [addresses_above_1TiB_lost]), it returns, the tables stay well formed, and afterwards [getPhysicalAddress]
    translates every address of the range to its place in the physical range and
    every other address as before; the pages of frames that are not tables keep
    their bytes. *)
Theorem map_page_maps_range (s : St) (root : Z) (T : ptmap) (virt phys flags num : Z) :
  pt_inv s root T -> 0 < num <= 2 ^ 36 -> tables_needed virt num <= Z.of_nat (fa_avail s) ->
  0 <= virt -> virt + num * 4096 <= 2 ^ 64 -> virt mod 4096 = 0 ->
  0 <= phys -> phys + num * 4096 <= 2 ^ 40 -> phys mod 4096 = 0 -> flags mod 2 = 1 ->
  exists s' T', map_page (root + hhdm) s virt phys flags num = Some s' /\
    pt_inv s' root T' /\ kept s s' T T' /\
    forall va, getPhysicalAddress (hhdm := hhdm) (fa_mem s') (root + hhdm) va =
      if page_pos virt va <? num then phys + page_pos virt va * 4096 + va mod 4096
      else getPhysicalAddress (hhdm := hhdm) (fa_mem s) (root + hhdm) va.
Proof.
  intros Hinv Hn Hav Hv1 Hv2 Hv3 Hp1 Hp2 Hp3 Hfl.
  destruct (map_page_ok s root T virt phys flags num) as (s' & T' & E & Hi & Hk & _ & Hw); try done.
  exists s', T'. split_and_all; try done. intros va.
  rewrite (getPhysicalAddress_walk s' root T'), (getPhysicalAddress_walk s root T) by done. apply Hw.
Qed.

(** The tables [initPML4] starts from: one empty page. *)
Definition root_only (root : Z) : ptmap := tab_add (fun _ => None) root (4%nat, 0).

Lemma empty_root s n :
  fa_ok s -> fa_avail s = S n ->
  exists s1 root, fa_alloc s = Some (s1, root) /\ phys_to_virt (hhdm := hhdm) root = root + hhdm /\
    let s2 := fa_upd s1 (memset (fa_mem s1) (root + hhdm) 0 4096) in
    pt_inv s2 root (root_only root) /\ fa_avail s2 = n /\
    forall va, walk (hhdm := hhdm) (fa_mem s2) 4 root va = 0.
Proof.
  intros Hok Hav. destruct (fa_alloc_ok s n Hok Hav) as (s1 & g & Ea & Hok1 & Hg0 & Hav1 & Hng & Hfr1 & Hpr1 & Hm1).
  exists s1, g. pose proof (proj2 (Hfr1 g) (or_introl eq_refl)) as Hgf.
  destruct (fa_frame_ok _ _ Hok1 Hgf) as (_ & _ & Hg3 & Hg4 & Hgp).
  split; [done|]. split; [unfold phys_to_virt; rewrite u64_small; lia|]. cbv zeta.
  set (m2 := memset (fa_mem s1) (g + hhdm) 0 4096).
  assert (Hz : forall i, 0 <= i < 512 -> entry (hhdm := hhdm) m2 g i = 0).
  { intros i Hi. unfold entry, entry_at. apply ldn_zero. intros x Hx. unfold m2. rewrite memset_at by lia.
    by rewrite (proj2 (andb_true_iff _ _)) by lia. }
  assert (Hpriv : forall x, fa_private s1 x -> m2 x = fa_mem s1 x).
  { intros x Hx. unfold m2. rewrite memset_at by lia.
    destruct ((g + hhdm <=? x) && (x <? g + hhdm + 4096)) eqn:E; [|reflexivity].
    exfalso. apply (Hgp x); [lia|exact Hx]. }
  destruct (fa_ok_upd s1 m2 Hok1 Hpriv) as (Hok2 & Hfr2 & Hav2).
  assert (HT : forall h x, root_only g h = Some x -> h = g /\ x = (4%nat, 0)).
  { intros h x. unfold root_only, tab_add. destruct (h =? g) eqn:E; bool_to_prop; [|discriminate]. intros [= <-]. auto. }
  split; [|split].
  - constructor; rewrite ?fa_mem_upd.
    + exact Hok2.
    + unfold root_only, tab_add. by rewrite Z.eqb_refl.
    + intros h l p [-> [= -> ->]]%HT. split; [lia|by apply Hfr2].
    + intros h l p i [-> [= -> ->]]%HT _ Hi. rewrite Hz by lia. discriminate.
    + intros h1 h2 l p [-> _]%HT [-> _]%HT. reflexivity.
    + intros h k q [-> [= -> ->]]%HT Hk. lia.
  - congruence.
  - intros va. rewrite fa_mem_upd. cbn [walk]. rewrite Hz by apply idx_range. reflexivity.
Qed.
End MapPage.

(** ** Address conversion and entry flags *)

(** The direct map is inverted correctly: [virt_to_phys] takes back every
    address [phys_to_virt] makes.  But every address from [hhdm] on is treated as
    one of the direct map: with the kernel linked above the direct map, as it is,
    the branch for the kernel image is never taken and a kernel address converts to
    its offset from [hhdm], not to its load address. *)
Theorem virt_to_phys_inverts_direct_map (hhdm : Z) (m : mem) (PML4 : Z) (k : kernel_addr) :
  0 <= hhdm ->
  (forall phys, 0 <= phys -> hhdm + phys < 2 ^ 64 ->
     virt_to_phys (hhdm := hhdm) m PML4 k (phys_to_virt (hhdm := hhdm) phys) = phys) /\
  (forall virt, hhdm <= virtual_base k <= virt -> virt < 2 ^ 64 ->
     virt_to_phys (hhdm := hhdm) m PML4 k virt = virt - hhdm).
Proof.
  intros Hh. unfold virt_to_phys, phys_to_virt. split.
  - intros phys Hp Hs. rewrite (u64_small (phys + hhdm)) by lia.
    rewrite (proj2 (Z.leb_le _ _)) by lia. rewrite u64_small by lia. lia.
  - intros virt Hv Hs. rewrite (proj2 (Z.leb_le hhdm virt)) by lia. rewrite u64_small by lia. done.
Qed.

Lemma virt_to_phys_inverts_direct_map_witness :
  virt_to_phys (hhdm := demo_hhdm) (fun _ => 0) 0 (KernelAddr 2097152 18446744071562067968)
    (phys_to_virt (hhdm := demo_hhdm) 4096) = 4096 /\
  virt_to_phys (hhdm := demo_hhdm) (fun _ => 0) 0 (KernelAddr 2097152 18446744071562067968)
    18446744071562067968 = 140735340871680.
Proof.
  destruct (virt_to_phys_inverts_direct_map demo_hhdm (fun _ => 0) 0 (KernelAddr 2097152 18446744071562067968))
    as [H1 H2]; [discriminate|]. split.
  - apply H1; [discriminate|reflexivity].
  - rewrite H2; [reflexivity| |reflexivity]. cbn. split; discriminate.
Defined.

(** What [setPageTableEntry] stores: present, writable and user as the flags
    say, the frame number of the physical address; but the flags are a [uint8_t], so
    the tests of bits 8 and 9 never hold and no entry is ever global or
    non-executable. *)
Theorem setPageTableEntry_stores (m : mem) (a flags pa : Z) :
  let e := ld64 (setPageTableEntry m a flags pa 0) a in
  pe_present e = flags mod 2 /\ pe_writable e = flag_bit (u8 flags) 2 /\
  pe_user_accessible e = flag_bit (u8 flags) 4 /\
  pe_physical_address e = (pa >>> 12) mod 2 ^ 40 /\ pe_global e = 0 /\ pe_no_execute e = 0.
Proof.
  cbv zeta. rewrite set_entry_same.
  destruct (pte_value_fields (ld64 m a) flags pa) as (-> & -> & -> & ->). split_and_all; try done.
  - unfold pte_value, pe_writable. cbv zeta. bf_simpl. apply Z.mod_small. apply flag_bit_range.
  - unfold pte_value, pe_user_accessible. cbv zeta. bf_simpl. apply Z.mod_small. apply flag_bit_range.
Qed.

(** The shift of the 40-bit field: whatever the tables hold, no address at or above 1 TiB is ever
    the answer of [getPhysicalAddress], so a page mapped there is translated to another one. *)
Theorem addresses_above_1TiB_lost (hhdm : Z) (m : mem) (PML4 va : Z) :
  0 <= getPhysicalAddress (hhdm := hhdm) m PML4 va < 2 ^ 40.
Proof.
  unfold getPhysicalAddress. cbv zeta. repeat (case_if; [lia|]).
  set (e := ld64 _ _). unfold pe_frame. change 4095 with (2 ^ 12 - 1). rewrite land_mod by lia. rewrite shiftl_mul by lia.
  change (2 ^ 12) with 4096. change (2 ^ 40) with 1099511627776. rewrite u64_small; wrap_lia.
Qed.

(** [map_page] does not look at the answer of [allocateEntry]: when the
    allocator is out of memory the entry stays absent and the walk goes on through
    whatever frame number the entry holds, frame 0 in an empty table. *)
Theorem failed_allocation_is_followed (hhdm : Z) (St : Type) (FA : FrameAllocator hhdm St)
    (s s1 : St) (table index : Z) :
  is_present (fa_mem s) table index = false -> fa_alloc s = Some (s1, 0) ->
  ld64 (fa_mem s1) (entry_at table index) = 0 ->
  descend s table index = Some (s1, u64 hhdm).
Proof.
  intros Hp Ha Hz. unfold descend, allocateEntry. rewrite Hp, Ha. cbn [negb mbind option_bind].
  rewrite Z.eqb_refl. cbn [mbind option_bind]. unfold next_of, phys_to_virt. by rewrite Hz.
Qed.

(** A machine with no free page: two pages, both taken. *)
Definition full_pmm : pmm := Pmm (fun _ => 255) 4096 8192 (4096 + demo_hhdm) 2 1 8192.

Lemma failed_allocation_is_followed_witness :
  exists s1 : pmm, descend (hhdm := demo_hhdm)
    (with_pmem full_pmm (fun x => if x =? 4096 + demo_hhdm then 255 else 0)) 65536 0 = Some (s1, demo_hhdm).
Proof.
  exists (with_pmem full_pmm (fun x => if x =? 4096 + demo_hhdm then 255 else 0)).
  rewrite (failed_allocation_is_followed demo_hhdm pmm (pmm_frames demo_hhdm) _
    (with_pmem full_pmm (fun x => if x =? 4096 + demo_hhdm then 255 else 0)) 65536 0); reflexivity.
Defined.
