(* ===== verification/PagingInit.v ===== *)
(** * The kernel's initial page tables

    [initPML4] of [src/src/mem/paging.c] on the memory map of the machine: the
    direct map and the kernel image are where the rest of the kernel expects
    them. *)

From S2P Require Import Prelude Mem CString Frames Pmm Paging.

(** The regions [map_all_mem] maps: all but reserved and bad memory. *)
Definition mappable (e : memmap_entry) : bool := negb ((me_type e =? 1) || (me_type e =? 4)).

Definition entry_pages (e : memmap_entry) : Z := (me_length e + 4095) / 4096.

Section Init.
Context {hhdm : Z} {St : Type} `{FA : FrameAllocator hhdm St}.
Hypothesis Hhh : 2 ^ 64 - 2 ^ 48 <= hhdm /\ hhdm mod 4096 = 0.

(** A page-aligned, non-empty region below 1 TiB whose direct map lies below [top]. *)
Definition entry_ok (top : Z) (e : memmap_entry) : Prop :=
  0 <= me_base e /\ me_base e mod 4096 = 0 /\ 0 < me_length e /\
  hhdm + me_base e + entry_pages e * 4096 <= top /\ me_base e + entry_pages e * 4096 <= 2 ^ 40.

Definition in_entry (e : memmap_entry) (p : Z) : Prop :=
  me_base e <= p < me_base e + entry_pages e * 4096.

Fixpoint frames_for (entries : list memmap_entry) : Z :=
  match entries with
  | [] => 0
  | e :: es => (if mappable e then tables_needed (me_base e + hhdm) (entry_pages e) else 0) + frames_for es
  end.

Lemma page_pos_high virt va :
  2 ^ 64 - 2 ^ 48 <= virt < 2 ^ 64 -> 2 ^ 64 - 2 ^ 48 <= va < 2 ^ 64 -> virt mod 4096 = 0 ->
  page_pos virt va = if virt <=? va then (va - virt) / 4096 else (va - virt) / 4096 + 2 ^ 36.
Proof.
  intros Hv Ha Hm. unfold page_pos, vpn. rewrite !shiftr_div by lia.
  change (2 ^ 12) with 4096. change (2 ^ 36) with 68719476736.
  change (2 ^ 64) with 18446744073709551616 in *. change (2 ^ 48) with 281474976710656 in *.
  case_if; wrap_lia.
Qed.

Lemma high_mod a : hhdm mod 4096 = 0 -> (a + hhdm) mod 4096 = a mod 4096.
Proof. intros H. rewrite <- Z.add_mod_idemp_r, H, Z.add_0_r by lia. done. Qed.

(** Where the address [hhdm + p] is in the range of an entry. *)
Lemma direct_pos top e p :
  entry_ok top e -> top <= 2 ^ 64 -> 0 <= p -> hhdm + p < 2 ^ 64 ->
  (page_pos (me_base e + hhdm) (hhdm + p) < entry_pages e <-> in_entry e p) /\
  (in_entry e p -> me_base e + page_pos (me_base e + hhdm) (hhdm + p) * 4096 + (hhdm + p) mod 4096 = p).
Proof.
  intros (H1 & H2 & H3 & H4) Ht Hp Hp2. destruct Hhh as [Hh1 Hh2].
  assert (Hpg : 0 < entry_pages e) by (unfold entry_pages; wrap_lia).
  pose proof (high_mod (me_base e) Hh2) as Hm. rewrite H2 in Hm.
  rewrite page_pos_high by (done || lia). unfold in_entry.
  replace (hhdm + p - (me_base e + hhdm)) with (p - me_base e) by lia.
  change (2 ^ 64) with 18446744073709551616 in *. change (2 ^ 48) with 281474976710656 in *.
  change (2 ^ 36) with 68719476736. case_if; wrap_lia.
Qed.

Lemma tables_needed_nonneg virt num : 0 < num -> 0 <= tables_needed virt num.
Proof.
  intros Hn. unfold tables_needed, span.
  assert (Hd : forall a d, 0 < d -> a / d <= (a + num - 1) / d) by (intros; apply Z.div_le_mono; lia).
  pose proof (Hd (virt / 4096) (512 ^ Z.of_nat 1) ltac:(lia)).
  pose proof (Hd (virt / 4096) (512 ^ Z.of_nat 2) ltac:(lia)).
  pose proof (Hd (virt / 4096) (512 ^ Z.of_nat 3) ltac:(lia)). lia.
Qed.

Lemma frames_for_nonneg top entries :
  Forall (fun e => mappable e = true -> entry_ok top e) entries -> 0 <= frames_for entries.
Proof.
  induction entries as [|e es IH]; cbn [frames_for]; [lia|]. intros [He Hes]%Forall_cons. specialize (IH Hes).
  destruct (mappable e); [|lia]. destruct (He eq_refl) as (_ & _ & Hl & _).
  assert (Hpg : 0 < entry_pages e) by (unfold entry_pages; wrap_lia).
  pose proof (tables_needed_nonneg (me_base e + hhdm) _ Hpg). lia.
Qed.

Lemma map_entries_ok entries top s root T n :
  pt_inv s root T -> top <= 2 ^ 64 -> Forall (fun e => mappable e = true -> entry_ok top e) entries ->
  frames_for entries + n <= Z.of_nat (fa_avail s) -> 0 <= n ->
  exists s' T', fold_left (fun os entry =>
        s ← os;
        if (me_type entry =? 1) || (me_type entry =? 4) then Some s
        else map_page (root + hhdm) s (u64 (me_base entry + hhdm)) (me_base entry)
               (KERNEL_PFLAG_PRESENT ||| KERNEL_PFLAG_WRITE)
               (u64 (me_length entry + PAGE_SIZE - 1) / PAGE_SIZE)) entries (Some s) = Some s' /\
    pt_inv s' root T' /\ kept s s' T T' /\ n <= Z.of_nat (fa_avail s') /\
    forall p, 0 <= p -> hhdm + p < 2 ^ 64 ->
      ((exists e, e ∈ entries /\ mappable e = true /\ in_entry e p) \/
       walk (hhdm := hhdm) (fa_mem s) 4 root (hhdm + p) = p ->
       walk (hhdm := hhdm) (fa_mem s') 4 root (hhdm + p) = p).
Proof.
  revert s T. induction entries as [|e es IH]; intros s T Hinv Ht Hok Hav Hn; cbn [fold_left frames_for] in *.
  - exists s, T. split_and_all; [done|done|apply kept_refl|lia|].
    intros p Hp1 Hp2 [(e & He & _)|H]; [by apply not_elem_of_nil in He|done].
  - apply Forall_cons in Hok as [He Hes]. cbn [mbind option_bind].
    unfold mappable in Hav at 1. destruct ((me_type e =? 1) || (me_type e =? 4)) eqn:Ee; cbn [negb] in Hav.
    { destruct (IH s T Hinv Ht Hes ltac:(lia) Hn) as (s' & T' & E & Hi & Hk & Ha & Hw).
      exists s', T'. split_and_all; [exact E|done|done|done|]. intros p Hp1 Hp2 H. apply Hw; [done|done|].
      destruct H as [(e' & He' & Hm & Hin)|H]; [|by right]. apply elem_of_cons in He' as [->|He']; [|eauto 10].
      unfold mappable in Hm. rewrite Ee in Hm. done. }
    assert (Hmp : mappable e = true) by (unfold mappable; by rewrite Ee). specialize (He Hmp).
    pose proof He as (H1 & H2 & H3 & H4). destruct Hhh as [Hh1 Hh2].
    assert (Hpg : 0 < entry_pages e <= 2 ^ 36).
    { unfold entry_pages in *. change (2 ^ 36) with 68719476736. change (2 ^ 64) with 18446744073709551616 in *.
      change (2 ^ 48) with 281474976710656 in *. wrap_lia. }
    assert (Hlen : me_length e <= entry_pages e * 4096) by (unfold entry_pages; wrap_lia).
    pose proof (high_mod (me_base e) Hh2) as Hbm.
    unfold PAGE_SIZE. rewrite (u64_small (me_base e + hhdm)), (u64_small (me_length e + 4096 - 1)) by lia.
    replace (me_length e + 4096 - 1) with (me_length e + 4095) by lia. fold (entry_pages e).
    pose proof (frames_for_nonneg top es Hes) as Hfr.
    destruct (map_page_ok s root T (me_base e + hhdm) (me_base e) (KERNEL_PFLAG_PRESENT ||| KERNEL_PFLAG_WRITE) (entry_pages e))
      as (s1 & T1 & -> & Hi1 & Hk1 & Hav1 & Hw1); try done; try lia.
    destruct (IH s1 T1 Hi1 Ht Hes ltac:(lia) Hn) as (s' & T' & E & Hi & Hk & Ha & Hw).
    exists s', T'. split_and_all; [exact E|done|by eapply kept_trans|done|].
    intros p Hp1 Hp2 H. apply Hw; [done|done|]. destruct (direct_pos top e p He Ht Hp1 Hp2) as [Hd1 Hd2].
    destruct (decide (in_entry e p)) as [Hin|Hnin].
    { right. rewrite Hw1, (proj2 (Z.ltb_lt _ _)) by (by apply Hd1). by apply Hd2. }
    destruct H as [(e' & He' & Hm & Hin)|H].
    + apply elem_of_cons in He' as [->|He']; [done|]. left. eauto.
    + right. rewrite Hw1, (proj2 (Z.ltb_ge _ _)); [done|]. apply Z.le_ngt. by rewrite Hd1.
Qed.

(** The kernel image: two page-aligned ranges at the top of the address space, loaded below 1 TiB. *)
Record image_ok (k : kernel_addr) (ro rw fin : Z) : Prop := {
  im_range : 2 ^ 64 - 2 ^ 48 <= ro /\ ro < rw /\ rw < fin /\ fin <= 2 ^ 64 - 4096;
  im_align : ro mod 4096 = 0 /\ rw mod 4096 = 0;
  im_phys : 0 <= physical_base k /\ physical_base k mod 4096 = 0 /\ virtual_base k mod 4096 = 0 /\
            0 <= physical_base k + (ro - virtual_base k) /\ physical_base k <= virtual_base k < 2 ^ 64 /\
            physical_base k + (fin + 4095 - virtual_base k) <= 2 ^ 40 }.

Definition ro_pages (ro rw : Z) : Z := (rw - ro + 4095) / 4096.
Definition rw_pages (rw fin : Z) : Z := (fin - rw + 4095) / 4096.

Lemma range_pos virt n va :
  2 ^ 64 - 2 ^ 48 <= virt -> virt mod 4096 = 0 -> virt + n * 4096 <= 2 ^ 64 -> 0 < n ->
  2 ^ 64 - 2 ^ 48 <= va < 2 ^ 64 ->
  (page_pos virt va < n <-> virt <= va < virt + n * 4096) /\
  (virt <= va -> page_pos virt va * 4096 + va mod 4096 = va - virt).
Proof.
  intros H1 H2 H3 Hn Hva. rewrite page_pos_high by (done || lia).
  change (2 ^ 64) with 18446744073709551616 in *. change (2 ^ 48) with 281474976710656 in *.
  change (2 ^ 36) with 68719476736. case_if; wrap_lia.
Qed.

Lemma map_kernel_ok s root T k ro rw fin :
  pt_inv s root T -> image_ok k ro rw fin ->
  tables_needed ro (ro_pages ro rw) + tables_needed rw (rw_pages rw fin) <= Z.of_nat (fa_avail s) ->
  exists s' T', map_kernel (root + hhdm) s k ro rw fin = Some s' /\ pt_inv s' root T' /\ kept s s' T T' /\
    forall va, 2 ^ 64 - 2 ^ 48 <= va < 2 ^ 64 ->
      walk (hhdm := hhdm) (fa_mem s') 4 root va =
        if (ro <=? va) && (va <? rw + rw_pages rw fin * 4096)
        then physical_base k + (va - virtual_base k) else walk (hhdm := hhdm) (fa_mem s) 4 root va.
Proof.
  intros Hinv [(H1 & H2 & H3 & H4) (H5 & H6) (H7 & H8 & H9 & H10 & H11 & H12)] Hav. unfold map_kernel, PAGE_SIZE. cbv zeta.
  pose proof (tables_needed_nonneg rw (rw_pages rw fin) ltac:(unfold rw_pages; wrap_lia)) as Hnn.
  change (2 ^ 64) with 18446744073709551616 in *. change (2 ^ 48) with 281474976710656 in *.
  change (2 ^ 40) with 1099511627776 in *.
  rewrite (u64_small (virtual_base k - physical_base k)) by lia.
  rewrite (u64_small (ro - _)), (u64_small (rw - (virtual_base k - _))), (u64_small (rw - ro + 4096 - 1)),
    (u64_small (fin - rw + 4096 - 1)) by lia.
  replace (rw - ro + 4096 - 1) with (rw - ro + 4095) by lia.
  replace (fin - rw + 4096 - 1) with (fin - rw + 4095) by lia.
  fold (ro_pages ro rw) (rw_pages rw fin).
  assert (Er : ro_pages ro rw * 4096 = rw - ro) by (unfold ro_pages; wrap_lia).
  assert (Ew : fin - rw <= rw_pages rw fin * 4096 <= fin - rw + 4095) by (unfold rw_pages; wrap_lia).
  assert (Hm : forall x, x mod 4096 = 0 -> (x - (virtual_base k - physical_base k)) mod 4096 = 0).
  { intros x Hx. wrap_lia. }
  destruct (map_page_ok s root T ro (ro - (virtual_base k - physical_base k)) KERNEL_PFLAG_PRESENT (ro_pages ro rw))
    as (s1 & T1 & -> & Hi1 & Hk1 & Hav1 & Hw1); try done; try lia; [by apply Hm|]. cbn [mbind option_bind].
  destruct (map_page_ok s1 root T1 rw (rw - (virtual_base k - physical_base k)) (KERNEL_PFLAG_PRESENT ||| KERNEL_PFLAG_WRITE) (rw_pages rw fin))
    as (s2 & T2 & -> & Hi2 & Hk2 & Hav2 & Hw2); try done; try lia; [by apply Hm|].
  exists s2, T2. split_and_all; [done|done|by eapply kept_trans|]. intros va Hva. rewrite Hw2, Hw1.
  destruct (range_pos ro (ro_pages ro rw) va) as [Hp1 Hv1]; try lia.
  destruct (range_pos rw (rw_pages rw fin) va) as [Hp2 Hv2]; try lia.
  destruct (page_pos rw va <? rw_pages rw fin) eqn:E2; bool_to_prop.
  { rewrite Hp2 in E2. rewrite (proj2 (andb_true_iff _ _)) by lia. specialize (Hv2 ltac:(lia)). lia. }
  destruct (page_pos ro va <? ro_pages ro rw) eqn:E1; bool_to_prop.
  { rewrite Hp1 in E1. rewrite (proj2 (andb_true_iff _ _)) by lia. specialize (Hv1 ltac:(lia)). lia. }
  rewrite (proj2 (andb_false_iff _ _)); [done|].
  assert (~ ro <= va < ro + ro_pages ro rw * 4096) by (rewrite <- Hp1; lia).
  assert (~ rw <= va < rw + rw_pages rw fin * 4096) by (rewrite <- Hp2; lia). lia.
Qed.

(** [initPML4] on a machine with enough frames. *)
Lemma initPML4_ok (s : St) (entries : list memmap_entry) (k : kernel_addr) (ro rw fin : Z) :
  fa_ok s -> Forall (fun e => mappable e = true -> entry_ok ro e) entries -> image_ok k ro rw fin ->
  1 + frames_for entries + tables_needed ro (ro_pages ro rw) + tables_needed rw (rw_pages rw fin)
    <= Z.of_nat (fa_avail s) ->
  exists s' root T, initPML4 s entries k ro rw fin = Some (s', root + hhdm, root) /\ pt_inv s' root T /\
    (forall e p, e ∈ entries -> mappable e = true -> in_entry e p ->
       getPhysicalAddress (hhdm := hhdm) (fa_mem s') (root + hhdm) (hhdm + p) = p) /\
    (forall va, ro <= va < fin ->
       getPhysicalAddress (hhdm := hhdm) (fa_mem s') (root + hhdm) va = physical_base k + (va - virtual_base k)).
Proof.
  intros Hok Hent Him Hav. pose proof Him as [(H1 & H2 & H3 & H4) _ _]. destruct Hhh as [Hh1 Hh2].
  pose proof (tables_needed_nonneg ro (ro_pages ro rw) ltac:(unfold ro_pages; wrap_lia)) as Hn1.
  pose proof (tables_needed_nonneg rw (rw_pages rw fin) ltac:(unfold rw_pages; wrap_lia)) as Hn2.
  pose proof (frames_for_nonneg ro entries Hent) as Hn3.
  destruct (fa_avail s) as [|n] eqn:Ea; [cbn in Hav; lia|].
  destruct (empty_root s n Hok Ea) as (s1 & root & E1 & Ep & Hi1 & Hav1 & _).
  unfold initPML4. rewrite E1. cbn [mbind option_bind]. rewrite Ep. unfold PAGE_SIZE at 1.
  set (s2 := fa_upd s1 _) in *. unfold map_all_mem.
  destruct (map_entries_ok entries ro s2 root (root_only root)
    (tables_needed ro (ro_pages ro rw) + tables_needed rw (rw_pages rw fin)) Hi1 ltac:(lia) Hent ltac:(lia) ltac:(lia))
    as (s3 & T3 & -> & Hi3 & _ & Hav3 & Hw3). cbn [mbind option_bind].
  destruct (map_kernel_ok s3 root T3 k ro rw fin Hi3 Him ltac:(lia)) as (s4 & T4 & -> & Hi4 & _ & Hw4).
  cbn [mbind option_bind]. exists s4, root, T4. split_and_all; [done|done| |].
  - intros e p He Hm Hin. rewrite (getPhysicalAddress_walk s4 root T4 _ Hi4).
    rewrite Forall_forall in Hent. pose proof (Hent e He Hm) as (Hb1 & _ & _ & Hb4). unfold in_entry in Hin.
    rewrite Hw4 by lia. rewrite (proj2 (andb_false_iff _ _)) by lia. apply Hw3; [lia|lia|]. left. eauto.
  - intros va Hva. rewrite (getPhysicalAddress_walk s4 root T4 _ Hi4). rewrite Hw4 by lia.
    assert (fin - rw <= rw_pages rw fin * 4096) by (unfold rw_pages; wrap_lia).
    by rewrite (proj2 (andb_true_iff _ _)) by lia.
Qed.

(** C15: [initPML4] builds the address space the kernel relies on.  With regions and an image below
    1 TiB and a frame for every table the memory map and the kernel image span, it returns; then the
    direct map takes [hhdm + p] to [p] for every physical address [p] of a region
    that is neither reserved nor bad, every address of the kernel image goes to its
    load address, and [cr3] is the frame of the table returned. *)
Theorem initPML4_maps_memory_and_kernel (s : St) (entries : list memmap_entry) (k : kernel_addr) (ro rw fin : Z) :
  fa_ok s -> Forall (fun e => mappable e = true -> entry_ok ro e) entries -> image_ok k ro rw fin ->
  1 + frames_for entries + tables_needed ro (ro_pages ro rw) + tables_needed rw (rw_pages rw fin)
    <= Z.of_nat (fa_avail s) ->
  exists s' root T, initPML4 s entries k ro rw fin = Some (s', root + hhdm, root) /\ pt_inv s' root T /\
    (forall e p, e ∈ entries -> mappable e = true -> in_entry e p ->
       getPhysicalAddress (hhdm := hhdm) (fa_mem s') (root + hhdm) (hhdm + p) = p) /\
    (forall va, ro <= va < fin ->
       getPhysicalAddress (hhdm := hhdm) (fa_mem s') (root + hhdm) va = physical_base k + (va - virtual_base k)).
Proof. exact (initPML4_ok s entries k ro rw fin). Qed.
End Init.

(** ** Witnesses, on the machine of [Pmm.demo_map] *)

Lemma demo_avail : free_pages demo_pmm = 255%nat.
Proof. vm_compute. reflexivity. Qed.

(** A table with only its root: one page at 2 MiB. *)
Lemma map_page_maps_range_witness :
  exists (s s' : pmm) root, map_page (hhdm := demo_hhdm) (root + demo_hhdm) s 2097152 4096 3 1 = Some s' /\
    getPhysicalAddress (hhdm := demo_hhdm) (pmem s') (root + demo_hhdm) 2097155 = 4099.
Proof.
  destruct (empty_root (FA := pmm_frames demo_hhdm) demo_pmm 254 demo_pmm_low demo_avail)
    as (s1 & root & _ & _ & Hi & Hav & _).
  destruct (map_page_maps_range (FA := pmm_frames demo_hhdm) (fa_upd s1 (memset (fa_mem s1) (root + demo_hhdm) 0 4096))
    root (root_only root) 2097152 4096 3 1 Hi) as (s' & T' & E & _ & _ & Ht);
    [split; [reflexivity|discriminate]|rewrite Hav; discriminate|discriminate|discriminate|reflexivity
    |discriminate|discriminate|reflexivity|reflexivity|].
  eexists _, s', root. split; [exact E|]. exact (Ht 2097155).
Defined.

Definition demo_kernel : kernel_addr := KernelAddr 2097152 18446744071562067968.

Lemma initPML4_maps_memory_and_kernel_witness :
  exists (s' : pmm) root,
    initPML4 (hhdm := demo_hhdm) demo_pmm demo_map demo_kernel
      18446744071562067968 18446744071562076160 18446744071562080256 = Some (s', root + demo_hhdm, root) /\
    getPhysicalAddress (hhdm := demo_hhdm) (pmem s') (root + demo_hhdm) (demo_hhdm + 1048999) = 1048999 /\
    getPhysicalAddress (hhdm := demo_hhdm) (pmem s') (root + demo_hhdm) 18446744071562067999 = 2097183.
Proof.
  destruct (initPML4_maps_memory_and_kernel (FA := pmm_frames demo_hhdm) ltac:(split; [discriminate|reflexivity])
    demo_pmm demo_map demo_kernel 18446744071562067968 18446744071562076160 18446744071562080256)
    as (s' & root & T & E & _ & Hd & Hk).
  - exact demo_pmm_low.
  - repeat apply Forall_cons_2; try apply Forall_nil_2; intros Hm; try discriminate Hm;
      (split; [discriminate|split; [reflexivity|split; [reflexivity|split; discriminate]]]).
  - constructor; cbn.
    + split; [discriminate|split; [reflexivity|split; [reflexivity|discriminate]]].
    + split; reflexivity.
    + split; [discriminate|]. split; [reflexivity|]. split; [reflexivity|]. split; [discriminate|].
      split; [split; [discriminate|reflexivity]|discriminate].
  - change (fa_avail demo_pmm) with (free_pages demo_pmm). rewrite demo_avail. vm_compute. discriminate.
  - exists s', root. split; [exact E|]. split.
    + apply (Hd (MemmapEntry 1048576 1048576 0)); [right; left|reflexivity|split; [discriminate|reflexivity]].
    + exact (Hk 18446744071562067999 ltac:(split; [discriminate|reflexivity])).
Defined.
