(* ===== verification/HeapApi.v ===== *)
(** * What the rest of the kernel needs from [kmalloc]

    Drivers and file systems keep structures in heap objects.  [HeapApi] is what
    they rely on: a call on what they hold returns, a new object is none of the
    live ones, and the live objects stay live.  [KmemProps.v] proves it of
    [src/src/kmem/*.c]; that live objects share no byte is part of
    [KmemProps.represents]. *)

From S2P Require Import Prelude Mem CString Kmem KmemInv KmemSafety KmemRealloc KmemProps.

Class HeapApi (H : Type) := {
  h_alloc : H -> Z -> option (H * Z);
  h_free : H -> Z -> option H;
  h_realloc : H -> Z -> Z -> option (H * Z);
  (** [h_live h L]: the heap is well formed and [L] are the pointers handed out *)
  h_live : H -> list Z -> Prop;
  (** the requests that can be made *)
  h_size : H -> Z -> Prop;

  h_live_perm h L L' : L ≡ₚ L' -> h_live h L -> h_live h L';
  h_live_nodup h L : h_live h L -> NoDup L /\ Forall (fun p => p <> 0) L;
  h_alloc_ok h L n : h_live h L -> h_size h n ->
    exists h' p, h_alloc h n = Some (h', p) /\ (forall k, h_size h k -> h_size h' k) /\
      ((p = 0 /\ h_live h' L) \/ (p <> 0 /\ h_live h' (p :: L)));
  h_free_ok h L p : h_live h (p :: L) ->
    exists h', h_free h p = Some h' /\ h_live h' L /\ (forall k, h_size h k -> h_size h' k);
  h_realloc_ok h L p n : h_live h (p :: L) -> h_size h n -> 0 < n ->
    exists h' q, h_realloc h p n = Some (h', q) /\ (forall k, h_size h k -> h_size h' k) /\
      ((q = 0 /\ h_live h' (p :: L)) \/ (q <> 0 /\ h_live h' (q :: L))) }.

(** ** The kernel heap implements it *)

(** [heap] is the address of the heap array, recovered from [endp]. *)
Definition heap_of (h : kheap) : Z := endp h - HEAP_SIZE.

Definition klive (h : kheap) (L : list Z) : Prop :=
  exists A, represents (heap_of h) h A /\ L ≡ₚ (fst <$> A).

Definition ksize (h : kheap) (n : Z) : Prop := size_ok (heap_of h) n.

Lemma represents_heap heap h A : represents heap h A -> heap_of h = heap.
Proof. intros (cs & Hi & _). unfold heap_of. rewrite (hi_end _ _ _ Hi). lia. Qed.

Lemma represents_perm heap h A A' : A ≡ₚ A' -> represents heap h A -> represents heap h A'.
Proof.
  intros Hp (cs & Hi & Hnd & HA). exists cs. split_and_all; [done| |].
  - by rewrite <- Hp.
  - by rewrite <- Hp.
Qed.

(** A step of the store seen from the pointers. *)
Lemma klive_intro heap h A L : represents heap h A -> L ≡ₚ (fst <$> A) -> klive h L.
Proof. intros HR HL. exists A. by rewrite (represents_heap _ _ _ HR). Qed.

Lemma represents_ptr_nz heap h A p bs : represents heap h A -> (p, bs) ∈ A -> p <> 0.
Proof.
  intros HR Hin. destruct (held_block _ _ _ _ _ HR Hin) as (cs & b & Hi & [Hb _] & -> & _).
  destruct (chains_bounds _ _ _ _ _ (hi_chains _ _ _ Hi) Hb). pose proof (hi_heap _ _ _ Hi). lia.
Qed.

Lemma klive_head h p L : klive h (p :: L) ->
  exists bs A, represents (heap_of h) h ((p, bs) :: A) /\ L ≡ₚ (fst <$> A).
Proof.
  intros (A & HR & HL). assert (Hin : p ∈ fst <$> A) by (rewrite <- HL; left).
  apply list_elem_of_fmap in Hin as ([p' bs] & -> & Hin). cbn [fst] in *.
  apply list_elem_of_split in Hin as (A1 & A2 & ->). exists bs, (A1 ++ A2). split.
  - eapply represents_perm, HR. by rewrite Permutation_middle.
  - rewrite fmap_app, fmap_cons in HL. cbn [fst] in HL. rewrite <- Permutation_middle in HL.
    apply Permutation_cons_inv in HL. by rewrite fmap_app.
Qed.

Lemma klive_alloc h L n : klive h L -> ksize h n ->
  exists h' p, kmalloc h n = Some (h', p) /\ (forall k, ksize h k -> ksize h' k) /\
    ((p = 0 /\ klive h' L) \/ (p <> 0 /\ klive h' (p :: L))).
Proof.
  intros (A & HR & HL) Hs. destruct (step_alloc _ _ _ _ HR Hs) as (h' & p & A' & E & Ha & HR').
  exists h', p. split; [done|]. unfold ksize. rewrite (represents_heap _ _ _ HR'). split; [done|].
  inversion Ha; subst.
  - left. split; [done|]. by eapply klive_intro.
  - right. split; [done|]. eapply klive_intro; [exact HR'|]. rewrite fmap_cons. cbn. by rewrite HL.
Qed.

Lemma klive_free h L p : klive h (p :: L) ->
  exists h', kfree h p = Some h' /\ klive h' L /\ (forall k, ksize h k -> ksize h' k).
Proof.
  intros (bs & A & HR & HL)%klive_head.
  destruct (step_free _ _ _ p HR (ex_intro _ bs (list_elem_of_here _ _))) as (h' & A' & E & Ha & HR').
  exists h'. split; [done|]. split; [|unfold ksize; by rewrite (represents_heap _ _ _ HR')].
  inversion Ha as [ | |? bs' A1 A2 Heq| | |]; subst. eapply klive_intro; [exact HR'|].
  assert (Hp : (p, bs) :: A ≡ₚ (p, bs') :: A1 ++ A2) by (rewrite Heq; by rewrite Permutation_middle).
  apply (fmap_Permutation fst) in Hp. rewrite !fmap_cons in Hp. cbn in Hp.
  apply Permutation_cons_inv in Hp. by rewrite HL, <- Hp.
Qed.

Lemma klive_realloc h L p n : klive h (p :: L) -> ksize h n -> 0 < n ->
  exists h' q, krealloc h p n = Some (h', q) /\ (forall k, ksize h k -> ksize h' k) /\
    ((q = 0 /\ klive h' (p :: L)) \/ (q <> 0 /\ klive h' (q :: L))).
Proof.
  intros (bs & A & HR & HL)%klive_head Hs Hn.
  destruct (step_realloc _ _ _ p n HR Hs Hn (ex_intro _ bs (list_elem_of_here _ _))) as (h' & q & A' & E & Ha & HR').
  exists h', q. split; [done|]. split; [unfold ksize; by rewrite (represents_heap _ _ _ HR')|].
  inversion Ha as [ | | | |? ? ? bs' bs2 A1 A2 Heq| ]; subst.
  - left. split; [done|]. eapply klive_intro; [exact HR'|]. rewrite fmap_cons. cbn. by rewrite HL.
  - right. split; [done|]. eapply klive_intro; [exact HR'|]. rewrite fmap_cons. cbn.
    assert (Hp : (p, bs) :: A ≡ₚ (p, bs') :: A1 ++ A2) by (rewrite Heq; by rewrite Permutation_middle).
    apply (fmap_Permutation fst) in Hp. rewrite !fmap_cons in Hp. cbn in Hp.
    apply Permutation_cons_inv in Hp. by rewrite HL, <- Hp.
Qed.

#[export] Instance kheap_api : HeapApi kheap.
Proof.
  refine {| h_alloc := kmalloc; h_free := kfree; h_realloc := krealloc; h_live := klive; h_size := ksize |}.
  - intros h L L' Hp (A & HR & HL). exists A. split; [done|]. by rewrite <- Hp.
  - intros h L (A & HR & HL). pose proof HR as (cs & _ & Hnd & _). split; [by rewrite HL|].
    rewrite Forall_forall. intros p Hp. rewrite HL in Hp. apply list_elem_of_fmap in Hp as ([p' bs] & -> & Hin).
    by eapply represents_ptr_nz.
  - exact klive_alloc.
  - exact klive_free.
  - exact klive_realloc.
Defined.

(** A fresh heap has nothing live. *)
Lemma klive_init heap m0 : heap_placed heap -> klive (kmem_init heap m0) [].
Proof. intros Hp. eapply (klive_intro heap _ []); [by apply represents_init|done]. Qed.
