(* ===== verification/Vfs.v ===== *)
(** * The in-memory file system, [src/src/fs/vfs.c] and [src/src/include/vfs.h]

    The structures hang off the global [vfs] in heap objects of their own; the model
    keeps the pointers and, beside them, the contents of the objects: the
    superblock, the inodes, the data blocks and the root directory's files.  A
    string argument is the memory seen from its pointer (byte 0 is the first
    character), so that the code's fixed-length copies read whatever follows the
    string.  An access outside an array, through NULL or through a freed object is
    the outcome [VWild].  The files array holds [file_count] valid entries; the
    entries behind them are never read. *)

From stdpp Require Import strings.
From S2P Require Import Prelude Mem CString Kmem KmemInv KmemSafety KmemRealloc KmemProps HeapApi.

Definition INITIAL_CAPACITY : Z := 200.
Definition MAX_FILENAME : Z := 256.
Definition MAX_FILES : nat := 100.
Definition MYFS_MAGIC : Z := 320017171.
Definition MAX_DATABLOCKS : nat := 50.
Definition VBLOCK_SIZE : Z := 4096.
Definition MAX_BLOCK_NUMBER : nat := 50.
(** [(uint32_t)-1]. *)
Definition NO_BLOCK : Z := 4294967295.
(** [sizeof] the structures. *)
Definition sizeof_VFS : Z := 205632.
Definition sizeof_superblock : Z := 20.
Definition sizeof_inode : Z := 208.
Definition sizeof_Directory : Z := 272.
Definition sizeof_File : Z := 260.

Record file := File { f_name : mem; f_inode : Z }.
Record inode := Inode { i_mode : Z; i_size : Z; i_blocks : list Z }.
Record superblock := Superblock {
  s_magic : Z; s_block_size : Z; s_inode_count : Z; s_free_blocks : Z; s_root_inode : Z }.

Record vobj := VObj {
  v_superblock_ptr : Z;
  v_inode_ptrs : list Z;
  v_root_ptr : Z;
  v_files_ptr : Z;
  v_root_name : mem;
  v_superblock : superblock;
  v_inodes : list inode;
  v_blocks : list mem;
  v_files : list file;
  v_capacity : Z;
  v_total_files : Z;
  v_total_size : Z }.

Definition file_count (v : vobj) : Z := Z.of_nat (length (v_files v)).

(** Field updates. *)
Definition set_inodes (v : vobj) (l : list inode) : vobj :=
  VObj (v_superblock_ptr v) (v_inode_ptrs v) (v_root_ptr v) (v_files_ptr v) (v_root_name v)
    (v_superblock v) l (v_blocks v) (v_files v) (v_capacity v) (v_total_files v) (v_total_size v).
Definition set_blocks (v : vobj) (l : list mem) : vobj :=
  VObj (v_superblock_ptr v) (v_inode_ptrs v) (v_root_ptr v) (v_files_ptr v) (v_root_name v)
    (v_superblock v) (v_inodes v) l (v_files v) (v_capacity v) (v_total_files v) (v_total_size v).
Definition set_files (v : vobj) (l : list file) : vobj :=
  VObj (v_superblock_ptr v) (v_inode_ptrs v) (v_root_ptr v) (v_files_ptr v) (v_root_name v)
    (v_superblock v) (v_inodes v) (v_blocks v) l (v_capacity v) (v_total_files v) (v_total_size v).
Definition set_array (v : vobj) (p cap : Z) : vobj :=
  VObj (v_superblock_ptr v) (v_inode_ptrs v) (v_root_ptr v) p (v_root_name v)
    (v_superblock v) (v_inodes v) (v_blocks v) (v_files v) cap (v_total_files v) (v_total_size v).
Definition set_totals (v : vobj) (sb : superblock) (tf ts : Z) : vobj :=
  VObj (v_superblock_ptr v) (v_inode_ptrs v) (v_root_ptr v) (v_files_ptr v) (v_root_name v)
    sb (v_inodes v) (v_blocks v) (v_files v) (v_capacity v) tf ts.
Definition set_counts (sb : superblock) (ic fb : Z) : superblock :=
  Superblock (s_magic sb) (s_block_size sb) ic fb (s_root_inode sb).

(** ** Outcomes *)

Inductive vres (A : Type) := VOk (a : A) | VWild | VFuel.
Arguments VOk {A} a.
Arguments VWild {A}.
Arguments VFuel {A}.

Definition vbind {A B} (x : vres A) (f : A -> vres B) : vres B :=
  match x with VOk a => f a | VWild => VWild | VFuel => VFuel end.
(** An array element, a call that may not return. *)
Definition velem {A} (o : option A) : vres A := match o with Some a => VOk a | None => VWild end.
Definition vcall {A} (o : option A) : vres A := match o with Some a => VOk a | None => VFuel end.

Declare Scope vfs_scope.
Delimit Scope vfs_scope with vfs.
Notation "'let*' p := e 'in' f" := (vbind e (fun x => match x with p => f end))
  (at level 10, p pattern, e at level 200, f at level 200) : vfs_scope.
Local Open Scope vfs_scope.

(** [memcpy] and [memset] on an object of its own. *)
Definition copy_bytes (dst src : mem) (n : Z) : mem :=
  fun i => if (0 <=? i) && (i <? n) then ld8 src i else dst i.
Definition fill_bytes (dst : mem) (v n : Z) : mem :=
  fun i => if (0 <=? i) && (i <? n) then u8 v else dst i.

Definition empty_inode : inode := Inode 0 0 (replicate MAX_BLOCK_NUMBER NO_BLOCK).

Section Vfs.
Context {H : Type} `{HA : HeapApi H}.

(** The global pointer, the heap, and the objects behind the pointer when they
    are live. *)
Record world := World { w_heap : H; w_vfs : Z; w_obj : option vobj }.

(** The loop that allocates the inodes: the pointers so far, and whether one
    failed. *)
Fixpoint alloc_inodes (n : nat) (h : H) (acc : list Z) : vres (H * list Z * bool) :=
  match n with
  | O => VOk (h, acc, true)
  | S n' =>
      let* (h, p) := vcall (h_alloc h sizeof_inode) in
      if p =? 0 then VOk (h, acc, false) else alloc_inodes n' h (acc ++ [p])
  end.

Fixpoint free_all (h : H) (ps : list Z) : vres H :=
  match ps with
  | [] => VOk h
  | p :: ps' => let* h := vcall (h_free h p) in free_all h ps'
  end.

Definition init_vfs (h : H) : vres world :=
  let* (h, p) := vcall (h_alloc h sizeof_VFS) in
  if p =? 0 then VOk (World h 0 None)
  else
    let* (h, sb) := vcall (h_alloc h sizeof_superblock) in
    if sb =? 0 then let* h := free_all h [p] in VOk (World h p None)
    else
      let* (h, inodes, ok) := alloc_inodes MAX_FILES h [] in
      if negb ok then let* h := free_all h (inodes ++ [sb; p]) in VOk (World h p None)
      else
        let* (h, root) := vcall (h_alloc h sizeof_Directory) in
        if root =? 0 then let* h := free_all h (inodes ++ [sb; p]) in VOk (World h p None)
        else
          let* (h, files) := vcall (h_alloc h (INITIAL_CAPACITY * sizeof_File)) in
          if files =? 0 then let* h := free_all h (root :: inodes ++ [sb; p]) in VOk (World h p None)
          else
            VOk (World h p (Some (VObj sb inodes root files
              (fun i => if i =? 0 then 114 else if i =? 1 then 111 else if i =? 2 then 111
                        else if i =? 3 then 116 else 0)
              (Superblock MYFS_MAGIC VBLOCK_SIZE (Z.of_nat MAX_FILES) (Z.of_nat MAX_DATABLOCKS) 0)
              (replicate MAX_FILES empty_inode)
              (replicate MAX_DATABLOCKS (fill_bytes (fun _ => 0) 0 VBLOCK_SIZE))
              [] INITIAL_CAPACITY 0 0))).

(** Doubling the files array when it is full; [krealloc] keeps the entries. *)
Definition grow (h : H) (v : vobj) : vres (H * vobj) :=
  if v_capacity v <=? file_count v then
    let cap := i32 (v_capacity v * 2) in
    let* (h, files) := vcall (h_realloc h (v_files_ptr v) (u64 (cap * sizeof_File))) in
    VOk (h, set_array v files cap)
  else VOk (h, v).

(** The first inode and the first block that look free. *)
Definition free_inode (v : vobj) : option nat := fst <$> list_find (fun n => i_mode n = 0) (v_inodes v).
Definition free_block (v : vobj) : option nat := fst <$> list_find (fun b => ld8 b 0 = 0) (v_blocks v).

(** [file->name] after the copy of 255 bytes and the terminator. *)
Definition copy_name (name : mem) : mem :=
  fun i => if i =? MAX_FILENAME - 1 then 0 else copy_bytes (fun _ => 0) name (MAX_FILENAME - 1) i.

(** [fuel] bounds the scan of [data].  The type argument is only normalised by the
    code and never used.  Without a free block the copy goes to
    [data_blocks[-1]]. *)
Definition create_file (fuel : nat) (w : world) (name data : mem) : vres (world * Z) :=
  let* v := velem (w_obj w) in
  let* (h, v) := grow (w_heap w) v in
  match free_inode v with
  | None => VOk (World h (w_vfs w) (Some v), -1)
  | Some inum =>
      let* len := vcall (strlen fuel data 0) in
      let* ino := velem (v_inodes v !! inum) in
      let* b := velem (free_block v) in
      let* blk := velem (v_blocks v !! b) in
      if v_files_ptr v =? 0 then VWild
      else
        let v := set_inodes v (<[inum := Inode 420 (u32 len) (<[0%nat := Z.of_nat b]> (i_blocks ino))]> (v_inodes v)) in
        let v := set_blocks v (<[b := copy_bytes blk data VBLOCK_SIZE]> (v_blocks v)) in
        let v := set_files v (v_files v ++ [File (copy_name name) (Z.of_nat inum)]) in
        let sb := v_superblock v in
        let v := set_totals v (set_counts sb (u32 (s_inode_count sb - 1)) (u32 (s_free_blocks sb - 1)))
                   (i32 (v_total_files v + 1)) (u64 (v_total_size v + len)) in
        VOk (World h (w_vfs w) (Some v), 0)
  end.

(** The loops [for (i = 0; i < file_count; i++) if (strcmp(files[i].name, name) == 0)]:
    the index of the first match.  A stored name ends within its 256 bytes, so 257
    rounds of [strcmp] are enough. *)
Fixpoint lookup_file (fs : list file) (name : mem) (i : nat) : vres (option nat) :=
  match fs with
  | [] => VOk None
  | f :: fs' =>
      let* r := vcall (strcmp2 257 (f_name f) 0 name 0) in
      if r =? 0 then VOk (Some i) else lookup_file fs' name (S i)
  end.

(** The answer is the index of the data block whose bytes the pointer shows. *)
Definition read_file (w : world) (name : mem) : vres (option nat) :=
  if w_vfs w =? 0 then VOk None
  else
    let* v := velem (w_obj w) in
    if v_root_ptr v =? 0 then VOk None
    else
      let* o := lookup_file (v_files v) name 0 in
      match o with
      | None => VOk None
      | Some i =>
          let* f := velem (v_files v !! i) in
          let* ino := velem (v_inodes v !! Z.to_nat (f_inode f)) in
          if i_mode ino =? 493 then VOk None
          else
            let* b := velem (i_blocks ino !! 0%nat) in
            if b =? NO_BLOCK then VOk None
            else if b <? Z.of_nat MAX_DATABLOCKS then VOk (Some (Z.to_nat b)) else VWild
      end.

(** The loop over [blocks[]] in [delete_file]: the blocks cleared and counted. *)
Fixpoint release_blocks (bs : list Z) (blocks : list mem) (free_blocks : Z) : vres (list mem * Z) :=
  match bs with
  | [] => VOk (blocks, free_blocks)
  | b :: bs' =>
      if b =? NO_BLOCK then release_blocks bs' blocks free_blocks
      else
        let* blk := velem (blocks !! Z.to_nat b) in
        release_blocks bs' (<[Z.to_nat b := fill_bytes blk 0 VBLOCK_SIZE]> blocks) (u32 (free_blocks + 1))
  end.

(** [total_size] is reduced by the size of the inode, which has just been
    cleared. *)
Definition delete_file (w : world) (name : mem) : vres (world * Z) :=
  let* v := velem (w_obj w) in
  let* o := lookup_file (v_files v) name 0 in
  match o with
  | None => VOk (w, -1)
  | Some i =>
      let* f := velem (v_files v !! i) in
      let inum := Z.to_nat (f_inode f) in
      let* ino := velem (v_inodes v !! inum) in
      let* (blocks, fb) := release_blocks (i_blocks ino) (v_blocks v) (s_free_blocks (v_superblock v)) in
      let v := set_blocks v blocks in
      let v := set_inodes v (<[inum := empty_inode]> (v_inodes v)) in
      let sb := set_counts (v_superblock v) (u32 (s_inode_count (v_superblock v) + 1)) fb in
      let v := set_files v (take i (v_files v) ++ drop (S i) (v_files v)) in
      let* ino := velem (v_inodes v !! inum) in
      let v := set_totals v sb (i32 (v_total_files v - 1)) (u64 (v_total_size v - i_size ino)) in
      VOk (World (w_heap w) (w_vfs w) (Some v), 0)
  end.

(** The test for an existing name only prints a message.  [inode_table[-1]] is
    outside the table.  The [Directory] object is not stored anywhere. *)
Definition create_directory (fuel : nat) (w : world) (name : mem) : vres (world * Z) :=
  let* v := velem (w_obj w) in
  let* len := vcall (strlen fuel name 0) in
  if MAX_FILENAME <? len then VOk (w, -1)
  else
    let inum := free_inode v in
    let* (h, dir) := vcall (h_alloc (w_heap w) sizeof_Directory) in
    if dir =? 0 then VOk (World h (w_vfs w) (Some v), -1)
    else
      let* (h, dfiles) := vcall (h_alloc h (INITIAL_CAPACITY * sizeof_File)) in
      if dfiles =? 0 then
        let* h := vcall (h_free h dir) in VOk (World h (w_vfs w) (Some v), -1)
      else
        let* inum := velem inum in
        let v := set_inodes v (<[inum := Inode 493 0 (replicate MAX_BLOCK_NUMBER NO_BLOCK)]> (v_inodes v)) in
        let* (h, v) := grow h v in
        if v_files_ptr v =? 0 then
          let* h := free_all h [dfiles; dir] in VOk (World h (w_vfs w) (Some v), -1)
        else
          let v := set_files v (v_files v ++ [File (copy_name name) (Z.of_nat inum)]) in
          let sb := v_superblock v in
          let v := set_totals v (set_counts sb (u32 (s_inode_count sb - 1)) (s_free_blocks sb))
                     (i32 (v_total_files v + 1)) (v_total_size v) in
          VOk (World h (w_vfs w) (Some v), 0).

(** The names printed by [display_all_files], and the blocks printed by
    [display_content]: the last match counts there, and no match indexes the table
    with -1. *)
Definition display_all_files (w : world) : vres (list mem) :=
  let* v := velem (w_obj w) in VOk (f_name <$> v_files v).

Fixpoint lookup_last (fs : list file) (name : mem) (acc : option Z) : vres (option Z) :=
  match fs with
  | [] => VOk acc
  | f :: fs' =>
      let* r := vcall (strcmp2 257 (f_name f) 0 name 0) in
      lookup_last fs' name (if r =? 0 then Some (f_inode f) else acc)
  end.

Definition display_content (w : world) (name : mem) : vres (list nat) :=
  let* v := velem (w_obj w) in
  let* o := lookup_last (v_files v) name None in
  let* inum := velem o in
  let* ino := velem (v_inodes v !! Z.to_nat inum) in
  VOk (Z.to_nat <$> filter (fun b => b <> NO_BLOCK) (i_blocks ino)).

(** ** The test suite of the source

    Each test answers the world to go on with, or [None] where the code prints
    "FAIL" and returns. *)

(** A string literal: its bytes and a NUL. *)
Definition str (s : string) : mem :=
  fun i => if i <? 0 then 0 else match String.get (Z.to_nat i) s with
                                 | Some c => Z.of_N (Ascii.N_of_ascii c)
                                 | None => 0
                                 end.

Definition vfail_if (b : bool) (k : vres (option (world))) : vres (option (world)) :=
  if b then VOk None else k.

(** The tests on [file_count] and [total_files]. *)
Definition expect_count (w : world) (n : Z) (k : vres (option (world))) : vres (option (world)) :=
  let* v := velem (w_obj w) in
  vfail_if (negb (file_count v =? n)) (vfail_if (negb (v_total_files v =? n)) k).

(** The tests on what [read_file] shows. *)
Definition expect_content (w : world) (name data : mem) (k : vres (option (world))) : vres (option (world)) :=
  let* r := read_file w name in
  match r with
  | None => VOk None
  | Some b =>
      let* v := velem (w_obj w) in
      let* blk := velem (v_blocks v !! b) in
      let* c := vcall (strcmp2 4096 blk 0 data 0) in
      vfail_if (negb (c =? 0)) k
  end.

Definition expect_missing (w : world) (name : mem) (k : vres (option (world))) : vres (option (world)) :=
  let* r := read_file w name in
  match r with Some _ => VOk None | None => k end.

Definition test_1 (w : world) : vres (option (world)) :=
  if w_vfs w =? 0 then VOk None
  else
    let* v := velem (w_obj w) in
    vfail_if (v_root_ptr v =? 0)
      (vfail_if (v_superblock_ptr v =? 0)
        (expect_count w 0 (vfail_if (negb (v_total_size v =? 0)) (VOk (Some w))))).

Definition test_2 (w : world) : vres (option (world)) :=
  let* (w, r) := create_file 4096 w (str "hello.txt") (str "Hello, VFS!") in
  vfail_if (negb (r =? 0))
    (expect_count w 1
      (let* v := velem (w_obj w) in
       let* n := vcall (strlen 4096 (str "Hello, VFS!") 0) in
       vfail_if (negb (v_total_size v =? n)) (VOk (Some w)))).

Definition test_3 (w : world) : vres (option (world)) :=
  expect_content w (str "hello.txt") (str "Hello, VFS!") (VOk (Some w)).

Definition test_4 (w : world) : vres (option (world)) :=
  expect_missing w (str "does_not_exist.txt") (VOk (Some w)).

Definition test_5 (w : world) : vres (option (world)) :=
  let* (w, r) := create_file 4096 w (str "test.txt") (str "This is another file.") in
  vfail_if (negb (r =? 0)) (expect_count w 2 (VOk (Some w))).

Definition test_6 (w : world) : vres (option (world)) :=
  expect_content w (str "test.txt") (str "This is another file.") (VOk (Some w)).

(** Tests 7 and 8 only call the two display functions. *)
Definition test_7_8 (w : world) : vres (option (world)) :=
  let* _ := display_all_files w in
  let* _ := display_content w (str "hello.txt") in
  VOk (Some w).

Definition test_9 (w : world) : vres (option (world)) :=
  let* (w, r) := create_directory 4096 w (str "mydir") in
  vfail_if (negb (r =? 0)) (expect_count w 3 (VOk (Some w))).

Definition test_10 (w : world) : vres (option (world)) :=
  let* v := velem (w_obj w) in
  let* o := lookup_file (v_files v) (str "mydir") 0 in
  match o with
  | None => VOk None
  | Some i =>
      let* f := velem (v_files v !! i) in
      let* ino := velem (v_inodes v !! Z.to_nat (f_inode f)) in
      vfail_if (negb (i_mode ino =? 493)) (VOk (Some w))
  end.

Definition test_11 (w : world) : vres (option (world)) :=
  let* (w, r) := delete_file w (str "hello.txt") in
  vfail_if (negb (r =? 0)) (expect_missing w (str "hello.txt") (expect_count w 2 (VOk (Some w)))).

Definition test_12 (w : world) : vres (option (world)) :=
  let* (w, r) := delete_file w (str "does_not_exist.txt") in
  vfail_if (negb (r =? -1)) (VOk (Some w)).

Definition test_13 (w : world) : vres (option (world)) :=
  let* r := read_file w (str "test.txt") in
  match r with
  | None => VOk None
  | Some _ => expect_missing w (str "mydir") (VOk (Some w))
  end.

(** The final report: total files, total size, free blocks, free inodes. *)
Definition final_report (w : world) : vres (Z * Z * Z * Z) :=
  let* v := velem (w_obj w) in
  VOk (v_total_files v, v_total_size v, s_free_blocks (v_superblock v), s_inode_count (v_superblock v)).

Definition vthen (x : vres (option (world))) (f : world -> vres (option (world))) : vres (option (world)) :=
  let* o := x in match o with Some w => f w | None => VOk None end.

Definition test_vfs (w : world) : vres (option (world)) :=
  fold_left vthen
    [test_2; test_3; test_4; test_5; test_6; test_7_8; test_9; test_10; test_11; test_12; test_13] (test_1 w).
End Vfs.
