(* ===== verification/VfsProps.v ===== *)
(** * The file system implements a list of named files

    The abstract state is the list of entries of the root directory in order of
    creation, each a name with its content or a directory; [vrep] relates it to the
    inodes, blocks and counters of [src/src/fs/vfs.c]. *)

From S2P Require Import Prelude Mem CString Kmem KmemInv KmemSafety KmemRealloc KmemProps HeapApi Vfs.

(** ** Specification *)

Inductive node := Reg (content : list Z) | Dir.

#[export] Instance node_eq_dec : EqDecision node.
Proof. solve_decision. Defined.

(** The directory: names with their nodes, in order of creation. *)
Abbreviation listing := (list (list Z * node)).

(** The number of entries with content. *)
Definition regulars (A : listing) : nat := length (filter (fun e => snd e <> Dir) A).

(** The entry a name denotes: the first one. *)
Definition find_name (A : listing) (l : list Z) : option (nat * (list Z * node)) :=
  list_find (fun e => fst e = l) A.

(** ** Representation *)

(** An entry with the inode and the block it occupies. *)
Record gfile := GF { g_name : list Z; g_inum : nat; g_data : option (nat * list Z) }.

Definition g_node (g : gfile) : node := match g_data g with Some (_, c) => Reg c | None => Dir end.
Definition g_blk (g : gfile) : option nat := fst <$> g_data g.
(** The abstract entry. *)
Definition entry_of (g : gfile) : list Z * node := (g_name g, g_node g).

Definition file_ok (v : vobj) (f : file) (g : gfile) : Prop :=
  cstr (f_name f) 0 (g_name g) /\ (length (g_name g) <= 255)%nat /\ f_inode f = Z.of_nat (g_inum g) /\
  exists ino, v_inodes v !! g_inum g = Some ino /\
    match g_data g with
    | Some (b, c) =>
        i_mode ino = 420 /\ i_blocks ino = Z.of_nat b :: replicate 49 NO_BLOCK /\
        exists blk, v_blocks v !! b = Some blk /\ cstr blk 0 c /\ c <> []
    | None => i_mode ino = 493 /\ i_blocks ino = replicate 50 NO_BLOCK
    end.

Record vrep (v : vobj) (R : list gfile) : Prop := {
  vr_inodes : length (v_inodes v) = 100%nat;
  vr_blocks : length (v_blocks v) = 50%nat;
  vr_ptrs : v_root_ptr v <> 0 /\ v_files_ptr v <> 0 /\ v_capacity v = 200;
  vr_files : Forall2 (file_ok v) (v_files v) R;
  vr_inj : NoDup (g_inum <$> R);
  vr_blk : NoDup (omap g_blk R);
  vr_unused : forall i ino, v_inodes v !! i = Some ino ->
    (i_mode ino = 0 /\ i_blocks ino = replicate 50 NO_BLOCK) \/ i ∈ g_inum <$> R;
  vr_clear : forall b blk, v_blocks v !! b = Some blk -> ld8 blk 0 = 0 \/ b ∈ omap g_blk R;
  vr_icount : s_inode_count (v_superblock v) = 100 - Z.of_nat (length R);
  vr_bcount : s_free_blocks (v_superblock v) = 50 - Z.of_nat (length (omap g_blk R));
  vr_total : v_total_files v = Z.of_nat (length R) }.

(** ** Structure of a represented file system *)

Lemma bounded_nodup (l : list nat) n : NoDup l -> (forall x, x ∈ l -> (x < n)%nat) -> (length l <= n)%nat.
Proof.
  intros Hnd Hb. rewrite <- (length_seq n 0). apply submseteq_length, NoDup_submseteq; [done|].
  intros x Hx. apply elem_of_seq. specialize (Hb x Hx). lia.
Qed.

Lemma full_nodup (l : list nat) n : (forall x, (x < n)%nat -> x ∈ l) -> (n <= length l)%nat.
Proof.
  intros Hf. rewrite <- (length_seq n 0). apply submseteq_length, NoDup_submseteq; [apply NoDup_seq|].
  intros x Hx. apply Hf. apply elem_of_seq in Hx. lia.
Qed.

Section Rep.
Context (v : vobj) (R : list gfile).
Hypothesis Hr : vrep v R.

Lemma rep_file g : g ∈ R -> exists f, f ∈ v_files v /\ file_ok v f g.
Proof.
  intros Hg. apply list_elem_of_lookup in Hg as [i Hi].
  destruct (Forall2_lookup_r _ _ _ _ _ (vr_files _ _ Hr) Hi) as (f & Hf & Hok). exists f. split; [|done].
  by eapply list_elem_of_lookup_2.
Qed.

Lemma rep_inum_lt i : i ∈ g_inum <$> R -> (i < 100)%nat.
Proof.
  intros (g & -> & Hg)%list_elem_of_fmap. destruct (rep_file g Hg) as (f & _ & _ & _ & _ & ino & Hi & _).
  apply lookup_lt_Some in Hi. by rewrite (vr_inodes _ _ Hr) in Hi.
Qed.

Lemma rep_blk_lt b : b ∈ omap g_blk R -> (b < 50)%nat.
Proof.
  intros (g & Hg & E)%list_elem_of_omap. destruct (rep_file g Hg) as (f & _ & _ & _ & _ & ino & Hi & Hd).
  unfold g_blk in E. destruct (g_data g) as [[b' c]|]; [|done]. cbn in E. injection E as ->.
  destruct Hd as (_ & _ & blk & Hb & _). apply lookup_lt_Some in Hb. by rewrite (vr_blocks _ _ Hr) in Hb.
Qed.

(** At most 100 entries, at most 50 with content. *)
Lemma rep_bounds : (length R <= 100)%nat /\ (length (omap g_blk R) <= 50)%nat /\ length (v_files v) = length R.
Proof.
  split_and_all.
  - rewrite <- (length_fmap g_inum R). apply bounded_nodup; [apply (vr_inj _ _ Hr)|apply rep_inum_lt].
  - apply bounded_nodup; [apply (vr_blk _ _ Hr)|apply rep_blk_lt].
  - eapply Forall2_length, (vr_files _ _ Hr).
Qed.

(** An inode is in use exactly if its mode is not 0, a block exactly if it does
    not start with 0. *)
Lemma rep_mode i ino : v_inodes v !! i = Some ino -> i_mode ino = 0 <-> i ∉ g_inum <$> R.
Proof.
  intros Hi. split.
  - intros H0 (g & -> & Hg)%list_elem_of_fmap. destruct (rep_file g Hg) as (f & _ & _ & _ & _ & ino' & Hi' & Hd).
    rewrite Hi in Hi'. injection Hi' as <-. destruct (g_data g) as [[b c]|]; destruct Hd as (Hm & _); lia.
  - intros Hn. destruct (vr_unused _ _ Hr i ino Hi) as [[? _]|?]; done.
Qed.

Lemma rep_first b blk : v_blocks v !! b = Some blk -> ld8 blk 0 = 0 <-> b ∉ omap g_blk R.
Proof.
  intros Hb. split.
  - intros H0 (g & Hg & E)%list_elem_of_omap. destruct (rep_file g Hg) as (f & _ & _ & _ & _ & ino & Hi & Hd).
    unfold g_blk in E. destruct (g_data g) as [[b' c]|]; [|done]. cbn in E. injection E as ->.
    destruct Hd as (_ & _ & blk' & Hb' & Hc & Hne). rewrite Hb in Hb'. injection Hb' as <-.
    destruct c as [|x c]; [done|]. destruct Hc as (Hx & Hx0 & _). congruence.
  - intros Hn. by destruct (vr_clear _ _ Hr b blk Hb).
Qed.

Lemma free_inode_cases :
  (free_inode v = None /\ length R = 100%nat) \/
  (exists i, free_inode v = Some i /\ (i < 100)%nat /\ i ∉ g_inum <$> R /\
     exists ino, v_inodes v !! i = Some ino /\ i_blocks ino = replicate 50 NO_BLOCK).
Proof.
  unfold free_inode. destruct (list_find (fun n => i_mode n = 0) (v_inodes v)) as [[i ino]|] eqn:E; cbn.
  - right. exists i. apply list_find_Some in E as (Hi & Hm & _). split; [done|].
    pose proof (lookup_lt_Some _ _ _ Hi) as Hlt. rewrite (vr_inodes _ _ Hr) in Hlt.
    pose proof (proj1 (rep_mode i ino Hi) Hm) as Hn. split_and_all; [done|done|]. exists ino. split; [done|].
    destruct (vr_unused _ _ Hr i ino Hi) as [[_ ?]|?]; done.
  - left. split; [done|]. destruct rep_bounds as (Hle & _).
    assert (Hge : (100 <= length (g_inum <$> R))%nat); [|rewrite length_fmap in Hge; lia].
    apply full_nodup. intros x Hx. rewrite <- (vr_inodes _ _ Hr) in Hx. destruct (lookup_lt_is_Some_2 _ _ Hx) as [ino Hi].
    destruct (decide (x ∈ g_inum <$> R)) as [?|Hn]; [done|]. exfalso.
    apply (rep_mode x ino Hi) in Hn. apply list_find_None in E. rewrite Forall_forall in E.
    apply (E ino); [by eapply list_elem_of_lookup_2|done].
Qed.

Lemma free_block_cases :
  (free_block v = None /\ length (omap g_blk R) = 50%nat) \/
  (exists b, free_block v = Some b /\ (b < 50)%nat /\ b ∉ omap g_blk R /\ exists blk, v_blocks v !! b = Some blk).
Proof.
  unfold free_block. destruct (list_find (fun n => ld8 n 0 = 0) (v_blocks v)) as [[b blk]|] eqn:E; cbn.
  - right. exists b. apply list_find_Some in E as (Hi & Hm & _). split; [done|].
    pose proof (lookup_lt_Some _ _ _ Hi) as Hlt. rewrite (vr_blocks _ _ Hr) in Hlt.
    pose proof (proj1 (rep_first b blk Hi) Hm) as Hn. eauto.
  - left. split; [done|]. destruct rep_bounds as (_ & Hle & _).
    assert (Hge : (50 <= length (omap g_blk R))%nat); [|lia].
    apply full_nodup. intros x Hx. rewrite <- (vr_blocks _ _ Hr) in Hx. destruct (lookup_lt_is_Some_2 _ _ Hx) as [blk Hi].
    destruct (decide (x ∈ omap g_blk R)) as [?|Hn]; [done|]. exfalso.
    apply (rep_first x blk Hi) in Hn. apply list_find_None in E. rewrite Forall_forall in E.
    apply (E blk); [by eapply list_elem_of_lookup_2|done].
Qed.
End Rep.

(** An entry is not affected by changes elsewhere. *)
Lemma file_ok_ext v v' f g :
  file_ok v f g -> v_inodes v' !! g_inum g = v_inodes v !! g_inum g ->
  (forall b, g_blk g = Some b -> v_blocks v' !! b = v_blocks v !! b) -> file_ok v' f g.
Proof.
  intros (H1 & H2 & H3 & ino & H4 & H5) Hi Hb. unfold file_ok. split_and_all; try done. exists ino. rewrite Hi. split; [done|].
  unfold g_blk in Hb. destruct (g_data g) as [[b c]|]; [|done]. rewrite (Hb b eq_refl). done.
Qed.

Lemma files_ext v v' fs R :
  Forall2 (file_ok v) fs R ->
  (forall i, i ∈ g_inum <$> R -> v_inodes v' !! i = v_inodes v !! i) ->
  (forall b, b ∈ omap g_blk R -> v_blocks v' !! b = v_blocks v !! b) ->
  Forall2 (file_ok v') fs R.
Proof.
  intros HF Hi Hb. induction HF as [|f g fs R Hfg HF IH]; constructor.
  - eapply file_ok_ext; [exact Hfg| |].
    + apply Hi. left.
    + intros b Eb. apply Hb. apply list_elem_of_omap. exists g. split; [left|done].
  - apply IH.
    + intros i Hin. apply Hi. by right.
    + intros b Hin. apply Hb. cbn. destruct (g_blk g); [by right|done].
Qed.

(** Strings through the copies. *)
Lemma cstr_copied (src dst : mem) n l :
  cstr src 0 l -> Z.of_nat (length l) < n -> cstr (copy_bytes dst src n) 0 l.
Proof.
  intros Hc Hn. eapply cstr_ext8, Hc. intros i Hi. unfold copy_bytes, ld8 at 1. rewrite !Z.add_0_l.
  rewrite (proj2 (andb_true_iff _ _)) by lia. apply u8_ld8.
Qed.

(** A name of at most 255 bytes survives [copy_name]. *)
Lemma cstr_copy_name (name : mem) l :
  cstr name 0 l -> (length l <= 255)%nat -> cstr (copy_name name) 0 l.
Proof.
  intros Hc Hn. pose proof (cstr_end _ _ _ Hc) as He. eapply cstr_ext8, Hc. intros i Hi. rewrite !Z.add_0_l in *.
  unfold ld8 at 1, copy_name, MAX_FILENAME, copy_bytes. change (256 - 1) with 255.
  destruct (i =? 255) eqn:E; bool_to_prop.
  - subst i. replace (Z.of_nat (length l)) with 255 in He by lia. symmetry. exact He.
  - rewrite (proj2 (andb_true_iff _ _)) by lia. apply u8_ld8.
Qed.

(** ** Looking up a name *)

(** The entry that counts is the first with the name. *)
Definition find_entry (R : list gfile) (l : list Z) : option (nat * gfile) :=
  list_find (fun g => g_name g = l) R.

Lemma lookup_file_spec v fs R name l k :
  Forall2 (file_ok v) fs R -> cstr name 0 l ->
  lookup_file fs name k = VOk ((fun p => (k + fst p)%nat) <$> find_entry R l).
Proof.
  intros HF Hc. revert k. unfold find_entry. induction HF as [|f g fs R (Hn & Hl & _) HF IH]; intros k; [done|].
  cbn [lookup_file list_find].
  destruct (strcmp2_cstr _ _ (g_name g) l 0 0 257 Hn Hc ltac:(lia)) as (r & -> & Hz & _). cbn [vcall vbind].
  destruct (decide (g_name g = l)) as [E|E].
  - apply Hz in E. rewrite E. cbn. do 2 f_equal. lia.
  - rewrite (proj2 (Z.eqb_neq r 0)) by tauto. rewrite IH.
    destruct (list_find _ R) as [[i g']|]; cbn; [|done]. by rewrite Nat.add_succ_r.
Qed.

Section Ops.
Context {H : Type} `{HA : HeapApi H}.

(** A world whose file system holds [R]; the heap is whatever the allocator's
    contract says. *)
Definition holds (w : world (H := H)) (R : list gfile) : Prop :=
  w_vfs w <> 0 /\ exists v, w_obj w = Some v /\ vrep v R.

Lemma grow_idle h v R : vrep v R -> grow h v = VOk (h, v).
Proof.
  intros Hr. destruct (rep_bounds v R Hr) as (Hb & _ & Hl). unfold grow, file_count.
  destruct (vr_ptrs _ _ Hr) as (_ & _ & ->). rewrite (proj2 (Z.leb_gt _ _)) by lia. done.
Qed.

(** ** [read_file] *)

Lemma read_file_spec (w : world (H := H)) R name l :
  holds w R -> cstr name 0 l ->
  exists r, read_file w name = VOk r /\
    match snd <$> find_entry R l with
    | Some (GF _ _ (Some (b, c))) => r = Some b /\ exists v blk, w_obj w = Some v /\ v_blocks v !! b = Some blk /\ cstr blk 0 c
    | _ => r = None
    end.
Proof.
  intros (Hp & v & Hv & Hr) Hc. unfold read_file. rewrite (proj2 (Z.eqb_neq _ _) Hp), Hv. cbn [velem vbind].
  destruct (vr_ptrs _ _ Hr) as (Hrp & _). rewrite (proj2 (Z.eqb_neq _ _) Hrp).
  rewrite (lookup_file_spec v _ R name l 0 (vr_files _ _ Hr) Hc). cbn [vbind].
  destruct (find_entry R l) as [[i g]|] eqn:E; cbn [fmap option_fmap option_map fst snd]; [|by exists None].
  apply list_find_Some in E as (Hi & _). rewrite Nat.add_0_l.
  destruct (Forall2_lookup_r _ _ _ _ _ (vr_files _ _ Hr) Hi) as (f & Hf & Hn & Hl & Hino & ino & Hin & Hd).
  rewrite Hf. cbn [velem vbind]. rewrite Hino, Nat2Z.id, Hin. cbn [velem vbind].
  destruct g as [gn gi [[b c]|]]; cbn [g_data g_inum] in *.
  - destruct Hd as (Hm & Hb & blk & Hblk & Hcc & Hne). rewrite Hm, Hb. cbn [Z.eqb Pos.eqb lookup list_lookup velem vbind].
    pose proof (lookup_lt_Some _ _ _ Hblk) as Hlt. rewrite (vr_blocks _ _ Hr) in Hlt.
    unfold NO_BLOCK. rewrite (proj2 (Z.eqb_neq _ _)) by lia. rewrite (proj2 (Z.ltb_lt _ _)) by (unfold MAX_DATABLOCKS; lia).
    rewrite Nat2Z.id. eexists. split; [done|]. eauto 10.
  - destruct Hd as (Hm & Hb). rewrite Hm. by exists None.
Qed.

(** Projections of updated file systems. *)
Ltac vcbn := cbn [v_superblock_ptr v_inode_ptrs v_root_ptr v_files_ptr v_root_name v_superblock v_inodes v_blocks
  v_files v_capacity v_total_files v_total_size set_inodes set_blocks set_files set_array set_totals
  s_magic s_block_size s_inode_count s_free_blocks s_root_inode set_counts i_mode i_size i_blocks
  f_name f_inode g_name g_inum g_data] in *.

(** ** [create_file] *)

(** The file system after a successful [create_file]. *)
Lemma create_rep v R name data l c inum b ino blk len :
  vrep v R -> cstr name 0 l -> (length l <= 255)%nat -> cstr data 0 c -> c <> [] -> Z.of_nat (length c) < 4096 ->
  inum ∉ g_inum <$> R -> v_inodes v !! inum = Some ino -> i_blocks ino = replicate 50 NO_BLOCK ->
  b ∉ omap g_blk R -> v_blocks v !! b = Some blk ->
  let v1 := set_inodes v (<[inum := Inode 420 (u32 len) (<[0%nat := Z.of_nat b]> (i_blocks ino))]> (v_inodes v)) in
  let v2 := set_blocks v1 (<[b := copy_bytes blk data VBLOCK_SIZE]> (v_blocks v1)) in
  let v3 := set_files v2 (v_files v2 ++ [File (copy_name name) (Z.of_nat inum)]) in
  let sb := v_superblock v3 in
  vrep (set_totals v3 (set_counts sb (u32 (s_inode_count sb - 1)) (u32 (s_free_blocks sb - 1)))
          (i32 (v_total_files v3 + 1)) (u64 (v_total_size v3 + len)))
       (R ++ [GF l inum (Some (b, c))]).
Proof.
  intros Hr Hl Hl2 Hc Hne Hlen Hi Hino Hbl Hb Hblk v1 v2 v3 sb.
  pose proof (lookup_lt_Some _ _ _ Hino) as Hilt. pose proof (lookup_lt_Some _ _ _ Hblk) as Hblt.
  destruct (rep_bounds v R Hr) as (HR100 & HR50 & _).
  assert (HRlt : (length R < 100)%nat).
  { rewrite (vr_inodes _ _ Hr) in Hilt. assert (Hle : (length (inum :: (g_inum <$> R)) <= 100)%nat).
    - apply bounded_nodup; [by constructor; [|apply (vr_inj _ _ Hr)]|]. intros x [->|Hx]%elem_of_cons; [lia|by apply (rep_inum_lt v R Hr)].
    - cbn in Hle. rewrite length_fmap in Hle. lia. }
  assert (HBlt : (length (omap g_blk R) < 50)%nat).
  { rewrite (vr_blocks _ _ Hr) in Hblt. assert (Hle : (length (b :: omap g_blk R) <= 50)%nat); [|cbn in Hle; lia].
    apply bounded_nodup; [by constructor; [|apply (vr_blk _ _ Hr)]|]. intros x [->|Hx]%elem_of_cons; [lia|by apply (rep_blk_lt v R Hr)]. }
  assert (Eo : omap g_blk (R ++ [GF l inum (Some (b, c))]) = omap g_blk R ++ [b]) by (by rewrite omap_app).
  subst sb v3 v2 v1. constructor; vcbn.
  - rewrite length_insert. apply (vr_inodes _ _ Hr).
  - rewrite length_insert. apply (vr_blocks _ _ Hr).
  - apply (vr_ptrs _ _ Hr).
  - apply Forall2_app.
    + eapply files_ext; [apply (vr_files _ _ Hr)| |]; vcbn.
      * intros i Hin. apply list_lookup_insert_ne. congruence.
      * intros b' Hin. apply list_lookup_insert_ne. congruence.
    + constructor; [|constructor]. unfold file_ok. vcbn.
      split_and_all; [by apply cstr_copy_name|done|done|]. eexists. rewrite list_lookup_insert_eq by done.
      split; [reflexivity|]. vcbn. rewrite Hbl. split_and_all; [done|done|].
      exists (copy_bytes blk data VBLOCK_SIZE). rewrite list_lookup_insert_eq by done. split_and_all; [done|by apply cstr_copied|done].
  - rewrite fmap_app. apply NoDup_app. split_and_all; [apply (vr_inj _ _ Hr)| |apply NoDup_singleton].
    intros x Hx ->%list_elem_of_singleton. done.
  - rewrite Eo. apply NoDup_app. split_and_all; [apply (vr_blk _ _ Hr)| |apply NoDup_singleton].
    intros x Hx ->%list_elem_of_singleton. done.
  - intros i ino'. rewrite fmap_app, elem_of_app, list_lookup_insert. case_decide as Hd.
    + intros _. right. right. destruct Hd as [<- _]. left.
    + intros Hi'. destruct (vr_unused _ _ Hr i ino' Hi'); tauto.
  - intros b' blk'. rewrite Eo, elem_of_app, list_lookup_insert. case_decide as Hd.
    + intros _. right. right. destruct Hd as [<- _]. left.
    + intros Hb'. destruct (vr_clear _ _ Hr b' blk' Hb'); tauto.
  - rewrite (vr_icount _ _ Hr), length_app. cbn [length]. rewrite u32_small by lia. lia.
  - rewrite (vr_bcount _ _ Hr), Eo, length_app. cbn [length]. rewrite u32_small by lia. lia.
  - rewrite (vr_total _ _ Hr), length_app. cbn [length]. rewrite i32_small by lia. lia.
Qed.

Lemma create_file_spec fuel (w : world (H := H)) R name data l c :
  holds w R -> cstr name 0 l -> (length l <= 255)%nat -> cstr data 0 c -> c <> [] ->
  Z.of_nat (length c) < 4096 -> (length c < fuel)%nat ->
  (length R = 100%nat /\ create_file fuel w name data = VOk (w, -1)) \/
  ((length R < 100)%nat /\ length (omap g_blk R) = 50%nat /\ create_file fuel w name data = VWild) \/
  (exists w' inum b, create_file fuel w name data = VOk (w', 0) /\ w_heap w' = w_heap w /\
     holds w' (R ++ [GF l inum (Some (b, c))])).
Proof.
  intros (Hp & v & Hv & Hr) Hl Hl2 Hc Hne Hlen Hf. unfold create_file. rewrite Hv. cbn [velem vbind].
  rewrite (grow_idle _ v R Hr). cbn [vbind].
  destruct (free_inode_cases v R Hr) as [[-> HR]|(inum & -> & Hi100 & Hi & ino & Hino & Hbl)].
  { left. split; [done|]. destruct w as [wh wv wo]. cbn in *. by rewrite Hv. }
  right. rewrite (strlen_cstr data 0 c) by done. cbn [vcall vbind]. rewrite Hino. cbn [velem vbind].
  assert (HR : (length R < 100)%nat).
  { destruct (rep_bounds v R Hr) as (Hle & _). destruct (Nat.eq_dec (length R) 100) as [E|]; [|lia]. exfalso.
    assert (Hle2 : (length (inum :: (g_inum <$> R)) <= 100)%nat); [|cbn in Hle2; rewrite length_fmap in Hle2; lia].
    apply bounded_nodup; [by constructor; [|apply (vr_inj _ _ Hr)]|].
    intros x [->|Hx]%elem_of_cons; [lia|by apply (rep_inum_lt v R Hr)]. }
  destruct (free_block_cases v R Hr) as [[-> HB]|(b & -> & Hb50 & Hb & blk & Hblk)]; [by left|].
  right. cbn [velem vbind]. rewrite Hblk. cbn [velem vbind].
  destruct (vr_ptrs _ _ Hr) as (_ & Hfp & _). rewrite (proj2 (Z.eqb_neq _ _) Hfp).
  eexists _, inum, b. split; [reflexivity|]. split; [done|]. split; [done|]. eexists. split; [reflexivity|].
  by eapply create_rep.
Qed.

(** ** [delete_file] *)

Lemma release_none n blocks fb : release_blocks (replicate n NO_BLOCK) blocks fb = VOk (blocks, fb).
Proof. induction n as [|n IH]; [done|]. cbn [replicate release_blocks]. by rewrite Z.eqb_refl. Qed.

(** What [delete_file] clears for an entry. *)
Lemma release_entry v f g ino fb :
  length (v_blocks v) = 50%nat -> file_ok v f g -> v_inodes v !! g_inum g = Some ino ->
  exists blocks, release_blocks (i_blocks ino) (v_blocks v) fb =
      VOk (blocks, match g_blk g with Some _ => u32 (fb + 1) | None => fb end) /\
    length blocks = 50%nat /\
    (forall b, g_blk g <> Some b -> blocks !! b = v_blocks v !! b) /\
    (forall b blk, g_blk g = Some b -> blocks !! b = Some blk -> ld8 blk 0 = 0).
Proof.
  intros Hlen (_ & _ & _ & ino' & Hi & Hd) Hi'. rewrite Hi in Hi'. injection Hi' as ->. unfold g_blk.
  destruct (g_data g) as [[b c]|]; cbn [fmap option_fmap option_map fst].
  - destruct Hd as (_ & Hb & blk & Hblk & _). rewrite Hb. cbn [release_blocks].
    pose proof (lookup_lt_Some _ _ _ Hblk) as Hlt. unfold NO_BLOCK at 1. rewrite (proj2 (Z.eqb_neq _ _)) by lia.
    rewrite Nat2Z.id, Hblk. cbn [velem vbind]. rewrite release_none. eexists. split; [reflexivity|].
    rewrite length_insert. split_and_all; [done| |].
    + intros b' Hb'. apply list_lookup_insert_ne. congruence.
    + intros b' blk' [= <-]. rewrite list_lookup_insert_eq by done. by intros [= <-].
  - destruct Hd as (_ & ->). rewrite release_none. eexists. split; [reflexivity|]. split_and_all; done.
Qed.

Lemma omap_blk_mid R1 g R2 :
  omap g_blk (R1 ++ g :: R2) = omap g_blk R1 ++ (match g_blk g with Some b => [b] | None => [] end) ++ omap g_blk R2.
Proof. rewrite omap_app. f_equal. cbn. by destruct (g_blk g). Qed.

Lemma delete_rep v R1 g R2 blocks fb sz :
  vrep v (R1 ++ g :: R2) -> length blocks = 50%nat ->
  fb = match g_blk g with Some _ => s_free_blocks (v_superblock v) + 1 | None => s_free_blocks (v_superblock v) end ->
  (forall b, g_blk g <> Some b -> blocks !! b = v_blocks v !! b) ->
  (forall b blk, g_blk g = Some b -> blocks !! b = Some blk -> ld8 blk 0 = 0) ->
  let i := length R1 in
  vrep (VObj (v_superblock_ptr v) (v_inode_ptrs v) (v_root_ptr v) (v_files_ptr v) (v_root_name v)
          (set_counts (v_superblock v) (u32 (s_inode_count (v_superblock v) + 1)) fb)
          (<[g_inum g := empty_inode]> (v_inodes v)) blocks (take i (v_files v) ++ drop (S i) (v_files v))
          (v_capacity v) (i32 (v_total_files v - 1)) sz)
       (R1 ++ R2).
Proof.
  intros Hr Hlen Hfb Hsame Hclr i. pose proof (vr_files _ _ Hr) as HF.
  destruct (rep_bounds v _ Hr) as (H100 & _ & _). rewrite length_app in H100. cbn [length] in H100.
  apply Forall2_app_inv_r in HF as (fs1 & fs' & HF1 & HF2 & Efs). apply Forall2_cons_inv_r in HF2 as (f & fs2 & Hfg & HF2 & ->).
  assert (El : i = length fs1) by (symmetry; by eapply Forall2_length).
  pose proof (vr_inj _ _ Hr) as Hnd. rewrite fmap_app, fmap_cons in Hnd. apply NoDup_app in Hnd as (Hn1 & Hn12 & Hn2).
  apply NoDup_cons in Hn2 as [Hng Hn2].
  pose proof (vr_blk _ _ Hr) as Hnb. rewrite omap_blk_mid in Hnb.
  assert (Hgi : forall j, j ∈ g_inum <$> (R1 ++ R2) -> j <> g_inum g).
  { intros j. rewrite fmap_app, elem_of_app. intros [Hj|Hj] ->; [|done]. apply (Hn12 _ Hj). left. }
  assert (Hgb : forall b, b ∈ omap g_blk (R1 ++ R2) -> g_blk g <> Some b).
  { intros b. rewrite omap_app, elem_of_app. intros Hb E. rewrite E in Hnb. apply NoDup_app in Hnb as (_ & Hd & Hn).
    cbn in Hd, Hn. apply NoDup_cons in Hn as [Hn _]. destruct Hb as [Hb|Hb]; [|done]. apply (Hd b Hb). left. }
  constructor; vcbn.
  - rewrite length_insert. apply (vr_inodes _ _ Hr).
  - done.
  - apply (vr_ptrs _ _ Hr).
  - rewrite Efs, El, take_app_length. rewrite (drop_app_ge fs1) by lia.
    replace (S (length fs1) - length fs1)%nat with 1%nat by lia. cbn [drop].
    eapply (files_ext v); [by apply Forall2_app| |]; vcbn.
    + intros j Hj%Hgi. apply list_lookup_insert_ne. congruence.
    + intros b Hb%Hgb. by apply Hsame.
  - rewrite fmap_app. apply NoDup_app. split_and_all; [done| |done]. intros x Hx Hx'. apply (Hn12 x Hx). by right.
  - rewrite omap_app. rewrite NoDup_app in Hnb |- *. destruct Hnb as (Ha & Hb & Hc).
    apply NoDup_app in Hc as (_ & _ & Hc). split_and_all; [done| |done]. intros x Hx Hx'. apply (Hb x Hx). apply elem_of_app. by right.
  - intros j ino. rewrite list_lookup_insert. case_decide as Hd.
    + intros [= <-]. by left.
    + intros Hj. destruct (vr_unused _ _ Hr j ino Hj) as [?|Hin]; [by left|]. right.
      rewrite fmap_app, fmap_cons, elem_of_app, elem_of_cons in Hin. rewrite fmap_app, elem_of_app.
      destruct Hin as [?|[->|?]]; [auto| |auto]. apply lookup_lt_Some in Hj. tauto.
  - intros b blk Hb. destruct (g_blk g) as [b0|] eqn:Eg.
    + destruct (decide (b = b0)) as [->|Hne]; [left; by apply (Hclr b0)|].
      rewrite Hsame in Hb by congruence. destruct (vr_clear _ _ Hr b blk Hb) as [?|Hin]; [by left|]. right.
      rewrite omap_blk_mid, Eg, !elem_of_app in Hin. rewrite omap_app, elem_of_app.
      destruct Hin as [?|[->%list_elem_of_singleton|?]]; [auto|done|auto].
    + rewrite Hsame in Hb by congruence. destruct (vr_clear _ _ Hr b blk Hb) as [?|Hin]; [by left|]. right.
      rewrite omap_blk_mid, Eg in Hin. by rewrite omap_app.
  - rewrite (vr_icount _ _ Hr), !length_app. cbn [length]. rewrite u32_small by lia. lia.
  - rewrite Hfb, (vr_bcount _ _ Hr), omap_blk_mid, omap_app, !length_app.
    destruct (g_blk g); cbn [length]; lia.
  - rewrite (vr_total _ _ Hr), !length_app. cbn [length]. rewrite i32_small by lia. lia.
Qed.

Lemma delete_file_spec (w : world (H := H)) R name l :
  holds w R -> cstr name 0 l ->
  (find_entry R l = None /\ delete_file w name = VOk (w, -1)) \/
  (exists R1 g R2 w', R = R1 ++ g :: R2 /\ find_entry R l = Some (length R1, g) /\
     delete_file w name = VOk (w', 0) /\ w_heap w' = w_heap w /\ holds w' (R1 ++ R2) /\
     (v_total_size <$> w_obj w') = (fun v => u64 (v_total_size v)) <$> w_obj w).
Proof.
  intros (Hp & v & Hv & Hr) Hc. unfold delete_file. rewrite Hv. cbn [velem vbind].
  rewrite (lookup_file_spec v _ R name l 0 (vr_files _ _ Hr) Hc). cbn [vbind].
  destruct (find_entry R l) as [[i g]|] eqn:E; cbn [fmap option_fmap option_map fst snd]; [|by left].
  right. pose proof E as E'. apply list_find_Some in E' as (Hi & _). rewrite Nat.add_0_l.
  pose proof (take_drop_middle _ _ _ Hi) as ER. set (R1 := take i R) in *. set (R2 := drop (S i) R) in *.
  assert (Ei : i = length R1).
  { unfold R1. rewrite length_take. apply lookup_lt_Some in Hi. lia. }
  destruct (Forall2_lookup_r _ _ _ _ _ (vr_files _ _ Hr) Hi) as (f & Hf & Hok).
  rewrite Hf. cbn [velem vbind]. pose proof Hok as (_ & _ & Hino & ino & Hin & _).
  rewrite Hino, Nat2Z.id, Hin. cbn [velem vbind].
  destruct (release_entry v f g ino (s_free_blocks (v_superblock v)) (vr_blocks _ _ Hr) Hok Hin)
    as (blocks & -> & Hlen & Hsame & Hclr). cbn [vbind]. vcbn.
  pose proof (lookup_lt_Some _ _ _ Hin) as Hlt. rewrite list_lookup_insert_eq by done. cbn [velem vbind].
  exists R1, g, R2. eexists. split; [by rewrite ER|]. split; [by rewrite Ei|]. split; [reflexivity|]. split; [done|]. split.
  - split; [done|]. eexists. split; [reflexivity|]. rewrite <- ER in Hr. rewrite Ei.
    refine (delete_rep v R1 g R2 blocks _ _ Hr Hlen _ Hsame Hclr). destruct (rep_bounds v _ Hr) as (_ & H50 & _).
    destruct (g_blk g) eqn:Eg; [|done]. rewrite (vr_bcount _ _ Hr). rewrite u32_small; [done|].
    rewrite omap_blk_mid, Eg, !length_app in *. cbn [length] in *. lia.
  - cbn. by rewrite Z.sub_0_r.
Qed.

(** ** Allocation *)

(** The requests of the file system. *)
Definition vfs_sizes (h : H) : Prop :=
  Forall (h_size h) [sizeof_VFS; sizeof_superblock; sizeof_inode; sizeof_Directory; INITIAL_CAPACITY * sizeof_File].

Lemma free_all_ok h ps L :
  h_live h (ps ++ L) -> exists h', free_all h ps = VOk h' /\ h_live h' L /\ (forall k, h_size h k -> h_size h' k).
Proof.
  revert h. induction ps as [|p ps IH]; intros h Hl; cbn [free_all app] in *; [eauto|].
  destruct (h_free_ok h (ps ++ L) p Hl) as (h1 & -> & Hl1 & Hs1). cbn [vcall vbind].
  destruct (IH h1 Hl1) as (h2 & E & Hl2 & Hs2). exists h2. auto.
Qed.

Lemma alloc_inodes_ok n h acc L :
  h_live h (acc ++ L) -> h_size h sizeof_inode ->
  exists h' ps ok, alloc_inodes n h acc = VOk (h', acc ++ ps, ok) /\ h_live h' (acc ++ ps ++ L) /\
    (ok = true -> length ps = n) /\ (forall k, h_size h k -> h_size h' k).
Proof.
  revert h acc. induction n as [|n IH]; intros h acc Hl Hs; cbn [alloc_inodes].
  - exists h, [], true. rewrite app_nil_r. done.
  - destruct (h_alloc_ok h _ sizeof_inode Hl Hs) as (h1 & p & -> & Hs1 & Hc). cbn [vcall vbind].
    destruct Hc as [[-> Hl1]|[Hp Hl1]].
    + exists h1, [], false. cbn [Z.eqb]. rewrite app_nil_r. done.
    + rewrite (proj2 (Z.eqb_neq _ _) Hp).
      destruct (IH h1 (acc ++ [p])) as (h2 & ps & ok & -> & Hl2 & Hn & Hs2).
      * rewrite <- app_assoc. eapply h_live_perm, Hl1. cbn. by rewrite Permutation_middle.
      * by apply Hs1.
      * exists h2, (p :: ps), ok. rewrite <- !app_assoc in *. cbn [app] in *. split_and_all; try done.
        -- intros Hok. cbn. f_equal. by apply Hn.
        -- auto.
Qed.

Lemma vrep_init sb ps root files rn :
  root <> 0 -> files <> 0 ->
  vrep (VObj sb ps root files rn
    (Superblock MYFS_MAGIC VBLOCK_SIZE (Z.of_nat MAX_FILES) (Z.of_nat MAX_DATABLOCKS) 0)
    (replicate MAX_FILES empty_inode)
    (replicate MAX_DATABLOCKS (fill_bytes (fun _ => 0) 0 VBLOCK_SIZE)) [] INITIAL_CAPACITY 0 0) [].
Proof.
  intros Hr Hf. constructor; vcbn; try done.
  - constructor.
  - apply NoDup_nil_2.
  - intros i ino [-> _]%lookup_replicate. by left.
  - intros b blk [-> _]%lookup_replicate. by left.
Qed.

Lemma init_vfs_spec h L :
  h_live h L -> vfs_sizes h ->
  exists w, init_vfs h = VOk w /\
    ((w_obj w = None /\ h_live (w_heap w) L) \/
     (holds w [] /\ exists ps, length ps = 104%nat /\ h_live (w_heap w) (ps ++ L))).
Proof.
  intros Hl Hsz. unfold init_vfs. repeat (apply Forall_cons in Hsz as [? Hsz]).
  destruct (h_alloc_ok h L sizeof_VFS Hl ltac:(done)) as (h1 & p & -> & Hs1 & Hc). cbn [vcall vbind].
  destruct Hc as [[-> Hl1]|[Hp Hl1]]; [eexists; split; [reflexivity|by left]|]. rewrite (proj2 (Z.eqb_neq _ _) Hp).
  destruct (h_alloc_ok h1 _ sizeof_superblock Hl1 ltac:(auto)) as (h2 & sb & -> & Hs2 & Hc). cbn [vcall vbind].
  destruct Hc as [[-> Hl2]|[Hsb Hl2]].
  { cbn [Z.eqb]. destruct (free_all_ok h2 [p] L Hl2) as (h' & -> & Hl' & _). cbn [vbind].
    eexists; split; [reflexivity|by left]. }
  rewrite (proj2 (Z.eqb_neq _ _) Hsb).
  destruct (alloc_inodes_ok MAX_FILES h2 [] _ Hl2 ltac:(auto)) as (h3 & ps & ok & -> & Hl3 & Hlen & Hs3). cbn [vbind app] in *.
  assert (Hfree : forall h' pre, h_live h' (pre ++ ps ++ sb :: p :: L) ->
    exists h'', free_all h' (pre ++ ps ++ [sb; p]) = VOk h'' /\ h_live h'' L).
  { intros h' pre Hl'. destruct (free_all_ok h' (pre ++ ps ++ [sb; p]) L) as (h'' & E & Hl'' & _); [|eauto].
    rewrite <- !app_assoc. exact Hl'. }
  destruct ok; cbn [negb].
  2: { destruct (Hfree h3 [] Hl3) as (h' & E & Hl'). cbn [app] in E. rewrite E. cbn [vbind].
       eexists; split; [reflexivity|by left]. }
  destruct (h_alloc_ok h3 _ sizeof_Directory Hl3 ltac:(auto)) as (h4 & root & -> & Hs4 & Hc). cbn [vcall vbind].
  destruct Hc as [[-> Hl4]|[Hroot Hl4]].
  { cbn [Z.eqb]. destruct (Hfree h4 [] Hl4) as (h' & E & Hl'). cbn [app] in E. rewrite E. cbn [vbind].
    eexists; split; [reflexivity|by left]. }
  rewrite (proj2 (Z.eqb_neq _ _) Hroot).
  destruct (h_alloc_ok h4 _ (INITIAL_CAPACITY * sizeof_File) Hl4 ltac:(auto)) as (h5 & files & -> & Hs5 & Hc). cbn [vcall vbind].
  destruct Hc as [[-> Hl5]|[Hfiles Hl5]].
  { cbn [Z.eqb]. destruct (Hfree h5 [root] Hl5) as (h' & E & Hl'). cbn [app] in E. rewrite E. cbn [vbind].
    eexists; split; [reflexivity|by left]. }
  rewrite (proj2 (Z.eqb_neq _ _) Hfiles). eexists; split; [reflexivity|]. right. split.
  - split; [done|]. eexists. split; [reflexivity|]. by apply vrep_init.
  - exists (files :: root :: ps ++ [sb; p]). split; [cbn; rewrite length_app, Hlen by done; done|].
    cbn [w_heap]. eapply h_live_perm, Hl5. cbn. by rewrite <- app_assoc.
Qed.

(** ** [create_directory] *)

Lemma directory_rep v R name l inum ino :
  vrep v R -> cstr name 0 l -> (length l <= 255)%nat ->
  inum ∉ g_inum <$> R -> v_inodes v !! inum = Some ino ->
  let v1 := set_inodes v (<[inum := Inode 493 0 (replicate MAX_BLOCK_NUMBER NO_BLOCK)]> (v_inodes v)) in
  let v2 := set_files v1 (v_files v1 ++ [File (copy_name name) (Z.of_nat inum)]) in
  let sb := v_superblock v2 in
  vrep (set_totals v2 (set_counts sb (u32 (s_inode_count sb - 1)) (s_free_blocks sb))
          (i32 (v_total_files v2 + 1)) (v_total_size v2)) (R ++ [GF l inum None]).
Proof.
  intros Hr Hl Hl2 Hi Hino v1 v2 sb. pose proof (lookup_lt_Some _ _ _ Hino) as Hilt.
  assert (HRlt : (length R < 100)%nat).
  { rewrite (vr_inodes _ _ Hr) in Hilt. assert (Hle : (length (inum :: (g_inum <$> R)) <= 100)%nat).
    - apply bounded_nodup; [by constructor; [|apply (vr_inj _ _ Hr)]|].
      intros x [->|Hx]%elem_of_cons; [lia|by apply (rep_inum_lt v R Hr)].
    - cbn in Hle. rewrite length_fmap in Hle. lia. }
  assert (Eo : omap g_blk (R ++ [GF l inum None]) = omap g_blk R) by (rewrite omap_app; apply app_nil_r).
  subst sb v2 v1. constructor; vcbn; rewrite ?Eo; try apply Hr.
  - rewrite length_insert. apply (vr_inodes _ _ Hr).
  - apply Forall2_app.
    + eapply files_ext; [apply (vr_files _ _ Hr)| |done]; vcbn. intros i Hin. apply list_lookup_insert_ne. congruence.
    + constructor; [|constructor]. unfold file_ok. vcbn.
      split_and_all; [by apply cstr_copy_name|done|done|]. eexists. rewrite list_lookup_insert_eq by done. done.
  - rewrite fmap_app. apply NoDup_app. split_and_all; [apply (vr_inj _ _ Hr)| |apply NoDup_singleton].
    intros x Hx ->%list_elem_of_singleton. done.
  - intros i ino'. rewrite fmap_app, elem_of_app, list_lookup_insert. case_decide as Hd.
    + intros _. right. right. destruct Hd as [<- _]. left.
    + intros Hi'. destruct (vr_unused _ _ Hr i ino' Hi'); tauto.
  - rewrite (vr_icount _ _ Hr), length_app. cbn [length]. rewrite u32_small by lia. lia.
  - rewrite (vr_total _ _ Hr), length_app. cbn [length]. rewrite i32_small by lia. lia.
Qed.

Lemma create_directory_spec fuel (w : world (H := H)) R name l L :
  holds w R -> h_live (w_heap w) L -> vfs_sizes (w_heap w) ->
  cstr name 0 l -> (length l <= 255)%nat -> (length l < fuel)%nat ->
  (exists w', create_directory fuel w name = VOk (w', -1) /\ holds w' R /\ h_live (w_heap w') L) \/
  (length R = 100%nat /\ create_directory fuel w name = VWild) \/
  (exists w' inum p q, create_directory fuel w name = VOk (w', 0) /\
     holds w' (R ++ [GF l inum None]) /\ h_live (w_heap w') (p :: q :: L)).
Proof.
  intros (Hp & v & Hv & Hr) HL Hsz Hl Hl2 Hf. unfold create_directory. rewrite Hv. cbn [velem vbind].
  rewrite (strlen_cstr name 0 l) by done. cbn [vcall vbind].
  unfold MAX_FILENAME. rewrite (proj2 (Z.ltb_ge _ _)) by lia.
  repeat (apply Forall_cons in Hsz as [? Hsz]).
  destruct (h_alloc_ok (w_heap w) L sizeof_Directory HL ltac:(done)) as (h1 & dir & -> & Hs1 & Hc). cbn [vcall vbind].
  destruct Hc as [[-> Hl1]|[Hd Hl1]].
  { left. eexists. split; [reflexivity|]. split; [|done]. split; [done|]. by exists v. }
  rewrite (proj2 (Z.eqb_neq _ _) Hd).
  destruct (h_alloc_ok h1 _ (INITIAL_CAPACITY * sizeof_File) Hl1 ltac:(auto)) as (h2 & df & -> & Hs2 & Hc). cbn [vcall vbind].
  destruct Hc as [[-> Hl3]|[Hdf Hl3]].
  { left. cbn [Z.eqb]. destruct (h_free_ok h2 L dir Hl3) as (h3 & -> & Hl4 & _). cbn [vcall vbind].
    eexists. split; [reflexivity|]. split; [|done]. split; [done|]. by exists v. }
  rewrite (proj2 (Z.eqb_neq _ _) Hdf). right.
  destruct (free_inode_cases v R Hr) as [[-> HR]|(inum & -> & Hi100 & Hi & ino & Hino & Hbl)]; [by left|right].
  cbn [velem vbind].
  assert (Hg : forall v', v_capacity v' = 200 -> length (v_files v') = length R -> grow h2 v' = VOk (h2, v')).
  { intros v' Hc' Hl'. destruct (rep_bounds v R Hr) as (Hb & _). unfold grow, file_count. rewrite Hc', Hl'.
    rewrite (proj2 (Z.leb_gt _ _)) by lia. done. }
  destruct (vr_ptrs _ _ Hr) as (_ & Hfp & Hcap). destruct (rep_bounds v R Hr) as (_ & _ & Hfl).
  rewrite Hg by done. cbn [vbind]. vcbn. rewrite (proj2 (Z.eqb_neq _ _) Hfp).
  eexists _, inum, df, dir. split; [reflexivity|]. split; [|done]. split; [done|]. eexists. split; [reflexivity|].
  exact (directory_rep v R name l inum ino Hr Hl Hl2 Hi Hino).
Qed.

(** ** Properties *)

(** The directory listing a world shows. *)
Definition shows (w : world (H := H)) (A : listing) : Prop :=
  exists R, holds w R /\ A = entry_of <$> R.

Lemma regulars_blk R : regulars (entry_of <$> R) = length (omap g_blk R).
Proof.
  induction R as [|g R IH]; [done|]. rewrite fmap_cons. cbn [omap list_omap]. unfold regulars in *. rewrite filter_cons.
  destruct g as [gn gi [[b c]|]]; cbn [g_blk g_data fmap option_fmap option_map fst].
  - rewrite decide_True by done. cbn [length]. by rewrite IH.
  - rewrite decide_False by (intros Hn; by apply Hn). exact IH.
Qed.

Lemma find_name_entry R l :
  find_name (entry_of <$> R) l = (fun p => (fst p, entry_of (snd p))) <$> find_entry R l.
Proof.
  unfold find_name, find_entry. induction R as [|g R IH]; [done|]. rewrite fmap_cons. cbn [list_find entry_of fst].
  destruct (decide (g_name g = l)); [done|]. rewrite IH. by destruct (list_find _ R) as [[i g']|].
Qed.

Lemma shows_length (w : world (H := H)) A : shows w A -> (length A <= 100)%nat.
Proof.
  intros (R & (_ & v & _ & Hr) & ->). rewrite length_fmap. by apply (rep_bounds v R).
Qed.

(** What [read_file] answers. *)
Definition answers (w : world (H := H)) (r : option nat) (n : option node) : Prop :=
  match n with
  | Some (Reg c) => exists b v blk, r = Some b /\ w_obj w = Some v /\ v_blocks v !! b = Some blk /\ cstr blk 0 c
  | _ => r = None
  end.

Lemma read_answers (w : world (H := H)) A name l :
  shows w A -> cstr name 0 l ->
  exists r, read_file w name = VOk r /\ answers w r ((fun p => snd (snd p)) <$> find_name A l).
Proof.
  intros (R & Hw & ->) Hc. destruct (read_file_spec w R name l Hw Hc) as (r & E & Hr). exists r. split; [done|].
  rewrite find_name_entry. destruct (find_entry R l) as [[i [gn gi [[b c]|]]]|]; cbn in *; [|done|done].
  destruct Hr as (-> & v & blk & ? & ? & ?). eauto 10.
Qed.

(** [create_file] with a name of at most 255 bytes and a non-empty text that
    fits one block: with fewer than 100 entries and fewer than 50 texts it succeeds
    and the entry is the new last one; with 100 entries it answers -1 and changes
    nothing; with 100 entries not reached but all 50 blocks taken it writes outside
    the block array, because the failed search for a block is not checked. *)
Theorem create_file_appends (fuel : nat) (w : world (H := H)) (A : listing) (name data : mem) (l c : list Z) :
  shows w A -> cstr name 0 l -> (length l <= 255)%nat -> cstr data 0 c -> c <> [] ->
  Z.of_nat (length c) < VBLOCK_SIZE -> (length c < fuel)%nat ->
  (length A = 100%nat -> create_file fuel w name data = VOk (w, -1)) /\
  ((length A < 100)%nat -> regulars A = 50%nat -> create_file fuel w name data = VWild) /\
  ((length A < 100)%nat -> (regulars A < 50)%nat ->
     exists w', create_file fuel w name data = VOk (w', 0) /\ shows w' (A ++ [(l, Reg c)])).
Proof.
  intros (R & Hw & ->) Hl Hl2 Hc Hne Hlen Hf. rewrite regulars_blk, length_fmap.
  pose proof Hw as (_ & v & _ & Hr). destruct (rep_bounds v R Hr) as (H1 & H2 & _).
  destruct (create_file_spec fuel w R name data l c Hw Hl Hl2 Hc Hne Hlen Hf)
    as [[HR E]|[(HR & HB & E)|(w' & inum & b & E & _ & Hw')]].
  - split_and_all; [done|lia|lia].
  - split_and_all; [lia|done|lia].
  - pose proof Hw' as (_ & v' & _ & Hr'). destruct (rep_bounds v' _ Hr') as (H1' & H2' & _).
    rewrite omap_app, !length_app in *. cbn [length omap list_omap g_blk g_data fmap option_fmap option_map fst] in *.
    split_and_all; [lia|lia|]. intros _ _. exists w'. split; [done|]. exists (R ++ [GF l inum (Some (b, c))]).
    split; [done|]. by rewrite fmap_app.
Qed.

(** [read_file] finds the first entry with the name: for a text the block it
    points to holds exactly that text, for a directory or an unknown name the answer
    is NULL. *)
Theorem read_file_finds_first (w : world (H := H)) (A : listing) (name : mem) (l : list Z) :
  shows w A -> cstr name 0 l ->
  exists r, read_file w name = VOk r /\ answers w r ((fun p => snd (snd p)) <$> find_name A l).
Proof. apply read_answers. Qed.

(** What is created can be read back: after a successful [create_file] under a
    new name, [read_file] of that name points to the text. *)
Theorem created_file_reads_back (fuel : nat) (w : world (H := H)) (A : listing) (name data : mem) (l c : list Z) :
  shows w A -> (length A < 100)%nat -> (regulars A < 50)%nat -> find_name A l = None ->
  cstr name 0 l -> (length l <= 255)%nat -> cstr data 0 c -> c <> [] ->
  Z.of_nat (length c) < VBLOCK_SIZE -> (length c < fuel)%nat ->
  exists w' b v blk, create_file fuel w name data = VOk (w', 0) /\ read_file w' name = VOk (Some b) /\
    w_obj w' = Some v /\ v_blocks v !! b = Some blk /\ cstr blk 0 c.
Proof.
  intros (R & Hw & ->) HA1 HA2 Hnew Hl Hl2 Hc Hne Hlen Hf. rewrite regulars_blk, length_fmap in *.
  destruct (create_file_spec fuel w R name data l c Hw Hl Hl2 Hc Hne Hlen Hf)
    as [[HR E]|[(HR & HB & E)|(w' & inum & b & E & _ & Hw')]]; [lia|lia|].
  destruct (read_answers w' _ name l (ex_intro _ _ (conj Hw' eq_refl)) Hl) as (r & Er & Ha).
  rewrite fmap_app in Ha. unfold find_name in *. rewrite list_find_app_r in Ha by done. cbn in Ha.
  rewrite decide_True in Ha by done. destruct Ha as (b' & v & blk & -> & Hv & Hb & Hcc). eauto 10.
Qed.

(** C29: [delete_file] removes the first entry with the name and keeps the rest in
    order, freeing its inode and block; an unknown name is reported and nothing
    changes. *)
Theorem delete_file_removes_first (w : world (H := H)) (A : listing) (name : mem) (l : list Z) :
  shows w A -> cstr name 0 l ->
  match find_name A l with
  | None => delete_file w name = VOk (w, -1)
  | Some (i, _) => exists w', delete_file w name = VOk (w', 0) /\
      shows w' (take i A ++ drop (S i) A)
  end.
Proof.
  intros (R & Hw & ->) Hc. rewrite find_name_entry.
  destruct (delete_file_spec w R name l Hw Hc) as [[-> E]|(R1 & g & R2 & w' & ER & -> & E & _ & Hw' & _)]; cbn; [done|].
  exists w'. split; [done|]. exists (R1 ++ R2). split; [done|].
  rewrite ER, !fmap_app, fmap_cons. rewrite take_app_le, (drop_app_ge (entry_of <$> R1)) by (rewrite length_fmap; lia).
  rewrite length_fmap. replace (S (length R1) - length R1)%nat with 1%nat by lia.
  rewrite take_ge by (rewrite length_fmap; lia). done.
Qed.

(** The byte total does not follow: the size is read after it was cleared, so that deleting a
    file leaves the total of all files as it was. *)
Theorem deletion_keeps_total (w : world (H := H)) (A : listing) (name : mem) (l : list Z) (i : nat) e :
  shows w A -> cstr name 0 l -> find_name A l = Some (i, e) ->
  exists w', delete_file w name = VOk (w', 0) /\ (v_total_size <$> w_obj w') = (fun v => u64 (v_total_size v)) <$> w_obj w.
Proof.
  intros (R & Hw & ->) Hc. rewrite find_name_entry.
  destruct (delete_file_spec w R name l Hw Hc) as [[-> E]|(R1 & g & R2 & w' & ER & -> & E & _ & Hw' & Hts)]; [done|]. intros _. by exists w'.
Qed.

(** [create_directory] appends a directory, even if the name exists already,
    and the two heap objects it allocates for the directory stay allocated though
    nothing refers to them; if the heap is exhausted it answers -1 and returns what
    it took; with 100 entries it indexes the inode table with -1. *)
Theorem create_directory_appends (fuel : nat) (w : world (H := H)) (A : listing) (name : mem) (l : list Z) (L : list Z) :
  shows w A -> h_live (w_heap w) L -> vfs_sizes (w_heap w) ->
  cstr name 0 l -> (length l <= 255)%nat -> (length l < fuel)%nat ->
  (exists w', create_directory fuel w name = VOk (w', -1) /\ shows w' A /\ h_live (w_heap w') L) \/
  (length A = 100%nat /\ create_directory fuel w name = VWild) \/
  (exists w' p q, create_directory fuel w name = VOk (w', 0) /\ shows w' (A ++ [(l, Dir)]) /\
     h_live (w_heap w') (p :: q :: L)).
Proof.
  intros (R & Hw & ->) HL Hsz Hl Hl2 Hf. rewrite length_fmap.
  destruct (create_directory_spec fuel w R name l L Hw HL Hsz Hl Hl2 Hf)
    as [(w' & E & Hw' & HL')|[[HR E]|(w' & inum & p & q & E & Hw' & HL')]].
  - left. exists w'. split_and_all; [done|by exists R|done].
  - right; left. done.
  - right; right. exists w', p, q. split_and_all; [done| |done]. exists (R ++ [GF l inum None]). split; [done|].
    by rewrite fmap_app.
Qed.

(** [init_vfs] on any well-formed heap returns: either it has an empty file
    system, with 104 new objects live, or the heap was exhausted, everything it had
    allocated is freed again, and the objects behind [vfs] are gone. *)
Theorem init_vfs_all_or_nothing (h : H) (L : list Z) :
  h_live h L -> vfs_sizes h ->
  exists w, init_vfs h = VOk w /\
    ((shows w [] /\ exists ps, length ps = 104%nat /\ h_live (w_heap w) (ps ++ L)) \/
     (w_obj w = None /\ h_live (w_heap w) L)).
Proof.
  intros Hl Hs. destruct (init_vfs_spec h L Hl Hs) as (w & E & [?|[Hw Hps]]); exists w; split; try done; [by right|].
  left. split; [|done]. exists []. done.
Qed.
End Ops.

(** ** Witnesses

    An arena that never gives memory back, as the heap. *)

Definition arena_live (h : Z) (L : list Z) : Prop := 0 < h /\ NoDup L /\ Forall (fun p => 0 < p < h) L.

#[local] Instance arena : HeapApi Z.
Proof.
  refine {| h_alloc h n := Some (h + n + 1, h); h_free h p := Some h; h_realloc h p n := Some (h + n + 1, h);
            h_live := arena_live; h_size h n := 0 <= n |}.
  - intros h L L' Hp (H1 & H2 & H3). unfold arena_live. rewrite <- Hp. done.
  - intros h L (H1 & H2 & H3). split; [done|]. eapply Forall_impl; [exact H3|]. cbn. lia.
  - intros h L n (H1 & H2 & H3) Hn. exists (h + n + 1), h. split_and_all; [done|done|]. right. split; [lia|].
    split; [lia|]. split.
    + constructor; [|done]. intros Hin. rewrite Forall_forall in H3. specialize (H3 h Hin). lia.
    + constructor; [lia|]. eapply Forall_impl; [exact H3|]. cbn. lia.
  - intros h L p (H1 & H2 & H3). exists h. split_and_all; [done| |done]. apply NoDup_cons in H2 as [_ H2].
    apply Forall_cons in H3 as [_ H3]. done.
  - intros h L p n (H1 & H2 & H3) Hn Hp. exists (h + n + 1), h. split_and_all; [done|done|]. right. split; [lia|].
    apply NoDup_cons in H2 as [_ H2]. apply Forall_cons in H3 as [_ H3]. split; [lia|]. split.
    + constructor; [|done]. intros Hin. rewrite Forall_forall in H3. specialize (H3 h Hin). lia.
    + constructor; [lia|]. eapply Forall_impl; [exact H3|]. cbn. lia.
Defined.

Lemma arena_sizes h : vfs_sizes (H := Z) h.
Proof. repeat constructor; done. Qed.

Lemma arena_live_init : h_live (H := Z) 1 [].
Proof. split; [done|]. split; constructor. Qed.

Lemma init_vfs_all_or_nothing_witness :
  exists w, init_vfs (H := Z) 1 = VOk w /\ w_vfs w = 1 /\ (shows w [] \/ w_obj w = None).
Proof.
  destruct (init_vfs_all_or_nothing (HA := arena) 1 [] arena_live_init (arena_sizes 1)) as (w & E & Hc).
  exists w. split; [exact E|]. split.
  - injection E as <-. reflexivity.
  - destruct Hc as [[Hs _]|[Hn _]]; [left; exact Hs|right; exact Hn].
Defined.

(** The empty file system the arena gives. *)
Definition demo_world : world (H := Z) :=
  match init_vfs (H := Z) 1 with VOk w => w | _ => World 0 0 None end.

Lemma demo_shows : shows (H := Z) demo_world [].
Proof.
  exists []. split; [|done]. split; [discriminate|]. eexists. split; [reflexivity|]. apply vrep_init; discriminate.
Qed.

Definition demo_name : mem := fun i => if i =? 0 then 102 else 0.
Definition demo_text : mem := fun i => if i =? 0 then 104 else if i =? 1 then 105 else 0.

Lemma demo_name_str : cstr demo_name 0 [102].
Proof. repeat split; discriminate. Qed.
Lemma demo_text_str : cstr demo_text 0 [104; 105].
Proof. repeat split; discriminate. Qed.

Lemma create_file_appends_witness :
  exists w', create_file (H := Z) 10 demo_world demo_name demo_text = VOk (w', 0) /\
             shows (H := Z) w' [([102], Reg [104; 105])].
Proof.
  destruct (create_file_appends (HA := arena) 10 demo_world [] demo_name demo_text [102] [104; 105]
    demo_shows demo_name_str ltac:(cbn; lia) demo_text_str ltac:(discriminate) ltac:(reflexivity) ltac:(cbn; lia))
    as (_ & _ & Hc). apply Hc; cbn; lia.
Defined.

Lemma created_file_reads_back_witness :
  exists w' b v blk, create_file (H := Z) 10 demo_world demo_name demo_text = VOk (w', 0) /\
    read_file (H := Z) w' demo_name = VOk (Some b) /\ w_obj w' = Some v /\ v_blocks v !! b = Some blk /\
    cstr blk 0 [104; 105].
Proof.
  apply (created_file_reads_back (HA := arena) 10 demo_world [] demo_name demo_text [102] [104; 105]
    demo_shows ltac:(cbn; lia) ltac:(cbn; lia) eq_refl demo_name_str ltac:(cbn; lia) demo_text_str
    ltac:(discriminate) ltac:(reflexivity) ltac:(cbn; lia)).
Defined.

(** A file system with one file, by the lemma on [create_file]. *)
Lemma demo_one : exists w', shows (H := Z) w' [([102], Reg [104; 105])].
Proof.
  destruct demo_shows as (R & Hw & ER). symmetry in ER. apply fmap_nil_inv in ER. subst R.
  destruct (create_file_spec (HA := arena) 10 demo_world [] demo_name demo_text [102] [104; 105] Hw demo_name_str
    ltac:(cbn; lia) demo_text_str ltac:(discriminate) ltac:(reflexivity) ltac:(cbn; lia))
    as [[HR _]|[(_ & HB & _)|(w' & inum & b & _ & _ & Hw')]]; [discriminate|discriminate|].
  exists w'. exists [GF [102] inum (Some (b, [104; 105]))]. done.
Qed.

Lemma read_file_finds_first_witness :
  exists w r, shows (H := Z) w [([102], Reg [104; 105])] /\ read_file (H := Z) w demo_name = VOk r /\
              answers (H := Z) w r (Some (Reg [104; 105])).
Proof.
  destruct demo_one as (w & Hw). destruct (read_file_finds_first (H := Z) w _ demo_name [102] Hw demo_name_str)
    as (r & E & Ha). exists w, r. split; [exact Hw|]. split; [exact E|]. exact Ha.
Defined.

Lemma delete_file_removes_first_witness :
  exists w w', shows (H := Z) w [([102], Reg [104; 105])] /\
    delete_file (H := Z) w demo_name = VOk (w', 0) /\ shows (H := Z) w' [].
Proof.
  destruct demo_one as (w & Hw). pose proof (delete_file_removes_first (H := Z) w _ demo_name [102] Hw demo_name_str) as Hd.
  cbn in Hd. destruct Hd as (w' & E & Hs). exists w, w'. split; [exact Hw|]. split; [exact E|exact Hs].
Defined.

Lemma create_directory_appends_witness :
  exists w', create_directory (H := Z) 10 demo_world demo_name = VOk (w', 0).
Proof.
  destruct (create_directory_appends (HA := arena) 10 demo_world [] demo_name [102] []
    demo_shows) as [(w' & E & _)|[[E _]|(w' & p & q & E & _)]].
  - split; [reflexivity|]. split; constructor.
  - apply arena_sizes.
  - exact demo_name_str.
  - cbn. lia.
  - cbn. lia.
  - exfalso. clear -E. assert (Hr : (fun p => snd p) <$> match create_directory (H := Z) 10 demo_world demo_name with VOk x => Some x | _ => None end = Some 0)
      by (vm_compute; reflexivity). rewrite E in Hr. discriminate.
  - discriminate.
  - exists w'. exact E.
Defined.

(** The report of a run of the tests that passes. *)
Definition suite_report (w : world (H := Z)) : vres (Z * Z * Z * Z) :=
  match test_vfs (H := Z) w with VOk (Some w') => final_report (H := Z) w' | _ => VWild end.

(** The test suite of the source passes on a fresh file system and ends with
    two entries, 49 free blocks and 98 free inodes; the byte total it reports, 32,
    still counts the deleted file's 11 bytes. *)
Theorem vfs_test_suite_passes : suite_report demo_world = VOk (2, 32, 49, 98).
Proof. vm_compute. reflexivity. Qed.
