(* ===== verification/Block.v ===== *)
(** * What the disk code relies on

    [DiskDev]: the two function pointers of [struct disk] (disk.h) with their
    contract.  [KernelMem]: the page allocator and the heap as the disk code uses
    them, with the memory regions handed out.  [bytes_to_blocks] of disk.h. *)

From S2P Require Import Prelude Mem CString.

(** ** [struct disk] *)

Class DiskDev (D : Type) := {
  lba_size : D -> Z;
  (** the byte at an offset of the medium *)
  disk_byte : D -> Z -> Z;
  (** [read(arg, buffer, lba, len_in_blocks)] *)
  disk_read : D -> mem -> Z -> Z -> Z -> bool * D * mem;
  disk_write : D -> mem -> Z -> Z -> Z -> bool * D;

  disk_byte_range d x : 0 <= disk_byte d x < 256;
  disk_read_ok d m b lba n d' m' : disk_read d m b lba n = (true, d', m') ->
    forall i, 0 <= i < n * lba_size d -> m' (b + i) = disk_byte d (lba * lba_size d + i);
  disk_read_frame d m b lba n ok d' m' : disk_read d m b lba n = (ok, d', m') ->
    lba_size d' = lba_size d /\ (forall x, disk_byte d' x = disk_byte d x) /\
    (forall x, x < b \/ b + n * lba_size d <= x -> m' x = m x);
  disk_write_ok d m b lba n d' : disk_write d m b lba n = (true, d') ->
    forall i, 0 <= i < n * lba_size d -> disk_byte d' (lba * lba_size d + i) = ld8 m (b + i);
  disk_write_frame d m b lba n ok d' : disk_write d m b lba n = (ok, d') ->
    lba_size d' = lba_size d /\
    (forall x, x < lba * lba_size d \/ (lba + n) * lba_size d <= x -> disk_byte d' x = disk_byte d x) }.

(** ** Memory for buffers *)

Definition disjoint_regions (r1 r2 : Z * Z) : Prop := r1.1 + r1.2 <= r2.1 \/ r2.1 + r2.2 <= r1.1.

Class KernelMem (hhdm : Z) (K : Type) := {
  (** [pmm_alloc_page(4096)], a physical address, 0 for failure; [pmm_free(a, 1)] *)
  page_alloc : K -> option (K * Z);
  page_free : K -> Z -> option K;
  (** [kmalloc], [kfree] *)
  heap_alloc : K -> Z -> option (K * Z);
  heap_free : K -> Z -> option K;
  (** the regions handed out, as kernel addresses and lengths *)
  held : K -> list (Z * Z) -> Prop;

  held_perm k R R' : R ≡ₚ R' -> held k R -> held k R';
  held_disjoint k r1 r2 R : held k (r1 :: r2 :: R) -> disjoint_regions r1 r2;
  held_bounds k r R : held k (r :: R) -> 0 < r.1 /\ r.1 + r.2 <= 2 ^ 64;
  page_alloc_ok k R : held k R ->
    exists k' a, page_alloc k = Some (k', a) /\
      ((a = 0 /\ held k' R) \/ (a <> 0 /\ held k' ((hhdm + a, 4096) :: R)));
  page_free_ok k a R : held k ((hhdm + a, 4096) :: R) -> exists k', page_free k a = Some k' /\ held k' R;
  heap_alloc_ok k R n : held k R -> 0 <= n < 2 ^ 31 ->
    exists k' a, heap_alloc k n = Some (k', a) /\ ((a = 0 /\ held k' R) \/ (a <> 0 /\ held k' ((a, n) :: R)));
  heap_free_ok k a n R : held k ((a, n) :: R) -> exists k', heap_free k a = Some k' /\ held k' R }.

(** [enough n k]: [n] more requests for pages or for less than [limit] bytes of heap will
    succeed.  Giving something back never makes it fewer. *)
Record budget {hhdm : Z} {K : Type} {KM : KernelMem hhdm K} (limit : Z) (enough : nat -> K -> Prop) : Prop := {
  bu_page n k k' a : enough (S n) k -> page_alloc k = Some (k', a) -> a <> 0 /\ enough n k';
  bu_heap n k k' a size : enough (S n) k -> 0 <= size < limit -> heap_alloc k size = Some (k', a) -> a <> 0 /\ enough n k';
  bu_page_free n k k' a : enough n k -> page_free k a = Some k' -> enough n k';
  bu_heap_free n k k' a : enough n k -> heap_free k a = Some k' -> enough n k';
  bu_less n k : enough (S n) k -> enough n k }.

(** ** Bytes to sectors *)

Record bytes_to_block_res := BytesToBlockRes { res_lba : Z; size_in_blocks : Z; res_offset : Z }.

Definition ALIGNDOWN (x align : Z) : Z := u64 (x - x mod align).
Definition ALIGNUP (x align : Z) : Z := if x mod align =? 0 then x else u64 (x + (align - x mod align)).

(** [None]: division by zero. *)
Definition bytes_to_blocks (start size lba_size : Z) : option bytes_to_block_res :=
  if lba_size =? 0 then None
  else Some (BytesToBlockRes
    (ALIGNDOWN start lba_size / lba_size)
    (if ALIGNUP size lba_size / lba_size =? 0 then 1 else ALIGNUP size lba_size / lba_size)
    (u64 (start - ALIGNDOWN start lba_size))).

(** The sectors cover the bytes asked for. *)
Lemma bytes_to_blocks_spec start size lba :
  0 <= start < 2 ^ 64 -> 0 < size < 2 ^ 63 -> 0 < lba < 2 ^ 63 ->
  exists r, bytes_to_blocks start size lba = Some r /\
    res_lba r = start / lba /\ res_offset r = start mod lba /\
    size_in_blocks r = (size + lba - 1) / lba /\ 0 < size_in_blocks r.
Proof.
  intros Hs Hn Hl. unfold bytes_to_blocks. replace (lba =? 0) with false by lia.
  assert (Hd : ALIGNDOWN start lba = start - start mod lba).
  { unfold ALIGNDOWN. apply u64_small. pose proof (Z.mod_pos_bound start lba ltac:(lia)).
    pose proof (Z.mod_le start lba ltac:(lia) ltac:(lia)). lia. }
  assert (Hu : ALIGNUP size lba / lba = (size + lba - 1) / lba).
  { unfold ALIGNUP. pose proof (Z.mod_pos_bound size lba ltac:(lia)) as Hm.
    pose proof (Z.div_mod size lba ltac:(lia)) as Hdm. case_if.
    - apply (Z.div_unique _ _ _ (lba - 1)); [lia|]. rewrite E in Hdm. lia.
    - rewrite u64_small by lia.
      replace (size + (lba - size mod lba)) with ((size / lba + 1) * lba) by lia. rewrite Z.div_mul by lia.
      apply (Z.div_unique _ _ _ (size mod lba - 1)); lia. }
  assert (Hpos : 0 < (size + lba - 1) / lba) by (apply Z.div_str_pos; lia).
  eexists. split; [done|]. cbn [res_lba size_in_blocks res_offset]. rewrite Hd, Hu.
  replace ((size + lba - 1) / lba =? 0) with false by lia. split_and_all; try done.
  - pose proof (Z.div_mod start lba ltac:(lia)). replace (start - start mod lba) with (start / lba * lba) by lia.
    by rewrite Z.div_mul by lia.
  - pose proof (Z.mod_pos_bound start lba ltac:(lia)). rewrite u64_small by lia. lia.
Qed.

(** ** The contracts can be met

    A disk whose medium is a memory, with 512-byte sectors, and an allocator that
    hands out fresh addresses. *)

Definition in_range (x a n : Z) : bool := (a <=? x) && (x <? a + n).

Definition ramdisk_read (d m : mem) (b lba n : Z) : bool * mem * mem :=
  (true, d, fun x => if in_range x b (n * 512) then u8 (d (lba * 512 + (x - b))) else m x).
Definition ramdisk_write (d m : mem) (b lba n : Z) : bool * mem :=
  (true, fun x => if in_range x (lba * 512) (n * 512) then ld8 m (b + (x - lba * 512)) else d x).

Definition ramdisk : DiskDev mem.
Proof.
  refine {| lba_size := fun _ : mem => 512; disk_byte := fun d x => u8 (d x);
            disk_read := ramdisk_read; disk_write := ramdisk_write |}.
  - intros d x. apply u8_range.
  - intros d m b lba n d' m' [= <- <-] i Hi. unfold in_range. replace (_ && _) with true by lia. do 2 f_equal. lia.
  - intros d m b lba n ok d' m' [= <- <- <-]. split_and_all; [done|done|]. intros x Hx. unfold in_range.
    by replace (_ && _) with false by lia.
  - intros d m b lba n d' [= <-] i Hi. unfold in_range. replace (_ && _) with true by lia.
    rewrite u8_ld8. f_equal. lia.
  - intros d m b lba n ok d' [= <- <-]. split_and_all; [done|]. intros x Hx. unfold in_range.
    by replace (_ && _) with false by lia.
Defined.

Fixpoint pairwise (R : list (Z * Z)) : Prop :=
  match R with [] => True | r :: R' => Forall (disjoint_regions r) R' /\ pairwise R' end.

Lemma disjoint_sym r1 r2 : disjoint_regions r1 r2 -> disjoint_regions r2 r1.
Proof. unfold disjoint_regions. lia. Qed.

Lemma pairwise_perm R R' : R ≡ₚ R' -> pairwise R -> pairwise R'.
Proof.
  induction 1 as [|r R1 R2 Hp IH|r1 r2 R1|R1 R2 R3 _ IH1 _ IH2]; cbn [pairwise]; [done| | |auto].
  - intros [H1 H2]. split; [by rewrite <- Hp|auto].
  - intros (H1 & H2 & H3). apply Forall_cons in H1 as [H0 H1]. split_and_all; [constructor; [by apply disjoint_sym|done]|done|done].
Qed.

Definition ARENA_END : Z := 1099511627776.

(** The state is the first address not handed out. *)
Definition arena_take (hhdm k n : Z) : Z * Z := if k + n <=? hhdm + ARENA_END then (k + n, k) else (k, 0).

Definition arena_held (hhdm k : Z) (R : list (Z * Z)) : Prop :=
  0 <= hhdm < 2 ^ 62 /\ hhdm < k <= hhdm + ARENA_END /\ pairwise R /\
  Forall (fun r => hhdm < r.1 /\ 0 <= r.2 /\ r.1 + r.2 <= k) R.

Lemma arena_take_ok hhdm k n R :
  arena_held hhdm k R -> 0 <= n ->
  let (k', a) := arena_take hhdm k n in
  (a = 0 /\ arena_held hhdm k' R) \/ (a = k /\ a <> 0 /\ arena_held hhdm k' ((a, n) :: R)).
Proof.
  intros (H1 & H2 & H3 & H4) Hn. unfold arena_take. case_if; [|by left]. right. split_and_all; [done|lia|].
  unfold arena_held. cbn [pairwise]. split_and_all; try lia; [|done|].
  - eapply Forall_impl; [exact H4|]. intros r (Ha & Hb & Hc). right. cbn. lia.
  - constructor; [cbn; lia|]. eapply Forall_impl; [exact H4|]. cbn. intros r Hr. lia.
Qed.

Lemma arena_drop hhdm k r R : arena_held hhdm k (r :: R) -> arena_held hhdm k R.
Proof. intros (H1 & H2 & [_ H3] & H4). apply Forall_cons in H4 as [_ H4]. by unfold arena_held. Qed.

Definition arena_mem (hhdm : Z) : KernelMem hhdm Z.
Proof.
  refine {| page_alloc := fun k => let (k', a) := arena_take hhdm k 4096 in Some (k', if a =? 0 then 0 else a - hhdm);
            page_free := fun k _ => Some k;
            heap_alloc := fun k n => Some (arena_take hhdm k n);
            heap_free := fun k _ => Some k;
            held := arena_held hhdm |}.
  - intros k R R' Hp (H1 & H2 & H3 & H4). unfold arena_held. split_and_all; try lia.
    + by eapply pairwise_perm.
    + by rewrite <- Hp.
  - intros k r1 r2 R (_ & _ & [H _] & _). by apply Forall_cons in H as [H _].
  - intros k r R (H1 & H2 & _ & H4). apply Forall_cons in H4 as [H4 _]. unfold ARENA_END in *. lia.
  - intros k R Hk. pose proof (arena_take_ok hhdm k 4096 R Hk ltac:(lia)) as Ht.
    destruct (arena_take hhdm k 4096) as [k' a]. eexists _, _. split; [done|].
    destruct Ht as [[-> Ht]|(-> & Hn & Ht)]; [by left|]. right. destruct Hk as (_ & Hk & _).
    replace (k =? 0) with false by lia. split; [lia|]. by replace (hhdm + (k - hhdm)) with k by lia.
  - intros k a R Hk. exists k. split; [done|]. by eapply arena_drop.
  - intros k R n Hk Hn. pose proof (arena_take_ok hhdm k n R Hk ltac:(lia)) as Ht.
    destruct (arena_take hhdm k n) as [k' a]. eexists _, _. split; [done|]. destruct Ht as [Ht|(_ & Hn' & Ht)]; auto.
  - intros k a n R Hk. exists k. split; [done|]. by eapply arena_drop.
Defined.

(** What is left of the arena, in requests of up to 4096 bytes. *)
Definition arena_enough (hhdm : Z) (n : nat) (k : Z) : Prop := 0 <= hhdm < k /\ k + Z.of_nat n * 4096 <= hhdm + ARENA_END.

Lemma arena_budget hhdm : budget (KM := arena_mem hhdm) 4096 (arena_enough hhdm).
Proof.
  unfold arena_enough. constructor; cbn [arena_mem page_alloc page_free heap_alloc heap_free]; unfold arena_take.
  - intros n k k' a H. replace (k + 4096 <=? hhdm + ARENA_END) with true by lia. replace (k =? 0) with false by lia. intros [= <- <-]. lia.
  - intros n k k' a size H Hs. replace (k + size <=? hhdm + ARENA_END) with true by lia. intros [= <- <-]. lia.
  - by intros n k k' a H [= <-].
  - by intros n k k' a H [= <-].
  - intros n k H. lia.
Qed.
