(* ===== verification/Ext2.v ===== *)
(** * The ext2 driver, [src/src/fs/ext2/*.c] and [src/src/include/ext2.h]

    [struct ext2_partition] is a record; the superblock in it, an inode and a group
    descriptor are byte objects read at their C offsets.  Buffers are addresses in
    the kernel's memory.  An operation answers [None] when it does not return
    normally: a division by zero, or a lock that is taken twice.  Log messages are
    left out. *)

From stdpp Require Import strings.
From S2P Require Import Prelude Mem Layout CString Block.

(** ** On-disk structures *)

Definition EXT2_MAGIC : Z := 61267.
Definition EXT2_FEATURE_INCOMPAT_FILETYPE : Z := 2.
Definition EXT2_SUPPORTED_INCOMPAT : Z := EXT2_FEATURE_INCOMPAT_FILETYPE.
Definition EXT2_FEATURE_RO_COMPAT_SPARSE_SUPER : Z := 1.
Definition EXT2_FEATURE_RO_COMPAT_LARGE_FILE : Z := 2.
Definition EXT2_SUPPORTED_RO_COMPAT : Z := EXT2_FEATURE_RO_COMPAT_SPARSE_SUPER ||| EXT2_FEATURE_RO_COMPAT_LARGE_FILE.
Definition EXT2_GOOD_OLD_REV : Z := 0.
Definition EXT2_DYNAMIC_REV : Z := 1.
Definition EXT2_GOOD_OLD_INODE_SIZE : Z := 128.
Definition EXT2_GOOD_OLD_FIRST_INO : Z := 11.
Definition EXT2_ROOT_INO : Z := 2.

(** [struct ext2_superblock], packed *)
Definition ext2_superblock : layout :=
  [("s_inodes_count", 4); ("s_blocks_count", 4); ("s_r_blocks_count", 4); ("s_free_blocks_count", 4);
   ("s_free_inodes_count", 4); ("s_first_data_block", 4); ("s_log_block_size", 4); ("s_log_frag_size", 4);
   ("s_blocks_per_group", 4); ("s_frags_per_group", 4); ("s_inodes_per_group", 4); ("s_mtime", 4);
   ("s_wtime", 4); ("s_mnt_count", 2); ("s_max_mnt_count", 2); ("s_magic", 2); ("s_state", 2);
   ("s_errors", 2); ("s_minor_rev_level", 2); ("s_lastcheck", 4); ("s_checkinterval", 4); ("s_creator_os", 4);
   ("revision", 4); ("s_def_resuid", 2); ("s_def_resgid", 2); ("s_first_ino", 4); ("inode_size", 2);
   ("s_block_group_nr", 2); ("s_feature_compat", 4); ("s_feature_incompat", 4); ("s_feature_ro_compat", 4);
   ("s_uuid", 16); ("s_volume_name", 16); ("s_last_mounted", 64); ("s_algo_bitmap", 4);
   ("s_prealloc_blocks", 1); ("s_prealloc_dir_blocks", 1); ("s_reserved_gdt_blocks", 2);
   ("s_journal_uuid", 16); ("s_journal_inum", 4); ("s_journal_dev", 4); ("s_last_orphan", 4);
   ("s_hash_seed", 16); ("s_def_hash_version", 1); ("s_jnl_backup_type", 1); ("s_desc_size", 2);
   ("s_default_mount_opts", 4); ("s_first_meta_bg", 4); ("s_mkfs_time", 4); ("s_jnl_blocks", 68);
   ("s_blocks_count_hi", 4); ("s_r_blocks_count_hi", 4); ("s_free_blocks_count_hi", 4)].

(** [struct ext2_group_desc], whose members are aligned as they stand *)
Definition ext2_group_desc : layout :=
  [("bg_block_bitmap", 4); ("bg_inode_bitmap", 4); ("bg_inode_table", 4); ("bg_free_blocks_count", 2);
   ("bg_free_inodes_count", 2); ("bg_used_dirs_count", 2); ("bg_pad", 2); ("bg_reserved", 12)].

(** [struct ext2_inode], likewise *)
Definition ext2_inode : layout :=
  [("i_mode", 2); ("i_uid", 2); ("i_size", 4); ("i_atime", 4); ("i_ctime", 4); ("i_mtime", 4); ("i_dtime", 4);
   ("i_gid", 2); ("i_links_count", 2); ("i_blocks", 4); ("i_flags", 4); ("i_osd1", 4); ("i_block", 60);
   ("i_generation", 4); ("i_file_acl", 4); ("i_dir_acl", 4); ("i_faddr", 4); ("i_osd2", 12)].

(** Members of the superblock object *)
Definition SB_SIZE : Z := 348.
Definition s_inodes_count (sb : mem) : Z := ld32 sb 0.
Definition s_blocks_count (sb : mem) : Z := ld32 sb 4.
Definition s_first_data_block (sb : mem) : Z := ld32 sb 20.
Definition s_log_block_size (sb : mem) : Z := ld32 sb 24.
Definition s_blocks_per_group (sb : mem) : Z := ld32 sb 32.
Definition s_inodes_per_group (sb : mem) : Z := ld32 sb 40.
Definition s_magic (sb : mem) : Z := ld16 sb 56.
Definition s_state (sb : mem) : Z := ld16 sb 58.
Definition revision (sb : mem) : Z := ld32 sb 76.
Definition s_first_ino (sb : mem) : Z := ld32 sb 84.
Definition sb_inode_size (sb : mem) : Z := ld16 sb 88.
Definition s_feature_incompat (sb : mem) : Z := ld32 sb 96.
Definition s_feature_ro_compat (sb : mem) : Z := ld32 sb 100.

(** Members of the group descriptor at an address *)
Definition GD_SIZE : Z := 32.
Definition bg_block_bitmap (m : mem) (gd : Z) : Z := ld32 m gd.
Definition bg_inode_bitmap (m : mem) (gd : Z) : Z := ld32 m (gd + 4).
Definition bg_inode_table (m : mem) (gd : Z) : Z := ld32 m (gd + 8).

(** Members of an inode object *)
Definition INODE_SIZE : Z := 128.
Definition i_mode (i : mem) : Z := ld16 i 0.
Definition i_size (i : mem) : Z := ld32 i 4.
Definition i_links_count (i : mem) : Z := ld16 i 26.
Definition i_block (i : mem) (k : Z) : Z := ld32 i (40 + 4 * k).

(** The offsets used above are those of the declarations. *)
Lemma layouts_agree :
  (size_of ext2_superblock, size_of ext2_group_desc, size_of ext2_inode) = (SB_SIZE, GD_SIZE, INODE_SIZE) /\
  (offset_of ext2_superblock <$> ["s_inodes_count"; "s_blocks_count"; "s_first_data_block"; "s_log_block_size";
     "s_blocks_per_group"; "s_inodes_per_group"; "s_magic"; "s_state"; "revision"; "s_first_ino"; "inode_size";
     "s_feature_incompat"; "s_feature_ro_compat"])
  = Some <$> [0; 4; 20; 24; 32; 40; 56; 58; 76; 84; 88; 96; 100] /\
  (offset_of ext2_group_desc <$> ["bg_block_bitmap"; "bg_inode_bitmap"; "bg_inode_table"]) = Some <$> [0; 4; 8] /\
  (offset_of ext2_inode <$> ["i_mode"; "i_size"; "i_links_count"; "i_block"]) = Some <$> [0; 4; 26; 40].
Proof. repeat split. Qed.

Record ext2_partition := Ext2Partition {
  sb : mem;
  lba_start : Z;
  block_size : Z;
  sectors_per_block : Z;
  group_count : Z;
  inode_size : Z;
  first_ino : Z;
  inodes_per_block : Z;
  itb_per_group : Z;
  desc_per_block : Z;
  gdb_count : Z;
  groups : Z;
  read_only : bool;
  sb_dirty : bool;
  lock : bool;
  io_buf : Z }.

(** A byte object filled from memory: [memset] to 0, then [memcpy] of [n] bytes. *)
Definition copy_out (m : mem) (a n : Z) : mem := fun x => if (0 <=? x) && (x <? n) then ld8 m (a + x) else 0.

Definition with_sb (fs : ext2_partition) (s : mem) : ext2_partition :=
  Ext2Partition s (lba_start fs) (block_size fs) (sectors_per_block fs) (group_count fs) (inode_size fs)
    (first_ino fs) (inodes_per_block fs) (itb_per_group fs) (desc_per_block fs) (gdb_count fs) (groups fs)
    (read_only fs) (sb_dirty fs) (lock fs) (io_buf fs).
Definition with_groups (fs : ext2_partition) (g : Z) : ext2_partition :=
  Ext2Partition (sb fs) (lba_start fs) (block_size fs) (sectors_per_block fs) (group_count fs) (inode_size fs)
    (first_ino fs) (inodes_per_block fs) (itb_per_group fs) (desc_per_block fs) (gdb_count fs) g
    (read_only fs) (sb_dirty fs) (lock fs) (io_buf fs).
Definition with_dirty (fs : ext2_partition) (d : bool) : ext2_partition :=
  Ext2Partition (sb fs) (lba_start fs) (block_size fs) (sectors_per_block fs) (group_count fs) (inode_size fs)
    (first_ino fs) (inodes_per_block fs) (itb_per_group fs) (desc_per_block fs) (gdb_count fs) (groups fs)
    (read_only fs) d (lock fs) (io_buf fs).
Definition with_lock (fs : ext2_partition) (l : bool) : ext2_partition :=
  Ext2Partition (sb fs) (lba_start fs) (block_size fs) (sectors_per_block fs) (group_count fs) (inode_size fs)
    (first_ino fs) (inodes_per_block fs) (itb_per_group fs) (desc_per_block fs) (gdb_count fs) (groups fs)
    (read_only fs) (sb_dirty fs) l (io_buf fs).

(** ** The superblock *)

(** [ext2_validate_sb]; [lba] is [disk->lba_size] cut to 32 bits. *)
Definition ext2_validate_sb (sb : mem) (disk_lba_size : Z) : bool :=
  if 2 <? s_log_block_size sb then false else
  let bs := u32 (1024 <<< s_log_block_size sb) in
  let lba := u32 disk_lba_size in
  if (lba =? 0) || (bs <? lba) || negb (bs mod lba =? 0) then false else
  if EXT2_DYNAMIC_REV <? revision sb then false else
  if truthy (s_feature_incompat sb &&& u32 (Z.lnot EXT2_SUPPORTED_INCOMPAT)) then false else
  let dyn := EXT2_DYNAMIC_REV <=? revision sb in
  let inode_size := if dyn then sb_inode_size sb else EXT2_GOOD_OLD_INODE_SIZE in
  let first_ino := if dyn then s_first_ino sb else EXT2_GOOD_OLD_FIRST_INO in
  if dyn && ((inode_size <? EXT2_GOOD_OLD_INODE_SIZE) || (bs <? inode_size) ||
             truthy (inode_size &&& u32 (inode_size - 1))) then false else
  if dyn && (first_ino <? EXT2_GOOD_OLD_FIRST_INO) then false else
  if s_blocks_count sb =? 0 then false else
  if s_blocks_count sb <=? s_first_data_block sb then false else
  if (s_blocks_per_group sb =? 0) || (u32 (8 * bs) <? s_blocks_per_group sb) then false else
  if (s_inodes_per_group sb =? 0) || (u32 (8 * bs) <? s_inodes_per_group sb) then false else
  let data_blocks := u64 (s_blocks_count sb - s_first_data_block sb) in
  let groups := u64 (data_blocks + s_blocks_per_group sb - 1) / s_blocks_per_group sb in
  if (s_inodes_count sb =? 0) || (u64 (groups * s_inodes_per_group sb) <? s_inodes_count sb) then false else
  if s_inodes_count sb <? first_ino then false else
  let itb := u64 (s_inodes_per_group sb * inode_size + bs - 1) / bs in
  if s_blocks_per_group sb <=? itb then false else
  let gdt_blocks := u64 (groups * GD_SIZE + bs - 1) / bs in
  if s_blocks_count sb <? u64 (s_first_data_block sb + 1 + gdt_blocks) then false
  else true.

(** [ext2_compute_layout]; [None]: a division by zero. *)
Definition ext2_compute_layout (fs : ext2_partition) (disk_lba_size : Z) : option ext2_partition :=
  let s := sb fs in
  let bs := u32 (1024 <<< s_log_block_size s) in
  if disk_lba_size =? 0 then None else
  let sectors := u32 (bs / disk_lba_size) in
  let data_blocks := u32 (s_blocks_count s - s_first_data_block s) in
  if s_blocks_per_group s =? 0 then None else
  let gc := u32 (u64 (data_blocks + s_blocks_per_group s - 1) / s_blocks_per_group s) in
  let old := revision s =? EXT2_GOOD_OLD_REV in
  let isz := if old then EXT2_GOOD_OLD_INODE_SIZE else sb_inode_size s in
  let fino := if old then EXT2_GOOD_OLD_FIRST_INO else s_first_ino s in
  let ro := truthy (s_feature_ro_compat s &&& u32 (Z.lnot EXT2_SUPPORTED_RO_COMPAT)) in
  if isz =? 0 then None else
  let ipb := bs / isz in
  if ipb =? 0 then None else
  let itb := u32 (s_inodes_per_group s + ipb - 1) / ipb in
  let dpb := bs / GD_SIZE in
  if dpb =? 0 then None else
  let gdb := u32 (gc + dpb - 1) / dpb in
  Some (Ext2Partition s (lba_start fs) bs sectors gc isz fino ipb itb dpb gdb (groups fs)
          ro (sb_dirty fs) (lock fs) (io_buf fs)).

Definition ext2_get_group_desc (fs : ext2_partition) (group : Z) : Z :=
  if group <? group_count fs then groups fs + group * GD_SIZE else 0.

(** [ext2_setup_super] only prints: the warning, if any. *)
Inductive mount_warning := NotCleanlyUnmounted | RecordedErrors.

Definition ext2_setup_super (sb : mem) : option mount_warning :=
  let state := s_state sb in
  if negb (truthy (state &&& 1)) then Some NotCleanlyUnmounted
  else if truthy (state &&& 2) then Some RecordedErrors
  else None.

(** ** Operations on the disk *)

Record world (K D : Type) := World { wk : K; wm : mem; wd : D }.
Arguments World {K D}.
Arguments wk {K D}.
Arguments wm {K D}.
Arguments wd {K D}.

Section ops.
Context {hhdm : Z} {K D : Type} `{KM : KernelMem hhdm K} `{DD : DiskDev D}.

(** [disk->read] and [disk->write] on the state. *)
Definition dread (w : world K D) (buf lba n : Z) : bool * world K D :=
  let '(ok, d, m) := disk_read (wd w) (wm w) buf lba n in (ok, World (wk w) m d).
Definition dwrite (w : world K D) (buf lba n : Z) : bool * world K D :=
  let '(ok, d) := disk_write (wd w) (wm w) buf lba n in (ok, World (wk w) (wm w) d).
Definition wstore (w : world K D) (m : mem) : world K D := World (wk w) m (wd w).

Definition ext2_read_blocks (w : world K D) (fs : ext2_partition) (block buf : Z) : option (bool * world K D) :=
  if s_blocks_count (sb fs) <=? block then Some (false, w)
  else
    r ← bytes_to_blocks (u64 (block * block_size fs)) (block_size fs) (lba_size (wd w));
    let lba := u64 (lba_start fs + res_lba r) in
    if lba_size (wd w) <=? block_size fs then Some (dread w buf lba (size_in_blocks r))
    else if lock fs then None
    else
      let (ok, w) := dread w (io_buf fs) lba 1 in
      if ok then Some (true, wstore w (memcpy (wm w) buf (io_buf fs + res_offset r) (block_size fs)))
      else Some (false, w).

Definition ext2_write_blocks (w : world K D) (fs : ext2_partition) (block buf : Z) : option (bool * world K D) :=
  if read_only fs then Some (false, w)
  else if s_blocks_count (sb fs) <=? block then Some (false, w)
  else
    r ← bytes_to_blocks (u64 (block * block_size fs)) (block_size fs) (lba_size (wd w));
    let lba := u64 (lba_start fs + res_lba r) in
    if lba_size (wd w) <=? block_size fs then Some (dwrite w buf lba (size_in_blocks r))
    else if lock fs then None
    else
      let (ok, w) := dread w (io_buf fs) lba 1 in
      if ok then
        let w := wstore w (memcpy (wm w) (io_buf fs + res_offset r) buf (block_size fs)) in
        Some (dwrite w (io_buf fs) lba 1)
      else Some (false, w).

(** [sb] is outside the buffers, so [memcpy] into it is a byte object. *)
Definition ext2_read_superblock (w : world K D) (fs : ext2_partition) : option (bool * world K D * ext2_partition) :=
  r ← bytes_to_blocks 1024 1024 (lba_size (wd w));
  let lba := u64 (lba_start fs + res_lba r) in
  let (ok, w) := dread w (io_buf fs) lba (size_in_blocks r) in
  if negb ok then Some (false, w, fs)
  else
    let fs := with_sb fs (copy_out (wm w) (io_buf fs + res_offset r) SB_SIZE) in
    if negb (s_magic (sb fs) =? EXT2_MAGIC) then Some (false, w, fs) else Some (true, w, fs).

(** [memcpy(io_buf + offset, &fs->sb, sizeof(fs->sb))] *)
Definition copy_in (m : mem) (a : Z) (obj : mem) (n : Z) : mem :=
  fun x => if (a <=? x) && (x <? a + n) then ld8 obj (x - a) else m x.

Definition ext2_write_superblock (w : world K D) (fs : ext2_partition) : option (bool * world K D * ext2_partition) :=
  if read_only fs then Some (false, w, fs)
  else
    r ← bytes_to_blocks 1024 1024 (lba_size (wd w));
    let lba := u64 (lba_start fs + res_lba r) in
    if lock fs then None
    else
      let (read_ok, w) := dread w (io_buf fs) lba (size_in_blocks r) in
      if read_ok then
        let w := wstore w (copy_in (wm w) (io_buf fs + res_offset r) (sb fs) SB_SIZE) in
        let (ok, w) := dwrite w (io_buf fs) lba (size_in_blocks r) in
        if ok then Some (true, w, with_dirty fs false) else Some (false, w, fs)
      else Some (false, w, fs).

(** ** Inodes *)

(** [ext2_read_ptr]: whether it succeeds and [*out]. *)
Definition ext2_read_ptr (w : world K D) (fs : ext2_partition) (blk idx out : Z) : option (bool * Z * world K D) :=
  if (blk <? s_first_data_block (sb fs)) || (s_blocks_count (sb fs) <=? blk) then Some (false, out, w)
  else if lock fs then None
  else
    '(ok, w) ← ext2_read_blocks w (with_lock fs true) blk (io_buf fs);
    Some (ok, if ok : bool then ld32 (wm w) (io_buf fs + 4 * idx) else out, w).

Definition ext2_bmap (w : world K D) (fs : ext2_partition) (ino : mem) (fb : Z) : option (bool * Z * world K D) :=
  let ppb := block_size fs / 4 in
  if fb <? 12 then Some (true, i_block ino fb, w)
  else
    let fb := fb - 12 in
    if fb <? ppb then
      let p := i_block ino 12 in
      if negb (truthy p) then Some (true, 0, w) else ext2_read_ptr w fs p (u32 fb) 0
    else
      let fb := fb - ppb in
      if fb <? ppb * ppb then
        let p := i_block ino 13 in
        if negb (truthy p) then Some (true, 0, w) else
        '(ok, p, w) ← ext2_read_ptr w fs p (u32 (fb / ppb)) p;
        if negb ok then Some (false, 0, w) else
        if negb (truthy p) then Some (true, 0, w) else ext2_read_ptr w fs p (u32 (fb mod ppb)) 0
      else
        let fb := fb - ppb * ppb in
        if fb <? ppb * ppb * ppb then
          let p := i_block ino 14 in
          if negb (truthy p) then Some (true, 0, w) else
          '(ok, p, w) ← ext2_read_ptr w fs p (u32 (fb / (ppb * ppb))) p;
          if negb ok then Some (false, 0, w) else
          if negb (truthy p) then Some (true, 0, w) else
          let rem := fb mod (ppb * ppb) in
          '(ok, p, w) ← ext2_read_ptr w fs p (u32 (rem / ppb)) p;
          if negb ok then Some (false, 0, w) else
          if negb (truthy p) then Some (true, 0, w) else
          ext2_read_ptr w fs p (u32 (rem mod ppb)) 0
        else Some (false, 0, w).

(** [ext2_read_inode]: the inode read, if it succeeds. *)
Definition ext2_read_inode (w : world K D) (fs : ext2_partition) (ino : Z) : option (option mem * world K D) :=
  let s := sb fs in
  if (ino =? 0) || (s_inodes_count s <? ino) then Some (None, w)
  else if s_inodes_per_group s =? 0 then None
  else
    let group := (ino - 1) / s_inodes_per_group s in
    let index := (ino - 1) mod s_inodes_per_group s in
    let gd := ext2_get_group_desc fs group in
    if gd =? 0 then Some (None, w)
    else if block_size fs =? 0 then None
    else
      let byte := u64 (index * inode_size fs) in
      let block := u64 (bg_inode_table (wm w) gd + byte / block_size fs) in
      let off := u32 (byte mod block_size fs) in
      if s_blocks_count s <=? block then Some (None, w)
      else
        let n := if inode_size fs <? INODE_SIZE then inode_size fs else INODE_SIZE in
        if lock fs then None
        else
          '(ok, w) ← ext2_read_blocks w (with_lock fs true) (u32 block) (io_buf fs);
          if ok : bool then Some (Some (copy_out (wm w) (io_buf fs + off) n), w) else Some (None, w).

(** ** Mounting *)

(** The loop that loads the descriptor table: [inl] when a block cannot be read. *)
Fixpoint load_descs (n : nat) (w : world K D) (fs : ext2_partition) (first_block table_bytes buf i : Z)
    : option (world K D + world K D) :=
  match n with
  | O => Some (inr w)
  | S n' =>
      '(ok, w) ← ext2_read_blocks w fs (u32 (first_block + i)) buf;
      if negb ok then Some (inl w)
      else
        let done := u32 (i * block_size fs) in
        let chunk := u32 (table_bytes - done) in
        let chunk := if block_size fs <? chunk then block_size fs else chunk in
        load_descs n' (wstore w (memcpy (wm w) (groups fs + done) buf chunk)) fs first_block table_bytes buf (i + 1)
  end.

(** The check of one group's descriptor. *)
Definition desc_in_range (m : mem) (fs : ext2_partition) (itable_blocks g : Z) : bool :=
  let s := sb fs in
  let gd := groups fs + g * GD_SIZE in
  let first := u32 (s_first_data_block s + g * s_blocks_per_group s) in
  let last := u32 (first + s_blocks_per_group s - 1) in
  let last := if s_blocks_count s <=? last then u32 (s_blocks_count s - 1) else last in
  negb ((bg_block_bitmap m gd <? first) || (last <? bg_block_bitmap m gd) ||
        (bg_inode_bitmap m gd <? first) || (last <? bg_inode_bitmap m gd) ||
        (bg_inode_table m gd <? first) || (last <? u32 (bg_inode_table m gd + itable_blocks - 1))).

(** [None] also when a division by zero or a lock stops it. *)
Definition ext2_read_group_descs (w : world K D) (fs : ext2_partition) : option (bool * world K D * ext2_partition) :=
  if block_size fs =? 0 then None else
  let table_bytes := u32 (group_count fs * GD_SIZE) in
  let table_blocks := u32 (table_bytes + block_size fs - 1) / block_size fs in
  let first_block := u32 (s_first_data_block (sb fs) + 1) in
  '(k, g) ← heap_alloc (wk w) table_bytes;
  let w := World k (wm w) (wd w) in
  let fs := with_groups fs g in
  if g =? 0 then Some (false, w, fs)
  else
    '(k, phys) ← page_alloc (wk w);
    let w := World k (wm w) (wd w) in
    if phys =? 0 then
      k ← heap_free (wk w) g;
      Some (false, World k (wm w) (wd w), with_groups fs 0)
    else
      let buf := hhdm + phys in
      r ← load_descs (Z.to_nat table_blocks) w fs first_block table_bytes buf 0;
      match r with
      | inl w =>
          k ← page_free (wk w) phys;
          k ← heap_free k g;
          Some (false, World k (wm w) (wd w), with_groups fs 0)
      | inr w =>
          k ← page_free (wk w) phys;
          let w := World k (wm w) (wd w) in
          let itable_blocks := u32 (s_inodes_per_group (sb fs) * inode_size fs + block_size fs - 1) / block_size fs in
          match ploop (Z.to_nat (group_count fs)) 0 (fun g (_ : unit) =>
                  if desc_in_range (wm w) fs itable_blocks g then inr tt else inl tt) tt with
          | inl _ =>
              k ← heap_free (wk w) g;
              Some (false, World k (wm w) (wd w), with_groups fs 0)
          | inr _ => Some (true, w, fs)
          end
      end.

Definition ext2_free_group_descs (w : world K D) (fs : ext2_partition) : option (world K D * ext2_partition) :=
  if groups fs =? 0 then Some (w, fs)
  else k ← heap_free (wk w) (groups fs); Some (World k (wm w) (wd w), with_groups fs 0).

(** The three calls of [ext2_bmap] whose results are printed. *)
Fixpoint probe_bmap (n : nat) (w : world K D) (fs : ext2_partition) (root : mem) (b : Z) : option (world K D) :=
  match n with
  | O => Some w
  | S n' => '(_, _, w) ← ext2_bmap w fs root b; probe_bmap n' w fs root (b + 1)
  end.

Definition ext2_check_root (w : world K D) (fs : ext2_partition) : option (bool * world K D) :=
  '(o, w) ← ext2_read_inode w fs EXT2_ROOT_INO;
  match o with
  | None => Some (false, w)
  | Some root =>
      if negb (i_mode root &&& 61440 =? 16384) || (i_size root =? 0) || (i_links_count root =? 0) then Some (false, w)
      else w ← probe_bmap 3 w fs root 0; Some (true, w)
  end.

Definition ext2_fill_super (w : world K D) (fs : ext2_partition) : option (bool * world K D * ext2_partition) :=
  '(ok, w, fs) ← ext2_read_superblock w fs;
  if negb ok then Some (false, w, fs) else
  if negb (ext2_validate_sb (sb fs) (lba_size (wd w))) then Some (false, w, fs) else
  fs ← ext2_compute_layout fs (lba_size (wd w));
  '(ok, w, fs) ← ext2_read_group_descs w fs;
  if negb ok then Some (false, w, fs) else
  '(ok, w) ← ext2_check_root w fs;
  if negb ok then '(w, fs) ← ext2_free_group_descs w fs; Some (false, w, fs)
  else let _ := ext2_setup_super (sb fs) in Some (true, w, fs).

(** [memset] of the structure to 0 and the two assignments. *)
Definition fresh_partition (start : Z) : ext2_partition :=
  Ext2Partition (fun _ => 0) start 0 0 0 0 0 0 0 0 0 0 false false false 0.

Definition MAX_EXT2_PARTITIONS : Z := 8.

(** [ext2_init] with [kernel.ext2_partition_count]: the mounted partition, if it
    succeeds; the caller stores it in [kernel.ext2_partitions]. *)
Definition ext2_init (w : world K D) (count start : Z) : option (option ext2_partition * world K D) :=
  let fs := fresh_partition start in
  if MAX_EXT2_PARTITIONS <=? count then Some (None, w)
  else
    '(k, phys) ← page_alloc (wk w);
    let w := World k (wm w) (wd w) in
    if phys =? 0 then Some (None, w)
    else
      let fs := Ext2Partition (sb fs) start 0 0 0 0 0 0 0 0 0 0 false false false (hhdm + phys) in
      '(ok, w, fs) ← ext2_fill_super w fs;
      if negb ok then k ← page_free (wk w) phys; Some (None, World k (wm w) (wd w))
      else Some (Some fs, w).

End ops.
