(* ===== verification/Ext2Props.v ===== *)
(** * The ext2 driver: geometry, block I/O and the block map *)

From S2P Require Import Prelude Mem CString Block Ext2.

(** ** Arithmetic *)

Lemma ceil_div_bounds a b : 0 < b -> 0 <= a -> (a + b - 1) / b * b < a + b /\ a <= (a + b - 1) / b * b /\ 0 <= (a + b - 1) / b.
Proof.
  intros Hb Ha. pose proof (Z.div_mod (a + b - 1) b ltac:(lia)). pose proof (Z.mod_pos_bound (a + b - 1) b Hb).
  pose proof (Z.div_pos (a + b - 1) b ltac:(lia) Hb). lia.
Qed.

Lemma ceil_unique a b n : 0 < b -> a <= n * b < a + b -> (a + b - 1) / b = n.
Proof. intros Hb Hn. symmetry. apply (Z.div_unique _ _ _ (a + b - 1 - n * b)); lia. Qed.

Lemma ceil_scale a q k : 0 < q -> 0 < k -> 0 <= a -> (a * k + q * k - 1) / (q * k) = (a + q - 1) / q.
Proof.
  intros Hq Hk Ha. destruct (ceil_div_bounds a q Hq Ha) as (H1 & H2 & _). set (n := (a + q - 1) / q) in *.
  apply ceil_unique; [nia|]. rewrite Z.mul_assoc. split; [by apply Z.mul_le_mono_nonneg_r; lia|].
  rewrite <- Z.mul_add_distr_r. apply Z.mul_lt_mono_pos_r; lia.
Qed.

(** [x & (x - 1) == 0] is the test for a power of two. *)
Lemma power_of_two x : 0 < x -> x &&& (x - 1) = 0 -> x = 2 ^ Z.log2 x.
Proof.
  intros Hx H. pose proof (Z.log2_spec x Hx) as [H1 H2]. pose proof (Z.log2_nonneg x) as Hk. set (k := Z.log2 x) in *.
  destruct (decide (x = 2 ^ k)) as [|Hne]; [done|]. exfalso. rewrite Z.pow_succ_r in H2 by lia.
  assert (Hb : forall y, 2 ^ k <= y < 2 * 2 ^ k -> Z.testbit y k = true).
  { intros y Hy. rewrite Z.testbit_true by lia. rewrite <- (Z.div_unique y (2 ^ k) 1 (y - 2 ^ k)) by lia. done. }
  apply (f_equal (fun z => Z.testbit z k)) in H. rewrite Z.land_spec, Z.bits_0, !Hb in H by lia. done.
Qed.

Lemma pow2_divide a b : 0 <= a -> 0 <= b -> 2 ^ a <= 2 ^ b -> exists q, 2 ^ b = q * 2 ^ a /\ 0 < q.
Proof.
  intros Ha Hb H. apply Z.pow_le_mono_r_iff in H; [|lia|lia]. exists (2 ^ (b - a)).
  rewrite <- Z.pow_add_r by lia. split; [f_equal; lia|apply Z.pow_pos_nonneg; lia].
Qed.

(** ** What a valid superblock promises *)

Definition sb_block_size (s : mem) : Z := 1024 * 2 ^ s_log_block_size s.
Definition sb_isize (s : mem) : Z := if revision s =? 0 then 128 else sb_inode_size s.
Definition sb_fino (s : mem) : Z := if revision s =? 0 then 11 else s_first_ino s.
Definition sb_groups (s : mem) : Z :=
  (s_blocks_count s - s_first_data_block s + s_blocks_per_group s - 1) / s_blocks_per_group s.

Record sb_valid (s : mem) (lba : Z) : Prop := {
  sv_log : s_log_block_size s <= 2;
  sv_lba : 0 < lba <= sb_block_size s /\ sb_block_size s mod lba = 0;
  sv_isize : 128 <= sb_isize s <= sb_block_size s;
  sv_pow2 : exists q, sb_block_size s = q * sb_isize s /\ 0 < q;
  sv_fino : 11 <= sb_fino s <= s_inodes_count s;
  sv_first : s_first_data_block s < s_blocks_count s;
  sv_bpg : 0 < s_blocks_per_group s <= 8 * sb_block_size s;
  sv_ipg : 0 < s_inodes_per_group s <= 8 * sb_block_size s;
  sv_inodes : s_inodes_count s <= sb_groups s * s_inodes_per_group s;
  sv_itb : (s_inodes_per_group s * sb_isize s + sb_block_size s - 1) / sb_block_size s < s_blocks_per_group s;
  sv_gdt : s_first_data_block s + 1 + (sb_groups s * 32 + sb_block_size s - 1) / sb_block_size s <= s_blocks_count s }.

Lemma fields_range s :
  0 <= s_inodes_count s < 2 ^ 32 /\ 0 <= s_blocks_count s < 2 ^ 32 /\ 0 <= s_first_data_block s < 2 ^ 32 /\
  0 <= s_log_block_size s < 2 ^ 32 /\ 0 <= s_blocks_per_group s < 2 ^ 32 /\ 0 <= s_inodes_per_group s < 2 ^ 32 /\
  0 <= revision s < 2 ^ 32 /\ 0 <= s_first_ino s < 2 ^ 32 /\ 0 <= sb_inode_size s < 2 ^ 16.
Proof. split_and_all; try apply (ldn_range 4); apply (ldn_range 2). Qed.

Lemma block_size_cases s : 0 <= s_log_block_size s <= 2 ->
  u32 (1024 <<< s_log_block_size s) = sb_block_size s /\
  (sb_block_size s = 1024 \/ sb_block_size s = 2048 \/ sb_block_size s = 4096).
Proof.
  intros H. unfold sb_block_size. rewrite shiftl_mul by lia.
  assert (s_log_block_size s = 0 \/ s_log_block_size s = 1 \/ s_log_block_size s = 2) as [-> | [-> | ->]] by lia;
    by split; auto.
Qed.

Lemma sb_groups_bounds s :
  s_first_data_block s < s_blocks_count s -> 0 < s_blocks_per_group s ->
  0 < sb_groups s < 2 ^ 32 /\ (sb_groups s - 1) * s_blocks_per_group s < s_blocks_count s - s_first_data_block s /\
  s_blocks_count s - s_first_data_block s <= sb_groups s * s_blocks_per_group s.
Proof.
  intros Hf Hb. pose proof (fields_range s) as (_ & Hc & Hd & _).
  unfold sb_groups.
  destruct (ceil_div_bounds (s_blocks_count s - s_first_data_block s) (s_blocks_per_group s) Hb ltac:(lia)) as (H1 & H2 & H3).
  set (g := (s_blocks_count s - s_first_data_block s + s_blocks_per_group s - 1) / s_blocks_per_group s) in *.
  split_and_all; try lia; nia.
Qed.

Lemma validate_sound s lba :
  0 <= lba < 2 ^ 32 -> ext2_validate_sb s lba = true -> sb_valid s lba.
Proof.
  intros Hlba. pose proof (fields_range s) as (Ri & Rb & Rf & Rl & Rbpg & Ripg & Rr & Rfi & Ris).
  unfold ext2_validate_sb. case_if; [done|]. destruct (block_size_cases s ltac:(lia)) as [-> Hbs].
  rewrite (u32_small lba) by lia. rewrite (u32_small (8 * sb_block_size s)) by lia.
  set (bs := sb_block_size s) in *.
  repeat (case_if; [done|]). intros _.
  assert (Hrev : (EXT2_DYNAMIC_REV <=? revision s) = negb (revision s =? 0)) by (unfold EXT2_DYNAMIC_REV in *; lia).
  rewrite Hrev in *.
  assert (Hisz : (if negb (revision s =? 0) then sb_inode_size s else EXT2_GOOD_OLD_INODE_SIZE) = sb_isize s)
    by (unfold sb_isize; by destruct (revision s =? 0)).
  assert (Hfi : (if negb (revision s =? 0) then s_first_ino s else EXT2_GOOD_OLD_FIRST_INO) = sb_fino s)
    by (unfold sb_fino; by destruct (revision s =? 0)).
  rewrite ?Hisz, ?Hfi in *.
  rewrite (u64_small (s_blocks_count s - s_first_data_block s)) in * by lia.
  rewrite (u64_small (s_blocks_count s - s_first_data_block s + s_blocks_per_group s - 1)) in * by lia.
  fold (sb_groups s) in *. destruct (sb_groups_bounds s ltac:(lia) ltac:(lia)) as (Hg & _ & _).
  assert (Hip : 0 < s_inodes_per_group s <= 8 * bs) by lia.
  assert (Hi : 128 <= sb_isize s <= bs /\ sb_isize s &&& (sb_isize s - 1) = 0).
  { unfold sb_isize in *. destruct (revision s =? 0) eqn:Er; [by split; [lia|]|]. cbn [negb andb] in *.
    unfold EXT2_GOOD_OLD_INODE_SIZE in *. bool_to_prop. rewrite u32_small in * by lia. by split; [lia|]. }
  assert (Hfino : 11 <= sb_fino s).
  { unfold sb_fino in *. destruct (revision s =? 0) eqn:Er; [lia|]. cbn [negb andb] in *.
    unfold EXT2_GOOD_OLD_FIRST_INO in *. bool_to_prop. lia. }
  unfold GD_SIZE in *.
  rewrite (u64_small (sb_groups s * s_inodes_per_group s)) in * by nia.
  rewrite (u64_small (s_inodes_per_group s * sb_isize s + bs - 1)) in * by nia.
  rewrite (u64_small (sb_groups s * 32 + bs - 1)) in * by lia.
  assert (Hgd : 0 <= (sb_groups s * 32 + bs - 1) / bs < 2 ^ 38) by (split; [apply Z.div_pos; lia|apply Z.div_lt_upper_bound; nia]).
  rewrite (u64_small (s_first_data_block s + 1 + (sb_groups s * 32 + bs - 1) / bs)) in * by lia.
  constructor; fold bs; try lia.
  destruct Hi as [Hi Hpow]. pose proof (power_of_two (sb_isize s) ltac:(lia) Hpow) as Hp.
  pose proof (power_of_two bs ltac:(lia)) as Hpb.
  rewrite Hp, Hpb by (destruct Hbs as [-> | [-> | ->]]; done).
  apply pow2_divide; [apply Z.log2_nonneg|apply Z.log2_nonneg|].
  rewrite <- Hp, <- Hpb by (destruct Hbs as [-> | [-> | ->]]; done). lia.
Qed.

(** ** The layout *)

(** The in-memory geometry is the one of a valid superblock. *)
Record geometry (fs : ext2_partition) (lba : Z) : Prop := {
  ge_valid : sb_valid (sb fs) lba;
  ge_bs : block_size fs = sb_block_size (sb fs);
  ge_isize : inode_size fs = sb_isize (sb fs);
  ge_groups : group_count fs = sb_groups (sb fs);
  ge_start : 0 <= lba_start fs < 2 ^ 63 }.

Lemma geometry_bs fs lba : geometry fs lba ->
  (block_size fs = 1024 \/ block_size fs = 2048 \/ block_size fs = 4096) /\ 0 < lba <= block_size fs /\
  block_size fs mod lba = 0.
Proof.
  intros [V -> _ _ _]. pose proof (fields_range (sb fs)). split; [|apply (sv_lba _ _ V)].
  apply block_size_cases. pose proof (sv_log _ _ V). lia.
Qed.

Lemma compute_layout_sound fs lba :
  0 <= lba < 2 ^ 32 -> 0 <= lba_start fs < 2 ^ 63 -> sb_valid (sb fs) lba ->
  exists fs', ext2_compute_layout fs lba = Some fs' /\ geometry fs' lba /\ sb fs' = sb fs /\ lba_start fs' = lba_start fs /\
    io_buf fs' = io_buf fs /\ groups fs' = groups fs /\ lock fs' = lock fs /\
    sectors_per_block fs' * lba = block_size fs' /\
    inodes_per_block fs' * inode_size fs' = block_size fs' /\
    first_ino fs' = sb_fino (sb fs) /\
    itb_per_group fs' * block_size fs' >= s_inodes_per_group (sb fs) * inode_size fs' /\
    itb_per_group fs' < s_blocks_per_group (sb fs) /\
    desc_per_block fs' * GD_SIZE = block_size fs' /\
    gdb_count fs' * desc_per_block fs' >= group_count fs' /\
    s_first_data_block (sb fs) + 1 + gdb_count fs' <= s_blocks_count (sb fs).
Proof.
  intros Hlba Hst V. pose proof V as [Vlog [Vlba Vmod] Visz (q & Hq & Hq0) Vfino Vfirst Vbpg Vipg Vino Vitb Vgdt].
  pose proof (fields_range (sb fs)) as (Ri & Rb & Rf & Rl & Rbpg & Ripg & Rr & Rfi & Ris).
  destruct (block_size_cases (sb fs) ltac:(lia)) as [Hu Hbs]. unfold ext2_compute_layout. rewrite Hu.
  set (bs := sb_block_size (sb fs)) in *. replace (lba =? 0) with false by lia.
  replace (s_blocks_per_group (sb fs) =? 0) with false by lia.
  rewrite (u32_small (s_blocks_count (sb fs) - s_first_data_block (sb fs))) by lia.
  rewrite (u64_small (s_blocks_count (sb fs) - s_first_data_block (sb fs) + s_blocks_per_group (sb fs) - 1)) by lia.
  fold (sb_groups (sb fs)). destruct (sb_groups_bounds (sb fs) ltac:(lia) ltac:(lia)) as (Hg & _ & _).
  rewrite (u32_small (sb_groups (sb fs))) by lia.
  change (if revision (sb fs) =? EXT2_GOOD_OLD_REV then EXT2_GOOD_OLD_INODE_SIZE else sb_inode_size (sb fs)) with (sb_isize (sb fs)).
  change (if revision (sb fs) =? EXT2_GOOD_OLD_REV then EXT2_GOOD_OLD_FIRST_INO else s_first_ino (sb fs)) with (sb_fino (sb fs)).
  replace (sb_isize (sb fs) =? 0) with false by lia. rewrite Hq, Z.div_mul by lia. rewrite <- Hq.
  replace (q =? 0) with false by lia. unfold GD_SIZE.
  assert (Hq32 : q <= 32) by nia.
  assert (Hdp : exists dp, bs / 32 = dp /\ dp * 32 = bs /\ 0 < dp) by (exists (bs / 32); Z.div_mod_to_equations; lia).
  destruct Hdp as (dp & -> & Hdp & Hdp0). replace (dp =? 0) with false by lia.
  assert (Hlb : 0 < bs / lba /\ bs / lba * lba = bs).
  { pose proof (Z.div_mod bs lba ltac:(lia)). split; [apply Z.div_str_pos; lia|lia]. }
  rewrite (u32_small (bs / lba)) by (split; [lia|]; nia).
  rewrite (u32_small (s_inodes_per_group (sb fs) + q - 1)) by lia.
  assert (Hitb : (s_inodes_per_group (sb fs) * sb_isize (sb fs) + bs - 1) / bs = (s_inodes_per_group (sb fs) + q - 1) / q)
    by (rewrite Hq; apply ceil_scale; lia).
  assert (Hgdb : (sb_groups (sb fs) * 32 + bs - 1) / bs = (sb_groups (sb fs) + dp - 1) / dp)
    by (rewrite <- Hdp; apply ceil_scale; lia).
  rewrite Hitb in Vitb. rewrite Hgdb in Vgdt.
  destruct (ceil_div_bounds (s_inodes_per_group (sb fs)) q ltac:(lia) ltac:(lia)) as (C1 & C2 & C3).
  set (itb := (s_inodes_per_group (sb fs) + q - 1) / q) in *.
  assert (Hitb0 : 0 < itb) by nia.
  rewrite (u32_small (sb_groups (sb fs) + dp - 1))
    by (destruct (sb_groups_bounds (sb fs) ltac:(lia) ltac:(lia)) as (_ & G1 & G2); nia).
  destruct (ceil_div_bounds (sb_groups (sb fs)) dp ltac:(lia) ltac:(lia)) as (E1 & E2 & E3).
  set (gdb := (sb_groups (sb fs) + dp - 1) / dp) in *.
  eexists. split; [reflexivity|]. cbn [sb lba_start block_size sectors_per_block group_count inode_size first_ino
    inodes_per_block itb_per_group desc_per_block gdb_count groups lock io_buf].
  split_and_all; try done; try lia. rewrite Hq. nia.
Qed.

(** Every inode number lies in a group, and its inode in one block of the table. *)
Lemma inode_location fs lba ino :
  geometry fs lba -> 1 <= ino <= s_inodes_count (sb fs) ->
  let ipg := s_inodes_per_group (sb fs) in
  let byte := (ino - 1) mod ipg * inode_size fs in
  (ino - 1) / ipg < group_count fs /\ 0 <= (ino - 1) / ipg /\ 0 <= byte < 2 ^ 31 /\
  byte mod block_size fs + inode_size fs <= block_size fs /\ 128 <= inode_size fs /\
  byte / block_size fs < s_blocks_per_group (sb fs).
Proof.
  intros G Hino ipg byte. pose proof G as [V Hbs Hisz Hgc _]. subst byte ipg. rewrite Hbs, Hgc, Hisz in *.
  pose proof V as [Vlog [Vlba Vmod] Visz (q & Hq & Hq0) Vfino Vfirst Vbpg Vipg Vino Vitb Vgdt].
  pose proof (Z.mod_pos_bound (ino - 1) (s_inodes_per_group (sb fs)) ltac:(lia)) as Hm.
  pose proof (geometry_bs fs lba G) as [Hbc _]. rewrite Hbs in Hbc.
  set (i := (ino - 1) mod s_inodes_per_group (sb fs)) in *. set (isz := sb_isize (sb fs)) in *.
  set (bs := sb_block_size (sb fs)) in *.
  assert (Hmod : (i * isz) mod bs = (i mod q) * isz).
  { rewrite Hq. rewrite Z.mul_mod_distr_r by lia. done. }
  pose proof (Z.mod_pos_bound i q Hq0). split_and_all.
  - apply Z.div_lt_upper_bound; lia.
  - apply Z.div_pos; lia.
  - nia.
  - nia.
  - rewrite Hmod. nia.
  - lia.
  - destruct (ceil_div_bounds (s_inodes_per_group (sb fs) * isz) bs ltac:(lia) ltac:(nia)) as (D1 & D2 & D3).
    apply Z.div_lt_upper_bound; [lia|]. nia.
Qed.

(** ** Block I/O *)

Section io.
Context {hhdm : Z} {K D : Type} {KM : KernelMem hhdm K} {DD : DiskDev D}.
Implicit Types (w : world K D) (fs : ext2_partition).

Definition same_disk (d d' : D) : Prop := lba_size d' = lba_size d /\ forall x, disk_byte d' x = disk_byte d x.

Lemma same_disk_refl d : same_disk d d.
Proof. done. Qed.
Lemma same_disk_trans d1 d2 d3 : same_disk d1 d2 -> same_disk d2 d3 -> same_disk d1 d3.
Proof. intros [H1 H2] [H3 H4]. split; [congruence|]. intros x. by rewrite H4, H2. Qed.

(** A disk on which no read fails. *)
Definition reads_succeed : Prop := forall d m b lba n, (disk_read (D := D) d m b lba n).1.1 = true.

(** [w'] differs from [w] only in the [n] bytes at [b]. *)
Record only_buffer (w w' : world K D) (b n : Z) : Prop := {
  ob_k : wk w' = wk w;
  ob_disk : same_disk (wd w) (wd w');
  ob_mem : forall x, x < b \/ b + n <= x -> wm w' x = wm w x }.

Lemma only_buffer_refl w b n : only_buffer w w b n.
Proof. by constructor. Qed.
Lemma only_buffer_trans w1 w2 w3 b n : only_buffer w1 w2 b n -> only_buffer w2 w3 b n -> only_buffer w1 w3 b n.
Proof.
  intros [H1 H2 H3] [H4 H5 H6]. constructor; [congruence|by eapply same_disk_trans|].
  intros x Hx. by rewrite H6, H3.
Qed.

(** The byte of the medium at which a block of the partition starts. *)
Definition block_at w fs (block : Z) : Z := lba_start fs * lba_size (wd w) + block * block_size fs.

Lemma block_at_same w w' fs block : same_disk (wd w) (wd w') -> block_at w' fs block = block_at w fs block.
Proof. intros [H _]. unfold block_at. by rewrite H. Qed.

Lemma dread_spec w b lba n ok w' :
  dread w b lba n = (ok, w') ->
  only_buffer w w' b (n * lba_size (wd w)) /\
  (ok = true -> forall i, 0 <= i < n * lba_size (wd w) -> wm w' (b + i) = disk_byte (wd w) (lba * lba_size (wd w) + i)) /\
  (reads_succeed -> ok = true).
Proof.
  unfold dread. destruct (disk_read (wd w) (wm w) b lba n) as [[ok' d'] m'] eqn:E. intros [= <- <-].
  destruct (disk_read_frame _ _ _ _ _ _ _ _ E) as (H1 & H2 & H3). split_and_all.
  - by constructor.
  - intros ->. by apply (disk_read_ok _ _ _ _ _ _ _ E).
  - intros Hs. specialize (Hs (wd w) (wm w) b lba n). by rewrite E in Hs.
Qed.

Lemma sectors_of_block w fs block :
  geometry fs (lba_size (wd w)) -> 0 <= block < s_blocks_count (sb fs) ->
  exists r, bytes_to_blocks (u64 (block * block_size fs)) (block_size fs) (lba_size (wd w)) = Some r /\
    u64 (lba_start fs + res_lba r) * lba_size (wd w) = block_at w fs block /\
    size_in_blocks r * lba_size (wd w) = block_size fs.
Proof.
  intros G Hb. destruct (geometry_bs _ _ G) as (Hbs & Hl & Hm). pose proof (fields_range (sb fs)) as (_ & Rb & _).
  set (lba := lba_size (wd w)) in *. rewrite u64_small by lia.
  destruct (bytes_to_blocks_spec (block * block_size fs) (block_size fs) lba) as (r & -> & H1 & H2 & H3 & H4);
    [lia|lia|lia|].
  exists r. split; [done|]. pose proof (Z.div_mod (block_size fs) lba ltac:(lia)) as Hdm. rewrite Hm in Hdm.
  set (k := block_size fs / lba) in *.
  assert (Hr : res_lba r = block * k).
  { rewrite H1. symmetry. apply (Z.div_unique _ _ _ 0); lia. }
  pose proof (ge_start _ _ G). rewrite u64_small by (rewrite Hr; nia). unfold block_at. fold lba.
  split; [rewrite Hr; nia|]. rewrite H3. rewrite (ceil_unique _ _ k); lia.
Qed.

Lemma read_blocks_spec w fs block buf :
  geometry fs (lba_size (wd w)) -> 0 <= block < s_blocks_count (sb fs) ->
  exists ok w', ext2_read_blocks w fs block buf = Some (ok, w') /\ only_buffer w w' buf (block_size fs) /\
    (ok = true -> forall i, 0 <= i < block_size fs -> wm w' (buf + i) = disk_byte (wd w) (block_at w fs block + i)) /\
    (reads_succeed -> ok = true).
Proof.
  intros G Hb. destruct (geometry_bs _ _ G) as (_ & Hl & _).
  destruct (sectors_of_block w fs block G Hb) as (r & Hr & H1 & H2).
  unfold ext2_read_blocks. replace (s_blocks_count (sb fs) <=? block) with false by lia. rewrite Hr.
  cbn [mbind option_bind]. replace (lba_size (wd w) <=? block_size fs) with true by lia.
  destruct (dread w buf (u64 (lba_start fs + res_lba r)) (size_in_blocks r)) as [ok w'] eqn:E.
  destruct (dread_spec _ _ _ _ _ _ E) as (Ho & Hc & Hs). rewrite H1, H2 in *. exists ok, w'. by split_and_all.
Qed.

Lemma read_blocks_out w fs block buf :
  s_blocks_count (sb fs) <= block -> ext2_read_blocks w fs block buf = Some (false, w).
Proof. intros H. unfold ext2_read_blocks. by replace (s_blocks_count (sb fs) <=? block) with true by lia. Qed.

Lemma write_blocks_spec w fs block buf :
  geometry fs (lba_size (wd w)) -> 0 <= block < s_blocks_count (sb fs) -> read_only fs = false ->
  exists ok w', ext2_write_blocks w fs block buf = Some (ok, w') /\ wk w' = wk w /\ wm w' = wm w /\
    lba_size (wd w') = lba_size (wd w) /\
    (forall x, x < block_at w fs block \/ block_at w fs block + block_size fs <= x ->
       disk_byte (wd w') x = disk_byte (wd w) x) /\
    (ok = true -> forall i, 0 <= i < block_size fs -> disk_byte (wd w') (block_at w fs block + i) = ld8 (wm w) (buf + i)).
Proof.
  intros G Hb Hro. destruct (geometry_bs _ _ G) as (_ & Hl & _).
  destruct (sectors_of_block w fs block G Hb) as (r & Hr & H1 & H2).
  unfold ext2_write_blocks. rewrite Hro. replace (s_blocks_count (sb fs) <=? block) with false by lia. rewrite Hr.
  cbn [mbind option_bind]. replace (lba_size (wd w) <=? block_size fs) with true by lia. unfold dwrite.
  set (lba := u64 (lba_start fs + res_lba r)) in *.
  destruct (disk_write (wd w) (wm w) buf lba (size_in_blocks r)) as [ok d'] eqn:E.
  destruct (disk_write_frame _ _ _ _ _ _ _ E) as [F1 F2]. rewrite Z.mul_add_distr_r, H1, H2 in F2.
  eexists ok, _. split; [done|]. cbn [wk wm wd]. split_and_all; try done.
  intros ->. pose proof (disk_write_ok _ _ _ _ _ _ E) as W. rewrite H1, H2 in W. done.
Qed.

(** ** The block map *)

Definition ppb fs : Z := block_size fs / 4.

(** Entry [idx] of the pointer block [blk] on the medium. *)
Definition ptr_on_disk w fs (blk idx : Z) : Z := ld32 (disk_byte (wd w)) (block_at w fs blk + 4 * idx).

Definition in_fs fs (blk : Z) : bool := (s_first_data_block (sb fs) <=? blk) && (blk <? s_blocks_count (sb fs)).

(** Follow [level] levels of pointer blocks from [p]; a null pointer is a hole, a
    pointer out of the file system an error. *)
Fixpoint tree_ptr w fs (level : nat) (p idx : Z) : option Z :=
  match level with
  | O => Some p
  | S l =>
      if p =? 0 then Some 0
      else if in_fs fs p
      then tree_ptr w fs l (ptr_on_disk w fs p (idx / ppb fs ^ Z.of_nat l)) (idx mod ppb fs ^ Z.of_nat l)
      else None
  end.

(** Block [fb] of a file: 12 direct pointers, then trees of depth 1, 2 and 3. *)
Definition file_block w fs (ino : mem) (fb : Z) : option Z :=
  let n := ppb fs in
  if fb <? 12 then Some (i_block ino fb)
  else if fb - 12 <? n then tree_ptr w fs 1 (i_block ino 12) (fb - 12)
  else if fb - 12 - n <? n * n then tree_ptr w fs 2 (i_block ino 13) (fb - 12 - n)
  else if fb - 12 - n - n * n <? n * n * n then tree_ptr w fs 3 (i_block ino 14) (fb - 12 - n - n * n)
  else None.

Lemma ptr_on_disk_same w w' fs blk idx : same_disk (wd w) (wd w') -> ptr_on_disk w' fs blk idx = ptr_on_disk w fs blk idx.
Proof.
  intros Hs. unfold ptr_on_disk. rewrite (block_at_same w w') by done. destruct Hs as [_ Hs].
  apply ldn_ext. intros x _. apply Hs.
Qed.

Lemma tree_ptr_same w w' fs l p idx : same_disk (wd w) (wd w') -> tree_ptr w' fs l p idx = tree_ptr w fs l p idx.
Proof.
  intros Hs. revert p idx. induction l as [|l IH]; intros p idx; cbn [tree_ptr]; [done|].
  rewrite (ptr_on_disk_same w w') by done. by rewrite IH.
Qed.

Lemma read_ptr_spec w fs blk idx out :
  geometry fs (lba_size (wd w)) -> lock fs = false -> 0 <= blk -> 0 <= idx < ppb fs ->
  exists ok v w', ext2_read_ptr w fs blk idx out = Some (ok, v, w') /\ only_buffer w w' (io_buf fs) (block_size fs) /\
    (ok = true -> in_fs fs blk = true /\ v = ptr_on_disk w fs blk idx) /\
    (ok = false -> v = out) /\
    (in_fs fs blk = true -> reads_succeed -> ok = true).
Proof.
  intros G Hlk Hb Hidx. unfold ext2_read_ptr, in_fs. rewrite Hlk.
  destruct ((blk <? s_first_data_block (sb fs)) || (s_blocks_count (sb fs) <=? blk)) eqn:E.
  - exists false, out, w. split_and_all; try done. intros H _. exfalso. lia.
  - bool_to_prop. assert (G' : geometry (with_lock fs true) (lba_size (wd w))) by (destruct G; by constructor).
    destruct (read_blocks_spec w (with_lock fs true) blk (io_buf fs) G' ltac:(cbn; lia)) as (ok & w' & -> & Ho & Hc & Hs).
    cbn [mbind option_bind block_size with_lock] in *. eexists ok, _, w'. split; [done|].
    split_and_all; [done| | |].
    + intros ->. split; [lia|]. unfold ptr_on_disk. destruct (geometry_bs _ _ G) as (Hbs & _).
      assert (block_size fs = ppb fs * 4) by (unfold ppb; Z.div_mod_to_equations; lia).
      symmetry. rewrite <- (ldn_ext 4 (wm w') (fun x => disk_byte (wd w) (x - io_buf fs + block_at w fs blk))).
      * clear. revert idx. assert (H : forall n a, ldn n (disk_byte (wd w)) (block_at w fs blk + a) =
          ldn n (fun x => disk_byte (wd w) (x - io_buf fs + block_at w fs blk)) (io_buf fs + a)).
        { induction n as [|n IH]; intros a; [done|].
          change (ldn (S n) ?m ?x) with (u8 (m x) + 256 * ldn n m (x + 1)). rewrite <- !Z.add_assoc, IH.
          f_equal. f_equal. f_equal. lia. }
        intros idx. apply H.
      * intros x Hx. replace x with (io_buf fs + (x - io_buf fs)) at 2 by lia. rewrite (Hc eq_refl) by lia.
        f_equal. change (block_at w (with_lock fs true) blk) with (block_at w fs blk). lia.
    + by intros ->.
    + intros _. exact Hs.
Qed.

(** The outcome of following pointers, against what the medium says. *)
Record walk_ok w fs w' (ok : bool) (v : Z) (o : option Z) : Prop := {
  wo_buffer : only_buffer w w' (io_buf fs) (block_size fs);
  wo_true : ok = true -> o = Some v;
  wo_false : ok = false -> v = 0;
  wo_reads : reads_succeed -> o <> None -> ok = true }.

Definition walk1 w fs (p idx : Z) : option (bool * Z * world K D) :=
  if negb (truthy p) then Some (true, 0, w) else ext2_read_ptr w fs p (u32 idx) 0.

(** One more level in front of a walk. *)
Definition walk_more (k : world K D -> Z -> Z -> option (bool * Z * world K D)) w fs (p idx span : Z) :=
  if negb (truthy p) then Some (true, 0, w) else
  '(ok, p, w) ← ext2_read_ptr w fs p (u32 (idx / span)) p;
  if negb ok then Some (false, 0, w) else k w p (idx mod span).

Lemma ppb_cases fs lba : geometry fs lba -> ppb fs = 256 \/ ppb fs = 512 \/ ppb fs = 1024.
Proof. intros G. destruct (geometry_bs _ _ G) as (H & _). unfold ppb. Z.div_mod_to_equations; lia. Qed.

Lemma hole_ok w fs l idx : walk_ok w fs w true 0 (tree_ptr w fs l 0 idx).
Proof. constructor; try done. by destruct l. Qed.

Lemma walk1_ok w fs p idx :
  geometry fs (lba_size (wd w)) -> lock fs = false -> 0 <= p -> 0 <= idx < ppb fs ->
  exists ok v w', walk1 w fs p idx = Some (ok, v, w') /\ walk_ok w fs w' ok v (tree_ptr w fs 1 p idx).
Proof.
  intros G Hlk Hp Hi. unfold walk1. destruct (truthy p) eqn:E; cbn [negb]; bool_to_prop.
  - destruct (ppb_cases _ _ G) as [Hn|[Hn|Hn]]; rewrite u32_small by lia.
    all: destruct (read_ptr_spec w fs p idx 0 G Hlk Hp Hi) as (ok & v & w' & -> & Ho & Ht & Hf & Hs).
    all: exists ok, v, w'; split; [done|]; cbn [tree_ptr]; replace (p =? 0) with false by lia.
    all: change (ppb fs ^ Z.of_nat 0) with 1; rewrite Z.div_1_r.
    all: constructor; [done| |done|].
    all: try (intros ->; destruct (Ht eq_refl) as [-> ->]; done).
    all: intros Hr Hne; apply Hs; [|done]; by destruct (in_fs fs p).
  - subst p. exists true, 0, w. split; [done|]. apply hole_ok.
Qed.

Lemma walk_more_ok k w fs l p idx :
  geometry fs (lba_size (wd w)) -> lock fs = false -> 0 <= p ->
  (l <= 2)%nat -> 0 <= idx < ppb fs ^ Z.of_nat (S l) ->
  (forall w' q j, geometry fs (lba_size (wd w')) -> 0 <= q -> 0 <= j < ppb fs ^ Z.of_nat l ->
     exists ok v w'', k w' q j = Some (ok, v, w'') /\ walk_ok w' fs w'' ok v (tree_ptr w' fs l q j)) ->
  exists ok v w', walk_more k w fs p idx (ppb fs ^ Z.of_nat l) = Some (ok, v, w') /\
    walk_ok w fs w' ok v (tree_ptr w fs (S l) p idx).
Proof.
  intros G Hlk Hp Hl Hi Hk. unfold walk_more. destruct (truthy p) eqn:E; cbn [negb]; bool_to_prop.
  2: { subst p. exists true, 0, w. split; [done|]. apply hole_ok. }
  rewrite Nat2Z.inj_succ, Z.pow_succ_r in Hi by lia.
  assert (Hn : 0 < ppb fs <= 1024) by (destruct (ppb_cases _ _ G) as [Hn|[Hn|Hn]]; lia).
  assert (Hpow : 0 < ppb fs ^ Z.of_nat l) by (apply Z.pow_pos_nonneg; lia). set (span := ppb fs ^ Z.of_nat l) in *.
  assert (Hq : 0 <= idx / span < ppb fs) by (split; [apply Z.div_pos; lia|apply Z.div_lt_upper_bound; lia]).
  rewrite u32_small by lia.
  destruct (read_ptr_spec w fs p (idx / span) p G Hlk Hp Hq) as (ok & q & w1 & -> & Ho & Ht & Hf & Hs).
  cbn [mbind option_bind]. cbn [tree_ptr]. fold span. replace (p =? 0) with false by lia.
  destruct ok; cbn [negb].
  - destruct (Ht eq_refl) as [-> Hqv]. pose proof (ob_disk _ _ _ _ Ho) as Hd.
    assert (G1 : geometry fs (lba_size (wd w1))) by (rewrite (proj1 Hd); done).
    destruct (Hk w1 q (idx mod span) G1) as (ok & v & w2 & -> & [B1 B2 B3 B4]).
    + rewrite Hqv. apply (ldn_range 4).
    + apply Z.mod_pos_bound. lia.
    + exists ok, v, w2. split; [done|]. rewrite (tree_ptr_same w w1) in B2, B4 by done. rewrite <- Hqv.
      constructor; [by eapply only_buffer_trans|done|done|done].
  - exists false, 0, w1. split; [done|]. constructor; [done|done|done|].
    intros Hr Hne. destruct (in_fs fs p) eqn:Ei; [|done]. by rewrite Hs in *.
Qed.

Lemma walk2_ok w fs p idx :
  geometry fs (lba_size (wd w)) -> lock fs = false -> 0 <= p -> 0 <= idx < ppb fs * ppb fs ->
  exists ok v w', walk_more (fun w p i => walk1 w fs p i) w fs p idx (ppb fs) = Some (ok, v, w') /\
    walk_ok w fs w' ok v (tree_ptr w fs 2 p idx).
Proof.
  intros G Hlk Hp Hi. pose proof (walk_more_ok (fun w p i => walk1 w fs p i) w fs 1 p idx G Hlk Hp) as H.
  change (Z.of_nat 1) with 1 in H. change (Z.of_nat 2) with 2 in H. rewrite Z.pow_1_r, Z.pow_2_r in H.
  apply H; [lia|done|]. intros w' q j G' Hq Hj. by apply walk1_ok.
Qed.

Lemma walk3_ok w fs p idx :
  geometry fs (lba_size (wd w)) -> lock fs = false -> 0 <= p -> 0 <= idx < ppb fs * ppb fs * ppb fs ->
  exists ok v w', walk_more (fun w p i => walk_more (fun w p i => walk1 w fs p i) w fs p i (ppb fs)) w fs p idx
      (ppb fs * ppb fs) = Some (ok, v, w') /\
    walk_ok w fs w' ok v (tree_ptr w fs 3 p idx).
Proof.
  intros G Hlk Hp Hi.
  pose proof (walk_more_ok (fun w p i => walk_more (fun w p i => walk1 w fs p i) w fs p i (ppb fs)) w fs 2 p idx G Hlk Hp) as H.
  change (Z.of_nat 2) with 2 in H. change (Z.of_nat 3) with (2 + 1) in H.
  rewrite Z.pow_add_r, Z.pow_1_r, !Z.pow_2_r in H by lia.
  apply H; [lia|done|]. intros w' q j G' Hq Hj. by apply walk2_ok.
Qed.

(** [ext2_bmap] follows the trees. *)
Lemma bmap_ok w fs ino fb :
  geometry fs (lba_size (wd w)) -> lock fs = false -> 0 <= fb ->
  exists ok v w', ext2_bmap w fs ino fb = Some (ok, v, w') /\ walk_ok w fs w' ok v (file_block w fs ino fb).
Proof.
  intros G Hlk Hfb. unfold ext2_bmap, file_block. cbv zeta. fold (ppb fs).
  assert (Hblk : forall k, 0 <= i_block ino k) by (intros k; apply (ldn_range 4)).
  case_if; [eexists true, _, w; split; [done|by constructor]|].
  case_if; [apply (walk1_ok w fs (i_block ino 12) (fb - 12)); [done|done|done|lia]|].
  case_if; [apply (walk2_ok w fs (i_block ino 13) (fb - 12 - ppb fs)); [done|done|done|lia]|].
  case_if; [apply (walk3_ok w fs (i_block ino 14) (fb - 12 - ppb fs - ppb fs * ppb fs)); [done|done|done|lia]|].
  exists false, 0, w. split; [done|]. by constructor.
Qed.

(** ** Inodes *)

(** Where the inode lies on the medium, by the table its group's descriptor names. *)
Definition inode_at w fs (ino : Z) : Z :=
  let ipg := s_inodes_per_group (sb fs) in
  let gd := groups fs + (ino - 1) / ipg * GD_SIZE in
  block_at w fs (bg_inode_table (wm w) gd) + (ino - 1) mod ipg * inode_size fs.

Definition inode_in_fs w fs (ino : Z) : Prop :=
  let ipg := s_inodes_per_group (sb fs) in
  let gd := groups fs + (ino - 1) / ipg * GD_SIZE in
  bg_inode_table (wm w) gd + (ino - 1) mod ipg * inode_size fs / block_size fs < s_blocks_count (sb fs).

Lemma read_inode_ok w fs ino :
  geometry fs (lba_size (wd w)) -> lock fs = false -> 0 < groups fs -> 0 <= ino ->
  exists o w', ext2_read_inode w fs ino = Some (o, w') /\ only_buffer w w' (io_buf fs) (block_size fs) /\
    (forall i, o = Some i ->
       1 <= ino <= s_inodes_count (sb fs) /\ inode_in_fs w fs ino /\
       (forall x, 0 <= x < 128 -> i x = disk_byte (wd w) (inode_at w fs ino + x))) /\
    (1 <= ino <= s_inodes_count (sb fs) -> inode_in_fs w fs ino -> reads_succeed -> o <> None).
Proof.
  intros G Hlk Hgr Hino. pose proof (geometry_bs _ _ G) as (Hbs & _). unfold ext2_read_inode.
  destruct ((ino =? 0) || (s_inodes_count (sb fs) <? ino)) eqn:E.
  { exists None, w. split_and_all; try done. lia. }
  apply orb_false_iff in E as [E1 E2]. bool_to_prop.
  destruct (inode_location fs _ ino G ltac:(lia)) as (L1 & L2 & L3 & L4 & L5 & L6).
  pose proof (sv_ipg _ _ (ge_valid _ _ G)) as Hipg.
  replace (s_inodes_per_group (sb fs) =? 0) with false by lia.
  unfold ext2_get_group_desc. rewrite (proj2 (Z.ltb_lt _ _) L1). unfold inode_in_fs, inode_at, GD_SIZE in *.
  set (ipg := s_inodes_per_group (sb fs)) in *. set (byte := (ino - 1) mod ipg * inode_size fs) in *.
  set (gd := groups fs + (ino - 1) / ipg * 32). assert (Hgd : 0 < gd) by lia.
  replace (gd =? 0) with false by lia. replace (block_size fs =? 0) with false by lia.
  rewrite (u64_small byte) by lia. pose proof (ldn_range 4 (wm w) (gd + 8)) as Rt. fold (bg_inode_table (wm w) gd) in Rt.
  set (tb := bg_inode_table (wm w) gd) in *. pose proof (Z.div_pos byte (block_size fs) ltac:(lia) ltac:(lia)) as Hd0.
  pose proof (Z.div_le_upper_bound byte (block_size fs) (2 ^ 31) ltac:(lia) ltac:(lia)) as Hd1.
  pose proof (Z.mod_pos_bound byte (block_size fs) ltac:(lia)) as Hm0.
  rewrite u64_small by lia. rewrite (u32_small (byte mod block_size fs)) by lia.
  destruct (s_blocks_count (sb fs) <=? tb + byte / block_size fs) eqn:E3; bool_to_prop.
  { exists None, w. split_and_all; try done. lia. }
  replace (inode_size fs <? INODE_SIZE) with false by (unfold INODE_SIZE; lia). rewrite Hlk.
  pose proof (fields_range (sb fs)) as (_ & Rb & _). rewrite u32_small by lia.
  assert (G' : geometry (with_lock fs true) (lba_size (wd w))) by (destruct G; by constructor).
  destruct (read_blocks_spec w (with_lock fs true) (tb + byte / block_size fs) (io_buf fs) G' ltac:(cbn; lia))
    as (ok & w' & -> & Ho & Hc & Hs). cbn [mbind option_bind block_size with_lock] in *.
  destruct ok; eexists _, w'; (split; [done|]); (split; [done|]); split; try done.
  - intros i [= <-]. split_and_all; [lia|lia|lia|]. intros x Hx. unfold copy_out, INODE_SIZE.
    replace ((0 <=? x) && (x <? 128)) with true by lia. unfold ld8.
    rewrite <- Z.add_assoc, (Hc eq_refl) by lia. rewrite u8_small by apply disk_byte_range. f_equal.
    unfold block_at. cbn [with_lock lba_start block_size].
    pose proof (Z.div_mod byte (block_size fs) ltac:(lia)). lia.
  - intros _ _ Hr. by apply Hs in Hr.
Qed.
End io.

(** ** A small file system

    64 blocks of 1 KiB in one group, 16 inodes; the root directory is inode 2 with
    block 7 and a single-indirect block 8 whose first entry is block 9. *)
Definition demo_image : mem :=
  stn 4 (stn 4 (stn 4 (stn 2 (stn 4 (stn 2
  (stn 4 (stn 4 (stn 4
  (stn 2 (stn 4 (stn 4 (stn 4 (stn 4 (stn 4 (fun _ => 0)
    1024 16) 1028 64) 1044 1) 1056 8192) 1064 16) 1080 61267)
    2048 3) 2052 4) 2056 5)
    5248 16877) 5252 1024) 5274 2) 5288 7) 5336 8) 8192 9.

(** The partition as [ext2_fill_super] sets it up, the descriptors at address 8192. *)
Definition demo_fs : ext2_partition :=
  Ext2Partition (fun x => if (0 <=? x) && (x <? 348) then demo_image (1024 + x) else 0)
    0 1024 2 1 128 11 8 2 32 1 8192 false false false 16384.

Definition demo_world : world Z mem :=
  World 65536 (fun x => if (8192 <=? x) && (x <? 8224) then demo_image (2048 + (x - 8192)) else 0) demo_image.

(** The image has nothing above the superblock's last block. *)
Lemma demo_fs_valid : sb_valid (sb demo_fs) 512.
Proof. apply validate_sound; [lia|vm_compute; reflexivity]. Qed.

Lemma demo_geometry : geometry demo_fs 512.
Proof. constructor; [apply demo_fs_valid|vm_compute; reflexivity..|cbn; lia]. Qed.

(** ** Properties *)

(** C23: a superblock that passes validation gives a sane layout.  For every superblock
    [ext2_validate_sb] accepts, [ext2_compute_layout] divides by nothing that is 0 and
    truncates nothing: a block is a whole number of sectors and of inodes and has 1, 2
    or 4 KiB; the groups cover the blocks and the last one is not empty; the inode
    table of a group fits in it, the descriptor table in the file system; and every
    inode number lies in an existing group, its inode within one block of the table. *)
Theorem validated_layout_sound (fs : ext2_partition) (lba : Z) :
  0 <= lba < 2 ^ 32 -> 0 <= lba_start fs < 2 ^ 63 -> ext2_validate_sb (sb fs) lba = true ->
  exists fs', ext2_compute_layout fs lba = Some fs' /\ sb fs' = sb fs /\ geometry fs' lba /\
    (block_size fs' = 1024 \/ block_size fs' = 2048 \/ block_size fs' = 4096) /\
    sectors_per_block fs' * lba = block_size fs' /\ inodes_per_block fs' * inode_size fs' = block_size fs' /\
    (group_count fs' - 1) * s_blocks_per_group (sb fs) < s_blocks_count (sb fs) - s_first_data_block (sb fs)
      <= group_count fs' * s_blocks_per_group (sb fs) /\
    itb_per_group fs' * block_size fs' >= s_inodes_per_group (sb fs) * inode_size fs' /\
    itb_per_group fs' < s_blocks_per_group (sb fs) /\
    s_first_data_block (sb fs) + 1 + gdb_count fs' <= s_blocks_count (sb fs) /\
    (forall ino, 1 <= ino <= s_inodes_count (sb fs) ->
       let ipg := s_inodes_per_group (sb fs) in
       let byte := (ino - 1) mod ipg * inode_size fs' in
       0 <= (ino - 1) / ipg < group_count fs' /\
       byte mod block_size fs' + inode_size fs' <= block_size fs' /\ byte / block_size fs' < s_blocks_per_group (sb fs)).
Proof.
  intros Hl Hst Hv. apply validate_sound in Hv; [|done].
  destruct (compute_layout_sound fs lba Hl Hst Hv) as (fs' & H & G & S1 & S2 & S3 & S4 & S5 & L1 & L2 & _ & L4 & L5 & _ & _ & L8).
  exists fs'. destruct (sb_groups_bounds (sb fs)) as (_ & B1 & B2); [apply (sv_first _ _ Hv)|apply (sv_bpg _ _ Hv)|].
  pose proof (ge_groups _ _ G) as Hg. rewrite S1 in Hg. destruct (geometry_bs _ _ G) as (Hbs & _).
  rewrite <- Hg in B1, B2. split_and_all; try done. intros ino Hino. rewrite <- S1 in Hino |- *.
  destruct (inode_location fs' lba ino G Hino) as (I1 & I2 & I3 & I4 & I5 & I6). by split_and_all.
Qed.

Lemma validated_layout_sound_witness :
  exists fs', ext2_compute_layout demo_fs 512 = Some fs' /\ block_size fs' = 1024 /\ group_count fs' = 1 /\
    forall ino, 1 <= ino <= 16 -> 0 <= (ino - 1) / 16 < group_count fs'.
Proof.
  destruct (validated_layout_sound demo_fs 512) as (fs' & H1 & _ & _ & _ & _ & _ & _ & _ & _ & _ & H2);
    [lia|cbn; lia|vm_compute; reflexivity|].
  assert (E1 : option_map block_size (ext2_compute_layout demo_fs 512) = Some 1024) by (vm_compute; reflexivity).
  assert (E2 : option_map group_count (ext2_compute_layout demo_fs 512) = Some 1) by (vm_compute; reflexivity).
  rewrite H1 in E1, E2. injection E1 as E1. injection E2 as E2.
  exists fs'. split; [exact H1|]. split; [exact E1|]. split; [exact E2|]. intros ino Hino. exact (proj1 (H2 ino Hino)).
Defined.

(** C24: the block map.  On a mounted partition [ext2_bmap] returns for every file
    block; it follows the 12 direct pointers and the trees of depth 1, 2 and 3 as the
    medium holds them, a null pointer at any level being a hole (block 0); success
    means the answer is exactly that block; it fails only beyond the largest file,
    for a pointer block outside the file system, or when the disk fails; only the I/O
    buffer changes. *)
Theorem bmap_follows_block_tree {hhdm : Z} {K D : Type} {KM : KernelMem hhdm K} {DD : DiskDev D}
    (w : world K D) (fs : ext2_partition) (ino : mem) (fb : Z) :
  geometry fs (lba_size (wd w)) -> lock fs = false -> 0 <= fb ->
  exists ok v w', ext2_bmap w fs ino fb = Some (ok, v, w') /\
    (ok = true -> file_block w fs ino fb = Some v) /\
    (file_block w fs ino fb <> None -> reads_succeed (D := D) -> ok = true) /\
    only_buffer w w' (io_buf fs) (block_size fs).
Proof.
  intros G Hl Hf. destruct (bmap_ok w fs ino fb G Hl Hf) as (ok & v & w' & H & [H1 H2 H3 H4]).
  exists ok, v, w'. split_and_all; [done|done| |done]. intros Hn Hr. by apply H4.
Qed.

(** The root inode of the image. *)
Definition demo_root : mem := fun x => if (0 <=? x) && (x <? 128) then demo_image (5248 + x) else 0.

Lemma bmap_follows_block_tree_witness :
  exists w', ext2_bmap (DD := ramdisk) demo_world demo_fs demo_root 12 = Some (true, 9, w').
Proof.
  destruct (bmap_follows_block_tree (KM := arena_mem 0) (DD := ramdisk) demo_world demo_fs demo_root 12 demo_geometry eq_refl ltac:(lia))
    as (ok & v & w' & H1 & H2 & H3 & _).
  assert (E : file_block (DD := ramdisk) demo_world demo_fs demo_root 12 = Some 9) by (vm_compute; reflexivity).
  rewrite E in H2, H3. assert (ok = true) as -> by (apply H3; [discriminate|intros d m b lba n; reflexivity]).
  specialize (H2 eq_refl). injection H2 as <-. exists w'. exact H1.
Defined.

(** Reading an inode.  On a mounted partition [ext2_read_inode] returns for every
    number; it succeeds exactly for the numbers 1 to [s_inodes_count] whose table block
    is inside the file system, if the disk does not fail, and then gives the 128 bytes
    the medium holds at the inode's place in the table its group descriptor names. *)
Theorem read_inode_reads_inode {hhdm : Z} {K D : Type} {KM : KernelMem hhdm K} {DD : DiskDev D}
    (w : world K D) (fs : ext2_partition) (ino : Z) :
  geometry fs (lba_size (wd w)) -> lock fs = false -> 0 < groups fs -> 0 <= ino ->
  exists o w', ext2_read_inode w fs ino = Some (o, w') /\ only_buffer w w' (io_buf fs) (block_size fs) /\
    (forall i, o = Some i ->
       1 <= ino <= s_inodes_count (sb fs) /\ inode_in_fs w fs ino /\
       (forall x, 0 <= x < 128 -> i x = disk_byte (wd w) (inode_at w fs ino + x))) /\
    (1 <= ino <= s_inodes_count (sb fs) -> inode_in_fs w fs ino -> reads_succeed (D := D) -> o <> None).
Proof. apply read_inode_ok. Qed.

Lemma read_inode_reads_inode_witness :
  exists i w', ext2_read_inode (DD := ramdisk) demo_world demo_fs 2 = Some (Some i, w') /\ i 0 = 237 /\ i 1 = 65.
Proof.
  destruct (read_inode_reads_inode (KM := arena_mem 0) (DD := ramdisk) demo_world demo_fs 2 demo_geometry eq_refl ltac:(cbn; lia) ltac:(lia))
    as (o & w' & H1 & _ & H2 & H3).
  destruct o as [i|].
  - destruct (H2 i eq_refl) as (_ & _ & H). exists i, w'. split; [exact H1|]. split; rewrite H by lia; vm_compute; reflexivity.
  - exfalso. apply H3; [vm_compute; split; discriminate|vm_compute; reflexivity|intros d m b lba n; reflexivity|reflexivity].
Defined.

(** Block writes read back.  On a mounted partition that is not read-only, after a
    successful [ext2_write_blocks] a successful [ext2_read_blocks] of the same block
    gives the bytes written and of any other block the bytes it had before; nothing
    on the medium outside the block changes, not even when the write fails; block
    numbers beyond the file system are refused without touching the disk. *)
Theorem block_write_reads_back {hhdm : Z} {K D : Type} {KM : KernelMem hhdm K} {DD : DiskDev D}
    (w : world K D) (fs : ext2_partition) (block buf block2 buf2 : Z) :
  geometry fs (lba_size (wd w)) -> read_only fs = false -> 0 <= block -> 0 <= block2 ->
  exists ok w1 ok2 w2, ext2_write_blocks w fs block buf = Some (ok, w1) /\
    ext2_read_blocks w1 fs block2 buf2 = Some (ok2, w2) /\ wm w1 = wm w /\
    (s_blocks_count (sb fs) <= block -> ok = false /\ w1 = w) /\
    (s_blocks_count (sb fs) <= block2 -> ok2 = false /\ w2 = w1) /\
    (forall x, x < block_at w fs block \/ block_at w fs block + block_size fs <= x ->
       disk_byte (wd w1) x = disk_byte (wd w) x) /\
    (ok = true -> ok2 = true -> forall i, 0 <= i < block_size fs ->
       wm w2 (buf2 + i) = if block2 =? block then ld8 (wm w) (buf + i) else disk_byte (wd w) (block_at w fs block2 + i)).
Proof.
  intros G Hro Hb Hb2. pose proof (geometry_bs _ _ G) as (Hbs & _).
  assert (HW : exists ok w1, ext2_write_blocks w fs block buf = Some (ok, w1) /\ wm w1 = wm w /\
    lba_size (wd w1) = lba_size (wd w) /\ (s_blocks_count (sb fs) <= block -> ok = false /\ w1 = w) /\
    (forall x, x < block_at w fs block \/ block_at w fs block + block_size fs <= x ->
       disk_byte (wd w1) x = disk_byte (wd w) x) /\
    (ok = true -> forall i, 0 <= i < block_size fs -> disk_byte (wd w1) (block_at w fs block + i) = ld8 (wm w) (buf + i))).
  { destruct (Z_lt_ge_dec block (s_blocks_count (sb fs))) as [Hlt|Hge].
    - destruct (write_blocks_spec w fs block buf G ltac:(lia) Hro) as (ok & w1 & H1 & _ & H3 & H4 & H5 & H6).
      exists ok, w1. split_and_all; try done; lia.
    - exists false, w. unfold ext2_write_blocks. rewrite Hro. replace (s_blocks_count (sb fs) <=? block) with true by lia.
      by split_and_all. }
  destruct HW as (ok & w1 & -> & W1 & W2 & W3 & W4 & W5). exists ok, w1.
  destruct (Z_lt_ge_dec block2 (s_blocks_count (sb fs))) as [Hlt|Hge].
  - rewrite <- W2 in G. destruct (read_blocks_spec w1 fs block2 buf2 G ltac:(lia)) as (ok2 & w2 & -> & _ & R2 & _).
    exists ok2, w2. split_and_all; try done; try lia. intros -> -> i Hi. rewrite R2 by done.
    unfold block_at. rewrite W2. fold (block_at w fs block2).
    destruct (block2 =? block) eqn:E; bool_to_prop; [subst; by apply W5|]. apply W4. unfold block_at.
    assert (block2 + 1 <= block \/ block + 1 <= block2) as [?|?] by lia; nia.
  - rewrite read_blocks_out by lia. exists false, w1. by split_and_all.
Qed.

Lemma block_write_reads_back_witness :
  exists w1 w2, ext2_write_blocks (DD := ramdisk) demo_world demo_fs 20 4096 = Some (true, w1) /\
    ext2_read_blocks (DD := ramdisk) w1 demo_fs 20 16384 = Some (true, w2) /\
    wm w2 16384 = ld8 (wm demo_world) 4096.
Proof.
  destruct (block_write_reads_back (KM := arena_mem 0) (DD := ramdisk) demo_world demo_fs 20 4096 20 16384
    demo_geometry eq_refl ltac:(lia) ltac:(lia)) as (ok & w1 & ok2 & w2 & H1 & H2 & _ & _ & _ & _ & H3).
  assert (E1 : option_map fst (ext2_write_blocks (DD := ramdisk) demo_world demo_fs 20 4096) = Some true)
    by (vm_compute; reflexivity).
  rewrite H1 in E1. injection E1 as ->.
  assert (E2 : option_map fst (ext2_read_blocks (DD := ramdisk) w1 demo_fs 20 16384) = Some true) by (vm_compute; reflexivity).
  rewrite H2 in E2. injection E2 as ->.
  exists w1, w2. split; [exact H1|]. split; [exact H2|]. exact (H3 eq_refl eq_refl 0 ltac:(cbn; lia)).
Defined.
