(* ===== verification/Ext2Mount.v ===== *)
(** * Mounting an ext2 partition

    Superblock input and output, the descriptor table, and [ext2_init] as a whole:
    what a mounted partition satisfies, what a failed mount leaves behind, and which file
    systems on the medium are accepted ([mountable]). *)

From S2P Require Import Prelude Mem CString Block Ext2 Ext2Props.

(** Sector sizes of real disks. *)
Definition sector_size (lba : Z) : Prop := lba = 512 \/ lba = 1024 \/ lba = 2048 \/ lba = 4096.

Lemma ldn_shift n (m m' : mem) a b : (forall x, 0 <= x < Z.of_nat n -> m' (b + x) = m (a + x)) -> ldn n m' b = ldn n m a.
Proof.
  revert a b. induction n as [|n IH]; intros a b H; [done|].
  change (ldn (S n) ?m ?x) with (u8 (m x) + 256 * ldn n m (x + 1)).
  rewrite (IH (a + 1) (b + 1)) by (intros x Hx; rewrite <- !Z.add_assoc; apply H; lia).
  specialize (H 0 ltac:(lia)). rewrite !Z.add_0_r in H. by rewrite H.
Qed.

Section mount.
Context {hhdm : Z} {K D : Type} {KM : KernelMem hhdm K} {DD : DiskDev D}.
Implicit Types (w : world K D) (fs : ext2_partition).

(** The first byte of the partition, and its superblock on the medium. *)
Definition part_at w fs : Z := lba_start fs * lba_size (wd w).
Definition disk_sb w fs : mem := fun x => if (0 <=? x) && (x <? SB_SIZE) then disk_byte (wd w) (part_at w fs + 1024 + x) else 0.

Lemma sb_sectors lba :
  sector_size lba -> exists r, bytes_to_blocks 1024 1024 lba = Some r /\
    res_lba r * lba + res_offset r = 1024 /\ 0 <= res_offset r /\ 0 <= res_lba r <= 2 /\
    res_offset r + 1024 <= size_in_blocks r * lba <= 4096.
Proof.
  intros [-> | [-> | [-> | ->]]]; (eexists; split; [vm_compute; reflexivity|]; cbn [res_lba res_offset size_in_blocks]; lia).
Qed.

Lemma read_superblock_ok w fs :
  sector_size (lba_size (wd w)) -> 0 <= lba_start fs < 2 ^ 63 ->
  exists ok w' fs', ext2_read_superblock w fs = Some (ok, w', fs') /\ only_buffer w w' (io_buf fs) 4096 /\
    (fs' = fs \/ exists s, fs' = with_sb fs s) /\
    (ok = true -> (forall x, sb fs' x = disk_sb w fs x) /\ s_magic (sb fs') = EXT2_MAGIC) /\
    (s_magic (disk_sb w fs) = EXT2_MAGIC -> reads_succeed (D := D) -> ok = true).
Proof.
  intros Hl Hst. destruct (sb_sectors _ Hl) as (r & Hr & H1 & H2 & H3 & H4). unfold ext2_read_superblock.
  rewrite Hr. cbn [mbind option_bind]. rewrite u64_small by lia.
  destruct (dread w (io_buf fs) (lba_start fs + res_lba r) (size_in_blocks r)) as [ok w'] eqn:E.
  destruct (dread_spec _ _ _ _ _ _ E) as ([O1 O2 O3] & Hc & Hs).
  assert (Ho : only_buffer w w' (io_buf fs) 4096) by (constructor; [done|done|intros x Hx; apply O3; lia]).
  destruct ok; cbn [negb].
  2: { eexists false, w', fs. split_and_all; try done. by left. }
  assert (Hsb : forall x, copy_out (wm w') (io_buf fs + res_offset r) SB_SIZE x = disk_sb w fs x).
  { intros x. unfold copy_out, disk_sb, SB_SIZE. destruct ((0 <=? x) && (x <? 348)) eqn:Ex; [|done]. unfold ld8.
    rewrite <- Z.add_assoc, (Hc eq_refl) by lia. rewrite u8_small by apply disk_byte_range. f_equal. unfold part_at. lia. }
  assert (Hm : s_magic (copy_out (wm w') (io_buf fs + res_offset r) SB_SIZE) = s_magic (disk_sb w fs)).
  { apply ldn_ext. intros x _. apply Hsb. }
  case_if.
  - eexists false, w', _. split_and_all; try done; [right; eauto|]. intros Hmd _. cbn [with_sb sb] in E0. congruence.
  - eexists true, w', _. split_and_all; try done. right. eauto.
Qed.

Lemma write_superblock_ok w fs :
  sector_size (lba_size (wd w)) -> 0 <= lba_start fs < 2 ^ 63 -> read_only fs = false -> lock fs = false ->
  exists ok w' fs', ext2_write_superblock w fs = Some (ok, w', fs') /\
    wk w' = wk w /\ lba_size (wd w') = lba_size (wd w) /\
    (forall x, x < io_buf fs \/ io_buf fs + 4096 <= x -> wm w' x = wm w x) /\
    (ok = true -> fs' = with_dirty fs false /\
      (forall x, 0 <= x < SB_SIZE -> disk_byte (wd w') (part_at w fs + 1024 + x) = ld8 (sb fs) x) /\
      (forall x, x < part_at w fs + 1024 \/ part_at w fs + 1024 + SB_SIZE <= x -> disk_byte (wd w') x = disk_byte (wd w) x)) /\
    (ok = false -> fs' = fs).
Proof.
  intros Hl Hst Hro Hlk. destruct (sb_sectors _ Hl) as (r & Hr & H1 & H2 & H3 & H4). unfold ext2_write_superblock.
  rewrite Hro, Hlk, Hr. cbn [mbind option_bind]. rewrite u64_small by lia.
  set (lba := lba_start fs + res_lba r). set (n := size_in_blocks r) in *.
  destruct (dread w (io_buf fs) lba n) as [ok w1] eqn:E.
  destruct (dread_spec _ _ _ _ _ _ E) as ([O1 O2 O3] & Hc & _). destruct ok.
  2: { eexists false, w1, fs. split_and_all; try done; [apply O2|]. intros x Hx. apply O3. lia. }
  specialize (Hc eq_refl). destruct O2 as [Ol Ob].
  set (m2 := copy_in (wm w1) (io_buf fs + res_offset r) (sb fs) SB_SIZE). unfold dwrite. cbn [wstore wm wd wk].
  destruct (disk_write (wd w1) m2 (io_buf fs) lba n) as [ok d'] eqn:E2.
  destruct (disk_write_frame _ _ _ _ _ _ _ E2) as [F1 F2]. rewrite Ol in F1, F2.
  assert (Hm2 : forall x, x < io_buf fs \/ io_buf fs + 4096 <= x -> m2 x = wm w x).
  { intros x Hx. unfold m2, copy_in, SB_SIZE. case_if; [lia|]. apply O3. lia. }
  destruct ok; eexists _, _, _; (split; [done|]); cbn [wk wm wd]; split_and_all; try done.
  intros _. split; [done|]. pose proof (disk_write_ok _ _ _ _ _ _ E2) as W. rewrite Ol in W.
  assert (Hbase : lba * lba_size (wd w) = part_at w fs + 1024 - res_offset r) by (unfold lba, part_at; lia).
  rewrite Hbase in W, Hc. split.
  - intros x Hx. unfold SB_SIZE in Hx. specialize (W (res_offset r + x) ltac:(lia)).
    replace (part_at w fs + 1024 - res_offset r + (res_offset r + x)) with (part_at w fs + 1024 + x) in W by lia.
    rewrite W. unfold m2, copy_in, SB_SIZE, ld8 at 1.
    replace (_ && _) with true by lia. rewrite u8_ld8. f_equal. lia.
  - intros x Hx. unfold SB_SIZE in Hx. set (i := x - (part_at w fs + 1024 - res_offset r)).
    destruct (decide (0 <= i < n * lba_size (wd w))) as [Hi|Hi].
    + specialize (W i Hi). specialize (Hc i Hi).
      replace (part_at w fs + 1024 - res_offset r + i) with x in W, Hc by lia.
      rewrite W. unfold m2, copy_in, SB_SIZE, ld8. replace (_ && _) with false by lia.
      rewrite Hc, u8_small by apply disk_byte_range. done.
    + rewrite F2 by lia. apply Ob.
Qed.

(** ** The descriptor table *)

Definition table_size fs : Z := group_count fs * GD_SIZE.
Definition desc_block fs : Z := s_first_data_block (sb fs) + 1.

(** The first [n] bytes of the table in memory are those on the medium. *)
Definition loaded w0 w fs (n : Z) : Prop :=
  forall x, 0 <= x < n -> wm w (groups fs + x) = disk_byte (wd w0) (block_at w0 fs (desc_block fs) + x).

(** Only the table and the buffer change. *)
Record only_table w w' fs (buf : Z) : Prop := {
  ot_k : wk w' = wk w;
  ot_disk : same_disk (wd w) (wd w');
  ot_mem : forall x, (x < groups fs \/ groups fs + table_size fs <= x) -> (x < buf \/ buf + 4096 <= x) -> wm w' x = wm w x }.

Lemma only_table_trans w1 w2 w3 fs buf : only_table w1 w2 fs buf -> only_table w2 w3 fs buf -> only_table w1 w3 fs buf.
Proof.
  intros [A1 A2 A3] [B1 B2 B3]. constructor; [congruence|by eapply same_disk_trans|].
  intros x H1 H2. by rewrite B3, A3.
Qed.

Lemma table_blocks_fit fs lba :
  geometry fs lba -> table_size fs < 2 ^ 31 ->
  let n := (table_size fs + block_size fs - 1) / block_size fs in
  0 < table_size fs /\ u32 (table_size fs) = table_size fs /\
  u32 (u32 (table_size fs) + block_size fs - 1) / block_size fs = n /\
  u32 (desc_block fs) = desc_block fs /\ desc_block fs + n <= s_blocks_count (sb fs) /\
  table_size fs <= n * block_size fs < table_size fs + block_size fs.
Proof.
  intros G Ht n. pose proof (geometry_bs _ _ G) as (Hbs & _). destruct G as [V Hb _ Hg _].
  pose proof (fields_range (sb fs)) as (_ & Rb & Rf & _). pose proof V as [_ _ _ _ _ Vf Vb _ _ _ Vg].
  destruct (sb_groups_bounds (sb fs) Vf ltac:(lia)) as (Hg0 & _). subst n. unfold table_size, desc_block, GD_SIZE in *.
  rewrite Hg in *. rewrite <- Hb in Vg.
  destruct (ceil_div_bounds (sb_groups (sb fs) * 32) (block_size fs) ltac:(lia) ltac:(lia)) as (H1 & H2 & H3).
  rewrite !u32_small by lia. split_and_all; lia.
Qed.

Lemma load_step_ok w0 w fs buf i :
  geometry fs (lba_size (wd w)) -> table_size fs < 2 ^ 31 -> disjoint_regions (groups fs, table_size fs) (buf, 4096) ->
  0 <= i -> i * block_size fs < table_size fs -> same_disk (wd w0) (wd w) -> loaded w0 w fs (i * block_size fs) ->
  exists ok w1, ext2_read_blocks w fs (u32 (desc_block fs + i)) buf = Some (ok, w1) /\
    (reads_succeed (D := D) -> ok = true) /\
    let done := u32 (i * block_size fs) in
    let chunk := u32 (table_size fs - done) in
    let chunk := if block_size fs <? chunk then block_size fs else chunk in
    let w2 := wstore w1 (memcpy (wm w1) (groups fs + done) buf chunk) in
    only_table w w1 fs buf /\ only_table w w2 fs buf /\
    (ok = true -> loaded w0 w2 fs (Z.min (table_size fs) ((i + 1) * block_size fs))).
Proof.
  intros G Ht Hd Hi Hlt Hs Hld. pose proof (geometry_bs _ _ G) as (Hbs & _).
  destruct (table_blocks_fit _ _ G Ht) as (T0 & _ & _ & T3 & T4 & T5). pose proof (fields_range (sb fs)) as (_ & Rb & _).
  unfold disjoint_regions in Hd. cbn [fst snd] in Hd.
  assert (Hin : i < (table_size fs + block_size fs - 1) / block_size fs) by nia.
  assert (Hf0 : 0 < desc_block fs) by (unfold desc_block; pose proof (fields_range (sb fs)); lia).
  rewrite (u32_small (desc_block fs + i)) by lia.
  destruct (read_blocks_spec w fs (desc_block fs + i) buf G ltac:(lia)) as (ok & w1 & Hr & [O1 O2 O3] & Hc & Hok).
  exists ok, w1. split; [done|]. split; [done|]. cbv zeta.
  rewrite (u32_small (i * block_size fs)) by nia. rewrite (u32_small (table_size fs - i * block_size fs)) by nia.
  set (chunk := if block_size fs <? table_size fs - i * block_size fs then block_size fs else table_size fs - i * block_size fs).
  assert (Hch : 0 < chunk <= block_size fs /\ chunk <= table_size fs - i * block_size fs /\
    (i * block_size fs + chunk = Z.min (table_size fs) ((i + 1) * block_size fs))) by (subst chunk; case_if; lia).
  assert (Hcp : forall x, memcpy (wm w1) (groups fs + i * block_size fs) buf chunk x =
    copied (wm w1) (groups fs + i * block_size fs) buf chunk x) by (intros x; apply memcpy_copied; nia).
  split_and_all.
  - constructor; [done|done|]. intros x _ Hx. apply O3. lia.
  - constructor; [done|done|]. intros x Hx1 Hx2. cbn [wstore wm]. rewrite Hcp. unfold copied.
    replace (_ && _) with false by (symmetry; apply andb_false_iff; rewrite Z.leb_gt, Z.ltb_ge; nia). apply O3. lia.
  - intros ->. intros x Hx. cbn [wstore wm]. rewrite Hcp. unfold copied.
    destruct (Z_lt_ge_dec x (i * block_size fs)) as [Hlo|Hhi].
    + replace (_ && _) with false by lia. rewrite O3 by lia. apply Hld. lia.
    + replace (_ && _) with true by lia. unfold ld8.
      replace (buf + (groups fs + x - (groups fs + i * block_size fs))) with (buf + (x - i * block_size fs)) by lia.
      rewrite (Hc eq_refl) by lia. rewrite u8_small by apply disk_byte_range. destruct Hs as [Hl Hs]. rewrite Hs.
      f_equal. unfold block_at. rewrite Hl. lia.
Qed.

Lemma load_descs_ok n w0 w fs buf i :
  geometry fs (lba_size (wd w)) -> table_size fs < 2 ^ 31 -> disjoint_regions (groups fs, table_size fs) (buf, 4096) ->
  0 <= i -> i + Z.of_nat n = (table_size fs + block_size fs - 1) / block_size fs ->
  same_disk (wd w0) (wd w) -> loaded w0 w fs (Z.min (table_size fs) (i * block_size fs)) ->
  exists r, load_descs n w fs (desc_block fs) (table_size fs) buf i = Some r /\
    only_table w (match r with inl w' | inr w' => w' end) fs buf /\
    (forall w', r = inr w' -> loaded w0 w' fs (table_size fs)) /\
    (reads_succeed (D := D) -> exists w', r = inr w').
Proof.
  revert w i. induction n as [|n IH]; intros w i G Ht Hd Hi Hn Hs Hld;
    destruct (table_blocks_fit _ _ G Ht) as (T0 & _ & _ & T3 & T4 & T5); pose proof (geometry_bs _ _ G) as (Hbs & _); cbn [load_descs].
  - exists (inr w). split_and_all; [done|by constructor| |eauto]. intros w' [= <-].
    rewrite Z.min_l in Hld by nia. done.
  - assert (Hlt : i * block_size fs < table_size fs) by nia. rewrite Z.min_r in Hld by lia.
    destruct (load_step_ok w0 w fs buf i G Ht Hd Hi Hlt Hs Hld) as (ok & w1 & -> & Hok & O1 & O2 & Hl).
    cbn [mbind option_bind]. destruct ok; cbn [negb].
    + set (w2 := wstore w1 _) in *. specialize (Hl eq_refl).
      assert (Hs2 : same_disk (wd w0) (wd w2)) by (eapply same_disk_trans; [exact Hs|apply (ot_disk _ _ _ _ O2)]).
      destruct (IH w2 (i + 1)) as (r & -> & R1 & R2 & R3); try done; [|lia|lia|].
      { rewrite (proj1 (ot_disk _ _ _ _ O2)). done. }
      exists r. split_and_all; [done|by eapply only_table_trans|done|done].
    + exists (inl w1). split_and_all; [done|done|done|]. intros Hr. by apply Hok in Hr.
Qed.

(** ** Regions *)

Lemma held_disjoint_in k r1 r2 R : held k (r1 :: R) -> r2 ∈ R -> disjoint_regions r1 r2.
Proof.
  intros Hk (R1 & R2 & ->)%list_elem_of_split. apply (held_disjoint k r1 r2 (R1 ++ R2)).
  apply (held_perm k (r1 :: R1 ++ r2 :: R2)); [|done]. constructor. symmetry. apply Permutation_middle.
Qed.

(** The regions [R] keep their contents. *)
Definition keeps (R : list (Z * Z)) (m m' : mem) : Prop := forall r x, r ∈ R -> r.1 <= x < r.1 + r.2 -> m' x = m x.

Lemma only_table_keeps k w w' fs buf R :
  held k ((buf, 4096) :: (groups fs, table_size fs) :: R) -> only_table w w' fs buf -> keeps R (wm w) (wm w').
Proof.
  intros Hk [_ _ Hm] r x Hr Hx. apply Hm.
  - assert (Hk' : held k ((groups fs, table_size fs) :: (buf, 4096) :: R)) by (eapply held_perm; [apply perm_swap|done]).
    destruct (held_disjoint_in k (groups fs, table_size fs) r ((buf, 4096) :: R) Hk' ltac:(by right)); cbn in *; lia.
  - destruct (held_disjoint_in k (buf, 4096) r ((groups fs, table_size fs) :: R) Hk ltac:(by right)); cbn in *; lia.
Qed.

Definition itable_blocks fs : Z := u32 (s_inodes_per_group (sb fs) * inode_size fs + block_size fs - 1) / block_size fs.

(** A loaded and checked descriptor table. *)
Record descs_ok w0 w fs R : Prop := {
  do_held : held (wk w) ((groups fs, table_size fs) :: R);
  do_nz : 0 < groups fs;
  do_loaded : loaded w0 w fs (table_size fs);
  do_range : forall g, 0 <= g < group_count fs -> desc_in_range (wm w) fs (itable_blocks fs) g = true }.

Lemma check_loop_spec (n : nat) (P : Z -> bool) lo :
  match ploop n lo (fun g (_ : unit) => if P g then inr tt else inl tt) tt with
  | inr _ => forall g, lo <= g < lo + Z.of_nat n -> P g = true
  | inl _ => exists g, lo <= g < lo + Z.of_nat n /\ P g = false
  end.
Proof.
  revert lo. induction n as [|n IH]; intros lo; cbn [ploop]; [lia|].
  destruct (P lo) eqn:E; [|exists lo; split; [lia|done]].
  specialize (IH (lo + 1)). destruct (ploop n (lo + 1) _ tt) as [?|?].
  - destruct IH as (g & Hg & HP). exists g. split; [lia|done].
  - intros g Hg. destruct (decide (g = lo)) as [->|]; [done|]. apply IH. lia.
Qed.

(** The descriptor table on the medium, and that its descriptors are in range. *)
Definition disk_table w fs : mem := fun x => disk_byte (wd w) (block_at w fs (desc_block fs) + x).
Definition descs_on_disk w fs : Prop :=
  forall g, 0 <= g < group_count fs -> desc_in_range (disk_table w fs) (with_groups fs 0) (itable_blocks fs) g = true.

Lemma loaded_word w0 w fs g i : loaded w0 w fs (table_size fs) -> 0 <= g < group_count fs -> 0 <= i <= 28 ->
  ld32 (wm w) (groups fs + g * GD_SIZE + i) = ld32 (disk_table w0 fs) (g * GD_SIZE + i).
Proof.
  intros Hl Hg Hi. apply ldn_shift. intros x Hx. unfold disk_table. rewrite <- (Hl (g * GD_SIZE + i + x)); [f_equal; lia|].
  unfold table_size, GD_SIZE in *. lia.
Qed.

Lemma loaded_range w0 w fs it g : loaded w0 w fs (table_size fs) -> 0 <= g < group_count fs ->
  desc_in_range (wm w) fs it g = desc_in_range (disk_table w0 fs) (with_groups fs 0) it g.
Proof.
  intros Hl Hg. unfold desc_in_range, bg_block_bitmap, bg_inode_bitmap, bg_inode_table. cbn [with_groups sb groups].
  pose proof (loaded_word w0 w fs g 0 Hl Hg ltac:(lia)) as H0. rewrite !Z.add_0_r in H0.
  by rewrite H0, (loaded_word w0 w fs g 4 Hl Hg), (loaded_word w0 w fs g 8 Hl Hg) by lia.
Qed.

Lemma geometry_groups fs lba g : geometry fs lba -> geometry (with_groups fs g) lba.
Proof. intros [? ? ? ? ?]. by constructor. Qed.

Lemma read_group_descs_ok w fs R :
  geometry fs (lba_size (wd w)) -> table_size fs < 2 ^ 31 -> held (wk w) R ->
  exists ok w' g, ext2_read_group_descs w fs = Some (ok, w', with_groups fs g) /\
    same_disk (wd w) (wd w') /\ keeps R (wm w) (wm w') /\
    (ok = true -> descs_ok w w' (with_groups fs g) R) /\
    (ok = false -> g = 0 /\ held (wk w') R) /\
    (forall limit enough n, budget limit enough -> table_size fs < limit -> enough (S (S n)) (wk w) ->
       enough n (wk w') /\ (reads_succeed (D := D) -> descs_on_disk w fs -> ok = true)).
Proof.
  intros G Ht Hk. pose proof (geometry_bs _ _ G) as (Hbs & _).
  destruct (table_blocks_fit _ _ G Ht) as (T0 & T1 & T2 & T3 & T4 & T5). unfold ext2_read_group_descs.
  replace (block_size fs =? 0) with false by lia. fold (table_size fs) (desc_block fs). rewrite T1, T3 in *. rewrite T2.
  destruct (heap_alloc_ok (wk w) R (table_size fs) Hk ltac:(lia)) as (k1 & g & Ha1 & [[-> Hk1]|[Hg Hk1]]); rewrite Ha1;
    cbn [mbind option_bind].
  { exists false. eexists _, 0. split_and_all; try done. intros limit enough n B Hlim He. by destruct (bu_heap _ _ B _ _ _ _ _ He (conj (Z.lt_le_incl _ _ T0) Hlim) Ha1). }
  replace (g =? 0) with false by lia. cbn [wk wm wd].
  pose proof (proj1 (held_bounds _ _ _ Hk1)) as Hg0. cbn [fst] in Hg0.
  destruct (page_alloc_ok k1 ((g, table_size fs) :: R) Hk1) as (k2 & phys & Ha2 & Hk2'). rewrite Ha2.
  assert (Hen : forall limit enough n, budget limit enough -> table_size fs < limit -> enough (S (S n)) (wk w) -> phys <> 0 /\ enough n k2).
  { intros limit enough n B Hlim He. destruct (bu_heap _ _ B _ _ _ _ _ He (conj (Z.lt_le_incl _ _ T0) Hlim) Ha1) as [_ He1]. by apply (bu_page _ _ B _ _ _ _ He1). }
  destruct Hk2' as [[-> Hk2]|[Hp Hk2]]; cbn [mbind option_bind].
  { cbn [Z.eqb wk]. destruct (heap_free_ok k2 g (table_size fs) R Hk2) as (k3 & -> & Hk3). cbn [mbind option_bind].
    exists false. eexists _, 0. split_and_all; try done. intros limit enough n B Hlim He. by destruct (Hen _ _ _ B Hlim He). }
  replace (phys =? 0) with false by lia. cbn [wk wm wd].
  set (w2 := World k2 (wm w) (wd w)). set (fs1 := with_groups fs g).
  assert (Hdis : disjoint_regions (groups fs1, table_size fs1) (hhdm + phys, 4096)).
  { pose proof (held_disjoint _ _ _ _ Hk2) as [H|H]; [right|left]; done. }
  destruct (load_descs_ok (Z.to_nat ((table_size fs + block_size fs - 1) / block_size fs)) w w2 fs1 (hhdm + phys) 0)
    as (r & Hload & R1 & R2 & R3); [by apply geometry_groups|done|done|lia|rewrite Z2Nat.id by (apply Z.div_pos; lia); done|done|intros x Hx; lia|].
  change (desc_block fs1) with (desc_block fs) in Hload. change (table_size fs1) with (table_size fs) in *.
  rewrite Hload. cbn [mbind option_bind]. pose proof (only_table_keeps k2 _ _ fs1 _ R Hk2 R1) as Hkeep.
  destruct r as [w3|w3]; destruct R1 as [Rk Rd Rm]; rewrite Rk; cbn [wk w2]; destruct (page_free_ok k2 phys _ Hk2) as (k3 & Ef & Hk3); rewrite Ef.
  - cbn [mbind option_bind]. destruct (heap_free_ok k3 g (table_size fs) R Hk3) as (k4 & Ef2 & Hk4). rewrite Ef2. cbn [mbind option_bind].
    exists false. eexists _, 0. split_and_all; try done. intros limit enough n B Hlim He. destruct (Hen _ _ _ B Hlim He) as [_ He2].
    split; [by eapply (bu_heap_free _ _ B), Ef2; eapply (bu_page_free _ _ B)|]. intros Hr. by destruct (R3 Hr).
  - cbn [mbind option_bind wm wk].
    fold (itable_blocks fs1). pose proof (check_loop_spec (Z.to_nat (group_count fs1)) (desc_in_range (wm w3) fs1 (itable_blocks fs1)) 0) as Hloop.
    destruct (ploop _ _ _ _) as [?|?].
    + destruct (heap_free_ok k3 g (table_size fs) R Hk3) as (k4 & Ef2 & Hk4). rewrite Ef2. cbn [mbind option_bind].
      exists false. eexists _, 0. split_and_all; try done. intros limit enough n B Hlim He. destruct (Hen _ _ _ B Hlim He) as [_ He2].
      split; [by eapply (bu_heap_free _ _ B), Ef2; eapply (bu_page_free _ _ B)|]. intros _ Hdd. destruct Hloop as (j & Hj & Hf).
      change (group_count fs1) with (group_count fs) in Hj. rewrite (loaded_range w w3 fs1 _ j (R2 w3 eq_refl)) in Hf by (cbn; lia). specialize (Hdd j ltac:(lia)). change (desc_in_range (disk_table w fs1) (with_groups fs1 0) (itable_blocks fs1) j = true) in Hdd. congruence.
    + exists true. eexists _, g. split_and_all; try done.
      * intros _. constructor; [exact Hk3|exact Hg0|exact (R2 w3 eq_refl)|].
        intros j Hj. apply Hloop. change (0 <= j < group_count fs) in Hj. change (group_count fs1) with (group_count fs). lia.
      * intros limit enough n B Hlim He. destruct (Hen _ _ _ B Hlim He) as [_ He2]. split; [|done]. cbn [wk]. by eapply (bu_page_free _ _ B).
Qed.

(** ** The root directory check *)

Lemma only_buffer_weaken w w' b n n' : only_buffer w w' b n -> n <= n' -> only_buffer w w' b n'.
Proof. intros [H1 H2 H3] Hn. constructor; [done|done|]. intros x Hx. apply H3. lia. Qed.

Lemma geometry_step w w' fs b n : geometry fs (lba_size (wd w)) -> only_buffer w w' b n -> geometry fs (lba_size (wd w')).
Proof. intros G Ho. by rewrite (proj1 (ob_disk _ _ _ _ Ho)). Qed.

Lemma probe_bmap_ok n w fs root b :
  geometry fs (lba_size (wd w)) -> lock fs = false -> 0 <= b ->
  exists w', probe_bmap n w fs root b = Some w' /\ only_buffer w w' (io_buf fs) (block_size fs).
Proof.
  revert w b. induction n as [|n IH]; intros w b G Hlk Hb; cbn [probe_bmap]; [exists w; split; [done|apply only_buffer_refl]|].
  destruct (bmap_ok w fs root b G Hlk Hb) as (ok & v & w1 & -> & [Ho _ _ _]). cbn [mbind option_bind].
  destruct (IH w1 (b + 1)) as (w2 & -> & Ho2); [by eapply geometry_step|done|lia|].
  exists w2. split; [done|]. by eapply only_buffer_trans.
Qed.

(** What the root directory's inode must be like, where the descriptors in memory place it. *)
Definition directory (i : mem) : Prop := i_mode i &&& 61440 = 16384 /\ i_size i <> 0 /\ i_links_count i <> 0.
Definition root_at w fs : Prop := inode_in_fs w fs EXT2_ROOT_INO /\ directory (fun x => disk_byte (wd w) (inode_at w fs EXT2_ROOT_INO + x)).

Lemma directory_ext i i' : (forall x, 0 <= x < 128 -> i' x = i x) -> directory i -> directory i'.
Proof. intros H. unfold directory, i_mode, i_size, i_links_count. rewrite !(ldn_ext _ i i'); [done|intros x Hx; apply H; lia..]. Qed.

Lemma check_root_ok w fs :
  geometry fs (lba_size (wd w)) -> lock fs = false -> 0 < groups fs ->
  exists ok w', ext2_check_root w fs = Some (ok, w') /\ only_buffer w w' (io_buf fs) 4096 /\
    (reads_succeed (D := D) -> root_at w fs -> ok = true).
Proof.
  intros G Hlk Hg. pose proof (geometry_bs _ _ G) as (Hbs & _). unfold ext2_check_root.
  destruct (read_inode_ok w fs EXT2_ROOT_INO G Hlk Hg ltac:(done)) as (o & w1 & -> & Ho & Hi & Hn). cbn [mbind option_bind].
  assert (Ho4 : only_buffer w w1 (io_buf fs) 4096) by (eapply only_buffer_weaken; [done|lia]).
  pose proof (sv_fino _ _ (ge_valid _ _ G)) as Hfino.
  destruct o as [root|]; [|exists false, w1; split_and_all; try done; intros Hr [Hin _]; by destruct (Hn ltac:(unfold EXT2_ROOT_INO; lia) Hin Hr)].
  destruct (Hi root eq_refl) as (_ & _ & Hroot). destruct (negb (i_mode root &&& 61440 =? 16384) || (i_size root =? 0) || (i_links_count root =? 0)) eqn:E.
  { exists false, w1. split_and_all; try done. intros _ [_ Hd]. exfalso. destruct (directory_ext _ root Hroot Hd) as (H1 & H2 & H3). rewrite H1 in E.
    replace (i_size root =? 0) with false in E by lia. by replace (i_links_count root =? 0) with false in E by lia. }
  destruct (probe_bmap_ok 3 w1 fs root 0) as (w2 & -> & Ho2); [by eapply geometry_step|done|done|].
  cbn [mbind option_bind]. exists true, w2. split_and_all; try done. eapply only_buffer_trans; [done|].
  eapply only_buffer_weaken; [done|lia].
Qed.

(** The table is out of reach of reads into the I/O buffer. *)
Lemma descs_ok_step w0 w w' fs R :
  descs_ok w0 w fs R -> only_buffer w w' (io_buf fs) 4096 -> (io_buf fs, 4096) ∈ R -> descs_ok w0 w' fs R.
Proof.
  intros [H1 H2 H3 H4] [O1 O2 O3] Hio.
  pose proof (held_disjoint_in _ _ _ _ H1 Hio) as Hd. unfold disjoint_regions in Hd. cbn [fst snd] in Hd.
  assert (Hsame : forall x, 0 <= x < table_size fs -> wm w' (groups fs + x) = wm w (groups fs + x)) by (intros x Hx; apply O3; lia).
  constructor; [by rewrite O1|done| |].
  - intros x Hx. rewrite Hsame by done. by apply H3.
  - intros g Hg. rewrite <- (H4 g Hg). unfold desc_in_range, bg_block_bitmap, bg_inode_bitmap, bg_inode_table, GD_SIZE.
    rewrite !(ldn_ext 4 (wm w) (wm w')); [done|intros x Hx..].
    all: replace x with (groups fs + (x - groups fs)) by lia; apply Hsame; unfold table_size, GD_SIZE; lia.
Qed.

(** ** Mounting *)

Lemma sb_groups_ext s s' : (forall x, s' x = s x) -> sb_groups s' = sb_groups s.
Proof.
  intros H. unfold sb_groups, s_blocks_count, s_first_data_block, s_blocks_per_group.
  by rewrite !(ldn_ext 4 s s') by (intros x _; apply H).
Qed.

(** The partition as its superblock on the medium describes it, the descriptors at address 0. *)
Definition disk_layout w (start : Z) : ext2_partition :=
  let s := disk_sb w (fresh_partition start) in
  Ext2Partition s start (sb_block_size s) 0 (sb_groups s) (sb_isize s) 0 0 0 0 0 0 false false false 0.

(** The root directory, where the descriptors on the medium place it. *)
Definition root_on_disk w fs : Prop := root_at (World (wk w) (disk_table w fs) (wd w)) (with_groups fs 0).

(** At [start] on the medium lies a file system the driver is to accept: its superblock passes
    the validation, its descriptors lie in their groups and its root is a directory. *)
Record mountable w (start : Z) : Prop := {
  mn_magic : s_magic (disk_sb w (fresh_partition start)) = EXT2_MAGIC;
  mn_valid : ext2_validate_sb (disk_sb w (fresh_partition start)) (lba_size (wd w)) = true;
  mn_descs : descs_on_disk w (disk_layout w start);
  mn_root : root_on_disk w (disk_layout w start) }.

(** Two descriptions of one layout. *)
Record same_layout fs fs' : Prop := {
  sl_start : lba_start fs' = lba_start fs;
  sl_bs : block_size fs' = block_size fs;
  sl_groups : group_count fs' = group_count fs;
  sl_isize : inode_size fs' = inode_size fs;
  sl_sb : forall x, sb fs' x = sb fs x }.

Lemma validate_ext s s' lba : (forall x, s' x = s x) -> ext2_validate_sb s' lba = ext2_validate_sb s lba.
Proof.
  intros H. unfold ext2_validate_sb, s_inodes_count, s_blocks_count, s_first_data_block, s_log_block_size, s_blocks_per_group, s_inodes_per_group,
    revision, s_first_ino, sb_inode_size, s_feature_incompat. by rewrite !(ldn_ext _ s s') by (intros x _; apply H).
Qed.

Lemma layout_geometry w fs : geometry fs (lba_size (wd w)) -> (forall x, sb fs x = disk_sb w fs x) -> same_layout (disk_layout w (lba_start fs)) fs.
Proof.
  intros [_ Hb Hi Hg _] Hs. assert (H : forall x, sb fs x = disk_sb w (fresh_partition (lba_start fs)) x) by done.
  constructor; cbn [disk_layout lba_start block_size group_count inode_size sb]; [done| | | |done].
  - rewrite Hb. unfold sb_block_size, s_log_block_size. by rewrite (ldn_ext _ (disk_sb w (fresh_partition (lba_start fs))) (sb fs)) by (intros x _; apply H).
  - rewrite Hg. by apply sb_groups_ext.
  - rewrite Hi. unfold sb_isize, revision, sb_inode_size. by rewrite !(ldn_ext _ (disk_sb w (fresh_partition (lba_start fs))) (sb fs)) by (intros x _; apply H).
Qed.

Section same.
Context w fs fs' (H : same_layout fs fs').

Lemma same_fields : s_first_data_block (sb fs') = s_first_data_block (sb fs) /\ s_blocks_per_group (sb fs') = s_blocks_per_group (sb fs) /\
  s_blocks_count (sb fs') = s_blocks_count (sb fs) /\ s_inodes_per_group (sb fs') = s_inodes_per_group (sb fs).
Proof. split_and_all; apply ldn_ext; intros x _; apply H. Qed.

Lemma same_descs : descs_on_disk w fs -> descs_on_disk w fs'.
Proof.
  destruct same_fields as (F1 & F2 & F3 & F4). destruct H as [H1 H2 H3 H4 _].
  unfold descs_on_disk, desc_in_range, disk_table, itable_blocks, block_at, desc_block. cbn [with_groups sb groups]. by rewrite F1, F2, F3, F4, H1, H2, H3, H4.
Qed.

Lemma same_root : root_on_disk w fs -> root_on_disk w fs'.
Proof.
  destruct same_fields as (F1 & F2 & F3 & F4). destruct H as [H1 H2 H3 H4 _].
  unfold root_on_disk, root_at, inode_in_fs, inode_at, disk_table, block_at, desc_block. cbn [with_groups sb groups wm wd block_size inode_size lba_start].
  by rewrite F1, F3, F4, H1, H2, H4.
Qed.
End same.

Lemma descs_same_disk w w' fs : same_disk (wd w) (wd w') -> descs_on_disk w fs -> descs_on_disk w' fs.
Proof.
  intros Hs H g Hg. rewrite <- (H g Hg). unfold desc_in_range, bg_block_bitmap, bg_inode_bitmap, bg_inode_table.
  rewrite !(ldn_ext 4 (disk_table w fs) (disk_table w' fs)); [done|..]; intros x _; unfold disk_table; rewrite (block_at_same w w') by done; apply Hs.
Qed.

Lemma loaded_same w w' w2 fs n : same_disk (wd w) (wd w') -> loaded w' w2 fs n -> loaded w w2 fs n.
Proof. intros Hs H x Hx. rewrite (H x Hx), (block_at_same w w') by done. apply Hs. Qed.

(** The descriptors in memory place the root where those on the medium do. *)
Lemma root_loaded w0 w fs : geometry fs (lba_size (wd w)) -> same_disk (wd w0) (wd w) -> loaded w0 w fs (table_size fs) ->
  root_on_disk w0 fs -> root_at w fs.
Proof.
  intros G [Hl Hd] Hld. pose proof (sv_fino _ _ (ge_valid _ _ G)) as Hfino.
  destruct (inode_location fs _ EXT2_ROOT_INO G ltac:(unfold EXT2_ROOT_INO; lia)) as (L1 & L2 & _).
  unfold root_on_disk, root_at, inode_in_fs, inode_at, bg_inode_table, block_at. cbn [with_groups sb groups wm wd block_size inode_size lba_start].
  rewrite (loaded_word w0 w fs _ 8 Hld) by (done || lia). rewrite Hl. intros [Hin Hdir]. split; [exact Hin|].
  eapply directory_ext; [|exact Hdir]. intros x _. cbn beta. by rewrite Hd.
Qed.

(** Only the medium matters. *)
Lemma mountable_same w w' start : same_disk (wd w) (wd w') -> mountable w start -> mountable w' start.
Proof.
  intros Hs [M1 M2 M3 M4]. pose proof Hs as [Hl Hd].
  assert (Hsb : forall x, disk_sb w' (fresh_partition start) x = disk_sb w (fresh_partition start) x) by (intros x; unfold disk_sb, part_at; by rewrite Hl, Hd).
  assert (Hlay : same_layout (disk_layout w start) (disk_layout w' start)).
  { constructor; cbn [disk_layout lba_start block_size group_count inode_size sb]; [done| |by apply sb_groups_ext| |done];
      unfold sb_block_size, s_log_block_size, sb_isize, revision, sb_inode_size;
      by rewrite !(ldn_ext _ (disk_sb w (fresh_partition start)) (disk_sb w' (fresh_partition start))) by (intros x _; apply Hsb). }
  constructor.
  - rewrite <- M1. apply ldn_ext. intros x _. apply Hsb.
  - by rewrite Hl, (validate_ext (disk_sb w (fresh_partition start))).
  - eapply descs_same_disk; [exact Hs|]. by eapply same_descs.
  - apply (same_root w _ _ Hlay) in M4. revert M4. unfold root_on_disk, root_at, inode_in_fs, inode_at, bg_inode_table, block_at. cbn [wm wd].
    rewrite !(ldn_ext _ (disk_table w (disk_layout w' start)) (disk_table w' (disk_layout w' start)))
      by (intros x _; unfold disk_table; rewrite (block_at_same w w') by done; apply Hd).
    rewrite Hl. intros [Hin Hdir]. split; [exact Hin|]. eapply directory_ext; [|exact Hdir]. intros x _. cbn beta. by rewrite Hd.
Qed.

Record mounted w0 w fs R : Prop := {
  mt_geometry : geometry fs (lba_size (wd w));
  mt_sb : forall x, sb fs x = disk_sb w0 fs x;
  mt_magic : s_magic (sb fs) = EXT2_MAGIC;
  mt_lock : lock fs = false;
  mt_descs : descs_ok w0 w fs R }.

Lemma keeps_refl R m : keeps R m m.
Proof. by intros r x. Qed.
Lemma keeps_trans R m1 m2 m3 : keeps R m1 m2 -> keeps R m2 m3 -> keeps R m1 m3.
Proof. intros H1 H2 r x Hr Hx. by rewrite (H2 r x Hr Hx), (H1 r x Hr Hx). Qed.
Lemma keeps_sub r R m m' : keeps (r :: R) m m' -> keeps R m m'.
Proof. intros H r' x Hr. apply H. by right. Qed.

Lemma only_buffer_keeps k w w' b n R : held k ((b, n) :: R) -> only_buffer w w' b n -> keeps R (wm w) (wm w').
Proof.
  intros Hk [_ _ Hm] r x Hr Hx. apply Hm. destruct (held_disjoint_in k (b, n) r R Hk Hr); cbn in *; lia.
Qed.

Lemma fill_super_ok w fs R :
  sector_size (lba_size (wd w)) -> 0 <= lba_start fs < 2 ^ 63 -> lock fs = false ->
  held (wk w) ((io_buf fs, 4096) :: R) -> sb_groups (disk_sb w fs) * 32 < 2 ^ 31 ->
  exists ok w' fs', ext2_fill_super w fs = Some (ok, w', fs') /\ same_disk (wd w) (wd w') /\ keeps R (wm w) (wm w') /\
    io_buf fs' = io_buf fs /\ lba_start fs' = lba_start fs /\
    (ok = true -> mounted w w' fs' ((io_buf fs, 4096) :: R)) /\
    (ok = false -> held (wk w') ((io_buf fs, 4096) :: R)) /\
    (forall limit enough n, budget limit enough -> sb_groups (disk_sb w fs) * 32 < limit -> enough (S (S n)) (wk w) ->
       enough n (wk w') /\ (reads_succeed (D := D) -> mountable w (lba_start fs) -> ok = true)).
Proof.
  intros Hl Hst Hlk Hk Hgr. assert (Hl32 : 0 <= lba_size (wd w) < 2 ^ 32) by (unfold sector_size in Hl; lia).
  unfold ext2_fill_super.
  destruct (read_superblock_ok w fs Hl Hst) as (ok & w1 & fs1 & -> & Ho & Hfs & Hok & Hrd). cbn [mbind option_bind].
  pose proof Ho as [O1 [O2 O2'] O3]. pose proof (only_buffer_keeps _ _ _ _ _ _ Hk Ho) as Hkp.
  assert (Hio : io_buf fs1 = io_buf fs /\ lba_start fs1 = lba_start fs /\ lock fs1 = false)
    by (destruct Hfs as [-> | [s ->]]; done). destruct Hio as (Hio & Hls & Hlk1).
  assert (Hk1 : held (wk w1) ((io_buf fs, 4096) :: R)) by by rewrite O1.
  assert (Hless : forall limit enough n, budget limit enough -> enough (S (S n)) (wk w) -> enough n (wk w1))
    by (intros limit enough n B He; rewrite O1; by do 2 apply (bu_less _ _ B)).
  destruct ok; cbn [negb].
  2: { eexists false, _, _. split_and_all; try done. intros limit enough n B _ He. split; [by eapply Hless|]. intros Hr Hm.
       by specialize (Hrd (mn_magic _ _ Hm) Hr). }
  destruct (Hok eq_refl) as [Hsb Hmag].
  rewrite O2. destruct (ext2_validate_sb (sb fs1) (lba_size (wd w))) eqn:Ev; cbn [negb].
  2: { eexists false, _, _. split_and_all; try done. intros limit enough n B _ He. split; [by eapply Hless|]. intros Hr Hm.
       rewrite (validate_ext (disk_sb w fs)) in Ev by done. pose proof (mn_valid _ _ Hm) as Hv. change (disk_sb w (fresh_partition (lba_start fs))) with (disk_sb w fs) in Hv. congruence. }
  apply validate_sound in Ev; [|done].
  destruct (compute_layout_sound fs1 (lba_size (wd w)) Hl32 ltac:(by rewrite Hls) Ev)
    as (fs2 & -> & G2 & S1 & S2 & S3 & _ & S5 & _). cbn [mbind option_bind].
  assert (Ht : table_size fs2 < 2 ^ 31).
  { unfold table_size, GD_SIZE. rewrite (ge_groups _ _ G2), S1, (sb_groups_ext (disk_sb w fs) (sb fs1)) by done. done. }
  rewrite <- O2 in G2. destruct (read_group_descs_ok w1 fs2 _ G2 Ht Hk1) as (ok & w2 & g & -> & [D1 D1'] & Hkp2 & Hd & Hn & Hb).
  cbn [mbind option_bind]. assert (Hsd1 : same_disk (wd w) (wd w1)) by done.
  assert (Hsd : same_disk (wd w) (wd w2)) by (split; [congruence|intros x; by rewrite D1', O2']).
  assert (Hkp2' : keeps R (wm w) (wm w2)) by (eapply keeps_trans; [exact Hkp|by eapply keeps_sub]).
  assert (Hlay : same_layout (disk_layout w (lba_start fs)) fs2).
  { rewrite <- Hls, <- S2. apply layout_geometry; [by rewrite <- O2|]. intros x. rewrite S1, Hsb. unfold disk_sb, part_at. by rewrite S2, Hls. }
  assert (Hen : forall limit enough n, budget limit enough -> sb_groups (disk_sb w fs) * 32 < limit -> enough (S (S n)) (wk w) ->
    enough n (wk w2) /\ (reads_succeed (D := D) -> mountable w (lba_start fs) -> ok = true)).
  { intros limit enough n B Hlim He. rewrite <- O1 in He. destruct (Hb limit enough n B) as [He2 Hb2]; [|done|split; [done|]].
    - unfold table_size, GD_SIZE. by rewrite (ge_groups _ _ G2), S1, (sb_groups_ext (disk_sb w fs) (sb fs1)) by done.
    - intros Hr Hm. apply Hb2; [done|]. eapply descs_same_disk; [exact Hsd1|]. by eapply same_descs, mn_descs. }
  destruct ok; cbn [negb].
  2: { destruct (Hn eq_refl) as [-> Hk2]. eexists false, _, _. split_and_all; try done; cbn; congruence. }
  specialize (Hd eq_refl). set (fs3 := with_groups fs2 g) in *.
  assert (G3 : geometry fs3 (lba_size (wd w2))) by (apply geometry_groups; by rewrite D1).
  assert (Hlk3 : lock fs3 = false) by (cbn; congruence). assert (Hio3 : io_buf fs3 = io_buf fs /\ lba_start fs3 = lba_start fs) by (cbn; split; congruence).
  destruct Hio3 as [Hio3 Hls3].
  destruct (check_root_ok w2 fs3 G3 Hlk3 (do_nz _ _ _ _ Hd)) as (ok & w3 & -> & Ho3 & Hrt). cbn [mbind option_bind].
  pose proof (descs_ok_step _ _ _ _ _ Hd Ho3 ltac:(rewrite Hio3; left)) as Hd3.
  assert (Hkp3 : keeps R (wm w) (wm w3)).
  { eapply keeps_trans; [exact Hkp2'|]. rewrite Hio3 in Ho3. eapply only_buffer_keeps; [|exact Ho3].
    exact Hk. }
  assert (Hsd3 : same_disk (wd w) (wd w3)) by (eapply same_disk_trans; [exact Hsd|apply Ho3]).
  assert (Hroot : reads_succeed (D := D) -> mountable w (lba_start fs) -> ok = true).
  { intros Hr Hm. apply Hrt; [done|]. apply (root_loaded w w2 fs3 G3 Hsd); [by eapply loaded_same, (do_loaded _ _ _ _ Hd)|].
    apply (same_root w (disk_layout w (lba_start fs)) fs3); [by destruct Hlay|apply Hm]. }
  destruct ok; cbn [negb].
  - eexists true, w3, fs3. split_and_all; try done.
    + intros _. constructor; try done.
      * by eapply geometry_step.
      * intros x. cbn [fs3 with_groups sb]. rewrite S1, Hsb. unfold disk_sb, part_at. cbn [fs3 with_groups lba_start]. by rewrite S2, Hls.
      * cbn. by rewrite S1.
      * destruct Hd3 as [A1 A2 A3 A4]. constructor; try done. eapply loaded_same; [exact Hsd1|exact A3].
    + intros limit enough n B Hlim He. split; [|done]. rewrite (ob_k _ _ _ _ Ho3). by apply (Hen limit).
  - unfold ext2_free_group_descs. pose proof (do_nz _ _ _ _ Hd3). replace (groups fs3 =? 0) with false by lia.
    destruct (heap_free_ok _ _ _ _ (do_held _ _ _ _ Hd3)) as (k4 & Ef & Hk4). rewrite Ef. cbn [mbind option_bind].
    eexists false, _, _. split_and_all; try done. intros limit enough n B Hlim He. split; [|done]. cbn [wk].
    eapply (bu_heap_free _ _ B); [|exact Ef]. rewrite (ob_k _ _ _ _ Ho3). by apply (Hen limit).
Qed.

Lemma init_ok w count start R :
  sector_size (lba_size (wd w)) -> 0 <= start < 2 ^ 63 -> held (wk w) R ->
  sb_groups (disk_sb w (fresh_partition start)) * 32 < 2 ^ 31 ->
  exists o w', ext2_init w count start = Some (o, w') /\ same_disk (wd w) (wd w') /\ keeps R (wm w) (wm w') /\
    match o with
    | Some fs => count < 8 /\ lba_start fs = start /\ mounted w w' fs ((io_buf fs, 4096) :: R)
    | None => held (wk w') R
    end /\
    (forall limit enough n, budget limit enough -> sb_groups (disk_sb w (fresh_partition start)) * 32 < limit -> enough (S (S (S n))) (wk w) ->
       enough n (wk w') /\ (reads_succeed (D := D) -> mountable w start -> count < 8 -> o <> None)).
Proof.
  intros Hl Hst Hk Hgr. unfold ext2_init, MAX_EXT2_PARTITIONS. case_if.
  { exists None, w. split_and_all; try done. intros limit enough n B _ He. split; [by do 3 apply (bu_less _ _ B)|lia]. }
  destruct (page_alloc_ok (wk w) R Hk) as (k1 & phys & Ha & [[-> Hk1]|[Hp Hk1]]); rewrite Ha; cbn [mbind option_bind].
  { eexists None, _. split_and_all; try done. intros limit enough n B _ He. by destruct (bu_page _ _ B _ _ _ _ He Ha). }
  replace (phys =? 0) with false by lia. set (fs := Ext2Partition _ _ _ _ _ _ _ _ _ _ _ _ _ _ _ _).
  destruct (fill_super_ok (World k1 (wm w) (wd w)) fs R Hl Hst eq_refl Hk1 Hgr)
    as (ok & w2 & fs2 & -> & Hsd & Hkp & Hio & Hls & Hok & Hno & Hen). cbn [mbind option_bind].
  assert (Hen' : forall limit enough n, budget limit enough -> sb_groups (disk_sb w (fresh_partition start)) * 32 < limit -> enough (S (S (S n))) (wk w) ->
    enough n (wk w2) /\ (reads_succeed (D := D) -> mountable w start -> ok = true)).
  { intros limit enough n B Hlim He. destruct (bu_page _ _ B _ _ _ _ He Ha) as [_ He1]. destruct (Hen limit enough n B Hlim He1) as [He2 Hm]. split; [done|].
    intros Hr M. apply Hm; [done|]. by destruct M; constructor. }
  destruct ok; cbn [negb].
  - specialize (Hok eq_refl). exists (Some fs2), w2. rewrite Hio. split_and_all; try done.
    + destruct Hok as [A1 A2 A3 A4 [B1 B2 B3 B4]]. by constructor.
    + intros limit enough n B Hlim He. split; [by apply (Hen' limit)|done].
  - destruct (page_free_ok _ _ _ (Hno eq_refl)) as (k3 & Ef & Hk3). rewrite Ef. cbn [mbind option_bind].
    eexists None, _. split_and_all; try done. intros limit enough n B Hlim He. destruct (Hen' limit enough n B Hlim He) as [He2 Hm].
    split; [by eapply (bu_page_free _ _ B)|]. intros Hr M _. by specialize (Hm Hr M).
Qed.
End mount.

(** ** Properties *)

(** C22: mounting is all or nothing.  On a disk with a real sector size and for a
    superblock with fewer than 2^26 groups, [ext2_init] returns (nothing is divided by
    zero, no lock is taken twice).  When it mounts, the geometry is sane, the
    superblock in memory is the one on the medium, the descriptor table holds the
    bytes of the medium and every descriptor has passed its range check, and exactly
    the I/O page and the table have been allocated.  When it does not, every page and
    heap object it took has been given back.  The medium and all memory the rest of the
    kernel holds are unchanged either way. *)
Theorem mount_all_or_nothing {hhdm : Z} {K D : Type} {KM : KernelMem hhdm K} {DD : DiskDev D}
    (w : world K D) (count start : Z) (R : list (Z * Z)) :
  sector_size (lba_size (wd w)) -> 0 <= start < 2 ^ 63 -> held (wk w) R ->
  sb_groups (disk_sb w (fresh_partition start)) < 2 ^ 26 ->
  exists o w', ext2_init w count start = Some (o, w') /\ same_disk (wd w) (wd w') /\ keeps R (wm w) (wm w') /\
    match o with
    | Some fs => count < 8 /\ lba_start fs = start /\ mounted w w' fs ((io_buf fs, 4096) :: R)
    | None => held (wk w') R
    end.
Proof.
  intros Hl Hs Hk Hg. destruct (init_ok w count start R Hl Hs Hk ltac:(lia)) as (o & w' & H1 & H2 & H3 & H4 & _). by exists o, w'.
Qed.

Lemma mount_all_or_nothing_witness :
  exists fs w', ext2_init (KM := arena_mem 0) (DD := ramdisk) (World 65536 (fun _ => 0) demo_image) 0 0 = Some (Some fs, w') /\
    held (KernelMem := arena_mem 0) (wk w') [(groups fs, table_size fs); (io_buf fs, 4096)].
Proof.
  destruct (mount_all_or_nothing (KM := arena_mem 0) (DD := ramdisk) (World 65536 (fun _ => 0) demo_image) 0 0 [])
    as (o & w' & H1 & _ & _ & H2); [left; reflexivity|lia| |vm_compute; reflexivity|].
  { cbn. unfold arena_held, ARENA_END. cbn [pairwise]. split_and_all; try lia; constructor. }
  assert (E : option_map (fun r => match fst r with Some _ => true | None => false end)
    (ext2_init (KM := arena_mem 0) (DD := ramdisk) (World 65536 (fun _ => 0) demo_image) 0 0) = Some true)
    by (vm_compute; reflexivity).
  rewrite H1 in E. destruct o as [fs|]; [|discriminate E].
  exists fs, w'. split; [exact H1|]. destruct H2 as (_ & _ & [_ _ _ _ Hd]). exact (do_held _ _ _ _ Hd).
Defined.

(** The superblock reads back.  On a writable partition [ext2_write_superblock]
    returns; if it succeeds, the 348 bytes on the medium are those in memory, every
    other byte of the medium is as before although whole sectors are written, and a
    successful [ext2_read_superblock] gives the same bytes; it never touches memory
    outside the I/O page. *)
Theorem superblock_reads_back {hhdm : Z} {K D : Type} {KM : KernelMem hhdm K} {DD : DiskDev D}
    (w : world K D) (fs : ext2_partition) :
  sector_size (lba_size (wd w)) -> 0 <= lba_start fs < 2 ^ 63 -> read_only fs = false -> lock fs = false ->
  exists ok w1 fs1, ext2_write_superblock w fs = Some (ok, w1, fs1) /\
    (forall x, x < io_buf fs \/ io_buf fs + 4096 <= x -> wm w1 x = wm w x) /\
    (ok = true -> sb_dirty fs1 = false /\
      (forall x, x < part_at w fs + 1024 \/ part_at w fs + 1024 + SB_SIZE <= x -> disk_byte (wd w1) x = disk_byte (wd w) x) /\
      exists ok2 w2 fs2, ext2_read_superblock w1 fs = Some (ok2, w2, fs2) /\
        (ok2 = true -> forall x, 0 <= x < SB_SIZE -> sb fs2 x = ld8 (sb fs) x)).
Proof.
  intros Hl Hst Hro Hlk.
  destruct (write_superblock_ok w fs Hl Hst Hro Hlk) as (ok & w1 & fs1 & -> & _ & W2 & W3 & W4 & _).
  exists ok, w1, fs1. split_and_all; [done|done|]. intros Hok. destruct (W4 Hok) as (-> & W5 & W6).
  split_and_all; [done|done|].
  destruct (read_superblock_ok w1 fs ltac:(by rewrite W2) Hst) as (ok2 & w2 & fs2 & -> & _ & _ & R & _).
  exists ok2, w2, fs2. split; [done|]. intros Hok2 x Hx. destruct (R Hok2) as [-> _]. unfold disk_sb, part_at, SB_SIZE in *.
  rewrite W2. replace (_ && _) with true by lia. by apply W5.
Qed.

Lemma superblock_reads_back_witness :
  exists w1 fs1, ext2_write_superblock (DD := ramdisk) demo_world demo_fs = Some (true, w1, fs1) /\ sb_dirty fs1 = false /\
    exists ok2 w2 fs2, ext2_read_superblock (DD := ramdisk) w1 demo_fs = Some (ok2, w2, fs2) /\
      (ok2 = true -> forall x, 0 <= x < SB_SIZE -> sb fs2 x = ld8 (sb demo_fs) x).
Proof.
  destruct (superblock_reads_back (KM := arena_mem 0) (DD := ramdisk) demo_world demo_fs ltac:(left; reflexivity) ltac:(cbn; lia) eq_refl eq_refl)
    as (ok & w1 & fs1 & H1 & _ & H2).
  assert (E : option_map (fun r => fst (fst r)) (ext2_write_superblock (DD := ramdisk) demo_world demo_fs) = Some true)
    by (vm_compute; reflexivity).
  rewrite H1 in E. injection E as ->. destruct (H2 eq_refl) as (H3 & _ & H4).
  exists w1, fs1. split; [exact H1|]. split; [exact H3|exact H4].
Defined.

(** ** Where the checks fall short *)

(** 4160749600 blocks in groups of 31: 134217729 groups. *)
Definition huge_sb : mem :=
  stn 4 (stn 4 (stn 4 (stn 4 (stn 4 (stn 4 (fun _ => 0) 0 16) 4 4160749600) 20 1) 24 2) 32 31) 40 32.

(** Such a superblock is accepted, but the size of its descriptor table is computed
    in 32 bits: room for one descriptor is allocated, and 134217729 are then read. *)
Lemma descriptor_table_size_wraps :
  ext2_validate_sb huge_sb 512 = true /\ sb_groups huge_sb = 134217729 /\ u32 (sb_groups huge_sb * GD_SIZE) = GD_SIZE.
Proof. vm_compute. auto. Qed.

(** The end of the inode table is computed in 32 bits too: a table that starts at
    block 2^32 - 1 passes the range check of a file system of 64 blocks. *)
Lemma descriptor_range_check_wraps :
  desc_in_range (stn 4 (wm demo_world) 8200 4294967295) demo_fs 2 0 = true.
Proof. vm_compute. reflexivity. Qed.
