(* ===== verification/Printf.v ===== *)
(** * Console output, [src/src/stdio/printf.c] and [src/src/stdio/klog.c]

    The text goes to the terminal through [flanterm_write], which is not part of
    this development; the model collects the bytes passed to it, in order.  A
    pointer to characters is a memory and an offset in it, since formats, arguments
    and local buffers lie in different objects. *)

From stdpp Require Import strings.
From S2P Require Import Prelude Mem CString.

Definition chars (s : string) : list Z := (fun c => Z.of_N (Ascii.N_of_ascii c)) <$> String.list_ascii_of_string s.

(** A string constant of the program, at offset 0 of its own object. *)
Definition const (l : list Z) : mem := fun i => if i <? 0 then 0 else nth (Z.to_nat i) l 0.

(** The escape byte that starts a terminal sequence. *)
Definition ESCAPE : Z := 27.

(** The [n] bytes at [a]: what [flanterm_write(ctx, a, n)] sends. *)
Definition bytes (m : mem) (a n : Z) : list Z := (fun i => ld8 m (a + Z.of_nat i)) <$> seq 0 (Z.to_nat n).

(** ** [kprintf] *)

Inductive varg := VInt (n : Z) | VStr (p : mem * Z).

Record kps := Kps {
  kp_format : Z;
  kp_args : list varg;
  kp_written : Z;
  kp_buf : mem;
  kp_out : list Z }.

(** The ways out of the loop; [KpUndef] is undefined behaviour: [va_arg] without an
    argument of its type, or the negation of the least [int]. *)
Inductive kpend := KpRet (out : list Z) (r : Z) | KpUndef (out : list Z).

Definition put (s : kps) (format : Z) (args : list varg) (buf : mem) (l : list Z) : kps :=
  Kps format args (i32 (kp_written s + Z.of_nat (length l))) buf (kp_out s ++ l).

(** [while (a[k] && a[k] != stop) k++] *)
Definition scan (fuel : nat) (m : mem) (a stop k : Z) : option Z :=
  wloop fuel (fun k => if truthy (ld8 m (a + k)) && negb (ld8 m (a + k) =? stop) then inr (k + 1) else inl k) k.

(** The digit loop of [%d]: the digits of [tmp] from the last one on. *)
Definition dec_loop (buf : mem) (i tmp : Z) : option (mem * Z) :=
  wloop 11 (fun st : mem * Z * Z =>
    let '(buf, i, tmp) := st in
    if 0 <? tmp then inr (st8 buf i (48 + tmp mod 10), i + 1, tmp / 10) else inl (buf, i)) (buf, i, tmp).

(** The loop that reverses [buf[start..end]]. *)
Definition reverse_loop (buf : mem) (start end_ : Z) : option mem :=
  wloop 17 (fun st : mem * Z * Z =>
    let '(buf, start, end_) := st in
    if start <? end_ then
      let c := ld8 buf start in
      inr (st8 (st8 buf start (ld8 buf end_)) end_ c, start + 1, end_ - 1)
    else inl buf) (buf, start, end_).

(** [%d]: the buffer and the number of characters in it. *)
Definition fmt_d (buf : mem) (num : Z) : option (mem * Z) :=
  let '(buf, i, num) :=
    if num <? 0 then (st8 buf 0 45, 1, - num)
    else if num =? 0 then (st8 buf 0 48, 1, num) else (buf, 0, num) in
  '(buf, i) ← dec_loop buf i num;
  let start := if ld8 buf 0 =? 45 then 1 else 0 in
  buf ← reverse_loop buf start (i - 1);
  Some (buf, i).

(** [%x]: the eight nibbles from the highest, leading zeros left out. *)
Definition fmt_x (buf : mem) (num : Z) : mem * Z :=
  let buf := st8 (st8 buf 0 48) 1 120 in
  if num =? 0 then (st8 buf 2 48, 3)
  else
    let '(buf, i, _) :=
      floop 8 0 (fun k (st : mem * Z * bool) =>
        let '(buf, i, started) := st in
        let nibble := (num >>> (28 - 4 * k)) &&& 15 in
        if truthy nibble || started
        then (st8 buf i (if nibble <? 10 then 48 + nibble else 97 + nibble - 10), i + 1, true)
        else (buf, i, started)) (buf, 2, false) in
    (buf, i).

(** One round of the loop; [None] when an inner loop runs out of fuel. *)
Definition kprintf_step (fuel : nat) (fm : mem) (s : kps) : option (kpend + kps) :=
  let format := kp_format s in
  let args := kp_args s in
  let buf := kp_buf s in
  if ld8 fm format =? 0 then Some (inl (KpRet (kp_out s) (kp_written s)))
  else if (ld8 fm format =? ESCAPE) && (ld8 fm (format + 1) =? 91) then
    let seq_start := format in
    let format := format + 2 in
    seq_len ← scan fuel fm format 109 0;
    if ld8 fm (format + seq_len) =? 109
    then Some (inr (put s (format + seq_len + 1) args buf (bytes fm seq_start (seq_len + 3))))
    else Some (inr (put s (format + 2) args buf (bytes fm seq_start 2)))
  else
    let maxrem := u64 (2147483647 - kp_written s) in
    if negb (ld8 fm format =? 37) || (ld8 fm (format + 1) =? 37) then
      let format := if ld8 fm format =? 37 then format + 1 else format in
      amount ← scan fuel fm format 37 1;
      if maxrem <? amount then Some (inl (KpRet (kp_out s) (-1)))
      else Some (inr (put s (format + amount) args buf (bytes fm format amount)))
    else
      let format_begun_at := format in
      let format := format + 1 in
      let c := ld8 fm format in
      if c =? 99 then
        match args with
        | VInt n :: args => Some (inr (put s (format + 1) args buf [u8 n]))
        | _ => Some (inl (KpUndef (kp_out s)))
        end
      else if c =? 115 then
        match args with
        | VStr (m, a) :: args =>
            len ← strlen fuel m a;
            Some (inr (put s (format + 1) args buf (bytes m a len)))
        | _ => Some (inl (KpUndef (kp_out s)))
        end
      else if c =? 100 then
        match args with
        | VInt n :: args =>
            if i32 n =? -2147483648 then Some (inl (KpUndef (kp_out s)))
            else
              '(buf, i) ← fmt_d buf (i32 n);
              Some (inr (put s (format + 1) args buf (bytes buf 0 i)))
        | _ => Some (inl (KpUndef (kp_out s)))
        end
      else if c =? 120 then
        match args with
        | VInt n :: args =>
            let (buf, i) := fmt_x buf (u32 n) in
            Some (inr (put s (format + 1) args buf (bytes buf 0 i)))
        | _ => Some (inl (KpUndef (kp_out s)))
        end
      else Some (inr (put s (format + 1) args buf (bytes fm format_begun_at 1))).

Fixpoint kprintf_loop (rounds fuel : nat) (fm : mem) (s : kps) : option kpend :=
  match rounds with
  | O => None
  | S rounds' =>
      r ← kprintf_step fuel fm s;
      match r with inl e => Some e | inr s' => kprintf_loop rounds' fuel fm s' end
  end.

(** [fuel] bounds the rounds of each loop; [buf0] is what the stack held. *)
Definition kprintf (fuel : nat) (buf0 : mem) (format : mem * Z) (parameters : list varg) : option kpend :=
  kprintf_loop fuel fuel format.1 (Kps format.2 parameters 0 buf0 []).
