(* ===== verification/PrintfProps.v ===== *)
(** * Correctness of [kprintf]

    The number conversions against the positional value of their digits, and the
    whole function against a grammar of formats. *)

From stdpp Require Import strings.
From S2P Require Import Prelude Mem CString Printf.

(** ** Buffers *)

(** The bytes at [a] are those of [l]. *)
Definition holds (m : mem) (a : Z) (l : list Z) : Prop :=
  forall i c, l !! i = Some c -> ld8 m (a + Z.of_nat i) = c.

Lemma holds_bytes m a l : holds m a l -> bytes m a (Z.of_nat (length l)) = l.
Proof.
  intros H. unfold bytes. rewrite Nat2Z.id. apply list_eq. intros i.
  rewrite list_lookup_fmap. destruct (decide (i < length l)%nat) as [Hi|Hi].
  - rewrite lookup_seq_lt by done. destruct (lookup_lt_is_Some_2 l i Hi) as [c Hc].
    rewrite Hc. cbn. f_equal. by apply H.
  - rewrite lookup_seq_ge, lookup_ge_None_2 by lia. done.
Qed.

Lemma holds_nil m a : holds m a [].
Proof. intros i c Hi. by rewrite lookup_nil in Hi. Qed.

Lemma holds_app m a l1 l2 :
  holds m a (l1 ++ l2) <-> holds m a l1 /\ holds m (a + Z.of_nat (length l1)) l2.
Proof.
  split.
  - intros H. split.
    + intros i c Hi. apply H. by apply lookup_app_l_Some.
    + intros i c Hi. rewrite <- Z.add_assoc, <- Nat2Z.inj_add. apply H.
      rewrite lookup_app_r by lia. by replace (length l1 + i - length l1)%nat with i by lia.
  - intros [H1 H2] i c Hi. apply lookup_app_Some in Hi as [Hi|[Hl Hi]]; [by apply H1|].
    apply H2 in Hi. rewrite <- Hi. f_equal. lia.
Qed.

Lemma holds_one m a c : holds m a [c] <-> ld8 m a = c.
Proof.
  split.
  - intros H. rewrite <- (Z.add_0_r a). by apply (H 0%nat).
  - intros H [|i] d Hi; [injection Hi as <-; by rewrite Z.add_0_r|done].
Qed.

Lemma holds_cons m a c l : holds m a (c :: l) <-> ld8 m a = c /\ holds m (a + 1) l.
Proof. rewrite <- holds_one. exact (holds_app m a [c] l). Qed.

Lemma holds_ext m m' a l :
  (forall x, a <= x < a + Z.of_nat (length l) -> m' x = m x) -> holds m a l -> holds m' a l.
Proof.
  intros He H i c Hi. rewrite <- (H i c Hi). unfold ld8. f_equal. apply He.
  apply lookup_lt_Some in Hi. lia.
Qed.

Lemma ld8_st8_same m a v : ld8 (st8 m a v) a = u8 v.
Proof. unfold ld8. by rewrite st8_same, u8_idem. Qed.
Lemma ld8_st8_other m a v x : x <> a -> ld8 (st8 m a v) x = ld8 m x.
Proof. intros. unfold ld8. by rewrite st8_other. Qed.

Lemma holds_snoc m a l c :
  0 <= c < 256 -> holds m a l -> holds (st8 m (a + Z.of_nat (length l)) c) a (l ++ [c]).
Proof.
  intros Hc H. apply holds_app. split.
  - apply (holds_ext m); [|done]. intros x Hx. apply st8_other. lia.
  - apply holds_one. rewrite ld8_st8_same. by apply u8_small.
Qed.

(** A C string starts with its bytes. *)
Lemma cstr_holds m a l : cstr m a l -> holds m a l.
Proof. intros H i c Hi. by destruct (cstr_byte m a l H i c Hi). Qed.

Lemma cstr_app m a l1 l2 :
  cstr m a (l1 ++ l2) -> holds m a l1 /\ cstr m (a + Z.of_nat (length l1)) l2.
Proof.
  intros H. split; [by apply (holds_app m a l1 l2), cstr_holds|].
  revert a H. induction l1 as [|c l1 IH]; intros a H; cbn [length app] in *.
  - by rewrite Z.add_0_r.
  - destruct H as (_ & _ & H%IH). by replace (a + Z.of_nat (S (length l1))) with (a + 1 + Z.of_nat (length l1)) by lia.
Qed.

Lemma holds_cstr m a l : holds m a l -> Forall (fun c => c <> 0) l -> ld8 m (a + Z.of_nat (length l)) = 0 -> cstr m a l.
Proof.
  revert a. induction l as [|c l IH]; intros a Hh Hf He; cbn [cstr].
  - rewrite <- He. f_equal. cbn. lia.
  - apply holds_cons in Hh as [H1 H2]. apply Forall_cons in Hf as [F1 F2]. split_and_all; [done|done|].
    apply IH; [done|done|]. rewrite <- He. f_equal. cbn [length]. lia.
Qed.

(** ** Decimal numbers *)

(** Decimal digits of [n], most significant first; none for 0. *)
Fixpoint digs (fuel : nat) (n : Z) : list Z :=
  match fuel with
  | O => []
  | S f => if n =? 0 then [] else digs f (n / 10) ++ [48 + n mod 10]
  end.

(** Twenty digits are enough for 64 bits. *)
Definition dec (n : Z) : list Z := if n =? 0 then [48] else digs 20 n.
Definition decimal (n : Z) : list Z := (if n <? 0 then [45] else []) ++ dec (Z.abs n).

(** The number a string of digits denotes in base [b]. *)
Definition digit_value (c : Z) : Z := if c <? 58 then c - 48 else c - 87.
Definition value (b : Z) (l : list Z) : Z := fold_left (fun acc c => b * acc + digit_value c) l 0.

Lemma value_snoc b l c : value b (l ++ [c]) = b * value b l + digit_value c.
Proof. unfold value. by rewrite fold_left_app. Qed.

Lemma digs_spec f n :
  0 <= n < 10 ^ Z.of_nat f ->
  value 10 (digs f n) = n /\ (length (digs f n) <= f)%nat /\ Forall (fun c => 48 <= c < 58) (digs f n).
Proof.
  revert n. induction f as [|f IH]; intros n Hn; cbn [digs].
  - assert (n = 0) as -> by (cbn in Hn; lia). by split_and_all.
  - rewrite Nat2Z.inj_succ, Z.pow_succ_r in Hn by lia. case_if; [subst; split_and_all; [done|cbn; lia|done]|].
    destruct (IH (n / 10)) as (H1 & H2 & H3); [Z.div_mod_to_equations; lia|].
    rewrite value_snoc, H1, length_app. cbn [length]. unfold digit_value.
    replace (48 + n mod 10 <? 58) with true by (symmetry; apply Z.ltb_lt; Z.div_mod_to_equations; lia).
    split_and_all; [Z.div_mod_to_equations; lia|lia|].
    apply Forall_app. split; [done|]. constructor; [|done]. Z.div_mod_to_equations; lia.
Qed.

Lemma digs_fuel f g n : 0 <= n < 10 ^ Z.of_nat f -> (f <= g)%nat -> digs g n = digs f n.
Proof.
  revert g n. induction f as [|f IH]; intros g n Hn Hg; cbn [digs].
  - assert (n = 0) as -> by (cbn in Hn; lia). by destruct g.
  - destruct g as [|g]; [lia|]. cbn [digs]. case_if; [done|].
    rewrite Nat2Z.inj_succ, Z.pow_succ_r in Hn by lia.
    rewrite (IH g) by (try lia; Z.div_mod_to_equations; lia). done.
Qed.

Lemma digs_nil f n : 0 <= n < 10 ^ Z.of_nat f -> digs f n = [] -> n = 0.
Proof. intros Hn H. destruct (digs_spec f n Hn) as [H1 _]. by rewrite H in H1. Qed.

Lemma dec_spec n :
  0 <= n < 18446744073709551616 ->
  value 10 (dec n) = n /\ (1 <= length (dec n) <= 20)%nat /\ Forall (fun c => 48 <= c < 58) (dec n).
Proof.
  intros Hn. unfold dec. case_if; [subst; split_and_all; [done|cbn; lia|cbn; lia|by repeat constructor]|].
  destruct (digs_spec 20 n) as (H1 & H2 & H3); [lia|]. split_and_all; [done| |done|done].
  destruct (digs 20 n) eqn:Hd; [|cbn; lia]. apply digs_nil in Hd; lia.
Qed.

(** The digit loop leaves the digits in reverse. *)
Lemma dec_loop_spec f rounds buf i tmp :
  (f < rounds)%nat -> 0 <= tmp < 10 ^ Z.of_nat f ->
  exists buf',
    wloop rounds (fun st : mem * Z * Z =>
      let '(buf, i, tmp) := st in
      if 0 <? tmp then inr (st8 buf i (48 + tmp mod 10), i + 1, tmp / 10) else inl (buf, i)) (buf, i, tmp)
    = Some (buf', i + Z.of_nat (length (digs f tmp))) /\
    holds buf' i (reverse (digs f tmp)) /\ (forall x, x < i -> buf' x = buf x).
Proof.
  revert rounds buf i tmp. induction f as [|f IH]; intros [|rounds] buf i tmp Hr Ht; try lia; cbn [wloop digs].
  - replace (0 <? tmp) with false by (cbn in Ht; lia). exists buf. rewrite Z.add_0_r.
    split_and_all; [done|apply holds_nil|done].
  - rewrite Nat2Z.inj_succ, Z.pow_succ_r in Ht by lia. destruct (tmp =? 0) eqn:E; bool_to_prop.
    { subst tmp. cbn [Z.ltb Z.compare]. exists buf. rewrite Z.add_0_r.
      split_and_all; [done|apply holds_nil|done]. }
    replace (0 <? tmp) with true by lia.
    destruct (IH rounds (st8 buf i (48 + tmp mod 10)) (i + 1) (tmp / 10)) as (buf' & Hw & Hh & Hx);
      [lia|Z.div_mod_to_equations; lia|].
    exists buf'. rewrite Hw, length_app, reverse_app. cbn [length reverse app].
    split_and_all; [f_equal; f_equal; lia| |].
    + change (holds buf' i ((48 + tmp mod 10) :: reverse (digs f (tmp / 10)))). apply holds_cons.
      split; [|done]. unfold ld8. rewrite Hx, st8_same by lia. rewrite u8_idem.
      apply u8_small. Z.div_mod_to_equations; lia.
    + intros x Hlt. rewrite Hx by lia. apply st8_other. lia.
Qed.

(** The swap loop reverses the bytes between its two indices. *)
Lemma reverse_loop_spec n rounds buf start l :
  (length l <= 2 * n)%nat -> (n < rounds)%nat -> holds buf start l ->
  exists buf',
    wloop rounds (fun st : mem * Z * Z =>
      let '(buf, start, end_) := st in
      if start <? end_ then
        let c := ld8 buf start in
        inr (st8 (st8 buf start (ld8 buf end_)) end_ c, start + 1, end_ - 1)
      else inl buf) (buf, start, start + Z.of_nat (length l) - 1) = Some buf' /\
    holds buf' start (reverse l) /\
    (forall x, x < start \/ start + Z.of_nat (length l) <= x -> buf' x = buf x).
Proof.
  revert rounds buf start l. induction n as [|n IH]; intros [|rounds] buf start l Hn Hr Hh; try lia; cbn [wloop].
  - destruct l; [|cbn in Hn; lia]. cbn [length]. change (Z.of_nat 0) with 0. replace (start <? start + 0 - 1) with false by lia.
    exists buf. by split_and_all.
  - destruct l as [|a l]; [|destruct l as [|b mid _] using rev_ind].
    + cbn [length]. change (Z.of_nat 0) with 0. replace (start <? start + 0 - 1) with false by lia. exists buf. by split_and_all.
    + cbn [length]. change (Z.of_nat 1) with 1. replace (start <? start + 1 - 1) with false by lia. exists buf. by split_and_all.
    + rewrite app_comm_cons in Hn, Hh |- *. rewrite length_app in *. cbn [length] in *.
      set (e := start + Z.of_nat (S (length mid) + 1) - 1). replace (start <? e) with true by lia. cbn zeta.
      apply holds_app in Hh as [Hh Hb%holds_one]. apply holds_cons in Hh as [Ha Hm].
      cbn [length] in Hb. replace (start + Z.of_nat (S (length mid))) with e in Hb by lia.
      rewrite Ha, Hb.
      assert (Ra : 0 <= a < 256) by (rewrite <- Ha; apply ld8_range).
      assert (Rb : 0 <= b < 256) by (rewrite <- Hb; apply ld8_range).
      destruct (IH rounds (st8 (st8 buf start b) e a) (start + 1) mid) as (buf' & Hw & Hh' & Hx); [lia|lia| |].
      { apply (holds_ext buf); [|done]. intros x Hx. rewrite !st8_other by lia. done. }
      exists buf'. replace (e - 1) with (start + 1 + Z.of_nat (length mid) - 1) by lia.
      split_and_all; [done| |].
      * rewrite reverse_snoc, reverse_cons.
        apply holds_cons. split; [unfold ld8; rewrite Hx, st8_other, st8_same, u8_idem by lia; by apply u8_small|].
        apply holds_app. split; [done|]. apply holds_one. rewrite length_reverse.
        unfold ld8. rewrite Hx by lia. replace (start + 1 + Z.of_nat (length mid)) with e by lia.
        rewrite st8_same, u8_idem. by apply u8_small.
      * intros x Ho. rewrite Hx by lia. rewrite !st8_other by lia. done.
Qed.

Lemma reverse_loop_ok buf start l :
  (length l <= 32)%nat -> holds buf start l ->
  exists buf', reverse_loop buf start (start + Z.of_nat (length l) - 1) = Some buf' /\
    holds buf' start (reverse l) /\
    (forall x, x < start \/ start + Z.of_nat (length l) <= x -> buf' x = buf x).
Proof. intros Hl Hh. apply (reverse_loop_spec 16 17 buf start l); [lia|lia|done]. Qed.

(** [%d] writes the decimal notation. *)
Lemma fmt_d_spec buf n :
  -2147483648 < n < 2147483648 ->
  exists buf', fmt_d buf n = Some (buf', Z.of_nat (length (decimal n))) /\ holds buf' 0 (decimal n).
Proof.
  intros Hn. unfold fmt_d, decimal, dec, dec_loop.
  assert (Hd : forall b i t, 0 < t < 10 ^ Z.of_nat 10 -> exists b',
      wloop 11 (fun st : mem * Z * Z =>
        let '(buf, i, tmp) := st in
        if 0 <? tmp then inr (st8 buf i (48 + tmp mod 10), i + 1, tmp / 10) else inl (buf, i)) (b, i, t)
      = Some (b', i + Z.of_nat (length (digs 20 t))) /\
      holds b' i (reverse (digs 20 t)) /\ (forall x, x < i -> b' x = b x) /\ (1 <= length (digs 20 t) <= 10)%nat).
  { intros b i t Ht. destruct (dec_loop_spec 10 11 b i t) as (b' & H1 & H2 & H3); [lia|lia|].
    rewrite (digs_fuel 10 20) by lia. destruct (digs_spec 10 t) as (_ & Hl & _); [lia|].
    exists b'. split_and_all; [done|done|done| |done].
    destruct (digs 10 t) eqn:E; [|cbn; lia]. apply digs_nil in E; lia. }
  destruct (n <? 0) eqn:E1; [|destruct (n =? 0) eqn:E2]; bool_to_prop.
  - replace (Z.abs n =? 0) with false by lia. rewrite Z.abs_neq by lia.
    destruct (Hd (st8 buf 0 45) 1 (- n)) as (b1 & -> & Hh & Hx & Hl); [lia|]. cbn [mbind option_bind].
    replace (ld8 b1 0 =? 45) with true
      by (symmetry; apply Z.eqb_eq; unfold ld8; rewrite Hx, st8_same by lia; done).
    destruct (reverse_loop_ok b1 1 (reverse (digs 20 (- n)))) as (b2 & Hr & Hh2 & Hx2);
      [rewrite length_reverse; lia|done|].
    rewrite length_reverse in *. rewrite reverse_involutive in Hh2.
    cbv beta iota. rewrite Hr. cbn [mbind option_bind]. exists b2. rewrite length_app. cbn [length].
    split; [f_equal; f_equal; lia|]. apply (holds_cons b2 0 45). split; [|done].
    unfold ld8. rewrite Hx2, Hx, st8_same by lia. done.
  - subst n. cbn [Z.abs Z.eqb app length wloop Z.ltb Z.compare mbind option_bind].
    rewrite ld8_st8_same. cbn [u8 Z.modulo Z.eqb].
    exists (st8 buf 0 48). split; [reflexivity|]. apply holds_one. by rewrite ld8_st8_same.
  - replace (Z.abs n =? 0) with false by lia. rewrite Z.abs_eq by lia.
    destruct (Hd buf 0 n) as (b1 & -> & Hh & Hx & Hl); [lia|]. cbn [mbind option_bind app].
    assert (Hc : (ld8 b1 0 =? 45) = false).
    { destruct (digs_spec 20 n) as (_ & _ & Hf); [lia|].
      destruct (reverse (digs 20 n)) as [|c l] eqn:Er.
      - apply (f_equal length) in Er. rewrite length_reverse in Er. cbn [length] in Er. lia.
      - apply holds_cons in Hh as [-> _]. apply Forall_reverse in Hf. rewrite Er in Hf.
        apply Forall_cons in Hf as [Hf _]. lia. }
    rewrite Hc.
    destruct (reverse_loop_ok b1 0 (reverse (digs 20 n))) as (b2 & Hr & Hh2 & Hx2);
      [rewrite length_reverse; lia|done|].
    rewrite length_reverse in *. rewrite reverse_involutive in Hh2.
    cbv beta iota. rewrite Hr. cbn [mbind option_bind]. exists b2. split; [|done].
    f_equal.
Qed.

(** ** Hexadecimal numbers *)

Definition hexc (d : Z) : Z := if d <? 10 then 48 + d else 97 + d - 10.
Definition nibble (num k : Z) : Z := (num >>> (28 - 4 * k)) &&& 15.

(** The digits of the highest [k] nibbles, without leading zeros. *)
Fixpoint hexds (k : nat) (num : Z) : list Z :=
  match k with
  | O => []
  | S k' =>
      let l := hexds k' num in
      if truthy (nibble num (Z.of_nat k')) || negb (length l =? 0)%nat
      then l ++ [hexc (nibble num (Z.of_nat k'))] else l
  end.

Definition hexadecimal (n : Z) : list Z := [48; 120] ++ (if n =? 0 then [48] else hexds 8 n).

Lemma nibble_range n k : 0 <= nibble n k < 16.
Proof. unfold nibble. rewrite (land_mod _ 4) by lia. apply Z.mod_pos_bound. lia. Qed.

Lemma hexc_value d : 0 <= d < 16 -> digit_value (hexc d) = d /\ 0 <= hexc d < 256.
Proof. intros. unfold digit_value, hexc. destruct (d <? 10) eqn:E; bool_to_prop; case_if; lia. Qed.

Lemma hexds_spec k n :
  (k <= 8)%nat -> 0 <= n < 4294967296 ->
  value 16 (hexds k n) = n >>> (32 - 4 * Z.of_nat k) /\ (length (hexds k n) <= k)%nat.
Proof.
  intros Hk Hn. induction k as [|k IH]; cbn [hexds].
  - cbn [value fold_left length]. rewrite shiftr_div by lia. split; [|lia].
    symmetry. apply Z.div_small. cbn. lia.
  - destruct IH as [Hv Hl]; [lia|].
    assert (Hs : n >>> (32 - 4 * Z.of_nat (S k)) = 16 * (n >>> (32 - 4 * Z.of_nat k)) + nibble n (Z.of_nat k)).
    { unfold nibble. rewrite (land_mod _ 4) by lia. rewrite !shiftr_div by lia.
      replace (32 - 4 * Z.of_nat (S k)) with (28 - 4 * Z.of_nat k) by lia.
      replace (32 - 4 * Z.of_nat k) with (28 - 4 * Z.of_nat k + 4) by lia.
      rewrite Z.pow_add_r, <- Z.div_div by lia. change (2 ^ 4) with 16. Z.div_mod_to_equations; lia. }
    pose proof (nibble_range n (Z.of_nat k)) as Hr. case_if.
    + rewrite value_snoc, length_app. cbn [length]. destruct (hexc_value _ Hr) as [-> _]. split; lia.
    + assert (hexds k n = []) as E0 by (apply length_zero_iff_nil, Nat.eqb_eq; done).
      rewrite E0 in *. cbn [value fold_left length] in *. split; lia.
Qed.

Lemma fmt_x_spec buf n :
  0 <= n < 4294967296 ->
  exists buf', fmt_x buf n = (buf', Z.of_nat (length (hexadecimal n))) /\ holds buf' 0 (hexadecimal n).
Proof.
  intros Hn. unfold fmt_x, hexadecimal. set (b0 := st8 (st8 buf 0 48) 1 120).
  assert (H0 : holds b0 0 [48; 120]).
  { apply (holds_snoc (st8 buf 0 48) 0 [48] 120); [lia|]. apply holds_one. by rewrite ld8_st8_same. }
  case_if.
  - exists (st8 b0 2 48). split; [done|]. apply (holds_snoc b0 0 [48; 120] 48); [lia|done].
  - pose proof (floop_inv (fun k (st : mem * Z * bool) => let '(b, i, started) := st in
        let l := hexds (Z.to_nat k) n in
        holds b 0 ([48; 120] ++ l) /\ i = 2 + Z.of_nat (length l) /\ started = negb (length l =? 0)%nat)
      (fun k (st : mem * Z * bool) =>
        let '(buf, i, started) := st in
        let nibble := (n >>> (28 - 4 * k)) &&& 15 in
        if truthy nibble || started
        then (st8 buf i (if nibble <? 10 then 48 + nibble else 97 + nibble - 10), i + 1, true)
        else (buf, i, started)) 8 0 (b0, 2, false)) as H.
    destruct (floop 8 0 _ _) as [[b i] st]. destruct H as (Hh & Hi & _).
    + by split_and_all.
    + clear b i st. intros k [[b i] st] Hk (Hh & -> & ->). cbn zeta.
      replace (Z.to_nat (k + 1)) with (S (Z.to_nat k)) by lia. cbn [hexds].
      rewrite Z2Nat.id by lia. fold (nibble n k). pose proof (nibble_range n k) as Hr.
      case_if; rewrite ?E0; [|done]. rewrite length_app. cbn [length].
      split_and_all; [|lia|by destruct (length (hexds (Z.to_nat k) n))].
      rewrite app_assoc. change (if nibble n k <? 10 then _ else _) with (hexc (nibble n k)).
      replace (2 + Z.of_nat (length (hexds (Z.to_nat k) n)))
        with (0 + Z.of_nat (length ([48; 120] ++ hexds (Z.to_nat k) n))) by (cbn [length app]; lia).
      apply holds_snoc; [by apply hexc_value|done].
    + change (Z.to_nat (0 + Z.of_nat 8)) with 8%nat in *. exists b. split; [|done]. f_equal. rewrite Hi. rewrite length_app. cbn [length]. lia.
Qed.

(** ** The grammar of formats *)

Inductive item :=
| Lit (c : Z)
| Esc (body : list Z)
| Pct
| Chr
| Str
| Dec
| Hex.

Definition item_text (it : item) : list Z :=
  match it with
  | Lit c => [c]
  | Esc body => [ESCAPE; 91] ++ body ++ [109]
  | Pct => [37; 37]
  | Chr => [37; 99]
  | Str => [37; 115]
  | Dec => [37; 100]
  | Hex => [37; 120]
  end.

Definition text (its : list item) : list Z := concat (item_text <$> its).

(** Literal bytes that start nothing else. *)
Definition item_ok (it : item) : Prop :=
  match it with
  | Lit c => c <> 0 /\ c <> 37 /\ c <> ESCAPE
  | Esc body => Forall (fun c => c <> 0 /\ c <> 37 /\ c <> 109) body
  | _ => True
  end.

(** [renders N its args out]: with the arguments [args] the items stand for the
    text [out]; strings are shorter than [N]. *)
Inductive renders (N : nat) : list item -> list varg -> list Z -> Prop :=
| render_nil args : renders N [] args []
| render_lit c its args out : renders N its args out -> renders N (Lit c :: its) args (c :: out)
| render_esc b its args out : renders N its args out -> renders N (Esc b :: its) args (item_text (Esc b) ++ out)
| render_pct its args out : renders N its args out -> renders N (Pct :: its) args (37 :: out)
| render_chr n its args out : renders N its args out -> renders N (Chr :: its) (VInt n :: args) (u8 n :: out)
| render_str m a l its args out :
    cstr m a l -> (length l < N)%nat -> renders N its args out ->
    renders N (Str :: its) (VStr (m, a) :: args) (l ++ out)
| render_dec n its args out :
    -2147483648 < n < 2147483648 -> renders N its args out ->
    renders N (Dec :: its) (VInt n :: args) (decimal n ++ out)
| render_hex n its args out :
    renders N its args out -> renders N (Hex :: its) (VInt n :: args) (hexadecimal (u32 n) ++ out).

(** The literal run [kprintf] writes in one go: the items up to the next per cent. *)
Fixpoint plain_run (its : list item) : list item * list item :=
  match its with
  | (Lit _ | Esc _) as it :: its' => let (p, r) := plain_run its' in (it :: p, r)
  | _ => ([], its)
  end.

Definition stops (l : list Z) : Prop := l = [] \/ exists l', l = 37 :: l'.

Lemma text_cons it its : text (it :: its) = item_text it ++ text its.
Proof. done. Qed.

Lemma plain_run_spec N its args out p r :
  plain_run its = (p, r) -> Forall item_ok its -> renders N its args out ->
  exists out', text its = text p ++ text r /\ out = text p ++ out' /\ renders N r args out' /\
    Forall item_ok r /\ stops (text r) /\ Forall (fun c => c <> 0 /\ c <> 37) (text p) /\ (length r <= length its)%nat.
Proof.
  intros Hp Hok Hr. revert p r Hp Hok.
  assert (Hstop : forall its' out0, renders N its' args out0 -> Forall item_ok its' -> stops (text its') ->
    forall p r, (([] : list item), its') = (p, r) ->
    exists out', text its' = text p ++ text r /\ out0 = text p ++ out' /\ renders N r args out' /\
      Forall item_ok r /\ stops (text r) /\ Forall (fun c => c <> 0 /\ c <> 37) (text p) /\
      (length r <= length its')%nat).
  { intros its' out0 H1 H2 H3 p r [= <- <-]. exists out0. by split_and_all. }
  induction Hr as [args|c its args out Hr IH|b its args out Hr IH|its args out Hr IH|n its args out Hr IH
    |m a l its args out Hc Hl Hr IH|n its args out Hn Hr IH|n its args out Hr IH];
    intros p r Hp Hok; try (eapply Hstop; [econstructor; eassumption|exact Hok|(left; reflexivity) || (right; eexists; reflexivity)|exact Hp]).
  - cbn [plain_run] in Hp. destruct (plain_run its) as [p' r'] eqn:Ep. injection Hp as <- <-.
    apply Forall_cons in Hok as [Hc Hok]. destruct Hc as (Hc1 & Hc2 & Hc3).
    destruct (IH Hstop p' r' eq_refl Hok) as (o & Ht & -> & H3 & H4 & H5 & H6 & H7).
    exists o. rewrite !text_cons, Ht. cbn [item_text app length]. split_and_all; try done; [|lia].
    by constructor.
  - cbn [plain_run] in Hp. destruct (plain_run its) as [p' r'] eqn:Ep. injection Hp as <- <-.
    apply Forall_cons in Hok as [Hc Hok]. cbn [item_ok] in Hc.
    destruct (IH Hstop p' r' eq_refl Hok) as (o & Ht & -> & H3 & H4 & H5 & H6 & H7).
    exists o. rewrite !text_cons, Ht. split_and_all; try done; [by rewrite app_assoc|by rewrite app_assoc| |cbn; lia].
    apply Forall_app. split; [|done]. cbn [item_text]. repeat (constructor; [done|]).
    apply Forall_app. split; [|by repeat constructor]. eapply Forall_impl; [exact Hc|]. naive_solver.
Qed.

(** ** The loop *)

Lemma scan_run fuel m a stop k n :
  (forall i, k <= i < k + Z.of_nat n -> ld8 m (a + i) <> 0 /\ ld8 m (a + i) <> stop) ->
  (ld8 m (a + (k + Z.of_nat n)) = 0 \/ ld8 m (a + (k + Z.of_nat n)) = stop) -> (n < fuel)%nat ->
  scan fuel m a stop k = Some (k + Z.of_nat n).
Proof.
  unfold scan. revert k fuel. induction n as [|n IH]; intros k fuel Hi He Hf;
    (destruct fuel as [|fuel]; [lia|]); cbn [wloop].
  - rewrite Z.add_0_r in *. destruct He as [-> | ->]; [done|]. rewrite Z.eqb_refl, andb_false_r. done.
  - destruct (Hi k ltac:(lia)) as [H1 H2]. rewrite (truthy_nz _ H1), (proj2 (Z.eqb_neq _ _) H2). cbn [andb negb].
    rewrite IH; [f_equal; lia| | |lia].
    + intros i Hr. apply Hi. lia.
    + replace (k + 1 + Z.of_nat n) with (k + Z.of_nat (S n)) by lia. done.
Qed.

(** The run after the first byte of a chunk. *)
Lemma scan_chunk fuel m a c t rest :
  cstr m a (c :: t ++ rest) -> Forall (fun c => c <> 0 /\ c <> 37) t -> stops rest -> (length t < fuel)%nat ->
  scan fuel m a 37 1 = Some (Z.of_nat (length (c :: t))) /\
  bytes m a (Z.of_nat (length (c :: t))) = c :: t /\
  cstr m (a + Z.of_nat (length (c :: t))) rest.
Proof.
  intros Hc Ht Hs Hf. destruct (cstr_app m a (c :: t) rest Hc) as [Hh Hr]. split_and_all; [|by apply holds_bytes|done].
  rewrite (scan_run fuel m a 37 1 (length t)); [cbn [length]; f_equal; lia| | |done].
  - intros i Hi. apply holds_cons in Hh as [_ Hh].
    destruct (lookup_lt_is_Some_2 t (Z.to_nat (i - 1)) ltac:(lia)) as [d Hd].
    pose proof (Hh _ _ Hd) as Hd'. replace (a + 1 + Z.of_nat (Z.to_nat (i - 1))) with (a + i) in Hd' by lia.
    rewrite Hd'. by apply (Forall_lookup_1 _ _ _ _ Ht Hd).
  - replace (a + (1 + Z.of_nat (length t))) with (a + Z.of_nat (length (c :: t))) by (cbn [length]; lia).
    destruct Hs as [-> | [l' ->]]; [by left|right; by destruct Hr].
Qed.

Lemma scan_esc fuel m a b rest :
  cstr m a (b ++ 109 :: rest) -> Forall (fun c => c <> 0 /\ c <> 37 /\ c <> 109) b -> (length b < fuel)%nat ->
  scan fuel m a 109 0 = Some (Z.of_nat (length b)) /\ ld8 m (a + Z.of_nat (length b)) = 109.
Proof.
  intros Hc Hb Hf. destruct (cstr_app m a b (109 :: rest) Hc) as [Hh Hr]. split; [|by destruct Hr].
  rewrite (scan_run fuel m a 109 0 (length b)); [f_equal; lia| | |done].
  - intros i Hi. destruct (lookup_lt_is_Some_2 b (Z.to_nat i) ltac:(lia)) as [d Hd].
    pose proof (Hh _ _ Hd) as Hd'. replace (a + Z.of_nat (Z.to_nat i)) with (a + i) in Hd' by lia.
    rewrite Hd'. pose proof (Forall_lookup_1 _ _ _ _ Hb Hd). naive_solver.
  - right. rewrite Z.add_0_l. by destruct Hr.
Qed.

(** The state keeps count of what it wrote. *)
Definition counted (s : kps) : Prop := kp_written s = Z.of_nat (length (kp_out s)).

Lemma put_counted s f args buf l :
  counted s -> Z.of_nat (length (kp_out s) + length l) <= 2147483647 -> counted (put s f args buf l).
Proof.
  unfold counted, put. cbn [kp_written kp_out]. intros -> Hl. rewrite length_app. rewrite i32_small; lia.
Qed.

(** One item, or a run of literals, per round. *)
Inductive step_ok (N fuel : nat) (fm : mem) (s : kps) (its : list item) (out : list Z) : Prop :=
| step_ok_intro its' f' args' buf' l out' :
    kprintf_step fuel fm s = Some (inr (put s f' args' buf' l)) ->
    out = l ++ out' -> cstr fm f' (text its') -> Forall item_ok its' -> renders N its' args' out' ->
    (length its' < length its)%nat -> (length (text its') <= length (text its))%nat ->
    step_ok N fuel fm s its out.

(** A chunk of literal text, which [first] starts. *)
Lemma chunk_step N fuel fm s its args out first f :
  cstr fm f (first :: text its) -> Forall item_ok its -> renders N its args out -> kp_args s = args ->
  counted s -> Z.of_nat (length (kp_out s) + length (first :: out)) <= 2147483647 ->
  (length (text its) < fuel)%nat ->
  (forall amount, scan fuel fm f 37 1 = Some amount ->
     kprintf_step fuel fm s =
     if u64 (2147483647 - kp_written s) <? amount then Some (inl (KpRet (kp_out s) (-1)))
     else Some (inr (put s (f + amount) args (kp_buf s) (bytes fm f amount)))) ->
  step_ok N fuel fm s (Lit first :: its) (first :: out).
Proof.
  intros Hc Hok Hr Ha Hs Hm Hf Hst. destruct (plain_run its) as [p r] eqn:Ep.
  destruct (plain_run_spec N its args out p r Ep Hok Hr) as (o & Ht & -> & H3 & H4 & H5 & H6 & H7).
  rewrite Ht in Hc, Hf. rewrite length_app in Hf.
  destruct (scan_chunk fuel fm f first (text p) (text r) Hc H6 H5 ltac:(lia)) as (Hsc & Hb & Hrest).
  specialize (Hst _ Hsc). rewrite Hb in Hst.
  cbn [length] in Hm. rewrite length_app in Hm. rewrite Hs in Hst.
  replace (u64 _ <? _) with false in Hst by (symmetry; apply Z.ltb_ge; cbn [length]; rewrite u64_small; lia).
  eapply step_ok_intro; [exact Hst|done|exact Hrest|done|done|cbn [length]; lia|].
  rewrite text_cons, Ht, !length_app. lia.
Qed.

(** A round that takes one item. *)
Lemma step_take N fuel fm s it its f' args' buf' l out :
  kprintf_step fuel fm s = Some (inr (put s f' args' buf' l)) ->
  cstr fm f' (text its) -> Forall item_ok its -> renders N its args' out ->
  step_ok N fuel fm s (it :: its) (l ++ out).
Proof.
  intros. eapply step_ok_intro; try done; [cbn [length]; lia|]. rewrite text_cons, length_app. lia.
Qed.

(** Run the branch of [kprintf_step] that the bytes [H1], [H2] of the format choose. *)
Ltac kp_branch H1 H2 Ea :=
  unfold kprintf_step; rewrite H1, ?H2, <- ?Ea; cbn [Z.eqb ESCAPE Pos.eqb andb negb orb].

Lemma item_step N fuel fm s its out :
  its <> [] -> cstr fm (kp_format s) (text its) -> Forall item_ok its -> renders N its (kp_args s) out ->
  counted s -> Z.of_nat (length (kp_out s) + length out) <= 2147483647 ->
  (length (text its) < fuel)%nat -> (N <= fuel)%nat ->
  step_ok N fuel fm s its out.
Proof.
  intros Hne Hc Hok Hr Hs Hm Hf HN. remember (kp_args s) as args eqn:Ea.
  assert (Hlen : (length (text its) < fuel)%nat) by done.
  destruct Hr as [args|c its args out Hr|b its args out Hr|its args out Hr|n its args out Hr
    |m a l its args out Hl HlN Hr|n its args out Hn Hr|n its args out Hr]; [done|..];
    rewrite text_cons in Hc, Hf; rewrite ?length_app in Hf; apply Forall_cons in Hok as [Hit Hok]; clear Hne;
    cbn [item_text app cstr length] in Hc, Hf.
  - destruct Hit as (Hz & Hp & He). pose proof Hc as (H1 & _ & _).
    apply (chunk_step N fuel fm s its args out c (kp_format s)); try done; [lia|].
    intros amount Ham. unfold kprintf_step. rewrite H1, (proj2 (Z.eqb_neq c 0)), (proj2 (Z.eqb_neq c ESCAPE)),
      (proj2 (Z.eqb_neq c 37)) by done. cbn [andb negb orb]. rewrite Ham, <- Ea. done.
  - destruct Hc as (H1 & _ & H2 & _ & H3). rewrite <- app_assoc in H3. cbn [app] in H3. cbn [item_ok] in Hit.
    rewrite length_app in Hf. cbn [length] in Hf. replace (kp_format s + 1 + 1) with (kp_format s + 2) in H3 by lia.
    destruct (scan_esc fuel fm _ b (text its) H3 Hit ltac:(lia)) as [Hsc Hm'].
    destruct (cstr_app fm _ b (109 :: text its) H3) as [Hh Hrest]. destruct Hrest as (_ & _ & Hrest).
    assert (Hb : bytes fm (kp_format s) (Z.of_nat (length b) + 3) = item_text (Esc b)).
    { replace (Z.of_nat (length b) + 3) with (Z.of_nat (length (item_text (Esc b))))
        by (cbn [item_text app length]; rewrite length_app; cbn [length]; lia).
      apply holds_bytes. cbn [item_text app]. apply holds_cons; split; [done|]. apply holds_cons; split; [done|].
      replace (kp_format s + 1 + 1) with (kp_format s + 2) by lia. apply holds_app. split; [done|by apply holds_one]. }
    eapply (step_take N fuel fm s _ its _ args (kp_buf s) (item_text (Esc b)) out); [|exact Hrest|done|exact Hr].
    unfold kprintf_step. rewrite H1, H2. cbn [Z.eqb ESCAPE Pos.eqb andb]. rewrite Hsc. cbn [mbind option_bind].
    rewrite Hm', Hb, <- Ea. done.
  - destruct Hc as (H1 & _ & Hc). pose proof Hc as (H2 & _ & _).
    destruct (chunk_step N fuel fm s its args out 37 (kp_format s + 1)) as [i' f' a' b' l' o' Q1 Q2 Q3 Q4 Q5 Q6 Q7];
      try done; [lia| |].
    + intros amount Ham. unfold kprintf_step. rewrite H1, H2. cbn [Z.eqb ESCAPE Pos.eqb andb negb orb].
      rewrite Ham, <- Ea. done.
    + eapply step_ok_intro; [exact Q1|done|done|done|exact Q5|done|]. rewrite text_cons in *. cbn [item_text app length] in *. lia.
  - destruct Hc as (H1 & _ & H2 & _ & H3).
    eapply (step_take N fuel fm s _ its _ args (kp_buf s) [u8 n] out); [|exact H3|done|exact Hr].
    kp_branch H1 H2 Ea. done.
  - destruct Hc as (H1 & _ & H2 & _ & H3).
    eapply (step_take N fuel fm s _ its _ args (kp_buf s) l out); [|exact H3|done|exact Hr].
    kp_branch H1 H2 Ea.
    rewrite (strlen_cstr m a l) by (done || lia). cbn [mbind option_bind].
    rewrite holds_bytes by by apply cstr_holds. done.
  - destruct Hc as (H1 & _ & H2 & _ & H3). destruct (fmt_d_spec (kp_buf s) n Hn) as (buf' & Hd & Hh).
    eapply (step_take N fuel fm s _ its _ args buf' (decimal n) out); [|exact H3|done|exact Hr].
    kp_branch H1 H2 Ea.
    rewrite i32_small, Hd by lia. replace (n =? -2147483648) with false by lia. cbn [mbind option_bind].
    by rewrite holds_bytes.
  - destruct Hc as (H1 & _ & H2 & _ & H3). destruct (fmt_x_spec (kp_buf s) (u32 n) (u32_range n)) as (buf' & Hd & Hh).
    eapply (step_take N fuel fm s _ its _ args buf' (hexadecimal (u32 n)) out); [|exact H3|done|exact Hr].
    kp_branch H1 H2 Ea.
    rewrite Hd. by rewrite holds_bytes.
Qed.

Lemma kprintf_loop_renders N rounds fuel fm s its out :
  cstr fm (kp_format s) (text its) -> Forall item_ok its -> renders N its (kp_args s) out ->
  counted s -> Z.of_nat (length (kp_out s) + length out) <= 2147483647 ->
  (length its < rounds)%nat -> (length (text its) < fuel)%nat -> (N <= fuel)%nat ->
  kprintf_loop rounds fuel fm s = Some (KpRet (kp_out s ++ out) (Z.of_nat (length (kp_out s ++ out)))).
Proof.
  revert s its out. induction rounds as [|rounds IH]; intros s its out Hc Hok Hr Hs Hm Hlr Hlf HN; [lia|].
  cbn [kprintf_loop]. destruct (decide (its = [])) as [-> | Hne].
  - inversion Hr; subst. cbn [text fmap list_fmap concat cstr] in Hc. unfold kprintf_step. rewrite Hc.
    cbn [Z.eqb mbind option_bind]. rewrite app_nil_r, Hs. done.
  - destruct (item_step N fuel fm s its out Hne Hc Hok Hr Hs Hm Hlf HN)
      as [its' f' args' buf' l out' -> -> Hc' Hok' Hr' Hli Hlt]. cbn [mbind option_bind].
    rewrite length_app in Hm. rewrite (IH (put s f' args' buf' l) its' out'); try done.
    + cbn [put kp_out]. by rewrite app_assoc.
    + apply put_counted; [done|lia].
    + cbn [put kp_out]. rewrite length_app. lia.
    + lia.
    + lia.
Qed.

Lemma text_length its : (length its <= length (text its))%nat.
Proof.
  induction its as [|it its IH]; [done|]. rewrite text_cons, length_app. cbn [length].
  assert (1 <= length (item_text it))%nat by (destruct it; cbn; lia). lia.
Qed.

Lemma kprintf_ok N fuel buf0 fm a its args out :
  cstr fm a (text its) -> Forall item_ok its -> renders N its args out ->
  Z.of_nat (length out) <= 2147483647 -> (length (text its) < fuel)%nat -> (N <= fuel)%nat ->
  kprintf fuel buf0 (fm, a) args = Some (KpRet out (Z.of_nat (length out))).
Proof.
  intros Hc Hok Hr Hm Hf HN. unfold kprintf. pose proof (text_length its).
  apply (kprintf_loop_renders N fuel fuel fm (Kps a args 0 buf0 []) its out); try done. lia.
Qed.

(** ** No leading zeros *)

Lemma digs_head f n : 0 < n < 10 ^ Z.of_nat f -> exists c l, digs f n = c :: l /\ c <> 48.
Proof.
  revert n. induction f as [|f IH]; intros n Hn; [cbn in Hn; lia|]. cbn [digs].
  replace (n =? 0) with false by lia. rewrite Nat2Z.inj_succ, Z.pow_succ_r in Hn by lia.
  destruct (decide (n / 10 = 0)) as [E|E].
  - rewrite E. replace (digs f 0) with (@nil Z) by by destruct f. eexists _, _. split; [done|].
    Z.div_mod_to_equations; lia.
  - destruct (IH (n / 10)) as (c & l & -> & Hc); [Z.div_mod_to_equations; lia|]. by eexists _, _.
Qed.

Lemma hexds_head k n c l : hexds k n = c :: l -> c <> 48.
Proof.
  revert c l. induction k as [|k IH]; intros c l; cbn [hexds]; [done|].
  destruct (hexds k n) as [|d l'] eqn:E; [|case_if; intros [= <- <-]; by eapply IH].
  cbn [length Nat.eqb negb]. rewrite orb_false_r. case_if; [|done]. intros [= <- <-].
  pose proof (nibble_range n (Z.of_nat k)). unfold hexc. case_if; lia.
Qed.

(** ** Properties *)

(** [kprintf] prints what its format says.  For a format made of literal text,
    terminal escape sequences, [%%] and the conversions [%c], [%s], [%d], [%x] (which
    takes the low 32 bits), with arguments of the right types and a result of at most [INT_MAX] bytes, it returns;
    it sends exactly the rendered text to the terminal, in order, and its result is
    the number of bytes.  The stack garbage in its buffer does not matter. *)
Theorem kprintf_renders (N fuel : nat) (buf0 fm : mem) (a : Z) (its : list item) (args : list varg) (out : list Z) :
  cstr fm a (text its) -> Forall item_ok its -> renders N its args out ->
  Z.of_nat (length out) <= 2147483647 -> (length (text its) < fuel)%nat -> (N <= fuel)%nat ->
  kprintf fuel buf0 (fm, a) args = Some (KpRet out (Z.of_nat (length out))).
Proof. apply kprintf_ok. Qed.

(** A decidable form of [cstr] for constants. *)
Lemma cstr_const l : Forall (fun c => 0 < c < 256) l -> cstr (const l) 0 l.
Proof.
  intros H. assert (G : forall k, cstr (const l) (Z.of_nat k) (drop k l)); [|exact (G 0%nat)].
  intros k. remember (drop k l) as r eqn:E. revert k E.
  induction r as [|c r IH]; intros k E; cbn [cstr]; unfold ld8 at 1, const at 1;
    replace (Z.of_nat k <? 0) with false by (symmetry; apply Z.ltb_ge; lia); rewrite Nat2Z.id.
  - rewrite nth_overflow; [done|]. symmetry in E. apply (f_equal length) in E. rewrite length_drop in E.
    cbn in E. lia.
  - assert (Hk : l !! k = Some c).
    { rewrite <- (Nat.add_0_r k), <- lookup_drop, <- E. done. }
    rewrite (nth_lookup_Some _ _ _ _ Hk). pose proof (Forall_lookup_1 _ _ _ _ H Hk). cbn beta in *.
    split_and_all; [apply u8_small; lia|lia|].
    replace (Z.of_nat k + 1) with (Z.of_nat (S k)) by lia. apply IH.
    rewrite (drop_S l c k Hk) in E. by injection E.
Qed.

Lemma kprintf_renders_witness :
  kprintf 40 (fun _ => 7) (const (chars "n=%d (%x) 100%% %s"), 0) [VInt (-120); VInt 48879; VStr (const (chars "ok"), 0)]
  = Some (KpRet (chars "n=-120 (0xbeef) 100% ok") 23).
Proof.
  exact (kprintf_renders 3 40 (fun _ => 7) (const (chars "n=%d (%x) 100%% %s")) 0
    [Lit 110; Lit 61; Dec; Lit 32; Lit 40; Hex; Lit 41; Lit 32; Lit 49; Lit 48; Lit 48; Pct; Lit 32; Str]
    [VInt (-120); VInt 48879; VStr (const (chars "ok"), 0)] (chars "n=-120 (0xbeef) 100% ok")
    (cstr_const (chars "n=%d (%x) 100%% %s") ltac:(repeat constructor))
    ltac:(repeat constructor; discriminate)
    ltac:(do 2 constructor;
          apply (render_dec 3 (-120) _ _ (chars " (0xbeef) 100% ok")); [lia|]; do 2 constructor;
          apply (render_hex 3 48879 _ _ (chars ") 100% ok")); do 7 constructor;
          apply (render_str 3 (const (chars "ok")) 0 (chars "ok") _ _ []);
          [apply cstr_const; repeat constructor|cbn; lia|constructor])
    ltac:(vm_compute; discriminate) ltac:(apply Nat.ltb_lt; reflexivity) ltac:(lia)).
Defined.

(** The number conversions are exact.  For every [int] but the least, [%d] fills
    its buffer with a minus sign exactly for negative numbers and the digits of the
    absolute value, at least one, without leading zeros, at most 11 characters in
    all; for every [unsigned int], [%x] writes "0x" and the hexadecimal digits of the
    number, without leading zeros, at most 10 characters: both stay in [buf[32]]. *)
Theorem number_conversions_exact (buf : mem) (n : Z) :
  (-2147483648 < n < 2147483648 ->
   exists buf' ds, fmt_d buf n = Some (buf', Z.of_nat (length ((if (n <? 0)%Z then [45] else []) ++ ds))) /\
     bytes buf' 0 (Z.of_nat (length ((if (n <? 0)%Z then [45] else []) ++ ds)))
       = (if (n <? 0)%Z then [45] else []) ++ ds /\
     value 10 ds = Z.abs n /\ Forall (fun c => 48 <= c < 58) ds /\ (1 <= length ds <= 10)%nat /\
     (n <> 0 -> head ds <> Some 48)) /\
  (0 <= n < 4294967296 ->
   exists buf' ds, fmt_x buf n = (buf', Z.of_nat (length ([48; 120] ++ ds))) /\
     bytes buf' 0 (Z.of_nat (length ([48; 120] ++ ds))) = [48; 120] ++ ds /\
     value 16 ds = n /\ (1 <= length ds <= 8)%nat /\ (n <> 0 -> head ds <> Some 48)).
Proof.
  split; intros Hn.
  - destruct (fmt_d_spec buf n Hn) as (buf' & Hd & Hh). exists buf', (dec (Z.abs n)). unfold decimal in *.
    destruct (dec_spec (Z.abs n)) as (Hv & Hl & Hf); [lia|].
    split_and_all; [done|by apply holds_bytes|done|done|lia| |].
    + unfold dec. case_if; [cbn; lia|]. rewrite (digs_fuel 10 20) by lia. apply digs_spec. lia.
    + intros Hz. unfold dec. replace (Z.abs n =? 0) with false by lia.
      destruct (digs_head 20 (Z.abs n)) as (c & l & -> & Hc); [lia|]. cbn. congruence.
  - destruct (fmt_x_spec buf n Hn) as (buf' & Hx & Hh). unfold hexadecimal in *.
    exists buf', (if n =? 0 then [48] else hexds 8 n).
    destruct (hexds_spec 8 n) as [Hv Hl]; [lia|done|]. change (32 - 4 * Z.of_nat 8) with 0 in Hv.
    rewrite Z.shiftr_0_r in Hv. split; [done|]. split; [by apply holds_bytes|].
    case_if; [subst; by split_and_all; try lia; cbn; lia|]. split_and_all; [done| |done|].
    + destruct (hexds 8 n); [cbn in Hv; lia|cbn; lia].
    + intros _. destruct (hexds 8 n) as [|c l] eqn:Eh; [done|]. apply hexds_head in Eh. cbn. congruence.
Qed.

Lemma number_conversions_exact_witness :
  (exists buf' ds, fmt_d (fun _ => 9) (-305) = Some (buf', Z.of_nat (length ([45] ++ ds))) /\ value 10 ds = 305) /\
  (exists buf' ds, fmt_x (fun _ => 9) 4096 = (buf', Z.of_nat (length ([48; 120] ++ ds))) /\ value 16 ds = 4096).
Proof.
  split.
  - destruct (proj1 (number_conversions_exact (fun _ => 9) (-305)) ltac:(lia)) as (b & ds & H1 & _ & H2 & _).
    exists b, ds. split; [exact H1|exact H2].
  - destruct (proj2 (number_conversions_exact (fun _ => 9) 4096) ltac:(lia)) as (b & ds & H1 & _ & H2 & _).
    exists b, ds. split; [exact H1|exact H2].
Defined.

(** A per cent sign at the end of a format makes [kprintf] step over the
    terminator and print what lies behind the string. *)
Lemma trailing_percent_overreads :
  kprintf 20 (fun _ => 0) (const (chars "50%" ++ [0] ++ chars "secret"), 0) []
  = Some (KpRet (chars "50%secret") 9).
Proof. vm_compute. reflexivity. Qed.

(** The least [int] has no decimal rendering: its negation overflows. *)
Lemma least_int_undefined :
  kprintf 20 (fun _ => 0) (const (chars "%d"), 0) [VInt (-2147483648)] = Some (KpUndef []).
Proof. vm_compute. reflexivity. Qed.
