(* ===== verification/Klog.v ===== *)
(** * Log lines and the console lock, [src/src/stdio/klog.c], [src/src/stdio/printf.c], [src/src/processor/spinlock.c]

    The prefix of a log line; the lock that keeps the debug messages of several
    processors apart. *)

From stdpp Require Import strings.
From S2P Require Import Prelude Mem CString Printf PrintfProps.

(** ** The prefix of a log line *)

Inductive klog_level_t := KLOG_INFO | KLOG_WARN | KLOG_ERROR | KLOG_DEBUG.

Definition MS_PER_TICK : Z := 10.

(** A round of the loop that takes the digits off. *)
Definition digit_round (st : mem * Z * Z) : (mem * Z) + (mem * Z * Z) :=
  let '(tmp, n, value) := st in
  let tmp := st8 tmp n (48 + value mod 10) in
  let n := n + 1 in
  let value := value / 10 in
  if 0 <? value then inr (tmp, n, value) else inl (tmp, n).

(** A round of the loop that copies them to [out]; the last one writes the NUL. *)
Definition copy_round (tmp : mem) (st : mem * Z * Z) : mem + (mem * Z * Z) :=
  let '(out, i, n) := st in
  if 0 <? n then inr (st8 out i (ld8 tmp (n - 1)), i + 1, n - 1) else inl (st8 out i 0).

(** [tmp0] is what the stack held; a 64-bit value has at most 20 digits. *)
Definition fmt_uint_padded (tmp0 out : mem) (value width pad : Z) : option mem :=
  '(tmp, n) ← wloop 21 digit_round (tmp0, 0, value);
  let '(out, i) := floop (Z.to_nat (width - n)) n (fun _ (st : mem * Z) => (st8 st.1 st.2 pad, st.2 + 1)) (out, 0) in
  wloop 21 (copy_round tmp) (out, i, n).

(** A coloured word: the escape sequences around it. *)
Definition coloured (colour word : string) : list Z :=
  [ESCAPE] ++ chars "[" ++ chars colour ++ chars "m" ++ chars word ++ [ESCAPE] ++ chars "[0m".

Definition level_label (level : klog_level_t) : list Z :=
  match level with
  | KLOG_WARN => coloured "1;33" "WARN "
  | KLOG_ERROR => coloured "1;31" "ERROR"
  | KLOG_DEBUG => coloured "1;35" "DEBUG"
  | KLOG_INFO => coloured "1;36" "INFO "
  end.

Definition klog_format : list Z :=
  [ESCAPE] ++ chars "[1;34m[%s.%s]" ++ [ESCAPE] ++ chars "[0m %s " ++ [ESCAPE] ++ chars "[1m%s" ++ [ESCAPE] ++ chars "[0m: ".

(** [apic_ticks] is the field of [kernel]; [stack] what the uninitialised locals hold. *)
Definition klog (fuel : nat) (stack : mem) (apic_ticks : Z) (level : klog_level_t) (subsystem : mem * Z) : option kpend :=
  let total_ms := u64 (apic_ticks * MS_PER_TICK) in
  secbuf ← fmt_uint_padded stack stack (total_ms / 1000) 5 32;
  msbuf ← fmt_uint_padded stack stack (total_ms mod 1000) 3 48;
  kprintf fuel stack (const klog_format, 0)
    [VStr (secbuf, 0); VStr (msbuf, 0); VStr (const (level_label level), 0); VStr subsystem].

(** ** Fixed messages *)

Definition ok_format : list Z := chars " " ++ coloured "1;32" "OK!" ++ [10].
Definition k_ok (fuel : nat) (stack : mem) : option kpend := kprintf fuel stack (const ok_format, 0) [].

Definition fail_format : list Z := chars " " ++ coloured "1;31" "FAIL!" ++ [10].
Definition k_fail (fuel : nat) (stack : mem) : option kpend := kprintf fuel stack (const fail_format, 0) [].

Definition debug_format : list Z := coloured "1;35" "DEBUG!" ++ chars " %s".

(** [clear] sends its sequence to the terminal as it is. *)
Definition clear : list Z := [ESCAPE] ++ chars "[2J" ++ [ESCAPE] ++ chars "[H".

(** ** The console lock *)

(** [atomic_flag_test_and_set]: the old value and the new flag. *)
Definition test_and_set (flag : bool) : bool * bool := (flag, true).

(** One round of the loop of [spinlock_aquire]: the flag after it and whether the
    loop is left. *)
Definition spinlock_try (flag : bool) : bool * bool :=
  let (old, flag) := test_and_set flag in (flag, negb old).

Definition spinlock_release (flag : bool) : bool := false.

(** [k_debug] on one processor: the flag after it and the two [kprintf] results;
    [None] while the lock is taken. *)
Definition k_debug (fuel : nat) (stack : mem) (flag : bool) (msg : mem * Z) : option (bool * kpend * kpend) :=
  let (flag, got) := spinlock_try flag in
  if negb got then None
  else
    a ← kprintf fuel stack (const debug_format, 0) [VStr msg];
    b ← k_ok fuel stack;
    Some (spinlock_release flag, a, b).

(** A processor inside [k_debug(msg)]: it spins, then writes the message, then the
    "OK!" line, then clears the flag. *)
Inductive phase := Outside | Spinning | Locked | Wrote | Done_.

Record console := Console { flag : bool; cpus : list (phase * list Z); screen : list Z }.

(** What the two [kprintf] calls of [k_debug] send for a message. *)
Definition debug_line (msg : list Z) : list Z := coloured "1;35" "DEBUG!" ++ chars " " ++ msg.

Definition set_cpu (c : console) (i : nat) (p : phase) (msg : list Z) (f : bool) (s : list Z) : console :=
  Console f (<[i := (p, msg)]> (cpus c)) s.

(** Steps of processor [i], interleaved in any order. *)
Inductive kstep (c : console) : console -> Prop :=
| k_enter i old msg :
    cpus c !! i = Some (Outside, old) -> kstep c (set_cpu c i Spinning msg (flag c) (screen c))
| k_try i msg :
    cpus c !! i = Some (Spinning, msg) ->
    kstep c (let (f, got) := spinlock_try (flag c) in
             set_cpu c i (if got then Locked else Spinning) msg f (screen c))
| k_message i msg :
    cpus c !! i = Some (Locked, msg) -> kstep c (set_cpu c i Wrote msg (flag c) (screen c ++ debug_line msg))
| k_ok_line i msg :
    cpus c !! i = Some (Wrote, msg) -> kstep c (set_cpu c i Done_ msg (flag c) (screen c ++ ok_format))
| k_release i msg :
    cpus c !! i = Some (Done_, msg) ->
    kstep c (set_cpu c i Outside msg (spinlock_release (flag c)) (screen c)).

Definition boot_console (n : nat) : console := Console false (replicate n (Outside, [])) [].

(** ** Padded numbers *)

Lemma digit_loop_spec f rounds tmp n v :
  (f < rounds)%nat -> 0 <= v < 10 ^ Z.of_nat (S f) ->
  let ds := digs f (v / 10) ++ [48 + v mod 10] in
  exists tmp',
    wloop rounds digit_round (tmp, n, v) = Some (tmp', n + Z.of_nat (length ds)) /\
    holds tmp' n (reverse ds) /\ (forall x, x < n -> tmp' x = tmp x).
Proof.
  revert rounds tmp n v. induction f as [|f IH]; intros [|rounds] tmp n v Hr Hv; try lia; cbn zeta; cbn [wloop];
    unfold digit_round at 1.
  - change (10 ^ Z.of_nat 1) with 10 in Hv. rewrite Z.div_small by lia. cbn [digs app length Z.ltb Z.compare].
    exists (st8 tmp n (48 + v mod 10)). split_and_all; [done| |].
    + apply holds_one. rewrite ld8_st8_same. apply u8_small. Z.div_mod_to_equations; lia.
    + intros x Hx. apply st8_other. lia.
  - rewrite Nat2Z.inj_succ, Z.pow_succ_r in Hv by lia. cbn [digs]. destruct (0 <? v / 10) eqn:E; bool_to_prop.
    + replace (v / 10 =? 0) with false by lia.
      destruct (IH rounds (st8 tmp n (48 + v mod 10)) (n + 1) (v / 10)) as (t & Hw & Hh & Hx);
        [lia|Z.div_mod_to_equations; lia|].
      exists t. rewrite Hw. set (ds := digs f (v / 10 / 10) ++ _) in *. rewrite length_app. cbn [length].
      split_and_all; [f_equal; f_equal; lia| |intros x Hlt; rewrite Hx by lia; apply st8_other; lia].
      rewrite reverse_snoc. apply holds_cons. split; [|done]. unfold ld8. rewrite Hx, st8_same by lia.
      rewrite u8_idem. apply u8_small. Z.div_mod_to_equations; lia.
    + assert (v / 10 = 0) as -> by (Z.div_mod_to_equations; lia). cbn [Z.eqb app length].
      exists (st8 tmp n (48 + v mod 10)). split_and_all; [done| |intros x Hx; apply st8_other; lia].
      apply holds_one. rewrite ld8_st8_same. apply u8_small. Z.div_mod_to_equations; lia.
Qed.

(** The copy loop turns the digits round again and ends the string. *)
Lemma copy_loop_spec r rounds tmp out i :
  (length r < rounds)%nat -> holds tmp 0 r ->
  exists out',
    wloop rounds (copy_round tmp) (out, i, Z.of_nat (length r)) = Some out' /\
    holds out' i (reverse r) /\ ld8 out' (i + Z.of_nat (length r)) = 0 /\
    (forall x, x < i \/ i + Z.of_nat (length r) < x -> out' x = out x).
Proof.
  revert rounds out i. induction r as [|c r IH] using rev_ind; intros [|rounds] out i Hr Hh; try lia; cbn [wloop];
    unfold copy_round at 1.
  - exists (st8 out i 0). cbn [length]. change (Z.of_nat 0) with 0. rewrite Z.add_0_r.
    split_and_all; [done|apply holds_nil|by rewrite ld8_st8_same|]. intros x Hx. apply st8_other. lia.
  - rewrite length_app in *. cbn [length] in *. replace (0 <? Z.of_nat (length r + 1)) with true
      by (symmetry; apply Z.ltb_lt; lia).
    apply holds_app in Hh as [Hh Hc%holds_one]. rewrite Z.add_0_l in Hc.
    replace (Z.of_nat (length r + 1) - 1) with (Z.of_nat (length r)) by lia. rewrite Hc.
    destruct (IH rounds (st8 out i c) (i + 1)) as (o & Hw & Ho & Hz & Hx); [lia|done|].
    exists o. rewrite Hw. split_and_all; [done| | |].
    + rewrite reverse_snoc. apply holds_cons. split; [|done]. unfold ld8. rewrite Hx, st8_same by lia.
      rewrite u8_idem. apply u8_small. rewrite <- Hc. apply ld8_range.
    + rewrite <- Hz. f_equal. lia.
    + intros x Hlt. rewrite Hx by lia. apply st8_other. lia.
Qed.

(** The padded decimal notation. *)
Definition padded (value width pad : Z) : list Z :=
  replicate (Z.to_nat (width - Z.of_nat (length (dec value)))) pad ++ dec value.

Lemma padded_length value width pad :
  Z.of_nat (length (padded value width pad)) = Z.max width (Z.of_nat (length (dec value))).
Proof. unfold padded. rewrite length_app, length_replicate. lia. Qed.

Lemma fmt_uint_padded_spec tmp0 out value width pad :
  0 <= value < 18446744073709551616 -> 0 < pad < 256 ->
  exists out', fmt_uint_padded tmp0 out value width pad = Some out' /\
    cstr out' 0 (padded value width pad) /\
    (forall x, x < 0 \/ Z.of_nat (length (padded value width pad)) < x -> out' x = out x).
Proof.
  intros Hv Hp. unfold fmt_uint_padded.
  destruct (digit_loop_spec 19 21 tmp0 0 value) as (tmp & -> & Ht & _); [lia|cbn; lia|].
  assert (Hd : digs 19 (value / 10) ++ [48 + value mod 10] = dec value).
  { unfold dec. destruct (value =? 0) eqn:E; bool_to_prop; [by subst|].
    change (digs 20 value) with (if value =? 0 then [] else digs 19 (value / 10) ++ [48 + value mod 10]).
    by replace (value =? 0) with false by lia. }
  rewrite Hd in *. cbn [mbind option_bind]. rewrite Z.add_0_l.
  destruct (dec_spec value Hv) as (_ & Hl & Hf). set (n := Z.of_nat (length (dec value))) in *.
  pose proof (floop_inv (fun k (st : mem * Z) => st.2 = k - n /\
      holds st.1 0 (replicate (Z.to_nat (k - n)) pad) /\ (forall x, x < 0 \/ k - n <= x -> st.1 x = out x))
    (fun _ (st : mem * Z) => (st8 st.1 st.2 pad, st.2 + 1)) (Z.to_nat (width - n)) n (out, 0)) as H.
  destruct (floop _ _ _ _) as [o i]. cbn [fst snd] in H.
  destruct H as (Hi & Ho & Hx).
  { rewrite Z.sub_diag. split_and_all; [done|apply holds_nil|done]. }
  { intros k [o' i'] Hk (Hi' & Ho' & Hx'). cbn [fst snd] in *. split_and_all; [lia| |].
    - replace (Z.to_nat (k + 1 - n)) with (Z.to_nat (k - n) + 1)%nat by lia. rewrite replicate_add.
      replace i' with (0 + Z.of_nat (length (replicate (Z.to_nat (k - n)) pad))) by (rewrite length_replicate; lia).
      apply holds_snoc; [lia|done].
    - intros x Hlt. rewrite st8_other by lia. apply Hx'. lia. }
  replace (n + Z.of_nat (Z.to_nat (width - n)) - n) with (Z.of_nat (Z.to_nat (width - n))) in * by lia.
  rewrite Nat2Z.id in Ho.
  destruct (copy_loop_spec (reverse (dec value)) 21 tmp o i) as (o2 & Hw & Ho2 & Hz & Hx2);
    [rewrite length_reverse; lia|done|].
  rewrite length_reverse in *. fold n in Hw, Hz, Hx2. rewrite Hw. exists o2.
  rewrite reverse_involutive in Ho2. split_and_all; [done| |].
  - apply holds_cstr.
    + unfold padded. fold n. apply holds_app. rewrite length_replicate, Z.add_0_l, <- Hi. split; [|done].
      apply (holds_ext o); [|done]. intros x Hlt. rewrite length_replicate in Hlt. apply Hx2. lia.
    + apply Forall_app. split; [apply Forall_replicate; lia|]. eapply Forall_impl; [exact Hf|]. cbn. lia.
    + unfold padded. fold n. rewrite length_app, length_replicate. rewrite <- Hz. f_equal. lia.
  - intros x Hlt. rewrite padded_length in Hlt. fold n in Hlt. rewrite Hx2, Hx; [done|lia|lia].
Qed.

(** ** The console is one message at a time *)

Definition whole (msg : list Z) : list Z := debug_line msg ++ ok_format.

Definition holding (p : phase) : bool :=
  match p with Locked | Wrote | Done_ => true | Outside | Spinning => false end.

(** What a processor in phase [p] has written of its message. *)
Definition part (p : phase) (msg : list Z) : list Z :=
  match p with Wrote => debug_line msg | Done_ => whole msg | _ => [] end.

Definition only_holder (c : console) (i : nat) : Prop :=
  forall j p msg, cpus c !! j = Some (p, msg) -> holding p = true -> j = i.

Definition console_inv (c : console) : Prop :=
  exists done_msgs : list (list Z),
    (flag c = false /\ (forall j p msg, cpus c !! j = Some (p, msg) -> holding p = false) /\
     screen c = concat (whole <$> done_msgs)) \/
    (flag c = true /\ exists i p msg, cpus c !! i = Some (p, msg) /\ holding p = true /\ only_holder c i /\
       screen c = concat (whole <$> done_msgs) ++ part p msg).

Lemma boot_console_inv n : console_inv (boot_console n).
Proof.
  exists []. left. split_and_all; [done| |done]. intros j p msg H. cbn [boot_console cpus] in H.
  apply lookup_replicate in H as [[= -> ->] _]. done.
Qed.

Lemma set_cpu_lookup c i p msg f s j q m :
  cpus (set_cpu c i p msg f s) !! j = Some (q, m) ->
  (j = i /\ q = p /\ m = msg) \/ (j <> i /\ cpus c !! j = Some (q, m)).
Proof.
  cbn [set_cpu cpus]. intros H. apply list_lookup_insert_Some in H as [(-> & [= -> ->] & _)|[Hne H]]; auto.
Qed.

Lemma set_cpu_here c i p msg f s x :
  cpus c !! i = Some x -> cpus (set_cpu c i p msg f s) !! i = Some (p, msg).
Proof. intros H. cbn [set_cpu cpus]. apply list_lookup_insert_eq. by eapply lookup_lt_Some. Qed.

(** A processor that does not hold the lock moves without taking it. *)
Lemma console_inv_quiet c i p q old msg :
  cpus c !! i = Some (p, old) -> holding p = false -> holding q = false ->
  console_inv c -> console_inv (set_cpu c i q msg (flag c) (screen c)).
Proof.
  intros Hi Hp Hq [ms [(Hf & Hn & Hs)|(Hf & k & r & m & Hk & Hr & Ho & Hs)]]; exists ms.
  - left. split_and_all; [done| |done]. intros j q' m' H.
    apply set_cpu_lookup in H as [(-> & -> & ->)|[_ H]]; [done|by eapply Hn].
  - right. split; [done|]. assert (Hne : k <> i) by (intros ->; rewrite Hi in Hk; injection Hk as -> ->; congruence).
    exists k, r, m. cbn [set_cpu cpus]. rewrite list_lookup_insert_ne by done. split_and_all; [done|done| |done].
    intros j q' m' H Hh. apply set_cpu_lookup in H as [(-> & -> & ->)|[_ H]]; [congruence|by eapply Ho].
Qed.

(** The holder moves on; nobody else can be the holder. *)
Lemma console_inv_holder c i p msg :
  cpus c !! i = Some (p, msg) -> holding p = true -> console_inv c ->
  flag c = true /\ only_holder c i /\ exists ms, screen c = concat (whole <$> ms) ++ part p msg.
Proof.
  intros Hi Hp [ms [(Hf & Hn & Hs)|(Hf & k & r & m & Hk & Hr & Ho & Hs)]].
  - rewrite (Hn _ _ _ Hi) in Hp. done.
  - assert (i = k) as <- by by eapply Ho. rewrite Hi in Hk. injection Hk as <- <-. eauto.
Qed.

Lemma console_inv_step c c' : kstep c c' -> console_inv c -> console_inv c'.
Proof.
  intros Hs Hc. destruct Hs as [i old msg Hi|i msg Hi|i msg Hi|i msg Hi|i msg Hi].
  - by eapply console_inv_quiet.
  - cbn [spinlock_try test_and_set]. destruct (flag c) eqn:Ef; cbn [negb].
    + rewrite <- Ef. by eapply console_inv_quiet.
    + destruct Hc as [ms [(_ & Hn & Hs)|(Hf & _)]]; [|congruence]. exists ms. right. split; [done|].
      exists i, Locked, msg. split_and_all; [by eapply set_cpu_here|done| |by rewrite app_nil_r].
      intros j q m H Hh. apply set_cpu_lookup in H as [(-> & _)|[_ H]]; [done|]. by rewrite (Hn _ _ _ H) in Hh.
  - destruct (console_inv_holder c i Locked msg Hi eq_refl Hc) as (Hf & Ho & ms & Hs). exists ms. right. split; [done|].
    exists i, Wrote, msg. split_and_all; [by eapply set_cpu_here|done| |].
    + intros j q m H Hh. apply set_cpu_lookup in H as [(-> & _)|[_ H]]; [done|by eapply Ho].
    + cbn [set_cpu screen part]. rewrite Hs. cbn [part]. by rewrite app_nil_r.
  - destruct (console_inv_holder c i Wrote msg Hi eq_refl Hc) as (Hf & Ho & ms & Hs). exists ms. right. split; [done|].
    exists i, Done_, msg. split_and_all; [by eapply set_cpu_here|done| |].
    + intros j q m H Hh. apply set_cpu_lookup in H as [(-> & _)|[_ H]]; [done|by eapply Ho].
    + cbn [set_cpu screen part]. rewrite Hs. cbn [part]. unfold whole. by rewrite <- app_assoc.
  - destruct (console_inv_holder c i Done_ msg Hi eq_refl Hc) as (Hf & Ho & ms & Hs). exists (ms ++ [msg]). left.
    split_and_all; [done| |].
    + intros j q m H. apply set_cpu_lookup in H as [(-> & -> & ->)|[Hne H]]; [done|].
      destruct (holding q) eqn:Eh; [|done]. by specialize (Ho _ _ _ H Eh).
    + cbn [set_cpu screen]. rewrite Hs, fmap_app, concat_app. cbn. by rewrite app_nil_r.
Qed.

Lemma console_inv_reach c c' : rtc kstep c c' -> console_inv c -> console_inv c'.
Proof. induction 1 as [|c c1 c2 H1 _ IH]; [done|]. intros H. apply IH. by eapply console_inv_step. Qed.

(** ** Properties *)

(** On any number of processors and in any interleaving, at most one is between
    the acquisition and the release of the console lock, and the console shows whole
    debug messages, one after the other, followed only by the part the holder has
    written so far. *)
Theorem debug_messages_never_interleave (n : nat) (c : console) :
  rtc kstep (boot_console n) c ->
  (forall i j p q m m', cpus c !! i = Some (p, m) -> cpus c !! j = Some (q, m') ->
     holding p = true -> holding q = true -> i = j) /\
  exists msgs tail, screen c = concat (whole <$> msgs) ++ tail /\
    (tail = [] \/ exists i p m, cpus c !! i = Some (p, m) /\ holding p = true /\ tail = part p m).
Proof.
  intros H. destruct (console_inv_reach _ _ H (boot_console_inv n))
    as [ms [(Hf & Hn & Hs)|(Hf & k & r & m & Hk & Hr & Ho & Hs)]]; split.
  - intros i j p q m m' Hi _ Hp. rewrite (Hn _ _ _ Hi) in Hp. done.
  - exists ms, []. rewrite app_nil_r. auto.
  - intros i j p q m1 m2 Hi Hj Hp Hq. transitivity k; [by eapply Ho|symmetry; by eapply Ho].
  - exists ms, (part r m). split; [done|]. right. eauto 10.
Qed.

Lemma debug_messages_never_interleave_witness :
  exists c, rtc kstep (boot_console 2) c /\ screen c = debug_line (chars "a") /\
    (exists msgs tail, screen c = concat (whole <$> msgs) ++ tail /\
      (tail = [] \/ exists i p m, cpus c !! i = Some (p, m) /\ holding p = true /\ tail = part p m)).
Proof.
  set (c := Console true [(Wrote, chars "a"); (Spinning, chars "b")] (debug_line (chars "a"))).
  assert (H : rtc kstep (boot_console 2) c).
  { eapply rtc_l; [apply (k_enter _ 0 [] (chars "a")); reflexivity|].
    eapply rtc_l; [apply (k_enter _ 1 [] (chars "b")); reflexivity|].
    eapply rtc_l; [apply (k_try _ 0 (chars "a")); reflexivity|].
    eapply rtc_l; [apply (k_try _ 1 (chars "b")); reflexivity|].
    eapply rtc_l; [apply (k_message _ 0 (chars "a")); reflexivity|]. apply rtc_refl. }
  exists c. split; [exact H|]. split; [reflexivity|]. exact (proj2 (debug_messages_never_interleave 2 c H)).
Defined.

(** The four strings [klog] passes are rendered between the fixed parts. *)
Definition klog_items : list item :=
  [Esc (chars "1;34"); Lit 91; Str; Lit 46; Str; Lit 93; Esc (chars "0"); Lit 32; Str; Lit 32;
   Esc (chars "1"); Str; Esc (chars "0"); Lit 58; Lit 32].

Definition klog_line (sec ms label subsystem : list Z) : list Z :=
  [ESCAPE] ++ chars "[1;34m[" ++ sec ++ chars "." ++ ms ++ chars "]" ++ [ESCAPE] ++ chars "[0m " ++ label ++ chars " "
  ++ [ESCAPE] ++ chars "[1m" ++ subsystem ++ [ESCAPE] ++ chars "[0m: ".

Lemma klog_items_render N m1 a1 l1 m2 a2 l2 m3 a3 l3 m4 a4 l4 :
  cstr m1 a1 l1 -> cstr m2 a2 l2 -> cstr m3 a3 l3 -> cstr m4 a4 l4 ->
  (length l1 < N)%nat -> (length l2 < N)%nat -> (length l3 < N)%nat -> (length l4 < N)%nat ->
  renders N klog_items [VStr (m1, a1); VStr (m2, a2); VStr (m3, a3); VStr (m4, a4)] (klog_line l1 l2 l3 l4).
Proof.
  intros. unfold klog_items.
  apply (render_esc N (chars "1;34") _ _ ([91] ++ l1 ++ _)); constructor; apply render_str; [done|done|].
  constructor. apply render_str; [done|done|]. constructor. apply (render_esc N (chars "0") _ _ ([32] ++ l3 ++ _)).
  constructor. apply render_str; [done|done|]. constructor. apply (render_esc N (chars "1") _ _ (l4 ++ _)).
  apply render_str; [done|done|]. apply (render_esc N (chars "0") _ _ (chars ": ")). repeat constructor.
Qed.

Lemma klog_line_length l1 l2 l3 l4 :
  length (klog_line l1 l2 l3 l4) = (length l1 + length l2 + length l3 + length l4 + 26)%nat.
Proof. unfold klog_line. rewrite !length_app. cbn. lia. Qed.

Lemma level_label_length l : (length (level_label l) = 16)%nat.
Proof. by destruct l. Qed.

Lemma klog_ok (fuel : nat) (stack : mem) (apic_ticks : Z) (level : klog_level_t) (m : mem) (a : Z) (name : list Z) :
  cstr m a name -> (length name < fuel)%nat -> (80 <= fuel)%nat -> Z.of_nat (length name) <= 1000 ->
  let ms := u64 (apic_ticks * 10) in
  let line := klog_line (padded (ms / 1000) 5 32) (padded (ms mod 1000) 3 48) (level_label level) name in
  klog fuel stack apic_ticks level (m, a) = Some (KpRet line (Z.of_nat (length line))) /\
  (length (padded (ms / 1000) 5 32) < 20)%nat /\ (length (padded (ms mod 1000) 3 48) < 8)%nat.
Proof.
  intros Hc Hn Hf Hl ms line. pose proof (u64_range (apic_ticks * 10)) as Hr. fold ms in Hr.
  assert (L1 : (length (padded (ms / 1000) 5 32) < 20)%nat).
  { apply Nat2Z.inj_lt. rewrite padded_length. unfold dec. case_if; [cbn; lia|].
    rewrite (digs_fuel 17 20) by (try lia; cbn; Z.div_mod_to_equations; lia).
    destruct (digs_spec 17 (ms / 1000)) as (_ & Hd & _); [cbn; Z.div_mod_to_equations; lia|]. lia. }
  assert (L2 : (length (padded (ms mod 1000) 3 48) < 8)%nat).
  { apply Nat2Z.inj_lt. rewrite padded_length. unfold dec. case_if; [cbn; lia|].
    rewrite (digs_fuel 3 20) by (try lia; cbn; Z.div_mod_to_equations; lia).
    destruct (digs_spec 3 (ms mod 1000)) as (_ & Hd & _); [cbn; Z.div_mod_to_equations; lia|]. lia. }
  split; [|done]. unfold klog, MS_PER_TICK. fold ms.
  destruct (fmt_uint_padded_spec stack stack (ms / 1000) 5 32) as (sb & -> & Hsb & _); [Z.div_mod_to_equations; lia|lia|].
  destruct (fmt_uint_padded_spec stack stack (ms mod 1000) 3 48) as (mb & Hmb' & Hmb & _); [Z.div_mod_to_equations; lia|lia|].
  cbn [mbind option_bind]. rewrite Hmb'. cbn [mbind option_bind].
  apply (kprintf_ok fuel fuel stack (const klog_format) 0 klog_items).
  - apply (cstr_const klog_format). repeat constructor.
  - repeat constructor; discriminate.
  - apply klog_items_render; [done|done| |done|lia|lia|rewrite level_label_length; lia|done].
    apply cstr_const. destruct level; repeat constructor.
  - unfold line. rewrite klog_line_length, level_label_length. lia.
  - assert (length (text klog_items) = 34)%nat as -> by reflexivity. lia.
  - lia.
Qed.

(** A log line starts with the time since boot and the level.  For any tick count,
    level and subsystem name, [klog] returns and prints
    "[sec.ms] LEVEL subsystem: " with the terminal colours, the seconds padded with
    blanks to 5 and the milliseconds with zeros to 3 digits; [secbuf] and [msbuf] are
    filled within their 20 and 8 bytes. *)
Theorem klog_prints_prefix (fuel : nat) (stack : mem) (apic_ticks : Z) (level : klog_level_t) (m : mem) (a : Z) (name : list Z) :
  cstr m a name -> (length name < fuel)%nat -> (80 <= fuel)%nat -> Z.of_nat (length name) <= 1000 ->
  let ms := u64 (apic_ticks * 10) in
  let line := klog_line (padded (ms / 1000) 5 32) (padded (ms mod 1000) 3 48) (level_label level) name in
  klog fuel stack apic_ticks level (m, a) = Some (KpRet line (Z.of_nat (length line))) /\
  (length (padded (ms / 1000) 5 32) < 20)%nat /\ (length (padded (ms mod 1000) 3 48) < 8)%nat.
Proof. apply klog_ok. Qed.

Lemma klog_prints_prefix_witness :
  klog 80 (fun _ => 3) 123456 KLOG_WARN (const (chars "nvme"), 0)
  = Some (KpRet (klog_line (chars " 1234") (chars "560") (coloured "1;33" "WARN ") (chars "nvme")) 54).
Proof.
  exact (proj1 (klog_prints_prefix 80 (fun _ => 3) 123456 KLOG_WARN (const (chars "nvme")) 0 (chars "nvme")
    (cstr_const (chars "nvme") ltac:(repeat constructor)) ltac:(apply Nat.ltb_lt; reflexivity) ltac:(lia)
    ltac:(vm_compute; discriminate))).
Defined.

(** One processor alone: [k_debug] writes one whole message and leaves the lock free. *)
Lemma k_debug_writes_whole (fuel : nat) (stack m : mem) (a : Z) (msg : list Z) :
  cstr m a msg -> (length msg < fuel)%nat -> (40 <= fuel)%nat -> Z.of_nat (length msg) <= 1000 ->
  exists r1 r2, k_debug fuel stack false (m, a) = Some (false, KpRet (debug_line msg) r1, KpRet ok_format r2).
Proof.
  intros Hc Hl Hf Hm. unfold k_debug, k_ok. cbn [spinlock_try test_and_set negb].
  rewrite (kprintf_ok fuel fuel stack (const debug_format) 0
    [Esc (chars "1;35"); Lit 68; Lit 69; Lit 66; Lit 85; Lit 71; Lit 33; Esc (chars "0"); Lit 32; Str] _ (debug_line msg)).
  - cbn [mbind option_bind].
    rewrite (kprintf_ok fuel fuel stack (const ok_format) 0
      [Lit 32; Esc (chars "1;32"); Lit 79; Lit 75; Lit 33; Esc (chars "0"); Lit 10] [] ok_format).
    + eauto.
    + apply (cstr_const ok_format). repeat constructor.
    + repeat constructor; discriminate.
    + constructor. apply (render_esc fuel (chars "1;32") _ _ (chars "OK!" ++ _)). do 3 constructor.
      apply (render_esc fuel (chars "0") _ _ [10]). repeat constructor.
    + vm_compute. discriminate.
    + assert (length (text [Lit 32; Esc (chars "1;32"); Lit 79; Lit 75; Lit 33; Esc (chars "0"); Lit 10]) = 16)%nat as -> by reflexivity. lia.
    + lia.
  - apply (cstr_const debug_format). repeat constructor.
  - repeat constructor; discriminate.
  - rewrite <- (app_nil_r msg) at 1. apply (render_esc fuel (chars "1;35") _ _ (chars "DEBUG!" ++ _)). do 6 constructor.
    apply (render_esc fuel (chars "0") _ _ ([32] ++ msg ++ [])). constructor. apply render_str; [done|done|constructor].
  - unfold debug_line. rewrite !length_app. cbn. lia.
  - assert (length (text [Esc (chars "1;35"); Lit 68; Lit 69; Lit 66; Lit 85; Lit 71; Lit 33; Esc (chars "0"); Lit 32; Str]) = 20)%nat as -> by reflexivity. lia.
  - lia.
Qed.
