(* ===== verification/Disk.v ===== *)
(** * Disks and partitions, [src/src/drivers/x86/disk.c], [gpt.h], [mbr.h]

    How a new disk is probed and its ext2 partitions mounted.  Neither the page
    allocator's failure nor, for MBR partitions, the heap's is handled by the code;
    the model answers with the outcome that names what goes wrong. *)

From stdpp Require Import strings.
From S2P Require Import Prelude Mem Layout CString Printf Block Ext2.

(** [NoPage]: [pmm_alloc_page] failed and physical page 0 is used as a buffer.
    [NullObject]: [kmalloc] failed and NULL is used as an object.  [Stuck]: an
    operation of [Ext2] does not return. *)
Inductive outcome (A : Type) := Ret (a : A) | NoPage | NullObject | Stuck.
Arguments Ret {A}.
Arguments NoPage {A}.
Arguments NullObject {A}.
Arguments Stuck {A}.

#[export] Instance outcome_bind : MBind outcome := fun A B f o =>
  match o with Ret a => f a | NoPage => NoPage | NullObject => NullObject | Stuck => Stuck end.

Definition returns {A} (o : option A) : outcome A := match o with Some a => Ret a | None => Stuck end.

Inductive partition_style := PARTITION_ERR | PARTITION_MBR | PARTITION_GPT | PARTITION_RAW.

Definition disk_type_to_str (t : partition_style) : list Z :=
  match t with
  | PARTITION_ERR => chars "Unknown"
  | PARTITION_MBR => chars "MBR"
  | PARTITION_GPT => chars "GPT"
  | PARTITION_RAW => chars "Raw"
  end.

Definition GPT_SIGNATURE : list Z := chars "EFI PART".

Definition linux_fs_signature : list Z := [175; 61; 198; 15; 131; 132; 114; 71; 142; 121; 61; 105; 216; 71; 125; 228].

Definition gpt_lba1 : layout :=
  [("signature", 8); ("revision", 4); ("size", 4); ("crc32", 4); ("reserved", 4); ("current_lba", 8);
   ("other_lba", 8); ("first_usable", 8); ("last_usable", 8); ("guid", 16); ("partition_lba", 8);
   ("count_partitions", 4); ("size_of_partition", 4)].

Definition gpt_partition_entry : layout :=
  [("guid", 16); ("unique_guid", 16); ("start_lba", 8); ("end_lba", 8); ("attributes", 8); ("name", 72)].

Definition mbr_partition : layout :=
  [("drive_status", 1); ("chs_start", 3); ("partition_type", 1); ("chs_end", 3); ("lba_start", 4); ("sector_count", 4)].

Definition mbr_sector : layout :=
  [("bootstrap", 446); ("partitions", 4 * size_of mbr_partition); ("signature", 2)].

Definition gpt_count_partitions (lba1 : mem) : Z := ld32 lba1 80.
Definition GPT_ENTRY_SIZE : Z := 128.
Definition gpt_start_lba (m : mem) (entry : Z) : Z := ld64 m (entry + 32).

Definition mbr_partition_type (m : mem) (mbr i : Z) : Z := ld8 m (mbr + 446 + 16 * i + 4).
Definition mbr_lba_start (m : mem) (mbr i : Z) : Z := ld32 m (mbr + 446 + 16 * i + 8).

Lemma tables_agree :
  (size_of gpt_partition_entry, size_of mbr_partition, size_of mbr_sector) = (GPT_ENTRY_SIZE, 16, 512) /\
  offset_of gpt_lba1 "count_partitions" = Some 80 /\ offset_of gpt_partition_entry "start_lba" = Some 32 /\
  offset_of mbr_sector "partitions" = Some 446 /\ offset_of mbr_partition "partition_type" = Some 4 /\
  offset_of mbr_partition "lba_start" = Some 8.
Proof. repeat split. Qed.

Definition mbr_to_str (type : Z) : list Z :=
  if type =? 131 then chars "linux" else if type =? 11 then chars "fat32" else chars "unknown".

(** [sizeof(struct ext2_partition)] *)
Definition PARTITION_SIZE : Z := 432.

(** The kernel's list of mounted partitions, with the object each one lies in. *)
Record disks (K D : Type) := Disks {
  dw : world K D;
  ext2_partitions : list (Z * ext2_partition);
  root_fs : Z }.
Arguments Disks {K D}.
Arguments dw {K D}.
Arguments ext2_partitions {K D}.
Arguments root_fs {K D}.

Section ops.
Context {hhdm : Z} {K D : Type} `{KM : KernelMem hhdm K} `{DD : DiskDev D}.

Definition with_world (s : disks K D) (w : world K D) : disks K D := Disks w (ext2_partitions s) (root_fs s).

(** [pmm_alloc_page(4096)] and the buffer in it. *)
Definition new_page (s : disks K D) : outcome (disks K D * Z) :=
  '(k, phys) ← returns (page_alloc (wk (dw s)));
  if phys =? 0 then NoPage else Ret (with_world s (World k (wm (dw s)) (wd (dw s))), phys).

Definition free_page (s : disks K D) (phys : Z) : outcome (disks K D) :=
  k ← returns (page_free (wk (dw s)) phys);
  Ret (with_world s (World k (wm (dw s)) (wd (dw s)))).

Definition sread (s : disks K D) (buf lba n : Z) : bool * disks K D :=
  let (ok, w) := dread (dw s) buf lba n in (ok, with_world s w).

Definition determine_disk_type (s : disks K D) : outcome (partition_style * disks K D) :=
  '(s, phys) ← new_page s;
  let buffer := hhdm + phys in
  let (ok, s) := sread s buffer 1 1 in
  if negb ok then s ← free_page s phys; Ret (PARTITION_ERR, s)
  else if memcmp2 (wm (dw s)) buffer (const GPT_SIGNATURE) 0 8 =? 0 then s ← free_page s phys; Ret (PARTITION_GPT, s)
  else
    let (mbr_ok, s) := sread s buffer 0 1 in
    if mbr_ok && (ld8 (wm (dw s)) (buffer + 510) =? 85) && (ld8 (wm (dw s)) (buffer + 511) =? 170)
    then s ← free_page s phys; Ret (PARTITION_MBR, s)
    else s ← free_page s phys; Ret (PARTITION_ERR, s).

Definition disk_selftest (s : disks K D) : outcome (bool * disks K D) :=
  '(s, phys) ← new_page s;
  let (ok, s) := sread s (hhdm + phys) 0 1 in
  s ← free_page s phys; Ret (ok, s).

(** Mount what lies at [start] into the object [fs]; [kfree] it when that fails. *)
Definition mount_at (s : disks K D) (fs start : Z) : outcome (disks K D) :=
  '(o, w) ← returns (ext2_init (dw s) (Z.of_nat (length (ext2_partitions s))) start);
  match o with
  | Some p => Ret (Disks w (ext2_partitions s ++ [(fs, p)]) (if root_fs s =? 0 then fs else root_fs s))
  | None =>
      k ← returns (heap_free (wk w) fs);
      Ret (with_world s (World k (wm w) (wd w)))
  end.

(** The probe both functions below begin with: is there an ext2 superblock? *)
Definition probe_ext2 (s : disks K D) (start : Z) : outcome (option bool * disks K D) :=
  b ← returns (bytes_to_blocks 1024 1024 (lba_size (wd (dw s))));
  '(s, phys) ← new_page s;
  let buffer := hhdm + phys in
  let (ok, s) := sread s buffer (u64 (start + res_lba b)) (size_in_blocks b) in
  if negb ok then s ← free_page s phys; Ret (None, s)
  else
    let is_ext2 := ld16 (wm (dw s)) (buffer + res_offset b + 56) =? EXT2_MAGIC in
    s ← free_page s phys; Ret (Some is_ext2, s).

Definition disk_try_linux (s : disks K D) : outcome (bool * disks K D) :=
  '(r, s) ← probe_ext2 s 0;
  match r with
  | None => Ret (false, s)
  | Some false => Ret (false, s)
  | Some true =>
      '(k, fs) ← returns (heap_alloc (wk (dw s)) PARTITION_SIZE);
      let s := with_world s (World k (wm (dw s)) (wd (dw s))) in
      if fs =? 0 then Ret (false, s)
      else s ← mount_at s fs 0; Ret (true, s)
  end.

Definition disk_do_mbr_linux (s : disks K D) (start : Z) : outcome (bool * disks K D) :=
  '(r, s) ← probe_ext2 s start;
  match r with
  | None => Ret (false, s)
  | Some false => Ret (false, s)
  | Some true =>
      '(k, fs) ← returns (heap_alloc (wk (dw s)) PARTITION_SIZE);
      let s := with_world s (World k (wm (dw s)) (wd (dw s))) in
      if fs =? 0 then NullObject
      else s ← mount_at s fs start; Ret (true, s)
  end.

(** The loop over [part_table]; entries are read from the buffer. *)
Fixpoint gpt_loop (n : nat) (s : disks K D) (part_table i : Z) : outcome (disks K D) :=
  match n with
  | O => Ret s
  | S n' =>
      let entry := part_table + i * GPT_ENTRY_SIZE in
      let m := wm (dw s) in
      if memcmp2 m entry (const (replicate 16 0)) 0 16 =? 0 then gpt_loop n' s part_table (i + 1)
      else if memcmp2 m entry (const linux_fs_signature) 0 16 =? 0 then
        '(_, s) ← disk_do_mbr_linux s (gpt_start_lba m entry);
        gpt_loop n' s part_table (i + 1)
      else gpt_loop n' s part_table (i + 1)
  end.

(** The header [lba1] is a local that stays zero. *)
Definition disk_gpt (s : disks K D) : outcome (disks K D) :=
  '(s, phys) ← new_page s;
  let buffer := hhdm + phys in
  let lba1 : mem := fun _ => 0 in
  let (_, s) := sread s buffer 1 1 in
  s ← gpt_loop (Z.to_nat (gpt_count_partitions lba1)) s buffer 0;
  free_page s phys.

Fixpoint mbr_loop (n : nat) (s : disks K D) (mbr i : Z) : outcome (disks K D) :=
  match n with
  | O => Ret s
  | S n' =>
      let m := wm (dw s) in
      if negb (mbr_partition_type m mbr i =? 0) && (mbr_partition_type m mbr i =? 131) then
        '(_, s) ← disk_do_mbr_linux s (mbr_lba_start m mbr i);
        mbr_loop n' s mbr (i + 1)
      else mbr_loop n' s mbr (i + 1)
  end.

Definition disk_mbr (s : disks K D) : outcome (disks K D) :=
  '(s, phys) ← new_page s;
  let buffer := hhdm + phys in
  let (_, s) := sread s buffer 0 1 in
  s ← mbr_loop 4 s buffer 0;
  free_page s phys.

Definition init_disk (s : disks K D) : outcome (disks K D) :=
  '(ok, s) ← disk_selftest s;
  if negb ok then Ret s
  else
    '(style, s) ← determine_disk_type s;
    match style with
    | PARTITION_MBR => disk_mbr s
    | PARTITION_GPT => disk_gpt s
    | _ => '(_, s) ← disk_try_linux s; Ret s
    end.

End ops.
