(* ===== verification/DiskProps.v ===== *)
(** * Probing a disk: what is mounted and what is given back

    First what every step keeps, unless memory runs out; then, with enough memory and a disk that
    can be read, that what can be mounted is. *)

From stdpp Require Import strings.
From S2P Require Import Prelude Mem CString Printf Block Ext2 Ext2Props Ext2Mount Disk.

(** [memcmp2] says whether the bytes agree. *)
Lemma memcmp2_zero ma a mb b n : 0 <= n -> (memcmp2 ma a mb b n =? 0) = true <-> forall i, 0 <= i < n -> ld8 ma (a + i) = ld8 mb (b + i).
Proof.
  intros Hn. unfold memcmp2. set (f := fun i (_ : unit) => _). remember (Z.to_nat n) as k eqn:Ek. assert (n = Z.of_nat k) as -> by lia. clear Ek Hn.
  enough (H : forall lo, (match ploop k lo f tt with inl r => r | inr _ => 0 end =? 0) = true <-> forall i, lo <= i < lo + Z.of_nat k -> ld8 ma (a + i) = ld8 mb (b + i))
    by (rewrite H; done).
  induction k as [|k IH]; intros lo; cbn [ploop].
  - split; [intros _ i; lia|done].
  - unfold f at 1. destruct (Z.ltb_spec (ld8 ma (a + lo)) (ld8 mb (b + lo))); [split; [done|intros H0; specialize (H0 lo ltac:(lia)); lia]|].
    destruct (Z.ltb_spec (ld8 mb (b + lo)) (ld8 ma (a + lo))); [split; [done|intros H1; specialize (H1 lo ltac:(lia)); lia]|].
    rewrite IH. split; intros H1 i Hi; [|apply H1; lia]. destruct (decide (i = lo)) as [->|]; [lia|]. apply H1. lia.
Qed.

Section probe.
Context {hhdm : Z} {K D : Type} {KM : KernelMem hhdm K} {DD : DiskDev D}.
Implicit Types (s : disks K D) (R : list (Z * Z)).

(** What a mounted partition owns: its object, its descriptor table, its I/O page. *)
Definition part_regions (e : Z * ext2_partition) : list (Z * Z) :=
  [(e.1, PARTITION_SIZE); (groups e.2, table_size e.2); (io_buf e.2, 4096)].

Definition part_ok (lba : Z) (e : Z * ext2_partition) : Prop :=
  e.1 <> 0 /\ geometry e.2 lba /\ lock e.2 = false /\ 0 < groups e.2 /\ s_magic (sb e.2) = EXT2_MAGIC.

(** The invariant of the kernel's partition list: the partitions are usable, and the
    memory held is theirs and [R]. *)
Record usable s R : Prop := {
  us_held : held (wk (dw s)) (concat (part_regions <$> ext2_partitions s) ++ R);
  us_parts : Forall (part_ok (lba_size (wd (dw s)))) (ext2_partitions s);
  us_sector : sector_size (lba_size (wd (dw s)));
  us_count : (length (ext2_partitions s) <= 8)%nat }.

(** No superblock on the medium, at whatever sector one is looked for, has a descriptor table of
    [limit] bytes or more. *)
Definition tables_below (limit : Z) s : Prop := forall start, sb_groups (disk_sb (dw s) (fresh_partition start)) * 32 < limit.

(** Both, for tables whose size [ext2_read_group_descs] computes without wrapping around. *)
Record dinv s R : Prop := {
  di_held : held (wk (dw s)) (concat (part_regions <$> ext2_partitions s) ++ R);
  di_parts : Forall (part_ok (lba_size (wd (dw s)))) (ext2_partitions s);
  di_sector : sector_size (lba_size (wd (dw s)));
  di_count : (length (ext2_partitions s) <= 8)%nat;
  di_groups : tables_below (2 ^ 31) s }.

Lemma dinv_usable s R : dinv s R -> usable s R.
Proof. intros [? ? ? ? _]. by constructor. Qed.

(** [s'] comes from [s] by mounting the partitions [new]. *)
Record grows s s' R (new : list (Z * ext2_partition)) : Prop := {
  gr_disk : same_disk (wd (dw s)) (wd (dw s'));
  gr_mem : keeps R (wm (dw s)) (wm (dw s'));
  gr_parts : ext2_partitions s' = ext2_partitions s ++ new }.

Lemma grows_refl s R : grows s s R [].
Proof. constructor; [apply same_disk_refl|apply keeps_refl|by rewrite app_nil_r]. Qed.

Lemma grows_trans s1 s2 s3 R n1 n2 : grows s1 s2 R n1 -> grows s2 s3 R n2 -> grows s1 s3 R (n1 ++ n2).
Proof.
  intros [A2 A3 A4] [B2 B3 B4]. constructor; [by eapply same_disk_trans|by eapply keeps_trans|].
  by rewrite B4, A4, app_assoc.
Qed.

Lemma grows_sub s s' r R n : grows s s' (r :: R) n -> grows s s' R n.
Proof. intros [A2 A3 A4]. constructor; [done|by eapply keeps_sub|done]. Qed.

(** A result is in [P], or the code has run out of memory; it is never stuck. *)
Definition unless_exhausted {A} (o : outcome A) (P : A -> Prop) : Prop :=
  match o with Ret a => P a | NoPage | NullObject => True | Stuck => False end.

Lemma ue_bind {A B} (o : outcome A) (f : A -> outcome B) (P : A -> Prop) (Q : B -> Prop) :
  unless_exhausted o P -> (forall a, P a -> unless_exhausted (f a) Q) -> unless_exhausted (o ≫= f) Q.
Proof. destruct o; cbn; auto. Qed.

Lemma ue_mono {A} (o : outcome A) (P Q : A -> Prop) : unless_exhausted o P -> (forall a, P a -> Q a) -> unless_exhausted o Q.
Proof. destruct o; cbn; auto. Qed.

Lemma disk_sb_same (w w' : world K D) fs x : same_disk (wd w) (wd w') -> disk_sb w' fs x = disk_sb w fs x.
Proof. intros [H1 H2]. unfold disk_sb, part_at. by rewrite H1, H2. Qed.

(** Changing memory and allocator keeps the invariant when the regions fit. *)
Lemma dinv_world s w R R' :
  dinv s R -> same_disk (wd (dw s)) (wd w) ->
  held (wk w) (concat (part_regions <$> ext2_partitions s) ++ R') -> dinv (with_world s w) R'.
Proof.
  intros [H1 H2 H3 H4 H5] Hs Hk. constructor; cbn [with_world dw ext2_partitions].
  - done.
  - by rewrite (proj1 Hs).
  - by rewrite (proj1 Hs).
  - done.
  - intros start. rewrite (sb_groups_ext (disk_sb (dw s) (fresh_partition start))); [apply H5|].
    intros x. by apply disk_sb_same.
Qed.

Lemma new_page_ok s R :
  dinv s R -> unless_exhausted (new_page s) (fun r => dinv r.1 ((hhdm + r.2, 4096) :: R) /\ grows s r.1 R []).
Proof.
  intros Hi. unfold new_page. destruct (page_alloc_ok (wk (dw s)) _ (di_held _ _ Hi)) as (k & a & -> & H).
  cbn [returns mbind outcome_bind]. destruct (a =? 0) eqn:E; [done|]. bool_to_prop. cbn [unless_exhausted fst snd].
  destruct H as [[-> _]|[_ H]]; [done|]. split; [|constructor; [done|by intros r x|cbn; by rewrite app_nil_r]].
  eapply dinv_world; [exact Hi|done|]. eapply held_perm; [|exact H]. by rewrite <- Permutation_middle.
Qed.

Lemma free_page_ok s phys R :
  dinv s ((hhdm + phys, 4096) :: R) -> unless_exhausted (free_page s phys) (fun s' => dinv s' R /\ grows s s' R []).
Proof.
  intros Hi. unfold free_page. pose proof (di_held _ _ Hi) as Hk.
  apply (held_perm _ _ ((hhdm + phys, 4096) :: concat (part_regions <$> ext2_partitions s) ++ R)) in Hk;
    [|by rewrite <- Permutation_middle].
  destruct (page_free_ok _ _ _ Hk) as (k & -> & Hk'). cbn [returns mbind outcome_bind unless_exhausted].
  split; [|constructor; [done|by intros r x|cbn; by rewrite app_nil_r]]. by eapply dinv_world.
Qed.

(** A read of at most a page into a page. *)
Lemma sread_ok s buf lba n R ok s' :
  dinv s ((buf, 4096) :: R) -> n * lba_size (wd (dw s)) <= 4096 -> sread s buf lba n = (ok, s') ->
  dinv s' ((buf, 4096) :: R) /\ grows s s' R [] /\
  (ok = true -> forall i, 0 <= i < n * lba_size (wd (dw s)) ->
     wm (dw s') (buf + i) = disk_byte (wd (dw s)) (lba * lba_size (wd (dw s)) + i)) /\
  (reads_succeed (D := D) -> ok = true).
Proof.
  intros Hi Hn. unfold sread. destruct (dread (dw s) buf lba n) as [ok' w'] eqn:E. intros [= <- <-].
  destruct (dread_spec _ _ _ _ _ _ E) as (Ho & Hc & Hs).
  assert (Ho' : only_buffer (dw s) w' buf 4096) by by eapply only_buffer_weaken.
  pose proof (di_held _ _ Hi) as Hk. split_and_all; [| |done|done].
  - eapply dinv_world; [exact Hi|apply Ho|]. by rewrite (ob_k _ _ _ _ Ho).
  - constructor; [apply Ho| |cbn; by rewrite app_nil_r].
    apply (held_perm _ _ ((buf, 4096) :: concat (part_regions <$> ext2_partitions s) ++ R)) in Hk;
      [|by rewrite <- Permutation_middle].
    pose proof (only_buffer_keeps _ _ _ _ _ _ Hk Ho') as Hkp. intros r x Hr. apply Hkp. apply elem_of_app. by right.
Qed.

Lemma sector_le s R : dinv s R -> 1 * lba_size (wd (dw s)) <= 4096.
Proof. intros Hi. pose proof (di_sector _ _ Hi) as H. unfold sector_size in H. lia. Qed.

Lemma grows_disk s s' R n : grows s s' R n -> same_disk (wd (dw s)) (wd (dw s')).
Proof. by intros [H _ _]. Qed.

(** After work in a page, the page is given back. *)
Lemma free_after {A} s s' phys (v : A) R :
  dinv s' ((hhdm + phys, 4096) :: R) -> grows s s' R [] ->
  unless_exhausted (s' ← free_page s' phys; Ret (v, s')) (fun r => r.1 = v /\ dinv r.2 R /\ grows s r.2 R []).
Proof.
  intros Hi Hg. eapply ue_bind; [by apply free_page_ok|]. intros s'' [H1 H2]. cbn. split_and_all; [done|done|].
  exact (grows_trans _ _ _ _ [] [] Hg H2).
Qed.

Lemma disk_selftest_ok s R :
  dinv s R -> unless_exhausted (disk_selftest s) (fun r => dinv r.2 R /\ grows s r.2 R []).
Proof.
  intros Hi. unfold disk_selftest. eapply ue_bind; [by apply new_page_ok|]. intros [s1 phys] [H1 G1]. cbn [fst snd] in *.
  destruct (sread s1 (hhdm + phys) 0 1) as [ok s2] eqn:E.
  destruct (sread_ok _ _ _ _ R _ _ H1 (sector_le _ _ H1) E) as (H2 & G2 & _).
  eapply ue_mono; [apply (free_after s s2 phys ok R H2); exact (grows_trans _ _ _ _ [] [] G1 G2)|].
  intros r (_ & H). exact H.
Qed.

(** What the first sectors of the medium say it is; a disk that is neither is probed as a whole. *)
Definition gpt_disk (d : D) : bool := forallb (fun i => disk_byte d (lba_size d + i) =? const GPT_SIGNATURE i) (seqZ 0 8).
Definition mbr_disk (d : D) : bool := (disk_byte d 510 =? 85) && (disk_byte d 511 =? 170).
Definition disk_style (d : D) : partition_style := if gpt_disk d then PARTITION_GPT else if mbr_disk d then PARTITION_MBR else PARTITION_ERR.

Lemma gpt_signature_read (m : mem) buf d : (forall i, 0 <= i < 8 -> m (buf + i) = disk_byte d (lba_size d + i)) ->
  (memcmp2 m buf (const GPT_SIGNATURE) 0 8 =? 0) = gpt_disk d.
Proof.
  intros H. apply eq_bool_prop_intro. rewrite !Is_true_true, memcmp2_zero by lia. unfold gpt_disk. rewrite forallb_forall.
  assert (Hc : forall i, 0 <= i < 8 -> ld8 (const GPT_SIGNATURE) i = const GPT_SIGNATURE i).
  { intros i Hi. apply u8_small. assert (i = 0 \/ i = 1 \/ i = 2 \/ i = 3 \/ i = 4 \/ i = 5 \/ i = 6 \/ i = 7) as Hi' by lia. by repeat destruct Hi' as [->|Hi']; [..|subst i]. }
  assert (Hm : forall i, 0 <= i < 8 -> ld8 m (buf + i) = disk_byte d (lba_size d + i)) by (intros i Hi; unfold ld8; rewrite H by lia; apply u8_small, disk_byte_range).
  split.
  - intros E i Hi. rewrite <- list_elem_of_In, elem_of_seqZ in Hi. apply Z.eqb_eq. by rewrite <- Hm, <- Hc, E by lia.
  - intros E i Hi. rewrite Z.add_0_l, Hm, Hc by lia. apply Z.eqb_eq, E. rewrite <- list_elem_of_In, elem_of_seqZ. lia.
Qed.

Lemma determine_disk_type_ok s R :
  dinv s R -> unless_exhausted (determine_disk_type s) (fun r => dinv r.2 R /\ grows s r.2 R [] /\
    (reads_succeed (D := D) -> r.1 = disk_style (wd (dw s)))).
Proof.
  intros Hi. unfold determine_disk_type. eapply ue_bind; [by apply new_page_ok|]. intros [s1 phys] [H1 G1]. cbn [fst snd] in *.
  destruct (sread s1 (hhdm + phys) 1 1) as [ok s2] eqn:E.
  destruct (sread_ok _ _ _ _ R _ _ H1 (sector_le _ _ H1) E) as (H2 & G2 & C2 & K2).
  pose proof (grows_trans _ _ _ _ [] [] G1 G2) as G12.
  assert (Hfree : forall s' v, dinv s' ((hhdm + phys, 4096) :: R) -> grows s s' R [] -> (reads_succeed (D := D) -> v = disk_style (wd (dw s))) ->
    unless_exhausted (s' ← free_page s' phys; Ret ((v : partition_style), s')) (fun r => dinv r.2 R /\ grows s r.2 R [] /\
      (reads_succeed (D := D) -> r.1 = disk_style (wd (dw s))))).
  { intros s' v A B C. eapply ue_mono; [by apply (free_after s s' phys v R)|]. intros r (-> & H & H'). done. }
  destruct ok; cbn [negb]; [|apply Hfree; [done|done|intros Hr; by specialize (K2 Hr)]]. specialize (C2 eq_refl).
  destruct (grows_disk _ _ _ _ G1) as [Hl1 Hd1]. pose proof (di_sector _ _ H1) as Hsec. unfold sector_size in Hsec.
  rewrite (gpt_signature_read _ _ (wd (dw s))) by (intros i Hi8; rewrite C2, Hd1, Hl1 by lia; f_equal; lia). unfold disk_style in *.
  destruct (gpt_disk (wd (dw s))); [by apply Hfree|].
  destruct (sread s2 (hhdm + phys) 0 1) as [mbr_ok s3] eqn:E2.
  destruct (sread_ok _ _ _ _ R _ _ H2 (sector_le _ _ H2) E2) as (H3 & G3 & C3 & K3).
  pose proof (grows_trans _ _ _ _ [] [] G12 G3) as G13. destruct (grows_disk _ _ _ _ G12) as [Hl2 Hd2].
  assert (Hmbr : reads_succeed (D := D) -> mbr_ok && (ld8 (wm (dw s3)) (hhdm + phys + 510) =? 85) && (ld8 (wm (dw s3)) (hhdm + phys + 511) =? 170) = mbr_disk (wd (dw s))).
  { intros Hr. rewrite (K3 Hr). specialize (C3 (K3 Hr)). rewrite Hl2, <- Hl1 in C3. unfold ld8, mbr_disk. rewrite !C3, !Hd2, !u8_small by (lia || apply disk_byte_range). done. }
  destruct (_ && _) eqn:Em; (apply Hfree; [done|done|]); intros Hr; by rewrite <- (Hmbr Hr).
Qed.

Lemma probe_ext2_ok s start R :
  dinv s R -> 0 <= start < 2 ^ 63 -> unless_exhausted (probe_ext2 s start) (fun r => dinv r.2 R /\ grows s r.2 R [] /\
    (reads_succeed (D := D) -> r.1 = Some (s_magic (disk_sb (dw s) (fresh_partition start)) =? EXT2_MAGIC))).
Proof.
  intros Hi Hst. unfold probe_ext2. destruct (sb_sectors _ (di_sector _ _ Hi)) as (b & -> & Hb1 & Hb2 & Hb3 & Hb).
  cbn [returns mbind outcome_bind]. eapply ue_bind; [by apply new_page_ok|]. intros [s1 phys] [H1 G1]. cbn [fst snd] in *.
  destruct (sread s1 (hhdm + phys) _ _) as [ok s2] eqn:E.
  assert (Hl : lba_size (wd (dw s1)) = lba_size (wd (dw s))) by apply (grows_disk _ _ _ _ G1).
  assert (Hn : size_in_blocks b * lba_size (wd (dw s1)) <= 4096) by (rewrite Hl; lia).
  destruct (sread_ok _ _ _ _ R _ _ H1 Hn E) as (H2 & G2 & C2 & K2).
  pose proof (grows_trans _ _ _ _ [] [] G1 G2) as G12. destruct ok; cbn [negb].
  - specialize (C2 eq_refl). eapply ue_mono; [by apply (free_after s s2)|]. intros r (-> & H & H'). split_and_all; [done|done|]. intros _. do 2 f_equal.
    apply ldn_shift. intros x Hx. change (0 <= x < 2) in Hx. destruct (grows_disk _ _ _ _ G1) as [_ Hd1]. rewrite u64_small in C2 by lia.
    replace (hhdm + phys + res_offset b + 56 + x) with (hhdm + phys + (res_offset b + 56 + x)) by lia. rewrite C2, Hd1 by (rewrite Hl; lia).
    unfold disk_sb, part_at, SB_SIZE. replace (_ && _) with true by lia. f_equal. cbn [lba_start fresh_partition]. rewrite Hl. lia.
  - eapply ue_mono; [by apply (free_after s s2)|]. intros r (-> & H & H'). split_and_all; [done|done|]. intros Hr. by specialize (K2 Hr).
Qed.

(** ** Mounting *)

(** At most one new partition, which begins at [start]. *)
Definition mounts_at (start : Z) (new : list (Z * ext2_partition)) : Prop :=
  Forall (fun e => lba_start e.2 = start) new /\ (length new <= 1)%nat.

Lemma mounts_none start : mounts_at start [].
Proof. split; [constructor|cbn; lia]. Qed.
Lemma mounts_one start e : lba_start e.2 = start -> mounts_at start [e].
Proof. intros H. split; [by repeat constructor|cbn; lia]. Qed.

Lemma mount_at_ok s fs start R :
  dinv s ((fs, PARTITION_SIZE) :: R) -> fs <> 0 -> 0 <= start < 2 ^ 63 ->
  unless_exhausted (mount_at s fs start) (fun s' => dinv s' R /\ exists new, grows s s' R new /\ mounts_at start new).
Proof.
  intros Hi Hfs Hst. unfold mount_at. pose proof (di_held _ _ Hi) as Hk.
  set (P := concat (part_regions <$> ext2_partitions s)) in *.
  apply (held_perm _ _ ((fs, PARTITION_SIZE) :: P ++ R)) in Hk; [|by rewrite <- Permutation_middle].
  pose proof (di_groups _ _ Hi start) as Hg.
  destruct (init_ok (dw s) (Z.of_nat (length (ext2_partitions s))) start _ (di_sector _ _ Hi) Hst Hk ltac:(lia))
    as (o & w & -> & Hd & Hkp & Ho & _). cbn [returns mbind outcome_bind].
  assert (HkpR : keeps R (wm (dw s)) (wm w)) by (intros r x Hr; apply Hkp; right; apply elem_of_app; by right).
  destruct o as [p|].
  - destruct Ho as (Hc & Hls & [M1 M2 M3 M4 [M5 M6 _ _]]). cbn [unless_exhausted]. split.
    + destruct Hi as [_ I2 I3 I4 I5]. constructor; cbn [dw ext2_partitions].
      * rewrite fmap_app, concat_app. cbn [fmap list_fmap concat part_regions fst snd]. fold P.
        eapply held_perm; [|exact M5]. rewrite app_nil_r, <- app_assoc.
        rewrite (Permutation_app_swap_app P). apply (Permutation_app_tail (P ++ R)
          (l := [(groups p, table_size p); (io_buf p, 4096); (fs, PARTITION_SIZE)])).
        symmetry. apply (Permutation_cons_append [(groups p, table_size p); (io_buf p, 4096)]).
      * apply Forall_app. split; [by rewrite (proj1 Hd)|]. constructor; [|done]. by unfold part_ok.
      * by rewrite (proj1 Hd).
      * rewrite length_app. cbn [length]. lia.
      * intros st. rewrite (sb_groups_ext (disk_sb (dw s) (fresh_partition st))); [apply I5|]. intros x. by apply disk_sb_same.
    + exists [(fs, p)]. split; [by constructor|]. by apply mounts_one.
  - destruct (heap_free_ok _ _ _ _ Ho) as (k & -> & Hk'). cbn [returns mbind outcome_bind unless_exhausted]. split.
    + by eapply dinv_world.
    + exists []. split; [|apply mounts_none]. constructor; [done|done|cbn; by rewrite app_nil_r].
Qed.

(** The tail of [disk_try_linux] and [disk_do_mbr_linux] when [kmalloc] succeeds. *)
Lemma alloc_mount_ok s start R k fs :
  dinv s R -> 0 <= start < 2 ^ 63 -> heap_alloc (wk (dw s)) PARTITION_SIZE = Some (k, fs) -> fs <> 0 ->
  unless_exhausted (s ← mount_at (with_world s (World k (wm (dw s)) (wd (dw s)))) fs start; Ret (true, s))
    (fun r => dinv r.2 R /\ exists new, grows s r.2 R new /\ mounts_at start new).
Proof.
  intros Hi Hst Ha Hfs. destruct (heap_alloc_ok (wk (dw s)) _ PARTITION_SIZE (di_held _ _ Hi) ltac:(unfold PARTITION_SIZE; lia))
    as (k' & a & Ha' & H). rewrite Ha in Ha'. injection Ha' as <- <-. destruct H as [[-> _]|[_ H]]; [done|].
  set (s1 := with_world s _). assert (H1 : dinv s1 ((fs, PARTITION_SIZE) :: R)).
  { eapply dinv_world; [exact Hi|done|]. eapply held_perm; [|exact H]. by rewrite <- Permutation_middle. }
  eapply ue_bind; [by apply mount_at_ok|]. intros s2 (H2 & new & [G1 G2 G3] & Hm). cbn. split; [done|].
  exists new. split; [by constructor|done].
Qed.

Lemma disk_do_mbr_linux_ok s start R :
  dinv s R -> 0 <= start < 2 ^ 63 ->
  unless_exhausted (disk_do_mbr_linux s start) (fun r => dinv r.2 R /\ exists new, grows s r.2 R new /\ mounts_at start new).
Proof.
  intros Hi Hst. unfold disk_do_mbr_linux. eapply ue_bind; [by apply probe_ext2_ok|]. intros [o s1] (H1 & G1 & _). cbn [fst snd] in *.
  assert (Hno : forall b : bool, unless_exhausted (Ret (b, s1)) (fun r => dinv r.2 R /\ exists new, grows s r.2 R new /\ mounts_at start new)).
  { intros b. split; [done|]. exists []. split; [done|apply mounts_none]. }
  destruct o as [[]|]; [|apply Hno..]. destruct (heap_alloc_ok (wk (dw s1)) _ PARTITION_SIZE (di_held _ _ H1)
    ltac:(unfold PARTITION_SIZE; lia)) as (k & fs & Ha & _). rewrite Ha. cbn [returns mbind outcome_bind].
  case_if; [done|]. eapply ue_mono; [by eapply alloc_mount_ok|]. intros r (H2 & new & G2 & Hm). split; [done|].
  exists new. split; [exact (grows_trans _ _ _ _ [] _ G1 G2)|done].
Qed.

Lemma disk_try_linux_ok s R :
  dinv s R -> unless_exhausted (disk_try_linux s) (fun r => dinv r.2 R /\ exists new, grows s r.2 R new /\ mounts_at 0 new).
Proof.
  intros Hi. unfold disk_try_linux. eapply ue_bind; [apply probe_ext2_ok; [done|lia]|]. intros [o s1] (H1 & G1 & _). cbn [fst snd] in *.
  assert (Hno : forall s2 (b : bool), dinv s2 R -> grows s s2 R [] ->
    unless_exhausted (Ret (b, s2)) (fun r => dinv r.2 R /\ exists new, grows s r.2 R new /\ mounts_at 0 new)).
  { intros s2 b A B. split; [done|]. exists []. split; [done|apply mounts_none]. }
  destruct o as [[]|]; [|by apply Hno..]. destruct (heap_alloc_ok (wk (dw s1)) _ PARTITION_SIZE (di_held _ _ H1)
    ltac:(unfold PARTITION_SIZE; lia)) as (k & fs & Ha & Hk). rewrite Ha. cbn [returns mbind outcome_bind].
  case_if.
  - destruct Hk as [[_ Hk]|[Hn _]]; [|done]. apply Hno; [by eapply dinv_world|].
    refine (grows_trans _ _ _ _ [] [] G1 _). constructor; [done|by intros r x|cbn; by rewrite app_nil_r].
  - eapply ue_mono; [eapply alloc_mount_ok; [done|lia|done|done]|]. intros r (H2 & new & G2 & Hm). split; [done|].
    exists new. split; [exact (grows_trans _ _ _ _ [] _ G1 G2)|done].
Qed.

(** ** Partition tables *)

(** The starts of the Linux entries among the first [n] of an MBR, read with [rd]. *)
Definition mbr_starts (rd : mem) (n : nat) : list Z :=
  omap (fun i : nat => if ld8 rd (446 + 16 * Z.of_nat i + 4) =? 131 then Some (ld32 rd (446 + 16 * Z.of_nat i + 8)) else None) (seq 0 n).

Lemma mbr_entry s mbr i (T : mem) : (forall x, 0 <= x < 512 -> wm (dw s) (mbr + x) = T x) -> (i < 4)%nat ->
  mbr_partition_type (wm (dw s)) mbr (Z.of_nat i) = ld8 T (446 + 16 * Z.of_nat i + 4) /\
  mbr_lba_start (wm (dw s)) mbr (Z.of_nat i) = ld32 T (446 + 16 * Z.of_nat i + 8).
Proof.
  intros HT Hi. split.
  - unfold mbr_partition_type, ld8. rewrite <- HT by lia. do 2 f_equal. lia.
  - apply ldn_shift. intros x Hx. rewrite <- (HT (446 + 16 * Z.of_nat i + 8 + x)) by lia. f_equal. lia.
Qed.

Lemma mbr_loop_ok n s mbr i0 R (T : mem) :
  dinv s ((mbr, 4096) :: R) -> (i0 + n <= 4)%nat ->
  (forall x, 0 <= x < 512 -> wm (dw s) (mbr + x) = T x) ->
  unless_exhausted (mbr_loop n s mbr (Z.of_nat i0)) (fun s' => dinv s' ((mbr, 4096) :: R) /\
    exists new, grows s s' ((mbr, 4096) :: R) new /\ Forall (fun e => lba_start e.2 ∈ mbr_starts T 4) new).
Proof.
  revert s i0. induction n as [|n IH]; intros s i0 Hi Hn HT; cbn [mbr_loop].
  - split; [done|]. exists []. split; [apply grows_refl|constructor].
  - destruct (mbr_entry s mbr i0 T HT ltac:(lia)) as [Ht Hl].
    replace (Z.of_nat i0 + 1) with (Z.of_nat (S i0)) by lia. rewrite Ht. case_if.
    + rewrite Hl. pose proof (ld32_range T (446 + 16 * Z.of_nat i0 + 8)).
      eapply ue_bind; [apply disk_do_mbr_linux_ok; [exact Hi|lia]|]. intros [b s1] (Hd1 & n1 & G1 & Hm1). cbn [snd] in *.
      eapply ue_mono; [apply (IH s1 (S i0) Hd1); [lia|]|].
      * intros x Hx. rewrite <- HT by done. apply (gr_mem _ _ _ _ G1 (mbr, 4096)); [left|cbn; lia].
      * intros s2 (H2 & n2 & G2 & Hm2). split; [done|]. exists (n1 ++ n2). split; [by eapply grows_trans|].
        apply Forall_app. split; [|done]. eapply Forall_impl; [exact (proj1 Hm1)|]. cbn beta. intros e ->.
        unfold mbr_starts. apply list_elem_of_omap. exists i0. rewrite elem_of_seq. split; [lia|].
        replace (ld8 T (446 + 16 * Z.of_nat i0 + 4) =? 131) with true by lia. done.
    + apply (IH s (S i0) Hi); [lia|done].
Qed.

Lemma disk_mbr_ok s R :
  dinv s R -> unless_exhausted (disk_mbr s) (fun s' => dinv s' R /\ exists new, grows s s' R new /\
    (reads_succeed (D := D) -> Forall (fun e => lba_start e.2 ∈ mbr_starts (disk_byte (wd (dw s))) 4) new)).
Proof.
  intros Hi. unfold disk_mbr. eapply ue_bind; [by apply new_page_ok|]. intros [s1 phys] [H1 G1]. cbn [fst snd] in *.
  destruct (sread s1 (hhdm + phys) 0 1) as [ok s2] eqn:E.
  destruct (sread_ok _ _ _ _ R _ _ H1 (sector_le _ _ H1) E) as (H2 & G2 & Hc & Hs).
  set (T := fun x => wm (dw s2) (hhdm + phys + x)).
  eapply ue_bind; [apply (mbr_loop_ok 4 s2 (hhdm + phys) 0 R T H2); [lia|done]|].
  intros s3 (H3 & new & G3 & Hm). eapply ue_mono; [by apply free_page_ok|]. intros s4 [H4 G4]. split; [done|].
  exists new. split.
  - pose proof (grows_trans _ _ _ _ _ _ (grows_trans _ _ _ _ [] [] G1 G2) (grows_sub _ _ _ _ _ G3)) as G.
    rewrite <- (app_nil_r new). exact (grows_trans _ _ _ _ _ [] G G4).
  - intros Hr. specialize (Hc (Hs Hr)). rewrite Z.mul_0_l in Hc.
    pose proof (di_sector _ _ H1) as Hsec. unfold sector_size in Hsec.
    eapply Forall_impl; [exact Hm|]. cbn beta. intros e. unfold mbr_starts. intros He.
    apply list_elem_of_omap in He as (i & Hin & He). apply list_elem_of_omap. exists i. split; [done|].
    apply elem_of_seq in Hin. rewrite <- He.
    assert (HT : forall x, 0 <= x < 512 -> T x = disk_byte (wd (dw s)) x).
    { intros x Hx. unfold T. rewrite Hc by lia. apply (grows_disk _ _ _ _ G1). }
    unfold ld8. rewrite (HT (446 + 16 * Z.of_nat i + 4)) by lia. case_if; [|done]. f_equal.
    symmetry. apply ldn_ext. intros x Hx. apply HT. lia.
Qed.

Lemma disk_gpt_ok s R :
  dinv s R -> unless_exhausted (disk_gpt s) (fun s' => dinv s' R /\ grows s s' R []).
Proof.
  intros Hi. unfold disk_gpt. eapply ue_bind; [by apply new_page_ok|]. intros [s1 phys] [H1 G1]. cbn [fst snd] in *.
  destruct (sread s1 (hhdm + phys) 1 1) as [ok s2] eqn:E.
  destruct (sread_ok _ _ _ _ R _ _ H1 (sector_le _ _ H1) E) as (H2 & G2 & _).
  change (gpt_loop (Z.to_nat (gpt_count_partitions (fun _ => 0))) s2 (hhdm + phys) 0) with (@Ret (disks K D) s2).
  cbn [mbind outcome_bind]. eapply ue_mono; [by apply free_page_ok|]. intros s3 [H3 G3]. split; [done|].
  exact (grows_trans _ _ _ _ [] [] (grows_trans _ _ _ _ [] [] G1 G2) G3).
Qed.

Lemma mbr_starts_ext (m m' : mem) : (forall x, 0 <= x < 512 -> m' x = m x) -> mbr_starts m' 4 = mbr_starts m 4.
Proof.
  intros H. unfold mbr_starts. cbn [seq omap list_omap]. rewrite !(ldn_ext 4 m m') by (intros x Hx; apply H; lia). unfold ld8. by rewrite !H by lia.
Qed.

(** Where the medium may hold a partition the kernel looks at. *)
Definition candidates (d : D) : list Z :=
  match disk_style d with PARTITION_GPT => [] | PARTITION_MBR => mbr_starts (disk_byte d) 4 | _ => [0] end.

Lemma style_same d d' : same_disk d d' -> disk_style d' = disk_style d.
Proof. intros [Hl Hd]. unfold disk_style, gpt_disk, mbr_disk. change (seqZ 0 8) with [0; 1; 2; 3; 4; 5; 6; 7]. cbn [forallb]. by rewrite Hl, !Hd. Qed.

Lemma candidates_same d d' : same_disk d d' -> candidates d' = candidates d.
Proof. intros H. unfold candidates. rewrite (style_same d d' H). by rewrite (mbr_starts_ext (disk_byte d) (disk_byte d')) by (intros x _; apply H). Qed.

(** ** With enough memory and a disk that can be read, every file system is found *)

Section complete.
Context (limit : Z) (enough : nat -> K -> Prop) (B : budget limit enough) (Hread : reads_succeed (D := D)) (Hsize : PARTITION_SIZE < limit).
Definition left_over (n : nat) s : Prop := enough n (wk (dw s)).

(** [s'] has a partition more than [s] that begins at [start]. *)
Definition found_at s s' (start : Z) : Prop := exists new e, ext2_partitions s' = ext2_partitions s ++ new /\ e ∈ new /\ lba_start e.2 = start.

Lemma found_later s1 s2 s3 R n start : grows s1 s2 R n -> found_at s2 s3 start -> found_at s1 s3 start.
Proof. intros [_ _ G] (new & e & H & He & Hs). exists (n ++ new), e. rewrite H, G, app_assoc, elem_of_app. auto. Qed.
Lemma found_before s1 s2 s3 R n start : found_at s1 s2 start -> grows s2 s3 R n -> found_at s1 s3 start.
Proof. intros (new & e & H & He & Hs) [_ _ G]. exists (new ++ n), e. rewrite G, H, app_assoc, elem_of_app. auto. Qed.

Lemma tables_same s s' : same_disk (wd (dw s)) (wd (dw s')) -> tables_below limit s -> tables_below limit s'.
Proof. intros Hs H start. rewrite (sb_groups_ext (disk_sb (dw s) (fresh_partition start))); [apply H|]. intros x. by apply disk_sb_same. Qed.

Lemma new_page_left s R n : dinv s R -> left_over (S n) s -> exists s1 phys, new_page s = Ret (s1, phys) /\ left_over n s1.
Proof.
  intros Hi He. unfold new_page. destruct (page_alloc_ok (wk (dw s)) _ (di_held _ _ Hi)) as (k & a & Ha & _). rewrite Ha. cbn [returns mbind outcome_bind].
  destruct (bu_page _ _ B _ _ _ _ He Ha) as [Hn He']. replace (a =? 0) with false by lia. by eexists _, a.
Qed.

Lemma free_page_left {A} s phys R n (v : A) : dinv s ((hhdm + phys, 4096) :: R) -> left_over n s ->
  exists s', (s' ← free_page s phys; Ret (v, s')) = Ret (v, s') /\ free_page s phys = Ret s' /\ left_over n s'.
Proof.
  intros Hi He. unfold free_page. pose proof (di_held _ _ Hi) as Hk.
  apply (held_perm _ _ ((hhdm + phys, 4096) :: concat (part_regions <$> ext2_partitions s) ++ R)) in Hk; [|by rewrite <- Permutation_middle].
  destruct (page_free_ok _ _ _ Hk) as (k & Ef & _). rewrite Ef. cbn [returns mbind outcome_bind]. eexists. split_and_all; [done|done|].
  exact (bu_page_free _ _ B _ _ _ _ He Ef).
Qed.

Lemma sread_left s buf lba n ok s' m : sread s buf lba n = (ok, s') -> left_over m s -> left_over m s'.
Proof.
  unfold sread, left_over. destruct (dread (dw s) buf lba n) as [ok' w'] eqn:E. intros [= <- <-]. destruct (dread_spec _ _ _ _ _ _ E) as (Ho & _). by rewrite <- (ob_k _ _ _ _ Ho).
Qed.

(** A step that returns has the properties proved of it. *)
Lemma returned {A} (o : outcome A) P a : unless_exhausted o P -> o = Ret a -> P a.
Proof. by intros H ->. Qed.

Lemma selftest_left s R n : dinv s R -> left_over (S n) s -> exists s', disk_selftest s = Ret (true, s') /\ left_over n s'.
Proof.
  intros Hi He. unfold disk_selftest. destruct (new_page_left s R n Hi He) as (s1 & phys & E1 & He1). rewrite E1. cbn [mbind outcome_bind].
  destruct (returned _ _ _ (new_page_ok s R Hi) E1) as [H1 _]. cbn [fst snd] in H1. destruct (sread s1 (hhdm + phys) 0 1) as [ok s2] eqn:E.
  destruct (sread_ok _ _ _ _ R _ _ H1 (sector_le _ _ H1) E) as (H2 & _ & _ & K2). rewrite (K2 Hread).
  destruct (free_page_left s2 phys R n true H2 (sread_left _ _ _ _ _ _ _ E He1)) as (s3 & -> & _ & He3). by exists s3.
Qed.

Lemma determine_left s R n : dinv s R -> left_over (S n) s -> exists s', determine_disk_type s = Ret (disk_style (wd (dw s)), s') /\ left_over n s'.
Proof.
  intros Hi He. enough (exists r, determine_disk_type s = Ret r /\ left_over n r.2) as ([v s'] & E & He').
  { destruct (returned _ _ _ (determine_disk_type_ok s R Hi) E) as (_ & _ & Hv). exists s'. cbn [fst snd] in *. by rewrite <- (Hv Hread). }
  unfold determine_disk_type. destruct (new_page_left s R n Hi He) as (s1 & phys & E1 & He1). rewrite E1. cbn [mbind outcome_bind].
  destruct (returned _ _ _ (new_page_ok s R Hi) E1) as [H1 _]. cbn [fst snd] in H1. destruct (sread s1 (hhdm + phys) 1 1) as [ok s2] eqn:E.
  destruct (sread_ok _ _ _ _ R _ _ H1 (sector_le _ _ H1) E) as (H2 & _). pose proof (sread_left _ _ _ _ _ _ _ E He1) as He2.
  assert (Hfree : forall s' (v : partition_style), dinv s' ((hhdm + phys, 4096) :: R) -> left_over n s' -> exists r, (s'' ← free_page s' phys; Ret (v, s'')) = Ret r /\ left_over n r.2)
    by (intros s' v A C; destruct (free_page_left s' phys R n v A C) as (s3 & -> & _ & He3); by eexists).
  case_if; [by apply Hfree|]. case_if; [by apply Hfree|]. destruct (sread s2 (hhdm + phys) 0 1) as [mbr_ok s3] eqn:Er2.
  destruct (sread_ok _ _ _ _ R _ _ H2 (sector_le _ _ H2) Er2) as (H3 & _). pose proof (sread_left _ _ _ _ _ _ _ Er2 He2). case_if; by apply Hfree.
Qed.

Lemma probe_left s start R n : dinv s R -> 0 <= start < 2 ^ 63 -> left_over (S n) s ->
  exists s', probe_ext2 s start = Ret (Some (s_magic (disk_sb (dw s) (fresh_partition start)) =? EXT2_MAGIC), s') /\ left_over n s'.
Proof.
  intros Hi Hst He. enough (exists r, probe_ext2 s start = Ret r /\ left_over n r.2) as ([v s'] & E & He').
  { destruct (returned _ _ _ (probe_ext2_ok s start R Hi Hst) E) as (_ & _ & Hv). exists s'. cbn [fst snd] in *. by rewrite <- (Hv Hread). }
  unfold probe_ext2. destruct (sb_sectors _ (di_sector _ _ Hi)) as (b & -> & _ & _ & _ & Hb). cbn [returns mbind outcome_bind].
  destruct (new_page_left s R n Hi He) as (s1 & phys & E1 & He1). rewrite E1. cbn [mbind outcome_bind].
  destruct (returned _ _ _ (new_page_ok s R Hi) E1) as [H1 G1]. cbn [fst snd] in H1, G1. destruct (sread s1 (hhdm + phys) _ _) as [ok s2] eqn:E.
  assert (Hl : lba_size (wd (dw s1)) = lba_size (wd (dw s))) by apply (grows_disk _ _ _ _ G1).
  assert (Hn : size_in_blocks b * lba_size (wd (dw s1)) <= 4096) by (rewrite Hl; lia).
  destruct (sread_ok _ _ _ _ R _ _ H1 Hn E) as (H2 & _). pose proof (sread_left _ _ _ _ _ _ _ E He1) as He2.
  case_if; [destruct (free_page_left s2 phys R n (@None bool) H2 He2) as (s3 & -> & _ & He3)|
    destruct (free_page_left s2 phys R n (Some (ld16 (wm (dw s2)) (hhdm + phys + res_offset b + 56) =? EXT2_MAGIC)) H2 He2) as (s3 & -> & _ & He3)]; by eexists.
Qed.

Lemma mount_left s fs start R n : dinv s ((fs, PARTITION_SIZE) :: R) -> 0 <= start < 2 ^ 63 -> tables_below limit s -> left_over (3 + n) s ->
  exists s', mount_at s fs start = Ret s' /\ left_over n s' /\
    (mountable (dw s) start -> (length (ext2_partitions s) < 8)%nat -> found_at s s' start).
Proof.
  intros Hi Hst Ht He. unfold mount_at. pose proof (di_held _ _ Hi) as Hk. set (P := concat (part_regions <$> ext2_partitions s)) in *.
  apply (held_perm _ _ ((fs, PARTITION_SIZE) :: P ++ R)) in Hk; [|by rewrite <- Permutation_middle]. pose proof (di_groups _ _ Hi start) as Hg.
  destruct (init_ok (dw s) (Z.of_nat (length (ext2_partitions s))) start _ (di_sector _ _ Hi) Hst Hk ltac:(lia)) as (o & w & -> & _ & _ & Ho & Hb).
  destruct (Hb limit enough n B (Ht start) He) as [He' Hm]. cbn [returns mbind outcome_bind]. destruct o as [p|].
  - eexists. split_and_all; [done|exact He'|]. intros _ _. exists [(fs, p)], (fs, p). split_and_all; [done|left|apply Ho].
  - destruct (heap_free_ok _ _ _ _ Ho) as (k & Ef & _). rewrite Ef. cbn [returns mbind outcome_bind]. eexists. split_and_all; [done|exact (bu_heap_free _ _ B _ _ _ _ He' Ef)|].
    intros M Hlen. by destruct (Hm Hread M ltac:(lia)).
Qed.

(** One candidate: it is probed and, if there is a file system, mounted. *)
Lemma alloc_mount_left s start R n : dinv s R -> 0 <= start < 2 ^ 63 -> tables_below limit s -> left_over (4 + n) s ->
  exists k fs s', heap_alloc (wk (dw s)) PARTITION_SIZE = Some (k, fs) /\ fs <> 0 /\
    mount_at (with_world s (World k (wm (dw s)) (wd (dw s)))) fs start = Ret s' /\ left_over n s' /\
    (mountable (dw s) start -> (length (ext2_partitions s) < 8)%nat -> found_at s s' start).
Proof.
  intros Hi Hst Ht He. destruct (heap_alloc_ok (wk (dw s)) _ PARTITION_SIZE (di_held _ _ Hi) ltac:(unfold PARTITION_SIZE; lia)) as (k & fs & Ha & H).
  destruct (bu_heap _ _ B _ _ _ _ PARTITION_SIZE He ltac:(unfold PARTITION_SIZE in *; lia) Ha) as [Hfs He1]. destruct H as [[-> _]|[_ H]]; [done|].
  destruct (mount_left (with_world s (World k (wm (dw s)) (wd (dw s)))) fs start R n) as (s' & Em & He' & Hf); try done.
  { eapply dinv_world; [exact Hi|done|]. eapply held_perm; [|exact H]. by rewrite <- Permutation_middle. }
  exists k, fs, s'. split_and_all; try done. intros M. apply Hf. by apply (mountable_same (dw s)).
Qed.

Lemma mbr_linux_left s start R n : dinv s R -> 0 <= start < 2 ^ 63 -> tables_below limit s -> left_over (5 + n) s ->
  exists b s', disk_do_mbr_linux s start = Ret (b, s') /\ left_over n s' /\
    (mountable (dw s) start -> (length (ext2_partitions s) < 8)%nat -> found_at s s' start).
Proof.
  intros Hi Hst Ht He. unfold disk_do_mbr_linux. destruct (probe_left s start R (4 + n) Hi Hst He) as (s1 & E1 & He1). rewrite E1. cbn [mbind outcome_bind].
  destruct (returned _ _ _ (probe_ext2_ok s start R Hi Hst) E1) as (H1 & G1 & _). cbn [snd] in H1, G1. pose proof (grows_disk _ _ _ _ G1) as Hs.
  destruct (_ =? EXT2_MAGIC) eqn:Em.
  - destruct (alloc_mount_left s1 start R n H1 Hst (tables_same _ _ Hs Ht) He1) as (k & fs & s' & -> & Hfs & E2 & He2 & Hf). cbn [returns mbind outcome_bind].
    replace (fs =? 0) with false by lia. rewrite E2. cbn [mbind outcome_bind]. exists true, s'. split_and_all; try done. intros M Hlen.
    eapply found_later; [exact G1|]. apply Hf; [by apply (mountable_same (dw s))|]. rewrite (gr_parts _ _ _ _ G1), app_nil_r. done.
  - exists false, s1. split_and_all; [done|by do 4 apply (bu_less _ _ B)|]. intros M _. pose proof (mn_magic _ _ M). lia.
Qed.

Lemma try_linux_left s R n : dinv s R -> tables_below limit s -> left_over (5 + n) s ->
  exists b s', disk_try_linux s = Ret (b, s') /\ (mountable (dw s) 0 -> (length (ext2_partitions s) < 8)%nat -> found_at s s' 0).
Proof.
  intros Hi Ht He. unfold disk_try_linux. destruct (probe_left s 0 R (4 + n) Hi ltac:(lia) He) as (s1 & E1 & He1). rewrite E1. cbn [mbind outcome_bind].
  destruct (returned _ _ _ (probe_ext2_ok s 0 R Hi ltac:(lia)) E1) as (H1 & G1 & _). cbn [snd] in H1, G1. pose proof (grows_disk _ _ _ _ G1) as Hs.
  destruct (_ =? EXT2_MAGIC) eqn:Em.
  - destruct (alloc_mount_left s1 0 R n H1 ltac:(lia) (tables_same _ _ Hs Ht) He1) as (k & fs & s' & -> & Hfs & E2 & He2 & Hf). cbn [returns mbind outcome_bind].
    replace (fs =? 0) with false by lia. rewrite E2. cbn [mbind outcome_bind]. exists true, s'. split; [done|]. intros M Hlen.
    eapply found_later; [exact G1|]. apply Hf; [by apply (mountable_same (dw s))|]. rewrite (gr_parts _ _ _ _ G1), app_nil_r. done.
  - exists false, s1. split; [done|]. intros M _. pose proof (mn_magic _ _ M). lia.
Qed.

Lemma mbr_loop_left n s mbr i0 R (T : mem) m :
  dinv s ((mbr, 4096) :: R) -> (i0 + n <= 4)%nat -> (forall x, 0 <= x < 512 -> wm (dw s) (mbr + x) = T x) -> tables_below limit s -> left_over (n * 5 + m) s ->
  exists s', mbr_loop n s mbr (Z.of_nat i0) = Ret s' /\ left_over m s' /\
    forall i, (i0 <= i < i0 + n)%nat -> ld8 T (446 + 16 * Z.of_nat i + 4) = 131 -> let start := ld32 T (446 + 16 * Z.of_nat i + 8) in
      mountable (dw s) start -> (length (ext2_partitions s) + n <= 8)%nat -> found_at s s' start.
Proof.
  revert s i0. induction n as [|n IH]; intros s i0 Hi Hn HT Htb He; cbn [mbr_loop]; [exists s; split_and_all; [done|done|lia]|].
  destruct (mbr_entry s mbr i0 T HT ltac:(lia)) as [Ht Hl]. replace (Z.of_nat i0 + 1) with (Z.of_nat (S i0)) by lia. rewrite Ht.
  destruct (negb (ld8 T (446 + 16 * Z.of_nat i0 + 4) =? 0) && (ld8 T (446 + 16 * Z.of_nat i0 + 4) =? 131)) eqn:Et.
  - rewrite Hl. pose proof (ld32_range T (446 + 16 * Z.of_nat i0 + 8)) as Hst. set (start := ld32 T (446 + 16 * Z.of_nat i0 + 8)) in *.
    destruct (mbr_linux_left s start _ (n * 5 + m) Hi ltac:(lia) Htb He) as (b & s1 & E1 & He1 & Hf1). rewrite E1. cbn [mbind outcome_bind].
    destruct (returned _ _ _ (disk_do_mbr_linux_ok s start _ Hi ltac:(lia)) E1) as (Hd1 & n1 & G1 & Hm1). cbn [snd] in *. pose proof (grows_disk _ _ _ _ G1) as Hs1.
    destruct (IH s1 (S i0) Hd1) as (s2 & E2 & He2 & Hf2); [lia| |by eapply tables_same|done|].
    { intros x Hx. rewrite <- HT by done. apply (gr_mem _ _ _ _ G1 (mbr, 4096)); [left|cbn; lia]. }
    exists s2. split_and_all; [done|done|]. intros i Hir Hty M Hlen. destruct (decide (i = i0)) as [->|].
    + destruct (returned _ _ _ (mbr_loop_ok n s1 mbr (S i0) R T Hd1 ltac:(lia) ltac:(intros x Hx; rewrite <- HT by done; apply (gr_mem _ _ _ _ G1 (mbr, 4096)); [left|cbn; lia])) E2) as (_ & n2 & G2 & _).
      eapply found_before; [apply Hf1; [done|lia]|exact G2].
    + eapply found_later; [exact G1|]. apply Hf2; [lia|done|by apply (mountable_same (dw s))|]. destruct Hm1 as [_ Hm1]. rewrite (gr_parts _ _ _ _ G1), length_app. lia.
  - destruct (IH s (S i0) Hi ltac:(lia) HT Htb) as (s2 & E2 & He2 & Hf2); [by do 5 apply (bu_less _ _ B)|].
    exists s2. split_and_all; [done|done|]. intros i Hir Hty M Hlen. destruct (decide (i = i0)) as [->|]; [lia|]. apply Hf2; [lia|done|done|lia].
Qed.

Lemma disk_mbr_left s R n : dinv s R -> tables_below limit s -> left_over (21 + n) s ->
  exists s', disk_mbr s = Ret s' /\ forall start, start ∈ mbr_starts (disk_byte (wd (dw s))) 4 -> mountable (dw s) start ->
    (length (ext2_partitions s) + 4 <= 8)%nat -> found_at s s' start.
Proof.
  intros Hi Htb He. unfold disk_mbr. destruct (new_page_left s R (20 + n) Hi He) as (s1 & phys & E1 & He1). rewrite E1. cbn [mbind outcome_bind].
  destruct (returned _ _ _ (new_page_ok s R Hi) E1) as [H1 G1]. cbn [fst snd] in H1, G1. destruct (sread s1 (hhdm + phys) 0 1) as [ok s2] eqn:E.
  destruct (sread_ok _ _ _ _ R _ _ H1 (sector_le _ _ H1) E) as (H2 & G2 & C2 & K2). specialize (C2 (K2 Hread)). rewrite Z.mul_0_l in C2.
  pose proof (grows_trans _ _ _ _ [] [] G1 G2) as G12. pose proof (grows_disk _ _ _ _ G12) as Hs. pose proof (di_sector _ _ H1) as Hsec. unfold sector_size in Hsec.
  assert (HT : forall x, 0 <= x < 512 -> wm (dw s2) (hhdm + phys + x) = disk_byte (wd (dw s)) x)
    by (intros x Hx; rewrite C2 by lia; apply (grows_disk _ _ _ _ G1)).
  destruct (mbr_loop_left 4 s2 (hhdm + phys) 0 R (disk_byte (wd (dw s))) n H2 ltac:(lia) HT (tables_same _ _ Hs Htb) (sread_left _ _ _ _ _ _ _ E He1)) as (s3 & E3 & He3 & Hf).
  change (Z.of_nat 0) with 0 in E3. rewrite E3. cbn [mbind outcome_bind].
  destruct (returned _ _ _ (mbr_loop_ok 4 s2 (hhdm + phys) 0 R _ H2 ltac:(lia) HT) E3) as (H3 & _).
  destruct (free_page_left s3 phys R n tt H3 He3) as (s4 & _ & E4 & _). rewrite E4. exists s4. split; [done|].
  intros start Hin M Hlen. unfold mbr_starts in Hin. apply list_elem_of_omap in Hin as (i & Hin & Hi'). apply elem_of_seq in Hin.
  destruct (_ =? 131) eqn:Et; [|done]. injection Hi' as <-. eapply found_later; [exact G12|]. destruct (returned _ _ _ (free_page_ok s3 phys R H3) E4) as [_ G4].
  eapply found_before; [|exact G4]. apply Hf; [lia|lia|by apply (mountable_same (dw s))|]. rewrite (gr_parts _ _ _ _ G12), app_nil_r. lia.
Qed.

Lemma disk_gpt_left s R n : dinv s R -> left_over (S n) s -> exists s', disk_gpt s = Ret s'.
Proof.
  intros Hi He. unfold disk_gpt. destruct (new_page_left s R n Hi He) as (s1 & phys & E1 & He1). rewrite E1. cbn [mbind outcome_bind].
  destruct (returned _ _ _ (new_page_ok s R Hi) E1) as [H1 G1]. cbn [fst snd] in H1, G1. destruct (sread s1 (hhdm + phys) 1 1) as [ok s2] eqn:E.
  destruct (sread_ok _ _ _ _ R _ _ H1 (sector_le _ _ H1) E) as (H2 & _).
  change (gpt_loop (Z.to_nat (gpt_count_partitions (fun _ => 0))) s2 (hhdm + phys) 0) with (@Ret (disks K D) s2). cbn [mbind outcome_bind].
  destruct (free_page_left s2 phys R n tt H2 (sread_left _ _ _ _ _ _ _ E He1)) as (s3 & _ & E3 & _). by exists s3.
Qed.

Lemma init_disk_left s R : dinv s R -> tables_below limit s -> left_over 23 s ->
  exists s', init_disk s = Ret s' /\
    ((length (ext2_partitions s) + 4 <= 8)%nat -> forall start, start ∈ candidates (wd (dw s)) -> mountable (dw s) start -> found_at s s' start).
Proof.
  intros Hi Htb He. unfold init_disk. destruct (selftest_left s R 22 Hi He) as (s1 & E1 & He1). rewrite E1. cbn [mbind outcome_bind negb].
  destruct (returned _ _ _ (disk_selftest_ok s R Hi) E1) as [H1 G1]. cbn [snd] in H1, G1.
  destruct (determine_left s1 R 21 H1 He1) as (s2 & E2 & He2). rewrite E2. cbn [mbind outcome_bind].
  destruct (returned _ _ _ (determine_disk_type_ok s1 R H1) E2) as (H2 & G2 & _). cbn [snd] in H2, G2.
  pose proof (grows_trans _ _ _ _ [] [] G1 G2) as G12. pose proof (grows_disk _ _ _ _ G12) as Hs. pose proof (tables_same _ _ Hs Htb) as Htb2.
  rewrite (style_same _ _ (grows_disk _ _ _ _ G1)). unfold candidates.
  assert (Hlen : (length (ext2_partitions s) + 4 <= 8)%nat -> (length (ext2_partitions s2) + 4 <= 8)%nat) by (by rewrite (gr_parts _ _ _ _ G12), app_nil_r).
  assert (Hraw : exists s', ('(_, s) ← disk_try_linux s2; Ret s) = Ret s' /\
    ((length (ext2_partitions s) + 4 <= 8)%nat -> forall start, start ∈ [0] -> mountable (dw s) start -> found_at s s' start)).
  { destruct (try_linux_left s2 R 16 H2 Htb2 He2) as (b & s3 & -> & Hf). exists s3. split; [done|]. intros Hl start ->%list_elem_of_singleton M.
    specialize (Hlen Hl). eapply found_later; [exact G12|]. apply Hf; [by apply (mountable_same (dw s))|lia]. }
  destruct (disk_style (wd (dw s))); [exact Hraw| | |exact Hraw].
  - destruct (disk_mbr_left s2 R 0 H2 Htb2 He2) as (s3 & -> & Hf). exists s3. split; [done|]. intros Hl start Hin M. eapply found_later; [exact G12|].
    apply Hf; [|by apply (mountable_same (dw s))|auto]. by rewrite (mbr_starts_ext (disk_byte (wd (dw s))) (disk_byte (wd (dw s2)))) by (intros x _; apply Hs).
  - destruct (disk_gpt_left s2 R 20 H2 He2) as (s3 & ->). exists s3. split; [done|]. intros _ start Hin. by apply not_elem_of_nil in Hin.
Qed.
End complete.

(** What probing a disk keeps, and where the new partitions begin. *)
Lemma init_disk_ok s R : dinv s R ->
  unless_exhausted (init_disk s) (fun s' => dinv s' R /\ exists new, grows s s' R new /\
    (reads_succeed (D := D) -> Forall (fun e => lba_start e.2 ∈ candidates (wd (dw s))) new)).
Proof.
  intros Hi. unfold init_disk. eapply ue_bind; [by apply disk_selftest_ok|]. intros [ok s1] [H1 G1]. cbn [snd] in *.
  case_if; [split; [done|]; exists []; split; [done|constructor]|].
  eapply ue_bind; [by apply determine_disk_type_ok|]. intros [style s2] (H2 & G2 & Hstyle). cbn [fst snd] in *.
  pose proof (grows_trans _ _ _ _ [] [] G1 G2) as G12. pose proof (grows_disk _ _ _ _ G12) as Hs. rewrite (style_same _ _ (grows_disk _ _ _ _ G1)) in Hstyle.
  assert (Hraw : (reads_succeed (D := D) -> 0 ∈ candidates (wd (dw s))) -> unless_exhausted ('(_, s) ← disk_try_linux s2; Ret s) (fun s' => dinv s' R /\ exists new, grows s s' R new /\
    (reads_succeed (D := D) -> Forall (fun e => lba_start e.2 ∈ candidates (wd (dw s))) new))).
  { intros H0. eapply ue_bind; [by apply disk_try_linux_ok|]. intros [b s3] (H3 & new & G3 & Hm). split; [done|]. exists new.
    split; [exact (grows_trans _ _ _ _ [] _ G12 G3)|]. intros Hr. eapply Forall_impl; [exact (proj1 Hm)|]. cbn beta. intros e ->. by apply H0. }
  destruct style.
  - apply Hraw. intros Hr. unfold candidates. rewrite <- (Hstyle Hr). left.
  - eapply ue_mono; [by apply disk_mbr_ok|]. intros s3 (H3 & new & G3 & Hm). split; [done|]. exists new.
    split; [exact (grows_trans _ _ _ _ [] _ G12 G3)|]. intros Hr. eapply Forall_impl; [exact (Hm Hr)|]. cbn beta. intros e. unfold candidates. rewrite <- (Hstyle Hr).
    by rewrite (mbr_starts_ext (disk_byte (wd (dw s))) (disk_byte (wd (dw s2)))) by (intros x _; apply Hs).
  - eapply ue_mono; [by apply disk_gpt_ok|]. intros s3 (H3 & G3). split; [done|]. exists [].
    split; [exact (grows_trans _ _ _ _ [] [] G12 G3)|]. constructor.
  - apply Hraw. intros Hr. unfold candidates. rewrite <- (Hstyle Hr). left.
Qed.
End probe.

(** ** An example disk *)

(** The image of [Ext2Props] as a raw disk, nothing mounted. *)
Definition demo_disks : disks Z mem := Disks (World 65536 (fun _ => 0) demo_image) [] 0.

Lemma demo_image_bpg start : start <> 0 -> ld32 (fun x => u8 (demo_image x)) (start * 512 + 1056) = 0.
Proof.
  intros Hs. transitivity (ld32 demo_image (start * 512 + 1056)).
  - generalize (start * 512 + 1056). generalize 4%nat. induction n as [|n IH]; intros a; [done|].
    change (u8 (u8 (demo_image a)) + 256 * ldn n (fun x => u8 (demo_image x)) (a + 1)
            = u8 (demo_image a) + 256 * ldn n demo_image (a + 1)). by rewrite u8_idem, IH.
  - unfold demo_image. rewrite !ldn_stn_disj by lia. done.
Qed.

Lemma demo_tables limit : 32 < limit -> tables_below (DD := ramdisk) limit demo_disks.
Proof.
  intros Hl start. destruct (decide (start = 0)) as [-> | Hs].
  { assert (sb_groups (disk_sb (DD := ramdisk) (dw demo_disks) (fresh_partition 0)) = 1) as -> by (vm_compute; reflexivity). lia. }
  assert (H : s_blocks_per_group (disk_sb (DD := ramdisk) (dw demo_disks) (fresh_partition start)) = 0).
  { rewrite <- (demo_image_bpg start Hs). unfold s_blocks_per_group. apply ldn_shift. intros x Hx.
    unfold disk_sb, part_at, SB_SIZE. replace (_ && _) with true by lia.
    replace (start * 512 + 1056 + x) with (start * 512 + 1024 + (32 + x)) by lia. reflexivity. }
  unfold sb_groups. rewrite H, Z.div_0_r. lia.
Qed.

Lemma demo_disks_usable : usable (KM := arena_mem 0) (DD := ramdisk) demo_disks [].
Proof.
  constructor.
  - cbn. unfold arena_held, ARENA_END. cbn [pairwise]. split_and_all; try lia; constructor.
  - constructor.
  - left. reflexivity.
  - cbn. lia.
Qed.

Lemma demo_disks_inv : dinv (KM := arena_mem 0) (DD := ramdisk) demo_disks [].
Proof. destruct demo_disks_usable. constructor; try done. by apply demo_tables. Qed.

Lemma demo_mountable : mountable (DD := ramdisk) (dw demo_disks) 0.
Proof.
  constructor; [vm_compute; reflexivity..| |].
  - intros g Hg. assert (g = 0) as -> by (change (0 <= g < 1) in Hg; lia). vm_compute. reflexivity.
  - split; [vm_compute; reflexivity|]. unfold directory. split_and_all; vm_compute; congruence.
Qed.

(** ** Properties *)

(** C25: probing a disk mounts what it should and gives back the rest.  The disk has a sector size
    of 512 to 4096 bytes, and no superblock on it has a descriptor table of 2^31 bytes or more.
    Then [init_disk] returns unless the page allocator runs out or, for an MBR partition, the
    heap does; the partitions mounted are usable, at most 8 with those before, and own their
    object, table and page; every other page and object is given back, and neither the medium
    nor memory the rest of the kernel holds has changed.  If the disk can be read, they begin at
    one of the [candidates]: the start of a disk without a partition table, or where an
    entry of type 0x83 in the MBR of the medium says.  And if besides 23 requests for memory can be met,
    [init_disk] returns and, with at most 4 partitions before, every candidate with a valid file
    system on the medium is mounted.  (A disk with a GPT has no candidates: see
    [gpt_partitions_ignored].) *)
Theorem probing_mounts_or_gives_back {hhdm : Z} {K D : Type} {KM : KernelMem hhdm K} {DD : DiskDev D}
    (s : disks K D) (R : list (Z * Z)) :
  usable s R -> tables_below (2 ^ 31) s ->
  unless_exhausted (init_disk s) (fun s' => usable s' R /\ exists new, grows s s' R new /\
    (reads_succeed (D := D) -> Forall (fun e => lba_start e.2 ∈ candidates (wd (dw s))) new)) /\
  (forall limit enough, budget limit enough -> PARTITION_SIZE < limit -> tables_below limit s -> enough 23%nat (wk (dw s)) ->
     reads_succeed (D := D) -> exists s', init_disk s = Ret s' /\
     ((length (ext2_partitions s) + 4 <= 8)%nat -> forall start, start ∈ candidates (wd (dw s)) -> mountable (dw s) start -> found_at s s' start)).
Proof.
  intros [U1 U2 U3 U4] Ht. assert (Hi : dinv s R) by by constructor. split.
  - eapply ue_mono; [by apply init_disk_ok|]. intros s' (H & new & G & Hn). split; [by apply dinv_usable|]. by exists new.
  - intros limit enough B Hp Hl He Hr. by apply (init_disk_left limit enough B Hr Hp s R).
Qed.

Lemma probing_mounts_or_gives_back_witness :
  exists s', init_disk (KM := arena_mem 0) (DD := ramdisk) demo_disks = Ret s' /\
    usable (KM := arena_mem 0) (DD := ramdisk) s' [] /\ found_at demo_disks s' 0.
Proof.
  destruct (probing_mounts_or_gives_back (KM := arena_mem 0) (DD := ramdisk) demo_disks [] demo_disks_usable (demo_tables (2 ^ 31) ltac:(lia))) as [H1 H2].
  destruct (H2 4096 (arena_enough 0) (arena_budget 0)) as (s' & E & Hf); [done|apply demo_tables; lia|unfold arena_enough, ARENA_END; cbn; lia|by intros d m b l n|].
  rewrite E in H1. exists s'. split_and_all; [exact E|exact (proj1 H1)|]. apply Hf; [cbn; lia| |exact demo_mountable].
  assert (candidates (DD := ramdisk) (wd (dw demo_disks)) = [0]) as -> by (vm_compute; reflexivity). left.
Defined.

(** A GPT disk is never mounted.  Whatever the partition table says, [disk_gpt]
    leaves the list of partitions as it was: the number of entries it goes by is read
    from a header that is never filled in. *)
Theorem gpt_partitions_ignored {hhdm : Z} {K D : Type} {KM : KernelMem hhdm K} {DD : DiskDev D}
    (s : disks K D) (R : list (Z * Z)) :
  dinv s R -> unless_exhausted (disk_gpt s) (fun s' => ext2_partitions s' = ext2_partitions s /\ dinv s' R).
Proof.
  intros Hi. eapply ue_mono; [by apply disk_gpt_ok|]. intros s' [H [_ _ G]]. by rewrite app_nil_r in G.
Qed.

Lemma gpt_partitions_ignored_witness :
  unless_exhausted (disk_gpt (KM := arena_mem 0) (DD := ramdisk) demo_disks) (fun s' => ext2_partitions s' = []).
Proof.
  eapply ue_mono; [exact (gpt_partitions_ignored (KM := arena_mem 0) (DD := ramdisk) demo_disks [] demo_disks_inv)|].
  intros s' [H _]. exact H.
Defined.
