(* ===== verification/TermTables.v ===== *)
(** * The terminal's tables, [src/src/flanterm/flanterm.c] and [src/src/flanterm/fb.c]

    The colour cube, the widths and code page of Unicode characters, the line drawing
    set and the built-in font, with the functions that search them. *)

From S2P Require Import Prelude.

Definition col256 : list Z :=
  [0; 95; 135; 175; 215; 255; 24320; 24415; 24455; 24495; 24535; 24575; 34560; 34655; 34695; 34735;
   34775; 34815; 44800; 44895; 44935; 44975; 45015; 45055; 55040; 55135; 55175; 55215; 55255;
   55295; 65280; 65375; 65415; 65455; 65495; 65535; 6225920; 6226015; 6226055; 6226095; 6226135;
   6226175; 6250240; 6250335; 6250375; 6250415; 6250455; 6250495; 6260480; 6260575; 6260615;
   6260655; 6260695; 6260735; 6270720; 6270815; 6270855; 6270895; 6270935; 6270975; 6280960;
   6281055; 6281095; 6281135; 6281175; 6281215; 6291200; 6291295; 6291335; 6291375; 6291415;
   6291455; 8847360; 8847455; 8847495; 8847535; 8847575; 8847615; 8871680; 8871775; 8871815;
   8871855; 8871895; 8871935; 8881920; 8882015; 8882055; 8882095; 8882135; 8882175; 8892160;
   8892255; 8892295; 8892335; 8892375; 8892415; 8902400; 8902495; 8902535; 8902575; 8902615;
   8902655; 8912640; 8912735; 8912775; 8912815; 8912855; 8912895; 11468800; 11468895; 11468935;
   11468975; 11469015; 11469055; 11493120; 11493215; 11493255; 11493295; 11493335; 11493375;
   11503360; 11503455; 11503495; 11503535; 11503575; 11503615; 11513600; 11513695; 11513735;
   11513775; 11513815; 11513855; 11523840; 11523935; 11523975; 11524015; 11524055; 11524095;
   11534080; 11534175; 11534215; 11534255; 11534295; 11534335; 14090240; 14090335; 14090375;
   14090415; 14090455; 14090495; 14114560; 14114655; 14114695; 14114735; 14114775; 14114815;
   14124800; 14124895; 14124935; 14124975; 14125015; 14125055; 14135040; 14135135; 14135175;
   14135215; 14135255; 14135295; 14145280; 14145375; 14145415; 14145455; 14145495; 14145535;
   14155520; 14155615; 14155655; 14155695; 14155735; 14155775; 16711680; 16711775; 16711815;
   16711855; 16711895; 16711935; 16736000; 16736095; 16736135; 16736175; 16736215; 16736255;
   16746240; 16746335; 16746375; 16746415; 16746455; 16746495; 16756480; 16756575; 16756615;
   16756655; 16756695; 16756735; 16766720; 16766815; 16766855; 16766895; 16766935; 16766975;
   16776960; 16777055; 16777095; 16777135; 16777175; 16777215; 526344; 1184274; 1842204; 2500134;
   3158064; 3815994; 4473924; 5131854; 5789784; 6447714; 7105644; 7763574; 8421504; 9079434;
   9737364; 10395294; 11053224; 11711154; 12369084; 13027014; 13684944; 14342874; 15000804; 15658734].

(** [dec_special_print]: the characters with a line drawing glyph. *)
Definition dec_special_cases : list (Z * Z) :=
  [(96, 4); (48, 219); (45, 24); (44, 27); (46, 25); (97, 177); (102, 248); (103, 241); (104, 176);
   (106, 217); (107, 191); (108, 218); (109, 192); (110, 197); (113, 196); (115, 95); (116, 195);
   (117, 180); (118, 193); (119, 194); (120, 179); (121, 243); (122, 242); (126, 250); (95, 255);
   (43, 26); (123, 227); (125, 156)].

(** The non-spacing characters. *)
Definition combining : list (Z * Z) :=
  [(768, 879); (1155, 1158); (1160, 1161); (1425, 1469); (1471, 1471); (1473, 1474); (1476, 1477);
   (1479, 1479); (1536, 1539); (1552, 1557); (1611, 1630); (1648, 1648); (1750, 1764);
   (1767, 1768); (1770, 1773); (1807, 1807); (1809, 1809); (1840, 1866); (1958, 1968);
   (2027, 2035); (2305, 2306); (2364, 2364); (2369, 2376); (2381, 2381); (2385, 2388);
   (2402, 2403); (2433, 2433); (2492, 2492); (2497, 2500); (2509, 2509); (2530, 2531);
   (2561, 2562); (2620, 2620); (2625, 2626); (2631, 2632); (2635, 2637); (2672, 2673);
   (2689, 2690); (2748, 2748); (2753, 2757); (2759, 2760); (2765, 2765); (2786, 2787);
   (2817, 2817); (2876, 2876); (2879, 2879); (2881, 2883); (2893, 2893); (2902, 2902);
   (2946, 2946); (3008, 3008); (3021, 3021); (3134, 3136); (3142, 3144); (3146, 3149);
   (3157, 3158); (3260, 3260); (3263, 3263); (3270, 3270); (3276, 3277); (3298, 3299);
   (3393, 3395); (3405, 3405); (3530, 3530); (3538, 3540); (3542, 3542); (3633, 3633);
   (3636, 3642); (3655, 3662); (3761, 3761); (3764, 3769); (3771, 3772); (3784, 3789);
   (3864, 3865); (3893, 3893); (3895, 3895); (3897, 3897); (3953, 3966); (3968, 3972);
   (3974, 3975); (3984, 3991); (3993, 4028); (4038, 4038); (4141, 4144); (4146, 4146);
   (4150, 4151); (4153, 4153); (4184, 4185); (4448, 4607); (4959, 4959); (5906, 5908);
   (5938, 5940); (5970, 5971); (6002, 6003); (6068, 6069); (6071, 6077); (6086, 6086);
   (6089, 6099); (6109, 6109); (6155, 6157); (6313, 6313); (6432, 6434); (6439, 6440);
   (6450, 6450); (6457, 6459); (6679, 6680); (6912, 6915); (6964, 6964); (6966, 6970);
   (6972, 6972); (6978, 6978); (7019, 7027); (7616, 7626); (7678, 7679); (8203, 8207);
   (8234, 8238); (8288, 8291); (8298, 8303); (8400, 8431); (12330, 12335); (12441, 12442);
   (43014, 43014); (43019, 43019); (43045, 43046); (64286, 64286); (65024, 65039); (65056, 65059);
   (65279, 65279); (65529, 65531); (68097, 68099); (68101, 68102); (68108, 68111); (68152, 68154);
   (68159, 68159); (119143, 119145); (119155, 119170); (119173, 119179); (119210, 119213);
   (119362, 119364); (917505, 917505); (917536, 917631); (917760, 917999)].

(** The cases of [unicode_to_cp437]. *)
Definition cp437_cases : list (Z * Z) :=
  [(9786, 1); (9787, 2); (9829, 3); (9830, 4); (9827, 5); (9824, 6); (8226, 7); (9688, 8);
   (9675, 9); (9689, 10); (9794, 11); (9792, 12); (9834, 13); (9835, 14); (9788, 15); (9658, 16);
   (9668, 17); (8597, 18); (8252, 19); (182, 20); (167, 21); (9644, 22); (8616, 23); (8593, 24);
   (8595, 25); (8594, 26); (8592, 27); (8735, 28); (8596, 29); (9650, 30); (9660, 31); (8962, 127);
   (199, 128); (252, 129); (233, 130); (226, 131); (228, 132); (224, 133); (229, 134); (231, 135);
   (234, 136); (235, 137); (232, 138); (239, 139); (238, 140); (236, 141); (196, 142); (197, 143);
   (201, 144); (230, 145); (198, 146); (244, 147); (246, 148); (242, 149); (251, 150); (249, 151);
   (255, 152); (214, 153); (220, 154); (162, 155); (163, 156); (165, 157); (8359, 158); (402, 159);
   (225, 160); (237, 161); (243, 162); (250, 163); (241, 164); (209, 165); (170, 166); (186, 167);
   (191, 168); (8976, 169); (172, 170); (189, 171); (188, 172); (161, 173); (171, 174); (187, 175);
   (9617, 176); (9618, 177); (9619, 178); (9474, 179); (9508, 180); (9569, 181); (9570, 182);
   (9558, 183); (9557, 184); (9571, 185); (9553, 186); (9559, 187); (9565, 188); (9564, 189);
   (9563, 190); (9488, 191); (9492, 192); (9524, 193); (9516, 194); (9500, 195); (9472, 196);
   (9532, 197); (9566, 198); (9567, 199); (9562, 200); (9556, 201); (9577, 202); (9574, 203);
   (9568, 204); (9552, 205); (9580, 206); (9575, 207); (9576, 208); (9572, 209); (9573, 210);
   (9561, 211); (9560, 212); (9554, 213); (9555, 214); (9579, 215); (9578, 216); (9496, 217);
   (9484, 218); (9608, 219); (9604, 220); (9612, 221); (9616, 222); (9600, 223); (945, 224);
   (223, 225); (915, 226); (960, 227); (931, 228); (963, 229); (181, 230); (964, 231); (934, 232);
   (920, 233); (937, 234); (948, 235); (8734, 236); (966, 237); (949, 238); (8745, 239);
   (8801, 240); (177, 241); (8805, 242); (8804, 243); (8992, 244); (8993, 245); (247, 246);
   (8776, 247); (176, 248); (8729, 249); (183, 250); (8730, 251); (8319, 252); (178, 253);
   (9632, 254)].

(** Sixteen bytes a glyph, a byte a row. *)
Definition builtin_font : list Z :=
  [0; 0; 0; 0; 0; 0; 0; 0; 0; 0; 0; 0; 0; 0; 0; 0; 0; 60; 66; 129; 129; 165; 165; 129; 129; 165;
   153; 129; 66; 60; 0; 0; 0; 60; 126; 255; 255; 219; 219; 255; 255; 219; 231; 255; 126; 60; 0; 0;
   0; 0; 0; 108; 254; 254; 254; 124; 124; 56; 56; 16; 16; 0; 0; 0; 0; 16; 16; 56; 56; 124; 124;
   254; 124; 124; 56; 56; 16; 16; 0; 0; 0; 0; 0; 24; 60; 60; 219; 255; 255; 219; 24; 24; 60; 0; 0;
   0; 0; 0; 0; 24; 60; 126; 255; 255; 255; 102; 24; 24; 60; 0; 0; 0; 0; 0; 0; 0; 0; 0; 48; 120;
   120; 48; 0; 0; 0; 0; 0; 0; 255; 255; 255; 255; 255; 255; 231; 195; 195; 231; 255; 255; 255; 255;
   255; 255; 0; 0; 0; 0; 0; 120; 204; 132; 132; 204; 120; 0; 0; 0; 0; 0; 255; 255; 255; 255; 255;
   195; 153; 189; 189; 153; 195; 255; 255; 255; 255; 255; 0; 0; 0; 30; 14; 30; 50; 120; 204; 204;
   204; 120; 0; 0; 0; 0; 0; 0; 0; 120; 204; 204; 204; 120; 48; 252; 48; 48; 0; 0; 0; 0; 0; 0; 16;
   24; 28; 30; 22; 18; 16; 16; 112; 240; 224; 0; 0; 0; 0; 48; 56; 44; 38; 50; 58; 46; 38; 34; 98;
   226; 198; 14; 12; 0; 0; 0; 0; 24; 24; 219; 60; 231; 60; 219; 24; 24; 0; 0; 0; 0; 0; 0; 0; 128;
   192; 224; 248; 254; 248; 224; 192; 128; 0; 0; 0; 0; 0; 0; 0; 2; 6; 14; 62; 254; 62; 14; 6; 2; 0;
   0; 0; 0; 0; 0; 48; 120; 252; 48; 48; 48; 48; 48; 252; 120; 48; 0; 0; 0; 0; 0; 204; 204; 204;
   204; 204; 204; 204; 204; 0; 204; 204; 0; 0; 0; 0; 0; 127; 219; 219; 219; 219; 123; 27; 27; 27;
   27; 27; 0; 0; 0; 0; 0; 124; 198; 96; 56; 108; 198; 198; 108; 56; 12; 198; 124; 0; 0; 0; 0; 0; 0;
   0; 0; 0; 0; 0; 0; 254; 254; 254; 0; 0; 0; 0; 0; 48; 120; 252; 48; 48; 48; 48; 48; 252; 120; 48;
   252; 0; 0; 0; 0; 48; 120; 252; 48; 48; 48; 48; 48; 48; 48; 48; 0; 0; 0; 0; 0; 48; 48; 48; 48;
   48; 48; 48; 48; 252; 120; 48; 0; 0; 0; 0; 0; 0; 0; 0; 24; 12; 254; 254; 12; 24; 0; 0; 0; 0; 0;
   0; 0; 0; 0; 0; 48; 96; 254; 254; 96; 48; 0; 0; 0; 0; 0; 0; 0; 0; 0; 0; 0; 0; 192; 192; 192; 254;
   0; 0; 0; 0; 0; 0; 0; 0; 0; 0; 36; 102; 255; 255; 102; 36; 0; 0; 0; 0; 0; 0; 0; 0; 0; 16; 16; 56;
   56; 124; 124; 254; 254; 0; 0; 0; 0; 0; 0; 0; 0; 254; 254; 124; 124; 56; 56; 16; 16; 0; 0; 0; 0;
   0; 0; 0; 0; 0; 0; 0; 0; 0; 0; 0; 0; 0; 0; 0; 0; 0; 0; 48; 120; 120; 120; 120; 48; 48; 48; 0; 48;
   48; 0; 0; 0; 0; 0; 204; 204; 204; 204; 204; 0; 0; 0; 0; 0; 0; 0; 0; 0; 0; 0; 108; 108; 108; 254;
   108; 108; 108; 254; 108; 108; 108; 0; 0; 0; 0; 24; 24; 124; 198; 192; 192; 124; 6; 6; 198; 124;
   24; 24; 0; 0; 0; 0; 198; 198; 12; 12; 24; 56; 48; 96; 96; 198; 198; 0; 0; 0; 0; 0; 56; 108; 108;
   56; 48; 118; 222; 204; 204; 222; 118; 0; 0; 0; 0; 0; 24; 24; 24; 48; 0; 0; 0; 0; 0; 0; 0; 0; 0;
   0; 0; 0; 24; 48; 96; 96; 96; 96; 96; 96; 96; 48; 24; 0; 0; 0; 0; 0; 96; 48; 24; 24; 24; 24; 24;
   24; 24; 48; 96; 0; 0; 0; 0; 0; 0; 0; 0; 108; 56; 254; 56; 108; 0; 0; 0; 0; 0; 0; 0; 0; 0; 0; 0;
   24; 24; 126; 24; 24; 0; 0; 0; 0; 0; 0; 0; 0; 0; 0; 0; 0; 0; 0; 0; 0; 0; 24; 24; 48; 0; 0; 0; 0;
   0; 0; 0; 0; 0; 254; 0; 0; 0; 0; 0; 0; 0; 0; 0; 0; 0; 0; 0; 0; 0; 0; 0; 0; 0; 24; 24; 0; 0; 0; 0;
   0; 6; 6; 12; 12; 24; 56; 48; 96; 96; 192; 192; 0; 0; 0; 0; 0; 124; 198; 198; 198; 214; 214; 214;
   198; 198; 198; 124; 0; 0; 0; 0; 0; 24; 56; 120; 24; 24; 24; 24; 24; 24; 24; 126; 0; 0; 0; 0; 0;
   124; 198; 6; 6; 12; 24; 48; 96; 192; 192; 254; 0; 0; 0; 0; 0; 124; 198; 6; 6; 60; 6; 6; 6; 6;
   198; 124; 0; 0; 0; 0; 0; 4; 12; 28; 60; 108; 204; 254; 12; 12; 12; 12; 0; 0; 0; 0; 0; 254; 192;
   192; 192; 252; 6; 6; 6; 6; 198; 124; 0; 0; 0; 0; 0; 60; 96; 192; 192; 252; 198; 198; 198; 198;
   198; 124; 0; 0; 0; 0; 0; 254; 198; 6; 6; 12; 24; 48; 48; 48; 48; 48; 0; 0; 0; 0; 0; 124; 198;
   198; 198; 124; 198; 198; 198; 198; 198; 124; 0; 0; 0; 0; 0; 124; 198; 198; 198; 198; 126; 6; 6;
   6; 12; 120; 0; 0; 0; 0; 0; 0; 0; 0; 0; 0; 24; 24; 0; 0; 24; 24; 0; 0; 0; 0; 0; 0; 0; 0; 0; 0;
   24; 24; 0; 0; 24; 24; 48; 0; 0; 0; 0; 6; 12; 24; 48; 96; 192; 96; 48; 24; 12; 6; 0; 0; 0; 0; 0;
   0; 0; 0; 0; 254; 0; 254; 0; 0; 0; 0; 0; 0; 0; 0; 0; 192; 96; 48; 24; 12; 6; 12; 24; 48; 96; 192;
   0; 0; 0; 0; 0; 124; 198; 198; 6; 12; 24; 48; 48; 0; 48; 48; 0; 0; 0; 0; 0; 124; 198; 198; 198;
   222; 222; 222; 222; 192; 192; 126; 0; 0; 0; 0; 0; 56; 108; 198; 198; 198; 198; 254; 198; 198;
   198; 198; 0; 0; 0; 0; 0; 252; 198; 198; 198; 252; 198; 198; 198; 198; 198; 252; 0; 0; 0; 0; 0;
   124; 198; 192; 192; 192; 192; 192; 192; 192; 198; 124; 0; 0; 0; 0; 0; 248; 204; 198; 198; 198;
   198; 198; 198; 198; 204; 248; 0; 0; 0; 0; 0; 254; 192; 192; 192; 252; 192; 192; 192; 192; 192;
   254; 0; 0; 0; 0; 0; 254; 192; 192; 192; 252; 192; 192; 192; 192; 192; 192; 0; 0; 0; 0; 0; 124;
   198; 192; 192; 192; 222; 198; 198; 198; 198; 126; 0; 0; 0; 0; 0; 198; 198; 198; 198; 198; 254;
   198; 198; 198; 198; 198; 0; 0; 0; 0; 0; 252; 48; 48; 48; 48; 48; 48; 48; 48; 48; 252; 0; 0; 0;
   0; 0; 30; 12; 12; 12; 12; 12; 12; 12; 204; 204; 120; 0; 0; 0; 0; 0; 198; 198; 204; 216; 240;
   224; 240; 216; 204; 198; 198; 0; 0; 0; 0; 0; 192; 192; 192; 192; 192; 192; 192; 192; 192; 192;
   254; 0; 0; 0; 0; 0; 198; 198; 238; 254; 214; 214; 214; 198; 198; 198; 198; 0; 0; 0; 0; 0; 198;
   198; 230; 230; 246; 222; 206; 206; 198; 198; 198; 0; 0; 0; 0; 0; 124; 198; 198; 198; 198; 198;
   198; 198; 198; 198; 124; 0; 0; 0; 0; 0; 252; 198; 198; 198; 198; 252; 192; 192; 192; 192; 192;
   0; 0; 0; 0; 0; 124; 198; 198; 198; 198; 198; 198; 198; 246; 218; 108; 6; 0; 0; 0; 0; 252; 198;
   198; 198; 198; 252; 216; 204; 204; 198; 198; 0; 0; 0; 0; 0; 124; 198; 192; 96; 48; 24; 12; 6; 6;
   198; 124; 0; 0; 0; 0; 0; 255; 24; 24; 24; 24; 24; 24; 24; 24; 24; 24; 0; 0; 0; 0; 0; 198; 198;
   198; 198; 198; 198; 198; 198; 198; 198; 124; 0; 0; 0; 0; 0; 198; 198; 198; 198; 198; 198; 198;
   198; 108; 56; 16; 0; 0; 0; 0; 0; 198; 198; 198; 198; 214; 214; 214; 214; 254; 108; 108; 0; 0; 0;
   0; 0; 198; 198; 198; 108; 56; 56; 56; 108; 198; 198; 198; 0; 0; 0; 0; 0; 204; 204; 204; 204;
   204; 120; 48; 48; 48; 48; 48; 0; 0; 0; 0; 0; 254; 6; 6; 12; 24; 48; 96; 192; 192; 192; 254; 0;
   0; 0; 0; 0; 120; 96; 96; 96; 96; 96; 96; 96; 96; 96; 120; 0; 0; 0; 0; 0; 192; 192; 96; 96; 48;
   56; 24; 12; 12; 6; 6; 0; 0; 0; 0; 0; 120; 24; 24; 24; 24; 24; 24; 24; 24; 24; 120; 0; 0; 0; 0;
   0; 16; 56; 108; 198; 0; 0; 0; 0; 0; 0; 0; 0; 0; 0; 0; 0; 0; 0; 0; 0; 0; 0; 0; 0; 0; 0; 0; 0;
   255; 0; 0; 0; 24; 24; 24; 12; 0; 0; 0; 0; 0; 0; 0; 0; 0; 0; 0; 0; 0; 0; 0; 124; 6; 6; 126; 198;
   198; 198; 126; 0; 0; 0; 0; 0; 192; 192; 192; 220; 230; 198; 198; 198; 198; 230; 220; 0; 0; 0; 0;
   0; 0; 0; 0; 124; 198; 192; 192; 192; 192; 198; 124; 0; 0; 0; 0; 0; 6; 6; 6; 118; 206; 198; 198;
   198; 198; 206; 118; 0; 0; 0; 0; 0; 0; 0; 0; 124; 198; 198; 254; 192; 192; 192; 126; 0; 0; 0; 0;
   0; 28; 54; 48; 48; 252; 48; 48; 48; 48; 48; 48; 0; 0; 0; 0; 0; 0; 0; 0; 118; 206; 198; 198; 198;
   206; 118; 6; 198; 124; 0; 0; 0; 192; 192; 192; 220; 230; 198; 198; 198; 198; 198; 198; 0; 0; 0;
   0; 0; 24; 0; 0; 56; 24; 24; 24; 24; 24; 24; 60; 0; 0; 0; 0; 0; 6; 0; 0; 30; 6; 6; 6; 6; 6; 6;
   198; 198; 124; 0; 0; 0; 192; 192; 192; 198; 204; 216; 240; 240; 216; 204; 198; 0; 0; 0; 0; 0;
   56; 24; 24; 24; 24; 24; 24; 24; 24; 24; 60; 0; 0; 0; 0; 0; 0; 0; 0; 236; 254; 214; 214; 214;
   214; 198; 198; 0; 0; 0; 0; 0; 0; 0; 0; 220; 230; 198; 198; 198; 198; 198; 198; 0; 0; 0; 0; 0; 0;
   0; 0; 124; 198; 198; 198; 198; 198; 198; 124; 0; 0; 0; 0; 0; 0; 0; 0; 220; 230; 198; 198; 198;
   230; 220; 192; 192; 192; 0; 0; 0; 0; 0; 0; 118; 206; 198; 198; 198; 206; 118; 6; 6; 6; 0; 0; 0;
   0; 0; 0; 220; 230; 192; 192; 192; 192; 192; 192; 0; 0; 0; 0; 0; 0; 0; 0; 124; 198; 192; 112; 28;
   6; 198; 124; 0; 0; 0; 0; 0; 48; 48; 48; 254; 48; 48; 48; 48; 48; 54; 28; 0; 0; 0; 0; 0; 0; 0; 0;
   198; 198; 198; 198; 198; 198; 198; 124; 0; 0; 0; 0; 0; 0; 0; 0; 198; 198; 198; 198; 198; 108;
   56; 16; 0; 0; 0; 0; 0; 0; 0; 0; 198; 198; 214; 214; 214; 214; 254; 108; 0; 0; 0; 0; 0; 0; 0; 0;
   198; 198; 108; 56; 56; 108; 198; 198; 0; 0; 0; 0; 0; 0; 0; 0; 198; 198; 198; 198; 198; 206; 118;
   6; 198; 124; 0; 0; 0; 0; 0; 0; 254; 6; 12; 24; 48; 96; 192; 254; 0; 0; 0; 0; 0; 28; 48; 48; 48;
   48; 224; 48; 48; 48; 48; 28; 0; 0; 0; 0; 0; 48; 48; 48; 48; 48; 0; 48; 48; 48; 48; 48; 0; 0; 0;
   0; 0; 224; 48; 48; 48; 48; 28; 48; 48; 48; 48; 224; 0; 0; 0; 0; 0; 0; 118; 220; 0; 0; 0; 0; 0;
   0; 0; 0; 0; 0; 0; 0; 0; 0; 16; 16; 56; 56; 108; 108; 198; 198; 254; 0; 0; 0; 0; 0; 0; 60; 102;
   192; 192; 192; 192; 192; 192; 102; 60; 24; 204; 120; 0; 0; 0; 108; 108; 0; 198; 198; 198; 198;
   198; 198; 198; 124; 0; 0; 0; 0; 12; 24; 48; 0; 124; 198; 198; 254; 192; 192; 192; 126; 0; 0; 0;
   0; 16; 56; 108; 0; 124; 6; 6; 126; 198; 198; 198; 126; 0; 0; 0; 0; 0; 108; 108; 0; 124; 6; 6;
   126; 198; 198; 198; 126; 0; 0; 0; 0; 96; 48; 24; 0; 124; 6; 6; 126; 198; 198; 198; 126; 0; 0; 0;
   0; 56; 108; 56; 0; 124; 6; 6; 126; 198; 198; 198; 126; 0; 0; 0; 0; 0; 0; 0; 0; 124; 198; 192;
   192; 192; 192; 198; 124; 24; 12; 56; 0; 16; 56; 108; 0; 124; 198; 198; 254; 192; 192; 192; 126;
   0; 0; 0; 0; 0; 108; 108; 0; 124; 198; 198; 254; 192; 192; 192; 126; 0; 0; 0; 0; 96; 48; 24; 0;
   124; 198; 198; 254; 192; 192; 192; 126; 0; 0; 0; 0; 0; 108; 108; 0; 56; 24; 24; 24; 24; 24; 24;
   60; 0; 0; 0; 0; 16; 56; 108; 0; 56; 24; 24; 24; 24; 24; 24; 60; 0; 0; 0; 0; 96; 48; 24; 0; 56;
   24; 24; 24; 24; 24; 24; 60; 0; 0; 0; 198; 198; 16; 56; 108; 198; 198; 198; 254; 198; 198; 198;
   198; 0; 0; 0; 56; 108; 56; 0; 56; 108; 198; 198; 198; 254; 198; 198; 198; 0; 0; 0; 24; 48; 96;
   0; 254; 192; 192; 252; 192; 192; 192; 192; 254; 0; 0; 0; 0; 0; 0; 0; 0; 236; 54; 54; 118; 222;
   216; 216; 110; 0; 0; 0; 0; 0; 30; 60; 108; 204; 204; 254; 204; 204; 204; 204; 206; 0; 0; 0; 0;
   16; 56; 108; 0; 124; 198; 198; 198; 198; 198; 198; 124; 0; 0; 0; 0; 0; 108; 108; 0; 124; 198;
   198; 198; 198; 198; 198; 124; 0; 0; 0; 0; 96; 48; 24; 0; 124; 198; 198; 198; 198; 198; 198; 124;
   0; 0; 0; 0; 16; 56; 108; 0; 198; 198; 198; 198; 198; 198; 198; 124; 0; 0; 0; 0; 96; 48; 24; 0;
   198; 198; 198; 198; 198; 198; 198; 124; 0; 0; 0; 0; 0; 108; 108; 0; 198; 198; 198; 198; 198;
   206; 118; 6; 198; 124; 0; 108; 108; 0; 124; 198; 198; 198; 198; 198; 198; 198; 198; 124; 0; 0;
   0; 108; 108; 0; 198; 198; 198; 198; 198; 198; 198; 198; 198; 124; 0; 0; 0; 0; 0; 0; 48; 48; 120;
   204; 192; 192; 204; 120; 48; 48; 0; 0; 0; 0; 0; 56; 108; 96; 96; 96; 248; 96; 96; 96; 230; 252;
   0; 0; 0; 0; 0; 204; 204; 204; 120; 48; 252; 48; 252; 48; 48; 48; 0; 0; 0; 0; 0; 248; 204; 204;
   248; 196; 204; 222; 204; 204; 204; 198; 0; 0; 0; 0; 0; 14; 27; 24; 24; 24; 126; 24; 24; 24; 24;
   24; 216; 112; 0; 0; 12; 24; 48; 0; 124; 6; 6; 126; 198; 198; 198; 126; 0; 0; 0; 0; 12; 24; 48;
   0; 56; 24; 24; 24; 24; 24; 24; 60; 0; 0; 0; 0; 12; 24; 48; 0; 124; 198; 198; 198; 198; 198; 198;
   124; 0; 0; 0; 0; 12; 24; 48; 0; 198; 198; 198; 198; 198; 198; 198; 124; 0; 0; 0; 0; 118; 220; 0;
   0; 220; 230; 198; 198; 198; 198; 198; 198; 0; 0; 0; 118; 220; 0; 198; 198; 230; 246; 254; 222;
   206; 198; 198; 198; 0; 0; 0; 0; 120; 216; 216; 108; 0; 252; 0; 0; 0; 0; 0; 0; 0; 0; 0; 0; 56;
   108; 108; 56; 0; 124; 0; 0; 0; 0; 0; 0; 0; 0; 0; 0; 0; 24; 24; 0; 24; 24; 48; 96; 192; 198; 198;
   124; 0; 0; 0; 0; 0; 0; 0; 0; 0; 0; 0; 254; 192; 192; 192; 0; 0; 0; 0; 0; 0; 0; 0; 0; 0; 0; 0;
   254; 6; 6; 6; 0; 0; 0; 0; 0; 0; 192; 194; 198; 204; 216; 48; 96; 220; 134; 12; 24; 62; 0; 0; 0;
   0; 192; 194; 198; 204; 216; 48; 102; 206; 158; 62; 6; 6; 0; 0; 0; 0; 48; 48; 0; 48; 48; 48; 120;
   120; 120; 120; 48; 0; 0; 0; 0; 0; 0; 0; 0; 54; 108; 216; 108; 54; 0; 0; 0; 0; 0; 0; 0; 0; 0; 0;
   0; 216; 108; 54; 108; 216; 0; 0; 0; 0; 0; 0; 34; 136; 34; 136; 34; 136; 34; 136; 34; 136; 34;
   136; 34; 136; 34; 136; 85; 170; 85; 170; 85; 170; 85; 170; 85; 170; 85; 170; 85; 170; 85; 170;
   221; 119; 221; 119; 221; 119; 221; 119; 221; 119; 221; 119; 221; 119; 221; 119; 24; 24; 24; 24;
   24; 24; 24; 24; 24; 24; 24; 24; 24; 24; 24; 24; 24; 24; 24; 24; 24; 24; 24; 248; 248; 24; 24;
   24; 24; 24; 24; 24; 24; 24; 24; 24; 24; 248; 248; 24; 24; 248; 248; 24; 24; 24; 24; 24; 54; 54;
   54; 54; 54; 54; 54; 246; 246; 54; 54; 54; 54; 54; 54; 54; 0; 0; 0; 0; 0; 0; 0; 254; 254; 54; 54;
   54; 54; 54; 54; 54; 0; 0; 0; 0; 0; 248; 248; 24; 24; 248; 248; 24; 24; 24; 24; 24; 54; 54; 54;
   54; 54; 246; 246; 6; 6; 246; 246; 54; 54; 54; 54; 54; 54; 54; 54; 54; 54; 54; 54; 54; 54; 54;
   54; 54; 54; 54; 54; 54; 0; 0; 0; 0; 0; 254; 254; 6; 6; 246; 246; 54; 54; 54; 54; 54; 54; 54; 54;
   54; 54; 246; 246; 6; 6; 254; 254; 0; 0; 0; 0; 0; 54; 54; 54; 54; 54; 54; 54; 254; 254; 0; 0; 0;
   0; 0; 0; 0; 24; 24; 24; 24; 24; 248; 248; 24; 24; 248; 248; 0; 0; 0; 0; 0; 0; 0; 0; 0; 0; 0; 0;
   248; 248; 24; 24; 24; 24; 24; 24; 24; 24; 24; 24; 24; 24; 24; 24; 31; 31; 0; 0; 0; 0; 0; 0; 0;
   24; 24; 24; 24; 24; 24; 24; 255; 255; 0; 0; 0; 0; 0; 0; 0; 0; 0; 0; 0; 0; 0; 0; 255; 255; 24;
   24; 24; 24; 24; 24; 24; 24; 24; 24; 24; 24; 24; 24; 31; 31; 24; 24; 24; 24; 24; 24; 24; 0; 0; 0;
   0; 0; 0; 0; 255; 255; 0; 0; 0; 0; 0; 0; 0; 24; 24; 24; 24; 24; 24; 24; 255; 255; 24; 24; 24; 24;
   24; 24; 24; 24; 24; 24; 24; 24; 31; 31; 24; 24; 31; 31; 24; 24; 24; 24; 24; 54; 54; 54; 54; 54;
   54; 54; 55; 55; 54; 54; 54; 54; 54; 54; 54; 54; 54; 54; 54; 54; 55; 55; 48; 48; 63; 63; 0; 0; 0;
   0; 0; 0; 0; 0; 0; 0; 63; 63; 48; 48; 55; 55; 54; 54; 54; 54; 54; 54; 54; 54; 54; 54; 247; 247;
   0; 0; 255; 255; 0; 0; 0; 0; 0; 0; 0; 0; 0; 0; 255; 255; 0; 0; 247; 247; 54; 54; 54; 54; 54; 54;
   54; 54; 54; 54; 55; 55; 48; 48; 55; 55; 54; 54; 54; 54; 54; 0; 0; 0; 0; 0; 255; 255; 0; 0; 255;
   255; 0; 0; 0; 0; 0; 54; 54; 54; 54; 54; 247; 247; 0; 0; 247; 247; 54; 54; 54; 54; 54; 24; 24;
   24; 24; 24; 255; 255; 0; 0; 255; 255; 0; 0; 0; 0; 0; 54; 54; 54; 54; 54; 54; 54; 255; 255; 0; 0;
   0; 0; 0; 0; 0; 0; 0; 0; 0; 0; 255; 255; 0; 0; 255; 255; 24; 24; 24; 24; 24; 0; 0; 0; 0; 0; 0; 0;
   255; 255; 54; 54; 54; 54; 54; 54; 54; 54; 54; 54; 54; 54; 54; 54; 63; 63; 0; 0; 0; 0; 0; 0; 0;
   24; 24; 24; 24; 24; 31; 31; 24; 24; 31; 31; 0; 0; 0; 0; 0; 0; 0; 0; 0; 0; 31; 31; 24; 24; 31;
   31; 24; 24; 24; 24; 24; 0; 0; 0; 0; 0; 0; 0; 63; 63; 54; 54; 54; 54; 54; 54; 54; 54; 54; 54; 54;
   54; 54; 54; 255; 255; 54; 54; 54; 54; 54; 54; 54; 24; 24; 24; 24; 24; 255; 255; 24; 24; 255;
   255; 24; 24; 24; 24; 24; 24; 24; 24; 24; 24; 24; 24; 248; 248; 0; 0; 0; 0; 0; 0; 0; 0; 0; 0; 0;
   0; 0; 0; 31; 31; 24; 24; 24; 24; 24; 24; 24; 255; 255; 255; 255; 255; 255; 255; 255; 255; 255;
   255; 255; 255; 255; 255; 255; 0; 0; 0; 0; 0; 0; 0; 0; 255; 255; 255; 255; 255; 255; 255; 255;
   240; 240; 240; 240; 240; 240; 240; 240; 240; 240; 240; 240; 240; 240; 240; 240; 15; 15; 15; 15;
   15; 15; 15; 15; 15; 15; 15; 15; 15; 15; 15; 15; 255; 255; 255; 255; 255; 255; 255; 255; 0; 0; 0;
   0; 0; 0; 0; 0; 0; 0; 0; 0; 0; 118; 214; 220; 200; 200; 220; 214; 118; 0; 0; 0; 0; 0; 120; 204;
   204; 204; 216; 204; 204; 204; 204; 204; 216; 192; 192; 0; 0; 0; 254; 198; 198; 192; 192; 192;
   192; 192; 192; 192; 192; 0; 0; 0; 0; 0; 0; 0; 0; 126; 254; 36; 36; 36; 36; 102; 198; 0; 0; 0; 0;
   0; 254; 254; 194; 96; 48; 24; 48; 96; 194; 254; 254; 0; 0; 0; 0; 0; 0; 0; 0; 126; 200; 204; 204;
   204; 204; 204; 120; 0; 0; 0; 0; 0; 0; 0; 0; 102; 102; 102; 102; 102; 102; 118; 108; 96; 192; 0;
   0; 0; 0; 0; 0; 102; 252; 152; 24; 24; 24; 24; 24; 0; 0; 0; 0; 0; 252; 48; 48; 120; 204; 204;
   204; 120; 48; 48; 252; 0; 0; 0; 0; 0; 56; 108; 198; 198; 198; 254; 198; 198; 198; 108; 56; 0; 0;
   0; 0; 0; 56; 108; 198; 198; 198; 198; 198; 108; 108; 108; 238; 0; 0; 0; 0; 0; 120; 204; 96; 48;
   120; 204; 204; 204; 204; 204; 120; 0; 0; 0; 0; 0; 0; 0; 0; 118; 187; 153; 153; 221; 110; 0; 0;
   0; 0; 0; 0; 0; 2; 6; 60; 108; 206; 214; 214; 230; 108; 120; 192; 128; 0; 0; 0; 0; 30; 48; 96;
   192; 192; 254; 192; 192; 96; 48; 30; 0; 0; 0; 0; 0; 56; 108; 198; 198; 198; 198; 198; 198; 198;
   198; 198; 0; 0; 0; 0; 0; 0; 0; 254; 0; 0; 254; 0; 0; 254; 0; 0; 0; 0; 0; 0; 0; 0; 0; 0; 48; 48;
   252; 48; 48; 0; 0; 252; 0; 0; 0; 0; 0; 0; 0; 96; 48; 24; 12; 24; 48; 96; 0; 252; 0; 0; 0; 0; 0;
   0; 0; 24; 48; 96; 192; 96; 48; 24; 0; 252; 0; 0; 0; 0; 0; 28; 54; 54; 48; 48; 48; 48; 48; 48;
   48; 48; 48; 48; 48; 24; 24; 24; 24; 24; 24; 24; 24; 24; 24; 216; 216; 112; 0; 0; 0; 0; 0; 0; 0;
   48; 48; 0; 252; 0; 48; 48; 0; 0; 0; 0; 0; 0; 0; 0; 0; 0; 118; 220; 0; 118; 220; 0; 0; 0; 0; 0;
   0; 0; 120; 204; 204; 204; 120; 0; 0; 0; 0; 0; 0; 0; 0; 0; 0; 0; 0; 0; 0; 0; 0; 0; 48; 48; 0; 0;
   0; 0; 0; 0; 0; 0; 0; 0; 0; 0; 0; 0; 48; 0; 0; 0; 0; 0; 0; 0; 0; 0; 15; 12; 12; 12; 12; 12; 12;
   12; 204; 108; 60; 28; 12; 0; 0; 0; 216; 236; 204; 204; 204; 204; 204; 0; 0; 0; 0; 0; 0; 0; 0; 0;
   56; 108; 12; 24; 48; 96; 124; 0; 0; 0; 0; 0; 0; 0; 0; 0; 0; 0; 0; 120; 120; 120; 120; 120; 120;
   120; 0; 0; 0; 0; 0; 0; 0; 0; 0; 0; 0; 0; 0; 0; 0; 0; 0; 0; 0; 0; 0].

(** A [switch] over constants. *)
Fixpoint switch_on (cases : list (Z * Z)) (v default : Z) : Z :=
  match cases with
  | [] => default
  | (k, r) :: cases' => if v =? k then r else switch_on cases' v default
  end.

Definition unicode_to_cp437 (code_point : Z) : Z := switch_on cp437_cases code_point (-1).

(** One round of the search; the answer, or the new bounds.  [None] is a read outside the
    table. *)
Definition bisearch_step (ucs : Z) (table : list (Z * Z)) (b : Z * Z) : option Z + (Z * Z) :=
  let (min, max) := b in
  if min <=? max then
    let mid := (min + max) / 2 in
    match zget table mid with
    | None => inl None
    | Some (first, last) =>
        if last <? ucs then inr (mid + 1, max)
        else if ucs <? first then inr (min, mid - 1)
        else inl (Some 1)
    end
  else inl (Some 0).

(** [bisearch(ucs, table, max)]; the bounds of the table, then at most one round per entry. *)
Definition bisearch (ucs : Z) (table : list (Z * Z)) (max : Z) : option Z :=
  '(first, _) ← zget table 0;
  '(_, last) ← zget table max;
  if (ucs <? first) || (last <? ucs) then Some 0
  else r ← wloop (length table + 1) (bisearch_step ucs table) (0, max); r.

Definition wide (ucs : Z) : bool :=
  (4352 <=? ucs) &&
  ((ucs <=? 4447) || (ucs =? 9001) || (ucs =? 9002) ||
   ((11904 <=? ucs) && (ucs <=? 42191) && negb (ucs =? 12351)) ||
   ((44032 <=? ucs) && (ucs <=? 55203)) ||
   ((63744 <=? ucs) && (ucs <=? 64255)) ||
   ((65040 <=? ucs) && (ucs <=? 65049)) ||
   ((65072 <=? ucs) && (ucs <=? 65135)) ||
   ((65280 <=? ucs) && (ucs <=? 65376)) ||
   ((65504 <=? ucs) && (ucs <=? 65510)) ||
   ((131072 <=? ucs) && (ucs <=? 196605)) ||
   ((196608 <=? ucs) && (ucs <=? 262141))).

Definition mk_wcwidth (ucs : Z) : option Z :=
  if ucs =? 0 then Some 0
  else if (ucs <? 32) || ((127 <=? ucs) && (ucs <? 160)) then Some 1
  else
    found ← bisearch ucs combining (Z.of_nat (length combining) - 1);
    if truthy found then Some 0 else Some (1 + (if wide ucs then 1 else 0)).

(** ** The search *)

(** Intervals in increasing order, none touching the next. *)
Fixpoint ordered (table : list (Z * Z)) : bool :=
  match table with
  | [] => true
  | (a, b) :: rest => (a <=? b) && match rest with [] => true | (c, _) :: _ => b <? c end && ordered rest
  end.

Definition inside (ucs : Z) (e : Z * Z) : Prop := fst e <= ucs <= snd e.
Definition in_table (ucs : Z) (table : list (Z * Z)) : bool :=
  existsb (fun e => (fst e <=? ucs) && (ucs <=? snd e)) table.

Lemma in_table_spec ucs table : in_table ucs table = true <-> exists i e, zget table i = Some e /\ inside ucs e.
Proof.
  unfold in_table. rewrite existsb_exists. split.
  - intros (e & [i Hi]%list_elem_of_In%list_elem_of_lookup & He). exists (Z.of_nat i), e. unfold zget, inside.
    destruct (Z.ltb_spec (Z.of_nat i) 0); [lia|]. rewrite Nat2Z.id. split; [done|lia].
  - intros (i & e & Hi & He). unfold zget in Hi. destruct (i <? 0); [done|]. exists e. unfold inside in He.
    split; [apply list_elem_of_In; by eapply list_elem_of_lookup_2|lia].
Qed.

Lemma ordered_cons a b table : ordered ((a, b) :: table) = true ->
  a <= b /\ (forall e, head table = Some e -> b < fst e) /\ ordered table = true.
Proof. cbn [ordered]. intros [[Hab%Z.leb_le Hb]%andb_prop Ho]%andb_prop. destruct table as [|[c d] l]; naive_solver lia. Qed.

(** Within an ordered table every entry begins after all that come before it. *)
Lemma ordered_at table i e : ordered table = true -> table !! i = Some e -> fst e <= snd e.
Proof.
  revert i. induction table as [|[a b] rest IH]; intros [|i] Ho Hi; [done..| |]; apply ordered_cons in Ho as (Hab & _ & Ho);
    [by injection Hi as <-|by apply (IH i)].
Qed.

Lemma ordered_lt table i j e f :
  ordered table = true -> table !! i = Some e -> table !! j = Some f -> (i < j)%nat -> snd e < fst f.
Proof.
  revert i j e. induction table as [|[a b] rest IH]; intros i j e Ho Hi Hj Hij; [done|].
  apply ordered_cons in Ho as (Hab & Hb & Ho). destruct j as [|j]; [lia|]. cbn in Hj.
  destruct i as [|i]; cbn in Hi; [|by apply (IH i j); [| | |lia]]. injection Hi as <-. cbn [snd].
  destruct rest as [|[c d] rest]; [done|]. specialize (Hb _ eq_refl). cbn in Hb.
  destruct j as [|j]; [by injection Hj as <-|]. assert (d < fst f) by (apply (IH 0%nat (S j) (c, d)); [done|done|done|lia]).
  pose proof (ordered_at _ 0%nat _ Ho eq_refl). cbn in *. lia.
Qed.

(** The same for the indices of the code. *)
Lemma zget_ordered table i j e f : ordered table = true -> zget table i = Some e -> zget table j = Some f ->
  fst e <= snd e /\ (i < j -> snd e < fst f).
Proof.
  unfold zget. intros Ho Hi Hj. destruct (Z.ltb_spec i 0), (Z.ltb_spec j 0); try done.
  split; [by eapply ordered_at|]. intros. eapply (ordered_lt table (Z.to_nat i) (Z.to_nat j)); [done..|lia].
Qed.

(** Comparing with an entry tells on which side the code point can be. *)
Lemma inside_side ucs table mid a b i e : ordered table = true -> zget table mid = Some (a, b) ->
  zget table i = Some e -> inside ucs e -> (b < ucs -> mid < i) /\ (ucs < a -> i < mid).
Proof.
  intros Ho Hm Hi He. unfold inside in He.
  destruct (zget_ordered table i mid e (a, b) Ho Hi Hm) as [H1 H2], (zget_ordered table mid i (a, b) e Ho Hm Hi) as [H3 H4].
  cbn in *. destruct (Z.lt_trichotomy i mid) as [?|[->|?]]; [split; lia| |split; lia].
  rewrite Hm in Hi. injection Hi as <-. cbn in *. split; lia.
Qed.

(** One round keeps the entry the code point may be in between the bounds. *)
Lemma bisearch_step_ok ucs table min max : ordered table = true ->
  0 <= min -> max < Z.of_nat (length table) -> min <= max + 1 ->
  (forall i e, zget table i = Some e -> inside ucs e -> min <= i <= max) ->
  match bisearch_step ucs table (min, max) with
  | inl r => r = Some (if in_table ucs table then 1 else 0)
  | inr (min', max') => 0 <= min' /\ max' < Z.of_nat (length table) /\ min' <= max' + 1 /\ max' - min' < max - min /\
      (forall i e, zget table i = Some e -> inside ucs e -> min' <= i <= max')
  end.
Proof.
  intros Ho Hmin Hmax Hle Hin. unfold bisearch_step. destruct (Z.leb_spec min max) as [H|H].
  - assert (min <= (min + max) / 2 <= max) as Hmid by (split; [apply Z.div_le_lower_bound; lia|apply Z.div_le_upper_bound; lia]).
    generalize dependent ((min + max) / 2). intros mid Hmid. destruct (zget_Some table mid ltac:(lia)) as [[a b] E]. rewrite E.
    destruct (Z.ltb_spec b ucs); [|destruct (Z.ltb_spec ucs a)].
    1, 2: split_and!; try lia; intros i e Hi He; specialize (Hin i e Hi He); pose proof (inside_side _ _ _ _ _ _ _ Ho E Hi He); lia.
    replace (in_table ucs table) with true; [done|]. symmetry. apply in_table_spec. exists mid, (a, b). by unfold inside.
  - destruct (in_table ucs table) eqn:E; [|done]. apply in_table_spec in E as (i & e & Hi & He). specialize (Hin i e Hi He). lia.
Qed.

(** The search answers whether the code point is in one of the intervals. *)
Lemma bisearch_spec ucs table : table <> [] -> ordered table = true ->
  bisearch ucs table (Z.of_nat (length table) - 1) = Some (if in_table ucs table then 1 else 0).
Proof.
  intros Hne Ho. assert (0 < Z.of_nat (length table)) as Hl by (destruct table; [done|cbn; lia]). unfold bisearch.
  destruct (zget_Some table 0 ltac:(lia)) as [[a0 b0] E0], (zget_Some table (Z.of_nat (length table) - 1) ltac:(lia)) as [[a1 b1] E1].
  rewrite E0, E1. cbn [mbind option_bind]. destruct ((ucs <? a0) || (b1 <? ucs)) eqn:E.
  - destruct (in_table ucs table) eqn:Et; [|done]. apply in_table_spec in Et as (i & e & Hi & He). exfalso.
    pose proof (zget_lt _ _ _ Hi). pose proof (inside_side _ _ _ _ _ _ _ Ho E0 Hi He).
    pose proof (inside_side _ _ _ _ _ _ _ Ho E1 Hi He). lia.
  - destruct (wloop_total
      (fun b => 0 <= fst b /\ snd b < Z.of_nat (length table) /\ fst b <= snd b + 1 /\
         forall i e, zget table i = Some e -> inside ucs e -> fst b <= i <= snd b)
      (fun r => r = Some (if in_table ucs table then 1 else 0)) (fun b => snd b - fst b + 1)
      (bisearch_step ucs table) (length table + 1) (0, Z.of_nat (length table) - 1)) as (r & -> & ->); [| |.. |done].
    + cbn. split_and!; try lia. intros i e Hi%zget_lt _. lia.
    + cbn. lia.
    + intros [min max] (H1 & H2 & H3 & H4) _. pose proof (bisearch_step_ok ucs table min max Ho H1 H2 H3 H4) as H.
      destruct (bisearch_step ucs table (min, max)) as [r|[min' max']]; [done|]. cbn [fst snd] in *.
      destruct H as (? & ? & ? & ? & ?). split; [done|lia].
Qed.

Lemma combining_ordered : ordered combining = true.
Proof. vm_compute. reflexivity. Qed.

(** The width of any code point: 0 for a combining character, 2 for a wide one. *)
Lemma mk_wcwidth_spec ucs : mk_wcwidth ucs = Some
  (if (ucs =? 0) then 0
   else if (ucs <? 32) || ((127 <=? ucs) && (ucs <? 160)) then 1
   else if in_table ucs combining then 0 else if wide ucs then 2 else 1).
Proof.
  unfold mk_wcwidth. rewrite bisearch_spec by done. destruct (ucs =? 0); [done|]. case_if; [done|]. cbn [mbind option_bind].
  destruct (in_table ucs combining), (wide ucs); reflexivity.
Qed.

Lemma mk_wcwidth_range ucs : exists r, mk_wcwidth ucs = Some r /\ 0 <= r <= 2.
Proof. rewrite mk_wcwidth_spec. eexists; split; [done|]. repeat case_if; lia. Qed.

(** What a [switch] answers is the default or one of its cases. *)
Lemma switch_on_Forall (P : Z -> Prop) cases v d : P d -> Forall (fun e => P (snd e)) cases -> P (switch_on cases v d).
Proof. intros Hd. induction 1 as [|[k r] l Hr _ IH]; [done|]. cbn. by case_if. Qed.

Lemma dec_special_range c : -1 <= switch_on dec_special_cases c (-1) < 256.
Proof. apply (switch_on_Forall (fun r => -1 <= r < 256)); [lia|]. repeat constructor; cbn; lia. Qed.
