(* ===== verification/Flanterm.v ===== *)
(** * The terminal's parser, [src/src/flanterm/flanterm.c]

    Bytes are decoded (UTF-8, control characters, escape sequences) and turned into calls
    of a back end, through the function pointers of [struct flanterm_context]; [Backend] is
    that interface, which [FbTerm] implements for the framebuffer.  A computation answers
    [None] when it reads or writes outside an array.  The client's callback, a notification
    the kernel does not use, is taken to leave the context alone: its calls are listed. *)

From Stdlib Require Import Ascii.
From S2P Require Import Prelude TermTables.

(** A character constant. *)
Notation "'ch' s" := (ltac:(let v := eval vm_compute in (Z.of_N (N_of_ascii s%char)) in exact v))
  (at level 9, only parsing).

(** ** The context (flanterm_private.h) *)

Definition FLANTERM_MAX_ESC_VALUES : Z := 16.
Definition CHARSET_DEFAULT : Z := 0.
Definition CHARSET_DEC_SPECIAL : Z := 1.
Definition FLANTERM_OOB_OUTPUT_ONLCR : Z := 16.
(** [(size_t)-1] *)
Definition NONE : Z := 18446744073709551615.

(** The fields the code does not set through function pointers.  [callback] is whether there
    is one, [calls] the arguments it got. *)
Record flanterm_context := Ctx {
  tab_size : Z;
  autoflush : bool; cursor_enabled : bool; scroll_enabled : bool;
  control_sequence : bool; escape : bool; osc : bool; osc_escape : bool;
  rrr : bool; discard_next : bool; bold : bool; bg_bold : bool; reverse_video : bool;
  dec_private : bool; insert_mode : bool;
  code_point : Z; unicode_remaining : Z; g_select : Z;
  charsets : list Z; current_charset : Z;
  escape_offset : Z; esc_values_i : Z;
  saved_cursor_x : Z; saved_cursor_y : Z;
  current_primary : Z; current_bg : Z;
  scroll_top_margin : Z; scroll_bottom_margin : Z;
  esc_values : list Z;
  oob_output : Z;
  saved_state_bold : bool; saved_state_bg_bold : bool; saved_state_reverse_video : bool;
  saved_state_current_charset : Z; saved_state_current_primary : Z; saved_state_current_bg : Z;
  rows : Z; cols : Z;
  callback : bool; calls : list (Z * Z * Z * Z) }.

#[export] Instance ctx_eta : Eta flanterm_context := EtaOf _ (fun c =>
  Ctx (tab_size c) (autoflush c) (cursor_enabled c) (scroll_enabled c) (control_sequence c) (escape c) (osc c)
    (osc_escape c) (rrr c) (discard_next c) (bold c) (bg_bold c) (reverse_video c) (dec_private c) (insert_mode c)
    (code_point c) (unicode_remaining c) (g_select c) (charsets c) (current_charset c) (escape_offset c)
    (esc_values_i c) (saved_cursor_x c) (saved_cursor_y c) (current_primary c) (current_bg c) (scroll_top_margin c)
    (scroll_bottom_margin c) (esc_values c) (oob_output c) (saved_state_bold c) (saved_state_bg_bold c)
    (saved_state_reverse_video c) (saved_state_current_charset c) (saved_state_current_primary c)
    (saved_state_current_bg c) (rows c) (cols c) (callback c) (calls c)).

(** The code leaves [code_point], [esc_values] and the saved state as they are. *)
Definition flanterm_context_reinit (c : flanterm_context) : flanterm_context :=
  c <| tab_size := 8 |> <| autoflush := true |> <| cursor_enabled := true |> <| scroll_enabled := true |>
    <| control_sequence := false |> <| escape := false |> <| osc := false |> <| osc_escape := false |>
    <| rrr := false |> <| discard_next := false |> <| bold := false |> <| bg_bold := false |>
    <| reverse_video := false |> <| dec_private := false |> <| insert_mode := false |>
    <| unicode_remaining := 0 |> <| g_select := 0 |>
    <| charsets := [CHARSET_DEFAULT; CHARSET_DEC_SPECIAL] |> <| current_charset := 0 |>
    <| escape_offset := 0 |> <| esc_values_i := 0 |> <| saved_cursor_x := 0 |> <| saved_cursor_y := 0 |>
    <| current_primary := NONE |> <| current_bg := NONE |>
    <| scroll_top_margin := 0 |> <| scroll_bottom_margin := rows c |>
    <| oob_output := FLANTERM_OOB_OUTPUT_ONLCR |>.

(** ** The back end *)

Class Backend (B : Type) := {
  raw_putchar : flanterm_context -> Z -> B -> option B;
  clear : flanterm_context -> bool -> B -> option B;
  set_cursor_pos : flanterm_context -> Z -> Z -> B -> option B;
  get_cursor_pos : flanterm_context -> B -> Z * Z;
  set_text_fg : flanterm_context -> Z -> B -> option B;
  set_text_bg : flanterm_context -> Z -> B -> option B;
  set_text_fg_bright : flanterm_context -> Z -> B -> option B;
  set_text_bg_bright : flanterm_context -> Z -> B -> option B;
  set_text_fg_rgb : flanterm_context -> Z -> B -> option B;
  set_text_bg_rgb : flanterm_context -> Z -> B -> option B;
  set_text_fg_default : flanterm_context -> B -> option B;
  set_text_bg_default : flanterm_context -> B -> option B;
  set_text_fg_default_bright : flanterm_context -> B -> option B;
  set_text_bg_default_bright : flanterm_context -> B -> option B;
  move_character : flanterm_context -> Z -> Z -> Z -> Z -> B -> option B;
  scroll : flanterm_context -> B -> option B;
  revscroll : flanterm_context -> B -> option B;
  swap_palette : flanterm_context -> B -> option B;
  save_state_b : flanterm_context -> B -> option B;
  restore_state_b : flanterm_context -> B -> option B;
  double_buffer_flush : flanterm_context -> B -> option B;
  full_refresh : flanterm_context -> B -> option B }.

(** A terminal: the context and its back end. *)
Record term (B : Type) := Term { ctx : flanterm_context; back : B }.
Arguments Term {B} ctx back.
Arguments ctx {B} t.
Arguments back {B} t.

(** Computations on it. *)
Definition tm (B A : Type) : Type := term B -> option (A * term B).

#[global] Instance tm_ret {B} : MRet (tm B) := fun A a s => Some (a, s).
#[global] Instance tm_bind {B} : MBind (tm B) := fun A A' k m s =>
  match m s with Some (a, s') => k a s' | None => None end.

Section Parser.
Context {B : Type} `{!Backend B}.
Notation M := (tm B).

Definition get {A} (f : flanterm_context -> A) : M A := fun s => Some (f (ctx s), s).
Definition put (f : flanterm_context -> flanterm_context) : M unit := fun s => Some (tt, Term (f (ctx s)) (back s)).
Definition call (op : flanterm_context -> B -> option B) : M unit := fun s =>
  match op (ctx s) (back s) with Some b => Some (tt, Term (ctx s) b) | None => None end.
Definition cursor : M (Z * Z) := fun s => Some (get_cursor_pos (ctx s) (back s), s).
Definition lift {A} (o : option A) : M A := fun s => match o with Some a => Some (a, s) | None => None end.

(** [for (i = lo; i < lo + n; i++) f(i);] *)
Fixpoint loop (n : nat) (lo : Z) (f : Z -> M unit) : M unit :=
  match n with O => mret tt | S n' => f lo;; loop n' (lo + 1) f end.

Definition esc (i : Z) : M Z := v ← get esc_values; lift (zget v i).
Definition set_esc (i v : Z) : M unit :=
  l ← get esc_values; l' ← lift (zset l i v); put (fun c => c <| esc_values := l' |>).

Definition notify (a1 a2 a3 a4 : Z) : M unit :=
  b ← get callback; if b : bool then put (fun c => c <| calls := calls c ++ [(a1, a2, a3, a4)] |>) else mret tt.

(** ** Character attributes *)

(** The colour [cur] or the default, of the foreground or the background depending on the
    reverse video mode: the cases 1, 5, 22 and 25. *)
Definition recolour (cur : Z) (idx idx' : flanterm_context -> Z -> B -> option B)
    (def def' : flanterm_context -> B -> option B) : M unit :=
  rv ← get reverse_video;
  if negb (cur =? NONE) then
    if negb rv then call (fun c => idx c cur) else call (fun c => idx' c cur)
  else if negb rv then call def else call def'.

(** The labels [set_fg], [set_bg]. *)
Definition sgr_set_fg (v : Z) : M unit :=
  b ← get bold; bb ← get bg_bold; rv ← get reverse_video;
  if (b && negb rv) || (bb && rv) then call (fun c => set_text_fg_bright c v) else call (fun c => set_text_fg c v).
Definition sgr_set_bg (v : Z) : M unit :=
  b ← get bold; bb ← get bg_bold; rv ← get reverse_video;
  if (b && rv) || (bb && negb rv) then call (fun c => set_text_bg_bright c v) else call (fun c => set_text_bg c v).

(** [body] with the palette swapped if the video is reversed. *)
Definition unreversed (body : M unit) : M unit :=
  rv ← get reverse_video;
  (if rv : bool then call swap_palette else mret tt);;
  body;;
  rv ← get reverse_video;
  if rv : bool then call swap_palette else mret tt.

(** The reset, [def]. *)
Definition sgr_reset : M unit :=
  rv ← get reverse_video;
  (if rv : bool then put (fun c => c <| reverse_video := false |>);; call swap_palette else mret tt);;
  put (fun c => c <| bold := false |> <| bg_bold := false |> <| current_primary := NONE |> <| current_bg := NONE |>);;
  call set_text_bg_default;;
  call set_text_fg_default.

(** The 256 colour and RGB forms, from their second value on; the answer: the index of
    the last value used, or [None] to leave the loop. *)
Definition sgr_extended (fg : bool) (i : Z) : M (option Z) :=
  let i := i + 1 in
  n ← get esc_values_i;
  if n <=? i then mret None
  else
    v ← esc i;
    if v =? 2 then
      if n <=? i + 3 then mret None
      else
        r ← esc (i + 1); g ← esc (i + 2); b ← esc (i + 3);
        let rgb := u32 (r <<< 16) ||| u32 (g <<< 8) ||| b in
        call (fun c => (if fg then set_text_fg_rgb else set_text_bg_rgb) c rgb);;
        mret (Some (i + 3))
    else if v =? 5 then
      if n <=? i + 1 then mret None
      else
        col ← esc (i + 1);
        (if col <? 8 then call (fun c => (if fg then set_text_fg else set_text_bg) c col)
         else if col <? 16 then call (fun c => (if fg then set_text_fg_bright else set_text_bg_bright) c (col - 8))
         else if col <? 256 then
           rgb ← lift (zget col256 (col - 16));
           call (fun c => (if fg then set_text_fg_rgb else set_text_bg_rgb) c rgb)
         else mret tt);;
        mret (Some (i + 1))
    else mret (Some i).

(** One value [v] of the sequence, at index [i]; the answer as for [sgr_extended]. *)
Definition sgr_value (i v : Z) : M (option Z) :=
  if v =? 0 then sgr_reset;; mret (Some i)
  else if v =? 1 then
    put (fun c => c <| bold := true |>);; cur ← get current_primary;
    recolour cur set_text_fg_bright set_text_bg_bright set_text_fg_default_bright set_text_bg_default_bright;;
    mret (Some i)
  else if v =? 5 then
    put (fun c => c <| bg_bold := true |>);; cur ← get current_bg;
    recolour cur set_text_bg_bright set_text_fg_bright set_text_bg_default_bright set_text_fg_default_bright;;
    mret (Some i)
  else if v =? 22 then
    put (fun c => c <| bold := false |>);; cur ← get current_primary;
    recolour cur set_text_fg set_text_bg set_text_fg_default set_text_bg_default;;
    mret (Some i)
  else if v =? 25 then
    put (fun c => c <| bg_bold := false |>);; cur ← get current_bg;
    recolour cur set_text_bg set_text_fg set_text_bg_default set_text_fg_default;;
    mret (Some i)
  else if (30 <=? v) && (v <=? 37) then
    put (fun c => c <| current_primary := v - 30 |>);; rv ← get reverse_video;
    (if rv : bool then sgr_set_bg (v - 30) else sgr_set_fg (v - 30));; mret (Some i)
  else if (40 <=? v) && (v <=? 47) then
    put (fun c => c <| current_bg := v - 40 |>);; rv ← get reverse_video;
    (if rv : bool then sgr_set_fg (v - 40) else sgr_set_bg (v - 40));; mret (Some i)
  else if (90 <=? v) && (v <=? 97) then
    put (fun c => c <| current_primary := v - 90 |>);; rv ← get reverse_video;
    call (fun c => (if rv : bool then set_text_bg_bright else set_text_fg_bright) c (v - 90));; mret (Some i)
  else if (100 <=? v) && (v <=? 107) then
    put (fun c => c <| current_bg := v - 100 |>);; rv ← get reverse_video;
    call (fun c => (if rv : bool then set_text_fg_bright else set_text_bg_bright) c (v - 100));; mret (Some i)
  else if v =? 39 then
    put (fun c => c <| current_primary := NONE |>);;
    unreversed (b ← get bold; if negb b then call set_text_fg_default else call set_text_fg_default_bright);;
    mret (Some i)
  else if v =? 49 then
    put (fun c => c <| current_bg := NONE |>);;
    unreversed (b ← get bg_bold; if negb b then call set_text_bg_default else call set_text_bg_default_bright);;
    mret (Some i)
  else if v =? 7 then
    rv ← get reverse_video;
    (if negb rv then put (fun c => c <| reverse_video := true |>);; call swap_palette else mret tt);; mret (Some i)
  else if v =? 27 then
    rv ← get reverse_video;
    (if rv : bool then put (fun c => c <| reverse_video := false |>);; call swap_palette else mret tt);; mret (Some i)
  else if (v =? 38) || (v =? 48) then sgr_extended (v =? 38) i
  else mret (Some i).

Fixpoint sgr_loop (fuel : nat) (i : Z) : M unit :=
  match fuel with
  | O => lift None
  | S fuel' =>
      n ← get esc_values_i;
      if i <? n then
        v ← esc i; next ← sgr_value i v;
        match next with Some j => sgr_loop fuel' (j + 1) | None => mret tt end
      else mret tt
  end.

(** Each round takes at least one of the sixteen values. *)
Definition sgr : M unit :=
  n ← get esc_values_i;
  if n =? 0 then sgr_reset else sgr_loop 17 0.

(** ** Private sequences and modes *)

(** [h] sets, [l] resets, anything else is ignored. *)
Definition set_or_reset (c : Z) (k : bool -> M unit) : M unit :=
  if c =? ch "h" then k true else if c =? ch "l" then k false else mret tt.

(** The callback's pointer to the values is listed as 0. *)
Definition dec_private_parse (c : Z) : M unit :=
  put (fun k => k <| dec_private := false |>);;
  n ← get esc_values_i;
  if n =? 0 then mret tt
  else set_or_reset c (fun set =>
    v ← esc 0;
    if v =? 25 then put (fun k => k <| cursor_enabled := set |>)
    else notify 10 n 0 c).

Definition linux_private_parse : M unit :=
  n ← get esc_values_i; if n =? 0 then mret tt else notify 80 n 0 0.

Definition mode_toggle (c : Z) : M unit :=
  n ← get esc_values_i;
  if n =? 0 then mret tt
  else set_or_reset c (fun set =>
    v ← esc 0;
    if v =? 4 then put (fun k => k <| insert_mode := set |>) else notify 70 n 0 c).

Definition osc_parse (c : Z) : M unit :=
  let cleanup := put (fun k => k <| osc_escape := false |> <| osc := false |> <| escape := false |>) in
  e ← get osc_escape;
  if e && (c =? ch "\") then cleanup
  else
    put (fun k => k <| osc_escape := false |>);;
    if c =? 27 then put (fun k => k <| osc_escape := true |>) else cleanup.

(** ** Control sequences *)

Definition goto (x y : Z) : M unit := call (fun c => set_cursor_pos c x y).
Definition blank : M unit := call (fun c => raw_putchar c (ch " ")).

(** [A]; [F] with column 0. *)
Definition csi_up (x y : Z) : M unit :=
  v ← esc 0; (if y <? v then set_esc 0 (u32 y) else mret tt);;
  v ← esc 0; top ← get scroll_top_margin; bottom ← get scroll_bottom_margin;
  let dest_y := u64 (y - v) in
  let will_be_in_scroll_region :=
    ((dest_y <=? top) && (top <=? y)) || ((dest_y <=? bottom) && (bottom <=? y)) in
  goto x (if will_be_in_scroll_region && (dest_y <? top) then top else dest_y).

(** [B], [e]; [E] with column 0. *)
Definition csi_down (x y : Z) : M unit :=
  v ← esc 0; h ← get rows;
  (if u64 (h - 1) <? u64 (y + v) then set_esc 0 (u32 (h - 1 - y)) else mret tt);;
  v ← esc 0; top ← get scroll_top_margin; bottom ← get scroll_bottom_margin;
  let dest_y := u64 (y + v) in
  let will_be_in_scroll_region :=
    ((y <=? top) && (top <=? dest_y)) || ((y <=? bottom) && (bottom <=? dest_y)) in
  goto x (if will_be_in_scroll_region && (bottom <=? dest_y) then u64 (bottom - 1) else dest_y).

(** [a], [C] *)
Definition csi_right (x y : Z) : M unit :=
  v ← esc 0; w ← get cols;
  (if u64 (w - 1) <? u64 (x + v) then set_esc 0 (u32 (w - 1 - x)) else mret tt);;
  v ← esc 0; goto (u64 (x + v)) y.

(** [D] *)
Definition csi_left (x y : Z) : M unit :=
  v ← esc 0; (if x <? v then set_esc 0 (u32 x) else mret tt);;
  v ← esc 0; goto (u64 (x - v)) y.

(** [d] *)
Definition csi_row (x : Z) : M unit :=
  v ← esc 0; set_esc 0 (u32 (v - 1));;
  v ← esc 0; h ← get rows; (if h <=? v then set_esc 0 (u32 (h - 1)) else mret tt);;
  v ← esc 0; goto x v.

(** [G], [`] *)
Definition csi_column (y : Z) : M unit :=
  v ← esc 0; set_esc 0 (u32 (v - 1));;
  v ← esc 0; w ← get cols; (if w <=? v then set_esc 0 (u32 (w - 1)) else mret tt);;
  v ← esc 0; goto v y.

(** [H], [f] *)
Definition csi_position : M unit :=
  v0 ← esc 0; (if negb (v0 =? 0) then set_esc 0 (v0 - 1) else mret tt);;
  v1 ← esc 1; (if negb (v1 =? 0) then set_esc 1 (v1 - 1) else mret tt);;
  w ← get cols; h ← get rows;
  v1 ← esc 1; (if w <=? v1 then set_esc 1 (u32 (w - 1)) else mret tt);;
  v0 ← esc 0; (if h <=? v0 then set_esc 0 (u32 (h - 1)) else mret tt);;
  v1 ← esc 1; v0 ← esc 0; goto v1 v0.

(** [M] *)
Definition csi_delete_lines : M unit :=
  v ← esc 0; h ← get rows;
  loop (Z.to_nat (if h <? v then h else v)) 0 (fun _ => call scroll).

(** [L] *)
Definition csi_insert_lines (y : Z) : M unit :=
  old ← get scroll_top_margin;
  put (fun c => c <| scroll_top_margin := y |>);;
  v ← esc 0; h ← get rows;
  loop (Z.to_nat (if h <? v then h else v)) 0 (fun _ => call revscroll);;
  put (fun c => c <| scroll_top_margin := old |>).

(** Leaves both loops at the cursor. *)
Fixpoint loop_until (n : nat) (lo : Z) (f : Z -> M bool) : M bool :=
  match n with
  | O => mret false
  | S n' => b ← f lo; if b : bool then mret true else loop_until n' (lo + 1) f
  end.

(** [J] *)
Definition csi_erase_display (x y : Z) : M unit :=
  v ← esc 0; h ← get rows; w ← get cols;
  if v =? 0 then
    let rows_remaining := u64 (h - (y + 1)) in
    let cols_diff := u64 (w - (x + 1)) in
    loop (Z.to_nat (u64 (rows_remaining * w + cols_diff + 1))) 0 (fun _ => blank);;
    goto x y
  else if v =? 1 then
    goto 0 0;;
    loop_until (Z.to_nat h) 0 (fun yc =>
      loop_until (Z.to_nat w) 0 (fun xc =>
        blank;;
        if (xc =? x) && (yc =? y) then goto x y;; mret true else mret false));;
    mret tt
  else if (v =? 2) || (v =? 3) then call (fun c => clear c false)
  else mret tt.

(** [for (i = cols - 1;; i--) { f(i); if (i == x) break; }] *)
Fixpoint down_to (fuel : nat) (i x : Z) (f : Z -> M unit) : M unit :=
  match fuel with
  | O => lift None
  | S fuel' => f i;; if i =? x then mret tt else down_to fuel' (u64 (i - 1)) x f
  end.

(** [@] *)
Definition csi_insert_chars (x y : Z) : M unit :=
  w ← get cols;
  down_to (Z.to_nat w) (u64 (w - 1)) x (fun i =>
    v ← esc 0; call (fun c => move_character c (u64 (i + v)) y i y);; goto i y;; blank);;
  goto x y.

(** [X] *)
Definition csi_erase_chars (x y : Z) : M unit :=
  v ← esc 0; w ← get cols;
  loop (Z.to_nat (if w <? v then w else v)) 0 (fun _ => blank);;
  goto x y.

(** [P], which goes on as [X] *)
Definition csi_delete_chars (x y : Z) : M unit :=
  v ← esc 0; w ← get cols;
  loop (Z.to_nat (w - (x + v))) (x + v) (fun i => call (fun c => move_character c (u64 (i - v)) y i y));;
  goto (u64 (w - v)) y;;
  csi_erase_chars x y.

(** [K] *)
Definition csi_erase_line (x y : Z) : M unit :=
  v ← esc 0; w ← get cols;
  if v =? 0 then loop (Z.to_nat (w - x)) x (fun _ => blank);; goto x y
  else if v =? 1 then goto 0 y;; loop (Z.to_nat x) 0 (fun _ => blank)
  else if v =? 2 then goto 0 y;; loop (Z.to_nat w) 0 (fun _ => blank);; goto x y
  else mret tt.

(** [r] *)
Definition csi_margins : M unit :=
  v0 ← esc 0; (if v0 =? 0 then set_esc 0 1 else mret tt);;
  v1 ← esc 1; (if v1 =? 0 then set_esc 1 1 else mret tt);;
  h ← get rows; n ← get esc_values_i; v0 ← esc 0; v1 ← esc 1;
  let top := if 0 <? n then v0 - 1 else 0 in
  let bottom := if 1 <? n then v1 else h in
  (if (h <=? top) || (h <? bottom) || (u64 (bottom - 1) <=? top)
   then put (fun c => c <| scroll_top_margin := 0 |> <| scroll_bottom_margin := h |>)
   else put (fun c => c <| scroll_top_margin := top |> <| scroll_bottom_margin := bottom |>));;
  goto 0 0.

(** [n] *)
Definition csi_report (x y : Z) : M unit :=
  v ← esc 0;
  if v =? 5 then notify 40 0 0 0 else if v =? 6 then notify 50 (x + 1) (y + 1) 0 else mret tt.

Definition csi_dispatch (c x y : Z) : M unit :=
  if c =? ch "F" then csi_up 0 y
  else if c =? ch "A" then csi_up x y
  else if c =? ch "E" then csi_down 0 y
  else if (c =? ch "e") || (c =? ch "B") then csi_down x y
  else if (c =? ch "a") || (c =? ch "C") then csi_right x y
  else if c =? ch "D" then csi_left x y
  else if c =? ch "c" then notify 30 0 0 0
  else if c =? ch "d" then csi_row x
  else if (c =? ch "G") || (c =? ch "`") then csi_column y
  else if (c =? ch "H") || (c =? ch "f") then csi_position
  else if c =? ch "M" then csi_delete_lines
  else if c =? ch "L" then csi_insert_lines y
  else if c =? ch "n" then csi_report x y
  else if c =? ch "q" then v ← esc 0; notify 60 v 0 0
  else if c =? ch "J" then csi_erase_display x y
  else if c =? ch "@" then csi_insert_chars x y
  else if c =? ch "P" then csi_delete_chars x y
  else if c =? ch "X" then csi_erase_chars x y
  else if c =? ch "m" then sgr
  else if c =? ch "s" then
    '(sx, sy) ← cursor; put (fun c => c <| saved_cursor_x := sx |> <| saved_cursor_y := sy |>)
  else if c =? ch "u" then sx ← get saved_cursor_x; sy ← get saved_cursor_y; goto sx sy
  else if c =? ch "K" then csi_erase_line x y
  else if c =? ch "r" then csi_margins
  else if (c =? ch "l") || (c =? ch "h") then mode_toggle c
  else if c =? ch "]" then linux_private_parse
  else mret tt.

Definition csi_cleanup : M unit := put (fun k => k <| control_sequence := false |> <| escape := false |>).

(** The final byte [c]: missing values get their defaults. *)
Definition csi_final (c : Z) : M unit :=
  let esc_default := if (c =? ch "J") || (c =? ch "K") || (c =? ch "q") then 0 else 1 in
  n ← get esc_values_i;
  loop (Z.to_nat (FLANTERM_MAX_ESC_VALUES - n)) n (fun i => set_esc i esc_default);;
  p ← get dec_private;
  if p : bool then dec_private_parse c;; csi_cleanup
  else
    r ← get scroll_enabled;
    put (fun k => k <| scroll_enabled := false |>);;
    '(x, y) ← cursor;
    csi_dispatch c x y;;
    put (fun k => k <| scroll_enabled := r |>);;
    csi_cleanup.

Definition control_sequence_parse (c : Z) : M unit :=
  off ← get escape_offset;
  if (off =? 2) && (c =? ch "[") then put (fun k => k <| discard_next := true |>);; csi_cleanup
  else if (off =? 2) && (c =? ch "?") then put (fun k => k <| dec_private := true |>)
  else if (ch "0" <=? c) && (c <=? ch "9") then
    n ← get esc_values_i;
    if n =? FLANTERM_MAX_ESC_VALUES then mret tt
    else
      put (fun k => k <| rrr := true |>);;
      v ← esc n; set_esc n (u32 (v * 10));;
      v ← esc n; set_esc n (u32 (v + (c - ch "0")))
  else
    r ← get rrr; n ← get esc_values_i;
    if r : bool then
      put (fun k => k <| esc_values_i := n + 1 |> <| rrr := false |>);;
      if c =? ch ";" then mret tt else csi_final c
    else if c =? ch ";" then
      if n =? FLANTERM_MAX_ESC_VALUES then mret tt
      else set_esc n 0;; put (fun k => k <| esc_values_i := n + 1 |>)
    else csi_final c.

(** ** Escape sequences *)

Definition restore_state : M unit :=
  put (fun c => c <| bold := saved_state_bold c |> <| bg_bold := saved_state_bg_bold c |>
                  <| reverse_video := saved_state_reverse_video c |>
                  <| current_charset := saved_state_current_charset c |>
                  <| current_primary := saved_state_current_primary c |>
                  <| current_bg := saved_state_current_bg c |>);;
  call restore_state_b.

Definition save_state : M unit :=
  call save_state_b;;
  put (fun c => c <| saved_state_bold := bold c |> <| saved_state_bg_bold := bg_bold c |>
                  <| saved_state_reverse_video := reverse_video c |>
                  <| saved_state_current_charset := current_charset c |>
                  <| saved_state_current_primary := current_primary c |>
                  <| saved_state_current_bg := current_bg c |>).

(** Down a line, scrolling at the bottom margin. *)
Definition line_feed (x y : Z) : M unit :=
  bottom ← get scroll_bottom_margin;
  if y =? u64 (bottom - 1) then call scroll;; goto x y else goto x (y + 1).

Definition escape_parse (c : Z) : M unit :=
  put (fun k => k <| escape_offset := u64 (escape_offset k + 1) |>);;
  o ← get osc; cs ← get control_sequence;
  if o : bool then osc_parse c
  else if cs : bool then control_sequence_parse c
  else
    '(x, y) ← cursor;
    let over := put (fun k => k <| escape := false |>) in
    if c =? ch "]" then put (fun k => k <| osc_escape := false |> <| osc := true |>)
    else if c =? ch "[" then
      put (fun k => k <| esc_values := replicate 16 0 |> <| esc_values_i := 0 |> <| rrr := false |>
                      <| control_sequence := true |>)
    else if c =? ch "7" then save_state;; over
    else if c =? ch "8" then restore_state;; over
    else if c =? ch "c" then put flanterm_context_reinit;; call (fun k => clear k true);; over
    else if c =? ch "D" then line_feed x y;; over
    else if c =? ch "E" then line_feed 0 y;; over
    else if c =? ch "M" then
      top ← get scroll_top_margin;
      (if y =? top then call revscroll;; goto 0 y else goto 0 (u64 (y - 1)));; over
    else if c =? ch "Z" then notify 30 0 0 0;; over
    else if (c =? ch "(") || (c =? ch ")") then put (fun k => k <| g_select := c - 39 |>);; over
    else over.

(** ** Characters *)

(** The answer: whether the character has a line drawing glyph. *)
Definition dec_special_print (c : Z) : M bool :=
  let g := switch_on dec_special_cases c (-1) in
  if g =? -1 then mret false else call (fun k => raw_putchar k g);; mret true.

(** A complete code point. *)
Definition print_code_point : M unit :=
  cp ← get code_point;
  let cc := unicode_to_cp437 cp in
  if cc =? -1 then
    replacement_width ← lift (mk_wcwidth (u32 cp));
    (if 0 <? replacement_width then call (fun c => raw_putchar c 254) else mret tt);;
    loop (Z.to_nat (replacement_width - 1)) 1 (fun _ => blank)
  else call (fun c => raw_putchar c (u8 cc)).

(** The first byte of an encoded code point. *)
Definition start_code_point (c : Z) : M unit :=
  if c <=? 223 then put (fun k => k <| unicode_remaining := 1 |> <| code_point := (c &&& 31) <<< 6 |>)
  else if c <=? 239 then put (fun k => k <| unicode_remaining := 2 |> <| code_point := (c &&& 15) <<< 12 |>)
  else put (fun k => k <| unicode_remaining := 3 |> <| code_point := (c &&& 7) <<< 18 |>).

(** A character to be shown. *)
Definition print_char (c x y : Z) : M unit :=
  im ← get insert_mode; w ← get cols;
  (if im : bool
   then down_to (Z.to_nat w) (u64 (w - 1)) x (fun i => call (fun k => move_character k (u64 (i + 1)) y i y))
   else mret tt);;
  cs ← get charsets; cur ← get current_charset; set ← lift (zget cs cur);
  done ← (if set =? CHARSET_DEC_SPECIAL then dec_special_print c else mret false);
  if done : bool then mret tt
  else if (32 <=? c) && (c <=? 126) then call (fun k => raw_putchar k c)
  else call (fun k => raw_putchar k 254).

(** Everything that is not part of a code point. *)
Definition putchar_byte (c : Z) : M unit :=
  e ← get escape; g ← get g_select;
  if e : bool then escape_parse c
  else if truthy g then
    cs ← get charsets;
    (if c =? ch "B" then cs' ← lift (zset cs (g - 1) CHARSET_DEFAULT); put (fun k => k <| charsets := cs' |>)
     else if c =? ch "0" then cs' ← lift (zset cs (g - 1) CHARSET_DEC_SPECIAL); put (fun k => k <| charsets := cs' |>)
     else mret tt);;
    put (fun k => k <| g_select := 0 |>)
  else
    '(x, y) ← cursor;
    if (c =? 0) || (c =? 127) then mret tt
    else if c =? 27 then put (fun k => k <| escape_offset := 0 |> <| escape := true |>)
    else if c =? 9 then
      t ← get tab_size; w ← get cols;
      if w <=? x / t + 1 then goto (u64 (w - 1)) y else goto ((x / t + 1) * t) y
    else if (c =? 11) || (c =? 12) || (c =? 10) then
      oob ← get oob_output;
      line_feed (if truthy (oob &&& FLANTERM_OOB_OUTPUT_ONLCR) then 0 else x) y
    else if c =? 8 then goto (u64 (x - 1)) y
    else if c =? 13 then goto 0 y
    else if c =? 7 then notify 20 0 0 0
    else if c =? 14 then put (fun k => k <| current_charset := 1 |>)
    else if c =? 15 then put (fun k => k <| current_charset := 0 |>)
    else print_char c x y.

Definition flanterm_putchar (c : Z) : M unit :=
  d ← get discard_next;
  if d || ((c =? 24) || (c =? 26)) then
    put (fun k => k <| discard_next := false |> <| escape := false |> <| control_sequence := false |>
                    <| unicode_remaining := 0 |> <| osc := false |> <| osc_escape := false |> <| g_select := 0 |>)
  else
    n ← get unicode_remaining;
    if negb (n =? 0) && (c &&& 192 =? 128) then
      put (fun k => k <| unicode_remaining := n - 1 |>
                      <| code_point := code_point k ||| ((c &&& 63) <<< (6 * (n - 1))) |>);;
      if negb (n - 1 =? 0) then mret tt else print_code_point
    else
      (if negb (n =? 0) then put (fun k => k <| unicode_remaining := 0 |>) else mret tt);;
      if (192 <=? c) && (c <=? 247) then start_code_point c else putchar_byte c.

(** ** The client's functions *)

Fixpoint write_bytes (buf : list Z) : M unit :=
  match buf with [] => mret tt | c :: buf' => flanterm_putchar (u8 c);; write_bytes buf' end.

Definition flanterm_flush : M unit := call double_buffer_flush.
Definition flanterm_write (buf : list Z) : M unit :=
  write_bytes buf;; a ← get autoflush; if a : bool then flanterm_flush else mret tt.
Definition flanterm_full_refresh : M unit := call full_refresh.
Definition flanterm_get_dimensions : M (Z * Z) := w ← get cols; h ← get rows; mret (w, h).
Definition flanterm_set_autoflush (state : bool) : M unit := put (fun c => c <| autoflush := state |>).
Definition flanterm_set_callback (cb : bool) : M unit := put (fun c => c <| callback := cb |>).
Definition flanterm_get_oob_output : M Z := get oob_output.
Definition flanterm_set_oob_output (v : Z) : M unit := put (fun c => c <| oob_output := v |>).
End Parser.
