(* ===== verification/TermSafe.v ===== *)
(** * The terminal's parser never leaves its arrays

    Proved against the interface [BackendOk]: whatever bytes are written, every array access of
    the parser is in range, every loop ends, and the back end is called with arguments it
    accepts.  [FbSafe] shows that the framebuffer is such a back end. *)

From S2P Require Import Prelude TermTables Flanterm.

(** The screen: its size, and the margins inside it. *)
Record geometry (t : flanterm_context) : Prop := {
  ge_cols : 0 < cols t < 2 ^ 30; ge_rows : 0 < rows t < 2 ^ 30;
  ge_top : 0 <= scroll_top_margin t < rows t;
  ge_bottom : 1 <= scroll_bottom_margin t <= rows t }.

(** ** What the parser relies on *)

(** The operation returns and keeps the back end's invariant. *)
Definition safe_op {B} (inv : Z -> Z -> B -> Prop) (op : flanterm_context -> B -> option B) (t : flanterm_context) : Prop :=
  forall b, inv (cols t) (rows t) b -> exists b', op t b = Some b' /\ inv (cols t) (rows t) b'.

Class BackendOk (B : Type) `{!Backend B} := {
  bk_ok : Z -> Z -> B -> Prop;
  bk_cursor t b x y : geometry t -> bk_ok (cols t) (rows t) b -> get_cursor_pos t b = (x, y) ->
    0 <= x < cols t /\ 0 <= y < rows t;
  bk_raw_putchar t c : geometry t -> 0 <= c < 256 -> safe_op bk_ok (fun t => raw_putchar t c) t;
  bk_clear t m : geometry t -> safe_op bk_ok (fun t => clear t m) t;
  bk_set_cursor t x y : geometry t -> 0 <= x -> 0 <= y -> safe_op bk_ok (fun t => set_cursor_pos t x y) t;
  bk_fg t v : geometry t -> 0 <= v < 8 -> safe_op bk_ok (fun t => set_text_fg t v) t;
  bk_bg t v : geometry t -> 0 <= v < 8 -> safe_op bk_ok (fun t => set_text_bg t v) t;
  bk_fg_bright t v : geometry t -> 0 <= v < 8 -> safe_op bk_ok (fun t => set_text_fg_bright t v) t;
  bk_bg_bright t v : geometry t -> 0 <= v < 8 -> safe_op bk_ok (fun t => set_text_bg_bright t v) t;
  bk_fg_rgb t v : geometry t -> safe_op bk_ok (fun t => set_text_fg_rgb t v) t;
  bk_bg_rgb t v : geometry t -> safe_op bk_ok (fun t => set_text_bg_rgb t v) t;
  bk_fg_default t : geometry t -> safe_op bk_ok set_text_fg_default t;
  bk_bg_default t : geometry t -> safe_op bk_ok set_text_bg_default t;
  bk_fg_default_bright t : geometry t -> safe_op bk_ok set_text_fg_default_bright t;
  bk_bg_default_bright t : geometry t -> safe_op bk_ok set_text_bg_default_bright t;
  bk_move t nx ny ox oy : geometry t -> 0 <= nx -> 0 <= ny -> 0 <= ox -> 0 <= oy ->
    safe_op bk_ok (fun t => move_character t nx ny ox oy) t;
  bk_scroll t : geometry t -> safe_op bk_ok scroll t;
  bk_revscroll t : geometry t -> safe_op bk_ok revscroll t;
  bk_swap t : geometry t -> safe_op bk_ok swap_palette t;
  bk_save t : geometry t -> safe_op bk_ok save_state_b t;
  bk_restore t : geometry t -> safe_op bk_ok restore_state_b t;
  bk_flush t : geometry t -> safe_op bk_ok double_buffer_flush t }.

Create HintDb backend.
#[export] Hint Resolve bk_raw_putchar bk_clear bk_set_cursor bk_fg bk_bg bk_fg_bright bk_bg_bright bk_fg_rgb bk_bg_rgb
  bk_fg_default bk_bg_default bk_fg_default_bright bk_bg_default_bright bk_move bk_scroll bk_revscroll bk_swap bk_save
  bk_restore bk_flush : backend.

(** A colour number, or none. *)
Definition colour_ok (v : Z) : Prop := v = NONE \/ 0 <= v < 8.

(** The context between two bytes, on a screen of [w] by [h] characters. *)
Record ctx_ok (w h : Z) (c : flanterm_context) : Prop := {
  cx_geometry : geometry c;
  cx_size : cols c = w /\ rows c = h;
  cx_tab : 0 < tab_size c;
  cx_values : length (esc_values c) = 16%nat /\ Forall (fun v => 0 <= v < 2 ^ 32) (esc_values c);
  cx_count : 0 <= esc_values_i c <= 16 /\ (rrr c = true -> esc_values_i c < 16);
  cx_charsets : length (charsets c) = 2%nat;
  cx_charset : 0 <= current_charset c < 2 /\ 0 <= saved_state_current_charset c < 2;
  cx_select : 0 <= g_select c <= 2;
  cx_unicode : 0 <= unicode_remaining c <= 3;
  cx_saved : 0 <= saved_cursor_x c /\ 0 <= saved_cursor_y c;
  cx_colours : colour_ok (current_primary c) /\ colour_ok (current_bg c) /\
    colour_ok (saved_state_current_primary c) /\ colour_ok (saved_state_current_bg c) }.

(** ** Computations that return *)

Definition wp {B A} (m : tm B A) (Q : A -> term B -> Prop) (s : term B) : Prop :=
  match m s with Some (a, s') => Q a s' | None => False end.

Section Wp.
Context {B : Type} `{!Backend B}.

Lemma wp_ret {A} (a : A) Q (s : term B) : Q a s -> wp (mret a) Q s.
Proof. done. Qed.
Lemma wp_bind {A A'} (m : tm B A) (k : A -> tm B A') Q s : wp m (fun a s' => wp (k a) Q s') s -> wp (m ≫= k) Q s.
Proof. unfold wp, mbind, tm_bind. by destruct (m s) as [[a s']|]. Qed.
Lemma wp_get {A} (f : flanterm_context -> A) Q (s : term B) : Q (f (ctx s)) s -> wp (get f) Q s.
Proof. done. Qed.
Lemma wp_put f Q (s : term B) : Q tt (Term (f (ctx s)) (back s)) -> wp (put f) Q s.
Proof. done. Qed.
Lemma wp_lift {A} (o : option A) a Q (s : term B) : o = Some a -> Q a s -> wp (lift o) Q s.
Proof. intros -> H. exact H. Qed.
Lemma wp_mono {A} (m : tm B A) (P Q : A -> term B -> Prop) s :
  wp m P s -> (forall a s', P a s' -> Q a s') -> wp m Q s.
Proof. unfold wp. destruct (m s) as [[a s']|]; auto. Qed.

Lemma wp_loop (P : term B -> Prop) n lo f s :
  P s -> (forall i s, lo <= i < lo + Z.of_nat n -> P s -> wp (f i) (fun _ => P) s) -> wp (loop n lo f) (fun _ => P) s.
Proof.
  revert lo s. induction n as [|n IH]; intros lo s HP Hf; [exact HP|]. cbn [loop]. apply wp_bind.
  eapply wp_mono; [apply Hf; [lia|done]|]. intros ? s' HP'. apply IH; [done|]. intros; apply Hf; [lia|done].
Qed.

Lemma wp_loop_until (P : term B -> Prop) n lo f s :
  P s -> (forall i s, P s -> wp (f i) (fun _ => P) s) -> wp (loop_until n lo f) (fun _ => P) s.
Proof.
  revert lo s. induction n as [|n IH]; intros lo s HP Hf; [exact HP|]. cbn [loop_until]. apply wp_bind.
  eapply wp_mono; [by apply Hf|]. intros a s' HP'. destruct a; [exact HP'|by apply IH].
Qed.

(** [down_to] ends at its bound. *)
Lemma wp_down_to (P : term B -> Prop) fuel i x f s :
  P s -> 0 <= x <= i -> i < 2 ^ 64 -> i - x < Z.of_nat fuel ->
  (forall i s, 0 <= i < 2 ^ 64 -> P s -> wp (f i) (fun _ => P) s) -> wp (down_to fuel i x f) (fun _ => P) s.
Proof.
  revert i s. induction fuel as [|fuel IH]; intros i s HP Hx Hi Hfu Hf; [lia|]. cbn [down_to]. apply wp_bind.
  eapply wp_mono; [apply Hf; [lia|done]|]. intros ? s' HP'. case_if; [exact HP'|].
  rewrite u64_small by lia. apply IH; [done|lia|lia|lia|done].
Qed.
End Wp.

(** Numeric side conditions: ranges of truncated values. *)
Ltac word_facts :=
  repeat match goal with
  | |- context [u64 ?x] => lazymatch goal with H : 0 <= u64 x < _ |- _ => fail | _ => pose proof (u64_range x) end
  | |- context [u32 ?x] => lazymatch goal with H : 0 <= u32 x < _ |- _ => fail | _ => pose proof (u32_range x) end
  | |- context [u8 ?x] => lazymatch goal with H : 0 <= u8 x < _ |- _ => fail | _ => pose proof (u8_range x) end
  end.
Ltac side := first [done | lia | word_facts; lia | by left | right; lia | word_facts; nia].

(** The context's invariant after an update. *)
Ltac ctx_tac :=
  let H := fresh in intros H; destruct H;
  repeat match goal with H : _ /\ _ |- _ => destruct H end; constructor;
  [ match goal with G : geometry _ |- geometry _ => destruct G; constructor; cbn end | cbn .. ];
  try done; try (split_and_all; side).

(** ** The parser *)

Section Safe.
Context {B : Type} `{!Backend B} `{!BackendOk B} (w h : Z).

Definition tinv (s : term B) : Prop := ctx_ok w h (ctx s) /\ bk_ok w h (back s).

Lemma tinv_geometry s : tinv s -> geometry (ctx s).
Proof. intros [H _]. apply H. Qed.

Lemma wp_put_inv f (Q : unit -> term B -> Prop) s :
  tinv s -> (ctx_ok w h (ctx s) -> ctx_ok w h (f (ctx s))) -> (forall s', tinv s' -> Q tt s') -> wp (put f) Q s.
Proof. intros [H1 H2] Hf HQ. apply wp_put, HQ. split; [by apply Hf|done]. Qed.

Lemma wp_call_inv op (Q : unit -> term B -> Prop) s :
  tinv s -> safe_op bk_ok op (ctx s) -> (forall s', tinv s' -> Q tt s') -> wp (call op) Q s.
Proof.
  intros [H1 H2] Hop HQ. unfold wp, call. destruct (cx_size _ _ _ H1) as [Ew Eh].
  destruct (Hop (back s)) as (b' & -> & Hb'); [by rewrite Ew, Eh|]. apply HQ. split; [done|]. cbn. by rewrite <- Ew, <- Eh.
Qed.

Lemma wp_cursor (Q : Z * Z -> term B -> Prop) s :
  tinv s -> (forall x y, 0 <= x < w -> 0 <= y < h -> Q (x, y) s) -> wp cursor Q s.
Proof.
  intros [H1 H2] HQ. unfold wp, cursor. destruct (get_cursor_pos (ctx s) (back s)) as [x y] eqn:E.
  destruct (cx_size _ _ _ H1) as [Ew Eh]. destruct (bk_cursor (ctx s) (back s) x y) as [Hx Hy].
  - apply H1.
  - by rewrite Ew, Eh.
  - done.
  - apply HQ; [by rewrite <- Ew|by rewrite <- Eh].
Qed.

Lemma wp_esc i (Q : Z -> term B -> Prop) s :
  tinv s -> 0 <= i < 16 -> (forall v, 0 <= v < 2 ^ 32 -> Q v s) -> wp (esc i) Q s.
Proof.
  intros [H1 H2] Hi HQ. destruct (cx_values _ _ _ H1) as [Hl Hv]. unfold esc. apply wp_bind, wp_get.
  destruct (zget_Some (esc_values (ctx s)) i ltac:(lia)) as [v E]. eapply wp_lift; [exact E|]. apply HQ.
  unfold zget in E. replace (i <? 0) with false in E by lia. rewrite Forall_lookup in Hv. by apply (Hv _ _ E).
Qed.

Lemma wp_set_esc_at i v (Q : unit -> term B -> Prop) s :
  tinv s -> 0 <= i < 16 -> 0 <= v < 2 ^ 32 ->
  (let s' := Term ((ctx s) <| esc_values := <[Z.to_nat i := v]> (esc_values (ctx s)) |>) (back s) in tinv s' -> Q tt s') ->
  wp (set_esc i v) Q s.
Proof.
  intros [H1 H2] Hi Hv HQ. destruct (cx_values _ _ _ H1) as [Hl Hvs]. unfold set_esc. apply wp_bind, wp_get.
  cbv beta. apply wp_bind. eapply wp_lift; [apply zset_ok; lia|]. apply wp_put, HQ. split; [|done]. revert H1.
  ctx_tac. split; [rewrite <- Hl; apply length_insert|by apply Forall_insert].
Qed.

Lemma wp_set_esc i v (Q : unit -> term B -> Prop) s :
  tinv s -> 0 <= i < 16 -> 0 <= v < 2 ^ 32 -> (forall s', tinv s' -> rrr (ctx s') = rrr (ctx s) -> Q tt s') -> wp (set_esc i v) Q s.
Proof. intros Hs Hi Hv HQ. apply wp_set_esc_at; auto. Qed.

Lemma wp_notify a1 a2 a3 a4 (Q : unit -> term B -> Prop) s :
  tinv s -> (forall s', tinv s' -> Q tt s') -> wp (notify a1 a2 a3 a4) Q s.
Proof.
  intros Hs HQ. unfold notify. apply wp_bind, wp_get. case_if; [|by apply wp_ret, HQ].
  apply wp_put_inv; [done|ctx_tac|done].
Qed.

(** A computation that keeps the invariant, inside another. *)
Definition safe {A} (m : tm B A) : Prop := forall s, tinv s -> wp m (fun _ => tinv) s.

Lemma wp_safe {A} (m : tm B A) (Q : A -> term B -> Prop) s :
  tinv s -> safe m -> (forall a s', tinv s' -> Q a s') -> wp m Q s.
Proof. intros Hs Hm HQ. eapply wp_mono; [by apply Hm|]. auto. Qed.
End Safe.

#[export] Hint Resolve tinv_geometry : backend.

(** One step of symbolic execution under the invariant. *)
Ltac safe_step :=
  lazymatch goal with
  | |- wp (mret _) _ _ => apply wp_ret
  | |- wp (_ ≫= _) _ _ => apply wp_bind
  | |- wp (get _) _ _ => apply wp_get
  | |- wp (if ?b then _ else _) _ _ => let E := fresh "E" in destruct b eqn:E
  | |- wp (match ?p with (_, _) => _ end) _ _ => destruct p
  | Hs : tinv _ _ ?s |- wp (esc _) _ ?s => eapply wp_esc; [exact Hs|side|intros ? ?]
  | Hs : tinv _ _ ?s |- wp (set_esc _ _) _ ?s => eapply wp_set_esc; [exact Hs|side|side|intros ? ? ?]
  | Hs : tinv _ _ ?s |- wp (notify _ _ _ _) _ ?s => eapply wp_notify; [exact Hs|intros ? ?]
  | Hs : tinv _ _ ?s |- wp cursor _ ?s => eapply wp_cursor; [exact Hs|intros ? ? ? ?]
  | Hs : tinv _ _ ?s |- wp (put _) _ ?s => eapply wp_put_inv; [exact Hs|try by ctx_tac|intros ? ?]
  | Hs : tinv _ _ ?s |- wp (call _) _ ?s =>
      eapply wp_call_inv; [exact Hs|eauto with backend nocore|intros ? ?]
  end; cbv beta.

(** Everything under the invariant, with the safety lemmas of the functions called. *)
Ltac safe_call :=
  lazymatch goal with Hs : tinv _ _ ?s |- wp _ _ ?s => eapply wp_safe; [exact Hs|solve [eauto with termsafe backend]|intros ? ? ?; cbv beta] end.
Ltac safe_run := repeat first [progress cbv beta | safe_step | safe_call]; try done.

Create HintDb termsafe.

Section Functions.
Context {B : Type} `{!Backend B} `{!BackendOk B} (w h : Z).
Notation safe := (safe (B := B) w h).

Lemma goto_safe x y : 0 <= x -> 0 <= y -> safe (goto x y).
Proof. intros Hx Hy s Hs. unfold goto. safe_run. Qed.

Lemma blank_safe : safe blank.
Proof.
  intros s Hs. unfold blank. eapply wp_call_inv; [exact Hs| |done]. apply bk_raw_putchar; [eauto with backend|lia].
Qed.

Lemma blanks_safe n lo : safe (loop n lo (fun _ => blank)).
Proof. intros s Hs. apply wp_loop; [done|]. intros. by apply blank_safe. Qed.
End Functions.

#[export] Hint Resolve goto_safe blank_safe blanks_safe : termsafe.
#[export] Hint Extern 1 (_ <= _)%Z => side : termsafe backend.
#[export] Hint Extern 1 (_ <= _ < _)%Z => side : termsafe backend.

Ltac backend_law :=
  first [exact bk_fg | exact bk_bg | exact bk_fg_bright | exact bk_bg_bright | exact bk_fg_default | exact bk_bg_default
        | exact bk_fg_default_bright | exact bk_bg_default_bright].

Section Sgr.
Context {B : Type} `{!Backend B} `{!BackendOk B} (w h : Z).
Notation safe := (safe (B := B) w h).

Lemma recolour_safe cur idx idx' def def' :
  colour_ok cur -> (forall t v, geometry t -> 0 <= v < 8 -> safe_op (B := B) bk_ok (fun t => idx t v) t) ->
  (forall t v, geometry t -> 0 <= v < 8 -> safe_op (B := B) bk_ok (fun t => idx' t v) t) ->
  (forall t, geometry t -> safe_op (B := B) bk_ok def t) -> (forall t, geometry t -> safe_op (B := B) bk_ok def' t) ->
  safe (recolour cur idx idx' def def').
Proof.
  intros Hc H1 H2 H3 H4 s Hs. unfold recolour. pose proof (tinv_geometry _ _ _ Hs) as Hg.
  safe_run; bool_to_prop; destruct Hc as [->|Hc]; try done; auto; lia.
Qed.

Lemma sgr_reset_safe : safe sgr_reset.
Proof. intros s Hs. unfold sgr_reset. safe_run. Qed.

Lemma primary_ok s : tinv (B := B) w h s -> colour_ok (current_primary (ctx s)).
Proof. intros [[] _]. tauto. Qed.
Lemma bg_ok s : tinv (B := B) w h s -> colour_ok (current_bg (ctx s)).
Proof. intros [[] _]. tauto. Qed.

Lemma sgr_set_fg_safe v : 0 <= v < 8 -> safe (sgr_set_fg v).
Proof. intros Hv s Hs. unfold sgr_set_fg. safe_run. Qed.
Lemma sgr_set_bg_safe v : 0 <= v < 8 -> safe (sgr_set_bg v).
Proof. intros Hv s Hs. unfold sgr_set_bg. safe_run. Qed.

Lemma unreversed_safe (m : tm B unit) : safe m -> safe (unreversed m).
Proof. intros Hm s Hs. unfold unreversed. safe_run. Qed.

#[local] Hint Resolve sgr_reset_safe recolour_safe primary_ok bg_ok sgr_set_fg_safe sgr_set_bg_safe unreversed_safe : termsafe.

Lemma sgr_extended_safe f i s : tinv w h s -> 0 <= i < esc_values_i (ctx s) ->
  wp (sgr_extended f i) (fun r s' => tinv w h s' /\ forall j, r = Some j -> i <= j) s.
Proof.
  intros Hs Hi. pose proof Hs as [Hc _]. destruct (cx_count _ _ _ Hc) as [Hn _]. unfold sgr_extended.
  destruct f; safe_run; bool_to_prop; try (split; [done|]; intros j [= <-]; lia); eauto with backend;
    (destruct (zget_Some col256 (v0 - 16)) as [rgb Ergb]; [change (Z.of_nat (length col256)) with 240; lia|];
     eapply wp_lift; [exact Ergb|]; safe_run; split; [done|]; intros j [= <-]; lia).
Qed.

(** One value: the index does not go back. *)
Lemma sgr_value_safe i v s : tinv w h s -> 0 <= i < esc_values_i (ctx s) ->
  wp (sgr_value i v) (fun r s' => tinv w h s' /\ forall j, r = Some j -> i <= j) s.
Proof.
  intros Hs Hi. unfold sgr_value. safe_run; bool_to_prop.
  all: try (split; [done|]; intros j [= <-]; lia).
  all: try (by apply sgr_extended_safe).
  all: try (case_if; eauto with backend; fail).
  all: eapply wp_safe; [eassumption| |intros ? ? ?; apply wp_ret; split; [done|]; intros j [= <-]; lia].
  all: first [apply recolour_safe; [eauto using primary_ok, bg_ok|backend_law..] | apply unreversed_safe; intros ? ?; safe_run].
Qed.

Lemma sgr_loop_safe fuel i s : tinv w h s -> 0 <= i -> 17 <= Z.of_nat fuel + i -> (0 < fuel)%nat ->
  wp (sgr_loop fuel i) (fun _ => tinv w h) s.
Proof.
  revert i s. induction fuel as [|fuel IH]; intros i s Hs Hi Hf Hp; [lia|]. cbn [sgr_loop].
  pose proof Hs as [Hc _]. destruct (cx_count _ _ _ Hc) as [Hn _].
  apply wp_bind, wp_get. cbv beta. case_if; [|done]. apply wp_bind. eapply wp_esc; [exact Hs|lia|]. intros v _. apply wp_bind.
  eapply wp_mono; [apply sgr_value_safe; [done|lia]|]. intros [j|] s' [Hs' Hj]; [|done].
  specialize (Hj j eq_refl). apply IH; [done|lia|lia|lia].
Qed.

Lemma sgr_safe : safe sgr.
Proof.
  intros s Hs. unfold sgr. apply wp_bind, wp_get. cbv beta. case_if; [by apply sgr_reset_safe|].
  apply sgr_loop_safe; [done|lia|lia|lia].
Qed.
End Sgr.

#[export] Hint Resolve sgr_safe : termsafe.

Section Csi.
Context {B : Type} `{!Backend B} `{!BackendOk B} (w h : Z).
Notation safe := (safe (B := B) w h).

Lemma size_of_screen s : tinv (B := B) w h s ->
  cols (ctx s) = w /\ rows (ctx s) = h /\ 0 < w < 2 ^ 30 /\ 0 < h < 2 ^ 30 /\
  0 <= scroll_top_margin (ctx s) < h /\ 1 <= scroll_bottom_margin (ctx s) <= h.
Proof. intros [[[] [<- <-]] _]. done. Qed.

Ltac screen_facts :=
  repeat match goal with Hs : tinv _ _ ?s |- _ =>
    lazymatch goal with _ : cols (ctx s) = _ |- _ => fail
    | _ => let E1 := fresh "Ew" in let E2 := fresh "Eh" in
           pose proof (size_of_screen s Hs) as (E1 & E2 & ? & ? & ? & ?); rewrite ?E1, ?E2 in * end end.

Lemma dec_private_parse_safe c : safe (dec_private_parse c).
Proof. intros s Hs. unfold dec_private_parse, set_or_reset. safe_run. Qed.
Lemma linux_private_parse_safe : safe linux_private_parse.
Proof. intros s Hs. unfold linux_private_parse. safe_run. Qed.
Lemma mode_toggle_safe c : safe (mode_toggle c).
Proof. intros s Hs. unfold mode_toggle, set_or_reset. safe_run. Qed.
Lemma osc_parse_safe c : safe (osc_parse c).
Proof. intros s Hs. unfold osc_parse. safe_run. Qed.

(** The last call of a function, with a choice in its arguments. *)
Ltac last_goto := screen_facts; apply goto_safe; [repeat case_if; side|repeat case_if; side|done].

Lemma csi_up_safe x y : 0 <= x < w -> 0 <= y < h -> safe (csi_up x y).
Proof. intros Hx Hy s Hs. unfold csi_up. safe_run; last_goto. Qed.
Lemma csi_down_safe x y : 0 <= x < w -> 0 <= y < h -> safe (csi_down x y).
Proof. intros Hx Hy s Hs. unfold csi_down. safe_run; last_goto. Qed.
Lemma csi_right_safe x y : 0 <= x < w -> 0 <= y < h -> safe (csi_right x y).
Proof. intros Hx Hy s Hs. unfold csi_right. safe_run. Qed.
Lemma csi_left_safe x y : 0 <= x < w -> 0 <= y < h -> safe (csi_left x y).
Proof. intros Hx Hy s Hs. unfold csi_left. safe_run. Qed.
Lemma csi_row_safe x : 0 <= x < w -> safe (csi_row x).
Proof. intros Hx s Hs. unfold csi_row. safe_run. Qed.
Lemma csi_column_safe y : 0 <= y < h -> safe (csi_column y).
Proof. intros Hy s Hs. unfold csi_column. safe_run. Qed.
Lemma csi_position_safe : safe csi_position.
Proof. intros s Hs. unfold csi_position. safe_run. Qed.

Lemma scrolls_safe n lo : safe (loop n lo (fun _ => call scroll)).
Proof. intros s Hs. apply wp_loop; [done|]. intros i s' _ Hs'. safe_run. Qed.
Lemma revscrolls_safe n lo : safe (loop n lo (fun _ => call revscroll)).
Proof. intros s Hs. apply wp_loop; [done|]. intros i s' _ Hs'. safe_run. Qed.

Lemma csi_delete_lines_safe : safe csi_delete_lines.
Proof. intros s Hs. unfold csi_delete_lines. safe_run; by apply scrolls_safe. Qed.

Lemma csi_insert_lines_safe y : 0 <= y < h -> safe (csi_insert_lines y).
Proof.
  intros Hy s Hs. unfold csi_insert_lines. screen_facts. apply wp_bind, wp_get. cbv beta. apply wp_bind.
  eapply wp_put_inv; [exact Hs|ctx_tac|intros s1 Hs1]. safe_run.
  eapply wp_safe; [eassumption|apply revscrolls_safe|intros ? s2 Hs2].
  eapply wp_put_inv; [exact Hs2|ctx_tac|done].
Qed.

Lemma csi_erase_display_safe x y : 0 <= x < w -> 0 <= y < h -> safe (csi_erase_display x y).
Proof.
  intros Hx Hy s Hs. unfold csi_erase_display. safe_run.
  eapply wp_mono; [apply (wp_loop_until (tinv w h)); [eassumption|]|intros ? ? Hx'; cbv beta in Hx'; safe_run].
  intros yc s1 Hs1. apply wp_loop_until; [done|]. intros xc s2 Hs2. safe_run.
Qed.

Lemma csi_insert_chars_safe x y : 0 <= x < w -> 0 <= y < h -> safe (csi_insert_chars x y).
Proof.
  intros Hx Hy s Hs. unfold csi_insert_chars. screen_facts. apply wp_bind, wp_get. cbv beta. apply wp_bind. rewrite Ew, u64_small by lia.
  eapply wp_mono; [apply (wp_down_to (tinv w h)); [done|lia|lia|lia|]|intros ? ? Hx'; cbv beta in Hx'; safe_run].
  intros i s1 Hi Hs1. safe_run.
Qed.

Lemma csi_erase_chars_safe x y : 0 <= x < w -> 0 <= y < h -> safe (csi_erase_chars x y).
Proof. intros Hx Hy s Hs. unfold csi_erase_chars. safe_run. Qed.

Lemma csi_delete_chars_safe x y : 0 <= x < w -> 0 <= y < h -> safe (csi_delete_chars x y).
Proof.
  intros Hx Hy s Hs. unfold csi_delete_chars. safe_run.
  eapply wp_mono; [apply (wp_loop (tinv w h)); [eassumption|]|].
  - intros i s1 Hi Hs1. safe_run.
  - intros ? s1 Hs1. cbv beta in Hs1. safe_run. by apply csi_erase_chars_safe.
Qed.

Lemma csi_erase_line_safe x y : 0 <= x < w -> 0 <= y < h -> safe (csi_erase_line x y).
Proof. intros Hx Hy s Hs. unfold csi_erase_line. safe_run. Qed.

(** A value that was left out, or given as 0, becomes 1. *)
Lemma wp_at_least_one {A} i (k : tm B A) Q s : tinv w h s -> 0 <= i < 16 ->
  (forall s', tinv w h s' -> (exists v, zget (esc_values (ctx s')) i = Some v /\ 1 <= v < 2 ^ 32) ->
     (forall j, j <> i -> zget (esc_values (ctx s')) j = zget (esc_values (ctx s)) j) -> wp k Q s') ->
  wp (v ← esc i; (if v =? 0 then set_esc i 1 else mret tt);; k) Q s.
Proof.
  intros Hs Hi Hk. pose proof Hs as [Hc _]. destruct (cx_values _ _ _ Hc) as [Hl Hv].
  destruct (zget_Some (esc_values (ctx s)) i ltac:(lia)) as [v E]. apply wp_bind. unfold esc. apply wp_bind, wp_get.
  eapply wp_lift; [exact E|]. cbv beta. apply wp_bind. destruct (v =? 0) eqn:E0; [|].
  - apply (wp_set_esc_at w h); [done|lia|lia|]. cbv zeta. intros Hs'. apply Hk; [done|exists 1|intros j Hj]; cbn;
      rewrite zget_insert by lia; [by rewrite Z.eqb_refl|by replace (j =? i) with false by lia].
  - apply wp_ret, Hk; [done| |done]. exists v. split; [done|]. bool_to_prop.
    unfold zget in E. replace (i <? 0) with false in E by lia. rewrite Forall_lookup in Hv. specialize (Hv _ _ E). lia.
Qed.

Lemma csi_margins_safe : safe csi_margins.
Proof.
  intros s Hs. unfold csi_margins. apply wp_at_least_one; [done|lia|]. intros s1 Hs1 (v0 & E0 & Hv0) _.
  apply wp_at_least_one; [done|lia|]. intros s2 Hs2 (v1 & E1 & Hv1) E0'. rewrite <- E0' in E0 by lia.
  repeat (first [apply wp_bind; apply wp_get | apply wp_bind; unfold esc; apply wp_bind, wp_get; eapply wp_lift; [eassumption|]]; cbv beta).
  destruct (size_of_screen s2 Hs2) as (_ & Eh2 & ? & ? & ? & ?). pose proof (cx_count _ _ _ (proj1 Hs2)) as [Hn _].
  rewrite Eh2. apply wp_bind. rewrite u64_small by (case_if; lia).
  eapply (wp_mono _ (fun _ => tinv w h)); [|intros ? s3 Hs3; cbv beta in Hs3; by apply goto_safe].
  repeat case_if; bool_to_prop; eapply wp_put_inv; try done; ctx_tac.
Qed.

Lemma csi_report_safe x y : safe (csi_report x y).
Proof. intros s Hs. unfold csi_report. safe_run. Qed.

#[local] Hint Resolve dec_private_parse_safe linux_private_parse_safe mode_toggle_safe osc_parse_safe csi_up_safe
  csi_down_safe csi_right_safe csi_left_safe csi_row_safe csi_column_safe csi_position_safe csi_delete_lines_safe
  csi_insert_lines_safe csi_erase_display_safe csi_insert_chars_safe csi_erase_chars_safe csi_delete_chars_safe
  csi_erase_line_safe csi_margins_safe csi_report_safe : termsafe.

Lemma csi_dispatch_safe c x y : 0 <= x < w -> 0 <= y < h -> safe (csi_dispatch c x y).
Proof.
  intros Hx Hy s Hs. unfold csi_dispatch. safe_run.
  destruct (cx_saved _ _ _ (proj1 Hs)). by apply goto_safe.
Qed.

Lemma csi_cleanup_safe : safe csi_cleanup.
Proof. intros s Hs. unfold csi_cleanup. safe_run. Qed.

#[local] Hint Resolve csi_dispatch_safe csi_cleanup_safe : termsafe.

Lemma csi_final_safe c : safe (csi_final c).
Proof.
  intros s Hs. unfold csi_final. apply wp_bind, wp_get. cbv beta zeta. apply wp_bind.
  pose proof (cx_count _ _ _ (proj1 Hs)) as [Hn _].
  eapply wp_mono; [apply (wp_loop (tinv w h)); [done|]|].
  - intros i s1 Hi Hs1. unfold FLANTERM_MAX_ESC_VALUES in Hi. eapply wp_set_esc; [done|lia|case_if; lia|done].
  - intros ? s1 Hs1. cbv beta in Hs1. safe_run.
Qed.

#[local] Hint Resolve csi_final_safe : termsafe.

Lemma control_sequence_parse_safe c : safe (control_sequence_parse c).
Proof.
  intros s Hs. unfold control_sequence_parse, FLANTERM_MAX_ESC_VALUES. pose proof (cx_count _ _ _ (proj1 Hs)) as [Hn Hr].
  safe_run. rewrite E2 in *. ctx_tac. split; [lia|]. intros; congruence.
Qed.
End Csi.

#[export] Hint Resolve osc_parse_safe control_sequence_parse_safe : termsafe.

Section Characters.
Context {B : Type} `{!Backend B} `{!BackendOk B} (w h : Z).
Notation safe := (safe (B := B) w h).

Lemma restore_state_safe : safe restore_state.
Proof. intros s Hs. unfold restore_state. safe_run. Qed.
Lemma save_state_safe : safe save_state.
Proof. intros s Hs. unfold save_state. safe_run. Qed.
Lemma line_feed_safe x y : 0 <= x < w -> 0 <= y < h -> safe (line_feed x y).
Proof. intros Hx Hy s Hs. unfold line_feed. safe_run. Qed.
Lemma reinit_ok c : ctx_ok w h c -> ctx_ok w h (flanterm_context_reinit c).
Proof. ctx_tac. Qed.
#[local] Hint Resolve restore_state_safe save_state_safe line_feed_safe : termsafe.

Lemma escape_parse_safe c : safe (escape_parse c).
Proof.
  intros s Hs. unfold escape_parse. safe_run; eauto using reinit_ok.
  ctx_tac. split; [done|]. repeat constructor; lia.
Qed.

Lemma dec_special_print_safe c : safe (dec_special_print c).
Proof.
  intros s Hs. unfold dec_special_print. pose proof (dec_special_range c). case_if; [by apply wp_ret|]. safe_run.
Qed.

Lemma print_code_point_safe : safe print_code_point.
Proof.
  intros s Hs. unfold print_code_point. apply wp_bind, wp_get. cbv beta zeta. case_if; [|safe_run].
  destruct (mk_wcwidth_range (u32 (code_point (ctx s)))) as (r & Er & Hr). apply wp_bind. eapply wp_lift; [exact Er|]. safe_run.
Qed.

Lemma start_code_point_safe c : safe (start_code_point c).
Proof. intros s Hs. unfold start_code_point. safe_run. Qed.

(** The current character set, and the one being chosen. *)
Lemma wp_charset (Q : Z -> term B -> Prop) s : tinv w h s -> (forall v, Q v s) ->
  wp (lift (zget (charsets (ctx s)) (current_charset (ctx s)))) Q s.
Proof.
  intros [[] _] HQ. destruct (zget_Some (charsets (ctx s)) (current_charset (ctx s)) ltac:(lia)) as [v E].
  by eapply wp_lift; [exact E|].
Qed.

Lemma wp_set_charset g v (Q : unit -> term B -> Prop) s : tinv w h s -> 1 <= g <= 2 -> (forall s', tinv w h s' -> Q tt s') ->
  wp (lift (zset (charsets (ctx s)) (g - 1) v)) (fun cs s' => wp (put (fun k => k <| charsets := cs |>)) Q s') s.
Proof.
  intros Hs Hg HQ. pose proof (cx_charsets _ _ _ (proj1 Hs)) as Hl. eapply wp_lift; [apply zset_ok; lia|].
  eapply wp_put_inv; [exact Hs| |done]. ctx_tac. by rewrite length_insert.
Qed.

Lemma moves_safe x y : 0 <= x < w -> 0 <= y < h -> 
  safe (down_to (Z.to_nat w) (u64 (w - 1)) x (fun i => call (fun k => move_character k (u64 (i + 1)) y i y))).
Proof.
  intros Hx Hy s Hs. destruct (size_of_screen w h s Hs) as (_ & _ & ? & ? & _ & _). rewrite u64_small by lia.
  apply (wp_down_to (tinv w h)); [done|lia|lia|lia|]. intros i s1 Hi Hs1. safe_run.
Qed.
#[local] Hint Resolve dec_special_print_safe moves_safe : termsafe.

Lemma print_char_safe c x y : 0 <= c < 256 -> 0 <= x < w -> 0 <= y < h -> safe (print_char c x y).
Proof.
  intros Hc Hx Hy s Hs. unfold print_char. destruct (size_of_screen w h s Hs) as (Ew & _). 
do 2 (apply wp_bind, wp_get). cbv beta. rewrite Ew.
  safe_run; (apply wp_charset; [done|]; intros v; cbv beta; safe_run).
Qed.
#[local] Hint Resolve escape_parse_safe print_char_safe : termsafe.

Lemma putchar_byte_safe c : 0 <= c < 256 -> safe (putchar_byte c).
Proof.
  intros Hc s Hs. unfold putchar_byte. pose proof (cx_select _ _ _ (proj1 Hs)). pose proof (cx_tab _ _ _ (proj1 Hs)).
  safe_run.
  1, 2: apply wp_set_charset; [done|unfold truthy in E0; lia|]; intros s1 Hs1; cbv beta; safe_run.
  - apply goto_safe; [|lia|done]. assert (0 <= x / tab_size (ctx s)) by (apply Z.div_pos; lia). nia.
  - apply line_feed_safe; [case_if; lia|lia|done].
Qed.
#[local] Hint Resolve putchar_byte_safe start_code_point_safe print_code_point_safe : termsafe.

Lemma flanterm_putchar_safe c : 0 <= c < 256 -> safe (flanterm_putchar c).
Proof.
  intros Hc s Hs. unfold flanterm_putchar. pose proof (cx_unicode _ _ _ (proj1 Hs)). safe_run.
Qed.

Lemma write_bytes_safe buf : safe (write_bytes buf).
Proof.
  induction buf as [|c buf IH]; intros s Hs; cbn [write_bytes]; [by apply wp_ret|]. apply wp_bind.
  eapply wp_safe; [exact Hs|apply flanterm_putchar_safe, u8_range|]. intros ? s1 Hs1. by apply IH.
Qed.
End Characters.
