(* ===== verification/FbTerm.v ===== *)
(** * The framebuffer terminal, [src/src/flanterm/fb.c]

    Characters go into a queue with one item per changed cell; [map] points from a cell to its
    item.  [double_buffer_flush] plots the queued cells into the framebuffer and moves them to
    [grid], which is what the screen shows.  A pointer into the queue is its index; [None]
    is an access outside an array.  The framebuffer is main memory. *)

From S2P Require Import Prelude Mem TermTables Flanterm.

(** ** State (fb_private.h) *)

Definition FLANTERM_FB_FONT_GLYPHS : Z := 256.

Record flanterm_fb_char := FChar { fc : Z; fg : Z; bg : Z }.
#[export] Instance fchar_eq : EqDecision flanterm_fb_char.
Proof. solve_decision. Defined.

Record flanterm_fb_queue_item := QItem { qx : Z; qy : Z; qc : flanterm_fb_char }.

(** What [flanterm_fb_init] sets once; [canvas] is an address, 0 for none. *)
Record fb_config := FbConfig {
  font_width : Z; font_height : Z; glyph_width : Z; glyph_height : Z;
  font_scale_x : Z; font_scale_y : Z; offset_x : Z; offset_y : Z;
  framebuffer : Z; pitch : Z; width : Z; height : Z;
  red_mask_shift : Z; green_mask_shift : Z; blue_mask_shift : Z;
  font_bool : list bool;
  ansi_colours : list Z; ansi_bright_colours : list Z;
  default_fg : Z; default_bg : Z; default_fg_bright : Z; default_bg_bright : Z;
  canvas : Z }.

(** [video] is the memory with the framebuffer and the canvas. *)
Record flanterm_fb_context := Fb {
  conf : fb_config; video : mem;
  grid : list flanterm_fb_char;
  queue : list flanterm_fb_queue_item; queue_i : Z;
  map : list (option Z);
  text_fg : Z; text_bg : Z; cursor_x : Z; cursor_y : Z;
  saved_state_text_fg : Z; saved_state_text_bg : Z; saved_state_cursor_x : Z; saved_state_cursor_y : Z;
  old_cursor_x : Z; old_cursor_y : Z }.

#[export] Instance fb_eta : Eta flanterm_fb_context := EtaOf _ (fun b =>
  Fb (conf b) (video b) (grid b) (queue b) (queue_i b) (map b) (text_fg b) (text_bg b) (cursor_x b) (cursor_y b)
    (saved_state_text_fg b) (saved_state_text_bg b) (saved_state_cursor_x b) (saved_state_cursor_y b)
    (old_cursor_x b) (old_cursor_y b)).

(** The default background, and every colour drawn as it. *)
Definition TRANSPARENT : Z := 4294967295.

Definition convert_colour (k : fb_config) (colour : Z) : Z :=
  let r := (colour >>> 16) &&& 255 in
  let g := (colour >>> 8) &&& 255 in
  let b := colour &&& 255 in
  u32 (r <<< red_mask_shift k) ||| u32 (g <<< green_mask_shift k) ||| u32 (b <<< blue_mask_shift k).

(** ** Saved state and palette *)

Definition flanterm_fb_save_state (b : flanterm_fb_context) : flanterm_fb_context :=
  b <| saved_state_text_fg := text_fg b |> <| saved_state_text_bg := text_bg b |>
    <| saved_state_cursor_x := cursor_x b |> <| saved_state_cursor_y := cursor_y b |>.
Definition flanterm_fb_restore_state (b : flanterm_fb_context) : flanterm_fb_context :=
  b <| text_fg := saved_state_text_fg b |> <| text_bg := saved_state_text_bg b |>
    <| cursor_x := saved_state_cursor_x b |> <| cursor_y := saved_state_cursor_y b |>.
Definition flanterm_fb_swap_palette (b : flanterm_fb_context) : flanterm_fb_context :=
  b <| text_bg := text_fg b |> <| text_fg := text_bg b |>.

(** ** Plotting *)

(** The address of a pixel of the framebuffer and of the canvas. *)
Definition fb_pixel (k : fb_config) (x y : Z) : Z := framebuffer k + 4 * (x + y * (pitch k / 4)).
Definition canvas_pixel (k : fb_config) (x y : Z) : Z := canvas k + 4 * (x + y * width k).

(** [glyph[fy * font_width + fx]] for the glyph of the character [c]. *)
Definition glyph_bit (k : fb_config) (c fx fy : Z) : option bool :=
  zget (font_bool k) (c * font_height k * font_width k + fy * font_width k + fx).

(** The colour of a set and of a clear dot, with and without a canvas. *)
Definition dot_uncanvas (k : fb_config) (c : flanterm_fb_char) (bit : bool) : Z :=
  let col := if bit then fg c else bg c in if col =? TRANSPARENT then default_bg k else col.
Definition dot_canvas (k : fb_config) (m : mem) (c : flanterm_fb_char) (bit : bool) (px py : Z) : Z :=
  let col := if bit then fg c else bg c in if col =? TRANSPARENT then ld32 m (canvas_pixel k px py) else col.

(** The loops over a scaled glyph whose top left corner is the pixel [(x, y)]; [fy] is a
    [uint8_t]. *)
Definition plot_scaled (k : fb_config) (c : Z) (dot : mem -> bool -> Z -> Z -> Z) (x y : Z) (m : mem) : option mem :=
  floop (Z.to_nat (glyph_height k)) 0 (fun gy om =>
    floop (Z.to_nat (font_width k)) 0 (fun fx om =>
      floop (Z.to_nat (font_scale_x k)) 0 (fun i om =>
        m ← om;
        let gx := font_scale_x k * fx + i in
        bit ← glyph_bit k c fx (u8 (gy / font_scale_y k));
        Some (st32 m (fb_pixel k (x + gx) (y + gy)) (dot m bit (x + gx) (y + gy)))) om) om) (Some m).

Definition plot_unscaled (k : fb_config) (c : Z) (dot : mem -> bool -> Z -> Z -> Z) (x y : Z) (m : mem) : option mem :=
  floop (Z.to_nat (glyph_height k)) 0 (fun gy om =>
    floop (Z.to_nat (font_width k)) 0 (fun fx om =>
      m ← om;
      bit ← glyph_bit k c fx gy;
      Some (st32 m (fb_pixel k (x + fx) (y + gy)) (dot m bit (x + fx) (y + gy)))) om) (Some m).

(** The four functions [plot_char] can be, for a cell of the grid. *)
Definition plot_with (plot : fb_config -> Z -> (mem -> bool -> Z -> Z -> Z) -> Z -> Z -> mem -> option mem)
    (dot : mem -> bool -> Z -> Z -> Z) (k : fb_config) (t : flanterm_context) (c : Z) (x y : Z) (m : mem) : option mem :=
  if (cols t <=? x) || (rows t <=? y) then Some m
  else plot k c dot (offset_x k + x * glyph_width k) (offset_y k + y * glyph_height k) m.

Definition plot_char_scaled_canvas k t (c : flanterm_fb_char) :=
  plot_with plot_scaled (fun m bit px py => dot_canvas k m c bit px py) k t (fc c).
Definition plot_char_scaled_uncanvas k t (c : flanterm_fb_char) :=
  plot_with plot_scaled (fun _ bit _ _ => dot_uncanvas k c bit) k t (fc c).
Definition plot_char_unscaled_canvas k t (c : flanterm_fb_char) :=
  plot_with plot_unscaled (fun m bit px py => dot_canvas k m c bit px py) k t (fc c).
Definition plot_char_unscaled_uncanvas k t (c : flanterm_fb_char) :=
  plot_with plot_unscaled (fun _ bit _ _ => dot_uncanvas k c bit) k t (fc c).

(** The choice [flanterm_fb_init] makes. *)
Definition plot_char (k : fb_config) (t : flanterm_context) (c : flanterm_fb_char) (x y : Z) (m : mem) : option mem :=
  if (font_scale_x k =? 1) && (font_scale_y k =? 1) then
    if canvas k =? 0 then plot_char_unscaled_uncanvas k t c x y m else plot_char_unscaled_canvas k t c x y m
  else if canvas k =? 0 then plot_char_scaled_uncanvas k t c x y m else plot_char_scaled_canvas k t c x y m.

Definition plot (t : flanterm_context) (c : flanterm_fb_char) (x y : Z) (b : flanterm_fb_context) : option flanterm_fb_context :=
  m ← plot_char (conf b) t c x y (video b); Some (b <| video := m |>).

(** ** The queue *)

Definition compare_char (a b : flanterm_fb_char) : bool :=
  negb (negb (fc a =? fc b) || negb (bg a =? bg b) || negb (fg a =? fg b)).

Definition push_to_queue (t : flanterm_context) (c : flanterm_fb_char) (x y : Z) (b : flanterm_fb_context) :
    option flanterm_fb_context :=
  if (cols t <=? x) || (rows t <=? y) then Some b
  else
    let i := y * cols t + x in
    q ← zget (map b) i;
    match q with
    | None =>
        g ← zget (grid b) i;
        if compare_char g c then Some b
        else
          let j := queue_i b in
          l ← zset (queue b) j (QItem x y c);
          p ← zset (map b) i (Some j);
          Some (b <| queue := l |> <| queue_i := j + 1 |> <| map := p |>)
    | Some j =>
        it ← zget (queue b) j;
        l ← zset (queue b) j (QItem (qx it) (qy it) c);
        Some (b <| queue := l |>)
    end.

(** [q != NULL ? q->c : grid[i]] *)
Definition cell (b : flanterm_fb_context) (i : Z) : option flanterm_fb_char :=
  q ← zget (map b) i;
  match q with Some j => it ← zget (queue b) j; Some (qc it) | None => zget (grid b) i end.

Definition empty_char (b : flanterm_fb_context) : flanterm_fb_char := FChar 32 (text_fg b) (text_bg b).

(** [for (i = 0; i < cols; i++) push_to_queue(_ctx, &empty, i, y);] *)
Definition clear_row (t : flanterm_context) (e : flanterm_fb_char) (y : Z) (b : flanterm_fb_context) : option flanterm_fb_context :=
  floop (Z.to_nat (cols t)) 0 (fun i ob => b ← ob; push_to_queue t e i y b) (Some b).

(** One round of the loop of [flanterm_fb_revscroll], and the test before it. *)
Definition revscroll_step (t : flanterm_context) (s : Z * flanterm_fb_context) :
    option flanterm_fb_context + Z * flanterm_fb_context :=
  let (i, b) := s in
  if negb (scroll_top_margin t * cols t <=? i) || (i =? NONE) then inl (Some b)
  else
    match (c ← cell b i; push_to_queue t c ((i + cols t) mod cols t) ((i + cols t) / cols t) b) with
    | Some b' => inr (u64 (i - 1), b')
    | None => inl None
    end.

Definition flanterm_fb_revscroll (t : flanterm_context) (b : flanterm_fb_context) : option flanterm_fb_context :=
  r ← wloop (S (Z.to_nat (rows t * cols t))) (revscroll_step t) (u64 ((scroll_bottom_margin t - 1) * cols t - 1), b);
  b ← r;
  clear_row t (empty_char b) (scroll_top_margin t) b.

Definition flanterm_fb_scroll (t : flanterm_context) (b : flanterm_fb_context) : option flanterm_fb_context :=
  let lo := (scroll_top_margin t + 1) * cols t in
  b ← floop (Z.to_nat (scroll_bottom_margin t * cols t - lo)) lo (fun i ob =>
        b ← ob;
        c ← cell b i;
        push_to_queue t c ((i - cols t) mod cols t) ((i - cols t) / cols t) b) (Some b);
  clear_row t (empty_char b) (scroll_bottom_margin t - 1) b.

Definition flanterm_fb_clear (t : flanterm_context) (move : bool) (b : flanterm_fb_context) : option flanterm_fb_context :=
  let e := empty_char b in
  b ← floop (Z.to_nat (rows t * cols t)) 0 (fun i ob => b ← ob; push_to_queue t e (i mod cols t) (i / cols t) b) (Some b);
  Some (if move then b <| cursor_x := 0 |> <| cursor_y := 0 |> else b).

(** ** The cursor *)

(** Coordinates outside the screen; the test is on the low 32 bits. *)
Definition clamp (v limit : Z) : Z := if limit <=? v then if i32 v <? 0 then 0 else limit - 1 else v.

Definition flanterm_fb_set_cursor_pos (t : flanterm_context) (x y : Z) (b : flanterm_fb_context) : flanterm_fb_context :=
  b <| cursor_x := clamp x (cols t) |> <| cursor_y := clamp y (rows t) |>.

Definition flanterm_fb_get_cursor_pos (t : flanterm_context) (b : flanterm_fb_context) : Z * Z :=
  (if cols t <=? cursor_x b then cols t - 1 else cursor_x b, if rows t <=? cursor_y b then rows t - 1 else cursor_y b).

Definition flanterm_fb_move_character (t : flanterm_context) (new_x new_y old_x old_y : Z) (b : flanterm_fb_context) :
    option flanterm_fb_context :=
  if (cols t <=? old_x) || (rows t <=? old_y) || (cols t <=? new_x) || (rows t <=? new_y) then Some b
  else c ← cell b (old_x + old_y * cols t); push_to_queue t c new_x new_y b.

(** ** Colours *)

Definition flanterm_fb_set_text_fg (i : Z) (b : flanterm_fb_context) : option flanterm_fb_context :=
  v ← zget (ansi_colours (conf b)) i; Some (b <| text_fg := v |>).
Definition flanterm_fb_set_text_bg (i : Z) (b : flanterm_fb_context) : option flanterm_fb_context :=
  v ← zget (ansi_colours (conf b)) i; Some (b <| text_bg := v |>).
Definition flanterm_fb_set_text_fg_bright (i : Z) (b : flanterm_fb_context) : option flanterm_fb_context :=
  v ← zget (ansi_bright_colours (conf b)) i; Some (b <| text_fg := v |>).
Definition flanterm_fb_set_text_bg_bright (i : Z) (b : flanterm_fb_context) : option flanterm_fb_context :=
  v ← zget (ansi_bright_colours (conf b)) i; Some (b <| text_bg := v |>).
Definition flanterm_fb_set_text_fg_rgb (v : Z) (b : flanterm_fb_context) : flanterm_fb_context :=
  b <| text_fg := convert_colour (conf b) v |>.
Definition flanterm_fb_set_text_bg_rgb (v : Z) (b : flanterm_fb_context) : flanterm_fb_context :=
  b <| text_bg := convert_colour (conf b) v |>.
Definition flanterm_fb_set_text_fg_default (b : flanterm_fb_context) : flanterm_fb_context :=
  b <| text_fg := default_fg (conf b) |>.
Definition flanterm_fb_set_text_bg_default (b : flanterm_fb_context) : flanterm_fb_context :=
  b <| text_bg := TRANSPARENT |>.
Definition flanterm_fb_set_text_fg_default_bright (b : flanterm_fb_context) : flanterm_fb_context :=
  b <| text_fg := default_fg_bright (conf b) |>.
Definition flanterm_fb_set_text_bg_default_bright (b : flanterm_fb_context) : flanterm_fb_context :=
  b <| text_bg := default_bg_bright (conf b) |>.

(** ** Showing *)

Definition inverted (c : flanterm_fb_char) : flanterm_fb_char := FChar (fc c) (bg c) (fg c).

Definition draw_cursor (t : flanterm_context) (b : flanterm_fb_context) : option flanterm_fb_context :=
  if (cols t <=? cursor_x b) || (rows t <=? cursor_y b) then Some b
  else
    let i := cursor_x b + cursor_y b * cols t in
    q ← zget (map b) i;
    c ← cell b i;
    b' ← plot t (inverted c) (cursor_x b) (cursor_y b) b;
    match q with
    | Some _ => g ← zset (grid b') i c; p ← zset (map b') i None; Some (b' <| grid := g |> <| map := p |>)
    | None => Some b'
    end.

(** One item of the queue. *)
Definition flush_item (t : flanterm_context) (j : Z) (b : flanterm_fb_context) : option flanterm_fb_context :=
  q ← zget (queue b) j;
  let offset := qy q * cols t + qx q in
  e ← zget (map b) offset;
  match e with
  | None => Some b
  | Some _ =>
      b ← plot t (qc q) (qx q) (qy q) b;
      g ← zset (grid b) offset (qc q); p ← zset (map b) offset None;
      Some (b <| grid := g |> <| map := p |>)
  end.

Definition flanterm_fb_double_buffer_flush (t : flanterm_context) (b : flanterm_fb_context) : option flanterm_fb_context :=
  b ← (if cursor_enabled t then draw_cursor t b else Some b);
  b ← floop (Z.to_nat (queue_i b)) 0 (fun j ob => b ← ob; flush_item t j b) (Some b);
  b ← (if (negb (old_cursor_x b =? cursor_x b) || negb (old_cursor_y b =? cursor_y b)) || negb (cursor_enabled t) then
         if (old_cursor_x b <? cols t) && (old_cursor_y b <? rows t) then
           c ← zget (grid b) (old_cursor_x b + old_cursor_y b * cols t);
           plot t c (old_cursor_x b) (old_cursor_y b) b
         else Some b
       else Some b);
  Some (b <| old_cursor_x := cursor_x b |> <| old_cursor_y := cursor_y b |> <| queue_i := 0 |>).

Definition flanterm_fb_raw_putchar (t : flanterm_context) (c : Z) (b : flanterm_fb_context) : option flanterm_fb_context :=
  b ← (if (cols t <=? cursor_x b) && ((cursor_y b <? scroll_bottom_margin t - 1) || scroll_enabled t) then
         let b := b <| cursor_x := 0 |> <| cursor_y := u64 (cursor_y b + 1) |> in
         b ← (if cursor_y b =? scroll_bottom_margin t
              then flanterm_fb_scroll t (b <| cursor_y := cursor_y b - 1 |>) else Some b);
         Some (if cols t <=? cursor_y b then b <| cursor_y := cols t - 1 |> else b)
       else Some b);
  let out := FChar c (text_fg b) (text_bg b) in
  let x := cursor_x b in
  push_to_queue t out x (cursor_y b) (b <| cursor_x := u64 (x + 1) |>).

(** The background, then every cell of the grid and the cursor. *)
Definition flanterm_fb_full_refresh (t : flanterm_context) (b : flanterm_fb_context) : option flanterm_fb_context :=
  let k := conf b in
  let m := floop (Z.to_nat (height k)) 0 (fun y m =>
             floop (Z.to_nat (width k)) 0 (fun x m =>
               st32 m (fb_pixel k x y) (if negb (canvas k =? 0) then ld32 m (canvas_pixel k x y) else default_bg k)) m)
             (video b) in
  b ← floop (Z.to_nat (rows t * cols t)) 0 (fun i ob =>
        b ← ob; c ← zget (grid b) i; plot t c (i mod cols t) (i / cols t) b) (Some (b <| video := m |>));
  if cursor_enabled t then draw_cursor t b else Some b.

#[export] Instance fb_backend : Backend flanterm_fb_context := {
  raw_putchar := flanterm_fb_raw_putchar;
  clear := flanterm_fb_clear;
  set_cursor_pos t x y b := Some (flanterm_fb_set_cursor_pos t x y b);
  get_cursor_pos := flanterm_fb_get_cursor_pos;
  set_text_fg _ := flanterm_fb_set_text_fg;
  set_text_bg _ := flanterm_fb_set_text_bg;
  set_text_fg_bright _ := flanterm_fb_set_text_fg_bright;
  set_text_bg_bright _ := flanterm_fb_set_text_bg_bright;
  set_text_fg_rgb _ v b := Some (flanterm_fb_set_text_fg_rgb v b);
  set_text_bg_rgb _ v b := Some (flanterm_fb_set_text_bg_rgb v b);
  set_text_fg_default _ b := Some (flanterm_fb_set_text_fg_default b);
  set_text_bg_default _ b := Some (flanterm_fb_set_text_bg_default b);
  set_text_fg_default_bright _ b := Some (flanterm_fb_set_text_fg_default_bright b);
  set_text_bg_default_bright _ b := Some (flanterm_fb_set_text_bg_default_bright b);
  move_character := flanterm_fb_move_character;
  scroll := flanterm_fb_scroll;
  revscroll := flanterm_fb_revscroll;
  swap_palette _ b := Some (flanterm_fb_swap_palette b);
  save_state_b _ b := Some (flanterm_fb_save_state b);
  restore_state_b _ b := Some (flanterm_fb_restore_state b);
  double_buffer_flush := flanterm_fb_double_buffer_flush;
  full_refresh := flanterm_fb_full_refresh }.
