(* ===== verification/FbQueue.v ===== *)
(** * The queue of the framebuffer terminal

    [grid], [queue] and [map] together hold one character per cell, [cell b i].  [fb_ok] is the
    invariant that ties them; every operation is given as what it does to the cells. *)

From S2P Require Import Prelude Mem TermTables Flanterm TermSafe FbTerm.

(** At most [n] distinct numbers below [n], none of them [i]. *)
Lemma pigeonhole (f : nat -> nat) (n k i : nat) :
  (i < n)%nat -> (forall j, (j < k)%nat -> (f j < n)%nat /\ f j <> i) ->
  (forall j j', (j < k)%nat -> (j' < k)%nat -> f j = f j' -> j = j') -> (k < n)%nat.
Proof.
  intros Hi Hf Hinj.
  assert (List.NoDup (i :: List.map f (seq 0 k))) as Hnd.
  { constructor.
    - intros (j & Hj & Hin)%in_map_iff. apply in_seq in Hin. destruct (Hf j); [lia|done].
    - apply NoDup_map_NoDup_ForallPairs; [|apply seq_NoDup].
      intros a a' Ha%in_seq Ha'%in_seq. apply Hinj; lia. }
  pose proof (NoDup_incl_length Hnd (l' := seq 0 n)) as Hl. cbn [length] in Hl.
  rewrite length_map, !length_seq in Hl. apply Hl.
  intros x [<-|(j & <- & Hin)%in_map_iff]; [apply in_seq; lia|]. apply in_seq in Hin.
  apply in_seq. destruct (Hf j); lia.
Qed.

Definition char_ok (c : flanterm_fb_char) : Prop := 0 <= fc c < 256.

(** Where an item lies. *)
Definition item_cell (w : Z) (it : flanterm_fb_queue_item) : Z := qy it * w + qx it.
Definition item_ok (w h : Z) (it : flanterm_fb_queue_item) : Prop :=
  0 <= qx it < w /\ 0 <= qy it < h /\ char_ok (qc it).

Record fb_ok (w h : Z) (b : flanterm_fb_context) : Prop := {
  fo_grid : Z.of_nat (length (grid b)) = h * w;
  fo_queue : Z.of_nat (length (queue b)) = h * w;
  fo_map : Z.of_nat (length (map b)) = h * w;
  fo_queue_i : 0 <= queue_i b;
  fo_chars : forall i c, zget (grid b) i = Some c -> char_ok c;
  (** an item's cell points back to it *)
  fo_item : forall j, 0 <= j < queue_i b -> exists it, zget (queue b) j = Some it /\ item_ok w h it /\
    zget (map b) (item_cell w it) = Some (Some j);
  fo_entry : forall i j, zget (map b) i = Some (Some j) -> 0 <= j < queue_i b /\
    exists it, zget (queue b) j = Some it /\ item_cell w it = i;
  fo_cursor : 0 <= cursor_x b /\ 0 <= cursor_y b /\ 0 <= old_cursor_x b /\ 0 <= old_cursor_y b /\
    0 <= saved_state_cursor_x b /\ 0 <= saved_state_cursor_y b }.

(** Nothing but the queue differs. *)
Definition same_but_queue (b b' : flanterm_fb_context) : Prop :=
  b' = b <| queue := queue b' |> <| queue_i := queue_i b' |> <| map := map b' |>.

Lemma same_but_queue_refl b : same_but_queue b b.
Proof. by destruct b. Qed.
Lemma same_but_queue_trans b1 b2 b3 : same_but_queue b1 b2 -> same_but_queue b2 b3 -> same_but_queue b1 b3.
Proof. unfold same_but_queue. intros E1 E2. rewrite E2, E1. done. Qed.

(** From [b] to [b'] the cells become [f]. *)
Record edited (w h : Z) (b b' : flanterm_fb_context) (f : Z -> option flanterm_fb_char) : Prop := {
  ed_ok : fb_ok w h b';
  ed_same : same_but_queue b b';
  ed_cell : forall i, cell b' i = f i }.

Section Queue.
Context (w h : Z) (Hw : 0 < w) (Hh : 0 < h).
Implicit Types (b : flanterm_fb_context) (c : flanterm_fb_char).

Lemma cell_index x y : 0 <= x < w -> 0 <= y < h -> 0 <= y * w + x < h * w.
Proof. nia. Qed.

Lemma cell_coords x y : 0 <= x < w -> (y * w + x) / w = y /\ (y * w + x) mod w = x.
Proof.
  intros Hx. rewrite Z.add_comm, Z_div_plus_full, Z_mod_plus_full by lia.
  by rewrite Z.div_small, Z.mod_small by lia.
Qed.

Lemma item_cell_inj it it' : item_ok w h it -> item_ok w h it' -> item_cell w it = item_cell w it' ->
  qx it = qx it' /\ qy it = qy it'.
Proof.
  intros (H1 & H2 & _) (H3 & H4 & _) E. unfold item_cell in E.
  destruct (cell_coords (qx it) (qy it) H1) as [D1 M1], (cell_coords (qx it') (qy it') H3) as [D2 M2].
  rewrite E in D1, M1. split; congruence.
Qed.

(** While a cell is not in the queue there is room in it. *)
Lemma queue_has_room b i : fb_ok w h b -> zget (map b) i = Some None -> queue_i b < h * w.
Proof.
  intros [H1 H2 H3 H4 H5 H6 H7] Hi. pose proof (zget_lt _ _ _ Hi) as Hr. rewrite H3 in Hr.
  set (off := fun j => match zget (queue b) (Z.of_nat j) with Some it => Z.to_nat (item_cell w it) | None => 0%nat end).
  assert (Hoff : forall j, (j < Z.to_nat (queue_i b))%nat ->
    0 <= Z.of_nat (off j) < h * w /\ zget (map b) (Z.of_nat (off j)) = Some (Some (Z.of_nat j))).
  { intros j Hj. destruct (H6 (Z.of_nat j) ltac:(lia)) as (it & Eq & (Hx & Hy & _) & Em). unfold off. rewrite Eq.
    pose proof (cell_index (qx it) (qy it) Hx Hy). unfold item_cell in *. rewrite Z2Nat.id by lia. done. }
  assert (Hlt : (Z.to_nat (queue_i b) < Z.to_nat (h * w))%nat); [|lia].
  apply (pigeonhole off _ _ (Z.to_nat i)); [lia| |].
  - intros j Hj. destruct (Hoff j Hj) as [Hb Em]. split; [lia|]. intros E. rewrite E, Z2Nat.id in Em by lia. congruence.
  - intros j j' Hj Hj' E. destruct (Hoff j Hj) as [_ Em], (Hoff j' Hj') as [_ Em']. rewrite E in Em.
    rewrite Em in Em'. injection Em'. lia.
Qed.

(** Every cell has a character. *)
Lemma cell_some b i : fb_ok w h b -> 0 <= i < h * w -> exists c, cell b i = Some c /\ char_ok c.
Proof.
  intros Hok Hi. pose proof Hok as [H1 H2 H3 H4 H5 H6 H7]. unfold cell.
  destruct (zget_Some (map b) i ltac:(lia)) as [[j|] Em]; rewrite Em; cbn [mbind option_bind].
  - destruct (H7 i j Em) as (Hj & _). destruct (H6 j Hj) as (it & Eq & (_ & _ & Hc) & _). rewrite Eq. eauto.
  - destruct (zget_Some (grid b) i ltac:(lia)) as [c Ec]. eauto.
Qed.

Lemma cell_none b i : fb_ok w h b -> ~ 0 <= i < h * w -> cell b i = None.
Proof.
  intros Hok Hi. unfold cell. destruct (zget (map b) i) eqn:E; [|done].
  apply zget_lt in E. rewrite (fo_map _ _ _ Hok) in E. done.
Qed.

Lemma edited_refl b : fb_ok w h b -> edited w h b b (cell b).
Proof. intros. constructor; [done|apply same_but_queue_refl|done]. Qed.

Lemma edited_trans b1 b2 b3 f g : edited w h b1 b2 f -> edited w h b2 b3 g -> edited w h b1 b3 g.
Proof. intros [] []. constructor; [done|by eapply same_but_queue_trans|done]. Qed.

Lemma compare_char_true a c : compare_char a c = true <-> a = c.
Proof.
  unfold compare_char. destruct a, c; cbn. split; [|intros [= -> -> ->]; by rewrite !Z.eqb_refl].
  intros E. bool_to_prop. congruence.
Qed.

(** The character of an item that is queued already. *)
Lemma requeue b i j it c : fb_ok w h b -> char_ok c ->
  zget (map b) i = Some (Some j) -> zget (queue b) j = Some it ->
  edited w h b (b <| queue := <[Z.to_nat j := QItem (qx it) (qy it) c]> (queue b) |>)
    (fun i' => if i' =? i then Some c else cell b i').
Proof.
  intros Hok Hc Em Eq. pose proof Hok as [H1 H2 H3 H4 H5 H6 H7].
  destruct (H7 i j Em) as (Hj & it0 & Eq0 & Hi). rewrite Eq in Eq0. injection Eq0 as <-.
  pose proof (zget_lt _ _ _ Eq) as Hjl.
  assert (Hget : forall j', zget (<[Z.to_nat j := QItem (qx it) (qy it) c]> (queue b)) j' =
    if j' =? j then Some (QItem (qx it) (qy it) c) else zget (queue b) j') by (intros; by apply zget_insert).
  constructor; [constructor; cbn| |]; try done.
  - by rewrite length_insert.
  - intros j' Hj'. rewrite Hget. destruct (j' =? j) eqn:E; bool_to_prop.
    + subst j'. destruct (H6 j Hj) as (it1 & Eq1 & (Hx & Hy & _) & Em1). rewrite Eq in Eq1. injection Eq1 as <-.
      eexists. split; [done|]. split; [done|]. done.
    + by apply H6.
  - intros i' j' Em'. destruct (H7 i' j' Em') as (Hj' & it' & Eq' & Hi'). split; [done|]. rewrite Hget.
    destruct (j' =? j) eqn:E; bool_to_prop; [|eauto]. subst j'. rewrite Eq in Eq'. injection Eq' as <-.
    eexists. split; [done|]. done.
  - intros i'. unfold cell at 1. cbn. destruct (i' =? i) eqn:E; bool_to_prop.
    + subst i'. rewrite Em. cbn [mbind option_bind]. rewrite Hget, Z.eqb_refl. done.
    + unfold cell. destruct (zget (map b) i') as [[j'|]|] eqn:Em'; cbn [mbind option_bind]; [|done|done].
      rewrite Hget. destruct (j' =? j) eqn:E'; [|done]. bool_to_prop. subst j'.
      destruct (H7 i' j Em') as (_ & it' & Eq' & Hi'). rewrite Eq in Eq'. injection Eq' as <-. congruence.
Qed.

(** A new item. *)
Lemma enqueue b x y c : fb_ok w h b -> char_ok c -> 0 <= x < w -> 0 <= y < h ->
  zget (map b) (y * w + x) = Some None ->
  let b' := b <| queue := <[Z.to_nat (queue_i b) := QItem x y c]> (queue b) |>
              <| queue_i := queue_i b + 1 |> <| map := <[Z.to_nat (y * w + x) := Some (queue_i b)]> (map b) |> in
  queue_i b < h * w /\ edited w h b b' (fun i' => if i' =? y * w + x then Some c else cell b i').
Proof.
  intros Hok Hc Hx Hy Em b'. pose proof Hok as [H1 H2 H3 H4 H5 H6 H7].
  pose proof (queue_has_room b _ Hok Em) as Hroom. split; [done|].
  pose proof (cell_index x y Hx Hy) as Hi. set (i := y * w + x) in *.
  assert (Hget : forall j', zget (queue b') j' = if j' =? queue_i b then Some (QItem x y c) else zget (queue b) j')
    by (intros; apply zget_insert; lia).
  assert (Hmap : forall i', zget (map b') i' = if i' =? i then Some (Some (queue_i b)) else zget (map b) i')
    by (intros; apply zget_insert; lia).
  assert (Hci : item_cell w (QItem x y c) = i) by done.
  constructor; [constructor| |]; try done.
  - cbn. by rewrite length_insert.
  - cbn. by rewrite length_insert.
  - cbn. lia.
  - intros j' Hj'. rewrite Hget. cbn [b' queue_i set] in Hj'. destruct (j' =? queue_i b) eqn:E; bool_to_prop.
    + subst j'. eexists. split; [done|]. split; [done|]. by rewrite Hmap, Hci, Z.eqb_refl.
    + destruct (H6 j' ltac:(lia)) as (it & Eq & Hit & Em'). exists it. split; [done|]. split; [done|].
      rewrite Hmap. destruct (item_cell w it =? i) eqn:E'; [|done]. bool_to_prop. congruence.
  - intros i' j'. rewrite Hmap, Hget. cbn [b' queue_i set]. destruct (i' =? i) eqn:E; bool_to_prop.
    + intros [= <-]. rewrite Z.eqb_refl. split; [lia|]. eexists. split; [done|]. congruence.
    + intros Em'. destruct (H7 i' j' Em') as (Hj' & it & Eq & Hi'). split; [lia|].
      rewrite (proj2 (Z.eqb_neq j' _)) by lia. eauto.
  - intros i'. unfold cell at 1. rewrite Hmap. destruct (i' =? i) eqn:E; bool_to_prop.
    + cbn [mbind option_bind]. by rewrite Hget, Z.eqb_refl.
    + unfold cell. destruct (zget (map b) i') as [[j'|]|] eqn:Em'; cbn [mbind option_bind]; [|done|done].
      destruct (H7 i' j' Em') as (Hj' & _). rewrite Hget, (proj2 (Z.eqb_neq j' _)) by lia. done.
Qed.
End Queue.

(** ** The operations on cells *)

Section Cells.
Context (t : flanterm_context) (Hg : geometry t).
Notation w := (cols t).
Notation h := (rows t).
Notation edits := (edited (cols t) (rows t)).
Notation ok := (fb_ok (cols t) (rows t)).
Implicit Types (b : flanterm_fb_context) (c : flanterm_fb_char).

Lemma edited_ext b b' f g : edits b b' f -> (forall i, f i = g i) -> edits b b' g.
Proof. intros [] E. constructor; [done|done|]. intros i. by rewrite <- E. Qed.

Lemma push_ok b c x y : ok b -> char_ok c -> 0 <= x -> 0 <= y ->
  exists b', push_to_queue t c x y b = Some b' /\
    edits b b' (fun i => if (x <? w) && (y <? h) && (i =? y * w + x) then Some c else cell b i).
Proof.
  intros Hok Hc Hx Hy. destruct Hg as [Hw Hh _ _]. unfold push_to_queue.
  destruct ((w <=? x) || (h <=? y)) eqn:Eout.
  { exists b. split; [done|]. eapply edited_ext; [by apply edited_refl|]. intros i. cbn.
    by replace ((x <? w) && (y <? h)) with false by (symmetry; apply andb_false_iff; apply orb_true_iff in Eout; lia). }
  bool_to_prop. pose proof (cell_index w h ltac:(lia) x y ltac:(lia) ltac:(lia)) as Hi.
  replace ((x <? w) && (y <? h)) with true by lia. cbn [andb]. set (i := y * w + x) in *.
  pose proof Hok as [H1 H2 H3 H4 H5 H6 H7].
  destruct (zget_Some (map b) i ltac:(lia)) as [[j|] Em]; rewrite Em; cbn [mbind option_bind].
  - destruct (H7 i j Em) as (Hj & it & Eq & _). rewrite Eq. cbn [mbind option_bind].
    rewrite zset_ok by (by eapply zget_lt). cbn [mbind option_bind]. eexists. split; [done|]. by apply requeue.
  - destruct (zget_Some (grid b) i ltac:(lia)) as [g Eg]. rewrite Eg. cbn [mbind option_bind].
    destruct (compare_char g c) eqn:Ec.
    + apply compare_char_true in Ec. subst g. exists b. split; [done|].
      eapply edited_ext; [by apply edited_refl|]. intros i'. destruct (i' =? i) eqn:E; [|done].
      bool_to_prop. subst i'. unfold cell. by rewrite Em.
    + destruct (enqueue w h ltac:(lia) ltac:(lia) b x y c Hok Hc ltac:(lia) ltac:(lia) Em) as [Hroom He].
      rewrite zset_ok by lia. cbn [mbind option_bind]. rewrite zset_ok by lia. cbn [mbind option_bind].
      eexists. split; [done|]. exact He.
Qed.

(** Loops of pushes: [F i] is the cells before round [i]. *)
Lemma edit_loop (F : Z -> Z -> option flanterm_fb_char) (step : Z -> flanterm_fb_context -> option flanterm_fb_context) n lo b :
  ok b -> (forall i, F lo i = cell b i) ->
  (forall i b1, lo <= i < lo + Z.of_nat n -> edits b b1 (F i) ->
     exists b2, step i b1 = Some b2 /\ edits b1 b2 (F (i + 1))) ->
  exists b', floop n lo (fun i ob => b ← ob; step i b) (Some b) = Some b' /\ edits b b' (F (lo + Z.of_nat n)).
Proof.
  intros Hok H0 Hs.
  apply (floop_inv (fun i ob => exists b', ob = Some b' /\ edits b b' (F i)) (fun i ob => b ← ob; step i b)).
  - exists b. split; [done|]. eapply edited_ext; [by apply edited_refl|]. done.
  - intros i ob Hi (b1 & -> & H1). cbn [mbind option_bind]. destruct (Hs i b1 Hi H1) as (b2 & -> & H2).
    exists b2. split; [done|]. by eapply edited_trans.
Qed.

Lemma clear_row_ok b e y : ok b -> char_ok e -> 0 <= y < h ->
  exists b', clear_row t e y b = Some b' /\
    edits b b' (fun i => if (y * w <=? i) && (i <? y * w + w) then Some e else cell b i).
Proof.
  intros Hok He Hy. destruct Hg as [Hw Hh _ _]. unfold clear_row.
  destruct (edit_loop (fun n i => if (y * w <=? i) && (i <? y * w + n) then Some e else cell b i)
    (fun i b => push_to_queue t e i y b) (Z.to_nat w) 0 b) as (b' & E & H').
  - done.
  - intros i. cbn. by replace (_ && _) with false by lia.
  - intros i b1 Hi H1. destruct (push_ok b1 e i y (ed_ok _ _ _ _ _ H1) He ltac:(lia) ltac:(lia)) as (b2 & E2 & H2).
    exists b2. split; [done|]. eapply edited_ext; [exact H2|]. intros k. cbn. rewrite (ed_cell _ _ _ _ _ H1).
    replace ((i <? w) && (y <? h)) with true by lia. cbn [andb].
    destruct (k =? y * w + i) eqn:E1; bool_to_prop; [by replace (_ && _) with true by lia|].
    destruct ((y * w <=? k) && (k <? y * w + i)) eqn:E3.
    + by replace (_ && _) with true by lia.
    + by replace (_ && _) with false by lia.
  - exists b'. split; [exact E|]. eapply edited_ext; [exact H'|]. intros i. cbn. by replace (0 + Z.of_nat (Z.to_nat w)) with w by lia.
Qed.

(** A push of a copied cell. *)
Lemma push_cell b1 i k c : ok b1 -> 0 <= k < h * w -> cell b1 i = Some c -> char_ok c ->
  exists b2, push_to_queue t c (k mod w) (k / w) b1 = Some b2 /\
    edits b1 b2 (fun j => if j =? k then Some c else cell b1 j).
Proof.
  intros Hok Hk Hc Hch. destruct Hg as [Hw Hh _ _].
  pose proof (Z.mod_pos_bound k w ltac:(lia)). pose proof (Z.div_mod k w ltac:(lia)) as Hd.
  assert (0 <= k / w < h) by (split; [apply Z.div_pos; lia|apply Z.div_lt_upper_bound; lia]).
  destruct (push_ok b1 c (k mod w) (k / w) Hok Hch ltac:(lia) ltac:(lia)) as (b2 & E & H2).
  exists b2. split; [done|]. eapply edited_ext; [exact H2|]. intros j. cbn.
  replace ((k mod w <? w) && (k / w <? h)) with true by lia. cbn [andb].
  by replace (k / w * w + k mod w) with k by lia.
Qed.

Lemma empty_same b b' : same_but_queue b b' -> empty_char b' = empty_char b.
Proof. unfold same_but_queue. intros ->. done. Qed.

Lemma empty_ok b : char_ok (empty_char b).
Proof. unfold char_ok. cbn. lia. Qed.

(** [scroll]: the lines between the margins move up, the last one is blank. *)
Lemma scroll_ok b : ok b ->
  exists b', flanterm_fb_scroll t b = Some b' /\
    edits b b' (fun i =>
      if ((scroll_bottom_margin t - 1) * w <=? i) && (i <? scroll_bottom_margin t * w) then Some (empty_char b)
      else if (scroll_top_margin t * w <=? i) && (i <? (scroll_bottom_margin t - 1) * w) then cell b (i + w)
      else cell b i).
Proof.
  intros Hok. pose proof Hg as [Hw Hh Ht Hb]. unfold flanterm_fb_scroll.
  set (top := scroll_top_margin t) in *. set (bot := scroll_bottom_margin t) in *.
  set (lo := (top + 1) * w) in *. assert (Hbw : bot * w <= h * w) by nia. assert (0 <= top * w) by nia.
  destruct (edit_loop (fun i k => if (top * w <=? k) && (k <? i - w) then cell b (k + w) else cell b k)
    (fun i b => c ← cell b i; push_to_queue t c ((i - w) mod w) ((i - w) / w) b) (Z.to_nat (bot * w - lo)) lo b)
    as (b1 & E1 & H1).
  - done.
  - intros k. cbn. unfold lo. by replace (_ && _) with false by lia.
  - intros i b1 Hi H1. assert (Hi' : lo <= i < bot * w) by lia. clear Hi. unfold lo in Hi'.
    destruct (cell_some w h b i Hok ltac:(lia)) as (c & Ec & Hc).
    assert (Ec1 : cell b1 i = Some c).
    { rewrite (ed_cell _ _ _ _ _ H1). cbn. by replace (_ && _) with false by lia. }
    rewrite Ec1. cbn [mbind option_bind].
    destruct (push_cell b1 i (i - w) c (ed_ok _ _ _ _ _ H1) ltac:(lia) Ec1 Hc) as (b2 & E2 & H2).
    exists b2. split; [done|]. eapply edited_ext; [exact H2|]. intros k. cbn. rewrite (ed_cell _ _ _ _ _ H1).
    destruct (k =? i - w) eqn:Ek; bool_to_prop.
    + subst k. replace (_ && _) with true by lia. by replace (i - w + w) with i by lia.
    + destruct ((top * w <=? k) && (k <? i - w)) eqn:E3.
      * by replace (_ && _) with true by lia.
      * by replace (_ && _) with false by lia.
  - rewrite E1. cbn [mbind option_bind].
    destruct (clear_row_ok b1 (empty_char b1) (bot - 1) (ed_ok _ _ _ _ _ H1) (empty_ok _) ltac:(lia)) as (b2 & E2 & H2).
    exists b2. split; [done|]. apply (edited_trans _ _ _ _ _ _ _ H1). eapply edited_ext; [exact H2|]. intros k. cbn.
    rewrite (ed_cell _ _ _ _ _ H1), (empty_same _ _ (ed_same _ _ _ _ _ H1)).
    replace ((bot - 1) * w + w) with (bot * w) by lia.
    destruct (((bot - 1) * w <=? k) && (k <? bot * w)) eqn:E3; [done|].
    assert (lo + Z.of_nat (Z.to_nat (bot * w - lo)) - w = Z.max (top * w) ((bot - 1) * w)) as -> by (unfold lo; lia).
    destruct ((top * w <=? k) && (k <? (bot - 1) * w)) eqn:E4.
    + by replace (_ && _) with true by lia.
    + by replace (_ && _) with false by lia.
Qed.

(** The cells while [revscroll] works downwards, cells from [i + 1] on copied. *)
Definition rev_cells b i k : option flanterm_fb_char :=
  if (i + 1 + w <=? k) && (k <? scroll_bottom_margin t * w) then cell b (k - w) else cell b k.

Lemma revscroll_loop b : ok b ->
  exists b', wloop (S (Z.to_nat (h * w))) (revscroll_step t) (u64 ((scroll_bottom_margin t - 1) * w - 1), b) = Some (Some b') /\
    edits b b' (rev_cells b (Z.min (scroll_top_margin t * w) ((scroll_bottom_margin t - 1) * w) - 1)).
Proof.
  intros Hok. pose proof Hg as [Hw Hh Ht Hb].
  set (top := scroll_top_margin t) in *. set (bot := scroll_bottom_margin t) in *.
  assert (Hbw : bot * w <= h * w) by nia. assert (Hhw : h * w < 2 ^ 60) by nia. assert (0 <= top * w) by nia.
  set (lo := Z.min (top * w) ((bot - 1) * w)).
  (** the variant: [i + 1], where -1 has wrapped around *)
  set (left := fun s : Z * flanterm_fb_context => if s.1 =? NONE then 0 else s.1 + 1).
  assert (Hleft : forall i b, -1 <= i < h * w -> left (u64 i, b) = i + 1).
  { intros i b0 Hi. unfold left, NONE. cbn. destruct (u64 i =? 18446744073709551615) eqn:E; bool_to_prop; wrap_lia. }
  destruct (wloop_total
    (fun s : Z * flanterm_fb_context => exists i, s.1 = u64 i /\ -1 <= i /\ lo - 1 <= i < bot * w - w /\ edits b s.2 (rev_cells b i))
    (fun r => exists b', r = Some b' /\ edits b b' (rev_cells b (lo - 1)))
    left (revscroll_step t) (S (Z.to_nat (h * w))) (u64 ((bot - 1) * w - 1), b)) as (r & Er & b' & -> & Hb').
  - exists ((bot - 1) * w - 1). cbn. split_and_all; [done|nia|lia|lia|]. eapply edited_ext; [by apply edited_refl|].
    intros k. unfold rev_cells. fold bot. by replace (_ && _) with false by lia.
  - rewrite Hleft by nia. nia.
  - intros [i' b1] (i & Ei & Hi0 & Hi & H1) _. cbn [fst snd] in *. subst i'. unfold revscroll_step. fold top.
    destruct (negb (top * w <=? u64 i) || (u64 i =? NONE)) eqn:Ex.
    + exists b1. split; [done|]. assert (i = lo - 1) as ->; [|done].
      unfold NONE in Ex. apply orb_true_iff in Ex as [Ex|Ex]; bool_to_prop; unfold lo in *; wrap_lia.
    + bool_to_prop. assert (Hir : 0 <= i /\ top * w <= i) by (unfold NONE in *; wrap_lia).
      rewrite u64_small by lia. destruct (cell_some w h b i Hok ltac:(lia)) as (c & Ec & Hc).
      assert (Ec1 : cell b1 i = Some c).
      { rewrite (ed_cell _ _ _ _ _ H1). unfold rev_cells. by replace (_ && _) with false by lia. }
      rewrite Ec1. cbn [mbind option_bind].
      destruct (push_cell b1 i (i + w) c (ed_ok _ _ _ _ _ H1) ltac:(lia) Ec1 Hc) as (b2 & -> & Hp).
      split; [|rewrite Hleft by lia; pose proof (Hleft i b1 ltac:(lia)) as Hl; rewrite u64_small in Hl by lia; lia].
      exists (i - 1). split_and_all; [done|lia|lia|lia|]. apply (edited_trans _ _ _ _ _ _ _ H1).
      eapply edited_ext; [exact Hp|]. intros k. unfold rev_cells. rewrite (ed_cell _ _ _ _ _ H1). unfold rev_cells. fold bot.
      destruct (k =? i + w) eqn:Ek; bool_to_prop.
      * subst k. replace (_ && _) with true by lia. by replace (i + w - w) with i by lia.
      * destruct ((i + 1 + w <=? k) && (k <? bot * w)) eqn:E3.
        -- by replace (_ && _) with true by lia.
        -- by replace (_ && _) with false by lia.
  - exists b'. split; [exact Er|exact Hb'].
Qed.

(** [revscroll]: the lines between the margins move down, the first one is blank. *)
Lemma revscroll_ok b : ok b ->
  exists b', flanterm_fb_revscroll t b = Some b' /\
    edits b b' (fun i =>
      if (scroll_top_margin t * w <=? i) && (i <? (scroll_top_margin t + 1) * w) then Some (empty_char b)
      else if ((scroll_top_margin t + 1) * w <=? i) && (i <? scroll_bottom_margin t * w) then cell b (i - w)
      else cell b i).
Proof.
  intros Hok. pose proof Hg as [Hw Hh Ht Hb]. unfold flanterm_fb_revscroll.
  destruct (revscroll_loop b Hok) as (b1 & -> & H1). cbn [mbind option_bind].
  set (top := scroll_top_margin t) in *. set (bot := scroll_bottom_margin t) in *.
  destruct (clear_row_ok b1 (empty_char b1) top (ed_ok _ _ _ _ _ H1) (empty_ok _) ltac:(lia)) as (b2 & E2 & H2).
  exists b2. split; [done|]. apply (edited_trans _ _ _ _ _ _ _ H1). eapply edited_ext; [exact H2|]. intros k. cbn.
  rewrite (ed_cell _ _ _ _ _ H1), (empty_same _ _ (ed_same _ _ _ _ _ H1)). unfold rev_cells. fold bot.
  replace (top * w + w) with ((top + 1) * w) by lia.
  destruct ((top * w <=? k) && (k <? (top + 1) * w)) eqn:E3; [done|].
  destruct (((top + 1) * w <=? k) && (k <? bot * w)) eqn:E4.
  - by replace (_ && _) with true by lia.
  - destruct (Z_lt_ge_dec top (bot - 1)).
    + assert (top * w <= (bot - 1) * w) by nia. by replace (_ && _) with false by lia.
    + assert ((bot - 1) * w <= top * w) by nia. by replace (_ && _) with false by lia.
Qed.

Lemma move_ok b nx ny ox oy : ok b -> 0 <= nx -> 0 <= ny -> 0 <= ox -> 0 <= oy ->
  exists b', flanterm_fb_move_character t nx ny ox oy b = Some b' /\
    edits b b' (fun i => if (ox <? w) && (oy <? h) && (nx <? w) && (ny <? h) && (i =? ny * w + nx)
                         then cell b (oy * w + ox) else cell b i).
Proof.
  intros Hok Hnx Hny Hox Hoy. pose proof Hg as [Hw Hh _ _]. unfold flanterm_fb_move_character.
  destruct ((w <=? ox) || (h <=? oy) || (w <=? nx) || (h <=? ny)) eqn:E.
  - exists b. split; [done|]. eapply edited_ext; [by apply edited_refl|]. intros i. cbn.
    destruct ((ox <? w) && (oy <? h) && (nx <? w) && (ny <? h)) eqn:E2; [|done]. exfalso. bool_to_prop.
    rewrite !orb_true_iff in E. lia.
  - bool_to_prop. pose proof (cell_index w h ltac:(lia) ox oy ltac:(lia) ltac:(lia)).
    replace (ox + oy * w) with (oy * w + ox) by lia.
    destruct (cell_some w h b (oy * w + ox) Hok ltac:(lia)) as (c & Ec & Hc). rewrite Ec. cbn [mbind option_bind].
    destruct (push_ok b c nx ny Hok Hc Hnx Hny) as (b' & E' & H'). exists b'. split; [done|].
    eapply edited_ext; [exact H'|]. intros i. cbv beta. replace ((ox <? w) && (oy <? h)) with true by lia. cbn [andb]. done.
Qed.

Lemma clear_ok b move : ok b ->
  exists b', flanterm_fb_clear t move b = Some (if move : bool then b' <| cursor_x := 0 |> <| cursor_y := 0 |> else b') /\
    edits b b' (fun i => if (0 <=? i) && (i <? h * w) then Some (empty_char b) else None).
Proof.
  intros Hok. pose proof Hg as [Hw Hh _ _]. unfold flanterm_fb_clear. assert (0 < h * w) by nia.
  destruct (edit_loop (fun n i => if (0 <=? i) && (i <? n) then Some (empty_char b) else cell b i)
    (fun i b1 => push_to_queue t (empty_char b) (i mod w) (i / w) b1) (Z.to_nat (h * w)) 0 b) as (b1 & E1 & H1).
  - done.
  - intros i. cbn. by replace (_ && _) with false by lia.
  - intros i b1 Hi H1. pose proof (Z.mod_pos_bound i w ltac:(lia)). pose proof (Z.div_mod i w ltac:(lia)) as Hd.
    assert (0 <= i / w < h) by (split; [apply Z.div_pos; lia|apply Z.div_lt_upper_bound; lia]).
    destruct (push_ok b1 (empty_char b) (i mod w) (i / w) (ed_ok _ _ _ _ _ H1) (empty_ok b) ltac:(lia) ltac:(lia)) as (b2 & E2 & Hp).
    exists b2. split; [done|]. eapply edited_ext; [exact Hp|]. intros k. cbn. rewrite (ed_cell _ _ _ _ _ H1).
    replace ((i mod w <? w) && (i / w <? h)) with true by lia. cbn [andb]. replace (i / w * w + i mod w) with i by lia.
    destruct (k =? i) eqn:Ek; bool_to_prop; [by replace (_ && _) with true by lia|].
    destruct ((0 <=? k) && (k <? i)) eqn:E3.
    + by replace (_ && _) with true by lia.
    + by replace (_ && _) with false by lia.
  - rewrite E1. cbn [mbind option_bind]. exists b1. split; [by destruct move|]. eapply edited_ext; [exact H1|]. intros i. cbn.
    rewrite Z.add_0_l, Z2Nat.id by lia. case_if; [done|]. apply (cell_none w h b i Hok). lia.
Qed.
End Cells.
