(* ===== verification/FbPlot.v ===== *)
(** * Plotting characters into the framebuffer

    The plotting loops paint exactly the pixels of one cell, scaled or not; cells do not overlap. *)

From S2P Require Import Prelude Mem TermTables Flanterm TermSafe FbTerm FbQueue.

(** ** Nested loops *)

Lemma floop_app {A} (g : Z -> A -> A) n k lo a : floop (n + k) lo g a = floop k (lo + Z.of_nat n) g (floop n lo g a).
Proof.
  revert lo a. induction n as [|n IH]; intros lo a; [cbn; by rewrite Z.add_0_r|].
  cbn [Nat.add floop]. rewrite IH. f_equal. lia.
Qed.

Lemma floop_ext {A} (f g : Z -> A -> A) n lo a :
  (forall i x, lo <= i < lo + Z.of_nat n -> f i x = g i x) -> floop n lo f a = floop n lo g a.
Proof.
  revert lo a. induction n as [|n IH]; intros lo a H; cbn [floop]; [done|].
  rewrite H by lia. apply IH. intros; apply H; lia.
Qed.

Lemma floop_shift {A} (g : Z -> A -> A) n lo d a : floop n (d + lo) g a = floop n lo (fun i => g (d + i)) a.
Proof.
  revert lo a. induction n as [|n IH]; intros lo a; cbn [floop]; [done|].
  rewrite <- IH. f_equal. lia.
Qed.

(** A loop over the digits of a mixed radix number. *)
Lemma floop_nest {A} (g : Z -> A -> A) (n s : nat) a :
  floop n 0 (fun j a => floop s 0 (fun i a => g (Z.of_nat s * j + i) a) a) a = floop (n * s) 0 g a.
Proof.
  enough (H : forall n lo, floop n lo (fun j a => floop s 0 (fun i a => g (Z.of_nat s * j + i) a) a) a =
    floop (n * s) (Z.of_nat s * lo) g a) by (rewrite H; f_equal; lia).
  intros n'. revert a. induction n' as [|n' IH]; intros a lo; [done|]. cbn [floop Nat.mul].
  rewrite IH, floop_app. f_equal; [lia|].
  pose proof (floop_shift g s 0 (Z.of_nat s * lo) a) as H. rewrite Z.add_0_r in H. by rewrite H.
Qed.

(** ** Rectangles of pixels *)

Definition rect (k : fb_config) (x0 y0 : Z) (w h : nat) (f : Z -> Z -> Z) (m : mem) : mem :=
  floop h 0 (fun gy m => floop w 0 (fun gx m => st32 m (fb_pixel k (x0 + gx) (y0 + gy)) (f gx gy)) m) m.

(** [a] is no byte of the pixel at address [p]. *)
Definition off_pixel (a p : Z) : Prop := a < p \/ p + 4 <= a.

Section Rect.
Context (k : fb_config) (x0 y0 : Z) (w h : nat) (f : Z -> Z -> Z).
Hypothesis Hx : 0 <= x0 /\ x0 + Z.of_nat w <= pitch k / 4.

Definition in_rect (n : Z) (gx gy : Z) : Prop := 0 <= gx < Z.of_nat w /\ 0 <= gy < n.

Lemma row_painted m gy :
  let m' := floop w 0 (fun gx m => st32 m (fb_pixel k (x0 + gx) (y0 + gy)) (f gx gy)) m in
  (forall gx, 0 <= gx < Z.of_nat w -> ld32 m' (fb_pixel k (x0 + gx) (y0 + gy)) = u32 (f gx gy)) /\
  (forall a, (forall gx, 0 <= gx < Z.of_nat w -> off_pixel a (fb_pixel k (x0 + gx) (y0 + gy))) -> m' a = m a).
Proof.
  pose proof (floop_inv (fun i m' =>
      (forall gx, 0 <= gx < i -> ld32 m' (fb_pixel k (x0 + gx) (y0 + gy)) = u32 (f gx gy)) /\
      (forall a, (forall gx, 0 <= gx < i -> off_pixel a (fb_pixel k (x0 + gx) (y0 + gy))) -> m' a = m a))
    (fun gx m => st32 m (fb_pixel k (x0 + gx) (y0 + gy)) (f gx gy)) w 0 m) as H.
  rewrite Z.add_0_l in H. apply H; [split; [lia|done]|]. clear H. intros i m1 Hi [H1 H2]. split.
  - intros gx Hgx. destruct (Z.eq_dec gx i) as [->|Hne]; [apply ldn_stn_same|].
    rewrite ldn_stn_disj by (unfold fb_pixel; lia). apply H1. lia.
  - intros a Ha. rewrite stn_out; [apply H2; intros; apply Ha; lia|]. apply (Ha i). lia.
Qed.

Lemma rect_painted m :
  (forall gx gy, in_rect (Z.of_nat h) gx gy -> ld32 (rect k x0 y0 w h f m) (fb_pixel k (x0 + gx) (y0 + gy)) = u32 (f gx gy)) /\
  (forall a, (forall gx gy, in_rect (Z.of_nat h) gx gy -> off_pixel a (fb_pixel k (x0 + gx) (y0 + gy))) ->
     rect k x0 y0 w h f m a = m a).
Proof.
  pose proof (floop_inv (fun n m' =>
      (forall gx gy, in_rect n gx gy -> ld32 m' (fb_pixel k (x0 + gx) (y0 + gy)) = u32 (f gx gy)) /\
      (forall a, (forall gx gy, in_rect n gx gy -> off_pixel a (fb_pixel k (x0 + gx) (y0 + gy))) -> m' a = m a))
    (fun gy m => floop w 0 (fun gx m => st32 m (fb_pixel k (x0 + gx) (y0 + gy)) (f gx gy)) m) h 0 m) as H.
  rewrite Z.add_0_l in H. apply H; [unfold in_rect; split; [lia|done]|]. clear H. intros i m1 Hi [H1 H2].
  destruct (row_painted m1 i) as [R1 R2]. unfold in_rect in *. split.
  - intros gx gy [Hgx Hgy]. destruct (Z.eq_dec gy i) as [->|Hne]; [by apply R1|].
    rewrite <- (H1 gx gy) by lia. apply ldn_ext. intros a Ha. apply R2. intros gx' Hgx'.
    unfold off_pixel, fb_pixel in *. left. nia.
  - intros a Ha. rewrite <- H2 by (intros; apply Ha; lia). apply R2. intros gx Hgx. apply Ha. lia.
Qed.
End Rect.

(** ** Characters *)

(** What the code relies on of the configuration; there is no canvas when the built-in
    allocator is used. *)
Record conf_ok (w h : Z) (k : fb_config) : Prop := {
  co_font : 0 < font_width k /\ 0 < font_height k <= 256;
  co_scale : 0 < font_scale_x k /\ 0 < font_scale_y k;
  co_glyph : glyph_width k = font_width k * font_scale_x k /\ glyph_height k = font_height k * font_scale_y k;
  co_bool : Z.of_nat (length (font_bool k)) = 256 * font_height k * font_width k;
  co_offset : 0 <= offset_x k /\ 0 <= offset_y k;
  co_fit : offset_x k + w * glyph_width k <= width k /\ offset_y k + h * glyph_height k <= height k;
  co_pitch : width k <= pitch k / 4;
  co_ansi : length (ansi_colours k) = 8%nat /\ length (ansi_bright_colours k) = 8%nat;
  co_canvas : canvas k = 0 }.

(** The pixel [(gx, gy)] of the cell [(x, y)]. *)
Definition cell_pixel (k : fb_config) (x y gx gy : Z) : Z :=
  fb_pixel k (offset_x k + x * glyph_width k + gx) (offset_y k + y * glyph_height k + gy).

Definition dot_of (k : fb_config) (c gx gy : Z) : option bool :=
  glyph_bit k c (gx / font_scale_x k) (gy / font_scale_y k).

Definition in_glyph (k : fb_config) (gx gy : Z) : Prop := 0 <= gx < glyph_width k /\ 0 <= gy < glyph_height k.

(** The cell [(x, y)] of the screen shows the character [c]. *)
Definition shows (k : fb_config) (m : mem) (x y : Z) (c : flanterm_fb_char) : Prop :=
  forall gx gy, in_glyph k gx gy -> exists bit, dot_of k (fc c) gx gy = Some bit /\
    ld32 m (cell_pixel k x y gx gy) = u32 (dot_uncanvas k c bit).

Section Plot.
Context (t : flanterm_context) (k : fb_config) (Hk : conf_ok (cols t) (rows t) k).
Implicit Types c : flanterm_fb_char.

Lemma dot_some c gx gy : char_ok c -> in_glyph k gx gy -> exists bit, dot_of k (fc c) gx gy = Some bit.
Proof.
  intros Hc [Hx Hy]. destruct Hk as [[F1 F2] [S1 S2] [G1 G2] Hb _ _ _ _ _]. unfold char_ok in Hc. apply zget_Some. rewrite Hb.
  assert (0 <= gx / font_scale_x k < font_width k) by (split; [apply Z.div_pos; lia|apply Z.div_lt_upper_bound; lia]).
  assert (0 <= gy / font_scale_y k < font_height k) by (split; [apply Z.div_pos; lia|apply Z.div_lt_upper_bound; lia]).
  assert (0 <= fc c * font_height k <= 255 * font_height k) by nia. nia.
Qed.

Definition dot_colour c gx gy : Z := match dot_of k (fc c) gx gy with Some bit => dot_uncanvas k c bit | None => 0 end.

(** The loops as a rectangle. *)
Lemma plot_scaled_rect c x y m : char_ok c ->
  plot_scaled k (fc c) (fun _ bit _ _ => dot_uncanvas k c bit) x y m =
  Some (rect k x y (Z.to_nat (glyph_width k)) (Z.to_nat (glyph_height k)) (dot_colour c) m).
Proof.
  intros Hc. pose proof Hk as [[F1 F2] [S1 S2] [G1 G2] _ _ _ _ _ _]. unfold plot_scaled, rect.
  apply floop_some. intros gy m1 Hgy.
  set (body := fun gx om => m ← om;
        bit ← dot_of k (fc c) gx gy; Some (st32 m (fb_pixel k (x + gx) (y + gy)) (dot_uncanvas k c bit))).
  transitivity (floop (Z.to_nat (font_width k)) 0 (fun j om => floop (Z.to_nat (font_scale_x k)) 0
      (fun i om => body (Z.of_nat (Z.to_nat (font_scale_x k)) * j + i) om) om) (Some m1)).
  - apply floop_ext. intros fx om Hfx. apply floop_ext. intros i [m2|] Hi; [|done]. unfold body. cbn [mbind option_bind].
    rewrite Z2Nat.id by lia. unfold dot_of.
    replace ((font_scale_x k * fx + i) / font_scale_x k) with fx by (apply (Z.div_unique_pos _ _ _ i); lia).
    rewrite u8_small; [done|]. split; [apply Z.div_pos; lia|].
    assert (gy / font_scale_y k < font_height k) by (apply Z.div_lt_upper_bound; lia). lia.
  - rewrite (floop_nest body). replace (Z.to_nat (font_width k) * Z.to_nat (font_scale_x k))%nat with (Z.to_nat (glyph_width k)) by lia.
    apply floop_some. intros gx m2 Hgx. unfold body, dot_colour. cbn [mbind option_bind].
    destruct (dot_some c gx gy Hc) as [bit ->]; [unfold in_glyph; lia|]. done.
Qed.

Lemma plot_unscaled_rect c x y m : char_ok c -> font_scale_x k = 1 -> font_scale_y k = 1 ->
  plot_unscaled k (fc c) (fun _ bit _ _ => dot_uncanvas k c bit) x y m =
  Some (rect k x y (Z.to_nat (glyph_width k)) (Z.to_nat (glyph_height k)) (dot_colour c) m).
Proof.
  intros Hc E1 E2. pose proof Hk as [[F1 F2] [S1 S2] [G1 G2] _ _ _ _ _ _]. unfold plot_unscaled, rect.
  replace (Z.to_nat (glyph_width k)) with (Z.to_nat (font_width k)) by (f_equal; lia).
  apply floop_some. intros gy m1 Hgy. apply floop_some. intros gx m2 Hgx. cbn [mbind option_bind].
  unfold dot_colour. destruct (dot_some c gx gy Hc) as [bit Eb]; [unfold in_glyph; lia|]. rewrite Eb.
  unfold dot_of in Eb. rewrite E1, E2, !Z.div_1_r in Eb. by rewrite Eb.
Qed.

(** A plotted character shows; nothing outside its cell changes. *)
Lemma plot_char_ok c x y m : char_ok c -> 0 <= x < cols t -> 0 <= y < rows t ->
  exists m', plot_char k t c x y m = Some m' /\ shows k m' x y c /\
    forall a, (forall gx gy, in_glyph k gx gy -> off_pixel a (cell_pixel k x y gx gy)) -> m' a = m a.
Proof.
  intros Hc Hx Hy. pose proof Hk as [[F1 F2] [S1 S2] [G1 G2] _ [O1 O2] [Fx Fy] Hp _ Hcv].
  set (x0 := offset_x k + x * glyph_width k). set (y0 := offset_y k + y * glyph_height k).
  exists (rect k x0 y0 (Z.to_nat (glyph_width k)) (Z.to_nat (glyph_height k)) (dot_colour c) m).
  assert (Hgw : 0 < glyph_width k) by nia.
  destruct (rect_painted k x0 y0 (Z.to_nat (glyph_width k)) (Z.to_nat (glyph_height k)) (dot_colour c)) with (m := m) as [R1 R2].
  { unfold x0. split; nia. }
  unfold in_rect, in_glyph in *. split; [|split].
  - unfold plot_char. rewrite Hcv. cbn [Z.eqb].
    assert (Hin : (cols t <=? x) || (rows t <=? y) = false) by (apply orb_false_iff; lia).
    destruct ((font_scale_x k =? 1) && (font_scale_y k =? 1)) eqn:E.
    + unfold plot_char_unscaled_uncanvas, plot_with. rewrite Hin. apply plot_unscaled_rect; [done|lia|lia].
    + unfold plot_char_scaled_uncanvas, plot_with. rewrite Hin. by apply plot_scaled_rect.
  - intros gx gy Hg. destruct (dot_some c gx gy Hc Hg) as [bit Eb]. exists bit. split; [done|].
    unfold cell_pixel. rewrite R1 by (unfold in_glyph in Hg; lia). unfold dot_colour. by rewrite Eb.
  - intros a Ha. apply R2. intros gx gy Hg. apply Ha. lia.
Qed.

(** Different cells have different pixels. *)
Lemma cells_apart x y gx gy x' y' gx' gy' :
  0 <= x < cols t -> 0 <= x' < cols t -> 0 <= y -> 0 <= y' -> in_glyph k gx gy -> in_glyph k gx' gy' ->
  (x, y) <> (x', y') ->
  cell_pixel k x y gx gy + 4 <= cell_pixel k x' y' gx' gy' \/ cell_pixel k x' y' gx' gy' + 4 <= cell_pixel k x y gx gy.
Proof.
  intros Hx Hx' Hy Hy' [G1 G2] [G1' G2'] Hne. destruct Hk as [_ _ _ _ [O1 _] [Fx _] Hp _ _].
  unfold cell_pixel, fb_pixel. set (p := pitch k / 4) in *.
  set (X := offset_x k + x * glyph_width k + gx). set (X' := offset_x k + x' * glyph_width k + gx').
  set (Y := offset_y k + y * glyph_height k + gy). set (Y' := offset_y k + y' * glyph_height k + gy').
  assert (0 <= X < p) by (unfold X; nia). assert (0 <= X' < p) by (unfold X'; nia).
  assert (HXY : X <> X' \/ Y <> Y').
  { destruct (Z.eq_dec y y') as [->|Hyy].
    - left. assert (x <> x') by congruence. unfold X, X'. nia.
    - right. unfold Y, Y'. nia. }
  clearbody X X' Y Y'. destruct (Z.eq_dec Y Y') as [->|]; [lia|]. nia.
Qed.

Lemma shows_plot c x y m m' x' y' c' :
  (forall a, (forall gx gy, in_glyph k gx gy -> off_pixel a (cell_pixel k x y gx gy)) -> m' a = m a) ->
  0 <= x < cols t -> 0 <= x' < cols t -> 0 <= y -> 0 <= y' -> (x, y) <> (x', y') ->
  shows k m x' y' c' -> shows k m' x' y' c'.
Proof.
  intros Hm Hx Hx' Hy Hy' Hne Hs gx gy Hg. destruct (Hs gx gy Hg) as (bit & E1 & E2). exists bit. split; [done|].
  rewrite <- E2. apply ldn_ext. intros a Ha. apply Hm. intros gx' gy' Hg'.
  pose proof (cells_apart x y gx' gy' x' y' gx gy Hx Hx' Hy Hy' Hg' Hg Hne). unfold off_pixel. lia.
Qed.
End Plot.
