(* ===== verification/FbFlush.v ===== *)
(** * Showing the queue: [draw_cursor], [flanterm_fb_double_buffer_flush], [flanterm_fb_full_refresh]

    After a flush every cell of the screen shows its character, the cursor's cell inverted. *)

From S2P Require Import Prelude Mem TermTables Flanterm TermSafe FbTerm FbQueue FbPlot.

Definition on_screen (w h x y : Z) : Prop := 0 <= x < w /\ 0 <= y < h.

(** [a] is no byte of any cell. *)
Definition off_screen (w h : Z) (k : fb_config) (a : Z) : Prop :=
  forall x y gx gy, on_screen w h x y -> in_glyph k gx gy -> off_pixel a (cell_pixel k x y gx gy).

(** What the screen shows between flushes: the grid, except where the cursor was drawn. *)
Definition screen_ok (w h : Z) (b : flanterm_fb_context) : Prop :=
  forall x y c, on_screen w h x y -> (x, y) <> (old_cursor_x b, old_cursor_y b) ->
    zget (grid b) (y * w + x) = Some c -> shows (conf b) (video b) x y c.

Section Flush.
Context (t : flanterm_context) (Hg : geometry t).
Notation w := (cols t).
Notation h := (rows t).
Notation ok := (fb_ok (cols t) (rows t)).
Implicit Types (b : flanterm_fb_context) (c : flanterm_fb_char).

(** Only the grid, the map and the screen differ. *)
Definition same_but_shown b b' : Prop :=
  b' = b <| video := video b' |> <| grid := grid b' |> <| map := map b' |>.

Lemma same_but_shown_refl b : same_but_shown b b.
Proof. by destruct b. Qed.

(** The cursor is drawn at [(x, y)]. *)
Definition cursor_at b (x y : Z) : bool := cursor_enabled t && (x =? cursor_x b) && (y =? cursor_y b).
Definition drawn b : bool := cursor_enabled t && (cursor_x b <? w) && (cursor_y b <? h).

(** Cells of [b0] still to be shown are those in items from [j] on. *)
Record flushing (b0 : flanterm_fb_context) (j : Z) (b : flanterm_fb_context) : Prop := {
  fl_same : same_but_shown b0 b;
  fl_grid : Z.of_nat (length (grid b)) = h * w;
  fl_map : Z.of_nat (length (map b)) = h * w;
  fl_cell : forall i, 0 <= i < h * w ->
    (zget (map b) i = Some None /\ zget (grid b) i = cell b0 i) \/
    (exists j', j <= j' /\ zget (map b0) i = Some (Some j') /\ zget (map b) i = Some (Some j'));
  fl_cursor : drawn b0 = true -> zget (map b) (cursor_y b0 * w + cursor_x b0) = Some None /\
    exists c, cell b0 (cursor_y b0 * w + cursor_x b0) = Some c /\
      shows (conf b0) (video b) (cursor_x b0) (cursor_y b0) (inverted c);
  fl_shown : forall x y c, on_screen w h x y -> (x, y) <> (old_cursor_x b0, old_cursor_y b0) ->
    (drawn b0 = true -> (x, y) <> (cursor_x b0, cursor_y b0)) ->
    zget (grid b) (y * w + x) = Some c -> shows (conf b0) (video b) x y c;
  fl_frame : forall a, off_screen w h (conf b0) a -> video b a = video b0 a }.

Lemma plot_ok b c x y : conf_ok w h (conf b) -> char_ok c -> on_screen w h x y ->
  exists m, plot t c x y b = Some (b <| video := m |>) /\ shows (conf b) m x y c /\
    (forall x' y' c', on_screen w h x' y' -> (x', y') <> (x, y) -> shows (conf b) (video b) x' y' c' -> shows (conf b) m x' y' c') /\
    (forall a, off_screen w h (conf b) a -> m a = video b a).
Proof.
  intros Hk Hc [Hx Hy]. destruct (plot_char_ok t (conf b) Hk c x y (video b) Hc Hx Hy) as (m & E & Hs & Hf).
  exists m. unfold plot. rewrite E. split; [done|]. split; [done|]. split.
  - intros x' y' c' [Hx' Hy'] Hne. eapply (shows_plot t (conf b) Hk); try done; try lia; congruence.
  - intros a Ha. apply Hf. intros gx gy Hgl. by apply Ha.
Qed.

(** Cell numbers determine the coordinates. *)
Lemma coords_eq x y x' y' : on_screen w h x y -> on_screen w h x' y' -> y * w + x = y' * w + x' -> (x, y) = (x', y').
Proof.
  intros [Hx Hy] [Hx' Hy'] E. pose proof (ge_cols t Hg). destruct (cell_coords w ltac:(lia) x y Hx) as [D1 M1], (cell_coords w ltac:(lia) x' y' Hx') as [D2 M2].
  rewrite E in D1, M1. congruence.
Qed.

Lemma cell_not_queued b i : zget (map b) i = Some None -> cell b i = zget (grid b) i.
Proof. intros E. unfold cell. by rewrite E. Qed.

Lemma on_screen_index x y : on_screen w h x y -> 0 <= y * w + x < h * w.
Proof. intros [Hx Hy]. nia. Qed.

Lemma drawn_on_screen b : ok b -> drawn b = true -> on_screen w h (cursor_x b) (cursor_y b).
Proof. intros Hok Hd. pose proof (fo_cursor _ _ _ Hok). unfold drawn, on_screen in *. lia. Qed.

(** Nothing is shown yet. *)
Lemma flushing_start b : ok b -> screen_ok w h b -> drawn b = false -> flushing b 0 b.
Proof.
  intros Hok Hs Hd. constructor; [apply same_but_shown_refl|apply Hok|apply Hok| |congruence| |done].
  - intros i Hi. destruct (zget_Some (map b) i) as [[j|] Em]; [rewrite (fo_map _ _ _ Hok); lia| |].
    + right. exists j. split; [|done]. destruct (fo_entry _ _ _ Hok i j Em). lia.
    + left. split; [done|]. by rewrite (cell_not_queued _ _ Em).
  - intros x y c Hxy Hold _. by apply Hs.
Qed.

(** After [draw_cursor]. *)
Lemma draw_cursor_flushing b : ok b -> conf_ok w h (conf b) -> screen_ok w h b -> drawn b = true ->
  exists b', draw_cursor t b = Some b' /\ flushing b 0 b'.
Proof.
  intros Hok Hk Hs Hd. pose proof (fo_cursor _ _ _ Hok) as (Hx & Hy & _). pose proof Hok as [H1 H2 H3 H4 H5 H6 H7].
  pose proof (drawn_on_screen b Hok Hd) as Hon. pose proof Hon as [Hx1 Hy1].
  pose proof (on_screen_index _ _ Hon) as Hi. unfold draw_cursor.
  rewrite (proj2 (Z.leb_gt w _)), (proj2 (Z.leb_gt h _)) by lia. cbn [orb].
  replace (cursor_x b + cursor_y b * w) with (cursor_y b * w + cursor_x b) by lia.
  set (i := cursor_y b * w + cursor_x b) in *.
  destruct (cell_some w h b i Hok Hi) as (c & Ec & Hc).
  destruct (zget_Some (map b) i ltac:(lia)) as [q Em]. rewrite Em. cbn [mbind option_bind]. rewrite Ec. cbn [mbind option_bind].
  destruct (plot_ok b (inverted c) (cursor_x b) (cursor_y b) Hk Hc Hon) as (m & -> & Hsh & Hoth & Hfr). cbn [mbind option_bind].
  assert (Hdone : forall i', 0 <= i' < h * w -> forall j, zget (map b) i' = Some (Some j) -> 0 <= j)
    by (intros i' _ j Ej; destruct (H7 i' j Ej); lia).
  destruct q as [j|].
  - cbn [grid map set]. rewrite !zset_ok by lia. cbn [mbind option_bind]. eexists. split; [done|].
    assert (Hmap : forall i', zget (<[Z.to_nat i := None]> (map b)) i' = if i' =? i then Some None else zget (map b) i')
      by (intros; apply zget_insert; lia).
    assert (Hgrid : forall i', zget (<[Z.to_nat i := c]> (grid b)) i' = if i' =? i then Some c else zget (grid b) i')
      by (intros; apply zget_insert; lia).
    constructor; cbn; [done|by rewrite length_insert|by rewrite length_insert| | | |done].
    + intros i' Hi'. rewrite Hmap, Hgrid. destruct (i' =? i) eqn:E; bool_to_prop; [left; subst; by rewrite Ec|].
      destruct (zget_Some (map b) i' ltac:(lia)) as [[j'|] Em']; [right; eauto|left]. by rewrite (cell_not_queued _ _ Em').
    + intros _. fold i. rewrite Hmap, Z.eqb_refl. eauto.
    + intros x y c' Hxy Hold Hcur Hc'. specialize (Hcur Hd). apply Hoth; [done|done|]. apply Hs; [done|done|].
      rewrite Hgrid in Hc'. destruct (y * w + x =? i) eqn:E; [|done]. bool_to_prop.
      by destruct Hcur; apply coords_eq.
  - eexists. split; [done|]. constructor; cbn; [done|done|done| | | |done].
    + intros i' Hi'. destruct (zget_Some (map b) i' ltac:(lia)) as [[j'|] Em']; [right; eauto|left].
      by rewrite (cell_not_queued _ _ Em').
    + intros _. fold i. eauto.
    + intros x y c' Hxy Hold Hcur Hc'. specialize (Hcur Hd). apply Hoth; [done|done|]. by apply Hs.
Qed.

(** One item. *)
Lemma flush_item_ok b0 j b : ok b0 -> conf_ok w h (conf b0) -> 0 <= j < queue_i b0 -> flushing b0 j b ->
  exists b', flush_item t j b = Some b' /\ flushing b0 (j + 1) b'.
Proof.
  intros Hok Hk Hj Hf. pose proof Hf as [F1 F2 F3 F4 F5 F6 F7].
  destruct (fo_item _ _ _ Hok j Hj) as (it & Eq & (Hx & Hy & Hc) & Em0). unfold item_cell in Em0.
  assert (Hon : on_screen w h (qx it) (qy it)) by (unfold on_screen; lia).
  pose proof (on_screen_index _ _ Hon) as Hi. set (i := qy it * w + qx it) in *.
  assert (Hq : queue b = queue b0) by (by rewrite F1). assert (Hcf : conf b = conf b0) by (by rewrite F1).
  unfold flush_item. rewrite Hq, Eq. cbn [mbind option_bind]. fold i.
  assert (Hcell : cell b0 i = Some (qc it)) by (unfold cell; rewrite Em0; cbn [mbind option_bind]; by rewrite Eq).
  assert (Hnext : forall i' j', zget (map b0) i' = Some (Some j') -> i' <> i -> j <= j' -> j + 1 <= j').
  { intros i' j' Em' Hne Hle. destruct (Z.eq_dec j' j) as [->|]; [|lia].
    destruct (fo_entry _ _ _ Hok i' j Em') as (_ & it' & Eq' & Hi'). rewrite Eq in Eq'. injection Eq' as <-. done. }
  destruct (F4 i Hi) as [[Em Egr]|(j' & Hj' & Em' & Em)]; rewrite Em; cbn [mbind option_bind].
  - exists b. split; [done|]. constructor; try done. intros i' Hi'.
    destruct (F4 i' Hi') as [?|(j1 & Hj1 & E1 & E2)]; [by left|right]. exists j1. split; [|done].
    apply (Hnext i'); [done| |done]. intros ->. congruence.
  - destruct (plot_ok b (qc it) (qx it) (qy it)) as (m & -> & Hsh & Hoth & Hfr); [by rewrite Hcf|done|done|].
    cbn [mbind option_bind grid map set]. rewrite !zset_ok by lia. cbn [mbind option_bind]. eexists. split; [done|].
    assert (Hmap : forall i', zget (<[Z.to_nat i := None]> (map b)) i' = if i' =? i then Some None else zget (map b) i')
      by (intros; apply zget_insert; lia).
    assert (Hgrid : forall i', zget (<[Z.to_nat i := qc it]> (grid b)) i' = if i' =? i then Some (qc it) else zget (grid b) i')
      by (intros; apply zget_insert; lia).
    assert (Hnc : drawn b0 = true -> (qx it, qy it) <> (cursor_x b0, cursor_y b0)).
    { intros Hd [= Ex Ey]. destruct (F5 Hd) as [Ecur _]. rewrite <- Ex, <- Ey in Ecur. fold i in Ecur. congruence. }
    rewrite Hcf in Hsh, Hoth, Hfr.
    constructor; cbn; [unfold same_but_shown in *; cbn; rewrite F1; done|by rewrite length_insert|by rewrite length_insert| | | |].
    + intros i' Hi'. rewrite Hmap, Hgrid. destruct (i' =? i) eqn:E; bool_to_prop; [left; subst; by rewrite Hcell|].
      destruct (F4 i' Hi') as [?|(j1 & Hj1 & E1 & E2)]; [by left|right]. exists j1. split; [by apply (Hnext i')|done].
    + intros Hd. destruct (F5 Hd) as (Ecur & c & Ec & Hc'). split.
      * rewrite Hmap. by destruct (_ =? i).
      * exists c. split; [done|]. apply Hoth; [by apply drawn_on_screen|by apply not_eq_sym, Hnc|done].
    + intros x y c Hxy Hold Hcur Hc'. rewrite Hgrid in Hc'. destruct (y * w + x =? i) eqn:E; bool_to_prop.
      * injection Hc' as <-. pose proof (coords_eq _ _ _ _ Hxy Hon E) as [= -> ->]. done.
      * apply Hoth; [done| |by apply F6]. intros [= -> ->]. by apply E.
    + intros a Ha. rewrite Hfr by done. by apply F7.
Qed.

(** A flushed terminal: the queue is empty, the characters are those of [b], and the screen shows
    them. *)
Record flushed b b' : Prop := {
  fd_ok : ok b';
  fd_queue : queue_i b' = 0;
  fd_cell : forall i, cell b' i = cell b i;
  fd_rest : b' = b <| video := video b' |> <| grid := grid b' |> <| map := map b' |> <| queue_i := 0 |>
                   <| old_cursor_x := cursor_x b |> <| old_cursor_y := cursor_y b |>;
  fd_shown : forall x y c, on_screen w h x y -> cell b (y * w + x) = Some c ->
    shows (conf b) (video b') x y (if cursor_at b x y then inverted c else c);
  fd_frame : forall a, off_screen w h (conf b) a -> video b' a = video b a }.

(** All items have been taken: the state before the old cursor is painted over. *)
Lemma flushing_end b b1 : ok b -> flushing b (queue_i b) b1 ->
  (forall i, 0 <= i < h * w -> zget (map b1) i = Some None) /\
  (forall i, 0 <= i < h * w -> zget (grid b1) i = cell b i).
Proof.
  intros Hok Hf.
  assert (H : forall i, 0 <= i < h * w -> zget (map b1) i = Some None /\ zget (grid b1) i = cell b i).
  { intros i Hi. destruct (fl_cell _ _ _ Hf i Hi) as [?|(j & Hj & Em & _)]; [done|].
    destruct (fo_entry _ _ _ Hok i j Em). lia. }
  split; intros i Hi; by apply H.
Qed.

(** The last step, from the old cursor's cell being painted over or not. *)
Lemma flush_finish b b1 m : ok b -> flushing b (queue_i b) b1 ->
  (forall x y c, on_screen w h x y -> cell b (y * w + x) = Some c ->
     shows (conf b) m x y (if cursor_at b x y then inverted c else c)) ->
  (forall a, off_screen w h (conf b) a -> m a = video b a) ->
  flushed b (b1 <| video := m |> <| old_cursor_x := cursor_x b |> <| old_cursor_y := cursor_y b |> <| queue_i := 0 |>).
Proof.
  intros Hok Hf Hsh Hfr. destruct (flushing_end b b1 Hok Hf) as [Hm Hgr].
  pose proof Hok as [O1 O2 O3 O4 O5 O6 O7 O8]. pose proof Hf as [F1 F2 F3 _ _ _ _].
  assert (Hnone : forall i j, zget (map b1) i <> Some (Some j)).
  { intros i j Em. pose proof (zget_lt _ _ _ Em). rewrite Hm in Em by lia. done. }
  assert (Hcell : forall i, cell (b1 <| video := m |> <| old_cursor_x := cursor_x b |> <| old_cursor_y := cursor_y b |> <| queue_i := 0 |>) i = cell b i).
  { intros i. destruct (decide (0 <= i < h * w)) as [Hi|Hi].
    - unfold cell at 1. cbn. rewrite Hm by done. by apply Hgr.
    - rewrite (cell_none w h b i Hok Hi). unfold cell. cbn. destruct (zget (map b1) i) eqn:E; [|done].
      apply zget_lt in E. lia. }
  constructor; [constructor; cbn|done|exact Hcell| |done|done]; try done.
  - rewrite F1. exact O2.
  - intros i c Hc. pose proof (zget_lt _ _ _ Hc). destruct (cell_some w h b i Hok ltac:(lia)) as (c' & E & Hc').
    rewrite Hgr in Hc by lia. congruence.
  - lia.
  - intros i j Em. by destruct (Hnone i j).
  - rewrite F1. cbn. tauto.
  - unfold same_but_shown in F1. rewrite F1. done.
Qed.

(** The first step. *)
Lemma flush_start b : ok b -> conf_ok w h (conf b) -> screen_ok w h b ->
  exists b1, (if cursor_enabled t then draw_cursor t b else Some b) = Some b1 /\ flushing b 0 b1.
Proof.
  intros Hok Hk Hs. destruct (drawn b) eqn:Ed.
  - destruct (draw_cursor_flushing b Hok Hk Hs Ed) as (b1 & E & Hf). exists b1. unfold drawn in Ed.
    destruct (cursor_enabled t); [done|discriminate].
  - exists b. split; [|by apply flushing_start]. destruct (cursor_enabled t) eqn:Ee; [|done]. unfold draw_cursor, drawn in *.
    rewrite Ee in Ed. replace (_ || _) with true by lia. done.
Qed.

(** The loop over the queue. *)
Lemma flush_items b b1 : ok b -> conf_ok w h (conf b) -> flushing b 0 b1 ->
  exists b2, floop (Z.to_nat (queue_i b1)) 0 (fun j ob => b ← ob; flush_item t j b) (Some b1) = Some b2 /\
    flushing b (queue_i b) b2.
Proof.
  intros Hok Hk Hf1. assert (queue_i b1 = queue_i b) as -> by (rewrite (fl_same _ _ _ Hf1); done).
  pose proof (floop_inv (fun j ob => exists b2, ob = Some b2 /\ flushing b j b2) (fun j ob => b ← ob; flush_item t j b)
    (Z.to_nat (queue_i b)) 0 (Some b1)) as Hloop.
  destruct Hloop as (b2 & -> & Hf2); [eauto| |].
  { intros j ob Hj (b2 & -> & Hf2). cbn [mbind option_bind]. apply flush_item_ok; [done|done|lia|done]. }
  pose proof (fo_queue_i _ _ _ Hok) as Hq0. rewrite Z.add_0_l, Z2Nat.id in Hf2 by done. eauto.
Qed.

(** What is shown then, the cell of the old cursor apart. *)
Lemma flushing_shown b b2 x y c : ok b -> flushing b (queue_i b) b2 -> on_screen w h x y ->
  (x, y) <> (old_cursor_x b, old_cursor_y b) \/ cursor_at b x y = true -> cell b (y * w + x) = Some c ->
  shows (conf b) (video b2) x y (if cursor_at b x y then inverted c else c).
Proof.
  intros Hok Hf2 Hxy Hor Hc. destruct (flushing_end b b2 Hok Hf2) as [_ Hgr].
  pose proof (on_screen_index _ _ Hxy) as Hi. destruct (cursor_at b x y) eqn:Ea.
  - unfold cursor_at in Ea. bool_to_prop. subst x y. destruct (fl_cursor _ _ _ Hf2) as (_ & c' & Hc' & Hsh).
    { unfold drawn, on_screen in *. apply andb_true_iff. split; [apply andb_true_iff; split; [done|]|]; lia. }
    rewrite Hc in Hc'. by injection Hc' as <-.
  - destruct Hor as [Hold|?]; [|done]. apply (fl_shown _ _ _ Hf2); [done|done| |by rewrite Hgr].
    intros Hd [= -> ->]. unfold cursor_at, drawn in *. rewrite !Z.eqb_refl in Ea. destruct (cursor_enabled t); done.
Qed.

(** Whether the old cursor's cell has to be painted over. *)
Definition moved b : bool :=
  (negb (old_cursor_x b =? cursor_x b) || negb (old_cursor_y b =? cursor_y b)) || negb (cursor_enabled t).

Lemma moved_cursor b : cursor_at b (old_cursor_x b) (old_cursor_y b) = negb (moved b).
Proof. unfold moved, cursor_at. by destruct (cursor_enabled t), (old_cursor_x b =? cursor_x b), (old_cursor_y b =? cursor_y b). Qed.

(** The last step when nothing is painted. *)
Lemma flush_skip b b2 : ok b -> flushing b (queue_i b) b2 ->
  moved b && ((old_cursor_x b <? w) && (old_cursor_y b <? h)) = false ->
  flushed b (b2 <| old_cursor_x := cursor_x b |> <| old_cursor_y := cursor_y b |> <| queue_i := 0 |>).
Proof.
  intros Hok Hf2 Hno.
  pose proof (flush_finish b b2 (video b2) Hok Hf2) as Hfin. replace (b2 <| video := video b2 |>) with b2 in Hfin by (by destruct b2).
  apply Hfin; [|apply (fl_frame _ _ _ Hf2)]. intros x y c Hxy Hc. apply flushing_shown; [done..| |done].
  destruct (decide ((x, y) = (old_cursor_x b, old_cursor_y b))) as [[= -> ->]|]; [right|by left].
  rewrite moved_cursor. destruct (moved b); [|done]. unfold on_screen in Hxy. exfalso. cbn [andb] in Hno. lia.
Qed.

(** ... and when it is. *)
Lemma flush_repaint b b2 : ok b -> conf_ok w h (conf b) -> flushing b (queue_i b) b2 -> moved b = true ->
  on_screen w h (old_cursor_x b) (old_cursor_y b) ->
  exists c m, zget (grid b2) (old_cursor_y b * w + old_cursor_x b) = Some c /\
    plot t c (old_cursor_x b) (old_cursor_y b) b2 = Some (b2 <| video := m |>) /\
    flushed b (b2 <| video := m |> <| old_cursor_x := cursor_x b |> <| old_cursor_y := cursor_y b |> <| queue_i := 0 |>).
Proof.
  intros Hok Hk Hf2 Hm Hon. assert (Ec : conf b2 = conf b) by (by rewrite (fl_same _ _ _ Hf2)).
  destruct (flushing_end b b2 Hok Hf2) as [_ Hgr].
  destruct (cell_some w h b _ Hok (on_screen_index _ _ Hon)) as (c & Ecell & Hc).
  destruct (plot_ok b2 c (old_cursor_x b) (old_cursor_y b)) as (m & Ep & Hsh & Hoth & Hfr); [by rewrite Ec|done|done|].
  rewrite Ec in Hsh, Hoth, Hfr. exists c, m. split; [rewrite Hgr by (by apply on_screen_index); done|]. split; [done|].
  apply (flush_finish b b2 m Hok Hf2).
  - intros x y c' Hxy Hc'. destruct (decide ((x, y) = (old_cursor_x b, old_cursor_y b))) as [[= -> ->]|Hne].
    + rewrite moved_cursor, Hm. rewrite Ecell in Hc'. by injection Hc' as <-.
    + apply Hoth; [done|done|]. by apply flushing_shown; [| | |left|].
  - intros a Ha. rewrite Hfr by done. by apply (fl_frame _ _ _ Hf2).
Qed.

Lemma flush_ok b : ok b -> conf_ok w h (conf b) -> screen_ok w h b ->
  exists b', flanterm_fb_double_buffer_flush t b = Some b' /\ flushed b b'.
Proof.
  intros Hok Hk Hs. unfold flanterm_fb_double_buffer_flush.
  destruct (flush_start b Hok Hk Hs) as (b1 & -> & Hf1). cbn [mbind option_bind].
  destruct (flush_items b b1 Hok Hk Hf1) as (b2 & -> & Hf2). cbn [mbind option_bind].
  assert (Ecur : cursor_x b2 = cursor_x b /\ cursor_y b2 = cursor_y b /\ old_cursor_x b2 = old_cursor_x b /\
    old_cursor_y b2 = old_cursor_y b) by (by rewrite (fl_same _ _ _ Hf2)). destruct Ecur as (Ex & Ey & Eox & Eoy).
  rewrite Eox, Eoy, Ex, Ey. fold (moved b).
  destruct (moved b && ((old_cursor_x b <? w) && (old_cursor_y b <? h))) eqn:E.
  - apply andb_prop in E as [Em Eo]. rewrite Em, Eo. pose proof (fo_cursor _ _ _ Hok).
    destruct (flush_repaint b b2 Hok Hk Hf2 Em) as (c & m & Eg & Ep & Hfl); [unfold on_screen; lia|].
    rewrite (Z.add_comm (old_cursor_x b)), Eg. cbn [mbind option_bind]. rewrite Ep. cbn [mbind option_bind].
    eexists. split; [done|]. rewrite <- Ex, <- Ey in Hfl. exact Hfl.
  - exists (b2 <| old_cursor_x := cursor_x b |> <| old_cursor_y := cursor_y b |> <| queue_i := 0 |>).
    split; [|by apply flush_skip]. rewrite <- Ex, <- Ey. destruct (moved b); [|done]. cbn [andb] in E. by rewrite E.
Qed.

(** The screen is well formed again. *)
Lemma flushed_screen_ok b b' : flushed b b' -> screen_ok w h b'.
Proof.
  intros [H1 H2 H3 H4 H5 H6] x y c Hxy Hne Hc.
  assert (Hcell : cell b' (y * w + x) = Some c).
  { unfold cell. destruct (zget_Some (map b') (y * w + x)) as [[j|] Em].
    - rewrite (fo_map _ _ _ H1). by apply on_screen_index.
    - destruct (fo_entry _ _ _ H1 _ _ Em) as [? _]. lia.
    - by rewrite Em. }
  rewrite H3 in Hcell. specialize (H5 x y c Hxy Hcell). rewrite H4 in Hne. cbn in Hne. rewrite H4. cbn.
  replace (cursor_at b x y) with false in H5; [done|]. symmetry. unfold cursor_at.
  destruct (x =? cursor_x b) eqn:E1, (y =? cursor_y b) eqn:E2; rewrite ?andb_false_r; try done.
  bool_to_prop. by subst.
Qed.

(** ** Painting everything *)

(** The background. *)
Lemma background_rect b : canvas (conf b) = 0 ->
  floop (Z.to_nat (height (conf b))) 0 (fun y m => floop (Z.to_nat (width (conf b))) 0 (fun x m =>
    st32 m (fb_pixel (conf b) x y) (if negb (canvas (conf b) =? 0) then ld32 m (canvas_pixel (conf b) x y) else default_bg (conf b))) m) (video b) =
  rect (conf b) 0 0 (Z.to_nat (width (conf b))) (Z.to_nat (height (conf b))) (fun _ _ => default_bg (conf b)) (video b).
Proof. intros ->. done. Qed.

Lemma conf_width k : conf_ok w h k -> 0 <= width k.
Proof.
  intros [[F1 _] [S1 _] [G1 _] _ [O1 _] [X1 _] _ _ _]. destruct Hg as [Hw _ _ _]. assert (0 < glyph_width k) by nia. nia.
Qed.

(** Every cell of the grid. *)
Lemma refresh_cells b : ok b -> conf_ok w h (conf b) ->
  exists m, floop (Z.to_nat (h * w)) 0 (fun i ob => b ← ob; c ← zget (grid b) i; plot t c (i mod w) (i / w) b) (Some b) =
      Some (b <| video := m |>) /\
    (forall x y c, on_screen w h x y -> zget (grid b) (y * w + x) = Some c -> shows (conf b) m x y c) /\
    (forall a, off_screen w h (conf b) a -> m a = video b a).
Proof.
  intros Hok Hk. destruct Hg as [Hw Hh _ _].
  pose proof (floop_inv (fun i ob => exists m, ob = Some (b <| video := m |>) /\
      (forall x y c, on_screen w h x y -> y * w + x < i -> zget (grid b) (y * w + x) = Some c -> shows (conf b) m x y c) /\
      (forall a, off_screen w h (conf b) a -> m a = video b a))
    (fun i ob => b ← ob; c ← zget (grid b) i; plot t c (i mod w) (i / w) b) (Z.to_nat (h * w)) 0 (Some b)) as H.
  rewrite Z.add_0_l, Z2Nat.id in H by nia. destruct H as (m & E & Hs & Hf).
  - exists (video b). split; [by destruct b|]. split; [|done]. intros x y c [Hx Hy] Hlt. nia.
  - intros i ob Hi (m & -> & Hs & Hf). cbn [mbind option_bind]. change (grid (b <| video := m |>)) with (grid b).
    destruct (zget_Some (grid b) i) as [c Ec]; [rewrite (fo_grid _ _ _ Hok); lia|]. rewrite Ec. cbn [mbind option_bind].
    pose proof (Z.mod_pos_bound i w ltac:(lia)). pose proof (Z.div_mod i w ltac:(lia)) as Hd.
    assert (Hon : on_screen w h (i mod w) (i / w)).
    { split; [lia|]. split; [apply Z.div_pos; lia|apply Z.div_lt_upper_bound; lia]. }
    destruct (plot_ok (b <| video := m |>) c (i mod w) (i / w)) as (m' & Ep & Hsh & Hoth & Hfr); [done|by apply (fo_chars _ _ _ Hok i)|done|].
    exists m'. split; [exact Ep|]. cbn [conf video set] in Hsh, Hoth, Hfr. split.
    + intros x y c' Hxy Hlt Hc'. destruct (decide ((x, y) = (i mod w, i / w))) as [[= -> ->]|Hne].
      * replace (i / w * w + i mod w) with i in Hc' by lia. rewrite Ec in Hc'. by injection Hc' as <-.
      * apply Hoth; [done|done|]. apply Hs; [done| |done]. destruct (Z.eq_dec (y * w + x) i) as [Ei|]; [|lia].
        destruct Hne. apply coords_eq; [done|done|lia].
    + intros a Hoff. rewrite Hfr by done. by apply Hf.
  - exists m. split; [exact E|]. split; [|done]. intros x y c Hxy. apply Hs; [done|]. by apply on_screen_index.
Qed.

(** [a] is no byte of the framebuffer's visible part. *)
Definition off_framebuffer (k : fb_config) (a : Z) : Prop :=
  forall x y, 0 <= x < width k -> 0 <= y < height k -> off_pixel a (fb_pixel k x y).

Lemma off_framebuffer_screen k a : conf_ok w h k -> off_framebuffer k a -> off_screen w h k a.
Proof.
  intros Hk Ha x y gx gy [Hx Hy] [Hgx Hgy]. destruct Hk as [_ _ _ _ [O1 O2] [F1 F2] _ _ _]. apply Ha; nia.
Qed.

(** The cursor over a cell that is not queued. *)
Lemma draw_cursor_idle b c : ok b -> conf_ok w h (conf b) -> drawn b = true ->
  zget (map b) (cursor_y b * w + cursor_x b) = Some None -> zget (grid b) (cursor_y b * w + cursor_x b) = Some c ->
  exists m, draw_cursor t b = Some (b <| video := m |>) /\ shows (conf b) m (cursor_x b) (cursor_y b) (inverted c) /\
    (forall x y c', on_screen w h x y -> (x, y) <> (cursor_x b, cursor_y b) ->
       shows (conf b) (video b) x y c' -> shows (conf b) m x y c') /\
    (forall a, off_screen w h (conf b) a -> m a = video b a).
Proof.
  intros Hok Hk Hd Em Ec. pose proof (drawn_on_screen b Hok Hd) as Hon. pose proof Hon as [Hx Hy]. unfold draw_cursor.
  rewrite (proj2 (Z.leb_gt w _)), (proj2 (Z.leb_gt h _)) by lia. cbn [orb].
  rewrite (Z.add_comm (cursor_x b)), Em, (cell_not_queued _ _ Em), Ec. cbn [mbind option_bind].
  destruct (plot_ok b (inverted c) (cursor_x b) (cursor_y b)) as (m & -> & H); [done|apply (fo_chars _ _ _ Hok _ _ Ec)|done|].
  exists m. split; [done|]. exact H.
Qed.

(** With nothing queued, the screen shows the grid and the cursor, on the background. *)
Lemma full_refresh_ok b : ok b -> conf_ok w h (conf b) -> (forall i, 0 <= i < h * w -> zget (map b) i = Some None) ->
  exists m, flanterm_fb_full_refresh t b = Some (b <| video := m |>) /\
    (forall x y c, on_screen w h x y -> zget (grid b) (y * w + x) = Some c ->
       shows (conf b) m x y (if cursor_at b x y then inverted c else c)) /\
    (forall a, off_framebuffer (conf b) a -> m a = video b a).
Proof.
  intros Hok Hk Hmap. unfold flanterm_fb_full_refresh. rewrite background_rect by apply Hk.
  set (m0 := rect _ _ _ _ _ _ _).
  assert (Hm0 : forall a, off_framebuffer (conf b) a -> m0 a = video b a).
  { intros a Ha. apply rect_painted; [pose proof (co_pitch _ _ _ Hk); pose proof (conf_width _ Hk); lia|].
    intros gx gy [Hx Hy]. rewrite !Z.add_0_l. apply Ha; lia. }
  destruct (refresh_cells (b <| video := m0 |>)) as (m1 & -> & Hs1 & Hf1); [by destruct Hok; constructor|done|].
  cbn [mbind option_bind]. change (b <| video := m0 |> <| video := m1 |>) with (b <| video := m1 |>).
  change (forall a, off_screen w h (conf b) a -> m1 a = m0 a) in Hf1.
  change (forall x y c, on_screen w h x y -> zget (grid b) (y * w + x) = Some c -> shows (conf b) m1 x y c) in Hs1.
  assert (Hf1' : forall a, off_framebuffer (conf b) a -> m1 a = video b a).
  { intros a Ha. rewrite Hf1 by (by apply off_framebuffer_screen). by apply Hm0. }
  destruct (drawn b) eqn:Ed.
  - pose proof (on_screen_index _ _ (drawn_on_screen b Hok Ed)) as Hi.
    destruct (zget_Some (grid b) (cursor_y b * w + cursor_x b)) as [c Ec]; [rewrite (fo_grid _ _ _ Hok); lia|].
    destruct (draw_cursor_idle (b <| video := m1 |>) c) as (m2 & E2 & Hcur & Hoth & Hfr);
      [by destruct Hok; constructor|done|done|by apply Hmap|done|].
    assert (Ece : cursor_enabled t = true) by (unfold drawn in Ed; by destruct (cursor_enabled t)). rewrite Ece.
    exists m2. split; [exact E2|]. split.
    + intros x y c' Hxy Hc'. unfold cursor_at. rewrite Ece. cbn [andb].
      destruct ((x =? cursor_x b) && (y =? cursor_y b)) eqn:E.
      * apply andb_prop in E as [->%Z.eqb_eq ->%Z.eqb_eq]. rewrite Ec in Hc'. injection Hc' as <-. exact Hcur.
      * apply Hoth; [done| |by apply Hs1]. intros [= -> ->]. cbn in E. by rewrite !Z.eqb_refl in E.
    + intros a Ha. rewrite <- Hf1' by done. apply Hfr. by apply off_framebuffer_screen.
  - exists m1. split; [|split; [|done]].
    + destruct (cursor_enabled t) eqn:Ee; [|done]. unfold draw_cursor. change (cursor_x (b <| video := m1 |>)) with (cursor_x b).
      change (cursor_y (b <| video := m1 |>)) with (cursor_y b). unfold drawn in Ed. rewrite Ee in Ed.
      by replace (_ || _) with true by lia.
    + intros x y c Hxy Hc. replace (cursor_at b x y) with false; [by apply Hs1|]. symmetry. unfold cursor_at.
      destruct (cursor_enabled t && (x =? cursor_x b) && (y =? cursor_y b)) eqn:E; [|done]. bool_to_prop. subst.
      unfold drawn, on_screen in *. rewrite (proj2 (Z.ltb_lt _ w)), (proj2 (Z.ltb_lt _ h)) in Ed by lia. by destruct (cursor_enabled t).
Qed.
End Flush.
