(* ===== verification/FbSafe.v ===== *)
(** * The framebuffer terminal is a back end

    [fb_ok], [conf_ok] and [screen_ok] together are kept by every operation, so the parser's
    theorems ([TermSafe]) hold of it: any bytes can be written. *)

From S2P Require Import Prelude Mem TermTables Flanterm TermSafe FbTerm FbQueue FbPlot FbFlush.

Record fb_inv (w h : Z) (b : flanterm_fb_context) : Prop := {
  fi_ok : fb_ok w h b;
  fi_conf : conf_ok w h (conf b);
  fi_screen : screen_ok w h b }.

(** What [fb_inv] depends on besides [fb_ok] is the same. *)
Definition same_screen (b b' : flanterm_fb_context) : Prop :=
  conf b' = conf b /\ video b' = video b /\ grid b' = grid b /\
  old_cursor_x b' = old_cursor_x b /\ old_cursor_y b' = old_cursor_y b.

Lemma fb_inv_keep w h b b' : fb_inv w h b -> fb_ok w h b' -> same_screen b b' -> fb_inv w h b'.
Proof.
  intros [H1 H2 H3] Hok (E1 & E2 & E3 & E4 & E5). constructor; [done|by rewrite E1|].
  unfold screen_ok in *. by rewrite E1, E2, E3, E4, E5.
Qed.

Lemma same_but_queue_screen b b' : same_but_queue b b' -> same_screen b b'.
Proof. unfold same_but_queue. intros ->. done. Qed.

(** The fields [fb_ok] ties, apart from the cursor's. *)
Lemma fb_ok_keep w h b b' : fb_ok w h b ->
  grid b' = grid b -> queue b' = queue b -> map b' = map b -> queue_i b' = queue_i b ->
  0 <= cursor_x b' /\ 0 <= cursor_y b' /\ 0 <= old_cursor_x b' /\ 0 <= old_cursor_y b' /\
  0 <= saved_state_cursor_x b' /\ 0 <= saved_state_cursor_y b' -> fb_ok w h b'.
Proof. intros [] E1 E2 E3 E4 Hc. constructor; rewrite ?E1, ?E2, ?E3, ?E4; auto. Qed.

Section Ops.
Context (t : flanterm_context) (Hg : geometry t).
Notation w := (cols t).
Notation h := (rows t).
Implicit Types b : flanterm_fb_context.

Lemma edited_inv b b' f : fb_inv w h b -> edited w h b b' f -> fb_inv w h b'.
Proof. intros Hb [H1 H2 _]. by eapply fb_inv_keep; [exact Hb| |apply same_but_queue_screen]. Qed.

(** An update of colours and cursor. *)
Lemma fb_inv_cursor b b' : fb_inv w h b -> same_screen b b' ->
  queue b' = queue b -> map b' = map b -> queue_i b' = queue_i b ->
  0 <= cursor_x b' /\ 0 <= cursor_y b' /\ 0 <= saved_state_cursor_x b' /\ 0 <= saved_state_cursor_y b' -> fb_inv w h b'.
Proof.
  intros Hb Hs E1 E2 E3 Hc. eapply fb_inv_keep; [exact Hb| |done]. destruct Hs as (_ & _ & E4 & E5 & E6).
  pose proof (fo_cursor _ _ _ (fi_ok _ _ _ Hb)). apply (fb_ok_keep w h b); [apply Hb|done..|]. rewrite E5, E6. tauto.
Qed.

Lemma clamp_range v limit : 0 <= v -> 0 < limit -> 0 <= clamp v limit < limit.
Proof. intros Hv Hl. unfold clamp. repeat case_if; lia. Qed.

(** The wrap at the end of a line, before a character is put. *)
Definition wrap (b : flanterm_fb_context) : option flanterm_fb_context :=
  if (w <=? cursor_x b) && ((cursor_y b <? scroll_bottom_margin t - 1) || scroll_enabled t) then
    let b := b <| cursor_x := 0 |> <| cursor_y := u64 (cursor_y b + 1) |> in
    b ← (if cursor_y b =? scroll_bottom_margin t
         then flanterm_fb_scroll t (b <| cursor_y := cursor_y b - 1 |>) else Some b);
    Some (if w <=? cursor_y b then b <| cursor_y := w - 1 |> else b)
  else Some b.

Lemma wrap_inv b : fb_inv w h b -> exists b', wrap b = Some b' /\ fb_inv w h b'.
Proof.
  intros Hb. pose proof (fo_cursor _ _ _ (fi_ok _ _ _ Hb)) as Hc. unfold wrap. destruct Hg as [Hw Hh Ht Hbt].
  destruct (_ && _); [|eauto]. set (b1 := b <| cursor_x := 0 |> <| cursor_y := u64 (cursor_y b + 1) |>).
  assert (Hb1 : fb_inv w h b1) by (eapply fb_inv_cursor; [exact Hb|done..|]; unfold b1; cbn; pose proof (u64_range (cursor_y b + 1)); lia).
  assert (H2 : exists b2, (if cursor_y b1 =? scroll_bottom_margin t then flanterm_fb_scroll t (b1 <| cursor_y := cursor_y b1 - 1 |>)
                           else Some b1) = Some b2 /\ fb_inv w h b2).
  { destruct (cursor_y b1 =? scroll_bottom_margin t) eqn:E; [|eauto]. bool_to_prop.
    assert (Hb2 : fb_inv w h (b1 <| cursor_y := cursor_y b1 - 1 |>)).
    { pose proof (fo_cursor _ _ _ (fi_ok _ _ _ Hb1)). eapply fb_inv_cursor; [exact Hb1|done..|]. cbn in *. lia. }
    destruct (scroll_ok t Hg _ (fi_ok _ _ _ Hb2)) as (b2 & E2 & H2). exists b2. split; [done|]. by eapply edited_inv. }
  destruct H2 as (b2 & -> & Hb2). cbn [mbind option_bind]. eexists. split; [done|].
  pose proof (fo_cursor _ _ _ (fi_ok _ _ _ Hb2)). case_if; [|done]. eapply fb_inv_cursor; [exact Hb2|done..|]. cbn. lia.
Qed.

Lemma raw_putchar_wrap c b : flanterm_fb_raw_putchar t c b =
  b ← wrap b; push_to_queue t (FChar c (text_fg b) (text_bg b)) (cursor_x b) (cursor_y b) (b <| cursor_x := u64 (cursor_x b + 1) |>).
Proof. done. Qed.

Lemma advance_inv b : fb_inv w h b -> fb_inv w h (b <| cursor_x := u64 (cursor_x b + 1) |>).
Proof.
  intros Hb. pose proof (fo_cursor _ _ _ (fi_ok _ _ _ Hb)) as Hc. eapply fb_inv_cursor; [exact Hb|done..|].
  cbn. pose proof (u64_range (cursor_x b + 1)). lia.
Qed.

Lemma raw_putchar_inv c b : 0 <= c < 256 -> fb_inv w h b ->
  exists b', flanterm_fb_raw_putchar t c b = Some b' /\ fb_inv w h b'.
Proof.
  intros Hc Hb. rewrite raw_putchar_wrap. destruct (wrap_inv b Hb) as (b1 & -> & Hb1). cbn [mbind option_bind].
  pose proof (fo_cursor _ _ _ (fi_ok _ _ _ Hb1)).
  destruct (push_ok t Hg (b1 <| cursor_x := u64 (cursor_x b1 + 1) |>) (FChar c (text_fg b1) (text_bg b1)) (cursor_x b1) (cursor_y b1))
    as (b2 & E2 & H2); [apply advance_inv; done|done|lia|lia|].
  exists b2. split; [exact E2|]. eapply edited_inv; [|exact H2]. by apply advance_inv.
Qed.
End Ops.

(** ** The instance *)

Lemma safe_pure (op : flanterm_context -> flanterm_fb_context -> flanterm_fb_context) t :
  (forall b, fb_inv (cols t) (rows t) b -> fb_inv (cols t) (rows t) (op t b)) ->
  safe_op fb_inv (fun t b => Some (op t b)) t.
Proof. intros H b Hb. eauto. Qed.

Ltac keeps :=
  intros; apply safe_pure; intros b Hb; pose proof (fo_cursor _ _ _ (fi_ok _ _ _ Hb));
  (eapply fb_inv_cursor; [exact Hb|done..|]); cbn; tauto.
Ltac keeps_colour :=
  intros; intros b Hb; pose proof (fo_cursor _ _ _ (fi_ok _ _ _ Hb)); pose proof (co_ansi _ _ _ (fi_conf _ _ _ Hb));
  cbn; unfold flanterm_fb_set_text_fg, flanterm_fb_set_text_bg, flanterm_fb_set_text_fg_bright, flanterm_fb_set_text_bg_bright;
  match goal with |- context [zget ?l ?i] => destruct (zget_Some l i ltac:(lia)) as [col ->] end;
  eexists; split; [done|]; (eapply fb_inv_cursor; [exact Hb|done..|]); cbn; tauto.
Lemma safe_cells op t f : (forall b, fb_ok (cols t) (rows t) b -> exists b', op t b = Some b' /\ edited (cols t) (rows t) b b' (f b)) ->
  safe_op fb_inv op t.
Proof. intros H b Hb. destruct (H b (fi_ok _ _ _ Hb)) as (b' & E & He). exists b'. split; [done|]. by eapply edited_inv. Qed.

#[export] Program Instance fb_backend_ok : BackendOk flanterm_fb_context := { bk_ok := fb_inv }.
Next Obligation.
  intros t b x y Hg Hb [= <- <-]. pose proof (fo_cursor _ _ _ (fi_ok _ _ _ Hb)). destruct Hg. repeat case_if; lia.
Qed.
Next Obligation. intros t c Hg Hc b Hb. by apply raw_putchar_inv. Qed.
Next Obligation.
  intros t m Hg b Hb. destruct (clear_ok t Hg b m (fi_ok _ _ _ Hb)) as (b' & E & He). eexists. split; [exact E|].
  pose proof (edited_inv t b b' _ Hb He) as Hb'. destruct m; [|done].
  pose proof (fo_cursor _ _ _ (fi_ok _ _ _ Hb')). eapply fb_inv_cursor; [exact Hb'|done..|]. cbn. lia.
Qed.
Next Obligation.
  intros t x y Hg Hx Hy. apply safe_pure. intros b Hb. pose proof (fo_cursor _ _ _ (fi_ok _ _ _ Hb)). destruct Hg.
  pose proof (clamp_range x (cols t)). pose proof (clamp_range y (rows t)). eapply fb_inv_cursor; [exact Hb|done..|]. cbn. lia.
Qed.
Next Obligation. keeps_colour. Qed.
Next Obligation. keeps_colour. Qed.
Next Obligation. keeps_colour. Qed.
Next Obligation. keeps_colour. Qed.
Next Obligation. keeps. Qed.
Next Obligation. keeps. Qed.
Next Obligation. keeps. Qed.
Next Obligation. keeps. Qed.
Next Obligation. keeps. Qed.
Next Obligation. keeps. Qed.
Next Obligation. intros. eapply safe_cells. intros. by apply move_ok. Qed.
Next Obligation. intros. eapply safe_cells. intros. by apply scroll_ok. Qed.
Next Obligation. intros. eapply safe_cells. intros. by apply revscroll_ok. Qed.
Next Obligation. keeps. Qed.
Next Obligation. keeps. Qed.
Next Obligation. keeps. Qed.
Next Obligation.
  intros t Hg b [H1 H2 H3]. destruct (flush_ok t Hg b H1 H2 H3) as (b' & E & Hf). exists b'. split; [done|].
  pose proof (fd_rest _ _ _ Hf) as Er. constructor; [apply Hf|by rewrite Er|by eapply flushed_screen_ok].
Qed.
