(* ===== verification/FbText.v ===== *)
(** * Text on the terminal

    The terminal as a typewriter: [page] is the lines of the screen and the place of the next
    character.  Writing printable characters and newlines does to the characters of the screen
    what typing them does to the page, and a flush shows them. *)

From stdpp Require Import list.
From S2P Require Import Prelude Mem TermTables Flanterm TermSafe FbTerm FbQueue FbPlot FbFlush FbSafe.

(** ** The typewriter *)

Record page := Page { lines : list (list flanterm_fb_char); col : Z; line : Z }.

Section Typing.
Context (w h : Z) (fg bg : Z).

Definition blank_line : list flanterm_fb_char := replicate (Z.to_nat w) (FChar 32 fg bg).

Definition new_line (p : page) : page :=
  if line p =? h - 1 then Page (drop 1 (lines p) ++ [blank_line]) 0 (line p)
  else Page (lines p) 0 (line p + 1).

(** A full line is ended first. *)
Definition type_char (c : Z) (p : page) : page :=
  let p := if w <=? col p then new_line p else p in
  Page (alter (fun l => <[Z.to_nat (col p) := FChar c fg bg]> l) (Z.to_nat (line p)) (lines p)) (col p + 1) (line p).

Definition type_byte (c : Z) (p : page) : page := if c =? 10 then new_line p else type_char c p.
Definition type_text (s : list Z) (p : page) : page := fold_left (fun p c => type_byte c p) s p.
End Typing.

Definition text_byte (c : Z) : Prop := c = 10 \/ 32 <= c <= 126.

Definition char_at (p : page) (x y : Z) : option flanterm_fb_char := l ← zget (lines p) y; zget l x.

(** The page is what the terminal holds. *)
Record page_of (w h : Z) (b : flanterm_fb_context) (p : page) : Prop := {
  pg_size : Z.of_nat (length (lines p)) = h;
  pg_width : Forall (fun l => Z.of_nat (length l) = w) (lines p);
  pg_char : forall x y, on_screen w h x y -> char_at p x y = cell b (y * w + x);
  pg_col : col p = cursor_x b /\ 0 <= col p <= w;
  pg_line : line p = cursor_y b /\ 0 <= line p < h }.

Section Page.
Context (w h : Z) (Hw : 0 < w) (Hh : 0 < h).
Implicit Types (b : flanterm_fb_context) (p : page).

(** The characters of the terminal are known by the page and conversely. *)
Lemma page_of_unique b p p' : page_of w h b p -> page_of w h b p' -> p = p'.
Proof.
  intros [A1 A2 A3 [A4 _] [A5 _]] [B1 B2 B3 [B4 _] [B5 _]]. destruct p as [ls x y], p' as [ls' x' y']. cbn in *.
  f_equal; [|congruence..]. apply zget_ext; [lia|]. intros i Hi.
  destruct (zget_Some ls i Hi) as [l El], (zget_Some ls' i ltac:(lia)) as [l' El']. rewrite El, El'. f_equal.
  pose proof (proj1 (Forall_zget _ _) A2 _ _ El) as Hl. pose proof (proj1 (Forall_zget _ _) B2 _ _ El') as Hl'. cbn in Hl, Hl'.
  apply zget_ext; [lia|]. intros j Hj. specialize (A3 j i ltac:(unfold on_screen; lia)). specialize (B3 j i ltac:(unfold on_screen; lia)).
  unfold char_at in *. cbn in *. rewrite El in A3. rewrite El' in B3. cbn in *. congruence.
Qed.

(** ** Typing on lists *)

Lemma zget_shift {A} (l : list A) v i : 0 <= i < Z.of_nat (length l) ->
  zget (drop 1 l ++ [v]) i = if i =? Z.of_nat (length l) - 1 then Some v else zget l (i + 1).
Proof.
  intros Hi. unfold zget. destruct (Z.ltb_spec i 0), (Z.ltb_spec (i + 1) 0); try lia.
  destruct l as [|a l]; [cbn in *; lia|]. change (drop 1 (a :: l)) with l. cbn [length] in *. case_if; bool_to_prop.
  - rewrite lookup_app_r by lia. by replace (Z.to_nat i - length l)%nat with 0%nat by lia.
  - rewrite lookup_app_l by lia. by replace (Z.to_nat (i + 1)) with (S (Z.to_nat i)) by lia.
Qed.

Lemma zget_alter {A} (f : A -> A) (l : list A) j i : 0 <= j ->
  zget (alter f (Z.to_nat j) l) i = if i =? j then f <$> zget l i else zget l i.
Proof.
  intros Hj. unfold zget. destruct (Z.ltb_spec i 0); [by destruct (i =? j)|]. destruct (i =? j) eqn:E; bool_to_prop.
  - subst. apply list_lookup_alter_eq.
  - apply list_lookup_alter_ne. lia.
Qed.

(** The place of the next character moves. *)
Lemma page_moved b b' p : page_of w h b p -> (forall i, cell b' i = cell b i) -> 0 <= cursor_x b' <= w -> 0 <= cursor_y b' < h ->
  page_of w h b' (Page (lines p) (cursor_x b') (cursor_y b')).
Proof. intros [] E Hx Hy. constructor; cbn; auto. intros x y Hxy. rewrite E. by apply pg_char0. Qed.

(** One character changes. *)
Lemma page_put b b' p c : page_of w h b p -> col p < w ->
  (forall i, cell b' i = if i =? line p * w + col p then Some c else cell b i) ->
  cursor_x b' = col p + 1 -> cursor_y b' = line p ->
  page_of w h b' (Page (alter (fun l => <[Z.to_nat (col p) := c]> l) (Z.to_nat (line p)) (lines p)) (col p + 1) (line p)).
Proof.
  intros [P1 P2 P3 [P4 P4'] [P5 P5']] Hc E Ex Ey. constructor; cbn; [by rewrite length_alter| | |lia|lia].
  - apply Forall_zget. intros i v Hi. rewrite zget_alter in Hi by lia. rewrite Forall_zget in P2. destruct (i =? line p); [|by eapply P2].
    apply fmap_Some in Hi as (l & Hl & ->). rewrite length_insert. by eapply P2.
  - intros x y Hxy. rewrite E. unfold char_at in *. cbn. rewrite zget_alter by lia.
    assert (Hl : exists l, zget (lines p) (line p) = Some l /\ Z.of_nat (length l) = w).
    { destruct (zget_Some (lines p) (line p) ltac:(lia)) as [l Hl]. exists l. split; [done|]. rewrite Forall_zget in P2. by eapply P2. }
    destruct Hl as (l & El & Hl). unfold on_screen in Hxy.
    destruct (y =? line p) eqn:Ey'; bool_to_prop.
    + subst y. rewrite El. cbn. rewrite zget_insert by lia. specialize (P3 x (line p) Hxy). rewrite El in P3. cbn in P3.
      destruct (x =? col p) eqn:Ex'; bool_to_prop.
      * subst x. by rewrite Z.eqb_refl.
      * rewrite (proj2 (Z.eqb_neq (line p * w + x) _)) by lia. done.
    + rewrite (proj2 (Z.eqb_neq (y * w + x) _)) by nia. by apply P3.
Qed.

(** All lines move up. *)
Lemma page_scrolled b b' p fg bg : page_of w h b p ->
  (forall i, 0 <= i < h * w -> cell b' i = if (h - 1) * w <=? i then Some (FChar 32 fg bg) else cell b (i + w)) ->
  cursor_x b' = 0 -> cursor_y b' = line p ->
  page_of w h b' (Page (drop 1 (lines p) ++ [blank_line w fg bg]) 0 (line p)).
Proof.
  intros [P1 P2 P3 P4 [P5 P5']] E Ex Ey.
  constructor; cbn; [rewrite length_app, length_drop; cbn; lia| | |lia|lia].
  - apply Forall_app. split; [by apply Forall_drop|]. constructor; [|done]. unfold blank_line. rewrite length_replicate. lia.
  - intros x y [Hx Hy]. rewrite E by nia. unfold char_at in *. cbn. rewrite zget_shift by lia. rewrite P1.
    destruct (y =? h - 1) eqn:Eh; bool_to_prop.
    + subst y. rewrite (proj2 (Z.leb_le _ _)) by lia. cbn. unfold blank_line. apply zget_replicate. lia.
    + rewrite (proj2 (Z.leb_gt _ _)) by nia. rewrite P3 by (unfold on_screen; lia). f_equal. lia.
Qed.
End Page.

(** ** The operations *)

Section Operations.
Context (t : flanterm_context) (Hg : geometry t).
(** no scrolling region; a screen at least as wide as high *)
Context (Htop : scroll_top_margin t = 0) (Hbottom : scroll_bottom_margin t = rows t) (Hscroll : scroll_enabled t = true).
Context (Hwide : rows t <= cols t).
Notation w := (cols t).
Notation h := (rows t).
Implicit Types (b : flanterm_fb_context) (p : page).

(** The colours and the configuration are the same. *)
Definition same_style b b' : Prop := text_fg b' = text_fg b /\ text_bg b' = text_bg b /\ conf b' = conf b.

Lemma same_style_trans b1 b2 b3 : same_style b1 b2 -> same_style b2 b3 -> same_style b1 b3.
Proof. unfold same_style. intuition congruence. Qed.

Lemma scroll_page b : fb_inv w h b ->
  exists b', flanterm_fb_scroll t b = Some b' /\ fb_inv w h b' /\ same_but_queue b b' /\
    forall i, 0 <= i < h * w -> cell b' i = if (h - 1) * w <=? i then Some (empty_char b) else cell b (i + w).
Proof.
  intros Hb. destruct (scroll_ok t Hg b (fi_ok _ _ _ Hb)) as (b' & E & He). exists b'. split; [done|].
  split; [by eapply edited_inv|]. split; [apply He|]. intros i Hi. rewrite (ed_cell _ _ _ _ _ He), Htop, Hbottom.
  rewrite (proj2 (Z.ltb_lt i _)), (proj2 (Z.leb_le (0 * w) i)) by lia. rewrite andb_true_r. cbn [andb].
  destruct (Z.leb_spec ((h - 1) * w) i); [done|]. by rewrite (proj2 (Z.ltb_lt i _)) by lia.
Qed.

(** To the beginning of the next line. *)
Lemma next_line b p : fb_inv w h b -> page_of w h b p ->
  exists b', (if cursor_y b =? h - 1 then flanterm_fb_scroll t (b <| cursor_x := 0 |>)
              else Some (b <| cursor_x := 0 |> <| cursor_y := cursor_y b + 1 |>)) = Some b' /\
    fb_inv w h b' /\ same_style b b' /\ page_of w h b' (new_line w h (text_fg b) (text_bg b) p).
Proof.
  intros Hb Hp. destruct (pg_line _ _ _ _ Hp) as [El Hl]. unfold new_line. rewrite El in *. destruct Hg as [Hw Hh _ _].
  pose proof (fo_cursor _ _ _ (fi_ok _ _ _ Hb)) as Hc. destruct (cursor_y b =? h - 1) eqn:E; bool_to_prop.
  - assert (Hb1 : fb_inv w h (b <| cursor_x := 0 |>)) by (eapply fb_inv_cursor; [exact Hb|done..|]; cbn; lia).
    destruct (scroll_page _ Hb1) as (b' & -> & Hb' & Hs & Hcell). exists b'. split; [done|]. split; [done|].
    unfold same_but_queue in Hs. split; [by rewrite Hs|]. rewrite <- El.
    eapply (page_scrolled w h ltac:(lia) ltac:(lia) b b'); [done|exact Hcell|by rewrite Hs|rewrite Hs; cbn; congruence].
  - eexists. split; [done|]. split; [eapply fb_inv_cursor; [exact Hb|done..|]; cbn; lia|]. split; [done|].
    apply (page_moved w h b); [done|done| |]; cbn; lia.
Qed.

Lemma wrap_page b p : fb_inv w h b -> page_of w h b p -> w <= col p ->
  exists b', wrap t b = Some b' /\ fb_inv w h b' /\ same_style b b' /\ page_of w h b' (new_line w h (text_fg b) (text_bg b) p).
Proof.
  intros Hb Hp Hx. destruct (next_line b p Hb Hp) as (b' & E & Hb' & Hst & Hp'). exists b'. split; [|done].
  destruct (pg_col _ _ _ _ Hp) as [Ec Hc], (pg_line _ _ _ _ Hp) as [El Hl]. destruct Hg as [Hw Hh _ _]. unfold wrap.
  rewrite Hscroll, Hbottom, orb_true_r, andb_true_r, (proj2 (Z.leb_le w _)), u64_small by lia.
  set (b1 := b <| cursor_x := 0 |> <| cursor_y := cursor_y b + 1 |>) in *. cbv zeta. change (cursor_y b1) with (cursor_y b + 1).
  destruct (pg_line _ _ _ _ Hp') as [El' Hl']. destruct (cursor_y b =? h - 1) eqn:Eh; bool_to_prop.
  - rewrite (proj2 (Z.eqb_eq (cursor_y b + 1) h)), Z.add_simpl_r by lia.
    change (flanterm_fb_scroll t (b1 <| cursor_y := cursor_y b |>) = Some b') in E. rewrite E. cbn [mbind option_bind].
    by rewrite (proj2 (Z.leb_gt w _)) by lia.
  - rewrite (proj2 (Z.eqb_neq (cursor_y b + 1) h)) by lia. injection E as <-. cbn [mbind option_bind].
    by rewrite (proj2 (Z.leb_gt w _)) by (rewrite <- El'; lia).
Qed.

(** A character at the cursor. *)
Lemma put_page c b p : 0 <= c < 256 -> fb_inv w h b -> page_of w h b p -> col p < w ->
  exists b', push_to_queue t (FChar c (text_fg b) (text_bg b)) (cursor_x b) (cursor_y b) (b <| cursor_x := u64 (cursor_x b + 1) |>) = Some b' /\
    fb_inv w h b' /\ same_style b b' /\
    page_of w h b' (Page (alter (fun l => <[Z.to_nat (col p) := FChar c (text_fg b) (text_bg b)]> l) (Z.to_nat (line p)) (lines p))
      (col p + 1) (line p)).
Proof.
  intros Hc Hb Hp Hx. destruct (pg_col _ _ _ _ Hp) as [Ec Hc'], (pg_line _ _ _ _ Hp) as [El Hl].
  destruct (push_ok t Hg (b <| cursor_x := u64 (cursor_x b + 1) |>) (FChar c (text_fg b) (text_bg b)) (cursor_x b) (cursor_y b))
    as (b' & E & He); [by apply advance_inv|done|lia|lia|]. pose proof (advance_inv t b Hb) as Hb1.
  exists b'. split; [exact E|]. split; [by eapply edited_inv|]. pose proof (ed_same _ _ _ _ _ He) as Hs. unfold same_but_queue in Hs.
  split; [by rewrite Hs|]. destruct Hg as [Hw Hh _ _].
  apply (page_put w h ltac:(lia) b); [done|lia| |rewrite Hs; cbn; rewrite u64_small; lia|rewrite Hs; cbn; congruence].
  intros i. rewrite (ed_cell _ _ _ _ _ He), <- Ec, <- El. rewrite (proj2 (Z.ltb_lt _ _)), (proj2 (Z.ltb_lt _ _)) by lia. done.
Qed.

Lemma raw_putchar_page c b p : 0 <= c < 256 -> fb_inv w h b -> page_of w h b p ->
  exists b', flanterm_fb_raw_putchar t c b = Some b' /\ fb_inv w h b' /\ same_style b b' /\
    page_of w h b' (type_char w h (text_fg b) (text_bg b) c p).
Proof.
  intros Hc Hb Hp. rewrite raw_putchar_wrap. destruct Hg as [Hw Hh _ _]. unfold type_char.
  destruct (Z.leb_spec w (col p)) as [Hx|Hx].
  - destruct (wrap_page b p Hb Hp Hx) as (b1 & -> & Hb1 & Hst1 & Hp1). cbn [mbind option_bind].
    destruct (put_page c b1 _ Hc Hb1 Hp1) as (b2 & E & Hb2 & Hst2 & Hp2); [unfold new_line; case_if; cbn; lia|].
    exists b2. split; [done|]. split; [done|]. split; [by eapply same_style_trans|]. destruct Hst1 as (E1 & E2 & _). by rewrite E1, E2 in Hp2.
  - replace (wrap t b) with (Some b); [by apply put_page|]. unfold wrap.
    by rewrite (proj2 (Z.leb_gt w _)) by (rewrite <- (proj1 (pg_col _ _ _ _ Hp)); lia).
Qed.
End Operations.

(** ** Scrolling regions *)

(** The lines from [top] to before [bottom] move up by one; or down. *)
Definition lines_up {A} (top bottom : Z) (new : A) (l : list A) : list A :=
  take (Z.to_nat top) l ++ drop (S (Z.to_nat top)) (take (Z.to_nat bottom) l) ++ [new] ++ drop (Z.to_nat bottom) l.
Definition lines_down {A} (top bottom : Z) (new : A) (l : list A) : list A :=
  take (Z.to_nat top) l ++ [new] ++ drop (Z.to_nat top) (take (Z.to_nat bottom - 1) l) ++ drop (Z.to_nat bottom) l.

Section Regions.
Context {A : Type} (top bottom : Z) (new : A) (l : list A) (Hr : 0 <= top < bottom) (Hl : bottom <= Z.of_nat (length l)).

Lemma lines_up_length : length (lines_up top bottom new l) = length l.
Proof. unfold lines_up. rewrite !length_app, length_drop, !length_take, length_drop. cbn. lia. Qed.
Lemma lines_down_length : length (lines_down top bottom new l) = length l.
Proof. unfold lines_down. rewrite !length_app, length_drop, !length_take, length_drop. cbn. lia. Qed.

Lemma zget_lines_up y : 0 <= y < Z.of_nat (length l) ->
  zget (lines_up top bottom new l) y =
  if y =? bottom - 1 then Some new else if (top <=? y) && (y <? bottom - 1) then zget l (y + 1) else zget l y.
Proof.
  intros Hy. unfold zget, lines_up. destruct (Z.ltb_spec y 0), (Z.ltb_spec (y + 1) 0); try lia.
  destruct (Z.lt_ge_cases y top); [|destruct (Z.lt_ge_cases y (bottom - 1))].
  - rewrite lookup_app_l by (rewrite length_take; lia). rewrite lookup_take_lt by lia.
    rewrite (proj2 (Z.eqb_neq y _)), (proj2 (Z.leb_gt top y)) by lia. done.
  - rewrite lookup_app_r by (rewrite length_take; lia). rewrite lookup_app_l by (rewrite length_drop, !length_take; lia).
    rewrite lookup_drop, lookup_take_lt by (rewrite length_take; lia).
    rewrite (proj2 (Z.eqb_neq y _)), (proj2 (Z.leb_le top y)), (proj2 (Z.ltb_lt y _)) by lia. cbn [andb].
    f_equal. rewrite length_take. lia.
  - rewrite lookup_app_r by (rewrite length_take; lia). rewrite lookup_app_r by (rewrite length_drop, !length_take; lia).
    rewrite (proj2 (Z.ltb_ge y (bottom - 1))), andb_false_r by lia. rewrite !length_drop, !length_take. destruct (y =? bottom - 1) eqn:E; bool_to_prop.
    + by replace (_ - _)%nat with 0%nat by lia.
    + rewrite lookup_app_r by (cbn; lia). rewrite lookup_drop. f_equal. cbn [length]. lia.
Qed.

Lemma zget_lines_down y : 0 <= y < Z.of_nat (length l) ->
  zget (lines_down top bottom new l) y =
  if y =? top then Some new else if (top <? y) && (y <? bottom) then zget l (y - 1) else zget l y.
Proof.
  intros Hy. unfold zget, lines_down. destruct (Z.ltb_spec y 0); try lia.
  destruct (Z.lt_ge_cases y top); [|destruct (Z.eq_dec y top); [|destruct (Z.lt_ge_cases y bottom)]].
  - rewrite lookup_app_l by (rewrite length_take; lia). rewrite lookup_take_lt by lia.
    rewrite (proj2 (Z.eqb_neq y _)), (proj2 (Z.ltb_ge top y)) by lia. done.
  - subst y. rewrite lookup_app_r by (rewrite length_take; lia). rewrite length_take, Z.eqb_refl.
    by replace (_ - _)%nat with 0%nat by lia.
  - rewrite lookup_app_r by (rewrite length_take; lia). rewrite lookup_app_r by (rewrite length_take; cbn; lia).
    rewrite lookup_app_l by (rewrite length_drop, !length_take; cbn; lia). rewrite lookup_drop, lookup_take_lt by (rewrite length_take; cbn; lia).
    rewrite (proj2 (Z.eqb_neq y _)), (proj2 (Z.ltb_lt top y)), (proj2 (Z.ltb_lt y _)) by lia. cbn [andb].
    destruct (Z.ltb_spec (y - 1) 0); [lia|]. f_equal. rewrite length_take. cbn [length]. lia.
  - rewrite lookup_app_r by (rewrite length_take; lia). rewrite lookup_app_r by (rewrite length_take; cbn; lia).
    rewrite lookup_app_r by (rewrite length_drop, !length_take; cbn; lia). rewrite lookup_drop.
    rewrite (proj2 (Z.eqb_neq y _)), (proj2 (Z.ltb_ge y bottom)), andb_false_r by lia.
    f_equal. rewrite !length_drop, !length_take. cbn [length]. lia.
Qed.
End Regions.

Section RegionPages.
Context (t : flanterm_context) (Hg : geometry t) (Hr : scroll_top_margin t < scroll_bottom_margin t).
Notation w := (cols t).
Notation h := (rows t).
Notation top := (scroll_top_margin t).
Notation bottom := (scroll_bottom_margin t).
Implicit Types (b : flanterm_fb_context) (p : page).

(** The same cursor, other lines. *)
Lemma page_relined b b' p ls : page_of w h b p -> same_but_queue b b' ->
  length ls = length (lines p) -> Forall (fun l => Z.of_nat (length l) = w) ls ->
  (forall x y, on_screen w h x y -> (l ← zget ls y; zget l x) = cell b' (y * w + x)) ->
  page_of w h b' (Page ls (col p) (line p)).
Proof.
  intros [P1 P2 P3 P4 P5] Hs Hl Hf Hc. unfold same_but_queue in Hs.
  constructor; cbn; [lia|done|done|rewrite Hs; done|rewrite Hs; done].
Qed.

(** A line's characters. *)
Lemma page_line b p y x : page_of w h b p -> on_screen w h x y -> (l ← zget (lines p) y; zget l x) = cell b (y * w + x).
Proof. intros Hp. apply (pg_char _ _ _ _ Hp). Qed.

Lemma blank_char fg bg x : 0 <= x < w -> zget (blank_line w fg bg) x = Some (FChar 32 fg bg).
Proof. intros Hx. apply zget_replicate. lia. Qed.

Lemma blank_width fg bg : Z.of_nat (length (blank_line w fg bg)) = w.
Proof. destruct Hg. unfold blank_line. rewrite length_replicate. lia. Qed.

Lemma scroll_region b p : fb_inv w h b -> page_of w h b p ->
  exists b', flanterm_fb_scroll t b = Some b' /\ fb_inv w h b' /\
    page_of w h b' (Page (lines_up top bottom (blank_line w (text_fg b) (text_bg b)) (lines p)) (col p) (line p)).
Proof.
  intros Hb Hp. pose proof Hg as [Hw Hh Ht Hbt]. pose proof (pg_size _ _ _ _ Hp) as Hsz.
  destruct (scroll_ok t Hg b (fi_ok _ _ _ Hb)) as (b' & E & He). exists b'. split; [done|]. split; [by eapply edited_inv|].
  eapply page_relined; [exact Hp|apply He|apply lines_up_length; lia| |].
  - unfold lines_up. pose proof (pg_width _ _ _ _ Hp). rewrite !Forall_app, Forall_singleton.
    split_and!; auto using Forall_take, Forall_drop, blank_width.
  - intros x y Hxy. pose proof Hxy as [Hx Hy]. rewrite (ed_cell _ _ _ _ _ He), zget_lines_up by lia.
    destruct (y =? bottom - 1) eqn:E1; bool_to_prop.
    + subst y. replace (_ && _) with true by nia. cbn [mbind option_bind]. by apply blank_char.
    + replace (((bottom - 1) * w <=? y * w + x) && (y * w + x <? bottom * w)) with false by nia.
      destruct ((top <=? y) && (y <? bottom - 1)) eqn:E2.
      * replace (_ && _) with true by nia. rewrite (page_line b p) by (done || unfold on_screen; lia). f_equal. lia.
      * replace (_ && _) with false by nia. by apply page_line.
Qed.

Lemma revscroll_region b p : fb_inv w h b -> page_of w h b p ->
  exists b', flanterm_fb_revscroll t b = Some b' /\ fb_inv w h b' /\
    page_of w h b' (Page (lines_down top bottom (blank_line w (text_fg b) (text_bg b)) (lines p)) (col p) (line p)).
Proof.
  intros Hb Hp. pose proof Hg as [Hw Hh Ht Hbt]. pose proof (pg_size _ _ _ _ Hp) as Hsz.
  destruct (revscroll_ok t Hg b (fi_ok _ _ _ Hb)) as (b' & E & He). exists b'. split; [done|]. split; [by eapply edited_inv|].
  eapply page_relined; [exact Hp|apply He|apply lines_down_length; lia| |].
  - unfold lines_down. pose proof (pg_width _ _ _ _ Hp). rewrite !Forall_app, Forall_singleton.
    split_and!; auto using Forall_take, Forall_drop, blank_width.
  - intros x y Hxy. pose proof Hxy as [Hx Hy]. rewrite (ed_cell _ _ _ _ _ He), zget_lines_down by lia.
    destruct (y =? top) eqn:E1; bool_to_prop.
    + subst y. replace (_ && _) with true by nia. cbn [mbind option_bind]. by apply blank_char.
    + replace ((top * w <=? y * w + x) && (y * w + x <? (top + 1) * w)) with false by nia.
      destruct ((top <? y) && (y <? bottom)) eqn:E2.
      * replace (_ && _) with true by nia. rewrite (page_line b p) by (done || unfold on_screen; lia). f_equal. lia.
      * replace (_ && _) with false by nia. by apply page_line.
Qed.
End RegionPages.

(** ** Writing text *)

(** The context between two characters of plain text. *)
Record plain (c : flanterm_context) : Prop := {
  pl_geometry : geometry c;
  pl_discard : discard_next c = false;
  pl_unicode : unicode_remaining c = 0;
  pl_escape : escape c = false;
  pl_select : g_select c = 0;
  pl_insert : insert_mode c = false;
  pl_charset : zget (charsets c) (current_charset c) = Some CHARSET_DEFAULT;
  pl_onlcr : truthy (oob_output c &&& FLANTERM_OOB_OUTPUT_ONLCR) = true;
  pl_top : scroll_top_margin c = 0;
  pl_bottom : scroll_bottom_margin c = rows c;
  pl_scroll : scroll_enabled c = true;
  pl_wide : rows c <= cols c }.

Section Text.
Context (t : flanterm_context) (Ht : plain t).
Notation w := (cols t).
Notation h := (rows t).
Notation fb := flanterm_fb_context.
Implicit Types (b : fb) (p : page).

(** One operation of the parser at a time. *)
Lemma run_get {A A'} (f : flanterm_context -> A) (k : A -> tm fb A') b : (get f ≫= k) (Term t b) = k (f t) (Term t b).
Proof. done. Qed.
Lemma run_ret {A A'} (a : A) (k : A -> tm fb A') (s : term fb) : (mret a ≫= k) s = k a s.
Proof. done. Qed.
Lemma run_cursor {A'} (k : Z * Z -> tm fb A') b : (cursor ≫= k) (Term t b) = k (get_cursor_pos t b) (Term t b).
Proof. done. Qed.
Lemma run_lift {A A'} (a : A) (k : A -> tm fb A') (s : term fb) : (lift (Some a) ≫= k) s = k a s.
Proof. done. Qed.
Lemma run_call {A'} op b b' (k : unit -> tm fb A') : op t b = Some b' -> (call op ≫= k) (Term t b) = k tt (Term t b').
Proof. intros E. unfold mbind, tm_bind, call. cbn. by rewrite E. Qed.

(** What a byte of text comes down to. *)
Lemma putchar_byte_of c b : 0 <= c < 192 -> c <> 24 -> c <> 26 -> flanterm_putchar c (Term t b) = putchar_byte c (Term t b).
Proof.
  intros Hc H1 H2. destruct Ht. unfold flanterm_putchar. rewrite run_get, pl_discard0.
  rewrite (proj2 (Z.eqb_neq c 24)), (proj2 (Z.eqb_neq c 26)) by lia. cbn [orb]. rewrite run_get, pl_unicode0. cbn [Z.eqb negb andb].
  by rewrite run_ret, (proj2 (Z.leb_gt 192 c)) by lia.
Qed.

Lemma putchar_text c b : 32 <= c <= 126 ->
  flanterm_putchar c (Term t b) = call (fun k => raw_putchar k c) (Term t b).
Proof.
  intros Hc. rewrite putchar_byte_of by lia. destruct Ht. unfold putchar_byte. rewrite !run_get, pl_escape0, pl_select0.
  change (truthy 0) with false. cbv iota. rewrite run_cursor. destruct (get_cursor_pos t b) as [x y].
  repeat match goal with |- context [c =? ?n] => rewrite (proj2 (Z.eqb_neq c n)) by lia end. cbn [orb].
  unfold print_char. rewrite !run_get, pl_insert0, run_ret, !run_get, pl_charset0, run_lift. cbn [CHARSET_DEFAULT CHARSET_DEC_SPECIAL Z.eqb].
  rewrite run_ret. by rewrite (proj2 (Z.leb_le 32 c)), (proj2 (Z.leb_le c 126)) by lia.
Qed.

Lemma putchar_newline b : flanterm_putchar 10 (Term t b) = line_feed 0 (get_cursor_pos t b).2 (Term t b).
Proof.
  rewrite putchar_byte_of by lia. destruct Ht. unfold putchar_byte. rewrite !run_get, pl_escape0, pl_select0.
  change (truthy 0) with false. cbv iota. rewrite run_cursor. destruct (get_cursor_pos t b) as [x y]. cbn [Z.eqb Pos.eqb orb]. by rewrite run_get, pl_onlcr0.
Qed.

Lemma newline_page b p : fb_inv w h b -> page_of w h b p ->
  exists b', flanterm_putchar 10 (Term t b) = Some (tt, Term t b') /\ fb_inv w h b' /\ same_style b b' /\
    page_of w h b' (new_line w h (text_fg b) (text_bg b) p).
Proof.
  intros Hb Hp. rewrite putchar_newline. destruct Ht. pose proof pl_geometry0 as [Hw Hh _ _].
  destruct (pg_line _ _ _ _ Hp) as [El Hl]. pose proof (fo_cursor _ _ _ (fi_ok _ _ _ Hb)) as Hc.
  cbn [get_cursor_pos fb_backend flanterm_fb_get_cursor_pos snd].
  unfold flanterm_fb_get_cursor_pos. cbn [snd]. rewrite (proj2 (Z.leb_gt h _)) by lia.
  unfold line_feed. rewrite run_get, pl_bottom0, u64_small by lia. unfold new_line. rewrite El in *.
  assert (Hcl : forall y, 0 <= y < h -> clamp y h = y) by (intros y Hy; unfold clamp; by rewrite (proj2 (Z.leb_gt h y)) by lia).
  assert (Hcl0 : clamp 0 w = 0) by (unfold clamp; by rewrite (proj2 (Z.leb_gt w 0)) by lia).
  destruct (cursor_y b =? h - 1) eqn:E; bool_to_prop.
  - destruct (scroll_page t pl_geometry0 pl_top0 pl_bottom0 b Hb) as (b1 & E1 & Hb1 & Hs & Hcell). rewrite (run_call _ b b1) by done.
    exists (flanterm_fb_set_cursor_pos t 0 (cursor_y b) b1). split; [done|]. unfold flanterm_fb_set_cursor_pos. rewrite Hcl, Hcl0 by lia.
    pose proof (fo_cursor _ _ _ (fi_ok _ _ _ Hb1)). split; [eapply fb_inv_cursor; [exact Hb1|done..|]; cbn; lia|].
    unfold same_but_queue in Hs. split; [rewrite Hs; done|]. rewrite <- El.
    apply (page_scrolled w h ltac:(lia) ltac:(lia) b); [done|exact Hcell|done|done].
  - exists (flanterm_fb_set_cursor_pos t 0 (cursor_y b + 1) b). split; [done|]. unfold flanterm_fb_set_cursor_pos. rewrite Hcl, Hcl0 by lia.
    split; [eapply fb_inv_cursor; [exact Hb|done..|]; cbn; lia|]. split; [done|].
    apply (page_moved w h b); [done|done| |]; cbn; lia.
Qed.

Lemma byte_page c b p : text_byte c -> fb_inv w h b -> page_of w h b p ->
  exists b', flanterm_putchar (u8 c) (Term t b) = Some (tt, Term t b') /\ fb_inv w h b' /\ same_style b b' /\
    page_of w h b' (type_byte w h (text_fg b) (text_bg b) c p).
Proof.
  intros Hc Hb Hp. assert (u8 c = c) as -> by (apply u8_small; destruct Hc; lia). unfold type_byte.
  destruct Hc as [->|Hc]; [by apply newline_page|]. rewrite (proj2 (Z.eqb_neq c 10)) by lia. rewrite putchar_text by done.
  destruct (raw_putchar_page t) with (c := c) (b := b) (p := p) as (b' & E & H'); [apply Ht..|lia|done|done|].
  exists b'. split; [|done]. unfold call. cbn. by rewrite E.
Qed.

Lemma write_bytes_page buf b p : Forall text_byte buf -> fb_inv w h b -> page_of w h b p ->
  exists b', write_bytes buf (Term t b) = Some (tt, Term t b') /\ fb_inv w h b' /\ same_style b b' /\
    page_of w h b' (type_text w h (text_fg b) (text_bg b) buf p).
Proof.
  intros Hbuf. revert b p. induction Hbuf as [|c buf Hc _ IH]; intros b p Hb Hp; [by exists b|].
  destruct (byte_page c b p Hc Hb Hp) as (b1 & E1 & Hb1 & Hst1 & Hp1). destruct (IH b1 _ Hb1 Hp1) as (b2 & E2 & Hb2 & Hst2 & Hp2).
  exists b2. split; [cbn [write_bytes]; unfold mbind, tm_bind; by rewrite E1|]. split; [done|]. split; [by eapply same_style_trans|].
  destruct Hst1 as (F1 & F2 & _). by rewrite F1, F2 in Hp2.
Qed.
End Text.
