(* ===== verification/TermUtf8.v ===== *)
(** * Unicode on the terminal

    A code point encoded in UTF-8 is put together again by the parser, and shown as its glyph in
    code page 437, or as a block of the code point's width. *)

From stdpp Require Import list.
From S2P Require Import Prelude Mem TermTables Flanterm TermSafe FbTerm FbQueue FbPlot FbFlush FbSafe FbText.

(** ** The encoding *)

(** The bytes of a code point above the ASCII range. *)
Definition utf8 (cp : Z) : list Z :=
  let low k := 128 + cp / 64 ^ k mod 64 in
  if cp <? 0x800 then [192 + cp / 64; low 0]
  else if cp <? 0x10000 then [224 + cp / 64 ^ 2; low 1; low 0]
  else [240 + cp / 64 ^ 3; low 2; low 1; low 0].

(** What is shown: a glyph of the font, or a block as wide as the character, or nothing. *)
Definition glyphs (cp : Z) : list Z :=
  let g := unicode_to_cp437 cp in
  if g =? -1 then
    match mk_wcwidth cp with Some 1 => [254] | Some 2 => [254; 32] | _ => [] end
  else [u8 g].

Lemma continuation_byte x : 0 <= x < 64 -> (128 + x) &&& 192 = 128 /\ (128 + x) &&& 63 = x.
Proof.
  intros Hx. split.
  - assert (H : forallb (fun n => Z.land (128 + Z.of_nat n) 192 =? 128) (seq 0 64) = true) by (vm_compute; reflexivity).
    rewrite forallb_forall in H. specialize (H (Z.to_nat x)). rewrite Z2Nat.id in H by lia. apply Z.eqb_eq, H, in_seq. lia.
  - change 63 with (2 ^ 6 - 1). rewrite land_mod by lia. change (2 ^ 6) with 64. Z.div_mod_to_equations. lia.
Qed.

(** Adding six bits. *)
Lemma six_bits a x j : 0 <= a -> 0 <= x < 64 -> 0 <= j -> (a <<< (6 + j)) ||| (x <<< j) = (a * 64 + x) <<< j.
Proof.
  intros Ha Hx Hj. rewrite <- Z.shiftl_shiftl by lia. rewrite <- Z.shiftl_lor. f_equal. rewrite Z.lor_comm.
  pose proof (lor_add_shift x a 6). change (2 ^ 6) with 64 in *. lia.
Qed.

(** ** Decoding *)

(** [n] bytes are still to come; [a] is what there is of the code point. *)
Definition pending (t : flanterm_context) (n a : Z) : flanterm_context :=
  t <| unicode_remaining := n |> <| code_point := a <<< (6 * n) |>.

Section Decode.
Context (t : flanterm_context) (Ht : plain t).
Notation fb := flanterm_fb_context.
Implicit Types b : fb.

Lemma pending_plain a : plain (pending t 0 a).
Proof. destruct Ht as [[] ? ? ? ? ? ? ? ? ? ? ?]. constructor; [by constructor|done..]. Qed.

(** The byte that starts a code point of [n] more bytes. *)
Lemma start_byte n a b : 1 <= n <= 3 -> 0 <= a < 2 ^ (6 - n) ->
  flanterm_putchar (256 - 2 ^ (7 - n) + a) (Term t b) = Some (tt, Term (pending t n a) b).
Proof.
  intros Hn Ha. destruct Ht. assert (Hc : n = 1 \/ n = 2 \/ n = 3) by lia. unfold flanterm_putchar. rewrite run_get, pl_discard.
  destruct Hc as [->|[->| ->]];
    [change (2 ^ (6 - 1)) with 32 in Ha; change (256 - 2 ^ (7 - 1)) with 192
    |change (2 ^ (6 - 2)) with 16 in Ha; change (256 - 2 ^ (7 - 2)) with 224
    |change (2 ^ (6 - 3)) with 8 in Ha; change (256 - 2 ^ (7 - 3)) with 240];
    rewrite !(proj2 (Z.eqb_neq (_ + a) _)) by lia; cbn [orb]; rewrite run_get, pl_unicode; cbn [Z.eqb negb andb]; rewrite run_ret;
    rewrite (proj2 (Z.leb_le 192 _)), (proj2 (Z.leb_le _ 247)) by lia; cbn [andb]; unfold start_code_point.
  - rewrite (proj2 (Z.leb_le _ 223)) by lia. unfold put, pending. cbn [ctx back]. change 31 with (2 ^ 5 - 1). rewrite land_mod by lia.
    replace ((192 + a) mod 2 ^ 5) with a by (apply (Z.mod_unique_pos _ _ 6); lia). done.
  - rewrite (proj2 (Z.leb_gt _ 223)), (proj2 (Z.leb_le _ 239)) by lia. unfold put, pending. cbn [ctx back]. change 15 with (2 ^ 4 - 1). rewrite land_mod by lia.
    replace ((224 + a) mod 2 ^ 4) with a by (apply (Z.mod_unique_pos _ _ 14); lia). done.
  - rewrite (proj2 (Z.leb_gt _ 223)), (proj2 (Z.leb_gt _ 239)) by lia. unfold put, pending. cbn [ctx back]. change 7 with (2 ^ 3 - 1). rewrite land_mod by lia.
    replace ((240 + a) mod 2 ^ 3) with a by (apply (Z.mod_unique_pos _ _ 30); lia). done.
Qed.

(** One of the others. *)
Lemma more_byte n a x b : 1 <= n <= 3 -> 0 <= a -> 0 <= x < 64 ->
  flanterm_putchar (128 + x) (Term (pending t n a) b) =
  (if n - 1 =? 0 then print_code_point else mret tt) (Term (pending t (n - 1) (a * 64 + x)) b).
Proof.
  intros Hn Ha Hx. destruct Ht. destruct (continuation_byte x Hx) as [C1 C2]. unfold flanterm_putchar. rewrite run_get.
  change (discard_next (pending t n a)) with (discard_next t). rewrite pl_discard. rewrite !(proj2 (Z.eqb_neq (128 + x) _)) by lia.
  cbn [orb]. rewrite run_get. change (unicode_remaining (pending t n a)) with n. rewrite (proj2 (Z.eqb_neq n 0)), C1 by lia.
  cbn [negb andb Z.eqb Pos.eqb]. unfold mbind at 1, tm_bind at 1, put. cbn [ctx back].
  replace (code_point (pending t n a) ||| (((128 + x) &&& 63) <<< (6 * (n - 1)))) with ((a * 64 + x) <<< (6 * (n - 1))).
  2: { rewrite C2, <- six_bits by lia. cbn. do 2 f_equal. lia. }
  by destruct (n - 1 =? 0).
Qed.

Lemma more_bytes xs n a b : (1 <= length xs <= 3)%nat -> n = Z.of_nat (length xs) -> 0 <= a -> Forall (fun x => 0 <= x < 64) xs ->
  write_bytes ((fun x => 128 + x) <$> xs) (Term (pending t n a) b) =
  print_code_point (Term (pending t 0 (fold_left (fun a x => a * 64 + x) xs a)) b).
Proof.
  revert n a b. induction xs as [|x xs IH]; intros n a b Hl -> Ha Hxs; [cbn in Hl; lia|]. inversion_clear Hxs as [|? ? Hx Hxs'].
  cbn [fmap list_fmap write_bytes]. unfold mbind at 1, tm_bind at 1. rewrite u8_small by lia. rewrite more_byte by (cbn [length] in *; lia).
  replace (Z.of_nat (length (x :: xs)) - 1) with (Z.of_nat (length xs)) by (cbn [length]; lia).
  destruct xs as [|x' xs].
  - change (Z.of_nat (length [])) with 0. cbn [Z.eqb fmap list_fmap write_bytes fold_left].
    destruct (print_code_point _) as [[[] s]|]; reflexivity.
  - rewrite (proj2 (Z.eqb_neq (Z.of_nat (length (x' :: xs))) 0)) by (cbn [length]; lia).
    apply (IH (Z.of_nat (length (x' :: xs))) (a * 64 + x)); [cbn [length] in *; lia|done|lia|done].
Qed.

Lemma utf8_decodes cp b : 128 <= cp < 0x200000 -> write_bytes (utf8 cp) (Term t b) = print_code_point (Term (pending t 0 cp) b).
Proof.
  intros Hcp. unfold utf8. change (64 ^ 3) with 262144. change (64 ^ 2) with 4096. change (64 ^ 1) with 64. change (64 ^ 0) with 1. rewrite Z.div_1_r.
  pose proof (Z.mod_pos_bound cp 64). pose proof (Z.mod_pos_bound (cp / 64) 64). pose proof (Z.mod_pos_bound (cp / 4096) 64).
  assert (Hgo : forall n a xs, (1 <= length xs <= 3)%nat -> n = Z.of_nat (length xs) -> 0 <= a < 2 ^ (6 - n) -> Forall (fun x => 0 <= x < 64) xs ->
    fold_left (fun a x => a * 64 + x) xs a = cp ->
    write_bytes ((256 - 2 ^ (7 - n) + a) :: ((fun x => 128 + x) <$> xs)) (Term t b) = print_code_point (Term (pending t 0 cp) b)).
  { intros n a xs Hl Hn Ha Hxs <-. cbn [write_bytes]. unfold mbind at 1, tm_bind at 1.
    assert (Hc : n = 1 \/ n = 2 \/ n = 3) by lia. rewrite u8_small by (destruct Hc as [->|[->| ->]]; cbn in *; lia).
    rewrite start_byte by lia. apply (more_bytes xs n a b Hl Hn); [lia|done]. }
  destruct (Z.ltb_spec cp 0x800); [|destruct (Z.ltb_spec cp 0x10000)].
  - apply (Hgo 1 (cp / 64) [cp mod 64]); [cbn; lia|done|cbn; Z.div_mod_to_equations; lia|by repeat constructor; lia|cbn [fold_left]; Z.div_mod_to_equations; lia].
  - apply (Hgo 2 (cp / 4096) [cp / 64 mod 64; cp mod 64]);
      [cbn; lia|done|cbn; Z.div_mod_to_equations; lia|by repeat constructor; lia|cbn [fold_left]; Z.div_mod_to_equations; lia].
  - apply (Hgo 3 (cp / 262144) [cp / 4096 mod 64; cp / 64 mod 64; cp mod 64]);
      [cbn; lia|done|cbn; Z.div_mod_to_equations; lia|by repeat constructor; lia|cbn [fold_left]; Z.div_mod_to_equations; lia].
Qed.
End Decode.

(** ** Showing *)

Section Show.
Context (t : flanterm_context) (Ht : plain t).
Notation w := (cols t).
Notation h := (rows t).
Implicit Types b : flanterm_fb_context.

Definition type_glyphs fg bg (l : list Z) (p : page) : page := fold_left (fun p c => type_char w h fg bg c p) l p.

Lemma put_glyph c b p : 0 <= c < 256 -> fb_inv w h b -> page_of w h b p ->
  exists b', call (fun k => raw_putchar k c) (Term t b) = Some (tt, Term t b') /\ fb_inv w h b' /\ same_style b b' /\
    page_of w h b' (type_char w h (text_fg b) (text_bg b) c p).
Proof.
  intros Hc Hb Hp. destruct (raw_putchar_page t) with (c := c) (b := b) (p := p) as (b' & E & H'); [apply Ht..|lia|done|done|].
  exists b'. split; [|done]. unfold call. cbn. by rewrite E.
Qed.

Lemma print_code_point_page b p : fb_inv w h b -> page_of w h b p -> 0 <= code_point t < 2 ^ 32 ->
  exists b', print_code_point (Term t b) = Some (tt, Term t b') /\ fb_inv w h b' /\ same_style b b' /\
    page_of w h b' (type_glyphs (text_fg b) (text_bg b) (glyphs (code_point t)) p).
Proof.
  intros Hb Hp Hcp. unfold print_code_point, glyphs. rewrite run_get. rewrite u32_small by lia.
  destruct (unicode_to_cp437 (code_point t) =? -1); [|apply put_glyph; [apply u8_range|done..]].
  destruct (mk_wcwidth_range (code_point t)) as (r & -> & Hr). rewrite run_lift.
  assert (Hr' : r = 0 \/ r = 1 \/ r = 2) by lia. destruct Hr' as [->|[->| ->]]; cbn [Z.ltb Z.compare Pos.compare].
  - by exists b.
  - destruct (put_glyph 254 b p ltac:(lia) Hb Hp) as (b1 & E1 & H1). exists b1. split; [|done].
    unfold mbind, tm_bind. by rewrite E1.
  - destruct (put_glyph 254 b p ltac:(lia) Hb Hp) as (b1 & E1 & Hb1 & (F1 & F2 & F3) & Hp1).
    destruct (put_glyph 32 b1 _ ltac:(lia) Hb1 Hp1) as (b2 & E2 & Hb2 & (G1 & G2 & G3) & Hp2). exists b2.
    split; [|split; [done|split; [by unfold same_style; rewrite G1, G2, G3, F1, F2, F3|by rewrite F1, F2 in Hp2]]].
    change (loop (Z.to_nat (2 - 1)) 1 (fun _ => blank)) with (call (fun c => raw_putchar c 32) ≫= fun _ => mret (M := tm flanterm_fb_context) tt).
    unfold mbind, tm_bind. rewrite E1. by rewrite E2.
Qed.
End Show.
