(* ===== verification/FbInit.v ===== *)
(** * Creating a framebuffer terminal, [flanterm_fb_init] of [src/src/flanterm/fb.c]

    The arrays come from the client's allocator or, as in the kernel, from a static pool with
    a bump allocator.  [bump_alloc_pool] is the pool's address.  Structure sizes are those of
    the x86-64 ABI. *)

From S2P Require Import Prelude Mem TermTables Flanterm FbTerm.

(** ** The bump allocator *)

Definition FLANTERM_FB_BUMP_ALLOC_POOL_SIZE : Z := 873000.
Definition FLANTERM_FB_WIDTH_LIMIT : Z := 1920.
Definition FLANTERM_FB_HEIGHT_LIMIT : Z := 1200.

Record bump := Bump { bump_alloc_ptr : Z; base_offset_added : bool; bump_allocated_instance : bool }.

#[export] Instance bump_eta : Eta bump := EtaOf _ (fun b => Bump (bump_alloc_ptr b) (base_offset_added b) (bump_allocated_instance b)).

(** The address of the block, 0 when the pool is used up. *)
Definition bump_alloc (bump_alloc_pool s : Z) (b : bump) : Z * bump :=
  let b := if base_offset_added b then b
           else b <| bump_alloc_ptr := if truthy (bump_alloc_pool &&& 15) then u64 (bump_alloc_ptr b + (16 - (bump_alloc_pool &&& 15)))
                                       else bump_alloc_ptr b |>
                  <| base_offset_added := true |> in
  let s := if truthy (s &&& 15) then Z.ldiff (u64 (s + 16)) 15 else s in
  let next_ptr := u64 (bump_alloc_ptr b + s) in
  if FLANTERM_FB_BUMP_ALLOC_POOL_SIZE <? next_ptr then (0, b)
  else (bump_alloc_pool + bump_alloc_ptr b, b <| bump_alloc_ptr := next_ptr |>).

(** ** Arguments *)

(** Pointers to colours and fonts are [None] when null. *)
Record fb_args := FbArgs {
  a_framebuffer : Z; a_width : Z; a_height : Z; a_pitch : Z;
  red_mask : Z * Z; green_mask : Z * Z; blue_mask : Z * Z;
  a_canvas : Z;
  a_ansi : option (list Z); a_ansi_bright : option (list Z);
  a_default_bg : option Z; a_default_fg : option Z; a_default_bg_bright : option Z; a_default_fg_bright : option Z;
  a_font : option (list Z); a_font_width : Z; a_font_height : Z; a_font_spacing : Z;
  a_scale_x : Z; a_scale_y : Z; a_margin : Z }.

(** The scale of the font, from the screen's size when the client gives none. *)
Definition font_scale (a : fb_args) : Z * Z :=
  if (a_scale_x a =? 0) || (a_scale_y a =? 0) then
    let s := if (1920 + 1920 / 3 <=? a_width a) && (1080 + 1080 / 3 <=? a_height a) then 2 else 1 in
    let s := if (3840 + 3840 / 3 <=? a_width a) && (2160 + 2160 / 3 <=? a_height a) then 4 else s in
    (s, s)
  else (a_scale_x a, a_scale_y a).

(** The part of the screen that is used: address, width and height. *)
Definition limit_size (a : fb_args) : Z * Z * Z :=
  let w := a_width a in
  let h := a_height a in
  if (FLANTERM_FB_WIDTH_LIMIT <? w) || (FLANTERM_FB_HEIGHT_LIMIT <? h) then
    let width_limit := if FLANTERM_FB_WIDTH_LIMIT <? w then FLANTERM_FB_WIDTH_LIMIT else w in
    let height_limit := if FLANTERM_FB_HEIGHT_LIMIT <? h then FLANTERM_FB_HEIGHT_LIMIT else h in
    (u64 (a_framebuffer a + ((h / 2 - height_limit / 2) * a_pitch a + (w / 2 - width_limit / 2) * 4)), width_limit, height_limit)
  else (a_framebuffer a, w, h).

(** ** Colours *)

Definition ansi_defaults : list Z := [0x000000; 0xaa0000; 0x00aa00; 0xaa5500; 0x0000aa; 0xaa00aa; 0x00aaaa; 0xaaaaaa].
Definition ansi_bright_defaults : list Z := [0x555555; 0xff5555; 0x55ff55; 0xffff55; 0x5555ff; 0xff55ff; 0x55ffff; 0xffffff].

(** The eight colours of the client, or the defaults. *)
Definition palette (k : fb_config) (given : option (list Z)) (defaults : list Z) : option (list Z) :=
  match given with
  | Some l => if Z.of_nat (length l) <? 8 then None else Some (convert_colour k <$> take 8 l)
  | None => Some (convert_colour k <$> defaults)
  end.

(** ** The font *)

(** Bit [x] from the left of row [y] of glyph [i], and the columns from 8 on. *)
Definition font_dot (bits : list Z) (font_height i y x : Z) : option bool :=
  g ← zget bits (i * font_height + y);
  Some (if x <? 8 then truthy (g &&& (128 >>> x)) else (192 <=? i) && (i <=? 223) && truthy (g &&& 1)).

(** The loops that fill [font_bool], every entry once. *)
Definition fill_font (bits : list Z) (font_height width : Z) (l : list bool) : option (list bool) :=
  floop (Z.to_nat FLANTERM_FB_FONT_GLYPHS) 0 (fun i ol =>
    floop (Z.to_nat font_height) 0 (fun y ol =>
      let put x ol :=
        l ← ol; d ← font_dot bits font_height i y x; zset l (i * font_height * width + y * width + x) d in
      let ol := floop 8 0 put ol in
      floop (Z.to_nat (width - 8)) 8 put ol) ol) (Some l).

(** ** Allocations that can fail *)

Inductive outcome (A : Type) := Done (a : A) | Fail | Fault.
Arguments Done {A} a.
Arguments Fail {A}.
Arguments Fault {A}.

(** [blocks]: address and size, the last one first. *)
Record astate (C : Type) := AState { pool : bump; client : C; blocks : list (Z * Z) }.
Arguments AState {C} pool client blocks.
Arguments pool {C} a.
Arguments client {C} a.
Arguments blocks {C} a.

(** [Fail] is [goto fail], [Fault] an access outside an array or a division by 0. *)
Definition am (C A : Type) : Type := astate C -> outcome A * astate C.
#[global] Instance am_ret {C} : MRet (am C) := fun A a st => (Done a, st).
#[global] Instance am_bind {C} : MBind (am C) := fun A A' k m st =>
  match m st with (Done a, st') => k a st' | (Fail, st') => (Fail, st') | (Fault, st') => (Fault, st') end.

Section Init.
Context {C : Type} (bump_alloc_pool : Z) (_malloc : option (Z -> C -> Z * C)) (_free : option (Z -> Z -> C -> C)).

Definition check {A} (o : option A) : am C A := fun st => (match o with Some a => Done a | None => Fault end, st).

Definition alloc (s : Z) : am C Z := fun st =>
  let '(p, st') :=
    match _malloc with
    | None => let '(p, b) := bump_alloc bump_alloc_pool s (pool st) in (p, AState b (client st) (blocks st))
    | Some f => let '(p, c) := f s (client st) in (p, AState (pool st) c (blocks st))
    end in
  if p =? 0 then (Fail, st') else (Done p, AState (pool st') (client st') ((p, s) :: blocks st')).

(** [sizeof] *)
Definition sizeof_fb_context : Z := 800.
Definition sizeof_fb_char : Z := 12.
Definition sizeof_queue_item : Z := 32.
Definition sizeof_pointer : Z := 8.

(** The font's bits, width, height and spacing. *)
Definition load_font (a : fb_args) : am C (list Z * Z * Z * Z) :=
  match a_font a with
  | Some f =>
      let size := u64 (a_font_width a * a_font_height a * FLANTERM_FB_FONT_GLYPHS) / 8 in
      _ ← alloc size;
      bits ← check (if Z.of_nat (length f) <? size then None else Some (take (Z.to_nat size) f));
      mret (bits, a_font_width a, a_font_height a, a_font_spacing a)
  | None =>
      let size := u64 (8 * 16 * FLANTERM_FB_FONT_GLYPHS) / 8 in
      _ ← alloc size;
      mret (builtin_font, 8, 16, 1)
  end.

(** A context after [memset]. *)
Definition zero_context (rows cols : Z) : flanterm_context :=
  Ctx 0 false false false false false false false false false false false false false false 0 0 0 [0; 0] 0 0 0 0 0 0 0 0 0
    (replicate 16 0) 0 false false false 0 0 0 rows cols false [].

(** [a / b], where 0 is no divisor. *)
Definition divide (a b : Z) : option Z := if b =? 0 then None else Some (a / b).

(** Colours and geometry, before the font is known. *)
Definition base_config (a : fb_args) (region : Z * Z * Z) (sx sy : Z) : fb_config :=
  let '(address, w, h) := region in
  let shift (mask : Z * Z) := u8 (snd mask + (fst mask - 8)) in
  FbConfig 0 0 0 0 sx sy 0 0 address (a_pitch a) w h (shift (red_mask a)) (shift (green_mask a)) (shift (blue_mask a))
    [] [] [] 0 0 0 0 0.

(** From the allocation of the context on. *)
Definition init_body (a : fb_args) (m : mem) : am C (term flanterm_fb_context) :=
  let '(sx, sy) := font_scale a in
  let region := match _malloc with None => limit_size a | Some _ => (a_framebuffer a, a_width a, a_height a) end in
  let canvas_arg := match _malloc with None => 0 | Some _ => a_canvas a end in
  _ ← alloc sizeof_fb_context;
  let k := base_config a region sx sy in
  colours ← check (palette k (a_ansi a) ansi_defaults);
  bright ← check (palette k (a_ansi_bright a) ansi_bright_defaults);
  let colour (given : option Z) (default : Z) := match given with Some c => convert_colour k c | None => default end in
  let default_bg := colour (a_default_bg a) 0 in
  let default_fg := colour (a_default_fg a) (convert_colour k 0xaaaaaa) in
  let default_bg_bright := colour (a_default_bg_bright a) (convert_colour k 0x555555) in
  let default_fg_bright := colour (a_default_fg_bright a) (convert_colour k 0xffffff) in
  '(bits, fw, fh, spacing) ← load_font a;
  let fw := u64 (fw + spacing) in
  let bool_size := u64 (FLANTERM_FB_FONT_GLYPHS * fh * fw) in
  _ ← alloc bool_size;
  font ← check (fill_font bits fh fw (replicate (Z.to_nat bool_size) false));
  let gw := u64 (fw * sx) in
  let gh := u64 (fh * sy) in
  let w := u64 (width k - a_margin a * 2) in
  let h := u64 (height k - a_margin a * 2) in
  cols ← check (divide w gw);
  rows ← check (divide h gh);
  let cells := u64 (rows * cols) in
  _ ← alloc (u64 (cells * sizeof_fb_char));
  _ ← alloc (u64 (cells * sizeof_queue_item));
  _ ← alloc (u64 (cells * sizeof_pointer));
  '(canvas, m) ←
    (if canvas_arg =? 0 then mret (0, m)
     else
       let n := u64 (width k * height k) in
       p ← alloc (u64 (n * 4));
       mret (p, floop (Z.to_nat n) 0 (fun i m => st32 m (p + 4 * i) (convert_colour k (ld32 m (canvas_arg + 4 * i)))) m));
  let conf := FbConfig fw fh gw gh sx sy (u64 (a_margin a + w mod gw / 2)) (u64 (a_margin a + h mod gh / 2))
                (framebuffer k) (pitch k) (width k) (height k) (red_mask_shift k) (green_mask_shift k) (blue_mask_shift k)
                font colours bright default_fg default_bg default_fg_bright default_bg_bright canvas in
  let b := Fb conf m (replicate (Z.to_nat cells) (FChar 32 default_fg TRANSPARENT))
             (replicate (Z.to_nat cells) (QItem 0 0 (FChar 0 0 0))) 0 (replicate (Z.to_nat cells) None)
             default_fg TRANSPARENT 0 0 0 0 0 0 0 0 in
  let t := flanterm_context_reinit (zero_context rows cols) in
  b ← check (flanterm_fb_full_refresh t b);
  mret (Term t b).

(** After [fail]. *)
Definition release (st : astate C) : bump * C :=
  match blocks st with
  | [] => (pool st, client st)
  | _ =>
      match _malloc with
      | None => ((pool st) <| bump_alloc_ptr := 0 |>, client st)
      | Some _ =>
          match _free with
          | None => (pool st, client st)
          | Some free => (pool st, fold_left (fun c '(p, s) => free p s c) (blocks st) (client st))
          end
      end
  end.

(** The terminal with its blocks in the order of allocation, [None] for a null pointer. *)
Definition flanterm_fb_init (a : fb_args) (m : mem) (b : bump) (c : C) :
    outcome (option (term flanterm_fb_context * list (Z * Z))) * (bump * C) :=
  if (fst (red_mask a) <? 8) || negb (fst (red_mask a) =? fst (green_mask a)) || negb (fst (red_mask a) =? fst (blue_mask a))
  then (Done None, (b, c))
  else if match _malloc with None => bump_allocated_instance b | Some _ => false end then (Done None, (b, c))
  else
    match init_body a m (AState b c []) with
    | (Done s, st) =>
        let b' := match _malloc with None => (pool st) <| bump_allocated_instance := true |> | Some _ => pool st end in
        (Done (Some (s, rev (blocks st))), (b', client st))
    | (Fail, st) => (Done None, release st)
    | (Fault, st) => (Fault, (pool st, client st))
    end.

(** [flanterm_deinit] of a terminal with these blocks. *)
Definition flanterm_fb_deinit (bs : list (Z * Z)) (b : bump) (c : C) : bump * C :=
  match _free with
  | None => (if bump_allocated_instance b then b <| bump_alloc_ptr := 0 |> <| bump_allocated_instance := false |> else b, c)
  | Some free => (b, fold_left (fun c '(p, s) => free p s c) (tail bs ++ firstn 1 bs) c)
  end.
End Init.

(** The call in [init_kernel]: address, size, pitch and colour masks are the boot loader's. *)
Definition kernel_args (address w h pitch : Z) (red green blue : Z * Z) (bg_colour fg_colour : Z) : fb_args :=
  FbArgs address w h pitch red green blue 0 None None (Some bg_colour) (Some fg_colour) None (Some fg_colour) None 1 0 1 0 0 0.
