(* ===== verification/FbInitProps.v ===== *)
(** * The terminal the kernel creates

    [flanterm_fb_init] with the kernel's arguments: the pool is large enough for every screen,
    its blocks do not overlap, the font is the built-in one dot by dot, and the terminal returned is
    one that [TermSafe] and [FbText] speak of. *)

From stdpp Require Import list.
From S2P Require Import Prelude Mem TermTables Flanterm TermSafe FbTerm FbQueue FbPlot FbFlush FbSafe FbText FbInit.

(** ** The pool *)

Definition round16 (s : Z) : Z := (s + 15) / 16 * 16.

(** Where the next block begins. *)
Definition start (a : Z) (b : bump) : Z :=
  if base_offset_added b then bump_alloc_ptr b else bump_alloc_ptr b + (- a) mod 16.

Lemma land_15 x : x &&& 15 = x mod 16.
Proof. change 15 with (Z.ones 4). by rewrite Z.land_ones. Qed.

Lemma rounding s : 0 <= s < 2 ^ 62 -> (if truthy (s &&& 15) then Z.ldiff (u64 (s + 16)) 15 else s) = round16 s.
Proof.
  intros Hs. rewrite land_15. unfold truthy, round16. rewrite u64_small by lia. change 15 with (Z.ones 4) at 1.
  rewrite Z.ldiff_ones_r by lia. rewrite Z.shiftl_mul_pow2, Z.shiftr_div_pow2 by lia. change (2 ^ 4) with 16.
  destruct (s mod 16 =? 0) eqn:E; cbn [negb]; bool_to_prop; Z.div_mod_to_equations; lia.
Qed.

Lemma bump_alloc_spec a s b : 0 <= s < 2 ^ 62 -> 0 <= bump_alloc_ptr b < 2 ^ 62 ->
  bump_alloc a s b =
    let used := start a b in
    let b' := Bump used true (bump_allocated_instance b) in
    if FLANTERM_FB_BUMP_ALLOC_POOL_SIZE <? used + round16 s then (0, b')
    else (a + used, b' <| bump_alloc_ptr := used + round16 s |>).
Proof.
  intros Hs Hp. unfold bump_alloc. rewrite rounding by done. cbv zeta.
  assert (Hpad : (if truthy (a &&& 15) then u64 (bump_alloc_ptr b + (16 - (a &&& 15))) else bump_alloc_ptr b) = bump_alloc_ptr b + (- a) mod 16).
  { rewrite land_15. unfold truthy. destruct (a mod 16 =? 0) eqn:E; cbn [negb]; bool_to_prop.
    - assert ((- a) mod 16 = 0) by (Z.div_mod_to_equations; lia). lia.
    - pose proof (Z.mod_pos_bound a 16). rewrite u64_small by lia. Z.div_mod_to_equations. lia. }
  assert (0 <= round16 s < 2 ^ 63) by (unfold round16; Z.div_mod_to_equations; lia). pose proof (Z.mod_pos_bound (- a) 16).
  destruct b as [p [] i]; unfold start; cbn in *; rewrite ?Hpad, ?u64_small by lia; done.
Qed.

(** Blocks of the pool, the last one first: aligned, below [a + used], none over another. *)
Definition packed (a used : Z) (bs : list (Z * Z)) : Prop :=
  Forall (fun '(p, s) => p mod 16 = 0 /\ a <= p /\ p + s <= a + used) bs /\
  ForallOrdPairs (fun later earlier => earlier.1 + earlier.2 <= later.1) bs.

Section Pool.
Context {C : Type} (a : Z) (Ha : 0 < a).
Notation alloc := (alloc (C := C) a None).

(** [used] bytes are taken, by the blocks. *)
Record in_use (used : Z) (st : astate C) : Prop := {
  us_start : start a (pool st) = used;
  us_ptr : 0 <= bump_alloc_ptr (pool st) < 2 ^ 62;
  us_range : 0 <= used <= FLANTERM_FB_BUMP_ALLOC_POOL_SIZE;
  us_aligned : (a + used) mod 16 = 0;
  us_packed : packed a used (blocks st) }.

Lemma alloc_ok used st s : in_use used st -> 0 <= s -> used + round16 s <= FLANTERM_FB_BUMP_ALLOC_POOL_SIZE ->
  exists st', alloc s st = (Done (a + used), st') /\ in_use (used + round16 s) st' /\
    blocks st' = (a + used, s) :: blocks st /\ client st' = client st.
Proof.
  intros [H1 H2 H3 H4 [H5 H6]] Hs Hroom. unfold FLANTERM_FB_BUMP_ALLOC_POOL_SIZE in *.
  assert (Hr : 0 <= round16 s /\ s <= round16 s /\ round16 s mod 16 = 0) by (unfold round16; Z.div_mod_to_equations; lia).
  unfold FbInit.alloc. rewrite bump_alloc_spec by lia. rewrite H1. cbv zeta. unfold FLANTERM_FB_BUMP_ALLOC_POOL_SIZE.
  rewrite (proj2 (Z.ltb_ge _ _)) by lia. cbn [client blocks pool]. rewrite (proj2 (Z.eqb_neq (a + used) 0)) by lia.
  eexists. split; [done|]. split; [|done]. constructor; cbn [pool blocks]; unfold start, FLANTERM_FB_BUMP_ALLOC_POOL_SIZE; cbn; try lia.
  - rewrite Z.add_assoc, Z.add_mod, H4 by lia. destruct Hr as (_ & _ & ->). done.
  - split; [constructor; [lia|]|constructor; [|done]].
    + eapply Forall_impl; [exact H5|]. intros [p n]. cbn. lia.
    + rewrite List.Forall_forall. intros [p n] Hin. rewrite Forall_forall in H5. specialize (H5 (p, n)). cbn in *.
      apply list_elem_of_In in Hin. specialize (H5 Hin). lia.
Qed.
End Pool.

(** ** The font *)

(** A loop that sets every entry. *)
Lemma fill_list {A} (f : Z -> option A) (g : Z -> A) n (l : list A) : (n <= length l)%nat ->
  (forall o, 0 <= o < Z.of_nat n -> f o = Some (g o)) ->
  exists l', floop n 0 (fun o ol => l ← ol; d ← f o; zset l o d) (Some l) = Some l' /\ length l' = length l /\
    forall o, 0 <= o < Z.of_nat n -> zget l' o = Some (g o).
Proof.
  intros Hn Hf.
  apply (floop_inv (fun i ol => exists l', ol = Some l' /\ length l' = length l /\ forall o, 0 <= o < i -> zget l' o = Some (g o))).
  - exists l. split; [done|]. split; [done|]. lia.
  - intros i ol Hi (l' & -> & Hl & Hg). cbn [mbind option_bind]. rewrite Hf by lia. cbn [mbind option_bind]. rewrite zset_ok by lia.
    eexists. split; [done|]. rewrite length_insert. split; [done|]. intros o Ho. rewrite zget_insert by lia.
    destruct (o =? i) eqn:E; bool_to_prop; [by subst|]. apply Hg. lia.
Qed.

(** The dot at an offset of [font_bool]. *)
Definition font_bit (bits : list Z) (fh w o : Z) : option bool := font_dot bits fh (o / (fh * w)) (o / w mod fh) (o mod w).

Lemma offset_digits fh w i y x : 0 <= y < fh -> 0 <= x < w ->
  let o := i * fh * w + y * w + x in o / (fh * w) = i /\ o / w mod fh = y /\ o mod w = x.
Proof.
  intros Hy Hx o.
  assert (o / w = i * fh + y) as -> by (unfold o; symmetry; apply (Z.div_unique_pos _ _ _ x); nia).
  split_and!; symmetry; [apply (Z.div_unique_pos _ _ _ (w * y + x))|apply (Z.mod_unique_pos _ _ i)|apply (Z.mod_unique_pos _ _ (i * fh + y))];
    unfold o; nia.
Qed.

Lemma fill_font_flat bits fh w l : 0 < fh -> 8 <= w ->
  fill_font bits fh w l =
  floop (256 * (Z.to_nat fh * Z.to_nat w)) 0 (fun o ol => l ← ol; d ← font_bit bits fh w o; zset l o d) (Some l).
Proof.
  intros Hf Hw. unfold fill_font. change (Z.to_nat FLANTERM_FB_FONT_GLYPHS) with 256%nat.
  set (g := fun o (ol : option (list bool)) => l ← ol; d ← font_bit bits fh w o; zset l o d).
  rewrite <- (floop_nest g 256 (Z.to_nat fh * Z.to_nat w)). apply floop_ext. intros i ol Hi.
  rewrite <- (floop_nest (fun o => g (Z.of_nat (Z.to_nat fh * Z.to_nat w) * i + o)) (Z.to_nat fh) (Z.to_nat w)).
  apply floop_ext. intros y ol' Hy. cbv zeta.
  assert (Hput : forall x ol, 0 <= x < w ->
    (l ← ol; d ← font_dot bits fh i y x; zset l (i * fh * w + y * w + x) d) =
    g (Z.of_nat (Z.to_nat fh * Z.to_nat w) * i + (Z.of_nat (Z.to_nat w) * y + x)) ol).
  { intros x ol1 Hx. unfold g, font_bit. replace (Z.of_nat (Z.to_nat fh * Z.to_nat w)) with (fh * w) by lia. rewrite Z2Nat.id by lia.
    replace (fh * w * i + (w * y + x)) with (i * fh * w + y * w + x) by lia.
    destruct (offset_digits fh w i y x) as (-> & -> & ->); [lia..|done]. }
  set (put := fun x (ol : option (list bool)) => l ← ol; d ← font_dot bits fh i y x; zset l (i * fh * w + y * w + x) d).
  transitivity (floop (8 + Z.to_nat (w - 8)) 0 put ol'); [by rewrite floop_app|].
  replace (8 + Z.to_nat (w - 8))%nat with (Z.to_nat w) by lia. apply floop_ext. intros x ol1 Hx. apply Hput. lia.
Qed.

(** The dots of the font are the bits of its glyphs. *)
Lemma fill_font_ok bits fh w l : 0 < fh -> 8 <= w -> 256 * fh <= Z.of_nat (length bits) -> Z.of_nat (length l) = 256 * fh * w ->
  exists l', fill_font bits fh w l = Some l' /\ length l' = length l /\
    forall i y x, 0 <= i < 256 -> 0 <= y < fh -> 0 <= x < w -> zget l' (i * fh * w + y * w + x) = font_dot bits fh i y x.
Proof.
  intros Hf Hw Hb Hl. rewrite fill_font_flat by done.
  assert (Hdot : forall i y x, 0 <= i < 256 -> 0 <= y < fh -> is_Some (font_dot bits fh i y x)).
  { intros i y x Hi Hy. unfold font_dot. destruct (zget_Some bits (i * fh + y)) as [g ->]; [nia|]. by eexists. }
  destruct (fill_list (font_bit bits fh w) (fun o => default false (font_bit bits fh w o)) (256 * (Z.to_nat fh * Z.to_nat w)) l)
    as (l' & E & Hl' & Hget); [nia| |].
  - intros o Ho. unfold font_bit. assert (0 <= o / (fh * w) < 256) by (split; [apply Z.div_pos; nia|apply Z.div_lt_upper_bound; nia]).
    pose proof (Z.mod_pos_bound (o / w) fh ltac:(lia)).
    destruct (Hdot (o / (fh * w)) (o / w mod fh) (o mod w)) as [d ->]; [lia|lia|done].
  - exists l'. split; [done|]. split; [done|]. intros i y x Hi Hy Hx. set (o := i * fh * w + y * w + x).
    assert (0 <= o < 256 * (fh * w)) by (unfold o; nia). rewrite Hget by nia. unfold font_bit, o.
    destruct (offset_digits fh w i y x) as (-> & -> & ->); [lia..|].
    by destruct (Hdot i y x Hi Hy) as [d ->].
Qed.

Lemma builtin_font_length : Z.of_nat (length builtin_font) = 4096.
Proof. vm_compute. reflexivity. Qed.

(** ** A fresh terminal *)

(** The state before [flanterm_fb_full_refresh]. *)
Definition fresh (k : fb_config) (n : nat) (m : mem) : flanterm_fb_context :=
  Fb k m (replicate n (FChar 32 (default_fg k) TRANSPARENT)) (replicate n (QItem 0 0 (FChar 0 0 0))) 0 (replicate n None)
    (default_fg k) TRANSPARENT 0 0 0 0 0 0 0 0.

Lemma zget_replicate_Some {A} n (v u : A) i : zget (replicate n v) i = Some u -> u = v.
Proof.
  intros H. pose proof (zget_lt _ _ _ H) as Hi. rewrite length_replicate in Hi. rewrite zget_replicate in H by done. congruence.
Qed.

Lemma fresh_ok w h k m : 0 < w -> 0 < h -> fb_ok w h (fresh k (Z.to_nat (h * w)) m).
Proof.
  intros Hw Hh. assert (0 < h * w) by nia. constructor; cbn; rewrite ?length_replicate; try lia.
  - intros i c ->%zget_replicate_Some. unfold char_ok. cbn. lia.
  - intros i j [=]%zget_replicate_Some.
Qed.

Lemma fresh_page w h k m : 0 < w -> 0 < h ->
  page_of w h (fresh k (Z.to_nat (h * w)) m) (Page (replicate (Z.to_nat h) (blank_line w (default_fg k) TRANSPARENT)) 0 0).
Proof.
  intros Hw Hh. constructor; cbn; try (rewrite length_replicate; lia); try lia.
  - apply Forall_replicate. unfold blank_line. rewrite length_replicate. lia.
  - intros x y [Hx Hy]. unfold char_at, cell. cbn. rewrite zget_replicate by lia. cbn. unfold blank_line.
    rewrite zget_replicate by lia. rewrite zget_replicate by nia. cbn. by rewrite zget_replicate by nia.
Qed.

(** Its context. *)
Definition fresh_context (h w : Z) : flanterm_context := flanterm_context_reinit (zero_context h w).

Lemma fresh_context_ok w h : 0 < w < 2 ^ 30 -> 0 < h < 2 ^ 30 -> ctx_ok w h (fresh_context h w).
Proof.
  intros Hw Hh. constructor; try (cbn; lia); try (cbn; done).
  - constructor; cbn; lia.
  - split; [done|]. cbn. repeat constructor; lia.
  - cbn. split_and!; solve [by left | right; lia].
Qed.

Lemma fresh_context_plain w h : 0 < w < 2 ^ 30 -> 0 < h < 2 ^ 30 -> h <= w -> plain (fresh_context h w).
Proof. intros Hw Hh Hle. constructor; try done. by apply (fresh_context_ok w h). Qed.

(** A terminal that shows what it holds. *)
Definition displayed (s : term flanterm_fb_context) : Prop :=
  forall x y c, on_screen (cols (ctx s)) (rows (ctx s)) x y -> cell (back s) (y * cols (ctx s) + x) = Some c ->
    shows (conf (back s)) (video (back s)) x y (if cursor_at (ctx s) (back s) x y then inverted c else c).

(** After the first refresh. *)
Lemma fresh_refreshed w h k m : 0 < w < 2 ^ 30 -> 0 < h < 2 ^ 30 -> conf_ok w h k ->
  exists m', flanterm_fb_full_refresh (fresh_context h w) (fresh k (Z.to_nat (h * w)) m) = Some (fresh k (Z.to_nat (h * w)) m') /\
    let s := Term (fresh_context h w) (fresh k (Z.to_nat (h * w)) m') in
    tinv w h s /\ displayed s /\ (forall a, off_framebuffer k a -> m' a = m a).
Proof.
  intros Hw Hh Hk. pose proof (fresh_context_ok w h Hw Hh) as Hc.
  destruct (full_refresh_ok (fresh_context h w) (cx_geometry _ _ _ Hc) (fresh k (Z.to_nat (h * w)) m)) as (m' & E & Hs & Hf).
  - apply fresh_ok; lia.
  - done.
  - intros i Hi. cbn in Hi. apply zget_replicate. lia.
  - exists m'. split; [exact E|]. cbv zeta. split; [|split; [|exact Hf]].
    + split; [done|]. constructor; [apply fresh_ok; lia|done|]. intros x y c Hxy Hne Hg. specialize (Hs x y c Hxy Hg).
      replace (cursor_at _ _ x y) with false in Hs; [done|]. symmetry. unfold cursor_at. cbn in *.
      destruct (x =? 0) eqn:E1, (y =? 0) eqn:E2; try done. bool_to_prop. by subst.
    + intros x y c Hxy Hcell. apply Hs; [done|]. pose proof Hxy as [Hx Hy]. change (0 <= x < w) in Hx. change (0 <= y < h) in Hy.
      rewrite (cell_not_queued (fresh k (Z.to_nat (h * w)) m')) in Hcell; [exact Hcell|].
      apply (zget_replicate (Z.to_nat (h * w))). change (0 <= y * w + x < Z.of_nat (Z.to_nat (h * w))). nia.
Qed.

(** ** The kernel's call *)

Section Kernel.
Context {C : Type} (base : Z) (Hbase : 0 < base).
Context (address w h pitch : Z) (red green blue : Z * Z) (bg_colour fg_colour : Z).
(** a screen of at least one character, lines that do not overlap *)
Context (Hw : 9 <= w < 2 ^ 32) (Hh : 16 <= h < 2 ^ 32) (Hpitch : 4 * w <= pitch).
Notation args := (kernel_args address w h pitch red green blue bg_colour fg_colour).

Definition scale : Z :=
  if (5120 <=? w) && (2880 <=? h) then 4 else if (2560 <=? w) && (1440 <=? h) then 2 else 1.

Lemma kernel_scale : font_scale args = (scale, scale).
Proof.
  unfold font_scale, scale. cbn [kernel_args a_scale_x a_scale_y a_width a_height Z.eqb orb].
  change (1920 + 1920 / 3) with 2560. change (1080 + 1080 / 3) with 1440. change (3840 + 3840 / 3) with 5120.
  change (2160 + 2160 / 3) with 2880. by destruct ((5120 <=? w) && (2880 <=? h)), ((2560 <=? w) && (1440 <=? h)).
Qed.

(** The size of the screen that is used, in dots and in characters. *)
Definition used_width : Z := Z.min w 1920.
Definition used_height : Z := Z.min h 1200.
Definition screen_cols : Z := used_width / (9 * scale).
Definition screen_rows : Z := used_height / (16 * scale).

Lemma kernel_region : exists a, limit_size args = (a, used_width, used_height).
Proof.
  unfold limit_size, used_width, used_height, FLANTERM_FB_WIDTH_LIMIT, FLANTERM_FB_HEIGHT_LIMIT. cbn.
  destruct (Z.ltb_spec 1920 w), (Z.ltb_spec 1200 h); cbn; eexists; repeat f_equal; lia.
Qed.

Lemma screen_size : 1 <= screen_cols <= 213 /\ 1 <= screen_rows <= 75 /\
  screen_cols * (9 * scale) <= used_width /\ screen_rows * (16 * scale) <= used_height /\ (1 <= scale <= 4).
Proof.
  unfold screen_cols, screen_rows, used_width, used_height, scale.
  repeat case_if; Z.div_mod_to_equations; lia.
Qed.

(** At most 873000 bytes, alignment included. *)
Lemma pool_suffices n : 0 <= n <= 213 * 75 ->
  15 + 800 + 4096 + 36864 + round16 (n * 12) + round16 (n * 32) + round16 (n * 8) <= FLANTERM_FB_BUMP_ALLOC_POOL_SIZE.
Proof. intros Hn. unfold round16, FLANTERM_FB_BUMP_ALLOC_POOL_SIZE. Z.div_mod_to_equations. lia. Qed.

Lemma run_bind {A A'} (x : am C A) st a st' (k : A -> am C A') : x st = (Done a, st') -> (x ≫= k) st = k a st'.
Proof. intros E. unfold mbind, am_bind. by rewrite E. Qed.
Lemma run_font (st : astate C) p st' : alloc base None 4096 st = (Done p, st') ->
  load_font base None args st = (Done (builtin_font, 8, 16, 1), st').
Proof. intros E. exact (run_bind _ _ _ _ _ E). Qed.
Lemma step_bind {A A'} (x : am C A) st a st' (k : A -> am C A') r : x st = (Done a, st') -> k a st' = r -> (x ≫= k) st = r.
Proof. intros E <-. by apply run_bind. Qed.

Lemma half_small x g : 0 < g < 1000 -> 0 <= x mod g / 2 < 2 ^ 64.
Proof.
  intros Hg. pose proof (Z.mod_pos_bound x g). split; [apply Z.div_pos; lia|apply Z.div_lt_upper_bound; lia].
Qed.

(** The configuration that comes out. *)
Definition screen_config (a : Z) (font : list bool) (colours bright : list Z) (fg bg fgb bgb : Z) (shifts : Z * Z * Z) : fb_config :=
  let '(rs, gs, bs) := shifts in
  FbConfig 9 16 (9 * scale) (16 * scale) scale scale (used_width mod (9 * scale) / 2) (used_height mod (16 * scale) / 2)
    a pitch used_width used_height rs gs bs font colours bright fg bg fgb bgb 0.

Lemma screen_config_ok a font colours bright fg bg fgb bgb shifts :
  Z.of_nat (length font) = 36864 -> length colours = 8%nat -> length bright = 8%nat ->
  conf_ok screen_cols screen_rows (screen_config a font colours bright fg bg fgb bgb shifts).
Proof.
  intros Hf Hc Hb. destruct shifts as [[rs gs] bs]. pose proof screen_size as (H1 & H2 & H3 & H4 & H5).
  assert (0 < 9 * scale /\ 0 < 16 * scale) as [G1 G2] by lia.
  constructor; cbn -[Z.mul]; [lia|lia|lia|lia| | |unfold used_width; Z.div_mod_to_equations; lia|done|done].
  - split; apply Z.div_pos; try lia; apply Z.mod_pos_bound; lia.
  - unfold screen_cols, screen_rows. generalize dependent (9 * scale). generalize dependent (16 * scale). intros gh ? ? gw ? ?.
    pose proof (Z.div_mod used_width gw ltac:(lia)). pose proof (Z.div_mod used_height gh ltac:(lia)).
    pose proof (Z.mod_pos_bound used_width gw). pose proof (Z.mod_pos_bound used_height gh).
    assert (used_width mod gw / 2 <= used_width mod gw) by (Z.div_mod_to_equations; lia).
    assert (used_height mod gh / 2 <= used_height mod gh) by (Z.div_mod_to_equations; lia). lia.
Qed.

Notation n := (screen_rows * screen_cols).

Lemma in_use_start b (c : C) : start base b <= 15 -> 0 <= bump_alloc_ptr b -> (base + start base b) mod 16 = 0 ->
  in_use base (start base b) (AState b c []).
Proof.
  intros Hst Hptr Hal. pose proof (Z.mod_pos_bound (- base) 16).
  assert (0 <= start base b /\ bump_alloc_ptr b <= start base b) by (unfold start; case_if; lia).
  constructor; cbn; [done|lia|unfold FLANTERM_FB_BUMP_ALLOC_POOL_SIZE; lia|done|]. split; constructor.
Qed.

(** Six blocks, in the order of the code. *)
Record six_blocks b (c : C) (st1 st2 st3 st4 st5 st6 : astate C) : Prop := {
  sb_1 : exists p, alloc base None 800 (AState b c []) = (Done p, st1);
  sb_2 : exists p, alloc base None 4096 st1 = (Done p, st2);
  sb_3 : exists p, alloc base None 36864 st2 = (Done p, st3);
  sb_4 : exists p, alloc base None (n * 12) st3 = (Done p, st4);
  sb_5 : exists p, alloc base None (n * 32) st4 = (Done p, st5);
  sb_6 : exists p, alloc base None (n * 8) st5 = (Done p, st6);
  sb_used : exists used, in_use base used st6;
  sb_sizes : snd <$> blocks st6 = [n * 8; n * 32; n * 12; 36864; 4096; 800];
  sb_client : client st6 = c }.

Lemma six_blocks_ok b (c : C) : start base b <= 15 -> 0 <= bump_alloc_ptr b -> (base + start base b) mod 16 = 0 ->
  exists st1 st2 st3 st4 st5 st6, six_blocks b c st1 st2 st3 st4 st5 st6.
Proof.
  intros Hst Hptr Hal. pose proof screen_size as (H1 & H2 & H3 & H4 & H5).
  assert (Hn : 0 <= n <= 213 * 75) by nia. pose proof (pool_suffices n Hn) as Hroom.
  pose proof (in_use_start b c Hst Hptr Hal) as U0.
  assert (E800 : round16 800 = 800 /\ round16 4096 = 4096 /\ round16 36864 = 36864) by done. destruct E800 as (R1 & R2 & R3).
  assert (0 <= round16 (n * 12) /\ 0 <= round16 (n * 32) /\ 0 <= round16 (n * 8)) by (unfold round16; Z.div_mod_to_equations; lia).
  destruct (alloc_ok base Hbase _ _ 800 U0) as (st1 & E1 & U1 & B1 & C1); [lia|lia|].
  destruct (alloc_ok base Hbase _ _ 4096 U1) as (st2 & E2 & U2 & B2 & C2); [lia|lia|].
  destruct (alloc_ok base Hbase _ _ 36864 U2) as (st3 & E3 & U3 & B3 & C3); [lia|lia|].
  destruct (alloc_ok base Hbase _ _ (n * 12) U3) as (st4 & E4 & U4 & B4 & C4); [lia|lia|].
  destruct (alloc_ok base Hbase _ _ (n * 32) U4) as (st5 & E5 & U5 & B5 & C5); [lia|lia|].
  destruct (alloc_ok base Hbase _ _ (n * 8) U5) as (st6 & E6 & U6 & B6 & C6); [lia|lia|].
  exists st1, st2, st3, st4, st5, st6. constructor; try (by eexists).
  - by rewrite B6, B5, B4, B3, B2, B1.
  - by rewrite C6, C5, C4, C3, C2, C1.
Qed.

Lemma init_body_ok m b (c : C) : start base b <= 15 -> 0 <= bump_alloc_ptr b -> (base + start base b) mod 16 = 0 ->
  exists k m' st, init_body base None args m (AState b c []) =
      (Done (Term (fresh_context screen_rows screen_cols) (fresh k (Z.to_nat n) m')), st) /\
    (let s := Term (fresh_context screen_rows screen_cols) (fresh k (Z.to_nat n) m') in
     tinv screen_cols screen_rows s /\ displayed s /\ forall a, off_framebuffer k a -> m' a = m a) /\
    (forall i y x, 0 <= i < 256 -> 0 <= y < 16 -> 0 <= x < 9 -> glyph_bit k i x y = font_dot builtin_font 16 i y x) /\
    (exists used, in_use base used st) /\ (snd <$> blocks st = [n * 8; n * 32; n * 12; 36864; 4096; 800]) /\
    client st = c.
Proof.
  intros Hst Hptr Hal. pose proof screen_size as (H1 & H2 & H3 & H4 & H5).
  assert (Hn : 0 <= n <= 213 * 75) by nia.
  destruct (six_blocks_ok b c Hst Hptr Hal) as (st1 & st2 & st3 & st4 & st5 & st6 & [[p1 E1] [p2 E2] [p3 E3] [p4 E4] [p5 E5] [p6 E6] U6 B6 C6]).
  destruct (fill_font_ok builtin_font 16 9 (replicate (Z.to_nat 36864) false)) as (font & Ef & Hfl & Hfont);
    [lia|lia|rewrite builtin_font_length; lia|rewrite length_replicate, Z2Nat.id; lia|]. rewrite length_replicate in Hfl.
  destruct kernel_region as [ra Er].
  set (k0 := base_config args (ra, used_width, used_height) scale scale).
  set (k := screen_config ra font (convert_colour k0 <$> ansi_defaults) (convert_colour k0 <$> ansi_bright_defaults)
    (convert_colour k0 fg_colour) (convert_colour k0 bg_colour) (convert_colour k0 fg_colour) (convert_colour k0 0x555555)
    (red_mask_shift k0, green_mask_shift k0, blue_mask_shift k0)).
  assert (Hk : conf_ok screen_cols screen_rows k) by (apply screen_config_ok; [rewrite Hfl, Z2Nat.id; lia|reflexivity..]).
  destruct (fresh_refreshed screen_cols screen_rows k m) as (m' & Em & Hs); [lia|lia|exact Hk|].
  assert (HW : 0 <= used_width <= 1920 /\ 0 <= used_height <= 1200) by (unfold used_width, used_height; lia).
  exists k, m', st6. split; [|split; [exact Hs|split]].
  - unfold init_body. rewrite kernel_scale, Er. fold k0.
    eapply step_bind; [exact E1|]. eapply step_bind; [reflexivity|]. eapply step_bind; [reflexivity|].
    eapply step_bind; [eapply run_font; exact E2|]. cbv beta iota zeta.
    change (u64 (8 + 1)) with 9. change (u64 (FLANTERM_FB_FONT_GLYPHS * 16 * 9)) with 36864.
    eapply step_bind; [exact E3|]. eapply step_bind; [rewrite Ef; reflexivity|]. cbv beta.
    change (a_margin args) with 0. change (width k0) with used_width. change (height k0) with used_height.
    change (0 * 2) with 0. rewrite !Z.sub_0_r, !Z.add_0_l.
    rewrite (u64_small used_width), (u64_small used_height), (u64_small (9 * scale)), (u64_small (16 * scale)) by lia.
    rewrite (u64_small (used_width mod _ / 2)), (u64_small (used_height mod _ / 2)) by (apply half_small; lia).
    eapply step_bind; [unfold divide; rewrite (proj2 (Z.eqb_neq _ 0)) by lia; reflexivity|].
    eapply step_bind; [unfold divide; rewrite (proj2 (Z.eqb_neq _ 0)) by lia; reflexivity|].
    fold screen_cols screen_rows. cbv beta. rewrite !(u64_small n) by lia.
    unfold sizeof_fb_char, sizeof_queue_item, sizeof_pointer. rewrite (u64_small (n * 12)), (u64_small (n * 32)), (u64_small (n * 8)) by lia.
    eapply step_bind; [exact E4|]. eapply step_bind; [exact E5|]. eapply step_bind; [exact E6|]. cbv beta.
    eapply step_bind; [reflexivity|]. cbv beta iota. eapply step_bind; [|reflexivity]. unfold check.
    transitivity (match flanterm_fb_full_refresh (fresh_context screen_rows screen_cols) (fresh k (Z.to_nat n) m) with
                  | Some a => Done a | None => Fault end, st6); [reflexivity|]. rewrite Em. reflexivity.
  - intros i y x Hi Hy Hx. rewrite <- (Hfont i y x Hi Hy Hx). reflexivity.
  - split; [exact U6|]. split; [exact B6|exact C6].
Qed.

(** What [flanterm_fb_init] returns. *)
Record ready (m : mem) (s : term flanterm_fb_context) (bs : list (Z * Z)) : Prop := {
  rd_size : cols (ctx s) = screen_cols /\ rows (ctx s) = screen_rows;
  rd_inv : tinv screen_cols screen_rows s;
  rd_plain : screen_rows <= screen_cols -> plain (ctx s);
  rd_autoflush : autoflush (ctx s) = true;
  rd_shown : displayed s;
  rd_blank : page_of screen_cols screen_rows (back s)
    (Page (replicate (Z.to_nat screen_rows) (blank_line screen_cols (text_fg (back s)) TRANSPARENT)) 0 0);
  rd_font : forall i y x, 0 <= i < 256 -> 0 <= y < 16 -> 0 <= x < 9 ->
    glyph_bit (conf (back s)) i x y = font_dot builtin_font 16 i y x;
  rd_frame : forall a, off_framebuffer (conf (back s)) a -> video (back s) a = m a;
  rd_blocks : packed base FLANTERM_FB_BUMP_ALLOC_POOL_SIZE (rev bs);
  rd_sizes : snd <$> rev bs = [n * 8; n * 32; n * 12; 36864; 4096; 800] }.

Lemma packed_mono used used' bs : used <= used' -> packed base used bs -> packed base used' bs.
Proof. intros Hu [H1 H2]. split; [|done]. eapply Forall_impl; [exact H1|]. intros [p s]. lia. Qed.

Lemma kernel_init_ok m (c : C) :
  fst red = fst green -> fst red = fst blue -> 8 <= fst red ->
  exists s bs b', flanterm_fb_init base None None args m (Bump 0 false false) c = (Done (Some (s, bs)), (b', c)) /\
    bump_allocated_instance b' = true /\ ready m s bs.
Proof.
  intros Hg Hb H8. pose proof screen_size as (H1 & H2 & _). unfold flanterm_fb_init.
  cbn [red_mask green_mask blue_mask kernel_args]. rewrite <- Hg, <- Hb, Z.eqb_refl, (proj2 (Z.ltb_ge _ _)) by lia. cbn [negb orb].
  destruct (init_body_ok m (Bump 0 false false) c) as (k & m' & st & E & (Ht & Hd & Hf) & Hfont & [used U] & Hsz & Hc).
  - unfold start. cbn. pose proof (Z.mod_pos_bound (- base) 16). lia.
  - cbn. lia.
  - unfold start. cbn. Z.div_mod_to_equations. lia.
  - cbn [bump_allocated_instance]. rewrite E. eexists _, _, _. split; [by rewrite Hc|]. split; [done|].
    constructor; try done; rewrite ?rev_involutive; try done.
    + intros. apply fresh_context_plain; lia.
    + apply fresh_page; lia.
    + destruct U. eapply packed_mono; [|done]. lia.
Qed.
End Kernel.
