(* ===== verification/TermProps.v ===== *)
(** * What the terminal promises

    The theorems on the parser and the framebuffer back end put together, and [kprintf] on
    top of them. *)

From stdpp Require Import list strings.
From S2P Require Import Prelude Mem CString Printf PrintfProps TermTables Flanterm TermSafe FbTerm FbQueue FbPlot FbFlush FbSafe FbText TermUtf8 FbInit FbInitProps.

(** ** Any bytes *)

Lemma flushed_displayed t b b' : flushed t b b' -> displayed (Term t b').
Proof.
  intros [H1 H2 H3 H4 H5 H6] x y c Hxy Hc. cbn [ctx back] in *. rewrite H3 in Hc. specialize (H5 x y c Hxy Hc).
  assert (Ec : conf b' = conf b) by (by rewrite H4).
  assert (Ea : cursor_at t b' x y = cursor_at t b x y) by (unfold cursor_at; by rewrite H4). by rewrite Ec, Ea.
Qed.

(** A flush at the end of a write. *)
Lemma flush_term t b : geometry t -> fb_inv (cols t) (rows t) b ->
  exists b', flanterm_flush (Term t b) = Some (tt, Term t b') /\ fb_inv (cols t) (rows t) b' /\ flushed t b b' /\ displayed (Term t b').
Proof.
  intros Hg [H1 H2 H3]. destruct (flush_ok t Hg b H1 H2 H3) as (b' & E & Hf). exists b'.
  split; [unfold flanterm_flush, call; cbn; by rewrite E|]. split; [|split; [done|by eapply flushed_displayed]].
  pose proof (fd_rest _ _ _ Hf) as Er. constructor; [apply Hf|by rewrite Er|by eapply flushed_screen_ok].
Qed.

Lemma write_total w h buf s : tinv w h s ->
  exists s', flanterm_write buf s = Some (tt, s') /\ tinv w h s' /\
    (autoflush (ctx s') = true -> queue_i (back s') = 0 /\ displayed s').
Proof.
  intros Hs. pose proof (write_bytes_safe w h buf s Hs) as Hw. unfold flanterm_write, mbind, tm_bind, wp in *.
  destruct (write_bytes buf s) as [[[] s1]|]; [|done]. unfold get. cbn [ctx]. destruct (autoflush (ctx s1)) eqn:Ea.
  - destruct s1 as [t b]. destruct Hw as [Hc Hb]. cbn [ctx back] in Hc, Hb. destruct (cx_size _ _ _ Hc) as [<- <-].
    destruct (flush_term t b (cx_geometry _ _ _ Hc) Hb) as (b' & -> & Hb' & Hf & Hd). eexists. split; [done|].
    split; [done|]. intros _. split; [apply (fd_queue _ _ _ Hf)|done].
  - exists s1. split; [done|]. split; [done|]. cbn. congruence.
Qed.

(** A terminal to try them on: 1280 by 800 pixels, 32 bits each. *)
Definition vga_args : fb_args := kernel_args 0xfd000000 1280 800 5120 (8, 16) (8, 8) (8, 0) 0x68 0xffffff.

Lemma vga_ready : exists s bs b', flanterm_fb_init 4096 None None vga_args (fun _ => 0) (Bump 0 false false) tt = (Done (Some (s, bs)), (b', tt)) /\
  bump_allocated_instance b' = true /\ ready 4096 1280 800 (fun _ => 0) s bs.
Proof.
  apply (kernel_init_ok 4096 ltac:(lia) 0xfd000000 1280 800 5120 (8, 16) (8, 8) (8, 0) 0x68 0xffffff);
    [lia|lia|lia|done|done|cbn; lia].
Qed.

(** C2: the terminal accepts any bytes.  Whatever is written to a well-formed terminal - control
    characters, cut off or malformed escape sequences, broken UTF-8 - the write returns, no access is
    outside an array ([esc_values], [charsets], [col256], the width table, the font, [grid], [queue]
    and [map], in particular the queue never overflows), and the terminal is well formed again; with
    autoflush every cell of the framebuffer then shows its character, the cursor's cell inverted. *)
Theorem any_bytes_can_be_written (w h : Z) (buf : list Z) (s : term flanterm_fb_context) :
  tinv w h s ->
  exists s', flanterm_write buf s = Some (tt, s') /\ tinv w h s' /\
    (autoflush (ctx s') = true -> queue_i (back s') = 0 /\ displayed s').
Proof. apply write_total. Qed.

Lemma any_bytes_can_be_written_witness : exists s bs b' s',
  flanterm_fb_init 4096 None None vga_args (fun _ => 0) (Bump 0 false false) tt = (Done (Some (s, bs)), (b', tt)) /\
  flanterm_write [27; 91; 57; 57; 59; 59; 255; 240; 10; 27; 91; 63; 24; 200] s = Some (tt, s').
Proof.
  destruct vga_ready as (s & bs & b' & E & _ & Hr). exists s, bs, b'.
  destruct (any_bytes_can_be_written _ _ [27; 91; 57; 57; 59; 59; 255; 240; 10; 27; 91; 63; 24; 200] s (rd_inv _ _ _ _ _ _ Hr)) as (s' & Es & _).
  exists s'. split; [exact E|exact Es].
Defined.

(** ** Text *)

(** A flush moves no character. *)
Lemma flushed_page t b b' p : page_of (cols t) (rows t) b p -> flushed t b b' -> page_of (cols t) (rows t) b' p.
Proof.
  intros [P1 P2 P3 P4 P5] [F1 F2 F3 F4 F5 F6]. assert (Ex : cursor_x b' = cursor_x b) by (by rewrite F4).
  assert (Ey : cursor_y b' = cursor_y b) by (by rewrite F4). constructor; rewrite ?Ex, ?Ey; auto.
  intros x y Hxy. rewrite F3. by apply P3.
Qed.

Lemma write_text t b p buf : plain t -> autoflush t = true -> fb_inv (cols t) (rows t) b -> page_of (cols t) (rows t) b p ->
  Forall text_byte buf ->
  exists b', flanterm_write buf (Term t b) = Some (tt, Term t b') /\ fb_inv (cols t) (rows t) b' /\ same_style b b' /\
    page_of (cols t) (rows t) b' (type_text (cols t) (rows t) (text_fg b) (text_bg b) buf p) /\ displayed (Term t b').
Proof.
  intros Ht Ha Hb Hp Hbuf. destruct (write_bytes_page t Ht buf b p Hbuf Hb Hp) as (b1 & E1 & Hb1 & Hst & Hp1).
  destruct (flush_term t b1 (pl_geometry _ Ht) Hb1) as (b2 & E2 & Hb2 & Hf & Hd). exists b2.
  split; [|split; [done|split; [|split; [by eapply flushed_page|done]]]].
  - unfold flanterm_write, mbind, tm_bind. rewrite E1. unfold get. cbn [ctx]. by rewrite Ha.
  - eapply same_style_trans; [done|]. pose proof (fd_rest _ _ _ Hf) as Er. by rewrite Er.
Qed.

Lemma text_bytes_check l : forallb (fun c => (c =? 10) || ((32 <=? c) && (c <=? 126))) l = true -> Forall text_byte l.
Proof.
  intros H. apply Forall_forall. intros c Hc%list_elem_of_In. rewrite forallb_forall in H. specialize (H c Hc). unfold text_byte. lia.
Qed.

(** C3: text appears as typed.  On a terminal between two characters of text, writing printable
    characters and newlines leaves the context alone and changes the page - the lines of characters
    and the place of the next one - exactly as a typewriter with automatic line ends and scrolling
    does, in the current colours; afterwards every cell of the framebuffer shows its character of
    that page. *)
Theorem text_appears_as_typed (t : flanterm_context) (b : flanterm_fb_context) (p : page) (buf : list Z) :
  plain t -> autoflush t = true -> fb_inv (cols t) (rows t) b -> page_of (cols t) (rows t) b p -> Forall text_byte buf ->
  exists b', flanterm_write buf (Term t b) = Some (tt, Term t b') /\ fb_inv (cols t) (rows t) b' /\
    page_of (cols t) (rows t) b' (type_text (cols t) (rows t) (text_fg b) (text_bg b) buf p) /\ displayed (Term t b').
Proof.
  intros Ht Ha Hb Hp Hbuf. destruct (write_text t b p buf Ht Ha Hb Hp Hbuf) as (b' & E & Hb' & _ & H). eauto.
Qed.

(** The first line of the kernel's fresh screen. *)
Lemma text_appears_as_typed_witness : exists t b bs b0 b' p,
  flanterm_fb_init 4096 None None vga_args (fun _ => 0) (Bump 0 false false) tt = (Done (Some (Term t b, bs)), (b0, tt)) /\
  flanterm_write (chars "hi") (Term t b) = Some (tt, Term t b') /\ page_of 142 50 b' p /\
  char_at p 1 0 = Some (FChar 105 (text_fg b) (text_bg b)) /\ displayed (Term t b').
Proof.
  destruct vga_ready as ([t b] & bs & b0 & E & _ & Hr). destruct (rd_size _ _ _ _ _ _ Hr) as [Ew Eh]. cbn [ctx back] in *.
  change (screen_cols 1280 800) with 142 in *. change (screen_rows 1280 800) with 50 in *.
  pose proof (rd_inv _ _ _ _ _ _ Hr) as [_ Hb]. pose proof (rd_blank _ _ _ _ _ _ Hr) as Hp. cbn [back] in Hb, Hp.
  destruct (text_appears_as_typed t b _ (chars "hi") (rd_plain _ _ _ _ _ _ Hr ltac:(vm_compute; discriminate)) (rd_autoflush _ _ _ _ _ _ Hr)
    ltac:(rewrite Ew, Eh; exact Hb) ltac:(rewrite Ew, Eh; exact Hp) (text_bytes_check (chars "hi") eq_refl)) as (b' & Es & _ & Hp' & Hd).
  rewrite Ew, Eh in Hp'. eexists t, b, bs, b0, b', _. split; [exact E|]. split; [exact Es|]. split; [exact Hp'|]. split; [|exact Hd]. vm_compute. reflexivity.
Defined.

(** ** [kprintf] on the screen *)

(** The calls of [flanterm_write] one after the other. *)
Fixpoint writes (chunks : list (list Z)) : tm flanterm_fb_context unit :=
  match chunks with [] => mret tt | l :: chunks' => flanterm_write l;; writes chunks' end.

Lemma type_text_app w h fg bg l l' p : type_text w h fg bg (l ++ l') p = type_text w h fg bg l' (type_text w h fg bg l p).
Proof. apply fold_left_app. Qed.

Lemma writes_text chunks t b p : plain t -> autoflush t = true -> Forall text_byte (concat chunks) ->
  fb_inv (cols t) (rows t) b -> page_of (cols t) (rows t) b p -> displayed (Term t b) ->
  exists b', writes chunks (Term t b) = Some (tt, Term t b') /\ fb_inv (cols t) (rows t) b' /\
    page_of (cols t) (rows t) b' (type_text (cols t) (rows t) (text_fg b) (text_bg b) (concat chunks) p) /\ displayed (Term t b').
Proof.
  intros Ht Ha. revert b p. induction chunks as [|l chunks IH]; intros b p Hc Hb Hp Hd; [by exists b|].
  cbn [concat] in *. apply Forall_app in Hc as [Hl Hc].
  destruct (write_text t b p l Ht Ha Hb Hp Hl) as (b1 & E1 & Hb1 & (F1 & F2 & _) & Hp1 & Hd1).
  destruct (IH b1 _ Hc Hb1 Hp1 Hd1) as (b2 & E2 & Hb2 & Hp2 & Hd2). exists b2.
  split; [cbn [writes]; unfold mbind, tm_bind; by rewrite E1|]. split; [done|]. split; [|done].
  rewrite type_text_app. by rewrite F1, F2 in Hp2.
Qed.

(** What [kprintf] prints is on the screen.  For a format of literal characters and [%d], [%x],
    [%s], [%c] and [%%] items with fitting arguments whose rendering is text, [kprintf] hands exactly that
    rendering to the terminal, and however it is cut into calls of [flanterm_write], afterwards the
    page is the old one with the rendering typed on, and the framebuffer shows it. *)
Theorem kprintf_on_screen (N fuel : nat) (buf0 fm : mem) (a : Z) (its : list item) (args : list varg) (out : list Z)
    (chunks : list (list Z)) (t : flanterm_context) (b : flanterm_fb_context) (p : page) :
  cstr fm a (text its) -> Forall PrintfProps.item_ok its -> renders N its args out ->
  Z.of_nat (length out) <= 2147483647 -> (length (text its) < fuel)%nat -> (N <= fuel)%nat ->
  Forall text_byte out -> concat chunks = out ->
  plain t -> autoflush t = true -> fb_inv (cols t) (rows t) b -> page_of (cols t) (rows t) b p -> displayed (Term t b) ->
  kprintf fuel buf0 (fm, a) args = Some (KpRet out (Z.of_nat (length out))) /\
  exists b', writes chunks (Term t b) = Some (tt, Term t b') /\
    page_of (cols t) (rows t) b' (type_text (cols t) (rows t) (text_fg b) (text_bg b) out p) /\ displayed (Term t b').
Proof.
  intros H1 H2 H3 H4 H5 H6 Hout <- Ht Ha Hb Hp Hd. split; [by apply (kprintf_ok N fuel buf0 fm a its)|].
  destruct (writes_text chunks t b p Ht Ha Hout Hb Hp Hd) as (b' & E & _ & H). eauto.
Qed.

(** The first line [kmain] prints. *)
Definition booting : list Z := chars "TushOs booting..." ++ [10].

Lemma literals_render N l args : renders N (Lit <$> l) args l.
Proof. induction l; by constructor. Qed.

Lemma kprintf_on_screen_witness : exists t b bs b0 b' p,
  flanterm_fb_init 4096 None None vga_args (fun _ => 0) (Bump 0 false false) tt = (Done (Some (Term t b, bs)), (b0, tt)) /\
  kprintf 20 (fun _ => 0) (const booting, 0) [] = Some (KpRet booting 18) /\
  writes [booting] (Term t b) = Some (tt, Term t b') /\ page_of 142 50 b' p /\
  char_at p 7 0 = Some (FChar 98 (text_fg b) (text_bg b)) /\ col p = 0 /\ line p = 1 /\ displayed (Term t b').
Proof.
  destruct vga_ready as ([t b] & bs & b0 & E & _ & Hr). destruct (rd_size _ _ _ _ _ _ Hr) as [Ew Eh]. cbn [ctx back] in *.
  change (screen_cols 1280 800) with 142 in *. change (screen_rows 1280 800) with 50 in *.
  pose proof (rd_inv _ _ _ _ _ _ Hr) as [_ Hb]. pose proof (rd_blank _ _ _ _ _ _ Hr) as Hp. cbn [back] in Hb, Hp.
  destruct (kprintf_on_screen 1 20 (fun _ => 0) (const booting) 0 (Lit <$> booting) [] booting [booting] t b _
    (cstr_const booting ltac:(repeat constructor)) ltac:(repeat constructor; discriminate) (literals_render 1 booting [])
    ltac:(vm_compute; discriminate) ltac:(apply Nat.ltb_lt; reflexivity) ltac:(lia) (text_bytes_check booting eq_refl) eq_refl
    (rd_plain _ _ _ _ _ _ Hr ltac:(vm_compute; discriminate)) (rd_autoflush _ _ _ _ _ _ Hr)
    ltac:(rewrite Ew, Eh; exact Hb) ltac:(rewrite Ew, Eh; exact Hp) (rd_shown _ _ _ _ _ _ Hr)) as (Ek & b' & Es & Hp' & Hd).
  rewrite Ew, Eh in Hp'. eexists t, b, bs, b0, b', _. split; [exact E|]. split; [exact Ek|]. split; [exact Es|]. split; [exact Hp'|].
  split_and!; [vm_compute; reflexivity..|exact Hd].
Defined.

(** ** The kernel's terminal *)

(** C4: the kernel's terminal always comes up.  For every framebuffer of at least 9 by 16 pixels whose
    lines do not overlap and whose colours have the same number of bits, at least 8, the call in
    [init_kernel] returns a terminal: the static pool of 873000 bytes is enough at every
    resolution, its six blocks are aligned and do not overlap, the dots of the font are the bits of the
    built-in glyphs, the terminal is well formed, its page is blank, the framebuffer shows it, and
    nothing outside the part of the framebuffer that is used has been written. *)
Theorem kernel_terminal_ready {C : Type} (base address w h pitch : Z) (red green blue : Z * Z) (bg_colour fg_colour : Z) (m : mem) (c : C) :
  0 < base -> 9 <= w < 2 ^ 32 -> 16 <= h < 2 ^ 32 -> 4 * w <= pitch ->
  fst red = fst green -> fst red = fst blue -> 8 <= fst red ->
  exists s bs b', flanterm_fb_init base None None (kernel_args address w h pitch red green blue bg_colour fg_colour) m (Bump 0 false false) c =
      (Done (Some (s, bs)), (b', c)) /\
    bump_allocated_instance b' = true /\ ready base w h m s bs.
Proof. intros. by apply kernel_init_ok. Qed.

Lemma kernel_terminal_ready_witness : exists s bs b',
  flanterm_fb_init 0x10009 None None (kernel_args 0xc0000000 3840 2160 15360 (8, 16) (8, 8) (8, 0) 0x68 0xffffff) (fun _ => 0) (Bump 0 false false) tt =
    (Done (Some (s, bs)), (b', tt)) /\ bump_allocated_instance b' = true /\ ready 0x10009 3840 2160 (fun _ => 0) s bs.
Proof.
  apply (kernel_terminal_ready 0x10009 0xc0000000 3840 2160 15360 (8, 16) (8, 8) (8, 0) 0x68 0xffffff (fun _ => 0) tt);
    [lia|lia|lia|lia|done|done|cbn; lia].
Defined.

(** ** Scrolling regions *)

(** C30: scrolling moves whole lines.  With any margins, [scroll] deletes the first line of the region
    and adds a blank one at its end, and [revscroll] adds a blank one at its beginning and deletes the
    last; the lines outside the region, the cursor and the invariant stay. *)
Theorem scroll_regions_exact (t : flanterm_context) (b : flanterm_fb_context) (p : page) :
  geometry t -> scroll_top_margin t < scroll_bottom_margin t -> fb_inv (cols t) (rows t) b -> page_of (cols t) (rows t) b p ->
  let blank := blank_line (cols t) (text_fg b) (text_bg b) in
  (exists b1, flanterm_fb_scroll t b = Some b1 /\ fb_inv (cols t) (rows t) b1 /\
     page_of (cols t) (rows t) b1 (Page (lines_up (scroll_top_margin t) (scroll_bottom_margin t) blank (lines p)) (col p) (line p))) /\
  (exists b2, flanterm_fb_revscroll t b = Some b2 /\ fb_inv (cols t) (rows t) b2 /\
     page_of (cols t) (rows t) b2 (Page (lines_down (scroll_top_margin t) (scroll_bottom_margin t) blank (lines p)) (col p) (line p))).
Proof. intros Hg Hr Hb Hp. split; [by apply scroll_region|by apply revscroll_region]. Qed.

Lemma scroll_regions_exact_witness : exists t b b1 p,
  flanterm_fb_scroll t b = Some b1 /\ scroll_top_margin t = 2 /\ page_of 142 50 b1 p.
Proof.
  destruct vga_ready as ([t b] & bs & b0 & E & _ & Hr). destruct (rd_size _ _ _ _ _ _ Hr) as [Ew Eh]. cbn [ctx back] in *.
  pose proof (rd_inv _ _ _ _ _ _ Hr) as [Hc Hb]. pose proof (rd_blank _ _ _ _ _ _ Hr) as Hp. cbn [back ctx] in Hb, Hp, Hc.
  change (screen_cols 1280 800) with 142 in *. change (screen_rows 1280 800) with 50 in *.
  destruct (scroll_regions_exact (t <| scroll_top_margin := 2 |> <| scroll_bottom_margin := 40 |>) b _
    ltac:(destruct (cx_geometry _ _ _ Hc); constructor; cbn; lia) ltac:(cbn; lia)
    ltac:(cbn; rewrite Ew, Eh; exact Hb) ltac:(cbn; rewrite Ew, Eh; exact Hp)) as [(b1 & E1 & _ & Hp1) _].
  eexists _, b, b1, _. split; [exact E1|]. split; [reflexivity|]. rewrite <- Ew, <- Eh. exact Hp1.
Defined.

(** ** Unicode *)

(** C31: a code point encoded in UTF-8 arrives.  On a terminal between two characters, the two to four
    bytes of a code point are decoded to that code point, and the page gets its glyph of code page 437,
    or a block of the width of the character, or nothing for a combining one. *)
Theorem utf8_shows_glyphs (t : flanterm_context) (b : flanterm_fb_context) (p : page) (cp : Z) :
  plain t -> fb_inv (cols t) (rows t) b -> page_of (cols t) (rows t) b p -> 128 <= cp < 0x200000 ->
  exists t' b', write_bytes (utf8 cp) (Term t b) = Some (tt, Term t' b') /\ code_point t' = cp /\ plain t' /\
    fb_inv (cols t) (rows t) b' /\ page_of (cols t) (rows t) b' (type_glyphs t (text_fg b) (text_bg b) (glyphs cp) p).
Proof.
  intros Ht Hb Hp Hcp. rewrite (utf8_decodes t Ht cp b Hcp). pose proof (pending_plain t Ht cp) as Ht'.
  destruct (print_code_point_page (pending t 0 cp) Ht' b p) as (b' & E & Hb' & _ & Hp'); [done|done|cbn; rewrite Z.shiftl_0_r; lia|].
  exists (pending t 0 cp), b'. split; [done|]. cbn in Hp'. rewrite Z.shiftl_0_r in Hp'. split; [cbn; apply Z.shiftl_0_r|]. done.
Qed.

(** The full block, one of the glyphs the kernel's font has. *)
Lemma utf8_shows_glyphs_witness : exists t b t' b',
  utf8 0x2588 = [226; 150; 136] /\ glyphs 0x2588 = [219] /\
  write_bytes (utf8 0x2588) (Term t b) = Some (tt, Term t' b') /\ code_point t' = 0x2588.
Proof.
  destruct vga_ready as ([t b] & bs & b0 & E & _ & Hr). destruct (rd_size _ _ _ _ _ _ Hr) as [Ew Eh]. cbn [ctx back] in *.
  pose proof (rd_inv _ _ _ _ _ _ Hr) as [_ Hb]. pose proof (rd_blank _ _ _ _ _ _ Hr) as Hp. cbn [back] in Hb, Hp.
  destruct (utf8_shows_glyphs t b _ 0x2588 (rd_plain _ _ _ _ _ _ Hr ltac:(vm_compute; discriminate))
    ltac:(rewrite Ew, Eh; exact Hb) ltac:(rewrite Ew, Eh; exact Hp) ltac:(lia)) as (t' & b' & Es & Ec & _).
  exists t, b, t', b'. split; [vm_compute; reflexivity|]. split; [vm_compute; reflexivity|]. split; [exact Es|exact Ec].
Defined.

(** The width of a character is looked up exactly.  The binary search reads only inside its table,
    ends, and answers for every code point whether one of the intervals holds it, so [mk_wcwidth] is the
    plain table look-up: 0 for NUL and combining characters, 2 for wide ones, 1 for all others. *)
Theorem widths_exact (ucs : Z) : mk_wcwidth ucs = Some
  (if (ucs =? 0) then 0
   else if (ucs <? 32) || ((127 <=? ucs) && (ucs <? 160)) then 1
   else if in_table ucs combining then 0 else if wide ucs then 2 else 1).
Proof. apply mk_wcwidth_spec. Qed.

(** ** Any back end *)

(** C32: the parser stays well typed with any back end.  If the operations behind the function pointers
    keep their invariant and report a cursor on the screen ([BackendOk]), then every byte in every state
    of the parser is handled, with arguments the operations accept, and leaves a context in which sixteen
    values, a selected character set, margins inside the screen, at most three missing bytes and
    colour numbers below 8 are what the fields hold. *)
Theorem parser_well_typed {B : Type} `{!Backend B} `{!BackendOk B} (w h c : Z) (s : term B) :
  tinv w h s -> 0 <= c < 256 -> exists s', flanterm_putchar c s = Some (tt, s') /\ tinv w h s'.
Proof.
  intros Hs Hc. pose proof (flanterm_putchar_safe w h c Hc s Hs) as H. unfold wp in H.
  destruct (flanterm_putchar c s) as [[[] s']|]; [|done]. by exists s'.
Qed.

Lemma parser_well_typed_witness : exists (s s' : term flanterm_fb_context), flanterm_putchar 27 s = Some (tt, s') /\ tinv 142 50 s'.
Proof.
  destruct vga_ready as (s & bs & b' & _ & _ & Hr). destruct (parser_well_typed _ _ 27 s (rd_inv _ _ _ _ _ _ Hr) ltac:(lia)) as (s' & E & H).
  exists s, s'. split; [exact E|exact H].
Defined.

(** ** Where it does not do what is meant *)

(** On a screen with more lines than columns, a line that wraps below line [cols] goes on in line
    [cols - 1]: the height is compared with the width. *)
Lemma tall_screen_wraps_up t b : geometry t -> cols t <= cursor_x b -> cols t <= cursor_y b + 1 -> cursor_y b + 1 < scroll_bottom_margin t ->
  0 <= cursor_y b -> wrap t b = Some (b <| cursor_x := 0 |> <| cursor_y := cols t - 1 |>).
Proof.
  intros [Hw Hh _ Hbt] Hx Hy Hb H0. unfold wrap. rewrite (proj2 (Z.leb_le _ (cursor_x b))), (proj2 (Z.ltb_lt (cursor_y b) _)), u64_small by lia.
  cbn [andb orb]. change (cursor_y (b <| cursor_x := 0 |> <| cursor_y := cursor_y b + 1 |>)) with (cursor_y b + 1). cbv zeta.
  rewrite (proj2 (Z.eqb_neq _ (scroll_bottom_margin t))) by lia. cbn [mbind option_bind].
  change (cursor_y (b <| cursor_x := 0 |> <| cursor_y := cursor_y b + 1 |>)) with (cursor_y b + 1).
  rewrite (proj2 (Z.leb_le (cols t) _)) by lia. done.
Qed.

(** [ESC [ ?] cancelled by [CAN] still marks the next control sequence as private: [ESC [ 2 J] then
    clears nothing. *)
Lemma cancelled_private_sticks (b : flanterm_fb_context) :
  exists t', write_bytes [27; 91; 63; 24; 27; 91; 50; 74] (Term (fresh_context 25 80) b) = Some (tt, Term t' b).
Proof. eexists. vm_compute. reflexivity. Qed.

(** A refresh while a character is queued under the cursor: the next character put there is lost. *)
Section Refresh.
Let k : fb_config := FbConfig 1 1 1 1 1 1 0 0 4096 8 2 1 16 8 0 (replicate 256 false) (replicate 8 0) (replicate 8 0) 1 2 3 4 0.
Let t : flanterm_context := fresh_context 1 2.
Let steps (m : mem) : option (list flanterm_fb_char) :=
  b ← flanterm_fb_raw_putchar t 65 (fresh k 2 m);
  b ← flanterm_fb_full_refresh t (flanterm_fb_set_cursor_pos t 0 0 b);
  b ← flanterm_fb_raw_putchar t 66 b;
  b ← flanterm_fb_double_buffer_flush t b;
  Some (grid b).

Lemma refresh_loses_character m : steps m = Some [FChar 65 1 TRANSPARENT; FChar 32 1 TRANSPARENT].
Proof. vm_compute. reflexivity. Qed.
End Refresh.
