(* ===== verification/Keyboard.v ===== *)
(** * Keyboard and shell, [src/src/drivers/keyboard.c]

    The interrupt handler puts scancodes into a ring buffer; the shell's idle loop
    takes them out, decodes them, edits a line and runs it as a command. *)

From stdpp Require Import strings.
From S2P Require Import Prelude Mem CString Kmem Printf.

(** ** The ring buffer *)

Definition KBD_BUF : Z := 128.

Record ring := Ring { kbd_buf : list Z; kbd_head : Z; kbd_tail : Z }.

(** [keyboardhandler], with the byte read from port 0x60. *)
Definition keyboardhandler (r : ring) (sc : Z) : ring :=
  let next := (kbd_head r + 1) mod KBD_BUF in
  if negb (next =? kbd_tail r)
  then Ring (<[Z.to_nat (kbd_head r) := sc]> (kbd_buf r)) next (kbd_tail r)
  else r.

(** One round of the loop of [keyboard_poll] in the two steps between which an
    interrupt can come: reading the slot, then moving the tail. *)
Definition poll_read (r : ring) : option Z :=
  if negb (kbd_tail r =? kbd_head r) then kbd_buf r !! Z.to_nat (kbd_tail r) else None.
Definition poll_advance (r : ring) : ring :=
  Ring (kbd_buf r) (kbd_head r) ((kbd_tail r + 1) mod KBD_BUF).

(** The ring as the static initialisation leaves it. *)
Definition ring_init : ring := Ring (replicate 128 0) 0 0.

(** ** Key codes *)

Definition UNKNOWN : Z := 256.
Definition ESC : Z := 257.
Definition CTRL : Z := 258.
Definition LSHFT : Z := 259.
Definition RSHFT : Z := 260.
Definition ALT : Z := 261.
Definition F1 : Z := 262.
Definition F2 : Z := 263.
Definition F3 : Z := 264.
Definition F4 : Z := 265.
Definition F5 : Z := 266.
Definition F6 : Z := 267.
Definition F7 : Z := 268.
Definition F8 : Z := 269.
Definition F9 : Z := 270.
Definition F10 : Z := 271.
Definition F11 : Z := 272.
Definition F12 : Z := 273.
Definition SCRLCK : Z := 274.
Definition HOME : Z := 275.
Definition UP : Z := 276.
Definition LEFT : Z := 277.
Definition RIGHT : Z := 278.
Definition DOWN : Z := 279.
Definition PGUP : Z := 280.
Definition PGDOWN : Z := 281.
Definition END : Z := 282.
Definition INS : Z := 283.
Definition DEL : Z := 284.
Definition CAPS : Z := 285.
Definition NUMLCK : Z := 288.

(** Backspace, tab, newline, backslash and the two quotes are written by code. *)
Definition lowercase : list Z :=
  [UNKNOWN; ESC] ++ chars "1234567890-=" ++ [8; 9] ++ chars "qwertyuiop[]" ++ [10; CTRL] ++
  chars "asdfghjkl;" ++ [39] ++ chars "`" ++ [LSHFT; 92] ++ chars "zxcvbnm,./" ++ [RSHFT; 42; ALT; 32; CAPS] ++
  [F1; F2; F3; F4; F5; F6; F7; F8; F9; F10; NUMLCK; SCRLCK; HOME; UP; PGUP; 45; LEFT; UNKNOWN; RIGHT; 43; END;
   DOWN; PGDOWN; INS; DEL; UNKNOWN; UNKNOWN; UNKNOWN; F11; F12] ++ replicate 39 UNKNOWN.

Definition uppercase : list Z :=
  [UNKNOWN; ESC] ++ chars "!@#$%^&*()_+" ++ [8; 9] ++ chars "QWERTYUIOP{}" ++ [10; CTRL] ++
  chars "ASDFGHJKL:" ++ [34] ++ chars "~" ++ [LSHFT; 124] ++ chars "ZXCVBNM<>?" ++ [RSHFT; 42; ALT; 32; CAPS] ++
  [F1; F2; F3; F4; F5; F6; F7; F8; F9; F10; NUMLCK; SCRLCK; HOME; UP; PGUP; 45; LEFT; UNKNOWN; RIGHT; 43; END;
   DOWN; PGDOWN; INS; DEL; UNKNOWN; UNKNOWN; UNKNOWN; F11; F12] ++ replicate 39 UNKNOWN.

(** ** Running a line *)

Inductive command := Clear | Reboot | Shutdown | Ls | Help.

(** The table: name, help text and the function to call. *)
Definition commands : list (list Z * list Z * command) :=
  [(chars "clear", chars "clear the screen", Clear); (chars "reboot", chars "restart the machine", Reboot);
   (chars "shutdown", chars "power off", Shutdown); (chars "ls", chars "list files", Ls);
   (chars "help", chars "list commands", Help)].

(** [cmd_help]: one [kprintf] per entry of the table. *)
Definition cmd_help (fuel : nat) (stack : mem) : option (list kpend) :=
  mapM (fun e : list Z * list Z * command =>
    kprintf fuel stack (const (chars "  %s - %s" ++ [10]), 0) [VStr (const e.1.1, 0); VStr (const e.1.2, 0)]) commands.

(** The calls the shell makes, in order: text echoed to the console, a command run
    with its [argv], the "Unknown command" message about a word.  The pointers are
    offsets in the line buffer, which an event shows as it is at the call. *)
Inductive event := Echo (l : list Z) | Run (c : command) (line : mem) (argv : list Z) | Unknown (line : mem) (word : Z).

(** The line buffer has 100 bytes, so no scan of it takes more than 101 rounds. *)
Definition LINE_FUEL : nat := 101.

Definition skip_spaces (m : mem) (s : Z) : option (mem * Z) :=
  wloop LINE_FUEL (fun p : mem * Z =>
    let (m, s) := p in
    if ld8 m s =? 32 then inr (st8 m s 0, s + 1) else inl (m, s)) (m, s).

Definition word_end (m : mem) (s : Z) : option Z :=
  wloop LINE_FUEL (fun s => if truthy (ld8 m s) && negb (ld8 m s =? 32) then inr (s + 1) else inl s) s.

(** The outer loop: [argv] so far. *)
Fixpoint tokenise (fuel : nat) (m : mem) (s : Z) (argv : list Z) : option (mem * list Z) :=
  match fuel with
  | O => None
  | S fuel' =>
      if truthy (ld8 m s) && (length argv <? 16)%nat then
        '(m, s) ← skip_spaces m s;
        if negb (truthy (ld8 m s)) then Some (m, argv)
        else e ← word_end m s; tokenise fuel' m e (argv ++ [s])
      else Some (m, argv)
  end.

(** The loop over the table. *)
Fixpoint find_command (m : mem) (word : Z) (cs : list (list Z * list Z * command)) : option (option command) :=
  match cs with
  | [] => Some None
  | (name, _, c) :: cs' =>
      r ← strcmp2 LINE_FUEL m word (const name) 0;
      if r =? 0 then Some (Some c) else find_command m word cs'
  end.

Definition run_line (m : mem) (s : Z) : option (mem * list event) :=
  '(m, argv) ← tokenise 17 m s [];
  match argv with
  | [] => Some (m, [])
  | w :: _ =>
      o ← find_command m w commands;
      Some (m, [match o with Some c => Run c m argv | None => Unknown m w end])
  end.

(** ** The line editor *)

(** [line] is at address 0 of its own memory. *)
Record kbd := Kbd {
  shift_down : bool;
  caps_lock : bool;
  extended : bool;
  line : mem;
  line_len : Z }.

Definition set_line (k : kbd) (m : mem) (n : Z) : kbd := Kbd (shift_down k) (caps_lock k) (extended k) m n.

Definition prompt : list Z := chars "tusos-->".

Definition line_input (k : kbd) (ch : Z) : option (kbd * list event) :=
  if ch =? 10 then
    '(m, es) ← run_line (st8 (line k) (line_len k) 0) 0;
    Some (set_line k m 0, [Echo [10]] ++ es ++ [Echo prompt])
  else if ch =? 8 then
    if truthy (line_len k) then Some (set_line k (line k) (line_len k - 1), [Echo [8; 32; 8]]) else Some (k, [])
  else if line_len k <? 100 - 1 then
    Some (set_line k (st8 (line k) (line_len k) ch) (line_len k + 1), [Echo [ch]])
  else Some (k, []).

(** ** Decoding *)

Definition handle_scancode (k : kbd) (raw : Z) : option (kbd * list event) :=
  if raw =? 224 then Some (Kbd (shift_down k) (caps_lock k) true (line k) (line_len k), [])
  else
    let ext := extended k in
    let k := Kbd (shift_down k) (caps_lock k) false (line k) (line_len k) in
    if ext then Some (k, [])
    else
      let released := truthy (raw &&& 128) in
      let code := raw &&& 127 in
      key ← lowercase !! Z.to_nat code;
      if (key =? LSHFT) || (key =? RSHFT)
      then Some (Kbd (negb released) (caps_lock k) false (line k) (line_len k), [])
      else if key =? CAPS
      then Some (Kbd (shift_down k) (if released then caps_lock k else negb (caps_lock k)) false (line k) (line_len k), [])
      else if released || (127 <? key) then Some (k, [])
      else
        let letter := (97 <=? key) && (key <=? 122) in
        let upper := xorb (shift_down k) (caps_lock k && letter) in
        up ← uppercase !! Z.to_nat code;
        line_input k (u8 (if upper then up else key)).

Definition kbd_init : kbd := Kbd false false false (fun _ => 0) 0.

(** [keyboard_poll]: take scancodes out until the buffer is empty; [fuel] bounds
    the number taken.  The answer holds the events in order. *)
Fixpoint keyboard_poll (fuel : nat) (r : ring) (k : kbd) (acc : list event) : option (ring * kbd * list event) :=
  match fuel with
  | O => None
  | S fuel' =>
      if negb (kbd_tail r =? kbd_head r) then
        sc ← kbd_buf r !! Z.to_nat (kbd_tail r);
        '(k, es) ← handle_scancode k sc;
        keyboard_poll fuel' (poll_advance r) k (acc ++ es)
      else Some (r, k, acc)
  end.

(** [keyboard_idle]: poll, and sleep for a tick when nothing is waiting; the answer
    says whether it sleeps. *)
Definition keyboard_idle (fuel : nat) (r : ring) (k : kbd) : option (ring * kbd * list event * bool) :=
  '(r, k, es) ← keyboard_poll fuel r k [];
  Some (r, k, es, kbd_tail r =? kbd_head r).

(** [slice], with the string in the heap's memory; NULL is 0. *)
Definition slice (h : kheap) (str start end_ : Z) : option (kheap * Z) :=
  let len := u64 (end_ - start) in
  '(h, result) ← kmalloc h (u64 (len + 1));
  if result =? 0 then Some (h, 0)
  else
    let m := memcpy (kmem h) result (str + start) len in
    Some (with_mem h (st8 m (result + len) 0), result).
