(* ===== verification/KeyboardProps.v ===== *)
(** * Correctness of the keyboard driver and the shell

    The ring buffer as a queue shared with the interrupt handler; the line editor,
    the decoder and the tokeniser against an abstract shell that works on lists. *)

From stdpp Require Import strings.
From S2P Require Import Prelude Mem CString Printf PrintfProps Keyboard.

(** ** The ring buffer is a queue *)

Definition ring_ok (r : ring) : Prop :=
  length (kbd_buf r) = 128%nat /\ 0 <= kbd_head r < KBD_BUF /\ 0 <= kbd_tail r < KBD_BUF.

Definition count (r : ring) : Z := (kbd_head r - kbd_tail r) mod KBD_BUF.

Definition slot (r : ring) (i : nat) : Z := nth (Z.to_nat ((kbd_tail r + Z.of_nat i) mod KBD_BUF)) (kbd_buf r) 0.

(** The scancodes waiting, the oldest first. *)
Definition queue (r : ring) : list Z := slot r <$> seq 0 (Z.to_nat (count r)).

Lemma count_range r : 0 <= count r < 128.
Proof. unfold count, KBD_BUF. apply Z.mod_pos_bound. lia. Qed.

Lemma queue_length r : Z.of_nat (length (queue r)) = count r.
Proof. unfold queue. rewrite length_fmap, length_seq. pose proof (count_range r). lia. Qed.

Lemma ring_init_ok : ring_ok ring_init /\ queue ring_init = [].
Proof. by unfold ring_ok. Qed.

(** [count] tells whether the two indices meet. *)
Lemma count_zero r : ring_ok r -> count r = 0 <-> kbd_tail r = kbd_head r.
Proof.
  intros (_ & Hh & Ht). unfold count, KBD_BUF in *.
  split; intros H; [Z.div_mod_to_equations; lia|rewrite H, Z.sub_diag; done].
Qed.

Lemma count_full r : ring_ok r -> count r = 127 <-> (kbd_head r + 1) mod KBD_BUF = kbd_tail r.
Proof. intros (_ & Hh & Ht). unfold count, KBD_BUF in *. split; intros H; Z.div_mod_to_equations; lia. Qed.

(** The interrupt handler appends, or drops the scancode when 127 are waiting. *)
Lemma handler_full r sc : ring_ok r -> count r = 127 -> keyboardhandler r sc = r.
Proof.
  intros Hr Hc. apply count_full in Hc; [|done]. unfold keyboardhandler. rewrite Hc, Z.eqb_refl. done.
Qed.

Lemma handler_room r sc :
  ring_ok r -> count r <> 127 ->
  ring_ok (keyboardhandler r sc) /\ kbd_tail (keyboardhandler r sc) = kbd_tail r /\
  queue (keyboardhandler r sc) = queue r ++ [sc].
Proof.
  intros Hr Hc. pose proof (count_range r) as Hcr. pose proof Hr as (Hl & Hh & Ht).
  assert (Hn : (kbd_head r + 1) mod KBD_BUF <> kbd_tail r) by (rewrite <- count_full; done).
  unfold keyboardhandler. rewrite (proj2 (Z.eqb_neq _ _) Hn). cbn [negb].
  set (r' := Ring _ _ _).
  assert (Hr' : ring_ok r').
  { unfold ring_ok. subst r'. cbn [kbd_buf kbd_head kbd_tail]. rewrite length_insert.
    split_and_all; [done|unfold KBD_BUF; apply Z.mod_pos_bound; lia..| |]; lia. }
  assert (Hc' : count r' = count r + 1).
  { unfold count, KBD_BUF in *. subst r'. cbn [kbd_head kbd_tail]. Z.div_mod_to_equations; lia. }
  assert (Hat : forall i, Z.of_nat i < count r ->
    (kbd_tail r + Z.of_nat i) mod KBD_BUF <> kbd_head r).
  { intros i Hi. unfold count, KBD_BUF in *. Z.div_mod_to_equations; lia. }
  split_and_all; [done|done|]. unfold queue. rewrite Hc'.
  replace (Z.to_nat (count r + 1)) with (Z.to_nat (count r) + 1)%nat by lia.
  rewrite seq_app, fmap_app. f_equal.
  - apply list_fmap_ext. intros _ i Hi%list_elem_of_lookup_2%elem_of_seq. unfold slot. subst r'. cbn [kbd_buf kbd_tail].
    rewrite !nth_lookup. rewrite list_lookup_insert_ne; [done|].
    intros He. apply (Hat i); [lia|]. pose proof (Z.mod_pos_bound (kbd_tail r + Z.of_nat i) KBD_BUF ltac:(done)). lia.
  - cbn. f_equal. unfold slot. subst r'. cbn [kbd_buf kbd_tail]. rewrite nth_lookup.
    replace ((kbd_tail r + Z.of_nat (Z.to_nat (count r))) mod KBD_BUF) with (kbd_head r).
    + rewrite list_lookup_insert_eq; [done|]. rewrite Hl. unfold KBD_BUF in *. lia.
    + rewrite Z2Nat.id by lia. unfold count, KBD_BUF in *. Z.div_mod_to_equations; lia.
Qed.

(** The consumer sees the oldest scancode, and drops it. *)
Lemma poll_cases r :
  ring_ok r ->
  match poll_read r with
  | Some sc => exists q, queue r = sc :: q /\ ring_ok (poll_advance r) /\ queue (poll_advance r) = q /\
                         kbd_buf r !! Z.to_nat (kbd_tail r) = Some sc /\ kbd_tail r <> kbd_head r
  | None => queue r = [] /\ kbd_tail r = kbd_head r
  end.
Proof.
  intros Hr. pose proof (count_range r) as Hcr. pose proof Hr as (Hl & Hh & Ht). unfold poll_read.
  destruct (kbd_tail r =? kbd_head r) eqn:E; bool_to_prop; cbn [negb].
  - split; [|done]. apply count_zero in E; [|done]. unfold queue. by rewrite E.
  - destruct (lookup_lt_is_Some_2 (kbd_buf r) (Z.to_nat (kbd_tail r))) as [sc Hsc];
      [rewrite Hl; unfold KBD_BUF in *; lia|]. rewrite Hsc.
    assert (Hne : count r <> 0) by (rewrite count_zero; done).
    exists (slot r <$> seq 1 (Z.to_nat (count r - 1))). split_and_all; [| | |done|done].
    + unfold queue. replace (Z.to_nat (count r)) with (S (Z.to_nat (count r - 1))) by lia.
      cbn. f_equal. unfold slot. rewrite nth_lookup, Z.add_0_r, Z.mod_small, Hsc by done. done.
    + unfold ring_ok, poll_advance. cbn [kbd_buf kbd_head kbd_tail].
      split_and_all; [done|lia|lia|unfold KBD_BUF; apply Z.mod_pos_bound; lia..].
    + assert (count (poll_advance r) = count r - 1) as Hc.
      { unfold count, poll_advance in *. cbn [kbd_head kbd_tail]. rewrite Zminus_mod_idemp_r.
        unfold KBD_BUF in *. Z.div_mod_to_equations; lia. }
      unfold queue. rewrite Hc, <- (fmap_S_seq 0), <- list_fmap_compose. apply list_fmap_ext. intros _ i _. cbn.
      unfold slot. cbn [poll_advance kbd_tail kbd_buf]. f_equal. f_equal. unfold KBD_BUF.
      rewrite Z.add_mod_idemp_l by lia. f_equal. lia.
Qed.

(** The interrupt handler and the polling loop, interleaved between any two accesses:
    [pending] is the scancode the loop has read and not yet released, [accepted] and
    [handled] what went in and came out so far. *)
Record link := Link { rg : ring; pending : option Z; accepted : list Z; handled : list Z }.

Inductive lstep (l : link) : link -> Prop :=
| l_interrupt sc :
    0 <= sc < 256 ->
    lstep l (Link (keyboardhandler (rg l) sc) (pending l)
      (if (kbd_head (rg l) + 1) mod KBD_BUF =? kbd_tail (rg l) then accepted l else accepted l ++ [sc]) (handled l))
| l_read sc :
    pending l = None -> poll_read (rg l) = Some sc -> lstep l (Link (rg l) (Some sc) (accepted l) (handled l))
| l_advance sc :
    pending l = Some sc -> lstep l (Link (poll_advance (rg l)) None (accepted l) (handled l ++ [sc])).

Definition link_init : link := Link ring_init None [] [].

Definition link_inv (l : link) : Prop :=
  ring_ok (rg l) /\ accepted l = handled l ++ queue (rg l) /\
  (forall sc, pending l = Some sc -> poll_read (rg l) = Some sc).

Lemma link_inv_step l l' : lstep l l' -> link_inv l -> link_inv l'.
Proof.
  intros Hs (Hr & Ha & Hp). destruct Hs as [sc Hsc|sc Hn Hrd|sc Hsc].
  - destruct (Z.eqb_spec ((kbd_head (rg l) + 1) mod KBD_BUF) (kbd_tail (rg l))) as [E|E].
    + assert (count (rg l) = 127) as Hc by by apply count_full. unfold link_inv. cbn. by rewrite handler_full.
    + assert (count (rg l) <> 127) as Hc by (rewrite count_full; done).
      destruct (handler_room (rg l) sc Hr Hc) as (H1 & H2 & H3). unfold link_inv. cbn [rg pending accepted handled].
      split_and_all; [done|by rewrite H3, Ha, app_assoc|]. intros s Hs%Hp.
      pose proof (poll_cases _ Hr) as C. rewrite Hs in C. destruct C as (q & Hq & _).
      pose proof (poll_cases _ H1) as C'. destruct (poll_read (keyboardhandler (rg l) sc)) as [s'|].
      * destruct C' as (q' & Hq' & _). rewrite H3, Hq in Hq'. by injection Hq' as ->.
      * destruct C' as [Hq' _]. rewrite H3 in Hq'. by destruct (queue (rg l)).
  - unfold link_inv. cbn. split_and_all; [done|done|]. by intros s [= <-].
  - specialize (Hp sc Hsc). pose proof (poll_cases _ Hr) as C. rewrite Hp in C.
    destruct C as (q & Hq & H1 & H2 & _). unfold link_inv. cbn. split_and_all; [done| |done].
    rewrite H2, Ha, Hq, <- app_assoc. done.
Qed.

Lemma link_inv_reach l : rtc lstep link_init l -> link_inv l.
Proof.
  assert (H : forall a b, rtc lstep a b -> link_inv a -> link_inv b).
  { induction 1 as [|a b c H1 _ IH]; [done|]. intros Ha. apply IH. by eapply link_inv_step. }
  intros Hr. apply (H _ _ Hr). destruct ring_init_ok. by split_and_all.
Qed.

(** C33: the keyboard's ring buffer loses no order and no scancode it accepted,
    however the interrupt handler interleaves with the polling loop.  At every moment
    the accepted scancodes are the handled ones followed by those still in the buffer;
    the slot the loop has read is not overwritten before it is released; a scancode is
    dropped only when 127 are waiting. *)
Theorem scancodes_fifo (l : link) :
  rtc lstep link_init l ->
  accepted l = handled l ++ queue (rg l) /\ (length (queue (rg l)) <= 127)%nat /\
  (forall sc, pending l = Some sc -> exists q, queue (rg l) = sc :: q) /\
  (forall sc, (length (queue (rg l)) < 127)%nat -> queue (keyboardhandler (rg l) sc) = queue (rg l) ++ [sc]).
Proof.
  intros H. destruct (link_inv_reach l H) as (Hr & Ha & Hp).
  pose proof (queue_length (rg l)) as Hq. pose proof (count_range (rg l)).
  split_and_all; [done|lia| |].
  - intros sc Hs%Hp. pose proof (poll_cases _ Hr) as C. rewrite Hs in C. destruct C as (q & ? & _). eauto.
  - intros sc Hl. apply handler_room; [done|lia].
Qed.

Lemma scancodes_fifo_witness :
  exists l, rtc lstep link_init l /\ pending l = Some 30 /\ accepted l = handled l ++ queue (rg l) /\
    queue (rg l) = [30; 48].
Proof.
  eexists. split; [|split; [|split]].
  - eapply rtc_l; [apply (l_interrupt link_init 30); lia|].
    eapply rtc_l; [apply (l_read _ 30); reflexivity|].
    eapply rtc_l; [apply (l_interrupt _ 48); lia|]. apply rtc_refl.
  - reflexivity.
  - apply scancodes_fifo.
    eapply rtc_l; [apply (l_interrupt link_init 30); lia|].
    eapply rtc_l; [apply (l_read _ 30); reflexivity|].
    eapply rtc_l; [apply (l_interrupt _ 48); lia|]. apply rtc_refl.
  - reflexivity.
Defined.
