(* ===== verification/ShellProps.v ===== *)
(** * The shell against an abstract one

    The line editor, the decoder and the tokeniser of [Keyboard] implement a shell
    that keeps the line as a list and splits it into words. *)

From stdpp Require Import strings.
From S2P Require Import Prelude Mem CString Printf PrintfProps Keyboard KeyboardProps.

(** ** Words *)

Definition flush (cur : list Z) : list (list Z) := if (length cur =? 0)%nat then [] else [cur].

(** Split at spaces; [cur] is the word being read. *)
Fixpoint split_words (cur t : list Z) : list (list Z) :=
  match t with
  | [] => flush cur
  | c :: t' => if c =? 32 then flush cur ++ split_words [] t' else split_words (cur ++ [c]) t'
  end.

Definition words (t : list Z) : list (list Z) := split_words [] t.

Definition nospace (w : list Z) : Prop := Forall (fun c => c <> 32) w.

Lemma split_words_word cur w rest :
  nospace w -> split_words cur (w ++ rest) = split_words (cur ++ w) rest.
Proof.
  revert cur. induction w as [|c w IH]; intros cur Hw; cbn [app]; [by rewrite app_nil_r|].
  apply Forall_cons in Hw as [Hc Hw]. cbn [split_words]. rewrite (proj2 (Z.eqb_neq c 32) Hc), IH by done.
  by rewrite <- app_assoc.
Qed.

(** A text is spaces, a word without spaces, and a rest that starts with a space. *)
Lemma words_spaces n rest : words (replicate n 32 ++ rest) = words rest.
Proof. induction n as [|n IH]; [done|]. exact IH. Qed.

Lemma words_word w rest :
  w <> [] -> nospace w -> (rest = [] \/ exists r, rest = 32 :: r) -> words (w ++ rest) = w :: words rest.
Proof.
  intros Hne Hw Hr. unfold words. rewrite split_words_word by done. cbn [app].
  assert (Hfl : flush w = [w]) by by destruct w.
  destruct Hr as [-> | [r ->]]; cbn [split_words Z.eqb Pos.eqb]; by rewrite Hfl.
Qed.

(** ** The scans *)

(** Leading spaces of a text. *)
Fixpoint lead (t : list Z) : nat :=
  match t with c :: t' => if c =? 32 then S (lead t') else O | [] => O end.

Lemma lead_split t : exists rest, t = replicate (lead t) 32 ++ rest /\ head rest <> Some 32.
Proof.
  induction t as [|c t (rest & Ht & Hh)]; [by exists []|]. cbn [lead]. case_if.
  - subst c. exists rest. split; [|done]. cbn. by rewrite Ht at 1.
  - exists (c :: t). split; [done|]. cbn. congruence.
Qed.

Fixpoint first_word (t : list Z) : list Z :=
  match t with c :: t' => if c =? 32 then [] else c :: first_word t' | [] => [] end.

Lemma first_word_split t :
  exists rest, t = first_word t ++ rest /\ nospace (first_word t) /\ (rest = [] \/ exists r, rest = 32 :: r).
Proof.
  induction t as [|c t (rest & Ht & Hn & Hr)]; [exists []; split_and_all; [done|constructor|auto]|].
  cbn [first_word]. case_if.
  - subst c. exists (32 :: t). split_and_all; [done|constructor|eauto].
  - exists rest. split_and_all; [cbn; by rewrite Ht at 1|by constructor|done].
Qed.

Lemma skip_spaces_from n rest m s fuel :
  cstr m s (replicate n 32 ++ rest) -> head rest <> Some 32 -> (n < fuel)%nat ->
  exists m', wloop fuel (fun p : mem * Z =>
      let (m, s) := p in if ld8 m s =? 32 then inr (st8 m s 0, s + 1) else inl (m, s)) (m, s)
    = Some (m', s + Z.of_nat n) /\
    (forall x, x < s \/ s + Z.of_nat n <= x -> m' x = m x) /\ (forall x, s <= x < s + Z.of_nat n -> m' x = 0).
Proof.
  revert m s fuel. induction n as [|n IH]; intros m s fuel Hc Hh Hf; (destruct fuel as [|fuel]; [lia|]); cbn [wloop].
  - replace (ld8 m s =? 32) with false.
    + exists m. rewrite Z.add_0_r. split_and_all; [done|done|lia].
    + symmetry. apply Z.eqb_neq. intros E. destruct rest as [|c rest]; cbn in Hc; [lia|].
      destruct Hc as (<- & _). by rewrite E in Hh.
  - cbn [replicate app cstr] in Hc. destruct Hc as (H1 & _ & Hc). rewrite H1. cbn [Z.eqb Pos.eqb].
    destruct (IH (st8 m s 0) (s + 1) fuel) as (m' & Hw & Ho & Hz); [|done|lia|].
    { apply (cstr_ext m); [|done]. apply agree_st8. lia. }
    exists m'. rewrite Hw. split_and_all; [f_equal; f_equal; lia| |].
    + intros x Hx. rewrite Ho by lia. apply st8_other. lia.
    + intros x Hx. destruct (decide (x = s)) as [->|]; [|apply Hz; lia]. rewrite Ho by lia. apply st8_same.
Qed.

Lemma word_end_from m s w rest fuel :
  cstr m s (w ++ rest) -> nospace w -> (rest = [] \/ exists r, rest = 32 :: r) -> (length w < fuel)%nat ->
  wloop fuel (fun s => if truthy (ld8 m s) && negb (ld8 m s =? 32) then inr (s + 1) else inl s) s
  = Some (s + Z.of_nat (length w)).
Proof.
  revert s fuel. induction w as [|c w IH]; intros s fuel Hc Hn Hr Hf;
    (destruct fuel as [|fuel]; [cbn in Hf; lia|]); cbn [wloop length app] in *.
  - rewrite Z.add_0_r. destruct Hr as [-> | [r ->]]; cbn [cstr] in Hc; [by rewrite Hc|].
    destruct Hc as (-> & _). done.
  - destruct Hc as (H1 & H2 & Hc). apply Forall_cons in Hn as [Hn1 Hn]. rewrite H1, (truthy_nz c H2).
    rewrite (proj2 (Z.eqb_neq c 32) Hn1). cbn [andb negb]. rewrite IH by (done || lia). f_equal. lia.
Qed.

(** ** The tokeniser *)

(** What the tokeniser finds in the text [t] at [s] when it has [k] words already:
    at most 16 in all, of which the first 15 are ended by a NUL. *)
Record tokens (m m' : mem) (s : Z) (t : list Z) (k : nat) (ps : list Z) : Prop := {
  tok_count : length ps = Nat.min (16 - k) (length (words t));
  tok_words : forall i p w, ps !! i = Some p -> words t !! i = Some w -> (k + i < 15)%nat -> cstr m' p w;
  tok_below : forall x, x < s -> m' x = m x;
  tok_above : forall x, s + Z.of_nat (length t) <= x -> m' x = m x;
  tok_ended : (k < 16)%nat -> head t = Some 32 \/ t = [] -> ld8 m' s = 0 }.

Lemma tokens_stop m s t k : ld8 m s = 0 \/ (16 <= k)%nat -> cstr m s t -> tokens m m s t k [].
Proof.
  intros Hstop Hc. assert (Ht : t = [] \/ (16 <= k)%nat).
  { destruct Hstop as [Hz|]; [|by right]. left. destruct t as [|c t]; [done|]. destruct Hc as (? & ? & _). lia. }
  constructor; try done.
  - destruct Ht as [-> | Ht]; cbn [length]; [by rewrite Nat.min_0_r|]. lia.
  - intros Hk [Hh|Hh]; [|by rewrite Hh in Hc]. destruct Ht as [-> | Ht]; [done|lia].
Qed.

Lemma cstr_spaces m s n rest : cstr m s (replicate n 32 ++ rest) -> cstr m (s + Z.of_nat n) rest.
Proof. intros H. apply cstr_app in H as [_ H]. by rewrite length_replicate in H. Qed.

Lemma tokenise_spec fuel m s t argv :
  cstr m s t -> (length t < 101)%nat -> (17 <= fuel + length argv)%nat -> (length argv <= 16)%nat ->
  exists m' ps, tokenise fuel m s argv = Some (m', argv ++ ps) /\ tokens m m' s t (length argv) ps.
Proof.
  revert m s t argv. induction fuel as [|fuel IH]; intros m s t argv Hc Ht Hf Ha; [lia|]. cbn [tokenise].
  destruct (truthy (ld8 m s) && (length argv <? 16)%nat) eqn:E.
  2: { exists m, []. rewrite app_nil_r. split; [done|]. apply tokens_stop; [|done].
       apply andb_false_iff in E as [E|E]; [left; by apply truthy_false|right; by apply Nat.ltb_ge]. }
  apply andb_true_iff in E as [E1 E2%Nat.ltb_lt]. apply truthy_iff in E1.
  destruct (lead_split t) as (t1 & Et & Hh). set (n := lead t) in *.
  assert (Hlen : length t = (n + length t1)%nat) by (rewrite Et at 1; by rewrite length_app, length_replicate).
  rewrite Et in Hc. destruct (skip_spaces_from n t1 m s LINE_FUEL Hc Hh) as (m1 & Hsk & Ho & Hz);
    [unfold LINE_FUEL; lia|].
  unfold skip_spaces. rewrite Hsk. cbn [mbind option_bind]. set (s1 := s + Z.of_nat n) in *.
  assert (Hc1 : cstr m1 s1 t1).
  { apply (cstr_ext m); [|by apply cstr_spaces]. intros x Hx. apply Ho. lia. }
  assert (Hend : head t = Some 32 \/ t = [] -> m1 s = 0 /\ s < s1).
  { intros [Hhd|Hnil]; [|rewrite Hnil in *; cbn in Et; destruct t1; cbn in Hlen; [|lia]; exfalso; apply E1;
      assert (n = 0%nat) as Hn0 by lia; rewrite Hn0 in Hc; exact Hc].
    destruct t as [|c t']; [done|]. injection Hhd as ->. assert (n = S (lead t')) as Hn by done.
    split; [apply Hz|]; lia. }
  assert (Hws : words t = words t1) by (rewrite Et; apply words_spaces).
  destruct (truthy (ld8 m1 s1)) eqn:E3; cbn [negb].
  - apply truthy_iff in E3. destruct (first_word_split t1) as (t2 & Et1 & Hns & Hr2). set (w := first_word t1) in *.
    assert (Hw0 : w <> []).
    { intros Hw0. rewrite Hw0 in Et1. cbn in Et1. subst t2. destruct Hr2 as [-> | [r ->]]; [by cbn in Hc1|done]. }
    assert (Hl1 : length t1 = (length w + length t2)%nat) by (rewrite Et1 at 1; apply length_app).
    rewrite Et1 in Hc1. unfold word_end. rewrite (word_end_from m1 s1 w t2 LINE_FUEL Hc1 Hns Hr2)
      by (unfold LINE_FUEL; lia).
    cbn [mbind option_bind]. set (e := s1 + Z.of_nat (length w)) in *.
    destruct (cstr_app _ _ _ _ Hc1) as [Hhw Hc2]. fold e in Hc2.
    destruct (IH m1 e t2 (argv ++ [s1])) as (m2 & ps & Htk & [T1 T2 T3 T4 T5]);
      [done|lia|rewrite length_app; cbn [length]; lia|rewrite length_app; cbn [length]; lia|].
    rewrite length_app in T1, T2, T5. cbn [length] in T1, T2, T5.
    exists m2, (s1 :: ps). rewrite Htk, <- app_assoc. split; [done|].
    assert (Hwt : words t = w :: words t2) by (rewrite Hws, Et1; by apply words_word).
    constructor.
    + rewrite Hwt. cbn [length]. lia.
    + intros i p w' Hi Hw' Hk. rewrite Hwt in Hw'. destruct i as [|i]; cbn in Hi, Hw'.
      * injection Hi as <-. injection Hw' as <-. apply holds_cstr.
        -- apply (holds_ext m1); [|done]. intros x Hx. apply T3. lia.
        -- assert (Hnz : Forall (fun c => c <> 0) (w ++ t2)).
           { apply Forall_lookup. intros j c Hj. by destruct (cstr_byte _ _ _ Hc1 j c Hj). }
           by apply Forall_app in Hnz as [? _].
        -- apply T5; [lia|]. destruct Hr2 as [-> | [r ->]]; auto.
      * eapply T2; [done|done|lia].
    + intros x Hx. rewrite T3, Ho by lia. done.
    + intros x Hx. rewrite T4, Ho by lia. done.
    + intros _ Hhd. destruct (Hend Hhd) as [Hm1 Hlt]. unfold ld8. rewrite T3 by lia. by rewrite Hm1.
  - apply truthy_false in E3. exists m1, []. rewrite app_nil_r. split; [done|].
    assert (t1 = []) as Ht1 by (destruct t1 as [|c t1]; [done|]; destruct Hc1 as (? & ? & _); lia).
    assert (Hw : words t = []) by by rewrite Hws, Ht1.
    constructor.
    + rewrite Hw. cbn. lia.
    + done.
    + intros x Hx. apply Ho. lia.
    + intros x Hx. apply Ho. rewrite Hlen in Hx. lia.
    + intros _ Hhd. destruct (Hend Hhd) as [Hm1 _]. unfold ld8. by rewrite Hm1.
Qed.

(** ** The abstract shell *)

Record shell := Shell { a_shift : bool; a_caps : bool; a_ext : bool; a_text : list Z }.

Inductive aevent := AEcho (l : list Z) | ARun (c : command) (ws : list (list Z)) | AUnknown (w : list Z).

Definition command_of (w : list Z) : option command :=
  match filter (fun e : list Z * list Z * command => e.1.1 = w) commands with
  | e :: _ => Some e.2
  | [] => None
  end.

(** Entering a line runs the command its first word names. *)
Definition a_enter (t : list Z) : list aevent :=
  match words t with
  | [] => []
  | w :: _ => [match command_of w with Some c => ARun c (words t) | None => AUnknown w end]
  end.

Definition with_text (sh : shell) (t : list Z) : shell := Shell (a_shift sh) (a_caps sh) (a_ext sh) t.

Definition a_input (sh : shell) (ch : Z) : shell * list aevent :=
  if ch =? 10 then (with_text sh [], [AEcho [10]] ++ a_enter (a_text sh) ++ [AEcho prompt])
  else if ch =? 8 then
    match a_text sh with
    | [] => (sh, [])
    | _ => (with_text sh (removelast (a_text sh)), [AEcho [8; 32; 8]])
    end
  else if (length (a_text sh) <? 99)%nat then (with_text sh (a_text sh ++ [ch]), [AEcho [ch]])
  else (sh, []).

(** What a key does: the character without and with shift. *)
Inductive key := KShift | KCaps | KChar (lo up : Z) | KNone.

Definition key_of (code : nat) : key :=
  match lowercase !! code, uppercase !! code with
  | Some lo, Some up =>
      if bool_decide (lo = LSHFT \/ lo = RSHFT) then KShift
      else if bool_decide (lo = CAPS) then KCaps
      else if bool_decide (lo <= 127) then KChar lo up else KNone
  | _, _ => KNone
  end.

Definition is_letter (c : Z) : bool := (97 <=? c) && (c <=? 122).

Definition a_step (sh : shell) (raw : Z) : shell * list aevent :=
  let sh0 := Shell (a_shift sh) (a_caps sh) false (a_text sh) in
  if raw =? 224 then (Shell (a_shift sh) (a_caps sh) true (a_text sh), [])
  else if a_ext sh then (sh0, [])
  else
    let released := 128 <=? raw in
    match key_of (Z.to_nat (raw mod 128)) with
    | KShift => (Shell (negb released) (a_caps sh) false (a_text sh), [])
    | KCaps => (Shell (a_shift sh) (if released then a_caps sh else negb (a_caps sh)) false (a_text sh), [])
    | KChar lo up =>
        if released then (sh0, [])
        else a_input sh0 (if xorb (a_shift sh) (a_caps sh && is_letter lo) then up else lo)
    | KNone => (sh0, [])
    end.

(** All scancodes of a burst. *)
Fixpoint a_steps (sh : shell) (l : list Z) : shell * list aevent :=
  match l with
  | [] => (sh, [])
  | raw :: l' => let (sh1, e1) := a_step sh raw in let (sh2, e2) := a_steps sh1 l' in (sh2, e1 ++ e2)
  end.

(** The key tables: a character key types a byte that is not NUL, a letter's shifted
    character is its capital, and no other key types a letter. *)
Lemma key_tables code lo up :
  (code < 128)%nat -> key_of code = KChar lo up ->
  0 < lo <= 127 /\ 0 < up <= 127 /\ (is_letter lo = true -> up = lo - 32) /\
  (is_letter lo = false -> is_letter up = false).
Proof.
  intros Hc.
  assert (H : Forall (fun code => match key_of code with
      | KChar lo up => (0 <? lo) && (lo <=? 127) && (0 <? up) && (up <=? 127) &&
                       (if is_letter lo then up =? lo - 32 else negb (is_letter up))
      | _ => true end = true) (seq 0 128)) by (vm_compute; repeat constructor).
  rewrite Forall_forall in H. specialize (H code (proj2 (elem_of_seq 0 128 code) ltac:(lia))).
  intros E. rewrite E in H. destruct (is_letter lo); bool_to_prop; split_and_all; try lia; done.
Qed.

Lemma tables_length : length lowercase = 128%nat /\ length uppercase = 128%nat.
Proof. done. Qed.

(** ** Refinement *)

Definition ev_ok (e : event) (a : aevent) : Prop :=
  match e, a with
  | Echo l, AEcho l' => l = l'
  | Run c m argv, ARun c' ws =>
      c = c' /\ length argv = Nat.min 16 (length ws) /\
      (forall i p w, argv !! i = Some p -> ws !! i = Some w -> (i < 15)%nat -> cstr m p w)
  | Unknown m p, AUnknown w => cstr m p w
  | _, _ => False
  end.

Record models (k : kbd) (sh : shell) : Prop := {
  mo_shift : shift_down k = a_shift sh;
  mo_caps : caps_lock k = a_caps sh;
  mo_ext : extended k = a_ext sh;
  mo_len : line_len k = Z.of_nat (length (a_text sh));
  mo_line : holds (line k) 0 (a_text sh);
  mo_bytes : Forall (fun c => 0 < c < 256) (a_text sh);
  mo_max : (length (a_text sh) <= 99)%nat }.

Lemma find_command_spec m p w cs :
  cstr m p w -> (length w < 101)%nat -> Forall (fun e : list Z * list Z * command => Forall (fun c => 0 < c < 256) e.1.1) cs ->
  find_command m p cs = Some (match filter (fun e : list Z * list Z * command => e.1.1 = w) cs with
                              | e :: _ => Some e.2 | [] => None end).
Proof.
  intros Hw Hl Hcs. induction Hcs as [|[[name help] c] cs Hn _ IH]; cbn [find_command]; [done|].
  destruct (strcmp2_cstr m (const name) w name p 0 LINE_FUEL Hw (cstr_const name Hn) ltac:(unfold LINE_FUEL; lia))
    as (r & -> & Hz & _). cbn [mbind option_bind]. rewrite filter_cons. cbn [fst].
  destruct (r =? 0) eqn:E; bool_to_prop.
  - rewrite decide_True; [done|]. symmetry. by apply Hz.
  - rewrite decide_False; [done|]. intros ->. apply E. by apply Hz.
Qed.

Lemma words_bounded t w : w ∈ words t -> (length w <= length t)%nat.
Proof.
  assert (H : forall t cur, w ∈ split_words cur t -> (length w <= length cur + length t)%nat).
  { clear t. assert (Hfl : forall cur, w ∈ flush cur -> (length w <= length cur)%nat).
    { intros cur. unfold flush. destruct (_ =? _)%nat; [by intros ?%elem_of_nil|].
      by intros ->%list_elem_of_singleton. }
    induction t as [|c t IH]; intros cur; cbn [split_words length]; [intros ?%Hfl; lia|]. case_if.
    - intros [H%Hfl|H%IH]%elem_of_app; [lia|cbn in H; lia].
    - intros H%IH. rewrite length_app in H. cbn in H. lia. }
  intros Hw. exact (H t [] Hw).
Qed.

Lemma run_line_spec m s t :
  cstr m s t -> (length t <= 99)%nat ->
  exists m' es, run_line m s = Some (m', es) /\ Forall2 ev_ok es (a_enter t).
Proof.
  intros Hc Hl. unfold run_line, a_enter.
  destruct (tokenise_spec 17 m s t [] Hc) as (m' & ps & -> & [T1 T2 _ _ _]); [lia|cbn; lia|cbn; lia|].
  cbn [app length] in *. cbn [mbind option_bind]. rewrite Nat.sub_0_r in T1.
  destruct (words t) as [|w ws] eqn:Ew.
  - destruct ps; [|done]. exists m', []. split; [done|constructor].
  - destruct ps as [|p ps]; [done|]. pose proof (T2 0%nat p w eq_refl eq_refl ltac:(lia)) as Hw.
    assert (Hwl : (length w < 101)%nat).
    { assert (w ∈ words t) as H by (rewrite Ew; left). apply words_bounded in H. lia. }
    rewrite (find_command_spec m' p w commands Hw Hwl) by (repeat constructor).
    cbn [mbind option_bind]. exists m'. eexists. split; [done|]. constructor; [|constructor].
    fold (command_of w). destruct (command_of w); [|done]. split_and_all; done.
Qed.

Lemma line_input_refines k sh ch :
  models k sh -> 0 < ch < 256 ->
  exists k' es, line_input k ch = Some (k', es) /\ models k' (a_input sh ch).1 /\ Forall2 ev_ok es (a_input sh ch).2.
Proof.
  intros [M1 M2 M3 M4 M5 M6 M7] Hch. unfold line_input, a_input.
  destruct (ch =? 10) eqn:E1; [|destruct (ch =? 8) eqn:E2]; bool_to_prop.
  - rewrite M4. destruct (run_line_spec (st8 (line k) (Z.of_nat (length (a_text sh))) 0) 0 (a_text sh))
      as (m' & es & -> & Hes); [|done|].
    { apply holds_cstr.
      - apply (holds_ext (line k)); [|done]. intros x Hx. apply st8_other. lia.
      - eapply Forall_impl; [exact M6|]. cbn. lia.
      - rewrite Z.add_0_l, ld8_st8_same. done. }
    cbn [mbind option_bind]. eexists _, _. split; [done|]. cbn [fst snd]. split.
    + by constructor; try done; cbn; try apply holds_nil; try lia.
    + apply Forall2_app; [by repeat constructor|]. apply Forall2_app; [done|by repeat constructor].
  - destruct (a_text sh) as [|c t _] eqn:Et using rev_ind.
    + rewrite M4. cbn. eexists _, _. split; [done|]. split; [|constructor]. constructor; try done; rewrite Et; done.
    + rewrite length_app in *. cbn [length] in *. rewrite truthy_nz by lia. eexists _, _. split; [done|].
      destruct (t ++ [c]) eqn:Etc; [by destruct t|]. rewrite <- Etc, removelast_last in *. cbn [fst snd].
      apply holds_app in M5 as [M5 _]. apply Forall_app in M6 as [M6 _].
      split; [|by repeat constructor]. constructor; cbn [set_line with_text shift_down caps_lock extended line line_len a_shift a_caps a_ext a_text]; try done; lia.
  - rewrite M4. replace (Z.of_nat (length (a_text sh)) <? 100 - 1) with (length (a_text sh) <? 99)%nat
      by (apply eq_true_iff_eq; rewrite Nat.ltb_lt, Z.ltb_lt; lia).
    destruct (length (a_text sh) <? 99)%nat eqn:E3.
    + apply Nat.ltb_lt in E3. eexists _, _. split; [done|]. split; [|by repeat constructor].
      constructor; cbn; try done; rewrite ?length_app; cbn [length]; try lia.
      * apply (holds_snoc (line k) 0 (a_text sh) ch); [lia|done].
      * apply Forall_app. split; [done|]; constructor; [lia|constructor].
    + eexists _, _. split; [done|]. split; [by constructor|constructor].
Qed.

(** The byte's high bit is the release flag. *)
Lemma released_bit raw : 0 <= raw < 256 -> truthy (raw &&& 128) = (128 <=? raw).
Proof.
  intros Hr. destruct (128 <=? raw) eqn:E; bool_to_prop.
  - apply truthy_nz. intros H. apply (f_equal (fun z => Z.testbit z 7)) in H.
    rewrite Z.land_spec, Z.bits_0 in H. change (Z.testbit 128 7) with true in H. rewrite andb_true_r in H.
    rewrite Z.testbit_eqb in H by lia. change (2 ^ 7) with 128 in H. Z.div_mod_to_equations; lia.
  - apply truthy_false. apply Z.bits_inj'. intros i Hi. rewrite Z.land_spec, Z.bits_0.
    change 128 with (2 ^ 7). rewrite testbit_pow2 by lia. destruct (7 =? i) eqn:E7; [|by rewrite andb_false_r].
    apply Z.eqb_eq in E7 as <-. rewrite andb_true_r, Z.testbit_eqb by lia. change (2 ^ 7) with 128.
    apply Z.eqb_neq. Z.div_mod_to_equations; lia.
Qed.

(** The guards of [handle_scancode] after the table lookups follow [key_of]. *)
Lemma key_of_lookup code :
  (code < 128)%nat ->
  exists lo up, lowercase !! code = Some lo /\ uppercase !! code = Some up /\
    key_of code = (if (lo =? LSHFT) || (lo =? RSHFT) then KShift else if lo =? CAPS then KCaps
                   else if 127 <? lo then KNone else KChar lo up).
Proof.
  intros Hc. destruct (lookup_lt_is_Some_2 lowercase code) as [lo Hlo]; [rewrite (proj1 tables_length); lia|].
  destruct (lookup_lt_is_Some_2 uppercase code) as [up Hup]; [rewrite (proj2 tables_length); lia|].
  exists lo, up. split_and_all; [done|done|]. unfold key_of. rewrite Hlo, Hup.
  repeat (case_bool_decide || case_if); try done; unfold LSHFT, RSHFT, CAPS in *; lia.
Qed.

Lemma handle_refines k sh raw :
  models k sh -> 0 <= raw < 256 ->
  exists k' es, handle_scancode k raw = Some (k', es) /\ models k' (a_step sh raw).1 /\ Forall2 ev_ok es (a_step sh raw).2.
Proof.
  intros M Hr. pose proof M as [M1 M2 M3 M4 M5 M6 M7]. unfold handle_scancode, a_step. rewrite M3.
  case_if; [eexists _, _; split; [done|]; split; [by constructor|constructor]|].
  case_if; [eexists _, _; split; [done|]; split; [by constructor|constructor]|].
  rewrite released_bit by done. change (raw &&& 127) with (raw &&& (2 ^ 7 - 1)). rewrite land_mod by lia.
  change (2 ^ 7) with 128.
  assert (Hcode : (Z.to_nat (raw mod 128) < 128)%nat) by (Z.div_mod_to_equations; lia).
  destruct (key_of_lookup _ Hcode) as (lo & up & Hlo & Hup & Hk). rewrite Hlo, Hup, Hk. cbn [mbind option_bind].
  destruct ((lo =? LSHFT) || (lo =? RSHFT)) eqn:Es; [eexists _, _; split; [done|]; split; [by constructor|constructor]|].
  destruct (lo =? CAPS) eqn:Ec.
  { eexists _, _; split; [done|]; split; [|constructor]. constructor; try done. cbn. by rewrite M2. }
  destruct (127 <? lo) eqn:Eb; [rewrite orb_true_r; eexists _, _; split; [done|]; split; [by constructor|constructor]|].
  rewrite orb_false_r. destruct (128 <=? raw); [eexists _, _; split; [done|]; split; [by constructor|constructor]|].
  destruct (key_tables _ lo up Hcode Hk) as (H1 & H2 & _). cbn [shift_down caps_lock]. rewrite M1, M2.
  fold (is_letter lo). set (ch := if xorb _ _ then up else lo).
  assert (0 < ch <= 127) by (subst ch; case_if; lia). rewrite u8_small by lia.
  apply line_input_refines; [by constructor|lia].
Qed.

Lemma poll_refines fuel r k sh acc aacc :
  ring_ok r -> Forall (fun c => 0 <= c < 256) (queue r) -> models k sh -> (length (queue r) < fuel)%nat ->
  Forall2 ev_ok acc aacc ->
  exists r' k' es, keyboard_poll fuel r k acc = Some (r', k', es) /\ ring_ok r' /\ queue r' = [] /\
    kbd_tail r' = kbd_head r' /\
    models k' (a_steps sh (queue r)).1 /\ Forall2 ev_ok es (aacc ++ (a_steps sh (queue r)).2).
Proof.
  revert r k sh acc aacc. induction fuel as [|fuel IH]; intros r k sh acc aacc Hr Hb Hm Hf He; [lia|].
  cbn [keyboard_poll]. pose proof (poll_cases r Hr) as C. unfold poll_read in C.
  destruct (negb (kbd_tail r =? kbd_head r)) eqn:E.
  - destruct (kbd_buf r !! Z.to_nat (kbd_tail r)) as [sc|]; [|destruct C; bool_to_prop; done].
    destruct C as (q & Hq & Hr' & Hq' & _). rewrite Hq in *. apply Forall_cons in Hb as [Hsc Hb].
    destruct (handle_refines k sh sc Hm Hsc) as (k1 & es & H1 & Hm1 & He1). cbn [mbind option_bind]. rewrite H1.
    cbn [mbind option_bind a_steps]. destruct (a_step sh sc) as [sh1 e1] eqn:Es. cbn [fst snd] in *.
    destruct (IH (poll_advance r) k1 sh1 (acc ++ es) (aacc ++ e1)) as (r2 & k2 & es2 & HH);
      rewrite ?Hq'; [done|done|done|cbn [length] in Hf; lia|by apply Forall2_app|].
    rewrite Hq' in HH. exists r2, k2, es2. destruct (a_steps sh1 q) as [sh2 e2]. cbn [fst snd] in *.
    by rewrite <- app_assoc in HH.
  - destruct C as [Hq Heq]. exists r, k, acc. rewrite Hq. cbn [a_steps fst snd]. rewrite app_nil_r. by split_and_all.
Qed.

Lemma kbd_init_models : models kbd_init (Shell false false false []).
Proof. constructor; try done; cbn; lia. Qed.

(** ** Property *)

(** C36: a poll does with the waiting scancodes what the abstract shell does.  For any
    buffer of bytes, [keyboard_poll] returns within 128 rounds with the buffer empty,
    the scancodes handled in the order of their arrival; the line stays below its 100
    bytes; the keys typed, the echo, and for every entered line the command run, the
    number of arguments and the text of the first 15, or the complaint about an
    unknown first word, are those of the shell that splits the line into words. *)
Theorem poll_runs_shell (r : ring) (k : kbd) (sh : shell) :
  ring_ok r -> Forall (fun c => 0 <= c < 256) (queue r) -> models k sh ->
  exists r' k' es, keyboard_poll 128 r k [] = Some (r', k', es) /\ queue r' = [] /\ kbd_tail r' = kbd_head r' /\
    models k' (a_steps sh (queue r)).1 /\ Forall2 ev_ok es (a_steps sh (queue r)).2 /\ 0 <= line_len k' < 100.
Proof.
  intros Hr Hb Hm. destruct (poll_refines 128 r k sh [] [] Hr Hb Hm) as (r' & k' & es & H1 & _ & H2 & H3 & H4 & H5).
  - pose proof (queue_length r). pose proof (count_range r). lia.
  - constructor.
  - exists r', k', es. split_and_all; try done.
    + destruct H4 as [_ _ _ -> _ _ _]. lia.
    + destruct H4 as [_ _ _ -> _ _ Hx]. lia.
Qed.

(** The keys l, s, enter. *)
Definition typed_ls : ring := Ring ([38; 166; 31; 159; 28] ++ replicate 123 0) 5 0.

Lemma poll_runs_shell_witness :
  exists r' k' es, keyboard_poll 128 typed_ls kbd_init [] = Some (r', k', es) /\
    Forall2 ev_ok es [AEcho [108]; AEcho [115]; AEcho [10]; ARun Ls [chars "ls"]; AEcho prompt].
Proof.
  destruct (poll_runs_shell typed_ls kbd_init (Shell false false false []))
    as (r' & k' & es & H1 & _ & _ & _ & H5 & _).
  - by unfold ring_ok.
  - change (Forall (fun c => 0 <= c < 256) [38; 166; 31; 159; 28]). repeat (constructor; [lia|]). constructor.
  - apply kbd_init_models.
  - exists r', k', es. split; [exact H1|exact H5].
Defined.

(** The 16th word of a line is not ended: its text runs on to the end of the line. *)
Lemma sixteenth_word_unterminated :
  exists m argv, tokenise 17 (const (chars "a b c d e f g h i j k l m n o p q r")) 0 [] = Some (m, argv) /\
    argv !! 15%nat = Some 30 /\ ld8 m 31 = 32.
Proof. eexists _, _. split; [vm_compute; reflexivity|]. by split. Qed.
