(* ===== verification/Hw.v ===== *)
(** * The processor as the drivers use it

    Port input and output (util.h), uncached device memory, the instructions reached
    through inline assembly, and the state monad [io] the drivers are written in.  A
    driver is polymorphic in the machine state [W]; what it relies on of a device is a
    class over [PortIo] or [Mmio] with the device's documented behaviour as laws. *)

From S2P Require Import Prelude Mem.

(** ** Computations on the machine state *)

Definition io (W A : Type) : Type := W -> A * W.

#[global] Instance io_ret {W} : MRet (io W) := fun A a w => (a, w).
#[global] Instance io_bind {W} : MBind (io W) := fun A B k e w => let (a, w') := e w in k a w'.

Lemma io_bind_eq {W A B} (e : io W A) (k : A -> io W B) w :
  (a ← e; k a) w = k (e w).1 (e w).2.
Proof. unfold mbind, io_bind. by destruct (e w). Qed.

Lemma io_ret_eq {W A} (a : A) (w : W) : (mret a : io W A) w = (a, w).
Proof. done. Qed.

(** [for (i = lo; i < lo + n; i++) a = f(i, a);] with effects. *)
Definition for_io {W A} (n : nat) (lo : Z) (f : Z -> A -> io W A) (a : A) : io W A :=
  fun w => floop n lo (fun i (aw : A * W) => f i aw.1 aw.2) (a, w).

Lemma for_io_inv {W A} (P : Z -> A -> W -> Prop) (f : Z -> A -> io W A) n lo a w :
  P lo a w ->
  (forall i x v, lo <= i < lo + Z.of_nat n -> P i x v -> P (i + 1) (f i x v).1 (f i x v).2) ->
  P (lo + Z.of_nat n) (for_io n lo f a w).1 (for_io n lo f a w).2.
Proof.
  intros H0 Hs. unfold for_io.
  apply (floop_inv (fun i aw => P i aw.1 aw.2) (fun i aw => f i aw.1 aw.2)); [done|].
  intros i [x v] Hi HP. by apply Hs.
Qed.

(** A loop that goes through the items [g lo], [g (lo + 1)], ... of a reference list,
    as seen through a relation with the items done so far. *)
Lemma for_io_flat {W A T} (R : list T -> A -> W -> Prop) (g : Z -> list T) (f : Z -> A -> io W A) n lo l a w :
  R l a w ->
  (forall i l x v, lo <= i < lo + Z.of_nat n -> R l x v -> R (l ++ g i) (f i x v).1 (f i x v).2) ->
  R (l ++ flat_map g (seqZ lo (Z.of_nat n))) (for_io n lo f a w).1 (for_io n lo f a w).2.
Proof.
  revert lo l a w. induction n as [|n IH]; intros lo l a w H0 Hs.
  - cbn. by rewrite app_nil_r.
  - pose proof (Hs lo l a w ltac:(lia) H0) as H1.
    change (for_io (S n) lo f a w) with (floop n (lo + 1) (fun i aw => f i aw.1 aw.2) (f lo a w)).
    destruct (f lo a w) as [a1 w1] eqn:E. cbn [fst snd] in H1.
    pose proof (IH (lo + 1) _ a1 w1 H1 ltac:(intros; apply Hs; [lia|done])) as I1.
    unfold for_io in I1. rewrite (seqZ_cons lo) by lia. cbn [flat_map]. rewrite app_assoc.
    by replace (Z.pred (Z.of_nat (S n))) with (Z.of_nat n) by lia.
Qed.

(** ** Ports: [outb], [outw], [outl], [inb], [inw], [inl] *)

Class PortIo (W : Type) := {
  (** width in bytes, port *)
  inp : Z -> Z -> io W Z;
  outp : Z -> Z -> Z -> io W unit }.

(** ** Device memory: [volatile] accesses *)

Class Mmio (W : Type) := {
  (** width in bytes, kernel address *)
  mmio_ld : Z -> Z -> io W Z;
  mmio_st : Z -> Z -> Z -> io W unit }.

(** ** Instructions *)

Class Cpu (W : Type) := {
  cli : io W unit;
  sti : io W unit;
  (** [hlt]: interrupt handlers run before it returns *)
  hlt : io W unit;
  (** [cpuid] leaf to (eax, edx) *)
  cpuid : Z -> io W (Z * Z) }.

Section Ports.
Context {W : Type} `{!PortIo W}.

Definition outPortB (port value : Z) : io W unit := outp 1 (u16 port) (u8 value).
Definition outPortW (port value : Z) : io W unit := outp 2 (u16 port) (u16 value).
Definition outPortD (port value : Z) : io W unit := outp 4 (u16 port) (u32 value).
Definition inPortB (port : Z) : io W Z := v ← inp 1 (u16 port); mret (u8 v).
Definition inPortW (port : Z) : io W Z := v ← inp 2 (u16 port); mret (u16 v).
Definition inPortD (port : Z) : io W Z := v ← inp 4 (u16 port); mret (u32 v).

Definition PIC1_DATA : Z := 33.
Definition PIC2_DATA : Z := 161.
Definition PCI_CONFIG_ADDRESS : Z := 3320.
Definition PCI_CONFIG_DATA : Z := 3324.

Definition disableLegacyPIC : io W unit :=
  outPortB PIC1_DATA 255;; outPortB PIC2_DATA 255.
End Ports.

Definition CEIL_DIV (a b : Z) : Z := (a + b - 1) / b.
