(* ===== verification/Pci.v ===== *)
(** * PCI configuration space, drivers and enumeration (pci.h, pci.c)

    [PciBus]: the configuration mechanism behind ports 0xCF8 and 0xCFC.  The driver
    registry and the device table are [pci_state]; a driver is a computation on the
    machine.  The log lines of the enumeration are not modelled. *)

From stdpp Require Import strings.
From S2P Require Import Prelude Mem Layout Hw.

(** ** Headers *)

(** [pci_t], 64 packed bytes read as a local object. *)
Definition pci_t : layout :=
  [("vendorID", 2); ("deviceID", 2); ("command", 2); ("status", 2); ("revisionID", 1); ("progIF", 1);
   ("subclass", 1); ("_class", 1); ("cacheLineSize", 1); ("latencyTimer", 1); ("headerType", 1); ("bist", 1);
   ("bar0", 4); ("bar1", 4); ("bar2", 4); ("bar3", 4); ("bar4", 4); ("bar5", 4); ("cardbusCISPointer", 4);
   ("subsystemVendorID", 2); ("subsystemID", 2); ("expansionROMBaseAddress", 4); ("capabilitiesPointer", 1);
   ("reserved0", 1); ("reserved1", 2); ("reserved2", 4); ("irq", 1); ("interruptPIN", 1); ("minGrant", 1);
   ("maxLatency", 1)]%string.

Definition vendorID (p : mem) : Z := ld16 p 0.
Definition deviceID (p : mem) : Z := ld16 p 2.
Definition progIF (p : mem) : Z := ld8 p 9.
Definition subclass (p : mem) : Z := ld8 p 10.
Definition _class (p : mem) : Z := ld8 p 11.
Definition bar0 (p : mem) : Z := ld32 p 16.
Definition bar1 (p : mem) : Z := ld32 p 20.

Lemma pci_t_offsets :
  (offset_of pci_t "vendorID", offset_of pci_t "deviceID", offset_of pci_t "progIF", offset_of pci_t "subclass",
   offset_of pci_t "_class", offset_of pci_t "bar0", offset_of pci_t "bar1", size_of pci_t)
  = (Some 0, Some 2, Some 9, Some 10, Some 11, Some 16, Some 20, 64).
Proof. reflexivity. Qed.

(** ** Configuration accesses *)

Section Config.
Context {W : Type} `{!PortIo W}.

Definition config_address (bus num function offset : Z) : Z :=
  u32 ((1 <<< 31) ||| (bus <<< 16) ||| (num <<< 11) ||| (function <<< 8) ||| (offset &&& 252)).

Definition pci_read_config32 (bus num function offset : Z) : io W Z :=
  outPortD PCI_CONFIG_ADDRESS (config_address bus num function offset);;
  inPortD PCI_CONFIG_DATA.

Definition pci_read_config16 (bus num function offset : Z) : io W Z :=
  outPortD PCI_CONFIG_ADDRESS (config_address bus num function offset);;
  v ← inPortD PCI_CONFIG_DATA;
  mret (u16 ((v >>> ((offset &&& 2) * 8)) &&& 65535)).

Definition pci_read_config8 (bus num function offset : Z) : io W Z :=
  outPortD PCI_CONFIG_ADDRESS (config_address bus num function offset);;
  v ← inPortD PCI_CONFIG_DATA;
  mret (u8 ((v >>> ((offset &&& 3) * 8)) &&& 255)).

Definition pci_write_config32 (bus num function offset value : Z) : io W unit :=
  outPortD PCI_CONFIG_ADDRESS (config_address bus num function offset);;
  outPortD PCI_CONFIG_DATA value.

Definition merge_field (current ones shift value : Z) : Z :=
  u32 ((current &&& u32 (Z.lnot (u32 (ones <<< shift)))) ||| u32 (value <<< shift)).

Definition pci_write_config16 (bus num function offset value : Z) : io W unit :=
  outPortD PCI_CONFIG_ADDRESS (config_address bus num function offset);;
  current ← inPortD PCI_CONFIG_DATA;
  outPortD PCI_CONFIG_DATA (merge_field current 65535 ((offset &&& 2) * 8) value).

Definition pci_write_config8 (bus num function offset value : Z) : io W unit :=
  outPortD PCI_CONFIG_ADDRESS (config_address bus num function offset);;
  current ← inPortD PCI_CONFIG_DATA;
  outPortD PCI_CONFIG_DATA (merge_field current 255 ((offset &&& 3) * 8) value).

(** ** Registry and device table (kernel.h) *)

Definition MAX_PCI_DEVICES : Z := 32.
Definition MAX_PCI_DRIVERS : Z := 256.

Record pci_driver_t := PciDriver {
  drv_used : bool;
  drv_class : Z;
  drv_subclass : Z;
  pcidrv : mem -> Z -> Z -> Z -> io W unit }.

Record pci_device_entry_t := PciDevice { header : mem; dev_bus : Z; dev_device : Z; dev_function : Z }.

(** [pci_devices]: the entries in use, [pci_device_count] is their number. *)
Record pci_state := PciState { pci_devices : list pci_device_entry_t; pci_drivers : list pci_driver_t }.

(** The first free slot takes the driver; with none left nothing happens. *)
Fixpoint reg_in (l : list pci_driver_t) (drv : mem -> Z -> Z -> Z -> io W unit) (cl sub : Z) : list pci_driver_t :=
  match l with
  | [] => []
  | d :: l' => if drv_used d then d :: reg_in l' drv cl sub else PciDriver true cl sub drv :: l'
  end.

Definition reg (s : pci_state) (drv : mem -> Z -> Z -> Z -> io W unit) (cl sub : Z) : pci_state :=
  PciState (pci_devices s) (reg_in (pci_drivers s) drv (u8 cl) (u8 sub)).

(** [stack]: what the local [pciData] held before. *)
Definition __pci_load (stack : mem) (bus num function : Z) : io W mem :=
  for_io 32 0 (fun i p => v ← pci_read_config16 bus num function (u8 (i * 2)); mret (st16 p (2 * i) v)) stack.

Definition run_driver (pci : mem) (bus device function : Z) (d : pci_driver_t) : io W unit :=
  if drv_used d && (drv_class d =? _class pci) && (drv_subclass d =? subclass pci)
  then pcidrv d pci bus device function else mret tt.

Fixpoint run_drivers (pci : mem) (bus device function : Z) (l : list pci_driver_t) : io W unit :=
  match l with
  | [] => mret tt
  | d :: l' => run_driver pci bus device function d;; run_drivers pci bus device function l'
  end.

Definition __pci_launch (s : pci_state) (pci : mem) (bus device function : Z) : io W pci_state :=
  let s' := if Z.of_nat (length (pci_devices s)) <? MAX_PCI_DEVICES
            then PciState (pci_devices s ++ [PciDevice pci bus device function]) (pci_drivers s) else s in
  run_drivers pci bus device function (pci_drivers s');; mret s'.

Definition scan_function (stack : mem) (bus device function : Z) (s : pci_state) : io W pci_state :=
  pci ← __pci_load stack bus device function;
  if vendorID pci =? 65535 then mret s else __pci_launch s pci bus device function.

Definition scan_device (stack : mem) (bus device : Z) (s : pci_state) : io W pci_state :=
  c_pci ← __pci_load stack bus device 0;
  if vendorID c_pci =? 65535 then mret s
  else s' ← __pci_launch s c_pci bus device 0;
       for_io 7 1 (fun function s => scan_function stack bus device function s) s'.

Definition initworkspace (stack : mem) (s : pci_state) : io W pci_state :=
  for_io 256 0 (fun bus s => for_io 32 0 (fun device s => scan_device stack (u8 bus) device s) s) s.
End Config.

Arguments pci_driver_t W : clear implicits.
Arguments pci_state W : clear implicits.

(** ** What the code relies on: configuration mechanism #1 *)

Class PciBus (W : Type) `{!PortIo W} := {
  (** the 32-bit register behind a configuration address *)
  cfg : W -> Z -> Z;
  selected : W -> Z;
  (** what a register holds after a write: its writable bits are the device's business *)
  accept : Z -> Z -> Z -> Z;

  cfg_range w a : 0 <= cfg w a < 2 ^ 32;
  out_address w a : 0 <= a < 2 ^ 32 ->
    selected (outp 4 3320 a w).2 = a /\ (forall x, cfg (outp 4 3320 a w).2 x = cfg w x);
  in_data w :
    (inp 4 3324 w).1 = cfg w (selected w) /\ selected (inp 4 3324 w).2 = selected w /\
    (forall x, cfg (inp 4 3324 w).2 x = cfg w x);
  out_data w v : 0 <= v < 2 ^ 32 ->
    selected (outp 4 3324 v w).2 = selected w /\
    (forall x, cfg (outp 4 3324 v w).2 x =
               if x =? selected w then accept x (cfg w x) v else cfg w x) }.
