(* ===== verification/PciProps.v ===== *)
(** * PCI: configuration accesses and enumeration

    Reads and writes of one, two and four bytes act on exactly the addressed field of
    the addressed function ([config_accesses_exact]); the enumeration finds the
    functions a reference scan lists, in its order ([initworkspace_enumerates]). *)

From S2P Require Import Prelude Mem Layout Hw Pci.

(** ** Arithmetic of addresses and fields *)

Lemma merge_field_eq current k s value :
  0 <= current < 2 ^ 32 -> 0 <= s -> 0 <= k -> s + k <= 32 -> 0 <= value < 2 ^ k ->
  merge_field current (2 ^ k - 1) s value = bf_set current s k value.
Proof.
  intros Hc Hs Hk Hsk Hv. unfold merge_field, bf_set.
  assert (Hp : 2 ^ k * 2 ^ s <= 2 ^ 32) by (rewrite <- Z.pow_add_r by lia; apply Z.pow_le_mono_r; lia).
  assert (H0 : 0 < 2 ^ s) by (apply Z.pow_pos_nonneg; lia).
  assert (Hf : forall x, 0 <= x < 2 ^ k -> u32 (x <<< s) = x <<< s).
  { intros x Hx. rewrite Z.shiftl_mul_pow2 by lia. apply u32_small. change 4294967296 with (2 ^ 32). nia. }
  rewrite !Hf by lia. rewrite (Z.mod_small value) by lia.
  replace (Z.ones k) with (2 ^ k - 1) by (rewrite Z.ones_equiv; lia).
  assert (Hm : forall y, current &&& u32 y = current &&& y).
  { intros y. apply Z.bits_inj'. intros i Hi. rewrite !Z.land_spec. change (u32 y) with (y mod 2 ^ 32).
    destruct (Z_lt_ge_dec i 32); [by rewrite Z.mod_pow2_bits_low by lia|].
    rewrite <- (Z.mod_small current (2 ^ 32)) by lia. by rewrite !Z.mod_pow2_bits_high by lia. }
  rewrite Hm. apply u32_small. change 4294967296 with (2 ^ 32).
  pose proof (bf_set_fits 32 current s k value Hs Hk Hsk Hc) as Hr. unfold bf_set in Hr.
  by rewrite (Z.mod_small value), Z.ones_equiv, <- Z.sub_1_r in Hr by lia.
Qed.

Lemma land_252 o : 0 <= o < 256 -> o &&& 252 = o / 4 * 4.
Proof.
  intros Ho.
  assert (H : Forall (fun x => x &&& 252 = x / 4 * 4) (seqZ 0 256)) by (vm_compute; repeat constructor).
  rewrite Forall_forall in H. apply H, elem_of_seqZ. lia.
Qed.

Lemma config_address_eq b d f o :
  0 <= b < 256 -> 0 <= d < 32 -> 0 <= f < 8 -> 0 <= o < 256 ->
  config_address b d f o = 2 ^ 31 + b * 65536 + d * 2048 + f * 256 + o / 4 * 4.
Proof.
  intros Hb Hd Hf Ho. unfold config_address. rewrite land_252 by lia.
  rewrite <- !Z.lor_assoc, (Z.lor_comm (f <<< 8)).
  rewrite lor_add_shift by (change (2 ^ 8) with 256; Z.div_mod_to_equations; lia).
  rewrite (Z.lor_comm (d <<< 11)), lor_add_shift by (change (2 ^ 8) with 256; change (2 ^ 11) with 2048; Z.div_mod_to_equations; lia).
  rewrite (Z.lor_comm (b <<< 16)), lor_add_shift
    by (change (2 ^ 8) with 256; change (2 ^ 11) with 2048; change (2 ^ 16) with 65536; Z.div_mod_to_equations; lia).
  rewrite (Z.lor_comm (1 <<< 31)), lor_add_shift
    by (change (2 ^ 8) with 256; change (2 ^ 11) with 2048; change (2 ^ 16) with 65536; change (2 ^ 31) with 2147483648;
        Z.div_mod_to_equations; lia).
  change (2 ^ 8) with 256. change (2 ^ 11) with 2048. change (2 ^ 16) with 65536. change (2 ^ 31) with 2147483648.
  wrap_lia.
Qed.

Lemma config_address_range b d f o :
  0 <= b < 256 -> 0 <= d < 32 -> 0 <= f < 8 -> 0 <= o < 256 -> 0 <= config_address b d f o < 2 ^ 32.
Proof. intros. apply u32_range. Qed.

(** Functions have disjoint registers. *)
Lemma config_address_inj b d f o b' d' f' o' :
  0 <= b < 256 -> 0 <= d < 32 -> 0 <= f < 8 -> 0 <= o < 256 ->
  0 <= b' < 256 -> 0 <= d' < 32 -> 0 <= f' < 8 -> 0 <= o' < 256 ->
  config_address b d f o = config_address b' d' f' o' -> b = b' /\ d = d' /\ f = f' /\ o / 4 = o' / 4.
Proof. intros. rewrite !config_address_eq in * by lia. change (2 ^ 31) with 2147483648 in *. Z.div_mod_to_equations. lia. Qed.

(** ** Accesses *)

Lemma byte_shift o : 0 <= o -> (o &&& 3) * 8 = 8 * (o mod 4).
Proof. intros. change 3 with (2 ^ 2 - 1). rewrite land_mod by lia. change (2 ^ 2) with 4. lia. Qed.

Lemma half_shift o : 0 <= o -> (o &&& 2) * 8 = 16 * (o / 2 mod 2).
Proof.
  intros Ho. replace (o &&& 2) with (2 * (o / 2 mod 2)); [lia|]. apply Z.bits_inj'. intros i Hi.
  rewrite Z.land_spec. change 2 with (2 ^ 1) at 4. rewrite testbit_pow2 by lia.
  destruct (Z.eq_dec i 1) as [->|Hne].
  - rewrite andb_true_r.
    rewrite (Z.testbit_eqb (2 * _)), (Z.testbit_eqb o) by lia. change (2 ^ 1) with 2. f_equal.
    Z.div_mod_to_equations. lia.
  - replace (1 =? i) with false by lia. rewrite andb_false_r. rewrite Z.testbit_eqb by lia.
    apply Z.eqb_neq. intros E. destruct (Z.eq_dec i 0) as [->|Hi0].
    + change (2 ^ 0) with 1 in E. Z.div_mod_to_equations. lia.
    + rewrite Z.div_small in E; [done|]. assert (2 ^ 2 <= 2 ^ i) by (apply Z.pow_le_mono_r; lia).
      change (2 ^ 2) with 4 in *. Z.div_mod_to_equations. lia.
Qed.

Section Bus.
Context {W : Type} `{PB : PciBus W}.

Definition same_cfg (w w' : W) : Prop := forall x, cfg w' x = cfg w x.

Lemma select_spec w a : 0 <= a < 2 ^ 32 ->
  selected (outPortD PCI_CONFIG_ADDRESS a w).2 = a /\ same_cfg w (outPortD PCI_CONFIG_ADDRESS a w).2.
Proof.
  intros Ha. unfold outPortD. change (u16 PCI_CONFIG_ADDRESS) with 3320. rewrite u32_small by done.
  by apply out_address.
Qed.

Lemma data_spec w :
  (inPortD PCI_CONFIG_DATA w).1 = cfg w (selected w) /\ selected (inPortD PCI_CONFIG_DATA w).2 = selected w /\
  same_cfg w (inPortD PCI_CONFIG_DATA w).2.
Proof.
  unfold inPortD. rewrite io_bind_eq, io_ret_eq. change (u16 PCI_CONFIG_DATA) with 3324.
  destruct (in_data w) as (H1 & H2 & H3). cbn [fst snd]. rewrite H1. split_and_all; [|done|done].
  apply u32_small, cfg_range.
Qed.

Lemma store_spec w v : 0 <= v < 2 ^ 32 ->
  forall x, cfg (outPortD PCI_CONFIG_DATA v w).2 x = if x =? selected w then accept x (cfg w x) v else cfg w x.
Proof.
  intros Hv x. unfold outPortD. change (u16 PCI_CONFIG_DATA) with 3324. rewrite u32_small by done.
  by apply out_data.
Qed.

(** Selecting a register and reading it. *)
Lemma fetch_spec w a : 0 <= a < 2 ^ 32 ->
  let r := inPortD PCI_CONFIG_DATA (outPortD PCI_CONFIG_ADDRESS a w).2 in
  r.1 = cfg w a /\ selected r.2 = a /\ same_cfg w r.2.
Proof.
  intros Ha. cbv zeta. destruct (select_spec w a Ha) as [H1 H2].
  destruct (data_spec (outPortD PCI_CONFIG_ADDRESS a w).2) as (H3 & H4 & H5).
  rewrite H3, H4, H1. split_and_all; [apply H2|done|]. intros x. by rewrite H5.
Qed.

Lemma read32_spec w b d f o : 0 <= b < 256 -> 0 <= d < 32 -> 0 <= f < 8 -> 0 <= o < 256 ->
  (pci_read_config32 b d f o w).1 = cfg w (config_address b d f o) /\ same_cfg w (pci_read_config32 b d f o w).2.
Proof.
  intros. unfold pci_read_config32. rewrite io_bind_eq.
  destruct (fetch_spec w _ (config_address_range b d f o ltac:(lia) ltac:(lia) ltac:(lia) ltac:(lia))) as (? & ? & ?). done.
Qed.

Lemma land_1 x n : 0 <= x -> 0 <= n -> u16 ((x >>> n) &&& 65535) = bf_get x n 16.
Proof.
  intros. change 65535 with (2 ^ 16 - 1). rewrite land_mod by lia. unfold bf_get.
  apply u16_small. change 65536 with (2 ^ 16). apply Z.mod_pos_bound. lia.
Qed.

Lemma read16_spec w b d f o : 0 <= b < 256 -> 0 <= d < 32 -> 0 <= f < 8 -> 0 <= o < 256 ->
  (pci_read_config16 b d f o w).1 = bf_get (cfg w (config_address b d f o)) ((o &&& 2) * 8) 16 /\
  same_cfg w (pci_read_config16 b d f o w).2.
Proof.
  intros. unfold pci_read_config16. rewrite !io_bind_eq, io_ret_eq. cbn [fst snd].
  destruct (fetch_spec w _ (config_address_range b d f o ltac:(lia) ltac:(lia) ltac:(lia) ltac:(lia))) as (-> & ? & ?).
  split; [|done]. apply land_1; [apply cfg_range|]. apply Z.mul_nonneg_nonneg; [|lia]. apply Z.land_nonneg. lia.
Qed.

Lemma read8_spec w b d f o : 0 <= b < 256 -> 0 <= d < 32 -> 0 <= f < 8 -> 0 <= o < 256 ->
  (pci_read_config8 b d f o w).1 = bf_get (cfg w (config_address b d f o)) ((o &&& 3) * 8) 8 /\
  same_cfg w (pci_read_config8 b d f o w).2.
Proof.
  intros. unfold pci_read_config8. rewrite !io_bind_eq, io_ret_eq. cbn [fst snd].
  destruct (fetch_spec w _ (config_address_range b d f o ltac:(lia) ltac:(lia) ltac:(lia) ltac:(lia))) as (-> & ? & ?).
  split; [|done]. change 255 with (2 ^ 8 - 1). rewrite land_mod by lia. apply u8_small.
  change 256 with (2 ^ 8). apply Z.mod_pos_bound. lia.
Qed.

(** Read, merge and write back. *)
Lemma merge_write_spec w a k s v :
  0 <= a < 2 ^ 32 -> 0 <= s -> 0 <= k -> s + k <= 32 -> 0 <= v < 2 ^ k ->
  let r := inPortD PCI_CONFIG_DATA (outPortD PCI_CONFIG_ADDRESS a w).2 in
  forall x, cfg (outPortD PCI_CONFIG_DATA (merge_field r.1 (2 ^ k - 1) s v) r.2).2 x =
            if x =? a then accept a (cfg w a) (bf_set (cfg w a) s k v) else cfg w x.
Proof.
  intros Ha Hs Hk Hsk Hv r x. destruct (fetch_spec w a Ha) as (H1 & H2 & H3). fold r in H1, H2, H3.
  rewrite H1, merge_field_eq by (try apply cfg_range; lia).
  rewrite store_spec, H2, H3 by (apply bf_set_fits; try apply cfg_range; lia).
  case_if; [by subst x|done].
Qed.

(** Configuration accesses are exact: for a function of the bus and an offset below
    256 a read of one, two or four bytes returns the bits of the addressed register from
    the byte (half word) offset on and changes no register; a write presents the register
    with its current value in which only that field is replaced; and no register of
    another function, and no other register of this one, is touched. *)
Theorem config_accesses_exact w b d f o v :
  0 <= b < 256 -> 0 <= d < 32 -> 0 <= f < 8 -> 0 <= o < 256 -> 0 <= v ->
  let A := config_address b d f o in
  ((pci_read_config8 b d f o w).1 = bf_get (cfg w A) (8 * (o mod 4)) 8 /\
   (pci_read_config16 b d f o w).1 = bf_get (cfg w A) (16 * (o / 2 mod 2)) 16 /\
   (pci_read_config32 b d f o w).1 = cfg w A) /\
  (same_cfg w (pci_read_config8 b d f o w).2 /\ same_cfg w (pci_read_config16 b d f o w).2 /\
   same_cfg w (pci_read_config32 b d f o w).2) /\
  (v < 2 ^ 8 -> forall x, cfg (pci_write_config8 b d f o v w).2 x =
     if x =? A then accept A (cfg w A) (bf_set (cfg w A) (8 * (o mod 4)) 8 v) else cfg w x) /\
  (v < 2 ^ 16 -> forall x, cfg (pci_write_config16 b d f o v w).2 x =
     if x =? A then accept A (cfg w A) (bf_set (cfg w A) (16 * (o / 2 mod 2)) 16 v) else cfg w x) /\
  (v < 2 ^ 32 -> forall x, cfg (pci_write_config32 b d f o v w).2 x =
     if x =? A then accept A (cfg w A) v else cfg w x) /\
  (forall b' d' f' o', 0 <= b' < 256 -> 0 <= d' < 32 -> 0 <= f' < 8 -> 0 <= o' < 256 ->
     config_address b' d' f' o' = A -> b' = b /\ d' = d /\ f' = f /\ o' / 4 = o / 4).
Proof.
  intros Hb Hd Hf Ho Hv A.
  pose proof (config_address_range b d f o Hb Hd Hf Ho) as HA. fold A in HA.
  pose proof (byte_shift o ltac:(lia)) as E8. pose proof (half_shift o ltac:(lia)) as E16.
  destruct (read8_spec w b d f o Hb Hd Hf Ho) as [R8 S8]. destruct (read16_spec w b d f o Hb Hd Hf Ho) as [R16 S16].
  destruct (read32_spec w b d f o Hb Hd Hf Ho) as [R32 S32]. rewrite E8 in R8. rewrite E16 in R16.
  split_and_all; try done.
  - intros Hv8 x. unfold pci_write_config8. rewrite !io_bind_eq, E8. change 255 with (2 ^ 8 - 1).
    apply merge_write_spec; Z.div_mod_to_equations; lia.
  - intros Hv16 x. unfold pci_write_config16. rewrite !io_bind_eq, E16. change 65535 with (2 ^ 16 - 1).
    apply merge_write_spec; Z.div_mod_to_equations; lia.
  - intros Hv32 x. unfold pci_write_config32. rewrite !io_bind_eq. fold A.
    destruct (select_spec w A HA) as [H1 H2]. rewrite store_spec, H1, H2 by lia. case_if; [by subst x|done].
  - intros. apply config_address_inj; try done.
Qed.

(** ** Enumeration *)

(** The registers that identify a function (vendor and device, class codes) are read-only. *)
Definition ids_kept (w w' : W) : Prop :=
  forall b d f o, 0 <= b < 256 -> 0 <= d < 32 -> 0 <= f < 8 -> o = 0 \/ o = 8 ->
    cfg w' (config_address b d f o) = cfg w (config_address b d f o).

Lemma ids_refl w : ids_kept w w.
Proof. by intros b d f o. Qed.
Lemma ids_trans w1 w2 w3 : ids_kept w1 w2 -> ids_kept w2 w3 -> ids_kept w1 w3.
Proof. intros H1 H2 b d f o ????. by rewrite H2, H1. Qed.
Lemma same_ids w w' : same_cfg w w' -> ids_kept w w'.
Proof. intros H b d f o ????. apply H. Qed.

Lemma ld16_bytes m a : ld16 m a = ld8 m a + 256 * ld8 m (a + 1).
Proof. change (ld16 m a) with (u8 (m a) + 256 * (u8 (m (a + 1)) + 256 * 0)). unfold ld8. lia. Qed.

Definition loaded (w : W) (b d f i : Z) (p : mem) (v : W) : Prop :=
  (forall j, 0 <= j < i -> ld16 p (2 * j) =
     bf_get (cfg w (config_address b d f (2 * j))) ((2 * j &&& 2) * 8) 16) /\ same_cfg w v.

Lemma pci_load_words stack b d f w : 0 <= b < 256 -> 0 <= d < 32 -> 0 <= f < 8 ->
  loaded w b d f 32 (__pci_load stack b d f w).1 (__pci_load stack b d f w).2.
Proof.
  intros Hb Hd Hf. unfold __pci_load.
  apply (for_io_inv (loaded w b d f) (fun i p => v ← pci_read_config16 b d f (u8 (i * 2)); mret (st16 p (2 * i) v)) 32 0).
  - split; [lia|done].
  - intros i p v Hi [H1 H2]. rewrite io_bind_eq, io_ret_eq. cbn [fst snd].
    rewrite (u8_small (i * 2)), (Z.mul_comm i 2) by lia.
    destruct (read16_spec v b d f (2 * i) ltac:(lia) ltac:(lia) ltac:(lia) ltac:(lia)) as [R S].
    split; [|intros x; by rewrite S, H2]. intros j Hj. destruct (Z.eq_dec j i) as [->|Hne].
    + rewrite ldn_stn_same, R, H2. apply Z.mod_small. change (256 ^ Z.of_nat 2) with (2 ^ 16).
      apply bf_get_range. lia.
    + rewrite ldn_stn_disj by lia. apply H1. lia.
Qed.

Lemma half_bytes x : bf_get x 16 8 = bf_get x 16 16 mod 256 /\ bf_get x 24 8 = bf_get x 16 16 / 256.
Proof.
  unfold bf_get. rewrite !shiftr_div by lia. change (2 ^ 16) with 65536. change (2 ^ 24) with 16777216.
  change (2 ^ 8) with 256. Z.div_mod_to_equations. lia.
Qed.

Lemma class_bytes m c : ld16 m 10 = bf_get c 16 16 -> subclass m = bf_get c 16 8 /\ _class m = bf_get c 24 8.
Proof.
  intros H. destruct (half_bytes c) as [-> ->]. rewrite <- H, ld16_bytes. unfold subclass, _class.
  pose proof (u8_range (m 10)). pose proof (u8_range (m (10 + 1))). unfold ld8 in *.
  change (m 11) with (m (10 + 1)). Z.div_mod_to_equations. lia.
Qed.

Lemma pci_load_spec stack b d f w :
  0 <= b < 256 -> 0 <= d < 32 -> 0 <= f < 8 ->
  let r := __pci_load stack b d f w in
  vendorID r.1 = bf_get (cfg w (config_address b d f 0)) 0 16 /\
  subclass r.1 = bf_get (cfg w (config_address b d f 8)) 16 8 /\
  _class r.1 = bf_get (cfg w (config_address b d f 8)) 24 8 /\ same_cfg w r.2.
Proof.
  intros Hb Hd Hf r. pose proof (pci_load_words stack b d f w Hb Hd Hf) as H. fold r in H. clearbody r.
  destruct H as [H HS]. destruct (class_bytes r.1 (cfg w (config_address b d f 8))) as [H1 H2].
  { replace (config_address b d f 8) with (config_address b d f 10) by (rewrite !config_address_eq by lia; f_equal).
    apply (H 5). lia. }
  split_and_all; [apply (H 0); lia|done|done|done].
Qed.

(** *** The reference scan *)

Definition present (w : W) (b d f : Z) : bool := negb (bf_get (cfg w (config_address b d f 0)) 0 16 =? 65535).

(** Bus, device, function, vendor, class and subclass. *)
Definition description : Type := Z * Z * Z * Z * Z * Z.
Definition describe (w : W) (b d f : Z) : description :=
  (b, d, f, bf_get (cfg w (config_address b d f 0)) 0 16,
   bf_get (cfg w (config_address b d f 8)) 24 8, bf_get (cfg w (config_address b d f 8)) 16 8).

Definition if_present (w : W) (b d f : Z) : list description := if present w b d f then [describe w b d f] else [].
(** A device without function 0 is not there. *)
Definition functions_of (w : W) (b d : Z) : list description :=
  if present w b d 0 then describe w b d 0 :: flat_map (if_present w b d) (seqZ 1 7) else [].
Definition functions (w : W) : list description :=
  flat_map (fun b => flat_map (functions_of w b) (seqZ 0 32)) (seqZ 0 256).

(** What the device table shows of an entry. *)
Definition entry_view (e : pci_device_entry_t) : description :=
  (dev_bus e, dev_device e, dev_function e, vendorID (header e), _class (header e), subclass (header e)).

(** The probes made of a function: the registered drivers of its class, in order. *)
Definition probes (l : list (pci_driver_t W)) (x : description) : list (Z * Z * (Z * Z * Z)) :=
  let '(b, d, f, _, cl, sub) := x in
  flat_map (fun drv => if drv_used drv && (drv_class drv =? cl) && (drv_subclass drv =? sub)
                       then [(drv_class drv, drv_subclass drv, (b, d, f))] else []) l.

Context (log : W -> list (Z * Z * (Z * Z * Z))).
(** Probing is observed through [log], which ports do not touch. *)
Hypothesis log_in : forall n p w, log (inp n p w).2 = log w.
Hypothesis log_out : forall n p v w, log (outp n p v w).2 = log w.

(** A driver leaves the identification registers alone and logs its call. *)
Definition well_behaved (drv : pci_driver_t W) : Prop :=
  forall pci b d f w, ids_kept w (pcidrv drv pci b d f w).2 /\
    log (pcidrv drv pci b d f w).2 = log w ++ [(drv_class drv, drv_subclass drv, (b, d, f))].

Lemma read16_log b d f o w : log (pci_read_config16 b d f o w).2 = log w.
Proof.
  unfold pci_read_config16, inPortD, outPortD. rewrite !io_bind_eq, !io_ret_eq. cbn [snd]. by rewrite log_in, log_out.
Qed.

Lemma pci_load_log stack b d f w : log (__pci_load stack b d f w).2 = log w.
Proof.
  unfold __pci_load.
  apply (for_io_inv (fun _ _ v => log v = log w)
           (fun i p => v ← pci_read_config16 b d f (u8 (i * 2)); mret (st16 p (2 * i) v)) 32 0); [done|].
  intros i p v _ H. rewrite io_bind_eq, io_ret_eq. cbn [snd]. by rewrite read16_log.
Qed.

Lemma run_drivers_spec l pci b d f x w :
  Forall well_behaved l -> x = (b, d, f, vendorID pci, _class pci, subclass pci) ->
  let w' := (run_drivers pci b d f l w).2 in ids_kept w w' /\ log w' = log w ++ probes l x.
Proof.
  intros Hl ->. cbv zeta. revert w. induction Hl as [|drv l Hd _ IH]; intros w.
  - cbn. rewrite app_nil_r. split; [apply ids_refl|done].
  - cbn [run_drivers]. rewrite io_bind_eq. unfold run_driver. cbn [probes flat_map].
    destruct (drv_used drv && (drv_class drv =? _class pci) && (drv_subclass drv =? subclass pci)).
    + destruct (Hd pci b d f w) as [H1 H2]. destruct (IH (pcidrv drv pci b d f w).2) as [H3 H4].
      split; [by eapply ids_trans|]. rewrite H4, H2, <- app_assoc. done.
    + rewrite io_ret_eq. apply IH.
Qed.

(** The scan so far: the functions [l] are in the table, as many as fit, and were probed. *)
Definition scanned (w0 : W) (drvs : list (pci_driver_t W)) (l : list description) (s : pci_state W) (w : W) : Prop :=
  map entry_view (pci_devices s) = take 32 l /\ pci_drivers s = drvs /\ ids_kept w0 w /\
  log w = log w0 ++ flat_map (probes drvs) l.

Section Scan.
Context (w0 : W) (drvs : list (pci_driver_t W)) (Hdrvs : Forall well_behaved drvs) (stack : mem).

Lemma launch_spec l s pci b d f w x :
  scanned w0 drvs l s w -> x = (b, d, f, vendorID pci, _class pci, subclass pci) ->
  scanned w0 drvs (l ++ [x]) (__pci_launch s pci b d f w).1 (__pci_launch s pci b d f w).2.
Proof.
  intros (H1 & H2 & H3 & H4) Hx. unfold __pci_launch. cbv zeta. rewrite io_bind_eq, io_ret_eq. cbn [fst snd].
  match goal with |- scanned _ _ _ ?s' _ => set (s1 := s') end.
  assert (Hs : map entry_view (pci_devices s1) = take 32 (l ++ [x]) /\ pci_drivers s1 = drvs).
  { pose proof (f_equal length H1) as Hlen. rewrite length_map, length_take in Hlen. unfold s1, MAX_PCI_DEVICES. case_if.
    - cbn [pci_devices pci_drivers]. split; [|done]. rewrite map_app, H1, take_app_ge by lia.
      rewrite (take_ge l), (take_ge [x]) by (cbn; lia). cbn. by rewrite Hx.
    - split; [|done]. by rewrite H1, take_app_le by lia. }
  destruct Hs as [Hs1 Hs2]. rewrite Hs2. destruct (run_drivers_spec drvs pci b d f x w Hdrvs Hx) as [R1 R2].
  unfold scanned. split_and_all; [done|done|by eapply ids_trans|]. rewrite R2, H4, <- app_assoc, flat_map_app. cbn [flat_map].
  by rewrite app_nil_r.
Qed.

(** Loading a header: the scan goes on as before, with the header described. *)
Lemma load_spec l s b d f w :
  0 <= b < 256 -> 0 <= d < 32 -> 0 <= f < 8 -> scanned w0 drvs l s w ->
  let r := __pci_load stack b d f w in
  scanned w0 drvs l s r.2 /\ (vendorID r.1 =? 65535) = negb (present w0 b d f) /\
  describe w0 b d f = (b, d, f, vendorID r.1, _class r.1, subclass r.1).
Proof.
  intros Hb Hd Hf (H1 & H2 & H3 & H4). cbv zeta. destruct (pci_load_spec stack b d f w Hb Hd Hf) as (V & S & C & K).
  pose proof (pci_load_log stack b d f w) as L. rewrite (H3 b d f 8) in S, C by auto. rewrite (H3 b d f 0) in V by auto.
  unfold scanned, present, describe. rewrite negb_involutive, V, S, C. split_and_all; try done.
  - eapply ids_trans; [exact H3|by apply same_ids].
  - by rewrite L.
Qed.

Lemma scan_function_spec l s b d f w :
  0 <= b < 256 -> 0 <= d < 32 -> 0 <= f < 8 -> scanned w0 drvs l s w ->
  scanned w0 drvs (l ++ if_present w0 b d f) (scan_function stack b d f s w).1 (scan_function stack b d f s w).2.
Proof.
  intros Hb Hd Hf H. destruct (load_spec l s b d f w Hb Hd Hf H) as (H1 & H2 & H3).
  unfold scan_function. rewrite io_bind_eq. cbv zeta in H1, H2, H3.
  destruct (__pci_load stack b d f w) as [p w1]. cbn [fst snd] in *. rewrite H2. unfold if_present. destruct (present w0 b d f); cbn [negb].
  - by apply launch_spec.
  - rewrite app_nil_r. exact H1.
Qed.

Lemma scan_device_spec l s b d w :
  0 <= b < 256 -> 0 <= d < 32 -> scanned w0 drvs l s w ->
  scanned w0 drvs (l ++ functions_of w0 b d) (scan_device stack b d s w).1 (scan_device stack b d s w).2.
Proof.
  intros Hb Hd H. destruct (load_spec l s b d 0 w Hb Hd ltac:(lia) H) as (H1 & H2 & H3).
  unfold scan_device. rewrite io_bind_eq. cbv zeta in H1, H2, H3.
  destruct (__pci_load stack b d 0 w) as [p w1]. cbn [fst snd] in *. rewrite H2. unfold functions_of. destruct (present w0 b d 0); cbn [negb].
  - rewrite io_bind_eq. change (describe w0 b d 0 :: ?x) with ([describe w0 b d 0] ++ x). rewrite app_assoc.
    apply (for_io_flat (scanned w0 drvs) (if_present w0 b d) _ 7 1); [by apply launch_spec|].
    intros i l' s' w' Hi H'. apply scan_function_spec; [done|done|lia|done].
  - rewrite app_nil_r. exact H1.
Qed.
End Scan.

(** C26: Enumeration is complete: starting from an empty table, the device table ends up
    with the first 32 functions of the reference scan (every function present on a device
    whose function 0 is present, in bus, device and function order) with their addresses
    and identification, and each of them, whether it fitted into the table or not, was
    offered exactly once to every registered driver of its class and subclass, in
    registration order. *)
Theorem initworkspace_enumerates stack drvs w :
  Forall well_behaved drvs ->
  let r := initworkspace stack (PciState [] drvs) w in
  map entry_view (pci_devices r.1) = take 32 (functions w) /\ pci_drivers r.1 = drvs /\
  log r.2 = log w ++ flat_map (probes drvs) (functions w).
Proof.
  intros Hd r. assert (H : scanned w drvs ([] ++ functions w) r.1 r.2); [|by destruct H as (? & ? & ? & ?)].
  unfold r, initworkspace, functions.
  apply (for_io_flat (scanned w drvs) (fun b => flat_map (functions_of w b) (seqZ 0 32)) _ 256 0).
  - unfold scanned. split_and_all; [done|done|apply ids_refl|by rewrite app_nil_r].
  - intros b l s v Hb H. cbn beta. rewrite u8_small by lia.
    apply (for_io_flat (scanned w drvs) (functions_of w b) _ 32 0); [done|].
    intros d l' s' v' Hdv H'. by apply scan_device_spec.
Qed.
End Bus.

(** ** A bus with one storage controller *)

Record bus := Bus { bus_sel : Z; bus_regs : Z -> Z; bus_log : list (Z * Z * (Z * Z * Z)) }.

#[local] Instance bus_ports : PortIo bus := {
  inp n p := fun w => (if p =? 3324 then u32 (bus_regs w (bus_sel w)) else 0, w);
  outp n p v := fun w =>
    (tt, if p =? 3320 then Bus v (bus_regs w) (bus_log w)
         else if p =? 3324 then Bus (bus_sel w) (fun x => if x =? bus_sel w then v else bus_regs w x) (bus_log w)
         else w) }.

#[local] Instance bus_pci : PciBus bus.
Proof.
  refine {| cfg := fun w a => u32 (bus_regs w a); selected := bus_sel; accept := fun _ _ v => v |}.
  - intros w a. apply u32_range.
  - intros w a Ha. split; [done|]. by intros x.
  - intros w. split_and_all; [done|done|]. by intros x.
  - intros w v Hv. split; [done|]. intros x. cbn. case_if; [|done]. by apply u32_small.
Defined.

Lemma bus_log_in n p (w : bus) : bus_log (inp n p w).2 = bus_log w.
Proof. done. Qed.
Lemma bus_log_out n p v (w : bus) : bus_log (outp n p v w).2 = bus_log w.
Proof. cbn. by repeat case_if. Qed.

(** Device 3 of bus 0 is an NVMe controller. *)
Definition demo_regs (a : Z) : Z :=
  if a =? config_address 0 3 0 0 then 1055542 else if a =? config_address 0 3 0 8 then 17302018 else 4294967295.
Definition demo_bus : bus := Bus 0 demo_regs [].

Definition demo_driver : pci_driver_t bus :=
  PciDriver true 1 8 (fun _ b d f w => (tt, Bus (bus_sel w) (bus_regs w) (bus_log w ++ [(1, 8, (b, d, f))]))).

Lemma demo_driver_ok : well_behaved bus_log demo_driver.
Proof. intros pci b d f w. split; [|done]. by intros b' d' f' o. Qed.

Lemma initworkspace_enumerates_witness :
  let r := initworkspace (fun _ => 0) (PciState [] [demo_driver]) demo_bus in
  map entry_view (pci_devices r.1) = [(0, 3, 0, 6966, 1, 8)] /\ bus_log r.2 = [(1, 8, (0, 3, 0))].
Proof.
  destruct (initworkspace_enumerates bus_log bus_log_in bus_log_out (fun _ => 0) [demo_driver] demo_bus (Forall_cons_2 _ _ _ demo_driver_ok (Forall_nil_2 _))) as (H1 & _ & H3).
  assert (E : functions demo_bus = [(0, 3, 0, 6966, 1, 8)]) by (vm_compute; reflexivity).
  rewrite E in H1, H3. split; [exact H1|]. rewrite H3. vm_compute. reflexivity.
Defined.

Lemma config_accesses_exact_witness :
  (pci_read_config16 0 3 0 10 demo_bus).1 = 264 /\
  bf_get (cfg (pci_write_config16 0 3 0 4 6 demo_bus).2 (config_address 0 3 0 4)) 0 16 = 6.
Proof.
  destruct (config_accesses_exact demo_bus 0 3 0 10 0 ltac:(lia) ltac:(lia) ltac:(lia) ltac:(lia) ltac:(lia))
    as ((_ & H1 & _) & _).
  destruct (config_accesses_exact demo_bus 0 3 0 4 6 ltac:(lia) ltac:(lia) ltac:(lia) ltac:(lia) ltac:(lia))
    as (_ & _ & _ & H2 & _).
  split; [rewrite H1; vm_compute; reflexivity|]. rewrite H2 by lia. vm_compute. reflexivity.
Defined.
