(* ===== verification/Trap.v ===== *)
(** * Descriptor tables and exceptions (gdt.c, idt.c, util.c, asm/idt.asm)

    The descriptor tables are byte arrays, filled field by field as the sources do;
    [gate_target] and the [seg_] functions read them back the way the processor does.
    An exception pushes words on the stack; [exception_handler] takes its argument from
    there, by value. *)

From stdpp Require Import strings.
From S2P Require Import Prelude Mem Layout CString Printf PrintfProps Klog.

(** ** Segments *)

Definition gdt_entry_struct : layout :=
  [("limit_low", 2); ("base_low", 2); ("base_middle", 1); ("access", 1); ("limit_high:flags", 1); ("base_high", 1)]%string.
Definition gdt_tss_entry_struct : layout :=
  gdt_entry_struct ++ [("base_upper32", 4); ("reserved", 4)]%string.
Definition tss_entry_struct : layout := [("rsp0", 8); ("iopb_offset", 2)]%string.

Definition GDT_ENTRY_SIZE : Z := 8.
Definition TSS_SIZE : Z := 10.

Lemma gdt_layout :
  (offset_of gdt_entry_struct "access", offset_of gdt_entry_struct "limit_high:flags", size_of gdt_entry_struct,
   offset_of gdt_tss_entry_struct "base_upper32", size_of gdt_tss_entry_struct, size_of tss_entry_struct)
  = (Some 5, Some 6, GDT_ENTRY_SIZE, Some 8, 16, TSS_SIZE).
Proof. reflexivity. Qed.

(** [gdt_entries] is an object of its own; [limit_high] is not assigned. *)
Definition setGdtGate (gdt : mem) (num base limit access gran : Z) : mem :=
  let e := GDT_ENTRY_SIZE * num in
  let gdt := st16 gdt e (limit &&& 65535) in
  let gdt := st16 gdt (e + 2) (base &&& 65535) in
  let gdt := st8 gdt (e + 4) ((base >>> 16) &&& 255) in
  let gdt := st8 gdt (e + 7) ((base >>> 24) &&& 255) in
  let gdt := st8 gdt (e + 6) (bf_set (ld8 gdt (e + 6)) 4 4 (u8 gran)) in
  st8 gdt (e + 5) (u8 access).

(** The new contents of [tss] and of the table. *)
Definition write_tss (gdt tss : mem) (num base limit access gran : Z) : mem * mem :=
  let tss := memset tss 0 0 TSS_SIZE in
  let tss := st64 tss 0 18446744071562067968 in
  let tss := st16 tss 8 TSS_SIZE in
  let t := const [] in
  let t := st16 t 0 (limit &&& 65535) in
  let t := st16 t 2 (base &&& 65535) in
  let t := st8 t 4 ((base >>> 16) &&& 255) in
  let t := st8 t 7 ((base >>> 24) &&& 255) in
  let t := st32 t 8 (base >>> 32) in
  let t := st8 t 5 (u8 access) in
  let t := st8 t 6 (bf_set (ld8 t 6) 0 4 ((limit >>> 16) &&& 15)) in
  let t := st8 t 6 (bf_set (ld8 t 6) 4 4 (u8 gran &&& 15)) in
  let t := st32 t 12 0 in
  (floop 16 0 (fun i g => st8 g (GDT_ENTRY_SIZE * num + i) (ld8 t i)) gdt, tss).

(** [gdtr] is its base and limit. *)
Definition initGdt (gdt tss : mem) (gdt_addr tss_addr : Z) : mem * mem * (Z * Z) :=
  let gdt := setGdtGate gdt 0 0 0 0 0 in
  let gdt := setGdtGate gdt 1 0 1048575 154 10 in
  let gdt := setGdtGate gdt 2 0 1048575 146 12 in
  let gdt := setGdtGate gdt 3 0 1048575 250 10 in
  let gdt := setGdtGate gdt 4 0 1048575 242 12 in
  let (gdt, tss) := write_tss gdt tss 5 tss_addr (TSS_SIZE - 1) 137 0 in
  (gdt, tss, (gdt_addr, u16 (GDT_ENTRY_SIZE * 7 - 1))).

(** The processor's reading of a segment descriptor. *)
Definition seg_limit (gdt : mem) (e : Z) : Z := ld16 gdt e ||| (bf_get (ld8 gdt (e + 6)) 0 4 <<< 16).
Definition seg_base (gdt : mem) (e : Z) : Z := ld16 gdt (e + 2) ||| (ld8 gdt (e + 4) <<< 16) ||| (ld8 gdt (e + 7) <<< 24).
Definition seg_access (gdt : mem) (e : Z) : Z := ld8 gdt (e + 5).
Definition seg_flags (gdt : mem) (e : Z) : Z := bf_get (ld8 gdt (e + 6)) 4 4.
Definition tss_base (gdt : mem) (e : Z) : Z := seg_base gdt e ||| (ld32 gdt (e + 8) <<< 32).

(** ** Interrupt gates *)

Definition InterruptDescriptor64 : layout :=
  [("address_low", 2); ("selector", 2); ("ist", 1); ("flags", 1); ("address_mid", 2); ("address_high", 4); ("reserved", 4)]%string.

Lemma idt_layout :
  (offset_of InterruptDescriptor64 "selector", offset_of InterruptDescriptor64 "ist", offset_of InterruptDescriptor64 "flags",
   offset_of InterruptDescriptor64 "address_mid", offset_of InterruptDescriptor64 "address_high", size_of InterruptDescriptor64)
  = (Some 2, Some 4, Some 5, Some 6, Some 8, 16).
Proof. reflexivity. Qed.

(** [reserved] is not assigned. *)
Definition setIdtGate (idt : mem) (num base sel flags : Z) : mem :=
  let e := 16 * u8 num in
  let idt := st16 idt e (base &&& 65535) in
  let idt := st16 idt (e + 6) ((base >>> 16) &&& 65535) in
  let idt := st32 idt (e + 8) (base >>> 32) in
  let idt := st16 idt (e + 2) (u16 sel) in
  let idt := st8 idt (e + 5) (u8 flags) in
  st8 idt (e + 4) 0.

(** The functions the table points to. *)
Inductive handler :=
  | divideException | debugException | breakpointException | overflowException | boundRangeExceededException
  | invalidOpcodeException | deviceNotAvaliableException | doubleFaultException | coprocessorSegmentOverrunException
  | invalidTSSException | segmentNotPresentException | stackSegmentFaultException | generalProtectionFaultException
  | pageFaultException | floatingPointException | alignmentCheckException | machineCheckException
  | simdFloatingPointException | virtualisationException | apic_timer_handler | keyboardhandler_.

Definition gates : list (Z * handler) :=
  [(0, divideException); (1, debugException); (3, breakpointException); (4, overflowException);
   (5, boundRangeExceededException); (6, invalidOpcodeException); (7, deviceNotAvaliableException);
   (8, doubleFaultException); (9, coprocessorSegmentOverrunException); (10, invalidTSSException);
   (11, segmentNotPresentException); (12, stackSegmentFaultException); (13, generalProtectionFaultException);
   (14, pageFaultException); (16, floatingPointException); (17, alignmentCheckException); (18, machineCheckException);
   (19, simdFloatingPointException); (20, virtualisationException); (32, apic_timer_handler); (33, keyboardhandler_)].

Definition set_gates (addr : handler -> Z) (l : list (Z * handler)) (idt : mem) : mem :=
  foldl (fun t g => setIdtGate t g.1 (addr g.2) 8 142) idt l.

(** The table and [idtr]; [addr] is where the linker put the handlers. *)
Definition InitIdt (addr : handler -> Z) (idt : mem) (idt_addr : Z) : mem * (Z * Z) :=
  (set_gates addr gates (memset idt 0 0 4096), (idt_addr, u16 (16 * 256 - 1))).

(** Where the processor goes on vector [v]: a present 64-bit interrupt gate. *)
Definition gate_target (idt : mem) (v : Z) : option (Z * Z) :=
  let e := 16 * v in
  if ld8 idt (e + 5) =? 142
  then Some (ld16 idt (e + 2), ld16 idt e ||| (ld16 idt (e + 6) <<< 16) ||| (ld32 idt (e + 8) <<< 32))
  else None.

(** ** Exceptions *)

(** [struct IDTEFrame] *)
Definition IDTEFrame : layout :=
  [("cr2", 8); ("r15", 8); ("r14", 8); ("r13", 8); ("r12", 8); ("r11", 8); ("r10", 8); ("r9", 8); ("r8", 8); ("rbp", 8);
   ("rdi", 8); ("rsi", 8); ("rdx", 8); ("rcx", 8); ("rbx", 8); ("rax", 8); ("type", 8); ("code", 8); ("rip", 8); ("cs", 8);
   ("flags", 8); ("rsp", 8); ("ss", 8)]%string.

(** The words an entry stub of idt.asm pushes, in the order of the instructions. *)
Definition stub_pushes (h : handler) : list Z :=
  match h with
  | divideException => [0; 0] | debugException => [0; 1] | breakpointException => [0; 3] | overflowException => [0; 4]
  | boundRangeExceededException => [0; 5] | invalidOpcodeException => [0; 6] | deviceNotAvaliableException => [0; 7]
  | doubleFaultException => [8] | coprocessorSegmentOverrunException => [0; 9] | invalidTSSException => [10]
  | segmentNotPresentException => [11] | stackSegmentFaultException => [12] | generalProtectionFaultException => [13]
  | pageFaultException => [14] | floatingPointException => [0; 16] | alignmentCheckException => [17]
  | machineCheckException => [0; 18] | simdFloatingPointException => [0; 19] | virtualisationException => [0; 20]
  | apic_timer_handler | keyboardhandler_ => []
  end.

(** Vectors for which the processor pushes an error code. *)
Definition has_error_code (v : Z) : bool := (v =? 8) || ((10 <=? v) && (v <=? 14)) || (v =? 17).

Record registers := Registers {
  reg_rax : Z; reg_rbx : Z; reg_rcx : Z; reg_rdx : Z; reg_rsi : Z; reg_rdi : Z; reg_rbp : Z; reg_r8 : Z; reg_r9 : Z;
  reg_r10 : Z; reg_r11 : Z; reg_r12 : Z; reg_r13 : Z; reg_r14 : Z; reg_r15 : Z }.

(** What the processor saves: rip, cs, rflags, rsp and ss. *)
Record saved := Saved { sv_rip : Z; sv_cs : Z; sv_flags : Z; sv_rsp : Z; sv_ss : Z }.

(** The words [baseHandler] pushes, in the order of the instructions. *)
Definition base_pushes (r : registers) : list Z :=
  [reg_rax r; reg_rbx r; reg_rcx r; reg_rdx r; reg_rsi r; reg_rdi r; reg_rbp r; reg_r8 r; reg_r9 r; reg_r10 r;
   reg_r11 r; reg_r12 r; reg_r13 r; reg_r14 r; reg_r15 r].

(** The stack when [exception_handler] is called, from the top: what was pushed last
    comes first.  The handler's argument is a structure of 184 bytes, which the calling
    convention passes by value in memory, above the return address. *)
Definition stack_at_call (h : handler) (v error : Z) (r : registers) (sv : saved) : list Z :=
  rev (base_pushes r) ++ rev (stub_pushes h) ++ (if has_error_code v then [error] else [])
  ++ [sv_rip sv; sv_cs sv; sv_flags sv; sv_rsp sv; sv_ss sv].

Definition field (words : list Z) (f : string) : Z :=
  match offset_of IDTEFrame f with Some o => nth (Z.to_nat (o / 8)) words 0 | None => 0 end.

Definition exception_label (type : Z) : list Z :=
  if type =? 0 then chars "Divide by Zero Exception" else if type =? 1 then chars "Debug Exception"
  else if type =? 3 then chars "Breakpoint Exception" else if type =? 4 then chars "Overflow Exception"
  else if type =? 5 then chars "Bound Range Exceeded" else if type =? 6 then chars "Invalid Opcode Exception"
  else if type =? 7 then chars "Device Not Available" else if type =? 8 then chars "Double Fault"
  else if type =? 9 then chars "Coprocessor Segment Overrun" else if type =? 10 then chars "Invalid TSS"
  else if type =? 11 then chars "Segment Not Present" else if type =? 12 then chars "Stack-Segment Fault"
  else if type =? 13 then chars "General Protection Fault" else if type =? 14 then chars "Page Fault"
  else if type =? 16 then chars "Floating-Point Exception" else if type =? 17 then chars "Alignment Check"
  else if type =? 18 then chars "Machine Check" else if type =? 19 then chars "SIMD Floating-Point Exception"
  else if type =? 20 then chars "Virtualization Exception" else chars "Unknown Exception".

Definition dump_format : list Z :=
  chars "Registers:" ++ [10] ++ chars "RAX: %x RBX: %x RCX: %x RDX: %x" ++ [10]
  ++ chars "RSI: %x RDI: %x RBP: %x RSP: %x" ++ [10] ++ chars "R8:  %x R9:  %x R10: %x R11: %x" ++ [10]
  ++ chars "R12: %x R13: %x R14: %x R15: %x" ++ [10] ++ chars "RIP: %x CS: %x" ++ [10].

Definition dump_Registers (fuel : nat) (stack : mem) (w : list Z) : option kpend :=
  kprintf fuel stack (const dump_format, 0)
    ((fun f => VInt (field w f)) <$>
     ["rax"; "rbx"; "rcx"; "rdx"; "rsi"; "rdi"; "rbp"; "rsp"; "r8"; "r9"; "r10"; "r11"; "r12"; "r13"; "r14"; "r15";
      "rip"; "cs"]%string).

(** What is printed before the processor halts. *)
Definition exception_handler (fuel : nat) (stack : mem) (apic_ticks : Z) (w : list Z) : option (list kpend) :=
  dump ← dump_Registers fuel stack w;
  prefix ← klog fuel stack apic_ticks KLOG_ERROR (const (chars "TRAP"), 0);
  line ← kprintf fuel stack (const (chars "%s" ++ [10]), 0) [VStr (const (exception_label (field w "type")), 0)];
  Some [dump; prefix; line].

(** ** Gates *)

Lemma land_65535 x : x &&& 65535 = x mod 65536.
Proof. exact (land_mod x 16 ltac:(lia)). Qed.

(** A 64-bit address split into the three fields of a gate. *)
Lemma split_address base : 0 <= base < 2 ^ 64 ->
  (base mod 65536) ||| (((base / 65536) mod 65536) <<< 16) ||| (((base / 4294967296) mod 4294967296) <<< 32) = base.
Proof.
  intros Hb. change (2 ^ 64) with 18446744073709551616 in Hb.
  rewrite (lor_add_shift (base mod 65536)) by (change (2 ^ 16) with 65536; Z.div_mod_to_equations; lia).
  rewrite lor_add_shift by (change (2 ^ 16) with 65536; change (2 ^ 32) with 4294967296; Z.div_mod_to_equations; lia).
  change (2 ^ 16) with 65536. change (2 ^ 32) with 4294967296. Z.div_mod_to_equations. lia.
Qed.

Lemma setIdtGate_same idt num base :
  0 <= num < 256 -> 0 <= base < 2 ^ 64 -> gate_target (setIdtGate idt num base 8 142) num = Some (8, base).
Proof.
  intros Hn Hb. unfold gate_target, setIdtGate. cbv zeta. rewrite u8_small by lia.
  rewrite !land_65535, !shiftr_div by lia. change (2 ^ 16) with 65536. change (2 ^ 32) with 4294967296.
  byte_simpl. cbn [Z.of_nat Pos.of_succ_nat Pos.succ]. change (256 ^ 1) with 256. change (256 ^ 2) with 65536.
  change (256 ^ 4) with 4294967296. change (u8 142 mod 256 =? 142) with true. change (u16 8 mod 65536) with 8. cbv iota.
  rewrite !Z.mod_mod by lia. by rewrite split_address.
Qed.

Lemma setIdtGate_other idt num base v :
  0 <= num < 256 -> v <> num -> gate_target (setIdtGate idt num base 8 142) v = gate_target idt v.
Proof. intros Hn Hv. unfold gate_target, setIdtGate. cbv zeta. rewrite u8_small by lia. by byte_simpl. Qed.

Definition find_gate (l : list (Z * handler)) (v : Z) : option handler := snd <$> List.find (fun g => g.1 =? v) l.

Lemma set_gates_target addr l idt v :
  (forall h, 0 <= addr h < 2 ^ 64) -> Forall (fun g => 0 <= g.1 < 256) l -> NoDup (map fst l) ->
  gate_target (set_gates addr l idt) v =
    match find_gate l v with Some h => Some (8, addr h) | None => gate_target idt v end.
Proof.
  intros Ha Hl. revert idt. induction Hl as [|[n h] l Hn _ IH]; intros idt Hd; [done|].
  cbn [map fst] in Hd. apply NoDup_cons in Hd as [Hni Hd].
  change (set_gates addr ((n, h) :: l) idt) with (set_gates addr l (setIdtGate idt n (addr h) 8 142)).
  rewrite IH by done. unfold find_gate. cbn [List.find fst]. cbn [fst] in Hn. case_if.
  - subst v. destruct (List.find _ l) as [[n' h']|] eqn:E.
    + apply find_some in E as [E1 E2]. cbn in E2. bool_to_prop. subst n'. exfalso. apply Hni.
      apply list_elem_of_In. by apply (in_map fst) in E1.
    + cbn. by apply setIdtGate_same.
  - destruct (List.find _ l) as [[n' h']|]; [done|]. cbn. apply setIdtGate_other; [done|lia].
Qed.

(** The interrupt table sends each vector to its handler: after [InitIdt], whatever
    the memory held before and wherever the handlers are linked, the processor finds a
    present 64-bit interrupt gate with the kernel code selector and the full handler
    address for exactly the 21 vectors set up, no gate for any other vector below 256,
    and the limit loaded covers exactly the 256 gates. *)
Theorem idt_dispatches addr idt idt_addr v :
  (forall h, 0 <= addr h < 2 ^ 64) -> 0 <= v < 256 ->
  gate_target (InitIdt addr idt idt_addr).1 v = (fun h => (8, addr h)) <$> find_gate gates v /\
  (InitIdt addr idt idt_addr).2 = (idt_addr, 4095).
Proof.
  intros Ha Hv. split; [|done]. unfold InitIdt. cbn [fst]. rewrite set_gates_target; [|done| |].
  - destruct (find_gate gates v); [done|]. unfold gate_target, ld8. cbv zeta. rewrite memset_at by lia.
    by replace ((_ <=? _) && (_ <? _)) with true by lia.
  - repeat constructor; cbn; lia.
  - apply (bool_decide_unpack _). vm_compute. done.
Qed.

Lemma idt_dispatches_witness :
  gate_target (InitIdt (fun _ => 18446744071562068000) (fun _ => 255) 4096).1 14 = Some (8, 18446744071562068000).
Proof.
  destruct (idt_dispatches (fun _ => 18446744071562068000) (fun _ => 255) 4096 14) as [H _]; [lia|lia|]. exact H.
Defined.

(** ** The exception frame *)

(** The structure starts with [cr2], which no stub pushes: every member is read one word
    above its place. *)
Lemma frame_shifted h v error r sv :
  find_gate gates v = Some h -> v < 32 ->
  let w := stack_at_call h v error r sv in
  let e := if has_error_code v then error else 0 in
  field w "rax" = v /\ field w "type" = e /\ field w "code" = sv_rip sv /\ field w "rip" = sv_cs sv /\
  field w "cs" = sv_flags sv /\ field w "rsp" = sv_ss sv /\ field w "rbx" = reg_rax r /\ field w "cr2" = reg_r15 r.
Proof.
  intros Hg Hv. unfold find_gate in Hg. destruct (List.find _ gates) as [[v' h']|] eqn:E; [|done].
  cbn in Hg. injection Hg as ->. apply find_some in E as [Hin E]. cbn in E. bool_to_prop. subst v'.
  cbn in Hin. repeat destruct Hin as [Hin|Hin]; try contradiction; injection Hin as <- <-; try lia;
    destruct r, sv; repeat split; reflexivity.
Qed.

(** [exception_handler] prints the label of the word it finds as the type. *)
Lemma label_printed fuel stack label :
  Forall (fun c => 0 < c < 256) label -> (length label < fuel)%nat -> (4 <= fuel)%nat ->
  Z.of_nat (length label) <= 1000 ->
  exists r, kprintf fuel stack (const (chars "%s" ++ [10]), 0) [VStr (const label, 0)]
            = Some (KpRet (label ++ [10]) r).
Proof.
  intros Hl Hf Hf' Hn. eexists. apply (kprintf_ok fuel fuel stack (const (chars "%s" ++ [10])) 0 [Str; Lit 10]).
  - apply (cstr_const (chars "%s" ++ [10])). repeat constructor.
  - repeat constructor; discriminate.
  - apply render_str; [by apply cstr_const|done|]. repeat constructor.
  - rewrite length_app. cbn [length]. lia.
  - cbn. lia.
  - lia.
Qed.

Lemma exception_label_ok type :
  Forall (fun c => 0 < c < 256) (exception_label type) /\ (length (exception_label type) <= 29)%nat.
Proof. unfold exception_label. repeat case_if; (split; [repeat constructor|cbn; lia]). Qed.

(** A format of literal text and [%x] only, applied to numbers. *)
Fixpoint hex_items (l : list Z) : list item :=
  match l with
  | 37 :: 120 :: l' => Hex :: hex_items l'
  | c :: l' => Lit c :: hex_items l'
  | [] => []
  end.

Definition lit_or_hex (it : item) : bool :=
  match it with Lit c => negb (c =? 0) && negb (c =? 37) && negb (c =? ESCAPE) | Hex => true | _ => false end.

Lemma lit_or_hex_ok its : forallb lit_or_hex its = true -> Forall item_ok its.
Proof.
  intros H. apply Forall_forall. intros it Hit. rewrite forallb_forall in H.
  apply list_elem_of_In in Hit. pose proof (H it Hit) as Hi. destruct it; try done. cbn in Hi. bool_to_prop. done.
Qed.

Definition conversions (its : list item) : nat := length (List.filter (fun it => match it with Hex => true | _ => false end) its).

Lemma hex_renders N its args :
  forallb lit_or_hex its = true -> (conversions its <= length args)%nat ->
  exists out, renders N its (VInt <$> args) out /\ (length out <= 10 * length its)%nat.
Proof.
  revert args. induction its as [|it its IH]; intros args H Ha; [exists []; split; [constructor|cbn; lia]|].
  cbn [forallb] in H. apply andb_true_iff in H as [Hi H]. destruct it as [c| | | | | |]; try done.
  - destruct (IH args H Ha) as (out & H1 & H2). exists (c :: out). split; [by constructor|cbn; lia].
  - destruct args as [|n args]; [cbn in Ha; lia|]. destruct (IH args H) as (out & H1 & H2); [cbn in Ha; unfold conversions; lia|].
    exists (hexadecimal (u32 n) ++ out). split; [rewrite fmap_cons; by apply render_hex|].
    rewrite length_app. unfold hexadecimal. rewrite length_app.
    destruct (hexds_spec 8 (u32 n) ltac:(lia) (u32_range n)) as [_ Hl]. cbn [length]. case_if; cbn [length]; lia.
Qed.

Lemma dump_returns fuel stack w : (200 <= fuel)%nat -> exists r, dump_Registers fuel stack w = Some r.
Proof.
  intros Hf. unfold dump_Registers.
  destruct (hex_renders fuel (hex_items dump_format) (field w <$>
     ["rax"; "rbx"; "rcx"; "rdx"; "rsi"; "rdi"; "rbp"; "rsp"; "r8"; "r9"; "r10"; "r11"; "r12"; "r13"; "r14"; "r15";
      "rip"; "cs"]%string)) as (out & H1 & H2).
  - vm_compute. reflexivity.
  - apply Nat.leb_le. vm_compute. reflexivity.
  - eexists. assert (length (hex_items dump_format) = 136)%nat as HL by (vm_compute; reflexivity).
    apply (kprintf_ok fuel fuel stack (const dump_format) 0 (hex_items dump_format)).
    + assert (text (hex_items dump_format) = dump_format) as -> by (vm_compute; reflexivity). apply cstr_const.
      apply (bool_decide_unpack _). vm_compute. exact I.
    + apply lit_or_hex_ok. vm_compute. reflexivity.
    + rewrite <- list_fmap_compose in H1. exact H1.
    + rewrite HL in H2. lia.
    + assert (length (text (hex_items dump_format)) = 154)%nat as -> by (vm_compute; reflexivity). lia.
    + lia.
Qed.

(** The cause reported for an exception is the error code, not the vector.  The
    frame structure starts with a [cr2] word that the assembly stubs do not push, so
    every member is read one word too high: for each of the 19 exceptions set up,
    [registers.type] is the error code the processor pushed (0 where the stub pushes a
    dummy).  The handler's output completes, and its last line names the exception with
    that number: "Divide by Zero Exception" for every exception without an error code,
    a breakpoint or an invalid opcode included. *)
Theorem exceptions_named_by_error_code fuel stack ticks h v error r sv :
  find_gate gates v = Some h -> v < 32 -> (200 <= fuel)%nat ->
  field (stack_at_call h v error r sv) "type" = (if has_error_code v then error else 0) /\
  exists dump prefix n,
    exception_handler fuel stack ticks (stack_at_call h v error r sv) =
      Some [dump; prefix; KpRet (exception_label (if has_error_code v then error else 0) ++ [10]) n].
Proof.
  intros Hg Hv Hf. destruct (frame_shifted h v error r sv Hg Hv) as (_ & Ht & _). split; [done|].
  unfold exception_handler. rewrite Ht. destruct (dump_returns fuel stack (stack_at_call h v error r sv) Hf) as [dump ->].
  destruct (klog_ok fuel stack ticks KLOG_ERROR (const (chars "TRAP")) 0 (chars "TRAP")) as [Hk _];
    [apply cstr_const; by repeat constructor|cbn; lia|lia|cbn; lia|].
  destruct (exception_label_ok (if has_error_code v then error else 0)) as [H1 H2].
  destruct (label_printed fuel stack _ H1 ltac:(lia) ltac:(lia) ltac:(lia)) as [n Hl].
  cbn [mbind option_bind]. rewrite Hk. cbn [mbind option_bind]. rewrite Hl. by eexists _, _, _.
Qed.

(** An invalid opcode is reported as a division by zero. *)
Lemma exceptions_named_by_error_code_witness :
  exists dump prefix n,
    exception_handler 200 (fun _ => 0) 5 (stack_at_call invalidOpcodeException 6 0
      (Registers 1 2 3 4 5 6 7 8 9 10 11 12 13 14 15) (Saved 4096 8 2 8192 16))
    = Some [dump; prefix; KpRet (chars "Divide by Zero Exception" ++ [10]) n].
Proof.
  destruct (exceptions_named_by_error_code 200 (fun _ => 0) 5 invalidOpcodeException 6 0
    (Registers 1 2 3 4 5 6 7 8 9 10 11 12 13 14 15) (Saved 4096 8 2 8192 16) eq_refl ltac:(lia) ltac:(lia)) as [_ H].
  exact H.
Defined.

(** ** Segments *)

(** The descriptors [initGdt] builds in a zeroed table, as the processor reads them:
    base, limit, access byte and flags.  The limits asked for are 0xFFFFF, but only their
    low 16 bits are stored. *)
Lemma initGdt_segments gdt_addr tss_addr :
  let r := initGdt (fun _ => 0) (fun _ => 0) gdt_addr tss_addr in
  let gdt := r.1.1 in let tss := r.1.2 in
  (forall n a fl, In (n, a, fl) [(1, 154, 10); (2, 146, 12); (3, 250, 10); (4, 242, 12)] ->
     seg_base gdt (8 * n) = 0 /\ seg_limit gdt (8 * n) = 65535 /\ seg_access gdt (8 * n) = a /\ seg_flags gdt (8 * n) = fl) /\
  seg_access gdt 40 = 137 /\ seg_limit gdt 40 = 9 /\
  ld64 tss 0 = 18446744071562067968 /\ ld16 tss 8 = 10 /\ r.2 = (gdt_addr, 55).
Proof.
  cbv zeta. split_and_all.
  - intros n a fl Hin. cbn in Hin. repeat destruct Hin as [Hin|Hin]; try contradiction; injection Hin as <- <- <-;
      repeat split; vm_compute; reflexivity.
  - vm_compute. reflexivity.
  - vm_compute. reflexivity.
  - vm_compute. reflexivity.
  - vm_compute. reflexivity.
  - reflexivity.
Qed.
