(* ===== verification/Apic.v ===== *)
(** * Interrupt controllers (apic.c, apic.h, acpi.h; initKeyboard of keyboard.c)

    The I/O APIC and the local APIC are device memory ([Mmio]); the ACPI tables are
    firmware memory [t], which the kernel only reads and the page allocator does not own.
    [init_apic] walks the interrupt controller table (MADT) and maps the devices with
    [Paging.map_page]. *)

From stdpp Require Import strings.
From S2P Require Import Prelude Mem Layout CString Frames Pmm Paging Printf Hw.

(** ** Tables (acpi.h, apic.h) *)

Definition RSDP : layout := [("signature", 8); ("checksum", 1); ("OEMID", 6); ("revision", 1); ("rsdt_address", 4)]%string.
Definition ISDTHeader : layout :=
  [("signature", 4); ("length", 4); ("revision", 1); ("checksum", 1); ("OEM_id", 6); ("OEM_table_id", 8);
   ("OEM_revision", 4); ("creator_id", 4); ("creator_revision", 4)]%string.
Definition MADT : layout := ISDTHeader ++ [("local_apic_addr", 4); ("flags", 4)]%string.
Definition MADTEntryHeader : layout := [("entry_type", 1); ("record_length", 1)]%string.
Definition IOApic : layout :=
  MADTEntryHeader ++ [("ioapic_id", 1); ("rsvd", 1); ("ioapic_addr", 4); ("global_system_interrupt_base", 4)]%string.
Definition IOApicInterruptSourceOverride : layout :=
  MADTEntryHeader ++ [("bus_source", 1); ("irq_source", 1); ("global_system_interrupt", 4); ("flags", 2)]%string.

Lemma acpi_layouts :
  (offset_of RSDP "rsdt_address", offset_of ISDTHeader "length", size_of ISDTHeader, offset_of MADT "local_apic_addr",
   size_of MADT, offset_of IOApic "ioapic_addr", offset_of IOApic "global_system_interrupt_base", size_of IOApic)
  = (Some 16, Some 4, 36, Some 36, 44, Some 4, Some 8, 12) /\
  (offset_of IOApicInterruptSourceOverride "irq_source", offset_of IOApicInterruptSourceOverride "global_system_interrupt",
   offset_of IOApicInterruptSourceOverride "flags", size_of IOApicInterruptSourceOverride) = (Some 3, Some 4, Some 8, 10).
Proof. split; reflexivity. Qed.

Definition APIC_TYPE_IO : Z := 1.
Definition APIC_TYPE_IO_OVERRIDE : Z := 2.
Definition MADT_HEADER : Z := 44.

(** The members of an entry at address [e]. *)
Definition entry_type (t : mem) (e : Z) : Z := ld8 t e.
Definition record_length (t : mem) (e : Z) : Z := ld8 t (e + 1).
Definition irq_source (t : mem) (e : Z) : Z := ld8 t (e + 3).
Definition global_system_interrupt (t : mem) (e : Z) : Z := ld32 t (e + 4).

Record ioapic := IoApic { ioapic_id : Z; ioapic_address : Z; global_system_interrupt_base : Z }.
Definition read_ioapic_entry (t : mem) (e : Z) : ioapic := IoApic (ld8 t (e + 2)) (ld32 t (e + 4)) (ld32 t (e + 8)).

(** ** The fields of [kernel] *)

Record apics := Apics {
  lapic_base : Z;
  ioapic_addr : Z;
  ioapic_device : ioapic;
  irq_overrides : list Z;
  iso : Z }.

(** [kernel] is zeroed at load time. *)
Definition no_apics : apics := Apics 0 0 (IoApic 0 0 0) (replicate 16 0) 0.

Section Registers.
Context (hhdm : Z) {W : Type} `{!Mmio W}.

Definition read_ioapic (ioapic_addr reg : Z) : io W Z :=
  let virt := u64 (ioapic_addr + hhdm) in
  mmio_st 4 virt reg;; v ← mmio_ld 4 (u64 (virt + 16)); mret (u32 v).

Definition write_ioapic (ioapic_addr reg value : Z) : io W unit :=
  let virt := u64 (ioapic_addr + hhdm) in
  mmio_st 4 virt reg;; mmio_st 4 (u64 (virt + 16)) value.

Definition read_lapic (base reg : Z) : io W Z := v ← mmio_ld 4 (u64 (base + reg)); mret (u32 v).
Definition write_lapic (base reg_offset val : Z) : io W unit := mmio_st 4 (u64 (base + reg_offset)) (u32 val).

Definition LAPIC_TASK_PRIORITY_REGISTER : Z := 128.
Definition LAPIC_EOI_REGISTER : Z := 176.
Definition LAPIC_DESTINATION_FORMAT_REGISTER : Z := 224.
Definition LAPIC_SPURIOUS_INTERRUPT_VECTOR_REGISTER : Z := 240.

(** [flags] is not used. *)
Definition set_ioapic_entry (k : apics) (vector irq flags lapic : Z) : io W unit :=
  let ioapic_info := u64 (lapic <<< 56) ||| (u8 vector &&& 255) in
  let ioapic_info := ioapic_info &&& u64 (Z.lnot (1 <<< 16)) in
  let ioapic_info := ioapic_info &&& u64 (Z.lnot (1 <<< 15)) in
  let ioapic_info := ioapic_info &&& u64 (Z.lnot (1 <<< 13)) in
  let irq_register := u32 (u32 (u8 irq - global_system_interrupt_base (ioapic_device k)) * 2 + 16) in
  write_ioapic (ioapic_addr k) irq_register (u32 ioapic_info);;
  write_ioapic (ioapic_addr k) (u32 (irq_register + 1)) (u32 (ioapic_info >>> 32)).

Definition unmask_ioapic (k : apics) (gsi : Z) : io W unit :=
  let addr := ioapic_address (ioapic_device k) in
  let reg_low := u32 (16 + u32 (gsi * 2)) in
  low ← read_ioapic addr reg_low;
  write_ioapic addr reg_low (low &&& u32 (Z.lnot (1 <<< 16))).

Definition mask_ioapic (k : apics) (gsi : Z) : io W unit :=
  let addr := ioapic_address (ioapic_device k) in
  let reg_low := u32 (16 + u32 (gsi * 2)) in
  low ← read_ioapic addr reg_low;
  write_ioapic addr reg_low (low ||| (1 <<< 16)).

Definition end_of_interrupt (k : apics) : io W unit := write_lapic (lapic_base k) LAPIC_EOI_REGISTER 0.

Definition init_local_apic (lapic_addr : Z) : io W unit :=
  write_lapic lapic_addr LAPIC_SPURIOUS_INTERRUPT_VECTOR_REGISTER 511;;
  write_lapic lapic_addr LAPIC_TASK_PRIORITY_REGISTER 0;;
  write_lapic lapic_addr LAPIC_DESTINATION_FORMAT_REGISTER 4294967295.

Definition verify_apic `{!Cpu W} : io W bool := r ← cpuid 1; mret (truthy (r.2 &&& (1 <<< 9))).

(** [initKeyboard]: the entry of pin 1, the mask of the pin the override names. *)
Definition initKeyboard (k : apics) : io W unit :=
  let gsi := nth 1 (irq_overrides k) 0 in
  set_ioapic_entry k 33 1 0 0;; unmask_ioapic k gsi.
End Registers.

(** ** Walking the tables *)

Section Walk.
Context {hhdm : Z} {S : Type} `{FA : FrameAllocator hhdm S}.

(** 0 when no entry has the signature; the number of entries wraps around when the table
    is shorter than its header. *)
Definition find_MADT (t : mem) (root_rsdt : Z) : Z :=
  let num_entries := u64 (ld32 t (root_rsdt + 4) - 36) / 4 in
  match ploop (Z.to_nat num_entries) 0
    (fun i (_ : unit) =>
       let this_header := u64 (ld32 t (root_rsdt + 36 + 4 * i) + hhdm) in
       if memcmp2 t this_header (const (chars "APIC")) 0 4 =? 0 then inl this_header else inr tt) tt with
  | inl h => h
  | inr _ => 0
  end.

(** What can end the boot: [halt], or a page table operation that does not return. *)
Inductive ended (A : Type) := Done (a : A) | Halted | Stuck.
Arguments Done {A} a.
Arguments Halted {A}.
Arguments Stuck {A}.

Record walk_state := Walk { wk_offset : Z; wk_index : Z; wk_count : Z; wk_k : apics; wk_s : S }.

Definition mapped (PML4 : Z) (s : S) (virt phys : Z) (k : S -> ended walk_state + walk_state) : ended walk_state + walk_state :=
  match map_page PML4 s virt phys (KERNEL_PFLAG_PRESENT ||| KERNEL_PFLAG_WRITE) 1 with
  | Some s' => k s'
  | None => inl Stuck
  end.

(** The bottom of the loop: the next offset, and the limit on the number of entries. *)
Definition next_entry (w : walk_state) (len : Z) : ended walk_state + walk_state :=
  let w' := Walk (u64 (wk_offset w + len)) (wk_index w + 1) (wk_count w) (wk_k w) (wk_s w) in
  if 256 <? wk_index w' then inl Halted else inr w'.

Definition walk_step (t : mem) (PML4 madt madt_end : Z) (w : walk_state) : ended walk_state + walk_state :=
  if negb (wk_offset w <? madt_end) then inl (Done w)
  else
    let entry := madt + wk_offset w in
    let len := record_length t entry in
    let k := wk_k w in
    if (len <? 2) || (madt_end <? u64 (wk_offset w + len)) then inl Halted
    else if entry_type t entry =? APIC_TYPE_IO then
      let device := read_ioapic_entry t entry in
      let phys := ioapic_address device in
      let k' := Apics (lapic_base k) phys device (irq_overrides k) (iso k) in
      mapped PML4 (wk_s w) (u64 (phys + hhdm)) phys (fun s =>
        next_entry (Walk (wk_offset w) (wk_index w) (wk_count w + 1) k' s) len)
    else if entry_type t entry =? APIC_TYPE_IO_OVERRIDE then
      let src := irq_source t entry in
      let ov := if src <? 16 then <[Z.to_nat src := global_system_interrupt t entry]> (irq_overrides k)
                else irq_overrides k in
      next_entry (Walk (wk_offset w) (wk_index w) (wk_count w)
        (Apics (lapic_base k) (ioapic_addr k) (ioapic_device k) ov entry) (wk_s w)) len
    else next_entry w len.

(** 257 rounds and the last test. *)
Definition walk_MADT (t : mem) (PML4 madt madt_end : Z) (w : walk_state) : option (ended walk_state) :=
  wloop 259 (walk_step t PML4 madt madt_end) w.

Context {W : Type} `{!Mmio W} `{!Cpu W}.

(** [rsdp] is [kernel.rsdp_table].  The answer: the fields, the page tables, the number of
    I/O APICs. *)
Definition init_apic (t : mem) (rsdp PML4 : Z) (s : S) : io W (option (ended walk_state)) :=
  if rsdp =? 0 then mret (Some Halted)
  else
    let rsdt := u64 (ld32 t (rsdp + 16) + hhdm) in
    if rsdt =? 0 then mret (Some Halted)
    else
      ok ← verify_apic;
      if negb ok then mret (Some Halted)
      else
        let madt := find_MADT t rsdt in
        if madt =? 0 then mret (Some Halted)
        else
          let lapic_phys := ld32 t (madt + 36) in
          let base := u64 (lapic_phys + hhdm) in
          match map_page PML4 s base lapic_phys (KERNEL_PFLAG_PRESENT ||| KERNEL_PFLAG_WRITE) 1 with
          | None => mret (Some Stuck)
          | Some s' =>
              init_local_apic base;;
              mret (walk_MADT t PML4 madt (ld32 t (madt + 4))
                (Walk MADT_HEADER 0 0 (Apics base 0 (IoApic 0 0 0) (seqZ 0 16) 0) s'))
          end.
End Walk.
Arguments Done {A} a.
Arguments Halted {A}.
Arguments Stuck {A}.
Arguments walk_state S : clear implicits.
