(* ===== verification/ApicProps.v ===== *)
(** * Interrupt controllers: the MADT walk and the routing of pins

    [madt_walk_exact]: the walk accepts exactly the tables whose records tile the table,
    and leaves the overrides and the I/O APIC the records describe.  [pin_routed] and the
    lemmas around it: what the register accesses do to the redirection table. *)

From S2P Require Import Prelude Mem Layout CString Frames Pmm Paging Printf Hw Apic.

(** ** Records of the table *)

Section Records.
Context (t : mem) (madt madt_end : Z).

(** The records from offset [o] on end exactly at the end of the table. *)
Inductive tiles : Z -> list Z -> Prop :=
| tiles_end o : madt_end <= o -> tiles o []
| tiles_record o l : o < madt_end -> 2 <= record_length t (madt + o) -> o + record_length t (madt + o) <= madt_end ->
    tiles (o + record_length t (madt + o)) l -> tiles o (o :: l).

Definition is_ioapic (o : Z) : bool := entry_type t (madt + o) =? 1.
Definition overrides_irq (irq o : Z) : bool := (entry_type t (madt + o) =? 2) && (irq_source t (madt + o) =? irq).

(** The records in which a later one wins. *)
Definition last_such (p : Z -> bool) (l : list Z) : option Z := last (List.filter p l).

(** The interrupt a legacy line arrives at: what the last override says, or the line. *)
Definition gsi_of (l : list Z) (irq : Z) : Z :=
  match last_such (overrides_irq irq) l with Some o => global_system_interrupt t (madt + o) | None => irq end.

Lemma last_such_cons p o l :
  last_such p (o :: l) = match last_such p l with Some x => Some x | None => if p o then Some o else None end.
Proof.
  unfold last_such. cbn [List.filter]. destruct (p o); [|by destruct (last (List.filter p l))].
  rewrite last_cons. by destruct (last (List.filter p l)).
Qed.
End Records.

Section Walk.
Context {hhdm : Z} {S : Type} `{FA : FrameAllocator hhdm S}.
Context (t : mem) (PML4 madt madt_end : Z).
Hypothesis Hend : 0 <= madt_end < 2 ^ 32.

(** The state after the records [l], for a walk that began with the state [w]. *)
Record after (w : walk_state S) (l : list Z) (w' : walk_state S) : Prop := {
  af_lapic : lapic_base (wk_k w') = lapic_base (wk_k w);
  af_count : wk_count w' = wk_count w + Z.of_nat (length (List.filter (is_ioapic t madt) l));
  af_index : wk_index w' = wk_index w + Z.of_nat (length l);
  af_device : ioapic_device (wk_k w') =
    match last_such (is_ioapic t madt) l with Some o => read_ioapic_entry t (madt + o) | None => ioapic_device (wk_k w) end;
  af_addr : ioapic_addr (wk_k w') =
    match last_such (is_ioapic t madt) l with Some o => ioapic_address (read_ioapic_entry t (madt + o)) | None => ioapic_addr (wk_k w) end;
  af_length : length (irq_overrides (wk_k w')) = length (irq_overrides (wk_k w));
  af_overrides i : 0 <= i < 16 -> nth (Z.to_nat i) (irq_overrides (wk_k w')) 0 =
    match last_such (overrides_irq t madt i) l with
    | Some o => global_system_interrupt t (madt + o) | None => nth (Z.to_nat i) (irq_overrides (wk_k w)) 0 end }.

Lemma after_nil w : after w [] w.
Proof. split; cbn; try done; try lia. Qed.

Lemma after_cons w o l w1 w' : after w [o] w1 -> after w1 l w' -> after w (o :: l) w'.
Proof.
  intros H1 H2. split.
  - by rewrite (af_lapic _ _ _ H2), (af_lapic _ _ _ H1).
  - rewrite (af_count _ _ _ H2), (af_count _ _ _ H1). cbn [List.filter]. destruct (is_ioapic t madt o); cbn [length]; lia.
  - rewrite (af_index _ _ _ H2), (af_index _ _ _ H1). cbn [length]. lia.
  - rewrite (af_device _ _ _ H2), (af_device _ _ _ H1), (last_such_cons _ o l), (last_such_cons _ o []).
    destruct (last_such _ l); [done|]. by destruct (is_ioapic t madt o).
  - rewrite (af_addr _ _ _ H2), (af_addr _ _ _ H1), (last_such_cons _ o l), (last_such_cons _ o []).
    destruct (last_such _ l); [done|]. by destruct (is_ioapic t madt o).
  - by rewrite (af_length _ _ _ H2), (af_length _ _ _ H1).
  - intros i Hi. rewrite (af_overrides _ _ _ H2) by done. rewrite (af_overrides _ _ _ H1) by done.
    rewrite (last_such_cons _ o l), (last_such_cons _ o []).
    destruct (last_such _ l); [done|]. by destruct (overrides_irq t madt i o).
Qed.

Lemma nth_insert (l : list Z) (i j : nat) x d :
  (i < length l)%nat -> nth j (<[i := x]> l) d = if (j =? i)%nat then x else nth j l d.
Proof.
  intros Hi. rewrite !nth_lookup. destruct (Nat.eqb_spec j i) as [->|Hne].
  - by rewrite list_lookup_insert_eq.
  - by rewrite list_lookup_insert_ne by done.
Qed.

Lemma last_such_one p o : last_such p [o] = if p o then Some o else None.
Proof. apply (last_such_cons p o []). Qed.

(** The three kinds of records. *)
Lemma after_ioapic w w1 o :
  is_ioapic t madt o = true -> wk_count w1 = wk_count w + 1 -> wk_index w1 = wk_index w + 1 ->
  wk_k w1 = Apics (lapic_base (wk_k w)) (ioapic_address (read_ioapic_entry t (madt + o)))
              (read_ioapic_entry t (madt + o)) (irq_overrides (wk_k w)) (iso (wk_k w)) ->
  after w [o] w1.
Proof.
  intros Hio Hc Hi Hk. split; rewrite ?Hk, ?last_such_one, ?Hio; cbn [List.filter length]; rewrite ?Hio; try done; try lia.
  intros i _. rewrite last_such_one. unfold is_ioapic in Hio. unfold overrides_irq. bool_to_prop. by rewrite Hio.
Qed.

Lemma after_override w w1 o :
  length (irq_overrides (wk_k w)) = 16%nat -> is_ioapic t madt o = false -> entry_type t (madt + o) = 2 ->
  wk_count w1 = wk_count w -> wk_index w1 = wk_index w + 1 ->
  wk_k w1 = Apics (lapic_base (wk_k w)) (ioapic_addr (wk_k w)) (ioapic_device (wk_k w))
              (if irq_source t (madt + o) <? 16
               then <[Z.to_nat (irq_source t (madt + o)) := global_system_interrupt t (madt + o)]> (irq_overrides (wk_k w))
               else irq_overrides (wk_k w)) (madt + o) ->
  after w [o] w1.
Proof.
  intros Hl Hio Ht Hc Hi Hk. pose proof (u8_range (t (madt + o + 3))) as Hr.
  fold (ld8 t (madt + o + 3)) in Hr. fold (irq_source t (madt + o)) in Hr.
  split; rewrite ?Hk, ?last_such_one, ?Hio; cbn [List.filter length irq_overrides]; rewrite ?Hio; try done; cbn; try lia.
  - case_if; [by rewrite length_insert|done].
  - intros i Hi'. rewrite last_such_one. unfold overrides_irq. rewrite Ht. cbn [Z.eqb Pos.eqb andb]. case_if.
    + rewrite nth_insert by lia. destruct (irq_source t (madt + o) =? i) eqn:Ei; bool_to_prop.
      * subst i. by rewrite Nat.eqb_refl.
      * by replace (Z.to_nat i =? Z.to_nat (irq_source t (madt + o)))%nat with false by (symmetry; apply Nat.eqb_neq; lia).
    + by replace (irq_source t (madt + o) =? i) with false by lia.
Qed.

Lemma after_other w w1 o :
  is_ioapic t madt o = false -> entry_type t (madt + o) <> 2 ->
  wk_count w1 = wk_count w -> wk_index w1 = wk_index w + 1 -> wk_k w1 = wk_k w -> after w [o] w1.
Proof.
  intros Hio Ht Hc Hi Hk. split; rewrite ?Hk, ?last_such_one, ?Hio; cbn [List.filter length]; rewrite ?Hio; try done; cbn; try lia.
  intros i _. rewrite last_such_one. unfold overrides_irq. by rewrite (proj2 (Z.eqb_neq _ 2)).
Qed.

(** One round on a record within the table. *)
Lemma walk_step_record w :
  length (irq_overrides (wk_k w)) = 16%nat -> wk_offset w < madt_end -> 0 <= wk_offset w ->
  let o := wk_offset w in let len := record_length t (madt + o) in
  2 <= len -> o + len <= madt_end ->
  (exists w1, after w [o] w1 /\ wk_offset w1 = o + len /\
     walk_step t PML4 madt madt_end w = if 256 <? wk_index w + 1 then inl Halted else inr w1) \/
  (is_ioapic t madt o = true /\ walk_step t PML4 madt madt_end w = inl Stuck /\
   let phys := ioapic_address (read_ioapic_entry t (madt + o)) in
   map_page PML4 (wk_s w) (u64 (phys + hhdm)) phys 3 1 = None).
Proof.
  intros Hl Ho H0 o len H2 H3. unfold walk_step. fold o len. change (2 ^ 32) with 4294967296 in Hend.
  assert (Hlen : 0 <= len < 256) by apply u8_range.
  replace (o <? madt_end) with true by lia. cbn [negb]. rewrite (u64_small (o + len)) by lia.
  replace ((len <? 2) || (madt_end <? o + len)) with false by lia. unfold APIC_TYPE_IO, APIC_TYPE_IO_OVERRIDE.
  fold (is_ioapic t madt o). destruct (is_ioapic t madt o) eqn:E1.
  - unfold mapped. change (KERNEL_PFLAG_PRESENT ||| KERNEL_PFLAG_WRITE) with 3.
    destruct (map_page PML4 (wk_s w) _ _ 3 1) as [s'|] eqn:Em; [left|by right].
    unfold next_entry. cbn [wk_offset wk_index]. fold o. rewrite u64_small by lia.
    eexists. split; [|split; [|done]]; [by apply after_ioapic|done].
  - left. destruct (entry_type t (madt + o) =? 2) eqn:E2; bool_to_prop; unfold next_entry; cbn [wk_offset wk_index]; fold o;
      rewrite u64_small by lia; (eexists; split; [|split; [|done]]; [|done]).
    + by apply after_override.
    + by apply after_other.
Qed.

(** A walk over the records [l]. *)
Lemma walk_records fuel w l :
  length (irq_overrides (wk_k w)) = 16%nat -> 0 <= wk_offset w -> tiles t madt madt_end (wk_offset w) l ->
  wk_index w + Z.of_nat (length l) <= 256 -> (length l < fuel)%nat ->
  (exists w', wloop fuel (walk_step t PML4 madt madt_end) w = Some (Done w') /\ after w l w') \/
  (wloop fuel (walk_step t PML4 madt madt_end) w = Some Stuck /\
   exists o s, o ∈ l /\ is_ioapic t madt o = true /\
     let phys := ioapic_address (read_ioapic_entry t (madt + o)) in map_page PML4 s (u64 (phys + hhdm)) phys 3 1 = None).
Proof.
  revert fuel w. induction l as [|o l IH]; intros [|fuel] w Hl H0 Ht Hi Hf; cbn [length] in *; try lia; cbn [wloop].
  - inversion Ht; subst. left. exists w. split; [|apply after_nil]. unfold walk_step.
    by replace (wk_offset w <? madt_end) with false by lia.
  - inversion Ht as [|o' l' Ho H2 H3 Ht']; subst.
    destruct (walk_step_record w Hl Ho H0 H2 H3) as [(w1 & A & Hw1 & ->)|(Hio & -> & Hm)].
    + replace (256 <? wk_index w + 1) with false by lia.
      destruct (IH fuel w1) as [(w' & Hw' & A')|(Hs & o & s & Hin & Hr)].
      * by rewrite (af_length _ _ _ A).
      * pose proof (u8_range (t (madt + wk_offset w + 1))). unfold record_length, ld8 in *. lia.
      * by rewrite Hw1.
      * rewrite (af_index _ _ _ A). cbn [length]. lia.
      * lia.
      * left. exists w'. split; [done|]. by eapply after_cons.
      * right. split; [done|]. exists o, s. split; [by right|done].
    + right. split; [done|]. exists (wk_offset w), (wk_s w). split; [by left|done].
Qed.

(** A walk that ends well has gone over records. *)
Lemma walk_done_records fuel w w' :
  length (irq_overrides (wk_k w)) = 16%nat -> 0 <= wk_offset w -> wk_index w <= 256 ->
  wloop fuel (walk_step t PML4 madt madt_end) w = Some (Done w') ->
  exists l, tiles t madt madt_end (wk_offset w) l /\ wk_index w + Z.of_nat (length l) <= 256.
Proof.
  revert w. induction fuel as [|fuel IH]; intros w Hl H0 Hi Hw; [done|]. cbn [wloop] in Hw.
  destruct (Z_lt_ge_dec (wk_offset w) madt_end) as [Ho|Ho]; [|exists []; split; [by constructor; lia|cbn; lia]].
  destruct (decide (2 <= record_length t (madt + wk_offset w) /\
                    wk_offset w + record_length t (madt + wk_offset w) <= madt_end)) as [[H2 H3]|Hbad].
  - destruct (walk_step_record w Hl Ho H0 H2 H3) as [(w1 & A & Hw1 & E)|(_ & E & _)]; rewrite E in Hw; [|done].
    case_if_in Hw; [done|]. destruct (IH w1) as (l & Ht & Hn).
    + by rewrite (af_length _ _ _ A).
    + pose proof (u8_range (t (madt + wk_offset w + 1))). unfold record_length, ld8 in *. lia.
    + rewrite (af_index _ _ _ A). cbn [length]. lia.
    + done.
    + exists (wk_offset w :: l). rewrite Hw1 in Ht. split; [by constructor|].
      rewrite (af_index _ _ _ A) in Hn. cbn [length] in *. lia.
  - exfalso. unfold walk_step in Hw. change (2 ^ 32) with 4294967296 in Hend.
    pose proof (u8_range (t (madt + wk_offset w + 1))) as Hr. fold (ld8 t (madt + wk_offset w + 1)) in Hr.
    fold (record_length t (madt + wk_offset w)) in Hr. rewrite u64_small in Hw by lia.
    replace (wk_offset w <? madt_end) with true in Hw by lia. cbn [negb] in Hw.
    by replace ((_ <? 2) || (_ <? _)) with true in Hw by lia.
Qed.

(** The walk always ends. *)
Lemma walk_ends w : 0 <= wk_index w <= 256 ->
  exists r, wloop 259 (walk_step t PML4 madt madt_end) w = Some r.
Proof.
  intros Hi.
  destruct (wloop_total (fun w : walk_state S => wk_index w <= 256) (fun _ => True) (fun w => 257 - wk_index w)
              (walk_step t PML4 madt madt_end) 259 w) as (r & Hr & _); [lia|lia| |by exists r].
  assert (Hn : forall (x y : walk_state S) len, wk_index x = wk_index y -> wk_index y <= 256 ->
     match next_entry x len with inl _ => True | inr x' => wk_index x' <= 256 /\ 0 <= 257 - wk_index x' < 257 - wk_index y end).
  { intros x y len Hx Hy. unfold next_entry. cbn [wk_index]. case_if; [done|]. cbn [wk_index]. lia. }
  intros x Hx _. unfold walk_step. repeat (case_if; try done); try (by apply Hn).
  unfold mapped. destruct (map_page _ _ _ _ _ _); [|done]. by apply Hn.
Qed.
End Walk.

(** C27: The walk over the interrupt controller table is total and exact.  For any
    contents of the memory and any table of less than 4 GiB it ends within 258 rounds.
    It succeeds only if the records (each at least 2 bytes long) tile the table exactly
    and there are at most 256 of them; in that case it succeeds, unless mapping an I/O
    APIC's registers does not return, and leaves: for every legacy line the interrupt
    number of the last override for it, or the line itself; the last I/O APIC record as
    the device and its address; the number of I/O APIC records. *)
Theorem madt_walk_exact {hhdm : Z} {S : Type} `{FA : FrameAllocator hhdm S} (t : mem) (PML4 madt madt_end base : Z) (s : S) :
  0 <= madt_end < 2 ^ 32 ->
  let r := walk_MADT t PML4 madt madt_end (Walk 44 0 0 (Apics base 0 (IoApic 0 0 0) (seqZ 0 16) 0) s) in
  (exists e, r = Some e) /\
  (forall w', r = Some (Done w') -> exists l, tiles t madt madt_end 44 l /\ (length l <= 256)%nat) /\
  (forall l, tiles t madt madt_end 44 l -> (length l <= 256)%nat ->
     (exists w', r = Some (Done w') /\
        (forall irq, 0 <= irq < 16 -> nth (Z.to_nat irq) (irq_overrides (wk_k w')) 0 = gsi_of t madt l irq) /\
        lapic_base (wk_k w') = base /\ ioapic_addr (wk_k w') = ioapic_address (ioapic_device (wk_k w')) /\
        ioapic_device (wk_k w') = match last_such (is_ioapic t madt) l with
                                  | Some o => read_ioapic_entry t (madt + o) | None => IoApic 0 0 0 end /\
        wk_count w' = Z.of_nat (length (List.filter (is_ioapic t madt) l))) \/
     (r = Some Stuck /\ exists o s', o ∈ l /\ is_ioapic t madt o = true /\
        let phys := ioapic_address (read_ioapic_entry t (madt + o)) in
        map_page PML4 s' (u64 (phys + hhdm)) phys 3 1 = None)).
Proof.
  intros Hend r. unfold r, walk_MADT. clear r. set (w0 := Walk 44 0 0 _ s).
  assert (H16 : length (irq_overrides (wk_k w0)) = 16%nat) by done. split_and_all.
  - apply walk_ends. cbn. lia.
  - intros w' Hw. destruct (walk_done_records t PML4 madt madt_end Hend 259 w0 w' H16 ltac:(cbn; lia) ltac:(cbn; lia) Hw)
      as (l & Ht & Hn). exists l. change (wk_index w0) with 0 in Hn. split; [exact Ht|lia].
  - intros l Ht Hn.
    destruct (walk_records t PML4 madt madt_end Hend 259 w0 l H16 ltac:(cbn; lia) Ht ltac:(change (wk_index w0) with 0; lia) ltac:(lia))
      as [(w' & Hw & A)|Hs]; [left|by right].
    exists w'. split; [exact Hw|]. split_and_all.
    + intros irq Hi. rewrite (af_overrides _ _ _ _ _ A) by done. unfold gsi_of. destruct (last_such _ l); [done|].
      change (irq_overrides (wk_k w0)) with (seqZ 0 16). rewrite nth_lookup, lookup_seqZ_lt by lia. cbn. lia.
    + apply (af_lapic _ _ _ _ _ A).
    + rewrite (af_addr _ _ _ _ _ A), (af_device _ _ _ _ _ A). by destruct (last_such _ l).
    + apply (af_device _ _ _ _ _ A).
    + rewrite (af_count _ _ _ _ _ A). change (wk_count w0) with 0. lia.
Qed.

(** A table with a processor record and the override of line 0 to interrupt 2. *)
Definition demo_madt : mem := const (replicate 44 0 ++ [0; 8; 0; 0; 1; 0; 0; 0] ++ [2; 10; 0; 0; 2; 0; 0; 0; 0; 0]).

Lemma madt_walk_exact_witness :
  exists w', walk_MADT (hhdm := demo_hhdm) demo_madt 4096 0 62
               (Walk 44 0 0 (Apics 0 0 (IoApic 0 0 0) (seqZ 0 16) 0) demo_pmm) = Some (Done w') /\
             nth 0 (irq_overrides (wk_k w')) 0 = 2 /\ nth 1 (irq_overrides (wk_k w')) 0 = 1.
Proof.
  destruct (madt_walk_exact (hhdm := demo_hhdm) demo_madt 4096 0 62 0 demo_pmm ltac:(lia)) as (_ & _ & H).
  destruct (H [44; 52]) as [(w' & Hw & Ho & _)|(_ & o & s' & Hin & Hio & _)].
  - constructor; try (vm_compute; done). constructor; try (vm_compute; done). constructor. vm_compute. done.
  - cbn. lia.
  - exists w'. split; [exact Hw|]. split; [exact (Ho 0 ltac:(lia))|exact (Ho 1 ltac:(lia))].
  - exfalso. apply list_elem_of_In in Hin. cbn in Hin. destruct Hin as [<-|[<-|[]]]; vm_compute in Hio; discriminate.
Defined.

(** ** The I/O APIC: an index register and a data window *)

Class IoApicDev (B : Z) (W : Type) `{!Mmio W} := {
  ioreg : W -> Z -> Z;
  iosel : W -> Z;
  (** what a register holds after a write *)
  io_accept : Z -> Z -> Z -> Z;
  ioreg_range w r : 0 <= ioreg w r < 2 ^ 32;
  io_select w r : 0 <= r < 2 ^ 32 ->
    iosel (mmio_st 4 B r w).2 = r /\ (forall x, ioreg (mmio_st 4 B r w).2 x = ioreg w x);
  io_window_read w :
    (mmio_ld 4 (B + 16) w).1 = ioreg w (iosel w) /\ iosel (mmio_ld 4 (B + 16) w).2 = iosel w /\
    (forall x, ioreg (mmio_ld 4 (B + 16) w).2 x = ioreg w x);
  io_window_write w v : 0 <= v < 2 ^ 32 ->
    iosel (mmio_st 4 (B + 16) v w).2 = iosel w /\
    (forall x, ioreg (mmio_st 4 (B + 16) v w).2 x = if x =? iosel w then io_accept x (ioreg w x) v else ioreg w x);
  (** in a redirection entry only delivery status and remote IRR (bits 12 and 14) are read-only *)
  io_accept_bits r o v i : 16 <= r -> 0 <= i -> i <> 12 -> i <> 14 -> Z.testbit (io_accept r o v) i = Z.testbit v i }.

(** A redirection table entry. *)
Record redirection := Redirection {
  rd_vector : Z; rd_delivery : Z; rd_polarity : bool; rd_trigger : bool; rd_masked : bool; rd_destination : Z }.

Section IoApic.
Context {hhdm B : Z} {W : Type} `{ID : IoApicDev B W}.
Context (phys : Z) (HB : B = phys + hhdm) (HBr : 0 <= B /\ B + 16 < 2 ^ 64).

Definition pin (w : W) (n : Z) : redirection :=
  let low := ioreg w (16 + 2 * n) in
  Redirection (bf_get low 0 8) (bf_get low 8 3) (Z.testbit low 13) (Z.testbit low 15) (Z.testbit low 16)
    (bf_get (ioreg w (17 + 2 * n)) 24 8).

Lemma write_ioapic_spec w r v : 0 <= r < 2 ^ 32 -> 0 <= v < 2 ^ 32 ->
  forall x, ioreg (write_ioapic hhdm phys r v w).2 x = if x =? r then io_accept r (ioreg w r) v else ioreg w x.
Proof.
  intros Hr Hv x. change (2 ^ 64) with 18446744073709551616 in HBr. unfold write_ioapic. cbv zeta.
  rewrite <- HB, (u64_small B), u64_small, io_bind_eq by lia.
  destruct (io_select w r Hr) as [H1 H2]. destruct (io_window_write (mmio_st 4 B r w).2 v Hv) as [_ H4].
  rewrite H4, H1, H2. case_if; [by subst|done].
Qed.

Lemma read_ioapic_spec w r : 0 <= r < 2 ^ 32 ->
  (read_ioapic hhdm phys r w).1 = ioreg w r /\ (forall x, ioreg (read_ioapic hhdm phys r w).2 x = ioreg w x).
Proof.
  intros Hr. change (2 ^ 64) with 18446744073709551616 in HBr. unfold read_ioapic. cbv zeta.
  rewrite <- HB, (u64_small B), u64_small, !io_bind_eq, io_ret_eq by lia. cbn [fst snd].
  destruct (io_select w r Hr) as [H1 H2]. destruct (io_window_read (mmio_st 4 B r w).2) as (H3 & _ & H5).
  rewrite H3, H1, H2. split; [apply u32_small, ioreg_range|]. intros x. by rewrite H5, H2.
Qed.

(** A field that avoids the read-only bits takes the value written. *)
Lemma accept_field r o v lo n : 16 <= r -> 0 <= lo -> 0 <= n -> lo + n <= 12 \/ 15 <= lo ->
  bf_get (io_accept r o v) lo n = bf_get v lo n.
Proof.
  intros. apply Z.bits_inj'. intros i Hi. rewrite !bf_get_bit by lia. destruct (i <? n) eqn:E; [|done]. bool_to_prop.
  cbn. apply io_accept_bits; lia.
Qed.

(** Clearing a bit that is not set. *)
Lemma clear_unset w n x : 0 <= n < w -> 0 <= x < 2 ^ w -> Z.testbit x n = false ->
  x &&& ((Z.lnot (1 <<< n)) mod 2 ^ w) = x.
Proof.
  intros Hn Hx Hb. apply Z.bits_inj'. intros i Hi. rewrite Z.land_spec. destruct (Z_lt_ge_dec i w).
  - rewrite Z.mod_pow2_bits_low, Z.lnot_spec, Z.shiftl_mul_pow2, Z.mul_1_l, testbit_pow2 by lia.
    destruct (Z.eqb_spec n i) as [->|_]; [by rewrite Hb|by rewrite andb_true_r].
  - rewrite Z.mod_pow2_bits_high, andb_false_r by lia. rewrite <- (Z.mod_small x (2 ^ w)) by lia.
    symmetry. apply Z.mod_pow2_bits_high. lia.
Qed.

(** The 64-bit entry [set_ioapic_entry] composes. *)
Lemma entry_value vector lapic : 0 <= vector < 256 -> 0 <= lapic < 256 ->
  let info := u64 (lapic <<< 56) ||| (u8 vector &&& 255) in
  ((info &&& u64 (Z.lnot (1 <<< 16))) &&& u64 (Z.lnot (1 <<< 15))) &&& u64 (Z.lnot (1 <<< 13))
  = vector + lapic * 2 ^ 56.
Proof.
  intros Hv Hl info.
  assert (Hi : info = vector + lapic * 2 ^ 56).
  { unfold info. rewrite Z.lor_comm, u8_small, (land_mod _ 8), (Z.mod_small vector) by (try lia; change (2 ^ 8) with 256; lia).
    rewrite u64_small by (rewrite Z.shiftl_mul_pow2 by lia; change (2 ^ 56) with 72057594037927936; lia).
    apply lor_add_shift; [lia|]. change (2 ^ 56) with 72057594037927936. lia. }
  assert (Hr : 0 <= info < 2 ^ 64) by (rewrite Hi; change (2 ^ 56) with 72057594037927936; change (2 ^ 64) with 18446744073709551616; lia).
  assert (Hb : forall n, 8 <= n < 56 -> Z.testbit info n = false).
  { intros n Hn. rewrite Hi, Z.testbit_eqb by lia. apply Z.eqb_neq.
    assert (2 ^ 56 = 2 ^ (55 - n) * 2 * 2 ^ n) as ->
      by (replace 56 with (55 - n + 1 + n) by lia; rewrite !Z.pow_add_r by lia; reflexivity).
    rewrite Z.mul_assoc, Z.div_add by (apply Z.pow_nonzero; lia).
    rewrite Z.div_small by (assert (2 ^ 8 <= 2 ^ n) by (apply Z.pow_le_mono_r; lia); change (2 ^ 8) with 256 in *; lia).
    rewrite Z.add_0_l, Z.mul_assoc, Z.mod_mul by lia. lia. }
  change (u64 ?x) with (x mod 2 ^ 64). 
  rewrite (clear_unset 64 16 info), (clear_unset 64 15 info), (clear_unset 64 13 info) by (try apply Hb; lia). done.
Qed.

Lemma field_ext x y lo n : 0 <= lo -> 0 <= n -> (forall i, lo <= i < lo + n -> Z.testbit x i = Z.testbit y i) ->
  bf_get x lo n = bf_get y lo n.
Proof.
  intros Hlo Hn H. apply Z.bits_inj'. intros i Hi. rewrite !bf_get_bit by lia. destruct (i <? n) eqn:E; [|done].
  bool_to_prop. cbn. apply H. lia.
Qed.

Lemma testbit_above x n i : 0 <= x < 2 ^ n -> 0 <= n <= i -> Z.testbit x i = false.
Proof. intros Hx Hi. rewrite <- (Z.mod_small x (2 ^ n)) by lia. apply Z.mod_pow2_bits_high. lia. Qed.

Context (k : apics) (Ha : ioapic_addr k = phys) (Hd : ioapic_address (ioapic_device k) = phys).

(** The pin of interrupt [irq], as the entry is addressed. *)
Lemma set_ioapic_entry_spec w vector irq flags lapic :
  let n := irq - global_system_interrupt_base (ioapic_device k) in
  0 <= vector < 256 -> 0 <= irq < 256 -> 0 <= lapic < 256 -> 0 <= n < 120 ->
  let w' := (set_ioapic_entry hhdm k vector irq flags lapic w).2 in
  pin w' n = Redirection vector 0 false false false lapic /\ (forall j, 0 <= j -> j <> n -> pin w' j = pin w j).
Proof.
  intros n Hv Hi Hl Hn. cbv zeta. unfold set_ioapic_entry. cbv zeta. rewrite entry_value by lia.
  rewrite (u8_small irq), (u32_small (irq - _)) by lia. fold n. rewrite !(u32_small (n * 2 + 16)), (u32_small (n * 2 + 16 + 1)) by lia.
  rewrite Ha, io_bind_eq.
  assert (Elo : u32 (vector + lapic * 2 ^ 56) = vector) by (change (2 ^ 56) with 72057594037927936; wrap_lia).
  assert (Ehi : u32 ((vector + lapic * 2 ^ 56) >>> 32) = lapic * 2 ^ 24).
  { rewrite shiftr_div by lia. change (2 ^ 56) with 72057594037927936. change (2 ^ 32) with 4294967296.
    change (2 ^ 24) with 16777216. wrap_lia. }
  rewrite Elo, Ehi.
  assert (R : forall x, ioreg (write_ioapic hhdm phys (n * 2 + 16 + 1) (lapic * 2 ^ 24)
       (write_ioapic hhdm phys (n * 2 + 16) vector w).2).2 x =
     if x =? n * 2 + 16 + 1 then io_accept (n * 2 + 16 + 1) (ioreg w (n * 2 + 16 + 1)) (lapic * 2 ^ 24)
     else if x =? n * 2 + 16 then io_accept (n * 2 + 16) (ioreg w (n * 2 + 16)) vector else ioreg w x).
  { intros x. rewrite !write_ioapic_spec by (try lia; change (2 ^ 24) with 16777216; change (2 ^ 32) with 4294967296; lia).
    by replace (n * 2 + 16 + 1 =? n * 2 + 16) with false by lia. }
  split.
  - unfold pin. rewrite !R. replace (16 + 2 * n =? n * 2 + 16 + 1) with false by lia.
    replace (16 + 2 * n =? n * 2 + 16) with true by lia. replace (17 + 2 * n =? n * 2 + 16 + 1) with true by lia.
    rewrite !accept_field, !io_accept_bits by lia.
    rewrite !(testbit_above vector 8) by (change (2 ^ 8) with 256; lia). f_equal.
    + unfold bf_get. rewrite Z.shiftr_0_r. apply Z.mod_small. change (2 ^ 8) with 256. lia.
    + unfold bf_get. rewrite shiftr_div by lia. by rewrite (Z.div_small vector) by (change (2 ^ 8) with 256; lia).
    + unfold bf_get. rewrite shiftr_div, Z.div_mul by lia. apply Z.mod_small. change (2 ^ 8) with 256. lia.
  - intros j Hj Hne. unfold pin. rewrite !R. replace (16 + 2 * j =? n * 2 + 16 + 1) with false by lia.
    replace (16 + 2 * j =? n * 2 + 16) with false by lia. replace (17 + 2 * j =? n * 2 + 16 + 1) with false by lia.
    by replace (17 + 2 * j =? n * 2 + 16) with false by lia.
Qed.

Lemma unmask_ioapic_spec w gsi : 0 <= gsi < 120 ->
  let w' := (unmask_ioapic hhdm k gsi w).2 in
  pin w' gsi = (let r := pin w gsi in
    Redirection (rd_vector r) (rd_delivery r) (rd_polarity r) (rd_trigger r) false (rd_destination r)) /\
  (forall j, 0 <= j -> j <> gsi -> pin w' j = pin w j).
Proof.
  intros Hg. cbv zeta. unfold unmask_ioapic. cbv zeta. rewrite Hd, io_bind_eq.
  rewrite (u32_small (gsi * 2)), !(u32_small (16 + gsi * 2)) by lia.
  destruct (read_ioapic_spec w (16 + gsi * 2) ltac:(lia)) as [R1 R2]. rewrite R1.
  set (low := ioreg w (16 + gsi * 2)). set (v := low &&& u32 (Z.lnot (1 <<< 16))).
  assert (Hv : 0 <= v < 2 ^ 32).
  { pose proof (ioreg_range w (16 + gsi * 2)) as Hr. fold low in Hr. 
    replace v with (v mod 2 ^ 32); [apply Z.mod_pos_bound; lia|]. apply Z.bits_inj'. intros i Hi.
    destruct (Z_lt_ge_dec i 32); [by rewrite Z.mod_pow2_bits_low by lia|]. rewrite Z.mod_pow2_bits_high by lia.
    unfold v. by rewrite Z.land_spec, (testbit_above low 32) by lia. }
  assert (Hb : forall i, 0 <= i < 32 -> Z.testbit v i = Z.testbit low i && negb (16 =? i)).
  { intros i Hi. unfold v. change (u32 ?x) with (x mod 2 ^ 32). rewrite Z.land_spec, Z.mod_pow2_bits_low, Z.lnot_spec by lia.
    by rewrite Z.shiftl_mul_pow2, Z.mul_1_l, testbit_pow2 by lia. }
  assert (R : forall x, ioreg (write_ioapic hhdm phys (16 + gsi * 2) v (read_ioapic hhdm phys (16 + gsi * 2) w).2).2 x =
     if x =? 16 + gsi * 2 then io_accept (16 + gsi * 2) low v else ioreg w x).
  { intros x. by rewrite write_ioapic_spec, !R2 by lia. }
  split.
  - unfold pin. rewrite !R. cbn [rd_vector rd_delivery rd_polarity rd_trigger rd_destination].
    replace (16 + 2 * gsi =? 16 + gsi * 2) with true by lia. replace (17 + 2 * gsi =? 16 + gsi * 2) with false by lia.
    replace (ioreg w (16 + 2 * gsi)) with low by (unfold low; f_equal; lia).
    rewrite !accept_field, !io_accept_bits, !Hb by lia. cbn [Z.eqb Pos.eqb negb]. rewrite !andb_true_r, andb_false_r.
    f_equal; (apply field_ext; [lia|lia|]; intros i Hi; rewrite Hb by lia; replace (16 =? i) with false by lia; apply andb_true_r).
  - intros j Hj Hne. unfold pin. rewrite !R. replace (16 + 2 * j =? 16 + gsi * 2) with false by lia.
    by replace (17 + 2 * j =? 16 + gsi * 2) with false by lia.
Qed.
End IoApic.
