(* ===== verification/Irq.v ===== *)
(** * Dynamic interrupt handlers (irq.c, irq.h)

    Eight slots, each with a trampoline behind its own vector.  Handlers and trampolines
    are function addresses; [call] runs a handler. *)

From S2P Require Import Prelude Mem Layout CString Frames Paging Printf Hw Trap Apic ApicProps.

Definition MAX_DYNAMIC_IRQS : Z := 8.
Definition DYNAMIC_IRQ_BASE : Z := 48.
Definition IRQ_TYPE_LEGACY : Z := 1.

Record irq_t := Irq { func : Z; arg : Z; used : bool }.

(** [irq_table] and [IDT]. *)
Record irqs := Irqs { irq_table : list irq_t; idt : mem }.

Section Irq.
Context (hhdm : Z) {W : Type} `{!Mmio W} (k : apics).
(** [func(arg)], and the addresses of the trampolines *)
Context (call : Z -> Z -> io W unit) (irq_trampolines : Z -> Z).

Definition init_irq_subsystem (s : irqs) : irqs := Irqs (replicate 8 (Irq 0 0 false)) (idt s).

Definition irq_trampoline (s : irqs) (n : nat) : io W unit :=
  match irq_table s !! n with
  | Some e => (if used e && truthy (func e) then call (func e) (arg e) else mret tt);; end_of_interrupt k
  | None => mret tt
  end.

(** The first slot not in use. *)
Fixpoint free_slot (l : list irq_t) (i : Z) : Z :=
  match l with
  | [] => -1
  | e :: l' => if used e then free_slot l' (i + 1) else i
  end.

Definition irq_create (s : irqs) (irq type f a flags : Z) : io W (Z * irqs) :=
  let slot := free_slot (irq_table s) 0 in
  if slot <? 0 then mret (0, s)
  else
    let vector := u8 (DYNAMIC_IRQ_BASE + slot) in
    let s' := Irqs (<[Z.to_nat slot := Irq f a true]> (irq_table s))
                   (setIdtGate (idt s) vector (irq_trampolines slot) 8 142) in
    if type =? IRQ_TYPE_LEGACY then
      let gsi := if irq <? 16 then nth (Z.to_nat irq) (irq_overrides k) 0 else irq in
      set_ioapic_entry hhdm k vector gsi (u8 flags) 0;;
      unmask_ioapic hhdm k gsi;;
      mret (vector, s')
    else mret (vector, s').

Definition irq_destroy (s : irqs) (vector : Z) : irqs :=
  let slot := vector - DYNAMIC_IRQ_BASE in
  if (slot <? 0) || (MAX_DYNAMIC_IRQS <=? slot) then s
  else Irqs (<[Z.to_nat slot := Irq 0 0 false]> (irq_table s)) (idt s).

(** ** The table *)

(** Every slot in use is reached from its vector. *)
Record irqs_ok (s : irqs) : Prop := {
  slots_8 : length (irq_table s) = 8%nat;
  slots_gated i e : irq_table s !! i = Some e -> used e = true ->
    gate_target (idt s) (48 + Z.of_nat i) = Some (8, irq_trampolines (Z.of_nat i)) }.

Lemma free_slot_spec l i : 0 <= i ->
  (free_slot l i = -1 /\ Forall (fun e => used e = true) l) \/
  (exists n e, free_slot l i = i + Z.of_nat n /\ l !! n = Some e /\ used e = false /\
     forall m e', (m < n)%nat -> l !! m = Some e' -> used e' = true).
Proof.
  revert i. induction l as [|e l IH]; intros i Hi; [by left|]. cbn [free_slot]. destruct (used e) eqn:E.
  - destruct (IH (i + 1) ltac:(lia)) as [[H1 H2]|(n & e' & H1 & H2 & H3 & H4)].
    + left. split; [done|by constructor].
    + right. exists (S n), e'. split_and_all; [lia|done|done|]. intros [|m] e0 Hm Hl; [cbn in Hl; congruence|].
      apply (H4 m e0); [lia|done].
  - right. exists 0%nat, e. split_and_all; [lia|done|done|]. intros; lia.
Qed.

Lemma init_irq_ok s : irqs_ok (init_irq_subsystem s).
Proof.
  split; [done|]. intros i e Hl Hu. cbn in Hl. change (replicate 8 (Irq 0 0 false) !! i = Some e) in Hl.
  apply lookup_replicate in Hl as [-> _]. done.
Qed.

Lemma irq_destroy_ok s v : irqs_ok s -> irqs_ok (irq_destroy s v).
Proof.
  intros [H1 H2]. unfold irq_destroy. case_if; [by split|]. split; cbn [irq_table idt]; [by rewrite length_insert|].
  intros i e Hl Hu. apply list_lookup_insert_Some in Hl as [(<- & <- & _)|[_ Hl]]; [done|by eapply H2].
Qed.
End Irq.

Section Routing.
Context {hhdm B : Z} {W : Type} `{ID : IoApicDev B W} (k : apics) (phys : Z).
Context (call : Z -> Z -> io W unit) (irq_trampolines : Z -> Z).
Hypothesis HB : B = phys + hhdm.
Hypothesis HBr : 0 <= B /\ B + 16 < 2 ^ 64.
Hypothesis Hphys : ioapic_addr k = phys /\ ioapic_address (ioapic_device k) = phys.
(** one I/O APIC, whose pins are numbered from 0 *)
Hypothesis Hbase : global_system_interrupt_base (ioapic_device k) = 0.
Hypothesis Htramp : forall i, 0 <= irq_trampolines i < 2 ^ 64.

(** The interrupt a line is wired to. *)
Definition wired (irq : Z) : Z := if irq <? 16 then nth (Z.to_nat irq) (irq_overrides k) 0 else irq.

(** C28: Installing a handler connects the whole path, or changes nothing.  With all
    eight slots in use [irq_create] returns 0 and leaves the table, the gates and the
    I/O APIC as they are.  Otherwise it takes the lowest free slot and returns its vector:
    the gate of that vector leads to the slot's trampoline, which calls the handler with
    its argument and then signals the end of the interrupt; for a legacy line the pin it
    is wired to (through the overrides) delivers this vector, edge-triggered, active
    high, unmasked, to processor 0, and no other pin changes; every handler installed
    before keeps its slot and its gate. *)
Theorem irq_create_connects s w irq type f a flags :
  irqs_ok irq_trampolines s -> f <> 0 -> 0 <= irq -> 0 <= wired irq < 120 ->
  let r := irq_create hhdm k irq_trampolines s irq type f a flags w in
  let s' := r.1.2 in
  (Forall (fun e => used e = true) (irq_table s) /\ r = (0, s, w)) \/
  (exists n e, irq_table s !! n = Some e /\ used e = false /\
     (forall m e', (m < n)%nat -> irq_table s !! m = Some e' -> used e' = true) /\
     r.1.1 = 48 + Z.of_nat n /\ irqs_ok irq_trampolines s' /\ irq_table s' = <[n := Irq f a true]> (irq_table s) /\
     gate_target (idt s') r.1.1 = Some (8, irq_trampolines (Z.of_nat n)) /\
     (forall v, irq_trampoline k call s' n v = (call f a;; end_of_interrupt k) v) /\
     (type = 1 -> pin r.2 (wired irq) = Redirection r.1.1 0 false false false 0 /\
                  forall j, 0 <= j -> j <> wired irq -> pin r.2 j = pin w j) /\
     (type <> 1 -> r.2 = w)).
Proof.
  intros [H8 Hg] Hf Hirq Hw. cbv zeta. unfold irq_create. cbv zeta.
  destruct (free_slot_spec (irq_table s) 0 ltac:(lia)) as [[Hs Hall]|(n & e & Hs & Hn & Hu & Hlow)]; rewrite Hs.
  { left. by split. }
  right. rewrite Z.add_0_l. assert (Hn8 : (n < 8)%nat) by (rewrite <- H8; by eapply lookup_lt_Some).
  replace (Z.of_nat n <? 0) with false by lia. unfold DYNAMIC_IRQ_BASE. rewrite u8_small by lia. rewrite Nat2Z.id.
  fold (wired irq).
  set (s1 := Irqs (<[n := Irq f a true]> (irq_table s)) (setIdtGate (idt s) (48 + Z.of_nat n) (irq_trampolines (Z.of_nat n)) 8 142)).
  assert (Hok : irqs_ok irq_trampolines s1).
  { split; cbn [s1 irq_table idt]; [by rewrite length_insert|]. intros i e' Hl Hu'.
    destruct (decide (i = n)) as [->|Hne]; [by apply setIdtGate_same; [lia|]|].
    rewrite list_lookup_insert_ne in Hl by done. rewrite setIdtGate_other by lia. by eapply Hg. }
  assert (Hgate : gate_target (idt s1) (48 + Z.of_nat n) = Some (8, irq_trampolines (Z.of_nat n)))
    by (cbn [s1 idt]; apply setIdtGate_same; [lia|done]).
  assert (Htr : forall v, irq_trampoline k call s1 n v = (call f a;; end_of_interrupt k) v).
  { intros v. unfold irq_trampoline. cbn [s1 irq_table]. rewrite list_lookup_insert_eq by (rewrite H8; lia).
    cbn [used func arg andb]. by rewrite truthy_nz. }
  exists n, e. unfold IRQ_TYPE_LEGACY. destruct (type =? 1) eqn:Ety; bool_to_prop.
  - destruct (set_ioapic_entry_spec phys HB HBr k (proj1 Hphys) w (48 + Z.of_nat n) (wired irq) (u8 flags) 0) as [P1 P2];
      [lia|lia|lia|rewrite Hbase; lia|]. rewrite Hbase, Z.sub_0_r in P1, P2.
    rewrite !io_bind_eq, io_ret_eq. cbn [fst snd].
    destruct (unmask_ioapic_spec phys HB HBr k (proj2 Hphys)
      (set_ioapic_entry hhdm k (48 + Z.of_nat n) (wired irq) (u8 flags) 0 w).2 (wired irq) Hw) as [U1 U2].
    split_and_all; try done. intros _. rewrite U1, P1. split; [done|]. intros j Hj Hne. by rewrite U2, P2.
  - rewrite io_ret_eq. cbn [fst snd]. split_and_all; try done.
Qed.
End Routing.

(** ** An I/O APIC whose registers are plain storage, at 0xFEC00000 *)

Record ioapic_world := IoApicWorld { iw_sel : Z; iw_regs : Z -> Z }.

#[local] Instance demo_mmio : Mmio ioapic_world := {
  mmio_ld n a := fun w => (if a =? 4273995792 then u32 (iw_regs w (iw_sel w)) else 0, w);
  mmio_st n a v := fun w =>
    (tt, if a =? 4273995776 then IoApicWorld v (iw_regs w)
         else if a =? 4273995792 then IoApicWorld (iw_sel w) (fun x => if x =? iw_sel w then v else iw_regs w x) else w) }.

#[local] Instance demo_ioapic : IoApicDev 4273995776 ioapic_world.
Proof.
  refine {| ioreg := fun w r => u32 (iw_regs w r); iosel := iw_sel; io_accept := fun _ _ v => v |}.
  - intros w r. apply u32_range.
  - intros w r Hr. split; [done|]. by intros x.
  - intros w. split_and_all; [done|done|]. by intros x.
  - intros w v Hv. split; [done|]. intros x. change (4273995776 + 16) with 4273995792.
    cbn [mmio_st demo_mmio Z.eqb Pos.eqb snd iw_regs]. case_if; [by apply u32_small|done].
  - done.
Defined.

Definition demo_apics : apics := Apics 4276092928 4273995776 (IoApic 0 4273995776 0) (<[0%nat := 2]> (seqZ 0 16)) 0.

(** Installing a handler for line 0, which is wired to interrupt 2. *)
Lemma irq_create_connects_witness :
  let r := irq_create 0 demo_apics (fun i => 1048576 + i mod 8) (Irqs (replicate 8 (Irq 0 0 false)) (fun _ => 0)) 0 1 4096 7 0
             (IoApicWorld 0 (fun _ => 65536)) in
  r.1.1 = 48 /\ pin r.2 2 = Redirection 48 0 false false false 0.
Proof.
  destruct (irq_create_connects (hhdm := 0) demo_apics 4273995776 (fun _ _ w => (tt, w)) (fun i => 1048576 + i mod 8)
    ltac:(reflexivity) ltac:(lia) ltac:(split; reflexivity) ltac:(reflexivity)
    ltac:(intros i; pose proof (Z.mod_pos_bound i 8 ltac:(lia)); lia)
    (Irqs (replicate 8 (Irq 0 0 false)) (fun _ => 0)) (IoApicWorld 0 (fun _ => 65536)) 0 1 4096 7 0
    (init_irq_ok _ (Irqs [] (fun _ => 0))) ltac:(lia) ltac:(lia) ltac:(vm_compute; split; discriminate || reflexivity))
    as [[Hall _]|(n & e & Hn & Hu & Hlow & Hv & _ & _ & _ & _ & Hp & _)].
  - exfalso. apply Forall_cons in Hall as [Hall _]. discriminate.
  - destruct n as [|n]; [|exfalso; specialize (Hlow 0%nat (Irq 0 0 false) ltac:(lia) eq_refl); discriminate].
    cbv zeta. rewrite Hv in *. split; [reflexivity|]. exact (proj1 (Hp eq_refl)).
Defined.
