(* ===== verification/Timer.v ===== *)
(** * Timers (apic_timer.c, pit.c) and waiting

    [kernel.apic_ticks] is advanced by the timer interrupt.  Interrupts are enabled while [sleep]
    runs: some end its [hlt], others come between two of its steps.  [Interrupts] says how many
    timer interrupts are taken in each of these places.  Loops that wait for a device have fuel; [None] is that it ran out. *)

From S2P Require Import Prelude Mem CString Frames Paging Hw Apic ApicProps.

Record ticks := Ticks { apic_ticks : Z; lapic_ticks_per_10ms : Z }.

Class Interrupts (W : Type) := { taken_by_hlt : io W nat; taken_meanwhile : io W nat }.

Definition APIC_REGISTER_TIMER_DIV : Z := 992.
Definition APIC_REGISTER_TIMER_INITCNT : Z := 896.
Definition APIC_REGISTER_TIMER_CURRCNT : Z := 912.
Definition APIC_REGISTER_LVT_TIMER : Z := 800.
Definition APIC_LVT_INT_MASKED : Z := 1 <<< 16.
Definition APIC_LVT_TIMER_MODE_PERIODIC : Z := 1 <<< 17.

(** ** The programmable interval timer *)

Section Pit.
Context {W : Type} `{!PortIo W} `{!Cpu W}.

Definition read_pit_count : io W Z :=
  outPortB 67 0;;
  low ← inPortB 64;
  high ← inPortB 64;
  mret (low ||| (high <<< 8)).

Definition set_pit_count (count : Z) : io W unit :=
  outPortB 67 48;;
  outPortB 64 (count &&& 255);;
  outPortB 64 ((count &&& 65280) >>> 8).

(** Polling until the counter reads 0; [last] is only written. *)
Fixpoint pit_poll (fuel : nat) (last : Z) : io W (option unit) :=
  match fuel with
  | O => mret None
  | S fuel' =>
      val ← read_pit_count;
      let val := u16 val in
      let last := if negb (val =? last) && (val <? last) then val else last in
      if val =? 0 then mret (Some tt) else pit_poll fuel' last
  end.

Definition wait_for_pit (fuel : nat) : io W (option unit) :=
  cli;; set_pit_count 11931;; pit_poll fuel 65535.
End Pit.

(** ** The local timer *)

Section Timer.
Context (hhdm : Z) {W : Type} `{!Mmio W} `{!PortIo W} `{!Cpu W} `{!Interrupts W} (k : apics).

Definition apic_timer_handler (t : ticks) : io W ticks :=
  let t := Ticks (u64 (apic_ticks t + 1)) (lapic_ticks_per_10ms t) in
  end_of_interrupt k;; mret t.

Fixpoint handle_ticks (n : nat) (t : ticks) : io W ticks :=
  match n with O => mret t | S n' => t' ← apic_timer_handler t; handle_ticks n' t' end.

Definition wait_for_interrupt (t : ticks) : io W ticks := n ← taken_by_hlt; handle_ticks n t.

(** Between two reads of the counter, or a read and the [hlt]. *)
Definition meanwhile (t : ticks) : io W ticks := n ← taken_meanwhile; handle_ticks n t.

(** The body of the loop of [sleep]: what comes between the test and the [hlt], the [hlt], and what comes
    until the next test. *)
Definition pass (t : ticks) : io W ticks := t ← meanwhile t; t ← wait_for_interrupt t; meanwhile t.

(** One round of the loop of [sleep]: [inl] when it leaves. *)
Definition sleep_round (start target : Z) (tw : ticks * W) : (ticks * W) + (ticks * W) :=
  if u64 (apic_ticks tw.1 - start) <? target then inr (pass tw.1 tw.2) else inl tw.

Definition sleep (fuel : nat) (target_ticks : Z) (t : ticks) (w : W) : option (ticks * W) :=
  let start := apic_ticks t in
  let tw := meanwhile t w in
  wloop fuel (sleep_round start target_ticks) tw.

Definition init_apic_timer (fuel : nat) : io W (option ticks) :=
  let base := lapic_base k in
  write_lapic base APIC_REGISTER_TIMER_DIV 3;;
  write_lapic base APIC_REGISTER_TIMER_INITCNT 4294967295;;
  cli;;
  done ← wait_for_pit fuel;
  match done with
  | None => mret None
  | Some _ =>
      write_lapic base APIC_REGISTER_LVT_TIMER APIC_LVT_INT_MASKED;;
      left ← read_lapic base APIC_REGISTER_TIMER_CURRCNT;
      let per_10ms := u32 (4294967295 - left) in
      write_lapic base APIC_REGISTER_LVT_TIMER (32 ||| APIC_LVT_TIMER_MODE_PERIODIC);;
      write_lapic base APIC_REGISTER_TIMER_DIV 3;;
      write_lapic base APIC_REGISTER_TIMER_INITCNT per_10ms;;
      set_ioapic_entry hhdm k 33 0 0 0;;
      unmask_ioapic hhdm k (nth 0 (irq_overrides k) 0);;
      mret (Some (Ticks 0 per_10ms))
  end.

Fixpoint count_down (fuel : nat) : io W (option unit) :=
  match fuel with
  | O => mret None
  | S fuel' =>
      v ← read_lapic (lapic_base k) APIC_REGISTER_TIMER_CURRCNT;
      if v =? 0 then mret (Some tt) else count_down fuel'
  end.

Definition lapic_busy_wait_ticks (fuel : nat) (t : ticks) (count : Z) : io W (option unit) :=
  let count := if count =? 0 then 1 else count in
  saved_lvt ← read_lapic (lapic_base k) APIC_REGISTER_LVT_TIMER;
  write_lapic (lapic_base k) APIC_REGISTER_LVT_TIMER APIC_LVT_INT_MASKED;;
  write_lapic (lapic_base k) APIC_REGISTER_TIMER_INITCNT count;;
  done ← count_down fuel;
  match done with
  | None => mret None
  | Some _ =>
      write_lapic (lapic_base k) APIC_REGISTER_LVT_TIMER saved_lvt;;
      write_lapic (lapic_base k) APIC_REGISTER_TIMER_INITCNT (lapic_ticks_per_10ms t);;
      mret (Some tt)
  end.

(** ** Sleeping *)

Lemma handle_ticks_count n t w : 0 <= apic_ticks t < 2 ^ 64 ->
  apic_ticks (handle_ticks n t w).1 = u64 (apic_ticks t + Z.of_nat n).
Proof.
  revert t w. induction n as [|n IH]; intros t w Ht; [cbn; rewrite Z.add_0_r; symmetry; by apply u64_small|]. cbn [handle_ticks]. rewrite io_bind_eq.
  unfold apic_timer_handler at 1. rewrite !io_bind_eq, !io_ret_eq. cbn [fst snd]. rewrite IH by apply u64_range. cbn [apic_ticks]. wrap_lia.
Qed.

(** The timer interrupts of a pass. *)
Definition pass_taken (tw : ticks * W) : nat :=
  let tw1 := meanwhile tw.1 tw.2 in
  let tw2 := wait_for_interrupt tw1.1 tw1.2 in
  (taken_meanwhile tw.2).1 + (taken_by_hlt tw1.2).1 + (taken_meanwhile tw2.2).1.

Lemma meanwhile_ticks t w : 0 <= apic_ticks t < 2 ^ 64 -> apic_ticks (meanwhile t w).1 = u64 (apic_ticks t + Z.of_nat (taken_meanwhile w).1).
Proof. intros Ht. unfold meanwhile. rewrite io_bind_eq. by apply handle_ticks_count. Qed.

Lemma pass_ticks tw : 0 <= apic_ticks tw.1 < 2 ^ 64 -> apic_ticks (pass tw.1 tw.2).1 = u64 (apic_ticks tw.1 + Z.of_nat (pass_taken tw)).
Proof.
  intros Ht. unfold pass, pass_taken. cbv zeta. rewrite !io_bind_eq. pose proof (meanwhile_ticks tw.1 tw.2 Ht) as H1. set (tw1 := meanwhile tw.1 tw.2) in *.
  assert (Hr1 : 0 <= apic_ticks tw1.1 < 2 ^ 64) by (rewrite H1; apply u64_range).
  assert (H2 : apic_ticks (wait_for_interrupt tw1.1 tw1.2).1 = u64 (apic_ticks tw1.1 + Z.of_nat (taken_by_hlt tw1.2).1)) by (unfold wait_for_interrupt at 1; rewrite io_bind_eq; by apply handle_ticks_count).
  set (tw2 := wait_for_interrupt tw1.1 tw1.2) in *. rewrite meanwhile_ticks by (rewrite H2; apply u64_range). rewrite H2, H1. wrap_lia.
Qed.

(** The state after [j] passes. *)
Fixpoint passes (j : nat) (tw : ticks * W) : ticks * W :=
  match j with O => tw | S j' => passes j' (pass tw.1 tw.2) end.

(** There is a timer interrupt among the next [K] passes. *)
Definition tick_within (K : nat) (tw : ticks * W) : Prop := exists j, (j < K)%nat /\ (0 < pass_taken (passes j tw))%nat.

Section Sleep.
(** A pass takes at most [B] timer interrupts; timer interrupts keep coming. *)
Context (K B : nat).
Hypothesis few : forall tw, (pass_taken tw <= B)%nat.
Hypothesis timer_runs : forall tw, tick_within K tw.

(** Until the next tick arrives, nothing changes; then there are more. *)
Lemma sleep_one_tick start target j : forall tw fuel,
  0 <= apic_ticks tw.1 < 2 ^ 64 -> u64 (apic_ticks tw.1 - start) < target -> (0 < pass_taken (passes j tw))%nat ->
  exists j' m tw', (j' <= S j)%nat /\ (0 < m <= B)%nat /\ u64 (apic_ticks tw'.1 - start) = u64 (apic_ticks tw.1 - start + Z.of_nat m) /\
    0 <= apic_ticks tw'.1 < 2 ^ 64 /\ wloop (j' + fuel) (sleep_round start target) tw = wloop fuel (sleep_round start target) tw'.
Proof.
  induction j as [|j IH]; intros tw fuel Ht Hlt Htick; cbn [passes] in Htick; pose proof (pass_ticks tw Ht) as Hh; pose proof (few tw) as HB;
    set (tw1 := pass tw.1 tw.2) in *; assert (Hst : sleep_round start target tw = inr tw1) by (unfold sleep_round; by replace (_ <? _) with true by lia).
  all: assert (Hnow : (0 < pass_taken tw)%nat -> exists j' m tw', (j' <= 1)%nat /\ (0 < m <= B)%nat /\ u64 (apic_ticks tw'.1 - start) = u64 (apic_ticks tw.1 - start + Z.of_nat m) /\
    0 <= apic_ticks tw'.1 < 2 ^ 64 /\ wloop (j' + fuel) (sleep_round start target) tw = wloop fuel (sleep_round start target) tw')
    by (intros Hp; exists 1%nat, (pass_taken tw), tw1; split; [lia|]; split; [lia|]; split; [rewrite Hh; wrap_lia|]; split; [rewrite Hh; apply u64_range|]; cbn [Nat.add wloop]; by rewrite Hst).
  - by apply Hnow.
  - destruct (pass_taken tw) as [|m0] eqn:En.
    + rewrite Z.add_0_r, u64_small in Hh by done. destruct (IH tw1 fuel) as (j' & m & tw' & H1 & H2 & H3 & H4 & H5); [by rewrite Hh|by rewrite Hh|done|].
      rewrite Hh in H3. exists (S j'), m, tw'. split_and!; [lia|lia|lia|done|lia|lia|]. cbn [Nat.add wloop]. by rewrite Hst.
    + destruct Hnow as (j' & m & tw' & H1 & H2); [lia|]. exists j', m, tw'. split; [lia|done].
Qed.

Lemma sleep_from start target n : forall tw,
  0 <= apic_ticks tw.1 < 2 ^ 64 -> 0 <= target -> target + Z.of_nat B < 2 ^ 64 -> target - Z.of_nat n <= u64 (apic_ticks tw.1 - start) <= target + Z.of_nat B ->
  exists tw', wloop (n * K + 1) (sleep_round start target) tw = Some tw' /\ target <= u64 (apic_ticks tw'.1 - start) <= target + Z.of_nat B /\
    0 <= apic_ticks tw'.1 < 2 ^ 64.
Proof.
  induction n as [|n IH]; intros tw Ht H0 Hb He.
  all: destruct (Z_lt_ge_dec (u64 (apic_ticks tw.1 - start)) target) as [Hlt|Hge]; [|exists tw; rewrite Nat.add_comm; cbn [Nat.add wloop]; unfold sleep_round at 1; replace (_ <? target) with false by lia; split; [done|]; split; [lia|done]].
  - lia.
  - destruct (timer_runs tw) as (j & Hj & Htick). destruct (sleep_one_tick start target j tw (n * K + 1) Ht Hlt Htick) as (j' & m & tw1 & H1 & H2 & H3 & H4 & H5).
    change (2 ^ 64) with 18446744073709551616 in *. pose proof (u64_range (apic_ticks tw.1 - start)) as Hrg.
    assert (Hm : u64 (apic_ticks tw1.1 - start) = u64 (apic_ticks tw.1 - start) + Z.of_nat m) by (rewrite H3; unfold u64 in *; rewrite <- Zplus_mod_idemp_l, Z.mod_small by lia; done).
    destruct (IH tw1) as (tw' & H6 & H7 & H8); [lia|lia|lia|lia|]. exists tw'. split; [|by split]. rewrite <- H5 in H6. eapply wloop_mono; [|exact H6]. lia.
Qed.
End Sleep.
End Timer.

(** C35: [sleep] returns, and not before the ticks asked for have passed.  Timer interrupts may
    come at any point of the loop, ending the [hlt] or between its steps.  If among any [K]
    successive passes of the loop there is one, and a pass takes at most [B] of them, then
    [sleep] returns within [K * target + 1] rounds, whatever other interrupts come in between
    and also when the 64-bit tick counter wraps around meanwhile, and the counter has then
    advanced by at least [target_ticks] and by at most [B] more. *)
Theorem sleep_returns {W : Type} `{!Mmio W} `{!Interrupts W} (k : apics) (K B : nat) target t (w : W) :
  (forall tw, (pass_taken k tw <= B)%nat) -> ((taken_meanwhile w).1 <= B)%nat -> (forall tw, tick_within k K tw) ->
  0 <= target -> target + Z.of_nat B < 2 ^ 64 -> 0 <= apic_ticks t < 2 ^ 64 ->
  exists t' w' elapsed, sleep k (Z.to_nat target * K + 1) target t w = Some (t', w') /\
    apic_ticks t' = u64 (apic_ticks t + elapsed) /\ target <= elapsed <= target + Z.of_nat B.
Proof.
  intros H1 HB H2 Htg Hb Ht. pose proof (meanwhile_ticks k t w Ht) as Hm. unfold sleep. cbv zeta. set (tw := meanwhile k t w) in *. change (2 ^ 64) with 18446744073709551616 in *.
  assert (Hd : u64 (apic_ticks tw.1 - apic_ticks t) = Z.of_nat (taken_meanwhile w).1) by (rewrite Hm; wrap_lia).
  destruct (sleep_from k K B H1 H2 (apic_ticks t) target (Z.to_nat target) tw) as ([t' w'] & Hs & He & Hr);
    [rewrite Hm; apply u64_range|lia|done|rewrite Hd; lia|].
  exists t', w', (u64 (apic_ticks t' - apic_ticks t)). split; [exact Hs|]. cbn [fst] in He, Hr. split; [|exact He].
  unfold u64. rewrite Zplus_mod_idemp_r. replace (apic_ticks t + (apic_ticks t' - apic_ticks t)) with (apic_ticks t') by lia.
  symmetry. by apply Z.mod_small.
Qed.

(** A processor on which every other [hlt] is ended by the timer, and which then takes another timer
    interrupt before the next one. *)
#[local] Instance idle_mmio : Mmio bool := { mmio_ld _ _ := fun w => (0, w); mmio_st _ _ _ := fun w => (tt, w) }.
#[local] Instance idle_interrupts : Interrupts bool := { taken_by_hlt := fun w => (if w then 1%nat else 0%nat, negb w); taken_meanwhile := fun w => (if w then 1%nat else 0%nat, w) }.

Lemma sleep_returns_witness :
  exists t' w' elapsed, sleep no_apics 21 10 (Ticks 18446744073709551611 0) false = Some (t', w') /\ apic_ticks t' = u64 (18446744073709551611 + elapsed) /\ 10 <= elapsed <= 12.
Proof.
  destruct (sleep_returns no_apics 2 2 10 (Ticks 18446744073709551611 0) false) as (t' & w' & e & H1 & H2 & H3).
  - intros [t []]; apply Nat.leb_le; reflexivity.
  - apply Nat.leb_le; reflexivity.
  - intros [t []]; exists 0%nat; (split; [lia|apply Nat.ltb_lt; reflexivity]).
  - lia.
  - lia.
  - cbn. lia.
  - exists t', w', e. split; [exact H1|]. split; [exact H2|exact H3].
Defined.

(** ** Legacy pins after boot *)

Section Pins.
Context {hhdm B : Z} {W : Type} `{ID : IoApicDev B W} (k : apics) (phys : Z).
Hypothesis HB : B = phys + hhdm.
Hypothesis HBr : 0 <= B /\ B + 16 < 2 ^ 64.
Hypothesis Hphys : ioapic_addr k = phys /\ ioapic_address (ioapic_device k) = phys.
Hypothesis Hbase : global_system_interrupt_base (ioapic_device k) = 0.

Definition unmasked (r : redirection) : redirection :=
  Redirection (rd_vector r) (rd_delivery r) (rd_polarity r) (rd_trigger r) false (rd_destination r).

(** The pattern of [initKeyboard] and [init_apic_timer]: the entry of pin [irq] is set, the
    pin the override names is unmasked. *)
Lemma set_then_unmask irq gsi w : 0 <= irq < 120 -> 0 <= gsi < 120 ->
  let w' := (unmask_ioapic hhdm k gsi (set_ioapic_entry hhdm k 33 irq 0 0 w).2).2 in
  pin w' irq = Redirection 33 0 false false false 0 /\
  (gsi <> irq -> pin w' gsi = unmasked (pin w gsi)) /\
  (forall j, 0 <= j -> j <> irq -> j <> gsi -> pin w' j = pin w j).
Proof.
  intros Hi Hg. cbv zeta.
  destruct (set_ioapic_entry_spec phys HB HBr k (proj1 Hphys) w 33 irq 0 0) as [P1 P2];
    [lia|lia|lia|rewrite Hbase; lia|]. rewrite Hbase, Z.sub_0_r in P1, P2.
  destruct (unmask_ioapic_spec phys HB HBr k (proj2 Hphys) (set_ioapic_entry hhdm k 33 irq 0 0 w).2 gsi Hg) as [U1 U2].
  split_and_all.
  - destruct (decide (irq = gsi)) as [->|Hne]; [by rewrite U1, P1|]. by rewrite U2, P1 by lia.
  - intros Hne. rewrite U1. cbv zeta. by rewrite P2 by lia.
  - intros j Hj H1 H2. by rewrite U2, P2.
Qed.

(** [initKeyboard] connects the keyboard if line 1 is not redirected; if it is, the pin
    it really arrives at is unmasked with whatever vector it held. *)
Lemma initKeyboard_pins w :
  let g := nth 1 (irq_overrides k) 0 in 0 <= g < 120 ->
  let w' := (initKeyboard hhdm k w).2 in
  pin w' 1 = Redirection 33 0 false false false 0 /\ (g <> 1 -> pin w' g = unmasked (pin w g)).
Proof.
  intros g Hg. cbv zeta. unfold initKeyboard. cbv zeta. rewrite io_bind_eq. fold g.
  destruct (set_then_unmask 1 g w ltac:(lia) Hg) as (H1 & H2 & _). by split.
Qed.
End Pins.
