(* ===== verification/KernelApi.v ===== *)
(** * What the kernel offers to uACPI (kernel_api.c)

    uACPI is a library the kernel embeds; these are the functions it calls back.  A
    handle is the address of an object in kernel memory [m]; results are stored through
    [out] pointers.  The mutex, event and spinlock functions do nothing but answer, or
    allocate the object whose address is the handle. *)

From stdpp Require Import strings.
From S2P Require Import Prelude Mem Layout CString Frames Pmm Paging PagingInit Printf Klog Block Hw Pci Trap Apic ApicProps Irq Timer.

Definition UACPI_STATUS_OK : Z := 0.
Definition UACPI_STATUS_OUT_OF_MEMORY : Z := 2.
Definition UACPI_STATUS_INVALID_ARGUMENT : Z := 7.
Definition UACPI_STATUS_UNIMPLEMENTED : Z := 8.

Definition uacpi_pci_address : layout :=
  [("segment", 2); ("bus", 1); ("device", 1); ("function", 1); ("padding", 1)]%string.

Lemma pci_address_layout :
  (offset_of uacpi_pci_address "bus", offset_of uacpi_pci_address "device", offset_of uacpi_pci_address "function",
   size_of uacpi_pci_address) = (Some 2, Some 3, Some 4, 6).
Proof. reflexivity. Qed.

(** ** Memory *)

Section Memory.
Context {hhdm : Z} {S : Type} `{FA : FrameAllocator hhdm S}.

Definition uacpi_kernel_get_rsdp (m : mem) (PML4 : Z) (k : kernel_addr) (rsdp_address : Z) : Z * Z :=
  (virt_to_phys (hhdm := hhdm) m PML4 k rsdp_address, UACPI_STATUS_OK).

(** The state with the mapping made, and the pointer. *)
Definition uacpi_kernel_map (PML4 : Z) (s : S) (addr len : Z) : option (S * Z) :=
  let offset := addr &&& (PAGE_SIZE - 1) in
  let aligned_phys := addr &&& u64 (Z.lnot (PAGE_SIZE - 1)) in
  let mapped_len := u64 (u64 (offset + len + PAGE_SIZE - 1) / PAGE_SIZE * PAGE_SIZE) in
  let num_pages := mapped_len / PAGE_SIZE in
  let virt := u64 (hhdm + aligned_phys) in
  s' ← map_page PML4 s virt aligned_phys (PTE_PRESENT ||| PTE_WRITABLE) num_pages;
  Some (s', u64 (virt + offset)).

Definition uacpi_kernel_unmap (s : S) (addr len : Z) : S := s.
End Memory.

(** ** Objects on the heap *)

Section Objects.
Context {hhdm : Z} {K : Type} `{KM : KernelMem hhdm K}.

Definition uacpi_kernel_alloc (h : K) (size : Z) : option (K * Z) := heap_alloc h size.
(** [kfree] of a null pointer is the heap's business. *)
Definition uacpi_kernel_free (h : K) (p : Z) : option K := heap_free h p.

(** The handle is a copy of the address; the memory, the handle and the status. *)
Definition uacpi_kernel_pci_device_open (h : K) (m : mem) (segment bus device function : Z) : option (K * mem * option Z * Z) :=
  '(h, addr) ← heap_alloc h 6;
  if addr =? 0 then Some (h, m, None, UACPI_STATUS_OUT_OF_MEMORY)
  else Some (h, st8 (st8 (st8 (st16 m addr segment) (addr + 2) bus) (addr + 3) device) (addr + 4) function,
             Some addr, UACPI_STATUS_OK).

Definition uacpi_kernel_pci_device_close (h : K) (handle : Z) : option K := heap_free h handle.

Definition uacpi_kernel_io_map (h : K) (m : mem) (base len : Z) : option (K * mem * option Z * Z) :=
  '(h, handle) ← heap_alloc h 8;
  if handle =? 0 then Some (h, m, None, UACPI_STATUS_OUT_OF_MEMORY)
  else Some (h, st64 m handle base, Some handle, UACPI_STATUS_OK).

Definition uacpi_kernel_io_unmap (h : K) (handle : Z) : option K := heap_free h handle.

(** A [Spinlock] is one byte. *)
Definition uacpi_kernel_create_mutex (h : K) : option (K * Z) := heap_alloc h 1.
Definition uacpi_kernel_free_mutex (h : K) (handle : Z) : option K := heap_free h handle.
Definition uacpi_kernel_create_spinlock (h : K) : option (K * Z) := heap_alloc h 1.
Definition uacpi_kernel_free_spinlock (h : K) (hnd : Z) : option K := heap_free h hnd.
End Objects.

(** Nothing is locked and nothing waited for. *)
Definition uacpi_kernel_create_event : Z := 1.
Definition uacpi_kernel_get_thread_id : Z := 0.
Definition uacpi_kernel_acquire_mutex (lock timeout : Z) : Z := UACPI_STATUS_OK.
Definition uacpi_kernel_wait_for_event (event timeout : Z) : Z := 1.
Definition uacpi_kernel_handle_firmware_request (req : Z) : Z := UACPI_STATUS_OK.
Definition uacpi_kernel_lock_spinlock (hnd : Z) : Z := UACPI_STATUS_OK.
Definition uacpi_kernel_schedule_work (type handler ctx : Z) : Z := UACPI_STATUS_UNIMPLEMENTED.
Definition uacpi_kernel_wait_for_work_completion : Z := UACPI_STATUS_OK.

(** ** Ports and configuration space *)

Section Ports.
Context {W : Type} `{!PortIo W}.

(** [*out] is a 64-bit store. *)
Definition uacpi_kernel_pci_read (m : mem) (handle offset width out : Z) : io W (Z * mem) :=
  let bus := ld8 m (handle + 2) in let device := ld8 m (handle + 3) in let function := ld8 m (handle + 4) in
  if width =? 1 then v ← pci_read_config8 bus device function (u8 offset); mret (UACPI_STATUS_OK, st64 m out v)
  else if width =? 2 then v ← pci_read_config16 bus device function (u8 offset); mret (UACPI_STATUS_OK, st64 m out v)
  else if width =? 4 then v ← pci_read_config32 bus device function (u8 offset); mret (UACPI_STATUS_OK, st64 m out v)
  else mret (UACPI_STATUS_INVALID_ARGUMENT, m).

Definition uacpi_kernel_pci_read8 (m : mem) (device offset value : Z) : io W (Z * mem) := uacpi_kernel_pci_read m device offset 1 value.
Definition uacpi_kernel_pci_read16 (m : mem) (device offset value : Z) : io W (Z * mem) := uacpi_kernel_pci_read m device offset 2 value.
Definition uacpi_kernel_pci_read32 (m : mem) (device offset value : Z) : io W (Z * mem) := uacpi_kernel_pci_read m device offset 4 value.

Definition uacpi_kernel_pci_write (m : mem) (handle offset width value : Z) : io W Z :=
  let bus := ld8 m (handle + 2) in let device := ld8 m (handle + 3) in let function := ld8 m (handle + 4) in
  if width =? 1 then pci_write_config8 bus device function (u8 offset) (u8 value);; mret UACPI_STATUS_OK
  else if width =? 2 then pci_write_config16 bus device function (u8 offset) (u16 value);; mret UACPI_STATUS_OK
  else if width =? 4 then pci_write_config32 bus device function (u8 offset) (u32 value);; mret UACPI_STATUS_OK
  else mret UACPI_STATUS_INVALID_ARGUMENT.

Definition uacpi_kernel_pci_write8 (m : mem) (device offset value : Z) : io W Z := uacpi_kernel_pci_write m device offset 1 value.
Definition uacpi_kernel_pci_write16 (m : mem) (device offset value : Z) : io W Z := uacpi_kernel_pci_write m device offset 2 value.
Definition uacpi_kernel_pci_write32 (m : mem) (device offset value : Z) : io W Z := uacpi_kernel_pci_write m device offset 4 value.

(** The port is computed from the handle itself. *)
Definition uacpi_kernel_io_read (m : mem) (handle offset width out : Z) : io W (Z * mem) :=
  let target := u64 (handle + offset) in
  if width =? 1 then v ← inPortB target; mret (UACPI_STATUS_OK, st64 m out v)
  else if width =? 2 then v ← inPortW target; mret (UACPI_STATUS_OK, st64 m out v)
  else if width =? 4 then v ← inPortD target; mret (UACPI_STATUS_OK, st64 m out v)
  else mret (UACPI_STATUS_INVALID_ARGUMENT, m).

Definition uacpi_kernel_io_read8 (m : mem) (handle offset out : Z) : io W (Z * mem) := uacpi_kernel_io_read m handle offset 1 out.
Definition uacpi_kernel_io_read16 (m : mem) (handle offset out : Z) : io W (Z * mem) := uacpi_kernel_io_read m handle offset 2 out.
Definition uacpi_kernel_io_read32 (m : mem) (handle offset out : Z) : io W (Z * mem) := uacpi_kernel_io_read m handle offset 4 out.

Definition uacpi_kernel_io_write (handle offset width value : Z) : io W Z :=
  let target := u64 (handle + offset) in
  if width =? 1 then outPortB target value;; mret UACPI_STATUS_OK
  else if width =? 2 then outPortW target value;; mret UACPI_STATUS_OK
  else if width =? 4 then outPortD target value;; mret UACPI_STATUS_OK
  else mret UACPI_STATUS_INVALID_ARGUMENT.

Definition uacpi_kernel_io_write8 (handle offset v : Z) : io W Z := uacpi_kernel_io_write handle offset 1 v.
Definition uacpi_kernel_io_write16 (handle offset v : Z) : io W Z := uacpi_kernel_io_write handle offset 2 v.
Definition uacpi_kernel_io_write32 (handle offset v : Z) : io W Z := uacpi_kernel_io_write handle offset 4 v.
End Ports.

(** ** Time and interrupts *)

Definition uacpi_kernel_get_nanoseconds_since_boot (t : ticks) : Z := u64 (apic_ticks t * 10000000).

Section Time.
Context {W : Type} `{!Mmio W} `{!Cpu W} (k : apics) (fuel : nat).

Definition uacpi_kernel_stall (t : ticks) (usec : Z) : io W (option unit) :=
  lapic_busy_wait_ticks k fuel t (u32 (lapic_ticks_per_10ms t * u8 usec / 10000)).

Fixpoint sleep_ms (n : nat) (t : ticks) (ticks_per_ms : Z) : io W (option unit) :=
  match n with
  | O => mret (Some tt)
  | S n' =>
      r ← lapic_busy_wait_ticks k fuel t ticks_per_ms;
      match r with Some _ => sleep_ms n' t ticks_per_ms | None => mret None end
  end.
Definition uacpi_kernel_sleep (t : ticks) (msec : Z) : io W (option unit) :=
  sleep_ms (Z.to_nat msec) t (lapic_ticks_per_10ms t / 10).

(** The state in which interrupts were is not kept: they are switched off and on. *)
Definition uacpi_kernel_disable_interrupts : io W unit := cli.
Definition uacpi_kernel_restore_interrupts (state : Z) : io W unit := sti.
End Time.

Section Handlers.
Context (hhdm : Z) {W : Type} `{!Mmio W} (k : apics) (irq_trampolines : Z -> Z).

(** [irq] is passed on as 16 bits. *)
Definition uacpi_kernel_install_interrupt_handler (s : irqs) (irq handler ctx : Z) : io W (Z * option Z * irqs) :=
  r ← irq_create hhdm k irq_trampolines s (u16 irq) IRQ_TYPE_LEGACY handler ctx 0;
  if r.1 =? 0 then mret (UACPI_STATUS_OUT_OF_MEMORY, None, r.2)
  else mret (UACPI_STATUS_OK, Some r.1, r.2).

(** Nothing is uninstalled. *)
Definition uacpi_kernel_uninstall_interrupt_handler (s : irqs) (handler irq_handle : Z) : Z * irqs := (UACPI_STATUS_OK, s).
End Handlers.

(** The levels the switch tells apart; the header that numbers them is not in the tree. *)
Inductive uacpi_log_level := UACPI_LOG_WARN | UACPI_LOG_ERROR | UACPI_LOG_INFO | UACPI_LOG_OTHER.

Definition uacpi_kernel_log (fuel : nat) (stack : mem) (t : ticks) (lvl : uacpi_log_level) (msg : mem * Z) : option (kpend * kpend) :=
  let level := match lvl with UACPI_LOG_WARN => KLOG_WARN | UACPI_LOG_ERROR => KLOG_ERROR | _ => KLOG_INFO end in
  prefix ← klog fuel stack (apic_ticks t) level (const (chars "uACPI"), 0);
  line ← kprintf fuel stack (const (chars "%s" ++ [10]), 0) [VStr msg];
  Some (prefix, line).

(** ** Mapping physical memory *)

Lemma page_round addr : 0 <= addr < 2 ^ 64 -> addr &&& u64 (Z.lnot (PAGE_SIZE - 1)) = addr / 4096 * 4096.
Proof. intros. by apply (align_down addr 12). Qed.

Lemma page_pos_linear virt va :
  0 <= virt <= va -> virt mod 4096 = 0 -> (va - virt) / 4096 < 2 ^ 36 -> page_pos virt va = (va - virt) / 4096.
Proof.
  intros Hv Ha Hn. unfold page_pos, vpn. rewrite !shiftr_div by lia. change (2 ^ 12) with 4096.
  rewrite <- Zminus_mod. replace (va / 4096 - virt / 4096) with ((va - virt) / 4096) by (Z.div_mod_to_equations; lia).
  apply Z.mod_small. split; [apply Z.div_pos; lia|done].
Qed.

Section Map.
Context {hhdm : Z} {St : Type} `{FA : FrameAllocator hhdm St}.

(** [uacpi_kernel_map] makes exactly the bytes asked for accessible at the address it
    returns.  On well-formed page tables with a free frame for every table needed, for a
    non-empty range of physical memory below 1 TiB and a page-aligned direct map, it
    returns the direct-map address of the first byte; every byte of the range, whatever
    its alignment, is translated to its physical address; and every address outside the
    pages the range touches is translated as before. *)
Theorem uacpi_map_reaches_range (s : St) (root : Z) (T : ptmap) (addr len : Z) :
  let first := addr / 4096 * 4096 in
  let pages := (addr mod 4096 + len + 4095) / 4096 in
  pt_inv s root T -> hhdm mod 4096 = 0 -> 0 <= hhdm -> 0 <= addr -> 0 < len -> addr + len + 4096 <= 2 ^ 40 ->
  hhdm + addr + len + 4096 <= 2 ^ 64 -> tables_needed (hhdm + first) pages <= Z.of_nat (fa_avail s) ->
  exists s' T', uacpi_kernel_map (root + hhdm) s addr len = Some (s', hhdm + addr) /\ pt_inv s' root T' /\
    (forall i, 0 <= i < len ->
       getPhysicalAddress (hhdm := hhdm) (fa_mem s') (root + hhdm) (hhdm + addr + i) = addr + i) /\
    (forall va, pages <= page_pos (hhdm + first) va ->
       getPhysicalAddress (hhdm := hhdm) (fa_mem s') (root + hhdm) va =
       getPhysicalAddress (hhdm := hhdm) (fa_mem s) (root + hhdm) va).
Proof.
  intros first pages Hinv Hh Hh0 Ha Hl Hal Hhi Hav. change (2 ^ 40) with 1099511627776 in *. change (2 ^ 64) with 18446744073709551616 in *.
  assert (Hf : 0 <= first <= addr /\ first mod 4096 = 0 /\ addr - first = addr mod 4096)
    by (unfold first; Z.div_mod_to_equations; lia).
  assert (Hp : 0 < pages /\ addr mod 4096 + len <= pages * 4096 /\ pages * 4096 <= addr mod 4096 + len + 4095)
    by (unfold pages; Z.div_mod_to_equations; lia).
  assert (Hm : 0 <= addr mod 4096 < 4096) by (apply Z.mod_pos_bound; lia).
  assert (Hvm : (hhdm + first) mod 4096 = 0) by (Z.div_mod_to_equations; lia).
  destruct (map_page_ok s root T (hhdm + first) first 3 pages) as (s' & T' & E & Hi & Hk & _ & Hw); try done; try lia.
  exists s', T'. split_and_all; try done.
  - unfold uacpi_kernel_map. cbv zeta.
    replace (addr &&& (PAGE_SIZE - 1)) with (addr mod 4096) by (symmetry; exact (land_mod addr 12 ltac:(lia))).
    rewrite page_round by (change (2 ^ 64) with 18446744073709551616; lia). fold first. unfold PAGE_SIZE.
    replace (addr mod 4096 + len + 4096 - 1) with (addr mod 4096 + len + 4095) by lia.
    rewrite (u64_small (addr mod 4096 + len + 4095)) by lia. fold pages. rewrite (u64_small (pages * 4096)) by lia.
    rewrite Z.div_mul by lia. rewrite (u64_small (hhdm + first)) by lia.
    change (PTE_PRESENT ||| PTE_WRITABLE) with 3. rewrite E. cbn [mbind option_bind]. do 3 f_equal. rewrite u64_small by lia. lia.
  - intros i Hi'. rewrite (getPhysicalAddress_walk s' root T'), Hw by done.
    rewrite page_pos_linear by (try done; try (apply Z.div_lt_upper_bound; [lia|]); change (2 ^ 36) with 68719476736; lia).
    replace (hhdm + addr + i - (hhdm + first)) with (addr mod 4096 + i) by lia.
    assert (Hq : (addr mod 4096 + i) / 4096 < pages) by (apply Z.div_lt_upper_bound; lia).
    replace (_ <? pages) with true by lia.
    assert (Hmod : (hhdm + addr + i) mod 4096 = (addr mod 4096 + i) mod 4096).
    { replace (hhdm + addr + i) with (addr mod 4096 + i + (hhdm + first)) by lia.
      rewrite Z.add_mod, (Z.add_mod hhdm first), Hh by lia. replace (first mod 4096) with 0 by lia.
      rewrite Z.mod_0_l, Z.add_0_r by lia. apply Z.mod_mod. lia. }
    rewrite Hmod. pose proof (Z.div_mod (addr mod 4096 + i) 4096 ltac:(lia)). lia.
  - intros va Hva. rewrite (getPhysicalAddress_walk s' root T'), (getPhysicalAddress_walk s root T), Hw by done.
    by replace (_ <? pages) with false by lia.
Qed.
End Map.

Lemma uacpi_map_reaches_range_witness :
  exists (s s' : pmm) root, uacpi_kernel_map (hhdm := demo_hhdm) (root + demo_hhdm) s 1048570 20 = Some (s', demo_hhdm + 1048570) /\
    getPhysicalAddress (hhdm := demo_hhdm) (pmem s') (root + demo_hhdm) (demo_hhdm + 1048589) = 1048589.
Proof.
  destruct (empty_root (FA := pmm_frames demo_hhdm) demo_pmm 254 demo_pmm_low demo_avail)
    as (s1 & root & _ & _ & Hi & Hav & _).
  destruct (uacpi_map_reaches_range (FA := pmm_frames demo_hhdm) (fa_upd s1 (memset (fa_mem s1) (root + demo_hhdm) 0 4096))
    root (root_only root) 1048570 20 Hi) as (s' & T' & E & _ & Ht & _);
    [reflexivity|discriminate|discriminate|reflexivity|discriminate|discriminate|rewrite Hav; discriminate|].
  eexists _, s', root. split; [exact E|]. exact (Ht 19 ltac:(lia)).
Defined.

(** ** Results stored through pointers *)

Lemma st64_above m a v n i : 0 <= v < 256 ^ n -> 0 <= n <= i -> i < 8 -> st64 m a v (a + i) = 0.
Proof.
  intros Hv Hn Hi.
  replace i with (Z.of_nat (Z.to_nat i)) by lia. rewrite stn_byte by lia. rewrite Z2Nat.id by lia.
  rewrite Z.div_small; [done|]. split; [lia|]. apply (Z.lt_le_trans _ (256 ^ n)); [lia|]. apply Z.pow_le_mono_r; lia.
Qed.

Section Narrow.
Context {W : Type} `{!PortIo W}.

(** Reads of one, two and four bytes destroy what lies behind the result.  uACPI asks
    for a value of one, two or four bytes and passes a pointer to an object of that size;
    the functions store eight bytes through it, so for configuration space and for ports
    alike every byte from the end of the object up to the eighth becomes 0. *)
Theorem narrow_reads_clear_neighbours (m : mem) (handle offset out : Z) (w : W) (i : Z) :
  i < 8 ->
  (1 <= i -> (uacpi_kernel_pci_read8 m handle offset out w).1.2 (out + i) = 0 /\
             (uacpi_kernel_io_read8 m handle offset out w).1.2 (out + i) = 0) /\
  (2 <= i -> (uacpi_kernel_pci_read16 m handle offset out w).1.2 (out + i) = 0 /\
             (uacpi_kernel_io_read16 m handle offset out w).1.2 (out + i) = 0) /\
  (4 <= i -> (uacpi_kernel_pci_read32 m handle offset out w).1.2 (out + i) = 0 /\
             (uacpi_kernel_io_read32 m handle offset out w).1.2 (out + i) = 0).
Proof.
  intros Hi.
  unfold uacpi_kernel_pci_read8, uacpi_kernel_pci_read16, uacpi_kernel_pci_read32, uacpi_kernel_pci_read,
    uacpi_kernel_io_read8, uacpi_kernel_io_read16, uacpi_kernel_io_read32, uacpi_kernel_io_read.
  cbn [Z.eqb Pos.eqb]. rewrite !io_bind_eq, !io_ret_eq. cbn [fst snd].
  split_and_all; intros Hn; split.
  - apply (st64_above _ _ _ 1); [|lia|lia]. unfold pci_read_config8. rewrite !io_bind_eq, io_ret_eq. apply u8_range.
  - apply (st64_above _ _ _ 1); [|lia|lia]. unfold inPortB. rewrite io_bind_eq, io_ret_eq. apply u8_range.
  - apply (st64_above _ _ _ 2); [|lia|lia]. unfold pci_read_config16. rewrite !io_bind_eq, io_ret_eq. apply u16_range.
  - apply (st64_above _ _ _ 2); [|lia|lia]. unfold inPortW. rewrite io_bind_eq, io_ret_eq. apply u16_range.
  - apply (st64_above _ _ _ 4); [|lia|lia]. unfold pci_read_config32, inPortD. rewrite !io_bind_eq, io_ret_eq. apply u32_range.
  - apply (st64_above _ _ _ 4); [|lia|lia]. unfold inPortD. rewrite io_bind_eq, io_ret_eq. apply u32_range.
Qed.
End Narrow.

(** A machine that records the ports written. *)
#[local] Instance port_log : PortIo (list (Z * Z * Z)) := {
  inp n p := fun w => (255, w);
  outp n p v := fun w => (tt, w ++ [(n, p, v)]) }.

(** The byte behind a one-byte result held 7. *)
Lemma narrow_reads_clear_neighbours_witness :
  (uacpi_kernel_io_read8 (fun _ => 7) 100 0 4096 []).1.2 4097 = 0.
Proof.
  destruct (narrow_reads_clear_neighbours (fun _ => 7) 100 0 4096 [] 1 ltac:(lia)) as [H _].
  exact (proj2 (H ltac:(lia))).
Defined.

(** The port accessed comes from the handle's address, not from the base stored in it. *)
Lemma io_port_is_handle (handle offset v : Z) log :
  (uacpi_kernel_io_write8 handle offset v log).2 = log ++ [(1, u16 (u64 (handle + offset)), u8 v)].
Proof. unfold uacpi_kernel_io_write8, uacpi_kernel_io_write. cbn [Z.eqb Pos.eqb]. by rewrite io_bind_eq, io_ret_eq. Qed.
