(* ===== verification/AcpiBits.v ===== *)
(** * Bit spans and buffer fields of uACPI, [src/src/uacpi/io.c]

    AML reads and writes fields of buffers that start at any bit and have any length.
    [bit_copy] moves a run of bits between two places of memory that are aligned
    differently, eight bits a round; buffer fields on a byte boundary take a path of their
    own.  Both are compared with one view of memory as a row of bits. *)

From S2P Require Import Prelude Mem CString.
From Stdlib Require Import Btauto.

(** ** The functions *)

Definition uacpi_round_up_bits_to_bytes (bit_length : Z) : Z := (u64 (bit_length + 7) &&& u64 (Z.lnot 7)) / 8.

Definition uacpi_memcpy_zerout (m : mem) (dst src dst_size src_size : Z) : mem :=
  let bytes_to_copy := Z.min src_size dst_size in
  let m := if truthy bytes_to_copy then memcpy m dst src bytes_to_copy else m in
  if bytes_to_copy <? dst_size then memset m (dst + bytes_to_copy) 0 (dst_size - bytes_to_copy) else m.

Definition cut_misaligned_tail (m : mem) (data offset bit_length : Z) : mem :=
  let remainder := bit_length &&& 7 in
  if remainder =? 0 then m
  else st8 m (data + offset) (ld8 m (data + offset) &&& ((1 <<< remainder) - 1)).

Record bit_span := BitSpan { sp_data : Z; sp_index : Z; sp_length : Z }.

(** [bit_span_offset]: the span moved on, and by how many bits. *)
Definition bit_span_offset (span : bit_span) (bits : Z) : bit_span * Z :=
  let delta := Z.min (sp_length span) bits in
  (BitSpan (sp_data span) (u64 (sp_index span + delta)) (u64 (sp_length span - delta)), delta).

(** The variables of [bit_copy] that its loop changes. *)
Record copying := Copying { cp_mem : mem; src_ptr : Z; src_count : Z; dst_ptr : Z; dst_count : Z }.

(** The bits taken from the source in a round, and the source afterwards. *)
Definition take_bits (src_shift : Z) (c : copying) : Z * Z * Z :=
  if truthy (src_count c) then
    let bits := ld8 (cp_mem c) (src_ptr c) >>> src_shift in
    let bits := if truthy src_shift && (8 - src_shift <? src_count c)
                then u8 (bits ||| (ld8 (cp_mem c) (src_ptr c + 1) <<< (8 - src_shift))) else bits in
    if src_count c <? 8 then (bits &&& ((1 <<< src_count c) - 1), src_ptr c, 0)
    else (bits, src_ptr c + 1, src_count c - 8)
  else (0, src_ptr c, src_count c).

(** The bits put into the destination in a round. *)
Definition put_bits (dst_shift bits : Z) (m : mem) (dst_ptr dst_count : Z) : mem :=
  let dst_mask := u16 ((if dst_count <? 8 then (1 <<< dst_count) - 1 else 255) <<< dst_shift) in
  let m := st8 m dst_ptr ((ld8 m dst_ptr &&& Z.lnot dst_mask) ||| ((bits <<< dst_shift) &&& dst_mask)) in
  if truthy dst_shift && (8 - dst_shift <? dst_count) then
    let dst_mask := dst_mask >>> 8 in
    let m := st8 m (dst_ptr + 1) (ld8 m (dst_ptr + 1) &&& Z.lnot dst_mask) in
    st8 m (dst_ptr + 1) (ld8 m (dst_ptr + 1) ||| ((bits >>> (8 - dst_shift)) &&& dst_mask))
  else m.

Definition bit_copy_round (src_shift dst_shift : Z) (c : copying) : mem + copying :=
  if truthy (dst_count c) then
    let '(bits, src, rest) := take_bits src_shift c in
    inr (Copying (put_bits dst_shift bits (cp_mem c) (dst_ptr c) (dst_count c)) src rest (dst_ptr c + 1)
           (if 8 <? dst_count c then dst_count c - 8 else 0))
  else inl (cp_mem c).

(** One round per eight bits and one for the last test. *)
Definition bit_copy (m : mem) (dst src : bit_span) : option mem :=
  wloop (S (S (Z.to_nat (sp_length dst / 8)))) (bit_copy_round (sp_index src &&& 7) (sp_index dst &&& 7))
    (Copying m (sp_data src + sp_index src / 8) (sp_length src) (sp_data dst + sp_index dst / 8) (sp_length dst)).

(** [uacpi_buffer_field]; [backing] is the address of the buffer's bytes. *)
Record uacpi_buffer_field := BufferField { backing : Z; bit_index : Z; bit_length : Z }.

Definition do_misaligned_buffer_read (m : mem) (field : uacpi_buffer_field) (dst : Z) : option mem :=
  bit_copy m (BitSpan dst 0 (u64 (uacpi_round_up_bits_to_bytes (bit_length field) * 8)))
    (BitSpan (backing field) (bit_index field) (bit_length field)).

Definition uacpi_read_buffer_field (m : mem) (field : uacpi_buffer_field) (dst : Z) : option mem :=
  if negb (truthy (bit_index field &&& 7)) then
    let count := uacpi_round_up_bits_to_bytes (bit_length field) in
    Some (cut_misaligned_tail (memcpy m dst (backing field + bit_index field / 8) count) dst (count - 1) (bit_length field))
  else do_misaligned_buffer_read m field dst.

Definition do_write_misaligned_buffer_field (m : mem) (field : uacpi_buffer_field) (src size : Z) : option mem :=
  bit_copy m (BitSpan (backing field) (bit_index field) (bit_length field)) (BitSpan src 0 (u64 (size * 8))).

Definition uacpi_write_buffer_field (m : mem) (field : uacpi_buffer_field) (src size : Z) : option mem :=
  if negb (truthy (bit_index field &&& 7)) then
    let dst := backing field + bit_index field / 8 in
    let count := uacpi_round_up_bits_to_bytes (bit_length field) in
    let last := dst + (count - 1) in
    let last_byte := ld8 m last in
    let tail_shift := bit_length field &&& 7 in
    let m := uacpi_memcpy_zerout m dst src count size in
    if truthy tail_shift then
      let last_shift := 8 - tail_shift in
      let m := st8 m last (ld8 m last <<< last_shift) in
      let m := st8 m last (ld8 m last >>> last_shift) in
      Some (st8 m last (ld8 m last ||| ((last_byte >>> tail_shift) <<< tail_shift)))
    else Some m
  else do_write_misaligned_buffer_field m field src size.

(** ** Memory as a row of bits *)

(** Bit [k] of memory: bits are numbered through the bytes, lowest first. *)
Definition mbit (m : mem) (k : Z) : bool := Z.testbit (ld8 m (k / 8)) (k mod 8).

(** Where a span starts in that row. *)
Definition bit_at (s : bit_span) : Z := 8 * sp_data s + sp_index s.

(** The number in the [n] bits from bit [k] on. *)
Fixpoint bits_value (n : nat) (m : mem) (k : Z) : Z :=
  match n with
  | O => 0
  | S n' => Z.b2z (mbit m k) + 2 * bits_value n' m (k + 1)
  end.

Example unaligned_copy :
  option_map (fun m => (ld8 m 20, ld8 m 21, ld8 m 22))
    (bit_copy (fun x => if x =? 20 then 255 else if x =? 10 then 164 else if x =? 11 then 3 else 0)
       (BitSpan 20 3 12) (BitSpan 10 2 9)) = Some (79, 7, 0).
Proof. vm_compute. reflexivity. Qed.

Lemma mbit_at m a i : 0 <= i < 8 -> mbit m (8 * a + i) = Z.testbit (ld8 m a) i.
Proof.
  intros Hi. unfold mbit. replace ((8 * a + i) / 8) with a by (Z.div_mod_to_equations; lia).
  by replace ((8 * a + i) mod 8) with i by (Z.div_mod_to_equations; lia).
Qed.

Lemma testbit_u8 v i : 0 <= i < 8 -> Z.testbit (u8 v) i = Z.testbit v i.
Proof. intros. change (u8 v) with (v mod 2 ^ 8). apply Z.mod_pow2_bits_low. lia. Qed.

Lemma mbit_st8 m a v k : mbit (st8 m a v) k = if k / 8 =? a then Z.testbit v (k mod 8) else mbit m k.
Proof.
  unfold mbit, ld8, st8. pose proof (Z.mod_pos_bound k 8 ltac:(lia)). case_if; [|done].
  by rewrite !testbit_u8 by lia.
Qed.

Lemma mbit_ext m m' k : ld8 m' (k / 8) = ld8 m (k / 8) -> mbit m' k = mbit m k.
Proof. unfold mbit. by intros ->. Qed.

Lemma ld8_ext m m' a : (forall i, 0 <= i < 8 -> mbit m' (8 * a + i) = mbit m (8 * a + i)) -> ld8 m' a = ld8 m a.
Proof.
  intros H. apply Z.bits_inj'. intros i Hi. destruct (Z_lt_ge_dec i 8).
  - specialize (H i ltac:(lia)). by rewrite !mbit_at in H by lia.
  - unfold ld8, u8. change 256 with (2 ^ 8). by rewrite !Z.mod_pow2_bits_high by lia.
Qed.

Lemma testbit_low_mask n i : 0 <= n -> 0 <= i -> Z.testbit ((1 <<< n) - 1) i = (i <? n).
Proof.
  intros. rewrite Z.shiftl_mul_pow2, Z.mul_1_l, Z.sub_1_r, <- Z.ones_equiv by lia. apply Z.testbit_ones_nonneg; lia.
Qed.

(** ** One round *)

Lemma take_bits_spec src_shift c bits src rest :
  0 <= src_shift < 8 -> 0 <= src_count c -> take_bits src_shift c = (bits, src, rest) ->
  (forall i, 0 <= i < 8 -> Z.testbit bits i = (i <? src_count c) && mbit (cp_mem c) (8 * src_ptr c + src_shift + i)) /\
  rest = Z.max 0 (src_count c - 8) /\ (8 <= src_count c -> src = src_ptr c + 1).
Proof.
  intros Hs Hc. unfold take_bits. destruct (truthy (src_count c)) eqn:E0; bool_to_prop.
  2: { intros [= <- <- <-]. split_and_all; [|lia|lia]. intros i Hi. replace (i <? src_count c) with false by lia. by rewrite Z.bits_0. }
  set (b := if _ && _ then _ else _).
  assert (Hb : forall i, 0 <= i < 8 -> i < src_count c -> Z.testbit b i = mbit (cp_mem c) (8 * src_ptr c + src_shift + i)).
  { intros i Hi Hl. subst b. destruct (Z_lt_ge_dec (src_shift + i) 8).
    - rewrite <- Z.add_assoc, mbit_at by lia. assert (Z.testbit (ld8 (cp_mem c) (src_ptr c) >>> src_shift) i = Z.testbit (ld8 (cp_mem c) (src_ptr c)) (src_shift + i)) as Hr.
      { rewrite Z.shiftr_spec by lia. f_equal. lia. }
      case_if; [|done]. rewrite testbit_u8, Z.lor_spec, Z.shiftl_spec, Hr by lia. rewrite (Z.testbit_neg_r _ (i - (8 - src_shift))) by lia. apply orb_false_r.
    - replace (8 * src_ptr c + src_shift + i) with (8 * (src_ptr c + 1) + (src_shift + i - 8)) by lia. rewrite mbit_at by lia.
      rewrite truthy_nz by lia. replace (8 - src_shift <? src_count c) with true by lia. cbn [andb].
      rewrite testbit_u8, Z.lor_spec, Z.shiftl_spec, Z.shiftr_spec by lia.
      unfold ld8 at 1, u8. change 256 with (2 ^ 8). rewrite Z.mod_pow2_bits_high by lia. cbn [orb]. f_equal. lia. }
  case_if; intros [= <- <- <-]; split_and_all; try lia; intros i Hi.
  - rewrite Z.land_spec, testbit_low_mask by lia. destruct (i <? src_count c) eqn:El; bool_to_prop.
    + rewrite Hb by lia. apply andb_true_r.
    + apply andb_false_r.
  - replace (i <? src_count c) with true by lia. apply Hb; lia.
Qed.

Lemma dst_mask_bit shift count i : 0 <= shift < 8 -> 0 < count -> 0 <= i ->
  Z.testbit (u16 ((if count <? 8 then (1 <<< count) - 1 else 255) <<< shift)) i = (shift <=? i) && (i <? shift + Z.min 8 count).
Proof.
  intros Hs Hc Hi. set (w := Z.min 8 count).
  replace (if count <? 8 then (1 <<< count) - 1 else 255) with ((1 <<< w) - 1)
    by (subst w; case_if; [by rewrite Z.min_r by lia|by rewrite Z.min_l by lia]).
  assert (0 < w <= 8) by (subst w; lia). change (u16 ?x) with (x mod 2 ^ 16).
  destruct (Z_lt_ge_dec i shift).
  - rewrite Z.mod_pow2_bits_low, Z.shiftl_spec, Z.testbit_neg_r by lia. by replace (shift <=? i) with false by lia.
  - replace (shift <=? i) with true by lia. cbn [andb]. destruct (Z_lt_ge_dec i 16).
    + rewrite Z.mod_pow2_bits_low, Z.shiftl_spec, testbit_low_mask by lia. lia.
    + rewrite Z.mod_pow2_bits_high by lia. lia.
Qed.

Lemma put_bits_spec shift bits m ptr count k : 0 <= shift < 8 -> 0 < count ->
  mbit (put_bits shift bits m ptr count) k =
    if (8 * ptr + shift <=? k) && (k <? 8 * ptr + shift + Z.min 8 count) then Z.testbit bits (k - (8 * ptr + shift)) else mbit m k.
Proof.
  intros Hs Hc. unfold put_bits. set (mask := u16 _).
  assert (Hm : forall i, 0 <= i -> Z.testbit mask i = (shift <=? i) && (i <? shift + Z.min 8 count)) by (intros; by apply dst_mask_bit).
  clearbody mask. pose proof (Z.mod_pos_bound k 8 ltac:(lia)) as Hr. pose proof (Z.div_mod k 8 ltac:(lia)) as Hk.
  set (q := k / 8) in *. set (r := k mod 8) in *.
  assert (Hlow : mbit (st8 m ptr ((ld8 m ptr &&& Z.lnot mask) ||| ((bits <<< shift) &&& mask))) k =
     if (8 * ptr + shift <=? k) && (k <? 8 * ptr + shift + Z.min 8 count) && (q =? ptr) then Z.testbit bits (k - (8 * ptr + shift)) else mbit m k).
  { rewrite mbit_st8. fold q r. destruct (q =? ptr) eqn:E; bool_to_prop; [|by rewrite andb_false_r].
    rewrite Z.lor_spec, !Z.land_spec, Z.lnot_spec, Hm, Z.shiftl_spec, andb_true_r by lia.
    replace (8 * ptr + shift <=? k) with (shift <=? r) by lia. replace (k <? 8 * ptr + shift + Z.min 8 count) with (r <? shift + Z.min 8 count) by lia.
    assert (Z.testbit (ld8 m ptr) r = mbit m k) as -> by (rewrite <- mbit_at by lia; f_equal; lia).
    replace (r - shift) with (k - (8 * ptr + shift)) by lia. destruct (shift <=? r), (r <? shift + Z.min 8 count); cbn; btauto. }
  case_if.
  - do 2 rewrite mbit_st8. fold q r. destruct (q =? ptr + 1) eqn:Eq; bool_to_prop.
    + assert (Hb : ld8 (st8 m ptr ((ld8 m ptr &&& Z.lnot mask) ||| ((bits <<< shift) &&& mask))) (ptr + 1) = ld8 m (ptr + 1))
        by (unfold ld8; by rewrite st8_other by lia).
      rewrite Hb. unfold ld8 at 1. rewrite st8_same, u8_idem, Z.lor_spec, testbit_u8, !Z.land_spec, Z.lnot_spec by lia.
      rewrite !Z.shiftr_spec, Hm by lia. replace (8 * ptr + shift <=? k) with true by lia. replace (shift <=? r + 8) with true by lia.
      replace (k <? 8 * ptr + shift + Z.min 8 count) with (r + 8 <? shift + Z.min 8 count) by lia.
      assert (Z.testbit (ld8 m (ptr + 1)) r = mbit m k) as -> by (rewrite <- mbit_at by lia; f_equal; lia).
      replace (r + (8 - shift)) with (k - (8 * ptr + shift)) by lia. destruct (r + 8 <? shift + Z.min 8 count); cbn; btauto.
    + rewrite Hlow. destruct (q =? ptr) eqn:Ep; bool_to_prop; [by rewrite andb_true_r|]. rewrite andb_false_r.
      by replace ((8 * ptr + shift <=? k) && (k <? 8 * ptr + shift + Z.min 8 count)) with false by lia.
  - rewrite Hlow. destruct (q =? ptr) eqn:Ep; bool_to_prop; [by rewrite andb_true_r|]. rewrite andb_false_r.
    assert (shift = 0 \/ count <= 8 - shift) as Hn.
    { apply andb_false_iff in E as [E|E]; bool_to_prop; [by left|by right]. }
    by replace ((8 * ptr + shift <=? k) && (k <? 8 * ptr + shift + Z.min 8 count)) with false by lia.
Qed.

(** ** The whole copy *)

(** What [bit_copy] makes of memory: the [dlen] bits from bit [d] on are the [slen] bits from
    bit [s] on, followed by zeroes; every other bit is as it was. *)
Definition bits_copied (m m' : mem) (d dlen s slen : Z) : Prop :=
  forall k, mbit m' k = if (d <=? k) && (k <? d + dlen) then (k - d <? slen) && mbit m (s + (k - d)) else mbit m k.

(** [t] bits have been copied. *)
Record copy_inv (m : mem) (d dlen s slen : Z) (dshift sshift : Z) (t : Z) (c : copying) : Prop := {
  ci_mem : bits_copied m (cp_mem c) d (Z.min t dlen) s slen;
  ci_dst : 8 * dst_ptr c + dshift = d + t;
  ci_dleft : dst_count c = Z.max 0 (dlen - t);
  ci_sleft : src_count c = Z.max 0 (slen - t);
  ci_src : 0 < src_count c -> 8 * src_ptr c + sshift = s + t }.

Lemma copy_round_inv m d dlen s slen dshift sshift t c :
  0 <= dshift < 8 -> 0 <= sshift < 8 -> 0 <= slen -> 0 <= t < dlen ->
  d + dlen <= s \/ s + slen <= d ->
  copy_inv m d dlen s slen dshift sshift t c ->
  exists c', bit_copy_round sshift dshift c = inr c' /\ copy_inv m d dlen s slen dshift sshift (t + 8) c'.
Proof.
  intros Hd Hs Hl Ht Hov [Im Id Idl Isl Is]. unfold bit_copy_round. rewrite truthy_nz by lia.
  destruct (take_bits sshift c) as [[bits src] rest] eqn:Et. apply take_bits_spec in Et as (Hb & Hr & Hp); [|lia|lia].
  eexists. split; [reflexivity|]. split; cbn [cp_mem src_ptr src_count dst_ptr dst_count].
  - intros k. rewrite put_bits_spec by lia. rewrite Id, Idl, Im. rewrite Z.max_r by lia.
    destruct (Z_lt_ge_dec k (d + t)).
    { replace (d + t <=? k) with false by lia. cbn [andb].
      by replace (k <? d + Z.min (t + 8) dlen) with (k <? d + Z.min t dlen) by lia. }
    replace (d + t <=? k) with true by lia. replace (d <=? k) with true by lia.
    replace (k <? d + Z.min t dlen) with false by lia. cbn [andb].
    replace (k <? d + t + Z.min 8 (dlen - t)) with (k <? d + Z.min (t + 8) dlen) by lia.
    case_if; [|done]. rewrite Hb, Isl by lia. replace (k - (d + t) <? Z.max 0 (slen - t)) with (k - d <? slen) by lia.
    destruct (k - d <? slen) eqn:El; [|done]. bool_to_prop. cbn [andb]. rewrite Is, Im by lia.
    replace ((d <=? s + t + (k - (d + t))) && (s + t + (k - (d + t)) <? d + Z.min t dlen)) with false by lia. f_equal. lia.
  - lia.
  - case_if; lia.
  - lia.
  - intros H. rewrite Hr, Isl in H. rewrite Hp by lia. specialize (Is ltac:(lia)). lia.
Qed.

Lemma copy_loop m d dlen s slen dshift sshift fuel t c :
  0 <= dshift < 8 -> 0 <= sshift < 8 -> 0 <= slen -> 0 <= t -> 0 <= dlen ->
  d + dlen <= s \/ s + slen <= d ->
  copy_inv m d dlen s slen dshift sshift t c -> (1 <= fuel)%nat -> dlen - t + 8 <= 8 * Z.of_nat fuel ->
  exists m', wloop fuel (bit_copy_round sshift dshift) c = Some m' /\ bits_copied m m' d dlen s slen.
Proof.
  intros Hd Hs Hl Ht Hdl Hov. revert t c Ht. induction fuel as [|fuel IH]; intros t c Ht Hi Hn Hf; [lia|].
  cbn [wloop]. destruct (Z_lt_ge_dec t dlen).
  - destruct (copy_round_inv m d dlen s slen dshift sshift t c) as (c' & -> & Hi'); [lia..|done|done|].
    apply (IH (t + 8)); [lia|done|lia|lia].
  - destruct Hi as [Im Id Idl Isl Is]. unfold bit_copy_round. replace (dst_count c) with 0 by lia. cbn.
    eexists. split; [reflexivity|]. by rewrite Z.min_r in Im by lia.
Qed.

Lemma low3 x : x &&& 7 = x mod 8.
Proof. apply (land_mod x 3). lia. Qed.

(** [bit_copy] always ends, and copies exactly the bits of the spans. *)
Lemma bit_copy_spec m dst src :
  0 <= sp_index dst -> 0 <= sp_index src -> 0 <= sp_length dst -> 0 <= sp_length src ->
  bit_at dst + sp_length dst <= bit_at src \/ bit_at src + sp_length src <= bit_at dst ->
  exists m', bit_copy m dst src = Some m' /\ bits_copied m m' (bit_at dst) (sp_length dst) (bit_at src) (sp_length src).
Proof.
  intros. unfold bit_copy. rewrite !low3.
  apply (copy_loop _ _ _ _ _ _ _ _ 0); try (apply Z.mod_pos_bound; lia); try lia; try done.
  - unfold bit_at. split; cbn [cp_mem src_ptr src_count dst_ptr dst_count]; [|Z.div_mod_to_equations; lia|lia|lia|Z.div_mod_to_equations; lia].
    intros k. by replace (_ && _) with false by lia.
  - pose proof (Z.div_mod (sp_length dst) 8 ltac:(lia)). pose proof (Z.mod_pos_bound (sp_length dst) 8 ltac:(lia)).
    assert (0 <= sp_length dst / 8) by (apply Z.div_pos; lia). lia.
Qed.

(** ** Bits and numbers *)

(** Equality of comparisons, through the propositions ([lia] does not use that a natural number
    under [<?] is not negative). *)
Ltac cmp_lia := apply Bool.eq_true_iff_eq; rewrite ?Z.ltb_lt, ?Z.leb_le; split; intros; first [done | lia].

Lemma bits_value_bit n m k i : 0 <= i -> Z.testbit (bits_value n m k) i = (i <? Z.of_nat n) && mbit m (k + i).
Proof.
  revert k i. induction n as [|n IH]; intros k i Hi; cbn [bits_value].
  - rewrite Z.bits_0. destruct (Z.ltb_spec i (Z.of_nat 0)); [lia|done].
  - rewrite Z.add_comm. destruct (Z.eq_dec i 0) as [->|Hz].
    + rewrite Z.testbit_0_r, Z.add_0_r. by replace (0 <? Z.of_nat (S n)) with true by cmp_lia.
    + replace i with (Z.succ (i - 1)) by lia. rewrite Z.testbit_succ_r, IH by lia.
      replace (i - 1 <? Z.of_nat n) with (Z.succ (i - 1) <? Z.of_nat (S n)) by cmp_lia. do 2 f_equal. lia.
Qed.

Lemma bits_value_range n m k : 0 <= bits_value n m k < 2 ^ Z.of_nat n.
Proof.
  revert k. induction n as [|n IH]; intros k; cbn [bits_value]; [done|]. specialize (IH (k + 1)).
  rewrite Nat2Z.inj_succ, Z.pow_succ_r by lia. destruct (mbit m k); cbn [Z.b2z]; lia.
Qed.

Lemma ldn_bit n m a i : 0 <= i -> Z.testbit (ldn n m a) i = (i <? 8 * Z.of_nat n) && mbit m (8 * a + i).
Proof.
  revert a i. induction n as [|n IH]; intros a i Hi.
  - change (ldn 0 m a) with 0. rewrite Z.bits_0. destruct (Z.ltb_spec i (8 * Z.of_nat 0)); [lia|done].
  - change (ldn (S n) m a) with (u8 (m a) + 256 * ldn n m (a + 1)).
    replace (u8 (m a) + 256 * ldn n m (a + 1)) with (u8 (m a) ||| (ldn n m (a + 1) <<< 8))
      by (rewrite lor_add_shift by (try apply u8_range; lia); lia).
    rewrite Z.lor_spec, Z.shiftl_spec by lia. destruct (Z_lt_ge_dec i 8).
    + rewrite (Z.testbit_neg_r _ (i - 8)), orb_false_r, mbit_at by lia. by replace (i <? 8 * Z.of_nat (S n)) with true by cmp_lia.
    + unfold u8. change 256 with (2 ^ 8). rewrite Z.mod_pow2_bits_high, IH by lia. cbn [orb].
      replace (i - 8 <? 8 * Z.of_nat n) with (i <? 8 * Z.of_nat (S n)) by cmp_lia. do 2 f_equal. lia.
Qed.

(** A number is its bits: what a copy leaves at a place is the number it found, cut or
    filled up with zeroes. *)
Lemma copied_value m m' d dlen s slen n :
  bits_copied m m' d dlen s slen -> 0 <= slen -> Z.of_nat n <= dlen ->
  bits_value n m' d = bits_value (Z.to_nat slen) m s mod 2 ^ Z.of_nat n.
Proof.
  intros H Hs Hn. apply Z.bits_inj'. intros i Hi. rewrite bits_value_bit by lia.
  destruct (i <? Z.of_nat n) eqn:E; bool_to_prop.
  - rewrite Z.mod_pow2_bits_low, bits_value_bit by lia. rewrite H. cbn [andb].
    replace ((d <=? d + i) && (d + i <? d + dlen)) with true by lia. rewrite Z2Nat.id by lia.
    by replace (d + i - d) with i by lia.
  - by rewrite Z.mod_pow2_bits_high by lia.
Qed.

Lemma ldn_bits n m a : ldn n m a = bits_value (8 * n) m (8 * a).
Proof.
  apply Z.bits_inj'. intros i Hi. rewrite ldn_bit, bits_value_bit by lia. f_equal. cmp_lia.
Qed.

(** ** Buffer fields *)

Lemma round_up_bits n : 0 <= n < 2 ^ 64 - 8 -> uacpi_round_up_bits_to_bytes n = (n + 7) / 8.
Proof.
  intros Hn. unfold uacpi_round_up_bits_to_bytes. rewrite u64_small by lia. change 7 with (2 ^ 3 - 1) at 2.
  rewrite align_down by lia. change (2 ^ 3) with 8. apply Z.div_mul. lia.
Qed.

Lemma mbit_ext8 m m' k : m' (k / 8) = m (k / 8) -> mbit m' k = mbit m k.
Proof. unfold mbit, ld8. by intros ->. Qed.

Lemma mbit_memcpy m dst src n k : 0 <= n -> dst <= src \/ src + n <= dst ->
  mbit (memcpy m dst src n) k = if (8 * dst <=? k) && (k <? 8 * (dst + n)) then mbit m (8 * src + (k - 8 * dst)) else mbit m k.
Proof.
  intros Hn Hov. pose proof (Z.div_mod k 8 ltac:(lia)). pose proof (Z.mod_pos_bound k 8 ltac:(lia)).
  destruct (_ && _) eqn:E; bool_to_prop.
  - replace (8 * src + (k - 8 * dst)) with (8 * (src + (k / 8 - dst)) + k mod 8) by lia. rewrite mbit_at by lia.
    unfold mbit, ld8. rewrite memcpy_copied by done. unfold copied. replace (_ && _) with true by lia. by rewrite u8_ld8.
  - apply mbit_ext8. rewrite memcpy_copied by done. unfold copied. by replace ((dst <=? k / 8) && (k / 8 <? dst + n)) with false by lia.
Qed.

Lemma mbit_memset0 m dst n k : 0 <= n ->
  mbit (memset m dst 0 n) k = if (8 * dst <=? k) && (k <? 8 * (dst + n)) then false else mbit m k.
Proof.
  intros Hn. pose proof (Z.div_mod k 8 ltac:(lia)). pose proof (Z.mod_pos_bound k 8 ltac:(lia)).
  unfold mbit, ld8. rewrite memset_at by done.
  replace ((8 * dst <=? k) && (k <? 8 * (dst + n))) with ((dst <=? k / 8) && (k / 8 <? dst + n)) by lia. case_if; [apply Z.bits_0|done].
Qed.

Lemma mbit_cut m dat off len k : 0 <= len ->
  mbit (cut_misaligned_tail m dat off len) k =
    if (k / 8 =? dat + off) && (0 <? len mod 8) && (len mod 8 <=? k mod 8) then false else mbit m k.
Proof.
  intros Hl. unfold cut_misaligned_tail. rewrite low3. pose proof (Z.mod_pos_bound len 8 ltac:(lia)). pose proof (Z.mod_pos_bound k 8 ltac:(lia)).
  destruct (len mod 8 =? 0) eqn:E; bool_to_prop.
  - replace (0 <? len mod 8) with false by lia. by rewrite andb_false_r.
  - rewrite mbit_st8. destruct (k / 8 =? dat + off) eqn:Ek; bool_to_prop; [|done].
    replace (0 <? len mod 8) with true by lia. cbn [andb]. rewrite Z.land_spec, testbit_low_mask by lia.
    unfold mbit. rewrite Ek. destruct (Z_lt_ge_dec (k mod 8) (len mod 8)).
    + replace (k mod 8 <? len mod 8) with true by lia. replace (len mod 8 <=? k mod 8) with false by lia. apply andb_true_r.
    + replace (k mod 8 <? len mod 8) with false by lia. replace (len mod 8 <=? k mod 8) with true by lia. apply andb_false_r.
Qed.

(** The bits a field covers, and the bytes it needs. *)
Definition field_at (f : uacpi_buffer_field) : Z := 8 * backing f + bit_index f.
Definition field_bytes (f : uacpi_buffer_field) : Z := (bit_length f + 7) / 8.
Definition field_ok (f : uacpi_buffer_field) : Prop := 0 <= bit_index f /\ 0 < bit_length f < 2 ^ 32.

(** The path for fields on a byte boundary reads what [bit_copy] would. *)
Lemma read_buffer_field_spec m f dst : field_ok f ->
  8 * (dst + field_bytes f) <= field_at f \/ field_at f + bit_length f <= 8 * dst ->
  exists m', uacpi_read_buffer_field m f dst = Some m' /\
    bits_copied m m' (8 * dst) (8 * field_bytes f) (field_at f) (bit_length f).
Proof.
  unfold field_at, field_bytes. intros [Hi Hl] Hov. unfold uacpi_read_buffer_field, do_misaligned_buffer_read. rewrite low3, round_up_bits by lia.
  set (count := (bit_length f + 7) / 8) in *.
  assert (Hc : 8 * count - 8 < bit_length f <= 8 * count) by (subst count; Z.div_mod_to_equations; lia).
  destruct (truthy (bit_index f mod 8)) eqn:E; bool_to_prop; cbn [negb].
  - rewrite u64_small by lia. destruct (bit_copy_spec m (BitSpan dst 0 (count * 8)) (BitSpan (backing f) (bit_index f) (bit_length f)))
      as (m' & -> & Hm); unfold bit_at in *; cbn [sp_index sp_length sp_data] in *; [lia..|].
    exists m'. split; [done|]. by rewrite Z.add_0_r, (Z.mul_comm count) in Hm.
  - eexists. split; [reflexivity|]. intros k. pose proof (Z.div_mod (bit_index f) 8 ltac:(lia)).
    pose proof (Z.div_mod (bit_length f) 8 ltac:(lia)). pose proof (Z.mod_pos_bound (bit_length f) 8 ltac:(lia)).
    pose proof (Z.div_mod k 8 ltac:(lia)). pose proof (Z.mod_pos_bound k 8 ltac:(lia)).
    rewrite mbit_cut, mbit_memcpy by lia. replace (8 * (dst + count)) with (8 * dst + 8 * count) by lia.
    replace (8 * (backing f + bit_index f / 8) + (k - 8 * dst)) with (8 * backing f + bit_index f + (k - 8 * dst)) by lia.
    clearbody count. destruct ((8 * dst <=? k) && (k <? 8 * dst + 8 * count)) eqn:Er; bool_to_prop.
    + destruct (k - 8 * dst <? bit_length f) eqn:El; bool_to_prop.
      * by replace ((k / 8 =? dst + (count - 1)) && (0 <? bit_length f mod 8) && (bit_length f mod 8 <=? k mod 8)) with false by lia.
      * replace ((k / 8 =? dst + (count - 1)) && (0 <? bit_length f mod 8) && (bit_length f mod 8 <=? k mod 8)) with true by lia. done.
    + by replace ((k / 8 =? dst + (count - 1)) && (0 <? bit_length f mod 8) && (bit_length f mod 8 <=? k mod 8)) with false by lia.
Qed.

Lemma mbit_zerout m dst src dsize ssize k : 0 <= dsize -> 0 <= ssize ->
  dst + dsize <= src \/ src + ssize <= dst ->
  mbit (uacpi_memcpy_zerout m dst src dsize ssize) k =
    if (8 * dst <=? k) && (k <? 8 * (dst + dsize)) then (k - 8 * dst <? 8 * ssize) && mbit m (8 * src + (k - 8 * dst)) else mbit m k.
Proof.
  intros Hd Hs Hov. unfold uacpi_memcpy_zerout. set (n := Z.min ssize dsize). assert (0 <= n <= dsize) by (subst n; lia).
  assert (Hc : mbit (if truthy n then memcpy m dst src n else m) k =
     if (8 * dst <=? k) && (k <? 8 * (dst + n)) then mbit m (8 * src + (k - 8 * dst)) else mbit m k).
  { destruct (truthy n) eqn:E; bool_to_prop; [apply mbit_memcpy; lia|]. by replace (_ && _) with false by lia. }
  case_if.
  - rewrite mbit_memset0, Hc by lia. replace (dst + n + (dsize - n)) with (dst + dsize) by lia.
    destruct (8 * dst <=? k) eqn:E1; bool_to_prop.
    + destruct (Z_lt_ge_dec k (8 * (dst + n))).
      * replace (8 * (dst + n) <=? k) with false by lia. replace (k <? 8 * (dst + dsize)) with true by lia.
        replace (k <? 8 * (dst + n)) with true by lia. by replace (k - 8 * dst <? 8 * ssize) with true by lia.
      * replace (8 * (dst + n) <=? k) with true by lia. replace (k <? 8 * (dst + n)) with false by lia. cbn [andb].
        case_if; [|done]. by replace (k - 8 * dst <? 8 * ssize) with false by lia.
    + by replace (8 * (dst + n) <=? k) with false by lia.
  - rewrite Hc. replace (dst + n) with (dst + dsize) by lia.
    destruct ((8 * dst <=? k) && (k <? 8 * (dst + dsize))) eqn:E1; bool_to_prop; [|done].
    by replace (k - 8 * dst <? 8 * ssize) with true by lia.
Qed.

(** The last byte of a field that ends within it: the low bits are new, the high bits kept. *)
Lemma mbit_tail m last old ts k : 0 < ts < 8 -> 0 <= old ->
  let m1 := st8 m last (ld8 m last <<< (8 - ts)) in
  let m2 := st8 m1 last (ld8 m1 last >>> (8 - ts)) in
  mbit (st8 m2 last (ld8 m2 last ||| ((old >>> ts) <<< ts))) k =
    if (k / 8 =? last) then (if k mod 8 <? ts then mbit m k else Z.testbit old (k mod 8)) else mbit m k.
Proof.
  intros Hts Ho m1 m2. subst m2 m1. pose proof (Z.mod_pos_bound k 8 ltac:(lia)) as Hr. rewrite mbit_st8. case_if.
  - unfold ld8 at 1. rewrite st8_same, u8_idem. unfold ld8 at 1. rewrite st8_same, u8_idem.
    rewrite Z.lor_spec, testbit_u8, Z.shiftr_spec, Z.shiftl_spec by lia. destruct (k mod 8 <? ts) eqn:El; bool_to_prop.
    + rewrite testbit_u8, Z.shiftl_spec, (Z.testbit_neg_r _ (k mod 8 - ts)), orb_false_r by lia. unfold mbit. rewrite E. f_equal. lia.
    + unfold u8. change 256 with (2 ^ 8). rewrite Z.mod_pow2_bits_high, Z.shiftr_spec by lia. cbn [orb]. f_equal. lia.
  - rewrite !mbit_st8. replace (k / 8 =? last) with false by lia. done.
Qed.

Lemma write_buffer_field_spec m f src size : field_ok f -> 0 <= size < 2 ^ 61 ->
  field_at f + bit_length f <= 8 * src \/ 8 * (src + size) <= field_at f ->
  exists m', uacpi_write_buffer_field m f src size = Some m' /\
    bits_copied m m' (field_at f) (bit_length f) (8 * src) (8 * size).
Proof.
  unfold field_at. intros [Hi Hl] Hsz Hov. unfold uacpi_write_buffer_field, do_write_misaligned_buffer_field. rewrite !low3, round_up_bits by lia.
  destruct (truthy (bit_index f mod 8)) eqn:E; bool_to_prop; cbn [negb].
  - rewrite u64_small by lia. destruct (bit_copy_spec m (BitSpan (backing f) (bit_index f) (bit_length f)) (BitSpan src 0 (size * 8)))
      as (m' & -> & Hm); unfold bit_at in *; cbn [sp_index sp_length sp_data] in *; [lia..|].
    exists m'. split; [done|]. by rewrite Z.add_0_r, (Z.mul_comm size) in Hm.
  - pose proof (Z.div_mod (bit_index f) 8 ltac:(lia)). set (dst := backing f + bit_index f / 8).
    pose proof (Z.div_mod (bit_length f) 8 ltac:(lia)). pose proof (Z.mod_pos_bound (bit_length f) 8 ltac:(lia)).
    set (count := (bit_length f + 7) / 8). set (ts := bit_length f mod 8) in *.
    assert (Hc : 8 * count - 8 < bit_length f <= 8 * count) by (subst count; Z.div_mod_to_equations; lia).
    assert (Hat : 8 * backing f + bit_index f = 8 * dst) by (subst dst; lia). rewrite Hat in *.
    assert (Hz : forall k, mbit (uacpi_memcpy_zerout m dst src count size) k =
       if (8 * dst <=? k) && (k <? 8 * dst + 8 * count) then (k - 8 * dst <? 8 * size) && mbit m (8 * src + (k - 8 * dst)) else mbit m k).
    { intros k. rewrite mbit_zerout by lia. by replace (8 * (dst + count)) with (8 * dst + 8 * count) by lia. }
    destruct (truthy ts) eqn:Et; bool_to_prop; (eexists; split; [reflexivity|]); intros k.
    + rewrite mbit_tail by (try apply ld8_range; lia). rewrite Hz.
      pose proof (Z.div_mod k 8 ltac:(lia)). pose proof (Z.mod_pos_bound k 8 ltac:(lia)). clearbody count ts dst.
      destruct (k / 8 =? dst + (count - 1)) eqn:Ek; bool_to_prop.
      * replace ((8 * dst <=? k) && (k <? 8 * dst + 8 * count)) with true by lia.
        replace ((8 * dst <=? k) && (k <? 8 * dst + bit_length f)) with (k mod 8 <? ts) by lia. case_if; [done|].
        unfold mbit. by rewrite Ek.
      * by replace ((8 * dst <=? k) && (k <? 8 * dst + 8 * count)) with ((8 * dst <=? k) && (k <? 8 * dst + bit_length f)) by lia.
    + rewrite Hz. by replace (8 * count) with (bit_length f) by lia.
Qed.

Lemma copied_frame m m' d dlen s slen k : bits_copied m m' d dlen s slen -> k < d \/ d + dlen <= k -> mbit m' k = mbit m k.
Proof. intros H Hk. rewrite H. by replace (_ && _) with false by lia. Qed.

(** C38: a buffer field keeps what is written to it, at any bit offset and of any length: writing
    [size] bytes and reading the field back gives the number of those bytes cut to the length
    of the field and filled up with zeroes; the write changes no bit outside the field (its
    neighbours in the first and last byte included), and the read no byte outside its
    destination.  The source and the destination lie apart from the field.  Both functions
    return: the copying loop ends. *)
Theorem buffer_field_write_then_read m f src size dst :
  field_ok f -> 0 <= size < 2 ^ 61 ->
  field_at f + bit_length f <= 8 * src \/ 8 * (src + size) <= field_at f ->
  8 * (dst + field_bytes f) <= field_at f \/ field_at f + bit_length f <= 8 * dst ->
  exists m1 m2, uacpi_write_buffer_field m f src size = Some m1 /\ uacpi_read_buffer_field m1 f dst = Some m2 /\
    ldn (Z.to_nat (field_bytes f)) m2 dst = ldn (Z.to_nat size) m src mod 2 ^ bit_length f /\
    (forall k, k < field_at f \/ field_at f + bit_length f <= k -> mbit m1 k = mbit m k) /\
    (forall x, x < dst \/ dst + field_bytes f <= x -> ld8 m2 x = ld8 m1 x).
Proof.
  intros Hf Hs Ho1 Ho2. destruct (write_buffer_field_spec m f src size Hf Hs Ho1) as (m1 & Hw & H1).
  destruct (read_buffer_field_spec m1 f dst Hf Ho2) as (m2 & Hr & H2). exists m1, m2.
  assert (Hc : 0 <= bit_length f <= 8 * field_bytes f /\ 0 <= field_bytes f) by (destruct Hf; unfold field_bytes; Z.div_mod_to_equations; lia).
  split_and_all; [done|done| | |].
  - rewrite !ldn_bits, (copied_value _ _ _ _ _ _ _ H2) by lia.
    pose proof (copied_value _ _ _ _ _ _ (Z.to_nat (bit_length f)) H1) as H. rewrite Z2Nat.id in H by lia.
    rewrite H by lia. replace (Z.to_nat (8 * size)) with (8 * Z.to_nat size)%nat by lia. apply Z.mod_small.
    pose proof (Z.mod_pos_bound (bits_value (8 * Z.to_nat size) m (8 * src)) (2 ^ bit_length f) ltac:(lia)).
    assert (2 ^ bit_length f <= 2 ^ Z.of_nat (8 * Z.to_nat (field_bytes f))) by (apply Z.pow_le_mono_r; lia). lia.
  - intros k. apply (copied_frame _ _ _ _ _ _ _ H1).
  - intros x Hx. apply ld8_ext. intros i Hi. apply (copied_frame _ _ _ _ _ _ _ H2). lia.
Qed.

Lemma buffer_field_write_then_read_witness :
  let f := BufferField 100 13 20 in
  exists m1 m2, uacpi_write_buffer_field (fun x => if x =? 200 then 255 else 170) f 200 2 = Some m1 /\
    uacpi_read_buffer_field m1 f 300 = Some m2 /\ ldn 3 m2 300 = 43775 /\ mbit m1 113 = mbit (fun _ => 170) 113.
Proof.
  cbv zeta. destruct (buffer_field_write_then_read (fun x => if x =? 200 then 255 else 170) (BufferField 100 13 20) 200 2 300)
    as (m1 & m2 & H1 & H2 & H3 & H4 & _); [vm_compute; repeat split; try discriminate; reflexivity|lia|vm_compute; left; discriminate|vm_compute; right; discriminate|].
  exists m1, m2. split; [exact H1|]. split; [exact H2|]. split; [exact H3|].
  rewrite H4; [reflexivity|]. vm_compute. left. reflexivity.
Defined.
