(* ===== verification/AcpiField.v ===== *)
(** * Field units of uACPI, [src/src/uacpi/io.c]

    A field unit names bits of an operation region (registers of a device, memory) that can only
    be reached in accesses of a fixed width.  Reading collects the bits of several accesses,
    writing splits a value over them and keeps, sets or clears the bits around it as the update
    rule says.  An index field reaches its bits through a pair of other fields, a bank field
    selects a bank first; the fields a field refers to were declared before it, so fields are
    trees.  [FieldHost] is what this code needs from the rest of uACPI: the regions
    ([AcpiRegion.v] implements them), the global lock and the heap. *)

From S2P Require Import Prelude Mem CString KernelApi AcpiBits.

(** ** Data *)

Inductive uacpi_region_op := REGION_OP_READ | REGION_OP_WRITE.

(** [union uacpi_opregion_io_data]: a pointer to a 64 bit integer, or a buffer. *)
Inductive io_data := IoInteger (ptr : Z) | IoBuffer (ptr len : Z).

(** The members of [uacpi_field_unit] all kinds of fields have. *)
Record field_info := FieldInfo {
  byte_offset : Z; fu_bit_length : Z; pin_offset : Z; bit_offset_within_first_byte : Z;
  access_width_bytes : Z; access_length : Z; attributes : Z; update_rule : Z; lock_rule : bool }.

Section Kinds.
Context {R : Type}.

(** [uacpi_field_unit]: [R] are the namespace nodes of operation regions. *)
Inductive uacpi_field_unit :=
  | Field (info : field_info) (kind : field_kind)
with field_kind :=
  | KIND_NORMAL (region : R)
  | KIND_INDEX (index data : uacpi_field_unit)
  | KIND_BANK (bank_region : R) (bank_selection : uacpi_field_unit) (bank_value : Z)
  | KIND_INVALID (region : R).

Definition info_of (f : uacpi_field_unit) : field_info := match f with Field g _ => g end.

(** The region node of a field; an index field has none. *)
Definition region_of (f : uacpi_field_unit) : option R :=
  match f with
  | Field _ (KIND_NORMAL r) | Field _ (KIND_BANK r _ _) | Field _ (KIND_INVALID r) => Some r
  | Field _ (KIND_INDEX _ _) => None
  end.
End Kinds.
Arguments uacpi_field_unit : clear implicits.
Arguments field_kind : clear implicits.

Definition UACPI_UPDATE_RULE_PRESERVE : Z := 0.
Definition UACPI_UPDATE_RULE_WRITE_AS_ONES : Z := 1.
Definition UACPI_UPDATE_RULE_WRITE_AS_ZEROES : Z := 2.

Definition UACPI_ADDRESS_SPACE_SYSTEM_MEMORY : Z := 0.
Definition UACPI_ADDRESS_SPACE_SYSTEM_IO : Z := 1.
Definition UACPI_ADDRESS_SPACE_PCI_CONFIG : Z := 2.
Definition UACPI_ADDRESS_SPACE_SMBUS : Z := 4.
Definition UACPI_ADDRESS_SPACE_IPMI : Z := 7.
Definition UACPI_ADDRESS_SPACE_GENERAL_PURPOSE_IO : Z := 8.
Definition UACPI_ADDRESS_SPACE_GENERIC_SERIAL_BUS : Z := 9.
Definition UACPI_ADDRESS_SPACE_PCC : Z := 10.
Definition UACPI_ADDRESS_SPACE_PRM : Z := 11.
Definition UACPI_ADDRESS_SPACE_FFIXEDHW : Z := 127.

Definition UACPI_STATUS_AML_INCOMPATIBLE_OBJECT_TYPE : Z := 251592708.
Definition UACPI_STATUS_AML_OUT_OF_BOUNDS_INDEX : Z := 251592710.

(** What the field code calls: the type of the object at a region's node ([None] when it was
    deleted), input and output of a region, the mutex of the global lock, the heap.  A computation
    answers [None] where the code would not return. *)
Class FieldHost (R W : Type) := {
  region_space : W -> R -> option Z;
  opregion_io : R -> field_info -> Z -> uacpi_region_op -> io_data -> mem -> W -> option (Z * mem * W);
  acquire_lock : W -> Z * W;
  release_lock : W -> W;
  buffer_alloc : W -> Z -> option (W * Z);
  buffer_free : W -> Z -> option W }.

Section Fields.
Context {R W : Type} `{FH : FieldHost R W}.

(** ** Accesses *)

Definition SERIAL_HEADER_SIZE : Z := 2.
Definition IPMI_DATA_SIZE : Z := 64.

Definition wtr_buffer_size (field : field_info) (space : Z) : Z + Z :=
  if space =? UACPI_ADDRESS_SPACE_IPMI then inr (SERIAL_HEADER_SIZE + IPMI_DATA_SIZE)
  else if space =? UACPI_ADDRESS_SPACE_PRM then inr 26
  else if space =? UACPI_ADDRESS_SPACE_FFIXEDHW then inr 256
  else if (space =? UACPI_ADDRESS_SPACE_GENERIC_SERIAL_BUS) || (space =? UACPI_ADDRESS_SPACE_SMBUS) then
    let a := attributes field in
    if a =? 2 then inr SERIAL_HEADER_SIZE
    else if (a =? 4) || (a =? 6) then inr (SERIAL_HEADER_SIZE + 1)
    else if (a =? 8) || (a =? 12) then inr (SERIAL_HEADER_SIZE + 2)
    else if a =? 11 then inr (SERIAL_HEADER_SIZE + access_length field)
    else if (a =? 10) || (a =? 13) || (a =? 14) || (a =? 15) then inr (SERIAL_HEADER_SIZE + 255)
    else inl UACPI_STATUS_UNIMPLEMENTED
  else inl UACPI_STATUS_INVALID_ARGUMENT.

(** An access to a field: stack pointer, offset, direction and data. *)
Definition access : Type := Z -> Z -> uacpi_region_op -> io_data -> mem -> W -> option (Z * mem * W).

(** The answer of [handle_special_field]: status, whether the field was handled, the response. *)
Definition special : Type := Z * bool * option (Z * Z) * mem * W.

(** [handle_special_field]; [acc] is [access_field_unit] of this field.  Locals of the
    functions live below the stack pointer [sp]. *)
Definition handle_special_field (acc : access) (field : field_info) (region : option R) (sp : Z)
    (buf buf_length : Z) (op : uacpi_region_op) (m : mem) (w : W) : option special :=
  match region with
  | None => Some (UACPI_STATUS_OK, false, None, m, w)
  | Some r =>
    match region_space w r with
    | None => Some (UACPI_STATUS_INVALID_ARGUMENT, true, None, m, w)
    | Some space =>
      let do_wtr :=
        match wtr_buffer_size field space with
        | inl ret => Some (ret, true, None, m, w)
        | inr len =>
          '(w, p) ← buffer_alloc w len;
          if p =? 0 then Some (UACPI_STATUS_OUT_OF_MEMORY, true, None, m, w)
          else
            let m := uacpi_memcpy_zerout m p buf len buf_length in
            '(ret, m, w) ← acc sp (byte_offset field) op (IoBuffer p len) m w;
            if truthy ret then w ← buffer_free w p; Some (ret, true, None, m, w)
            else Some (ret, true, Some (p, len), m, w)
        end in
      if space =? UACPI_ADDRESS_SPACE_GENERAL_PURPOSE_IO then
        let in_out := sp - 8 in
        let m := match op with REGION_OP_WRITE => uacpi_memcpy_zerout m in_out buf 8 buf_length | REGION_OP_READ => m end in
        '(ret, m, w) ← acc in_out 0 op (IoInteger in_out) m w;
        if truthy ret then Some (ret, true, None, m, w)
        else
          let m := match op with REGION_OP_READ => uacpi_memcpy_zerout m buf in_out buf_length 8 | REGION_OP_WRITE => m end in
          Some (ret, true, None, m, w)
      else if (space =? UACPI_ADDRESS_SPACE_IPMI) || (space =? UACPI_ADDRESS_SPACE_PRM) then
        match op with
        | REGION_OP_READ => Some (UACPI_STATUS_AML_INCOMPATIBLE_OBJECT_TYPE, true, None, m, w)
        | REGION_OP_WRITE => do_wtr
        end
      else if (space =? UACPI_ADDRESS_SPACE_FFIXEDHW) || (space =? UACPI_ADDRESS_SPACE_GENERIC_SERIAL_BUS) ||
              (space =? UACPI_ADDRESS_SPACE_SMBUS) then do_wtr
      else Some (UACPI_STATUS_OK, false, None, m, w)
    end
  end.

(** ** Reading *)

(** The loop of [do_read_misaligned_field_unit]; [out] is at [sp - 8]. *)
Fixpoint read_loop (reads_to_do : nat) (acc : access) (field : field_info) (sp src_index bits_left byte_offset : Z)
    (dst_span : bit_span) (m : mem) (w : W) : option (Z * mem * W) :=
  match reads_to_do with
  | O => Some (UACPI_STATUS_OK, m, w)
  | S n =>
    let out := sp - 8 in
    let src_span := BitSpan out src_index (Z.min bits_left (u64 (u8 (access_width_bytes field * 8) - src_index))) in
    '(ret, m, w) ← acc out byte_offset REGION_OP_READ (IoInteger out) m w;
    if truthy ret then Some (ret, m, w)
    else
      m ← bit_copy m dst_span src_span;
      read_loop n acc field sp 0 (u32 (bits_left - sp_length src_span)) (u32 (byte_offset + access_width_bytes field))
        (bit_span_offset dst_span (sp_length src_span)).1 m w
  end.

Definition do_read_misaligned_field_unit (acc : access) (field : field_info) (sp dst size : Z) (m : mem) (w : W) : option (Z * mem * W) :=
  let width_access_bits := u8 (access_width_bytes field * 8) in
  let mask := u32 (width_access_bits - 1) in
  let total := u32 (u32 (bit_offset_within_first_byte field + fu_bit_length field) + mask) &&& u32 (Z.lnot mask) in
  let reads_to_do := total / width_access_bits in
  read_loop (Z.to_nat reads_to_do) acc field sp (bit_offset_within_first_byte field) (fu_bit_length field) (byte_offset field)
    (BitSpan dst 0 (u64 (size * 8))) m w.

(** [uacpi_read_field_unit]; the second result is what [wtr_response] receives. *)
Definition read_field_with (acc : access) (field : field_info) (region : option R) (sp dst size : Z) (m : mem) (w : W)
    : option (Z * option (Z * Z) * mem * W) :=
  '(ret, did_handle, wtr_response, m, w) ← handle_special_field acc field region sp dst size REGION_OP_READ m w;
  if (did_handle : bool) then Some (ret, wtr_response, m, w)
  else
    let field_byte_length := u32 (uacpi_round_up_bits_to_bytes (fu_bit_length field)) in
    if (bit_offset_within_first_byte field =? 0) && (field_byte_length <=? access_width_bytes field) then
      let out := sp - 8 in
      '(ret, m, w) ← acc out (byte_offset field) REGION_OP_READ (IoInteger out) m w;
      if truthy ret then Some (ret, None, m, w)
      else
        let m := uacpi_memcpy_zerout m dst out size field_byte_length in
        let m := if field_byte_length <=? size then cut_misaligned_tail m dst (field_byte_length - 1) (fu_bit_length field) else m in
        Some (UACPI_STATUS_OK, None, m, w)
    else
      '(ret, m, w) ← do_read_misaligned_field_unit acc field sp dst size m w;
      Some (ret, None, m, w).

(** ** Writing *)

(** The word a round starts from: 0, or for a word that is written only in part what the
    update rule says; [inl] is an early return.  [in] is at [sp - 8]. *)
Definition initial_word (acc : access) (field : field_info) (sp byte_offset : Z) (dst_span : bit_span) (m : mem) (w : W)
    : option ((Z * mem * W) + (mem * W)) :=
  let m := st64 m (sp - 8) 0 in
  if truthy (sp_index dst_span) || (sp_length dst_span <? u8 (access_width_bytes field * 8)) then
    if update_rule field =? UACPI_UPDATE_RULE_PRESERVE then
      '(ret, m, w) ← acc (sp - 8) byte_offset REGION_OP_READ (IoInteger (sp - 8)) m w;
      if truthy ret then Some (inl (ret, m, w)) else Some (inr (m, w))
    else if update_rule field =? UACPI_UPDATE_RULE_WRITE_AS_ONES then
      Some (inr (st64 m (sp - 8) (u64 (Z.lnot (ld64 m (sp - 8)))), w))
    else if update_rule field =? UACPI_UPDATE_RULE_WRITE_AS_ZEROES then Some (inr (m, w))
    else Some (inl (UACPI_STATUS_INVALID_ARGUMENT, m, w))
  else Some (inr (m, w)).

(** The variables of the loop of [write_generic_field_unit]. *)
Record writing := Writing { wr_bits_left : Z; wr_byte_offset : Z; wr_index : Z; wr_src : bit_span; wr_mem : mem; wr_world : W }.

(** One round; [inl] leaves the function. *)
Definition write_round (acc : access) (field : field_info) (sp : Z) (s : writing) : option (Z * mem * W) + writing :=
  if truthy (wr_bits_left s) then
    let dst_span := BitSpan (sp - 8) (wr_index s) (Z.min (u64 (u8 (access_width_bytes field * 8) - wr_index s)) (wr_bits_left s)) in
    match initial_word acc field sp (wr_byte_offset s) dst_span (wr_mem s) (wr_world s) with
    | None => inl None
    | Some (inl r) => inl (Some r)
    | Some (inr (m, w)) =>
      match bit_copy m dst_span (wr_src s) with
      | None => inl None
      | Some m =>
        let src := (bit_span_offset (wr_src s) (sp_length dst_span)).1 in
        match acc (sp - 8) (wr_byte_offset s) REGION_OP_WRITE (IoInteger (sp - 8)) m w with
        | None => inl None
        | Some (ret, m, w) =>
          if truthy ret then inl (Some (ret, m, w))
          else inr (Writing (u32 (wr_bits_left s - sp_length dst_span)) (u32 (wr_byte_offset s + access_width_bytes field)) 0 src m w)
        end
      end
    end
  else inl (Some (UACPI_STATUS_OK, wr_mem s, wr_world s)).

(** Every round but the first and the last writes at least eight bits. *)
Definition write_generic_field_unit (acc : access) (field : field_info) (sp src size : Z) (m : mem) (w : W) : option (Z * mem * W) :=
  match wloop (Z.to_nat (fu_bit_length field / 8) + 3) (write_round acc field sp)
          (Writing (fu_bit_length field) (byte_offset field) (bit_offset_within_first_byte field) (BitSpan src 0 (u64 (size * 8))) m w) with
  | Some r => r
  | None => None
  end.

Definition write_field_with (acc : access) (field : field_info) (region : option R) (sp src size : Z) (m : mem) (w : W)
    : option (Z * option (Z * Z) * mem * W) :=
  '(ret, did_handle, wtr_response, m, w) ← handle_special_field acc field region sp src size REGION_OP_WRITE m w;
  if (did_handle : bool) then Some (ret, wtr_response, m, w)
  else '(ret, m, w) ← write_generic_field_unit acc field sp src size m w; Some (ret, None, m, w).

(** ** Kinds of fields *)

(** [access_field_unit].  The offset and the bank value are passed on by address: they are
    in the frame at [sp - 8]. *)
Fixpoint access_field_unit (field : uacpi_field_unit R) (sp offset : Z) (op : uacpi_region_op) (data : io_data) (m : mem) (w : W)
    {struct field} : option (Z * mem * W) :=
  match field with
  | Field info kind =>
    let '(ret, w) := if lock_rule info then acquire_lock w else (UACPI_STATUS_OK, w) in
    if truthy ret then Some (ret, m, w)
    else
      '(ret, m, w) ←
        match kind with
        | KIND_NORMAL r => opregion_io r info offset op data m w
        | KIND_BANK r bank_selection bank_value =>
          let frame := sp - 8 in
          '(ret, _, m, w) ← write_field_with (access_field_unit bank_selection) (info_of bank_selection) (region_of bank_selection)
                              frame frame 8 (st64 m frame bank_value) w;
          if truthy ret then Some (ret, m, w) else opregion_io r info offset op data m w
        | KIND_INDEX index data_field =>
          let frame := sp - 8 in
          '(ret, _, m, w) ← write_field_with (access_field_unit index) (info_of index) (region_of index)
                              frame frame 4 (st32 m frame offset) w;
          if truthy ret then Some (ret, m, w)
          else
            let p := match data with IoInteger p => p | IoBuffer p _ => p end in
            match op with
            | REGION_OP_READ =>
              '(ret, _, m, w) ← read_field_with (access_field_unit data_field) (info_of data_field) (region_of data_field)
                                  frame p (access_width_bytes info) m w; Some (ret, m, w)
            | REGION_OP_WRITE =>
              '(ret, _, m, w) ← write_field_with (access_field_unit data_field) (info_of data_field) (region_of data_field)
                                  frame p (access_width_bytes info) m w; Some (ret, m, w)
            end
        | KIND_INVALID _ => Some (UACPI_STATUS_INVALID_ARGUMENT, m, w)
        end;
      Some (ret, m, if lock_rule info then release_lock w else w)
  end.

Definition uacpi_read_field_unit (field : uacpi_field_unit R) (sp dst size : Z) (m : mem) (w : W) : option (Z * option (Z * Z) * mem * W) :=
  read_field_with (access_field_unit field) (info_of field) (region_of field) sp dst size m w.

Definition uacpi_write_field_unit (field : uacpi_field_unit R) (sp src size : Z) (m : mem) (w : W) : option (Z * option (Z * Z) * mem * W) :=
  write_field_with (access_field_unit field) (info_of field) (region_of field) sp src size m w.
End Fields.
