(* ===== verification/AcpiFieldProps.v ===== *)
(** * Field units: what reading and writing them does to a region

    Against any region that keeps bytes ([ByteRegion]) a read collects exactly the bits of
    the field and a write replaces exactly them, whatever the access width and however the
    field lies across the words of the region. *)

From S2P Require Import Prelude Mem CString KernelApi AcpiBits AcpiField.
From Stdlib Require Import Btauto.

(** ** Words in memory *)

Lemma mbit_stn n m p v k :
  mbit (stn n m p v) k = if (8 * p <=? k) && (k <? 8 * p + 8 * Z.of_nat n) then Z.testbit v (k - 8 * p) else mbit m k.
Proof.
  pose proof (Z.div_mod k 8 ltac:(lia)) as Hk. pose proof (Z.mod_pos_bound k 8 ltac:(lia)) as Hr.
  destruct (_ && _) eqn:E; bool_to_prop.
  - unfold mbit, ld8. replace (k / 8) with (p + Z.of_nat (Z.to_nat (k / 8 - p))) by lia.
    rewrite stn_byte, u8_idem, testbit_u8 by lia. rewrite Z2Nat.id by lia.
    change 256 with (2 ^ 8). rewrite <- Z.pow_mul_r, Z.div_pow2_bits by lia. f_equal. lia.
  - apply mbit_ext8, stn_out. apply andb_false_iff in E as [E|E]; bool_to_prop; lia.
Qed.

(** The widths an access can have. *)
Definition width_ok (w : Z) : Prop := w = 1 \/ w = 2 \/ w = 4 \/ w = 8.

(** ** Regions that keep bytes

    [content m w] are the [n] bytes of the region in a state where it is set up ([ok]).  They may
    lie in main memory, but not in the [private] part that holds the locals and buffers of the
    caller.  The mutex of the global lock, which some fields take, is granted. *)
Class ByteRegion {R W : Type} (FH : FieldHost R W) (r : R) (n : Z) (private : Z -> Prop) (ok : mem -> W -> Prop) (content : mem -> W -> mem) := {
  br_space m w : ok m w -> exists s, region_space w r = Some s /\
    (s = UACPI_ADDRESS_SPACE_SYSTEM_MEMORY \/ s = UACPI_ADDRESS_SPACE_SYSTEM_IO \/ s = UACPI_ADDRESS_SPACE_PCI_CONFIG);
  br_frame m m' w : ok m w -> (forall y, ~ private y -> ld8 m' y = ld8 m y) ->
    ok m' w /\ forall x, 0 <= x < n -> ld8 (content m' w) x = ld8 (content m w) x;
  br_read info off p m w : ok m w -> width_ok (access_width_bytes info) -> 0 <= off -> off + access_width_bytes info <= n -> n <= 2 ^ 32 ->
    (forall i, 0 <= i < 8 -> private (p + i)) ->
    exists m' w', opregion_io r info off REGION_OP_READ (IoInteger p) m w = Some (UACPI_STATUS_OK, m', w') /\ ok m' w' /\
      (forall x, private x -> ld8 m' x = ld8 (st64 m p (ldn (Z.to_nat (access_width_bytes info)) (content m w) off)) x) /\
      (forall x, 0 <= x < n -> ld8 (content m' w') x = ld8 (content m w) x);
  br_write info off p m w : ok m w -> width_ok (access_width_bytes info) -> 0 <= off -> off + access_width_bytes info <= n -> n <= 2 ^ 32 ->
    (forall i, 0 <= i < 8 -> private (p + i)) ->
    exists m' w', opregion_io r info off REGION_OP_WRITE (IoInteger p) m w = Some (UACPI_STATUS_OK, m', w') /\ ok m' w' /\
      (forall x, private x -> ld8 m' x = ld8 m x) /\
      (forall x, 0 <= x < n -> ld8 (content m' w') x = ld8 (stn (Z.to_nat (access_width_bytes info)) (content m w) off (ld64 m p)) x);
  br_lock m w : ok m w -> exists w', acquire_lock w = (UACPI_STATUS_OK, w') /\ ok m w' /\ forall x, 0 <= x < n -> ld8 (content m w') x = ld8 (content m w) x;
  br_unlock m w : ok m w -> ok m (release_lock w) /\ forall x, 0 <= x < n -> ld8 (content m (release_lock w)) x = ld8 (content m w) x }.

(** A field as the interpreter creates it: a width, a first bit within the first word, and all
    words inside the region. *)
Definition word_bits (g : field_info) : Z := 8 * access_width_bytes g.
Definition first_bit (g : field_info) : Z := 8 * byte_offset g + bit_offset_within_first_byte g.
(** The bits of all words a field touches. *)
Definition covered (g : field_info) : Z :=
  (bit_offset_within_first_byte g + fu_bit_length g + word_bits g - 1) / word_bits g * word_bits g.

Record unit_ok (g : field_info) (n : Z) : Prop := {
  uo_width : width_ok (access_width_bytes g);
  uo_first : 0 <= bit_offset_within_first_byte g < word_bits g;
  uo_length : 0 < fu_bit_length g < 2 ^ 31;
  uo_offset : 0 <= byte_offset g;
  uo_end : 8 * byte_offset g + covered g <= 8 * n;
  uo_region : n < 2 ^ 32 }.

Lemma covered_spec g n : unit_ok g n ->
  bit_offset_within_first_byte g + fu_bit_length g <= covered g < bit_offset_within_first_byte g + fu_bit_length g + word_bits g /\
  (word_bits g | covered g).
Proof.
  intros [Hw Hf Hl _ _ _]. unfold covered. assert (0 < word_bits g) by (unfold word_bits; destruct Hw as [->|[->|[->| ->]]]; lia).
  pose proof (Z.div_mod (bit_offset_within_first_byte g + fu_bit_length g + word_bits g - 1) (word_bits g) ltac:(lia)).
  pose proof (Z.mod_pos_bound (bit_offset_within_first_byte g + fu_bit_length g + word_bits g - 1) (word_bits g) ltac:(lia)).
  split; [lia|]. apply Z.divide_factor_r.
Qed.

Section Normal.
Context {R W : Type} {FH : FieldHost R W} (r : R) (n : Z) (private : Z -> Prop) (ok : mem -> W -> Prop) (content : mem -> W -> mem).
Context {BR : ByteRegion FH r n private ok content}.
Context (g : field_info) (Hg : unit_ok g n).

Definition area (a k : Z) : Prop := forall x, a <= x < a + k -> private x.

(** The region holds the bits of [c]. *)
Definition holds (c m : mem) (w : W) : Prop := ok m w /\ forall x, 0 <= x < n -> ld8 (content m w) x = ld8 c x.

Lemma holds_bit c m w k : holds c m w -> 0 <= k < 8 * n -> mbit (content m w) k = mbit c k.
Proof.
  intros [_ H] Hk. apply mbit_ext, H. pose proof (Z.div_mod k 8 ltac:(lia)). pose proof (Z.mod_pos_bound k 8 ltac:(lia)). lia.
Qed.

(** An access of the field is an access of the region, between taking and giving up the lock. *)
Lemma access_normal c sp off op d m w : holds c m w ->
  exists w0, holds c m w0 /\ access_field_unit (Field g (KIND_NORMAL r)) sp off op d m w =
    ('(ret, m', w') ← opregion_io r g off op d m w0; Some (ret, m', if lock_rule g then release_lock w' else w')).
Proof.
  intros [Hok Hc]. cbn [access_field_unit]. destruct (lock_rule g).
  - destruct (br_lock m w Hok) as (w0 & -> & Hok0 & Hc0). exists w0. split; [|done]. split; [done|]. intros x Hx. rewrite Hc0 by done. by apply Hc.
  - by exists w.
Qed.

Lemma holds_unlock c m w : holds c m w -> holds c m (if lock_rule g then release_lock w else w).
Proof.
  intros [Hok Hc]. destruct (lock_rule g); [|done]. destruct (br_unlock m w Hok) as [Hok' Hc']. split; [done|]. intros x Hx. rewrite Hc' by done. by apply Hc.
Qed.

Lemma wbits_pos : 8 <= word_bits g <= 64 /\ u8 (access_width_bytes g * 8) = word_bits g.
Proof. unfold word_bits. destruct (uo_width _ _ Hg) as [->|[->|[->| ->]]]; done. Qed.

(** Reading a word puts its bits into the local, lowest first. *)
Lemma read_word c sp off p m w : holds c m w -> 0 <= off -> 8 * off + word_bits g <= 8 * n -> area p 8 ->
  exists m' w', access_field_unit (Field g (KIND_NORMAL r)) sp off REGION_OP_READ (IoInteger p) m w = Some (UACPI_STATUS_OK, m', w') /\
    holds c m' w' /\
    (forall q, 0 <= q < word_bits g -> mbit m' (8 * p + q) = mbit c (8 * off + q)) /\
    (forall x, private x -> x < p \/ p + 8 <= x -> ld8 m' x = ld8 m x).
Proof.
  intros Hc Ho He Hp. destruct (access_normal c sp off REGION_OP_READ (IoInteger p) m w Hc) as (w0 & Hc0 & ->). pose proof wbits_pos as [Hw _]. unfold word_bits in *.
  destruct (br_read g off p m w0 (proj1 Hc0) (uo_width _ _ Hg)) as (m' & w' & Hr & Hok & Hm & Hk); [lia|lia|pose proof (uo_region _ _ Hg); lia|intros i Hi; apply Hp; lia|].
  rewrite Hr. cbn [mbind option_bind]. do 2 eexists. split_and_all; [reflexivity| | |].
  - apply holds_unlock. split; [done|]. intros x Hx. rewrite Hk by done. by apply Hc0.
  - intros q Hq. assert (private (p + q / 8)) as Hpq by (apply Hp; Z.div_mod_to_equations; lia).
    rewrite (mbit_ext (st64 m p (ldn (Z.to_nat (access_width_bytes g)) (content m w0) off)) m').
    2: { replace ((8 * p + q) / 8) with (p + q / 8) by (Z.div_mod_to_equations; lia). by apply Hm. }
    rewrite mbit_stn. change (Z.of_nat 8) with 8. replace (_ && _) with true by lia. replace (8 * p + q - 8 * p) with q by lia.
    rewrite ldn_bit, Z2Nat.id by lia. replace (q <? 8 * access_width_bytes g) with true by lia. apply (holds_bit c); [done|lia].
  - intros x Hx Ho'. rewrite Hm by done. unfold ld8. by rewrite stn_out by lia.
Qed.

Lemma holds_private c m m' w : holds c m w -> (forall x, ~ private x -> ld8 m' x = ld8 m x) -> holds c m' w.
Proof. intros [Ho Hc] Hm. destruct (br_frame m m' w Ho Hm) as [Ho' Hx]. split; [done|]. intros x Hn. rewrite Hx by done. by apply Hc. Qed.

(** Copies between private places do not disturb the region. *)
Lemma holds_copied c m m' w d dlen s slen : holds c m w -> bits_copied m m' d dlen s slen ->
  (forall k, d <= k < d + dlen -> private (k / 8)) -> holds c m' w.
Proof.
  intros Hc Hb Hp. apply (holds_private c m); [done|]. intros y Hy. apply ld8_ext. intros i Hi.
  apply (copied_frame _ _ _ _ _ _ _ Hb). destruct (Z_lt_ge_dec (8 * y + i) d); [by left|].
  destruct (Z_lt_ge_dec (8 * y + i) (d + dlen)); [|right; lia]. exfalso. apply Hy.
  specialize (Hp (8 * y + i) ltac:(lia)). by replace ((8 * y + i) / 8) with y in Hp by (Z.div_mod_to_equations; lia).
Qed.

(** ** Reading *)

Lemma words_left cnt b : 0 < b ->
  Z.of_nat cnt * b = 0 /\ cnt = 0%nat \/ b <= Z.of_nat cnt * b /\ (Z.of_nat cnt - 1) * b = Z.of_nat cnt * b - b.
Proof.
  intros Hb. destruct cnt as [|cnt]; [by left|right]. rewrite Nat2Z.inj_succ, Z.mul_succ_l.
  pose proof (Z.mul_nonneg_nonneg (Z.of_nat cnt) b). split; lia.
Qed.

(** What a read leaves: the bits of the field, then zeroes. *)
Definition field_bits (c m' : mem) (dst size t : Z) : Prop :=
  forall j, 0 <= j < 8 * size -> mbit m' (8 * dst + j) = (j <? t) && mbit c (first_bit g + j).

(** [t] bits have been read, [cnt] words are to come. *)
Lemma read_loop_spec c dst size sp cnt off idx t m w :
  area dst size -> area (sp - 8) 8 -> dst + size <= sp - 8 \/ sp <= dst -> 0 <= size < 2 ^ 32 ->
  holds c m w -> 0 <= t <= fu_bit_length g -> 0 <= idx < word_bits g -> 0 <= off ->
  (0 < Z.of_nat cnt -> 8 * off + idx = first_bit g + t /\ t < fu_bit_length g) ->
  (Z.of_nat cnt - 1) * word_bits g < idx + (fu_bit_length g - t) <= Z.of_nat cnt * word_bits g ->
  8 * off + Z.of_nat cnt * word_bits g <= 8 * n ->
  t = 0 \/ field_bits c m dst size t ->
  exists m' w', read_loop cnt (access_field_unit (Field g (KIND_NORMAL r))) g sp idx (fu_bit_length g - t) off
      (BitSpan dst (Z.min t (8 * size)) (8 * size - Z.min t (8 * size))) m w = Some (UACPI_STATUS_OK, m', w') /\
    holds c m' w' /\ field_bits c m' dst size (fu_bit_length g) /\
    (forall x, private x -> x < dst \/ dst + size <= x -> x < sp - 8 \/ sp <= x -> ld8 m' x = ld8 m x).
Proof.
  intros Hd Hp Hov Hsz. pose proof wbits_pos as [Hw Hu8]. pose proof (uo_length _ _ Hg) as Hlen. pose proof (uo_region _ _ Hg) as Hn.
  revert off idx t m w. induction cnt as [|cnt IH]; intros off idx t m w Hc Ht Hi Ho Hpos Hcnt Hend Hst; cbn [read_loop].
  - assert (t = fu_bit_length g) as -> by lia. exists m, w. split_and_all; [done|done| |done]. destruct Hst; [lia|done].
  - rewrite Nat2Z.inj_succ in *. pose proof (words_left cnt (word_bits g) ltac:(lia)) as HC.
    replace ((Z.succ (Z.of_nat cnt) - 1) * word_bits g) with (Z.of_nat cnt * word_bits g) in Hcnt by lia.
    rewrite Z.mul_succ_l in *. set (C := Z.of_nat cnt * word_bits g) in *.
    set (len := fu_bit_length g) in *. set (b := Z.min (len - t) (word_bits g - idx)).
    destruct (Hpos ltac:(lia)) as [Hat Htl]. assert (Hb : 0 < b <= word_bits g - idx) by (subst b; lia). rewrite Hu8, (u64_small (word_bits g - idx)) by lia. fold b.
    destruct (read_word c (sp - 8) off (sp - 8) m w) as (m1 & w1 & -> & Hc1 & Hq & Hf1); [done|done|lia|done|].
    cbn [mbind option_bind]. change (truthy UACPI_STATUS_OK) with false. cbv iota.
    set (dl := 8 * size - Z.min t (8 * size)).
    destruct (bit_copy_spec m1 (BitSpan dst (Z.min t (8 * size)) dl) (BitSpan (sp - 8) idx b)) as (m2 & -> & H2);
      unfold bit_at in *; cbn [sp_data sp_index sp_length] in *; [lia..|]. cbn [mbind option_bind].
    assert (Hc2 : holds c m2 w1).
    { apply (holds_copied c m1 m2 w1 _ _ _ _ Hc1 H2). intros k Hk. apply Hd. subst dl. Z.div_mod_to_equations. lia. }
    assert (Hfb : field_bits c m2 dst size (t + b)).
    { intros j Hj. rewrite H2. destruct (Z_lt_ge_dec j t).
      - replace (8 * dst + Z.min t (8 * size) <=? 8 * dst + j) with false by lia. cbn [andb].
        destruct Hst as [->|Hst]; [lia|]. transitivity (mbit m (8 * dst + j)).
        + apply mbit_ext. replace ((8 * dst + j) / 8) with (dst + j / 8) by (Z.div_mod_to_equations; lia).
          apply Hf1; [apply Hd|]; Z.div_mod_to_equations; lia.
        + rewrite Hst by lia. by replace (j <? t) with (j <? t + b) by lia.
      - replace (8 * dst + Z.min t (8 * size) <=? 8 * dst + j) with true by lia. subst dl.
        replace (8 * dst + j <? _) with true by lia. cbn [andb]. rewrite Z.min_l by lia.
        replace (8 * dst + j - (8 * dst + t) <? b) with (j <? t + b) by lia. destruct (j <? t + b) eqn:Ej; [|done]. bool_to_prop. cbn [andb].
        replace (8 * (sp - 8) + idx + (8 * dst + j - (8 * dst + t))) with (8 * (sp - 8) + (idx + j - t)) by lia.
        rewrite Hq by lia. f_equal. lia. }
    unfold bit_span_offset. cbn [sp_data sp_index sp_length fst]. fold dl.
    rewrite !(u64_small _) by (subst dl; lia). rewrite (u32_small (len - t - b)) by (subst b; lia).
    replace (len - t - b) with (len - (t + b)) by lia.
    replace (Z.min t (8 * size) + Z.min dl b) with (Z.min (t + b) (8 * size)) by (subst dl; lia).
    replace (dl - Z.min dl b) with (8 * size - Z.min (t + b) (8 * size)) by (subst dl; lia).
    assert (Hww : word_bits g = 8 * access_width_bytes g) by done.
    rewrite u32_small by lia.
    assert (Hcase : t + b = len /\ cnt = 0%nat \/ b = word_bits g - idx /\ t + b < len /\ cnt <> 0%nat) by (subst b; lia).
    assert (Hcnt' : (Z.of_nat cnt - 1) * word_bits g < 0 + (len - (t + b)) <= C) by (destruct HC as [[? ->]|[? ->]]; lia).
    destruct (IH (off + access_width_bytes g) 0 (t + b) m2 w1) as (m' & w' & -> & Hc' & Hf' & Hx');
      [done|subst b; lia|lia|lia|intros; lia|done|lia|by right|].
    exists m', w'. split_and_all; [done|done|done|]. intros x Hx Hx1 Hx2. rewrite Hx' by done.
    transitivity (ld8 m1 x); [|by apply Hf1; [|lia]]. apply ld8_ext. intros i Hi'. apply (copied_frame _ _ _ _ _ _ _ H2). subst dl. lia.
Qed.

Lemma special_none acc sp buf len op m w : ok m w ->
  handle_special_field acc g (Some r) sp buf len op m w = Some (UACPI_STATUS_OK, false, None, m, w).
Proof.
  intros Ho. unfold handle_special_field. destruct (br_space m w Ho) as (s & -> & Hs). by destruct Hs as [->|[->| ->]].
Qed.

Lemma words_to_read : exists cnt : nat, Z.of_nat cnt * word_bits g = covered g /\
  (Z.of_nat cnt - 1) * word_bits g < bit_offset_within_first_byte g + fu_bit_length g /\
  Z.to_nat ((u32 (u32 (bit_offset_within_first_byte g + fu_bit_length g) + u32 (word_bits g - 1)) &&& u32 (Z.lnot (u32 (word_bits g - 1)))) / word_bits g) = cnt.
Proof.
  destruct (covered_spec g n Hg) as [Hc [k Hk]]. pose proof wbits_pos as [Hw _]. destruct Hg as [Hwd Hf Hl _ He Hn].
  assert (0 < k) by nia. exists (Z.to_nat k). rewrite Z2Nat.id by lia. split_and_all; [by rewrite Hk| |].
  - rewrite Z.mul_sub_distr_r, <- Hk. lia.
  - rewrite (u32_small (word_bits g - 1)), (u32_small (_ + fu_bit_length g)), u32_small by lia.
    unfold covered in Hk. set (x := bit_offset_within_first_byte g + fu_bit_length g + (word_bits g - 1)).
    assert (x &&& u32 (Z.lnot (word_bits g - 1)) = x / word_bits g * word_bits g) as ->.
    { assert (Hx : 0 <= x < 2 ^ 32) by (subst x; lia). clear - Hx Hwd. unfold word_bits.
      destruct Hwd as [->|[->|[->| ->]]]; [apply (align_down_mod 32 x 3)|apply (align_down_mod 32 x 4)|apply (align_down_mod 32 x 5)|apply (align_down_mod 32 x 6)]; (done || lia). }
    rewrite Z.div_mul by lia. f_equal. subst x. rewrite Z.add_sub_assoc. apply (Z.mul_reg_r _ _ (word_bits g)); [lia|exact Hk].
Qed.

Lemma read_unit_spec c dst size sp m w :
  area dst size -> area (sp - 8) 8 -> dst + size <= sp - 8 \/ sp <= dst -> 0 <= size < 2 ^ 32 -> holds c m w ->
  exists m' w', uacpi_read_field_unit (Field g (KIND_NORMAL r)) sp dst size m w = Some (UACPI_STATUS_OK, None, m', w') /\
    holds c m' w' /\ field_bits c m' dst size (fu_bit_length g) /\
    (forall x, private x -> x < dst \/ dst + size <= x -> x < sp - 8 \/ sp <= x -> ld8 m' x = ld8 m x).
Proof.
  intros Hd Hp Hov Hsz Hc. unfold uacpi_read_field_unit, read_field_with. cbn [info_of region_of]. rewrite special_none by apply Hc. cbn [mbind option_bind].
  pose proof wbits_pos as [Hw Hu8]. pose proof (covered_spec g n Hg) as [Hcov Hdv]. pose proof Hg as [Hwd Hf Hl Hof He Hn].
  rewrite round_up_bits by lia. set (fbl := (fu_bit_length g + 7) / 8).
  assert (Hfb : 8 * fbl - 8 < fu_bit_length g <= 8 * fbl) by (subst fbl; Z.div_mod_to_equations; lia). rewrite (u32_small fbl) by lia.
  destruct (_ && _) eqn:Efast; bool_to_prop.
  - assert (Hww : word_bits g = 8 * access_width_bytes g) by done.
    apply Z.divide_pos_le in Hdv; [|lia].
    destruct (read_word c (sp - 8) (byte_offset g) (sp - 8) m w) as (m1 & w1 & -> & Hc1 & Hq & Hf1); [done|done|lia|done|].
    cbn [mbind option_bind]. change (truthy UACPI_STATUS_OK) with false. cbv iota. do 2 eexists. split; [reflexivity|].
    set (m2 := uacpi_memcpy_zerout m1 dst (sp - 8) size fbl).
    assert (H2 : bits_copied m1 m2 (8 * dst) (8 * size) (8 * (sp - 8)) (8 * fbl)).
    { intros k. subst m2. rewrite mbit_zerout by lia. by replace (8 * (dst + size)) with (8 * dst + 8 * size) by lia. }
    set (m3 := if fbl <=? size then _ else m2).
    assert (H3 : bits_copied m1 m3 (8 * dst) (8 * size) (8 * (sp - 8)) (fu_bit_length g)).
    { intros k. pose proof (Z.div_mod (fu_bit_length g) 8 ltac:(lia)). pose proof (Z.mod_pos_bound (fu_bit_length g) 8 ltac:(lia)).
      pose proof (Z.div_mod k 8 ltac:(lia)). pose proof (Z.mod_pos_bound k 8 ltac:(lia)). clearbody fbl. subst m3. case_if.
      - rewrite mbit_cut by lia. rewrite (H2 k).
        destruct ((8 * dst <=? k) && (k <? 8 * dst + 8 * size)) eqn:Er; bool_to_prop.
        + destruct (k - 8 * dst <? fu_bit_length g) eqn:Ej; bool_to_prop.
          * replace (_ && (fu_bit_length g mod 8 <=? k mod 8)) with false by lia. by replace (k - 8 * dst <? 8 * fbl) with true by lia.
          * destruct (Z_lt_ge_dec (k - 8 * dst) (8 * fbl)).
            -- by replace (_ && (fu_bit_length g mod 8 <=? k mod 8)) with true by lia.
            -- replace (_ && (fu_bit_length g mod 8 <=? k mod 8)) with false by lia. by replace (k - 8 * dst <? 8 * fbl) with false by lia.
        + by replace (_ && (fu_bit_length g mod 8 <=? k mod 8)) with false by lia.
      - rewrite (H2 k). destruct ((8 * dst <=? k) && (k <? 8 * dst + 8 * size)) eqn:Er; bool_to_prop; [|done].
        by replace (k - 8 * dst <? 8 * fbl) with (k - 8 * dst <? fu_bit_length g) by lia. }
    split_and_all.
    + apply (holds_copied c m1 m3 w1 _ _ _ _ Hc1 H3). intros k Hk. apply Hd. Z.div_mod_to_equations. lia.
    + intros j Hj. rewrite (H3 (8 * dst + j)). replace ((8 * dst <=? 8 * dst + j) && (8 * dst + j <? 8 * dst + 8 * size)) with true by lia.
      replace (8 * dst + j - 8 * dst) with j by lia. destruct (j <? fu_bit_length g) eqn:Ej; [|done]. bool_to_prop. cbn [andb].
      rewrite Hq by lia. f_equal. unfold first_bit. lia.
    + intros x Hx Hx1 Hx2. transitivity (ld8 m1 x); [|by apply Hf1; [|lia]]. apply ld8_ext. intros i Hi'. apply (copied_frame _ _ _ _ _ _ _ H3). lia.
  - unfold do_read_misaligned_field_unit. rewrite Hu8. destruct words_to_read as (cnt & Hk1 & Hk2 & ->). rewrite u64_small by lia.
    destruct (read_loop_spec c dst size sp cnt (byte_offset g) (bit_offset_within_first_byte g) 0 m w) as (m' & w' & Hr & Hrest);
      [done|done|done|done|done|lia|done|done|intros; unfold first_bit; lia|lia|lia|by left|].
    rewrite Z.sub_0_r, Z.min_l, Z.sub_0_r, (Z.mul_comm 8 size) in Hr by lia. rewrite Hr. cbn [mbind option_bind]. eauto.
Qed.

(** ** Writing *)

(** The bit around a field that the update rule writes. *)
Definition rule_bit (c : mem) (k : Z) : bool :=
  if update_rule g =? UACPI_UPDATE_RULE_PRESERVE then mbit c k else update_rule g =? UACPI_UPDATE_RULE_WRITE_AS_ONES.

Context (Hrule : 0 <= update_rule g <= 2).

Lemma holds_st64 c m w p v : area p 8 -> holds c m w -> holds c (st64 m p v) w.
Proof.
  intros Hp Hc. apply (holds_private c m); [done|]. intros x Hx. unfold ld8. rewrite stn_out; [done|].
  destruct (Z_lt_ge_dec x p); [by left|]. destruct (Z_lt_ge_dec x (p + 8)); [|right; lia]. exfalso. apply Hx, Hp. lia.
Qed.

Lemma initial_word_spec c sp off idx b m w :
  area (sp - 8) 8 -> holds c m w -> 0 <= off -> 8 * off + word_bits g <= 8 * n -> 0 <= idx -> 0 < b -> idx + b <= word_bits g ->
  exists m1 w1, initial_word (access_field_unit (Field g (KIND_NORMAL r))) g sp off (BitSpan (sp - 8) idx b) m w = Some (inr (m1, w1)) /\
    holds c m1 w1 /\
    (forall q, 0 <= q < word_bits g -> q < idx \/ idx + b <= q -> mbit m1 (8 * (sp - 8) + q) = rule_bit c (8 * off + q)) /\
    (forall x, private x -> x < sp - 8 \/ sp <= x -> ld8 m1 x = ld8 m x).
Proof.
  intros Hp Hc Ho He Hi Hb Hib. pose proof wbits_pos as [Hw Hu8]. unfold initial_word, rule_bit. cbn [sp_index sp_length]. rewrite Hu8.
  assert (Hc0 := holds_st64 c m w (sp - 8) 0 Hp Hc).
  assert (Hf0 : forall v x, x < sp - 8 \/ sp <= x -> ld8 (st64 m (sp - 8) v) x = ld8 m x) by (intros; unfold ld8; by rewrite stn_out by lia).
  destruct (truthy idx || (b <? word_bits g)) eqn:E.
  - destruct (update_rule g =? UACPI_UPDATE_RULE_PRESERVE) eqn:Er; bool_to_prop.
    + destruct (read_word c (sp - 8) off (sp - 8) (st64 m (sp - 8) 0) w) as (m1 & w1 & -> & Hc1 & Hq & Hf1); [done..|].
      cbn [mbind option_bind]. change (truthy UACPI_STATUS_OK) with false. cbv iota. exists m1, w1. split_and_all; [done|done| |].
      * intros q Hq1 _. by apply Hq.
      * intros x Hx Hx'. rewrite Hf1 by (done || lia). by apply Hf0.
    + destruct (update_rule g =? UACPI_UPDATE_RULE_WRITE_AS_ONES) eqn:E1.
      * rewrite ld64_st64_same by done. do 2 eexists. split; [reflexivity|]. split_and_all.
        -- by apply holds_st64.
        -- intros q Hq _. rewrite mbit_stn. change (Z.of_nat 8) with 8. replace (_ && _) with true by lia.
           replace (8 * (sp - 8) + q - 8 * (sp - 8)) with q by lia. change (u64 (Z.lnot ?v)) with (Z.ones 64).
           rewrite Z.testbit_ones_nonneg by lia. lia.
        -- intros x Hx Hx'. unfold ld8. rewrite !stn_out by lia. done.
      * replace (update_rule g =? UACPI_UPDATE_RULE_WRITE_AS_ZEROES) with true
          by (unfold UACPI_UPDATE_RULE_WRITE_AS_ZEROES, UACPI_UPDATE_RULE_PRESERVE, UACPI_UPDATE_RULE_WRITE_AS_ONES in *; bool_to_prop; lia).
        do 2 eexists. split; [reflexivity|]. split_and_all; [done| |by intros; apply Hf0].
        intros q Hq _. rewrite mbit_stn. change (Z.of_nat 8) with 8. replace (_ && _) with true by lia. apply Z.bits_0.
  - bool_to_prop. do 2 eexists. split; [reflexivity|]. split_and_all; [done| |by intros; apply Hf0]. intros q Hq Hq'. lia.
Qed.

Lemma write_word c sp off p m w : holds c m w -> 0 <= off -> 8 * off + word_bits g <= 8 * n -> area p 8 ->
  exists m' w', access_field_unit (Field g (KIND_NORMAL r)) sp off REGION_OP_WRITE (IoInteger p) m w = Some (UACPI_STATUS_OK, m', w') /\ ok m' w' /\
    (forall k, 0 <= k < 8 * n -> mbit (content m' w') k =
       if (8 * off <=? k) && (k <? 8 * off + word_bits g) then mbit m (8 * p + (k - 8 * off)) else mbit c k) /\
    (forall x, private x -> ld8 m' x = ld8 m x).
Proof.
  intros Hc Ho He Hp. destruct (access_normal c sp off REGION_OP_WRITE (IoInteger p) m w Hc) as (w0 & Hc0 & ->). pose proof wbits_pos as [Hw _]. unfold word_bits in *.
  destruct (br_write g off p m w0 (proj1 Hc0) (uo_width _ _ Hg)) as (m' & w' & Hr & Hok & Hm & Hk); [lia|lia|pose proof (uo_region _ _ Hg); lia|intros i Hi; apply Hp; lia|].
  rewrite Hr. cbn [mbind option_bind]. destruct (holds_unlock (content m' w') m' w' ltac:(by split)) as [Hok' Hc'].
  do 2 eexists. split_and_all; [reflexivity|done| |done]. intros k Hkn.
  rewrite (holds_bit (content m' w')) by (first [exact Hkn|by split]).
  rewrite (mbit_ext (stn (Z.to_nat (access_width_bytes g)) (content m w0) off (ld64 m p)) (content m' w')).
  2: { apply Hk. Z.div_mod_to_equations. lia. }
  rewrite mbit_stn, Z2Nat.id by lia. destruct (_ && _) eqn:E; bool_to_prop; [|by apply holds_bit].
  rewrite ldn_bit by lia. change (8 * Z.of_nat 8) with 64. by replace (k - 8 * off <? 64) with true by lia.
Qed.

(** What a write makes of a region that held [c0]: the first [t] bits of the field have been
    written, and the words before byte [off] finished. *)
Definition written (c0 m0 : mem) (src size t off k : Z) : bool :=
  if (first_bit g <=? k) && (k <? first_bit g + t) then (k - first_bit g <? 8 * size) && mbit m0 (8 * src + (k - first_bit g))
  else if (8 * byte_offset g <=? k) && (k <? 8 * off) then rule_bit c0 k else mbit c0 k.

(** A finished word: the bits of [b] taken from the source, the others by the rule. *)
Lemma written_step c0 m0 src size t off idx b cur k :
  8 * off + idx = first_bit g + t -> 0 <= idx -> 0 < b -> idx + b <= word_bits g -> 0 <= t -> byte_offset g <= off ->
  (idx = 0 \/ t = 0 /\ off = byte_offset g) ->
  (8 * off <= k < 8 * off + word_bits g -> first_bit g + t <= k < first_bit g + t + b ->
     cur = (k - first_bit g <? 8 * size) && mbit m0 (8 * src + (k - first_bit g))) ->
  (8 * off <= k < 8 * off + word_bits g -> k < first_bit g + t \/ first_bit g + t + b <= k ->
     cur = rule_bit c0 k) ->
  (if (8 * off <=? k) && (k <? 8 * off + word_bits g) then cur else written c0 m0 src size t off k) =
  written c0 m0 src size (t + b) (off + access_width_bytes g) k.
Proof.
  intros Hat Hi Hb Hib Ht Hoff Hcase Hin Hout. unfold written.
  assert (Hww : word_bits g = 8 * access_width_bytes g) by done.
  assert (Hfb : 8 * byte_offset g <= first_bit g) by (unfold first_bit; pose proof (uo_first _ _ Hg); lia).
  replace (8 * (off + access_width_bytes g)) with (8 * off + word_bits g) by lia.
  destruct ((8 * off <=? k) && (k <? 8 * off + word_bits g)) eqn:Ew.
  - bool_to_prop. destruct ((first_bit g <=? k) && (k <? first_bit g + (t + b))) eqn:Ef; bool_to_prop.
    + apply Hin; lia.
    + replace ((8 * byte_offset g <=? k) && (k <? 8 * off + word_bits g)) with true by lia. apply Hout; [lia|].
      apply andb_false_iff in Ef as [Ef|Ef]; bool_to_prop; lia.
  - apply andb_false_iff in Ew. destruct Ew as [Ew|Ew]; bool_to_prop.
    + replace (k <? first_bit g + (t + b)) with (k <? first_bit g + t) by lia.
      replace (k <? 8 * off + word_bits g) with (k <? 8 * off) by lia. done.
    + replace (k <? first_bit g + (t + b)) with false by lia. replace (k <? first_bit g + t) with false by lia.
      replace (k <? 8 * off + word_bits g) with false by lia. replace (k <? 8 * off) with false by lia. done.
Qed.

Lemma write_loop_spec c0 m0 src size sp offe cnt fuel off idx t m w :
  area src size -> area (sp - 8) 8 -> src + size <= sp - 8 \/ sp <= src -> 0 <= size < 2 ^ 32 ->
  0 <= t <= fu_bit_length g -> 0 <= idx < word_bits g -> 0 <= off -> byte_offset g <= off ->
  (0 < Z.of_nat cnt -> 8 * off + idx = first_bit g + t /\ t < fu_bit_length g /\ (idx = 0 \/ t = 0 /\ off = byte_offset g)) ->
  (Z.of_nat cnt - 1) * word_bits g < idx + (fu_bit_length g - t) <= Z.of_nat cnt * word_bits g ->
  8 * off + Z.of_nat cnt * word_bits g = 8 * offe -> offe <= n -> (cnt < fuel)%nat -> ok m w ->
  (forall k, 0 <= k < 8 * n -> mbit (content m w) k = written c0 m0 src size t off k) ->
  (forall x, src <= x < src + size -> ld8 m x = ld8 m0 x) ->
  exists m' w', wloop fuel (write_round (access_field_unit (Field g (KIND_NORMAL r))) g sp)
      (Writing (fu_bit_length g - t) off idx (BitSpan src (Z.min t (8 * size)) (8 * size - Z.min t (8 * size))) m w) =
      Some (Some (UACPI_STATUS_OK, m', w')) /\ ok m' w' /\
    (forall k, 0 <= k < 8 * n -> mbit (content m' w') k = written c0 m0 src size (fu_bit_length g) offe k) /\
    (forall x, private x -> x < sp - 8 \/ sp <= x -> ld8 m' x = ld8 m x).
Proof.
  intros Hd Hp Hov Hsz. pose proof wbits_pos as [Hw Hu8]. pose proof (uo_length _ _ Hg) as Hlen. pose proof (uo_region _ _ Hg) as Hn.
  assert (Hww : word_bits g = 8 * access_width_bytes g) by done.
  revert fuel off idx t m w. induction cnt as [|cnt IH]; intros fuel off idx t m w Ht Hi Ho Hoff Hpos Hcnt Hend Hoe Hfu Hok Hc Hsrc;
    (destruct fuel as [|fuel]; [lia|]); cbn [wloop]; unfold write_round at 1; cbn [wr_bits_left wr_index wr_byte_offset wr_src wr_mem wr_world].
  - assert (t = fu_bit_length g) as -> by lia. rewrite Z.sub_diag. change (truthy 0) with false. cbv iota.
    replace offe with off by lia. exists m, w. done.
  - rewrite Nat2Z.inj_succ in *. pose proof (words_left cnt (word_bits g) ltac:(lia)) as HC.
    replace ((Z.succ (Z.of_nat cnt) - 1) * word_bits g) with (Z.of_nat cnt * word_bits g) in Hcnt by lia.
    rewrite Z.mul_succ_l in *. set (C := Z.of_nat cnt * word_bits g) in *.
    set (len := fu_bit_length g) in *. destruct (Hpos ltac:(lia)) as (Hat & Htl & Hfirst).
    rewrite truthy_nz, Hu8, (u64_small (word_bits g - idx)) by lia. set (b := Z.min (word_bits g - idx) (len - t)).
    assert (Hb : 0 < b <= word_bits g - idx) by (subst b; lia). cbv zeta. cbn [sp_length].
    destruct (initial_word_spec (content m w) sp off idx b m w) as (m1 & w1 & -> & Hc1 & Hq1 & Hf1); [done|by split|done|lia|lia|lia|lia|].
    destruct (bit_copy_spec m1 (BitSpan (sp - 8) idx b) (BitSpan src (Z.min t (8 * size)) (8 * size - Z.min t (8 * size)))) as (m2 & -> & H2);
      unfold bit_at in *; cbn [sp_data sp_index sp_length] in *; [lia..|].
    assert (Hc2 : holds (content m w) m2 w1).
    { apply (holds_copied _ m1 m2 w1 _ _ _ _ Hc1 H2). intros k Hk. apply Hp. Z.div_mod_to_equations. lia. }
    destruct (write_word (content m w) (sp - 8) off (sp - 8) m2 w1 Hc2) as (m3 & w3 & -> & Hok3 & Hk3 & Hf3); [done|lia|done|].
    change (truthy UACPI_STATUS_OK) with false. cbv iota.
    unfold bit_span_offset. cbn [sp_data sp_index sp_length fst].
    assert (Hf : forall x, private x -> x < sp - 8 \/ sp <= x -> ld8 m3 x = ld8 m x).
    { intros x Hx Hx'. rewrite Hf3, <- Hf1 by done. apply ld8_ext. intros i Hi'. apply (copied_frame _ _ _ _ _ _ _ H2). lia. }
    rewrite (u32_small (len - t - b)), u32_small by (subst b; lia). rewrite !(u64_small _) by lia.
    replace (len - t - b) with (len - (t + b)) by lia.
    replace (Z.min t (8 * size) + Z.min (8 * size - Z.min t (8 * size)) b) with (Z.min (t + b) (8 * size)) by lia.
    replace (8 * size - Z.min t (8 * size) - Z.min (8 * size - Z.min t (8 * size)) b) with (8 * size - Z.min (t + b) (8 * size)) by lia.
    assert (Hcase : t + b = len /\ cnt = 0%nat \/ b = word_bits g - idx /\ t + b < len /\ cnt <> 0%nat) by (subst b; lia).
    assert (Hcnt' : (Z.of_nat cnt - 1) * word_bits g < 0 + (len - (t + b)) <= C) by (destruct HC as [[? ->]|[? ->]]; lia).
    destruct (IH fuel (off + access_width_bytes g) 0 (t + b) m3 w3) as (m' & w' & -> & Hok' & Hk' & Hf');
      [subst b; lia|lia|lia|lia|intros; lia|done|lia|lia|lia|done| | |].
    + intros k Hk. rewrite Hk3 by done. rewrite Hc by done.
      apply (written_step c0 m0 src size t off idx b); try lia.
      * intros Hkw Hkf. rewrite H2. replace (_ && _) with true by lia.
        replace (8 * (sp - 8) + (k - 8 * off) - (8 * (sp - 8) + idx)) with (k - first_bit g - t) by lia.
        destruct (k - first_bit g <? 8 * size) eqn:Es; bool_to_prop.
        -- replace (k - first_bit g - t <? 8 * size - Z.min t (8 * size)) with true by lia. cbn [andb].
           replace (8 * src + Z.min t (8 * size) + (k - first_bit g - t)) with (8 * src + (k - first_bit g)) by lia.
           apply mbit_ext. replace ((8 * src + (k - first_bit g)) / 8) with (src + (k - first_bit g) / 8) by (Z.div_mod_to_equations; lia).
           rewrite Hf1; [apply Hsrc|apply Hd|]; Z.div_mod_to_equations; lia.
        -- by replace (k - first_bit g - t <? 8 * size - Z.min t (8 * size)) with false by lia.
      * intros Hkw Hkf. rewrite H2. replace (_ && _) with false by lia. rewrite Hq1 by lia.
        replace (8 * off + (k - 8 * off)) with k by lia. unfold rule_bit. case_if; [|done]. rewrite Hc by done. unfold written.
        replace ((first_bit g <=? k) && (k <? first_bit g + t)) with false by lia. by replace ((8 * byte_offset g <=? k) && (k <? 8 * off)) with false by lia.
    + intros x Hx. rewrite Hf; [by apply Hsrc|apply Hd; lia|lia].
    + exists m', w'. split_and_all; [done|done|done|]. intros x Hx Hx'. rewrite Hf' by done. by apply Hf.
Qed.

Lemma write_unit_spec c src size sp m w :
  area src size -> area (sp - 8) 8 -> src + size <= sp - 8 \/ sp <= src -> 0 <= size < 2 ^ 32 -> holds c m w ->
  exists m' w', uacpi_write_field_unit (Field g (KIND_NORMAL r)) sp src size m w = Some (UACPI_STATUS_OK, None, m', w') /\ ok m' w' /\
    (forall k, 0 <= k < 8 * n -> mbit (content m' w') k = written c m src size (fu_bit_length g) (byte_offset g + covered g / 8) k) /\
    (forall x, private x -> x < sp - 8 \/ sp <= x -> ld8 m' x = ld8 m x).
Proof.
  intros Hd Hp Hov Hsz Hc. unfold uacpi_write_field_unit, write_field_with. cbn [info_of region_of]. rewrite special_none by apply Hc. cbn [mbind option_bind].
  pose proof wbits_pos as [Hw Hu8]. pose proof (covered_spec g n Hg) as [Hcov [z Hz]]. pose proof Hg as [Hwd Hf Hl Hof He Hn].
  assert (Hww : word_bits g = 8 * access_width_bytes g) by done. destruct words_to_read as (cnt & Hk1 & Hk2 & _).
  assert (H8 : covered g = 8 * (covered g / 8)).
  { apply Z.div_exact; [lia|]. rewrite Hz, Hww. replace (z * (8 * access_width_bytes g)) with (z * access_width_bytes g * 8) by lia. apply Z.mod_mul. lia. }
  unfold write_generic_field_unit. rewrite u64_small by lia. set (fuel := (Z.to_nat (fu_bit_length g / 8) + 3)%nat).
  assert (Hfuel : (cnt < fuel)%nat).
  { assert (Z.of_nat cnt * 8 <= Z.of_nat cnt * word_bits g) by (apply Z.mul_le_mono_nonneg_l; lia).
    assert (Z.of_nat cnt * word_bits g < fu_bit_length g + 2 * word_bits g) by lia.
    assert ((Z.of_nat cnt - 2) * word_bits g < fu_bit_length g) by lia.
    assert ((cnt <= 2)%nat \/ (Z.of_nat cnt - 2) * 8 < fu_bit_length g)
      by (destruct (Nat.le_gt_cases cnt 2); [by left|right]; assert ((Z.of_nat cnt - 2) * 8 <= (Z.of_nat cnt - 2) * word_bits g) by (apply Z.mul_le_mono_nonneg_l; lia); lia).
    subst fuel. Z.div_mod_to_equations. lia. }
  destruct (write_loop_spec c m src size sp (byte_offset g + covered g / 8) cnt fuel (byte_offset g) (bit_offset_within_first_byte g) 0 m w)
    as (m' & w' & Hr & Hok & Hk & Hfr); [done|done|done|done|lia|done|done|lia|intros; unfold first_bit; lia|lia|lia|lia|done|apply Hc| |done|].
  - intros k Hk. rewrite (holds_bit c) by done. unfold written. replace ((_ <=? k) && (k <? first_bit g + 0)) with false by lia.
    by replace ((_ <=? k) && (k <? 8 * byte_offset g)) with false by lia.
  - rewrite Z.sub_0_r, Z.min_l, Z.sub_0_r, (Z.mul_comm 8 size) in Hr by lia. rewrite Hr. cbn [mbind option_bind]. by exists m', w'.
Qed.
End Normal.
