(* ===== verification/AcpiRegion.v ===== *)
(** * Operation regions of uACPI, [src/src/uacpi/opregion.c] and [default_handlers.c]

    The way from a field unit to the bytes of its region: the dispatcher attaches the region
    on first use, checks the access against the region's length and calls the handler of
    its address space.  The kernel installs no handlers of its own, so only the default ones
    are there; a region of any other space has none.  The handlers for system memory and
    for tables are here; ports and PCI configuration space are a parameter.  Memory regions
    implement the [ByteRegion] interface of the field units. *)

From S2P Require Import Prelude Mem CString KernelApi AcpiBits AcpiField AcpiFieldProps.

Definition UACPI_STATUS_MAPPING_FAILED : Z := 1.
Definition UACPI_STATUS_NAMESPACE_NODE_DANGLING : Z := 13.
Definition UACPI_STATUS_NO_HANDLER : Z := 14.
Definition UACPI_ADDRESS_SPACE_TABLE_DATA : Z := 55834.

(** ** Plain memory accesses, io.c *)

Definition uacpi_system_memory_read (m : mem) (ptr offset width : Z) : Z + Z :=
  let ptr := ptr + offset in
  if width =? 1 then inr (ld8 m ptr)
  else if width =? 2 then inr (ld16 m ptr)
  else if width =? 4 then inr (ld32 m ptr)
  else if width =? 8 then inr (ld64 m ptr)
  else inl UACPI_STATUS_INVALID_ARGUMENT.

Definition uacpi_system_memory_write (m : mem) (ptr offset width v : Z) : Z * mem :=
  let ptr := ptr + offset in
  if width =? 1 then (UACPI_STATUS_OK, st8 m ptr v)
  else if width =? 2 then (UACPI_STATUS_OK, st16 m ptr v)
  else if width =? 4 then (UACPI_STATUS_OK, st32 m ptr v)
  else if width =? 8 then (UACPI_STATUS_OK, st64 m ptr v)
  else (UACPI_STATUS_INVALID_ARGUMENT, m).

(** ** Regions *)

(** The default handlers: [handler->callback]. *)
Inductive region_handler := handle_memory_region | handle_io_region | handle_pci_region | handle_table_data_region.

(** [uacpi_operation_region]; [rg_attached] is the flag [UACPI_OP_REGION_STATE_ATTACHED]. *)
Record uacpi_operation_region := OperationRegion {
  rg_handler : option region_handler; rg_context : Z; rg_space : Z; rg_attached : bool; rg_offset : Z; rg_length : Z }.

#[global] Instance eta_operation_region : Eta uacpi_operation_region := EtaOf _ (fun r =>
  OperationRegion (rg_handler r) (rg_context r) (rg_space r) (rg_attached r) (rg_offset r) (rg_length r)).

(** The namespace node of a region: whether it was taken out of the namespace, and the region when
    its object is one. *)
Record region_node := RegionNode { rn_dangling : bool; rn_region : option uacpi_operation_region }.

(** [uacpi_region_rw_data]: [rw_address] is also its member [offset]. *)
Record uacpi_region_rw_data := RwData { rw_context : Z; rw_value : Z; rw_address : Z; rw_byte_width : Z }.

(** [struct memory_region_ctx]: phys, virt, size. *)
Definition MEMORY_REGION_CTX : Z := 24.

(** What the region code calls: heap, mapping of physical memory, the accesses of the port
    and PCI handlers (status, value), the mutex of the global lock; [upgrade_to_opregion_lock], which
    takes the lock of the regions and the namespace's again, and the release of that lock. *)
Class RegionHost (W : Type) := {
  rh_alloc : W -> Z -> option (W * Z);
  rh_free : W -> Z -> option W;
  rh_map : W -> Z -> Z -> option (W * Z);
  rh_device_attach : region_handler -> Z -> Z -> mem -> W -> option (Z * Z * mem * W);
  rh_device_rw : region_handler -> uacpi_region_op -> uacpi_region_rw_data -> mem -> W -> option (Z * Z * mem * W);
  rh_lock : W -> Z * W;
  rh_unlock : W -> W;
  rh_upgrade : W -> Z * W;
  rh_release : W -> W }.

Section Regions.
Context {W : Type} `{RH : RegionHost W}.

(** The namespace nodes of operation regions, and the rest of the machine. *)
Record region_world := RegionWorld { rw_nodes : gmap Z region_node; rw_dev : W }.

(** [memory_region_attach]: status, context, memory and machine. *)
Definition memory_region_attach (base length : Z) (m : mem) (w : W) : option (Z * Z * mem * W) :=
  '(w, ctx) ← rh_alloc w MEMORY_REGION_CTX;
  if ctx =? 0 then Some (UACPI_STATUS_OUT_OF_MEMORY, 0, m, w)
  else
    let m := st64 m (ctx + 16) length in
    let m := st64 m ctx base in
    '(w, virt) ← rh_map w base length;
    let m := st64 m (ctx + 8) virt in
    if virt =? 0 then w ← rh_free w ctx; Some (UACPI_STATUS_MAPPING_FAILED, 0, m, w)
    else Some (UACPI_STATUS_OK, ctx, m, w).

Definition memory_region_do_rw (op : uacpi_region_op) (data : uacpi_region_rw_data) (m : mem) : Z * Z * mem :=
  let ctx := rw_context data in
  let offset := u64 (rw_address data - ld64 m ctx) in
  let virt := ld64 m (ctx + 8) in
  match op with
  | REGION_OP_READ =>
    match uacpi_system_memory_read m virt offset (rw_byte_width data) with
    | inr v => (UACPI_STATUS_OK, v, m)
    | inl ret => (ret, rw_value data, m)
    end
  | REGION_OP_WRITE =>
    let '(ret, m) := uacpi_system_memory_write m virt offset (rw_byte_width data) (rw_value data) in (ret, rw_value data, m)
  end.

Definition table_data_region_do_rw (op : uacpi_region_op) (data : uacpi_region_rw_data) (m : mem) : Z * Z * mem :=
  let addr := rw_address data in
  match op with
  | REGION_OP_READ =>
    match uacpi_system_memory_read m addr 0 (rw_byte_width data) with
    | inr v => (UACPI_STATUS_OK, v, m)
    | inl ret => (ret, rw_value data, m)
    end
  | REGION_OP_WRITE =>
    let '(ret, m) := uacpi_system_memory_write m addr 0 (rw_byte_width data) (rw_value data) in (ret, rw_value data, m)
  end.

(** [handler->callback] with [UACPI_REGION_OP_ATTACH]. *)
Definition callback_attach (h : region_handler) (base length : Z) (m : mem) (w : W) : option (Z * Z * mem * W) :=
  match h with
  | handle_memory_region => memory_region_attach base length m w
  | handle_table_data_region => Some (UACPI_STATUS_OK, 0, m, w)
  | handle_io_region | handle_pci_region => rh_device_attach h base length m w
  end.

(** [handler->callback] with a read or a write. *)
Definition callback_rw (h : region_handler) (op : uacpi_region_op) (data : uacpi_region_rw_data) (m : mem) (w : W) : option (Z * Z * mem * W) :=
  match h with
  | handle_memory_region => let '(ret, v, m) := memory_region_do_rw op data m in Some (ret, v, m, w)
  | handle_table_data_region => let '(ret, v, m) := table_data_region_do_rw op data m in Some (ret, v, m, w)
  | handle_io_region | handle_pci_region => rh_device_rw h op data m w
  end.

(** [None]: the pointer leads to no node. *)
Definition uacpi_opregion_attach (node : Z) (m : mem) (w : region_world) : option (Z * mem * region_world) :=
  n ← rw_nodes w !! node;
  if rn_dangling n then Some (UACPI_STATUS_NAMESPACE_NODE_DANGLING, m, w)
  else
    match rn_region n with
    | None => Some (UACPI_STATUS_INVALID_ARGUMENT, m, w)
    | Some region =>
      match rg_handler region with
      | None => Some (UACPI_STATUS_NO_HANDLER, m, w)
      | Some handler =>
        if rg_attached region then Some (UACPI_STATUS_OK, m, w)
        else
          '(ret, ctx, m, d) ← callback_attach handler (rg_offset region) (rg_length region) m (rw_dev w);
          if truthy ret then Some (ret, m, RegionWorld (rw_nodes w) d)
          else Some (ret, m, RegionWorld (<[node := RegionNode (rn_dangling n) (Some ((region <| rg_attached := true |>) <| rg_context := ctx |>))]> (rw_nodes w)) d)
      end
    end.

Definition uacpi_is_buffer_access_address_space (space : Z) : bool :=
  (space =? UACPI_ADDRESS_SPACE_SMBUS) || (space =? UACPI_ADDRESS_SPACE_IPMI) || (space =? UACPI_ADDRESS_SPACE_GENERIC_SERIAL_BUS) ||
  (space =? UACPI_ADDRESS_SPACE_PRM) || (space =? UACPI_ADDRESS_SPACE_FFIXEDHW).

Definition space_needs_bounds_checking (space : Z) : bool :=
  negb (uacpi_is_buffer_access_address_space space) && negb (space =? UACPI_ADDRESS_SPACE_GENERAL_PURPOSE_IO).

(** The address spaces that take the default case of the dispatcher's switch. *)
Definition takes_default_case (space : Z) : bool :=
  space_needs_bounds_checking space && negb (space =? UACPI_ADDRESS_SPACE_PCC).

(** [uacpi_dispatch_opregion_io].  The four spaces that have a handler all take the default case
    of the switch, where the data is an integer; the other cases, which nothing reaches without
    a handler, are outside the model ([None]). *)
Definition uacpi_dispatch_opregion_io (node : Z) (field : field_info) (offset : Z) (op : uacpi_region_op) (data : io_data)
    (m : mem) (w : region_world) : option (Z * mem * region_world) :=
  let '(ret, d) := rh_upgrade (rw_dev w) in
  let w := RegionWorld (rw_nodes w) d in
  if truthy ret then Some (ret, m, w)
  else
    let out ret m w := Some (ret, m, RegionWorld (rw_nodes w) (rh_release (rw_dev w))) in
    '(ret, m, w) ← uacpi_opregion_attach node m w;
    if truthy ret then out ret m w
    else
      n ← rw_nodes w !! node;
      match rn_region n with
      | None => out UACPI_STATUS_INVALID_ARGUMENT m w
      | Some region =>
        let abs_offset := u64 (rg_offset region + offset) in
        let offset_end := u64 (offset + access_width_bytes field) in
        let is_oob := space_needs_bounds_checking (rg_space region) && ((rg_length region <? offset_end) || (abs_offset <? offset)) in
        if is_oob then out UACPI_STATUS_AML_OUT_OF_BOUNDS_INDEX m w
        else
          match rg_handler region, data, takes_default_case (rg_space region) with
          | Some handler, IoInteger p, true =>
            '(ret, v, m, d) ← callback_rw handler op (RwData (rg_context region) (ld64 m p) abs_offset (access_width_bytes field)) m (rw_dev w);
            let w := RegionWorld (rw_nodes w) d in
            if truthy ret then out ret m w
            else match op with
                 | REGION_OP_READ => out ret (st64 m p v) w
                 | REGION_OP_WRITE => out ret m w
                 end
          | _, _, _ => None
          end
      end.

#[global] Instance region_field_host : FieldHost Z region_world := {
  region_space w r := n ← rw_nodes w !! r; rg_space <$> rn_region n;
  opregion_io r := uacpi_dispatch_opregion_io r;
  acquire_lock w := let '(ret, d) := rh_lock (rw_dev w) in (ret, RegionWorld (rw_nodes w) d);
  release_lock w := RegionWorld (rw_nodes w) (rh_unlock (rw_dev w));
  buffer_alloc w size := '(d, p) ← rh_alloc (rw_dev w) size; Some (RegionWorld (rw_nodes w) d, p);
  buffer_free w p := d ← rh_free (rw_dev w) p; Some (RegionWorld (rw_nodes w) d) }.
End Regions.
Arguments region_world : clear implicits.

(** ** Memory regions keep bytes *)

Lemma ldn_offset n m a off : ldn n (fun x => m (a + x)) off = ldn n m (a + off).
Proof.
  revert off. induction n as [|n IH]; intros off; [done|].
  change (u8 (m (a + off)) + 256 * ldn n (fun x => m (a + x)) (off + 1) = u8 (m (a + off)) + 256 * ldn n m (a + off + 1)).
  rewrite IH. do 3 f_equal. lia.
Qed.

Lemma stn_shift n m a off v x : stn n m (a + off) v (a + x) = stn n (fun x => m (a + x)) off v x.
Proof.
  revert m off v. induction n as [|n IH]; intros m off v; [done|].
  change (stn n (st8 m (a + off) v) (a + off + 1) (v / 256) (a + x) = stn n (st8 (fun x => m (a + x)) off v) (off + 1) (v / 256) x).
  rewrite <- Z.add_assoc, IH. assert (forall k (m1 m2 : mem) o u, (forall y, m1 y = m2 y) -> stn k m1 o u x = stn k m2 o u x) as Hext.
  { clear. induction k as [|k IHk]; intros m1 m2 o u H; [apply H|]. apply (IHk (st8 m1 o u) (st8 m2 o u)). intros y. unfold st8. by rewrite H. }
  apply Hext. intros y. unfold st8. by replace (a + y =? a + off) with (y =? off) by lia.
Qed.

Lemma ld8_stn_ext n (m m' : mem) a v x : m' x = m x -> ld8 (stn n m' a v) x = ld8 (stn n m a v) x.
Proof.
  intros H. unfold ld8. f_equal. revert m m' a v H. induction n as [|n IH]; intros m m' a v H; [done|].
  change (stn n (st8 m' a v) (a + 1) (v / 256) x = stn n (st8 m a v) (a + 1) (v / 256) x). apply IH. unfold st8. by rewrite H.
Qed.

Lemma memory_read_width m ptr off wd : width_ok wd -> uacpi_system_memory_read m ptr off wd = inr (ldn (Z.to_nat wd) m (ptr + off)).
Proof.
  unfold uacpi_system_memory_read. intros [->|[->|[->| ->]]]; try done.
  change (inr (A := Z) (ld8 m (ptr + off)) = inr (ldn 1 m (ptr + off))). by rewrite ld8_ldn.
Qed.

Lemma memory_write_width m ptr off wd v : width_ok wd -> uacpi_system_memory_write m ptr off wd v = (UACPI_STATUS_OK, stn (Z.to_nat wd) m (ptr + off) v).
Proof. unfold uacpi_system_memory_write. by intros [->|[->|[->| ->]]]. Qed.

Section MemoryRegion.
Context {W : Type} `{RH : RegionHost W} (node ctx phys virt len : Z) (ready : W -> Prop).

(** What the rest of the machine does: the locks are granted, and before the region is attached (in
    a state that is [ready]) there is memory for its context and the mapping succeeds. *)
Record memory_host : Prop := {
  mh_alloc d : ready d -> exists d1 d2, rh_alloc d MEMORY_REGION_CTX = Some (d1, ctx) /\ rh_map d1 phys len = Some (d2, virt);
  mh_lock d : exists d', rh_lock d = (UACPI_STATUS_OK, d') /\ (ready d -> ready d');
  mh_unlock d : ready d -> ready (rh_unlock d);
  mh_upgrade d : exists d', rh_upgrade d = (UACPI_STATUS_OK, d') /\ (ready d -> ready d');
  mh_release d : ready d -> ready (rh_release d) }.

(** The region, its context and its mapping lie in the address space and apart. *)
Record memory_placed : Prop := {
  mp_phys : 0 <= phys < 2 ^ 64;
  mp_length : 0 <= len;
  mp_end : phys + len <= 2 ^ 64;
  mp_context : 0 < ctx;
  mp_mapping : 0 < virt < 2 ^ 64;
  mp_apart : ctx + MEMORY_REGION_CTX <= virt \/ virt + len <= ctx }.
Context (Hmh : memory_host) (Hmp : memory_placed).

Definition mr_private (x : Z) : Prop := (x < virt \/ virt + len <= x) /\ (x < ctx \/ ctx + MEMORY_REGION_CTX <= x).

Definition memory_region (context : Z) (attached : bool) : region_node :=
  RegionNode false (Some (OperationRegion (Some handle_memory_region) context UACPI_ADDRESS_SPACE_SYSTEM_MEMORY attached phys len)).

(** The region is attached and its context is as [memory_region_attach] leaves it. *)
Definition mr_attached (m : mem) (w : region_world W) : Prop :=
  rw_nodes w !! node = Some (memory_region ctx true) /\ ld64 m ctx = phys /\ ld64 m (ctx + 8) = virt.
(** Or its first use will attach it. *)
Definition mr_ok (m : mem) (w : region_world W) : Prop :=
  mr_attached m w \/ (exists c, rw_nodes w !! node = Some (memory_region c false)) /\ ready (rw_dev w).

Definition mr_content (m : mem) (w : region_world W) : mem := fun x => m (virt + x).

Lemma ldn_ext8 n m m' a : (forall x, a <= x < a + Z.of_nat n -> ld8 m' x = ld8 m x) -> ldn n m' a = ldn n m a.
Proof.
  intros H. apply Z.bits_inj'. intros i Hi. rewrite !ldn_bit by lia. destruct (i <? 8 * Z.of_nat n) eqn:E; [|done]. bool_to_prop. cbn [andb].
  apply mbit_ext, H. Z.div_mod_to_equations. lia.
Qed.

Lemma mr_attached_keep m m' w : mr_attached m w -> (forall x, ctx <= x < ctx + 16 -> ld8 m' x = ld8 m x) -> mr_attached m' w.
Proof.
  intros (H1 & H2 & H3) H. split; [done|split].
  - rewrite <- H2. apply ldn_ext8. intros x Hx. apply H. lia.
  - rewrite <- H3. apply ldn_ext8. intros x Hx. apply H. lia.
Qed.

Lemma mr_ok_keep m m' w : mr_ok m w -> (forall x, ctx <= x < ctx + 16 -> ld8 m' x = ld8 m x) -> mr_ok m' w.
Proof. intros [Ha|Hr] H; [left; by eapply mr_attached_keep|by right]. Qed.

(** The locks do not disturb the region. *)
Lemma mr_ok_dev m w d : mr_ok m w -> (ready (rw_dev w) -> ready d) -> mr_ok m (RegionWorld (rw_nodes w) d).
Proof. intros [Ha|[Hn Hr]] Hd; [by left|right]. split; [done|by apply Hd]. Qed.

(** Attaching the region writes its context and nothing else. *)
Lemma mr_attach m w : mr_ok m w ->
  exists m' w', uacpi_opregion_attach node m w = Some (UACPI_STATUS_OK, m', w') /\ mr_attached m' w' /\
    (forall x, x < ctx \/ ctx + MEMORY_REGION_CTX <= x -> m' x = m x).
Proof using Hmh Hmp.
  unfold uacpi_opregion_attach, MEMORY_REGION_CTX. destruct Hmp as [Hph Hln Hen Hcx [Hv0 Hv1] _]. intros [Ha|[[c Hn] Hr]].
  - exists m, w. pose proof Ha as [-> _]. done.
  - rewrite Hn. cbn [mbind option_bind memory_region rn_dangling rn_region rg_handler rg_attached callback_attach rg_offset rg_length]. unfold memory_region_attach.
    destruct (mh_alloc Hmh (rw_dev w) Hr) as (d1 & d2 & -> & Hmap). cbn [mbind option_bind]. rewrite (proj2 (Z.eqb_neq ctx 0)) by lia. rewrite Hmap. cbn [mbind option_bind].
    rewrite (proj2 (Z.eqb_neq virt 0)) by lia. cbn [mbind option_bind]. eexists _, _. split; [reflexivity|]. split; [split; [apply lookup_insert_eq|split]|].
    + rewrite ldn_stn_disj by lia. apply ld64_st64_same. lia.
    + apply ld64_st64_same. lia.
    + intros x Hx. rewrite !stn_out by lia. done.
Qed.

(** The region after it has been attached, in the access: what the dispatcher goes on to do. *)
Lemma mr_dispatch info off op p m w : mr_ok m w -> width_ok (access_width_bytes info) -> 0 <= off < 2 ^ 32 -> len <= 2 ^ 32 ->
  exists m1 w1, mr_attached m1 w1 /\ (forall x, x < ctx \/ ctx + MEMORY_REGION_CTX <= x -> m1 x = m x) /\
    uacpi_dispatch_opregion_io node info off op (IoInteger p) m w =
      if off + access_width_bytes info <=? len then
        Some (UACPI_STATUS_OK,
              match op with
              | REGION_OP_READ => st64 m1 p (ldn (Z.to_nat (access_width_bytes info)) m1 (virt + off))
              | REGION_OP_WRITE => stn (Z.to_nat (access_width_bytes info)) m1 (virt + off) (ld64 m1 p)
              end, w1)
      else Some (UACPI_STATUS_AML_OUT_OF_BOUNDS_INDEX, m1, w1).
Proof using Hmh Hmp.
  intros Hok Hwd Ho Hl. assert (0 < access_width_bytes info <= 8) by (destruct Hwd as [->|[->|[->| ->]]]; lia). pose proof Hmp as [Hph Hln Hen _ _ _].
  unfold uacpi_dispatch_opregion_io. destruct (mh_upgrade Hmh (rw_dev w)) as (d & -> & Hd). change (truthy UACPI_STATUS_OK) with false. cbv iota zeta.
  destruct (mr_attach m (RegionWorld (rw_nodes w) d)) as (m1 & w1 & -> & Ha & Hm1); [by apply mr_ok_dev|]. cbn [mbind option_bind]. change (truthy UACPI_STATUS_OK) with false. cbv iota.
  pose proof Ha as (Hn & Hp & Hv). rewrite Hn. cbn [mbind option_bind memory_region rn_region rg_handler rg_space rg_offset rg_length rg_context].
  exists m1, (RegionWorld (rw_nodes w1) (rh_release (rw_dev w1))). split; [exact Ha|]. split; [done|].
  change (space_needs_bounds_checking UACPI_ADDRESS_SPACE_SYSTEM_MEMORY) with true. rewrite (u64_small (off + access_width_bytes info)) by lia. cbn [andb].
  destruct (Z.leb_spec (off + access_width_bytes info) len) as [Hin|Hout]; [|by replace (len <? off + access_width_bytes info) with true by lia].
  rewrite (u64_small (phys + off)) by lia. replace (len <? off + access_width_bytes info) with false by lia. replace (phys + off <? off) with false by lia. cbn [orb].
  unfold callback_rw, memory_region_do_rw. cbn [rw_context rw_address rw_byte_width rw_value]. rewrite Hp, Hv.
  replace (phys + off - phys) with off by lia. rewrite u64_small by lia. destruct op.
  - rewrite memory_read_width by done. done.
  - rewrite memory_write_width by done. done.
Qed.

#[global] Instance memory_byte_region : ByteRegion region_field_host node len mr_private mr_ok mr_content.
Proof using Hmh Hmp.
  pose proof Hmp as [Hph Hln Hen Hcx Hvx Hap]. unfold MEMORY_REGION_CTX in *.
  assert (Hctx : forall p, (forall i, 0 <= i < 8 -> mr_private (p + i)) -> forall x, (virt <= x < virt + len \/ ctx <= x < ctx + 24) -> x < p \/ p + Z.of_nat 8 <= x).
  { intros p Hp x Hx. destruct (Z_lt_ge_dec x p); [by left|]. destruct (Z_lt_ge_dec x (p + 8)); [|right; lia]. specialize (Hp (x - p) ltac:(lia)). unfold mr_private, MEMORY_REGION_CTX in Hp. lia. }
  split.
  - intros m w Hok. exists UACPI_ADDRESS_SPACE_SYSTEM_MEMORY. split; [|by left]. cbn [region_space region_field_host]. by destruct Hok as [[-> _]|[[c ->] _]].
  - intros m m' w Hok Hm. split.
    + apply (mr_ok_keep m); [done|]. intros x Hx. apply Hm. unfold mr_private, MEMORY_REGION_CTX. lia.
    + intros x Hx. unfold mr_content. apply Hm. unfold mr_private. lia.
  - intros info off p m w Hok Hwd Ho He Hl Hp. assert (0 < access_width_bytes info <= 8) by (destruct Hwd as [->|[->|[->| ->]]]; lia).
    destruct (mr_dispatch info off REGION_OP_READ p m w Hok Hwd ltac:(lia) Hl) as (m1 & w1 & Ha & Hm1 & E). rewrite (proj2 (Z.leb_le _ _) He) in E. unfold MEMORY_REGION_CTX in Hm1. do 2 eexists. cbn [opregion_io region_field_host].
    split; [exact E|]. specialize (Hctx p Hp). split_and_all.
    + left. apply (mr_attached_keep m1); [done|]. intros x Hx. unfold ld8. rewrite stn_out; [done|]. apply Hctx. lia.
    + intros x [Hx1 Hx2]. unfold mr_content. rewrite ldn_offset. rewrite (ldn_ext (Z.to_nat (access_width_bytes info)) m m1) by (intros y Hy; apply Hm1; lia).
      apply ld8_stn_ext. by apply Hm1.
    + intros x Hx. unfold mr_content, ld8. rewrite stn_out by (apply Hctx; lia). f_equal. apply Hm1. lia.
  - intros info off p m w Hok Hwd Ho He Hl Hp. assert (0 < access_width_bytes info <= 8) by (destruct Hwd as [->|[->|[->| ->]]]; lia).
    destruct (mr_dispatch info off REGION_OP_WRITE p m w Hok Hwd ltac:(lia) Hl) as (m1 & w1 & Ha & Hm1 & E). rewrite (proj2 (Z.leb_le _ _) He) in E. unfold MEMORY_REGION_CTX in Hm1. do 2 eexists. cbn [opregion_io region_field_host].
    split; [exact E|]. specialize (Hctx p Hp). split_and_all.
    + left. apply (mr_attached_keep m1); [done|]. intros x Hx. unfold ld8. rewrite stn_out; [done|]. lia.
    + intros x [Hx1 Hx2]. unfold mr_private, MEMORY_REGION_CTX in *. unfold ld8. rewrite stn_out by lia. f_equal. apply Hm1. lia.
    + intros x Hx. unfold mr_content. rewrite (ldn_ext 8 m m1).
      * transitivity (ld8 (stn (Z.to_nat (access_width_bytes info)) (fun x => m1 (virt + x)) off (ld64 m p)) x); [unfold ld8; by rewrite stn_shift|]. apply ld8_stn_ext, Hm1. lia.
      * intros y Hy. apply Hm1. destruct (Hp (y - p) ltac:(lia)) as [_ Hy2]. unfold MEMORY_REGION_CTX in Hy2. lia.
  - intros m w Hok. cbn [acquire_lock region_field_host]. destruct (mh_lock Hmh (rw_dev w)) as (d & -> & Hd). eexists. split; [reflexivity|]. split; [by apply mr_ok_dev|done].
  - intros m w Hok. cbn [release_lock region_field_host]. split; [|done]. apply mr_ok_dev; [done|]. apply (mh_unlock Hmh).
Qed.
End MemoryRegion.

(** ** Fields of regions *)

(** The round trip over any region that keeps bytes. *)
Lemma unit_write_then_read {R W} {FH : FieldHost R W} (r : R) n private ok content
    {BR : ByteRegion FH r n private ok content} g src size dst dsize sp m w :
  unit_ok g n -> 0 <= update_rule g <= 2 -> ok m w ->
  area private src size -> area private dst dsize -> area private (sp - 8) 8 ->
  (src + size <= sp - 8 \/ sp <= src) -> (dst + dsize <= sp - 8 \/ sp <= dst) ->
  0 <= size < 2 ^ 32 -> fu_bit_length g <= 8 * dsize < 2 ^ 32 ->
  exists m1 w1 m2 w2,
    uacpi_write_field_unit (Field g (KIND_NORMAL r)) sp src size m w = Some (UACPI_STATUS_OK, None, m1, w1) /\
    uacpi_read_field_unit (Field g (KIND_NORMAL r)) sp dst dsize m1 w1 = Some (UACPI_STATUS_OK, None, m2, w2) /\
    ldn (Z.to_nat dsize) m2 dst = ldn (Z.to_nat size) m src mod 2 ^ fu_bit_length g /\
    (forall k, 0 <= k < 8 * n -> k < first_bit g \/ first_bit g + fu_bit_length g <= k ->
       mbit (content m2 w2) k =
         if (8 * byte_offset g <=? k) && (k <? 8 * byte_offset g + covered g) then rule_bit g (content m w) k else mbit (content m w) k) /\
    (forall x, private x -> x < dst \/ dst + dsize <= x -> x < sp - 8 \/ sp <= x -> ld8 m2 x = ld8 m x).
Proof.
  intros Hg Hru Hok Hs Hd Hp Ho1 Ho2 Hsz Hdz.
  destruct (write_unit_spec r n private ok content g Hg Hru (content m w) src size sp m w) as (m1 & w1 & Hw & Hok1 & Hk1 & Hf1); [done..|].
  destruct (read_unit_spec r n private ok content g Hg (content m1 w1) dst dsize sp m1 w1) as (m2 & w2 & Hr & Hh & Hb & Hf2);
    [done|done|done|pose proof (uo_length _ _ Hg); lia|by split|].
  exists m1, w1, m2, w2. pose proof (covered_spec g n Hg) as [Hcov [z Hz]]. pose proof Hg as [Hwd Hfi Hl Hof He Hn].
  assert (H8 : covered g = 8 * (covered g / 8)).
  { apply Z.div_exact; [lia|]. rewrite Hz. unfold word_bits. replace (z * (8 * access_width_bytes g)) with (z * access_width_bytes g * 8) by lia. apply Z.mod_mul. lia. }
  assert (Hfb : 0 <= first_bit g /\ first_bit g + fu_bit_length g <= 8 * n) by (unfold first_bit; lia).
  split_and_all; [done|done| | |].
  - apply Z.bits_inj'. intros i Hi. rewrite ldn_bit by lia. rewrite Z2Nat.id by lia. destruct (Z_lt_ge_dec i (fu_bit_length g)).
    + replace (i <? 8 * dsize) with true by lia. rewrite Z.mod_pow2_bits_low, ldn_bit, Z2Nat.id by lia. cbn [andb].
      rewrite Hb, Hk1 by lia. replace (i <? fu_bit_length g) with true by lia. cbn [andb]. unfold written. replace (_ && (_ <? first_bit g + fu_bit_length g)) with true by lia.
      by replace (first_bit g + i - first_bit g) with i by lia.
    + rewrite Z.mod_pow2_bits_high by lia. destruct (i <? 8 * dsize) eqn:E; [|done]. bool_to_prop. cbn [andb]. rewrite Hb by lia.
      by replace (i <? fu_bit_length g) with false by lia.
  - intros k Hk Hkf. rewrite (holds_bit n ok content (content m1 w1)), Hk1 by done. unfold written.
    replace ((first_bit g <=? k) && (k <? first_bit g + fu_bit_length g)) with false by lia.
    by replace (8 * (byte_offset g + covered g / 8)) with (8 * byte_offset g + covered g) by lia.
  - intros x Hx Hx1 Hx2. rewrite Hf2 by done. by apply Hf1.
Qed.

(** C37: a field unit of a system memory region can be written and read back, whatever its
    offset, length, access width and lock rule, as long as the words it touches lie in the
    region: after writing the [size] bytes at [src], reading the field gives their number cut to
    the length of the field and filled up with zeroes.  In the region the bits of the field are
    the new ones; the other bits of the words the field touches are as the update rule says
    (kept, ones or zeroes); all other words are as they were.  Both loops end, the region is
    attached on its first use, and outside the region and its context only the destination and
    the local of the functions change in memory.  An access that would leave the region is
    refused as out of bounds, and nothing but the region's context changes.  The locks are
    granted, and a region that is not attached yet finds memory for its context and is mapped
    ([memory_host]). *)
Theorem field_unit_write_then_read {W} {RH : RegionHost W} node ctx phys virt len ready g src size dst dsize sp m w :
  memory_host ctx phys virt len ready -> memory_placed ctx phys virt len ->
  unit_ok g len -> 0 <= update_rule g <= 2 -> mr_ok node ctx phys virt len ready m w ->
  area (mr_private ctx virt len) src size -> area (mr_private ctx virt len) dst dsize -> area (mr_private ctx virt len) (sp - 8) 8 ->
  (src + size <= sp - 8 \/ sp <= src) -> (dst + dsize <= sp - 8 \/ sp <= dst) ->
  0 <= size < 2 ^ 32 -> fu_bit_length g <= 8 * dsize < 2 ^ 32 ->
  (exists m1 w1 m2 w2,
    uacpi_write_field_unit (Field g (KIND_NORMAL node)) sp src size m w = Some (UACPI_STATUS_OK, None, m1, w1) /\
    uacpi_read_field_unit (Field g (KIND_NORMAL node)) sp dst dsize m1 w1 = Some (UACPI_STATUS_OK, None, m2, w2) /\
    ldn (Z.to_nat dsize) m2 dst = ldn (Z.to_nat size) m src mod 2 ^ fu_bit_length g /\
    (forall k, 0 <= k < 8 * len -> k < first_bit g \/ first_bit g + fu_bit_length g <= k ->
       mbit (mr_content virt m2 w2) k =
         if (8 * byte_offset g <=? k) && (k <? 8 * byte_offset g + covered g) then rule_bit g (mr_content virt m w) k else mbit (mr_content virt m w) k) /\
    (forall x, mr_private ctx virt len x -> x < dst \/ dst + dsize <= x -> x < sp - 8 \/ sp <= x -> ld8 m2 x = ld8 m x)) /\
  (forall info off op p, width_ok (access_width_bytes info) -> 0 <= off < 2 ^ 32 -> len < off + access_width_bytes info ->
    exists m' w', uacpi_dispatch_opregion_io node info off op (IoInteger p) m w = Some (UACPI_STATUS_AML_OUT_OF_BOUNDS_INDEX, m', w') /\
      forall x, x < ctx \/ ctx + MEMORY_REGION_CTX <= x -> m' x = m x).
Proof.
  intros Hh Hp Hg Hru Hok Hs Hd Hsp Ho1 Ho2 Hsz Hdz. split.
  - by apply (unit_write_then_read node len (mr_private ctx virt len) (mr_ok node ctx phys virt len ready) (mr_content virt) (BR := memory_byte_region node ctx phys virt len ready Hh Hp)).
  - intros info off op p Hwd Hoff Hout. pose proof (uo_region _ _ Hg).
    destruct (mr_dispatch node ctx phys virt len ready Hh Hp info off op p m w Hok Hwd Hoff ltac:(lia)) as (m1 & w1 & _ & Hm1 & E).
    rewrite (proj2 (Z.leb_gt _ _) Hout) in E. by exists m1, w1.
Qed.

(** A machine with nothing but memory, where all locks are granted. *)
Definition no_devices : RegionHost unit := {|
  rh_alloc w _ := Some (w, 512); rh_free w _ := Some w; rh_map w _ _ := Some (w, 8192);
  rh_device_attach _ _ _ m w := Some (UACPI_STATUS_UNIMPLEMENTED, 0, m, w);
  rh_device_rw _ _ _ m w := Some (UACPI_STATUS_UNIMPLEMENTED, 0, m, w);
  rh_lock w := (UACPI_STATUS_OK, w); rh_unlock w := w; rh_upgrade w := (UACPI_STATUS_OK, w); rh_release w := w |}.

(** 16 bytes of physical memory at 4096, to be mapped at 8192; the context of the region is to lie at 512. *)
Definition demo_region : gmap Z region_node := {[ 7 := memory_region 4096 16 0 false ]}.
Definition demo_mem : mem := fun x => if (8192 <=? x) && (x <? 8208) then 170 else if x =? 300 then 255 else 0.

Lemma field_unit_write_then_read_witness :
  let FH := @region_field_host unit no_devices in
  let f := Field (FieldInfo 2 13 0 5 2 0 0 UACPI_UPDATE_RULE_WRITE_AS_ONES true) (KIND_NORMAL 7) in
  exists m1 w1 m2 w2,
    uacpi_write_field_unit f 1000 300 2 demo_mem (RegionWorld demo_region tt) = Some (UACPI_STATUS_OK, None, m1, w1) /\
    uacpi_read_field_unit f 1000 400 8 m1 w1 = Some (UACPI_STATUS_OK, None, m2, w2) /\
    ldn 8 m2 400 = 255 /\ mbit (mr_content 8192 m2 w2) 20 = true /\ mbit (mr_content 8192 m2 w2) 10 = false.
Proof.
  cbv zeta.
  destruct (field_unit_write_then_read (RH := no_devices) 7 512 4096 8192 16 (fun _ => True)
    (FieldInfo 2 13 0 5 2 0 0 UACPI_UPDATE_RULE_WRITE_AS_ONES true) 300 2 400 8 1000 demo_mem (RegionWorld demo_region tt))
    as ((m1 & w1 & m2 & w2 & H1 & H2 & H3 & H4 & _) & _).
  - split; try done; intros d; [intros _; by eexists _, _|by eexists|by eexists].
  - split; try done; try lia. left. done.
  - split; try done; try (vm_compute; split; congruence). right. left. done.
  - done.
  - right. split; [by eexists|exact I].
  - intros x Hx. unfold mr_private, MEMORY_REGION_CTX. lia.
  - intros x Hx. unfold mr_private, MEMORY_REGION_CTX. lia.
  - intros x Hx. unfold mr_private, MEMORY_REGION_CTX. lia.
  - left. done.
  - left. done.
  - done.
  - done.
  - exists m1, w1, m2, w2. split; [exact H1|]. split; [exact H2|]. split; [exact H3|]. split.
    + rewrite H4; [vm_compute; reflexivity|lia|left; reflexivity].
    + rewrite H4; [vm_compute; reflexivity|lia|left; reflexivity].
Defined.
