(* ===== verification/AcpiGas.v ===== *)
(** * Generic addresses of uACPI, [src/src/uacpi/io.c]

    A register of the platform is described by a generic address structure: an address space,
    an address, a width and an access size.  It is validated, mapped, and then read and
    written in accesses of one width.  [GasHost] is what this code calls: mapping of memory and
    ports, and the volatile accesses. *)

From S2P Require Import Prelude Mem CString Hw KernelApi AcpiBits AcpiField AcpiFieldProps AcpiRegion.

Definition UACPI_STATUS_NOT_FOUND : Z := 6.

(** [struct acpi_gas], 12 bytes. *)
Record acpi_gas := Gas { address_space_id : Z; register_bit_width : Z; register_bit_offset : Z; access_size : Z; address : Z }.

(** [uacpi_mapped_gas]; [mg_space] stands for the function pointers. *)
Record uacpi_mapped_gas := MappedGas { mapping : Z; access_bit_width : Z; total_bit_width : Z; bit_offset : Z; mg_space : Z }.

Class GasHost (W : Type) := {
  (** [uacpi_kernel_map], 0 when it fails; [uacpi_kernel_io_map], a status or a handle *)
  gh_map : Z -> Z -> io W Z;
  gh_unmap : Z -> Z -> io W unit;
  gh_io_map : Z -> Z -> io W (Z + Z);
  gh_io_unmap : Z -> io W unit }.

(** ** Access widths *)

(** One plus the position of the highest bit that is set, or 0. *)
Definition uacpi_bit_scan_backward (value : Z) : Z := if value =? 0 then 0 else Z.log2 value + 1.

(** The loop that backs off to a power of two the address is aligned to; 8 always is. *)
Fixpoint back_off (fuel : nat) (addr width : Z) : Z :=
  match fuel with
  | O => width
  | S f => if truthy (addr &&& u64 (width / 8 - 1)) then back_off f addr (width / 2) else width
  end.

Definition gas_get_access_bit_width (gas : acpi_gas) : Z :=
  let w :=
    if (register_bit_offset gas =? 0) && negb (truthy (register_bit_width gas &&& (register_bit_width gas - 1))) &&
       negb (truthy (register_bit_width gas &&& 7))
    then register_bit_width gas
    else if truthy (access_size gas) then u8 (access_size gas * 8)
    else
      let msb := uacpi_bit_scan_backward (register_bit_offset gas + register_bit_width gas - 1) in
      let w := u8 (1 <<< msb) in
      if w <=? 8 then 8 else back_off 8 (address gas) w in
  Z.min w (if address_space_id gas =? UACPI_ADDRESS_SPACE_SYSTEM_IO then 32 else 64).

(** [gas_validate]: a status, or the access width and the total width. *)
Definition gas_validate (gas : option acpi_gas) : Z + (Z * Z) :=
  match gas with
  | None => inl UACPI_STATUS_INVALID_ARGUMENT
  | Some gas =>
    if negb (truthy (address gas)) then inl UACPI_STATUS_NOT_FOUND
    else if negb (address_space_id gas =? UACPI_ADDRESS_SPACE_SYSTEM_IO) && negb (address_space_id gas =? UACPI_ADDRESS_SPACE_SYSTEM_MEMORY)
    then inl UACPI_STATUS_UNIMPLEMENTED
    else if 4 <? access_size gas then inl UACPI_STATUS_UNIMPLEMENTED
    else
      let w := gas_get_access_bit_width gas in
      let total_width := register_bit_offset gas + register_bit_width gas in
      let aligned_width := u64 (total_width + u64 (w - 1)) &&& u64 (Z.lnot (u64 (w - 1))) in
      if 64 <? aligned_width then inl UACPI_STATUS_UNIMPLEMENTED
      else inr (w, u8 total_width)
  end.

Section Gas.
Context {W : Type} `{!PortIo W} `{!Mmio W} `{!GasHost W}.

(** ** Single accesses *)

(** [uacpi_system_memory_read] and [uacpi_system_memory_write] on device memory. *)
Definition device_memory_read (ptr offset width : Z) : io W (Z + Z) :=
  if (width =? 1) || (width =? 2) || (width =? 4) || (width =? 8)
  then v ← mmio_ld width (ptr + offset); mret (inr v)
  else mret (inl UACPI_STATUS_INVALID_ARGUMENT).

Definition device_memory_write (ptr offset width v : Z) : io W Z :=
  if (width =? 1) || (width =? 2) || (width =? 4) || (width =? 8)
  then mmio_st width (ptr + offset) (v mod 2 ^ (8 * width));; mret UACPI_STATUS_OK
  else mret UACPI_STATUS_INVALID_ARGUMENT.

(** The result is in [union integer_data data = { .qword = 0 }]. *)
Definition uacpi_system_io_read (handle offset width : Z) : io W (Z + Z) :=
  let data : mem := fun _ => 0 in
  '(ret, data) ← (if width =? 1 then uacpi_kernel_io_read8 data handle offset 0
                  else if width =? 2 then uacpi_kernel_io_read16 data handle offset 0
                  else if width =? 4 then uacpi_kernel_io_read32 data handle offset 0
                  else mret (UACPI_STATUS_INVALID_ARGUMENT, data));
  if truthy ret then mret (inl ret) else mret (inr (ld64 data 0)).

Definition uacpi_system_io_write (handle offset width v : Z) : io W Z :=
  if width =? 1 then uacpi_kernel_io_write8 handle offset (u8 v)
  else if width =? 2 then uacpi_kernel_io_write16 handle offset (u16 v)
  else if width =? 4 then uacpi_kernel_io_write32 handle offset (u32 v)
  else mret UACPI_STATUS_INVALID_ARGUMENT.

(** [gas->read], [gas->write]: the mapping, offset, width in bytes, value. *)
Definition gas_rd : Type := Z -> Z -> Z -> io W (Z + Z).
Definition gas_wr : Type := Z -> Z -> Z -> Z -> io W Z.

Definition read_of (gas : uacpi_mapped_gas) : gas_rd :=
  if mg_space gas =? UACPI_ADDRESS_SPACE_SYSTEM_MEMORY then device_memory_read else uacpi_system_io_read.
Definition write_of (gas : uacpi_mapped_gas) : gas_wr :=
  if mg_space gas =? UACPI_ADDRESS_SPACE_SYSTEM_MEMORY then device_memory_write else uacpi_system_io_write.

(** ** Registers *)

Definition gas_mask (gas : uacpi_mapped_gas) : Z :=
  if access_bit_width gas / 8 <? 8 then u64 (Z.lnot (u64 ((2 ^ 64 - 1) <<< access_bit_width gas))) else 2 ^ 64 - 1.

(** The loop of [uacpi_gas_read_mapped]. *)
Fixpoint gas_read_loop (fuel : nat) (rd : gas_rd) (gas : uacpi_mapped_gas) (bit_offset bits_left index offset out_value : Z) : io W (option (Z + Z)) :=
  match fuel with
  | O => mret None
  | S f =>
    if truthy bits_left then
      r ← (if access_bit_width gas <=? bit_offset then mret (inr (0, bit_offset - access_bit_width gas))
           else v ← rd (mapping gas) offset (access_bit_width gas / 8);
                mret (match v with inl ret => inl ret | inr data => inr (data, bit_offset) end));
      match r with
      | inl ret => mret (Some (inl ret))
      | inr (data, bit_offset) =>
        gas_read_loop f rd gas bit_offset (bits_left - Z.min bits_left (access_bit_width gas)) (u8 (index + 1)) (offset + access_bit_width gas / 8)
          (out_value ||| u64 ((data &&& gas_mask gas) <<< (index * access_bit_width gas)))
      end
    else mret (Some (inr out_value))
  end.

(** The loop of [uacpi_gas_write_mapped]. *)
Fixpoint gas_write_loop (fuel : nat) (wr : gas_wr) (gas : uacpi_mapped_gas) (bit_offset bits_left index offset in_value : Z) : io W (option Z) :=
  match fuel with
  | O => mret None
  | S f =>
    if truthy bits_left then
      let data := (in_value >>> (index * access_bit_width gas)) &&& gas_mask gas in
      r ← (if access_bit_width gas <=? bit_offset then mret (inr (bit_offset - access_bit_width gas))
           else ret ← wr (mapping gas) offset (access_bit_width gas / 8) data;
                mret (if truthy ret then inl ret else inr bit_offset));
      match r with
      | inl ret => mret (Some ret)
      | inr bit_offset =>
        gas_write_loop f wr gas bit_offset (bits_left - Z.min bits_left (access_bit_width gas)) (u8 (index + 1)) (offset + access_bit_width gas / 8) in_value
      end
    else mret (Some UACPI_STATUS_OK)
  end.

(** At most 255 bits are left at first, and a round takes eight or more. *)
Definition GAS_ROUNDS : nat := 33.

Definition uacpi_gas_read_mapped (gas : uacpi_mapped_gas) : io W (option (Z + Z)) :=
  gas_read_loop GAS_ROUNDS (read_of gas) gas (bit_offset gas) (total_bit_width gas) 0 0 0.

Definition uacpi_gas_write_mapped (gas : uacpi_mapped_gas) (in_value : Z) : io W (option Z) :=
  gas_write_loop GAS_ROUNDS (write_of gas) gas (bit_offset gas) (total_bit_width gas) 0 0 in_value.

Definition uacpi_map_gas_noalloc (gas : option acpi_gas) : io W (Z + uacpi_mapped_gas) :=
  match gas_validate gas, gas with
  | inr (access_bit_width, total_width), Some gas =>
    if address_space_id gas =? UACPI_ADDRESS_SPACE_SYSTEM_MEMORY then
      p ← gh_map (address gas) (total_width / 8);
      if p =? 0 then mret (inl UACPI_STATUS_MAPPING_FAILED)
      else mret (inr (MappedGas p access_bit_width total_width (register_bit_offset gas) UACPI_ADDRESS_SPACE_SYSTEM_MEMORY))
    else
      r ← gh_io_map (address gas) (total_width / 8);
      mret (match r with
            | inl ret => inl ret
            | inr p => inr (MappedGas p access_bit_width total_width (register_bit_offset gas) UACPI_ADDRESS_SPACE_SYSTEM_IO)
            end)
  | inl ret, _ => mret (inl ret)
  | inr _, None => mret (inl UACPI_STATUS_INVALID_ARGUMENT)
  end.

Definition uacpi_unmap_gas_nofree (gas : uacpi_mapped_gas) : io W unit :=
  if mg_space gas =? UACPI_ADDRESS_SPACE_SYSTEM_MEMORY then gh_unmap (mapping gas) (access_bit_width gas / 8) else gh_io_unmap (mapping gas).

Definition uacpi_gas_read (gas : option acpi_gas) : io W (option (Z + Z)) :=
  r ← uacpi_map_gas_noalloc gas;
  match r with
  | inl ret => mret (Some (inl ret))
  | inr mg => v ← uacpi_gas_read_mapped mg; uacpi_unmap_gas_nofree mg;; mret v
  end.

Definition uacpi_gas_write (gas : option acpi_gas) (in_value : Z) : io W (option Z) :=
  r ← uacpi_map_gas_noalloc gas;
  match r with
  | inl ret => mret (Some ret)
  | inr mg => ret ← uacpi_gas_write_mapped mg in_value; uacpi_unmap_gas_nofree mg;; mret ret
  end.
End Gas.

(** ** Registers that keep bytes *)

Section Block.
Context {W : Type} (rd : @gas_rd W) (wr : @gas_wr W) (mp n : Z) (content : W -> mem).

(** [n] bytes of registers that can be read and written in any access width. *)
Record register_block : Prop := {
  rb_read off wd w : width_ok wd -> 0 <= off -> off + wd <= n -> rd mp off wd w = (inr (ldn (Z.to_nat wd) (content w) off), w);
  rb_write off wd v w : width_ok wd -> 0 <= off -> off + wd <= n -> 0 <= v < 2 ^ (8 * wd) ->
    exists w', wr mp off wd v w = (UACPI_STATUS_OK, w') /\
      forall x, 0 <= x < n -> ld8 (content w') x = ld8 (stn (Z.to_nat wd) (content w) off v) x }.
Context (Hrb : register_block).

(** A mapped register as [gas_validate] lets it through, read from its first word on. *)
Definition rounds_of (g : uacpi_mapped_gas) : Z := (total_bit_width g + access_bit_width g - 1) / access_bit_width g.
Record mapped_ok (g : uacpi_mapped_gas) : Prop := {
  mo_mapping : mapping g = mp;
  mo_width : width_ok (access_bit_width g / 8);
  mo_bytes : access_bit_width g = 8 * (access_bit_width g / 8);
  mo_total : 0 < total_bit_width g;
  mo_fits : rounds_of g * access_bit_width g <= 64;
  mo_inside : rounds_of g * access_bit_width g <= 8 * n;
  mo_offset : 0 <= bit_offset g < access_bit_width g }.

Lemma mapped_width g : mapped_ok g -> 8 <= access_bit_width g <= 64.
Proof. intros H. rewrite (mo_bytes _ H). destruct (mo_width _ H) as [->|[->|[->| ->]]]; lia. Qed.

Lemma mask_bit g i : mapped_ok g -> 0 <= i -> Z.testbit (gas_mask g) i = (i <? access_bit_width g).
Proof.
  intros H Hi. unfold gas_mask. pose proof (mo_bytes _ H) as Hb. destruct (mo_width _ H) as [E|[E|[E|E]]]; rewrite E in Hb; rewrite Hb; cbn [Z.mul Z.div Z.ltb].
  - change (Z.testbit (Z.ones 8) i = (i <? 8)). apply Z.testbit_ones_nonneg; lia.
  - change (Z.testbit (Z.ones 16) i = (i <? 16)). apply Z.testbit_ones_nonneg; lia.
  - change (Z.testbit (Z.ones 32) i = (i <? 32)). apply Z.testbit_ones_nonneg; lia.
  - change (Z.testbit (Z.ones 64) i = (i <? 64)). apply Z.testbit_ones_nonneg; lia.
Qed.

Lemma rounds_spec g : mapped_ok g ->
  total_bit_width g <= rounds_of g * access_bit_width g < total_bit_width g + access_bit_width g /\ 0 < rounds_of g.
Proof.
  intros H. pose proof (mapped_width g H) as Hw. pose proof (mo_total _ H). unfold rounds_of.
  pose proof (Z.div_mod (total_bit_width g + access_bit_width g - 1) (access_bit_width g) ltac:(lia)).
  pose proof (Z.mod_pos_bound (total_bit_width g + access_bit_width g - 1) (access_bit_width g) ltac:(lia)). split; [lia|].
  apply Z.div_str_pos. lia.
Qed.

(** The arithmetic of a round: [i] words are done, another one is due. *)
Lemma round_due g i : mapped_ok g -> 0 <= i < rounds_of g ->
  let aw := access_bit_width g in let wb := aw / 8 in
  i * aw = 8 * (i * wb) /\ 0 <= i * wb /\ i * aw < total_bit_width g /\ i * aw + aw <= rounds_of g * aw /\ i < 9 /\
  Z.max 0 (total_bit_width g - i * aw) - Z.min (Z.max 0 (total_bit_width g - i * aw)) aw = Z.max 0 (total_bit_width g - (i + 1) * aw).
Proof.
  intros H Hi aw wb. pose proof (mapped_width g H) as Hw. pose proof (rounds_spec g H) as [Hr _]. pose proof (mo_bytes _ H) as Hb. pose proof (mo_fits _ H) as Hf.
  fold aw in Hw, Hr, Hb, Hf. fold wb in Hb. set (r := rounds_of g) in *.
  assert (i * aw + aw <= r * aw) by (replace (i * aw + aw) with ((i + 1) * aw) by lia; apply Z.mul_le_mono_nonneg_r; lia).
  assert (i * 8 <= i * aw) by (apply Z.mul_le_mono_nonneg_l; lia).
  assert (i * aw = 8 * (i * wb)) by (replace (8 * (i * wb)) with (i * (8 * wb)) by lia; by f_equal). split_and_all; lia.
Qed.

(** [i] words have been read, [k] are left. *)
Lemma gas_read_loop_spec g k i fuel w : mapped_ok g -> 0 <= i -> i + Z.of_nat k = rounds_of g -> (k < fuel)%nat ->
  gas_read_loop fuel rd g (bit_offset g) (Z.max 0 (total_bit_width g - i * access_bit_width g)) i (i * (access_bit_width g / 8))
    (ldn (Z.to_nat (i * (access_bit_width g / 8))) (content w) 0) w =
  (Some (inr (ldn (Z.to_nat (rounds_of g * (access_bit_width g / 8))) (content w) 0)), w).
Proof using Hrb.
  intros H. pose proof (mapped_width g H) as Hw. pose proof (rounds_spec g H) as [Hr _]. pose proof (mo_bytes _ H) as Hb. pose proof (mo_fits _ H) as Hf. pose proof (mo_inside _ H) as Hins.
  set (aw := access_bit_width g) in *. set (wb := aw / 8) in *. set (r := rounds_of g) in *.
  revert i fuel. induction k as [|k IH]; intros i fuel Hi Hk Hfu; (destruct fuel as [|fuel]; [lia|]); cbn [gas_read_loop].
  - assert (i = r) as -> by lia. rewrite Z.max_l by lia. done.
  - rewrite Nat2Z.inj_succ in Hk. destruct (round_due g i H ltac:(lia)) as (Hiw & Hn1 & Hil & Hir & Hi9 & Hmax).
    fold aw in Hiw, Hn1, Hil, Hir, Hmax. fold wb in Hiw, Hn1. fold aw. rewrite Hmax. clear Hmax.
    rewrite truthy_nz by lia. pose proof (mo_offset _ H) as Ho. fold aw in Ho.
    rewrite (mo_mapping _ H). unfold mbind, io_bind. fold aw. fold wb. replace (aw <=? bit_offset g) with false by lia. cbv beta iota.
    rewrite (rb_read Hrb) by (try apply (mo_width _ H); lia). unfold mret, io_ret. cbn [fst snd].
    unfold u8 at 1. rewrite (Z.mod_small (i + 1)) by lia.
    replace (i * wb + wb) with ((i + 1) * wb) by lia.
    assert (_ ||| u64 _ = ldn (Z.to_nat ((i + 1) * wb)) (content w) 0) as ->.
    { apply Z.bits_inj'. intros j Hj.
      rewrite Z.lor_spec, !ldn_bit, !Z2Nat.id by lia. change (u64 ?x) with (x mod 2 ^ 64).
      destruct (Z_lt_ge_dec j 64).
      - rewrite Z.mod_pow2_bits_low by lia. destruct (Z_lt_ge_dec j (i * aw)).
        + rewrite Z.shiftl_spec, Z.testbit_neg_r, orb_false_r by lia. f_equal. lia.
        + rewrite Z.shiftl_spec, Z.land_spec, ldn_bit, mask_bit, Z2Nat.id by (done || lia). fold aw.
          replace (j <? 8 * (i * wb)) with false by lia. cbn [orb andb].
          replace (8 * (i * wb) + (j - i * aw)) with (8 * 0 + j) by lia.
          replace (j - i * aw <? 8 * wb) with (j <? 8 * ((i + 1) * wb)) by lia. replace (j - i * aw <? aw) with (j <? 8 * ((i + 1) * wb)) by lia.
          destruct (j <? 8 * ((i + 1) * wb)); cbn [andb]; [apply andb_true_r|done].
      - rewrite Z.mod_pow2_bits_high by lia. replace (j <? 8 * (i * wb)) with false by lia. by replace (j <? 8 * ((i + 1) * wb)) with false by lia. }
    apply IH; lia.
Qed.

(** [i] words have been written, [k] are left. *)
Lemma gas_write_loop_spec g v k i fuel w : mapped_ok g -> 0 <= v -> 0 <= i -> i + Z.of_nat k = rounds_of g -> (k < fuel)%nat ->
  exists w', gas_write_loop fuel wr g (bit_offset g) (Z.max 0 (total_bit_width g - i * access_bit_width g)) i (i * (access_bit_width g / 8)) v w =
      (Some UACPI_STATUS_OK, w') /\
    forall q, 0 <= q < 8 * n -> mbit (content w') q =
      if (i * access_bit_width g <=? q) && (q <? rounds_of g * access_bit_width g) then Z.testbit v q else mbit (content w) q.
Proof using Hrb.
  intros H Hv. pose proof (mapped_width g H) as Hw. pose proof (rounds_spec g H) as [Hr _]. pose proof (mo_inside _ H) as Hins.
  revert i fuel w. induction k as [|k IH]; intros i fuel w Hi Hk Hfu; (destruct fuel as [|fuel]; [lia|]); cbn [gas_write_loop].
  - assert (i = rounds_of g) as -> by lia. rewrite Z.max_l by lia. exists w. split; [done|]. intros q Hq. by replace (_ && _) with false by lia.
  - rewrite Nat2Z.inj_succ in Hk. destruct (round_due g i H ltac:(lia)) as (Hiw & Hn1 & Hil & Hir & Hi9 & Hmax). rewrite Hmax. clear Hmax.
    pose proof (mo_offset _ H) as Ho. pose proof (mo_bytes _ H) as Hb. set (aw := access_bit_width g) in *. set (wb := aw / 8) in *.
    rewrite truthy_nz by lia. rewrite (mo_mapping _ H). unfold mbind, io_bind. replace (aw <=? bit_offset g) with false by lia. cbv beta iota zeta.
    set (data := (v >>> (i * aw)) &&& gas_mask g).
    assert (Hd : forall j, 0 <= j -> Z.testbit data j = (j <? aw) && Z.testbit v (i * aw + j)).
    { intros j Hj. subst data. rewrite Z.land_spec, Z.shiftr_spec, mask_bit by (done || lia). fold aw. rewrite andb_comm. do 2 f_equal. lia. }
    assert (Hdr : 0 <= data < 2 ^ (8 * wb)).
    { rewrite <- Hb. replace data with (data mod 2 ^ aw); [apply Z.mod_pos_bound; lia|]. apply Z.bits_inj'. intros j Hj.
      destruct (Z_lt_ge_dec j aw); [by rewrite Z.mod_pow2_bits_low by lia|]. rewrite Z.mod_pow2_bits_high, Hd by lia. by replace (j <? aw) with false by lia. }
    destruct (rb_write Hrb (i * wb) wb data w) as (w1 & -> & Hc1); [apply (mo_width _ H)|lia|lia|done|].
    unfold mret, io_ret. cbn [fst snd]. change (truthy UACPI_STATUS_OK) with false. cbv iota beta.
    unfold u8 at 1. rewrite (Z.mod_small (i + 1)) by lia. replace (i * wb + wb) with ((i + 1) * wb) by lia.
    destruct (IH (i + 1) fuel w1) as (w' & Hw' & Hq); [lia|lia|lia|]. unfold mbind, io_bind, mret, io_ret in Hw'. exists w'. split; [exact Hw'|].
    intros q Hqn. rewrite Hq by done. fold aw. destruct (Z_lt_ge_dec q ((i + 1) * aw)).
    + replace ((i + 1) * aw <=? q) with false by lia. cbn [andb]. replace (q <? rounds_of g * aw) with true by lia. rewrite andb_true_r.
      rewrite (mbit_ext (stn (Z.to_nat wb) (content w) (i * wb) data)) by (apply Hc1; Z.div_mod_to_equations; lia).
      rewrite mbit_stn, Z2Nat.id by lia. replace (8 * (i * wb)) with (i * aw) by lia. replace (q <? i * aw + 8 * wb) with true by lia. rewrite andb_true_r.
      case_if; [|done]. rewrite Hd by lia. replace (q - i * aw <? aw) with true by lia. cbn [andb]. f_equal. lia.
    + replace ((i + 1) * aw <=? q) with true by lia. replace (i * aw <=? q) with true by lia. case_if; [done|].
      rewrite (mbit_ext (stn (Z.to_nat wb) (content w) (i * wb) data)) by (apply Hc1; Z.div_mod_to_equations; lia).
      rewrite mbit_stn, Z2Nat.id by lia. by replace (_ && _) with false by lia.
Qed.

(** What every write to the block keeps is kept by writing the register of a mapping. *)
Lemma gas_write_loop_keeps (P : W -> Prop) g v k i fuel w : mapped_ok g ->
  (forall off wd d w, width_ok wd -> 0 <= off -> off + wd <= n -> P w -> P (wr mp off wd d w).2) ->
  0 <= i -> i + Z.of_nat k = rounds_of g -> (k < fuel)%nat -> P w ->
  P (gas_write_loop fuel wr g (bit_offset g) (Z.max 0 (total_bit_width g - i * access_bit_width g)) i (i * (access_bit_width g / 8)) v w).2.
Proof.
  intros H Hk. pose proof (mapped_width g H) as Hw. pose proof (rounds_spec g H) as [Hr _]. pose proof (mo_inside _ H) as Hins.
  revert i fuel w. induction k as [|k IH]; intros i fuel w Hi Hik Hfu Hp; (destruct fuel as [|fuel]; [lia|]); cbn [gas_write_loop].
  - assert (i = rounds_of g) as -> by lia. by rewrite Z.max_l by lia.
  - rewrite Nat2Z.inj_succ in Hik. destruct (round_due g i H ltac:(lia)) as (Hiw & Hn1 & Hil & Hir & Hi9 & Hmax). rewrite Hmax. clear Hmax.
    pose proof (mo_offset _ H) as Ho. pose proof (mo_bytes _ H) as Hb. set (aw := access_bit_width g) in *. set (wb := aw / 8) in *.
    rewrite truthy_nz by lia. rewrite (mo_mapping _ H). unfold mbind, io_bind. replace (aw <=? bit_offset g) with false by lia. cbv beta iota zeta.
    match goal with |- context [wr mp _ wb ?d w] => pose proof (Hk (i * wb) wb d w (mo_width _ H) ltac:(lia) ltac:(lia) Hp) as Hp1; destruct (wr mp (i * wb) wb d w) as [ret w1] end.
    unfold mret, io_ret. cbn [fst snd] in *. destruct (truthy ret); [done|]. unfold u8 at 1. rewrite (Z.mod_small (i + 1)) by lia.
    replace (i * wb + wb) with ((i + 1) * wb) by lia. apply IH; (done || lia).
Qed.
End Block.

Section Mapped.
Context {W : Type} `{!PortIo W} `{!Mmio W} `{!GasHost W}.

(** The bits of a register that an access moves. *)
Definition moved_bits (g : uacpi_mapped_gas) : Z := rounds_of g * access_bit_width g.

(** The value of the register of a mapping: its first words. *)
Definition gas_value (g : uacpi_mapped_gas) (content : W -> mem) (w : W) : Z := ldn (Z.to_nat (rounds_of g * (access_bit_width g / 8))) (content w) 0.

Lemma rounds_bound mp n g : mapped_ok mp n g -> (Z.to_nat (rounds_of g) < GAS_ROUNDS)%nat.
Proof.
  intros H. pose proof (mapped_width mp n g H). pose proof (mo_fits _ _ _ H). pose proof (rounds_spec mp n g H) as [_ Hp].
  assert (rounds_of g * 8 <= rounds_of g * access_bit_width g) by (apply Z.mul_le_mono_nonneg_l; lia). unfold GAS_ROUNDS. lia.
Qed.

(** Reading a mapped register gives the number in its words. *)
Lemma gas_read_mapped_spec mp n content g w : register_block (read_of g) (write_of g) mp n content -> mapped_ok mp n g ->
  uacpi_gas_read_mapped g w = (Some (inr (gas_value g content w)), w).
Proof.
  intros Hrb H. pose proof (rounds_spec mp n g H) as [_ Hr]. pose proof (rounds_bound mp n g H).
  pose proof (gas_read_loop_spec (read_of g) (write_of g) mp n content Hrb g (Z.to_nat (rounds_of g)) 0 GAS_ROUNDS w H ltac:(lia) ltac:(lia) ltac:(lia)) as E.
  rewrite !Z.mul_0_l, Z.sub_0_r, Z.max_r in E by (pose proof (mo_total _ _ _ H); lia). exact E.
Qed.

(** A value written to a mapped register is what it holds, cut to its words; the registers
    behind it are as they were. *)
Lemma gas_write_mapped_spec mp n content g v w : register_block (read_of g) (write_of g) mp n content -> mapped_ok mp n g -> 0 <= v ->
  exists w', uacpi_gas_write_mapped g v w = (Some UACPI_STATUS_OK, w') /\ gas_value g content w' = v mod 2 ^ moved_bits g /\
    forall k, moved_bits g <= k < 8 * n -> mbit (content w') k = mbit (content w) k.
Proof.
  intros Hrb H Hv. pose proof (rounds_spec mp n g H) as [Ht Hr]. pose proof (rounds_bound mp n g H). pose proof (mo_bytes _ _ _ H) as Hb. pose proof (mapped_width mp n g H).
  destruct (gas_write_loop_spec (read_of g) (write_of g) mp n content Hrb g v (Z.to_nat (rounds_of g)) 0 GAS_ROUNDS w H Hv ltac:(lia) ltac:(lia) ltac:(lia)) as (w' & Hw & Hq).
  rewrite !Z.mul_0_l, Z.sub_0_r, Z.max_r in Hw by (pose proof (mo_total _ _ _ H); lia). exists w'. unfold moved_bits in *. split_and_all; [exact Hw| |].
  - pose proof (mo_inside _ _ _ H). unfold gas_value.
    assert (Hbits : 8 * (rounds_of g * (access_bit_width g / 8)) = rounds_of g * access_bit_width g)
      by (replace (8 * (rounds_of g * (access_bit_width g / 8))) with (rounds_of g * (8 * (access_bit_width g / 8))) by lia; by rewrite <- Hb).
    apply Z.bits_inj'. intros i Hi. rewrite ldn_bit, Z2Nat.id, Hbits by (try (apply Z.mul_nonneg_nonneg; lia); lia). destruct (Z_lt_ge_dec i (rounds_of g * access_bit_width g)).
    + rewrite Z.mod_pow2_bits_low, Hq by lia. replace (i <? _) with true by lia. cbn [andb]. replace (_ && _) with true by lia. f_equal.
    + rewrite Z.mod_pow2_bits_high by lia. by replace (i <? _) with false by lia.
  - intros k Hk. rewrite Hq by lia. by replace (_ && _) with false by lia.
Qed.

Lemma gas_write_mapped_keeps mp n (P : W -> Prop) g v w : mapped_ok mp n g ->
  (forall off wd d w, width_ok wd -> 0 <= off -> off + wd <= n -> P w -> P (write_of g mp off wd d w).2) -> P w -> P (uacpi_gas_write_mapped g v w).2.
Proof.
  intros H Hk Hp. pose proof (rounds_spec mp n g H) as [_ Hr]. pose proof (rounds_bound mp n g H).
  pose proof (gas_write_loop_keeps (write_of g) mp n P g v (Z.to_nat (rounds_of g)) 0 GAS_ROUNDS w H Hk ltac:(lia) ltac:(lia) ltac:(lia) Hp) as E.
  rewrite !Z.mul_0_l, Z.sub_0_r, Z.max_r in E by (pose proof (mo_total _ _ _ H); lia). exact E.
Qed.

Lemma gas_value_range mp n g content (w : W) : mapped_ok mp n g -> 0 <= gas_value g content w < 2 ^ moved_bits g.
Proof.
  intros H. pose proof (rounds_spec mp n g H) as [_ Hr]. pose proof (mapped_width mp n g H).
  unfold gas_value, moved_bits. pose proof (ldn_range (Z.to_nat (rounds_of g * (access_bit_width g / 8))) (content w) 0) as Hx.
  rewrite Z2Nat.id in Hx by (apply Z.mul_nonneg_nonneg; [lia|apply Z.div_pos; lia]). change 256 with (2 ^ 8) in Hx.
  rewrite <- Z.pow_mul_r in Hx by (first [lia | apply Z.mul_nonneg_nonneg; [lia|apply Z.div_pos; lia]]).
  replace (8 * (rounds_of g * (access_bit_width g / 8))) with (rounds_of g * (8 * (access_bit_width g / 8))) in Hx by lia. by rewrite <- (mo_bytes _ _ _ H) in Hx.
Qed.
End Mapped.

(** ** Access sizes

    In a generic address 1, 2, 3 and 4 stand for a byte, a word, a double word and a quad word
    (acpi.h, [ACPI_ACCESS_BYTE] and following).  The code takes the number for a number of bytes:
    a register of 24 bits to be read as double words is accessed in three bytes at a time,
    which the accessors refuse. *)
Theorem dword_access_refused :
  let g := Gas UACPI_ADDRESS_SPACE_SYSTEM_MEMORY 24 0 3 4096 in
  gas_validate (Some g) = inr (24, 24) /\
  forall {W} `{!PortIo W} `{!Mmio W} `{!GasHost W} (p : Z) (w : W),
    uacpi_gas_read_mapped (MappedGas p 24 24 0 UACPI_ADDRESS_SPACE_SYSTEM_MEMORY) w = (Some (inl UACPI_STATUS_INVALID_ARGUMENT), w).
Proof. split; [by vm_compute|]. intros. reflexivity. Qed.
