(* ===== verification/AcpiRegs.v ===== *)
(** * Fixed hardware registers of uACPI, [src/src/uacpi/registers.c]

    The registers of the power management hardware exist once or twice (blocks a and b); a
    value is read from both and written to both.  Their bit fields are changed by reading,
    masking and writing back, with the bits that must be preserved or are write-only treated
    as the table of registers says.  A register is mapped on first use.  [register_device] is what
    the theorem asks of the hardware behind a register of one or two blocks. *)

From S2P Require Import Prelude Mem CString Hw KernelApi AcpiBits AcpiField AcpiFieldProps AcpiRegion AcpiGas.

(** ** Tables *)

Inductive uacpi_register := PM1_STS | PM1_EN | PM1_CNT | PM_TMR | PM2_CNT | SLP_CNT | SLP_STS | RESET | SMI_CMD.

#[global] Instance uacpi_register_eq : EqDecision uacpi_register.
Proof. solve_decision. Defined.

Inductive register_kind := REGISTER_KIND_GAS | REGISTER_KIND_IO.
Inductive register_access_kind := ACCESS_PRESERVE | ACCESS_WRITE_TO_CLEAR | ACCESS_NORMAL.

(** The values of the enumerators. *)
Definition register_kind_value (k : register_kind) : Z := match k with REGISTER_KIND_GAS => 0 | REGISTER_KIND_IO => 1 end.
Definition register_access_kind_value (k : register_access_kind) : Z :=
  match k with ACCESS_PRESERVE => 0 | ACCESS_WRITE_TO_CLEAR => 1 | ACCESS_NORMAL => 2 end.

(** The parts of [g_uacpi_rt_ctx] the registers are described by, and the level of initialization. *)
Record register_ctx := RegisterCtx {
  pm1a_status_blk : acpi_gas; pm1b_status_blk : acpi_gas; pm1a_enable_blk : acpi_gas; pm1b_enable_blk : acpi_gas;
  x_pm1a_cnt_blk : acpi_gas; x_pm1b_cnt_blk : acpi_gas; x_pm_tmr_blk : acpi_gas; x_pm2_cnt_blk : acpi_gas;
  sleep_control_reg : acpi_gas; sleep_status_reg : acpi_gas; reset_reg : acpi_gas; smi_cmd : Z; init_level : Z }.

Definition UACPI_INIT_LEVEL_SUBSYSTEM_INITIALIZED : Z := 1.
Definition UACPI_STATUS_INIT_LEVEL_MISMATCH : Z := 12.

Record register_spec := RegisterSpec {
  kind : register_kind; access_kind : register_access_kind; access_width : Z;
  accessors : register_ctx -> option acpi_gas * option acpi_gas;
  write_only_mask : Z; preserve_mask : Z }.

Definition ACPI_PM1_STS_IGN0_MASK : Z := 1 <<< 11.
Definition ACPI_PM1_CNT_GBL_RLS_MASK : Z := 1 <<< 2.
Definition ACPI_PM1_CNT_SLP_TYP_MASK : Z := 7 <<< 10.
Definition ACPI_PM1_CNT_SLP_EN_MASK : Z := 1 <<< 13.
Definition ACPI_PM1_CNT_PRESERVE_MASK : Z :=
  (1 <<< 3) ||| (1 <<< 4) ||| (1 <<< 5) ||| (1 <<< 6) ||| (1 <<< 7) ||| (1 <<< 8) ||| (1 <<< 9) ||| (1 <<< 14) ||| (1 <<< 15).
Definition ACPI_PM2_CNT_PRESERVE_MASK : Z := u64 (Z.lnot (1 <<< 0)).
Definition ACPI_SLP_CNT_SLP_TYP_MASK : Z := 7 <<< 2.
Definition ACPI_SLP_CNT_SLP_EN_MASK : Z := 1 <<< 5.
Definition ACPI_SLP_CNT_PRESERVE_MASK : Z := (1 <<< 0) ||| (1 <<< 1) ||| (1 <<< 6) ||| (1 <<< 7).
Definition ACPI_SLP_STS_PRESERVE_MASK : Z := u64 (Z.lnot (1 <<< 7)).

(** The accessor of an IO register points to its port number. *)
Definition g_registers (r : uacpi_register) : register_spec :=
  match r with
  | PM1_STS => RegisterSpec REGISTER_KIND_GAS ACCESS_WRITE_TO_CLEAR 0
      (fun c => (Some (pm1a_status_blk c), Some (pm1b_status_blk c))) 0 ACPI_PM1_STS_IGN0_MASK
  | PM1_EN => RegisterSpec REGISTER_KIND_GAS ACCESS_PRESERVE 0
      (fun c => (Some (pm1a_enable_blk c), Some (pm1b_enable_blk c))) 0 0
  | PM1_CNT => RegisterSpec REGISTER_KIND_GAS ACCESS_PRESERVE 0
      (fun c => (Some (x_pm1a_cnt_blk c), Some (x_pm1b_cnt_blk c)))
      (ACPI_PM1_CNT_SLP_EN_MASK ||| ACPI_PM1_CNT_GBL_RLS_MASK) ACPI_PM1_CNT_PRESERVE_MASK
  | PM_TMR => RegisterSpec REGISTER_KIND_GAS ACCESS_PRESERVE 0 (fun c => (Some (x_pm_tmr_blk c), None)) 0 0
  | PM2_CNT => RegisterSpec REGISTER_KIND_GAS ACCESS_PRESERVE 0 (fun c => (Some (x_pm2_cnt_blk c), None)) 0 ACPI_PM2_CNT_PRESERVE_MASK
  | SLP_CNT => RegisterSpec REGISTER_KIND_GAS ACCESS_PRESERVE 0 (fun c => (Some (sleep_control_reg c), None))
      ACPI_SLP_CNT_SLP_EN_MASK ACPI_SLP_CNT_PRESERVE_MASK
  | SLP_STS => RegisterSpec REGISTER_KIND_GAS ACCESS_WRITE_TO_CLEAR 0 (fun c => (Some (sleep_status_reg c), None)) 0 ACPI_SLP_STS_PRESERVE_MASK
  | RESET => RegisterSpec REGISTER_KIND_GAS ACCESS_NORMAL 0 (fun c => (Some (reset_reg c), None)) 0 0
  | SMI_CMD => RegisterSpec REGISTER_KIND_IO ACCESS_NORMAL 1
      (fun c => (Some (Gas UACPI_ADDRESS_SPACE_SYSTEM_IO 8 0 0 (smi_cmd c)), None)) 0 0
  end.

Inductive uacpi_register_field :=
  | TMR_STS | BM_STS | GBL_STS | PWRBTN_STS | SLPBTN_STS | RTC_STS | HWR_WAK_STS | WAK_STS | PCIEX_WAKE_STS
  | TMR_EN | GBL_EN | PWRBTN_EN | SLPBTN_EN | RTC_EN | PCIEXP_WAKE_DIS
  | SCI_EN | BM_RLD | GBL_RLS | SLP_TYP | SLP_EN | HWR_SLP_TYP | HWR_SLP_EN | ARB_DIS.

Record register_field := RegisterField { reg : uacpi_register; rf_offset : Z; rf_mask : Z }.

Definition g_fields (f : uacpi_register_field) : register_field :=
  match f with
  | TMR_STS => RegisterField PM1_STS 0 (1 <<< 0)
  | BM_STS => RegisterField PM1_STS 4 (1 <<< 4)
  | GBL_STS => RegisterField PM1_STS 5 (1 <<< 5)
  | PWRBTN_STS => RegisterField PM1_STS 8 (1 <<< 8)
  | SLPBTN_STS => RegisterField PM1_STS 9 (1 <<< 9)
  | RTC_STS => RegisterField PM1_STS 10 (1 <<< 10)
  | HWR_WAK_STS => RegisterField SLP_STS 7 (1 <<< 7)
  | WAK_STS => RegisterField PM1_STS 15 (1 <<< 15)
  | PCIEX_WAKE_STS => RegisterField PM1_STS 14 (1 <<< 14)
  | TMR_EN => RegisterField PM1_EN 0 (1 <<< 0)
  | GBL_EN => RegisterField PM1_EN 5 (1 <<< 5)
  | PWRBTN_EN => RegisterField PM1_EN 8 (1 <<< 8)
  | SLPBTN_EN => RegisterField PM1_EN 9 (1 <<< 9)
  | RTC_EN => RegisterField PM1_EN 10 (1 <<< 10)
  | PCIEXP_WAKE_DIS => RegisterField PM1_EN 14 (1 <<< 14)
  | SCI_EN => RegisterField PM1_CNT 0 (1 <<< 0)
  | BM_RLD => RegisterField PM1_CNT 1 (1 <<< 1)
  | GBL_RLS => RegisterField PM1_CNT 2 (1 <<< 2)
  | SLP_TYP => RegisterField PM1_CNT 10 (7 <<< 10)
  | SLP_EN => RegisterField PM1_CNT 13 (1 <<< 13)
  | HWR_SLP_TYP => RegisterField SLP_CNT 2 (7 <<< 2)
  | HWR_SLP_EN => RegisterField SLP_CNT 5 (1 <<< 5)
  | ARB_DIS => RegisterField PM2_CNT 0 (1 <<< 0)
  end.

(** ** Mappings *)

(** [states[i]], with [mappings[i]] when there is one. *)
Inductive mapping_state := MAPPING_NONE | MAPPING_NOT_NEEDED | MAPPING_MAPPED (g : uacpi_mapped_gas).
Record register_mapping := RegisterMapping { map0 : mapping_state; map1 : mapping_state }.

(** [g_register_mappings]. *)
Definition mappings : Type := uacpi_register -> register_mapping.
Definition set_mapping (ms : mappings) (r : uacpi_register) (mp : register_mapping) : mappings :=
  fun r' => if decide (r' = r) then mp else ms r'.

Section Registers.
Context {W : Type} `{!PortIo W} `{!Mmio W} `{!GasHost W}.

(** [map_one]: the status and the state of one block.  An IO register has no block b. *)
Definition map_one (state : mapping_state) (gas : option acpi_gas) (is_gas : bool) : io W (Z * mapping_state) :=
  match state with
  | MAPPING_NONE =>
    match gas with
    | None => mret (UACPI_STATUS_OK, MAPPING_NOT_NEEDED)
    | Some g =>
      if is_gas && (address g =? 0) then mret (UACPI_STATUS_OK, MAPPING_NOT_NEEDED)
      else
        r ← uacpi_map_gas_noalloc (Some g);
        mret (match r with inl ret => (ret, MAPPING_NONE) | inr mg => (UACPI_STATUS_OK, MAPPING_MAPPED mg) end)
    end
  | s => mret (UACPI_STATUS_OK, s)
  end.

Definition ensure_register_mapped (ctx : register_ctx) (r : uacpi_register) (ms : mappings) : io W (Z * mappings) :=
  let spec := g_registers r in
  let is_gas := register_kind_value (kind spec) =? 0 in
  '(ret, s0) ← map_one (map0 (ms r)) (accessors spec ctx).1 is_gas;
  if truthy ret then mret (ret, ms)
  else
    '(ret, s1) ← map_one (map1 (ms r)) (accessors spec ctx).2 is_gas;
    mret (ret, set_mapping ms r (RegisterMapping s0 s1)).

(** ** Whole registers *)

(** [do_read_one]: the value stays 0 when the block is not mapped. *)
Definition do_read_one (s : mapping_state) : io W (option (Z + Z)) :=
  match s with
  | MAPPING_MAPPED g => uacpi_gas_read_mapped g
  | _ => mret (Some (inr 0))
  end.

Definition do_read_register (spec : register_spec) (mp : register_mapping) : io W (option (Z + Z)) :=
  r0 ← do_read_one (map0 mp);
  match r0 with
  | Some (inr value0) =>
    r1 ← do_read_one (map1 mp);
    match r1 with
    | Some (inr value1) =>
      let v := value0 ||| value1 in
      mret (Some (inr (if truthy (write_only_mask spec) then v &&& u64 (Z.lnot (write_only_mask spec)) else v)))
    | r => mret r
    end
  | r => mret r
  end.

Definition do_write_one (s : mapping_state) (in_value : Z) : io W (option Z) :=
  match s with
  | MAPPING_MAPPED g => uacpi_gas_write_mapped g in_value
  | _ => mret (Some UACPI_STATUS_OK)
  end.

(** Both blocks. *)
Definition write_blocks (mp : register_mapping) (in_value0 in_value1 : Z) : io W (option Z) :=
  r ← do_write_one (map0 mp) in_value0;
  match r with
  | Some ret => if truthy ret then mret (Some ret) else do_write_one (map1 mp) in_value1
  | None => mret None
  end.

Definition do_write_register (spec : register_spec) (mp : register_mapping) (in_value : Z) : io W (option Z) :=
  if truthy (preserve_mask spec) then
    let in_value := in_value &&& u64 (Z.lnot (preserve_mask spec)) in
    if register_access_kind_value (access_kind spec) =? register_access_kind_value ACCESS_PRESERVE then
      r ← do_read_register spec mp;
      match r with
      | Some (inr data) => let v := in_value ||| (data &&& preserve_mask spec) in write_blocks mp v v
      | Some (inl ret) => mret (Some ret)
      | None => mret None
      end
    else write_blocks mp in_value in_value
  else write_blocks mp in_value in_value.

(** The guard of the entry points and the mapping, then [k] on the mapped register. *)
Definition with_register {A} (ctx : register_ctx) (r : uacpi_register) (ms : mappings) (fail : Z -> A)
    (k : register_mapping -> io W A) : io W (A * mappings) :=
  if init_level ctx <? UACPI_INIT_LEVEL_SUBSYSTEM_INITIALIZED then mret (fail UACPI_STATUS_INIT_LEVEL_MISMATCH, ms)
  else
    '(ret, ms) ← ensure_register_mapped ctx r ms;
    if truthy ret then mret (fail ret, ms) else a ← k (ms r); mret (a, ms).

Definition uacpi_read_register (ctx : register_ctx) (r : uacpi_register) (ms : mappings) : io W (option (Z + Z) * mappings) :=
  with_register ctx r ms (fun ret => Some (inl ret)) (do_read_register (g_registers r)).

Definition uacpi_write_register (ctx : register_ctx) (r : uacpi_register) (ms : mappings) (in_value : Z) : io W (option Z * mappings) :=
  with_register ctx r ms Some (fun mp => do_write_register (g_registers r) mp in_value).

Definition uacpi_write_registers (ctx : register_ctx) (r : uacpi_register) (ms : mappings) (in_value0 in_value1 : Z) : io W (option Z * mappings) :=
  with_register ctx r ms Some (fun mp => write_blocks mp in_value0 in_value1).

(** ** Fields *)

Definition uacpi_read_register_field (ctx : register_ctx) (f : uacpi_register_field) (ms : mappings) : io W (option (Z + Z) * mappings) :=
  let field := g_fields f in
  with_register ctx (reg field) ms (fun ret => Some (inl ret)) (fun mp =>
    r ← do_read_register (g_registers (reg field)) mp;
    mret (match r with Some (inr v) => Some (inr ((v &&& rf_mask field) >>> rf_offset field)) | r => r end)).

(** The test compares [reg->kind] with an access kind. *)
Definition uacpi_write_register_field (ctx : register_ctx) (f : uacpi_register_field) (ms : mappings) (in_value : Z) : io W (option Z * mappings) :=
  let field := g_fields f in
  let spec := g_registers (reg field) in
  with_register ctx (reg field) ms Some (fun mp =>
    let in_value := u64 (in_value <<< rf_offset field) &&& rf_mask field in
    if register_kind_value (kind spec) =? register_access_kind_value ACCESS_WRITE_TO_CLEAR then
      if in_value =? 0 then mret (Some UACPI_STATUS_OK) else do_write_register spec mp in_value
    else
      r ← do_read_register spec mp;
      match r with
      | Some (inr data) => do_write_register spec mp ((data &&& u64 (Z.lnot (rf_mask field))) ||| in_value)
      | Some (inl ret) => mret (Some ret)
      | None => mret None
      end).
End Registers.

(** ** What field accesses do *)

Section Props.
Context {W : Type} `{!PortIo W} `{!Mmio W} `{!GasHost W}.

(** One block of a register: [n] bytes of a device that keeps what is written to it, and a
    mapping of them. *)
Definition block (p n : Z) (content : W -> mem) (g : uacpi_mapped_gas) : Prop :=
  register_block (read_of g) (write_of g) p n content /\ mapped_ok p n g.

(** Writing to the [n] bytes behind [g] does not change the [m] bytes of another block. *)
Definition leaves_alone (p n m : Z) (content : W -> mem) (g : uacpi_mapped_gas) : Prop :=
  forall off wd d w x, width_ok wd -> 0 <= off -> off + wd <= n -> 0 <= x < m ->
    ld8 (content (write_of g p off wd d w).2) x = ld8 (content w) x.

(** A mapped register: block a, or blocks a and b of one width in different places.  [c0] and
    [c1] are the [nb] bits they hold. *)
Inductive register_device : register_mapping -> Z -> (W -> Z) -> (W -> Z) -> Prop :=
  | one_block p n content g : block p n content g ->
      register_device (RegisterMapping (MAPPING_MAPPED g) MAPPING_NOT_NEEDED) (moved_bits g) (gas_value g content) (fun _ => 0)
  | two_blocks p n content g p' n' content' g' : block p n content g -> block p' n' content' g' -> moved_bits g' = moved_bits g ->
      leaves_alone p n n' content' g -> leaves_alone p' n' n content g' ->
      register_device (RegisterMapping (MAPPING_MAPPED g) (MAPPING_MAPPED g')) (moved_bits g) (gas_value g content) (gas_value g' content').

(** What block b holds when [v] is written to it. *)
Definition block_b (mp : register_mapping) (v : Z) : Z := match map1 mp with MAPPING_MAPPED _ => v | _ => 0 end.

(** What the operations on such a register's blocks do. *)
Record block_pair (mp : register_mapping) (nb : Z) (c0 c1 : W -> Z) : Prop := {
  bp_mapped : map0 mp <> MAPPING_NONE /\ map1 mp <> MAPPING_NONE;
  bp_bits : 0 <= nb <= 64;
  bp_range w : 0 <= c0 w < 2 ^ nb /\ 0 <= c1 w < 2 ^ nb;
  bp_read0 w : do_read_one (map0 mp) w = (Some (inr (c0 w)), w);
  bp_read1 w : do_read_one (map1 mp) w = (Some (inr (c1 w)), w);
  bp_write v0 v1 w : 0 <= v0 < 2 ^ 64 -> 0 <= v1 < 2 ^ 64 ->
    exists w', write_blocks mp v0 v1 w = (Some UACPI_STATUS_OK, w') /\ c0 w' = v0 mod 2 ^ nb /\ c1 w' = block_b mp (v1 mod 2 ^ nb) }.

Lemma moved_bits_range p n g : mapped_ok p n g -> 0 <= moved_bits g <= 64.
Proof. intros H. pose proof (rounds_spec p n g H). pose proof (mapped_width p n g H). pose proof (mo_fits _ _ _ H). pose proof (mo_total _ _ _ H). unfold moved_bits. lia. Qed.

(** A register that is left alone keeps its value. *)
Lemma left_alone p n content g p' n' content' g' v w : block p n content g -> block p' n' content' g' -> leaves_alone p n n' content' g ->
  gas_value g' content' (uacpi_gas_write_mapped g v w).2 = gas_value g' content' w.
Proof.
  intros [_ H] [_ H'] Hl. apply (gas_write_mapped_keeps p n (fun u => gas_value g' content' u = gas_value g' content' w) g v w H); [|done].
  intros off wd d u Hwd Ho He <-. unfold gas_value. apply ldn_ext8. intros x Hx. apply Hl; try done.
  pose proof (mo_inside _ _ _ H'). pose proof (mo_bytes _ _ _ H') as Hb. pose proof (rounds_spec p' n' g' H'). pose proof (mapped_width p' n' g' H').
  assert (rounds_of g' * access_bit_width g' = 8 * (rounds_of g' * (access_bit_width g' / 8)))
    by (replace (8 * (rounds_of g' * (access_bit_width g' / 8))) with (rounds_of g' * (8 * (access_bit_width g' / 8))) by lia; by rewrite <- Hb).
  assert (0 <= rounds_of g' * (access_bit_width g' / 8)) by (apply Z.mul_nonneg_nonneg; [lia|apply Z.div_pos; lia]). lia.
Qed.

Lemma device_pair mp nb c0 c1 : register_device mp nb c0 c1 -> block_pair mp nb c0 c1.
Proof.
  intros [p n content g [Hrb H]|p n content g p' n' content' g' Hb Hb' Hm Hl Hl'].
  - pose proof (moved_bits_range p n g H). split; cbn [map0 map1 do_read_one]; [done|done| | |done|].
    + intros w. pose proof (gas_value_range p n g content w H). lia.
    + intros w. by apply (gas_read_mapped_spec p n content).
    + intros v0 v1 w Hv0 Hv1. destruct (gas_write_mapped_spec p n content g v0 w Hrb H ltac:(lia)) as (w' & Hw & He & _). exists w'.
      split_and_all; [|exact He|done]. unfold write_blocks, mbind, io_bind. cbn [map0 map1 do_write_one]. by rewrite Hw.
  - pose proof Hb as [Hrb H]. pose proof Hb' as [Hrb' H']. pose proof (moved_bits_range p n g H). split; cbn [map0 map1 do_read_one]; [done|done| | | |].
    + intros w. split; [by apply (gas_value_range p n)|]. rewrite <- Hm. by apply (gas_value_range p' n').
    + intros w. by apply (gas_read_mapped_spec p n content).
    + intros w. by apply (gas_read_mapped_spec p' n' content').
    + intros v0 v1 w Hv0 Hv1. destruct (gas_write_mapped_spec p n content g v0 w Hrb H ltac:(lia)) as (w1 & Hw & He & _).
      destruct (gas_write_mapped_spec p' n' content' g' v1 w1 Hrb' H' ltac:(lia)) as (w2 & Hw2 & He2 & _). exists w2.
      pose proof (left_alone p' n' content' g' p n content g v1 w1 Hb' Hb Hl') as Hk. rewrite Hw2 in Hk. cbn [snd] in Hk. unfold block_b. cbn [map1].
      split_and_all; [|by rewrite Hk|by rewrite He2, Hm]. unfold write_blocks, mbind, io_bind. cbn [map0 map1 do_write_one]. by rewrite Hw.
Qed.

(** What software sees of the register. *)
Definition register_value (r : uacpi_register) (c0 c1 : W -> Z) (w : W) : Z := (c0 w ||| c1 w) &&& u64 (Z.lnot (write_only_mask (g_registers r))).

Lemma lnot64_bit m i : 0 <= i -> Z.testbit (u64 (Z.lnot m)) i = (i <? 64) && negb (Z.testbit m i).
Proof.
  intros Hi. change (u64 ?x) with (x mod 2 ^ 64). destruct (Z_lt_ge_dec i 64).
  - rewrite Z.mod_pow2_bits_low, Z.lnot_spec by lia. by replace (i <? 64) with true by lia.
  - rewrite Z.mod_pow2_bits_high by lia. by replace (i <? 64) with false by lia.
Qed.

Lemma bits_above x n i : 0 <= x < 2 ^ n -> 0 <= n <= i -> Z.testbit x i = false.
Proof. intros Hx Hi. rewrite <- (Z.mod_small x (2 ^ n)) by lia. apply Z.mod_pow2_bits_high. lia. Qed.

Lemma small_of_bits x n : 0 <= n -> (forall i, n <= i -> Z.testbit x i = false) -> 0 <= x < 2 ^ n.
Proof.
  intros Hn H. replace x with (x mod 2 ^ n); [apply Z.mod_pos_bound; lia|]. apply Z.bits_inj'. intros i Hi.
  destruct (Z_lt_ge_dec i n); [by rewrite Z.mod_pow2_bits_low by lia|]. rewrite Z.mod_pow2_bits_high by lia. symmetry. apply H. lia.
Qed.

Lemma mappings_same ms r : forall r', set_mapping ms r (ms r) r' = ms r'.
Proof. intros r'. unfold set_mapping. by destruct (decide (r' = r)) as [->|]. Qed.

(** A mapped register is used as it is. *)
Lemma with_mapped {A} ctx r ms (fail : Z -> A) k w :
  UACPI_INIT_LEVEL_SUBSYSTEM_INITIALIZED <= init_level ctx -> map0 (ms r) <> MAPPING_NONE -> map1 (ms r) <> MAPPING_NONE ->
  exists ms', (forall r', ms' r' = ms r') /\ with_register ctx r ms fail k w = ((fun p : A * W => ((p.1, ms'), p.2)) (k (ms r) w)).
Proof.
  intros Hl H0 H1. unfold with_register. rewrite (proj2 (Z.ltb_ge _ _)) by done. unfold ensure_register_mapped.
  exists (set_mapping ms r (ms r)). split; [apply mappings_same|]. unfold mbind, io_bind, map_one, mret, io_ret.
  assert (set_mapping ms r (ms r) r = ms r) as Hs by apply mappings_same.
  destruct (ms r) as [s0 s1] eqn:Em. cbn [map0 map1] in *.
  destruct s0; try done; destruct s1; try done; change (truthy UACPI_STATUS_OK) with false; cbv beta iota zeta; rewrite Hs; change (truthy UACPI_STATUS_OK) with false; cbv beta iota; by destruct (k _ w).
Qed.

Lemma read_value r mp nb c0 c1 w : block_pair mp nb c0 c1 -> do_read_register (g_registers r) mp w = (Some (inr (register_value r c0 c1 w)), w).
Proof.
  intros H. unfold do_read_register, mbind, io_bind. rewrite (bp_read0 _ _ _ _ H), (bp_read1 _ _ _ _ H). unfold mret, io_ret, register_value.
  destruct (truthy (write_only_mask (g_registers r))) eqn:E; [done|]. bool_to_prop. rewrite E. do 3 f_equal.
  apply Z.bits_inj'. intros i Hi. rewrite Z.land_spec, lnot64_bit, Z.bits_0 by done. destruct (i <? 64) eqn:Ei; [by rewrite andb_true_r|]. bool_to_prop.
  rewrite Z.lor_spec, andb_false_r. pose proof (bp_range _ _ _ _ H w) as [Ha Hb]. pose proof (bp_bits _ _ _ _ H).
  by rewrite (bits_above (c0 w) nb), (bits_above (c1 w) nb) by lia.
Qed.

(** The value of a register whose blocks hold one value. *)
Lemma value_of_blocks r mp c0 c1 x w : c0 w = x -> c1 w = block_b mp x -> register_value r c0 c1 w = x &&& u64 (Z.lnot (write_only_mask (g_registers r))).
Proof. unfold register_value, block_b. intros -> ->. destruct (map1 mp); by rewrite ?Z.lor_0_r, ?Z.lor_diag. Qed.

(** The masks of a field. *)
Definition field_mask (f : uacpi_register_field) : Z := rf_mask (g_fields f).
Definition field_spec (f : uacpi_register_field) : register_spec := g_registers (reg (g_fields f)).

(** Fields of one register share no bit, none lies in the preserved bits, and a mask starts at
    the offset of its field. *)
Lemma fields_disjoint f f' : f <> f' -> reg (g_fields f) = reg (g_fields f') -> Z.land (field_mask f) (field_mask f') = 0.
Proof. intros Hn Hr. destruct f, f'; try done; discriminate. Qed.
Lemma fields_not_preserved f : access_kind (field_spec f) = ACCESS_PRESERVE -> Z.land (field_mask f) (preserve_mask (field_spec f)) = 0.
Proof. by destruct f. Qed.
Lemma field_mask_shape f : exists k, 0 < k /\ 0 <= rf_offset (g_fields f) /\ field_mask f = Z.ones k <<< rf_offset (g_fields f) /\ rf_offset (g_fields f) + k <= 16.
Proof. destruct f; solve [by exists 1 | by exists 3]. Qed.

Lemma land0_bit a b i : Z.land a b = 0 -> Z.testbit a i = true -> Z.testbit b i = false.
Proof. intros H Ha. apply (f_equal (fun z => Z.testbit z i)) in H. rewrite Z.land_spec, Ha, Z.bits_0 in H. done. Qed.

(** The value [u] that goes to the blocks: the field's bits from [iv], every other bit as it is. *)
Lemma preserved_write f mp nb c0 c1 iv w : block_pair mp nb c0 c1 -> access_kind (field_spec f) = ACCESS_PRESERVE ->
  Z.land iv (Z.lnot (field_mask f)) = 0 -> 0 <= iv -> 
  let data := register_value (reg (g_fields f)) c0 c1 w in
  exists w' u, do_write_register (field_spec f) mp ((data &&& u64 (Z.lnot (field_mask f))) ||| iv) w = (Some UACPI_STATUS_OK, w') /\
    c0 w' = u mod 2 ^ nb /\ c1 w' = block_b mp (u mod 2 ^ nb) /\
    forall i, 0 <= i -> Z.testbit u i = if Z.testbit (field_mask f) i then Z.testbit iv i else Z.testbit data i.
Proof.
  intros H Hk Hiv Hiv0 data. pose proof (bp_bits _ _ _ _ H) as Hnb. pose proof (fields_not_preserved f Hk) as Hpm.
  set (v := (data &&& u64 (Z.lnot (field_mask f))) ||| iv).
  assert (Hm64 : forall i, 64 <= i -> Z.testbit (field_mask f) i = false).
  { intros i Hi. destruct (field_mask_shape f) as (k & Hk0 & Ho & -> & Hle). rewrite Z.shiftl_spec, Z.ones_spec_high by lia. done. }
  assert (Hivm : forall i, 0 <= i -> Z.testbit (field_mask f) i = false -> Z.testbit iv i = false).
  { intros i Hi Hm. apply (land0_bit (Z.lnot (field_mask f)) iv); [by rewrite Z.land_comm|]. by rewrite Z.lnot_spec, Hm. }
  assert (Hd64 : forall i, 64 <= i -> Z.testbit data i = false).
  { intros i Hi. subst data. unfold register_value. rewrite Z.land_spec, lnot64_bit by lia. replace (i <? 64) with false by lia. apply andb_false_r. }
  assert (Hv : forall i, 0 <= i -> Z.testbit v i = if Z.testbit (field_mask f) i then Z.testbit iv i else Z.testbit data i).
  { intros i Hi. subst v. rewrite Z.lor_spec, Z.land_spec, lnot64_bit by done. destruct (Z_lt_ge_dec i 64).
    - replace (i <? 64) with true by lia. destruct (Z.testbit (field_mask f) i) eqn:E; cbn [negb andb]; [by rewrite andb_false_r|].
      by rewrite Hivm, andb_true_r, orb_false_r by done.
    - rewrite Hd64, Hm64 by lia. by rewrite (Hivm i Hi (Hm64 i ltac:(lia))). }
  assert (Hfinish : forall u, (forall i, 0 <= i -> Z.testbit u i = Z.testbit v i) -> exists w' u', write_blocks mp u u w = (Some UACPI_STATUS_OK, w') /\
    c0 w' = u' mod 2 ^ nb /\ c1 w' = block_b mp (u' mod 2 ^ nb) /\
    forall i, 0 <= i -> Z.testbit u' i = if Z.testbit (field_mask f) i then Z.testbit iv i else Z.testbit data i).
  { intros u Hu. assert (0 <= u < 2 ^ 64) as Hur by (apply small_of_bits; [lia|]; intros i Hi; rewrite Hu, Hv, Hm64 by lia; apply Hd64; lia).
    destruct (bp_write _ _ _ _ H u u w Hur Hur) as (w' & Hw & H0 & H1). exists w', u. split_and_all; try done. intros i Hi. by rewrite Hu, Hv. }
  unfold do_write_register. destruct (truthy (preserve_mask (field_spec f))); [|by apply Hfinish].
  rewrite Hk. cbn [register_access_kind_value Z.eqb]. unfold mbind, io_bind. unfold field_spec at 1. rewrite (read_value _ mp nb c0 c1 w H).
  fold data. apply Hfinish. intros i Hi. rewrite Z.lor_spec, !Z.land_spec, lnot64_bit by done.
  destruct (Z_lt_ge_dec i 64).
  - replace (i <? 64) with true by lia. rewrite Hv by done. destruct (Z.testbit (field_mask f) i) eqn:Em.
    + rewrite (land0_bit _ _ _ Hpm Em). cbn [negb andb]. by rewrite andb_true_r, andb_false_r, orb_false_r.
    + cbn [andb]. destruct (Z.testbit data i), (Z.testbit (preserve_mask (field_spec f)) i); done.
  - replace (i <? 64) with false by lia. rewrite Hv, Hm64, Hd64 by lia. by rewrite andb_false_r.
Qed.

(** The number of bits of a field. *)
Definition field_width (f : uacpi_register_field) : Z := Z.log2 (field_mask f >>> rf_offset (g_fields f)) + 1.

Lemma field_mask_bit f i : 0 <= i ->
  Z.testbit (field_mask f) i = (rf_offset (g_fields f) <=? i) && (i <? rf_offset (g_fields f) + field_width f).
Proof.
  intros Hi. assert (field_mask f = Z.ones (field_width f) <<< rf_offset (g_fields f) /\ 0 <= field_width f /\ 0 <= rf_offset (g_fields f)) as (-> & Hw & Ho)
    by (by destruct f). rewrite Z.shiftl_spec by done. destruct (Z_lt_ge_dec i (rf_offset (g_fields f))).
  - rewrite Z.testbit_neg_r by lia. by replace (_ <=? i) with false by lia.
  - rewrite Z.testbit_ones_nonneg by lia. lia.
Qed.

Lemma field_width_pos f : 0 <= rf_offset (g_fields f) /\ 0 < field_width f /\ rf_offset (g_fields f) + field_width f <= 16.
Proof. by destruct f. Qed.

(** Reading a field of a mapped register takes its bits out of the value. *)
Lemma read_field ctx f ms nb c0 c1 w : UACPI_INIT_LEVEL_SUBSYSTEM_INITIALIZED <= init_level ctx -> block_pair (ms (reg (g_fields f))) nb c0 c1 ->
  exists ms', uacpi_read_register_field ctx f ms w =
    ((Some (inr ((register_value (reg (g_fields f)) c0 c1 w &&& field_mask f) >>> rf_offset (g_fields f))), ms'), w).
Proof.
  intros Hl H. destruct (bp_mapped _ _ _ _ H) as [H0 H1]. unfold uacpi_read_register_field.
  destruct (with_mapped ctx (reg (g_fields f)) ms (fun ret => Some (inl ret)) (fun mp : register_mapping =>
    r ← do_read_register (g_registers (reg (g_fields f))) mp;
    mret (match r with Some (inr v) => Some (inr ((v &&& rf_mask (g_fields f)) >>> rf_offset (g_fields f))) | r => r end)) w Hl H0 H1) as (ms' & _ & Hw).
  exists ms'. etransitivity; [exact Hw|]. unfold mbind, io_bind. by rewrite (read_value _ _ nb c0 c1 w H).
Qed.

(** The bits of a field of [x]. *)
Definition field_of (f : uacpi_register_field) (x : Z) : Z := (x &&& field_mask f) >>> rf_offset (g_fields f).

Lemma field_of_ext x y f : (forall i, 0 <= i -> Z.testbit (field_mask f) i = true -> Z.testbit x i = Z.testbit y i) -> field_of f x = field_of f y.
Proof.
  intros H. unfold field_of. f_equal. apply Z.bits_inj'. intros i Hi. rewrite !Z.land_spec. destruct (Z.testbit (field_mask f) i) eqn:E; [by rewrite H|by rewrite !andb_false_r].
Qed.

(** A value whose bits in the mask are those of [v] in place. *)
Lemma field_of_written f x v : (forall i, 0 <= i -> Z.testbit (field_mask f) i = true -> Z.testbit x i = Z.testbit v (i - rf_offset (g_fields f))) ->
  field_of f x = v mod 2 ^ field_width f.
Proof.
  intros H. destruct (field_width_pos f) as (Ho & Hfw & _). apply Z.bits_inj'. intros i Hi. unfold field_of. rewrite Z.shiftr_spec, Z.land_spec by done.
  destruct (Z_lt_ge_dec i (field_width f)).
  - assert (Hmi : Z.testbit (field_mask f) (i + rf_offset (g_fields f)) = true) by (rewrite field_mask_bit by lia; lia).
    rewrite Hmi, H, Z.mod_pow2_bits_low, andb_true_r by (done || lia). f_equal. lia.
  - rewrite Z.mod_pow2_bits_high, field_mask_bit by lia. replace (_ && (_ <? _)) with false by lia. apply andb_false_r.
Qed.

(** The value in place. *)
Lemma in_place_bit f v i : 0 <= i ->
  Z.testbit (u64 (v <<< rf_offset (g_fields f)) &&& field_mask f) i = Z.testbit (field_mask f) i && Z.testbit v (i - rf_offset (g_fields f)).
Proof.
  intros Hi. destruct (field_width_pos f) as (Ho & _ & H16). rewrite Z.land_spec, field_mask_bit by done. change (u64 ?x) with (x mod 2 ^ 64).
  destruct (Z_lt_ge_dec i 64); [rewrite Z.mod_pow2_bits_low, Z.shiftl_spec by lia; apply andb_comm|]. rewrite Z.mod_pow2_bits_high by lia.
  by replace (i <? rf_offset (g_fields f) + field_width f) with false by lia; rewrite andb_false_r.
Qed.

(** [x] is what software read of the register at first, [y] what a block holds in the end: the
    value is in the field and every other bit is as it was read. *)
Definition field_stored (f : uacpi_register_field) (nb v x y : Z) : Prop :=
  forall i, 0 <= i < nb -> Z.testbit y i = if Z.testbit (field_mask f) i then Z.testbit v (i - rf_offset (g_fields f)) else Z.testbit x i.

(** The whole write, down to the blocks. *)
Lemma write_field ctx f ms nb c0 c1 v w : UACPI_INIT_LEVEL_SUBSYSTEM_INITIALIZED <= init_level ctx ->
  block_pair (ms (reg (g_fields f))) nb c0 c1 -> access_kind (field_spec f) = ACCESS_PRESERVE -> 0 <= v < 2 ^ 64 ->
  exists ms1 w1 y, uacpi_write_register_field ctx f ms v w = ((Some UACPI_STATUS_OK, ms1), w1) /\ (forall r, ms1 r = ms r) /\
    c0 w1 = y /\ c1 w1 = block_b (ms (reg (g_fields f))) y /\ field_stored f nb v (register_value (reg (g_fields f)) c0 c1 w) y.
Proof.
  intros Hl H Hk Hv. destruct (bp_mapped _ _ _ _ H) as [H0 H1]. pose proof (bp_bits _ _ _ _ H) as Hnb.
  unfold uacpi_write_register_field. set (iv := u64 (v <<< rf_offset (g_fields f)) &&& rf_mask (g_fields f)).
  match goal with |- context [with_register ctx _ ms Some ?k w] => destruct (with_mapped ctx (reg (g_fields f)) ms Some k w Hl H0 H1) as (ms1 & Hms & Hw) end.
  rewrite Hw. clear Hw. fold (field_spec f).
  assert (Hgas : register_kind_value (kind (field_spec f)) =? register_access_kind_value ACCESS_WRITE_TO_CLEAR = false) by (by destruct f). rewrite Hgas.
  pose proof (read_value (reg (g_fields f)) _ nb c0 c1 w H) as Hrd. fold (field_spec f) in Hrd. unfold mbind, io_bind. rewrite !Hrd.
  change (rf_mask (g_fields f)) with (field_mask f) in *.
  destruct (preserved_write f (ms (reg (g_fields f))) nb c0 c1 iv w H Hk) as (w1 & u & Hw1 & Hc0 & Hc1 & Hu).
  { apply Z.bits_inj'. intros i Hi. subst iv. rewrite Z.land_spec, Z.lnot_spec, in_place_bit, Z.bits_0 by done. by destruct (Z.testbit (field_mask f) i); rewrite ?andb_false_r. }
  { apply Z.land_nonneg. right. destruct f; done. }
  cbv beta zeta in Hw1. rewrite !Hw1. exists ms1, w1, (u mod 2 ^ nb). split_and_all; try done.
  intros i Hi. rewrite Z.mod_pow2_bits_low, Hu by lia. destruct (Z.testbit (field_mask f) i) eqn:E; [|done]. subst iv. by rewrite in_place_bit, E by lia.
Qed.

Lemma value_high r mp nb c0 c1 w i : block_pair mp nb c0 c1 -> nb <= i -> Z.testbit (register_value r c0 c1 w) i = false.
Proof.
  intros H Hi. unfold register_value. pose proof (bp_range _ _ _ _ H w) as [Ha Hb]. pose proof (bp_bits _ _ _ _ H). rewrite Z.land_spec, Z.lor_spec.
  by rewrite (bits_above (c0 w) nb), (bits_above (c1 w) nb) by lia.
Qed.
End Props.

(** C39: the fields of the control and enable registers are independent, whether the register
    has one block or two.  The register is one whose other bits are to be preserved (so none of
    the status registers), mapped before, and its blocks are memory or ports that keep what is
    written to them; two blocks have one width and lie apart.  Writing a field of it succeeds,
    and then each block holds the value cut to the width of the field in the place of the field,
    and in every other place what software read there before; reading the field gives the value
    cut to its width (unless the hardware makes the field write-only), and every other field of
    the register reads as before. *)
Theorem register_field_write_then_read {W} `{!PortIo W} `{!Mmio W} `{!GasHost W} ctx f ms nb (c0 c1 : W -> Z) v w :
  UACPI_INIT_LEVEL_SUBSYSTEM_INITIALIZED <= init_level ctx ->
  register_device (ms (reg (g_fields f))) nb c0 c1 -> access_kind (field_spec f) = ACCESS_PRESERVE -> field_mask f < 2 ^ nb -> 0 <= v < 2 ^ 64 ->
  let x := register_value (reg (g_fields f)) c0 c1 w in
  exists ms1 w1, uacpi_write_register_field ctx f ms v w = ((Some UACPI_STATUS_OK, ms1), w1) /\
    field_stored f nb v x (c0 w1) /\ (map1 (ms (reg (g_fields f))) <> MAPPING_NOT_NEEDED -> field_stored f nb v x (c1 w1)) /\
    (Z.land (field_mask f) (write_only_mask (field_spec f)) = 0 ->
       exists ms2, uacpi_read_register_field ctx f ms1 w1 = ((Some (inr (v mod 2 ^ field_width f)), ms2), w1)) /\
    (forall f', f' <> f -> reg (g_fields f') = reg (g_fields f) ->
       exists z ms2 ms3, uacpi_read_register_field ctx f' ms w = ((Some (inr z), ms2), w) /\
         uacpi_read_register_field ctx f' ms1 w1 = ((Some (inr z), ms3), w1)).
Proof.
  intros Hl Hd Hk Hm Hv x. pose proof (device_pair _ _ _ _ Hd) as H. pose proof (bp_bits _ _ _ _ H) as Hnb.
  destruct (write_field ctx f ms nb c0 c1 v w Hl H Hk Hv) as (ms1 & w1 & y & Hw & Hms & Hc0 & Hc1 & Hy). fold x in Hy. exists ms1, w1.
  assert (Hpair : block_pair (ms1 (reg (g_fields f))) nb c0 c1) by (by rewrite Hms).
  pose proof (value_of_blocks (reg (g_fields f)) _ c0 c1 y w1 Hc0 Hc1) as Hval. fold (field_spec f) in Hval.
  assert (Hmn : forall i, 0 <= i -> Z.testbit (field_mask f) i = true -> i < nb).
  { intros i Hi Hmi. destruct (Z_lt_ge_dec i nb); [done|]. exfalso. assert (0 <= field_mask f) by (by destruct f). rewrite (bits_above (field_mask f) nb) in Hmi by lia. discriminate. }
  split_and_all; [done|by rewrite Hc0| | |].
  - intros Hb. rewrite Hc1. unfold block_b. destruct (map1 (ms (reg (g_fields f)))) eqn:E; [|done|done]. by destruct (bp_mapped _ _ _ _ H) as [_ []].
  - intros Hwo. destruct (read_field ctx f ms1 nb c0 c1 w1 Hl Hpair) as (ms2 & ->). exists ms2. do 4 f_equal. apply field_of_written.
    intros i Hi Hmi. pose proof (Hmn i Hi Hmi). rewrite Hval, Z.land_spec, lnot64_bit, (land0_bit _ _ _ Hwo Hmi), Hy, Hmi by lia.
    replace (i <? 64) with true by lia. apply andb_true_r.
  - intros f' Hf Hr. assert (Hp' : block_pair (ms (reg (g_fields f'))) nb c0 c1) by (by rewrite Hr).
    assert (Hp1 : block_pair (ms1 (reg (g_fields f'))) nb c0 c1) by (by rewrite Hr).
    destruct (read_field ctx f' ms nb c0 c1 w Hl Hp') as (ms2 & ->). destruct (read_field ctx f' ms1 nb c0 c1 w1 Hl Hp1) as (ms3 & ->).
    do 3 eexists. split; [reflexivity|]. do 4 f_equal. apply field_of_ext. intros i Hi Hmi. rewrite Hr. destruct (Z_lt_ge_dec i nb).
    + rewrite Hval, Z.land_spec, lnot64_bit, Hy by lia. rewrite (land0_bit _ _ _ (fields_disjoint f' f Hf Hr) Hmi). subst x. unfold register_value. fold (field_spec f).
      rewrite Z.land_spec, lnot64_bit by lia. replace (i <? 64) with true by lia. cbn [andb]. by destruct (Z.testbit (c0 w ||| c1 w) i), (Z.testbit (write_only_mask (field_spec f)) i).
    + by rewrite !(value_high _ _ nb c0 c1 _ i H) by lia.
Qed.

(** ** Registers in device memory *)

(** Device memory that is plain memory. *)
Definition mem_mmio : Mmio mem := {| mmio_ld wd a := fun m => (ldn (Z.to_nat wd) m a, m); mmio_st wd a v := fun m => (tt, stn (Z.to_nat wd) m a v) |}.
Definition no_ports {W} : PortIo W := {| inp _ _ := mret 255; outp _ _ _ := mret tt |}.
Definition identity_map {W} : GasHost W :=
  {| gh_map p _ := mret p; gh_unmap _ _ := mret tt; gh_io_map p _ := mret (inr p); gh_io_unmap _ := mret tt |}.

Lemma mem_block p n : register_block (@device_memory_read _ mem_mmio) (@device_memory_write _ mem_mmio) p n (fun m x => m (p + x)).
Proof.
  split.
  - intros off wd w Hw Ho He. unfold device_memory_read. assert ((wd =? 1) || (wd =? 2) || (wd =? 4) || (wd =? 8) = true) as -> by (by destruct Hw as [->|[->|[->| ->]]]).
    unfold mbind, io_bind. cbn. by rewrite ldn_offset.
  - intros off wd v w Hw Ho He Hv. unfold device_memory_write. assert ((wd =? 1) || (wd =? 2) || (wd =? 4) || (wd =? 8) = true) as -> by (by destruct Hw as [->|[->|[->| ->]]]).
    unfold mbind, io_bind. cbn [mmio_st mem_mmio]. eexists. split; [reflexivity|]. intros x Hx. rewrite Z.mod_small by done. unfold ld8. by rewrite stn_shift.
Qed.

(** A machine whose control register of 16 bits has block a at 4096 and block b at 4098. *)
Definition demo_gas (a : Z) : acpi_gas := Gas UACPI_ADDRESS_SPACE_SYSTEM_MEMORY 16 0 0 a.
Definition demo_ctx : register_ctx :=
  RegisterCtx (demo_gas 4100) (demo_gas 0) (demo_gas 4102) (demo_gas 0) (demo_gas 4096) (demo_gas 4098) (demo_gas 0) (demo_gas 0) (demo_gas 0) (demo_gas 0) (demo_gas 0) 0 1.
Definition demo_mapped (a : Z) : uacpi_mapped_gas := MappedGas a 16 16 0 UACPI_ADDRESS_SPACE_SYSTEM_MEMORY.
Definition demo_mappings : mappings := fun r =>
  match r with
  | PM1_STS => RegisterMapping (MAPPING_MAPPED (demo_mapped 4100)) MAPPING_NOT_NEEDED
  | PM1_EN => RegisterMapping (MAPPING_MAPPED (demo_mapped 4102)) MAPPING_NOT_NEEDED
  | PM1_CNT => RegisterMapping (MAPPING_MAPPED (demo_mapped 4096)) (MAPPING_MAPPED (demo_mapped 4098))
  | _ => RegisterMapping MAPPING_NOT_NEEDED MAPPING_NOT_NEEDED
  end.
Definition bytes_at (a : Z) (m : mem) : mem := fun x => m (a + x).

Lemma demo_block a : @block mem no_ports mem_mmio a 2 (bytes_at a) (demo_mapped a).
Proof. split; [apply (mem_block a 2)|]. split; try done; try (vm_compute; congruence). right. left. done. Qed.

Lemma demo_blocks_apart a b : a + 2 <= b \/ b + 2 <= a -> @leaves_alone mem no_ports mem_mmio a 2 2 (bytes_at b) (demo_mapped a).
Proof.
  intros Hab off wd d m x Hw Ho He Hx. unfold write_of. cbn. unfold device_memory_write.
  assert ((wd =? 1) || (wd =? 2) || (wd =? 4) || (wd =? 8) = true) as -> by (by destruct Hw as [->|[->|[->| ->]]]).
  assert (0 < wd) by (destruct Hw as [->|[->|[->| ->]]]; lia).
  unfold mbind, io_bind, bytes_at, ld8. cbn [mmio_st mem_mmio fst snd mret io_ret]. f_equal. apply stn_out. lia.
Qed.

Lemma demo_control : @register_device mem no_ports mem_mmio (demo_mappings PM1_CNT) 16
  (gas_value (demo_mapped 4096) (bytes_at 4096)) (gas_value (demo_mapped 4098) (bytes_at 4098)).
Proof. apply (two_blocks 4096 2 (bytes_at 4096) (demo_mapped 4096) 4098 2); try apply demo_block; try (apply demo_blocks_apart; lia). Qed.

(** The sleep type is written to both blocks and read back. *)
Lemma register_field_write_then_read_witness :
  exists ms1 w1 ms2, @uacpi_write_register_field mem no_ports mem_mmio identity_map demo_ctx SLP_TYP demo_mappings 13 (fun _ => 1) = ((Some UACPI_STATUS_OK, ms1), w1) /\
    field_stored SLP_TYP 16 13 (257 &&& u64 (Z.lnot 8196)) (ldn 2 w1 4096) /\ field_stored SLP_TYP 16 13 (257 &&& u64 (Z.lnot 8196)) (ldn 2 w1 4098) /\
    @uacpi_read_register_field mem no_ports mem_mmio identity_map demo_ctx SLP_TYP ms1 w1 = ((Some (inr 5), ms2), w1).
Proof.
  destruct (@register_field_write_then_read mem no_ports mem_mmio identity_map demo_ctx SLP_TYP demo_mappings 16
    (gas_value (demo_mapped 4096) (bytes_at 4096)) (gas_value (demo_mapped 4098) (bytes_at 4098)) 13 (fun _ => 1)) as (ms1 & w1 & H1 & Ha & Hb & H2 & _);
    [done|exact demo_control|done..|].
  destruct (H2 eq_refl) as [ms2 H3]. exists ms1, w1, ms2. split_and_all; [exact H1|exact Ha|exact (Hb ltac:(discriminate))|exact H3].
Defined.

(** ** Status registers

    A bit of a status register is cleared by writing 1 to it.  The special case for such
    registers in [uacpi_write_register_field] is never taken, because it compares the kind of
    the register (generic address or port) with an access kind: acknowledging one event reads
    the register, sets the bit and writes everything back, which acknowledges every other
    pending event as well. *)

(** A status register at 4100 whose bits are cleared by ones. *)
Definition status_mmio : Mmio Z := {| mmio_ld wd a := fun s => (s, s); mmio_st wd a v := fun s => (tt, Z.land s (Z.lnot v)) |}.

(** The timer, the global lock and the power button are pending; the timer is acknowledged. *)
Theorem acknowledging_one_event_loses_all :
  let pending := (1 <<< 0) ||| (1 <<< 5) ||| (1 <<< 8) in
  (@uacpi_write_register_field Z no_ports status_mmio identity_map demo_ctx TMR_STS demo_mappings 1 pending).1.1 = Some UACPI_STATUS_OK /\
  (@uacpi_write_register_field Z no_ports status_mmio identity_map demo_ctx TMR_STS demo_mappings 1 pending).2 = 0 /\
  (@uacpi_read_register_field Z no_ports status_mmio identity_map demo_ctx PWRBTN_STS demo_mappings pending).1.1 = Some (inr 1).
Proof. split_and_all; by vm_compute. Qed.
