(* ===== verification/AcpiStr.v ===== *)
(** * Characters and numbers of uACPI, [src/src/uacpi/utilities.c]

    The table of character classes, the conversion of strings to integers, names of
    namespace objects and EISA identifiers.  A string with its maximal length is the list of
    the characters up to that length. *)

From S2P Require Import Prelude Mem CString KernelApi.

(** ** Character classes *)

Definition CHAR_TYPE_CONTROL : Z := 1 <<< 0.
Definition CHAR_TYPE_SPACE : Z := 1 <<< 1.
Definition CHAR_TYPE_BLANK : Z := 1 <<< 2.
Definition CHAR_TYPE_PUNCTUATION : Z := 1 <<< 3.
Definition CHAR_TYPE_LOWER : Z := 1 <<< 4.
Definition CHAR_TYPE_UPPER : Z := 1 <<< 5.
Definition CHAR_TYPE_DIGIT : Z := 1 <<< 6.
Definition CHAR_TYPE_HEX_DIGIT : Z := 1 <<< 7.
Definition CHAR_TYPE_ALPHA : Z := CHAR_TYPE_LOWER ||| CHAR_TYPE_UPPER.
Definition CHAR_TYPE_ALHEX : Z := CHAR_TYPE_ALPHA ||| CHAR_TYPE_HEX_DIGIT.

Definition ascii_map : list Z :=
  replicate 9 CHAR_TYPE_CONTROL ++ [CHAR_TYPE_CONTROL ||| CHAR_TYPE_SPACE ||| CHAR_TYPE_BLANK] ++
  replicate 4 (CHAR_TYPE_CONTROL ||| CHAR_TYPE_SPACE) ++ replicate 18 CHAR_TYPE_CONTROL ++
  [CHAR_TYPE_SPACE ||| CHAR_TYPE_BLANK] ++ replicate 15 CHAR_TYPE_PUNCTUATION ++
  replicate 10 (CHAR_TYPE_DIGIT ||| CHAR_TYPE_HEX_DIGIT) ++ replicate 7 CHAR_TYPE_PUNCTUATION ++
  replicate 6 (CHAR_TYPE_UPPER ||| CHAR_TYPE_HEX_DIGIT) ++ replicate 20 CHAR_TYPE_UPPER ++ replicate 6 CHAR_TYPE_PUNCTUATION ++
  replicate 6 (CHAR_TYPE_LOWER ||| CHAR_TYPE_HEX_DIGIT) ++ replicate 20 CHAR_TYPE_LOWER ++ replicate 4 CHAR_TYPE_PUNCTUATION ++
  [CHAR_TYPE_CONTROL] ++ replicate 128 0.

Definition class_of (c : Z) : Z := default 0 (zget ascii_map (u8 c)).

Definition is_char (c type : Z) : bool := class_of c &&& type =? type.

Definition to_lower (c : Z) : Z := if is_char c CHAR_TYPE_UPPER then c + (97 - 65) else c.

(** ** Strings to integers *)

Inductive uacpi_base := UACPI_BASE_AUTO | UACPI_BASE_OCT | UACPI_BASE_DEC | UACPI_BASE_HEX.
Definition base_value (b : uacpi_base) : Z := match b with UACPI_BASE_AUTO => 0 | UACPI_BASE_OCT => 8 | UACPI_BASE_DEC => 10 | UACPI_BASE_HEX => 16 end.
#[global] Instance uacpi_base_eq : EqDecision uacpi_base.
Proof. solve_decision. Defined.

(** [consume_if] and [consume_if_equals]: [None] when the next character does not fit. *)
Definition consume_if (str : list Z) (type : Z) : option (list Z) :=
  match str with
  | c :: rest => if is_char c type then Some rest else None
  | [] => None
  end.
Definition consume_if_equals (str : list Z) (c : Z) : option (list Z) :=
  match str with
  | c1 :: rest => if to_lower c1 =? c then Some rest else None
  | [] => None
  end.

Fixpoint skip_spaces (str : list Z) : list Z :=
  match str with
  | c :: rest => if is_char c CHAR_TYPE_SPACE then skip_spaces rest else str
  | [] => []
  end.

(** The digit a character stands for in a base; [None] ends the number. *)
Definition digit_of (base : uacpi_base) (c : Z) : option Z :=
  let class := class_of c &&& (CHAR_TYPE_DIGIT ||| CHAR_TYPE_ALHEX) in
  if class =? CHAR_TYPE_DIGIT ||| CHAR_TYPE_HEX_DIGIT then
    let next := c - 48 in
    if bool_decide (base = UACPI_BASE_OCT) && (7 <? next) then None else Some next
  else if (class =? CHAR_TYPE_LOWER ||| CHAR_TYPE_HEX_DIGIT) || (class =? CHAR_TYPE_UPPER ||| CHAR_TYPE_HEX_DIGIT) then
    if bool_decide (base = UACPI_BASE_HEX) then Some (10 + (to_lower c - 97)) else None
  else None.

(** The loop over the digits: the value, the string left and the last character taken. *)
Fixpoint digits_loop (base : uacpi_base) (str : list Z) (value c : Z) : Z * list Z * Z :=
  match str with
  | [] => (value, [], c)
  | c :: rest =>
    match digit_of base c with
    | None => (value, rest, c)
    | Some d =>
      let next := u64 (value * base_value base + d) in
      if next / base_value base =? value then digits_loop base rest next c
      else (18446744073709551615, rest, c)
    end
  end.

Definition uacpi_string_to_integer (str : list Z) (base : uacpi_base) : Z * Z :=
  let str := skip_spaces str in
  let '(negative, str) :=
    match consume_if_equals str 45 with
    | Some rest => (true, rest)
    | None => (false, default str (consume_if_equals str 43))
    end in
  let '(base, str) :=
    match base with
    | UACPI_BASE_AUTO =>
      match consume_if_equals str 48 with
      | Some rest => match consume_if_equals rest 120 with Some rest => (UACPI_BASE_HEX, rest) | None => (UACPI_BASE_OCT, rest) end
      | None => (UACPI_BASE_DEC, str)
      end
    | b => (b, str)
    end in
  let '(value, str, c) := digits_loop base str 0 0 in
  let value := if (negative : bool) then u64 (- value) else value in
  (match str with
   | [] => UACPI_STATUS_OK
   | _ => if c =? 0 then UACPI_STATUS_OK else UACPI_STATUS_INVALID_ARGUMENT
   end, value).

(** ** Names *)

Definition is_valid_name_byte (c : Z) : bool :=
  (c =? 95) || truthy (class_of c &&& (CHAR_TYPE_DIGIT ||| CHAR_TYPE_UPPER)).

Definition uacpi_is_valid_nameseg (n0 n1 n2 n3 : Z) : bool :=
  is_valid_name_byte n0 && is_valid_name_byte n1 && is_valid_name_byte n2 && is_valid_name_byte n3.

Definition hex_to_ascii : list Z := [48; 49; 50; 51; 52; 53; 54; 55; 56; 57; 65; 66; 67; 68; 69; 70].

(** The seven characters of an EISA identifier; the eighth is the NUL. *)
Definition uacpi_eisa_id_to_string (id : Z) : list Z :=
  let b0 := id &&& 255 in let b1 := (id >>> 8) &&& 255 in let b2 := (id >>> 16) &&& 255 in let b3 := (id >>> 24) &&& 255 in
  let swapped := b3 ||| (b2 <<< 8) ||| (b1 <<< 16) ||| (b0 <<< 24) in
  let hex i := default 0 (zget hex_to_ascii ((swapped >>> i) &&& 15)) in
  [64 + ((swapped >>> 26) &&& 31); 64 + ((swapped >>> 21) &&& 31); 64 + ((swapped >>> 16) &&& 31);
   hex 12; hex 8; hex 4; hex 0; 0].

Example eisa_pnp0a03 : uacpi_eisa_id_to_string 51040321 = [80; 78; 80; 48; 65; 48; 51; 0].
Proof. by vm_compute. Qed.
Example parse_hex : uacpi_string_to_integer [32; 48; 120; 49; 70] UACPI_BASE_AUTO = (UACPI_STATUS_OK, 31).
Proof. by vm_compute. Qed.

(** ** Digits *)

(** The character of a digit. *)
Definition digit_char (upper : bool) (d : Z) : Z := if d <? 10 then 48 + d else (if upper then 65 else 97) + (d - 10).

(** The number a list of digits stands for. *)
Definition digits_value (b : Z) (ds : list Z) : Z := foldl (fun a d => a * b + d) 0 ds.

Lemma digit_of_char base up d : base <> UACPI_BASE_AUTO -> 0 <= d < base_value base -> digit_of base (digit_char up d) = Some d.
Proof.
  intros Hb Hd. assert (H : forallb (fun d => bool_decide (digit_of base (digit_char up d) = Some d)) (seqZ 0 (base_value base)) = true)
    by (destruct base, up; try done; by vm_compute).
  rewrite forallb_forall in H. specialize (H d). rewrite <- list_elem_of_In, elem_of_seqZ in H. specialize (H ltac:(lia)). by apply bool_decide_eq_true in H.
Qed.

Lemma base_value_pos base : base <> UACPI_BASE_AUTO -> 8 <= base_value base <= 16.
Proof. by destruct base. Qed.

Lemma foldl_digits_ge b ds v : 1 <= b -> 0 <= v -> Forall (fun d => 0 <= d) ds -> v <= foldl (fun a d => a * b + d) v ds.
Proof.
  intros Hb. revert v. induction ds as [|d ds IH]; intros v Hv Hds; cbn [foldl]; [lia|]. inversion Hds; subst.
  assert (v <= v * b + d) by nia. etransitivity; [done|]. apply IH; [lia|done].
Qed.

(** A number that fits is read exactly. *)
Lemma digits_loop_fits base up ds v c : base <> UACPI_BASE_AUTO -> Forall (fun d => 0 <= d < base_value base) ds -> 0 <= v ->
  foldl (fun a d => a * base_value base + d) v ds < 2 ^ 64 ->
  exists c', digits_loop base (digit_char up <$> ds) v c = (foldl (fun a d => a * base_value base + d) v ds, [], c').
Proof.
  intros Hb. pose proof (base_value_pos base Hb) as Hbv. revert v c. induction ds as [|d ds IH]; intros v c Hds Hv Hf; cbn [fmap list_fmap digits_loop foldl] in *; [by eexists|].
  inversion Hds as [|? ? Hd Hds']; subst. rewrite digit_of_char by done. assert (0 <= v * base_value base + d) by nia.
  pose proof (foldl_digits_ge (base_value base) ds (v * base_value base + d) ltac:(lia) ltac:(lia)) as Hge.
  assert (Forall (fun d => 0 <= d) ds) as Hds0 by (eapply Forall_impl; [done|]; cbv beta; lia). specialize (Hge Hds0).
  rewrite u64_small by lia. rewrite Z.div_add_l, Z.div_small, Z.add_0_r, Z.eqb_refl by lia. by apply IH.
Qed.

(** A number that does not fit gives the largest one. *)
Lemma digits_loop_saturates base up ds v c : base <> UACPI_BASE_AUTO -> Forall (fun d => 0 <= d < base_value base) ds -> 0 <= v < 2 ^ 64 ->
  2 ^ 64 <= foldl (fun a d => a * base_value base + d) v ds ->
  (digits_loop base (digit_char up <$> ds) v c).1.1 = 2 ^ 64 - 1.
Proof.
  intros Hb. pose proof (base_value_pos base Hb) as Hbv. revert v c. induction ds as [|d ds IH]; intros v c Hds Hv Hf; cbn [fmap list_fmap digits_loop foldl] in *; [lia|].
  inversion Hds as [|? ? Hd Hds']; subst. rewrite digit_of_char by done. set (x := v * base_value base + d) in *. assert (0 <= x) by (subst x; nia).
  destruct (Z_lt_ge_dec x (2 ^ 64)).
  - rewrite u64_small by lia. subst x. rewrite Z.div_add_l, Z.div_small, Z.add_0_r, Z.eqb_refl by lia. by apply IH; [|lia|].
  - assert (u64 x / base_value base <> v) as Hne.
    { intros He. change (u64 x) with (x mod 2 ^ 64) in He. pose proof (Z.div_mod (x mod 2 ^ 64) (base_value base) ltac:(lia)) as H1. rewrite He in H1.
      pose proof (Z.mod_pos_bound (x mod 2 ^ 64) (base_value base) ltac:(lia)). pose proof (Z.div_mod x (2 ^ 64) ltac:(lia)) as H2.
      assert (1 <= x / 2 ^ 64) by (apply Z.div_le_lower_bound; lia). subst x. nia. }
    by rewrite (proj2 (Z.eqb_neq _ _) Hne).
Qed.

(** ** Whole numbers *)

Definition spaces (n : nat) : list Z := replicate n 32.

Lemma skip_spaces_app n l : match l with c :: _ => is_char c CHAR_TYPE_SPACE = false | [] => True end -> skip_spaces (spaces n ++ l) = l.
Proof. intros H. induction n as [|n IH]; cbn; [destruct l as [|c l]; cbn; [done|by rewrite H]|]. exact IH. Qed.

(** A digit is neither a space nor a sign. *)
Lemma digit_char_plain up d : 0 <= d < 16 ->
  is_char (digit_char up d) CHAR_TYPE_SPACE = false /\ to_lower (digit_char up d) <> 45 /\ to_lower (digit_char up d) <> 43 /\
  (to_lower (digit_char up d) = 48 <-> d = 0) /\ to_lower (digit_char up d) <> 120.
Proof.
  intros Hd. assert (H : forallb (fun d => negb (is_char (digit_char up d) CHAR_TYPE_SPACE) && negb (to_lower (digit_char up d) =? 45) &&
    negb (to_lower (digit_char up d) =? 43) && Bool.eqb (to_lower (digit_char up d) =? 48) (d =? 0) && negb (to_lower (digit_char up d) =? 120)) (seqZ 0 16) = true)
    by (destruct up; by vm_compute).
  rewrite forallb_forall in H. specialize (H d). rewrite <- list_elem_of_In, elem_of_seqZ in H. specialize (H ltac:(lia)).
  rewrite !andb_true_iff, !negb_true_iff, !Z.eqb_neq in H. destruct H as [[[[H1 H2] H3] H4] H5]. apply eqb_prop in H4. split_and_all; try done.
  split; intros; apply Z.eqb_eq; [rewrite <- H4|rewrite H4]; by apply Z.eqb_eq.
Qed.

Inductive sign := NoSign | Plus | Minus.
Definition sign_text (s : sign) : list Z := match s with NoSign => [] | Plus => [43] | Minus => [45] end.
Definition signed_value (s : sign) (v : Z) : Z := match s with Minus => u64 (- v) | _ => v end.

(** The text of a number: spaces, a sign, a prefix and digits. *)
Definition number_text (n : nat) (s : sign) (prefix : list Z) (up : bool) (ds : list Z) : list Z := spaces n ++ sign_text s ++ prefix ++ (digit_char up <$> ds).

(** After spaces and sign, the rest is as without them. *)
Lemma sign_consumed s d up l : 0 <= d < 16 ->
  (match consume_if_equals (sign_text s ++ digit_char up d :: l) 45 with
   | Some rest => (true, rest)
   | None => (false, default (sign_text s ++ digit_char up d :: l) (consume_if_equals (sign_text s ++ digit_char up d :: l) 43))
   end) = (match s with Minus => true | _ => false end, digit_char up d :: l).
Proof.
  intros Hd. destruct (digit_char_plain up d Hd) as (_ & H1 & H2 & _). destruct s; [|done|done]. cbn [sign_text app consume_if_equals].
  rewrite (proj2 (Z.eqb_neq _ _) H1), (proj2 (Z.eqb_neq _ _) H2). done.
Qed.

Lemma not_space s d up l : 0 <= d < 16 -> match sign_text s ++ digit_char up d :: l with c :: _ => is_char c CHAR_TYPE_SPACE = false | [] => True end.
Proof. intros Hd. destruct s; [apply digit_char_plain; lia|done|done]. Qed.

Lemma number_tail base s n up d ds l : base <> UACPI_BASE_AUTO -> Forall (fun d => 0 <= d < base_value base) (d :: ds) -> l = digit_char up <$> d :: ds ->
  uacpi_string_to_integer (spaces n ++ sign_text s ++ l) base =
    (let '(value, str, c) := digits_loop base l 0 0 in
     (match str with [] => UACPI_STATUS_OK | _ => if c =? 0 then UACPI_STATUS_OK else UACPI_STATUS_INVALID_ARGUMENT end, signed_value s value)).
Proof.
  intros Hb Hds ->. pose proof (base_value_pos base Hb). inversion Hds as [|? ? Hd _]; subst. unfold uacpi_string_to_integer. cbn [fmap list_fmap].
  rewrite skip_spaces_app by (apply not_space; lia). rewrite sign_consumed by lia. cbv beta iota.
  destruct base; [done|..]; destruct (digits_loop _ _ 0 0) as [[v str] c]; destruct s; done.
Qed.

(** Conversion of strings to integers is exact.  A text of spaces, an optional sign and
    digits of the base is converted to its number, negated in two's complement after a minus;
    a number that does not fit into 64 bits gives the largest one (or its negation) instead of a
    wrapped around value. *)
Theorem string_to_integer_exact base n s up ds :
  base <> UACPI_BASE_AUTO -> ds <> [] -> Forall (fun d => 0 <= d < base_value base) ds ->
  let v := digits_value (base_value base) ds in
  let text := number_text n s [] up ds in
  (v < 2 ^ 64 -> uacpi_string_to_integer text base = (UACPI_STATUS_OK, signed_value s v)) /\
  (2 ^ 64 <= v -> (uacpi_string_to_integer text base).2 = signed_value s (2 ^ 64 - 1)).
Proof.
  intros Hb Hne Hds v text. destruct ds as [|d ds]; [done|]. unfold text, number_text. rewrite app_nil_l, (number_tail base s n up d ds) by done. split; intros Hv.
  - destruct (digits_loop_fits base up (d :: ds) 0 0 Hb Hds ltac:(lia) Hv) as (c' & ->). done.
  - pose proof (digits_loop_saturates base up (d :: ds) 0 0 Hb Hds ltac:(lia) Hv) as H. destruct (digits_loop base _ 0 0) as [[x str] c]. cbn in H. by subst x.
Qed.

Lemma string_to_integer_exact_witness :
  uacpi_string_to_integer (number_text 1 Minus [] true [15; 15]) UACPI_BASE_HEX = (UACPI_STATUS_OK, 18446744073709551361) /\
  (uacpi_string_to_integer (number_text 0 NoSign [] true (replicate 20 9)) UACPI_BASE_DEC).2 = 18446744073709551615.
Proof.
  split.
  - destruct (string_to_integer_exact UACPI_BASE_HEX 1 Minus true [15; 15]) as [H _];
      [discriminate|discriminate|repeat constructor; discriminate|]. apply H. reflexivity.
  - destruct (string_to_integer_exact UACPI_BASE_DEC 0 NoSign true (replicate 20 9)) as [_ H];
      [discriminate|discriminate|repeat constructor; discriminate|]. apply H. vm_compute. discriminate.
Defined.

(** A character that is no digit is accepted when it is the last one: the loop has taken it
    from the string, so nothing is left of it. *)
Theorem last_character_unchecked :
  uacpi_string_to_integer [49; 50; 103] UACPI_BASE_DEC = (UACPI_STATUS_OK, 12) /\
  uacpi_string_to_integer [49; 50; 103; 49] UACPI_BASE_DEC = (UACPI_STATUS_INVALID_ARGUMENT, 12).
Proof. split; by vm_compute. Qed.
