(* ===== verification/AcpiFmt.v ===== *)
(** * Formatted text of uACPI, [src/src/uacpi/stdlib.c]

    [uacpi_vsnprintf] renders a format into a buffer of limited size; log messages go through
    it.  A function that writes is the list of its calls of [write_one] and [write_many];
    [run] carries them out on the buffer, an array whose bounds are checked.  Strings are the
    lists of their characters without the NUL. *)

From S2P Require Import Prelude Mem CString KernelApi AcpiStr.
From stdpp Require Import strings.
From Stdlib Require Import Ascii.
#[local] Open Scope Z_scope.

(** ** Output *)

(** A call of [write_one] or [write_many]. *)
Inductive emit := One (c : Z) | Many (string : list Z).

(** [bytes_written] is a [uacpi_size], which wraps around. *)
Record fmt_buf_state := FmtBuf { buffer : list Z; bytes_written : Z }.

Definition capacity (fb : fmt_buf_state) : Z := Z.of_nat (length (buffer fb)).

Definition write_one (fb : fmt_buf_state) (c : Z) : option fmt_buf_state :=
  buf ← (if bytes_written fb <? capacity fb then zset (buffer fb) (bytes_written fb) c else Some (buffer fb));
  Some (FmtBuf buf (u64 (bytes_written fb + 1))).

(** [memcpy] to the array from index [i] on. *)
Fixpoint copy_to (buf : list Z) (i : Z) (l : list Z) : option (list Z) :=
  match l with
  | [] => Some buf
  | c :: l => buf ← zset buf i c; copy_to buf (i + 1) l
  end.

Definition write_many (fb : fmt_buf_state) (string : list Z) : option fmt_buf_state :=
  let count := Z.of_nat (length string) in
  buf ← (if bytes_written fb <? capacity fb
         then copy_to (buffer fb) (bytes_written fb) (take (Z.to_nat (Z.min count (capacity fb - bytes_written fb))) string)
         else Some (buffer fb));
  Some (FmtBuf buf (u64 (bytes_written fb + count))).

Fixpoint run (fb : fmt_buf_state) (es : list emit) : option fmt_buf_state :=
  match es with
  | [] => Some fb
  | One c :: es => fb ← write_one fb c; run fb es
  | Many s :: es => fb ← write_many fb s; run fb es
  end.

(** ** Integers *)

Record fmt_spec := FmtSpec {
  is_signed : bool; prepend : bool; uppercase : bool; left_justify : bool; alternate_form : bool; has_precision : bool;
  pad_char : Z; prepend_char : Z; min_width : Z; precision : Z; base : Z }.

#[global] Instance eta_fmt_spec : Eta fmt_spec := EtaOf _ (fun f =>
  FmtSpec (is_signed f) (prepend f) (uppercase f) (left_justify f) (alternate_form f) (has_precision f) (pad_char f) (prepend_char f) (min_width f) (precision f) (base f)).

(** The format at the start of a conversion. *)
Definition fmt_spec_init : fmt_spec := FmtSpec false false false false false false 32 0 0 0 10.

Definition hex_char (upper : bool) (value : Z) : Z :=
  default 0 (zget (if upper then [48; 49; 50; 51; 52; 53; 54; 55; 56; 57; 65; 66; 67; 68; 69; 70]
                   else [48; 49; 50; 51; 52; 53; 54; 55; 56; 57; 97; 98; 99; 100; 101; 102]) value).

Definition write_padding (fm : fmt_spec) (repr_size : Z) : list emit :=
  if min_width fm <=? repr_size then []
  else replicate (Z.to_nat (min_width fm - repr_size)) (One (if left_justify fm then 32 else pad_char fm)).

Definition REPR_BUFFER_SIZE : Z := 32.

(** [repr_buffer] is filled from its end; its used part is a list, and [None] is an index
    below 0. *)
Definition repr_push (c : Z) (repr : list Z) : option (list Z) :=
  if Z.of_nat (length repr) <? REPR_BUFFER_SIZE then Some (c :: repr) else None.

Definition repr_digit (fm : fmt_spec) (remainder : Z) : Z :=
  if base fm =? 16 then hex_char (uppercase fm) remainder
  else if (base fm =? 8) || (base fm =? 10) then remainder + 48
  else 63.

Fixpoint repr_loop (fuel : nat) (fm : fmt_spec) (value : Z) (repr : list Z) : option (list Z) :=
  match fuel with
  | O => None
  | S f =>
    if truthy value then
      repr ← repr_push (repr_digit fm (value mod base fm)) repr;
      repr_loop f fm (value / base fm) repr
    else Some repr
  end.

(** The sign and the magnitude. *)
Definition negative_of (fm : fmt_spec) (value : Z) : bool * Z :=
  if is_signed fm && (9223372036854775808 <=? value) then (true, u64 (- (value - 18446744073709551616))) else (false, value).

(** A number of 64 bits has at most 64 digits in any base. *)
Definition write_integer (fm : fmt_spec) (value : Z) : option (list emit) :=
  let '(negative, value) := negative_of fm value in
  let prefix := if prepend fm || negative then [One (if (negative : bool) then 45 else prepend_char fm)] else [] in
  repr ← repr_loop 65 fm value [];
  repr ← (if Z.of_nat (length repr) =? 0 then repr_push 48 repr else Some repr);
  repr ← (if alternate_form fm then
            if base fm =? 16 then r ← repr_push (if uppercase fm then 88 else 120) repr; repr_push 48 r
            else if base fm =? 8 then repr_push 48 repr
            else Some repr
          else Some repr);
  let repr_size := Z.of_nat (length repr) in
  Some (prefix ++ (if left_justify fm then Many repr :: write_padding fm repr_size else write_padding fm repr_size ++ [Many repr])).

(** ** Formats *)

Definition chars (s : string) : list Z := (fun c => Z.of_N (N_of_ascii c)) <$> String.list_ascii_of_string s.

(** [consume]: the string behind [token]. *)
Fixpoint consume_list (s token : list Z) : option (list Z) :=
  match token, s with
  | [], _ => Some s
  | t :: token, c :: s => if c =? t then consume_list s token else None
  | _ :: _, [] => None
  end.
Definition consume (s : list Z) (token : string) : option (list Z) := consume_list s (chars token).

Definition consume_one_of (s : list Z) (l : string) : option (Z * list Z) :=
  match s with
  | c :: rest => if existsb (Z.eqb c) (chars l) then Some (c, rest) else None
  | [] => None
  end.

Fixpoint consume_digits (s : list Z) : list Z * list Z :=
  match s with
  | c :: rest => if (c <? 48) || (57 <? c) then ([], s) else let '(ds, r) := consume_digits rest in (c :: ds, r)
  | [] => ([], [])
  end.

(** [parse_number]: [None] fails; a number that is not there leaves the value alone. *)
Definition parse_number (s : list Z) (must : bool) (old : Z) : option (Z * list Z) :=
  let '(ds, rest) := consume_digits s in
  match ds with
  | [] => if must then None else Some (old, rest)
  | _ => let '(ret, v) := uacpi_string_to_integer ds UACPI_BASE_DEC in if ret =? UACPI_STATUS_OK then Some (v, rest) else None
  end.

Definition base_from_specifier (c : Z) : Z := if (c =? 120) || (c =? 88) then 16 else if c =? 111 then 8 else 10.

(** The text before the next conversion, and the string from its percent sign on. *)
Fixpoint find_next_conversion (s : list Z) : list Z * list Z :=
  match s with
  | c :: rest => if c =? 37 then ([], s) else let '(t, r) := find_next_conversion rest in (c :: t, r)
  | [] => ([], [])
  end.

(** The arguments: integers and pointers as they are passed, or strings; a null string is
    [Va_str None]. *)
Inductive va := Va_int (v : Z) | Va_str (s : option (list Z)).

Definition i8 (x : Z) : Z := (x + 128) mod 256 - 128.
Definition i16 (x : Z) : Z := (x + 32768) mod 65536 - 32768.

(** [while (consume_one_of(&fmt, "+- 0#", &flag))]; the list is at most as long as the format. *)
Fixpoint flags_loop (s : list Z) (fm : fmt_spec) : fmt_spec * list Z :=
  match s with
  | c :: rest =>
    if (c =? 43) || (c =? 32) then flags_loop rest ((fm <| prepend := true |>) <| prepend_char := c |>)
    else if c =? 45 then flags_loop rest (fm <| left_justify := true |>)
    else if c =? 48 then flags_loop rest (fm <| pad_char := 48 |>)
    else if c =? 35 then flags_loop rest (fm <| alternate_form := true |>)
    else (fm, s)
  | [] => (fm, [])
  end.

Section Widths.
(** The result of a part of a conversion: a fault of the arguments, -1, or values. *)
Inductive conv (A : Type) := Bad | Invalid | Done (a : A).
Arguments Bad {A}.
Arguments Invalid {A}.
Arguments Done {A} a.

Definition take_int (args : list va) : option (Z * list va) := match args with Va_int v :: args => Some (v, args) | _ => None end.

(** The width or the precision: an asterisk takes an argument. *)
Definition number_or_star (s : list Z) (args : list va) (must : bool) (old : Z) : conv (Z * list Z * list va) :=
  match consume s "*" with
  | Some s => match take_int args with Some (v, args) => Done (u64 (i32 v), s, args) | None => Bad end
  | None => match parse_number s must old with Some (v, s) => Done (v, s, args) | None => Invalid end
  end.

Definition width_and_precision (s : list Z) (args : list va) (fm : fmt_spec) : conv (fmt_spec * list Z * list va) :=
  match number_or_star s args false 0 with
  | Bad => Bad | Invalid => Invalid
  | Done (w, s, args) =>
    let fm := fm <| min_width := w |> in
    match consume s "." with
    | None => Done (fm, s, args)
    | Some s =>
      match number_or_star s args true 0 with
      | Bad => Bad | Invalid => Invalid
      | Done (p, s, args) => Done ((fm <| has_precision := true |>) <| precision := p |>, s, args)
      end
    end
  end.
End Widths.
Arguments Bad {A}.
Arguments Invalid {A}.
Arguments Done {A} a.

(** A string conversion: the characters up to the precision, then spaces. *)
Definition write_string (fm : fmt_spec) (s : option (list Z)) : list emit :=
  let s := default (chars "<null>") s in
  let shown := if has_precision fm then take (Z.to_nat (precision fm)) s else s in
  (One <$> shown) ++ replicate (Z.to_nat (min_width fm - Z.of_nat (length shown))) (One 32).

(** The integer conversions, for a length: [sv] and [uv] convert the argument. *)
Definition int_conversion (sv uv : Z -> Z) (s : list Z) (args : list va) (fm : fmt_spec) : conv (list emit * list Z * list va) :=
  let signed := match consume s "d" with Some s => Some s | None => consume s "i" end in
  match signed with
  | Some s =>
    match take_int args with
    | None => Bad
    | Some (v, args) =>
      match write_integer (fm <| is_signed := true |>) (u64 (sv v)) with Some es => Done (es, s, args) | None => Bad end
    end
  | None =>
    match consume_one_of s "oxXu" with
    | None => Invalid
    | Some (flag, s) =>
      match take_int args with
      | None => Bad
      | Some (v, args) =>
        match write_integer ((fm <| base := base_from_specifier flag |>) <| uppercase := flag =? 88 |>) (u64 (uv v)) with Some es => Done (es, s, args) | None => Bad end
      end
    end
  end.

Definition i64 (x : Z) : Z := (x + 9223372036854775808) mod 18446744073709551616 - 9223372036854775808.

(** What follows flags, width and precision. *)
Definition conversion (s : list Z) (args : list va) (fm : fmt_spec) : conv (list emit * list Z * list va) :=
  match consume s "c" with
  | Some s => match take_int args with Some (v, args) => Done ([One (u8 v)], s, args) | None => Bad end
  | None =>
  match consume s "s" with
  | Some s => match args with Va_str t :: args => Done (write_string fm t, s, args) | _ => Bad end
  | None =>
  match consume s "p" with
  | Some s =>
    match take_int args with
    | None => Bad
    | Some (v, args) =>
      match write_integer (((fm <| base := 16 |>) <| min_width := 16 |>) <| pad_char := 48 |>) (u64 v) with Some es => Done (es, s, args) | None => Bad end
    end
  | None =>
  match consume s "hh" with
  | Some s => int_conversion i8 u8 s args fm
  | None =>
  match consume s "h" with
  | Some s => int_conversion i16 u16 s args fm
  | None =>
  match (match consume s "ll" with Some s => Some s | None => match consume s "z" with Some s => Some s | None => consume s "l" end end) with
  | Some s => int_conversion i64 u64 s args fm
  | None => int_conversion i32 u32 s args fm
  end end end end end end.

(** The loop of [uacpi_vsnprintf]: the calls made, and whether it came to the end; [None] is
    a fault.  A round takes at least one character. *)
Fixpoint format_loop (fuel : nat) (s : list Z) (args : list va) : option (list emit * bool) :=
  match fuel with
  | O => None
  | S f =>
    match s with
    | [] => Some ([], true)
    | _ =>
      let '(text, s) := find_next_conversion s in
      let es := if Z.of_nat (length text) =? 0 then [] else [Many text] in
      match s with
      | [] => Some (es, true)
      | _ :: after =>
        match consume s "%%" with
        | Some s => '(es', ok) ← format_loop f s args; Some (es ++ One 37 :: es', ok)
        | None =>
          let '(fm, s) := flags_loop after fmt_spec_init in
          match width_and_precision s args fm with
          | Bad => None
          | Invalid => Some (es, false)
          | Done (fm, s, args) =>
            match conversion s args fm with
            | Bad => None
            | Invalid => Some (es, false)
            | Done (es', s, args) => '(es'', ok) ← format_loop f s args; Some (es ++ es' ++ es'', ok)
            end
          end
        end
      end
    end
  end.

(** The result and the buffer. *)
Definition uacpi_vsnprintf (buf : list Z) (fmt : list Z) (args : list va) : option (Z * list Z) :=
  '(es, ok) ← format_loop (S (length fmt)) fmt args;
  fb ← run (FmtBuf buf 0) es;
  if (ok : bool) then
    buf ← (if truthy (capacity fb) then zset (buffer fb) (Z.min (bytes_written fb) (capacity fb - 1)) 0 else Some (buffer fb));
    Some (i32 (bytes_written fb), buf)
  else Some (-1, buffer fb).

Definition UACPI_PLAIN_LOG_BUFFER_SIZE : Z := 128.

(** [uacpi_log]: the buffer handed to [uacpi_kernel_log], if any. *)
Definition uacpi_log (buf : list Z) (str : list Z) (args : list va) : option (option (list Z)) :=
  '(ret, buf) ← uacpi_vsnprintf buf str args;
  if ret <? 0 then Some None
  else if UACPI_PLAIN_LOG_BUFFER_SIZE <=? ret then
    buf ← zset buf (UACPI_PLAIN_LOG_BUFFER_SIZE - 5) 46;
    buf ← zset buf (UACPI_PLAIN_LOG_BUFFER_SIZE - 4) 46;
    buf ← zset buf (UACPI_PLAIN_LOG_BUFFER_SIZE - 3) 46;
    buf ← zset buf (UACPI_PLAIN_LOG_BUFFER_SIZE - 2) 10;
    Some (Some buf)
  else Some (Some buf).

Example format_example :
  uacpi_vsnprintf (replicate 16 170) (chars "%s=0x%04X%%") [Va_str (Some (chars "a")); Va_int 171] =
  Some (9, chars "a=0x00AB%" ++ 0 :: replicate 6 170).
Proof. by vm_compute. Qed.
