(* ===== verification/AcpiFmtProps.v ===== *)
(** * Formatted text: it ends, truncation, and numbers that can be read back *)

From S2P Require Import Prelude Mem CString KernelApi AcpiStr AcpiFmt.
From stdpp Require Import strings.
#[local] Open Scope Z_scope.

(** ** The buffer *)

(** What a sequence of calls writes. *)
Definition text_of (es : list emit) : list Z := flat_map (fun e => match e with One c => [c] | Many s => s end) es.

(** A buffer with a text written from its start on, as far as it has room. *)
Definition overlay (t b : list Z) : list Z := take (length b) t ++ drop (length t) b.

Lemma overlay_length t b : length (overlay t b) = length b.
Proof. unfold overlay. rewrite length_app, length_take, length_drop. lia. Qed.

Lemma overlay_full t s b : (length b <= length t)%nat -> overlay (t ++ s) b = overlay t b.
Proof.
  intros H. unfold overlay. rewrite take_app_le by lia. rewrite !drop_ge by (rewrite ?length_app; lia). done.
Qed.

Lemma overlay_snoc t b c : (length t < length b)%nat -> zset (overlay t b) (Z.of_nat (length t)) c = Some (overlay (t ++ [c]) b).
Proof.
  intros H. rewrite zset_ok by (rewrite overlay_length; lia). f_equal. rewrite Nat2Z.id. unfold overlay.
  rewrite !take_ge by (rewrite ?length_app; cbn; lia). rewrite length_app. cbn [length].
  destruct (lookup_lt_is_Some_2 b (length t) H) as [x Hx]. rewrite (drop_S b x) by done.
  rewrite insert_app_r_alt by lia. rewrite Nat.sub_diag, Nat.add_1_r. cbn. by rewrite <- app_assoc.
Qed.

Lemma copy_overlay t s b : (length t + length s <= length b)%nat -> copy_to (overlay t b) (Z.of_nat (length t)) s = Some (overlay (t ++ s) b).
Proof.
  revert t. induction s as [|c s IH]; intros t H; cbn [copy_to length] in *; [by rewrite app_nil_r|].
  rewrite overlay_snoc by lia. cbn [mbind option_bind]. replace (Z.of_nat (length t) + 1) with (Z.of_nat (length (t ++ [c]))) by (rewrite length_app; cbn; lia).
  rewrite IH by (rewrite length_app; cbn; lia). by rewrite <- app_assoc.
Qed.

(** The calls write the text, cut to the size of the buffer, and count all of it, as long as
    the count does not wrap. *)
Lemma run_overlay es t b : Z.of_nat (length (t ++ text_of es)) < 2 ^ 64 ->
  run (FmtBuf (overlay t b) (Z.of_nat (length t))) es = Some (FmtBuf (overlay (t ++ text_of es) b) (Z.of_nat (length (t ++ text_of es)))).
Proof.
  revert t. induction es as [|e es IH]; intros t Hlen; cbn [run text_of flat_map] in *; [by rewrite !app_nil_r|].
  assert (Hstep : forall s r, s ++ r = match e with One c => [c] | Many s => s end ++ flat_map (fun e => match e with One c => [c] | Many s => s end) es ->
    u64 (Z.of_nat (length t) + Z.of_nat (length s)) = Z.of_nat (length (t ++ s))).
  { intros s r Hs. rewrite u64_small; [rewrite length_app; lia|]. rewrite <- Hs, !length_app in Hlen. lia. }
  rewrite app_assoc in Hlen. destruct e as [c|s].
  - unfold write_one, capacity. cbn [buffer bytes_written]. rewrite overlay_length. destruct (Z.ltb_spec (Z.of_nat (length t)) (Z.of_nat (length b))).
    + rewrite overlay_snoc by lia. cbn [mbind option_bind]. change 1 with (Z.of_nat (length [c])). erewrite Hstep, IH by done. by rewrite <- !app_assoc.
    + cbn [mbind option_bind]. change 1 with (Z.of_nat (length [c])). erewrite Hstep by done. rewrite <- (overlay_full t [c] b), IH by (done || lia). by rewrite <- !app_assoc.
  - unfold write_many, capacity. cbn [buffer bytes_written]. rewrite overlay_length. destruct (Z.ltb_spec (Z.of_nat (length t)) (Z.of_nat (length b))).
    + set (k := Z.to_nat _). rewrite copy_overlay by (rewrite length_take; lia). cbn [mbind option_bind].
      assert (overlay (t ++ take k s) b = overlay (t ++ s) b) as ->.
      { destruct (Nat.le_gt_cases (length s) (length b - length t)).
        - by rewrite take_ge by (subst k; lia).
        - transitivity (overlay ((t ++ take k s) ++ drop k s) b); [symmetry; apply overlay_full; rewrite length_app, length_take; subst k; lia | by rewrite <- app_assoc, take_drop]. }
      erewrite Hstep, IH by done. by rewrite <- !app_assoc.
    + cbn [mbind option_bind]. erewrite Hstep by done. rewrite <- (overlay_full t s b), IH by (done || lia). by rewrite <- !app_assoc.
Qed.

(** No call writes outside the buffer, even when the count has wrapped; it ends as the length
    of the text modulo 2^64. *)
Lemma copy_to_inside l : forall buf i, 0 <= i -> i + Z.of_nat (length l) <= Z.of_nat (length buf) -> exists buf', copy_to buf i l = Some buf' /\ length buf' = length buf.
Proof.
  induction l as [|c l IH]; intros buf i Hi Hl; cbn [copy_to length] in *; [by exists buf|]. rewrite zset_ok by lia. cbn [mbind option_bind].
  destruct (IH (<[Z.to_nat i:=c]> buf) (i + 1)) as (buf' & -> & Hb); [lia|rewrite length_insert; lia|]. exists buf'. by rewrite Hb, length_insert.
Qed.

Lemma run_inside es : forall fb, 0 <= bytes_written fb < 2 ^ 64 ->
  exists fb', run fb es = Some fb' /\ length (buffer fb') = length (buffer fb) /\ bytes_written fb' = u64 (bytes_written fb + Z.of_nat (length (text_of es))).
Proof.
  assert (Hu : forall a b c, u64 (u64 (a + b) + c) = u64 (a + (b + c))) by (intros; unfold u64; rewrite Z.add_mod_idemp_l by done; f_equal; lia).
  induction es as [|e es IH]; intros [buf bw] Hw; cbn [run text_of flat_map bytes_written buffer] in *.
  - exists (FmtBuf buf bw). rewrite u64_small by (cbn; lia). split_and_all; try done. cbn. lia.
  - assert (exists buf' n, length buf' = length buf /\ n = length (match e with One c => [c] | Many s => s end) /\
      match e with One c => write_one (FmtBuf buf bw) c | Many s => write_many (FmtBuf buf bw) s end = Some (FmtBuf buf' (u64 (bw + Z.of_nat n)))) as (buf' & n & Hb & Hn & He).
    { unfold write_one, write_many, capacity. cbn [buffer bytes_written]. destruct e as [c|s]; destruct (Z.ltb_spec bw (Z.of_nat (length buf))); try by eexists buf, _.
      - rewrite zset_ok by lia. eexists _, _. split; [apply length_insert|done].
      - set (k := Z.to_nat _). destruct (copy_to_inside (take k s) buf bw) as (buf' & -> & Hb); [lia|rewrite length_take; subst k; lia|]. by eexists buf', _. }
    destruct (IH (FmtBuf buf' (u64 (bw + Z.of_nat n)))) as (fb' & Hr & Hl & Hc); [apply u64_range|]. exists fb'. cbn [buffer bytes_written] in *. rewrite length_app, <- Hn, Nat2Z.inj_add, <- Hu.
    split_and_all; [|by rewrite Hl|done]. destruct e; rewrite He; exact Hr.
Qed.

Lemma overlay_nul t b : b <> [] -> zset (overlay t b) (Z.min (Z.of_nat (length t)) (Z.of_nat (length b) - 1)) 0 =
  Some (take (length b - 1) t ++ 0 :: drop (S (length t `min` (length b - 1))) b).
Proof.
  intros Hb. assert (0 < length b)%nat by (destruct b; cbn; [done|lia]). rewrite zset_ok by (rewrite overlay_length; lia). f_equal. unfold overlay.
  destruct (Nat.lt_ge_cases (length t) (length b)).
  - rewrite !take_ge by lia. rewrite Z.min_l by lia. rewrite Nat2Z.id, Nat.min_l by lia.
    destruct (lookup_lt_is_Some_2 b (length t) ltac:(lia)) as [x Hx]. rewrite (drop_S b x) by done. by rewrite insert_app_r_alt, Nat.sub_diag by lia.
  - rewrite Z.min_r by lia. replace (Z.to_nat (Z.of_nat (length b) - 1)) with (length b - 1)%nat by lia. rewrite Nat.min_r by lia.
    rewrite !drop_ge, app_nil_r by lia. destruct (lookup_lt_is_Some_2 t (length b - 1) ltac:(lia)) as [x Hx].
    assert (take (length b) t = take (length b - 1) t ++ [x]) as -> by (replace (length b) with (S (length b - 1)) at 1 by lia; by apply take_S_r).
    rewrite insert_app_r_alt by (rewrite length_take; lia). rewrite length_take, Nat.min_l, Nat.sub_diag by lia. done.
Qed.

(** ** Integers *)

(** The digits of a format are those [uacpi_string_to_integer] reads. *)
Lemma repr_digit_char fm bs d : bs <> UACPI_BASE_AUTO -> base fm = base_value bs -> 0 <= d < base_value bs -> repr_digit fm d = digit_char (uppercase fm) d.
Proof.
  intros Hb He Hd. unfold repr_digit. rewrite He.
  assert (H : forallb (fun d => (if base_value bs =? 16 then hex_char (uppercase fm) d else if (base_value bs =? 8) || (base_value bs =? 10) then d + 48 else 63) =?
    digit_char (uppercase fm) d) (seqZ 0 (base_value bs)) = true) by (destruct (uppercase fm), bs; try done; by vm_compute).
  rewrite forallb_forall in H. specialize (H d). rewrite <- list_elem_of_In, elem_of_seqZ in H. apply Z.eqb_eq, H. lia.
Qed.

(** The loop never runs out of the buffer: it writes the digits of the number, as many as the
    number has. *)
Lemma repr_loop_digits fm bs n : bs <> UACPI_BASE_AUTO -> base fm = base_value bs ->
  forall fuel v acc, 0 <= v < base_value bs ^ Z.of_nat n -> (n < fuel)%nat -> (length acc + n <= 32)%nat ->
  exists ds, repr_loop fuel fm v acc = Some ((digit_char (uppercase fm) <$> ds) ++ acc) /\ (length ds <= n)%nat /\
    Forall (fun d => 0 <= d < base_value bs) ds /\ digits_value (base_value bs) ds = v.
Proof.
  intros Hb He. pose proof (base_value_pos bs Hb). induction n as [|n IH]; intros [|fuel] v acc Hv Hf Hl; try lia; cbn [repr_loop].
  - assert (v = 0) as -> by (change (Z.of_nat 0) with 0 in Hv; lia). exists []. done.
  - destruct (Z.eq_dec v 0) as [->|Hnz]; [exists []; split_and_all; try done; cbn; lia|]. rewrite truthy_nz by done. rewrite He.
    pose proof (Z.mod_pos_bound v (base_value bs) ltac:(lia)). unfold repr_push. rewrite (proj2 (Z.ltb_lt _ _)) by (unfold REPR_BUFFER_SIZE; lia).
    rewrite (repr_digit_char fm bs) by done. cbn [mbind option_bind].
    destruct (IH fuel (v / base_value bs) (digit_char (uppercase fm) (v mod base_value bs) :: acc)) as (ds & -> & Hlen & Hds & Hval).
    { split; [apply Z.div_pos; lia|]. apply Z.div_lt_upper_bound; [lia|]. rewrite <- Z.pow_succ_r by lia. rewrite <- Nat2Z.inj_succ. lia. }
    { lia. } { cbn [length]. lia. }
    exists (ds ++ [v mod base_value bs]). split_and_all.
    + rewrite fmap_app, <- app_assoc. done.
    + rewrite length_app. cbn. lia.
    + apply Forall_app. split; [done|]. by constructor.
    + unfold digits_value in *. rewrite foldl_app, Hval. cbn [foldl]. pose proof (Z.div_mod v (base_value bs) ltac:(lia)). lia.
Qed.

Lemma pow64_digits bs : bs <> UACPI_BASE_AUTO -> 2 ^ 64 <= base_value bs ^ Z.of_nat 22.
Proof. destruct bs; [done|..]; intros _; by vm_compute. Qed.

(** The digits of a whole number: at least one. *)
Lemma repr_number fm bs v : bs <> UACPI_BASE_AUTO -> base fm = base_value bs -> 0 <= v < 2 ^ 64 ->
  exists ds, (r ← repr_loop 65 fm v []; if Z.of_nat (length r) =? 0 then repr_push 48 r else Some r) = Some (digit_char (uppercase fm) <$> ds) /\
    ds <> [] /\ (length ds <= 22)%nat /\ Forall (fun d => 0 <= d < base_value bs) ds /\ digits_value (base_value bs) ds = v.
Proof.
  intros Hb He Hv. pose proof (pow64_digits bs Hb). destruct (repr_loop_digits fm bs 22 Hb He 65 v [] ltac:(lia) ltac:(lia) ltac:(cbn; lia)) as (ds & -> & Hl & Hds & Hval).
  cbn [mbind option_bind]. rewrite app_nil_r, length_fmap. pose proof (base_value_pos bs Hb). destruct ds as [|d ds].
  - exists [0]. split_and_all; [by destruct (uppercase fm)|done|cbn; lia|repeat constructor; lia|exact Hval].
  - exists (d :: ds). rewrite (proj2 (Z.eqb_neq _ _)) by (cbn; lia). done.
Qed.

(** The text is read back when the padding does not part the sign from the digits. *)
Lemma number_read bs n s up ds : bs <> UACPI_BASE_AUTO -> ds <> [] -> Forall (fun d => 0 <= d < base_value bs) ds -> digits_value (base_value bs) ds < 2 ^ 64 ->
  uacpi_string_to_integer (number_text n s [] up ds) bs = (UACPI_STATUS_OK, signed_value s (digits_value (base_value bs) ds)).
Proof.
  intros Hb Hne Hds Hv. destruct ds as [|d ds]; [done|]. unfold number_text. rewrite app_nil_l, (number_tail bs s n up d ds) by done.
  by destruct (digits_loop_fits bs up (d :: ds) 0 0 Hb Hds ltac:(lia) Hv) as (c' & ->).
Qed.

Lemma digits_value_zeros b k ds : digits_value b (replicate k 0 ++ ds) = digits_value b ds.
Proof. unfold digits_value. rewrite foldl_app. f_equal. induction k as [|k IH]; [done|]. cbn. exact IH. Qed.

Definition sign_of (negative : bool) : sign := if negative then Minus else NoSign.

Lemma text_of_app es es' : text_of (es ++ es') = text_of es ++ text_of es'.
Proof. apply flat_map_app. Qed.

Lemma text_of_replicate k c : text_of (replicate k (One c)) = replicate k c.
Proof. induction k as [|k IH]; [done|]. cbn. by f_equal. Qed.

(** The text of a number: the sign, the padding, the digits. *)
Lemma write_integer_text fm bs v : bs <> UACPI_BASE_AUTO -> base fm = base_value bs -> 0 <= v < 2 ^ 64 ->
  prepend fm = false -> alternate_form fm = false -> left_justify fm = false ->
  let '(negative, m) := negative_of fm v in
  exists es ds, write_integer fm v = Some es /\ ds <> [] /\ Forall (fun d => 0 <= d < base_value bs) ds /\ digits_value (base_value bs) ds = m /\
    text_of es = sign_text (sign_of negative) ++ replicate (Z.to_nat (min_width fm - Z.of_nat (length ds))) (pad_char fm) ++ (digit_char (uppercase fm) <$> ds) /\
    0 <= m < 2 ^ 64 /\ signed_value (sign_of negative) m = v.
Proof.
  intros Hb He Hv Hp Ha Hl. destruct (negative_of fm v) as [negative m] eqn:En.
  assert (0 <= m < 2 ^ 64 /\ signed_value (sign_of negative) m = v) as [Hm Hs].
  { unfold negative_of in En. destruct (is_signed fm && (9223372036854775808 <=? v)) eqn:E; injection En as <- <-; [|done].
    apply andb_true_iff in E as [_ E%Z.leb_le]. rewrite u64_small by lia. cbn [sign_of signed_value]. split; [lia|].
    unfold u64. rewrite <- (Z.mod_unique _ _ (-1) v); lia. }
  destruct (repr_number fm bs m Hb He Hm) as (ds & Hrepr & Hne & Hlen & Hds & Hval). unfold write_integer. rewrite En, Hp, Ha, Hl. cbn [orb].
  destruct (repr_loop 65 fm m []) as [r|]; [|done]. cbn [mbind option_bind] in *. rewrite Hrepr. cbn [mbind option_bind]. rewrite length_fmap.
  eexists _, ds. do 4 (split; [done|]). split; [|done]. rewrite !text_of_app. f_equal; [by destruct negative|]. unfold write_padding. rewrite Hl.
  destruct (Z.leb_spec (min_width fm) (Z.of_nat (length ds))).
  - replace (Z.to_nat (min_width fm - Z.of_nat (length ds))) with 0%nat by lia. cbn. by rewrite app_nil_r.
  - rewrite text_of_replicate. cbn. by rewrite app_nil_r.
Qed.

(** Printing and parsing are inverse.  A 64-bit integer printed in octal, decimal or
    hexadecimal, signed or unsigned, at any width, never overruns the digit buffer, and
    [uacpi_string_to_integer] reads the number back from the text; of a negative number padded
    with spaces this takes a width that pads nothing, because the sign is written before the
    padding. *)
Theorem printed_integer_parses fm bs v :
  bs <> UACPI_BASE_AUTO -> base fm = base_value bs -> 0 <= v < 2 ^ 64 ->
  prepend fm = false -> alternate_form fm = false -> left_justify fm = false ->
  pad_char fm = 48 \/ pad_char fm = 32 /\ ((negative_of fm v).1 = false \/ min_width fm <= 1) ->
  exists es, write_integer fm v = Some es /\ uacpi_string_to_integer (text_of es) bs = (UACPI_STATUS_OK, v).
Proof.
  intros Hb He Hv Hp Ha Hl Hpad. pose proof (write_integer_text fm bs v Hb He Hv Hp Ha Hl) as H. destruct (negative_of fm v) as [negative m].
  destruct H as (es & ds & Hw & Hne & Hds & Hval & Ht & Hm & Hs). exists es. split; [done|]. rewrite Ht. set (k := Z.to_nat _) in *.
  assert (Hz : pad_char fm = 48 \/ k = 0%nat -> uacpi_string_to_integer (sign_text (sign_of negative) ++ replicate k (pad_char fm) ++ (digit_char (uppercase fm) <$> ds)) bs = (UACPI_STATUS_OK, v)).
  { intros Hk. pose proof (base_value_pos bs Hb). pose proof (number_read bs 0 (sign_of negative) (uppercase fm) (replicate k 0 ++ ds)) as Hr.
    rewrite digits_value_zeros, Hval, Hs in Hr. unfold number_text in Hr. rewrite fmap_app, fmap_replicate in Hr. cbn [spaces replicate app] in Hr.
    assert (replicate k (pad_char fm) = replicate k (digit_char (uppercase fm) 0)) as -> by (destruct Hk as [-> | ->]; [by destruct (uppercase fm)|done]).
    apply Hr; [done| | |lia]; [by destruct k|]. apply Forall_app. split; [|done]. apply Forall_replicate. lia. }
  destruct Hpad as [Hpad|[Hpad [Hn|Hw1]]]; [by apply Hz; left| |].
  - cbn in Hn. subst negative. cbn [sign_of sign_text app]. rewrite Hpad. pose proof (number_read bs k NoSign (uppercase fm) ds) as Hr. rewrite Hval in Hr. rewrite <- Hs. apply Hr; [done|done|done|lia].
  - apply Hz. right. destruct ds; [done|]. subst k. cbn [length]. lia.
Qed.

Lemma printed_integer_parses_witness :
  exists es, write_integer (fmt_spec_init <| is_signed := true |> <| pad_char := 48 |> <| min_width := 5 |>) 18446744073709551574 = Some es /\
    uacpi_string_to_integer (text_of es) UACPI_BASE_DEC = (UACPI_STATUS_OK, 18446744073709551574).
Proof. apply (printed_integer_parses _ UACPI_BASE_DEC); [discriminate|reflexivity|lia|reflexivity|reflexivity|reflexivity|left; reflexivity]. Defined.

(** The sign is written before the padding and does not count towards the width: [%5d] of -42
    has six characters, with the spaces behind the sign, where C has [  -42]. *)
Theorem sign_before_padding :
  (es ← write_integer (fmt_spec_init <| is_signed := true |> <| min_width := 5 |>) 18446744073709551574; Some (text_of es)) = Some (chars "-   42").
Proof. by vm_compute. Qed.

(** ** The arguments a format takes *)

Inductive kind := Integer | Text.
Definition kind_of (a : va) : kind := match a with Va_int _ => Integer | Va_str _ => Text end.

(** The kinds of the arguments a width or a precision takes, and the rest of the format unless
    it is malformed. *)
Definition star_takes (s : list Z) (must : bool) : list kind * option (list Z) :=
  match consume s "*" with
  | Some s => ([Integer], Some s)
  | None => ([], snd <$> parse_number s must 0)
  end.

Definition width_takes (s : list Z) : list kind * option (list Z) :=
  match star_takes s false with
  | (ks, Some s) => match consume s "." with Some s => let '(ks', r) := star_takes s true in (ks ++ ks', r) | None => (ks, Some s) end
  | r => r
  end.

(** The kind a conversion takes. *)
Definition integer_takes (s : list Z) : option (kind * list Z) :=
  match consume s "d" with
  | Some s => Some (Integer, s)
  | None => match consume s "i" with Some s => Some (Integer, s) | None => (fun r => (Integer, r.2)) <$> consume_one_of s "oxXu" end
  end.

Definition conversion_takes (s : list Z) : option (kind * list Z) :=
  match consume s "c" with
  | Some s => Some (Integer, s)
  | None =>
  match consume s "s" with
  | Some s => Some (Text, s)
  | None =>
  match consume s "p" with
  | Some s => Some (Integer, s)
  | None => integer_takes (default s (List.find (fun _ => true) (omap (consume s) ["hh"; "h"; "ll"; "z"; "l"])))
  end end end.

(** The kinds of the arguments of a whole format, up to its first malformed conversion. *)
Fixpoint takes (fuel : nat) (s : list Z) : list kind :=
  match fuel with
  | O => []
  | S f =>
    match (find_next_conversion s).2 with
    | [] => []
    | c :: after =>
      match consume (c :: after) "%%" with
      | Some s => takes f s
      | None =>
        let '(ks, r) := width_takes (flags_loop after fmt_spec_init).2 in
        ks ++ match r with
              | Some s => match conversion_takes s with Some (k, s) => k :: takes f s | None => [] end
              | None => []
              end
      end
    end
  end.

(** The arguments begin with one of each kind the format takes. *)
Definition arguments_fit (fmt : list Z) (args : list va) : Prop := takes (S (length fmt)) fmt `prefix_of` (kind_of <$> args).

(** Nothing of a format is read twice. *)
Lemma consume_length s token r : consume s token = Some r -> length s = (length (chars token) + length r)%nat.
Proof.
  unfold consume. generalize (chars token) as t. intros t. revert s. induction t as [|c t IH]; intros [|d s] H; cbn in H; try done; try (by simplify_eq).
  case_match; [|done]. apply IH in H. cbn. lia.
Qed.

Lemma consume_shorter s token r : consume s token = Some r -> (length r <= length s)%nat.
Proof. intros ->%consume_length. lia. Qed.

Lemma consume_one_of_shorter s l c r : consume_one_of s l = Some (c, r) -> (length r <= length s)%nat.
Proof. destruct s as [|d s]; [done|]. unfold consume_one_of. case_match; [|done]. intros ?. simplify_eq. cbn. lia. Qed.

Lemma digits_shorter s : (length (consume_digits s).2 <= length s)%nat.
Proof. induction s as [|c s IH]; cbn; [done|]. case_match; cbn; [lia|]. destruct (consume_digits s). cbn in *. lia. Qed.

Lemma parse_number_shorter s must old v r : parse_number s must old = Some (v, r) -> (length r <= length s)%nat.
Proof.
  unfold parse_number. pose proof (digits_shorter s) as H. destruct (consume_digits s) as [ds rest]. cbn in H.
  intros E. repeat case_match; simplify_eq; done.
Qed.

Lemma find_shorter s : (length (find_next_conversion s).2 <= length s)%nat.
Proof. induction s as [|c s IH]; cbn; [done|]. case_match; cbn; [lia|]. destruct (find_next_conversion s). cbn in *. lia. Qed.

Lemma flags_shorter s : forall fm, (length (flags_loop s fm).2 <= length s)%nat.
Proof. induction s as [|c s IH]; intros fm; cbn; [done|]. repeat case_match; cbn; try lia; (etransitivity; [apply IH|lia]). Qed.

Lemma flags_base s : forall fm, base (flags_loop s fm).1 = base fm.
Proof. induction s as [|c s IH]; intros fm; cbn; [done|]. repeat case_match; cbn; try done; by rewrite IH. Qed.

Lemma star_shorter s must ks r : star_takes s must = (ks, Some r) -> (length r <= length s)%nat.
Proof.
  unfold star_takes. destruct (consume s "*") as [s'|] eqn:E; [intros ?; simplify_eq; by eapply consume_shorter|].
  destruct (parse_number s must 0) as [[v r']|] eqn:Ep; cbn; intros ?; simplify_eq. by eapply parse_number_shorter.
Qed.

Lemma width_shorter s ks r : width_takes s = (ks, Some r) -> (length r <= length s)%nat.
Proof.
  unfold width_takes. destruct (star_takes s false) as [ks1 [s1|]] eqn:E; [|intros ?; simplify_eq]. apply star_shorter in E.
  destruct (consume s1 ".") as [s2|] eqn:E2; [|by intros ?; simplify_eq]. apply consume_shorter in E2.
  destruct (star_takes s2 true) as [ks2 [s3|]] eqn:E3; intros ?; simplify_eq. apply star_shorter in E3. lia.
Qed.

Lemma integer_shorter s k r : integer_takes s = Some (k, r) -> (length r <= length s)%nat.
Proof.
  unfold integer_takes. destruct (consume s "d") eqn:E; [intros ?; simplify_eq; by eapply consume_shorter|].
  destruct (consume s "i") eqn:E2; [intros ?; simplify_eq; by eapply consume_shorter|].
  destruct (consume_one_of s "oxXu") as [[c r']|] eqn:E3; cbn; intros ?; simplify_eq. by eapply consume_one_of_shorter.
Qed.

Lemma conversion_shorter s k r : conversion_takes s = Some (k, r) -> (length r <= length s)%nat.
Proof.
  assert (Hc : forall t x, consume s t = Some x -> Some (Integer, x) = Some (k, r) \/ Some (Text, x) = Some (k, r) -> (length r <= length s)%nat)
    by (intros t x E [?|?]; simplify_eq; by eapply consume_shorter).
  assert (Hi : forall t x, consume s t = Some x -> integer_takes x = Some (k, r) -> (length r <= length s)%nat)
    by (intros t x E%consume_shorter ?%integer_shorter; lia).
  unfold conversion_takes. destruct (consume s "c") eqn:E1; [eauto|]. destruct (consume s "s") eqn:E2; [eauto|]. destruct (consume s "p") eqn:E3; [eauto|].
  cbn [omap list_omap]. destruct (consume s "hh") eqn:E4; [by eapply Hi|]. destruct (consume s "h") eqn:E5; [by eapply Hi|]. destruct (consume s "ll") eqn:E6; [by eapply Hi|].
  destruct (consume s "z") eqn:E7; [by eapply Hi|]. destruct (consume s "l") eqn:E8; [by eapply Hi|]. apply integer_shorter.
Qed.

(** ** Conversions of arguments that fit *)

(** No conversion overruns the digit buffer. *)
Lemma write_integer_fits fm v : base fm = 8 \/ base fm = 10 \/ base fm = 16 -> 0 <= v < 2 ^ 64 -> exists es, write_integer fm v = Some es.
Proof.
  intros Hbase Hv. assert (exists bs, bs <> UACPI_BASE_AUTO /\ base fm = base_value bs) as (bs & Hb & He)
    by (destruct Hbase as [H|[H|H]]; [by exists UACPI_BASE_OCT|by exists UACPI_BASE_DEC|by exists UACPI_BASE_HEX]).
  unfold write_integer. destruct (negative_of fm v) as [negative m] eqn:En.
  assert (0 <= m < 2 ^ 64) as Hm by (unfold negative_of in En; case_match; simplify_eq; [apply u64_range|done]).
  destruct (repr_number fm bs m Hb He Hm) as (ds & Hrepr & _ & Hlen & _).
  destruct (repr_loop 65 fm m []) as [r|]; [|done]. cbn [mbind option_bind] in *. rewrite Hrepr. cbn [mbind option_bind].
  unfold repr_push. rewrite length_fmap. destruct (alternate_form fm), (base fm =? 16), (base fm =? 8); cbn [mbind option_bind];
    rewrite ?(proj2 (Z.ltb_lt (Z.of_nat (length ds)) _)) by (unfold REPR_BUFFER_SIZE; lia); cbn [mbind option_bind];
    rewrite ?(proj2 (Z.ltb_lt (Z.of_nat (length (_ :: _))) _)) by (cbn [length]; rewrite length_fmap; unfold REPR_BUFFER_SIZE; lia); cbn [mbind option_bind]; by eexists.
Qed.

(** The result [r] of a part of the format with the rest [o], when the arguments left over have the kinds [ks]. *)
Definition taken {A} (r : conv (A * list Z * list va)) (o : option (list Z)) (ks : list kind) (P : A -> Prop) : Prop :=
  match o with
  | None => r = Invalid
  | Some s => exists a rest, r = Done (a, s, rest) /\ kind_of <$> rest = ks /\ P a
  end.

Lemma take_integer args ks : kind_of <$> args = Integer :: ks -> exists v rest, take_int args = Some (v, rest) /\ kind_of <$> rest = ks.
Proof. destruct args as [|[v|] args]; intros H; simplify_eq/=. by exists v, args. Qed.

Lemma star_taken s args must ks : kind_of <$> args = (star_takes s must).1 ++ ks ->
  taken (number_or_star s args must 0) (star_takes s must).2 ks (fun _ => True).
Proof.
  unfold star_takes, number_or_star. destruct (consume s "*") as [s'|]; cbn [fst snd app taken].
  - intros (v & rest & -> & Hr)%take_integer. by eexists _, rest.
  - intros H. destruct (parse_number s must 0) as [[v r]|]; cbn; [by eexists v, args|done].
Qed.

Lemma width_taken s args fm ks : kind_of <$> args = (width_takes s).1 ++ ks ->
  taken (width_and_precision s args fm) (width_takes s).2 ks (fun fm' => base fm' = base fm).
Proof.
  unfold width_takes, width_and_precision. destruct (star_takes s false) as [ks1 o1] eqn:E1. intros H.
  assert (exists ks1', kind_of <$> args = ks1 ++ ks1' /\ (o1 = None \/ True)) as (ks1' & H1 & _).
  { destruct o1 as [s1|]; [destruct (consume s1 "."); [destruct (star_takes _ true); cbn [fst] in H; rewrite <- app_assoc in H|]|]; eauto. }
  pose proof (star_taken s args false ks1') as Ht. rewrite E1 in Ht. specialize (Ht H1). cbn [snd taken] in Ht.
  destruct o1 as [s1|]; [|by rewrite Ht]. destruct Ht as (w & rest & -> & Hr & _). destruct (consume s1 ".") as [s2|]; cbn [fst snd] in H.
  - pose proof (star_taken s2 rest true ks) as Ht. destruct (star_takes s2 true) as [ks2 o2]. cbn [fst snd] in *.
    rewrite H1, <- app_assoc in H. apply app_inv_head in H. rewrite <- H in Ht. specialize (Ht Hr). destruct o2 as [s3|]; cbn [taken] in *; [|by rewrite Ht].
    destruct Ht as (pr & rest' & -> & Hr' & _). by eexists _, rest'.
  - rewrite H1 in H. apply app_inv_head in H. subst ks1'. by eexists _, rest.
Qed.

Lemma integer_taken sv uv s args fm ks : base fm = 10 ->
  match integer_takes s with
  | None => int_conversion sv uv s args fm = Invalid
  | Some (k, r) => kind_of <$> args = k :: ks -> taken (int_conversion sv uv s args fm) (Some r) ks (fun _ => True)
  end.
Proof.
  intros Hb. unfold integer_takes, int_conversion, taken.
  assert (Hs : forall v, exists es, write_integer (fm <| is_signed := true |>) (u64 (sv v)) = Some es) by (intros v; apply write_integer_fits; [by right; left|apply u64_range]).
  assert (Hu : forall fl v, exists es, write_integer ((fm <| base := base_from_specifier fl |>) <| uppercase := fl =? 88 |>) (u64 (uv v)) = Some es).
  { intros fl v. apply write_integer_fits; [|apply u64_range]. cbn. unfold base_from_specifier. repeat case_match; lia. }
  destruct (consume s "d") as [r|]; [|destruct (consume s "i") as [r|]]; cbv iota beta.
  1,2: intros (v & rest & -> & Hr)%take_integer; destruct (Hs v) as [es ->]; by eexists es, rest.
  destruct (consume_one_of s "oxXu") as [[fl r]|]; cbn [fmap option_fmap option_map snd]; [|done]. intros (v & rest & -> & Hr)%take_integer. destruct (Hu fl v) as [es ->]. by eexists es, rest.
Qed.

Lemma conversion_taken s args fm ks : base fm = 10 ->
  match conversion_takes s with
  | None => conversion s args fm = Invalid
  | Some (k, r) => kind_of <$> args = k :: ks -> taken (conversion s args fm) (Some r) ks (fun _ => True)
  end.
Proof.
  intros Hb. unfold conversion_takes, conversion. destruct (consume s "c") as [r|]; [intros (v & rest & -> & Hr)%take_integer; by eexists _, rest|].
  destruct (consume s "s") as [r|]; [destruct args as [|[?|t] args]; intros H; simplify_eq/=; by eexists _, args|].
  destruct (consume s "p") as [r|].
  { intros (v & rest & -> & Hr)%take_integer.
    destruct (write_integer_fits (((fm <| base := 16 |>) <| min_width := 16 |>) <| pad_char := 48 |>) (u64 v)) as [es ->]; [by right; right|apply u64_range|]. by eexists es, rest. }
  cbn [omap list_omap]. destruct (consume s "hh"); [by apply integer_taken|]. destruct (consume s "h"); [by apply integer_taken|].
  destruct (consume s "ll"); [by apply integer_taken|]. destruct (consume s "z"); [by apply integer_taken|]. destruct (consume s "l"); by apply integer_taken.
Qed.

(** With arguments that fit, the loop comes to an end. *)
Lemma format_loop_ends fuel : forall s args, (length s < fuel)%nat -> takes fuel s `prefix_of` (kind_of <$> args) -> exists es ok, format_loop fuel s args = Some (es, ok).
Proof.
  induction fuel as [|f IH]; intros s args Hf [ks Hks]; [lia|]. cbn [format_loop takes] in *. destruct s as [|c s]; [by eexists _, _|].
  pose proof (find_shorter (c :: s)) as Hlen. destruct (find_next_conversion (c :: s)) as [text s1]. cbn [snd] in *.
  destruct s1 as [|c1 after]; [by eexists _, _|]. cbn [length] in *. destruct (consume (c1 :: after) "%%") as [r|] eqn:Ec.
  { assert (length r <= length after)%nat by (apply consume_length in Ec; cbn in Ec; lia).
    destruct (IH r args) as (es & ok & ->); [lia|by exists ks|]. by eexists _, _. }
  pose proof (flags_shorter after fmt_spec_init) as Hfl. pose proof (flags_base after fmt_spec_init) as Hfb.
  destruct (flags_loop after fmt_spec_init) as [fm s2]. cbn [fst snd] in *. pose proof (width_taken s2 args fm) as Hw. pose proof (width_shorter s2) as Hws.
  destruct (width_takes s2) as [kw o]. cbn [fst snd] in *. rewrite <- app_assoc in Hks. specialize (Hw _ Hks). destruct o as [s3|]; cbn [taken] in Hw; [|rewrite Hw; by eexists _, _].
  destruct Hw as (fm' & rest & -> & Hr & Hb). specialize (Hws _ _ eq_refl). pose proof (conversion_shorter s3) as Hcs.
  destruct (conversion_takes s3) as [[k s4]|] eqn:Ek.
  - pose proof (conversion_taken s3 rest fm' (takes f s4 ++ ks)) as Hc. rewrite Ek in Hc. destruct Hc as (es & rest' & -> & Hr' & _); [by rewrite Hb, Hfb|exact Hr|].
    specialize (Hcs _ _ eq_refl). destruct (IH s4 rest') as (es' & ok & ->); [lia|by exists ks|]. by eexists _, _.
  - pose proof (conversion_taken s3 rest fm' []) as Hc. rewrite Ek in Hc. rewrite Hc by (by rewrite Hb, Hfb). by eexists _, _.
Qed.

(** C40: [uacpi_vsnprintf] returns and never writes outside its buffer: for every format, every
    list of arguments of the kinds the format takes and every size of the buffer, 0 included,
    whatever the widths (the count of characters wraps around at 2^64).  Of a text shorter than
    2^64 characters it leaves in the buffer the text cut to one character less than the buffer,
    a NUL behind it, and what was there before behind that, and returns the length of the whole
    text as an [int].  A format with a malformed conversion gives -1; then the buffer holds what
    comes before that conversion, as far as it has room, without a NUL. *)
Theorem vsnprintf_truncates buf fmt args :
  arguments_fit fmt args ->
  exists es ok buf', format_loop (S (length fmt)) fmt args = Some (es, ok) /\
    let t := text_of es in
    uacpi_vsnprintf buf fmt args = Some (if (ok : bool) then i32 (Z.of_nat (length t)) else -1, buf') /\
    length buf' = length buf /\
    (Z.of_nat (length t) < 2 ^ 64 ->
       buf' = if negb ok then overlay t buf
              else if decide (buf = []) then []
              else take (length buf - 1) t ++ 0 :: drop (S (length t `min` (length buf - 1))) buf).
Proof.
  intros Ha. destruct (format_loop_ends (S (length fmt)) fmt args ltac:(lia) Ha) as (es & ok & He). exists es, ok. unfold uacpi_vsnprintf. rewrite He. cbn [mbind option_bind].
  pose proof (run_overlay es [] buf) as Ho. change (Z.of_nat (length (@nil Z))) with 0 in Ho. rewrite app_nil_l in Ho.
  assert (overlay [] buf = buf) as Hn by (unfold overlay; by rewrite take_nil). rewrite Hn in Ho. clear Hn.
  destruct (run_inside es (FmtBuf buf 0)) as ([b bw] & Hr & Hl & Hw); [done|]. rewrite Hr in *. cbn [buffer bytes_written mbind option_bind] in *.
  rewrite Z.add_0_l in Hw. destruct ok; cbn [negb].
  - assert (Hi : i32 bw = i32 (Z.of_nat (length (text_of es)))).
    { subst bw. unfold i32, u64. f_equal. rewrite <- Z.add_mod_idemp_l by done. change 18446744073709551616 with (4294967296 * 4294967296).
      rewrite <- Znumtheory.Zmod_div_mod by (lia || by apply Z.divide_factor_l). by rewrite Z.add_mod_idemp_l. }
    unfold capacity. cbn [buffer]. destruct (decide (buf = [])) as [->|Hb].
    + destruct b; [|done]. eexists. split_and_all; [done|cbn; by rewrite Hi|done|done].
    + assert (0 < length buf)%nat by (destruct buf; cbn; [done|lia]). rewrite truthy_nz by lia. subst bw. pose proof (u64_range (Z.of_nat (length (text_of es)))).
      rewrite zset_ok by lia. cbn [mbind option_bind]. eexists. split_and_all; [done|by rewrite Hi|by rewrite length_insert|]. intros Hlt. specialize (Ho Hlt).
      injection Ho as -> Hu. rewrite Hu, overlay_length. pose proof (overlay_nul (text_of es) buf Hb) as Hnul. rewrite zset_ok in Hnul by (rewrite overlay_length; lia). by injection Hnul.
  - exists b. split_and_all; try done. intros Hlt. specialize (Ho Hlt). by injection Ho as -> _.
Qed.

(** A width taken from an argument, a string and an integer, in a buffer that is too small. *)
Lemma vsnprintf_truncates_witness :
  exists buf', uacpi_vsnprintf (replicate 8 170) (chars "%*d|%s") [Va_int 5; Va_int 42; Va_str (Some (chars "abcd"))] = Some (10, buf') /\ buf' = chars "   42|a" ++ [0].
Proof.
  destruct (vsnprintf_truncates (replicate 8 170) (chars "%*d|%s") [Va_int 5; Va_int 42; Va_str (Some (chars "abcd"))]) as (es & ok & buf' & He & Hv & _ & Hb).
  - exists []. vm_compute. reflexivity.
  - vm_compute in He. injection He as <- <-. exists buf'. split; [exact Hv|]. exact (Hb eq_refl).
Defined.
