(* ===== verification/AcpiLock.v ===== *)
(** * Locks of uACPI, [src/src/uacpi/mutex.c], [include/uacpi/internal/mutex.h], [shareable.c]

    Recursive locks, readers-writer locks, AML mutexes, the global lock shared with the
    firmware, and reference counts.  A locking function is a program over the atomic actions
    it performs: acquiring and releasing a native mutex, loads and stores of shared
    variables, a compare-and-exchange, waiting for an event.  The same program is run alone
    ([exec], as in this kernel, whose mutexes always grant) and action by action among other
    threads ([pstep]).  Log messages are left out. *)

From S2P Require Import Prelude Mem CString Block KernelApi AcpiGas AcpiRegs.

Definition UACPI_STATUS_HARDWARE_TIMEOUT : Z := 17.
Definition UACPI_STATUS_TIMEOUT : Z := 18.
Definition UACPI_STATUS_DENIED : Z := 20.
Definition UACPI_THREAD_ID_NONE : Z := 18446744073709551615.

(** ** Programs *)

(** The variables: owner and depth of a recursive lock or an AML mutex, the reader count of
    a readers-writer lock, the firmware's lock word, and members of the runtime context. *)
Inductive var := owner | depth | num_readers | global_lock | global_lock_pending | global_lock_seq_num | global_lock_acquired | out_seq.

#[global] Instance var_eq : EqDecision var.
Proof. solve_decision. Defined.

Inductive prog :=
  | Ret (ret : Z)
  | Acquire (mtx timeout : Z) (k : Z -> prog)
  | Release (mtx : Z) (k : prog)
  | Load (v : var) (k : Z -> prog)
  | Store (v : var) (x : Z) (k : prog)
  | Cmpxchg (v : var) (expected desired : Z) (k : bool -> Z -> prog)
  | WaitEvent (event timeout : Z) (k : Z -> prog)
  | NotifyFirmware (k : prog).

Fixpoint then_do (p : prog) (f : Z -> prog) : prog :=
  match p with
  | Ret r => f r
  | Acquire h t k => Acquire h t (fun r => then_do (k r) f)
  | Release h k => Release h (then_do k f)
  | Load v k => Load v (fun x => then_do (k x) f)
  | Store v x k => Store v x (then_do k f)
  | Cmpxchg v e d k => Cmpxchg v e d (fun b x => then_do (k b x) f)
  | WaitEvent e t k => WaitEvent e t (fun b => then_do (k b) f)
  | NotifyFirmware k => NotifyFirmware (then_do k f)
  end.

Declare Scope prog_scope.
Delimit Scope prog_scope with prog.
Notation "r <~ p ; q" := (then_do p%prog (fun r => q%prog)) (at level 60, p at level 200, q at level 200, right associativity) : prog_scope.
#[local] Open Scope prog_scope.

(** ** Native mutexes *)

Definition uacpi_acquire_native_mutex (mtx : Z) : prog :=
  if mtx =? 0 then Ret UACPI_STATUS_INVALID_ARGUMENT else Acquire mtx 65535 Ret.

Definition uacpi_acquire_native_mutex_with_timeout (mtx timeout : Z) : prog :=
  if mtx =? 0 then Ret UACPI_STATUS_INVALID_ARGUMENT else Acquire mtx timeout Ret.

Definition uacpi_release_native_mutex (mtx : Z) : prog :=
  if mtx =? 0 then Ret UACPI_STATUS_INVALID_ARGUMENT else Release mtx (Ret UACPI_STATUS_OK).

Definition uacpi_acquire_native_mutex_may_be_null (mtx : Z) : prog :=
  if mtx =? 0 then Ret UACPI_STATUS_OK else Acquire mtx 65535 Ret.

Definition uacpi_release_native_mutex_may_be_null (mtx : Z) : prog :=
  if mtx =? 0 then Ret UACPI_STATUS_OK else Release mtx (Ret UACPI_STATUS_OK).

(** ** Recursive locks: [this_id] is the calling thread *)

Definition uacpi_recursive_lock_acquire (mutex this_id : Z) : prog :=
  Load owner (fun id =>
    if id =? this_id then Load depth (fun d => Store depth (u64 (d + 1)) (Ret UACPI_STATUS_OK))
    else
      ret <~ uacpi_acquire_native_mutex mutex;
      if truthy ret then Ret ret
      else Store owner this_id (Store depth 1 (Ret ret))).

Definition uacpi_recursive_lock_release (mutex : Z) : prog :=
  Load depth (fun d => Store depth (u64 (d - 1))
    (if 1 <? d then Ret UACPI_STATUS_OK
     else Store owner UACPI_THREAD_ID_NONE (uacpi_release_native_mutex mutex))).

(** ** Readers-writer locks *)

Definition uacpi_rw_lock_read (read_mutex write_mutex : Z) : prog :=
  ret <~ uacpi_acquire_native_mutex read_mutex;
  if truthy ret then Ret ret
  else
    Load num_readers (fun n => Store num_readers (u64 (n + 1))
      (ret <~ (if n =? 0
               then r <~ uacpi_acquire_native_mutex write_mutex; if truthy r then Store num_readers 0 (Ret r) else Ret r
               else Ret ret);
       Release read_mutex (Ret ret))).

Definition uacpi_rw_unlock_read (read_mutex write_mutex : Z) : prog :=
  ret <~ uacpi_acquire_native_mutex read_mutex;
  if truthy ret then Ret ret
  else
    Load num_readers (fun n => Store num_readers (u64 (n - 1))
      (_ <~ (if n =? 1 then uacpi_release_native_mutex write_mutex else Ret ret);
       Release read_mutex (Ret ret))).

Definition uacpi_rw_lock_write (write_mutex : Z) : prog := uacpi_acquire_native_mutex write_mutex.
Definition uacpi_rw_unlock_write (write_mutex : Z) : prog := uacpi_release_native_mutex write_mutex.

(** ** Creation and deletion *)

Record uacpi_recursive_lock := RecursiveLock { rl_mutex : Z; rl_depth : Z; rl_owner : Z }.
Record uacpi_rw_lock := RwLock { read_mutex : Z; write_mutex : Z; rw_num_readers : Z }.

Section Create.
Context {hhdm : Z} {K : Type} `{KM : KernelMem hhdm K}.

Definition uacpi_recursive_lock_init (h : K) (lock : uacpi_recursive_lock) : option (K * Z * uacpi_recursive_lock) :=
  '(h, mutex) ← uacpi_kernel_create_mutex h;
  if mutex =? 0 then Some (h, UACPI_STATUS_OUT_OF_MEMORY, RecursiveLock mutex (rl_depth lock) (rl_owner lock))
  else Some (h, UACPI_STATUS_OK, RecursiveLock mutex 0 UACPI_THREAD_ID_NONE).

(** [free_mutex]: a handle that is there is freed and cleared. *)
Definition free_mutex (h : K) (mutex : Z) : option K := if mutex =? 0 then Some h else uacpi_kernel_free_mutex h mutex.

Definition uacpi_recursive_lock_deinit (h : K) (lock : uacpi_recursive_lock) : option (K * Z * uacpi_recursive_lock) :=
  h ← free_mutex h (rl_mutex lock); Some (h, UACPI_STATUS_OK, RecursiveLock 0 0 UACPI_THREAD_ID_NONE).

Definition uacpi_rw_lock_init (h : K) (lock : uacpi_rw_lock) : option (K * Z * uacpi_rw_lock) :=
  '(h, rm) ← uacpi_kernel_create_mutex h;
  if rm =? 0 then Some (h, UACPI_STATUS_OUT_OF_MEMORY, RwLock rm (write_mutex lock) (rw_num_readers lock))
  else
    '(h, wm) ← uacpi_kernel_create_mutex h;
    if wm =? 0 then h ← uacpi_kernel_free_mutex h rm; Some (h, UACPI_STATUS_OUT_OF_MEMORY, RwLock 0 wm (rw_num_readers lock))
    else Some (h, UACPI_STATUS_OK, RwLock rm wm 0).

Definition uacpi_rw_lock_deinit (h : K) (lock : uacpi_rw_lock) : option (K * Z * uacpi_rw_lock) :=
  h ← free_mutex h (read_mutex lock);
  h ← free_mutex h (write_mutex lock);
  Some (h, UACPI_STATUS_OK, RwLock 0 0 0).
End Create.

(** ** The global lock *)

Definition GLOBAL_LOCK_PENDING : Z := 1 <<< 0.
Definition GLOBAL_LOCK_OWNED_BIT : Z := 1.
Definition GLOBAL_LOCK_OWNED : Z := 1 <<< GLOBAL_LOCK_OWNED_BIT.
Definition GLOBAL_LOCK_MASK : Z := 3.

Definition acquired_word (value : Z) : Z :=
  let new_value := (value &&& u32 (Z.lnot GLOBAL_LOCK_MASK)) ||| GLOBAL_LOCK_OWNED in
  if truthy ((value &&& GLOBAL_LOCK_OWNED) >>> GLOBAL_LOCK_OWNED_BIT) then new_value ||| GLOBAL_LOCK_PENDING else new_value.

(** The loops repeat while the firmware interferes; without fuel they give up with [lost]. *)
Fixpoint try_acquire_loop (fuel : nat) (lost value : Z) : prog :=
  match fuel with
  | O => Ret lost
  | S f => Cmpxchg global_lock value (acquired_word value) (fun done seen =>
      if done then Ret (if truthy ((value &&& GLOBAL_LOCK_OWNED) >>> GLOBAL_LOCK_OWNED_BIT) then 0 else 1)
      else try_acquire_loop f lost seen)
  end.
Definition try_acquire_global_lock_from_firmware (fuel : nat) (lost : Z) : prog := Load global_lock (try_acquire_loop fuel lost).

Fixpoint release_loop (fuel : nat) (lost value : Z) : prog :=
  match fuel with
  | O => Ret lost
  | S f => Cmpxchg global_lock value (value &&& u32 (Z.lnot GLOBAL_LOCK_MASK)) (fun done seen =>
      if done then Ret (value &&& GLOBAL_LOCK_PENDING) else release_loop f lost seen)
  end.
Definition do_release_global_lock_to_firmware (fuel : nat) (lost : Z) : prog := Load global_lock (release_loop fuel lost).

(** What does not change: whether there is a global lock, the handles of its spinlock, its
    event and its mutex, the namespace's write mutex, the initialization level, and how often the
    firmware may interfere. *)
Record lock_ctx := LockCtx {
  has_global_lock : bool; global_lock_spinlock : Z; global_lock_event : Z; global_lock_mutex : Z; namespace_mutex : Z; lk_init_level : Z; interference : nat }.

Section GlobalLock.
Context (ctx : lock_ctx).

(** The attempts: [success] at the end. *)
Fixpoint firmware_loop (fuel : nat) (spins : Z) (k : Z -> prog) : prog :=
  match fuel with
  | O => k 0
  | S f =>
    let spins := u16 (spins + 1) in
    success <~ try_acquire_global_lock_from_firmware (interference ctx) 0;
    if truthy success then k success
    else if spins =? 65535 then k success
    else
      Store global_lock_pending 1 (Release (global_lock_spinlock ctx) (WaitEvent (global_lock_event ctx) 65535 (fun _ =>
        Acquire (global_lock_spinlock ctx) 65535 (fun _ => firmware_loop f spins k))))
  end.

Definition uacpi_acquire_global_lock_from_firmware : prog :=
  if negb (has_global_lock ctx) then Ret UACPI_STATUS_OK
  else
    Acquire (global_lock_spinlock ctx) 65535 (fun _ =>
      firmware_loop (Z.to_nat 65535) 0 (fun success =>
        Store global_lock_pending 0 (Release (global_lock_spinlock ctx)
          (Ret (if truthy success then UACPI_STATUS_OK else UACPI_STATUS_HARDWARE_TIMEOUT))))).

Definition uacpi_release_global_lock_to_firmware : prog :=
  if negb (has_global_lock ctx) then Ret 0
  else
    pending <~ do_release_global_lock_to_firmware (interference ctx) 0;
    if truthy pending then NotifyFirmware (Ret 0) else Ret 0.

(** [out] says whether the caller gave a place for the sequence number. *)
Definition uacpi_acquire_global_lock (timeout : Z) (out : bool) : prog :=
  if lk_init_level ctx <? UACPI_INIT_LEVEL_SUBSYSTEM_INITIALIZED then Ret UACPI_STATUS_INIT_LEVEL_MISMATCH
  else if negb out then Ret UACPI_STATUS_INVALID_ARGUMENT
  else
    ret <~ uacpi_acquire_native_mutex_with_timeout (global_lock_mutex ctx) timeout;
    if truthy ret then Ret ret
    else
      ret <~ uacpi_acquire_global_lock_from_firmware;
      if truthy ret then _ <~ uacpi_release_native_mutex (global_lock_mutex ctx); Ret ret
      else
        let finish := Load global_lock_seq_num (fun n =>
          Store global_lock_seq_num (u32 (n + 1)) (Store out_seq n (Store global_lock_acquired 1 (Ret UACPI_STATUS_OK)))) in
        Load global_lock_seq_num (fun n => if n =? 4294967295 then Store global_lock_seq_num 0 finish else finish).

Definition uacpi_release_global_lock (seq : Z) : prog :=
  if lk_init_level ctx <? UACPI_INIT_LEVEL_SUBSYSTEM_INITIALIZED then Ret UACPI_STATUS_INIT_LEVEL_MISMATCH
  else
    Load global_lock_acquired (fun acquired =>
      if negb (truthy acquired) then Ret UACPI_STATUS_INVALID_ARGUMENT
      else Load global_lock_seq_num (fun n =>
        if negb (seq =? n) then Ret UACPI_STATUS_INVALID_ARGUMENT
        else
          Store global_lock_acquired 0
            (_ <~ uacpi_release_global_lock_to_firmware;
             _ <~ uacpi_release_native_mutex (global_lock_mutex ctx);
             Ret UACPI_STATUS_OK))).

(** ** AML mutexes *)

Definition uacpi_this_thread_owns_aml_mutex (this_id : Z) : prog := Load owner (fun id => Ret (if id =? this_id then 1 else 0)).

Definition uacpi_acquire_aml_mutex (handle this_id timeout : Z) : prog :=
  Load owner (fun id =>
    if id =? this_id then
      Load depth (fun d => if d =? 65535 then Ret UACPI_STATUS_DENIED else Store depth (u16 (d + 1)) (Ret UACPI_STATUS_OK))
    else
      let out ret := (_ <~ uacpi_rw_lock_write (namespace_mutex ctx); Ret ret) in
      _ <~ uacpi_rw_unlock_write (namespace_mutex ctx);
      ret <~ uacpi_acquire_native_mutex_with_timeout handle timeout;
      if truthy ret then out ret
      else
        ret <~ (if handle =? global_lock_mutex ctx then uacpi_acquire_global_lock_from_firmware else Ret ret);
        if truthy ret then _ <~ uacpi_release_native_mutex handle; out ret
        else Store owner this_id (Store depth 1 (out ret))).

Definition uacpi_release_aml_mutex (handle : Z) : prog :=
  Load depth (fun d => Store depth (u16 (d - 1))
    (if 1 <? d then Ret UACPI_STATUS_OK
     else
       _ <~ (if handle =? global_lock_mutex ctx then uacpi_release_global_lock_to_firmware else Ret 0);
       Store owner UACPI_THREAD_ID_NONE (_ <~ uacpi_release_native_mutex handle; Ret UACPI_STATUS_OK))).
End GlobalLock.

(** ** Reference counts, shareable.c *)

Definition BUGGED_REFCOUNT : Z := 4294967295.

(** The new count comes with the result. *)
Definition uacpi_shareable_init : Z := 1.
Definition uacpi_make_shareable_bugged : Z := BUGGED_REFCOUNT.
Definition uacpi_bugged_shareable (count : Z) : Z * bool :=
  let count := if count =? 0 then uacpi_make_shareable_bugged else count in (count, count =? BUGGED_REFCOUNT).
Definition uacpi_shareable_ref (count : Z) : Z * Z :=
  let '(count, bugged) := uacpi_bugged_shareable count in
  if (bugged : bool) then (count, BUGGED_REFCOUNT) else (u32 (count + 1), u32 (u32 (count + 1) - 1)).
Definition uacpi_shareable_unref (count : Z) : Z * Z :=
  let '(count, bugged) := uacpi_bugged_shareable count in
  if (bugged : bool) then (count, BUGGED_REFCOUNT) else (u32 (count - 1), u32 (u32 (count - 1) + 1)).
(** The flag says that [do_free] is called. *)
Definition uacpi_shareable_unref_and_delete_if_last (handle count : Z) : Z * bool :=
  if handle =? 0 then (count, false)
  else
    let '(count, bugged) := uacpi_bugged_shareable count in
    if (bugged : bool) then (count, false)
    else let '(count, old) := uacpi_shareable_unref count in (count, old =? 1).
Definition uacpi_shareable_refcount (count : Z) : Z := count.

(** ** Running a program alone *)

Definition store : Type := var -> Z.
Definition set_var (s : store) (v : var) (x : Z) : store := fun v' => if decide (v' = v) then x else s v'.

(** What others can see of a run. *)
Inductive event := Locked (mtx : Z) | Unlocked (mtx : Z) | Waited | Notified.

(** The kernel's mutexes and events always grant. *)
Fixpoint exec (p : prog) (s : store) : Z * store * list event :=
  match p with
  | Ret r => (r, s, [])
  | Acquire h t k => let '(r, s, es) := exec (k (uacpi_kernel_acquire_mutex h t)) s in (r, s, Locked h :: es)
  | Release h k => let '(r, s, es) := exec k s in (r, s, Unlocked h :: es)
  | Load v k => exec (k (s v)) s
  | Store v x k => exec k (set_var s v x)
  | Cmpxchg v e d k => if s v =? e then exec (k true e) (set_var s v d) else exec (k false (s v)) s
  | WaitEvent e t k => let '(r, s, es) := exec (k (uacpi_kernel_wait_for_event e t)) s in (r, s, Waited :: es)
  | NotifyFirmware k => let '(r, s, es) := exec k s in (r, s, Notified :: es)
  end.

Lemma set_var_eq s v x : set_var s v x v = x.
Proof. unfold set_var. by rewrite decide_True. Qed.
Lemma set_var_ne s v v' x : v' <> v -> set_var s v x v' = s v'.
Proof. intros. unfold set_var. by rewrite decide_False. Qed.

Lemma exec_then p f s : exec (then_do p f) s = let '(r, s, es) := exec p s in let '(r, s, es') := exec (f r) s in (r, s, es ++ es').
Proof.
  revert s. induction p as [r|h t k IH|h k IHk|v k IH|v x k IHk|v e d k IH|e t k IH|k IHk]; intros s; cbn [then_do exec].
  - by destruct (exec (f r) s) as [[? ?] ?].
  - rewrite IH. destruct (exec (k _) s) as [[r1 s1] es1]. by destruct (exec (f r1) s1) as [[? ?] ?].
  - rewrite IHk. destruct (exec k s) as [[r1 s1] es1]. by destruct (exec (f r1) s1) as [[? ?] ?].
  - apply IH.
  - apply IHk.
  - destruct (s v =? e); apply IH.
  - rewrite IH. destruct (exec (k _) s) as [[r1 s1] es1]. by destruct (exec (f r1) s1) as [[? ?] ?].
  - rewrite IHk. destruct (exec k s) as [[r1 s1] es1]. by destruct (exec (f r1) s1) as [[? ?] ?].
Qed.
