(* ===== verification/AcpiRwLock.v ===== *)
(** * Readers-writer locks among threads

    Any number of threads call the locking functions of [mutex.c] and run them one atomic
    action at a time, in any order, over the native mutexes of a host.  Over mutexes that
    exclude, as [kernel_api.h] asks of the host, a reader and a writer, or two writers, never hold the
    lock together, and some thread can always go on.  The mutexes of this kernel
    ([kernel_api.c]) do not exclude, and over them the lock does not either. *)

From stdpp Require Import relations.
From S2P Require Import Prelude Mem CString KernelApi AcpiLock.

(** ** Programs among threads *)

Record shared := Shared { vars : store; locked : Z -> bool }.

Definition set_locked (s : shared) (h : Z) (b : bool) : shared := Shared (vars s) (fun h' => if h' =? h then b else locked s h').

(** What the host provides: whether a call that waits for a mutex returns with it while it is held
    ([true]) or free ([false]), and the identifier of each thread. *)
Record mutex_host := MutexHost { grants : bool -> bool; thread_id : nat -> Z }.

(** The contract of [kernel_api.h]: a free mutex is granted, one that is held is not. *)
Definition excluding (host : mutex_host) : Prop := forall held, grants host held = negb held.

(** [kernel_api.c]: every call returns with success, and every thread is number 0. *)
Definition kernel_mutexes : mutex_host :=
  MutexHost (fun _ => uacpi_kernel_acquire_mutex 0 65535 =? UACPI_STATUS_OK) (fun _ => uacpi_kernel_get_thread_id).

(** One action; [None] when the program is done or has to wait.  [locked] records which mutexes
    have been acquired and not released. *)
Definition pstep (host : mutex_host) (p : prog) (s : shared) : option (prog * shared) :=
  match p with
  | Ret _ => None
  | Acquire h _ k => if grants host (locked s h) then Some (k UACPI_STATUS_OK, set_locked s h true) else None
  | Release h k => Some (k, set_locked s h false)
  | Load v k => Some (k (vars s v), s)
  | Store v x k => Some (k, Shared (set_var (vars s) v x) (locked s))
  | Cmpxchg v e d k =>
    if vars s v =? e then Some (k true e, Shared (set_var (vars s) v d) (locked s)) else Some (k false (vars s v), s)
  | WaitEvent _ _ k => Some (k 1, s)
  | NotifyFirmware k => Some (k, s)
  end.

(** ** Sums over a list of program points *)

Fixpoint zsum {A} (f : A -> Z) (l : list A) : Z := match l with [] => 0 | q :: l => f q + zsum f l end.

Section Sums.
Context {A : Type} (f : A -> Z) (Hf : forall q, 0 <= f q).

Lemma zsum_nonneg l : 0 <= zsum f l.
Proof. induction l as [|q l IH]; cbn; [lia|]. pose proof (Hf q). lia. Qed.

Lemma zsum_insert l i q q' : l !! i = Some q -> zsum f (<[i := q']> l) = zsum f l - f q + f q'.
Proof. revert i. induction l as [|x l IH]; intros [|i] H; simpl in *; try done; [injection H as ->; lia|]. rewrite (IH i) by done. lia. Qed.

Lemma zsum_lookup l i q : l !! i = Some q -> f q <= zsum f l.
Proof.
  revert i. induction l as [|x l IH]; intros [|i] H; cbn in *; try done.
  - injection H as ->. pose proof (zsum_nonneg l). lia.
  - pose proof (IH i H). pose proof (Hf x). lia.
Qed.

Lemma zsum_two l i j q q' : i <> j -> l !! i = Some q -> l !! j = Some q' -> f q + f q' <= zsum f l.
Proof.
  revert i j. induction l as [|x l IH]; intros [|i] [|j] Hij Hi Hj; cbn in *; try done.
  - injection Hi as ->. pose proof (zsum_lookup l j q' Hj). lia.
  - injection Hj as ->. pose proof (zsum_lookup l i q Hi). lia.
  - pose proof (IH i j ltac:(lia) Hi Hj). pose proof (Hf x). lia.
Qed.

Lemma zsum_pos l : 0 < zsum f l -> exists i q, l !! i = Some q /\ 0 < f q.
Proof.
  induction l as [|x l IH]; cbn; [lia|]. intros H. destruct (Z_lt_ge_dec 0 (f x)); [by exists 0%nat, x|].
  destruct IH as (i & q & Hi & Hq); [pose proof (Hf x); lia|]. by exists (S i), q.
Qed.
End Sums.

Lemma zsum_le {A} (f g : A -> Z) l : (forall q, f q <= g q) -> zsum f l <= zsum g l.
Proof. intros H. induction l as [|q l IH]; cbn; [lia|]. pose proof (H q). lia. Qed.

Lemma zsum_plus {A} (f g : A -> Z) l : zsum (fun q => f q + g q) l = zsum f l + zsum g l.
Proof. induction l as [|q l IH]; cbn; lia. Qed.

Lemma zsum_length {A} (f : A -> Z) l : (forall q, f q <= 1) -> zsum f l <= Z.of_nat (length l).
Proof. intros H. induction l as [|q l IH]; cbn [zsum length]; [lia|]. pose proof (H q). lia. Qed.

(** ** The machine *)

Inductive mode := Free | Reading | Writing.
Inductive rw_op := LockRead | UnlockRead | LockWrite | UnlockWrite.

(** What the thread holds, and the call it is in. *)
Record thread := Thread { holds : mode; code : option (rw_op * prog) }.

(** Lock what is free, unlock what is held. *)
Definition legal (op : rw_op) (m : mode) : bool :=
  match op, m with LockRead, Free | LockWrite, Free | UnlockRead, Reading | UnlockWrite, Writing => true | _, _ => false end.
Definition holds_after (op : rw_op) : mode := match op with LockRead => Reading | LockWrite => Writing | _ => Free end.

Section RwLock.
(** Two handles; they are not null. *)
Context (host : mutex_host) (a b : positive) (Hab : a <> b).
#[local] Abbreviation rm := (Z.pos a).
#[local] Abbreviation wm := (Z.pos b).

Definition program_of (op : rw_op) : prog :=
  match op with
  | LockRead => uacpi_rw_lock_read rm wm
  | UnlockRead => uacpi_rw_unlock_read rm wm
  | LockWrite => uacpi_rw_lock_write wm
  | UnlockWrite => uacpi_rw_unlock_write wm
  end.

Inductive rw_step : list thread * shared -> list thread * shared -> Prop :=
  | rw_start ths s i m op : ths !! i = Some (Thread m None) -> legal op m = true ->
      rw_step (ths, s) (<[i := Thread m (Some (op, program_of op))]> ths, s)
  | rw_act ths s i m op p p' s' : ths !! i = Some (Thread m (Some (op, p))) -> pstep host p s = Some (p', s') ->
      rw_step (ths, s) (<[i := Thread m (Some (op, p'))]> ths, s')
  | rw_finish ths s i m op r : ths !! i = Some (Thread m (Some (op, Ret r))) ->
      rw_step (ths, s) (<[i := Thread (if r =? UACPI_STATUS_OK then holds_after op else m) None]> ths, s).

(** After [uacpi_rw_lock_init]. *)
Definition rw_initial (n : nat) : list thread * shared := (replicate n (Thread Free None), Shared (fun _ => 0) (fun _ => false)).

(** *** Program points *)

Inductive point := Idle (m : mode) | L0 | L1 | L2 (n : Z) | L3 | L4 | L5 | U0 | U1 | U2 (n : Z) | U3 | U4 | U5 | W0 | W1 | V0 | V1.

Definition after_read_increment (n : Z) : prog :=
  then_do (if n =? 0 then then_do (uacpi_acquire_native_mutex wm) (fun r => if truthy r then Store num_readers 0 (Ret r) else Ret r) else Ret 0)
    (fun ret => Release rm (Ret ret)).
Definition after_read_decrement (n : Z) : prog :=
  then_do (if n =? 1 then uacpi_release_native_mutex wm else Ret 0) (fun _ => Release rm (Ret 0)).

Definition thread_at (q : point) : thread :=
  match q with
  | Idle m => Thread m None
  | L0 => Thread Free (Some (LockRead, uacpi_rw_lock_read rm wm))
  | L1 => Thread Free (Some (LockRead, Load num_readers (fun n => Store num_readers (u64 (n + 1)) (after_read_increment n))))
  | L2 n => Thread Free (Some (LockRead, Store num_readers (u64 (n + 1)) (after_read_increment n)))
  | L3 => Thread Free (Some (LockRead, after_read_increment 0))
  | L4 => Thread Free (Some (LockRead, Release rm (Ret 0)))
  | L5 => Thread Free (Some (LockRead, Ret 0))
  | U0 => Thread Reading (Some (UnlockRead, uacpi_rw_unlock_read rm wm))
  | U1 => Thread Reading (Some (UnlockRead, Load num_readers (fun n => Store num_readers (u64 (n - 1)) (after_read_decrement n))))
  | U2 n => Thread Reading (Some (UnlockRead, Store num_readers (u64 (n - 1)) (after_read_decrement n)))
  | U3 => Thread Reading (Some (UnlockRead, after_read_decrement 1))
  | U4 => Thread Reading (Some (UnlockRead, Release rm (Ret 0)))
  | U5 => Thread Reading (Some (UnlockRead, Ret 0))
  | W0 => Thread Free (Some (LockWrite, uacpi_rw_lock_write wm))
  | W1 => Thread Free (Some (LockWrite, Ret 0))
  | V0 => Thread Writing (Some (UnlockWrite, uacpi_rw_unlock_write wm))
  | V1 => Thread Writing (Some (UnlockWrite, Ret 0))
  end.

(** The points inside the section of the read mutex, those that count as readers, those that
    hold the write mutex as writers, and the two where the count and the write mutex differ. *)
Definition in_section (q : point) : Z := match q with L1 | L2 _ | L3 | L4 | U1 | U2 _ | U3 | U4 => 1 | _ => 0 end.
Definition counted (q : point) : Z := match q with Idle Reading | L3 | L4 | L5 | U0 | U1 | U2 _ => 1 | _ => 0 end.
Definition is_writer (q : point) : Z := match q with Idle Writing | W1 | V0 => 1 | _ => 0 end.
Definition at_L3 (q : point) : Z := match q with L3 => 1 | _ => 0 end.
Definition at_U3 (q : point) : Z := match q with U3 => 1 | _ => 0 end.

(** What a point knows of the count. *)
Definition knows (q : point) (n : Z) : Prop := match q with L2 v | U2 v => v = n | L3 => n = 1 | U3 => n = 0 | _ => True end.

(** [g]: the readers hold the write mutex. *)
Record rw_inv (qs : list point) (s : shared) (g : Z) : Prop := {
  ri_section : zsum in_section qs = Z.b2z (locked s rm);
  ri_counted : zsum counted qs = vars s num_readers;
  ri_group : 0 <= g <= 1;
  ri_writer : zsum is_writer qs + g = Z.b2z (locked s wm);
  ri_balance : g + zsum at_L3 qs = Z.b2z (0 <? vars s num_readers) + zsum at_U3 qs;
  ri_knows : forall i q, qs !! i = Some q -> knows q (vars s num_readers) }.

Lemma class_nonneg q : 0 <= in_section q /\ 0 <= counted q /\ 0 <= is_writer q /\ 0 <= at_L3 q /\ 0 <= at_U3 q.
Proof. destruct q as [[]| | | | | | | | | | | | | | | | ]; cbn; lia. Qed.

(** One thread moves; the others know the same count, or are not where they know it. *)
Lemma rw_update qs s g i q q' s' g' : rw_inv qs s g -> qs !! i = Some q ->
  in_section q' - in_section q = Z.b2z (locked s' rm) - Z.b2z (locked s rm) ->
  counted q' - counted q = vars s' num_readers - vars s num_readers ->
  0 <= g' <= 1 -> is_writer q' - is_writer q + g' - g = Z.b2z (locked s' wm) - Z.b2z (locked s wm) ->
  g' - g + at_L3 q' - at_L3 q = Z.b2z (0 <? vars s' num_readers) - Z.b2z (0 <? vars s num_readers) + at_U3 q' - at_U3 q ->
  vars s' num_readers = vars s num_readers \/ in_section q = 1 -> knows q' (vars s' num_readers) ->
  rw_inv (<[i := q']> qs) s' g'.
Proof.
  intros [H1 H2 H3 H4 H5 H6] Hi E1 E2 Hg E4 E5 En Hk. split; rewrite ?(zsum_insert _ _ _ q) by done; try lia.
  intros j qj Hj. apply list_lookup_insert_Some in Hj as [(<- & <- & _)|[Hij Hj]]; [done|]. destruct En as [-> | Hs]; [by eapply H6|].
  pose proof (zsum_two in_section (fun q => proj1 (class_nonneg q)) qs i j q qj Hij Hi Hj) as Ht. rewrite H1, Hs in Ht.
  assert (in_section qj = 0) by (pose proof (class_nonneg qj); destruct (locked s rm); cbn in Ht; lia). by destruct qj.
Qed.

(** What a thread learns of the mutexes from where it is. *)
Lemma rw_facts qs s g i q : rw_inv qs s g -> qs !! i = Some q ->
  (in_section q = 1 -> locked s rm = true) /\ (is_writer q = 1 -> locked s wm = true) /\
  (locked s wm = false -> g = 0) /\ (at_U3 q = 1 -> g = 1 /\ locked s wm = true) /\ knows q (vars s num_readers) /\ counted q <= vars s num_readers.
Proof.
  intros [H1 H2 H3 H4 H5 H6] Hi. pose proof (fun f H => zsum_lookup f H qs i q Hi) as Hl.
  pose proof (Hl in_section (fun q => proj1 (class_nonneg q))). pose proof (Hl counted ltac:(intros x; apply (class_nonneg x))).
  pose proof (Hl is_writer ltac:(intros x; apply (class_nonneg x))). pose proof (Hl at_U3 ltac:(intros x; apply (class_nonneg x))).
  pose proof (zsum_nonneg is_writer ltac:(intros x; apply (class_nonneg x)) qs). pose proof (zsum_nonneg at_L3 ltac:(intros x; apply (class_nonneg x)) qs).
  assert (zsum at_L3 qs + zsum at_U3 qs <= zsum in_section qs) by (rewrite <- zsum_plus; apply zsum_le; by intros []).
  destruct (locked s rm), (locked s wm); cbn [Z.b2z] in *; split_and_all; try done; try lia; try (by eapply H6); intros Hu; try lia;
    specialize (H6 i q Hi); destruct q; try done; cbn in H6; rewrite H6 in *; cbn in *; lia.
Qed.

Lemma rw_started qs s g i m op : rw_inv qs s g -> (thread_at <$> qs) !! i = Some (Thread m None) -> legal op m = true ->
  exists q', thread_at q' = Thread m (Some (op, program_of op)) /\ rw_inv (<[i := q']> qs) s g.
Proof.
  intros Hinv Hi Hop. rewrite list_lookup_fmap in Hi. destruct (qs !! i) as [q|] eqn:Eq; [|done]. cbn in Hi. injection Hi as Hq.
  destruct q as [m'| | | | | | | | | | | | | | | | ]; try discriminate. injection Hq as ->.
  exists (match op with LockRead => L0 | UnlockRead => U0 | LockWrite => W0 | UnlockWrite => V0 end).
  split; [by destruct op, m|]. pose proof (ri_group _ _ _ Hinv). eapply rw_update; [done|done|..]; destruct op, m; try done; cbn; lia || by left.
Qed.

Section Excluding.
Context (Hex : excluding host).

Ltac rw_go q' g' :=
  exists q', g'; split; [reflexivity|]; eapply rw_update; [eassumption|eassumption|..]; cbn [in_section counted is_writer at_L3 at_U3 knows vars locked set_locked];
  rewrite ?set_var_eq, ?Z.eqb_refl, ?(proj2 (Z.eqb_neq rm wm)), ?(proj2 (Z.eqb_neq wm rm)) by congruence.

Lemma rw_acted qs s g i m op p p' s' : Z.of_nat (length qs) < 2 ^ 63 -> rw_inv qs s g ->
  (thread_at <$> qs) !! i = Some (Thread m (Some (op, p))) -> pstep host p s = Some (p', s') ->
  exists q' g', thread_at q' = Thread m (Some (op, p')) /\ rw_inv (<[i := q']> qs) s' g'.
Proof.
  intros Hlen Hinv Hi Hp. rewrite list_lookup_fmap in Hi. destruct (qs !! i) as [q|] eqn:Eq; [|done]. cbn in Hi. injection Hi as Hq.
  destruct (rw_facts qs s g i q Hinv Eq) as (F1 & F2 & F3 & F4 & F5 & F6). pose proof (ri_group _ _ _ Hinv) as Hg.
  assert (vars s num_readers < 2 ^ 63) as Hn by (rewrite <- (ri_counted _ _ _ Hinv); pose proof (zsum_length counted qs ltac:(intros []; cbn; try lia; destruct m0; lia)); lia).
  assert (0 <= vars s num_readers) as Hn0 by (rewrite <- (ri_counted _ _ _ Hinv); apply zsum_nonneg; intros x; apply (class_nonneg x)).
  destruct q; try discriminate; injection Hq as <- <- <-; cbn in Hp, F1, F2, F4, F5, F6;
    rewrite ?Hex in Hp; repeat match type of Hp with context [if negb (locked s ?h) then _ else _] => destruct (locked s h) eqn:?; [discriminate|] end;
    try discriminate; injection Hp as <- <-.
  - rw_go L1 g; rewrite ?Heqb0; cbn; lia || auto.
  - rw_go (L2 (vars s num_readers)) g; lia || auto.
  - subst n. rewrite u64_small by lia. destruct (Z.eqb_spec (vars s num_readers) 0) as [En|En].
    + rewrite En. rw_go L3 g; rewrite ?En; change (0 + 1) with 1; cbn; lia || auto.
    + assert (after_read_increment (vars s num_readers) = Release rm (Ret 0)) as -> by (unfold after_read_increment; by rewrite (proj2 (Z.eqb_neq _ _) En)).
      rw_go L4 g; rewrite ?(proj2 (Z.ltb_lt _ _)) by lia; cbn; lia || auto.
  - rw_go L4 1; rewrite ?Heqb0, ?(F3 Heqb0); cbn; lia || auto.
  - rw_go L5 g; rewrite ?(F1 eq_refl); cbn; lia || auto.
  - rw_go U1 g; rewrite ?Heqb0; cbn; lia || auto.
  - rw_go (U2 (vars s num_readers)) g; lia || auto.
  - subst n. rewrite u64_small by lia. destruct (Z.eqb_spec (vars s num_readers) 1) as [En|En].
    + rewrite En. rw_go U3 g; rewrite ?En; change (1 - 1) with 0; cbn; lia || auto.
    + assert (after_read_decrement (vars s num_readers) = Release rm (Ret 0)) as -> by (unfold after_read_decrement; by rewrite (proj2 (Z.eqb_neq _ _) En)).
      rw_go U4 g; rewrite ?(proj2 (Z.ltb_lt _ _)) by lia; cbn; lia || auto.
  - destruct (F4 eq_refl) as [-> Hw]. rw_go U4 0; rewrite ?Hw; cbn; lia || auto.
  - rw_go U5 g; rewrite ?(F1 eq_refl); cbn; lia || auto.
  - rw_go W1 g; rewrite ?Heqb0; cbn; lia || auto.
  - rw_go V1 g; rewrite ?(F2 eq_refl); cbn; lia || auto.
Qed.

Lemma rw_finished qs s g i m op r : rw_inv qs s g -> (thread_at <$> qs) !! i = Some (Thread m (Some (op, Ret r))) ->
  exists q', thread_at q' = Thread (if r =? UACPI_STATUS_OK then holds_after op else m) None /\ rw_inv (<[i := q']> qs) s g.
Proof.
  intros Hinv Hi. rewrite list_lookup_fmap in Hi. destruct (qs !! i) as [q|] eqn:Eq; [|done]. cbn in Hi. injection Hi as Hq.
  pose proof (ri_group _ _ _ Hinv). assert (r = 0 /\ (q = L5 \/ q = U5 \/ q = W1 \/ q = V1)) as [-> Hc] by (destruct q; try discriminate; injection Hq as <- <- <-; auto).
  exists (Idle (holds_after op)). split; [done|]. eapply rw_update; [done|done|..]; destruct Hc as [-> | [-> | [-> | ->]]]; injection Hq as <- <-; cbn; lia || auto.
Qed.

Lemma rw_inv_step c c' : Z.of_nat (length c.1) < 2 ^ 63 -> (exists qs g, c.1 = thread_at <$> qs /\ rw_inv qs c.2 g) -> rw_step c c' ->
  length c'.1 = length c.1 /\ exists qs g, c'.1 = thread_at <$> qs /\ rw_inv qs c'.2 g.
Proof.
  intros Hlen (qs & g & Hqs & Hinv) Hst. destruct Hst as [ths s i m op Hi Hop|ths s i m op p p' s' Hi Hp|ths s i m op r Hi]; cbn in *; subst ths; rewrite length_insert; split; try done.
  - destruct (rw_started qs s g i m op Hinv Hi Hop) as (q' & Hq & H). exists (<[i := q']> qs), g. by rewrite list_fmap_insert, Hq.
  - rewrite length_fmap in Hlen. destruct (rw_acted qs s g i m op p p' s' Hlen Hinv Hi Hp) as (q' & g' & Hq & H). exists (<[i := q']> qs), g'. by rewrite list_fmap_insert, Hq.
  - destruct (rw_finished qs s g i m op r Hinv Hi) as (q' & Hq & H). exists (<[i := q']> qs), g. by rewrite list_fmap_insert, Hq.
Qed.

Lemma rw_inv_reachable n c : Z.of_nat n < 2 ^ 63 -> rtc rw_step (rw_initial n) c -> length c.1 = n /\ exists qs g, c.1 = thread_at <$> qs /\ rw_inv qs c.2 g.
Proof.
  intros Hn H. refine (rtc_ind_r (fun c => length c.1 = n /\ exists qs g, c.1 = thread_at <$> qs /\ rw_inv qs c.2 g) (rw_initial n) _ _ c H); clear c H.
  - split; [apply length_replicate|]. exists (replicate n (Idle Free)), 0. cbn. split; [by rewrite fmap_replicate|].
    assert (forall f : point -> Z, f (Idle Free) = 0 -> zsum f (replicate n (Idle Free)) = 0) as Hz by (intros f Hf; clear Hn; induction n as [|n IH]; cbn; rewrite ?Hf; lia).
    split; cbn; rewrite ?Hz by done; try lia. intros i q Hi. apply lookup_replicate in Hi as [-> _]. done.
  - intros c c' _ Hst [Hl Hinv]. destruct (rw_inv_step c c' ltac:(lia) Hinv Hst) as [Hl' Hinv']. split; [congruence|done].
Qed.

(** *** Consequences *)

(** A thread that needs nothing from the others: it may unlock, its call is over, or its next
    action is possible. *)
Definition can_move (th : thread) (s : shared) : bool :=
  match th with
  | Thread Free None => false
  | Thread _ None | Thread _ (Some (_, Ret _)) => true
  | Thread _ (Some (_, p)) => bool_decide (is_Some (pstep host p s))
  end.

Lemma writer_moves q s : is_writer q = 1 -> can_move (thread_at q) s = true.
Proof. by destruct q as [[]| | | | | | | | | | | | | | | | ]. Qed.

Lemma section_moves q s : in_section q = 1 -> can_move (thread_at q) s = true \/ q = L3 /\ locked s wm = true.
Proof.
  destruct q as [[]| | | | | | | | | | | | | | | | ]; try done; intros _; try (by left). cbn. rewrite Hex. destruct (locked s wm); [by right|by left].
Qed.

Lemma outside_moves q s : in_section q = 0 -> locked s rm = false -> q <> Idle Free ->
  can_move (thread_at q) s = true \/ q = W0 /\ locked s wm = true.
Proof.
  destruct q as [[]| | | | | | | | | | | | | | | | ]; try done; intros _ Hr _; try (by left); cbn; rewrite ?Hex, ?Hr; try (by left).
  destruct (locked s wm); [by right|by left].
Qed.

Lemma some_moves qs s g : rw_inv qs s g -> (exists i q, qs !! i = Some q /\ q <> Idle Free) -> exists i q, qs !! i = Some q /\ can_move (thread_at q) s = true.
Proof.
  intros Hinv (i & q & Hi & Hq). pose proof (fun f (H : forall q, 0 <= f q) => zsum_nonneg f H qs) as Hnn.
  pose proof (Hnn is_writer ltac:(intros x; apply (class_nonneg x))) as Hw0. pose proof (Hnn at_L3 ltac:(intros x; apply (class_nonneg x))) as HL0.
  pose proof (Hnn in_section ltac:(intros x; apply (class_nonneg x))) as Hs0. pose proof (Hnn at_U3 ltac:(intros x; apply (class_nonneg x))) as HU0.
  assert (HLU : zsum at_L3 qs + zsum at_U3 qs <= zsum in_section qs) by (rewrite <- zsum_plus; apply zsum_le; by intros []).
  destruct (Z_lt_ge_dec 0 (zsum is_writer qs)) as [Hw|Hw].
  { apply zsum_pos in Hw as (j & x & Hj & Hx); [|intros y; apply (class_nonneg y)]. exists j, x. split; [done|]. apply writer_moves. destruct x as [[]| | | | | | | | | | | | | | | | ]; cbn in *; lia. }
  pose proof (ri_writer _ _ _ Hinv) as Hwm. pose proof (ri_balance _ _ _ Hinv) as Hb. pose proof (ri_section _ _ _ Hinv) as Hsec. pose proof (ri_group _ _ _ Hinv) as Hg.
  destruct (Z_lt_ge_dec 0 (zsum in_section qs)) as [Hs|Hs].
  - apply zsum_pos in Hs as (j & x & Hj & Hx); [|intros y; apply (class_nonneg y)]. exists j, x. split; [done|].
    destruct (section_moves x s) as [?|[-> Hl]]; [destruct x as [[]| | | | | | | | | | | | | | | | ]; cbn in *; lia|done|].
    exfalso. rewrite Hl in Hwm. pose proof (ri_knows _ _ _ Hinv j L3 Hj) as Hn. cbn in Hn. rewrite Hn in Hb.
    pose proof (zsum_lookup at_L3 ltac:(intros y; apply (class_nonneg y)) qs j L3 Hj). destruct (locked s rm); cbn in *; lia.
  - assert (Hrm : locked s rm = false) by (destruct (locked s rm); cbn in Hsec; [lia|done]).
    assert (Hout : forall j x, qs !! j = Some x -> in_section x = 0).
    { intros j x Hj. pose proof (zsum_lookup in_section ltac:(intros y; apply (class_nonneg y)) qs j x Hj). pose proof (class_nonneg x). lia. }
    destruct (outside_moves q s (Hout i q Hi) Hrm Hq) as [Hm|[-> Hl]]; [by exists i, q|].
    assert (0 < zsum counted qs) as Hc by (rewrite Hl in Hwm; rewrite (ri_counted _ _ _ Hinv); destruct (Z.ltb_spec 0 (vars s num_readers)); cbn in *; lia).
    apply zsum_pos in Hc as (j & x & Hj & Hx); [|intros y; apply (class_nonneg y)]. exists j, x. split; [done|].
    destruct (outside_moves x s (Hout j x Hj) Hrm) as [Hm|[-> _]]; [by intros ->|done|]. cbn in Hx. lia.
Qed.

End Excluding.

Lemma thread_idle (qs : list point) (i : nat) m : (thread_at <$> qs) !! i = Some (Thread m None) -> qs !! i = Some (Idle m).
Proof. rewrite list_lookup_fmap. destruct (qs !! i) as [q|]; [|done]. cbn. intros H. injection H as H. destruct q; try discriminate. by injection H as ->. Qed.

Lemma threads_idle (qs : list point) n : thread_at <$> qs = replicate n (Thread Free None) -> qs = replicate n (Idle Free).
Proof.
  revert n. induction qs as [|q qs IH]; intros [|n] H; try done. cbn in H. injection H as H1 H2. cbn. f_equal; [|by apply IH]. destruct q; try discriminate. by injection H1 as ->.
Qed.

(** A writer holds the write mutex, so the readers do not, and nobody is counted. *)
Lemma writer_alone qs s g i j m : rw_inv qs s g -> i <> j -> qs !! i = Some (Idle Writing) -> qs !! j = Some (Idle m) -> m = Free.
Proof.
  intros Hinv Hij Hi Hj. pose proof (zsum_lookup is_writer ltac:(intros x; apply (class_nonneg x)) qs i _ Hi) as Hw. cbn in Hw.
  pose proof (ri_writer _ _ _ Hinv) as Hwm. pose proof (ri_balance _ _ _ Hinv) as Hb. pose proof (ri_group _ _ _ Hinv) as Hg.
  assert (Hg0 : g = 0 /\ zsum is_writer qs = 1) by (destruct (locked s wm); cbn in Hwm; lia). destruct m; [done| |].
  - exfalso. pose proof (zsum_lookup counted ltac:(intros x; apply (class_nonneg x)) qs j _ Hj) as Hc. cbn in Hc. rewrite (ri_counted _ _ _ Hinv) in Hc.
    rewrite (proj2 (Z.ltb_lt 0 _)) in Hb by lia. cbn in Hb. pose proof (zsum_nonneg at_U3 ltac:(intros x; apply (class_nonneg x)) qs).
    destruct (zsum_pos at_L3 ltac:(intros x; apply (class_nonneg x)) qs) as (k & x & Hk & Hx); [lia|]. destruct x; cbn in Hx; try lia.
    pose proof (ri_knows _ _ _ Hinv k L3 Hk) as Hn. cbn in Hn. assert (j <> k) as Hjk by (intros ->; congruence).
    pose proof (zsum_two counted ltac:(intros x; apply (class_nonneg x)) qs j k _ _ Hjk Hj Hk) as H2. rewrite (ri_counted _ _ _ Hinv), Hn in H2. cbn in H2. lia.
  - exfalso. pose proof (zsum_two is_writer ltac:(intros x; apply (class_nonneg x)) qs i j _ _ Hij Hi Hj) as H2. cbn in H2. lia.
Qed.

Lemma quiescent qs s g n : rw_inv qs s g -> qs = replicate n (Idle Free) -> locked s rm = false /\ locked s wm = false /\ vars s num_readers = 0.
Proof.
  intros [H1 H2 H3 H4 H5 H6] ->.
  assert (forall f : point -> Z, f (Idle Free) = 0 -> zsum f (replicate n (Idle Free)) = 0) as Hz by (intros f Hf; clear - Hf; induction n as [|n IH]; cbn; rewrite ?Hf; lia).
  rewrite (Hz in_section) in H1 by done. rewrite (Hz counted) in H2 by done. rewrite (Hz is_writer) in H4 by done. rewrite (Hz at_L3), (Hz at_U3), <- H2 in H5 by done.
  cbn in H5. destruct (locked s rm), (locked s wm); cbn in *; try lia; by rewrite H2.
Qed.
End RwLock.

(** What the lock promises: a thread that holds it for writing is the only one that holds it; when
    nobody holds it and no call is under way, both native mutexes are free and no reader is
    counted; and as long as somebody holds it or waits for it, some thread among those can go on. *)
Definition rw_sound (host : mutex_host) (a b : positive) : Prop := forall n c, Z.of_nat n < 2 ^ 63 -> rtc (rw_step host a b) (rw_initial n) c ->
  (forall i j m, i <> j -> c.1 !! i = Some (Thread Writing None) -> c.1 !! j = Some (Thread m None) -> m = Free) /\
  (c.1 = replicate n (Thread Free None) -> locked c.2 (Z.pos a) = false /\ locked c.2 (Z.pos b) = false /\ vars c.2 num_readers = 0) /\
  ((exists i th, c.1 !! i = Some th /\ th <> Thread Free None) -> exists i th, c.1 !! i = Some th /\ can_move host th c.2 = true).

Lemma rw_sound_excluding host a b : a <> b -> excluding host -> rw_sound host a b.
Proof.
  intros Hab Hex n c Hn Hr. destruct (rw_inv_reachable host a b Hab Hex n c Hn Hr) as (Hl & qs & g & Hqs & Hinv). rewrite Hqs. split_and_all.
  - intros i j m Hij Hi Hj. apply thread_idle in Hi, Hj. by eapply writer_alone.
  - intros He. eapply quiescent; [done..|]. by eapply threads_idle.
  - intros (i & th & Hi & Hne). rewrite list_lookup_fmap in Hi. destruct (qs !! i) as [q|] eqn:Eq; [|done]. injection Hi as <-.
    edestruct some_moves as (j & x & Hj & Hm); [done..|exists i, q; split; [done|by intros ->]|]. exists j, (thread_at a b x). by rewrite list_lookup_fmap, Hj.
Qed.

(** Over mutexes that are granted while they are held, two threads come to write. *)
Lemma two_writers host a b : (forall held, grants host held = true) -> exists c, rtc (rw_step host a b) (rw_initial 2) c /\ c.1 = [Thread Writing None; Thread Writing None].
Proof.
  intros Hg. pose (one := fun i ths s => rw_start host a b ths s i Free LockWrite).
  assert (Hact : forall s, pstep host (uacpi_rw_lock_write (Z.pos b)) s = Some (Ret UACPI_STATUS_OK, set_locked s (Z.pos b) true)) by (intros s; cbn; by rewrite Hg).
  eexists. split. eapply rtc_l; [apply (one 0%nat); reflexivity|]. eapply rtc_l; [eapply (rw_act host a b _ _ 0); [reflexivity|apply Hact]|]. eapply rtc_l; [eapply (rw_finish host a b _ _ 0); reflexivity|].
  eapply rtc_l; [apply (one 1%nat); reflexivity|]. eapply rtc_l; [eapply (rw_act host a b _ _ 1); [reflexivity|apply Hact]|]. eapply rtc_l; [eapply (rw_finish host a b _ _ 1); reflexivity|]. apply rtc_refl. reflexivity.
Qed.

(** C18: the readers-writer lock of the namespace is as good as the host's mutexes.  Over a host that
    grants free mutexes, the lock keeps its promise [rw_sound] (writers alone, everything given
    back, no deadlock), however the actions of any number of threads interleave, exactly if
    the host does not grant mutexes that are held.  The kernel's own mutexes
    ([kernel_api.c]) are granted always, so that in this kernel the lock does not keep it:
    two threads can write at once. *)
Theorem rw_lock_excludes a b : a <> b ->
  (forall host, grants host false = true -> rw_sound host a b <-> grants host true = false) /\ ~ rw_sound kernel_mutexes a b.
Proof.
  intros Hab.
  assert (Hno : forall host, (forall held, grants host held = true) -> ~ rw_sound host a b).
  { intros host Hg Hs. destruct (two_writers host a b Hg) as (c & Hr & Hc). destruct (Hs 2%nat c ltac:(done) Hr) as [Hw _]. rewrite Hc in Hw.
    by specialize (Hw 0%nat 1%nat Writing ltac:(done) eq_refl eq_refl). }
  split; [|by apply Hno]. intros host Hf. split.
  - intros Hs. destruct (grants host true) eqn:Ht; [|done]. exfalso. apply (Hno host); [by intros []|done].
  - intros Ht. apply rw_sound_excluding; [done|]. by intros [].
Qed.

(** A host with mutexes that exclude; under it a reader is inside while a second one enters. *)
Definition sound_host : mutex_host := MutexHost negb Z.of_nat.

Lemma rw_lock_excludes_witness :
  rw_sound sound_host 1 2 /\ ~ rw_sound kernel_mutexes 1 2 /\
  exists c, rtc (rw_step sound_host 1 2) (rw_initial 2) c /\ c.1 = [Thread Reading None; Thread Free (Some (LockRead, uacpi_rw_lock_read 1 2))].
Proof.
  destruct (rw_lock_excludes 1 2 ltac:(discriminate)) as [H1 H2]. split; [apply H1; reflexivity|]. split; [exact H2|].
  eexists. split. eapply rtc_l; [apply (rw_start _ 1 2 _ _ 0 Free LockRead); reflexivity|]. do 5 (eapply rtc_l; [eapply (rw_act _ 1 2 _ _ 0); reflexivity|]).
  eapply rtc_l; [eapply (rw_finish _ 1 2 _ _ 0); reflexivity|]. eapply rtc_l; [apply (rw_start _ 1 2 _ _ 1 Free LockRead); reflexivity|]. apply rtc_refl. reflexivity.
Defined.
