(* ===== verification/AcpiLockProps.v ===== *)
(** * Recursive locks among threads, the global lock and AML mutexes

    The recursive lock of [mutex.c] run by any number of threads, one atomic action at a time, over a
    host that keeps its contract and over this kernel;
    the AML mutex and the global lock run alone; reference counts. *)

From stdpp Require Import relations.
From S2P Require Import Prelude Mem CString KernelApi AcpiGas AcpiRegs AcpiLock AcpiRwLock.

(** ** Recursive locks *)

Module Recursive.
(** How often the thread has acquired the lock, and the call it is in ([true]: acquire). *)
Record thread := Thread { nest : Z; code : option (bool * prog) }.

(** Every thread has an identifier of its own, which is not the one for no thread. *)
Definition own_ids (host : mutex_host) : Prop := forall i, Z.of_nat i < 2 ^ 63 ->
  thread_id host i <> UACPI_THREAD_ID_NONE /\ forall j, Z.of_nat j < 2 ^ 63 -> thread_id host i = thread_id host j -> i = j.

Section Machine.
(** The handle is not null. *)
Context (host : mutex_host) (a : positive).
#[local] Abbreviation mtx := (Z.pos a).

Definition program_of (acquire : bool) (i : nat) : prog :=
  if acquire then uacpi_recursive_lock_acquire mtx (thread_id host i) else uacpi_recursive_lock_release mtx.

(** A thread releases what it has acquired. *)
Definition legal (acquire : bool) (n : Z) : bool := if acquire then n <? 2 ^ 63 else 0 <? n.

Inductive step : list thread * shared -> list thread * shared -> Prop :=
  | start ths s i n acq : ths !! i = Some (Thread n None) -> legal acq n = true ->
      step (ths, s) (<[i := Thread n (Some (acq, program_of acq i))]> ths, s)
  | act ths s i n acq p p' s' : ths !! i = Some (Thread n (Some (acq, p))) -> pstep host p s = Some (p', s') ->
      step (ths, s) (<[i := Thread n (Some (acq, p'))]> ths, s')
  | finish ths s i n acq r : ths !! i = Some (Thread n (Some (acq, Ret r))) ->
      step (ths, s) (<[i := Thread (if r =? UACPI_STATUS_OK then if acq then n + 1 else n - 1 else n) None]> ths, s).

(** After [uacpi_recursive_lock_init]. *)
Definition initial (n : nat) : list thread * shared :=
  (replicate n (Thread 0 None), Shared (set_var (fun _ => 0) owner UACPI_THREAD_ID_NONE) (fun _ => false)).

(** *** Program points: [A] acquires again, [B] for the first time, [R] releases. *)
Inductive point := Idle (n : Z) | A0 (n : Z) | A1 (n : Z) | A2 (n d : Z) | A3 (n : Z) | B1 | B2 | B3
  | R0 (n : Z) | R1 (n d : Z) | R2 (n : Z) | R3 | R4 | R5.

Definition after_decrement (d : Z) : prog :=
  if 1 <? d then Ret UACPI_STATUS_OK else Store owner UACPI_THREAD_ID_NONE (uacpi_release_native_mutex mtx).

Definition thread_at (i : nat) (q : point) : thread :=
  let this_id := thread_id host i in
  match q with
  | Idle n => Thread n None
  | A0 n => Thread n (Some (true, uacpi_recursive_lock_acquire mtx this_id))
  | A1 n => Thread n (Some (true, Load depth (fun d => Store depth (u64 (d + 1)) (Ret UACPI_STATUS_OK))))
  | A2 n d => Thread n (Some (true, Store depth (u64 (d + 1)) (Ret UACPI_STATUS_OK)))
  | A3 n => Thread n (Some (true, Ret UACPI_STATUS_OK))
  | B1 => Thread 0 (Some (true, Acquire mtx 65535 (fun ret => if truthy ret then Ret ret else Store owner this_id (Store depth 1 (Ret ret)))))
  | B2 => Thread 0 (Some (true, Store owner this_id (Store depth 1 (Ret UACPI_STATUS_OK))))
  | B3 => Thread 0 (Some (true, Store depth 1 (Ret UACPI_STATUS_OK)))
  | R0 n => Thread n (Some (false, uacpi_recursive_lock_release mtx))
  | R1 n d => Thread n (Some (false, Store depth (u64 (d - 1)) (after_decrement d)))
  | R2 n => Thread n (Some (false, Ret UACPI_STATUS_OK))
  | R3 => Thread 1 (Some (false, Store owner UACPI_THREAD_ID_NONE (uacpi_release_native_mutex mtx)))
  | R4 => Thread 1 (Some (false, uacpi_release_native_mutex mtx))
  | R5 => Thread 1 (Some (false, Ret UACPI_STATUS_OK))
  end.

(** The points of the thread that has the native mutex. *)
Definition owns (q : point) : Z :=
  match q with Idle n | A0 n => if n =? 0 then 0 else 1 | B1 | R5 => 0 | _ => 1 end.

(** What the point says of owner and depth. *)
Definition knows (i : nat) (q : point) (own dep : Z) : Prop :=
  let this_id := thread_id host i in
  match q with
  | Idle n => 0 <= n <= 2 ^ 63 /\ if n =? 0 then own <> this_id else own = this_id /\ dep = n
  | A0 n => 0 <= n < 2 ^ 63 /\ if n =? 0 then own <> this_id else own = this_id /\ dep = n
  | A1 n => 0 < n < 2 ^ 63 /\ own = this_id /\ dep = n
  | A2 n d => 0 < n < 2 ^ 63 /\ own = this_id /\ dep = n /\ d = n
  | R0 n => 0 < n <= 2 ^ 63 /\ own = this_id /\ dep = n
  | R1 n d => 0 < n <= 2 ^ 63 /\ own = this_id /\ dep = n /\ d = n
  | A3 n => 0 <= n < 2 ^ 63 /\ own = this_id /\ dep = n + 1
  | R2 n => 1 < n <= 2 ^ 63 /\ own = this_id /\ dep = n - 1
  | B1 | R5 => own <> this_id
  | B2 | R4 => own = UACPI_THREAD_ID_NONE /\ dep = 0
  | B3 | R3 => own = this_id /\ dep = 0
  end.

Record inv (qs : list point) (s : shared) : Prop := {
  iv_owns : zsum owns qs = Z.b2z (locked s mtx);
  iv_free : locked s mtx = false -> vars s owner = UACPI_THREAD_ID_NONE /\ vars s depth = 0;
  iv_knows : forall i q, qs !! i = Some q -> knows i q (vars s owner) (vars s depth) }.

Lemma owns_nonneg q : 0 <= owns q <= 1.
Proof. destruct q; cbn; try lia; by destruct (n =? 0). Qed.

(** A thread without the mutex knows only that it is not the owner. *)
Lemma knows_outside j q own dep own' dep' : owns q = 0 -> own' <> thread_id host j -> knows j q own dep -> knows j q own' dep'.
Proof. intros H Ho Hk. destruct q; cbn in *; try lia; try done; destruct (n =? 0); try lia; tauto. Qed.

Lemma knows_not_owner j q own dep : owns q = 0 -> knows j q own dep -> own <> thread_id host j.
Proof. intros H Hk. destruct q; cbn in *; try lia; try done; destruct (n =? 0); try lia; tauto. Qed.

Section Excluding.
(** A host that keeps its contract: mutexes exclude, threads have identifiers of their own. *)
Context (Hex : excluding host) (Hids : own_ids host).

Lemma update qs s i q q' s' : Z.of_nat (length qs) < 2 ^ 63 -> inv qs s -> qs !! i = Some q ->
  owns q' - owns q = Z.b2z (locked s' mtx) - Z.b2z (locked s mtx) ->
  vars s' owner = vars s owner /\ vars s' depth = vars s depth \/
    owns q = 1 /\ (vars s' owner = vars s owner \/ vars s' owner = thread_id host i \/ vars s' owner = UACPI_THREAD_ID_NONE) ->
  (locked s' mtx = false -> vars s' owner = UACPI_THREAD_ID_NONE /\ vars s' depth = 0) ->
  knows i q' (vars s' owner) (vars s' depth) -> inv (<[i := q']> qs) s'.
Proof.
  intros Hlen [H1 H2 H3] Hi E1 E2 E3 Hk. split; [rewrite (zsum_insert _ _ _ q) by done; lia|done|].
  intros j x Hj. apply list_lookup_insert_Some in Hj as [(<- & <- & _)|[Hij Hj]]; [done|]. destruct E2 as [[-> ->]|[Ho Eo]]; [by apply H3|].
  pose proof (zsum_two owns (fun q => proj1 (owns_nonneg q)) qs i j q x Hij Hi Hj) as Ht. rewrite H1, Ho in Ht.
  assert (owns x = 0) as Hx by (pose proof (owns_nonneg x); destruct (locked s mtx); cbn in Ht; lia). apply lookup_lt_Some in Hj as Hlt.
  refine (knows_outside j x _ _ _ _ Hx _ (H3 j x Hj)). pose proof (knows_not_owner j x _ _ Hx (H3 j x Hj)) as Hno.
  apply lookup_lt_Some in Hi. destruct (Hids j ltac:(lia)) as [Hnone Hinj]. destruct Eo as [-> | [-> | ->]]; [done|intros E%eq_sym%Hinj; lia|congruence].
Qed.

(** The threads are at their points. *)
Definition at_points (ths : list thread) (qs : list point) : Prop := forall i, ths !! i = thread_at i <$> qs !! i.

Lemma at_points_insert ths qs i q : at_points ths qs -> at_points (<[i := thread_at i q]> ths) (<[i := q]> qs).
Proof.
  intros H j. destruct (decide (i = j)) as [<-|Hne]; [|by rewrite !list_lookup_insert_ne by done].
  destruct (qs !! i) as [x|] eqn:E.
  - rewrite !list_lookup_insert_eq; [done|by eapply lookup_lt_Some|]. eapply lookup_lt_Some. rewrite H, E. done.
  - rewrite !list_insert_ge; [apply H|by apply lookup_ge_None_1|]. apply lookup_ge_None_1. rewrite H, E. done.
Qed.

Lemma point_of ths qs i th : at_points ths qs -> ths !! i = Some th -> exists q, qs !! i = Some q /\ thread_at i q = th.
Proof. intros H Hi. rewrite H in Hi. destruct (qs !! i) as [q|]; [|done]. injection Hi as Hi. by exists q. Qed.

Lemma started qs s i q acq n : Z.of_nat (length qs) < 2 ^ 63 -> inv qs s -> qs !! i = Some q -> thread_at i q = Thread n None -> legal acq n = true ->
  exists q', thread_at i q' = Thread n (Some (acq, program_of acq i)) /\ inv (<[i := q']> qs) s.
Proof.
  intros Hlen Hinv Hi Hq Hl. pose proof (iv_knows _ _ Hinv i q Hi) as Hk. destruct q; try discriminate. injection Hq as ->.
  exists (if acq then A0 n else R0 n). split; [by destruct acq|]. eapply update; [done|done|done| |by left|by apply Hinv|].
  - destruct acq; cbn in *; [lia|]. destruct (Z.eqb_spec n 0); lia.
  - destruct acq; cbn in *; [split; [lia|apply Hk]|]. destruct (Z.eqb_spec n 0); lia.
Qed.

Lemma finished qs s i q acq n r : Z.of_nat (length qs) < 2 ^ 63 -> inv qs s -> qs !! i = Some q -> thread_at i q = Thread n (Some (acq, Ret r)) ->
  exists q', thread_at i q' = Thread (if r =? UACPI_STATUS_OK then if acq then n + 1 else n - 1 else n) None /\ inv (<[i := q']> qs) s.
Proof.
  intros Hlen Hinv Hi Hq. pose proof (iv_knows _ _ Hinv i q Hi) as Hk.
  assert (r = 0 /\ (acq = true /\ q = A3 n \/ acq = false /\ (q = R2 n \/ q = R5 /\ n = 1))) as [-> Hc]
    by (destruct q; try discriminate; cbn in Hq; [|unfold after_decrement in Hq|..]; injection Hq as <- <- <-; auto 6).
  exists (Idle (if acq then n + 1 else n - 1)). split; [done|]. eapply update; [done|done|done| |by left|by apply Hinv|];
    destruct Hc as [[-> ->]|[-> [-> |[-> ->]]]]; cbn in *; try done; try (destruct (Z.eqb_spec (n + 1) 0); lia); try (destruct (Z.eqb_spec (n - 1) 0); lia); change (1 - 1 =? 0) with true; cbn; lia || (split; [lia|done]).
Qed.

(** A thread with the mutex finds it locked, one without it cannot. *)
Lemma owner_locked qs s i q : inv qs s -> qs !! i = Some q -> owns q = 1 -> locked s mtx = true.
Proof.
  intros Hinv Hi Ho. pose proof (zsum_lookup owns (fun q => proj1 (owns_nonneg q)) qs i q Hi) as H. rewrite (iv_owns _ _ Hinv), Ho in H.
  by destruct (locked s mtx); cbn in H; [|lia].
Qed.

Ltac go q' :=
  exists q'; split; [reflexivity|]; eapply update; [eassumption|eassumption|eassumption|..]; cbn [owns knows vars locked set_locked];
  rewrite ?set_var_eq, ?(set_var_ne _ owner depth), ?(set_var_ne _ depth owner), ?Z.eqb_refl by done.

Lemma acted qs s i q acq n p p' s' : Z.of_nat (length qs) < 2 ^ 63 -> inv qs s -> qs !! i = Some q -> thread_at i q = Thread n (Some (acq, p)) ->
  pstep host p s = Some (p', s') -> exists q', thread_at i q' = Thread n (Some (acq, p')) /\ inv (<[i := q']> qs) s'.
Proof.
  intros Hlen Hinv Hi Hq Hp. pose proof (iv_knows _ _ Hinv i q Hi) as Hk. pose proof (owner_locked qs s i q Hinv Hi) as Hl. pose proof (iv_free _ _ Hinv) as Hf.
  destruct q; try discriminate; injection Hq as <- <- <-; cbn in Hp, Hk, Hl;
    rewrite ?Hex in Hp; repeat match type of Hp with context [if negb (locked s ?h) then _ else _] => destruct (locked s h) eqn:?; [discriminate|] end;
    try discriminate; injection Hp as <- <-.
  - destruct (Z.eqb_spec (vars s owner) (thread_id host i)) as [Eo|Eo]; destruct (Z.eqb_spec n0 0) as [->|Hn]; try lia.
    + go (A1 n0); rewrite ?(proj2 (Z.eqb_neq n0 0) Hn); auto; lia.
    + go B1; auto; lia.
  - go (A2 n0 (vars s depth)); auto; lia.
  - rewrite u64_small by lia. go (A3 n0); rewrite ?(Hl eq_refl); auto; lia.
  - go B2; rewrite ?Heqb; auto; cbn; lia.
  - go B3; rewrite ?(Hl eq_refl); auto; lia.
  - go (A3 0); rewrite ?(Hl eq_refl); auto; lia.
  - go (R1 n0 (vars s depth)); auto; lia.
  - rewrite u64_small by lia. unfold after_decrement. destruct (Z.ltb_spec 1 d).
    + go (R2 n0); rewrite ?(Hl eq_refl); auto; lia.
    + assert (n0 = 1) as -> by lia. go R3; rewrite ?(Hl eq_refl); auto; lia.
  - go R4; rewrite ?(Hl eq_refl); auto; lia.
  - go R5; rewrite ?(Hl eq_refl); auto; apply lookup_lt_Some in Hi; destruct (Hids i ltac:(lia)); cbn; destruct Hk; congruence || lia.
Qed.

Lemma inv_step n c c' : Z.of_nat n < 2 ^ 63 -> (exists qs, length qs = n /\ at_points c.1 qs /\ inv qs c.2) -> step c c' ->
  exists qs, length qs = n /\ at_points c'.1 qs /\ inv qs c'.2.
Proof.
  intros Hn (qs & <- & Hqs & Hinv) Hst.
  assert (Hmove : forall i q' (th : thread), thread_at i q' = th -> at_points (<[i := th]> c.1) (<[i := q']> qs)) by (intros i q' th <-; by apply at_points_insert).
  destruct Hst as [ths s i m acq Hi Hop|ths s i m acq p p' s' Hi Hp|ths s i m acq r Hi]; cbn [fst snd] in *; destruct (point_of ths qs i _ Hqs Hi) as (q & Eq & Hq).
  - destruct (started qs s i q acq m Hn Hinv Eq Hq Hop) as (q' & Hq' & H). exists (<[i := q']> qs). rewrite length_insert. auto.
  - destruct (acted qs s i q acq m p p' s' Hn Hinv Eq Hq Hp) as (q' & Hq' & H). exists (<[i := q']> qs). rewrite length_insert. auto.
  - destruct (finished qs s i q acq m r Hn Hinv Eq Hq) as (q' & Hq' & H). exists (<[i := q']> qs). rewrite length_insert. auto.
Qed.

Lemma inv_reachable n c : Z.of_nat n < 2 ^ 63 -> rtc step (initial n) c -> exists qs, length qs = n /\ at_points c.1 qs /\ inv qs c.2.
Proof.
  intros Hn H. refine (rtc_ind_r (fun c => exists qs, length qs = n /\ at_points c.1 qs /\ inv qs c.2) (initial n) _ _ c H); clear c H.
  - exists (replicate n (Idle 0)). split; [apply length_replicate|]. split.
    + intros i. cbn. destruct (decide (i < n)%nat); [by rewrite !lookup_replicate_2|]. by rewrite !lookup_ge_None_2 by (rewrite length_replicate; lia).
    + split; cbn [initial snd locked vars]; [clear; induction n as [|n IH]; [done|exact IH]|done|]. intros i q Hi. apply lookup_replicate in Hi as [-> Hi]. cbn.
      split; [lia|]. rewrite set_var_eq. destruct (Hids i ltac:(lia)). congruence.
  - intros c c' _ Hst Hinv. by eapply inv_step.
Qed.

End Excluding.

Lemma idle_point ths qs i n : at_points ths qs -> ths !! i = Some (Thread n None) -> qs !! i = Some (Idle n).
Proof. intros H Hi. destruct (point_of ths qs i _ H Hi) as (q & Eq & Hq). destruct q; try discriminate. by injection Hq as ->. Qed.
End Machine.

(** What the lock promises: when two threads are between calls, at most one of them has acquired the
    lock and not released it as often; that thread is the recorded owner and the recorded depth is
    the number of releases it still owes; and when all have released, the native mutex is free
    again and no owner is recorded. *)
Definition recursive_sound (host : mutex_host) (a : positive) : Prop := forall n c, Z.of_nat n < 2 ^ 63 -> rtc (step host a) (initial n) c ->
  (forall i j k l, i <> j -> c.1 !! i = Some (Thread k None) -> c.1 !! j = Some (Thread l None) -> k = 0 \/ l = 0) /\
  (forall i k, c.1 !! i = Some (Thread k None) -> k <> 0 -> vars c.2 owner = thread_id host i /\ vars c.2 depth = k /\ locked c.2 (Z.pos a) = true) /\
  (c.1 = replicate n (Thread 0 None) -> locked c.2 (Z.pos a) = false /\ vars c.2 owner = UACPI_THREAD_ID_NONE /\ vars c.2 depth = 0).

Lemma sound_excluding host a : excluding host -> own_ids host -> recursive_sound host a.
Proof.
  intros Hex Hids n c Hn Hr. destruct (inv_reachable host a Hex Hids n c Hn Hr) as (qs & Hl & Hqs & Hinv).
  assert (Hown : forall i k, c.1 !! i = Some (Thread k None) -> k <> 0 -> vars c.2 owner = thread_id host i /\ vars c.2 depth = k /\ locked c.2 (Z.pos a) = true).
  { intros i k Hi Hk. apply (idle_point host a _ qs) in Hi; [|done]. pose proof (iv_knows _ _ _ _ Hinv i _ Hi) as H. cbn in H. rewrite (proj2 (Z.eqb_neq k 0) Hk) in H.
    destruct H as (_ & ? & ?). split_and_all; try done. eapply owner_locked; [done|done|]. cbn. by rewrite (proj2 (Z.eqb_neq k 0) Hk). }
  split_and_all; [|exact Hown|].
  - intros i j k l Hij Hi Hj. destruct (Z.eq_dec k 0); [by left|]. destruct (Z.eq_dec l 0); [by right|]. exfalso. apply Hij.
    destruct (Hown i k Hi) as [Ho _]; [done|]. destruct (Hown j l Hj) as [Ho' _]; [done|].
    apply (idle_point host a _ qs) in Hi, Hj; try done. apply lookup_lt_Some in Hi, Hj. apply (Hids i); [lia|lia|congruence].
  - intros He. assert (locked c.2 (Z.pos a) = false) as Hf; [|split; [done|by apply Hinv]].
    assert (zsum owns qs <= 0) as Hz; [|rewrite (iv_owns _ _ _ _ Hinv) in Hz; by destruct (locked _ _)].
    destruct (Z_lt_ge_dec 0 (zsum owns qs)) as [Hp|]; [|lia]. apply zsum_pos in Hp as (i & q & Hi & Hq); [|intros x; apply owns_nonneg].
    pose proof (Hqs i) as Ht. rewrite Hi, He in Ht. cbn in Ht. apply lookup_replicate in Ht as [Ht _]. destruct q; try discriminate. injection Ht as ->. cbn in Hq. lia.
Qed.

(** In this kernel every thread has the identifier 0: a second one takes itself for the owner. *)
Lemma two_owners a : exists c, rtc (step kernel_mutexes a) (initial 2) c /\ c.1 = [Thread 1 None; Thread 1 None].
Proof.
  eexists. split. eapply rtc_l; [apply (start _ a _ _ 0 0 true); reflexivity|]. do 4 (eapply rtc_l; [eapply (act _ a _ _ 0); reflexivity|]).
  eapply rtc_l; [eapply (finish _ a _ _ 0); reflexivity|]. eapply rtc_l; [apply (start _ a _ _ 1 0 true); reflexivity|].
  do 3 (eapply rtc_l; [eapply (act _ a _ _ 1); reflexivity|]). eapply rtc_l; [eapply (finish _ a _ _ 1); reflexivity|]. apply rtc_refl. reflexivity.
Qed.

(** C19: the recursive lock is sound over a host that keeps its contract, however the actions of any
    number of threads interleave: mutexes that exclude and a distinct identifier for every thread,
    none of them the one that stands for no thread.  Over the mutexes and thread identifiers of
    [kernel_api.c] it is not: two threads hold it at once. *)
Theorem recursive_lock_excludes a :
  (forall host, excluding host -> own_ids host -> recursive_sound host a) /\
  ~ recursive_sound kernel_mutexes a.
Proof.
  split; [intros host; apply sound_excluding|]. intros Hs. destruct (two_owners a) as (c & Hr & Hc). destruct (Hs 2%nat c ltac:(done) Hr) as [Hw _].
  rewrite Hc in Hw. by destruct (Hw 0%nat 1%nat 1 1 ltac:(done) eq_refl eq_refl).
Qed.

(** Over a host that keeps its contract, a thread has the lock twice while another one tries to get it. *)
Lemma recursive_lock_excludes_witness :
  recursive_sound sound_host 1 /\ ~ recursive_sound kernel_mutexes 1 /\
  exists c, rtc (step sound_host 1) (initial 2) c /\ c.1 = [Thread 2 None; Thread 0 (Some (true, uacpi_recursive_lock_acquire 1 1))].
Proof.
  destruct (recursive_lock_excludes 1) as [H1 H2]. split; [apply H1|split; [exact H2|]].
  - intros held. reflexivity.
  - intros i Hi. split; [|intros j Hj Hij; apply Nat2Z.inj; exact Hij]. intros E. cbn in E. rewrite E in Hi. discriminate Hi.
  - eexists. split. eapply rtc_l; [apply (start _ 1 _ _ 0 0 true); reflexivity|]. do 4 (eapply rtc_l; [eapply (act _ 1 _ _ 0); reflexivity|]).
    eapply rtc_l; [eapply (finish _ 1 _ _ 0); reflexivity|]. eapply rtc_l; [apply (start _ 1 _ _ 0 1 true); reflexivity|].
    do 3 (eapply rtc_l; [eapply (act _ 1 _ _ 0); reflexivity|]). eapply rtc_l; [eapply (finish _ 1 _ _ 0); reflexivity|].
    eapply rtc_l; [apply (start _ 1 _ _ 1 0 true); reflexivity|]. apply rtc_refl. reflexivity.
Defined.
End Recursive.

(** ** Reference counts *)

(** A sequence of references taken ([true]) and dropped: the count and how often the object
    is freed. *)
Fixpoint run_refs (ops : list bool) (count : Z) (frees : nat) : Z * nat :=
  match ops with
  | [] => (count, frees)
  | true :: ops => run_refs ops (uacpi_shareable_ref count).1 frees
  | false :: ops => let '(count, freed) := uacpi_shareable_unref_and_delete_if_last 1 count in run_refs ops count (if freed then S frees else frees)
  end.

Lemma bugged_stays ops frees : run_refs ops BUGGED_REFCOUNT frees = (BUGGED_REFCOUNT, frees).
Proof. induction ops as [|[] ops IH]; [done|exact IH..]. Qed.

(** An object is freed at most once, whatever references are taken and dropped: too many
    references, and drops after the last one, leave a count that never frees. *)
Theorem freed_at_most_once ops : ((run_refs ops uacpi_shareable_init 0).2 <= 1)%nat.
Proof.
  assert (H : forall ops count, 0 < count <= BUGGED_REFCOUNT -> ((run_refs ops count 0).2 <= 1)%nat); [|apply H; unfold uacpi_shareable_init, BUGGED_REFCOUNT; lia].
  clear. induction ops as [|op ops IH]; intros count Hc; cbn [run_refs]; [cbn; lia|].
  unfold uacpi_shareable_ref, uacpi_shareable_unref_and_delete_if_last, uacpi_shareable_unref, uacpi_bugged_shareable. change (1 =? 0) with false. cbv iota.
  assert (count =? 0 = false) as -> by lia. unfold BUGGED_REFCOUNT in *. destruct (Z.eqb_spec count 4294967295) as [->|Hb]; [destruct op; by apply IH|].
  destruct op; cbv iota; [cbn [fst]; rewrite u32_small by lia; apply IH; lia|]. assert (count =? 0 = false) as -> by lia. rewrite (proj2 (Z.eqb_neq _ _) Hb).
  rewrite (u32_small (count - 1)) by lia. rewrite u32_small by lia. destruct (Z.eqb_spec (count - 1 + 1) 1) as [E|E]; [|apply IH; lia].
  replace (count - 1) with 0 by lia. destruct ops as [|[] ops]; [cbn; lia|..]; cbn [run_refs];
    [change (uacpi_shareable_ref 0).1 with BUGGED_REFCOUNT|change (uacpi_shareable_unref_and_delete_if_last 1 0) with (BUGGED_REFCOUNT, false); cbv iota];
    rewrite bugged_stays; cbn; lia.
Qed.

(** ** The global lock *)

Definition owned (value : Z) : bool := truthy ((value &&& GLOBAL_LOCK_OWNED) >>> GLOBAL_LOCK_OWNED_BIT).

(** The lock word and the context of a machine where nothing interferes. *)
Record quiet (ctx : lock_ctx) (s : store) : Prop := {
  qt_level : UACPI_INIT_LEVEL_SUBSYSTEM_INITIALIZED <= lk_init_level ctx;
  qt_mutex : global_lock_mutex ctx <> 0;
  qt_namespace : namespace_mutex ctx <> 0;
  qt_tries : interference ctx <> 0%nat;
  qt_free : has_global_lock ctx = true -> owned (s global_lock) = false }.

(** What taking the lock from the firmware does. *)
Definition firmware_taken (ctx : lock_ctx) (s : store) : store :=
  if has_global_lock ctx then set_var (set_var s global_lock (acquired_word (s global_lock))) global_lock_pending 0 else s.
Definition firmware_events (ctx : lock_ctx) : list event :=
  if has_global_lock ctx then [Locked (global_lock_spinlock ctx); Unlocked (global_lock_spinlock ctx)] else [].

Lemma exec_try n s : exec (try_acquire_global_lock_from_firmware (S n) 0) s =
  (if owned (s global_lock) then 0 else 1, set_var s global_lock (acquired_word (s global_lock)), []).
Proof. unfold try_acquire_global_lock_from_firmware. cbn [exec try_acquire_loop]. by rewrite Z.eqb_refl. Qed.

Lemma exec_take ctx s : quiet ctx s -> exec (uacpi_acquire_global_lock_from_firmware ctx) s = (UACPI_STATUS_OK, firmware_taken ctx s, firmware_events ctx).
Proof.
  intros [_ _ _ Ht Hf]. unfold uacpi_acquire_global_lock_from_firmware, firmware_taken, firmware_events. destruct (has_global_lock ctx); [|done]. cbn [negb].
  destruct (Z.to_nat 65535) as [|fuel] eqn:Ef; [lia|]. destruct (interference ctx) as [|n] eqn:Ei; [done|]. cbn [exec firmware_loop].
  rewrite exec_then, Ei, exec_try, (Hf eq_refl). done.
Qed.

Lemma exec_give ctx s : interference ctx <> 0%nat -> exec (uacpi_release_global_lock_to_firmware ctx) s =
  (0, if has_global_lock ctx then set_var s global_lock (s global_lock &&& u32 (Z.lnot GLOBAL_LOCK_MASK)) else s,
   if has_global_lock ctx && truthy (s global_lock &&& GLOBAL_LOCK_PENDING) then [Notified] else []).
Proof.
  intros Ht. unfold uacpi_release_global_lock_to_firmware. destruct (has_global_lock ctx); [|done]. cbn [negb andb].
  destruct (interference ctx) as [|n] eqn:Ei; [done|]. rewrite exec_then. unfold do_release_global_lock_to_firmware. cbn [exec release_loop]. rewrite Z.eqb_refl. cbn [exec].
  by destruct (truthy (s global_lock &&& GLOBAL_LOCK_PENDING)).
Qed.

Lemma exec_acquire_native h t s : h <> 0 -> exec (uacpi_acquire_native_mutex_with_timeout h t) s = (UACPI_STATUS_OK, s, [Locked h]).
Proof. intros H. unfold uacpi_acquire_native_mutex_with_timeout. by rewrite (proj2 (Z.eqb_neq h 0) H). Qed.
Lemma exec_release_native h s : h <> 0 -> exec (uacpi_release_native_mutex h) s = (UACPI_STATUS_OK, s, [Unlocked h]).
Proof. intros H. unfold uacpi_release_native_mutex. by rewrite (proj2 (Z.eqb_neq h 0) H). Qed.

(** The global lock cannot be given back.  Acquiring it hands out the sequence number before
    it is counted up, releasing compares with the one after: the number a caller got is always
    refused, and the lock stays taken. *)
Theorem global_lock_cannot_be_released ctx s timeout : quiet ctx s -> 0 <= s global_lock_seq_num < 2 ^ 32 ->
  exists s' es, exec (uacpi_acquire_global_lock ctx timeout true) s = (UACPI_STATUS_OK, s', es) /\
    exec (uacpi_release_global_lock ctx (s' out_seq)) s' = (UACPI_STATUS_INVALID_ARGUMENT, s', []).
Proof.
  intros Hq Hn. pose proof Hq as [Hl Hm _ _ _]. unfold uacpi_acquire_global_lock, uacpi_release_global_lock. rewrite (proj2 (Z.ltb_ge _ _) Hl). cbn [negb].
  rewrite exec_then, exec_acquire_native by done. cbv beta iota. change (truthy UACPI_STATUS_OK) with false. cbv iota.
  rewrite exec_then, exec_take by done. cbv beta iota. change (truthy UACPI_STATUS_OK) with false. cbv iota. set (s1 := firmware_taken ctx s).
  assert (s1 global_lock_seq_num = s global_lock_seq_num) as E1 by (subst s1; unfold firmware_taken; by destruct (has_global_lock ctx)). cbn [exec].
  destruct (Z.eqb_spec (s1 global_lock_seq_num) 4294967295) as [E|E]; cbn [exec]; eexists _, _; (split; [reflexivity|]); repeat (rewrite set_var_eq || rewrite set_var_ne by done).
  - done.
  - change (negb (truthy 1)) with false. cbn [exec]. repeat (rewrite set_var_eq || rewrite set_var_ne by done).
    rewrite u32_small by lia. rewrite (proj2 (Z.eqb_neq _ (s1 global_lock_seq_num + 1))) by lia. done.
Qed.

(** ** AML mutexes *)

(** Running a program several times: the answers, the variables and the events. *)
Fixpoint runs (k : nat) (p : prog) (s : store) : list Z * store * list event :=
  match k with
  | O => ([], s, [])
  | S k => let '(r, s, es) := exec p s in let '(rs, s, es') := runs k p s in (r :: rs, s, es ++ es')
  end.

Section Aml.
Context (ctx : lock_ctx) (h this_id timeout : Z) (Hh : h <> 0) (Hid : this_id <> UACPI_THREAD_ID_NONE).

(** Taking the mutex for the first time: the namespace is unlocked while waiting for it, and
    the global lock's mutex takes the lock from the firmware too. *)
Definition first_events : list event :=
  [Unlocked (namespace_mutex ctx); Locked h] ++ (if h =? global_lock_mutex ctx then firmware_events ctx else []) ++ [Locked (namespace_mutex ctx)].

Lemma aml_first s : quiet ctx s -> s owner <> this_id ->
  exists s', exec (uacpi_acquire_aml_mutex ctx h this_id timeout) s = (UACPI_STATUS_OK, s', first_events) /\ s' owner = this_id /\ s' depth = 1.
Proof.
  intros Hq Ho. pose proof Hq as [_ _ Hn _ _]. unfold uacpi_acquire_aml_mutex. cbn [exec]. rewrite (proj2 (Z.eqb_neq _ _) Ho).
  unfold uacpi_rw_unlock_write, uacpi_rw_lock_write. rewrite exec_then, exec_release_native by done. cbv beta iota.
  rewrite exec_then, exec_acquire_native by done. cbv beta iota. change (truthy UACPI_STATUS_OK) with false. cbv iota. rewrite exec_then.
  assert (Hw : exec (uacpi_acquire_native_mutex (namespace_mutex ctx)) = fun s => (UACPI_STATUS_OK, s, [Locked (namespace_mutex ctx)])) by
    (unfold uacpi_acquire_native_mutex; by rewrite (proj2 (Z.eqb_neq _ 0) Hn)).
  unfold first_events. destruct (h =? global_lock_mutex ctx).
  - rewrite exec_take by done. cbv beta iota. change (truthy UACPI_STATUS_OK) with false. cbn [exec]. rewrite exec_then, Hw. cbn [exec].
    eexists. split; [by rewrite app_nil_r|]. by rewrite set_var_eq, set_var_ne, set_var_eq.
  - cbn [exec]. change (truthy UACPI_STATUS_OK) with false. cbn [exec]. rewrite exec_then, Hw. cbn [exec]. eexists. split; [reflexivity|].
    by rewrite set_var_eq, set_var_ne, set_var_eq.
Qed.

Lemma aml_again k s : s owner = this_id -> 1 <= s depth -> s depth + Z.of_nat k <= 65535 ->
  exists s', runs k (uacpi_acquire_aml_mutex ctx h this_id timeout) s = (replicate k UACPI_STATUS_OK, s', []) /\
    s' owner = this_id /\ s' depth = s depth + Z.of_nat k.
Proof.
  revert s. induction k as [|k IH]; intros s Ho Hd Hk; cbn [runs replicate]; [exists s; split_and_all; [done|done|lia]|].
  unfold uacpi_acquire_aml_mutex at 1. cbn [exec]. rewrite Ho, Z.eqb_refl. cbn [exec]. rewrite (proj2 (Z.eqb_neq (s depth) 65535)) by lia. cbn [exec].
  rewrite u16_small by lia. destruct (IH (set_var s depth (s depth + 1))) as (s' & -> & Ho' & Hd'); rewrite ?set_var_eq, ?set_var_ne by done; [done|lia|lia|].
  exists s'. split_and_all; [done|done|]. rewrite Hd', set_var_eq. lia.
Qed.

Lemma aml_inner k s : Z.of_nat k < s depth <= 65535 ->
  exists s', runs k (uacpi_release_aml_mutex ctx h) s = (replicate k UACPI_STATUS_OK, s', []) /\ s' owner = s owner /\ s' depth = s depth - Z.of_nat k.
Proof.
  revert s. induction k as [|k IH]; intros s Hk; cbn [runs replicate]; [exists s; split_and_all; [done|done|lia]|].
  unfold uacpi_release_aml_mutex at 1. cbn [exec]. rewrite (proj2 (Z.ltb_lt 1 _)) by lia. cbn [exec]. rewrite u16_small by lia.
  destruct (IH (set_var s depth (s depth - 1))) as (s' & -> & Ho' & Hd'); rewrite ?set_var_eq; [lia|].
  exists s'. split_and_all; [done|by rewrite Ho', set_var_ne|]. rewrite Hd', set_var_eq. lia.
Qed.

Lemma aml_last s : interference ctx <> 0%nat -> s depth = 1 ->
  exists s' es, exec (uacpi_release_aml_mutex ctx h) s = (UACPI_STATUS_OK, s', es ++ [Unlocked h]) /\ s' owner = UACPI_THREAD_ID_NONE /\ s' depth = 0 /\
    (h <> global_lock_mutex ctx -> es = []).
Proof.
  intros Ht Hd. unfold uacpi_release_aml_mutex. cbn [exec]. rewrite Hd. change (1 <? 1) with false. change (u16 (1 - 1)) with 0. cbv iota. rewrite exec_then.
  destruct (Z.eqb_spec h (global_lock_mutex ctx)) as [E|E].
  - rewrite exec_give by done. cbn [exec]. rewrite exec_then, exec_release_native by done. cbn [exec]. eexists _, _. split; [reflexivity|]. split; [done|]. split; [|done].
    destruct (has_global_lock ctx); rewrite ?set_var_ne by done; by rewrite set_var_eq.
  - cbn [exec]. rewrite exec_then, exec_release_native by done. cbn [exec]. eexists _, []. split; [reflexivity|]. by split_and_all.
Qed.

Lemma runs_snoc k p s : runs (S k) p s = let '(rs, s, es) := runs k p s in let '(r, s, es') := exec p s in (rs ++ [r], s, es ++ es').
Proof.
  revert s. induction k as [|k IH]; intros s; [cbn [runs]; destruct (exec p s) as [[? ?] ?]; by rewrite app_nil_r|].
  change (runs (S (S k)) p s) with (let '(r, s, es) := exec p s in let '(rs, s, es') := runs (S k) p s in (r :: rs, s, es ++ es')).
  change (runs (S k) p s) with (let '(r, s, es) := exec p s in let '(rs, s, es') := runs k p s in (r :: rs, s, es ++ es')).
  destruct (exec p s) as [[r s1] es]. rewrite IH. destruct (runs k p s1) as [[rs s2] es2]. destruct (exec p s2) as [[? ?] ?]. by rewrite app_assoc.
Qed.
End Aml.

(** An AML mutex can be acquired up to 65535 times by its owner.  Only the first acquisition
    locks the native mutex, with the namespace unlocked meanwhile; the others count; one more
    than 65535 is refused without an effect; as many releases give the native mutex back, the
    last of them, and leave no owner. *)
Theorem aml_mutex_nests ctx h this_id timeout s (k : nat) : h <> 0 -> quiet ctx s -> s owner <> this_id -> (1 <= k)%nat -> Z.of_nat k <= 65535 ->
  exists s1 s2 es,
    runs k (uacpi_acquire_aml_mutex ctx h this_id timeout) s = (replicate k UACPI_STATUS_OK, s1, first_events ctx h) /\
    s1 owner = this_id /\ s1 depth = Z.of_nat k /\
    (Z.of_nat k = 65535 -> exec (uacpi_acquire_aml_mutex ctx h this_id timeout) s1 = (UACPI_STATUS_DENIED, s1, [])) /\
    runs k (uacpi_release_aml_mutex ctx h) s1 = (replicate k UACPI_STATUS_OK, s2, es ++ [Unlocked h]) /\
    s2 owner = UACPI_THREAD_ID_NONE /\ s2 depth = 0 /\ (h <> global_lock_mutex ctx -> es = []).
Proof.
  intros Hh Hq Ho Hk1 Hk. destruct k as [|k]; [lia|]. pose proof Hq as [_ _ _ Ht _].
  destruct (aml_first ctx h this_id timeout Hh s Hq Ho) as (s0 & E0 & Ho0 & Hd0).
  destruct (aml_again ctx h this_id timeout k s0 Ho0 ltac:(lia) ltac:(lia)) as (s1 & E1 & Ho1 & Hd1).
  destruct (aml_inner ctx h k s1 ltac:(lia)) as (s2 & E2 & Ho2 & Hd2). destruct (aml_last ctx h Hh s2 Ht ltac:(lia)) as (s3 & es & E3 & Ho3 & Hd3 & He).
  exists s1, s3, es. split_and_all; try done.
  - cbn [runs]. rewrite E0, E1. by rewrite app_nil_r.
  - lia.
  - intros Hf. unfold uacpi_acquire_aml_mutex. cbn [exec]. rewrite Ho1, Z.eqb_refl. cbn [exec]. by rewrite (proj2 (Z.eqb_eq (s1 depth) 65535)) by lia.
  - rewrite runs_snoc, E2, E3. by rewrite replicate_S_end.
Qed.

Definition demo_lock_ctx : lock_ctx := LockCtx true 16 1 32 48 1 1.
Definition demo_locks : store := set_var (fun _ => 0) owner UACPI_THREAD_ID_NONE.

Lemma demo_quiet : quiet demo_lock_ctx demo_locks.
Proof. split; discriminate || done. Qed.

Lemma aml_mutex_nests_witness :
  exists s1 s2 es, runs 2 (uacpi_acquire_aml_mutex demo_lock_ctx 32 0 65535) demo_locks = ([0; 0], s1, [Unlocked 48; Locked 32; Locked 16; Unlocked 16; Locked 48]) /\
    runs 2 (uacpi_release_aml_mutex demo_lock_ctx 32) s1 = ([0; 0], s2, es ++ [Unlocked 32]) /\ s2 owner = UACPI_THREAD_ID_NONE.
Proof.
  destruct (aml_mutex_nests demo_lock_ctx 32 0 65535 demo_locks 2 ltac:(discriminate) demo_quiet ltac:(discriminate) ltac:(lia) ltac:(lia)) as (s1 & s2 & es & H1 & _ & _ & _ & H2 & H3 & _).
  exists s1, s2, es. split; [exact H1|]. split; [exact H2|exact H3].
Defined.

Lemma global_lock_cannot_be_released_witness :
  exists s' es, exec (uacpi_acquire_global_lock demo_lock_ctx 65535 true) demo_locks = (UACPI_STATUS_OK, s', es) /\
    exec (uacpi_release_global_lock demo_lock_ctx (s' out_seq)) s' = (UACPI_STATUS_INVALID_ARGUMENT, s', []).
Proof. apply global_lock_cannot_be_released; [apply demo_quiet|split; [discriminate|reflexivity]]. Defined.
