(* ===== verification/AcpiOsi.v ===== *)
(** * Interfaces reported to the firmware, [src/src/uacpi/osi.c]

    The method [_OSI] asks whether the system supports an interface.  uACPI keeps a list of
    the interfaces it knows, in front those added at run time.  The list is modelled as it is;
    the theorems say that it implements a finite map from names to what is known of them.  The
    query handler is a function of the user's, given by its address: what it does to the user's
    state, and its answer, are a parameter ([invoke]); it does not call back into uACPI. *)

From stdpp Require Import strings.
From S2P Require Import Prelude Mem CString Block KernelApi AcpiGas AcpiRegs.
#[local] Open Scope Z_scope.

Definition UACPI_STATUS_ALREADY_EXISTS : Z := 9.
Definition UACPI_INTERFACE_KIND_VENDOR : Z := 1 <<< 0.
Definition UACPI_INTERFACE_KIND_FEATURE : Z := 1 <<< 1.

(** [if_memory]: the two blocks of a dynamic interface, the structure and its name. *)
Record entry := Entry { weight : Z; kind : Z; host_type : Z; disabled : bool; dynamic : bool; if_memory : Z * Z }.
#[global] Instance eta_entry : Eta entry := EtaOf _ (fun e => Entry (weight e) (kind e) (host_type e) (disabled e) (dynamic e) (if_memory e)).
Definition registered_interface : Type := string * entry.

(** Vendor interfaces are weighted by their age. *)
Definition WINDOWS (name : string) (interface : Z) : registered_interface :=
  (("Windows " +:+ name)%string, Entry interface UACPI_INTERFACE_KIND_VENDOR 0 false false (0, 0)).
Definition HOST_FEATURE (name : string) (type : Z) : registered_interface :=
  (name, Entry 0 UACPI_INTERFACE_KIND_FEATURE type true false (0, 0)).

Definition predefined_interfaces : list registered_interface :=
  [WINDOWS "2000" 1; WINDOWS "2001" 2; WINDOWS "2001 SP1" 3; WINDOWS "2001.1" 4; WINDOWS "2001 SP2" 5; WINDOWS "2001.1 SP1" 6;
   WINDOWS "2006" 7; WINDOWS "2006.1" 8; WINDOWS "2006 SP1" 9; WINDOWS "2006 SP2" 10; WINDOWS "2009" 11; WINDOWS "2012" 12;
   WINDOWS "2013" 13; WINDOWS "2015" 14; WINDOWS "2016" 15; WINDOWS "2017" 16; WINDOWS "2017.2" 17; WINDOWS "2018" 18;
   WINDOWS "2018.2" 19; WINDOWS "2019" 20; WINDOWS "2020" 21; WINDOWS "2021" 22; WINDOWS "2022" 23;
   HOST_FEATURE "Module Device" 1; HOST_FEATURE "Processor Device" 2; HOST_FEATURE "3.0 Thermal Model" 3;
   HOST_FEATURE "3.0 _SCP Extensions" 4; HOST_FEATURE "Processor Aggregator Device" 5;
   ("Extended Address Space Descriptor"%string, Entry 0 0 0 false false (0, 0))].

(** The static variables; the handler is an address, 0 for none. *)
Record osi := Osi {
  registered_interfaces : list registered_interface; interface_mutex : Z;
  interface_handler : Z; latest_queried_interface : Z }.
#[global] Instance eta_osi : Eta osi := EtaOf _ (fun o => Osi (registered_interfaces o) (interface_mutex o) (interface_handler o) (latest_queried_interface o)).

Fixpoint find_interface_unlocked (l : list registered_interface) (name : string) : option entry :=
  match l with
  | [] => None
  | (n, e) :: l => if decide (n = name) then Some e else find_interface_unlocked l name
  end.

(** The name of the interface. *)
Fixpoint find_host_interface_unlocked (l : list registered_interface) (type : Z) : option string :=
  match l with
  | [] => None
  | (n, e) :: l => if host_type e =? type then Some n else find_host_interface_unlocked l type
  end.

(** A change of the interface the search by name finds. *)
Fixpoint update_interface (f : entry -> entry) (name : string) (l : list registered_interface) : list registered_interface :=
  match l with
  | [] => []
  | (n, e) :: l => if decide (n = name) then (n, f e) :: l else (n, e) :: update_interface f name l
  end.

(** Unlinking it. *)
Fixpoint unlink_interface (name : string) (l : list registered_interface) : list registered_interface :=
  match l with
  | [] => []
  | (n, e) :: l => if decide (n = name) then l else (n, e) :: unlink_interface name l
  end.

(** The kernel's mutex always grants; one that is missing is an error. *)
Definition interface_lock (o : osi) : Z :=
  if interface_mutex o =? 0 then UACPI_STATUS_INVALID_ARGUMENT else uacpi_kernel_acquire_mutex (interface_mutex o) 65535.

(** [init_level] of the runtime context. *)
Definition guarded {A} (init_level : Z) (o : osi) (fail : Z -> A) (body : A) : A :=
  if init_level <? UACPI_INIT_LEVEL_SUBSYSTEM_INITIALIZED then fail UACPI_STATUS_INIT_LEVEL_MISMATCH
  else if truthy (interface_lock o) then fail (interface_lock o)
  else body.

Section Osi.
Context {hhdm : Z} {K : Type} `{KM : KernelMem hhdm K} (init_level : Z).

(** The links between the predefined interfaces are made last. *)
Definition uacpi_initialize_interfaces (h : K) (o : osi) : option (K * osi * Z) :=
  '(h, mutex) ← uacpi_kernel_create_mutex h;
  let o := o <| interface_mutex := mutex |> in
  if mutex =? 0 then Some (h, o <| registered_interfaces := take 1 predefined_interfaces |>, UACPI_STATUS_OUT_OF_MEMORY)
  else Some (h, o <| registered_interfaces := predefined_interfaces |>, UACPI_STATUS_OK).

(** The size of [struct registered_interface]. *)
Definition INTERFACE_SIZE : Z := 24.

Definition free_interface (h : K) (e : entry) : option K :=
  h ← uacpi_kernel_free h (if_memory e).2; uacpi_kernel_free h (if_memory e).1.

(** The predefined interfaces stay where they are; those added are freed. *)
Fixpoint free_dynamic (h : K) (l : list registered_interface) : option K :=
  match l with
  | [] => Some h
  | (_, e) :: l => if dynamic e then h ← free_interface h e; free_dynamic h l else free_dynamic h l
  end.

Definition uacpi_deinitialize_interfaces (h : K) (o : osi) : option (K * osi) :=
  h ← free_dynamic h (registered_interfaces o);
  h ← (if interface_mutex o =? 0 then Some h else uacpi_kernel_free_mutex h (interface_mutex o));
  Some (h, Osi [] 0 0 0).

Definition uacpi_latest_queried_vendor_interface (o : osi) : Z := latest_queried_interface o.

Definition uacpi_install_interface (h : K) (o : osi) (name : string) (knd : Z) : option (K * osi * Z) :=
  guarded init_level o (fun ret => Some (h, o, ret))
    match find_interface_unlocked (registered_interfaces o) name with
    | Some _ =>
      Some (h, o <| registered_interfaces := update_interface (fun e => e <| disabled := false |>) name (registered_interfaces o) |>,
            UACPI_STATUS_ALREADY_EXISTS)
    | None =>
      '(h, interface) ← uacpi_kernel_alloc h INTERFACE_SIZE;
      if interface =? 0 then Some (h, o, UACPI_STATUS_OUT_OF_MEMORY)
      else
        '(h, name_copy) ← uacpi_kernel_alloc h (Z.of_nat (String.length name) + 1);
        if name_copy =? 0 then h ← uacpi_kernel_free h interface; Some (h, o, UACPI_STATUS_OUT_OF_MEMORY)
        else
          let e := Entry 0 (u8 knd) 0 false true (interface, name_copy) in
          Some (h, o <| registered_interfaces := (name, e) :: registered_interfaces o |>, UACPI_STATUS_OK)
    end.

Definition uacpi_uninstall_interface (h : K) (o : osi) (name : string) : option (K * osi * Z) :=
  guarded init_level o (fun ret => Some (h, o, ret))
    match find_interface_unlocked (registered_interfaces o) name with
    | None => Some (h, o, UACPI_STATUS_NOT_FOUND)
    | Some cur =>
      if dynamic cur then
        h ← free_interface h cur;
        Some (h, o <| registered_interfaces := unlink_interface name (registered_interfaces o) |>, UACPI_STATUS_OK)
      else if disabled cur then Some (h, o, UACPI_STATUS_NOT_FOUND)
      else
        Some (h, o <| registered_interfaces := update_interface (fun e => e <| disabled := true |>) name (registered_interfaces o) |>, UACPI_STATUS_OK)
    end.
End Osi.

Section Configure.
Context (init_level : Z).

Definition configure_host_interface (o : osi) (type : Z) (enabled : bool) : osi * Z :=
  guarded init_level o (fun ret => (o, ret))
    match find_host_interface_unlocked (registered_interfaces o) type with
    | None => (o, UACPI_STATUS_NOT_FOUND)
    | Some n => (o <| registered_interfaces := update_interface (fun e => e <| disabled := negb enabled |>) n (registered_interfaces o) |>, UACPI_STATUS_OK)
    end.
Definition uacpi_enable_host_interface (o : osi) (type : Z) : osi * Z := configure_host_interface o type true.
Definition uacpi_disable_host_interface (o : osi) (type : Z) : osi * Z := configure_host_interface o type false.

Definition uacpi_set_interface_query_handler (o : osi) (handler : Z) : osi * Z :=
  guarded init_level o (fun ret => (o, ret))
    (if negb (interface_handler o =? 0) && negb (handler =? 0) then (o, UACPI_STATUS_ALREADY_EXISTS)
     else (o <| interface_handler := handler |>, UACPI_STATUS_OK)).

(** [action] is true for [UACPI_INTERFACE_ACTION_ENABLE]. *)
Definition uacpi_bulk_configure_interfaces (o : osi) (action : bool) (knd : Z) : osi * Z :=
  guarded init_level o (fun ret => (o, ret))
    (o <| registered_interfaces := prod_map id (fun e => if truthy (knd &&& kind e) then e <| disabled := negb action |> else e) <$> registered_interfaces o |>,
     UACPI_STATUS_OK).

End Configure.

Section Query.
Context {U : Type} (invoke : Z -> U -> string -> bool -> U * bool).

(** The status and the answer, which stays as it was on an error. *)
Definition uacpi_handle_osi (o : osi) (u : U) (name : string) (out_value : bool) : osi * U * Z * bool :=
  if truthy (interface_lock o) then (o, u, interface_lock o, out_value)
  else
    match find_interface_unlocked (registered_interfaces o) name with
    | None => (o, u, UACPI_STATUS_OK, false)
    | Some e =>
      let o := if latest_queried_interface o <? weight e then o <| latest_queried_interface := weight e |> else o in
      let is_supported := negb (disabled e) in
      let '(u, is_supported) := if interface_handler o =? 0 then (u, is_supported) else invoke (interface_handler o) u name is_supported in
      (o, u, UACPI_STATUS_OK, is_supported)
    end.
End Query.

(** ** The list is a map *)

Definition known (o : osi) : gmap string entry := list_to_map (registered_interfaces o).

Lemma find_known l name : find_interface_unlocked l name = (list_to_map l : gmap string entry) !! name.
Proof.
  induction l as [|[n e] l IH]; cbn; [by rewrite lookup_empty|]. destruct (decide (n = name)) as [->|Hn]; [by rewrite lookup_insert_eq|].
  by rewrite lookup_insert_ne.
Qed.

Lemma update_known f name l : (list_to_map (update_interface f name l) : gmap string entry) = alter f name (list_to_map l).
Proof.
  induction l as [|[n e] l IH]; cbn; [by rewrite alter_empty|]. destruct (decide (n = name)) as [->|Hn]; cbn; [by rewrite alter_insert_eq|].
  by rewrite IH, alter_insert_ne.
Qed.

Lemma update_names f name l : (update_interface f name l).*1 = l.*1.
Proof. induction l as [|[n e] l IH]; cbn; [done|]. destruct (decide (n = name)); cbn; [done|]. by f_equal. Qed.

Lemma unlink_known name l : NoDup l.*1 -> (list_to_map (unlink_interface name l) : gmap string entry) = delete name (list_to_map l).
Proof.
  induction l as [|[n e] l IH]; cbn; [by rewrite delete_empty|]. intros [Hn Hd]%NoDup_cons. destruct (decide (n = name)) as [->|Hne]; cbn.
  - rewrite delete_insert_id; [done|]. by apply not_elem_of_list_to_map_1.
  - by rewrite IH, delete_insert_ne.
Qed.

Lemma unlink_sublist name l : sublist (unlink_interface name l) l.
Proof. induction l as [|[n e] l IH]; cbn; [done|]. destruct (decide (n = name)); [by apply sublist_cons|by apply sublist_skip]. Qed.

(** ** Refinement *)

(** The abstract registry. *)
Record registry := Registry { interfaces : gmap string entry; handler : Z; newest : Z }.
Definition view (o : osi) : registry := Registry (known o) (interface_handler o) (latest_queried_interface o).

Inductive osi_op := Install (name : string) (knd : Z) | Uninstall (name : string) | Configure (type : Z) (enabled : bool)
  | SetHandler (f : Z) | Bulk (enable : bool) (knd : Z) | Query (name : string).

Section Registry.
Context {U : Type} (invoke : Z -> U -> string -> bool -> U * bool).

(** What an operation does to the registry and the state of the user, its status and, for a query,
    the answer.  A query for a registered interface is answered by the handler if there is one; for
    other names and a handler the answer is left open. *)
Definition osi_spec (op : osi_op) (r r' : registry) (u u' : U) (ret : Z) (answer : bool) : Prop :=
  let same_map := r' = r in
  let map_to m := r' = Registry m (handler r) (newest r) in
  match op with Query _ => True | _ => u' = u end /\
  match op with
  | Install name knd =>
    match interfaces r !! name with
    | Some e => ret = UACPI_STATUS_ALREADY_EXISTS /\ map_to (<[name := e <| disabled := false |>]> (interfaces r))
    | None => ret = UACPI_STATUS_OUT_OF_MEMORY /\ same_map \/
              ret = UACPI_STATUS_OK /\ exists mm, map_to (<[name := Entry 0 (u8 knd) 0 false true mm]> (interfaces r))
    end
  | Uninstall name =>
    match interfaces r !! name with
    | Some e =>
      if dynamic e then ret = UACPI_STATUS_OK /\ map_to (delete name (interfaces r))
      else if disabled e then ret = UACPI_STATUS_NOT_FOUND /\ same_map
      else ret = UACPI_STATUS_OK /\ map_to (<[name := e <| disabled := true |>]> (interfaces r))
    | None => ret = UACPI_STATUS_NOT_FOUND /\ same_map
    end
  | Configure type enabled =>
    ret = UACPI_STATUS_NOT_FOUND /\ same_map /\ (forall n e, interfaces r !! n = Some e -> host_type e <> type) \/
    ret = UACPI_STATUS_OK /\ exists n e, interfaces r !! n = Some e /\ host_type e = type /\ map_to (<[n := e <| disabled := negb enabled |>]> (interfaces r))
  | SetHandler f =>
    if negb (handler r =? 0) && negb (f =? 0) then ret = UACPI_STATUS_ALREADY_EXISTS /\ same_map
    else ret = UACPI_STATUS_OK /\ r' = Registry (interfaces r) f (newest r)
  | Bulk enable knd =>
    ret = UACPI_STATUS_OK /\ map_to ((fun e => if truthy (knd &&& kind e) then e <| disabled := negb enable |> else e) <$> interfaces r)
  | Query name =>
    ret = UACPI_STATUS_OK /\
    match interfaces r !! name with
    | Some e => r' = Registry (interfaces r) (handler r) (Z.max (newest r) (weight e)) /\
                (u', answer) = if handler r =? 0 then (u, negb (disabled e)) else invoke (handler r) u name (negb (disabled e))
    | None => same_map /\ (handler r = 0 -> (u', answer) = (u, false))
    end
  end.

(** A run of the registry, with the answers to the calls. *)
Inductive osi_trace : list osi_op -> registry -> U -> list (Z * bool) -> registry -> U -> Prop :=
  | trace_nil r u : osi_trace [] r u [] r u
  | trace_cons op ops r r1 r2 u u1 u2 ret answer rs : osi_spec op r r1 u u1 ret answer -> osi_trace ops r1 u1 rs r2 u2 -> osi_trace (op :: ops) r u ((ret, answer) :: rs) r2 u2.
End Registry.

(** The memory of the interfaces added at run time. *)
Definition memory_of (l : list registered_interface) : list (Z * Z) :=
  flat_map (fun '(n, e) => if dynamic e then [((if_memory e).1, INTERFACE_SIZE); ((if_memory e).2, Z.of_nat (String.length n) + 1)] else []) l.

Section Refinement.
Context {hhdm : Z} {K U : Type} `{KM : KernelMem hhdm K} (invoke : Z -> U -> string -> bool -> U * bool).
Context (init_level : Z) (Hlevel : UACPI_INIT_LEVEL_SUBSYSTEM_INITIALIZED <= init_level).

Definition run_op (op : osi_op) (h : K) (o : osi) (u : U) : option (K * osi * U * Z * bool) :=
  match op with
  | Install name knd => '(h, o, ret) ← uacpi_install_interface init_level h o name knd; Some (h, o, u, ret, false)
  | Uninstall name => '(h, o, ret) ← uacpi_uninstall_interface init_level h o name; Some (h, o, u, ret, false)
  | Configure type enabled => let '(o, ret) := if enabled then uacpi_enable_host_interface init_level o type else uacpi_disable_host_interface init_level o type in Some (h, o, u, ret, false)
  | SetHandler f => let '(o, ret) := uacpi_set_interface_query_handler init_level o f in Some (h, o, u, ret, false)
  | Bulk enable knd => let '(o, ret) := uacpi_bulk_configure_interfaces init_level o enable knd in Some (h, o, u, ret, false)
  | Query name => let '(o, u, ret, answer) := uacpi_handle_osi invoke o u name false in Some (h, o, u, ret, answer)
  end.

(** No name twice, and exactly the memory of the interfaces added and of the mutex is taken
    from the heap, besides that of others. *)
Record osi_ok (h : K) (o : osi) (R : list (Z * Z)) : Prop := {
  ok_mutex : interface_mutex o <> 0;
  ok_names : NoDup (registered_interfaces o).*1;
  ok_memory : held h (memory_of (registered_interfaces o) ++ (interface_mutex o, 1) :: R) }.

#[local] Instance held_proper (h : K) : Proper (Permutation ==> impl) (held h).
Proof. intros R R' HR Hh. by eapply held_perm. Qed.

Lemma guarded_body {A} (o : osi) (fail : Z -> A) body : interface_mutex o <> 0 -> guarded init_level o fail body = body.
Proof. intros Hm. unfold guarded, interface_lock. by rewrite (proj2 (Z.ltb_ge _ _) Hlevel), (proj2 (Z.eqb_neq _ 0) Hm). Qed.

Lemma update_memory f name l : (forall e, dynamic (f e) = dynamic e /\ if_memory (f e) = if_memory e) -> memory_of (update_interface f name l) = memory_of l.
Proof.
  intros Hf. induction l as [|[n e] l IH]; [done|]. cbn. destruct (decide (n = name)); cbn; [|by f_equal]. destruct (Hf e) as [-> ->]. done.
Qed.

Lemma bulk_memory f l : (forall e, dynamic (f e) = dynamic e /\ if_memory (f e) = if_memory e) -> memory_of (prod_map id f <$> l) = memory_of l.
Proof. intros Hf. induction l as [|[n e] l IH]; [done|]. cbn. destruct (Hf e) as [-> ->]. f_equal. exact IH. Qed.

(** The memory of the interface that is unlinked. *)
Lemma unlink_memory name l e : find_interface_unlocked l name = Some e -> dynamic e = true ->
  memory_of l ≡ₚ ((if_memory e).2, Z.of_nat (String.length name) + 1) :: ((if_memory e).1, INTERFACE_SIZE) :: memory_of (unlink_interface name l).
Proof.
  intros Hf Hd. induction l as [|[n x] l IH]; cbn in *; [done|]. destruct (decide (n = name)) as [->|Hn].
  - injection Hf as ->. rewrite Hd. cbn. apply Permutation_swap.
  - cbn. rewrite (IH Hf). destruct (dynamic x); cbn; solve_Permutation.
Qed.

Lemma find_host_spec l type : NoDup l.*1 ->
  match find_host_interface_unlocked l type with
  | Some n => exists e, (list_to_map l : gmap string entry) !! n = Some e /\ host_type e = type
  | None => forall n e, (list_to_map l : gmap string entry) !! n = Some e -> host_type e <> type
  end.
Proof.
  induction l as [|[n e] l IH]; cbn; [intros _ n e; by rewrite lookup_empty|]. intros [Hn Hd]%NoDup_cons. specialize (IH Hd).
  destruct (Z.eqb_spec (host_type e) type) as [Ht|Ht]; [exists e; by rewrite lookup_insert_eq|].
  destruct (find_host_interface_unlocked l type) as [n'|].
  - destruct IH as (e' & He & Ht'). exists e'. rewrite lookup_insert_ne; [done|]. intros ->. apply Hn. by eapply elem_of_list_to_map_2, (list_elem_of_fmap_2 fst) in He.
  - intros n' e' [[<- <-]|[_ He]]%lookup_insert_Some; [done|by eapply IH].
Qed.

(** Changing one interface in place. *)
Lemma update_ok h o R f name e : osi_ok h o R -> known o !! name = Some e -> (forall e, dynamic (f e) = dynamic e /\ if_memory (f e) = if_memory e) ->
  osi_ok h (o <| registered_interfaces := update_interface f name (registered_interfaces o) |>) R /\
  view (o <| registered_interfaces := update_interface f name (registered_interfaces o) |>) = Registry (<[name := f e]> (known o)) (interface_handler o) (latest_queried_interface o).
Proof.
  intros [Hm Hn Hh] He Hf. split.
  - split; [done|cbn; by rewrite update_names|cbn; by rewrite update_memory].
  - unfold view. f_equal. unfold known in *. cbn. rewrite update_known. apply map_eq. intros i.
    destruct (decide (i = name)) as [->|Hi]; [by rewrite lookup_alter_eq, lookup_insert_eq, He|by rewrite lookup_alter_ne, lookup_insert_ne].
Qed.

Definition name_fits (op : osi_op) : Prop := match op with Install name _ => Z.of_nat (String.length name) + 1 < 2 ^ 31 | _ => True end.

Lemma install_ok h o R name knd : osi_ok h o R -> Z.of_nat (String.length name) + 1 < 2 ^ 31 ->
  exists h' o' ret, uacpi_install_interface init_level h o name knd = Some (h', o', ret) /\ osi_ok h' o' R /\ forall u : U, osi_spec invoke (Install name knd) (view o) (view o') u u ret false.
Proof.
  intros Hok Hl. pose proof Hok as [Hm Hn Hh]. unfold uacpi_install_interface. rewrite guarded_body by done. rewrite find_known. fold (known o). unfold osi_spec; cbn [interfaces view handler newest].
  destruct (known o !! name) as [e|] eqn:He.
  - destruct (update_ok h o R (fun e => e <| disabled := false |>) name e Hok He) as [H1 H2]; [done|]. eexists _, _, _. split; [reflexivity|]. split; [exact H1|]. intros u. split; [done|]. by rewrite H2.
  - unfold uacpi_kernel_alloc. destruct (heap_alloc_ok h _ INTERFACE_SIZE Hh ltac:(unfold INTERFACE_SIZE; lia)) as (h1 & i & -> & Hi). cbn [mbind option_bind].
    destruct Hi as [[-> Hh1]|[Hi0 Hh1]]; [eexists _, _, _; split; [reflexivity|]; split; [by split|intros u; split; [done|by left]]|]. rewrite (proj2 (Z.eqb_neq i 0) Hi0).
    destruct (heap_alloc_ok h1 _ (Z.of_nat (String.length name) + 1) Hh1 ltac:(lia)) as (h2 & c & -> & Hc). cbn [mbind option_bind].
    destruct Hc as [[-> Hh2]|[Hc0 Hh2]].
    + unfold uacpi_kernel_free. destruct (heap_free_ok h2 i _ _ Hh2) as (h3 & -> & Hh3). eexists _, _, _. split; [reflexivity|]. split; [by split|intros u; split; [done|by left]].
    + rewrite (proj2 (Z.eqb_neq c 0) Hc0). eexists _, _, _. split; [reflexivity|]. split.
      * split; [done| |]; cbn; [|eapply held_perm; [|exact Hh2]; cbn; apply Permutation_swap].
        apply NoDup_cons. split; [|done]. unfold known in He. by apply not_elem_of_list_to_map in He.
      * intros u. split; [done|]. right. split; [done|]. by exists (i, c).
Qed.

Lemma uninstall_ok h o R name : osi_ok h o R ->
  exists h' o' ret, uacpi_uninstall_interface init_level h o name = Some (h', o', ret) /\ osi_ok h' o' R /\ forall u : U, osi_spec invoke (Uninstall name) (view o) (view o') u u ret false.
Proof.
  intros Hok. pose proof Hok as [Hm Hn Hh]. unfold uacpi_uninstall_interface. rewrite guarded_body by done.
  destruct (find_interface_unlocked (registered_interfaces o) name) as [e|] eqn:Hf; pose proof Hf as He; rewrite find_known in He; fold (known o) in He; unfold osi_spec; cbn [interfaces view handler newest]; rewrite He.
  2: { eexists _, _, _. split; [reflexivity|]. by split. }
  destruct (dynamic e) eqn:Ed; [|destruct (disabled e)].
  - rewrite (unlink_memory name _ e Hf Ed) in Hh. unfold free_interface, uacpi_kernel_free.
    destruct (heap_free_ok h _ _ _ Hh) as (h1 & -> & Hh1). cbn [mbind option_bind]. destruct (heap_free_ok h1 _ _ _ Hh1) as (h2 & -> & Hh2). cbn [mbind option_bind].
    eexists _, _, _. split; [reflexivity|]. split; [|intros u; split; [done|]; split; [done|]; unfold view, known; cbn; by rewrite unlink_known].
    split; [done| |exact Hh2]. cbn. eapply sublist_NoDup; [exact Hn|]. apply fmap_sublist, unlink_sublist.
  - eexists _, _, _. split; [reflexivity|]. by split.
  - destruct (update_ok h o R (fun e => e <| disabled := true |>) name e Hok He) as [H1 H2]; [done|]. eexists _, _, _. split; [reflexivity|]. split; [exact H1|]. intros u. split; [done|]. by rewrite H2.
Qed.

Lemma configure_ok h o R type enabled : osi_ok h o R ->
  exists o' ret, configure_host_interface init_level o type enabled = (o', ret) /\ osi_ok h o' R /\ forall u : U, osi_spec invoke (Configure type enabled) (view o) (view o') u u ret false.
Proof.
  intros Hok. pose proof Hok as [Hm Hn Hh]. unfold configure_host_interface. rewrite guarded_body by done. pose proof (find_host_spec (registered_interfaces o) type Hn) as Hs.
  destruct (find_host_interface_unlocked (registered_interfaces o) type) as [n|]; [|eexists _, _; split; [reflexivity|]; split; [done|intros u; split; [done|by left]]].
  destruct Hs as (e & He & Ht). destruct (update_ok h o R (fun e => e <| disabled := negb enabled |>) n e Hok He) as [H1 H2]; [done|].
  eexists _, _. split; [reflexivity|]. split; [exact H1|]. intros u. split; [done|]. right. split; [done|]. exists n, e. by rewrite H2.
Qed.

Lemma op_refines h o u R op : osi_ok h o R -> name_fits op ->
  exists h' o' u' ret answer, run_op op h o u = Some (h', o', u', ret, answer) /\ osi_ok h' o' R /\ osi_spec invoke op (view o) (view o') u u' ret answer.
Proof.
  intros Hok Hl. pose proof Hok as [Hm Hn Hh]. destruct op as [name knd|name|type enabled|f|enable knd|name]; cbn [run_op].
  - destruct (install_ok h o R name knd Hok Hl) as (h' & o' & ret & -> & H1 & H2). by exists h', o', u, ret, false.
  - destruct (uninstall_ok h o R name Hok) as (h' & o' & ret & -> & H1 & H2). by exists h', o', u, ret, false.
  - destruct (configure_ok h o R type enabled Hok) as (o' & ret & E & H1 & H2). exists h, o', u, ret, false.
    unfold uacpi_enable_host_interface, uacpi_disable_host_interface. destruct enabled; by rewrite E.
  - unfold uacpi_set_interface_query_handler. rewrite guarded_body by done. unfold osi_spec; cbn [interfaces view handler newest].
    destruct (negb (interface_handler o =? 0) && negb (f =? 0)); by eexists _, _, _, _, _.
  - unfold uacpi_bulk_configure_interfaces. rewrite guarded_body by done. eexists _, _, _, _, _. split; [reflexivity|]. split.
    + split; [done| |]; cbn; [by rewrite <- list_fmap_compose|]. rewrite bulk_memory; [done|]. intros e. by destruct (truthy _).
    + split; [done|]. split; [done|]. unfold view, known. cbn. f_equal. by rewrite list_to_map_fmap.
  - unfold uacpi_handle_osi, interface_lock. rewrite (proj2 (Z.eqb_neq _ 0) Hm). change (truthy (uacpi_kernel_acquire_mutex (interface_mutex o) 65535)) with false. cbv iota.
    rewrite find_known. fold (known o). destruct (known o !! name) as [e|] eqn:He.
    + set (o1 := if _ <? _ then _ else o). assert (Ho1 : osi_ok h o1 R /\ view o1 = Registry (known o) (interface_handler o) (Z.max (latest_queried_interface o) (weight e)) /\ interface_handler o1 = interface_handler o).
      { subst o1. destruct (Z.ltb_spec (latest_queried_interface o) (weight e)); (split; [by split|]); (split; [|done]); unfold view; cbn; f_equal; lia. }
      destruct Ho1 as (Hok1 & Hv & ->). destruct (if interface_handler o =? 0 then _ else _) as [u' b] eqn:Eu. eexists _, _, _, _, _. split; [reflexivity|]. split; [exact Hok1|].
      unfold osi_spec; cbn [interfaces view handler newest]. rewrite He, Hv, Eu. done.
    + eexists _, _, _, _, _. split; [reflexivity|]. split; [done|]. unfold osi_spec; cbn [interfaces view handler newest]. by rewrite He.
Qed.

(** *** Whole runs *)

Fixpoint run_ops (ops : list osi_op) (h : K) (o : osi) (u : U) : option (K * osi * U * list (Z * bool)) :=
  match ops with
  | [] => Some (h, o, u, [])
  | op :: ops => '(h, o, u, ret, answer) ← run_op op h o u; '(h, o, u, rs) ← run_ops ops h o u; Some (h, o, u, (ret, answer) :: rs)
  end.

Lemma ops_refine h o u R ops : osi_ok h o R -> Forall name_fits ops ->
  exists h' o' u' rs, run_ops ops h o u = Some (h', o', u', rs) /\ osi_ok h' o' R /\ osi_trace invoke ops (view o) u rs (view o') u'.
Proof.
  intros Hok Hl. revert h o u Hok. induction Hl as [|op ops Hop Hops IH]; intros h o u Hok; cbn [run_ops]; [exists h, o, u, []; split_and_all; [done|done|constructor]|].
  destruct (op_refines h o u R op Hok Hop) as (h1 & o1 & u1 & ret & answer & -> & Hok1 & Hs). cbn [mbind option_bind].
  destruct (IH h1 o1 u1 Hok1) as (h2 & o2 & u2 & rs & -> & Hok2 & Ht). eexists _, _, _, _. split; [reflexivity|]. split; [done|]. by econstructor.
Qed.

Lemma free_dynamic_ok h l R : held h (memory_of l ++ R) -> exists h', free_dynamic h l = Some h' /\ held h' R.
Proof.
  revert h. induction l as [|[n e] l IH]; intros h Hh; cbn in *; [by exists h|]. destruct (dynamic e); [|by apply IH]. cbn in Hh.
  unfold free_interface, uacpi_kernel_free. rewrite Permutation_swap in Hh. destruct (heap_free_ok h _ _ _ Hh) as (h1 & -> & Hh1). cbn [mbind option_bind].
  destruct (heap_free_ok h1 _ _ _ Hh1) as (h2 & -> & Hh2). cbn [mbind option_bind]. by apply IH.
Qed.

Lemma predefined_ok h o R m : m <> 0 -> held h ((m, 1) :: R) -> osi_ok h ((o <| interface_mutex := m |>) <| registered_interfaces := predefined_interfaces |>) R.
Proof. intros Hm Hh. split; [done| |exact Hh]. apply (bool_decide_eq_true_1 (NoDup (predefined_interfaces.*1))). by vm_compute. Qed.
End Refinement.

(** C34: the list of interfaces implements a finite map.  From its initialization on, any sequence
    of installing and uninstalling interfaces, enabling and disabling host features, bulk
    configuration, setting the query handler and queries returns; statuses and answers are those
    of a map from names to interfaces that starts with the predefined ones, with the newest
    vendor interface asked for so far beside it: a query for an interface of the map is answered by
    the handler, told whether it is enabled, or without a handler by that itself; without a
    handler other names are not supported.  (With a handler the answer for other names is left
    open here: see [handler_not_asked].)  Running out of memory changes nothing, and the
    deinitialization gives back exactly the memory taken. *)
Theorem osi_refines_registry {hhdm K U} `{KM : KernelMem hhdm K} (invoke : Z -> U -> string -> bool -> U * bool) init_level h R o0 u ops :
  UACPI_INIT_LEVEL_SUBSYSTEM_INITIALIZED <= init_level -> held h R -> Forall name_fits ops ->
  exists h1 o1 ret, uacpi_initialize_interfaces h o0 = Some (h1, o1, ret) /\
    (ret = UACPI_STATUS_OUT_OF_MEMORY /\ held h1 R \/
     ret = UACPI_STATUS_OK /\ interfaces (view o1) = list_to_map predefined_interfaces /\
       exists h2 o2 u2 rs h3, run_ops invoke init_level ops h1 o1 u = Some (h2, o2, u2, rs) /\ osi_trace invoke ops (view o1) u rs (view o2) u2 /\
         uacpi_deinitialize_interfaces h2 o2 = Some (h3, Osi [] 0 0 0) /\ held h3 R).
Proof.
  intros Hl Hh Hops. unfold uacpi_initialize_interfaces, uacpi_kernel_create_mutex. destruct (heap_alloc_ok h R 1 Hh ltac:(lia)) as (h1 & m & -> & Hm). cbn [mbind option_bind].
  destruct Hm as [[-> Hm]|[Hm0 Hm]]; [eexists _, _, _; split; [reflexivity|]; by left|]. rewrite (proj2 (Z.eqb_neq m 0) Hm0). eexists _, _, _. split; [reflexivity|]. right.
  split; [done|]. split; [done|]. destruct (ops_refine invoke init_level Hl h1 _ u R ops (predefined_ok h1 o0 R m Hm0 Hm) Hops) as (h2 & o2 & u2 & rs & -> & [Hm2 _ Hh2] & Ht).
  destruct (free_dynamic_ok h2 _ _ Hh2) as (h3 & E3 & Hh3). destruct (heap_free_ok h3 _ _ _ Hh3) as (h4 & E4 & Hh4). exists h2, o2, u2, rs, h4. split_and_all; try done.
  unfold uacpi_deinitialize_interfaces. rewrite E3. cbn [mbind option_bind]. rewrite (proj2 (Z.eqb_neq _ 0) Hm2). unfold uacpi_kernel_free_mutex. by rewrite E4.
Qed.

Definition demo_ops : list osi_op :=
  [Install "Linux" 2; Query "Linux"; Query "Windows 2015"; Configure 3 true; Query "3.0 Thermal Model"; Uninstall "Linux"; Query "Linux"; Bulk false 1; Query "Windows 2000";
   SetHandler 7; Query "Windows 2001"].
(** A handler that counts its calls and turns every answer round. *)
Definition contrary (f : Z) (u : nat) (name : string) (supported : bool) : nat * bool := (S u, negb supported).

Lemma osi_refines_registry_witness :
  exists h1 o1 ret, uacpi_initialize_interfaces (KM := arena_mem 0) 8192 (Osi [] 0 0 0) = Some (h1, o1, ret) /\
    (ret = UACPI_STATUS_OUT_OF_MEMORY /\ held (KernelMem := arena_mem 0) h1 [] \/
     ret = UACPI_STATUS_OK /\ interfaces (view o1) = list_to_map predefined_interfaces /\
       exists h2 o2 u2 rs h3, run_ops (KM := arena_mem 0) contrary 1 demo_ops h1 o1 0%nat = Some (h2, o2, u2, rs) /\ osi_trace contrary demo_ops (view o1) 0%nat rs (view o2) u2 /\
         uacpi_deinitialize_interfaces (KM := arena_mem 0) h2 o2 = Some (h3, Osi [] 0 0 0) /\ held (KernelMem := arena_mem 0) h3 []).
Proof.
  apply (osi_refines_registry (KM := arena_mem 0)); [discriminate| |repeat constructor; reflexivity].
  split; [split; [discriminate|reflexivity]|]. split; [split; [reflexivity|discriminate]|]. split; [exact I|constructor].
Defined.

(** The answers of that run. *)
Example demo_answers :
  ('(h, o, _) ← uacpi_initialize_interfaces (KM := arena_mem 0) 8192 (Osi [] 0 0 0);
   '(_, o, u, rs) ← run_ops (KM := arena_mem 0) contrary 1 demo_ops h o 0%nat; Some (rs, u, latest_queried_interface o)) =
  Some ([(0, false); (0, true); (0, true); (0, false); (0, true); (0, false); (0, false); (0, false); (0, false); (0, false); (0, true)], 1%nat, 14).
Proof. by vm_compute. Qed.

(** The handler, which is to be invoked for each query, is not asked about a name that is not
    registered: the answer is no whatever it would say. *)
Theorem handler_not_asked {U} (invoke : Z -> U -> string -> bool -> U * bool) (o : osi) (u : U) (name : string) (out : bool) :
  interface_mutex o <> 0 -> known o !! name = None -> uacpi_handle_osi invoke o u name out = (o, u, UACPI_STATUS_OK, false).
Proof.
  intros Hm Hn. unfold uacpi_handle_osi, interface_lock. rewrite (proj2 (Z.eqb_neq _ 0) Hm). change (truthy (uacpi_kernel_acquire_mutex (interface_mutex o) 65535)) with false. cbv iota.
  rewrite find_known. fold (known o). by rewrite Hn.
Qed.
