(* ===== verification/AcpiNs.v ===== *)
(** * The ACPI namespace, [src/src/uacpi/namespace.c]

    The namespace is a tree of named nodes linked by pointers: a node knows its parent, its
    first child and its next sibling.  The nodes are a store from addresses to records; an
    access through a pointer that leads to no node is [None].  The objects attached to nodes
    belong to other parts of uACPI and are a parameter ([NsHost]); the references to nodes that
    field units give up when they are freed with an object are given up here.  Locks are left
    out: the kernel's mutexes always grant (their protocol is the subject of [AcpiRwLock]). *)

From S2P Require Import Prelude Mem CString KernelApi AcpiField AcpiRegion AcpiGas AcpiLock AcpiFmt.

Definition UACPI_STATUS_INTERNAL_ERROR : Z := 10.

(** ** Nodes *)

Definition UACPI_NAMESPACE_NODE_FLAG_ALIAS : Z := 1 <<< 0.
Definition UACPI_NAMESPACE_NODE_FLAG_DANGLING : Z := 1 <<< 1.
Definition UACPI_NAMESPACE_NODE_FLAG_TEMPORARY : Z := 1 <<< 2.
Definition UACPI_NAMESPACE_NODE_PREDEFINED : Z := 1 <<< 31.

(** The name is its four characters. *)
Record uacpi_namespace_node := Node {
  reference_count : Z; name : list Z; flags : Z; object : Z; parent : Z; child : Z; next : Z }.
#[global] Instance eta_node : Eta uacpi_namespace_node := EtaOf _ (fun n =>
  Node (reference_count n) (name n) (flags n) (object n) (parent n) (child n) (next n)).

Definition uacpi_namespace_node_is_alias (n : uacpi_namespace_node) : bool := truthy (flags n &&& UACPI_NAMESPACE_NODE_FLAG_ALIAS).
Definition uacpi_namespace_node_is_dangling (n : uacpi_namespace_node) : bool := truthy (flags n &&& UACPI_NAMESPACE_NODE_FLAG_DANGLING).
Definition uacpi_namespace_node_is_temporary (n : uacpi_namespace_node) : bool := truthy (flags n &&& UACPI_NAMESPACE_NODE_FLAG_TEMPORARY).
Definition uacpi_namespace_node_is_predefined (n : uacpi_namespace_node) : bool := truthy (flags n &&& UACPI_NAMESPACE_NODE_PREDEFINED).

Abbreviation nodes := (gmap Z uacpi_namespace_node).

(** A store through a pointer. *)
Definition set_node (s : nodes) (p : Z) (f : uacpi_namespace_node -> uacpi_namespace_node) : option nodes :=
  n ← s !! p; Some (<[p := f n]> s).

(** The predefined nodes are a static array of 48 bytes each, the root first. *)
Class NsRoot := { predefined_namespaces : Z; predefined_nonnull : 0 < predefined_namespaces }.
Definition NODE_SIZE : Z := 48.

Section Namespace.
Context `{NR : NsRoot}.

Definition uacpi_namespace_root : Z := predefined_namespaces.
Definition uacpi_namespace_get_predefined (ns : Z) : Z := if 9 <? ns then 0 else predefined_namespaces + NODE_SIZE * ns.

Definition or_root (p : Z) : Z := if p =? 0 then uacpi_namespace_root else p.

(** ** Search *)

(** Along the siblings; more rounds than there are nodes means a circle. *)
Fixpoint find_name (fuel : nat) (s : nodes) (p : Z) (nm : list Z) : option Z :=
  match fuel with
  | O => None
  | S f =>
    if p =? 0 then Some 0
    else n ← s !! p; if decide (name n = nm) then Some p else find_name f s (next n) nm
  end.

Definition rounds (s : nodes) : nat := S (size s).

Definition uacpi_namespace_node_find_sub_node (s : nodes) (par : Z) (nm : list Z) : option Z :=
  n ← s !! or_root par; find_name (rounds s) s (child n) nm.

(** ** Paths *)

Definition BACKSLASH : Z := 92.
Definition CARET : Z := 94.
Definition DOT : Z := 46.
Definition UNDERSCORE : Z := 95.

(** The first [k] characters of a segment, filled up; and what is left of the string. *)
Fixpoint segment_chars (k : nat) (s : list Z) : list Z * list Z :=
  match k with
  | O => ([], s)
  | S k =>
    match s with
    | c :: rest => if c =? DOT then let '(t, r) := segment_chars k s in (UNDERSCORE :: t, r)
                   else let '(t, r) := segment_chars k rest in (c :: t, r)
    | [] => let '(t, r) := segment_chars k s in (UNDERSCORE :: t, r)
    end
  end.
Definition segment_to_name (s : list Z) : list Z * list Z := segment_chars 4 s.

(** The way of [uacpi_namespace_node_resolve] to its label [out] (the status and the node), or
    on to the names. *)
Inductive walk := Out (ret node : Z) | Go (node : Z) (path : list Z) (single_nameseg : bool).

(** The prefixes: a backslash, or carets. *)
Fixpoint prefixes (s : nodes) (path : list Z) (cur prev_char : Z) (single : bool) : option walk :=
  match path with
  | [] => Some (Out UACPI_STATUS_OK cur)
  | c :: rest =>
    if c =? BACKSLASH then
      if prev_char =? CARET then Some (Out UACPI_STATUS_INVALID_ARGUMENT cur) else Some (Go uacpi_namespace_root rest false)
    else if c =? CARET then
      if cur =? uacpi_namespace_root then Some (Out UACPI_STATUS_INVALID_ARGUMENT cur)
      else n ← s !! cur; prefixes s rest (parent n) c false
    else Some (Go cur path single)
  end.

(** The search in the scopes above. *)
Fixpoint above (fuel : nat) (s : nodes) (par : Z) (nm : list Z) : option Z :=
  match fuel with
  | O => None
  | S f =>
    if par =? 0 then Some 0
    else
      cur ← uacpi_namespace_node_find_sub_node s par nm;
      if cur =? 0 then n ← s !! par; above f s (parent n) nm else Some cur
  end.

(** The names, one per round. *)
Fixpoint segments (fuel : nat) (s : nodes) (path : list Z) (par cur : Z) (single may_search_above : bool) : option Z :=
  match fuel with
  | O => None
  | S f =>
    match path with
    | [] => Some cur
    | c :: rest =>
      let path := if c =? DOT then rest else path in
      let '(nameseg, path) := segment_to_name path in
      let single := match path with [] => single | _ => false end in
      cur ← uacpi_namespace_node_find_sub_node s cur nameseg;
      if cur =? 0 then
        if negb may_search_above || negb single then Some 0
        else n ← s !! par; above (rounds s) s (parent n) nameseg
      else segments f s path par cur single may_search_above
    end
  end.

(** The status and, when it is OK, the node. *)
Definition uacpi_namespace_node_resolve (s : nodes) (par : Z) (path : list Z) (may_search_above permanent_only : bool) : option (Z * Z) :=
  w ← prefixes s path (or_root par) 0 true;
  '(ret, cur) ← match w with
                | Out ret cur => Some (ret, cur)
                | Go cur path single => cur ← segments (S (length path)) s path par cur single may_search_above; Some (UACPI_STATUS_OK, cur)
                end;
  if ret =? UACPI_STATUS_INVALID_ARGUMENT then Some (ret, 0)
  else if cur =? 0 then Some (UACPI_STATUS_NOT_FOUND, 0)
  else
    n ← s !! cur;
    if uacpi_namespace_node_is_temporary n && permanent_only then Some (UACPI_STATUS_DENIED, 0) else Some (ret, cur).

Definition uacpi_namespace_node_find (s : nodes) (par : Z) (path : list Z) : option (Z * Z) := uacpi_namespace_node_resolve s par path false true.
Definition uacpi_namespace_node_resolve_from_aml_namepath (s : nodes) (scope : Z) (path : list Z) : option (Z * Z) :=
  uacpi_namespace_node_resolve s scope path true true.

(** *** From a node to its path *)

Fixpoint depth_loop (fuel : nat) (s : nodes) (p depth : Z) : option Z :=
  match fuel with
  | O => None
  | S f => n ← s !! p; if parent n =? 0 then Some depth else depth_loop f s (parent n) (depth + 1)
  end.
Definition uacpi_namespace_node_depth (s : nodes) (p : Z) : option Z := depth_loop (rounds s) s p 0.

(** The names are copied from the last one forward to the root. *)
Fixpoint path_loop (fuel : nat) (s : nodes) (p offset : Z) (path : list Z) : option (list Z) :=
  match fuel with
  | O => None
  | S f =>
    if p =? uacpi_namespace_root then Some path
    else
      n ← s !! p;
      let offset := offset - 4 in
      path ← copy_to path offset (name n);
      let p := parent n in
      if p =? uacpi_namespace_root then path_loop f s p offset path
      else path ← zset path (offset - 1) DOT; path_loop f s p (offset - 1) path
  end.

(** [fresh]: what the allocator gives for a size, [None] for no memory. *)
Definition uacpi_namespace_node_generate_absolute_path (fresh : Z -> option (list Z)) (s : nodes) (p : Z) : option (option (list Z)) :=
  d ← uacpi_namespace_node_depth s p;
  let depth := d + 1 in
  let bytes_needed := 1 + (depth - 1) * 4 in
  let bytes_needed := bytes_needed + (if 2 <? depth then depth - 2 else 0) in
  let bytes_needed := bytes_needed + 1 in
  match fresh bytes_needed with
  | None => Some None
  | Some path =>
    path ← zset path 0 BACKSLASH;
    let offset := bytes_needed - 1 in
    path ← zset path offset 0;
    path ← path_loop (rounds s) s p offset path;
    Some (Some path)
  end.

(** ** Changes *)

Fixpoint last_sibling (fuel : nat) (s : nodes) (p : Z) : option Z :=
  match fuel with
  | O => None
  | S f => n ← s !! p; if next n =? 0 then Some p else last_sibling f s (next n)
  end.

Definition uacpi_namespace_node_install (s : nodes) (par p : Z) : option (Z * nodes) :=
  let par := or_root par in
  node ← s !! p;
  if uacpi_namespace_node_is_dangling node then Some (UACPI_STATUS_NAMESPACE_NODE_DANGLING, s)
  else
    pn ← s !! par;
    s ← (if child pn =? 0 then set_node s par (fun n => n <| child := p |>)
         else prev ← last_sibling (rounds s) s (child pn); set_node s prev (fun n => n <| next := p |>));
    s ← set_node s p (fun n => n <| parent := par |>);
    Some (UACPI_STATUS_OK, s).
End Namespace.

(** What the namespace calls: memory for nodes, and the objects attached to them. *)
Class NsHost (W : Type) := {
  nh_alloc : W -> W * Z;
  nh_free : W -> Z -> W;
  (** [uacpi_unwrap_internal_reference]; whether it is an operation region *)
  nh_unwrap : W -> Z -> Z;
  nh_is_region : W -> Z -> bool;
  (** [uacpi_opregion_uninstall_handler], which runs the handler and a method *)
  nh_region_uninstall : W -> nodes -> Z -> W * nodes;
  (** [uacpi_object_unref]; the nodes are those that field units freed with the object referred to *)
  nh_object_unref : W -> Z -> W * list Z }.

Section Changes.
Context `{NR : NsRoot} {W : Type} `{NH : NsHost W}.

Definition uacpi_namespace_node_get_object (w : W) (s : nodes) (p : Z) : option Z :=
  if p =? 0 then Some 0
  else n ← s !! p; Some (if object n =? 0 then 0 else nh_unwrap w (object n)).

Definition free_namespace_node (w : W) (s : nodes) (p : Z) : option (W * nodes) :=
  n ← s !! p;
  if negb (uacpi_namespace_node_is_predefined n) then Some (nh_free w p, delete p s)
  else Some (w, <[p := Node (reference_count n) (name n) UACPI_NAMESPACE_NODE_PREDEFINED 0 0 0 0]> s).

Definition uacpi_namespace_node_unref (w : W) (s : nodes) (p : Z) : option (W * nodes) :=
  if p =? 0 then Some (w, s)
  else
    n ← s !! p;
    let '(count, last) := uacpi_shareable_unref_and_delete_if_last p (reference_count n) in
    s ← set_node s p (fun n => n <| reference_count := count |>);
    if (last : bool) then free_namespace_node w s p else Some (w, s).

(** The references to nodes that field units give up when they are freed ([free_field_unit] of
    types.c); freeing a node frees no object. *)
Fixpoint unref_nodes (w : W) (s : nodes) (l : list Z) : option (W * nodes) :=
  match l with
  | [] => Some (w, s)
  | p :: l => '(w, s) ← uacpi_namespace_node_unref w s p; unref_nodes w s l
  end.
Definition uacpi_object_unref (w : W) (s : nodes) (obj : Z) : option (W * nodes) :=
  let '(w, l) := nh_object_unref w obj in unref_nodes w s l.

Definition namespace_node_detach_object (w : W) (s : nodes) (p : Z) : option (W * nodes) :=
  obj ← uacpi_namespace_node_get_object w s p;
  if obj =? 0 then Some (w, s)
  else
    let '(w, s) := if nh_is_region w obj then nh_region_uninstall w s p else (w, s) in
    n ← s !! p;
    '(w, s) ← uacpi_object_unref w s (object n);
    s ← set_node s p (fun n => n <| object := 0 |>);
    Some (w, s).

Definition uacpi_namespace_node_alloc (w : W) (s : nodes) (nm : list Z) : W * nodes * Z :=
  let '(w, p) := nh_alloc w in
  if p =? 0 then (w, s, 0) else (w, <[p := Node uacpi_shareable_init nm 0 0 0 0 0]> s, p).

(** The sibling in front of a node. *)
Fixpoint find_prev (fuel : nat) (s : nodes) (prev p : Z) : option Z :=
  match fuel with
  | O => None
  | S f => if prev =? 0 then Some 0 else n ← s !! prev; if next n =? p then Some prev else find_prev f s (next n) p
  end.

Definition uacpi_namespace_node_uninstall (w : W) (s : nodes) (p : Z) : option (Z * W * nodes) :=
  node ← s !! p;
  if uacpi_namespace_node_is_dangling node then Some (UACPI_STATUS_INTERNAL_ERROR, w, s)
  else if negb (child node =? 0) then Some (UACPI_STATUS_DENIED, w, s)
  else
    '(w, s) ← namespace_node_detach_object w s p;
    node ← s !! p;
    prev ← (if parent node =? 0 then Some 0 else pn ← s !! parent node; Some (child pn));
    let finish s :=
      s ← set_node s p (fun n => n <| flags := flags n ||| UACPI_NAMESPACE_NODE_FLAG_DANGLING |>);
      '(w, s) ← uacpi_namespace_node_unref w s p;
      Some (UACPI_STATUS_OK, w, s) in
    if prev =? p then s ← set_node s (parent node) (fun n => n <| child := next node |>); finish s
    else
      prev ← find_prev (rounds s) s prev p;
      if prev =? 0 then Some (UACPI_STATUS_INTERNAL_ERROR, w, s)
      else s ← set_node s prev (fun n => n <| next := next node |>); finish s.
End Changes.
