(* ===== verification/AcpiNsProps.v ===== *)
(** * The namespace is a tree of ordered scopes

    Installing and uninstalling nodes keeps the linked nodes a tree: every scope is the list
    of its children in the order of their installation.  Search finds the first child of a name,
    and the path made for a node leads back to it. *)

From S2P Require Import Prelude Mem CString KernelApi AcpiField AcpiRegion AcpiGas AcpiLock AcpiFmt AcpiFmtProps AcpiNs.

(** ** Scopes *)

(** The siblings from a pointer on. *)
Fixpoint linked (s : nodes) (p : Z) (l : list Z) : Prop :=
  match l with
  | [] => p = 0
  | q :: l => p = q /\ q <> 0 /\ exists n, s !! q = Some n /\ linked s (next n) l
  end.

Section Tree.
Context `{NR : NsRoot}.

(** [C]: the children of each node. *)
Record ns_inv (s : nodes) (C : Z -> list Z) : Prop := {
  iv_linked p n : s !! p = Some n -> linked s (child n) (C p);
  iv_none p : s !! p = None -> C p = [];
  iv_nodup p : NoDup (C p);
  iv_parent p c n : c ∈ C p -> s !! c = Some n -> parent n = p /\ uacpi_namespace_node_is_dangling n = false;
  iv_root : exists n, s !! uacpi_namespace_root = Some n /\ parent n = 0;
  iv_null : s !! 0 = None }.

Lemma root_nonnull : uacpi_namespace_root <> 0.
Proof. unfold uacpi_namespace_root. pose proof predefined_nonnull. lia. Qed.

Lemma linked_elem s p l q : linked s p l -> q ∈ l -> q <> 0 /\ is_Some (s !! q).
Proof.
  revert p. induction l as [|x l IH]; intros p H Hq; [by apply elem_of_nil in Hq|]. destruct H as (-> & Hx & n & Hn & Hl).
  apply elem_of_cons in Hq as [-> |Hq]; [by rewrite Hn|by eapply IH].
Qed.

(** A list of nodes without repetition is shorter than a search may be long. *)
Lemma nodes_bound (s : nodes) l : NoDup l -> (forall q, q ∈ l -> is_Some (s !! q)) -> (length l < rounds s)%nat.
Proof.
  intros Hd Hl. unfold rounds. apply Nat.lt_succ_r. rewrite <- (size_dom (D := gset Z) s), <- (size_list_to_set (C := gset Z) l) by done.
  apply subseteq_size. intros q Hq%elem_of_list_to_set. by apply elem_of_dom, Hl.
Qed.

Lemma child_in s C p c : ns_inv s C -> c ∈ C p -> c <> 0 /\ is_Some (s !! c) /\ is_Some (s !! p).
Proof.
  intros Hi Hc. destruct (s !! p) as [n|] eqn:Hp; [|by rewrite (iv_none _ _ Hi p Hp) in Hc; apply elem_of_nil in Hc].
  destruct (linked_elem s (child n) (C p) c (iv_linked _ _ Hi p n Hp) Hc). by split_and_all.
Qed.

Lemma scope_bound s C p : ns_inv s C -> (length (C p) < rounds s)%nat.
Proof. intros Hi. apply nodes_bound; [by eapply iv_nodup|]. intros q Hq. by destruct (child_in s C p q Hi Hq) as (_ & ? & _). Qed.

(** The first child of a name, or 0. *)
Fixpoint first_named (s : nodes) (l : list Z) (nm : list Z) : Z :=
  match l with
  | [] => 0
  | q :: l => if decide (name <$> s !! q = Some nm) then q else first_named s l nm
  end.

Lemma find_name_spec s p l nm fuel : linked s p l -> (length l < fuel)%nat -> find_name fuel s p nm = Some (first_named s l nm).
Proof.
  revert p fuel. induction l as [|q l IH]; intros p [|fuel] H Hf; cbn [length] in *; try lia; cbn [find_name first_named linked] in *; [by subst p|].
  destruct H as (-> & Hq & n & Hn & Hl). rewrite (proj2 (Z.eqb_neq q 0) Hq), Hn. cbn. destruct (decide (name n = nm)) as [He|He].
  - by rewrite decide_True by (by rewrite He).
  - rewrite decide_False by congruence. apply IH; [done|lia].
Qed.

Lemma find_sub_node_spec s C par nm : ns_inv s C -> is_Some (s !! or_root par) ->
  uacpi_namespace_node_find_sub_node s par nm = Some (first_named s (C (or_root par)) nm).
Proof.
  intros Hi [n Hn]. unfold uacpi_namespace_node_find_sub_node. rewrite Hn. cbn [mbind option_bind]. apply find_name_spec; [by eapply iv_linked|by eapply scope_bound].
Qed.

(** A child whose name no sibling shares is the one found. *)
Lemma first_named_unique s l c n : c ∈ l -> s !! c = Some n -> (forall q m, q ∈ l -> s !! q = Some m -> name m = name n -> q = c) ->
  first_named s l (name n) = c.
Proof.
  intros Hc Hn Hu. induction l as [|q l IH]; [by apply elem_of_nil in Hc|]. cbn. destruct (decide (name <$> s !! q = Some (name n))) as [He|He].
  - destruct (s !! q) as [m|] eqn:Hq; [|done]. cbn in He. apply (Hu q m); [constructor|done|congruence].
  - apply elem_of_cons in Hc as [-> |Hc]; [by rewrite Hn in He|]. apply IH; [done|]. intros x m Hx Hm He'. apply (Hu x m); [by constructor|done|done].
Qed.

(** ** Ways up to the root *)

Inductive way (s : nodes) : Z -> list Z -> Prop :=
  | way_root : way s uacpi_namespace_root []
  | way_up p n l : p <> uacpi_namespace_root -> s !! p = Some n -> way s (parent n) l -> way s p (p :: l).

Lemma way_unique s p l l' : way s p l -> way s p l' -> l = l'.
Proof.
  intros H. revert l'. induction H as [|p n l Hp Hn _ IH]; intros l' H'; inversion H'; subst; try done. f_equal. apply IH. congruence.
Qed.

Lemma way_suffix s p l q : way s p l -> q ∈ l -> exists l', way s q l' /\ (length l' <= length l)%nat.
Proof.
  induction 1 as [|p n l Hp Hn Hw IH]; intros Hq; [by apply elem_of_nil in Hq|]. apply elem_of_cons in Hq as [-> |Hq].
  - exists (p :: l). split; [by econstructor|done].
  - destruct (IH Hq) as (l' & H1 & H2). exists l'. split; [done|]. cbn. lia.
Qed.

Lemma way_nodup s p l : way s p l -> NoDup l /\ forall q, q ∈ l -> is_Some (s !! q).
Proof.
  induction 1 as [|p n l Hp Hn Hw [IH1 IH2]]; [split; [constructor|intros q Hq; by apply elem_of_nil in Hq]|]. split.
  - constructor; [|done]. intros Hin. destruct (way_suffix s _ l p Hw Hin) as (l' & H1 & H2).
    assert (l' = p :: l) as -> by (eapply way_unique; [done|by econstructor]). cbn in H2. lia.
  - intros q Hq. apply elem_of_cons in Hq as [-> |Hq]; [done|by apply IH2].
Qed.

Lemma way_bound s p l : way s p l -> (length l < rounds s)%nat.
Proof. intros H. destruct (way_nodup s p l H). by apply nodes_bound. Qed.

Lemma way_some s C p l : ns_inv s C -> way s p l -> is_Some (s !! p).
Proof. intros Hi H. destruct H as [|p n l _ Hn _]; [destruct (iv_root _ _ Hi) as (n & Hn & _); by exists n|by exists n]. Qed.

(** ** Paths *)

Definition name_at (s : nodes) (q : Z) : list Z := default [] (name <$> s !! q).

(** Names from the root downwards, with dots between them. *)
Fixpoint join (l : list (list Z)) : list Z :=
  match l with
  | [] => []
  | [nm] => nm
  | nm :: l => nm ++ DOT :: join l
  end.

(** The text of the path whose way up is [l]. *)
Definition path_text (s : nodes) (l : list Z) : list Z := join (reverse (name_at s <$> l)).

Lemma join_snoc l nm : join (l ++ [nm]) = match l with [] => nm | _ => join l ++ DOT :: nm end.
Proof. induction l as [|x l IH]; [done|]. destruct l as [|y l]; [done|]. change (x ++ DOT :: join ((y :: l) ++ [nm]) = (x ++ DOT :: join (y :: l)) ++ DOT :: nm). by rewrite IH, <- app_assoc. Qed.

Lemma path_text_cons s p l : path_text s (p :: l) = match l with [] => name_at s p | _ => path_text s l ++ DOT :: name_at s p end.
Proof.
  unfold path_text. cbn [fmap list_fmap]. rewrite reverse_cons, join_snoc. destruct l as [|q l]; [done|]. cbn [fmap list_fmap]. rewrite reverse_cons.
  by destruct (reverse (name_at s <$> l)).
Qed.

(** The nodes on a way: names of four characters without dots, each in its parent's scope,
    where no other node has its name. *)
Definition named_apart (s : nodes) (C : Z -> list Z) (l : list Z) : Prop :=
  forall q n, q ∈ l -> s !! q = Some n -> length (name n) = 4%nat /\ DOT ∉ name n /\ q ∈ C (parent n) /\
    forall q' m, q' ∈ C (parent n) -> s !! q' = Some m -> name m = name n -> q' = q.

Lemma depth_way s C p l fuel d : ns_inv s C -> way s p l -> (length l < fuel)%nat -> depth_loop fuel s p d = Some (d + Z.of_nat (length l)).
Proof.
  intros Hi Hw. revert fuel d. induction Hw as [|p n l Hp Hn Hw IH]; intros [|fuel] d Hf; cbn [length] in *; try lia; cbn [depth_loop].
  - destruct (iv_root _ _ Hi) as (n & -> & Hz). cbn [mbind option_bind]. rewrite Hz. cbn. f_equal. lia.
  - rewrite Hn. cbn [mbind option_bind]. assert (parent n <> 0) as Hz.
    { intros E. destruct (way_some s C _ _ Hi Hw) as [m Hm]. by rewrite E, (iv_null _ _ Hi) in Hm. }
    rewrite (proj2 (Z.eqb_neq _ 0) Hz), IH by lia. f_equal. lia.
Qed.

Lemma copy_to_spec buf i l : (i + length l <= length buf)%nat -> copy_to buf (Z.of_nat i) l = Some (take i buf ++ l ++ drop (i + length l) buf).
Proof.
  revert buf i. induction l as [|c l IH]; intros buf i H; cbn [copy_to length] in *; [cbn; by rewrite Nat.add_0_r, take_drop|].
  rewrite zset_ok by lia. cbn [mbind option_bind]. rewrite Nat2Z.id. replace (Z.of_nat i + 1) with (Z.of_nat (S i)) by lia. rewrite IH by (rewrite length_insert; lia).
  f_equal. rewrite drop_insert_lt by lia. rewrite (take_S_r _ i c) by (apply list_lookup_insert_eq; lia). rewrite take_insert_ge by lia.
  replace (S i + length l)%nat with (i + S (length l))%nat by lia. by rewrite <- app_assoc.
Qed.

(** How long the text is. *)
Definition text_length (k : nat) : nat := match k with O => 0 | S k => 4 + 5 * k end.

Lemma path_loop_way s C p l fuel o buf : ns_inv s C -> way s p l -> named_apart s C l -> (length l < fuel)%nat ->
  o = S (text_length (length l)) -> (o <= length buf)%nat ->
  exists buf', path_loop fuel s p (Z.of_nat o) buf = Some buf' /\ length buf' = length buf /\ take 1 buf' = take 1 buf /\ drop 1 buf' = path_text s l ++ drop o buf.
Proof.
  intros Hi Hw. revert fuel o buf. induction Hw as [|p n l Hp Hn Hw IH]; intros [|fuel] o buf Ha Hf Ho Hb; cbn [length text_length] in *; try lia; cbn [path_loop].
  - rewrite Z.eqb_refl. exists buf. by subst o.
  - rewrite (proj2 (Z.eqb_neq _ _) Hp), Hn. cbn [mbind option_bind]. destruct (Ha p n ltac:(constructor) Hn) as (H4 & _ & _ & _).
    assert (Ha' : named_apart s C l) by (intros q m Hq; apply Ha; by constructor).
    replace (Z.of_nat o - 4) with (Z.of_nat (o - 4)) by lia. rewrite copy_to_spec by lia. cbn [mbind option_bind]. rewrite H4. replace (o - 4 + 4)%nat with o by lia.
    set (buf1 := take (o - 4) buf ++ name n ++ drop o buf). assert (Hb1 : length buf1 = length buf) by (subst buf1; rewrite !length_app, length_take, length_drop; lia).
    rewrite path_text_cons. assert (name_at s p = name n) as -> by (unfold name_at; by rewrite Hn).
    destruct (Z.eqb_spec (parent n) uacpi_namespace_root) as [Er|Er].
    + assert (l = []) as -> by (rewrite Er in Hw; inversion Hw; subst; done). cbn [length text_length] in *. destruct fuel as [|fuel]; [lia|]. cbn [path_loop].
      rewrite Er, Z.eqb_refl. exists buf1. split_and_all; [done|done| |].
      * subst buf1 o. cbn. rewrite take_app_le by (rewrite length_take; lia). rewrite take_take. f_equal.
      * subst buf1 o. cbn [Nat.sub Nat.add Nat.mul]. rewrite drop_app_length' by (rewrite length_take; lia). done.
    + destruct l as [|q l]; [by inversion Hw; subst|]. set (k := length l) in *. cbn [length text_length] in *. fold k in IH, Hf |- *.
      replace (Z.of_nat (o - 4) - 1) with (Z.of_nat (o - 5)) by lia. rewrite zset_ok by lia. cbn [mbind option_bind]. rewrite Nat2Z.id.
      destruct (IH fuel (o - 5)%nat (<[(o - 5)%nat := DOT]> buf1)) as (buf' & -> & Hl & Ht & Hd); [done|lia|lia|rewrite length_insert; lia|].
      exists buf'. split_and_all; [done|rewrite Hl, length_insert; done| |].
      * rewrite Ht, take_insert_ge by lia. subst buf1. rewrite take_app_le by (rewrite length_take; lia). rewrite take_take. f_equal. lia.
      * rewrite Hd, <- app_assoc. f_equal. rewrite (drop_S _ DOT) by (apply list_lookup_insert_eq; lia). cbn [app]. f_equal.
        rewrite drop_insert_lt by lia. subst buf1. replace (S (o - 5)) with (o - 4)%nat by lia. rewrite drop_app_length' by (rewrite length_take; lia). done.
Qed.

Lemma segment_name nm rest : length nm = 4%nat -> DOT ∉ nm -> segment_to_name (nm ++ rest) = (nm, rest).
Proof.
  intros H4 Hd. destruct nm as [|a [|b [|c [|d [|]]]]]; try done. rewrite !not_elem_of_cons in Hd. destruct Hd as (Ha & Hb & Hc & Hd & _).
  unfold segment_to_name. cbn [app segment_chars]. by rewrite !(proj2 (Z.eqb_neq _ DOT)) by congruence.
Qed.

(** One name leads from a scope to the child that has it. *)
Lemma segments_step s C fuel q n par cur dot rest may : ns_inv s C -> named_apart s C [q] -> s !! q = Some n -> cur = parent n -> cur <> 0 -> (dot = [] \/ dot = [DOT]) ->
  segments (S fuel) s (dot ++ name n ++ rest) par cur false may = segments fuel s rest par q false may.
Proof.
  intros Hi Ha Hn -> Hc Hdot. destruct (Ha q n ltac:(constructor) Hn) as (H4 & Hd & Hin & Hu). destruct (child_in s C _ q Hi Hin) as (Hq & _ & Hp).
  assert (Hseg : segment_to_name (name n ++ rest) = (name n, rest)) by (by apply segment_name).
  assert (Hor : or_root (parent n) = parent n) by (unfold or_root; by rewrite (proj2 (Z.eqb_neq _ 0) Hc)).
  assert (Hfind : uacpi_namespace_node_find_sub_node s (parent n) (name n) = Some q).
  { rewrite (find_sub_node_spec s C) by (by rewrite ?Hor). rewrite Hor. f_equal. by apply first_named_unique. }
  assert (Hgo : (let '(nameseg, path) := segment_to_name (name n ++ rest) in
    let single := match path with [] => false | _ => false end in
    cur ← uacpi_namespace_node_find_sub_node s (parent n) nameseg;
    if cur =? 0 then if negb may || negb single then Some 0 else m ← s !! par; above (rounds s) s (parent m) nameseg
    else segments fuel s path par cur single may) = segments fuel s rest par q false may).
  { rewrite Hseg. cbv beta iota. rewrite Hfind. cbn [mbind option_bind]. rewrite (proj2 (Z.eqb_neq q 0) Hq). by destruct rest. }
  destruct Hdot as [-> | ->].
  - destruct (name n) as [|c nm] eqn:En; [done|]. cbn [app segments]. rewrite (proj2 (Z.eqb_neq c DOT)) by (intros ->; apply Hd; constructor). exact Hgo.
  - cbn [app segments]. rewrite Z.eqb_refl. exact Hgo.
Qed.

Lemma segments_way s C p l fuel rest may : ns_inv s C -> way s p l -> named_apart s C l -> l <> [] ->
  segments (length l + fuel) s (path_text s l ++ rest) 0 uacpi_namespace_root false may = segments fuel s rest 0 p false may.
Proof.
  intros Hi Hw. revert fuel rest. induction Hw as [|p n l Hp Hn Hw IH]; intros fuel rest Ha Hne; [done|].
  assert (Ha' : named_apart s C l) by (intros q m Hq; apply Ha; by constructor). assert (Hap : named_apart s C [p]) by (intros q m Hq%list_elem_of_singleton; apply Ha; subst; constructor).
  rewrite path_text_cons. assert (name_at s p = name n) as -> by (unfold name_at; by rewrite Hn). cbn [length].
  assert (Hpar : parent n <> 0) by (intros E; destruct (way_some s C _ _ Hi Hw) as [m Hm]; by rewrite E, (iv_null _ _ Hi) in Hm).
  destruct l as [|q l].
  - apply (segments_step s C fuel p n 0 uacpi_namespace_root [] rest may); [done|done|done|by inversion Hw|apply root_nonnull|by left].
  - rewrite <- app_assoc. cbn [app]. replace (S (length (q :: l)) + fuel)%nat with (length (q :: l) + S fuel)%nat by lia. rewrite IH by done.
    apply (segments_step s C fuel p n 0 (parent n) [DOT] rest may); auto.
Qed.

Lemma path_text_nil s C p l : ns_inv s C -> way s p l -> named_apart s C l -> l <> [] -> path_text s l <> [].
Proof.
  intros Hi Hw Ha Hne. destruct Hw as [|p n l Hp Hn Hw]; [done|]. rewrite path_text_cons. destruct l; [|by destruct (path_text _ _)].
  unfold name_at. rewrite Hn. destruct (Ha p n ltac:(constructor) Hn) as (H4 & _). cbn. by destruct (name n).
Qed.

Lemma path_text_length s C p l : way s p l -> named_apart s C l -> length (path_text s l) = text_length (length l).
Proof.
  induction 1 as [|p n l Hp Hn Hw IH]; intros Ha; [done|]. rewrite path_text_cons. destruct (Ha p n ltac:(constructor) Hn) as (H4 & _).
  assert (name_at s p = name n) as -> by (unfold name_at; by rewrite Hn). destruct l as [|q l]; [done|].
  rewrite length_app, IH by (intros x m Hx; apply Ha; by constructor). cbn [length text_length]. rewrite H4. lia.
Qed.

Lemma resolve_path s C p l n may permanent_only : ns_inv s C -> way s p l -> named_apart s C l -> s !! p = Some n ->
  (permanent_only = true -> uacpi_namespace_node_is_temporary n = false) ->
  uacpi_namespace_node_resolve s 0 (BACKSLASH :: path_text s l) may permanent_only = Some (UACPI_STATUS_OK, p).
Proof.
  intros Hi Hw Ha Hn Ht. unfold uacpi_namespace_node_resolve. cbn [prefixes]. change (BACKSLASH =? BACKSLASH) with true. change (0 =? CARET) with false. cbv iota.
  cbn [mbind option_bind]. assert (segments (S (length (path_text s l))) s (path_text s l) 0 uacpi_namespace_root false may = Some p) as ->.
  { destruct (decide (l = [])) as [->|Hne]; [by inversion Hw|]. rewrite (path_text_length s C p l Hw Ha).
    replace (S (text_length (length l))) with (length l + S (text_length (length l) - length l))%nat by (destruct l; [done|]; cbn [length text_length]; lia).
    rewrite <- (app_nil_r (path_text s l)), (segments_way s C p l) by done. done. }
  cbn [mbind option_bind]. change (UACPI_STATUS_OK =? UACPI_STATUS_INVALID_ARGUMENT) with false. cbv iota.
  assert (p <> 0) as Hp by (intros ->; by rewrite (iv_null _ _ Hi) in Hn). rewrite (proj2 (Z.eqb_neq p 0) Hp), Hn. cbn [mbind option_bind].
  destruct permanent_only; [by rewrite (Ht eq_refl)|by rewrite andb_false_r].
Qed.

Lemma absolute_path_text s C p l (fresh : Z -> option (list Z)) : ns_inv s C -> way s p l -> named_apart s C l ->
  (forall k b, fresh k = Some b -> Z.of_nat (length b) = k) ->
  uacpi_namespace_node_generate_absolute_path fresh s p =
    Some (match fresh (Z.of_nat (text_length (length l)) + 2) with Some _ => Some (BACKSLASH :: path_text s l ++ [0]) | None => None end).
Proof.
  intros Hi Hw Ha Hfresh. unfold uacpi_namespace_node_generate_absolute_path, uacpi_namespace_node_depth.
  rewrite (depth_way s C p l) by (done || by eapply way_bound). cbn [mbind option_bind].
  set (d := length l). assert (1 + (0 + Z.of_nat d + 1 - 1) * 4 + (if 2 <? 0 + Z.of_nat d + 1 then 0 + Z.of_nat d + 1 - 2 else 0) + 1 = Z.of_nat (text_length d) + 2) as ->.
  { destruct (Z.ltb_spec 2 (0 + Z.of_nat d + 1)); destruct d as [|[|d]]; cbn [text_length]; lia. }
  destruct (fresh (Z.of_nat (text_length d) + 2)) as [b|] eqn:Hb; [|done]. pose proof (Hfresh _ b Hb) as Hlen. rewrite zset_ok by lia. cbn [mbind option_bind].
  rewrite zset_ok by (rewrite length_insert; lia). cbn [mbind option_bind]. set (o := S (text_length d)).
  replace (Z.of_nat (text_length d) + 2 - 1) with (Z.of_nat o) by lia. rewrite Nat2Z.id. change (Z.to_nat 0) with 0%nat. set (b2 := <[o := 0]> (<[0%nat := BACKSLASH]> b)).
  assert (length b2 = S o) as Hb2 by (subst b2; rewrite !length_insert; lia).
  destruct (path_loop_way s C p l (rounds s) o b2 Hi Hw Ha ltac:(by eapply way_bound) eq_refl ltac:(lia)) as (b3 & -> & Hl & Ht & Hd). cbn [mbind option_bind]. do 2 f_equal.
  rewrite <- (take_drop 1 b3), Ht, Hd. assert (take 1 b2 = [BACKSLASH]) as ->.
  { subst b2. destruct b as [|x b]; [cbn in Hlen; lia|]. done. }
  cbn [app]. do 2 f_equal. rewrite (drop_S b2 0) by (subst b2; apply list_lookup_insert_eq; rewrite length_insert; lia). by rewrite drop_ge by lia.
Qed.
End Tree.

(** C8: the path of a node leads to the node.  In a namespace whose scopes are proper lists, for a
    node at any depth with names of four characters that no sibling shares on its way up,
    [uacpi_namespace_node_generate_absolute_path] fills exactly the buffer it asked for with a
    backslash, the names from the root down with dots between them and a NUL, and resolving that
    path from the root, with or without searching above, gives the node back. *)
Theorem absolute_path_resolves `{NsRoot} s C p l n (fresh : Z -> option (list Z)) may permanent_only :
  ns_inv s C -> way s p l -> named_apart s C l -> s !! p = Some n -> (forall k b, fresh k = Some b -> Z.of_nat (length b) = k) ->
  (permanent_only = true -> uacpi_namespace_node_is_temporary n = false) ->
  exists text, length text = text_length (length l) /\
    uacpi_namespace_node_generate_absolute_path fresh s p =
      Some (match fresh (Z.of_nat (length text) + 2) with Some _ => Some (BACKSLASH :: text ++ [0]) | None => None end) /\
    uacpi_namespace_node_resolve s 0 (BACKSLASH :: text) may permanent_only = Some (UACPI_STATUS_OK, p).
Proof.
  intros Hi Hw Ha Hn Hf Ht. exists (path_text s l). pose proof (path_text_length s C p l Hw Ha) as Hl. split; [done|]. split; [|by eapply resolve_path].
  rewrite Hl. by eapply absolute_path_text.
Qed.

(** ** An example: [\_SB_.PCI0], and a node that is not installed *)

Definition demo_root : NsRoot := {| predefined_namespaces := 4096; predefined_nonnull := eq_refl |}.
Definition demo_nodes : nodes :=
  <[4096 := Node 1 [92; 0; 0; 0] UACPI_NAMESPACE_NODE_PREDEFINED 0 0 8192 0]>
  (<[8192 := Node 1 [95; 83; 66; 95] UACPI_NAMESPACE_NODE_PREDEFINED 0 4096 8240 0]>
  (<[8240 := Node 1 [80; 67; 73; 48] 0 0 8192 0 0]>
  (<[8288 := Node 1 [70; 79; 79; 95] 0 0 0 0 0]> ∅))).
Definition demo_scopes (p : Z) : list Z := if p =? 4096 then [8192] else if p =? 8192 then [8240] else [].

Lemma demo_lookup p n : demo_nodes !! p = Some n ->
  (p = 4096 /\ n = Node 1 [92; 0; 0; 0] UACPI_NAMESPACE_NODE_PREDEFINED 0 0 8192 0) \/
  (p = 8192 /\ n = Node 1 [95; 83; 66; 95] UACPI_NAMESPACE_NODE_PREDEFINED 0 4096 8240 0) \/
  (p = 8240 /\ n = Node 1 [80; 67; 73; 48] 0 0 8192 0 0) \/ (p = 8288 /\ n = Node 1 [70; 79; 79; 95] 0 0 0 0 0).
Proof.
  unfold demo_nodes. intros [[<- <-]|[_ [[<- <-]|[_ [[<- <-]|[_ [[<- <-]|[_ H]]%lookup_insert_Some]]%lookup_insert_Some]]%lookup_insert_Some]]%lookup_insert_Some; auto 6.
  by rewrite lookup_empty in H.
Qed.

Lemma demo_inv : ns_inv (NR := demo_root) demo_nodes demo_scopes.
Proof.
  split.
  - intros p n [[-> ->]|[[-> ->]|[[-> ->]|[-> ->]]]]%demo_lookup; cbn; try done; split_and_all; try done; eexists; (split; [reflexivity|done]).
  - intros p Hp. unfold demo_scopes. destruct (Z.eqb_spec p 4096) as [->|]; [done|]. by destruct (Z.eqb_spec p 8192) as [->|].
  - intros p. unfold demo_scopes. destruct (p =? 4096); [apply NoDup_singleton|]. destruct (p =? 8192); [apply NoDup_singleton|constructor].
  - intros p c n Hc Hn. unfold demo_scopes in Hc. destruct (Z.eqb_spec p 4096) as [->|].
    { apply list_elem_of_singleton in Hc as ->. by injection Hn as <-. }
    destruct (Z.eqb_spec p 8192) as [->|]; [|by apply elem_of_nil in Hc]. apply list_elem_of_singleton in Hc as ->. by injection Hn as <-.
  - by eexists.
  - reflexivity.
Qed.

Lemma demo_way : way (NR := demo_root) demo_nodes 8240 [8240; 8192].
Proof. econstructor; [done|reflexivity|]. econstructor; [done|reflexivity|]. constructor. Qed.

Lemma demo_apart : named_apart demo_nodes demo_scopes [8240; 8192].
Proof.
  intros q n Hq Hn. assert (q = 8240 \/ q = 8192) as [-> | ->] by (apply elem_of_cons in Hq as [-> |Hq%list_elem_of_singleton]; auto); injection Hn as <-.
  all: split; [done|]; split; [apply (bool_decide_eq_true_1 (DOT ∉ _)); reflexivity|]; split; [constructor|].
  all: by intros q' m ->%list_elem_of_singleton.
Qed.

Lemma absolute_path_resolves_witness :
  exists text, length text = 9%nat /\
    uacpi_namespace_node_generate_absolute_path (NR := demo_root) (fun k => Some (replicate (Z.to_nat k) 0)) demo_nodes 8240 = Some (Some (BACKSLASH :: text ++ [0])) /\
    uacpi_namespace_node_resolve (NR := demo_root) demo_nodes 0 (BACKSLASH :: text) false true = Some (UACPI_STATUS_OK, 8240).
Proof.
  destruct (absolute_path_resolves (H := demo_root) demo_nodes demo_scopes 8240 [8240; 8192] (Node 1 [80; 67; 73; 48] 0 0 8192 0 0)
    (fun k => if k <? 0 then None else Some (replicate (Z.to_nat k) 0)) false true demo_inv demo_way demo_apart eq_refl) as (text & H1 & H2 & H3); [|reflexivity|].
  - intros k b Hb. destruct (Z.ltb_spec k 0); [done|]. injection Hb as <-. rewrite length_replicate. lia.
  - exists text. split; [exact H1|]. split; [|exact H3]. rewrite H1 in H2. exact H2.
Defined.

(** A missing scope means the root everywhere, but not in the search above it: a single name
    that the root does not have is looked for in the parent of no node. *)
Theorem null_scope_faults :
  uacpi_namespace_node_find (NR := demo_root) demo_nodes 0 [70; 79; 79; 95] = Some (UACPI_STATUS_NOT_FOUND, 0) /\
  uacpi_namespace_node_resolve_from_aml_namepath (NR := demo_root) demo_nodes (uacpi_namespace_root (NR := demo_root)) [70; 79; 79; 95] = Some (UACPI_STATUS_NOT_FOUND, 0) /\
  uacpi_namespace_node_resolve_from_aml_namepath (NR := demo_root) demo_nodes 0 [70; 79; 79; 95] = None.
Proof. by vm_compute. Qed.
