(* ===== verification/AcpiNsTree.v ===== *)
(** * Installing and uninstalling namespace nodes

    The two operations that change the tree of the namespace, as operations on its scopes: a
    node is appended to the scope of its parent, and a node without children is taken out of it. *)

From S2P Require Import Prelude Mem CString KernelApi AcpiField AcpiRegion AcpiGas AcpiLock AcpiFmt AcpiFmtProps AcpiNs AcpiNsProps.

(** ** Lists of siblings *)

Lemma linked_ext s s' p l : (forall q, q ∈ l -> next <$> s' !! q = next <$> s !! q) -> linked s p l -> linked s' p l.
Proof.
  revert p. induction l as [|q l IH]; intros p He H; [done|]. destruct H as (-> & Hq & n & Hn & Hl). cbn. pose proof (He q ltac:(constructor)) as Hx.
  rewrite Hn in Hx. destruct (s' !! q) as [n'|]; [|done]. injection Hx as Hx. split_and_all; try done. exists n'. split; [done|]. rewrite Hx.
  apply IH; [|done]. intros x Hx'. apply He. by constructor.
Qed.

Lemma linked_app s p l1 q l2 : linked s p (l1 ++ q :: l2) -> linked s q (q :: l2) /\ (l1 = [] -> p = q).
Proof.
  revert p. induction l1 as [|x l1 IH]; intros p H; cbn in H; [destruct H as (-> & H); by split|]. destruct H as (-> & _ & n & Hn & Hl).
  destruct (IH _ Hl) as [H1 _]. by split.
Qed.

(** The list changes behind one of its nodes. *)
Lemma linked_change s s' p l z l3 l2 : linked s p (l ++ z :: l3) -> (forall q, q ∈ l -> next <$> s' !! q = next <$> s !! q) ->
  linked s' z (z :: l2) -> linked s' p (l ++ z :: l2).
Proof.
  revert p. induction l as [|x l IH]; intros p H He Hz; cbn in H; [by destruct H as (-> & _)|]. destruct H as (-> & Hx & n & Hn & Hl).
  cbn. pose proof (He x ltac:(constructor)) as Hx'. rewrite Hn in Hx'. destruct (s' !! x) as [n'|]; [|done]. injection Hx' as Hx'. split_and_all; try done. exists n'.
  split; [done|]. rewrite Hx'. apply IH; try done. intros q Hq. apply He. by constructor.
Qed.

Lemma last_sibling_spec s p l z fuel : linked s p (l ++ [z]) -> (length l < fuel)%nat -> last_sibling fuel s p = Some z.
Proof.
  revert p fuel. induction l as [|x l IH]; intros p [|fuel] H Hf; cbn [length] in *; try lia; cbn [app linked last_sibling] in *; destruct H as (-> & Hx & n & Hn & Hl); rewrite Hn; cbn [mbind option_bind].
  - by rewrite Hl.
  - assert (next n <> 0) as Hz by (destruct l; cbn in Hl; by destruct Hl as (-> & ? & _)). rewrite (proj2 (Z.eqb_neq _ 0) Hz). apply IH; [done|lia].
Qed.

Lemma find_prev_spec s a l1 z p l2 fuel : linked s a (l1 ++ z :: p :: l2) -> p ∉ l1 ++ [z] -> (length l1 < fuel)%nat -> find_prev fuel s a p = Some z.
Proof.
  revert a fuel. induction l1 as [|x l1 IH]; intros a [|fuel] H Hp Hf; cbn [length] in *; try lia; cbn [app linked find_prev] in *.
  - destruct H as (-> & Hz & n & Hn & Hnx & _). rewrite (proj2 (Z.eqb_neq z 0) Hz), Hn. cbn [mbind option_bind]. by rewrite Hnx, Z.eqb_refl.
  - destruct H as (-> & Hx & n & Hn & Hl). rewrite (proj2 (Z.eqb_neq x 0) Hx), Hn. cbn [mbind option_bind].
    assert (next n <> p) as Hne by (destruct l1; cbn in Hl; destruct Hl as (-> & _); intros ->; apply Hp; repeat constructor).
    rewrite (proj2 (Z.eqb_neq _ p) Hne). apply IH; [done| |lia]. by intros Hin; apply Hp; constructor.
Qed.

(** ** Scopes after a change *)

Definition set_scope (C : Z -> list Z) (p : Z) (l : list Z) : Z -> list Z := fun q => if decide (q = p) then l else C q.

Lemma set_scope_eq C p l : set_scope C p l p = l.
Proof. unfold set_scope. by rewrite decide_True. Qed.
Lemma set_scope_ne C p l q : q <> p -> set_scope C p l q = C q.
Proof. intros. unfold set_scope. by rewrite decide_False. Qed.

Lemma set_node_some s p n f : s !! p = Some n -> set_node s p f = Some (<[p := f n]> s).
Proof. intros H. unfold set_node. by rewrite H. Qed.

Section Install.
Context `{NR : NsRoot}.

(** A node that is not in the tree. *)
Record loose (s : nodes) (C : Z -> list Z) (p : Z) (n : uacpi_namespace_node) : Prop := {
  ls_node : s !! p = Some n;
  ls_root : p <> uacpi_namespace_root;
  ls_links : child n = 0 /\ next n = 0;
  ls_scopes : forall q, p ∉ C q;
  ls_valid : uacpi_namespace_node_is_dangling n = false }.

Lemma linked_null s l : linked s 0 l -> l = [].
Proof. destruct l as [|q l]; [done|]. by intros (<- & ? & _). Qed.

(** Two scopes have no node in common. *)
Lemma scopes_apart s C p q c : ns_inv s C -> c ∈ C p -> c ∈ C q -> p = q.
Proof.
  intros Hi Hp Hq. destruct (child_in s C p c Hi Hp) as (_ & [n Hn] & _). destruct (iv_parent _ _ Hi p c n Hp Hn) as [<- _]. by destruct (iv_parent _ _ Hi q c n Hq Hn) as [-> _].
Qed.

(** What an installation writes: [w] is the node whose link leads to the new one. *)
Lemma install_inv s C par p n w wn wn' : ns_inv s C -> loose s C p n -> s !! w = Some wn -> w <> p ->
  parent wn' = parent wn /\ flags wn' = flags wn -> is_Some (s !! par) ->
  (forall q m, q <> par -> <[w := wn']> s !! q = Some m -> linked (<[w := wn']> s) (child m) (C q)) ->
  (forall m, <[w := wn']> s !! par = Some m -> linked (<[w := wn']> s) (child m) (C par ++ [p])) ->
  ns_inv (<[p := n <| parent := par |>]> (<[w := wn']> s)) (set_scope C par (C par ++ [p])).
Proof.
  intros Hi [Hn Hr [Hch Hnx] Hsc Hv] Hw Hwp [Hwpar Hwfl] [pn Hpn] Hother Hpar. set (s1 := <[w := wn']> s) in *.
  assert (Hp1 : s1 !! p = Some n) by (subst s1; by rewrite lookup_insert_ne). set (s2 := <[p := n <| parent := par |>]> s1).
  assert (Hext : forall q, next <$> s2 !! q = next <$> s1 !! q).
  { intros q. subst s2. destruct (decide (q = p)) as [->|Hq]; [by rewrite lookup_insert_eq, Hp1|by rewrite lookup_insert_ne]. }
  assert (Hlk : forall q m, s2 !! q = Some m -> exists m1, s1 !! q = Some m1 /\ child m1 = child m /\ flags m1 = flags m /\ (q <> p -> parent m1 = parent m)).
  { intros q m Hm. subst s2. destruct (decide (q = p)) as [->|Hq]; [rewrite lookup_insert_eq in Hm; injection Hm as <-; by exists n|].
    rewrite lookup_insert_ne in Hm by done. by exists m. }
  assert (Hs : forall q m1, s1 !! q = Some m1 -> exists m, s !! q = Some m /\ parent m = parent m1 /\ flags m = flags m1).
  { intros q m1 Hm. subst s1. destruct (decide (q = w)) as [->|Hq]; [rewrite lookup_insert_eq in Hm; injection Hm as <-; by exists wn|].
    rewrite lookup_insert_ne in Hm by done. by exists m1. }
  assert (Hdom : forall q, s2 !! q = None -> s !! q = None).
  { intros q Hq. subst s2 s1. apply lookup_insert_None in Hq as [Hq _]. by apply lookup_insert_None in Hq as [Hq _]. }
  split.
  - intros q m Hm. destruct (Hlk q m Hm) as (m1 & Hm1 & <- & _). eapply linked_ext; [intros; apply Hext|].
    unfold set_scope. destruct (decide (q = par)) as [->|Hq]; [by apply Hpar|by apply Hother].
  - intros q Hq. rewrite set_scope_ne; [by apply (iv_none _ _ Hi), Hdom|]. intros ->. by rewrite (Hdom par Hq) in Hpn.
  - intros q. unfold set_scope. destruct (decide (q = par)) as [->|Hq]; [|apply Hi]. apply NoDup_app. split; [apply Hi|]. split; [|apply NoDup_singleton].
    intros x Hx ->%list_elem_of_singleton. by eapply Hsc.
  - intros q c m Hc Hm. destruct (Hlk c m Hm) as (m1 & Hm1 & _ & Hf & Hpm). destruct (Hs c m1 Hm1) as (m0 & Hm0 & Hp0 & Hf0).
    unfold uacpi_namespace_node_is_dangling. rewrite <- Hf, <- Hf0. destruct (decide (c = p)) as [->|Hcp].
    + assert (m0 = n) as -> by congruence. split; [|done]. subst s2. rewrite lookup_insert_eq in Hm. injection Hm as <-. cbn.
      unfold set_scope in Hc. destruct (decide (q = par)) as [->|Hq]; [done|by apply Hsc in Hc].
    + rewrite <- Hpm, <- Hp0 by done. apply (iv_parent _ _ Hi q c m0); [|done]. unfold set_scope in Hc. destruct (decide (q = par)) as [->|Hq]; [|done].
      apply elem_of_app in Hc as [Hc|Hc%list_elem_of_singleton]; [done|by subst c].
  - destruct (iv_root _ _ Hi) as (rn & Hrn & Hrp). subst s2. rewrite lookup_insert_ne by done. subst s1. destruct (decide (uacpi_namespace_root = w)) as [Hwr|Hwr].
    + rewrite <- Hwr, lookup_insert_eq. exists wn'. split; [done|]. congruence.
    + rewrite lookup_insert_ne by done. by exists rn.
  - destruct (s2 !! 0) as [m|] eqn:E; [|done]. destruct (Hlk 0 m E) as (m1 & Hm1 & _). destruct (Hs 0 m1 Hm1) as (m0 & Hm0 & _). by rewrite (iv_null _ _ Hi) in Hm0.
Qed.

Lemma loose_nonnull s C p n : ns_inv s C -> loose s C p n -> p <> 0.
Proof. intros Hi Hl ->. destruct Hl as [Hn _ _ _ _]. by rewrite (iv_null _ _ Hi) in Hn. Qed.

(** A link changes in a node: the scopes that do not go through it stay. *)
Lemma scope_kept (s : nodes) C w wn wn' q m : ns_inv s C -> s !! w = Some wn -> child wn' = child wn \/ q <> w -> next wn' = next wn \/ w ∉ C q ->
  <[w := wn']> s !! q = Some m -> linked (<[w := wn']> s) (child m) (C q).
Proof.
  intros Hi Hw Hc Hn Hm. assert (exists m0, s !! q = Some m0 /\ child m0 = child m) as (m0 & Hm0 & <-).
  { destruct (decide (q = w)) as [->|Hq]; [rewrite lookup_insert_eq in Hm; injection Hm as <-; exists wn; destruct Hc; done|rewrite lookup_insert_ne in Hm by done; by exists m]. }
  eapply linked_ext; [|by apply (iv_linked _ _ Hi)]. intros x Hx. destruct (decide (x = w)) as [->|Hxw]; [|by rewrite lookup_insert_ne].
  rewrite lookup_insert_eq, Hw. cbn. f_equal. destruct Hn; done.
Qed.

(** An installation changes the parent of the new node and links; only the parent gets a first child. *)
Definition installing (s s' : nodes) (par p : Z) : Prop := forall q,
  match s !! q, s' !! q with
  | Some m, Some m' =>
    (name m' = name m /\ flags m' = flags m /\ object m' = object m /\ reference_count m' = reference_count m) /\
    parent m' = (if decide (q = p) then par else parent m) /\ (child m' = child m \/ q = par)
  | None, None => True
  | _, _ => False
  end.

Lemma install_spec s C par p n : ns_inv s C -> loose s C p n -> is_Some (s !! or_root par) -> or_root par <> p ->
  exists s', uacpi_namespace_node_install s par p = Some (UACPI_STATUS_OK, s') /\ ns_inv s' (set_scope C (or_root par) (C (or_root par) ++ [p])) /\
    installing s s' (or_root par) p.
Proof.
  intros Hi Hl [pn Hpn] Hpp. pose proof Hl as [Hn Hr [Hch Hnx] Hsc Hv]. pose proof (loose_nonnull s C p n Hi Hl) as Hp0. unfold uacpi_namespace_node_install. set (pr := or_root par) in *.
  rewrite Hn. cbn [mbind option_bind]. rewrite Hv, Hpn. cbn [mbind option_bind]. pose proof (iv_linked _ _ Hi pr pn Hpn) as Hlk.
  assert (Hkeep : forall w wn wn', s !! w = Some wn -> name wn' = name wn /\ flags wn' = flags wn /\ object wn' = object wn /\ reference_count wn' = reference_count wn -> parent wn' = parent wn ->
    child wn' = child wn \/ w = pr -> w <> p -> installing s (<[p := n <| parent := pr |>]> (<[w := wn']> s)) pr p).
  { intros w wn wn' Hw He Hpar Hc Hwp q. destruct (decide (q = p)) as [->|Hqp]; [rewrite lookup_insert_eq, Hn; by split_and!; try left|].
    rewrite lookup_insert_ne by done. destruct (decide (q = w)) as [->|Hqw]; [by rewrite lookup_insert_eq, Hw|].
    rewrite lookup_insert_ne by done. destruct (s !! q); [|done]. by split_and!; try left. }
  destruct (Z.eqb_spec (child pn) 0) as [E|E].
  - rewrite E in Hlk. apply linked_null in Hlk. rewrite (set_node_some s pr pn) by done. cbn [mbind option_bind].
    rewrite (set_node_some _ p n) by (by rewrite lookup_insert_ne). cbn [mbind option_bind]. eexists. split; [reflexivity|]. split; [|apply (Hkeep pr pn); try done; by right].
    apply (install_inv s C pr p n pr pn); try done.
    + intros q m Hq Hm. eapply scope_kept; [done|done|by right|by left|done].
    + intros m Hm. rewrite lookup_insert_eq in Hm. injection Hm as <-. rewrite Hlk. cbn. split_and_all; try done. exists n. by rewrite lookup_insert_ne.
  - destruct (C pr) as [|c0 l0] eqn:EC using rev_ind; [by cbn in Hlk|]. clear IHl0. rename c0 into z. rename l0 into l.
    pose proof (iv_nodup _ _ Hi pr) as Hnd. rewrite EC in Hnd. assert (z ∈ C pr) as Hz by (rewrite EC; apply elem_of_app; right; constructor).
    pose proof (scope_bound s C pr Hi) as Hb. rewrite EC, length_app in Hb. cbn in Hb.
    rewrite (last_sibling_spec s _ l z) by (done || lia). cbn [mbind option_bind]. destruct (child_in s C pr z Hi Hz) as (Hz0 & [zn Hzn] & _).
    assert (z <> p) as Hzp by (intros ->; by apply (Hsc pr)). rewrite (set_node_some s z zn) by done. cbn [mbind option_bind].
    rewrite (set_node_some _ p n) by (by rewrite lookup_insert_ne). cbn [mbind option_bind]. eexists. split; [reflexivity|]. rewrite <- EC. split; [|apply (Hkeep z zn); try done; by left].
    apply (install_inv s C pr p n z zn); try done.
    + intros q m Hq Hm. eapply scope_kept; [done|done|by left| |done]. right. intros Hzq. apply Hq. by eapply scopes_apart.
    + intros m Hm. rewrite EC, <- app_assoc. cbn [app]. assert (child m = child pn) as ->.
      { destruct (decide (pr = z)) as [Ez|Ez]; [rewrite <- Ez, lookup_insert_eq in Hm; injection Hm as <-; cbn; congruence|rewrite lookup_insert_ne in Hm by done; congruence]. }
      eapply linked_change; [done| |].
      * intros q Hq. rewrite lookup_insert_ne; [done|]. intros <-. apply NoDup_app in Hnd as (_ & Hnd & _). by apply (Hnd z Hq), list_elem_of_singleton.
      * cbn. split_and_all; try done. eexists. rewrite lookup_insert_eq. split; [done|]. cbn. split_and_all; try done. exists n. by rewrite lookup_insert_ne.
Qed.
End Install.

Section Uninstall.
Context `{NR : NsRoot}.

(** A node outside the scopes may change as long as it has no children. *)
Lemma outside_insert s C p n n' : ns_inv s C -> s !! p = Some n -> (forall q, p ∉ C q) -> C p = [] -> (p = uacpi_namespace_root -> parent n' = 0) -> child n' = 0 ->
  ns_inv (<[p := n']> s) C.
Proof.
  intros Hi Hn Hsc Hcp Hr Hch. split; [| |apply Hi| | |].
  - intros q m Hm. destruct (decide (q = p)) as [->|Hq]; [rewrite lookup_insert_eq in Hm; injection Hm as <-; by rewrite Hch, Hcp|].
    rewrite lookup_insert_ne in Hm by done. eapply linked_ext; [|by eapply iv_linked]. intros x Hx. rewrite lookup_insert_ne; [done|]. intros <-. by apply (Hsc q).
  - intros q [Hq _]%lookup_insert_None. by apply (iv_none _ _ Hi).
  - intros q c m Hc Hm. apply (iv_parent _ _ Hi q c m Hc). rewrite lookup_insert_ne in Hm; [done|]. intros ->. by apply (Hsc q).
  - destruct (decide (uacpi_namespace_root = p)) as [<-|Hp]; [eexists; rewrite lookup_insert_eq; by split; [|apply Hr]|]. rewrite lookup_insert_ne by done. apply Hi.
  - rewrite lookup_insert_ne; [apply Hi|]. intros ->. by rewrite (iv_null _ _ Hi) in Hn.
Qed.

Lemma outside_delete s C p : ns_inv s C -> (forall q, p ∉ C q) -> C p = [] -> p <> uacpi_namespace_root -> ns_inv (delete p s) C.
Proof.
  intros Hi Hsc Hcp Hr. split; [| |apply Hi| | |].
  - intros q m [Hq Hm]%lookup_delete_Some. eapply linked_ext; [|by eapply iv_linked]. intros x Hx. rewrite lookup_delete_ne; [done|]. intros <-. by apply (Hsc q).
  - intros q Hq. destruct (decide (q = p)) as [->|Hqp]; [done|]. rewrite lookup_delete_ne in Hq by done. by apply (iv_none _ _ Hi).
  - intros q c m Hc [_ Hm]%lookup_delete_Some. by apply (iv_parent _ _ Hi q c m Hc).
  - rewrite lookup_delete_ne by done. apply Hi.
  - destruct (decide (p = 0)) as [->|Hp]; [apply lookup_delete_eq|]. rewrite lookup_delete_ne by done. apply Hi.
Qed.

(** What is not a link does not matter. *)
Lemma data_insert s C p n n' : ns_inv s C -> s !! p = Some n -> child n' = child n /\ next n' = next n /\ parent n' = parent n /\ flags n' = flags n ->
  ns_inv (<[p := n']> s) C.
Proof.
  intros Hi Hn (H1 & H2 & H3 & H4). assert (Hb : forall q m, <[p := n']> s !! q = Some m -> exists m0, s !! q = Some m0 /\ child m = child m0 /\ next m = next m0 /\ parent m = parent m0 /\ flags m = flags m0).
  { intros q m Hm. destruct (decide (q = p)) as [->|Hq]; [rewrite lookup_insert_eq in Hm; injection Hm as <-; by exists n|]. rewrite lookup_insert_ne in Hm by done. by exists m. }
  split; [| |apply Hi| | |].
  - intros q m Hm. destruct (Hb q m Hm) as (m0 & Hm0 & -> & _). eapply linked_ext; [|by eapply iv_linked]. intros x Hx.
    destruct (decide (x = p)) as [->|Hxp]; [by rewrite lookup_insert_eq, Hn; cbn; f_equal|by rewrite lookup_insert_ne].
  - intros q [Hq _]%lookup_insert_None. by apply (iv_none _ _ Hi).
  - intros q c m Hc Hm. destruct (Hb c m Hm) as (m0 & Hm0 & _ & _ & -> & Hf). unfold uacpi_namespace_node_is_dangling. rewrite Hf. by apply (iv_parent _ _ Hi q c m0 Hc).
  - destruct (iv_root _ _ Hi) as (rn & Hrn & Hrp). destruct (decide (uacpi_namespace_root = p)) as [E|E]; [exists n'; rewrite <- E, lookup_insert_eq; split; [done|]; congruence|].
    exists rn. by rewrite lookup_insert_ne.
  - rewrite lookup_insert_ne; [apply Hi|]. intros ->. by rewrite (iv_null _ _ Hi) in Hn.
Qed.

(** The link to the node is led around it. *)
Lemma unlink_inv s C par p l1 l2 w wn wn' : ns_inv s C -> C par = l1 ++ p :: l2 -> s !! w = Some wn -> parent wn' = parent wn /\ flags wn' = flags wn ->
  (forall q m, q <> par -> <[w := wn']> s !! q = Some m -> linked (<[w := wn']> s) (child m) (C q)) ->
  (forall m, <[w := wn']> s !! par = Some m -> linked (<[w := wn']> s) (child m) (l1 ++ l2)) ->
  ns_inv (<[w := wn']> s) (set_scope C par (l1 ++ l2)).
Proof.
  intros Hi HC Hw [Hwp Hwf] Hother Hpar. assert (Hsub : forall q c, c ∈ set_scope C par (l1 ++ l2) q -> c ∈ C q).
  { intros q c. unfold set_scope. destruct (decide (q = par)) as [->|]; [|done]. rewrite HC, !elem_of_app, elem_of_cons. tauto. }
  assert (Hb : forall q m, <[w := wn']> s !! q = Some m -> exists m0, s !! q = Some m0 /\ parent m = parent m0 /\ flags m = flags m0).
  { intros q m Hm. destruct (decide (q = w)) as [->|Hq]; [rewrite lookup_insert_eq in Hm; injection Hm as <-; by exists wn|]. rewrite lookup_insert_ne in Hm by done. by exists m. }
  split.
  - intros q m Hm. unfold set_scope. destruct (decide (q = par)) as [->|Hq]; [by apply Hpar|by apply Hother].
  - intros q [Hq _]%lookup_insert_None. unfold set_scope. destruct (decide (q = par)) as [->|]; [|by apply (iv_none _ _ Hi)].
    pose proof (iv_none _ _ Hi par Hq) as H. rewrite HC in H. by destruct l1.
  - intros q. unfold set_scope. destruct (decide (q = par)) as [->|]; [|apply Hi]. pose proof (iv_nodup _ _ Hi par) as H. rewrite HC in H.
    eapply sublist_NoDup; [exact H|]. apply sublist_app; [done|by apply sublist_cons].
  - intros q c m Hc Hm. destruct (Hb c m Hm) as (m0 & Hm0 & -> & Hf). unfold uacpi_namespace_node_is_dangling. rewrite Hf. apply (iv_parent _ _ Hi q c m0); [by apply Hsub|done].
  - destruct (iv_root _ _ Hi) as (rn & Hrn & Hrp). destruct (decide (uacpi_namespace_root = w)) as [E|E]; [exists wn'; rewrite <- E, lookup_insert_eq; split; [done|]; congruence|].
    exists rn. by rewrite lookup_insert_ne.
  - destruct (<[w := wn']> s !! 0) as [m|] eqn:E; [|done]. destruct (Hb 0 m E) as (m0 & Hm0 & _). by rewrite (iv_null _ _ Hi) in Hm0.
Qed.

(** A node with its place in a scope. *)
Record installed (s : nodes) (C : Z -> list Z) (p : Z) (n : uacpi_namespace_node) (l1 l2 : list Z) : Prop := {
  in_node : s !! p = Some n;
  in_scope : C (parent n) = l1 ++ p :: l2 }.

Lemma installed_facts s C p n l1 l2 : ns_inv s C -> installed s C p n l1 l2 ->
  p <> 0 /\ p <> uacpi_namespace_root /\ p ∉ l1 ++ l2 /\ is_Some (s !! parent n) /\ uacpi_namespace_node_is_dangling n = false /\
  (child n = 0 -> C p = [] /\ parent n <> p).
Proof.
  intros Hi [Hn HC]. assert (Hin : p ∈ C (parent n)) by (rewrite HC; apply elem_of_app; right; constructor).
  destruct (child_in s C _ p Hi Hin) as (Hp0 & _ & Hpar). pose proof (iv_nodup _ _ Hi (parent n)) as Hnd. rewrite HC in Hnd.
  assert (Hch : child n = 0 -> C p = []) by (intros E; pose proof (iv_linked _ _ Hi p n Hn) as Hl; rewrite E in Hl; by eapply linked_null).
  split_and_all; try done.
  - intros ->. destruct (iv_root _ _ Hi) as (rn & Hrn & Hrp). replace rn with n in Hrp by congruence. rewrite Hrp, (iv_null _ _ Hi) in Hpar. by destruct Hpar.
  - rewrite <- Permutation_middle in Hnd. by apply NoDup_cons in Hnd as [? _].
  - by destruct (iv_parent _ _ Hi (parent n) p n Hin Hn).
  - intros E. split; [by apply Hch|]. intros Ep. rewrite Ep, (Hch E) in Hin. by apply elem_of_nil in Hin.
Qed.

(** The same node but for its links. *)
Definition same_data (m m' : uacpi_namespace_node) : Prop :=
  name m' = name m /\ flags m' = flags m /\ object m' = object m /\ reference_count m' = reference_count m /\ parent m' = parent m.

(** The way around a node: through the parent or through the sibling in front of it. *)
Lemma lead_around s C p n l1 l2 pn : ns_inv s C -> installed s C p n l1 l2 -> child n = 0 -> s !! parent n = Some pn ->
  exists w wn wn',
    (if child pn =? p
     then set_node s (parent n) (fun m => m <| child := next n |>)
     else prev ← find_prev (rounds s) s (child pn) p; if prev =? 0 then None else set_node s prev (fun m => m <| next := next n |>)) = Some (<[w := wn']> s) /\
    ns_inv (<[w := wn']> s) (set_scope C (parent n) (l1 ++ l2)) /\ w <> p /\ s !! w = Some wn /\ same_data wn wn' /\ (child wn' = child wn \/ child wn <> 0).
Proof.
  intros Hi Hin Hch Hpn. destruct (installed_facts s C p n l1 l2 Hi Hin) as (Hp0 & Hr & Hnot & _ & _ & Hleaf). destruct (Hleaf Hch) as [HCp Hpp]. destruct Hin as [Hn HC].
  pose proof (iv_linked _ _ Hi _ pn Hpn) as Hlk. rewrite HC in Hlk. destruct (linked_app s _ l1 p l2 Hlk) as [Hrest Hfirst]. destruct Hrest as (_ & _ & n' & Hn' & Hrest).
  replace n' with n in Hrest by congruence. clear n' Hn'. pose proof (iv_nodup _ _ Hi (parent n)) as Hnd. rewrite HC in Hnd.
  destruct l1 as [|x l1] using rev_ind.
  - rewrite (Hfirst eq_refl), Z.eqb_refl, (set_node_some s _ pn) by done. eexists _, pn, _. split; [reflexivity|]. split; [|split_and!; try done; right; by rewrite (Hfirst eq_refl)]. eapply (unlink_inv s C (parent n) p [] l2); try done.
    + intros q m Hq Hm. eapply scope_kept; [done|done|by right|by left|done].
    + intros m Hm. rewrite lookup_insert_eq in Hm. injection Hm as <-. cbn. eapply linked_ext; [|exact Hrest]. intros q Hq.
      destruct (decide (q = parent n)) as [->|Hqp]; [by rewrite lookup_insert_eq, Hpn|by rewrite lookup_insert_ne].
  - clear IHl1. rename x into z. assert (z ∈ C (parent n)) as Hz by (rewrite HC, <- app_assoc; apply elem_of_app; right; constructor).
    destruct (child_in s C _ z Hi Hz) as (Hz0 & [zn Hzn] & _). assert (Hne : child pn <> p).
    { destruct l1 as [|y l1]; cbn in Hlk; destruct Hlk as (-> & _); intros ->; apply Hnot; cbn; constructor. }
    rewrite (proj2 (Z.eqb_neq _ p) Hne). pose proof (scope_bound s C (parent n) Hi) as Hb. rewrite HC, !length_app in Hb. cbn in Hb.
    rewrite <- app_assoc in Hlk. cbn [app] in Hlk. assert (Hpl : p ∉ l1 ++ [z]) by (intros H; apply Hnot, elem_of_app; by left).
    rewrite (find_prev_spec s _ l1 z p l2) by (done || lia). cbn [mbind option_bind]. rewrite (proj2 (Z.eqb_neq z 0) Hz0), (set_node_some s z zn) by done.
    eexists _, zn, _. split; [reflexivity|]. split; [|split; [intros ->; apply Hpl, elem_of_app; right; constructor|split_and!; try done; by left]].
    assert (z ∉ l1) as Hzl by (rewrite <- app_assoc in Hnd; apply NoDup_app in Hnd as (_ & H & _); intros H'; apply (H z H'); constructor).
    assert (z ∉ l2) as Hz2 by (rewrite <- app_assoc in Hnd; apply NoDup_app in Hnd as (_ & _ & H); cbn in H; apply NoDup_cons in H as [H _]; intros H'; apply H; by constructor).
    eapply (unlink_inv s C (parent n) p (l1 ++ [z]) l2); try done.
    + intros q m Hq Hm. eapply scope_kept; [done|done|by left| |done]. right. intros Hzq. apply Hq. by eapply scopes_apart.
    + intros m Hm. rewrite <- app_assoc. cbn [app]. assert (child m = child pn) as ->.
      { destruct (decide (parent n = z)) as [Ez|Ez]; [rewrite Ez, lookup_insert_eq in Hm; injection Hm as <-; cbn; congruence|rewrite lookup_insert_ne in Hm by done; congruence]. }
      eapply linked_change; [exact Hlk| |].
      * intros q Hq. rewrite lookup_insert_ne; [done|]. by intros ->.
      * cbn. split_and_all; try done. eexists. rewrite lookup_insert_eq. split; [done|]. cbn. eapply linked_ext; [|exact Hrest]. intros q Hq.
        rewrite lookup_insert_ne; [done|]. by intros ->.
Qed.

(** ** References *)

(** The node is the root or in a scope. *)
Definition in_tree (C : Z -> list Z) (q : Z) (m : uacpi_namespace_node) : Prop := q = uacpi_namespace_root \/ q ∈ C (parent m).
#[global] Instance in_tree_dec C q m : Decision (in_tree C q m).
Proof. unfold in_tree. apply _. Defined.
Definition tree_ref (C : Z -> list Z) (q : Z) (m : uacpi_namespace_node) : Z := if decide (in_tree C q m) then 1 else 0.

(** [h]: the references field units have to each node; [ext]: those that others have.  A count is the sum of
    them and of the tree's own; a node is stored as long as it is not 0, or as it is static, so
    that none refers to a freed one; and nodes outside the tree have no children. *)
Record ledger (h ext : Z -> Z) (s : nodes) (C : Z -> list Z) : Prop := {
  lg_count q m : s !! q = Some m -> reference_count m = h q + tree_ref C q m + ext q;
  lg_nonneg q : 0 <= h q /\ 0 <= ext q;
  lg_width q m : s !! q = Some m -> reference_count m < BUGGED_REFCOUNT;
  lg_live q m : s !! q = Some m -> uacpi_namespace_node_is_predefined m = false -> 0 < reference_count m;
  lg_absent q : s !! q = None -> h q = 0 /\ ext q = 0;
  lg_loose q m : s !! q = Some m -> ~ in_tree C q m -> child m = 0 }.

Lemma ledger_ext h h' ext s C : (forall q, h' q = h q) -> ledger h ext s C -> ledger h' ext s C.
Proof. intros He [H1 H2 H3 H4 H5 H6]. split; try done; intros q; rewrite He; auto. Qed.

Definition one (p q : Z) : Z := if decide (q = p) then 1 else 0.
Fixpoint occ (q : Z) (l : list Z) : Z := match l with [] => 0 | p :: l => one p q + occ q l end.
Lemma occ_nonneg q l : 0 <= occ q l.
Proof. induction l as [|p l IH]; cbn; [lia|]. unfold one. destruct (decide (q = p)); lia. Qed.

Lemma one_eq p : one p p = 1.
Proof. unfold one. by rewrite decide_True. Qed.
Lemma one_ne p q : q <> p -> one p q = 0.
Proof. intros. unfold one. by rewrite decide_False. Qed.

Lemma unref_count p c : p <> 0 -> 0 < c < BUGGED_REFCOUNT -> uacpi_shareable_unref_and_delete_if_last p c = (c - 1, c =? 1).
Proof.
  intros Hp Hc. unfold BUGGED_REFCOUNT in *.
  assert (uacpi_bugged_shareable c = (c, false)) as Hb by (unfold uacpi_bugged_shareable, BUGGED_REFCOUNT; rewrite (proj2 (Z.eqb_neq c 0)) by lia; cbv zeta; f_equal; apply Z.eqb_neq; lia).
  unfold uacpi_shareable_unref_and_delete_if_last, uacpi_shareable_unref. rewrite (proj2 (Z.eqb_neq p 0)), Hb, Hb by done.
  rewrite (u32_small (c - 1)), (u32_small (c - 1 + 1)) by lia. do 2 f_equal. lia.
Qed.

(** A node outside the tree is in no scope and has none. *)
Lemma out_of_tree h ext s C q m : ns_inv s C -> ledger h ext s C -> s !! q = Some m -> ~ in_tree C q m -> (forall x, q ∉ C x) /\ C q = [] /\ q <> uacpi_namespace_root.
Proof.
  intros Hi Hl Hm Hout. split; [|split].
  - intros x Hx. apply Hout. right. by destruct (iv_parent _ _ Hi x q m Hx Hm) as [-> _].
  - pose proof (iv_linked _ _ Hi q m Hm) as Hlk. rewrite (lg_loose _ _ _ _ Hl q m Hm Hout) in Hlk. by eapply linked_null.
  - intros ->. apply Hout. by left.
Qed.

(** One node of the store changes. *)
Lemma ledger_insert h h' ext s C q m m' : ledger h ext s C -> s !! q = Some m -> (forall x, x <> q -> h' x = h x) -> 0 <= h' q ->
  reference_count m' = h' q + tree_ref C q m' + ext q -> reference_count m' < BUGGED_REFCOUNT ->
  (uacpi_namespace_node_is_predefined m' = false -> 0 < reference_count m') -> (~ in_tree C q m' -> child m' = 0) -> ledger h' ext (<[q := m']> s) C.
Proof.
  intros [H1 H2 H3 H4 H5 H6] Hm Hh Hh0 E1 E2 E3 E4.
  assert (Hx : forall x n, <[q := m']> s !! x = Some n -> x = q /\ n = m' \/ x <> q /\ s !! x = Some n /\ h' x = h x).
  { intros x n [[-> ->]|[Hx Hn]]%lookup_insert_Some; [by left|right; by auto]. }
  split.
  - intros x n [(-> & ->)|(Hxq & Hn & ->)]%Hx; auto.
  - intros x. destruct (decide (x = q)) as [->|Hxq]; [split; [done|apply H2]|rewrite Hh by done; apply H2].
  - intros x n [(-> & ->)|(Hxq & Hn & _)]%Hx; eauto.
  - intros x n [(-> & ->)|(Hxq & Hn & _)]%Hx; eauto.
  - intros x [Hn Hxq]%lookup_insert_None. rewrite Hh by done. auto.
  - intros x n [(-> & ->)|(Hxq & Hn & _)]%Hx; eauto.
Qed.

Lemma ledger_delete h h' ext s C q m : ledger h ext s C -> s !! q = Some m -> (forall x, x <> q -> h' x = h x) -> h' q = 0 -> ext q = 0 -> ledger h' ext (delete q s) C.
Proof.
  intros [H1 H2 H3 H4 H5 H6] Hm Hh Hh0 He0. split.
  - intros x n [Hxq Hn]%lookup_delete_Some. rewrite Hh by done. auto.
  - intros x. destruct (decide (x = q)) as [->|Hxq]; [rewrite Hh0; split; [done|apply H2]|rewrite Hh by done; apply H2].
  - intros x n [_ Hn]%lookup_delete_Some. eauto.
  - intros x n [_ Hn]%lookup_delete_Some. eauto.
  - intros x Hn. destruct (decide (x = q)) as [->|Hxq]; [done|]. rewrite lookup_delete_ne in Hn by done. rewrite Hh by done. auto.
  - intros x n [_ Hn]%lookup_delete_Some. eauto.
Qed.

(** Installing a node makes a reference of its owner the tree's. *)
Lemma install_ledger h ext s s' C par pn p n : ns_inv s C -> loose s C p n -> installing s s' par p -> s !! par = Some pn -> in_tree C par pn ->
  ledger h ext s C -> 1 <= ext p -> ledger h (fun q => ext q - one p q) s' (set_scope C par (C par ++ [p])).
Proof.
  intros Hi [Hn Hr _ Hsc _] Hf Hpn Hpt [H1 H2 H3 H4 H5 H6] He. set (C2 := set_scope C par (C par ++ [p])).
  assert (Hx : forall q m', s' !! q = Some m' -> exists m, s !! q = Some m /\ flags m' = flags m /\ reference_count m' = reference_count m /\
    parent m' = (if decide (q = p) then par else parent m) /\ (child m' = child m \/ q = par)).
  { intros q m' Hm'. specialize (Hf q). rewrite Hm' in Hf. destruct (s !! q) as [m|]; [|done]. destruct Hf as ((_ & ? & _ & ?) & ? & ?). by exists m. }
  assert (Ht : forall q m m', q <> p -> parent m' = parent m -> in_tree C2 q m' <-> in_tree C q m).
  { intros q m m' Hq E. unfold in_tree, C2, set_scope. rewrite E. destruct (decide (parent m = par)) as [->|]; [|done]. rewrite elem_of_app, list_elem_of_singleton. tauto. }
  assert (Hin : forall m', parent m' = par -> in_tree C2 p m') by (intros m' E; right; unfold C2; rewrite E, set_scope_eq; apply elem_of_app; right; constructor).
  split.
  - intros q m' Hm'. destruct (Hx q m' Hm') as (m & Hm & _ & -> & Hp & _). rewrite (H1 q m Hm). unfold tree_ref. destruct (decide (q = p)) as [->|Hq].
    + rewrite one_eq, (decide_True _ _ (Hin m' Hp)), decide_False; [lia|]. intros [?|H]; [done|by apply Hsc in H].
    + rewrite one_ne by done. rewrite (decide_ext (in_tree C2 q m') (in_tree C q m)) by (by apply Ht). lia.
  - intros q. destruct (H2 q). unfold one. case_decide; [subst; lia|lia].
  - intros q m' Hm'. destruct (Hx q m' Hm') as (m & Hm & _ & -> & _). eauto.
  - intros q m' Hm'. destruct (Hx q m' Hm') as (m & Hm & E & -> & _). unfold uacpi_namespace_node_is_predefined. rewrite E. eauto.
  - intros q Hq. assert (Hs : s !! q = None) by (specialize (Hf q); rewrite Hq in Hf; by destruct (s !! q)). destruct (H5 q Hs). split; [done|]. rewrite one_ne; [lia|]. intros ->. congruence.
  - intros q m' Hm' Hout. destruct (Hx q m' Hm') as (m & Hm & _ & _ & Hp & Hc). destruct (decide (q = p)) as [->|Hq]; [by destruct Hout; apply Hin|].
    rewrite (Ht q m m') in Hout by done. destruct Hc as [->| ->]; [eauto|]. destruct Hout. by replace m with pn by congruence.
Qed.

Context {W : Type} `{NH : NsHost W}.

(** No node is new, and none becomes static or stops being so. *)
Definition static_kept (s s' : nodes) : Prop :=
  dom s' ⊆ dom s /\ forall q m m', s !! q = Some m -> s' !! q = Some m' -> uacpi_namespace_node_is_predefined m' = uacpi_namespace_node_is_predefined m.

Lemma static_refl s : static_kept s s.
Proof. split; [done|]. intros q m m' Hm Hm'. congruence. Qed.
Lemma static_trans s1 s2 s3 : static_kept s1 s2 -> static_kept s2 s3 -> static_kept s1 s3.
Proof.
  intros [D1 H1] [D2 H2]. split; [set_solver|]. intros q m m' Hm Hm'. pose proof (elem_of_dom_2 (D := gset Z) _ _ _ Hm') as Hq. apply D2, elem_of_dom in Hq as [m2 Hm2].
  by rewrite (H2 q m2 m' Hm2 Hm'), (H1 q m m2 Hm Hm2).
Qed.
Lemma static_insert s p m m' : s !! p = Some m -> uacpi_namespace_node_is_predefined m' = uacpi_namespace_node_is_predefined m -> static_kept s (<[p := m']> s).
Proof.
  intros Hm Hp. split; [apply elem_of_dom_2 in Hm; set_solver|]. intros q n n' Hn [[<- <-]|[_ Hn']]%lookup_insert_Some; [by replace n with m by congruence|congruence].
Qed.
Lemma static_delete s p : static_kept s (delete p s).
Proof. split; [set_solver|]. intros q n n' Hn [_ Hn']%lookup_delete_Some. congruence. Qed.

(** The nodes of the tree are there as before but for their counts. *)
Definition recounted (C : Z -> list Z) (s s' : nodes) : Prop :=
  (forall q m, s !! q = Some m -> in_tree C q m -> exists c, s' !! q = Some (m <| reference_count := c |>)) /\ static_kept s s'.

Lemma recounted_refl C s : recounted C s s.
Proof. split; [|apply static_refl]. intros q m Hm _. exists (reference_count m). rewrite Hm. by destruct m. Qed.
Lemma recounted_trans C s1 s2 s3 : recounted C s1 s2 -> recounted C s2 s3 -> recounted C s1 s3.
Proof. intros [H1 D1] [H2 D2]. split; [|by eapply static_trans]. intros q m Hm Ht. destruct (H1 q m Hm Ht) as [c Hc]. destruct (H2 q _ Hc Ht) as [c' Hc']. by exists c'. Qed.

(** One reference less: the node stays, or goes if it was the last one. *)
Lemma unref_ledger w s C q h ext : ns_inv s C -> ledger h ext s C -> 1 <= h q ->
  exists w' s', uacpi_namespace_node_unref w s q = Some (w', s') /\ ns_inv s' C /\ ledger (fun x => h x - one q x) ext s' C /\
    (w' = w \/ w' = nh_free w q) /\ recounted C s s' /\ (forall x, x <> q -> s' !! x = s !! x).
Proof.
  intros Hi Hl Hh. destruct (s !! q) as [m|] eqn:Hm; [|destruct (lg_absent _ _ _ _ Hl q Hm); lia].
  assert (q <> 0) as Hq by (intros ->; by rewrite (iv_null _ _ Hi) in Hm). pose proof (lg_count _ _ _ _ Hl q m Hm) as Hc. pose proof (lg_width _ _ _ _ Hl q m Hm) as Hw. pose proof (lg_nonneg _ _ _ _ Hl q) as [_ He].
  assert (Ht : 0 <= tree_ref C q m <= 1) by (unfold tree_ref; case_decide; lia). assert (Hh' : forall x, x <> q -> h x - one q x = h x) by (intros x Hx; rewrite one_ne by done; lia).
  unfold uacpi_namespace_node_unref. rewrite (proj2 (Z.eqb_neq q 0) Hq), Hm. cbn [mbind option_bind]. rewrite unref_count by (done || lia). rewrite (set_node_some s q m) by done. cbn [mbind option_bind].
  set (m1 := m <| reference_count := reference_count m - 1 |>). destruct (Z.eqb_spec (reference_count m) 1) as [E|E].
  - assert (Hout : ~ in_tree C q m) by (unfold tree_ref in Hc, Ht; case_decide; [lia|done]). destruct (out_of_tree h ext s C q m Hi Hl Hm Hout) as (Hsc & HCq & Hr).
    assert (Hnt : forall n, ~ in_tree C q n) by (intros n [?|Hn]; [done|by apply Hsc in Hn]).
    assert (Hrec : forall s', (forall x, x <> q -> s' !! x = s !! x) -> static_kept s s' -> recounted C s s').
    { intros s' Hx Hd. split; [|done]. intros x n Hn Hin. exists (reference_count n). rewrite Hx; [rewrite Hn; by destruct n|]. intros ->. by apply (Hnt n). }
    unfold free_namespace_node. rewrite lookup_insert_eq. cbn [mbind option_bind]. change (uacpi_namespace_node_is_predefined m1) with (uacpi_namespace_node_is_predefined m).
    assert (Htr : forall n, tree_ref C q n = 0) by (intros n; unfold tree_ref; case_decide; [by destruct (Hnt n)|done]).
    destruct (uacpi_namespace_node_is_predefined m) eqn:Hpre; cbn [negb]; rewrite ?insert_insert_eq, ?delete_insert_eq; eexists _, _; (split; [reflexivity|]).
    + split; [by eapply outside_insert|]. split; [eapply ledger_insert; [done|done|exact Hh'|rewrite one_eq; lia|rewrite Htr, one_eq; cbn; rewrite Htr in Hc; lia|cbn; unfold BUGGED_REFCOUNT; lia|done|done]|]. split; [by left|].
      split; [apply Hrec|]; try (intros; by rewrite lookup_insert_ne). by eapply static_insert.
    + split; [by eapply outside_delete|]. split; [eapply ledger_delete; [done|done|exact Hh'|rewrite one_eq; rewrite Htr in Hc; lia|rewrite Htr in Hc; lia]|]. split; [by right|].
      split; [apply Hrec|]; try (intros; by rewrite lookup_delete_ne). apply static_delete.
  - eexists _, _. split; [reflexivity|]. split; [by eapply data_insert|]. split; [|split; [by left|split; [split|intros; by rewrite lookup_insert_ne]]].
    + eapply ledger_insert; [done|done|exact Hh'|rewrite one_eq; lia|rewrite one_eq; change (tree_ref C q m1) with (tree_ref C q m); cbn; lia|cbn; lia|cbn; lia|apply (lg_loose _ _ _ _ Hl q m Hm)].
    + intros x n Hn Hin. destruct (decide (x = q)) as [->|Hx]; [|exists (reference_count n); rewrite lookup_insert_ne, Hn by done; by destruct n]. rewrite lookup_insert_eq. exists (reference_count m - 1). by replace n with m by congruence.
    + by eapply static_insert.
Qed.

(** What the host promises about references: [held w q] of them to [q] are in field units.  Releasing an
    object gives up exactly the references it reports; freeing memory, and taking a region's
    handler away, give up none; the handler and the method run then leave the namespace as it is. *)
Record host_ok (held : W -> Z -> Z) : Prop := {
  ho_nonneg w q : 0 <= held w q;
  ho_unref w o q : held w q = held (nh_object_unref w o).1 q + occ q (nh_object_unref w o).2;
  ho_free w p q : held (nh_free w p) q = held w q;
  ho_region w s p : (nh_region_uninstall w s p).2 = s /\ forall q, held (nh_region_uninstall w s p).1 q = held w q }.

Section Host.
Context (held : W -> Z -> Z) (Hho : host_ok held) (ext : Z -> Z).

Lemma unref_nodes_ledger l : forall w s C h, ns_inv s C -> ledger h ext s C -> (forall q, occ q l <= h q) ->
  exists w' s', unref_nodes w s l = Some (w', s') /\ ns_inv s' C /\ ledger (fun q => h q - occ q l) ext s' C /\ (forall q, held w' q = held w q) /\ recounted C s s'.
Proof.
  induction l as [|p l IH]; intros w s C h Hi Hl Ho; cbn [unref_nodes].
  { exists w, s. split_and!; [done|done|eapply ledger_ext; [|exact Hl]; intros; cbn; lia|done|apply recounted_refl]. }
  pose proof (Ho p) as Hp. cbn in Hp. rewrite one_eq in Hp. pose proof (occ_nonneg p l). destruct (unref_ledger w s C p h ext Hi Hl ltac:(lia)) as (w1 & s1 & -> & Hi1 & Hl1 & Hw1 & Hr1 & _). cbn [mbind option_bind].
  destruct (IH w1 s1 C _ Hi1 Hl1) as (w2 & s2 & -> & Hi2 & Hl2 & Hh2 & Hr2); [intros q; specialize (Ho q); cbn in Ho; lia|].
  exists w2, s2. split_and!; [done|done|eapply ledger_ext; [|exact Hl2]; intros; cbn; lia| |by eapply recounted_trans].
  intros q. rewrite Hh2. destruct Hw1 as [->| ->]; [done|]. apply Hho.
Qed.

Lemma object_unref_ledger w s C o : ns_inv s C -> ledger (held w) ext s C ->
  exists w' s', uacpi_object_unref w s o = Some (w', s') /\ ns_inv s' C /\ ledger (held w') ext s' C /\ recounted C s s'.
Proof.
  intros Hi Hl. unfold uacpi_object_unref. pose proof (fun q => ho_unref held Hho w o q) as Hu. destruct (nh_object_unref w o) as [w1 l]. cbn [fst snd] in Hu.
  destruct (unref_nodes_ledger l w1 s C (held w) Hi Hl) as (w2 & s2 & -> & Hi2 & Hl2 & Hh2 & Hr2); [intros q; rewrite Hu; pose proof (ho_nonneg held Hho w1 q); lia|].
  exists w2, s2. split_and!; [done|done|eapply ledger_ext; [|exact Hl2]; intros q; rewrite Hh2; specialize (Hu q); lia|done].
Qed.

(** The object of a node of the tree is released. *)
Lemma detach_spec w s C p n : ns_inv s C -> ledger (held w) ext s C -> s !! p = Some n -> in_tree C p n ->
  exists w' s' o c s1, namespace_node_detach_object w s p = Some (w', s') /\ s' = <[p := n <| object := o |> <| reference_count := c |>]> s1 /\ s1 !! p = Some (n <| reference_count := c |>) /\
    recounted C s s1 /\ ns_inv s' C /\ ledger (held w') ext s' C.
Proof.
  intros Hi Hl Hn Hin. assert (p <> 0) as Hp by (intros ->; by rewrite (iv_null _ _ Hi) in Hn). unfold namespace_node_detach_object, uacpi_namespace_node_get_object.
  rewrite (proj2 (Z.eqb_neq p 0) Hp), Hn. cbn [mbind option_bind].
  assert (Hsame : exists w' s' o c s1, Some (w, s) = Some (w', s') /\ s' = <[p := n <| object := o |> <| reference_count := c |>]> s1 /\ s1 !! p = Some (n <| reference_count := c |>) /\
    recounted C s s1 /\ ns_inv s' C /\ ledger (held w') ext s' C).
  { exists w, s, (object n), (reference_count n), s. split_and!; [done| |rewrite Hn; by destruct n|apply recounted_refl|done|done]. rewrite insert_id; [done|]. rewrite Hn. by destruct n. }
  destruct (Z.eqb_spec (object n) 0) as [E|E]; [exact Hsame|]. destruct (nh_unwrap w (object n) =? 0); [exact Hsame|]. clear Hsame.
  assert (Hgo : forall w1, (forall q, held w1 q = held w q) ->
    exists w' s' o c s1, (n ← s !! p; '(w, s) ← uacpi_object_unref w1 s (object n); s ← set_node s p (fun n => n <| object := 0 |>); Some (w, s)) = Some (w', s') /\ s' = <[p := n <| object := o |> <| reference_count := c |>]> s1 /\
      s1 !! p = Some (n <| reference_count := c |>) /\ recounted C s s1 /\ ns_inv s' C /\ ledger (held w') ext s' C).
  { intros w1 Hw1. rewrite Hn. cbn [mbind option_bind]. destruct (object_unref_ledger w1 s C (object n) Hi) as (w2 & s2 & -> & Hi2 & Hl2 & Hr2); [by eapply ledger_ext|]. cbn [mbind option_bind].
    destruct Hr2 as [Hr2 Hd2]. destruct (Hr2 p n Hn Hin) as [c Hc]. rewrite (set_node_some s2 p _ _ Hc). cbn [mbind option_bind].
    exists w2, (<[p := n <| object := 0 |> <| reference_count := c |>]> s2), 0, c, s2. split_and!; [by destruct n|done|done|done|by eapply data_insert|].
    pose proof (lg_count _ _ _ _ Hl2 p _ Hc). pose proof (lg_nonneg _ _ _ _ Hl2 p). eapply ledger_insert; [done|done|done|lia|done|by apply (lg_width _ _ _ _ Hl2 p _ Hc)|by apply (lg_live _ _ _ _ Hl2 p _ Hc)|by apply (lg_loose _ _ _ _ Hl2 p _ Hc)]. }
  destruct (nh_is_region w _); [|by apply Hgo]. destruct (ho_region held Hho w s p) as [Hs Hh]. destruct (nh_region_uninstall w s p) as [w1 s1]. cbn [fst snd] in *. subst s1. by apply Hgo.
Qed.

(** Leading the links around a node makes the tree's reference to it one that is still to be given up. *)
Lemma unlinked_ledger h s C p n l1 l2 v vn vn' f : ns_inv s C -> ledger h ext s C -> installed s C p n l1 l2 -> child n = 0 -> v <> p -> s !! v = Some vn -> same_data vn vn' ->
  uacpi_namespace_node_is_predefined (n <| flags := f |>) = uacpi_namespace_node_is_predefined n ->
  (child vn' = child vn \/ child vn <> 0) ->
  ledger (fun q => h q + one p q) ext (<[p := n <| flags := f |>]> (<[v := vn']> s)) (set_scope C (parent n) (l1 ++ l2)).
Proof.
  intros Hi Hl Hin Hch Hvp Hvn (Hd1 & Hd2 & Hd3 & Hd4 & Hd5) Hpre Hvt0.
  assert (Hvt : child vn' = child vn \/ in_tree C v vn) by (destruct Hvt0 as [?|Hne]; [by left|right]; destruct (decide (in_tree C v vn)) as [?|Ho]; [done|by destruct Hne; apply (lg_loose _ _ _ _ Hl v vn)]).
  destruct (installed_facts s C p n l1 l2 Hi Hin) as (_ & Hr & Hnot & _ & _ & _). pose proof Hin as [Hn HC].
  set (C2 := set_scope C (parent n) (l1 ++ l2)).
  assert (Ht : forall q m, q <> p -> in_tree C2 q m <-> in_tree C q m).
  { intros q m Hq. unfold in_tree, C2, set_scope. destruct (decide (parent m = parent n)) as [->|]; [|done]. rewrite HC, !elem_of_app, elem_of_cons. tauto. }
  assert (Htr : forall q m, q <> p -> tree_ref C2 q m = tree_ref C q m) by (intros q m Hq; unfold tree_ref; by apply decide_ext, Ht).
  assert (Hpt : forall m, parent m = parent n -> ~ in_tree C2 p m) by (intros m Hm [?|H]; [done|]; unfold C2 in H; rewrite Hm, set_scope_eq in H; done).
  assert (Hpin : in_tree C p n) by (right; rewrite HC; apply elem_of_app; right; constructor).
  assert (Hx : forall q m, <[p := n <| flags := f |>]> (<[v := vn']> s) !! q = Some m -> q = p /\ m = n <| flags := f |> \/ q <> p /\ exists m0, s !! q = Some m0 /\
    reference_count m = reference_count m0 /\ parent m = parent m0 /\ flags m = flags m0 /\ (in_tree C q m0 \/ child m = child m0)).
  { intros q m [[-> ->]|[Hq [[-> ->]|[Hv Hm]]%lookup_insert_Some]]%lookup_insert_Some; [by left|right|right]; (split; [done|]); [exists vn|exists m]; split_and!; try done; [destruct Hvt; [by right|by left]|by right]. }
  assert (Hpar : forall q m m0, parent m = parent m0 -> (in_tree C q m <-> in_tree C q m0) /\ tree_ref C q m = tree_ref C q m0) by (intros q m m0 E; assert (in_tree C q m <-> in_tree C q m0) by (unfold in_tree; by rewrite E); split; [done|]; unfold tree_ref; by apply decide_ext).
  destruct Hl as [H1 H2 H3 H4 H5 H6]. split.
  - intros q m [(-> & ->)|(Hq & m0 & Hm0 & Ec & Ep & _)]%Hx.
    + change (reference_count (n <| flags := f |>)) with (reference_count n). rewrite one_eq, (H1 p n Hn). unfold tree_ref. rewrite (decide_True _ _ Hpin), decide_False by (by apply Hpt). lia.
    + rewrite one_ne, Ec, (H1 q m0 Hm0), Htr by done. destruct (Hpar q m m0 Ep) as [_ ->]. lia.
  - intros q. destruct (H2 q). unfold one. case_decide; lia.
  - intros q m [(-> & ->)|(Hq & m0 & Hm0 & -> & _)]%Hx; [exact (H3 p n Hn)|eauto].
  - intros q m [(-> & ->)|(Hq & m0 & Hm0 & -> & _ & Hf & _)]%Hx; [rewrite Hpre; exact (H4 p n Hn)|]. unfold uacpi_namespace_node_is_predefined. rewrite Hf. eauto.
  - intros q [Hs Hq]%lookup_insert_None. apply lookup_insert_None in Hs as [Hs _]. rewrite one_ne by done. destruct (H5 q Hs). lia.
  - intros q m [(-> & ->)|(Hq & m0 & Hm0 & _ & Ep & _ & Hc)]%Hx; [done|]. intros Hout. destruct (Hpar q m m0 Ep) as [Hi1 _]. assert (Hn0 : ~ in_tree C q m0) by (rewrite <- Hi1, <- Ht by done; exact Hout).
    destruct Hc as [Hc|Hc]; [done|rewrite Hc; eauto].
Qed.

(** The same node but for its links and its count. *)
Definition same_place (m m' : uacpi_namespace_node) : Prop := name m' = name m /\ flags m' = flags m /\ object m' = object m /\ parent m' = parent m.

Lemma uninstall_spec w s C p n l1 l2 : ns_inv s C -> ledger (held w) ext s C -> installed s C p n l1 l2 -> child n = 0 ->
  exists w' s', uacpi_namespace_node_uninstall w s p = Some (UACPI_STATUS_OK, w', s') /\ ns_inv s' (set_scope C (parent n) (l1 ++ l2)) /\
    ledger (held w') ext s' (set_scope C (parent n) (l1 ++ l2)) /\ static_kept s s' /\
    (forall q m, q <> p -> s !! q = Some m -> in_tree C q m -> exists m', s' !! q = Some m' /\ same_place m m') /\
    (held w' p + ext p = 0 -> uacpi_namespace_node_is_predefined n = false -> s' !! p = None).
Proof.
  intros Hi Hl Hin Hch. destruct (installed_facts s C p n l1 l2 Hi Hin) as (Hp0 & Hr & Hnot & [pn0 Hpn0] & Hdang & Hleaf). destruct (Hleaf Hch) as [HCp Hpp]. pose proof Hin as [Hn HC].
  assert (Hpin : in_tree C p n) by (right; rewrite HC; apply elem_of_app; right; constructor).
  unfold uacpi_namespace_node_uninstall. rewrite Hn. cbn [mbind option_bind]. rewrite Hdang, Hch. cbn [negb Z.eqb].
  destruct (detach_spec w s C p n Hi Hl Hn Hpin) as (w1 & s1 & o & c & s0 & -> & Es1 & Hn0 & [Hrec Hdom] & Hi1 & Hl1). cbn [mbind option_bind].
  set (n1 := n <| object := o |> <| reference_count := c |>) in *. assert (Hn1 : s1 !! p = Some n1) by (rewrite Es1; apply lookup_insert_eq). rewrite Hn1. cbn [mbind option_bind].
  change (parent n1) with (parent n). change (next n1) with (next n). assert (parent n <> 0) as Hpar0 by (intros E; by rewrite E, (iv_null _ _ Hi) in Hpn0).
  rewrite (proj2 (Z.eqb_neq _ 0) Hpar0). assert (Hin1 : installed s1 C p n1 l1 l2) by (by split).
  destruct (installed_facts s1 C p n1 l1 l2 Hi1 Hin1) as (_ & _ & _ & [pn Hpn] & _ & _). change (parent n1) with (parent n) in Hpn. rewrite Hpn. cbn [mbind option_bind].
  destruct (lead_around s1 C p n1 l1 l2 pn Hi1 Hin1 Hch Hpn) as (v & vn & vn' & E & Hi2 & Hvp & Hvn & Hsame & Hvt). change (parent n1) with (parent n) in *. change (next n1) with (next n) in *.
  set (s2 := <[v := vn']> s1) in *. set (C2 := set_scope C (parent n) (l1 ++ l2)) in *. assert (Hn2 : s2 !! p = Some n1) by (subst s2; by rewrite lookup_insert_ne).
  set (n3 := n1 <| flags := flags n1 ||| UACPI_NAMESPACE_NODE_FLAG_DANGLING |>).
  assert (Hout : forall q, p ∉ C2 q).
  { intros q Hq. subst C2. unfold set_scope in Hq. destruct (decide (q = parent n)) as [->|Hqp]; [done|]. apply Hqp. eapply scopes_apart; [exact Hi|exact Hq|]. rewrite HC. apply elem_of_app. right. constructor. }
  assert (HC2 : C2 p = []) by (subst C2; rewrite set_scope_ne; [done|congruence]).
  assert (Hi3 : ns_inv (<[p := n3]> s2) C2) by (by eapply outside_insert).
  assert (Hpre3 : uacpi_namespace_node_is_predefined n3 = uacpi_namespace_node_is_predefined n).
  { unfold uacpi_namespace_node_is_predefined. cbn. change (flags n ||| UACPI_NAMESPACE_NODE_FLAG_DANGLING) with (Z.lor (flags n) 2).
    rewrite Z.land_lor_distr_l. change (Z.land 2 UACPI_NAMESPACE_NODE_PREDEFINED) with 0. by rewrite Z.lor_0_r. }
  assert (Hl3 : ledger (fun q => held w1 q + one p q) ext (<[p := n3]> s2) C2).
  { by apply (unlinked_ledger (held w1) s1 C p n1 l1 l2 v vn vn'). }
  destruct (unref_ledger w1 (<[p := n3]> s2) C2 p _ ext Hi3 Hl3) as (w4 & s4 & E4 & Hi4 & Hl4 & Hw4 & [_ Hd4] & Hx4); [rewrite one_eq; pose proof (ho_nonneg held Hho w1 p); lia|].
  exists w4, s4. split.
  { assert (Hfin : forall t, t = s2 -> (t ← set_node t p (fun m => m <| flags := flags m ||| UACPI_NAMESPACE_NODE_FLAG_DANGLING |>); '(w, t) ← uacpi_namespace_node_unref w1 t p; Some (UACPI_STATUS_OK, w, t)) = Some (UACPI_STATUS_OK, w4, s4)).
    { intros t ->. rewrite (set_node_some s2 p n1) by done. cbn [mbind option_bind]. fold n3. by rewrite E4. }
    destruct (child pn =? p); [rewrite E; cbn [mbind option_bind]; by apply Hfin|]. destruct (find_prev (rounds s1) s1 (child pn) p) as [z|]; [|done]. cbn [mbind option_bind] in *.
    destruct (z =? 0); [done|]. rewrite E. cbn [mbind option_bind]. by apply Hfin. }
  assert (Hl5 : ledger (held w4) ext s4 C2).
  { eapply ledger_ext; [|exact Hl4]. intros q. replace (held w4 q) with (held w1 q) by (destruct Hw4 as [->| ->]; [done|by rewrite (ho_free held Hho)]). lia. }
  assert (Hst : static_kept s s4).
  { apply (static_trans s s0 s4 Hdom), (static_trans s0 s1 s4); [rewrite Es1; by eapply static_insert|]. apply (static_trans s1 s2 s4).
    - eapply static_insert; [exact Hvn|]. unfold uacpi_namespace_node_is_predefined. by destruct Hsame as (_ & -> & _).
    - eapply static_trans; [|exact Hd4]. by eapply static_insert. }
  split; [done|]. split; [done|]. split; [|split].
  - done.
  - intros q m Hq Hm Hmt. destruct (Hrec q m Hm Hmt) as [c' Hc']. rewrite Hx4, lookup_insert_ne by done. assert (Hq1 : s1 !! q = Some (m <| reference_count := c' |>)) by (rewrite Es1, lookup_insert_ne; done).
    subst s2. destruct (decide (q = v)) as [->|Hqv]; [|rewrite lookup_insert_ne by done; by eexists]. rewrite lookup_insert_eq. exists vn'. split; [done|]. replace vn with (m <| reference_count := c' |>) in Hsame by congruence.
    destruct Hsame as (? & ? & ? & _ & ?). done.
  - intros H0 Hnp. destruct (s4 !! p) as [m|] eqn:Em; [|done]. pose proof (proj2 Hst p n m Hn Em) as Hpm. rewrite Hnp in Hpm.
    pose proof (lg_live _ _ _ _ Hl5 p m Em Hpm) as Hpos. rewrite (lg_count _ _ _ _ Hl5 p m Em) in Hpos. unfold tree_ref in Hpos. rewrite decide_False in Hpos; [lia|]. intros [?|H]; [done|]. by apply (Hout (parent m)).
Qed.
End Host.
End Uninstall.

(** C5: the operations on the linked nodes of the namespace are operations on ordered scopes, and
    they keep the references to nodes in balance.  Looking for a name in a scope gives its first
    child of that name, or nothing.  Installing a node that is in no scope appends it to its
    parent's, every other node keeps its data, and a reference of the installer becomes the
    tree's.  Uninstalling a node refuses when it has children, and otherwise takes exactly that
    node out of its scope: the others in the tree keep name, flags, object and parent even when
    field units freed with the object give up references to them, no count goes wrong, and the
    node is freed when neither a field unit nor anyone else refers to it.  All return, with
    searches that end, and leave proper lists behind.  The objects keep their own books
    ([host_ok]): releasing one gives up exactly the references its field units have, and a
    detached region's handler and method leave the namespace alone. *)
Theorem namespace_refines_scopes `{NsRoot} {W} `{NsHost W} s C : ns_inv s C ->
  (forall par nm, is_Some (s !! or_root par) -> uacpi_namespace_node_find_sub_node s par nm = Some (first_named s (C (or_root par)) nm)) /\
  (forall par p n, loose s C p n -> is_Some (s !! or_root par) -> or_root par <> p ->
     exists s', uacpi_namespace_node_install s par p = Some (UACPI_STATUS_OK, s') /\ ns_inv s' (set_scope C (or_root par) (C (or_root par) ++ [p])) /\
       (forall q m, s !! q = Some m -> exists m', s' !! q = Some m' /\ name m' = name m /\ flags m' = flags m /\ object m' = object m /\ reference_count m' = reference_count m) /\
       (forall h ext pn, ledger h ext s C -> 1 <= ext p -> s !! or_root par = Some pn -> in_tree C (or_root par) pn ->
          ledger h (fun q => ext q - one p q) s' (set_scope C (or_root par) (C (or_root par) ++ [p])))) /\
  (forall w p n l1 l2, installed s C p n l1 l2 ->
     if decide (child n = 0)
     then forall held ext, host_ok held -> ledger (held w) ext s C ->
       exists w' s', uacpi_namespace_node_uninstall w s p = Some (UACPI_STATUS_OK, w', s') /\ ns_inv s' (set_scope C (parent n) (l1 ++ l2)) /\
         ledger (held w') ext s' (set_scope C (parent n) (l1 ++ l2)) /\ static_kept s s' /\
         (forall q m, q <> p -> s !! q = Some m -> in_tree C q m -> exists m', s' !! q = Some m' /\ same_place m m') /\
         (held w' p + ext p = 0 -> uacpi_namespace_node_is_predefined n = false -> s' !! p = None)
     else uacpi_namespace_node_uninstall w s p = Some (UACPI_STATUS_DENIED, w, s)).
Proof.
  intros Hi. split_and_all.
  - intros. by apply find_sub_node_spec.
  - intros par p n Hl Hpar Hne. destruct (install_spec s C par p n Hi Hl Hpar Hne) as (s' & E & Hi' & Hf). exists s'. split_and!; [done|done| |].
    + intros q m Hm. specialize (Hf q). rewrite Hm in Hf. destruct (s' !! q) as [m'|]; [|done]. exists m'. by destruct Hf as (? & _).
    + intros h ext pn Hg He Hpn Hpt. by eapply install_ledger.
  - intros w p n l1 l2 Hin. destruct (decide (child n = 0)) as [E|E]; [intros held ext Hho Hl; by apply uninstall_spec|].
    destruct (installed_facts s C p n l1 l2 Hi Hin) as (_ & _ & _ & _ & Hd & _). destruct Hin as [Hn _]. unfold uacpi_namespace_node_uninstall.
    rewrite Hn. cbn [mbind option_bind]. by rewrite Hd, (proj2 (Z.eqb_neq _ 0) E).
Qed.

(** A host whose objects are field units, each with the nodes it refers to. *)
Definition field_objects : NsHost (list (Z * list Z)) := {|
  nh_alloc w := (w, 0); nh_free w _ := w; nh_unwrap _ o := o; nh_is_region _ _ := false; nh_region_uninstall w s _ := (w, s);
  nh_object_unref w o := (filter (fun f => f.1 <> o) w, concat (snd <$> filter (fun f => f.1 = o) w)) |}.
Definition field_refs (w : list (Z * list Z)) (q : Z) : Z := occ q (concat (snd <$> w)).

Lemma occ_app q l l' : occ q (l ++ l') = occ q l + occ q l'.
Proof. induction l as [|p l IH]; cbn; [done|]. rewrite IH. lia. Qed.

Lemma field_objects_ok : host_ok (NH := field_objects) field_refs.
Proof.
  split; try done; [intros; apply occ_nonneg|]. intros w o q. unfold field_refs. cbn [nh_object_unref field_objects fst snd].
  induction w as [|f w IH]; [done|]. rewrite !filter_cons. destruct (decide (f.1 <> o)) as [E|E], (decide (f.1 = o)) as [E'|E']; try done; cbn [fmap list_fmap concat]; rewrite !occ_app; lia.
Qed.

Lemma demo_loose : loose (NR := demo_root) demo_nodes demo_scopes 8288 (Node 1 [70; 79; 79; 95] 0 0 0 0 0).
Proof.
  split; try done. intros q. unfold demo_scopes. destruct (q =? 4096); [by intros ?%list_elem_of_singleton|]. destruct (q =? 8192); [by intros ?%list_elem_of_singleton|apply not_elem_of_nil].
Qed.

(** Objects and memory that are never there. *)
Definition no_objects : NsHost unit := {|
  nh_alloc w := (w, 0); nh_free w _ := w; nh_unwrap _ o := o; nh_is_region _ _ := false; nh_region_uninstall w s _ := (w, s); nh_object_unref w _ := (w, []) |}.
Lemma no_objects_ok : host_ok (NH := no_objects) (fun _ _ => 0).
Proof. by split. Qed.

Lemma demo_ledger : ledger (NR := demo_root) (fun _ => 0) (one 8288) demo_nodes demo_scopes.
Proof.
  split.
  - intros q m [[-> ->]|[[-> ->]|[[-> ->]|[-> ->]]]]%demo_lookup; reflexivity.
  - intros q. unfold one. case_decide; lia.
  - intros q m [[-> ->]|[[-> ->]|[[-> ->]|[-> ->]]]]%demo_lookup; reflexivity.
  - intros q m [[-> ->]|[[-> ->]|[[-> ->]|[-> ->]]]]%demo_lookup; done.
  - intros q Hq. split; [done|]. apply one_ne. by intros ->.
  - intros q m [[-> ->]|[[-> ->]|[[-> ->]|[-> ->]]]]%demo_lookup Hout; try done; destruct Hout; apply (bool_decide_eq_true_1 (in_tree (NR := demo_root) _ _ _)); reflexivity.
Qed.

(** [PCI0] as a field unit with the only reference to the node that is not installed. *)
Definition field_nodes : nodes := <[8240 := Node 1 [80; 67; 73; 48] 0 77 8192 0 0]> demo_nodes.

Lemma field_inv : ns_inv (NR := demo_root) field_nodes demo_scopes.
Proof. by eapply data_insert; [apply demo_inv|reflexivity|]. Qed.

Lemma field_ledger : ledger (NR := demo_root) (field_refs [(77, [8288])]) (fun _ => 0) field_nodes demo_scopes.
Proof.
  assert (Hx : forall q m, field_nodes !! q = Some m -> exists m0, demo_nodes !! q = Some m0 /\ m = m0 <| object := object m |>).
  { unfold field_nodes. intros q m [[<- <-]|[_ Hm]]%lookup_insert_Some; [by eexists|]. exists m. by destruct m. }
  pose proof demo_ledger as [H1 H2 H3 H4 H5 H6]. split.
  - intros q m (m0 & Hm & ->)%Hx. change (reference_count m0 = field_refs [(77, [8288])] q + tree_ref (NR := demo_root) demo_scopes q m0 + 0). rewrite (H1 q m0 Hm). unfold field_refs. cbn. lia.
  - intros q. split; [apply occ_nonneg|done].
  - intros q m (m0 & Hm & ->)%Hx. exact (H3 q m0 Hm).
  - intros q m (m0 & Hm & ->)%Hx. exact (H4 q m0 Hm).
  - unfold field_nodes. intros q [Hq _]%lookup_insert_None. unfold field_refs. cbn. rewrite one_ne; [done|]. by intros ->.
  - intros q m (m0 & Hm & ->)%Hx. exact (H6 q m0 Hm).
Qed.

Lemma namespace_refines_scopes_witness :
  (exists s', uacpi_namespace_node_install (NR := demo_root) demo_nodes 8192 8288 = Some (UACPI_STATUS_OK, s') /\
     ns_inv (NR := demo_root) s' (set_scope demo_scopes 8192 [8240; 8288])) /\
  (exists w' s', uacpi_namespace_node_uninstall (NH := field_objects) [(77, [8288])] field_nodes 8240 = Some (UACPI_STATUS_OK, w', s') /\
     ns_inv (NR := demo_root) s' (set_scope demo_scopes 8192 []) /\ w' = [] /\ s' !! 8240 = None /\ s' !! 8288 = None) /\
  uacpi_namespace_node_uninstall (NH := no_objects) tt demo_nodes 8192 = Some (UACPI_STATUS_DENIED, tt, demo_nodes).
Proof.
  destruct (namespace_refines_scopes (H := demo_root) (H0 := no_objects) demo_nodes demo_scopes demo_inv) as (_ & Hin & Hun). split; [|split].
  - destruct (Hin 8192 8288 _ demo_loose) as (s' & H1 & H2 & _); [by eexists|discriminate|]. exists s'. split; [exact H1|exact H2].
  - destruct (namespace_refines_scopes (H := demo_root) (H0 := field_objects) field_nodes demo_scopes field_inv) as (_ & _ & Hf).
    specialize (Hf [(77, [8288])] 8240 (Node 1 [80; 67; 73; 48] 0 77 8192 0 0) [] []). destruct Hf with (held := field_refs) (ext := fun _ : Z => 0) as (w' & s' & H1 & H2 & H3 & _ & _ & H6); [split; reflexivity|apply field_objects_ok|apply field_ledger|].
    assert (Hr : uacpi_namespace_node_uninstall (NH := field_objects) [(77, [8288])] field_nodes 8240 = Some (UACPI_STATUS_OK, [], delete 8240 (delete 8288 (<[8192 := Node 1 [95; 83; 66; 95] UACPI_NAMESPACE_NODE_PREDEFINED 0 4096 0 0]> demo_nodes)))) by (vm_compute; reflexivity).
    rewrite Hr in H1. injection H1 as <- <-. eexists _, _. split; [exact Hr|]. split; [exact H2|]. split; [done|]. split; [apply H6; reflexivity|reflexivity].
  - apply (Hun tt 8192 (Node 1 [95; 83; 66; 95] UACPI_NAMESPACE_NODE_PREDEFINED 0 4096 8240 0) [] []). split; reflexivity.
Defined.
