(* ===== verification/AcpiNsIter.v ===== *)
(** * Walking the namespace, [uacpi_namespace_do_for_each_child] of [src/src/uacpi/namespace.c]

    The walk goes over the nodes below a scope with the links alone, no stack: down to the
    first child, on to the next sibling, up to the parent.  It calls one callback on the way
    down and one on the way up.  It is proved to be a recursive traversal.  The callbacks
    are functions on a state of the caller that leave the namespace as it is; the namespace's
    reader lock ([AcpiRwLock]) is part of that state, and is given up around each call. *)

From S2P Require Import Prelude Mem CString KernelApi AcpiField AcpiRegion AcpiGas AcpiRegs AcpiLock AcpiFmt AcpiFmtProps AcpiNs AcpiNsProps AcpiNsTree.

Definition UACPI_ITERATION_DECISION_CONTINUE : Z := 0.
Definition UACPI_ITERATION_DECISION_BREAK : Z := 1.
Definition UACPI_ITERATION_DECISION_NEXT_PEER : Z := 2.

Section Iter.
(** [is_one_of]: [uacpi_namespace_node_is_one_of_unlocked] with the type mask, [None] when it
    fails and leaves its result alone.  [read_lock] and [read_unlock]: the namespace's lock. *)
Context {U : Type} (should_lock : bool) (read_lock read_unlock : U -> U * Z).
Context (descending_callback ascending_callback : option (U -> Z -> Z -> U * Z)) (is_one_of : Z -> option bool) (max_depth : Z) (permanent_only : bool).

Record iter := Iter { it_node : Z; walking_up : bool; matches : bool; it_depth : Z; it_user : U }.

(** Taking and giving up the lock when the caller asked for it. *)
Definition locking (op : U -> U * Z) (u : U) : U * Z := if should_lock then op u else (u, UACPI_STATUS_OK).

(** The callback between giving up the lock and taking it back: the walk is over, or goes on
    with the decision. *)
Definition call (cb : U -> Z -> Z -> U * Z) (u : U) (node depth : Z) : (Z * U) + (U * Z) :=
  let '(u, ret) := locking read_unlock u in
  if negb (ret =? UACPI_STATUS_OK) then inl (ret, u)
  else
    let '(u, decision) := cb u node depth in
    if decision =? UACPI_ITERATION_DECISION_BREAK then inl (UACPI_STATUS_OK, u)
    else
      let '(u, ret) := locking read_lock u in
      if negb (ret =? UACPI_STATUS_OK) then inl (ret, u) else inr (u, decision).

(** From the label [out] on. *)
Definition walk_out (ret : Z) (u : U) : Z * U := (ret, (locking read_unlock u).1).

(** From the label [do_next] on. *)
Definition do_next (n : uacpi_namespace_node) (it : iter) (decision : Z) : option (Z * U) + iter :=
  if walking_up it then
    if negb (next n =? 0) then inr (Iter (next n) false (matches it) (it_depth it) (it_user it))
    else inr (Iter (parent n) true (matches it) (u32 (it_depth it - 1)) (it_user it))
  else if (decision =? UACPI_ITERATION_DECISION_CONTINUE) && (negb (it_depth it =? max_depth) && negb (child n =? 0)) then
    inr (Iter (child n) false (matches it) (u32 (it_depth it + 1)) (it_user it))
  else if (decision =? UACPI_ITERATION_DECISION_CONTINUE) || (decision =? UACPI_ITERATION_DECISION_NEXT_PEER) then
    inr (Iter (it_node it) true (matches it) (it_depth it) (it_user it))
  else inl (Some (walk_out UACPI_STATUS_INVALID_ARGUMENT (it_user it))).

Definition iter_round (s : nodes) (it : iter) : option (Z * U) + iter :=
  if it_depth it =? 0 then inl (Some (walk_out UACPI_STATUS_OK (it_user it)))
  else
    match s !! it_node it with
    | None => inl None
    | Some n =>
      let it := Iter (it_node it) (walking_up it) (default (matches it) (is_one_of (it_node it))) (it_depth it) (it_user it) in
      if negb (matches it) then do_next n it UACPI_ITERATION_DECISION_CONTINUE
      else if permanent_only && uacpi_namespace_node_is_temporary n then do_next n it UACPI_ITERATION_DECISION_NEXT_PEER
      else
        match (if walking_up it then ascending_callback else descending_callback) with
        | Some cb =>
          match call cb (it_user it) (it_node it) (it_depth it) with
          | inl r => inl (Some r)
          | inr (u, decision) => do_next n (Iter (it_node it) (walking_up it) (matches it) (it_depth it) u) decision
          end
        | None => do_next n it UACPI_ITERATION_DECISION_CONTINUE
        end
    end.

(** The status and the caller's state. *)
Definition uacpi_namespace_do_for_each_child (fuel : nat) (init_level : Z) (s : nodes) (node : Z) (user : U) : option (Z * U) :=
  if init_level <? UACPI_INIT_LEVEL_SUBSYSTEM_INITIALIZED then Some (UACPI_STATUS_INIT_LEVEL_MISMATCH, user)
  else
    match descending_callback, ascending_callback with
    | None, None => Some (UACPI_STATUS_INVALID_ARGUMENT, user)
    | _, _ =>
      if (node =? 0) || (max_depth =? 0) then Some (UACPI_STATUS_INVALID_ARGUMENT, user)
      else
        let '(user, ret) := locking read_lock user in
        if negb (ret =? UACPI_STATUS_OK) then Some (ret, user)
        else
          n ← s !! node;
          if child n =? 0 then Some (walk_out UACPI_STATUS_OK user)
          else r ← wloop fuel (iter_round s) (Iter (child n) false false 1 user); r
    end.

(** One child after the other: from the child after [*iter], the first that is permanent and of
    a wanted type; the node where the search ended, and the status. *)
Fixpoint next_loop (fuel : nat) (s : nodes) (node : Z) : option (Z * Z) :=
  match fuel with
  | O => None
  | S f =>
    if node =? 0 then Some (0, UACPI_STATUS_OK)
    else
      n ← s !! node;
      if uacpi_namespace_node_is_temporary n then next_loop f s (next n)
      else
        match is_one_of node with
        | None => Some (node, UACPI_STATUS_NOT_FOUND)
        | Some true => Some (node, UACPI_STATUS_OK)
        | Some false => next_loop f s (next n)
        end
  end.

(** The status, what [*iter] is afterwards, and the caller's state. *)
Definition uacpi_namespace_node_next_typed (init_level : Z) (s : nodes) (par it : Z) (u : U) : option (Z * Z * U) :=
  if init_level <? UACPI_INIT_LEVEL_SUBSYSTEM_INITIALIZED then Some (UACPI_STATUS_INIT_LEVEL_MISMATCH, it, u)
  else if (par =? 0) && (it =? 0) then Some (UACPI_STATUS_INVALID_ARGUMENT, it, u)
  else
    let '(u, ret) := read_lock u in
    if negb (ret =? UACPI_STATUS_OK) then Some (ret, it, u)
    else
      n ← s !! (if it =? 0 then par else it);
      '(node, ret) ← next_loop (rounds s) s (if it =? 0 then child n else next n);
      let u := (read_unlock u).1 in
      if node =? 0 then Some (UACPI_STATUS_NOT_FOUND, it, u)
      else Some (ret, if ret =? UACPI_STATUS_OK then node else it, u).

(** ** The traversal *)

(** The nodes below a node, as a tree. *)
Inductive tree := Branch (p : Z) (kids : list tree).
Definition addr (t : tree) : Z := match t with Branch p _ => p end.
Definition kids_of (t : tree) : list tree := match t with Branch _ ts => ts end.

Lemma tree_ind' (P : tree -> Prop) : (forall p ts, Forall P ts -> P (Branch p ts)) -> forall t, P t.
Proof.
  intros H. fix IH 1. intros [p ts]. apply H. induction ts as [|t ts IHts]; constructor; [apply IH|exact IHts].
Qed.

Fixpoint tree_size (t : tree) : nat := match t with Branch _ ts => S (foldr (fun t n => (tree_size t + n)%nat) 0%nat ts) end.
Definition forest_size (ts : list tree) : nat := foldr (fun t n => (tree_size t + n)%nat) 0%nat ts.

(** The tree follows the scopes. *)
Inductive shaped (C : Z -> list Z) : tree -> Prop :=
  | shaped_branch p ts : addr <$> ts = C p -> Forall (shaped C) ts -> shaped C (Branch p ts).

Section Traversal.
Context (s : nodes).

Definition temporary (p : Z) : bool := default false (uacpi_namespace_node_is_temporary <$> s !! p).
Definition shown (p : Z) : bool := default false (is_one_of p) && negb (permanent_only && temporary p).

(** On the way down: stop, or go on, with the children or without them. *)
Definition enter (p d : Z) (u : U) : (Z * U) + (U * bool) :=
  if shown p then
    match descending_callback with
    | Some cb =>
      match call cb u p d with
      | inl r => inl r
      | inr (u, decision) =>
        if decision =? UACPI_ITERATION_DECISION_CONTINUE then inr (u, true)
        else if decision =? UACPI_ITERATION_DECISION_NEXT_PEER then inr (u, false)
        else inl (walk_out UACPI_STATUS_INVALID_ARGUMENT u)
      end
    | None => inr (u, true)
    end
  else inr (u, negb (default false (is_one_of p))).

(** On the way up. *)
Definition leave (p d : Z) (u : U) : (Z * U) + U :=
  if shown p then
    match ascending_callback with
    | Some cb => match call cb u p d with inl r => inl r | inr (u, _) => inr u end
    | None => inr u
    end
  else inr u.

(** Depth first; children only down to the given depth. *)
Fixpoint visit (t : tree) (d : Z) (u : U) : (Z * U) + U :=
  match t with
  | Branch p ts =>
    match enter p d u with
    | inl r => inl r
    | inr (u, down) =>
      let below := if down && (d <? max_depth)
                   then (fix visits ts u := match ts with [] => inr u | t :: ts => match visit t (d + 1) u with inl r => inl r | inr u => visits ts u end end) ts u
                   else inr u in
      match below with inl r => inl r | inr u => leave p d u end
    end
  end.
Fixpoint visits (ts : list tree) (d : Z) (u : U) : (Z * U) + U :=
  match ts with [] => inr u | t :: ts => match visit t d u with inl r => inl r | inr u => visits ts d u end end.

Context `{NR : NsRoot} (C : Z -> list Z) (Hinv : ns_inv s C) (Htypes : forall p, is_Some (s !! p) -> is_Some (is_one_of p)) (Hmax : 1 <= max_depth < 2 ^ 32).

Lemma visit_branch p ts d u : visit (Branch p ts) d u =
  match enter p d u with
  | inl r => inl r
  | inr (u, down) => match (if down && (d <? max_depth) then visits ts (d + 1) u else inr u) with inl r => inl r | inr u => leave p d u end
  end.
Proof.
  cbn [visit]. destruct (enter p d u) as [r|[u1 down]]; [done|]. destruct (down && (d <? max_depth)); [|done].
  match goal with |- match ?f ts u1 with _ => _ end = _ => assert (forall l v, f l v = visits l (d + 1) v) as Hf end; [|by rewrite Hf].
  induction l as [|t l IH]; intros v; cbn; [done|]. by destruct (visit t (d + 1) v).
Qed.

(** One round on the way down, and one on the way up. *)
Lemma round_down p n m d u : s !! p = Some n -> 1 <= d <= max_depth -> exists m', iter_round s (Iter p false m d u) =
  match enter p d u with
  | inl r => inl (Some r)
  | inr (u', down) => if down && (d <? max_depth) && negb (child n =? 0) then inr (Iter (child n) false m' (d + 1) u') else inr (Iter p true m' d u')
  end.
Proof.
  intros Hn Hd. destruct (Htypes p) as [b Hb]; [by exists n|]. exists b. unfold iter_round, enter, shown, temporary. cbn [it_depth it_node it_user walking_up matches].
  rewrite (proj2 (Z.eqb_neq d 0)) by lia. rewrite Hn, Hb. cbn [default id from_option fmap option_fmap option_map matches]; unfold id. change (u32 (d + 1)) with ((d + 1) mod 4294967296).
  assert (Hdo : forall v, do_next n (Iter p false b d v) UACPI_ITERATION_DECISION_CONTINUE =
    if (d <? max_depth) && negb (child n =? 0) then inr (Iter (child n) false b (d + 1) v) else inr (Iter p true b d v)).
  { intros v. unfold do_next. cbn [walking_up it_depth it_node it_user matches]. change (UACPI_ITERATION_DECISION_CONTINUE =? UACPI_ITERATION_DECISION_CONTINUE) with true. cbn [andb orb].
    destruct (Z.eqb_spec d max_depth) as [E|E]; [by rewrite (proj2 (Z.ltb_ge d max_depth)) by lia|]. rewrite (proj2 (Z.ltb_lt d max_depth)) by lia. cbn [negb andb].
    by rewrite u32_small by lia. }
  destruct b; cbn [negb andb]; [|by rewrite Hdo]. destruct (permanent_only && uacpi_namespace_node_is_temporary n); cbn [negb]; [done|].
  destruct descending_callback as [cb|]; [|by rewrite Hdo]. destruct (call cb u p d) as [r|[u1 dec]]; [done|].
  destruct (Z.eqb_spec dec UACPI_ITERATION_DECISION_CONTINUE) as [->|Ec]; [by rewrite Hdo|]. unfold do_next. cbn [walking_up it_depth it_node it_user matches].
  rewrite (proj2 (Z.eqb_neq dec _) Ec). cbn [andb orb]. by destruct (dec =? UACPI_ITERATION_DECISION_NEXT_PEER).
Qed.

Lemma round_up p n d : s !! p = Some n -> 1 <= d <= max_depth -> exists m', forall m u, iter_round s (Iter p true m d u) =
  match leave p d u with
  | inl r => inl (Some r)
  | inr u' => if next n =? 0 then inr (Iter (parent n) true m' (d - 1) u') else inr (Iter (next n) false m' d u')
  end.
Proof.
  intros Hn Hd. destruct (Htypes p) as [b Hb]; [by exists n|]. exists b. intros m u. unfold iter_round, leave, shown, temporary. cbn [it_depth it_node it_user walking_up matches].
  rewrite (proj2 (Z.eqb_neq d 0)) by lia. rewrite Hn, Hb. cbn [default id from_option fmap option_fmap option_map matches]; unfold id.
  assert (Hdo : forall v dec, do_next n (Iter p true b d v) dec = if next n =? 0 then inr (Iter (parent n) true b (d - 1) v) else inr (Iter (next n) false b d v)).
  { intros v dec. unfold do_next. cbn [walking_up it_depth it_node it_user matches]. rewrite u32_small by lia. by destruct (next n =? 0). }
  destruct b; cbn [negb andb]; [|by rewrite Hdo]. destruct (permanent_only && uacpi_namespace_node_is_temporary n); cbn [negb]; [by rewrite Hdo|].
  destruct ascending_callback as [cb|]; [|by rewrite Hdo]. destruct (call cb u p d) as [r|[u1 dec]]; [done|by rewrite Hdo].
Qed.

(** The walk over a tree whose root is [n]: what comes after it starts at the next sibling,
    or at the parent on the way up. *)
Definition tree_run (t : tree) : Prop := forall n m d u, s !! addr t = Some n -> shaped C t -> 1 <= d <= max_depth ->
  exists k m', (k <= 2 * tree_size t)%nat /\ forall fuel, wloop (k + fuel) (iter_round s) (Iter (addr t) false m d u) =
    match visit t d u with
    | inl r => Some (Some r)
    | inr u' => wloop fuel (iter_round s) (if next n =? 0 then Iter (parent n) true m' (d - 1) u' else Iter (next n) false m' d u')
    end.

Lemma forest_run ts : Forall tree_run ts -> forall p q m d u, linked s p (addr <$> ts) -> ts <> [] -> Forall (shaped C) ts ->
  Forall (fun t => exists n, s !! addr t = Some n /\ parent n = q) ts -> 1 <= d <= max_depth ->
  exists k m', (k <= 2 * forest_size ts)%nat /\ forall fuel, wloop (k + fuel) (iter_round s) (Iter p false m d u) =
    match visits ts d u with inl r => Some (Some r) | inr u' => wloop fuel (iter_round s) (Iter q true m' (d - 1) u') end.
Proof.
  induction 1 as [|t ts Ht Hts IH]; intros p q m d u Hl Hne Hsh Hpar Hd; [done|]. destruct Hl as (-> & Hnz & n & Hn & Hl).
  apply Forall_cons_1 in Hsh as [Hsh1 Hsh], Hpar as [(n' & Hn' & Hp) Hpar]. simplify_eq.
  destruct (Ht n m d u Hn Hsh1 Hd) as (k1 & m1 & Hk1 & Hrun). cbn [forest_size foldr visits]. fold (forest_size ts).
  destruct (visit t d u) as [r|u1] eqn:Hv; [exists k1, m1; split; [lia|exact Hrun]|].
  destruct ts as [|t2 ts]; [exists k1, m1; split; [lia|]; intros fuel; by rewrite Hrun, Hl|].
  pose proof Hl as (Heq & Hnz2 & _). destruct (IH (next n) (parent n) m1 d u1) as (k2 & m2 & Hk2 & Hrun2); [done..|].
  exists (k1 + k2)%nat, m2. split; [lia|]. intros fuel. rewrite <- Nat.add_assoc, Hrun, (proj2 (Z.eqb_neq (next n) 0)) by congruence. apply Hrun2.
Qed.

Lemma kids_here p n ts : s !! p = Some n -> addr <$> ts = C p -> Forall (fun t => exists n, s !! addr t = Some n /\ parent n = p) ts.
Proof.
  intros Hn Hts. apply Forall_forall. intros t Ht. assert (Hin : addr t ∈ C p) by (rewrite <- Hts; by apply list_elem_of_fmap_2).
  destruct (linked_elem _ _ _ _ (iv_linked _ _ Hinv p n Hn) Hin) as [_ [c Hc]]. exists c. split; [done|]. by apply (iv_parent _ _ Hinv p (addr t)).
Qed.

Lemma tree_runs t : tree_run t.
Proof.
  induction t as [p ts IH] using tree_ind'. intros n m d u Hn Hsh Hd. cbn [addr] in *. inversion Hsh as [? ? Hts Hsub]; subst.
  pose proof (iv_linked _ _ Hinv p n Hn) as Hl. rewrite <- Hts in Hl. rewrite visit_branch. cbn [tree_size]. fold (forest_size ts).
  destruct (round_down p n m d u Hn Hd) as [m1 H1]. destruct (enter p d u) as [r|[u1 down]]; [exists 1%nat, m; split; [lia|]; intros fuel; cbn; by rewrite H1|].
  destruct (round_up p n d Hn Hd) as [m3 H3].
  assert (Hup : forall m2 u2 fuel, wloop (S fuel) (iter_round s) (Iter p true m2 d u2) =
    match leave p d u2 with inl r => Some (Some r) | inr u' => wloop fuel (iter_round s) (if next n =? 0 then Iter (parent n) true m3 (d - 1) u' else Iter (next n) false m3 d u') end).
  { intros m2 u2 fuel. cbn [wloop]. rewrite H3. destruct (leave p d u2); [done|]. by destruct (next n =? 0). }
  assert (Hskip : iter_round s (Iter p false m d u) = inr (Iter p true m1 d u1) -> exists k m', (k <= 2 * S (forest_size ts))%nat /\ forall fuel,
    wloop (k + fuel) (iter_round s) (Iter p false m d u) = match leave p d u1 with inl r => Some (Some r) | inr u' => wloop fuel (iter_round s) (if next n =? 0 then Iter (parent n) true m' (d - 1) u' else Iter (next n) false m' d u') end).
  { intros Heq. exists 2%nat, m3. split; [lia|]. intros fuel. change (2 + fuel)%nat with (S (S fuel)). rewrite <- Hup with (m2 := m1). cbn [wloop]. by rewrite Heq. }
  destruct (Z.ltb_spec d max_depth) as [Hlt|Hge]; [|rewrite andb_false_r in *; by apply Hskip]. destruct down; [|by apply Hskip]. cbn [andb] in *.
  destruct ts as [|t ts]; [cbn in Hl; rewrite Hl in H1; by apply Hskip|]. pose proof Hl as (Hc & Hc0 & _). rewrite (proj2 (Z.eqb_neq (child n) 0)) in H1 by congruence. cbn [negb] in H1.
  destruct (forest_run (t :: ts) IH (child n) p m1 (d + 1) u1) as (k & m2 & Hk & Hrun); [done..|by eapply kids_here|lia|].
  exists (S (k + 1)), m3. split; [lia|]. intros fuel. cbn [Nat.add wloop]. rewrite H1, <- Nat.add_assoc, Hrun. destruct (visits (t :: ts) (d + 1) u1) as [r|u2]; [done|].
  replace (d + 1 - 1) with d by lia. apply Hup.
Qed.
End Traversal.
End Iter.

(** ** Types of nodes, and the calls with everything given *)

Definition UACPI_OBJECT_ANY_BIT : Z := 0xFFFFFFFF.
Definition UACPI_MAX_DEPTH_ANY : Z := 0xFFFFFFFF.

Section Calls.
(** The objects: behind the internal reference, and their types. *)
Context `{NH : NsHost W} (w : W) (object_type : Z -> Z).
Context {U : Type} (read_lock read_unlock : U -> U * Z).

Definition uacpi_object_get_type_bit (obj : Z) : Z := u32 (1 <<< object_type obj).
Definition uacpi_object_is_one_of (obj type_mask : Z) : bool := truthy (uacpi_object_get_type_bit obj &&& type_mask).

(** The type of the node's object, for a node that is there. *)
Definition uacpi_namespace_node_type_unlocked (s : nodes) (node : Z) : Z * option Z :=
  if node =? 0 then (UACPI_STATUS_INVALID_ARGUMENT, None)
  else
    match uacpi_namespace_node_get_object w s node with
    | Some obj => if obj =? 0 then (UACPI_STATUS_NOT_FOUND, None) else (UACPI_STATUS_OK, Some (object_type obj))
    | None => (UACPI_STATUS_NOT_FOUND, None)
    end.

(** [None]: an error, and the result is left alone. *)
Definition uacpi_namespace_node_is_one_of_unlocked (s : nodes) (type_mask node : Z) : option bool :=
  if node =? 0 then None
  else
    obj ← uacpi_namespace_node_get_object w s node;
    if obj =? 0 then None else Some (uacpi_object_is_one_of obj type_mask).

Definition uacpi_namespace_for_each_child (fuel : nat) (init_level : Z) (s : nodes) (par : Z) (descending ascending : option (U -> Z -> Z -> U * Z)) (type_mask max_depth : Z) (user : U) : option (Z * U) :=
  uacpi_namespace_do_for_each_child true read_lock read_unlock descending ascending (uacpi_namespace_node_is_one_of_unlocked s type_mask) max_depth true fuel init_level s par user.

Definition uacpi_namespace_for_each_child_simple (fuel : nat) (init_level : Z) (s : nodes) (par : Z) (callback : U -> Z -> Z -> U * Z) (user : U) : option (Z * U) :=
  uacpi_namespace_do_for_each_child true read_lock read_unlock (Some callback) None (uacpi_namespace_node_is_one_of_unlocked s UACPI_OBJECT_ANY_BIT) UACPI_MAX_DEPTH_ANY true fuel init_level s par user.

Definition uacpi_namespace_node_next (init_level : Z) (s : nodes) (par it : Z) (u : U) : option (Z * Z * U) :=
  uacpi_namespace_node_next_typed read_lock read_unlock (uacpi_namespace_node_is_one_of_unlocked s UACPI_OBJECT_ANY_BIT) init_level s par it u.
End Calls.

Lemma one_given {A B} (f g : option A) (x y : B) : is_Some f \/ is_Some g -> match f, g with None, None => x | _, _ => y end = y.
Proof. intros [[? ->]|[? ->]]; [done|by destruct f]. Qed.

(** C6: [uacpi_namespace_do_for_each_child], a loop over the links between nodes, is the
    recursive depth-first traversal of the trees below its scope: each node of a wanted type
    is given to the descending callback before its children and to the ascending one after
    them, with its depth; the children of a node at [max_depth], of a temporary node when
    only permanent ones are wanted, or of one the callback skipped are left out; a break, an
    unknown decision or a lock that fails ends it there.  It takes two rounds for each node
    and one more, so it ends. *)
Theorem for_each_is_traversal `{NsRoot} {U} should_lock (read_lock read_unlock : U -> U * Z) descending ascending is_one_of max_depth permanent_only s C node n ts fuel level user :
  ns_inv s C -> (forall p, is_Some (s !! p) -> is_Some (is_one_of p)) -> 1 <= max_depth < 2 ^ 32 ->
  UACPI_INIT_LEVEL_SUBSYSTEM_INITIALIZED <= level -> is_Some descending \/ is_Some ascending ->
  s !! node = Some n -> addr <$> ts = C node -> Forall (shaped C) ts -> (2 * forest_size ts < fuel)%nat ->
  uacpi_namespace_do_for_each_child should_lock read_lock read_unlock descending ascending is_one_of max_depth permanent_only fuel level s node user =
    let '(user, ret) := locking should_lock read_lock user in
    Some (if negb (ret =? UACPI_STATUS_OK) then (ret, user)
          else match visits should_lock read_lock read_unlock descending ascending is_one_of max_depth permanent_only s ts 1 user with
               | inl r => r
               | inr user => walk_out should_lock read_unlock UACPI_STATUS_OK user
               end).
Proof.
  intros Hinv Htypes Hmax Hlevel Hcb Hn Hts Hsh Hfuel. unfold uacpi_namespace_do_for_each_child. rewrite (proj2 (Z.ltb_ge _ _) Hlevel).
  assert (Hn0 : node <> 0) by (intros ->; by rewrite (iv_null _ _ Hinv) in Hn). rewrite (proj2 (Z.eqb_neq _ _) Hn0), (proj2 (Z.eqb_neq max_depth 0)) by lia. cbn [orb].
  rewrite Hn. cbn [mbind option_bind].
  rewrite one_given by done. destruct (locking should_lock read_lock user) as [u ret]. destruct (negb (ret =? UACPI_STATUS_OK)); [done|].
  pose proof (iv_linked _ _ Hinv node n Hn) as Hl. rewrite <- Hts in Hl. destruct ts as [|t ts]; [cbn in Hl; by rewrite Hl|].
  pose proof Hl as (Hc & Hc0 & _). rewrite (proj2 (Z.eqb_neq (child n) 0)) by congruence.
  destruct (forest_run should_lock read_lock read_unlock descending ascending is_one_of max_depth permanent_only s C (t :: ts)) with (p := child n) (q := node) (m := false) (d := 1) (u := u)
    as (k & m & Hk & Hrun); [|done..|by eapply kids_here|lia|].
  { apply Forall_forall. intros t' _. by eapply tree_runs. }
  replace fuel with (k + S (fuel - k - 1))%nat by lia. rewrite Hrun.
  by destruct (visits _ _ _ _ _ _ _ _ s (t :: ts) 1 u).
Qed.

(** A walk over the sample namespace that writes down each node, marked on the way up. *)
Definition note (mark : Z) (u : list Z) (p d : Z) : list Z * Z := (u ++ [mark + p + d], UACPI_ITERATION_DECISION_CONTINUE).

Lemma for_each_is_traversal_witness :
  uacpi_namespace_do_for_each_child false (fun u => (u, 0)) (fun u => (u, 0)) (Some (note 0)) (Some (note 100000)) (fun _ => Some true) 0xFFFFFFFF true 5 3 demo_nodes 4096 [] =
    Some (UACPI_STATUS_OK, [8193; 8242; 108242; 108193]).
Proof.
  rewrite (for_each_is_traversal (H := demo_root)) with (C := demo_scopes) (n := Node 1 [92; 0; 0; 0] UACPI_NAMESPACE_NODE_PREDEFINED 0 0 8192 0) (ts := [Branch 8192 [Branch 8240 []]]).
  - vm_compute. reflexivity.
  - exact demo_inv.
  - intros p _. by eexists.
  - lia.
  - vm_compute. discriminate.
  - left. by eexists.
  - vm_compute. reflexivity.
  - reflexivity.
  - repeat constructor; reflexivity.
  - cbn. lia.
Defined.

(** ** One child after the other *)

Lemma next_loop_spec (is_one_of : Z -> option bool) s l p fuel : (forall q, is_Some (s !! q) -> is_Some (is_one_of q)) -> linked s p l -> (length l < fuel)%nat ->
  next_loop is_one_of fuel s p = Some (default 0 (List.find (shown is_one_of true s) l), UACPI_STATUS_OK).
Proof.
  intros Ht. revert p fuel. induction l as [|q l IH]; intros p [|fuel] Hl Hf; cbn [length] in Hf; try lia; cbn [next_loop]; [by rewrite Hl|].
  destruct Hl as (-> & Hq & n & Hn & Hl). rewrite (proj2 (Z.eqb_neq q 0) Hq), Hn. cbn [mbind option_bind List.find]. unfold shown at 1, temporary. rewrite Hn.
  cbn [fmap option_fmap option_map default from_option]; unfold id. destruct (Ht q) as [b Hb]; [by exists n|]. rewrite Hb. cbn [default from_option]; unfold id.
  destruct (uacpi_namespace_node_is_temporary n); [rewrite andb_false_r; apply IH; [done|lia]|].
  destruct b; [done|]. cbn [andb]. apply IH; [done|lia].
Qed.

(** Asking for the next child, starting with no node, gives the children of the wanted types
    in their order, one after the other, and [UACPI_STATUS_NOT_FOUND] at the end. *)
Theorem next_typed_in_order `{NsRoot} {U} (read_lock read_unlock : U -> U * Z) is_one_of s C par it n l1 l2 level u :
  ns_inv s C -> (forall p, is_Some (s !! p) -> is_Some (is_one_of p)) -> s !! par = Some n ->
  UACPI_INIT_LEVEL_SUBSYSTEM_INITIALIZED <= level -> (read_lock u).2 = UACPI_STATUS_OK ->
  it = 0 /\ l2 = C par \/ C par = l1 ++ it :: l2 ->
  uacpi_namespace_node_next_typed read_lock read_unlock is_one_of level s par it u =
    let u := (read_unlock (read_lock u).1).1 in
    Some (match List.find (shown is_one_of true s) l2 with Some p => (UACPI_STATUS_OK, p, u) | None => (UACPI_STATUS_NOT_FOUND, it, u) end).
Proof.
  intros Hinv Ht Hn Hlevel Hlock Hl. unfold uacpi_namespace_node_next_typed. rewrite (proj2 (Z.ltb_ge _ _) Hlevel).
  assert (Hp0 : par <> 0) by (intros ->; by rewrite (iv_null _ _ Hinv) in Hn). rewrite (proj2 (Z.eqb_neq _ _) Hp0). cbn [andb].
  destruct (read_lock u) as [u1 ret] eqn:Hu. cbn in Hlock. subst ret. cbn [negb Z.eqb UACPI_STATUS_OK fst].
  pose proof (iv_linked _ _ Hinv par n Hn) as Hlk. pose proof (scope_bound s C par Hinv) as Hb.
  assert (Hgo : exists m q, s !! (if it =? 0 then par else it) = Some m /\ (if it =? 0 then child m else next m) = q /\ linked s q l2 /\ (length l2 < rounds s)%nat).
  { destruct Hl as [[-> ->]|Hl]; [exists n, (child n); by split_and!|]. rewrite Hl in Hlk. apply linked_app in Hlk as [(_ & Hi & m & Hm & Hlk) _].
    rewrite (proj2 (Z.eqb_neq _ _) Hi). exists m, (next m). split_and!; [done..|]. rewrite Hl, length_app in Hb. cbn in Hb. lia. }
  destruct Hgo as (m & q & Hm & Hq & Hlk2 & Hlen). rewrite Hm. cbn [mbind option_bind]. rewrite Hq, (next_loop_spec _ _ l2) by done. cbn [mbind option_bind].
  destruct (List.find _ l2) as [p|] eqn:Hf; [|done]. cbn. apply find_some in Hf as [Hin _]. apply list_elem_of_In in Hin.
  destruct (linked_elem _ _ _ _ Hlk2 Hin) as [Hp _]. by rewrite (proj2 (Z.eqb_neq _ _) Hp).
Qed.
