(* ===== verification/AcpiNsWipe.v ===== *)
(** * Taking the namespace down, [uacpi_deinitialize_namespace] of [src/src/uacpi/namespace.c]

    The namespace is taken apart from its leaves with a loop that keeps only two nodes and a
    depth: a node's children are removed once every one of them has lost its own.  It is
    proved to end and to leave behind only what someone still refers to. *)

From S2P Require Import Prelude Mem CString KernelApi AcpiField AcpiRegion AcpiGas AcpiRegs AcpiLock AcpiFmt AcpiFmtProps AcpiNs AcpiNsProps AcpiNsTree AcpiNsIter.

(** What the end of the namespace calls besides: its lock, and the objects kept in the
    runtime context. *)
Class NsEnd (W : Type) := {
  ne_write_lock : W -> W * Z;
  ne_write_unlock : W -> W;
  ne_lock_deinit : W -> W;
  ne_mutex_unref : W -> Z -> W }.

Record ns_context := NsContext { root_object : Z; global_lock_mutex : Z }.

Section Deinitialize.
Context `{NR : NsRoot} {W : Type} `{NH : NsHost W} `{NE : NsEnd W}.

(** The children of a node, one after the other; what uninstalling answers is ignored. *)
Fixpoint wipe (fuel : nat) (w : W) (s : nodes) (current : Z) : option (W * nodes) :=
  match fuel with
  | O => None
  | S f =>
    n ← s !! current;
    if child n =? 0 then Some (w, s)
    else '(_, w, s) ← uacpi_namespace_node_uninstall w s (child n); wipe f w s current
  end.

Record walk := Walk { wk_depth : Z; wk_current : Z; wk_next : Z; wk_world : W; wk_nodes : nodes }.

Definition deinit_round (k : walk) : option (W * nodes) + walk :=
  let 'Walk d current nxt w s := k in
  if d =? 0 then inl (Some (w, s))
  else
    match (if nxt =? 0 then child <$> s !! current else next <$> s !! nxt) with
    | None => inl None
    | Some nxt =>
      if nxt =? 0 then
        match wipe (rounds s) w s current with
        | None => inl None
        | Some (w, s) =>
          match s !! current with
          | None => inl None
          | Some n => inr (Walk (u32 (d - 1)) (parent n) current w s)
          end
        end
      else
        match s !! nxt with
        | None => inl None
        | Some n => if negb (child n =? 0) then inr (Walk (u32 (d + 1)) nxt 0 w s) else inr (Walk d current nxt w s)
        end
    end.

Definition uacpi_deinitialize_namespace (fuel : nat) (w : W) (s : nodes) (ctx : ns_context) : option (W * nodes * ns_context) :=
  let '(w, ret) := ne_write_lock w in
  r ← wloop fuel deinit_round (Walk 1 uacpi_namespace_root 0 w s);
  '(w, s) ← r;
  '(w, s) ← namespace_node_detach_object w s uacpi_namespace_root;
  '(w, s) ← free_namespace_node w s uacpi_namespace_root;
  let w := if ret =? UACPI_STATUS_OK then ne_write_unlock w else w in
  '(w, s) ← uacpi_object_unref w s (root_object ctx);
  let w := ne_mutex_unref w (global_lock_mutex ctx) in
  Some (ne_lock_deinit w, s, NsContext 0 0).

(** What the lock and the mutex promise: they hold no references to nodes. *)
Record end_ok (held : W -> Z -> Z) : Prop := {
  eo_lock w q : held (ne_write_lock w).1 q = held w q;
  eo_unlock w q : held (ne_write_unlock w) q = held w q;
  eo_deinit w q : held (ne_lock_deinit w) q = held w q;
  eo_mutex w m q : held (ne_mutex_unref w m) q = held w q }.

Context (held : W -> Z -> Z) (Hho : host_ok held) (ext : Z -> Z).

(** ** Nodes before and after *)

(** A node of the tree that stays: but for its links and its count it is as it was. *)
Definition kept (C : Z -> list Z) (s s' : nodes) (q : Z) : Prop := forall m, s !! q = Some m -> in_tree C q m -> exists m', s' !! q = Some m' /\ same_place m m'.

(** The nodes of [D] leave the tree and no others. *)
Definition leave (D : list Z) (C C' : Z -> list Z) : Prop := forall q, (q ∉ D -> forall x, q ∈ C x -> q ∈ C' x) /\ (q ∈ D -> forall x, q ∉ C' x).

Lemma leave_in_tree D C C' q m m' : leave D C C' -> q ∉ D -> in_tree C q m -> parent m' = parent m -> in_tree C' q m'.
Proof. intros HD Hq [->|Hm] E; [by left|right]. rewrite E. by apply (proj1 (HD q)). Qed.

Lemma stays_trans D C C1 s1 s2 s3 q : leave D C C1 -> q ∉ D -> kept C s1 s2 q -> kept C1 s2 s3 q -> kept C s1 s3 q.
Proof.
  intros HD Hq H1 H2 m Hm Ht. destruct (H1 m Hm Ht) as (m2 & Hm2 & Ha & Hb & Hc & He). destruct (H2 m2 Hm2) as (m3 & Hm3 & ? & ? & ? & ?); [by eapply leave_in_tree|].
  exists m3. split; [done|]. unfold same_place. split_and!; congruence.
Qed.

(** What a part of the walk did: the scope of [p] is empty, the nodes of [D] have left the tree
    and have no scopes, all others and their scopes are there; the references are in balance. *)
Record wiped (p : Z) (D : list Z) (w' : W) (s s' : nodes) (C C' : Z -> list Z) : Prop := {
  wd_inv : ns_inv s' C';
  wd_ledger : ledger (held w') ext s' C';
  wd_scope : C' p = [];
  wd_empty q : q ∈ D -> C' q = [];
  wd_others q : q <> p -> q ∉ D -> C' q = C q;
  wd_shrink q : C' q = C q \/ C' q = [];
  wd_leave : leave D C C';
  wd_kept q : q ∉ D -> kept C s s' q;
  wd_static : static_kept s s' }.

Lemma wiped_refl p w s C : ns_inv s C -> ledger (held w) ext s C -> C p = [] -> wiped p [] w s s C C.
Proof.
  intros Hi Hl HC. split; try done; [by intros q Hq%elem_of_nil|by left|split; [done|by intros Hq%elem_of_nil]|by intros q _ m Hm; exists m|apply static_refl].
Qed.

Lemma uninstalled_leave s C c p l : ns_inv s C -> C p = c :: l -> leave [c] C (set_scope C p l).
Proof.
  intros Hi HC q. rewrite not_elem_of_cons, list_elem_of_singleton. pose proof (iv_nodup _ _ Hi p) as Hnd. rewrite HC in Hnd. apply NoDup_cons in Hnd as [Hcl _]. split.
  - intros [Hq _] x Hx. unfold set_scope. case_decide; [|done]. subst x. rewrite HC in Hx. by apply elem_of_cons in Hx as [->|].
  - intros -> x. unfold set_scope. case_decide as E; [done|]. intros Hx. apply E. eapply scopes_apart; [done|exact Hx|]. rewrite HC. constructor.
Qed.

Lemma wipe_spec l : forall w s C p n fuel, ns_inv s C -> ledger (held w) ext s C -> C p = l -> s !! p = Some n -> in_tree C p n -> Forall (fun c => C c = []) l -> (length l < fuel)%nat ->
  exists w' s' C', wipe fuel w s p = Some (w', s') /\ wiped p l w' s s' C C'.
Proof.
  induction l as [|c l IH]; intros w s C p n [|fuel] Hi Hg HC Hn Ht Hl Hf; cbn [length] in Hf; try lia; cbn [wipe]; rewrite Hn; cbn [mbind option_bind].
  - pose proof (iv_linked _ _ Hi p n Hn) as Hlk. rewrite HC in Hlk. rewrite Hlk. exists w, s, C. split; [done|]. by apply wiped_refl.
  - pose proof (iv_linked _ _ Hi p n Hn) as Hlk. rewrite HC in Hlk. destruct Hlk as (-> & Hc0 & cn & Hcn & _). rewrite (proj2 (Z.eqb_neq c 0) Hc0).
    apply Forall_cons in Hl as [HCc Hl]. pose proof (iv_linked _ _ Hi c cn Hcn) as Hlc. rewrite HCc in Hlc. cbn in Hlc.
    assert (Hin : c ∈ C p) by (rewrite HC; constructor). destruct (iv_parent _ _ Hi p c cn Hin Hcn) as [Hpar _].
    destruct (uninstall_spec held Hho ext w s C c cn [] l Hi Hg) as (w1 & s1 & E & Hi1 & Hg1 & Hst & Hk & _); [split; [done|by rewrite Hpar]|done|]. rewrite E. cbn [mbind option_bind]. rewrite Hpar in Hi1, Hg1. cbn [app] in Hi1, Hg1.
    assert (Hcp : c <> p) by (intros ->; congruence). assert (Hpl : p ∉ l) by (intros H; rewrite Forall_forall in Hl; specialize (Hl p H); congruence).
    pose proof (uninstalled_leave s C c p l Hi HC) as Hlv. destruct (Hk p n) as (n1 & Hn1 & _ & _ & _ & Hpar1); [done..|].
    assert (Hpc : p ∉ [c]) by (by rewrite list_elem_of_singleton). pose proof (leave_in_tree _ _ _ p n n1 Hlv Hpc Ht Hpar1) as Ht1.
    destruct (IH w1 s1 (set_scope C p l) p n1 fuel Hi1 Hg1) as (w2 & s2 & C2 & -> & [? ? HCp He Ho Hsh Hlv2 Hkk Hss]); [apply set_scope_eq|done|done| |lia|].
    { rewrite Forall_forall in *. intros x Hx. rewrite set_scope_ne; [by apply Hl|]. by intros ->. }
    exists w2, s2, C2. split; [done|]. split; try done.
    + intros q [->|Hq]%elem_of_cons; [|by apply He]. destruct (Hsh c) as [->|]; [by rewrite set_scope_ne|done].
    + intros q Hq [_ Hqd]%not_elem_of_cons. rewrite Ho by done. by rewrite set_scope_ne.
    + intros q. destruct (decide (q = p)) as [->|]; [by right|]. destruct (Hsh q) as [->|]; [|by right]. left. by rewrite set_scope_ne.
    + intros q. split.
      * intros [Hqc Hq]%not_elem_of_cons x Hx. apply (Hlv2 q); [done|]. apply (Hlv q); [by rewrite list_elem_of_singleton|done].
      * intros Hq x. destruct (decide (q ∈ l)) as [Hql|Hql]; [by apply (Hlv2 q)|]. apply elem_of_cons in Hq as [->|]; [|done].
        destruct (Hsh x) as [->| ->]; [apply (Hlv c); constructor|apply not_elem_of_nil].
    + intros q [Hqc Hq]%not_elem_of_cons. apply (stays_trans [c] C (set_scope C p l) s s1); [done|by rewrite list_elem_of_singleton| |by apply Hkk]. intros m Hm. by apply Hk.
    + by eapply static_trans.
Qed.

(** ** The walk over a tree *)

Fixpoint flat (t : tree) : list Z := match t with Branch p ts => p :: foldr (fun t l => flat t ++ l) [] ts end.
Definition flats (ts : list tree) : list Z := foldr (fun t l => flat t ++ l) [] ts.

Lemma flat_flats t ts q : t ∈ ts -> q ∈ flat t -> q ∈ flats ts.
Proof. induction ts as [|x ts IH]; intros Ht Hq; [by apply elem_of_nil in Ht|]. cbn. apply elem_of_app. apply elem_of_cons in Ht as [->|Ht]; [by left|right; by apply IH]. Qed.

Lemma shaped_ext C C' t : shaped C t -> (forall q, q ∈ flat t -> C' q = C q) -> shaped C' t.
Proof.
  induction t as [p ts IH] using tree_ind'. intros Hs HC. inversion Hs as [? ? Hts Hsub]; subst. constructor; [rewrite HC; [done|constructor]|].
  assert (Hf : forall q, q ∈ flats ts -> C' q = C q) by (intros q Hq; apply HC; by constructor). clear HC Hs Hts.
  induction ts as [|t ts IHts]; [constructor|]. apply Forall_cons_1 in IH as [IH1 IH], Hsub as [Hs1 Hsub]. cbn [flats foldr] in Hf.
  constructor; [apply IH1; [done|]; intros q Hq; apply Hf, elem_of_app; by left|]. apply IHts; [done..|]. intros q Hq. apply Hf, elem_of_app. by right.
Qed.

(** Some rounds lead from one state to another. *)
Definition leads (k : nat) (a b : walk) : Prop := forall fuel, wloop (k + fuel) deinit_round a = wloop fuel deinit_round b.
Lemma leads_step a b : deinit_round a = inr b -> leads 1 a b.
Proof. intros H fuel. cbn. by rewrite H. Qed.
Lemma leads_trans k1 k2 a b c : leads k1 a b -> leads k2 b c -> leads (k1 + k2) a c.
Proof. intros H1 H2 fuel. by rewrite <- Nat.add_assoc, H1, H2. Qed.

Definition clears (t : tree) : Prop := forall d w s C n, ns_inv s C -> ledger (held w) ext s C -> shaped C t -> s !! addr t = Some n -> in_tree C (addr t) n -> NoDup (flat t) ->
  1 <= d -> d + Z.of_nat (tree_size t) < 2 ^ 32 ->
  exists k w' s' C', (k <= 2 * forest_size (kids_of t) + 1)%nat /\ leads k (Walk d (addr t) 0 w s) (Walk (d - 1) (parent n) (addr t) w' s') /\ wiped (addr t) (flats (kids_of t)) w' s s' C C'.

(** The next node to look at: the first child, or the one after the last child seen. *)
Lemma next_child s C p n seen l : ns_inv s C -> s !! p = Some n -> C p = seen ++ l ->
  (if default 0 (last seen) =? 0 then child <$> s !! p else next <$> s !! default 0 (last seen)) = Some (default 0 (head l)).
Proof.
  intros Hi Hn HC. pose proof (iv_linked _ _ Hi p n Hn) as Hl. rewrite HC in Hl. assert (Hhd : forall a, linked s a l -> a = default 0 (head l)) by (destruct l; [done|by intros a [-> _]]).
  destruct seen as [|z seen] using rev_ind; [cbn [last default from_option]; unfold id; change (0 =? 0) with true; cbv iota; rewrite Hn; exact (f_equal Some (Hhd _ Hl))|]. clear IHseen. rewrite last_snoc. cbn [default from_option]; unfold id.
  rewrite <- app_assoc in Hl. cbn [app] in Hl. apply linked_app in Hl as [(_ & Hz & zn & Hzn & Hl) _]. rewrite (proj2 (Z.eqb_neq z 0) Hz), Hzn. exact (f_equal Some (Hhd _ Hl)).
Qed.

Lemma scan_end p n seen d w s C : ns_inv s C -> ledger (held w) ext s C -> s !! p = Some n -> in_tree C p n -> C p = seen -> Forall (fun c => C c = []) seen -> p ∉ seen -> 1 <= d < 2 ^ 32 ->
  exists w' s' C', leads 1 (Walk d p (default 0 (last seen)) w s) (Walk (d - 1) (parent n) p w' s') /\ wiped p seen w' s s' C C'.
Proof.
  intros Hi Hg Hn Ht HC Hs Hp Hd. destruct (wipe_spec seen w s C p n (rounds s) Hi Hg HC Hn Ht) as (w' & s' & C' & E & Hw); [done|rewrite <- HC; by eapply scope_bound|].
  exists w', s', C'. split; [|done]. apply leads_step. unfold deinit_round. rewrite (proj2 (Z.eqb_neq d 0)) by lia. rewrite (next_child s C p n seen []) by (done || by rewrite app_nil_r).
  cbn [default head from_option]. change (0 =? 0) with true. cbv iota. rewrite E. destruct (wd_kept _ _ _ _ _ _ _ Hw p Hp n Hn Ht) as (n' & -> & _ & _ & _ & ->). by rewrite u32_small by lia.
Qed.

Lemma wiped_trans c p K seen R w1 w2 s s1 s2 C C1 C2 : wiped c K w1 s s1 C C1 -> wiped p (seen ++ c :: R) w2 s1 s2 C1 C2 -> (forall q, q ∈ K -> q ∉ seen ++ c :: R) ->
  wiped p (seen ++ c :: K ++ R) w2 s s2 C C2.
Proof.
  intros [Hi1 Hg1 Hc1 He1 Ho1 Hs1 Hl1 Hk1 Hd1] [Hi2 Hg2 Hc2 He2 Ho2 Hs2 Hl2 Hk2 Hd2] Hdis.
  assert (Hout : forall q, q ∉ seen ++ c :: K ++ R -> q ∉ K /\ q ∉ seen ++ c :: R /\ q <> c).
  { intros q. rewrite !not_elem_of_app, !not_elem_of_cons, !not_elem_of_app. tauto. }
  assert (Hin : forall q, q ∈ seen ++ c :: K ++ R -> q ∉ K -> q ∈ seen ++ c :: R).
  { intros q. rewrite !elem_of_app, !elem_of_cons, !elem_of_app. tauto. }
  split; try done.
  - intros q Hq. destruct (decide (q ∈ K)) as [HK|HK]; [|by apply He2, Hin]. destruct (Hs2 q) as [->|]; [by apply He1|done].
  - intros q Hq (HK & HR & Hc)%Hout. by rewrite Ho2, Ho1.
  - intros q. destruct (Hs2 q) as [->|]; [apply Hs1|by right].
  - intros q. split; [intros (HK & HR & _)%Hout x Hx; by apply (Hl2 q), (Hl1 q)|]. intros Hq x. destruct (decide (q ∈ K)) as [HK|HK]; [|by apply (Hl2 q), Hin].
    destruct (Hs2 x) as [->| ->]; [by apply (Hl1 q)|apply not_elem_of_nil].
  - intros q (HK & HR & _)%Hout. apply (stays_trans K C C1 s s1); [done|done|by apply Hk1|by apply Hk2].
  - by eapply static_trans.
Qed.

(** Looking at a child, and clearing what is below it. *)
Lemma scan_child t : clears t -> forall seen l d w s C p n, ns_inv s C -> ledger (held w) ext s C -> s !! p = Some n -> C p = seen ++ addr t :: l -> shaped C t -> NoDup (flat t) ->
  1 <= d -> d + 1 + Z.of_nat (tree_size t) < 2 ^ 32 ->
  exists k w' s' C', (k <= 2 * tree_size t)%nat /\ leads k (Walk d p (default 0 (last seen)) w s) (Walk d p (addr t) w' s') /\ wiped (addr t) (flats (kids_of t)) w' s s' C C'.
Proof.
  intros Ht seen l d w s C p n Hi Hg Hn HC Hsh Hnd Hd Hsz. assert (Hin : addr t ∈ C p) by (rewrite HC; apply elem_of_app; right; constructor).
  destruct (child_in s C p _ Hi Hin) as (Hc0 & [cn Hcn] & _). destruct (iv_parent _ _ Hi p _ cn Hin Hcn) as [Hpar _].
  assert (Hct : in_tree C (addr t) cn) by (right; by rewrite Hpar).
  assert (Hround : deinit_round (Walk d p (default 0 (last seen)) w s) = if negb (child cn =? 0) then inr (Walk (d + 1) (addr t) 0 w s) else inr (Walk d p (addr t) w s)).
  { unfold deinit_round. rewrite (proj2 (Z.eqb_neq d 0)), (next_child s C p n seen (addr t :: l)) by (done || lia). cbn [head default from_option]; unfold id.
    rewrite (proj2 (Z.eqb_neq _ 0) Hc0), Hcn. by rewrite u32_small by lia. }
  pose proof (iv_linked _ _ Hi _ cn Hcn) as Hl. destruct t as [c kids]. cbn [addr kids_of] in *. inversion Hsh as [? ? Hkids _]; subst. destruct kids as [|t0 kids].
  - rewrite <- Hkids in Hl. cbn in Hl. rewrite Hl in Hround. exists 1%nat, w, s, C. split; [cbn; lia|]. split; [by apply leads_step|]. by apply wiped_refl.
  - rewrite <- Hkids in Hl. destruct Hl as (Hch & Hch0 & _). rewrite (proj2 (Z.eqb_neq (child cn) 0)) in Hround by congruence. cbn [negb] in Hround.
    destruct (Ht (d + 1) w s C cn) as (k & w' & s' & C' & Hk & Hlead & Hw); [done..|lia|lia|]. cbn [addr kids_of] in *. rewrite Z.add_simpl_r in Hlead.
    exists (1 + k)%nat, w', s', C'. split; [cbn [tree_size]; fold (forest_size (t0 :: kids)); lia|]. split; [|done]. eapply leads_trans; [by apply leads_step|done].
Qed.

Lemma scan rest : Forall clears rest -> forall seen d w s C p n, ns_inv s C -> ledger (held w) ext s C -> s !! p = Some n -> in_tree C p n -> C p = seen ++ (addr <$> rest) ->
  Forall (fun c => C c = []) seen -> Forall (shaped C) rest -> NoDup (p :: seen ++ flats rest) -> 1 <= d -> d + 1 + Z.of_nat (forest_size rest) < 2 ^ 32 ->
  exists k w' s' C', (k <= 2 * forest_size rest + 1)%nat /\ leads k (Walk d p (default 0 (last seen)) w s) (Walk (d - 1) (parent n) p w' s') /\ wiped p (seen ++ flats rest) w' s s' C C'.
Proof.
  induction 1 as [|t rest Ht _ IH]; intros seen d w s C p n Hi Hg Hn Hpt HC Hseen Hsh Hnd Hd Hsz.
  - cbn in *. rewrite app_nil_r in *. destruct (scan_end p n seen d w s C) as (w' & s' & C' & ? & ?); [done..|by apply NoDup_cons in Hnd as []|lia|]. exists 1%nat, w', s', C'. by split_and!.
  - apply Forall_cons_1 in Hsh as [Hsh1 Hsh]. cbn [fmap list_fmap flats foldr forest_size] in *. fold (forest_size rest) in *. fold (flats rest) in *. apply NoDup_cons in Hnd as [Hp Hnd].
    pose proof Hnd as (Hnds & Hnd1 & Hnd2)%NoDup_app. pose proof Hnd2 as (Hndt & Hnd3 & Hndr)%NoDup_app.
    destruct (scan_child t Ht seen (addr <$> rest) d w s C p n) as (k1 & w1 & s1 & C1 & Hk1 & Hl1 & Hw1); [done..|lia|].
    destruct t as [c kids]. cbn [addr kids_of flat] in *. fold (flats kids) in *. apply NoDup_cons in Hndt as [Hck HndK].
    assert (HpK : p ∉ flats kids /\ p <> c) by (rewrite !not_elem_of_app, not_elem_of_cons in Hp; tauto). destruct HpK as [HpK Hpc].
    destruct (wd_kept _ _ _ _ _ _ _ Hw1 p HpK n Hn Hpt) as (n1 & Hn1 & _ & _ & _ & Hpar1).
    destruct (IH (seen ++ [c]) d w1 s1 C1 p n1) as (k2 & w2 & s2 & C2 & Hk2 & Hl2 & Hw2); [apply Hw1|apply Hw1|done| | | | | |done|lia|].
    + eapply leave_in_tree; [apply (wd_leave _ _ _ _ _ _ _ Hw1)|done..].
    + rewrite (wd_others _ _ _ _ _ _ _ Hw1) by done. by rewrite HC, <- app_assoc.
    + apply Forall_app. split; [|apply Forall_singleton, (wd_scope _ _ _ _ _ _ _ Hw1)]. rewrite Forall_forall in *. intros x Hx. destruct (wd_shrink _ _ _ _ _ _ _ Hw1 x) as [E|E]; [rewrite E; by apply Hseen|done].
    + rewrite Forall_forall in *. intros t' Ht'. apply shaped_ext with C; [by apply Hsh|]. intros q Hq. assert (HqR : q ∈ flats rest) by (by eapply flat_flats).
      apply (wd_others _ _ _ _ _ _ _ Hw1); intros Hbad; apply (Hnd3 q); try done; [subst q|]; by constructor.
    + rewrite <- app_assoc. cbn [app]. apply NoDup_cons. split; [rewrite !not_elem_of_app, not_elem_of_cons in Hp; rewrite not_elem_of_app, not_elem_of_cons; tauto|].
      apply NoDup_app. split; [done|]. split; [intros x Hx Hx'; apply (Hnd1 x Hx); rewrite elem_of_app, elem_of_cons; rewrite elem_of_cons in Hx'; tauto|]. apply NoDup_cons. split; [|done]. apply Hnd3. constructor.
    + rewrite last_snoc, Hpar1 in Hl2. rewrite <- app_assoc in Hw2. exists (k1 + k2)%nat, w2, s2, C2. split; [lia|]. split; [by eapply leads_trans|].
      apply (wiped_trans c p (flats kids) seen (flats rest) w1 w2 s s1 s2 C C1 C2 Hw1 Hw2). intros q HqK. rewrite not_elem_of_app, not_elem_of_cons. split; [intros Hqs; apply (Hnd1 q Hqs), elem_of_app; left; by constructor|].
      split; [by intros ->|]. apply Hnd3. by constructor.
Qed.

Lemma root_loose s C q : ns_inv s C -> uacpi_namespace_root ∈ C q -> False.
Proof.
  intros Hi Hq. destruct (iv_root _ _ Hi) as (n & Hn & Hp). destruct (iv_parent _ _ Hi q _ n Hq Hn) as [E _]. rewrite Hp in E. subst q.
  rewrite (iv_none _ _ Hi 0 (iv_null _ _ Hi)) in Hq. by apply elem_of_nil in Hq.
Qed.

Lemma clears_all t : clears t.
Proof.
  induction t as [p ts IH] using tree_ind'. intros d w s C n Hi Hg Hsh Hn Ht Hnd Hd Hsz. inversion Hsh as [? ? Hts Hsub]; subst. cbn [addr kids_of flat tree_size] in *. fold (forest_size ts) in *.
  destruct (scan ts IH [] d w s C p n) as (k & w' & s' & C' & Hk & Hl & Hw); [done..|lia|]. by exists k, w', s', C'.
Qed.

(** The root is static: it is emptied and stays, with its count. *)
Lemma free_root w s C n : ns_inv s C -> ledger (held w) ext s C -> s !! uacpi_namespace_root = Some n -> uacpi_namespace_node_is_predefined n = true -> C uacpi_namespace_root = [] ->
  exists s', free_namespace_node w s uacpi_namespace_root = Some (w, s') /\ ns_inv s' C /\ ledger (held w) ext s' C /\ static_kept s s' /\
    s' !! uacpi_namespace_root = Some (Node (reference_count n) (name n) UACPI_NAMESPACE_NODE_PREDEFINED 0 0 0 0).
Proof.
  intros Hi Hg Hn Hpre HC. unfold free_namespace_node. rewrite Hn. cbn [mbind option_bind]. rewrite Hpre. cbn [negb]. eexists. split; [reflexivity|].
  split; [eapply outside_insert; try done; intros q Hq; by eapply root_loose|]. split; [|split; [by eapply static_insert|apply lookup_insert_eq]].
  pose proof (lg_nonneg _ _ _ _ Hg uacpi_namespace_root). eapply ledger_insert; try done; try tauto; [|by apply (lg_width _ _ _ _ Hg _ _ Hn)].
  cbn. rewrite (lg_count _ _ _ _ Hg _ _ Hn). unfold tree_ref. by rewrite !decide_True by (by left).
Qed.
End Deinitialize.

(** C7: [uacpi_deinitialize_namespace] ends, after two rounds for each node and two more, and
    takes the whole namespace down: no scope below the root has a node left; of the nodes that
    were in the tree, the static ones aside, exactly those that a field unit or someone outside
    still refers to are stored, the others are freed, also those whose last references go with
    the field units freed on the way; no new ones appear, every count is the number of references
    left, and the root, whose object is detached, is as it was before the namespace was set
    up.  The objects and locks keep their own books ([host_ok], [end_ok]). *)
Theorem namespace_torn_down `{NsRoot} {W} `{NsHost W} `{NsEnd W} held ext w s C ts n ctx fuel :
  host_ok held -> end_ok held -> ns_inv s C -> ledger (held w) ext s C -> s !! uacpi_namespace_root = Some n -> uacpi_namespace_node_is_predefined n = true ->
  shaped C (Branch uacpi_namespace_root ts) -> NoDup (flat (Branch uacpi_namespace_root ts)) -> Z.of_nat (forest_size ts) < 2 ^ 32 - 2 -> (2 * forest_size ts + 1 < fuel)%nat ->
  exists w' s' C', uacpi_deinitialize_namespace fuel w s ctx = Some (w', s', NsContext 0 0) /\ ns_inv s' C' /\ ledger (held w') ext s' C' /\
    s' !! uacpi_namespace_root = Some (Node (held w' uacpi_namespace_root + 1 + ext uacpi_namespace_root) (name n) UACPI_NAMESPACE_NODE_PREDEFINED 0 0 0 0) /\
    (forall q, q ∈ flat (Branch uacpi_namespace_root ts) -> C' q = [] /\ forall x, q ∉ C' x) /\
    (forall q m, q ∈ flats ts -> s !! q = Some m -> uacpi_namespace_node_is_predefined m = false -> (s' !! q = None <-> held w' q + ext q = 0)) /\
    static_kept s s'.
Proof.
  intros Hho Heo Hi Hg Hn Hpre Hsh Hnd Hsz Hf. unfold uacpi_deinitialize_namespace. pose proof (fun q => eo_lock held Heo w q) as Hlk. destruct (ne_write_lock w) as [w0 ret]. cbn [fst] in Hlk.
  assert (Hrt : forall (C : Z -> list Z) m, in_tree C uacpi_namespace_root m) by (by left).
  destruct (clears_all held Hho ext (Branch uacpi_namespace_root ts) 1 w0 s C n) as (k & w1 & s1 & C1 & Hk & Hl & Hw); [done|by eapply ledger_ext|done..|cbn [tree_size]; fold (forest_size ts); lia|]. cbn [addr kids_of] in *.
  replace fuel with (k + S (fuel - k - 1))%nat by lia. rewrite Hl. cbn [wloop deinit_round mbind option_bind]. change (1 - 1 =? 0) with true. cbv iota. cbn [mbind option_bind].
  destruct Hw as [Hi1 Hg1 Hc1 He1 _ _ Hl1 Hk1 Hs1]. apply NoDup_cons in Hnd as [Hr Hnd]. fold (flats ts) in *.
  destruct (Hk1 _ Hr n Hn (Hrt _ _)) as (n1 & Hn1 & Hname & _). pose proof (proj2 Hs1 _ _ _ Hn Hn1) as Hp1. rewrite Hpre in Hp1.
  destruct (detach_spec held Hho ext w1 s1 C1 _ n1 Hi1 Hg1 Hn1 (Hrt _ _)) as (w2 & s2 & o & c & t & -> & Es2 & Ht & [_ Hst] & Hi2 & Hg2). cbn [mbind option_bind].
  assert (Hs2 : static_kept s1 s2) by (eapply static_trans; [exact Hst|]; rewrite Es2; by eapply static_insert).
  assert (Hn2 : s2 !! uacpi_namespace_root = Some (n1 <| object := o |> <| reference_count := c |>)) by (rewrite Es2; apply lookup_insert_eq).
  destruct (free_root held ext w2 s2 C1 _ Hi2 Hg2 Hn2 Hp1 Hc1) as (s3 & -> & Hi3 & Hg3 & Hs3 & Hn3). cbn [mbind option_bind].
  set (w3 := if ret =? UACPI_STATUS_OK then ne_write_unlock w2 else w2). assert (Hw3 : forall q, held w3 q = held w2 q) by (intros q; subst w3; destruct (ret =? UACPI_STATUS_OK); [by apply eo_unlock|done]).
  destruct (object_unref_ledger held Hho ext w3 s3 C1 (root_object ctx) Hi3) as (w4 & s4 & -> & Hi4 & Hg4 & [Hr4 Hs4]); [by eapply ledger_ext|]. cbn [mbind option_bind].
  destruct (Hr4 _ _ Hn3 (Hrt _ _)) as [c4 Hc4]. set (w5 := ne_lock_deinit (ne_mutex_unref w4 (global_lock_mutex ctx))). assert (Hw5 : forall q, held w5 q = held w4 q) by (intros q; subst w5; by rewrite eo_deinit, eo_mutex).
  assert (Hg5 : ledger (held w5) ext s4 C1) by (by eapply ledger_ext). assert (Hall : static_kept s s4) by (repeat (eapply static_trans; [eassumption|]); apply static_refl).
  exists w5, s4, C1. split; [done|]. split; [done|]. split; [done|]. split; [|split; [|split; [|done]]].
  - rewrite Hc4. pose proof (lg_count _ _ _ _ Hg5 _ _ Hc4) as Hcnt. unfold tree_ref in Hcnt. rewrite (decide_True _ _ (Hrt _ _)) in Hcnt. cbn in Hcnt |- *. by rewrite Hname, Hcnt.
  - intros q [->|Hq]%elem_of_cons; [split; [done|]; intros x Hx; by eapply root_loose|]. split; [by apply He1|by apply (Hl1 q)].
  - intros q m Hq Hm Hnp. split; [intros Habs; destruct (lg_absent _ _ _ _ Hg5 q Habs); lia|]. intros H0'. destruct (s4 !! q) as [m'|] eqn:Em; [|done].
    pose proof (proj2 Hall q m m' Hm Em) as Hpm. rewrite Hnp in Hpm. pose proof (lg_live _ _ _ _ Hg5 q m' Em Hpm) as Hpos. rewrite (lg_count _ _ _ _ Hg5 q m' Em) in Hpos.
    unfold tree_ref in Hpos. rewrite decide_False in Hpos; [lia|]. intros [->|Hin]; [done|]. by apply (Hl1 q) in Hin.
Qed.

(** A lock that is always granted. *)
Definition no_locks {W : Type} : NsEnd W := {| ne_write_lock w := (w, 0); ne_write_unlock w := w; ne_lock_deinit w := w; ne_mutex_unref w _ := w |}.

Lemma namespace_torn_down_witness :
  exists w' s', uacpi_deinitialize_namespace (NR := demo_root) (NH := field_objects) (NE := no_locks) 6 [(77, [8288])] field_nodes (NsContext 1 2) = Some (w', s', NsContext 0 0) /\
    s' !! 8240 = None /\ s' !! 8288 = None /\ child <$> s' !! 4096 = Some 0.
Proof.
  destruct (namespace_torn_down (H := demo_root) (H0 := field_objects) (H1 := no_locks) field_refs (fun _ => 0) [(77, [8288])] field_nodes demo_scopes [Branch 8192 [Branch 8240 []]]
    (Node 1 [92; 0; 0; 0] UACPI_NAMESPACE_NODE_PREDEFINED 0 0 8192 0) (NsContext 1 2) 6) as (w' & s' & C' & E & _ & Hl & Hr & _ & Hg & Hs).
  - exact field_objects_ok.
  - by split.
  - exact field_inv.
  - exact field_ledger.
  - reflexivity.
  - reflexivity.
  - repeat constructor; reflexivity.
  - apply (bool_decide_unpack _). vm_compute. exact I.
  - cbn. lia.
  - cbn. lia.
  - assert (Ew : w' = []) by (vm_compute in E; by injection E as <- _). subst w'. exists [], s'. split; [exact E|]. split; [|split; [|exact (f_equal (fmap child) Hr)]].
    + eapply (Hg 8240); [|reflexivity|reflexivity|reflexivity]. apply (bool_decide_unpack _). vm_compute. exact I.
    + assert (is_Some (s' !! 8288) -> False) as Hn; [|by destruct (s' !! 8288); [destruct Hn; eexists|]]. vm_compute in E. injection E as <-. by intros [? ?].
Defined.
