(* ===== verification/AcpiNsInit.v ===== *)
(** * Setting the namespace up, [uacpi_initialize_namespace] of [src/src/uacpi/namespace.c]

    The ten predefined nodes get their objects, and all but the root (and [\_OSI] when the
    user does not want it) are installed below the root.  What objects are made of belongs to
    [types.c] and is a parameter ([NsMake]). *)

From S2P Require Import Prelude Mem CString KernelApi AcpiField AcpiRegion AcpiGas AcpiRegs AcpiLock AcpiFmt AcpiFmtProps AcpiNs AcpiNsProps AcpiNsTree AcpiNsIter AcpiNsWipe.
From stdpp Require Import strings.
Open Scope Z_scope.

Definition UACPI_PREDEFINED_NAMESPACE_ROOT : Z := 0.
Definition UACPI_PREDEFINED_NAMESPACE_GPE : Z := 1.
Definition UACPI_PREDEFINED_NAMESPACE_PR : Z := 2.
Definition UACPI_PREDEFINED_NAMESPACE_SB : Z := 3.
Definition UACPI_PREDEFINED_NAMESPACE_SI : Z := 4.
Definition UACPI_PREDEFINED_NAMESPACE_TZ : Z := 5.
Definition UACPI_PREDEFINED_NAMESPACE_GL : Z := 6.
Definition UACPI_PREDEFINED_NAMESPACE_OS : Z := 7.
Definition UACPI_PREDEFINED_NAMESPACE_OSI : Z := 8.
Definition UACPI_PREDEFINED_NAMESPACE_REV : Z := 9.
Definition UACPI_PREDEFINED_NAMESPACE_MAX : Z := UACPI_PREDEFINED_NAMESPACE_REV.

Definition UACPI_OBJECT_UNINITIALIZED : Z := 0.
Definition UACPI_OBJECT_INTEGER : Z := 1.
Definition UACPI_OBJECT_STRING : Z := 2.
Definition UACPI_OBJECT_DEVICE : Z := 6.
Definition UACPI_OBJECT_METHOD : Z := 8.
Definition UACPI_OBJECT_MUTEX : Z := 9.

Definition UACPI_REV_VALUE : Z := 2.
Definition UACPI_OS_VALUE : string := "Microsoft Windows NT".
Definition UACPI_FLAG_NO_OSI : Z := 1 <<< 4.

(** The names in [predefined_namespaces]. *)
Definition predefined_name (ns : Z) : list Z :=
  default [] ([[92; 0; 0; 0]; [95; 71; 80; 69]; [95; 80; 82; 95]; [95; 83; 66; 95]; [95; 83; 73; 95]; [95; 84; 90; 95]; [95; 71; 76; 95]; [95; 79; 83; 95]; [95; 79; 83; 73]; [95; 82; 69; 86]] !! Z.to_nat ns).

(** Objects: creating one of a type (0: no memory), the text of a string (whether there was
    memory), an integer, the mutex of an object with one more reference to it, a method that is
    [uacpi_osi], and an internal reference to an object. *)
Class NsMake (W : Type) := {
  nm_create_object : W -> Z -> W * Z;
  nm_set_text : W -> Z -> string -> W * bool;
  nm_set_integer : W -> Z -> Z -> W;
  nm_ref_mutex : W -> Z -> W * Z;
  nm_set_osi : W -> Z -> W;
  nm_create_internal_reference : W -> Z -> W * Z;
  nm_lock_init : W -> W * Z }.

Section Initialize.
Context `{NR : NsRoot} {W : Type} `{NH : NsHost W} `{NM : NsMake W}.

Definition make_object_for_predefined (w : W) (s : nodes) (ctx : ns_context) (ns : Z) : option (W * nodes * ns_context * Z) :=
  let made '(w, ctx, obj) := Some (w, s, ctx, obj) in
  if ns =? UACPI_PREDEFINED_NAMESPACE_ROOT then
    let '(w, root) := nm_create_object w UACPI_OBJECT_DEVICE in
    let ctx := NsContext root (global_lock_mutex ctx) in
    if root =? 0 then made (w, ctx, 0) else let '(w, obj) := nm_create_object w UACPI_OBJECT_UNINITIALIZED in made (w, ctx, obj)
  else if ns =? UACPI_PREDEFINED_NAMESPACE_OS then
    let '(w, obj) := nm_create_object w UACPI_OBJECT_STRING in
    if obj =? 0 then made (w, ctx, obj)
    else
      let '(w, ok) := nm_set_text w obj UACPI_OS_VALUE in
      if ok then made (w, ctx, obj) else '(w, s) ← uacpi_object_unref w s obj; Some (w, s, ctx, 0)
  else if ns =? UACPI_PREDEFINED_NAMESPACE_REV then
    let '(w, obj) := nm_create_object w UACPI_OBJECT_INTEGER in
    if obj =? 0 then made (w, ctx, obj) else made (nm_set_integer w obj UACPI_REV_VALUE, ctx, obj)
  else if ns =? UACPI_PREDEFINED_NAMESPACE_GL then
    let '(w, obj) := nm_create_object w UACPI_OBJECT_MUTEX in
    if obj =? 0 then made (w, ctx, obj) else let '(w, mutex) := nm_ref_mutex w obj in made (w, NsContext (root_object ctx) mutex, obj)
  else if ns =? UACPI_PREDEFINED_NAMESPACE_OSI then
    let '(w, obj) := nm_create_object w UACPI_OBJECT_METHOD in
    if obj =? 0 then made (w, ctx, obj) else made (nm_set_osi w obj, ctx, obj)
  else let '(w, obj) := nm_create_object w UACPI_OBJECT_UNINITIALIZED in made (w, ctx, obj).

(** The first loop: the world, the nodes, the context and the status. *)
Fixpoint init_objects (w : W) (s : nodes) (ctx : ns_context) (l : list Z) : option (W * nodes * ns_context * Z) :=
  match l with
  | [] => Some (w, s, ctx, UACPI_STATUS_OK)
  | ns :: l =>
    let node := uacpi_namespace_get_predefined ns in
    s ← set_node s node (fun n => n <| reference_count := uacpi_shareable_init |>);
    '(w, s, ctx, obj) ← make_object_for_predefined w s ctx ns;
    if obj =? 0 then Some (w, s, ctx, UACPI_STATUS_OUT_OF_MEMORY)
    else
      let '(w, ref) := nm_create_internal_reference w obj in
      s ← set_node s node (fun n => n <| object := ref |>);
      '(w, s) ← uacpi_object_unref w s obj;
      if ref =? 0 then Some (w, s, ctx, UACPI_STATUS_OUT_OF_MEMORY) else init_objects w s ctx l
  end.

(** The second loop; what installing answers is ignored. *)
Definition wanted (flags ns : Z) : bool := negb ((ns =? UACPI_PREDEFINED_NAMESPACE_OSI) && (flags &&& UACPI_FLAG_NO_OSI =? UACPI_FLAG_NO_OSI)).
Fixpoint install_predefined (flags : Z) (s : nodes) (l : list Z) : option nodes :=
  match l with
  | [] => Some s
  | ns :: l =>
    if wanted flags ns then '(_, s) ← uacpi_namespace_node_install s uacpi_namespace_root (uacpi_namespace_get_predefined ns); install_predefined flags s l
    else install_predefined flags s l
  end.

Definition uacpi_initialize_namespace (w : W) (s : nodes) (ctx : ns_context) (flags : Z) : option (W * nodes * ns_context * Z) :=
  let '(w, ret) := nm_lock_init w in
  if negb (ret =? UACPI_STATUS_OK) then Some (w, s, ctx, ret)
  else
    '(w, s, ctx, ret) ← init_objects w s ctx (seqZ UACPI_PREDEFINED_NAMESPACE_ROOT 10);
    if negb (ret =? UACPI_STATUS_OK) then Some (w, s, ctx, ret)
    else
      s ← install_predefined flags s (seqZ UACPI_PREDEFINED_NAMESPACE_GPE 9);
      Some (w, s, ctx, UACPI_STATUS_OK).

(** ** Before and after *)

Abbreviation predef := uacpi_namespace_get_predefined.

Lemma predef_eq ns : 0 <= ns <= 9 -> predef ns = predefined_namespaces + NODE_SIZE * ns.
Proof. intros H. unfold uacpi_namespace_get_predefined. by rewrite (proj2 (Z.ltb_ge 9 ns)) by lia. Qed.
Lemma predef_inj a b : 0 <= a <= 9 -> 0 <= b <= 9 -> predef a = predef b -> a = b.
Proof. intros Ha Hb. rewrite !predef_eq by done. unfold NODE_SIZE. lia. Qed.
Lemma predef_root : predef 0 = uacpi_namespace_root.
Proof. rewrite predef_eq by lia. unfold uacpi_namespace_root, NODE_SIZE. lia. Qed.

(** Nothing is linked, and the predefined nodes are as the program starts with them, objects
    and reference counts aside. *)
Record apart (s : nodes) : Prop := {
  ap_null : s !! 0 = None;
  ap_children p n : s !! p = Some n -> child n = 0;
  ap_static ns : 0 <= ns <= 9 -> exists n, s !! predef ns = Some n /\ name n = predefined_name ns /\ flags n = UACPI_NAMESPACE_NODE_PREDEFINED /\ parent n = 0 /\ next n = 0 }.

Lemma apart_inv s : apart s -> ns_inv s (fun _ => []).
Proof.
  intros Ha. split; [by apply ap_children|done|constructor| | |apply Ha]; [by intros p c n Hc%elem_of_nil|].
  destruct (ap_static s Ha 0) as (n & Hn & _ & _ & Hp & _); [lia|]. rewrite predef_root in Hn. by exists n.
Qed.

Lemma apart_set s ns n n' : apart s -> 0 <= ns <= 9 -> s !! predef ns = Some n ->
  child n' = child n /\ name n' = name n /\ flags n' = flags n /\ parent n' = parent n /\ next n' = next n -> apart (<[predef ns := n']> s).
Proof.
  intros Ha Hns Hn (Hc & Hnm & Hf & Hp & Hx). split.
  - rewrite lookup_insert_ne; [apply Ha|]. intros E. by rewrite E, (ap_null s Ha) in Hn.
  - intros p m [[<- <-]|[_ Hm]]%lookup_insert_Some; [rewrite Hc; by eapply ap_children|by eapply ap_children].
  - intros k Hk. destruct (ap_static s Ha k Hk) as (m & Hm & ?). destruct (decide (predef ns = predef k)) as [E|E]; [|exists m; by rewrite lookup_insert_ne].
    exists n'. rewrite <- E, lookup_insert_eq. rewrite <- E in Hm. replace m with n in * by congruence. split; [done|]. split_and!; etrans; [eassumption|tauto|eassumption|tauto|eassumption|tauto|eassumption|tauto].
Qed.

(** A node with its object. *)
Definition ready (s : nodes) (ns : Z) : Prop := exists n, s !! predef ns = Some n /\ object n <> 0 /\ reference_count n = uacpi_shareable_init.

(** There is memory for every object, and giving up a new one gives up no node. *)
Record plenty : Prop := {
  pl_create w t : (nm_create_object w t).2 <> 0;
  pl_text w o t : (nm_set_text w o t).2 = true;
  pl_reference w o : (nm_create_internal_reference w o).2 <> 0;
  pl_plain w o : (nh_object_unref w o).2 = [] }.

Lemma make_object_some w s ctx ns : plenty -> exists w' ctx' obj, make_object_for_predefined w s ctx ns = Some (w', s, ctx', obj) /\ obj <> 0.
Proof.
  intros [Hc Ht _ _]. assert (Hc' : forall w t w' o, nm_create_object w t = (w', o) -> o <> 0) by (intros w1 t w' o E; pose proof (Hc w1 t) as H; by rewrite E in H).
  unfold make_object_for_predefined.
  repeat match goal with
  | |- context [nm_create_object ?w ?t] => let E := fresh in destruct (nm_create_object w t) as [? ?] eqn:E; apply Hc' in E; rewrite ?(proj2 (Z.eqb_neq _ 0) E)
  | |- context [nm_set_text ?w ?o ?t] => let E := fresh in pose proof (Ht w o t) as E; destruct (nm_set_text w o t) as [? ?]; cbn [snd] in E; subst
  | |- context [nm_ref_mutex ?w ?o] => destruct (nm_ref_mutex w o)
  | |- context [if ?ns =? ?c then _ else _] => destruct (ns =? c)
  end; by eexists _, _, _.
Qed.

Lemma init_objects_spec l : plenty -> Forall (fun ns => 0 <= ns <= 9) l -> forall w s ctx, apart s ->
  exists w' s' ctx', init_objects w s ctx l = Some (w', s', ctx', UACPI_STATUS_OK) /\ apart s' /\ forall ns, 0 <= ns <= 9 -> ns ∈ l \/ ready s ns -> ready s' ns.
Proof.
  intros Hpl. induction 1 as [|ns l Hns Hl IH]; intros w s ctx Ha; cbn [init_objects]; [exists w, s, ctx; split_and!; [done..|]; by intros ns _ [H%elem_of_nil|]|].
  destruct (ap_static s Ha ns Hns) as (n & Hn & _). rewrite (set_node_some s _ n) by done. cbn [mbind option_bind]. set (n1 := n <| reference_count := _ |>).
  destruct (make_object_some w (<[predef ns := n1]> s) ctx ns Hpl) as (w1 & ctx1 & obj & -> & Hobj). cbn [mbind option_bind]. rewrite (proj2 (Z.eqb_neq obj 0) Hobj).
  pose proof (pl_reference Hpl w1 obj) as Href. destruct (nm_create_internal_reference w1 obj) as [w2 ref]. cbn [snd] in Href. rewrite (set_node_some _ _ n1) by apply lookup_insert_eq. cbn [mbind option_bind].
  unfold uacpi_object_unref. pose proof (pl_plain Hpl w2 obj) as Hpln. destruct (nh_object_unref w2 obj) as [w3 nl]. cbn [snd] in Hpln. subst nl. cbn [unref_nodes mbind option_bind].
  rewrite (proj2 (Z.eqb_neq ref 0) Href), insert_insert_eq. set (n2 := n1 <| object := _ |>). assert (Ha2 : apart (<[predef ns := n2]> s)) by (by eapply apart_set).
  destruct (IH w3 (<[predef ns := n2]> s) ctx1 Ha2) as (w' & s' & ctx' & -> & Ha' & Hr). exists w', s', ctx'. split; [done|]. split; [done|]. intros k Hk Hor.
  apply Hr; [done|]. destruct (decide (predef ns = predef k)) as [E|E]; [right; exists n2; rewrite <- E; by rewrite lookup_insert_eq|].
  destruct Hor as [[->|?]%elem_of_cons|(m & Hm & ?)]; [done|by left|]. right. exists m. by rewrite lookup_insert_ne.
Qed.

(** ** Installing *)

Lemma install_frame s C par p s' r q : ns_inv s C -> uacpi_namespace_node_install s par p = Some (r, s') -> q <> p -> q <> or_root par -> q ∉ C (or_root par) -> s' !! q = s !! q.
Proof.
  intros Hi. unfold uacpi_namespace_node_install. set (pr := or_root par). destruct (s !! p) as [n|]; [|done]. cbn [mbind option_bind].
  destruct (uacpi_namespace_node_is_dangling n); [by intros [= _ <-]|]. destruct (s !! pr) as [pn|] eqn:Hpn; [|done]. cbn [mbind option_bind].
  assert (Hset : forall t v f t' x, set_node t v f = Some t' -> x <> v -> t' !! x = t !! x) by (unfold set_node; intros t v f t' x; destruct (t !! v); [|done]; intros [= <-] Hx; by rewrite lookup_insert_ne).
  destruct (if child pn =? 0 then _ else _) as [s1|] eqn:E1; [|done]. cbn [mbind option_bind]. destruct (set_node s1 p _) as [s2|] eqn:E2; [|done]. intros [= _ <-] Hqp Hqr Hqc.
  rewrite (Hset _ _ _ _ _ E2 Hqp). pose proof (iv_linked _ _ Hi pr pn Hpn) as Hl. destruct (Z.eqb_spec (child pn) 0) as [E|E]; [by eapply Hset|].
  destruct (C pr) as [|z l] eqn:HC using rev_ind; [done|]. clear IHl. pose proof (scope_bound s C pr Hi) as Hb. rewrite HC, length_app in Hb. cbn in Hb.
  rewrite (last_sibling_spec s (child pn) l z) in E1 by (done || lia). cbn [mbind option_bind] in E1. eapply Hset; [done|]. intros ->. apply Hqc, elem_of_app. right. constructor.
Qed.

Definition same_node (s s' : nodes) (q : Z) : Prop :=
  forall m, s !! q = Some m -> exists m', s' !! q = Some m' /\ name m' = name m /\ flags m' = flags m /\ object m' = object m /\ reference_count m' = reference_count m.

Lemma install_predefined_spec flags l : NoDup l -> Forall (fun ns => 1 <= ns <= 9) l -> forall s C, ns_inv s C -> (forall ns, ns ∈ l -> exists n, loose s C (predef ns) n) ->
  exists s' C', install_predefined flags s l = Some s' /\ ns_inv s' C' /\ C' uacpi_namespace_root = C uacpi_namespace_root ++ (predef <$> List.filter (wanted flags) l) /\
    (forall q, q <> uacpi_namespace_root -> C' q = C q) /\ forall q, same_node s s' q.
Proof.
  induction 1 as [|ns l Hns Hnd IH]; intros Hl s C Hi Hlo; cbn [install_predefined List.filter].
  { exists s, C. split_and!; [done..|by rewrite app_nil_r|done|]. intros q m Hm. by exists m. }
  apply Forall_cons in Hl as [Hr Hl]. destruct (wanted flags ns); [|apply IH; [done..|]; intros k Hk; apply Hlo; by constructor].
  assert (Hor : or_root uacpi_namespace_root = uacpi_namespace_root) by (unfold or_root; by rewrite (proj2 (Z.eqb_neq _ 0) root_nonnull)).
  destruct (Hlo ns) as [n Hln]; [constructor|]. pose proof (iv_root _ _ Hi) as (rn & Hrn & _).
  destruct (install_spec s C uacpi_namespace_root (predef ns) n Hi Hln) as (s1 & E & Hi1 & Hk); rewrite Hor in *; [by eexists|by apply not_eq_sym, Hln|]. rewrite E. cbn [mbind option_bind].
  set (C1 := set_scope _ _ _) in *. destruct (IH Hl s1 C1 Hi1) as (s2 & C2 & -> & Hi2 & HC2 & Ho2 & Hk2).
  - intros k Hin. destruct (Hlo k) as [m Hm]; [by constructor|]. assert (Hkn : predef k <> predef ns).
    { intros Heq. rewrite Forall_forall in Hl. specialize (Hl k Hin). apply predef_inj in Heq; [by subst|lia..]. }
    destruct Hm as [Hm1 Hm2 Hm3 Hm4 Hm5]. exists m. split; [|done..| |done].
    + erewrite install_frame; [exact Hm1|exact Hi|exact E|done|by rewrite Hor|rewrite Hor; apply Hm4].
    + intros q. unfold C1, set_scope. destruct (decide (q = uacpi_namespace_root)); [|apply Hm4]. rewrite not_elem_of_app, list_elem_of_singleton. split; [apply Hm4|done].
  - exists s2, C2. split; [done|]. split; [done|]. split; [rewrite HC2; unfold C1; rewrite set_scope_eq, <- app_assoc; done|]. split; [intros q Hq; rewrite Ho2 by done; unfold C1; by rewrite set_scope_ne|].
    intros q m Hm. specialize (Hk q). rewrite Hm in Hk. destruct (s1 !! q) as [m1|] eqn:Hm1; [|done]. destruct Hk as ((? & ? & ? & ?) & _). destruct (Hk2 q m1 Hm1) as (m2 & Hm2 & ? & ? & ? & ?). exists m2. split_and!; congruence.
Qed.
End Initialize.

(** When there is memory for the objects, setting the namespace up succeeds from the nodes
    the program starts with, or that taking it down leaves: afterwards the links are proper, the
    root's scope holds the predefined nodes in their order, all but [\_OSI] if the user does not
    want it, each predefined node has its name, one reference and an object. *)
Theorem namespace_set_up `{NsRoot} {W} `{NsHost W} `{NsMake W} w s ctx flags : plenty -> (forall w, (nm_lock_init w).2 = UACPI_STATUS_OK) -> apart s ->
  exists w' s' ctx' C', uacpi_initialize_namespace w s ctx flags = Some (w', s', ctx', UACPI_STATUS_OK) /\ ns_inv s' C' /\
    C' uacpi_namespace_root = uacpi_namespace_get_predefined <$> List.filter (wanted flags) [1; 2; 3; 4; 5; 6; 7; 8; 9] /\ (forall q, q <> uacpi_namespace_root -> C' q = []) /\
    forall ns, 0 <= ns <= 9 -> exists n, s' !! uacpi_namespace_get_predefined ns = Some n /\ name n = predefined_name ns /\ reference_count n = 1 /\ object n <> 0.
Proof.
  intros Hpl Hlk Ha. unfold uacpi_initialize_namespace. specialize (Hlk w). destruct (nm_lock_init w) as [w0 r0]. cbn [snd] in Hlk. subst r0. cbn [negb Z.eqb UACPI_STATUS_OK].
  destruct (init_objects_spec (seqZ UACPI_PREDEFINED_NAMESPACE_ROOT 10)) with (w := w0) (s := s) (ctx := ctx) as (w1 & s1 & ctx1 & -> & Ha1 & Hr); [done|apply Forall_forall; intros ? ?%elem_of_seqZ; unfold UACPI_PREDEFINED_NAMESPACE_ROOT in *; lia|done|].
  cbn [mbind option_bind negb Z.eqb UACPI_STATUS_OK]. change (seqZ UACPI_PREDEFINED_NAMESPACE_GPE 9) with [1; 2; 3; 4; 5; 6; 7; 8; 9].
  destruct (install_predefined_spec flags [1; 2; 3; 4; 5; 6; 7; 8; 9]) with (s := s1) (C := fun _ : Z => @nil Z) as (s2 & C2 & E & Hi2 & HC2 & Ho2 & Hk2).
  - apply (bool_decide_unpack _). vm_compute. exact I.
  - by repeat (apply Forall_cons; split; [lia|]).
  - by apply apart_inv.
  - intros ns Hns. assert (1 <= ns <= 9) by (rewrite !elem_of_cons, elem_of_nil in Hns; lia). destruct (ap_static s1 Ha1 ns) as (n & Hn & _ & Hf & _ & Hx); [lia|].
    exists n. split; [done| |split; [by eapply ap_children|done]|by intros q Hq%elem_of_nil|unfold uacpi_namespace_node_is_dangling; by rewrite Hf].
    rewrite <- predef_root. intros Heq%predef_inj; lia.
  - rewrite E. cbn [mbind option_bind]. exists w1, s2, ctx1, C2. split_and!; try done. intros ns Hns. destruct (Hr ns Hns) as (n & Hn & Hob & Hrc).
    { left. apply elem_of_seqZ. unfold UACPI_PREDEFINED_NAMESPACE_ROOT. lia. }
    destruct (ap_static s1 Ha1 ns Hns) as (n' & Hn' & Hnm & _). replace n' with n in * by congruence. destruct (Hk2 _ n Hn) as (m & Hm & Hm1 & _ & Hm2 & Hm3). exists m. by rewrite Hm1, Hm2, Hm3.
Qed.

(** ** An example, and what stays behind *)

(** The nodes at the start of the program; objects that can always be made. *)
Definition start_nodes : nodes := list_to_map ((fun ns => (4096 + NODE_SIZE * ns, Node 0 (predefined_name ns) UACPI_NAMESPACE_NODE_PREDEFINED 0 0 0 0)) <$> seqZ 0 10).
Definition all_made : NsMake unit :=
  {| nm_create_object w t := (w, 64 + Z.abs t); nm_set_text w _ _ := (w, true); nm_set_integer w _ _ := w; nm_ref_mutex w o := (w, o); nm_set_osi w _ := w; nm_create_internal_reference w o := (w, 1 + Z.abs o); nm_lock_init w := (w, UACPI_STATUS_OK) |}.

Lemma start_apart : apart (NR := demo_root) start_nodes.
Proof.
  split; [reflexivity| |].
  - intros p n Hn. apply elem_of_list_to_map_2, list_elem_of_fmap in Hn as (ns & Heq & _). by injection Heq as _ ->.
  - intros ns Hns. assert (Hc : ns = 0 \/ ns = 1 \/ ns = 2 \/ ns = 3 \/ ns = 4 \/ ns = 5 \/ ns = 6 \/ ns = 7 \/ ns = 8 \/ ns = 9) by lia.
    repeat destruct Hc as [->|Hc]; [..|subst ns]; eexists; (split; [reflexivity|done]).
Qed.

Lemma namespace_set_up_witness :
  exists w' s' ctx', uacpi_initialize_namespace (NR := demo_root) (NH := no_objects) (NM := all_made) tt start_nodes (NsContext 0 0) UACPI_FLAG_NO_OSI = Some (w', s', ctx', UACPI_STATUS_OK) /\
    uacpi_namespace_node_find_sub_node (NR := demo_root) s' 0 (predefined_name UACPI_PREDEFINED_NAMESPACE_SB) = Some 4240 /\
    uacpi_namespace_node_find_sub_node (NR := demo_root) s' 0 (predefined_name UACPI_PREDEFINED_NAMESPACE_OSI) = Some 0.
Proof.
  destruct (namespace_set_up (H := demo_root) (H0 := no_objects) (H1 := all_made) tt start_nodes (NsContext 0 0) UACPI_FLAG_NO_OSI) as (w' & s' & ctx' & C' & E & Hi & _).
  - split; [intros w t; cbn; lia|reflexivity|intros w t; cbn; lia|reflexivity].
  - reflexivity.
  - exact start_apart.
  - exists w', s', ctx'. split; [exact E|]. vm_compute in E. injection E as <- <- <-. split; reflexivity.
Defined.

(** The object of [\_OSI] is made even when the node is not installed, and only installed nodes
    lose their objects when the namespace is taken down: it stays. *)
Theorem osi_object_stays :
  (r ← uacpi_initialize_namespace (NR := demo_root) (NH := no_objects) (NM := all_made) tt start_nodes (NsContext 0 0) UACPI_FLAG_NO_OSI;
   let '(w, s, ctx, _) := r in
   '(_, s, _) ← uacpi_deinitialize_namespace (NR := demo_root) (NH := no_objects) (NE := no_locks) 100 w s ctx;
   Some ((fun ns => object <$> s !! uacpi_namespace_get_predefined (NR := demo_root) ns) <$> seqZ 0 10)) =
  Some [Some 0; Some 0; Some 0; Some 0; Some 0; Some 0; Some 0; Some 0; Some 73; Some 0].
Proof. vm_compute. reflexivity. Qed.
