(* ===== verification/AcpiNsObj.v ===== *)
(** * The objects of namespace nodes, [src/src/uacpi/namespace.c]

    Access to the object attached to a node: under the reader lock, with a reference taken on
    what is handed out.  What objects are is a parameter. *)

From S2P Require Import Prelude Mem CString KernelApi AcpiField AcpiRegion AcpiGas AcpiRegs AcpiLock AcpiFmt AcpiFmtProps AcpiNs AcpiNsProps AcpiNsTree AcpiNsIter.

Definition UACPI_OBJECT_REFERENCE : Z := 20.

Section Objects.
Context {W : Type} `{NH : NsHost W} (object_type : W -> Z -> Z) (uacpi_object_ref : W -> Z -> W) (read_lock read_unlock : W -> W * Z).

Definition uacpi_namespace_node_get_object_typed (w : W) (s : nodes) (node type_mask : Z) : option Z :=
  obj ← uacpi_namespace_node_get_object w s node;
  if obj =? 0 then Some obj else Some (if uacpi_object_is_one_of (object_type w) obj type_mask then obj else 0).

(** The status, and the object when there is one. *)
Definition uacpi_namespace_node_acquire_object_typed (w : W) (s : nodes) (node type_mask : Z) : option (W * Z * option Z) :=
  let '(w, ret) := read_lock w in
  if negb (ret =? UACPI_STATUS_OK) then Some (w, ret, None)
  else
    obj ← uacpi_namespace_node_get_object w s node;
    if (obj =? 0) || negb (uacpi_object_is_one_of (object_type w) obj type_mask) then Some ((read_unlock w).1, UACPI_STATUS_INVALID_ARGUMENT, None)
    else Some ((read_unlock (uacpi_object_ref w obj)).1, ret, Some obj).

Definition uacpi_namespace_node_acquire_object (w : W) (s : nodes) (node : Z) : option (W * Z * option Z) :=
  uacpi_namespace_node_acquire_object_typed w s node UACPI_OBJECT_ANY_BIT.

(** References to references change the counts of a whole chain, and need the lock. *)
Definition object_mutate_refcount (w : W) (s : nodes) (obj : Z) (cb : W -> nodes -> Z -> option (W * nodes)) : option (W * nodes * Z) :=
  if negb (object_type w obj =? UACPI_OBJECT_REFERENCE) then '(w, s) ← cb w s obj; Some (w, s, UACPI_STATUS_OK)
  else
    let '(w, ret) := read_lock w in
    if negb (ret =? UACPI_STATUS_OK) then Some (w, s, ret) else '(w, s) ← cb w s obj; Some ((read_unlock w).1, s, ret).

Definition uacpi_namespace_node_reacquire_object (w : W) (s : nodes) (obj : Z) : option (W * nodes * Z) :=
  object_mutate_refcount w s obj (fun w s obj => Some (uacpi_object_ref w obj, s)).
Definition uacpi_namespace_node_release_object (w : W) (s : nodes) (obj : Z) : option (W * nodes * Z) :=
  object_mutate_refcount w s obj uacpi_object_unref.

Definition uacpi_namespace_node_type (w : W) (s : nodes) (node : Z) : W * Z * option Z :=
  let '(w, ret) := read_lock w in
  if negb (ret =? UACPI_STATUS_OK) then (w, ret, None)
  else
    let '(ret, t) := uacpi_namespace_node_type_unlocked w (object_type w) s node in
    ((read_unlock w).1, ret, t).

Definition uacpi_namespace_node_is_one_of (w : W) (s : nodes) (node type_mask : Z) : W * option bool :=
  let '(w, ret) := read_lock w in
  if negb (ret =? UACPI_STATUS_OK) then (w, None)
  else ((read_unlock w).1, uacpi_namespace_node_is_one_of_unlocked w (object_type w) s type_mask node).

Definition uacpi_namespace_node_is (w : W) (s : nodes) (node type : Z) : W * option bool := uacpi_namespace_node_is_one_of w s node (u32 (1 <<< type)).

(** [readers]: how often the lock is held; [refs]: the references to an object. *)
Context (readers : W -> Z) (refs : W -> Z -> Z).
Record lock_laws : Prop := {
  ll_lock w : let '(w', ret) := read_lock w in readers w' = readers w + (if ret =? UACPI_STATUS_OK then 1 else 0) /\ refs w' = refs w;
  ll_unlock w : readers (read_unlock w).1 = readers w - 1 /\ refs (read_unlock w).1 = refs w;
  ll_ref w o : readers (uacpi_object_ref w o) = readers w /\ refs (uacpi_object_ref w o) o = refs w o + 1 /\ forall q, q <> o -> refs (uacpi_object_ref w o) q = refs w q }.

(** Whatever the outcome, the lock is given back as often as it was taken, and exactly the
    object that is handed out has gained a reference: without one nothing has. *)
Theorem acquire_balanced w s node type_mask w' ret out : lock_laws -> uacpi_namespace_node_acquire_object_typed w s node type_mask = Some (w', ret, out) ->
  readers w' = readers w /\
  match out with
  | Some obj => ret = UACPI_STATUS_OK /\ obj <> 0 /\ refs w' obj = refs w obj + 1 /\ forall q, q <> obj -> refs w' q = refs w q
  | None => ret <> UACPI_STATUS_OK /\ refs w' = refs w
  end.
Proof.
  intros [Hl Hu Hr]. unfold uacpi_namespace_node_acquire_object_typed. specialize (Hl w). destruct (read_lock w) as [w1 r1]. destruct Hl as [Hn1 Hr1].
  destruct (Z.eqb_spec r1 UACPI_STATUS_OK) as [E|E]; cbn [negb]; [|intros [= <- <- <-]; split_and!; [lia|done..]].
  destruct (uacpi_namespace_node_get_object w1 s node) as [obj|]; [|done]. cbn [mbind option_bind]. destruct (Z.eqb_spec obj 0) as [->|Ho]; cbn [orb];
    [|destruct (uacpi_object_is_one_of (object_type w1) obj type_mask); cbn [negb]]; intros [= <- <- <-].
  - destruct (Hu w1) as [-> ->]. split_and!; [lia|done..].
  - destruct (Hr w1 obj) as (H1 & H2 & H3). destruct (Hu (uacpi_object_ref w1 obj)) as [-> ->]. rewrite H1, H2, Hr1. split_and!; [lia|done..|]. intros q Hq. by rewrite H3, Hr1.
  - destruct (Hu w1) as [-> ->]. split_and!; [lia|done..].
Qed.
End Objects.
