(* ===== verification/AcpiDynArray.v ===== *)
(** * Arrays that grow, [src/src/include/uacpi/internal/dynamic_array.h]

    The macro makes, for an element type, an array whose first elements are stored inside the
    structure and the others in memory from the heap.  Its operations are those of a list. *)

From S2P Require Import Prelude Mem CString KernelApi AcpiField AcpiRegion AcpiGas AcpiLock.

Section DynArray.
(** [inline_cap]: how many elements are stored inside; [type_size]: the size of one; [junk]:
    what memory holds that was not written. *)
Context {A : Type} (inline_cap type_size : Z) (junk : A).

(** [buffer]: the address of the memory outside, 0 for none. *)
Record dynamic_array := DynArray { inline_storage : list A; dynamic_storage : list A; buffer : Z; dynamic_capacity : Z; size_including_inline : Z }.

Definition array_capacity (arr : dynamic_array) : Z := inline_cap + dynamic_capacity arr.
Definition array_size (arr : dynamic_array) : Z := size_including_inline arr.

(** The element itself; a pointer to it is its index. *)
Definition array_at (arr : dynamic_array) (idx : Z) : option A :=
  if size_including_inline arr <=? idx then None
  else if idx <? inline_cap then zget (inline_storage arr) idx
  else zget (dynamic_storage arr) (idx - inline_cap).

(** A store through the pointer [array_at] gives. *)
Definition array_put (arr : dynamic_array) (idx : Z) (x : A) : option dynamic_array :=
  if idx <? inline_cap then l ← zset (inline_storage arr) idx x; Some (DynArray l (dynamic_storage arr) (buffer arr) (dynamic_capacity arr) (size_including_inline arr))
  else l ← zset (dynamic_storage arr) (idx - inline_cap) x; Some (DynArray (inline_storage arr) l (buffer arr) (dynamic_capacity arr) (size_including_inline arr)).

(** How many bytes the next buffer has. *)
Definition next_bytes (arr : dynamic_array) : Z :=
  if dynamic_capacity arr =? 0 then type_size * inline_cap
  else
    let bytes := dynamic_capacity arr / 2 * type_size in
    let bytes := if bytes =? 0 then bytes + type_size else bytes in
    bytes + dynamic_capacity arr * type_size.

(** [alloc]: the address of memory of a size, 0 for none.  The array, whether there is a new
    element (the last one), and the buffers taken and given back. *)
Definition array_alloc (alloc : Z -> Z) (arr : dynamic_array) : dynamic_array * bool * (list Z * list Z) :=
  let size := size_including_inline arr in
  if inline_cap <=? size then
    let dynamic_size := size - inline_cap in
    if dynamic_size =? dynamic_capacity arr then
      let bytes := next_bytes arr in
      let new_buf := alloc bytes in
      if new_buf =? 0 then (arr, false, ([], []))
      else
        let cap := bytes / type_size in
        let kept := take (Z.to_nat dynamic_size) (dynamic_storage arr) in
        (DynArray (inline_storage arr) (kept ++ replicate (Z.to_nat cap - length kept) junk) new_buf cap (size + 1), true, ([new_buf], if buffer arr =? 0 then [] else [buffer arr]))
    else (DynArray (inline_storage arr) (dynamic_storage arr) (buffer arr) (dynamic_capacity arr) (size + 1), true, ([], []))
  else (DynArray (inline_storage arr) (dynamic_storage arr) (buffer arr) (dynamic_capacity arr) (size + 1), true, ([], [])).

Definition array_pop (arr : dynamic_array) : dynamic_array :=
  if size_including_inline arr =? 0 then arr
  else DynArray (inline_storage arr) (dynamic_storage arr) (buffer arr) (dynamic_capacity arr) (size_including_inline arr - 1).

Definition array_last (arr : dynamic_array) : option A := array_at arr (u64 (size_including_inline arr - 1)).

Definition array_clear (arr : dynamic_array) : dynamic_array * list Z :=
  (DynArray (inline_storage arr) [] 0 0 0, if buffer arr =? 0 then [] else [buffer arr]).

(** ** The list it stands for *)

Definition contents (arr : dynamic_array) : list A := take (Z.to_nat (size_including_inline arr)) (inline_storage arr ++ dynamic_storage arr).

Record array_ok (arr : dynamic_array) : Prop := {
  ao_inline : Z.of_nat (length (inline_storage arr)) = inline_cap;
  ao_dynamic : Z.of_nat (length (dynamic_storage arr)) = dynamic_capacity arr;
  ao_size : 0 <= size_including_inline arr <= inline_cap + dynamic_capacity arr;
  ao_buffer : dynamic_capacity arr = 0 \/ buffer arr <> 0 }.

Context (Hcap : 0 < inline_cap) (Hsize : 0 < type_size).

Lemma zget_app (l k : list A) i : zget (l ++ k) i = if i <? Z.of_nat (length l) then zget l i else zget k (i - Z.of_nat (length l)).
Proof.
  unfold zget. destruct (Z.ltb_spec i 0) as [Hi|Hi]; [by rewrite (proj2 (Z.ltb_lt i (Z.of_nat (length l)))) by lia|].
  destruct (Z.ltb_spec i (Z.of_nat (length l))) as [Hl|Hl]; [rewrite lookup_app_l by lia; done|]. rewrite (proj2 (Z.ltb_ge (i - Z.of_nat (length l)) 0)) by lia. rewrite lookup_app_r by lia. f_equal. lia.
Qed.

Lemma zget_take (l : list A) n i : i < Z.of_nat n -> zget (take n l) i = zget l i.
Proof. intros H. unfold zget. destruct (Z.ltb_spec i 0); [done|]. by rewrite lookup_take_lt by lia. Qed.

Lemma array_at_spec arr idx : array_ok arr -> array_at arr idx = zget (contents arr) idx.
Proof.
  intros [Hi Hd Hs _]. unfold array_at, contents. destruct (Z.leb_spec (size_including_inline arr) idx) as [Hle|Hlt].
  - symmetry. unfold zget. destruct (Z.ltb_spec idx 0); [done|]. apply lookup_ge_None. rewrite length_take. lia.
  - rewrite zget_take, zget_app, Hi by lia. by destruct (idx <? inline_cap).
Qed.

Lemma contents_length arr : array_ok arr -> Z.of_nat (length (contents arr)) = size_including_inline arr.
Proof. intros [Hi Hd Hs _]. unfold contents. rewrite length_take, length_app. lia. Qed.

Lemma array_put_spec arr idx x : array_ok arr -> 0 <= idx < size_including_inline arr ->
  exists arr', array_put arr idx x = Some arr' /\ array_ok arr' /\ contents arr' = <[Z.to_nat idx := x]> (contents arr) /\ buffer arr' = buffer arr.
Proof.
  intros [Hi Hd Hs Hb] Hx. unfold array_put. destruct (Z.ltb_spec idx inline_cap) as [Hl|Hl].
  - rewrite zset_ok by lia. cbn [mbind option_bind]. eexists. split; [reflexivity|]. split; [split; cbn; rewrite ?length_insert; done|]. split; [|done].
    unfold contents. cbn. by rewrite <- take_insert_lt, insert_app_l by lia.
  - rewrite zset_ok by lia. cbn [mbind option_bind]. eexists. split; [reflexivity|]. split; [split; cbn; rewrite ?length_insert; done|]. split; [|done].
    unfold contents. cbn. rewrite <- take_insert_lt, insert_app_r_alt by lia. do 3 f_equal. lia.
Qed.

(** A new element comes last, and whatever it holds; the buffer that is given up is the old one. *)
Lemma array_alloc_spec alloc arr : array_ok arr ->
  match array_alloc alloc arr with
  | (arr', true, (taken, given)) =>
    array_ok arr' /\ (exists x, contents arr' = contents arr ++ [x]) /\
    (taken = [] /\ given = [] /\ buffer arr' = buffer arr \/ size_including_inline arr = inline_cap + dynamic_capacity arr /\ taken = [buffer arr'] /\ buffer arr' <> 0 /\ given = if buffer arr =? 0 then [] else [buffer arr])
  | (arr', false, given) => arr' = arr /\ given = ([], []) /\ alloc (next_bytes arr) = 0 /\ size_including_inline arr = inline_cap + dynamic_capacity arr
  end.
Proof.
  intros [Hi Hd Hs Hb]. unfold array_alloc.
  assert (Hsame : size_including_inline arr < inline_cap + dynamic_capacity arr ->
    let arr' := DynArray (inline_storage arr) (dynamic_storage arr) (buffer arr) (dynamic_capacity arr) (size_including_inline arr + 1) in
    array_ok arr' /\ exists x, contents arr' = contents arr ++ [x]).
  { intros Hlt. split; [split; cbn; try done; lia|]. unfold contents. cbn. replace (Z.to_nat (size_including_inline arr + 1)) with (S (Z.to_nat (size_including_inline arr))) by lia.
    destruct (lookup_lt_is_Some_2 (inline_storage arr ++ dynamic_storage arr) (Z.to_nat (size_including_inline arr))) as [x Hx]; [rewrite length_app; lia|].
    exists x. by apply take_S_r. }
  destruct (Z.leb_spec inline_cap (size_including_inline arr)) as [Hge|Hlt]; [|split; [apply Hsame; lia|]; split; [apply Hsame; lia|by left]].
  destruct (Z.eqb_spec (size_including_inline arr - inline_cap) (dynamic_capacity arr)) as [E|E]; [|split; [apply Hsame; lia|]; split; [apply Hsame; lia|by left]].
  destruct (Z.eqb_spec (alloc (next_bytes arr)) 0) as [Ea|Ea]; [split_and!; [done..|lia]|].
  assert (Hnb : dynamic_capacity arr < next_bytes arr / type_size).
  { unfold next_bytes. destruct (Z.eqb_spec (dynamic_capacity arr) 0) as [->|Hc]; [rewrite Z.mul_comm, Z.div_mul; lia|].
    destruct (Z.eqb_spec (dynamic_capacity arr / 2 * type_size) 0) as [Eh|Eh].
    - rewrite Eh, Z.add_0_l. replace (type_size + dynamic_capacity arr * type_size) with ((dynamic_capacity arr + 1) * type_size) by lia. rewrite Z.div_mul by lia. lia.
    - rewrite <- Z.mul_add_distr_r, Z.div_mul by lia. assert (0 < dynamic_capacity arr / 2); [|lia]. pose proof (Z.div_pos (dynamic_capacity arr) 2). nia. }
  rewrite E, take_ge by lia. split; [|split; [|right; split; [lia|done]]].
  - split; cbn; try done; [rewrite length_app, length_replicate; lia|lia|by right].
  - exists junk. unfold contents. cbn. rewrite (take_ge (inline_storage arr ++ dynamic_storage arr)) by (rewrite length_app; lia).
    replace (Z.to_nat (next_bytes arr / type_size) - length (dynamic_storage arr))%nat with (S (Z.to_nat (next_bytes arr / type_size) - length (dynamic_storage arr) - 1)) by lia.
    cbn [replicate]. rewrite app_assoc. replace (Z.to_nat (size_including_inline arr + 1)) with (S (length (inline_storage arr ++ dynamic_storage arr))) by (rewrite length_app; lia).
    rewrite take_app_ge by lia. replace (S _ - _)%nat with 1%nat by lia. done.
Qed.

Lemma array_pop_spec arr : array_ok arr -> array_ok (array_pop arr) /\ contents (array_pop arr) = take (length (contents arr) - 1) (contents arr).
Proof.
  intros [Hi Hd Hs Hb]. unfold array_pop, contents. destruct (Z.eqb_spec (size_including_inline arr) 0) as [E|E]; [rewrite E; cbn; split; [|done]; split; try done; lia|].
  split; [split; cbn; try done; lia|]. cbn. rewrite length_take, length_app, take_take. f_equal. lia.
Qed.

Lemma array_clear_spec arr : array_ok arr -> array_ok (array_clear arr).1 /\ contents (array_clear arr).1 = [].
Proof. intros [Hi Hd Hs Hb]. split; [split; cbn; try done; [lia|by left]|]. by unfold contents. Qed.
End DynArray.
