(* ===== verification/AcpiFadt.v ===== *)
(** * The FADT, [src/src/uacpi/tables.c]

    uACPI keeps a copy of the Fixed ACPI Description Table and puts it in order: a revision that
    fits its length, no garbage in members that older revisions do not have, and all registers
    as generic addresses.  The copy is memory addressed by offset. *)

From stdpp Require Import strings sorting.
From S2P Require Import Prelude Mem CString Layout KernelApi AcpiField AcpiRegion AcpiGas.
Open Scope Z_scope.

Definition ACPI_GAS : layout := [("address_space_id", 1); ("register_bit_width", 1); ("register_bit_offset", 1); ("access_size", 1); ("address", 8)]%string.
Definition ACPI_FADT : layout :=
  [("signature", 4); ("length", 4); ("revision", 1); ("checksum", 1); ("oemid", 6); ("oem_table_id", 8); ("oem_revision", 4); ("creator_id", 4); ("creator_revision", 4);
   ("firmware_ctrl", 4); ("dsdt", 4); ("int_model", 1); ("preferred_pm_profile", 1); ("sci_int", 2); ("smi_cmd", 4); ("acpi_enable", 1); ("acpi_disable", 1); ("s4bios_req", 1); ("pstate_cnt", 1);
   ("pm1a_evt_blk", 4); ("pm1b_evt_blk", 4); ("pm1a_cnt_blk", 4); ("pm1b_cnt_blk", 4); ("pm2_cnt_blk", 4); ("pm_tmr_blk", 4); ("gpe0_blk", 4); ("gpe1_blk", 4);
   ("pm1_evt_len", 1); ("pm1_cnt_len", 1); ("pm2_cnt_len", 1); ("pm_tmr_len", 1); ("gpe0_blk_len", 1); ("gpe1_blk_len", 1); ("gpe1_base", 1); ("cst_cnt", 1);
   ("p_lvl2_lat", 2); ("p_lvl3_lat", 2); ("flush_size", 2); ("flush_stride", 2); ("duty_offset", 1); ("duty_width", 1); ("day_alrm", 1); ("mon_alrm", 1); ("century", 1);
   ("iapc_boot_arch", 2); ("rsvd", 1); ("flags", 4); ("reset_reg", 12); ("reset_value", 1); ("arm_boot_arch", 2); ("fadt_minor_verison", 1); ("x_firmware_ctrl", 8); ("x_dsdt", 8);
   ("x_pm1a_evt_blk", 12); ("x_pm1b_evt_blk", 12); ("x_pm1a_cnt_blk", 12); ("x_pm1b_cnt_blk", 12); ("x_pm2_cnt_blk", 12); ("x_pm_tmr_blk", 12); ("x_gpe0_blk", 12); ("x_gpe1_blk", 12);
   ("sleep_control_reg", 12); ("sleep_status_reg", 12); ("hypervisor_vendor_identity", 8)]%string.
Definition FADT_SIZE : Z := 276.
Definition fadt_offset (field : string) : Z := default 0 (offset_of ACPI_FADT field).

Lemma fadt_layout : size_of ACPI_FADT = FADT_SIZE /\ size_of ACPI_GAS = 12.
Proof. done. Qed.

(** The copy, and what is taken from it. *)
Record fadt_ctx := FadtCtx { fadt : mem; is_hardware_reduced : bool; is_rev1 : bool; facs : Z;
  pm1a_status_blk : acpi_gas; pm1a_enable_blk : acpi_gas; pm1b_status_blk : acpi_gas; pm1b_enable_blk : acpi_gas }.
#[global] Instance eta_fadt_ctx : Eta fadt_ctx := EtaOf _ (fun c =>
  FadtCtx (fadt c) (is_hardware_reduced c) (is_rev1 c) (facs c) (pm1a_status_blk c) (pm1a_enable_blk c) (pm1b_status_blk c) (pm1b_enable_blk c)).

Definition ACPI_HW_REDUCED_ACPI : Z := 1 <<< 20.
Definition fadt_version_sizes : list Z := [116; 132; 244; 244; 268; 276].

(** The index of the first size that is long enough. *)
Fixpoint fitting_revision (sizes : list Z) (len rev : Z) : Z :=
  match sizes with [] => rev | z :: sizes => if len <=? z then rev else fitting_revision sizes len (rev + 1) end.

Definition fadt_ensure_correct_revision (f : mem) : mem :=
  let current_rev := ld8 f (fadt_offset "revision") in
  let rev := fitting_revision fadt_version_sizes (ld32 f (fadt_offset "length")) 0 in
  if rev =? 6 then st8 f (fadt_offset "revision") rev
  else
    let rev := rev + 1 in
    if negb (current_rev =? rev) && negb ((rev =? 3) && (current_rev =? 4)) then st8 f (fadt_offset "revision") rev else f.

Definition gas_init_system_io (address byte_size : Z) : acpi_gas := Gas UACPI_ADDRESS_SPACE_SYSTEM_IO (Z.min 255 (u8 byte_size * 8)) 0 0 (u64 address).

(** A generic address in memory. *)
Definition load_gas (f : mem) (o : Z) : acpi_gas := Gas (ld8 f o) (ld8 f (o + 1)) (ld8 f (o + 2)) (ld8 f (o + 3)) (ld64 f (o + 4)).
Definition store_gas (f : mem) (o : Z) (g : acpi_gas) : mem :=
  let f := st64 f (o + 4) (address g) in
  let f := st8 f o (address_space_id g) in
  let f := st8 f (o + 1) (register_bit_width g) in
  let f := st8 f (o + 2) (register_bit_offset g) in
  st8 f (o + 3) (access_size g).

Record register_description := RegisterDescription { rd_offset : Z; rd_xoffset : Z; rd_length_offset : Z }.
Definition fadt_registers : list register_description :=
  (fun '(o, x, l) => RegisterDescription (fadt_offset o) (fadt_offset x) (fadt_offset l)) <$>
  [("pm1a_evt_blk", "x_pm1a_evt_blk", "pm1_evt_len"); ("pm1b_evt_blk", "x_pm1b_evt_blk", "pm1_evt_len"); ("pm1a_cnt_blk", "x_pm1a_cnt_blk", "pm1_cnt_len"); ("pm1b_cnt_blk", "x_pm1b_cnt_blk", "pm1_cnt_len");
   ("pm2_cnt_blk", "x_pm2_cnt_blk", "pm2_cnt_len"); ("pm_tmr_blk", "x_pm_tmr_blk", "pm_tmr_len"); ("gpe0_blk", "x_gpe0_blk", "gpe0_blk_len"); ("gpe1_blk", "x_gpe1_blk", "gpe1_blk_len")]%string.

Definition convert_register (f : mem) (desc : register_description) : mem :=
  let legacy_addr := ld32 f (rd_offset desc) in
  let length := ld8 f (rd_length_offset desc) in
  let gas := load_gas f (rd_xoffset desc) in
  if negb (address gas =? 0) then f else store_gas f (rd_xoffset desc) (gas_init_system_io legacy_addr length).
Definition convert_registers_to_gas (f : mem) : mem := fold_left convert_register fadt_registers f.

(** The two halves, or what was there before. *)
Definition split_one_block (src dst0 dst1 : acpi_gas) : acpi_gas * acpi_gas :=
  if address src =? 0 then (dst0, dst1)
  else
    let byte_length := register_bit_width src / 8 / 2 in
    (gas_init_system_io (address src) byte_length, gas_init_system_io (address src + byte_length) byte_length).

Definition split_event_blocks (c : fadt_ctx) : fadt_ctx :=
  let '(a0, a1) := split_one_block (load_gas (fadt c) (fadt_offset "x_pm1a_evt_blk")) (pm1a_status_blk c) (pm1a_enable_blk c) in
  let '(b0, b1) := split_one_block (load_gas (fadt c) (fadt_offset "x_pm1b_evt_blk")) (pm1b_status_blk c) (pm1b_enable_blk c) in
  c <| pm1a_status_blk := a0 |> <| pm1a_enable_blk := a1 |> <| pm1b_status_blk := b0 |> <| pm1b_enable_blk := b1 |>.

(** [initialize_fadt] up to the installation of the DSDT, and after it. *)
Definition fadt_copy (vm : mem) (virt : Z) (f : mem) : mem := fun o => if (0 <=? o) && (o <? Z.min FADT_SIZE (ld32 vm (virt + 4))) then vm (virt + o) else f o.

(** Members that are reserved before revision 3. *)
Definition clear_reserved (f : mem) : mem :=
  if ld8 f (fadt_offset "revision") <=? 2 then
    let f := st8 f (fadt_offset "preferred_pm_profile") 0 in
    let f := st8 f (fadt_offset "pstate_cnt") 0 in
    let f := st8 f (fadt_offset "cst_cnt") 0 in
    st16 f (fadt_offset "iapc_boot_arch") 0
  else f.

Definition widen_dsdt (f : mem) : mem := if ld64 f (fadt_offset "x_dsdt") =? 0 then st64 f (fadt_offset "x_dsdt") (ld32 f (fadt_offset "dsdt")) else f.
Definition widen_firmware_ctrl (f : mem) : mem :=
  if negb (ld32 f (fadt_offset "firmware_ctrl") =? 0) then st64 f (fadt_offset "x_firmware_ctrl") (ld32 f (fadt_offset "firmware_ctrl")) else f.

Definition fadt_before_dsdt (vm : mem) (virt : Z) (c : fadt_ctx) : fadt_ctx :=
  let f := fadt_copy vm virt (fadt c) in
  c <| is_hardware_reduced := truthy (ld32 f (fadt_offset "flags") &&& ACPI_HW_REDUCED_ACPI) |> <| fadt := widen_dsdt (clear_reserved (fadt_ensure_correct_revision f)) |>.

Definition fadt_after_dsdt (c : fadt_ctx) : fadt_ctx :=
  let c := c <| fadt := widen_firmware_ctrl (fadt c) |> in
  if negb (is_hardware_reduced c) then split_event_blocks (c <| fadt := convert_registers_to_gas (fadt c) |>) else c.

(** ** What the copy becomes *)

Lemma store_gas_out f o g x : x < o \/ o + 12 <= x -> store_gas f o g x = f x.
Proof. intros H. unfold store_gas. rewrite !st8_other by lia. apply stn_out. lia. Qed.

Lemma store_gas_agree f o g a n : a + n <= o \/ o + 12 <= a -> agree f (store_gas f o g) a n.
Proof. intros H x Hx. apply store_gas_out. lia. Qed.

Definition gas_fits (g : acpi_gas) : Prop :=
  0 <= address_space_id g < 256 /\ 0 <= register_bit_width g < 256 /\ 0 <= register_bit_offset g < 256 /\ 0 <= access_size g < 256 /\ 0 <= address g < 2 ^ 64.

Lemma load_store_gas f o g : gas_fits g -> load_gas (store_gas f o g) o = g.
Proof.
  intros (Ha & Hb & Hc & Hd & He). destruct g as [a w b s d]. cbn in *. unfold load_gas, store_gas. cbn [address address_space_id register_bit_width register_bit_offset access_size].
  f_equal.
  - unfold ld8. rewrite !st8_other, st8_same by lia. rewrite u8_idem. by apply u8_small.
  - unfold ld8. rewrite !st8_other, st8_same by lia. rewrite u8_idem. by apply u8_small.
  - unfold ld8. rewrite !st8_other, st8_same by lia. rewrite u8_idem. by apply u8_small.
  - unfold ld8. rewrite st8_same. rewrite u8_idem. by apply u8_small.
  - transitivity (ld64 (st64 f (o + 4) d) (o + 4)); [apply ldn_ext; intros x Hx; rewrite !st8_other by lia; done|]. rewrite ldn_stn_same. apply Z.mod_small. lia.
Qed.

Lemma load_gas_ext f f' o : agree f f' o 12 -> load_gas f' o = load_gas f o.
Proof.
  intros H. unfold load_gas, ld8. rewrite !H by lia. f_equal. apply ldn_ext. intros x Hx. apply H. lia.
Qed.

Lemma gas_init_fits a n : gas_fits (gas_init_system_io a n).
Proof. unfold gas_fits, gas_init_system_io. cbn. pose proof (u8_range n). pose proof (u64_range a). unfold UACPI_ADDRESS_SPACE_SYSTEM_IO. split_and!; lia. Qed.

(** The generic address of a register: its own, or one made from the legacy address. *)
Definition register_gas (f : mem) (desc : register_description) : acpi_gas :=
  if address (load_gas f (rd_xoffset desc)) =? 0 then gas_init_system_io (ld32 f (rd_offset desc)) (ld8 f (rd_length_offset desc)) else load_gas f (rd_xoffset desc).

Lemma convert_register_out f desc x : x < rd_xoffset desc \/ rd_xoffset desc + 12 <= x -> convert_register f desc x = f x.
Proof. intros H. unfold convert_register. destruct (negb _); [done|]. by apply store_gas_out. Qed.

Lemma convert_register_here f desc : load_gas (convert_register f desc) (rd_xoffset desc) = register_gas f desc.
Proof. unfold convert_register, register_gas. destruct (address _ =? 0); cbn [negb]; [|done]. apply load_store_gas, gas_init_fits. Qed.

Lemma fadt_registers_eq : fadt_registers =
  [RegisterDescription 56 148 88; RegisterDescription 60 160 88; RegisterDescription 64 172 89; RegisterDescription 68 184 89;
   RegisterDescription 72 196 90; RegisterDescription 76 208 91; RegisterDescription 80 220 92; RegisterDescription 84 232 93].
Proof. done. Qed.

Definition behind (d e : register_description) : Prop := rd_xoffset d + 12 <= rd_xoffset e.
Definition legacy_first (d : register_description) : Prop := rd_offset d + 4 <= 148 /\ rd_length_offset d + 1 <= 148 /\ 148 <= rd_xoffset d.

Lemma register_gas_ext f f' d : legacy_first d -> agree f f' (rd_offset d) 4 -> agree f f' (rd_length_offset d) 1 -> agree f f' (rd_xoffset d) 12 -> register_gas f' d = register_gas f d.
Proof. intros _ H1 H2 H3. unfold register_gas. rewrite (load_gas_ext f f') by done. rewrite (ldn_ext 4 f f') by done. by rewrite !ld8_ldn, (ldn_ext 1 f f') by done. Qed.

Lemma convert_all rs : Forall legacy_first rs -> StronglySorted behind rs -> forall f,
  (forall d, d ∈ rs -> load_gas (fold_left convert_register rs f) (rd_xoffset d) = register_gas f d) /\
  (forall x, (forall d, d ∈ rs -> x < rd_xoffset d \/ rd_xoffset d + 12 <= x) -> fold_left convert_register rs f x = f x).
Proof.
  induction 1 as [|d rs Hd Hrs IH]; intros Hs f; [split; [by intros d Hd%elem_of_nil|done]|]. apply StronglySorted_inv in Hs as [Hs Hb]. cbn [fold_left].
  destruct (IH Hs (convert_register f d)) as [IH1 IH2]. rewrite Forall_forall in Hb, Hrs. split.
  - intros e [->|He]%elem_of_cons.
    + rewrite <- convert_register_here. apply load_gas_ext. intros x Hx. apply IH2. intros e He. left. specialize (Hb e He). unfold behind in Hb. lia.
    + rewrite IH1 by done. specialize (Hb e He). destruct (Hrs e He) as (? & ? & ?). destruct Hd as (? & ? & ?). unfold behind in Hb.
      apply register_gas_ext; [done|..]; intros x Hx; apply convert_register_out; lia.
  - intros x Hx. rewrite IH2 by (intros e He; apply Hx; by constructor). apply convert_register_out. apply Hx. constructor.
Qed.

Lemma registers_apart : Forall legacy_first fadt_registers /\ StronglySorted behind fadt_registers.
Proof. rewrite fadt_registers_eq. unfold legacy_first, behind. split; repeat constructor; cbn; lia. Qed.

Lemma registers_converted f :
  (forall d, d ∈ fadt_registers -> load_gas (convert_registers_to_gas f) (rd_xoffset d) = register_gas f d) /\
  (forall x, x < 148 \/ 244 <= x -> convert_registers_to_gas f x = f x).
Proof.
  destruct registers_apart as [H1 H2]. destruct (convert_all _ H1 H2 f) as [Ha Hb]. split; [done|]. intros x Hx. apply Hb. intros d Hd. rewrite fadt_registers_eq in Hd.
  repeat (apply elem_of_cons in Hd as [->|Hd]; [cbn; lia|]). by apply elem_of_nil in Hd.
Qed.

(** The steps touch only their own members. *)
Lemma revision_frame f x : x <> 8 -> fadt_ensure_correct_revision f x = f x.
Proof. intros H. unfold fadt_ensure_correct_revision. change (fadt_offset "revision") with 8. destruct (_ =? 6); [by apply st8_other|]. destruct (_ && _); [by apply st8_other|done]. Qed.
Lemma reserved_frame f x : x <> 45 -> x <> 55 -> x <> 95 -> x <> 109 -> x <> 110 -> clear_reserved f x = f x.
Proof.
  intros. unfold clear_reserved. destruct (_ <=? 2); [|done]. change (fadt_offset "iapc_boot_arch") with 109. rewrite stn_out by lia.
  change (fadt_offset "cst_cnt") with 95. change (fadt_offset "pstate_cnt") with 55. change (fadt_offset "preferred_pm_profile") with 45. by rewrite !st8_other by done.
Qed.
Lemma dsdt_frame f x : x < 140 \/ 148 <= x -> widen_dsdt f x = f x.
Proof. intros. unfold widen_dsdt. change (fadt_offset "x_dsdt") with 140. destruct (_ =? 0); [apply stn_out; lia|done]. Qed.
Lemma firmware_ctrl_frame f x : x < 132 \/ 140 <= x -> widen_firmware_ctrl f x = f x.
Proof. intros. unfold widen_firmware_ctrl. change (fadt_offset "x_firmware_ctrl") with 132. destruct (negb _); [apply stn_out; lia|done]. Qed.

(** The least revision of the length, or the newest known; 3 and 4 have the same length. *)
Definition revision_fits (len r : Z) : Prop :=
  1 <= r <= 6 /\ (len <= 276 -> exists z, zget fadt_version_sizes (r - 1) = Some z /\ len <= z /\ forall i y, i < r - 1 -> zget fadt_version_sizes i = Some y -> y < len \/ y = z).

Lemma revision_spec f : revision_fits (ld32 f 4) (ld8 (fadt_ensure_correct_revision f) 8).
Proof.
  unfold fadt_ensure_correct_revision. change (fadt_offset "revision") with 8. change (fadt_offset "length") with 4. generalize (ld32 f 4) as len. intros len.
  assert (Hst : forall v, 0 <= v < 256 -> ld8 (st8 f 8 v) 8 = v) by (intros v Hv; unfold ld8; rewrite st8_same, u8_idem; by apply u8_small).
  assert (Hsmall : forall r z, 1 <= r <= 6 -> zget fadt_version_sizes (r - 1) = Some z -> len <= z -> (forall i y, i < r - 1 -> zget fadt_version_sizes i = Some y -> y < len \/ y = z) -> revision_fits len r)
    by (intros r z Hr Hz Hl Hi; split; [done|]; intros _; by exists z).
  assert (Hbelow : forall r i y, 1 <= r <= 6 -> i < r - 1 -> zget fadt_version_sizes i = Some y ->
    i = 0 /\ y = 116 \/ i = 1 /\ y = 132 \/ i = 2 /\ y = 244 \/ i = 3 /\ y = 244 \/ i = 4 /\ y = 268).
  { intros r i y Hr Hi Hy. pose proof (zget_lt _ _ _ Hy) as Hlt. cbn in Hlt. assert (i = 0 \/ i = 1 \/ i = 2 \/ i = 3 \/ i = 4) as [->|[->|[->|[->|]]]] by lia; subst; cbn in Hy; injection Hy as <-; lia. }
  assert (Hfit : let k := fitting_revision fadt_version_sizes len 0 in
    k = 0 /\ len <= 116 \/ k = 1 /\ 116 < len <= 132 \/ k = 2 /\ 132 < len <= 244 \/ k = 4 /\ 244 < len <= 268 \/ k = 5 /\ 268 < len <= 276 \/ k = 6 /\ 276 < len).
  { unfold fadt_version_sizes. cbn [fitting_revision]. cbv zeta. repeat match goal with |- context [?a <=? ?b] => destruct (Z.leb_spec a b) end; lia. }
  assert (Hcase : forall r z, 1 <= r <= 6 -> zget fadt_version_sizes (r - 1) = Some z -> len <= z -> (forall i y, i < r - 1 -> zget fadt_version_sizes i = Some y -> y < len \/ y = z) -> r <> 3 ->
    revision_fits len (ld8 (if negb (ld8 f 8 =? r) && negb ((r =? 3) && (ld8 f 8 =? 4)) then st8 f 8 r else f) 8)).
  { intros r z Hr Hz Hl Hi H3. rewrite (proj2 (Z.eqb_neq r 3) H3). cbn [andb negb]. rewrite andb_true_r. destruct (Z.eqb_spec (ld8 f 8) r) as [E|E]; cbn [negb]; [rewrite E|rewrite Hst by lia]; by eapply Hsmall. }
  cbv zeta in *. revert Hfit. generalize (fitting_revision fadt_version_sizes len 0) as k.
  intros k [[-> H]|[[-> H]|[[-> H]|[[-> H]|[[-> H]|[-> H]]]]]].
  - apply (Hcase 1 116); [lia|done|lia| |lia]. intros i y Hi Hy. destruct (Hbelow 1 i y ltac:(lia) Hi Hy) as [|[|[|[|]]]]; lia.
  - apply (Hcase 2 132); [lia|done|lia| |lia]. intros i y Hi Hy. destruct (Hbelow 2 i y ltac:(lia) Hi Hy) as [|[|[|[|]]]]; lia.
  - change (2 =? 6) with false. change (2 + 1) with 3. change (3 =? 3) with true. cbv iota. cbn [andb]. destruct (Z.eqb_spec (ld8 f 8) 3) as [E|E]; cbn [negb andb].
    + rewrite E. apply (Hsmall 3 244); [lia|done|lia|]. intros i y Hi Hy. destruct (Hbelow 3 i y ltac:(lia) Hi Hy) as [|[|[|[|]]]]; lia.
    + destruct (Z.eqb_spec (ld8 f 8) 4) as [E4|E4]; cbn [negb]; [rewrite E4; apply (Hsmall 4 244)|rewrite Hst by lia; apply (Hsmall 3 244)]; try lia; try done; intros i y Hi Hy;
        [destruct (Hbelow 4 i y ltac:(lia) Hi Hy) as [|[|[|[|]]]]|destruct (Hbelow 3 i y ltac:(lia) Hi Hy) as [|[|[|[|]]]]]; lia.
  - apply (Hcase 5 268); [lia|done|lia| |lia]. intros i y Hi Hy. destruct (Hbelow 5 i y ltac:(lia) Hi Hy) as [|[|[|[|]]]]; lia.
  - apply (Hcase 6 276); [lia|done|lia| |lia]. intros i y Hi Hy. destruct (Hbelow 6 i y ltac:(lia) Hi Hy) as [|[|[|[|]]]]; lia.
  - change (6 =? 6) with true. cbv iota. rewrite Hst by lia. split; [lia|]. lia.
Qed.

(** The copy before registers are converted. *)
Lemma fadt_frame f x : x <> 8 -> x <> 45 -> x <> 55 -> x <> 95 -> x <> 109 -> x <> 110 -> x < 132 \/ 148 <= x ->
  widen_firmware_ctrl (widen_dsdt (clear_reserved (fadt_ensure_correct_revision f))) x = f x.
Proof. intros. by rewrite firmware_ctrl_frame, dsdt_frame, reserved_frame, revision_frame by lia. Qed.

Lemma widened f : let f' := widen_firmware_ctrl (widen_dsdt (clear_reserved (fadt_ensure_correct_revision f))) in
  ld64 f' 140 = (if ld64 f 140 =? 0 then ld32 f 40 else ld64 f 140) /\ ld64 f' 132 = (if ld32 f 36 =? 0 then ld64 f 132 else ld32 f 36) /\
  revision_fits (ld32 f 4) (ld8 f' 8) /\ (ld8 f' 8 <= 2 -> ld8 f' 45 = 0 /\ ld8 f' 55 = 0 /\ ld8 f' 95 = 0 /\ ld16 f' 109 = 0).
Proof.
  cbv zeta. set (f1 := fadt_ensure_correct_revision f). set (f2 := clear_reserved f1). set (f3 := widen_dsdt f2).
  assert (H2 : forall a n, 111 <= a \/ 9 <= a /\ a + n <= 45 -> agree f f2 a n) by (intros a n Ha x Hx; unfold f2, f1; by rewrite reserved_frame, revision_frame by lia).
  assert (Hsmall : forall a, 0 <= ld32 f a < 18446744073709551616) by (intros a; pose proof (ld32_range f a); lia).
  assert (H3 : ld32 f3 36 = ld32 f 36) by (apply ldn_ext; eapply agree_trans; [apply H2; right; cbn; lia|]; intros x Hx; apply dsdt_frame; lia).
  split; [|split; [|split]].
  - transitivity (ld64 f3 140); [apply ldn_ext; intros x Hx; apply firmware_ctrl_frame; lia|]. unfold f3, widen_dsdt. change (fadt_offset "x_dsdt") with 140. change (fadt_offset "dsdt") with 40.
    rewrite (ldn_ext 8 f f2 140) by (apply H2; lia). rewrite (ldn_ext 4 f f2 40) by (apply H2; right; cbn; lia).
    destruct (ld64 f 140 =? 0); [by rewrite ld64_st64_same|]. apply ldn_ext, H2. lia.
  - unfold widen_firmware_ctrl. change (fadt_offset "firmware_ctrl") with 36. change (fadt_offset "x_firmware_ctrl") with 132. rewrite H3. destruct (ld32 f 36 =? 0); cbn [negb]; [|by rewrite ld64_st64_same].
    apply ldn_ext. eapply agree_trans; [apply H2; lia|]. intros x Hx. apply dsdt_frame. cbn in Hx. lia.
  - assert (ld8 (widen_firmware_ctrl f3) 8 = ld8 f1 8) as ->; [|apply revision_spec]. unfold ld8. rewrite firmware_ctrl_frame by lia. unfold f3. rewrite dsdt_frame by lia. unfold f2. by rewrite reserved_frame.
  - assert (Hrd : forall x, x < 132 -> widen_firmware_ctrl f3 x = f2 x) by (intros x Hx; rewrite firmware_ctrl_frame by lia; unfold f3; by rewrite dsdt_frame by lia).
    unfold ld8 at 1 2 3 4. rewrite !Hrd by lia. rewrite (ldn_ext 2 f2 (widen_firmware_ctrl f3) 109) by (intros x Hx; apply Hrd; cbn in Hx; lia). intros Hr.
    assert (Hr1 : ld8 f1 8 <= 2) by (unfold f2 in Hr; by rewrite reserved_frame in Hr). unfold f2, clear_reserved. change (fadt_offset "revision") with 8. rewrite (proj2 (Z.leb_le _ _) Hr1).
    change (fadt_offset "iapc_boot_arch") with 109. change (fadt_offset "cst_cnt") with 95. change (fadt_offset "pstate_cnt") with 55. change (fadt_offset "preferred_pm_profile") with 45.
    rewrite !stn_out by lia. rewrite ldn_stn_same. rewrite st8_same, !(st8_other _ 95), !(st8_other _ 55), !st8_same by lia. done.
Qed.


(** The halves of an event block are always taken to be I/O ports, also when the block is in
    memory. *)
Theorem event_blocks_become_ports c : let src := load_gas (fadt c) (fadt_offset "x_pm1a_evt_blk") in
  address src <> 0 -> address_space_id (pm1a_status_blk (split_event_blocks c)) = UACPI_ADDRESS_SPACE_SYSTEM_IO /\ address_space_id (pm1a_enable_blk (split_event_blocks c)) = UACPI_ADDRESS_SPACE_SYSTEM_IO.
Proof.
  intros src Hs. unfold split_event_blocks. fold src. unfold split_one_block at 1 3. rewrite (proj2 (Z.eqb_neq _ 0) Hs). by destruct (split_one_block (load_gas (fadt c) (fadt_offset "x_pm1b_evt_blk")) _ _).
Qed.
