(* ===== verification/AcpiTables.v ===== *)
(** * ACPI tables, [src/src/uacpi/tables.c]

    uACPI keeps a list of the tables it knows: where each is, its header, how many users it has.
    A table in physical memory is mapped while it has users.  Operations run on a state with the
    list, the mappings and heap memory in use, and the part of the runtime context that the FADT
    fills.  A program is done, does wrong (releases what it does not have, or reaches outside the
    list), or does not end (it waits for a mutex it holds, or goes on for ever).  The memory of the tables is a parameter: nothing here writes
    to it.  So are the kernel's [uacpi_kernel_map], its heap, and the answer to the RSDP. *)

From stdpp Require Import strings.
From S2P Require Import Prelude Mem CString Layout KernelApi AcpiField AcpiRegion AcpiGas AcpiRegs AcpiLock AcpiNs AcpiNsIter AcpiNsInit AcpiDynArray AcpiFadt.
Open Scope Z_scope.

Definition UACPI_STATUS_BAD_CHECKSUM : Z := 3.
Definition UACPI_STATUS_INVALID_SIGNATURE : Z := 4.
Definition UACPI_STATUS_INVALID_TABLE_LENGTH : Z := 5.
Definition UACPI_STATUS_ALREADY_EXISTS : Z := 9.
Definition UACPI_STATUS_OVERRIDDEN : Z := 19.

Definition UACPI_FLAG_BAD_CSUM_FATAL : Z := 1 <<< 0.
Definition UACPI_FLAG_BAD_TBL_SIGNATURE_FATAL : Z := 1 <<< 1.
Definition UACPI_FLAG_BAD_XSDT : Z := 1 <<< 2.
Definition UACPI_FLAG_PROACTIVE_TBL_CSUM : Z := 1 <<< 5.

(** ** Data *)

Definition chars (s : string) : list Z := (fun c => Z.of_nat (Ascii.nat_of_ascii c)) <$> String.list_ascii_of_string s.
Definition ACPI_RSDT_SIGNATURE : list Z := chars "RSDT".
Definition ACPI_XSDT_SIGNATURE : list Z := chars "XSDT".
Definition ACPI_FADT_SIGNATURE : list Z := chars "FACP".
Definition ACPI_FACS_SIGNATURE : list Z := chars "FACS".
Definition ACPI_DSDT_SIGNATURE : list Z := chars "DSDT".

(** The members of the header that are used. *)
Record acpi_sdt_hdr := Hdr { signature : list Z; hdr_length : Z; revision : Z; oemid : list Z; oem_table_id : list Z }.
Definition SDT_HDR_SIZE : Z := 36.

Definition bytes (vm : mem) (p : Z) (n : nat) : list Z := (fun i => ld8 vm (p + i)) <$> seqZ 0 (Z.of_nat n).
Definition read_hdr (vm : mem) (p : Z) : acpi_sdt_hdr := Hdr (bytes vm p 4) (ld32 vm (p + 4)) (ld8 vm (p + 8)) (bytes vm (p + 10) 6) (bytes vm (p + 16) 8).

Definition UACPI_TABLE_ORIGIN_FIRMWARE_VIRTUAL : Z := 0.
Definition UACPI_TABLE_ORIGIN_FIRMWARE_PHYSICAL : Z := 1.
Definition UACPI_TABLE_ORIGIN_HOST_VIRTUAL : Z := 2.
Definition UACPI_TABLE_ORIGIN_HOST_PHYSICAL : Z := 3.
Definition physical (origin : Z) : bool := (origin =? UACPI_TABLE_ORIGIN_HOST_PHYSICAL) || (origin =? UACPI_TABLE_ORIGIN_FIRMWARE_PHYSICAL).

Definition UACPI_TABLE_LOADED : Z := 1 <<< 0.
Definition UACPI_TABLE_CSUM_VERIFIED : Z := 1 <<< 1.
Definition UACPI_TABLE_INVALID : Z := 1 <<< 2.

Record uacpi_installed_table := Table { phys_addr : Z; hdr : acpi_sdt_hdr; ptr : Z; reference_count : Z; flags : Z; origin : Z }.
#[global] Instance eta_table : Eta uacpi_installed_table := EtaOf _ (fun t => Table (phys_addr t) (hdr t) (ptr t) (reference_count t) (flags t) (origin t)).
Definition TABLE_SIZE : Z := 64.
Definition blank : uacpi_installed_table := Table 0 (Hdr [] 0 0 [] []) 0 0 0 0.

Definition UACPI_STATIC_TABLE_ARRAY_LEN : Z := 16.
Abbreviation table_array := (dynamic_array (A := uacpi_installed_table)).
Abbreviation table_array_at := (array_at UACPI_STATIC_TABLE_ARRAY_LEN).
Abbreviation table_array_put := (array_put UACPI_STATIC_TABLE_ARRAY_LEN).
Abbreviation table_array_alloc := (array_alloc UACPI_STATIC_TABLE_ARRAY_LEN TABLE_SIZE blank).
Abbreviation table_array_capacity := (array_capacity UACPI_STATIC_TABLE_ARRAY_LEN).
Abbreviation table_array_size := (array_size (A := uacpi_installed_table)).

(** [UACPI_TABLE_INSTALLATION_DISPOSITON_...], and the handler: from the address of a table to a
    disposition and an address to take instead. *)
Definition DISPOSITON_ALLOW : Z := 0.
Definition DISPOSITON_DENY : Z := 1.
Definition DISPOSITON_VIRTUAL_OVERRIDE : Z := 2.
Definition DISPOSITON_PHYSICAL_OVERRIDE : Z := 3.

(** [maps]: the mappings in use, as address and length; [heap]: the heap memory in use;
    [table_mutex]: 0 when there is none; [held]: whether it was taken and not given back. *)
Record tstate := TState { tables : table_array; early_table_access : bool; installation_handler : option (Z -> Z * Z);
  table_mutex : Z; held : bool; maps : list (Z * Z); heap : list Z; rt_flags : Z; ts_init_level : Z; ctx : fadt_ctx }.
#[global] Instance eta_tstate : Eta tstate := EtaOf _ (fun t =>
  TState (tables t) (early_table_access t) (installation_handler t) (table_mutex t) (held t) (maps t) (heap t) (rt_flags t) (ts_init_level t) (ctx t)).

(** ** Programs *)

Inductive outcome (A : Type) := Done (x : A) (t : tstate) | Wrong | Endless.
Arguments Done {A} x t. Arguments Wrong {A}. Arguments Endless {A}.
Definition tio (A : Type) : Type := tstate -> outcome A.
#[global] Instance tio_ret : MRet tio := fun A x t => Done x t.
#[global] Instance tio_bind : MBind tio := fun A B f m t => match m t with Done x t => f x t | Wrong => Wrong | Endless => Endless end.
Definition get {A} (f : tstate -> A) : tio A := fun t => Done (f t) t.
Definition modify (f : tstate -> tstate) : tio () := fun t => Done tt (f t).
Definition endless {A} : tio A := fun _ => Endless.
Definition lift {A} (x : option A) : tio A := fun t => match x with None => Wrong | Some x => Done x t end.

(** The first occurrence is taken out. *)
Fixpoint take_out {A} `{EqDecision A} (x : A) (l : list A) : option (list A) :=
  match l with
  | [] => None
  | y :: l => if decide (x = y) then Some l else l ← take_out x l; Some (y :: l)
  end.

(** [uacpi_check_flag]. *)
Definition check_flag (flag : Z) : tio bool := f ← get rt_flags; mret (f &&& flag =? flag).

Section Tables.
(** The memory; [kmap]: where a physical range gets mapped, 0 for nowhere; [kalloc]: heap memory,
    0 for none. *)
Context (vm : mem) (kmap : Z -> Z -> Z) (kalloc : list Z -> Z -> Z).

Definition uacpi_kernel_map (phys len : Z) : tio Z :=
  let v := kmap phys len in
  if v =? 0 then mret 0 else _ ← modify (fun t => t <| maps := (v, len) :: maps t |>); mret v.
Definition uacpi_kernel_unmap (v len : Z) : tio () :=
  l ← get maps; l ← lift (take_out (v, len) l); modify (fun t => t <| maps := l |>).
Definition kernel_alloc (n : Z) : tio Z :=
  l ← get heap;
  let p := kalloc l n in
  if p =? 0 then mret 0 else _ ← modify (fun t => t <| heap := p :: heap t |>); mret p.
Definition kernel_free (p : Z) : tio () :=
  if p =? 0 then mret tt else l ← get heap; l ← lift (take_out p l); modify (fun t => t <| heap := l |>).

(** [UACPI_MUTEX_ACQUIRE_IF_EXISTS]: the kernel's mutexes always grant; [held] records that the
    mutex was taken and not yet given back. *)
Definition acquire_mutex : tio () :=
  m ← get table_mutex; if m =? 0 then mret tt else modify (fun t => t <| held := true |>).
Definition release_mutex : tio () := m ← get table_mutex; if m =? 0 then mret tt else modify (fun t => t <| held := false |>).

Definition ENSURE_TABLES_ONLINE : tio bool :=
  e ← get early_table_access; l ← get ts_init_level;
  mret ((e : bool) || negb (l <? UACPI_INIT_LEVEL_SUBSYSTEM_INITIALIZED)).

(** ** Checks *)

Definition table_checksum (table size : Z) : Z := floop (Z.to_nat size) 0 (fun i csum => u8 (csum + ld8 vm (table + i))) 0.

Definition uacpi_verify_table_checksum (table size : Z) : tio Z :=
  if truthy (table_checksum table size) then fatal ← check_flag UACPI_FLAG_BAD_CSUM_FATAL; mret (if (fatal : bool) then UACPI_STATUS_BAD_CHECKSUM else UACPI_STATUS_OK)
  else mret UACPI_STATUS_OK.

Definition uacpi_signatures_match (lhs rhs : list Z) : bool := bool_decide (lhs = rhs).

Definition uacpi_check_table_signature (sig expect : list Z) : tio Z :=
  if negb (uacpi_signatures_match sig expect)
  then fatal ← check_flag UACPI_FLAG_BAD_TBL_SIGNATURE_FATAL; mret (if (fatal : bool) then UACPI_STATUS_INVALID_SIGNATURE else UACPI_STATUS_OK)
  else mret UACPI_STATUS_OK.

(** The new element is the last one. *)
Definition table_alloc : tio (option Z) :=
  arr ← get tables; early ← get early_table_access;
  if (early : bool) && (table_array_size arr =? table_array_capacity arr) then mret None
  else
    l ← get heap;
    let '(arr, ok, (taken, given)) := table_array_alloc (kalloc l) arr in
    if (ok : bool) then
      _ ← modify (fun t => t <| tables := arr |> <| heap := taken ++ heap t |>);
      _ ← match given with [p] => kernel_free p | _ => mret tt end;
      mret (Some (table_array_size arr - 1))
    else mret None.

Definition get_external_table_header (phys : Z) : tio (Z + acpi_sdt_hdr) :=
  virt ← uacpi_kernel_map phys SDT_HDR_SIZE;
  if virt =? 0 then mret (inl UACPI_STATUS_MAPPING_FAILED)
  else
    let h := read_hdr vm virt in
    _ ← uacpi_kernel_unmap virt SDT_HDR_SIZE; mret (inr h).

(** ** Users of a table *)

Definition get_table (idx : Z) : tio uacpi_installed_table := arr ← get tables; lift (table_array_at arr idx).
Definition put_table (idx : Z) (tbl : uacpi_installed_table) : tio () := arr ← get tables; arr ← lift (table_array_put arr idx tbl); modify (fun t => t <| tables := arr |>).

(** The end of [table_ref_unlocked]. *)
Definition count_up (idx : Z) : tio Z :=
  tbl ← get_table idx;
  _ ← (if negb (reference_count tbl =? 0xFFFF) then put_table idx (tbl <| reference_count := u16 (reference_count tbl + 1) |>) else mret tt);
  mret UACPI_STATUS_OK.

Definition table_ref_unlocked (idx : Z) : tio Z :=
  tbl ← get_table idx;
  if reference_count tbl =? 0 then
    if truthy (flags tbl &&& UACPI_TABLE_INVALID) then mret UACPI_STATUS_INVALID_ARGUMENT
    else if negb (physical (origin tbl)) then count_up idx
    else
      p ← uacpi_kernel_map (phys_addr tbl) (hdr_length (hdr tbl));
      let tbl := tbl <| ptr := p |> in
      _ ← put_table idx tbl;
      if p =? 0 then mret UACPI_STATUS_MAPPING_FAILED
      else if truthy (flags tbl &&& UACPI_TABLE_CSUM_VERIFIED) then count_up idx
      else
        ret ← uacpi_verify_table_checksum p (hdr_length (hdr tbl));
        if negb (ret =? UACPI_STATUS_OK) then
          _ ← uacpi_kernel_unmap p (hdr_length (hdr tbl));
          _ ← put_table idx (tbl <| flags := flags tbl ||| UACPI_TABLE_INVALID |> <| ptr := 0 |>);
          mret ret
        else
          _ ← put_table idx (tbl <| flags := flags tbl ||| UACPI_TABLE_CSUM_VERIFIED |>);
          count_up idx
  else count_up idx.

Definition table_unref_unlocked (idx : Z) : tio Z :=
  tbl ← get_table idx;
  let c := reference_count tbl in
  if c =? 0 then mret UACPI_STATUS_INVALID_ARGUMENT
  else if c =? 0xFFFF then mret UACPI_STATUS_OK
  else
    tbl ← (if (c =? 1) && physical (origin tbl) then _ ← uacpi_kernel_unmap (ptr tbl) (hdr_length (hdr tbl)); mret (tbl <| ptr := 0 |>) else mret tbl);
    _ ← put_table idx (tbl <| reference_count := u16 (c - 1) |>);
    mret UACPI_STATUS_OK.
End Tables.
