(* ===== verification/AcpiTablesOps.v ===== *)
(** * Installing, finding and releasing ACPI tables, [src/src/uacpi/tables.c] *)

From stdpp Require Import strings.
From S2P Require Import Prelude Mem CString Layout KernelApi AcpiField AcpiRegion AcpiGas AcpiRegs AcpiLock AcpiNs AcpiNsIter AcpiNsInit AcpiDynArray AcpiFadt AcpiTables.
Open Scope Z_scope.

(** A table to install: in physical memory, perhaps with a signature, or at an address.  [want]:
    whether the caller wants the table back. *)
Inductive request :=
  | Physical (phys origin : Z) (expected_signature : option (list Z)) (want : bool)
  | Virtual (virt origin : Z) (want : bool).

(** A status, and the table (address and index) if one was written for the caller. *)
Definition answer : Type := Z * option (Z * Z).

Section Ops.
Context (vm : mem) (kmap : Z -> Z -> Z) (kalloc : list Z -> Z -> Z).
Abbreviation map_ := (uacpi_kernel_map kmap).
Abbreviation success := (fun r : Z => r =? UACPI_STATUS_OK).

(** ** Installation; [install] is the function for the tables that lead to others. *)
Section Install.
Context (install : request -> tio answer).

Definition initialize_fadt (virt : Z) : tio Z :=
  _ ← modify (fun t => t <| ctx := fadt_before_dsdt vm virt (ctx t) |>);
  c ← get ctx;
  let x_dsdt := ld64 (fadt c) (fadt_offset "x_dsdt") in
  ret ← (if negb (x_dsdt =? 0) then
           '(ret, _) ← install (Physical x_dsdt UACPI_TABLE_ORIGIN_FIRMWARE_PHYSICAL (Some ACPI_DSDT_SIGNATURE) false);
           mret (if success ret || (ret =? UACPI_STATUS_OVERRIDDEN) then UACPI_STATUS_OK else ret)
         else mret UACPI_STATUS_OK);
  if negb (success ret) then mret ret
  else _ ← modify (fun t => t <| ctx := fadt_after_dsdt (ctx t) |>); mret UACPI_STATUS_OK.

(** The check at installation: a status, and the flags of the table. *)
Definition check_table (h : acpi_sdt_hdr) (phys virt : Z) (want : bool) : tio (Z * Z) :=
  let is_fadt := uacpi_signatures_match (signature h) ACPI_FADT_SIGNATURE in
  if uacpi_signatures_match (signature h) ACPI_FACS_SIGNATURE then mret (UACPI_STATUS_OK, UACPI_TABLE_CSUM_VERIFIED)
  else
    proactive ← check_flag UACPI_FLAG_PROACTIVE_TBL_CSUM;
    if (proactive : bool) || is_fadt || want then
      mapping ← (if virt =? 0 then map_ phys (hdr_length h) else mret virt);
      if mapping =? 0 then mret (UACPI_STATUS_MAPPING_FAILED, 0)
      else
        ret ← uacpi_verify_table_checksum vm mapping (hdr_length h);
        '(ret, f) ← (if success ret then ret ← (if is_fadt then initialize_fadt mapping else mret ret); mret (ret, UACPI_TABLE_CSUM_VERIFIED) else mret (ret, 0));
        _ ← (if virt =? 0 then uacpi_kernel_unmap mapping (hdr_length h) else mret tt);
        mret (ret, f)
    else mret (UACPI_STATUS_OK, 0).

Definition verify_and_install_table (h : acpi_sdt_hdr) (phys virt origin : Z) (want : bool) : tio answer :=
  '(ret, f) ← check_table h phys virt want;
  if negb (success ret) then mret (ret, None)
  else
    _ ← (if uacpi_signatures_match (signature h) ACPI_DSDT_SIGNATURE then modify (fun t => t <| ctx := (ctx t) <| is_rev1 := revision h <? 2 |> |>) else mret tt);
    idx ← table_alloc kalloc;
    match idx with
    | None => mret (UACPI_STATUS_OUT_OF_MEMORY, None)
    | Some idx =>
      _ ← put_table idx (Table phys h virt (if (want : bool) then 1 else 0) f origin);
      mret (UACPI_STATUS_OK, if (want : bool) then Some (virt, idx) else None)
    end.

Definition handle_table_override (disposition address : Z) (want : bool) : tio answer :=
  if disposition =? DISPOSITON_VIRTUAL_OVERRIDE then install (Virtual address UACPI_TABLE_ORIGIN_HOST_VIRTUAL want)
  else if disposition =? DISPOSITON_PHYSICAL_OVERRIDE then install (Physical address UACPI_TABLE_ORIGIN_HOST_PHYSICAL None want)
  else mret (UACPI_STATUS_INTERNAL_ERROR, None).

(** What the installation handler says, for a table of the firmware. *)
Definition filter_table (firmware : bool) (virt : Z) (want : bool) (go : tio answer) : tio answer :=
  handler ← get installation_handler;
  match handler with
  | Some handler =>
    if firmware then
      let '(disposition, override) := handler virt in
      if disposition =? DISPOSITON_ALLOW then go
      else if disposition =? DISPOSITON_DENY then mret (UACPI_STATUS_DENIED, None)
      else '(ret, out) ← handle_table_override disposition override want; mret (if success ret then UACPI_STATUS_OVERRIDDEN else ret, out)
    else go
  | None => go
  end.

(** The last line of the source returns [UACPI_STATUS_OK], whatever the result was. *)
Definition table_install_physical_with_origin_unlocked (phys origin : Z) (expected : option (list Z)) (want : bool) : tio answer :=
  h ← get_external_table_header vm kmap phys;
  match h with
  | inl ret => mret (ret, None)
  | inr h =>
    if hdr_length h <? SDT_HDR_SIZE then mret (UACPI_STATUS_INVALID_TABLE_LENGTH, None)
    else
      ret ← match expected with Some s => uacpi_check_table_signature (signature h) s | None => mret UACPI_STATUS_OK end;
      if negb (success ret) then mret (ret, None)
      else
        handler ← get installation_handler;
        let mapped := match handler with Some _ => true | None => want end in
        virt ← (if mapped then map_ phys (hdr_length h) else mret 0);
        if mapped && (virt =? 0) then mret (UACPI_STATUS_MAPPING_FAILED, None)
        else
          '(ret, out) ← filter_table (origin =? UACPI_TABLE_ORIGIN_FIRMWARE_PHYSICAL) virt want (verify_and_install_table h phys virt origin want);
          if success ret && want then mret (ret, out)
          else
            _ ← (if negb (virt =? 0) then uacpi_kernel_unmap virt (hdr_length h) else mret tt);
            mret (UACPI_STATUS_OK, out)
  end.

Definition table_install_with_origin_unlocked (virt origin : Z) (want : bool) : tio answer :=
  let h := read_hdr vm virt in
  if hdr_length h <? SDT_HDR_SIZE then mret (UACPI_STATUS_INVALID_TABLE_LENGTH, None)
  else filter_table (origin =? UACPI_TABLE_ORIGIN_FIRMWARE_VIRTUAL) virt want (verify_and_install_table h 0 virt origin want).
End Install.

(** [fuel]: how many tables may lead to one another. *)
Fixpoint table_install (fuel : nat) (r : request) : tio answer :=
  match fuel with
  | O => endless
  | S f =>
    match r with
    | Physical phys origin expected want => table_install_physical_with_origin_unlocked (table_install f) phys origin expected want
    | Virtual virt origin want => table_install_with_origin_unlocked (table_install f) virt origin want
    end
  end.

Definition uacpi_table_install_physical_with_origin (fuel : nat) (phys origin : Z) (want : bool) : tio answer :=
  _ ← acquire_mutex; r ← table_install fuel (Physical phys origin None want); _ ← release_mutex; mret r.
Definition uacpi_table_install_with_origin (fuel : nat) (virt origin : Z) (want : bool) : tio answer :=
  _ ← acquire_mutex; r ← table_install fuel (Virtual virt origin want); _ ← release_mutex; mret r.

Definition uacpi_table_install (fuel : nat) (virt : Z) (want : bool) : tio answer :=
  online ← ENSURE_TABLES_ONLINE;
  if negb online then mret (UACPI_STATUS_INIT_LEVEL_MISMATCH, None) else uacpi_table_install_with_origin fuel virt UACPI_TABLE_ORIGIN_HOST_VIRTUAL want.
Definition uacpi_table_install_physical (fuel : nat) (addr : Z) (want : bool) : tio answer :=
  online ← ENSURE_TABLES_ONLINE;
  if negb online then mret (UACPI_STATUS_INIT_LEVEL_MISMATCH, None) else uacpi_table_install_physical_with_origin fuel addr UACPI_TABLE_ORIGIN_HOST_PHYSICAL want.

Definition uacpi_set_table_installation_handler (handler : option (Z -> Z * Z)) : tio Z :=
  _ ← acquire_mutex;
  old ← get installation_handler;
  _ ← match old, handler with Some _, Some _ => mret tt | _, _ => modify (fun t => t <| installation_handler := handler |>) end;
  _ ← release_mutex; mret UACPI_STATUS_OK.

(** ** Search *)

(** [cb]: what is done with a table, by index; whether to go on, and what to return. *)
Fixpoint for_each_loop {R} (k : nat) (idx : Z) (cb : R -> Z -> tio (R * bool)) (r : R) : tio R :=
  match k with
  | O => mret r
  | S k =>
    tbl ← get_table idx;
    if truthy (flags tbl &&& UACPI_TABLE_INVALID) then for_each_loop k (idx + 1) cb r
    else '(r, go_on) ← cb r idx; if (go_on : bool) then for_each_loop k (idx + 1) cb r else mret r
  end.

Definition uacpi_for_each_table {R} (base_idx : Z) (cb : R -> Z -> tio (R * bool)) (r : R) : tio (Z * R) :=
  online ← ENSURE_TABLES_ONLINE;
  if negb online then mret (UACPI_STATUS_INIT_LEVEL_MISMATCH, r)
  else
    _ ← acquire_mutex;
    arr ← get tables;
    r ← for_each_loop (Z.to_nat (table_array_size arr - base_idx)) base_idx cb r;
    _ ← release_mutex; mret (UACPI_STATUS_OK, r).

Record uacpi_table_identifiers := Identifiers { id_signature : list Z; id_oemid : list Z; id_oem_table_id : list Z }.

Definition id_matches (id : uacpi_table_identifiers) (h : acpi_sdt_hdr) : bool :=
  uacpi_signatures_match (id_signature id) (signature h) &&
  ((default 0 (head (id_oemid id)) =? 0) || bool_decide (id_oemid id = oemid h)) &&
  ((default 0 (head (id_oem_table_id id)) =? 0) || bool_decide (id_oem_table_id id = oem_table_id h)).

(** [do_search_tables]; the result is the status and the table found. *)
Definition do_search_tables (matches : uacpi_installed_table -> bool) (r : answer) (idx : Z) : tio (answer * bool) :=
  tbl ← get_table idx;
  if negb (matches tbl) then mret (r, true)
  else
    ret ← table_ref_unlocked vm kmap idx;
    if success ret then tbl ← get_table idx; mret ((ret, Some (ptr tbl, idx)), false)
    else if ret =? UACPI_STATUS_BAD_CHECKSUM then mret (r, true)
    else mret ((ret, None), false).

Definition search (base_idx : Z) (matches : uacpi_installed_table -> bool) : tio answer :=
  '(ret, r) ← uacpi_for_each_table base_idx (do_search_tables matches) (UACPI_STATUS_NOT_FOUND, None);
  mret (if negb (success ret) then (ret, None) else r).

Definition uacpi_table_match (base_idx : Z) (cb : uacpi_installed_table -> bool) : tio answer := search base_idx cb.
Definition find_table (base_idx : Z) (id : uacpi_table_identifiers) : tio answer := search base_idx (fun tbl => id_matches id (hdr tbl)).

Definition by_signature (sig : list Z) : uacpi_table_identifiers := Identifiers sig (replicate 6 0) (replicate 8 0).
Definition uacpi_table_find_by_signature (sig : list Z) : tio answer :=
  online ← ENSURE_TABLES_ONLINE; if negb online then mret (UACPI_STATUS_INIT_LEVEL_MISMATCH, None) else find_table 0 (by_signature sig).
Definition uacpi_table_find (id : uacpi_table_identifiers) : tio answer :=
  online ← ENSURE_TABLES_ONLINE; if negb online then mret (UACPI_STATUS_INIT_LEVEL_MISMATCH, None) else find_table 0 id.

(** ** Users and flags *)

Definition TABLE_CTL_SET_FLAGS : Z := 1 <<< 0.
Definition TABLE_CTL_CLEAR_FLAGS : Z := 1 <<< 1.
Definition TABLE_CTL_VALIDATE_SET_FLAGS : Z := 1 <<< 2.
Definition TABLE_CTL_VALIDATE_CLEAR_FLAGS : Z := 1 <<< 3.
Definition TABLE_CTL_GET : Z := 1 <<< 4.
Definition TABLE_CTL_PUT : Z := 1 <<< 5.
Record table_ctl_request := CtlRequest { ctl_type : Z; expect_set : Z; expect_clear : Z; ctl_set : Z; ctl_clear : Z }.

(** The steps of [table_ctl] in order; each has a status, and the first that fails ends it. *)
Fixpoint until_error (steps : list (tio Z)) : tio Z :=
  match steps with
  | [] => mret UACPI_STATUS_OK
  | s :: steps => ret ← s; if negb (success ret) then mret ret else until_error steps
  end.
Definition when (req : table_ctl_request) (bit : Z) (s : tio Z) : tio Z := if truthy (ctl_type req &&& bit) then s else mret UACPI_STATUS_OK.

Definition ctl_steps (idx : Z) (req : table_ctl_request) : list (tio Z) :=
  [when req TABLE_CTL_VALIDATE_SET_FLAGS (tbl ← get_table idx; mret (if negb (flags tbl &&& expect_set req =? expect_set req) then UACPI_STATUS_INVALID_ARGUMENT else UACPI_STATUS_OK));
   when req TABLE_CTL_VALIDATE_CLEAR_FLAGS (tbl ← get_table idx; mret (if negb (flags tbl &&& expect_clear req =? 0) then UACPI_STATUS_ALREADY_EXISTS else UACPI_STATUS_OK));
   when req TABLE_CTL_GET (table_ref_unlocked vm kmap idx);
   when req TABLE_CTL_PUT (table_unref_unlocked idx);
   when req TABLE_CTL_SET_FLAGS (tbl ← get_table idx; _ ← put_table idx (tbl <| flags := flags tbl ||| ctl_set req |>); mret UACPI_STATUS_OK);
   when req TABLE_CTL_CLEAR_FLAGS (tbl ← get_table idx; _ ← put_table idx (tbl <| flags := Z.ldiff (flags tbl) (ctl_clear req) |>); mret UACPI_STATUS_OK)].

(** An invalid table returns at once, without releasing the mutex.  The status, and where the
    table is when it was asked for. *)
Definition table_ctl (idx : Z) (req : table_ctl_request) : tio (Z * Z) :=
  online ← ENSURE_TABLES_ONLINE;
  if negb online then mret (UACPI_STATUS_INIT_LEVEL_MISMATCH, 0)
  else
    _ ← acquire_mutex;
    arr ← get tables;
    if table_array_size arr <=? idx then _ ← release_mutex; mret (UACPI_STATUS_INVALID_ARGUMENT, 0)
    else
      tbl ← get_table idx;
      if truthy (flags tbl &&& UACPI_TABLE_INVALID) then mret (UACPI_STATUS_INVALID_ARGUMENT, 0)
      else
        ret ← until_error (ctl_steps idx req);
        tbl ← get_table idx;
        _ ← release_mutex; mret (ret, ptr tbl).

Definition uacpi_table_ref (idx : Z) : tio Z := '(ret, _) ← table_ctl idx (CtlRequest TABLE_CTL_GET 0 0 0 0); mret ret.
Definition uacpi_table_unref (idx : Z) : tio Z := '(ret, _) ← table_ctl idx (CtlRequest TABLE_CTL_PUT 0 0 0 0); mret ret.
Definition uacpi_table_mark_as_loaded (idx : Z) : tio () := _ ← table_ctl idx (CtlRequest TABLE_CTL_SET_FLAGS 0 0 UACPI_TABLE_LOADED 0); mret tt.

(** [execute]: [uacpi_execute_table] on the table at an address. *)
Definition uacpi_table_load_with_cause (execute : Z -> tio Z) (idx : Z) : tio Z :=
  '(ret, p) ← table_ctl idx (CtlRequest (TABLE_CTL_SET_FLAGS ||| TABLE_CTL_VALIDATE_CLEAR_FLAGS ||| TABLE_CTL_GET) 0 UACPI_TABLE_LOADED UACPI_TABLE_LOADED 0);
  if negb (success ret) then mret ret
  else ret ← execute p; _ ← table_ctl idx (CtlRequest TABLE_CTL_PUT 0 UACPI_TABLE_LOADED UACPI_TABLE_LOADED 0); mret ret.
Definition uacpi_table_load (execute : Z -> tio Z) (idx : Z) : tio Z := uacpi_table_load_with_cause execute idx.

(** [ptr_], [idx]: the table the caller has. *)
Definition uacpi_table_find_next_with_same_signature (ptr_ idx : Z) : tio answer :=
  online ← ENSURE_TABLES_ONLINE;
  if negb online then mret (UACPI_STATUS_INIT_LEVEL_MISMATCH, None)
  else if ptr_ =? 0 then mret (UACPI_STATUS_INVALID_ARGUMENT, None)
  else
    let sig := bytes vm ptr_ 4 in
    _ ← uacpi_table_unref idx;
    find_table (idx + 1) (by_signature sig).

(** ** Start and end *)

(** [ptr_bytes]: the entries of the RSDT or XSDT. *)
Fixpoint install_entries (fuel : nat) (k : nat) (entry entry_size : Z) : tio Z :=
  match k with
  | O => mret UACPI_STATUS_OK
  | S k =>
    let addr := ldn (Z.to_nat entry_size) vm entry in
    if addr =? 0 then install_entries fuel k (entry + entry_size) entry_size
    else
      '(ret, _) ← uacpi_table_install_physical_with_origin fuel addr UACPI_TABLE_ORIGIN_FIRMWARE_PHYSICAL false;
      if negb (success ret) && negb (ret =? UACPI_STATUS_OVERRIDDEN) then mret ret else install_entries fuel k (entry + entry_size) entry_size
  end.

Definition initialize_from_rxsdt (fuel : nat) (rxsdt_addr entry_size : Z) : tio Z :=
  rxsdt ← map_ rxsdt_addr SDT_HDR_SIZE;
  if rxsdt =? 0 then mret UACPI_STATUS_MAPPING_FAILED
  else
    let h := read_hdr vm rxsdt in
    ret ← uacpi_check_table_signature (signature h) (if entry_size =? 8 then ACPI_XSDT_SIGNATURE else ACPI_RSDT_SIGNATURE);
    _ ← uacpi_kernel_unmap rxsdt SDT_HDR_SIZE;
    if negb (success ret) then mret ret
    else
      let map_len := hdr_length h in
      if map_len <? SDT_HDR_SIZE + entry_size then mret UACPI_STATUS_INVALID_TABLE_LENGTH
      else
        let entry_bytes := (map_len - SDT_HDR_SIZE) &&& u64 (Z.lnot (entry_size - 1)) in
        rxsdt ← map_ rxsdt_addr map_len;
        if rxsdt =? 0 then mret UACPI_STATUS_MAPPING_FAILED
        else
          ret ← uacpi_verify_table_checksum vm rxsdt map_len;
          ret ← (if negb (success ret) then mret ret else install_entries fuel (Z.to_nat (entry_bytes / entry_size)) (rxsdt + SDT_HDR_SIZE) entry_size);
          _ ← uacpi_kernel_unmap rxsdt map_len; mret ret.

Definition RSDP_SIZE : Z := 36.
(** [rsdp]: the status of [uacpi_kernel_get_rsdp] and the address. *)
Definition initialize_from_rsdp (fuel : nat) (rsdp : Z * Z) : tio Z :=
  _ ← modify (fun t => t <| ctx := (ctx t) <| is_rev1 := true |> |>);
  let '(ret, rsdp_phys) := rsdp in
  if negb (success ret) then mret ret
  else
    p ← map_ rsdp_phys RSDP_SIZE;
    if p =? 0 then mret UACPI_STATUS_MAPPING_FAILED
    else
      bad ← check_flag UACPI_FLAG_BAD_XSDT;
      let '(rxsdt, entry_size) :=
        if (1 <? ld8 vm (p + 15)) && negb (ld64 vm (p + 24) =? 0) && negb (bad : bool) then (ld64 vm (p + 24), 8) else (ld32 vm (p + 16), 4) in
      _ ← uacpi_kernel_unmap p RSDP_SIZE;
      if rxsdt =? 0 then mret UACPI_STATUS_INVALID_ARGUMENT else initialize_from_rxsdt fuel rxsdt entry_size.

(** The memory and the mappings of the tables. *)
Fixpoint release_tables (k : nat) (i : Z) : tio () :=
  match k with
  | O => mret tt
  | S k =>
    tbl ← get_table i;
    _ ← (if origin tbl =? UACPI_TABLE_ORIGIN_FIRMWARE_VIRTUAL then kernel_free (ptr tbl)
         else if physical (origin tbl) && negb (reference_count tbl =? 0) then uacpi_kernel_unmap (ptr tbl) (hdr_length (hdr tbl))
         else mret tt);
    release_tables k (i + 1)
  end.

(** [blank_array]: [uacpi_memzero] of the array. *)
Definition blank_array : table_array := DynArray (replicate 16 blank) [] 0 0 0.

(** [free_mutex]: [uacpi_kernel_free_mutex], which has no effect here. *)
Definition uacpi_deinitialize_tables : tio () :=
  arr ← get tables;
  _ ← release_tables (Z.to_nat (table_array_size arr)) 0;
  early ← get early_table_access;
  _ ← (if (early : bool) then modify (fun t => t <| tables := blank_array |> <| early_table_access := false |>)
       else arr ← get tables;
            let '(arr, given) := array_clear arr in
            _ ← match given with [p] => kernel_free p | _ => mret tt end;
            modify (fun t => t <| tables := arr |>));
  modify (fun t => t <| installation_handler := None |> <| table_mutex := 0 |> <| held := false |>).

(** [init_level]: whether the level is the early one. *)
Definition uacpi_setup_early_table_access (fuel : nat) (rsdp : Z * Z) (temporary_buffer buffer_size : Z) (contents_ : list uacpi_installed_table) : tio Z :=
  l ← get ts_init_level; early ← get early_table_access;
  if negb (l =? 0) then mret UACPI_STATUS_INIT_LEVEL_MISMATCH
  else if (early : bool) then mret UACPI_STATUS_INIT_LEVEL_MISMATCH
  else if buffer_size <? TABLE_SIZE then mret UACPI_STATUS_INVALID_ARGUMENT
  else
    _ ← modify (fun t => t <| tables := DynArray (inline_storage (tables t)) contents_ temporary_buffer (buffer_size / TABLE_SIZE) (size_including_inline (tables t)) |> <| early_table_access := true |>);
    ret ← initialize_from_rsdp fuel rsdp;
    _ ← (if negb (success ret) then uacpi_deinitialize_tables else mret tt);
    mret ret.

(** The tables leave the early buffer: [None] when there is no memory for them. *)
Definition leave_early_buffer : tio bool :=
  arr ← get tables;
  let num_tables := table_array_size arr in
  if UACPI_STATIC_TABLE_ARRAY_LEN <? num_tables then
    let num_tables := num_tables - UACPI_STATIC_TABLE_ARRAY_LEN in
    new_buf ← kernel_alloc kalloc (TABLE_SIZE * num_tables);
    if new_buf =? 0 then mret false
    else
      _ ← modify (fun t => t <| tables := DynArray (inline_storage arr) (take (Z.to_nat num_tables) (dynamic_storage arr)) new_buf num_tables (size_including_inline arr) |>);
      mret true
  else _ ← modify (fun t => t <| tables := DynArray (inline_storage arr) [] 0 0 (size_including_inline arr) |>); mret true.

(** [new_mutex]: [uacpi_kernel_create_mutex].  The table that [facs] is taken from is what the
    caller's variable [tbl] holds: [junk] when nothing was written to it. *)
Definition uacpi_initialize_tables (fuel : nat) (rsdp : Z * Z) (new_mutex junk : Z) : tio Z :=
  early ← get early_table_access;
  ret ← (if (early : bool) then
           ok ← leave_early_buffer;
           if (ok : bool) then _ ← modify (fun t => t <| early_table_access := false |>); mret UACPI_STATUS_OK else mret UACPI_STATUS_OUT_OF_MEMORY
         else initialize_from_rsdp fuel rsdp);
  if negb (success ret) then mret ret
  else
    c ← get ctx;
    let x := ld64 (fadt c) (fadt_offset "x_firmware_ctrl") in
    ret ← (if negb (is_hardware_reduced c) && negb (x =? 0) then
             '(ret, out) ← table_install fuel (Physical x UACPI_TABLE_ORIGIN_FIRMWARE_PHYSICAL (Some ACPI_FACS_SIGNATURE) true);
             if negb (success ret) && negb (ret =? UACPI_STATUS_OVERRIDDEN) then mret ret
             else _ ← modify (fun t => t <| ctx := (ctx t) <| facs := default junk (fst <$> out) |> |>); mret UACPI_STATUS_OK
           else mret UACPI_STATUS_OK);
    if negb (success ret) then mret ret
    else
      _ ← modify (fun t => t <| table_mutex := new_mutex |> <| held := false |>);
      mret (if new_mutex =? 0 then UACPI_STATUS_OUT_OF_MEMORY else UACPI_STATUS_OK).
End Ops.
