(* ===== verification/AcpiTablesProps.v ===== *)
(** * What the list of ACPI tables keeps

    A logic for the programs of [AcpiTables], and the invariant: the mappings in use are those
    of tables in physical memory that have users, and nothing else. *)

From stdpp Require Import strings.
From S2P Require Import Prelude Mem CString Layout KernelApi AcpiField AcpiRegion AcpiGas AcpiRegs AcpiLock AcpiNs AcpiNsIter AcpiNsInit AcpiDynArray AcpiFadt AcpiTables AcpiTablesOps.
Open Scope Z_scope.

(** [wp b m Q t]: [m] does nothing wrong from [t] and, when it is done, [Q] holds; [b] says what it
    means not to end. *)
Definition wp {A} (b : Prop) (m : tio A) (Q : A -> tstate -> Prop) (t : tstate) : Prop :=
  match m t with Done x t' => Q x t' | Wrong => False | Endless => b end.

Section Rules.
Context (b : Prop).

Lemma twp_ret {A} (x : A) Q t : Q x t -> wp b (mret x) Q t.
Proof. done. Qed.
Lemma twp_bind {A B} (m : tio A) (f : A -> tio B) Q t : wp b m (fun x => wp b (f x) Q) t -> wp b (m ≫= f) Q t.
Proof. unfold wp, mbind, tio_bind. by destruct (m t). Qed.
Lemma twp_mono {A} (m : tio A) (Q R : A -> tstate -> Prop) t : wp b m Q t -> (forall x t', Q x t' -> R x t') -> wp b m R t.
Proof. unfold wp. destruct (m t); auto. Qed.
Lemma twp_get {A} (f : tstate -> A) Q t : Q (f t) t -> wp b (get f) Q t.
Proof. done. Qed.
Lemma wp_modify f Q t : Q tt (f t) -> wp b (modify f) Q t.
Proof. done. Qed.
Lemma twp_lift {A} (o : option A) x (Q : A -> tstate -> Prop) t : o = Some x -> Q x t -> wp b (lift o) Q t.
Proof. by intros ->. Qed.
End Rules.

(** Through the first steps of a program. *)
Ltac wp_step := lazymatch goal with
  | |- wp _ (mret _) _ _ => apply twp_ret
  | |- wp _ (_ ≫= _) _ _ => apply twp_bind
  | |- wp _ (get _) _ _ => apply twp_get
  | |- wp _ (modify _) _ _ => apply wp_modify
  end; cbv beta.

Lemma take_out_some {A} `{EqDecision A} (x : A) l : x ∈ l -> exists l', take_out x l = Some l' /\ l ≡ₚ x :: l'.
Proof.
  induction l as [|y l IH]; intros Hx; [by apply elem_of_nil in Hx|]. cbn. destruct (decide (x = y)) as [->|Hxy]; [by exists l|].
  apply elem_of_cons in Hx as [|Hx]; [done|]. destruct (IH Hx) as (l' & -> & Hp). exists (y :: l'). split; [done|]. rewrite Hp. constructor.
Qed.

(** ** Mappings and memory of the tables *)

Definition own (tbl : uacpi_installed_table) : list (Z * Z) := if physical (origin tbl) && negb (reference_count tbl =? 0) then [(ptr tbl, hdr_length (hdr tbl))] else [].
Definition owned (l : list uacpi_installed_table) : list (Z * Z) := l ≫= own.
Definition memory (tbl : uacpi_installed_table) : list Z := if (origin tbl =? UACPI_TABLE_ORIGIN_FIRMWARE_VIRTUAL) && negb (ptr tbl =? 0) then [ptr tbl] else [].
Definition buffers (t : tstate) : list Z := if early_table_access t then [] else if buffer (tables t) =? 0 then [] else [buffer (tables t)].

Abbreviation table_list t := (contents (tables t)).

Lemma bind_insert {B} (f : uacpi_installed_table -> list B) l i x y : l !! i = Some x ->
  exists rest, l ≫= f ≡ₚ f x ++ rest /\ (<[i := y]> l) ≫= f ≡ₚ f y ++ rest.
Proof.
  intros Hx. apply list_elem_of_split_length in Hx as (l1 & l2 & -> & ->). exists ((l1 ≫= f) ++ (l2 ≫= f)).
  rewrite insert_app_r_alt, Nat.sub_diag by lia. cbn. rewrite !bind_app. cbn. split; rewrite !app_assoc; f_equiv; by rewrite Permutation_app_comm.
Qed.

(** The count fits its 16 bits, and a table in use has an address. *)
Definition table_ok (tbl : uacpi_installed_table) : Prop := 0 <= reference_count tbl <= 0xFFFF /\ (physical (origin tbl) = true -> reference_count tbl <> 0 -> ptr tbl <> 0).

(** [E]: mappings, and [H]: heap memory that others have. *)
Record inv (E : list (Z * Z)) (H : list Z) (t : tstate) : Prop := {
  in_array : array_ok UACPI_STATIC_TABLE_ARRAY_LEN (tables t);
  in_counts : Forall table_ok (table_list t);
  in_maps : maps t ≡ₚ E ++ owned (table_list t);
  in_heap : heap t ≡ₚ H ++ buffers t ++ (table_list t ≫= memory) }.

(** What an operation on users does not touch. *)
Definition rest_same (t t' : tstate) : Prop :=
  early_table_access t' = early_table_access t /\ installation_handler t' = installation_handler t /\ table_mutex t' = table_mutex t /\ held t' = held t /\
  rt_flags t' = rt_flags t /\ ts_init_level t' = ts_init_level t /\ ctx t' = ctx t.
#[global] Instance rest_same_refl : Reflexive rest_same. Proof. intros t. by unfold rest_same. Qed.
#[global] Instance rest_same_trans : Transitive rest_same. Proof. unfold rest_same. intros t1 t2 t3 H1 H2. destruct H1 as (?&?&?&?&?&?&?), H2 as (?&?&?&?&?&?&?). split_and!; congruence. Qed.

Section Steps.
Context (b : Prop) (vm : mem) (kmap : Z -> Z -> Z) (kalloc : list Z -> Z -> Z) (H : list Z).

Lemma wp_map_exact E t phys len (Q : Z -> tstate -> Prop) : inv E H t -> (kmap phys len = 0 -> Q 0 t) ->
  (forall t', kmap phys len <> 0 -> inv ((kmap phys len, len) :: E) H t' -> rest_same t t' -> tables t' = tables t -> Q (kmap phys len) t') -> wp b (uacpi_kernel_map kmap phys len) Q t.
Proof.
  intros [Ha Hc Hm Hh] H0 H1. unfold uacpi_kernel_map. destruct (Z.eqb_spec (kmap phys len) 0) as [E0|E0]; [by apply H0|]. repeat wp_step.
  apply H1; [done| |done|done]. split; [done|done|cbn; by rewrite Hm|done].
Qed.

Lemma wp_map E t phys len (Q : Z -> tstate -> Prop) : inv E H t -> (Q 0 t) ->
  (forall v t', v <> 0 -> inv ((v, len) :: E) H t' -> rest_same t t' -> tables t' = tables t -> Q v t') -> wp b (uacpi_kernel_map kmap phys len) Q t.
Proof. intros Hi H0 H1. apply (wp_map_exact E); [done|done|]. intros t' Hv. by apply H1. Qed.

Lemma wp_unmap_raw t v len (Q : () -> tstate -> Prop) : (v, len) ∈ maps t ->
  (forall l, maps t ≡ₚ (v, len) :: l -> Q tt (t <| maps := l |>)) -> wp b (uacpi_kernel_unmap v len) Q t.
Proof.
  intros Hin HQ. unfold uacpi_kernel_unmap. repeat wp_step. destruct (take_out_some (v, len) (maps t) Hin) as (l & Hl & Hp). apply (twp_lift _ _ l); [done|]. wp_step. by apply HQ.
Qed.

Lemma wp_unmap E t v len (Q : () -> tstate -> Prop) : inv ((v, len) :: E) H t ->
  (forall t', inv E H t' -> rest_same t t' -> tables t' = tables t -> Q tt t') -> wp b (uacpi_kernel_unmap v len) Q t.
Proof.
  intros [Ha Hc Hm Hh] H1. apply wp_unmap_raw; [rewrite Hm; constructor|]. intros l Hp. apply H1; [|done|done]. split; [done|done| |done]. cbn. apply (Permutation_cons_inv (a := (v, len))). by rewrite <- Hp, Hm.
Qed.

Lemma wp_get_table t E i tbl (Q : uacpi_installed_table -> tstate -> Prop) : inv E H t -> table_list t !! i = Some tbl -> Q tbl t -> wp b (get_table (Z.of_nat i)) Q t.
Proof.
  intros Hi Ht HQ. unfold get_table. repeat wp_step. apply (twp_lift _ _ tbl); [|done]. rewrite array_at_spec by apply Hi. unfold zget. by rewrite (proj2 (Z.ltb_ge _ 0)), Nat2Z.id by lia.
Qed.

(** Changing one table, when the mappings become right with it. *)
Lemma wp_put_raw t E' i tbl tbl' (Q : () -> tstate -> Prop) :
  array_ok UACPI_STATIC_TABLE_ARRAY_LEN (tables t) -> Forall table_ok (table_list t) -> heap t ≡ₚ H ++ buffers t ++ (table_list t ≫= memory) ->
  table_list t !! i = Some tbl -> table_ok tbl' -> memory tbl' = memory tbl -> (forall rest, owned (table_list t) ≡ₚ own tbl ++ rest -> maps t ≡ₚ E' ++ own tbl' ++ rest) ->
  (forall t', inv E' H t' -> rest_same t t' -> table_list t' = <[i := tbl']> (table_list t) -> Q tt t') -> wp b (put_table (Z.of_nat i) tbl') Q t.
Proof.
  intros Ha Hc Hh Ht Hr Hmem HE HQ. unfold put_table. repeat wp_step. pose proof (contents_length UACPI_STATIC_TABLE_ARRAY_LEN eq_refl (tables t) Ha) as Hlen. apply lookup_lt_Some in Ht as Hlt.
  destruct (array_put_spec UACPI_STATIC_TABLE_ARRAY_LEN eq_refl (tables t) (Z.of_nat i) tbl' Ha) as (arr & Hp & Ha' & Hc' & Hb); [lia|]. rewrite Nat2Z.id in Hc'.
  apply (twp_lift _ _ arr); [done|]. wp_step. apply HQ; [|done|exact Hc']. destruct (bind_insert own (table_list t) i tbl tbl' Ht) as (r1 & Ho1 & Ho2). destruct (bind_insert memory (table_list t) i tbl tbl' Ht) as (r2 & Hm1 & Hm2).
  split; [exact Ha'| | |]; change (contents (tables (t <| tables := arr |>))) with (contents arr); rewrite Hc'.
  - by apply Forall_insert.
  - change (maps (t <| tables := arr |>)) with (maps t). unfold owned in *. by rewrite (HE r1 Ho1), Ho2.
  - change (heap (t <| tables := arr |>)) with (heap t). rewrite Hh, Hm1, Hm2, Hmem.
    unfold buffers. change (tables (t <| tables := arr |>)) with arr. change (early_table_access (t <| tables := arr |>)) with (early_table_access t). by rewrite Hb.
Qed.

(** Changing one table moves its mapping between the table and the others. *)
Lemma wp_put_table t E E' i tbl tbl' (Q : () -> tstate -> Prop) : inv E H t -> table_list t !! i = Some tbl -> table_ok tbl' -> memory tbl' = memory tbl ->
  E ++ own tbl ≡ₚ E' ++ own tbl' -> (forall t', inv E' H t' -> rest_same t t' -> table_list t' = <[i := tbl']> (table_list t) -> Q tt t') -> wp b (put_table (Z.of_nat i) tbl') Q t.
Proof.
  intros [Ha Hc Hm Hh] Ht Hr Hmem HE HQ. eapply wp_put_raw; [done..| |done]. intros rest Hrest. by rewrite Hm, Hrest, !app_assoc, HE.
Qed.

Lemma inv_perm E E' t : E ≡ₚ E' -> inv E H t -> inv E' H t.
Proof. intros HE [Ha Hc Hm Hh]. split; [done|done|by rewrite Hm, HE|done]. Qed.

(** The table with one user more, up to the limit. *)
Definition counted (tbl : uacpi_installed_table) : uacpi_installed_table := if reference_count tbl =? 0xFFFF then tbl else tbl <| reference_count := reference_count tbl + 1 |>.

Lemma wp_count_up t E E' i tbl (Q : Z -> tstate -> Prop) : inv E H t -> table_list t !! i = Some tbl -> table_ok (counted tbl) -> E ++ own tbl ≡ₚ E' ++ own (counted tbl) ->
  (forall t', inv E' H t' -> rest_same t t' -> table_list t' = <[i := counted tbl]> (table_list t) -> Q UACPI_STATUS_OK t') -> wp b (count_up (Z.of_nat i)) Q t.
Proof.
  intros Hi Ht Hok HE HQ. unfold count_up. wp_step. eapply wp_get_table; [done|done|]. pose proof (in_counts _ _ _ Hi) as Hc. rewrite Forall_lookup in Hc. destruct (Hc _ _ Ht) as [Hr _].
  unfold counted in *. wp_step. destruct (Z.eqb_spec (reference_count tbl) 0xFFFF) as [E0|E0]; cbn [negb].
  - wp_step. wp_step. apply HQ; [|done|by rewrite list_insert_id]. eapply inv_perm; [|done]. by apply Permutation_app_inv_r in HE.
  - rewrite u16_small by lia. eapply wp_put_table; [done|done|done|done|done|]. intros t' Hi' Hs Hl. wp_step. by apply HQ.
Qed.

Definition invalid (tbl : uacpi_installed_table) : bool := truthy (flags tbl &&& UACPI_TABLE_INVALID).

(** What becomes of a table that is to get a user.  [fresh]: it has to be mapped first; [place]:
    its address then; [spoilt]: its checksum is verified for the first time, wrong, and that is
    fatal under the flags [fl]. *)
Definition fresh (tbl : uacpi_installed_table) : bool := (reference_count tbl =? 0) && physical (origin tbl).
Definition place (tbl : uacpi_installed_table) : Z := if fresh tbl then kmap (phys_addr tbl) (hdr_length (hdr tbl)) else ptr tbl.
Definition unplaced (tbl : uacpi_installed_table) : bool := fresh tbl && (place tbl =? 0).
Definition spoilt (fl : Z) (tbl : uacpi_installed_table) : bool :=
  fresh tbl && negb (unplaced tbl) && negb (truthy (flags tbl &&& UACPI_TABLE_CSUM_VERIFIED)) &&
  truthy (table_checksum vm (place tbl) (hdr_length (hdr tbl))) && (fl &&& UACPI_FLAG_BAD_CSUM_FATAL =? UACPI_FLAG_BAD_CSUM_FATAL).

(** The table afterwards: with its user, marked invalid, or without an address. *)
Definition used (tbl : uacpi_installed_table) : uacpi_installed_table :=
  counted (if fresh tbl then tbl <| ptr := place tbl |> <| flags := if truthy (flags tbl &&& UACPI_TABLE_CSUM_VERIFIED) then flags tbl else flags tbl ||| UACPI_TABLE_CSUM_VERIFIED |> else tbl).
Definition discarded (tbl : uacpi_installed_table) : uacpi_installed_table := tbl <| flags := flags tbl ||| UACPI_TABLE_INVALID |> <| ptr := 0 |>.

(** The answer of [table_ref_unlocked] and the table afterwards. *)
Definition ref_spec (fl : Z) (tbl : uacpi_installed_table) : Z * uacpi_installed_table :=
  if (reference_count tbl =? 0) && invalid tbl then (UACPI_STATUS_INVALID_ARGUMENT, tbl)
  else if unplaced tbl then (UACPI_STATUS_MAPPING_FAILED, tbl <| ptr := 0 |>)
  else if spoilt fl tbl then (UACPI_STATUS_BAD_CHECKSUM, discarded tbl)
  else (UACPI_STATUS_OK, used tbl).

Lemma invalid_set tbl p : invalid (tbl <| flags := flags tbl ||| UACPI_TABLE_INVALID |> <| ptr := p |>) = true.
Proof.
  unfold invalid. cbn. rewrite Z.land_lor_distr_l. change (UACPI_TABLE_INVALID &&& UACPI_TABLE_INVALID) with 4. change UACPI_TABLE_INVALID with 4. apply truthy_nz. intros E.
  apply (f_equal (fun x => Z.testbit x 2)) in E. rewrite Z.lor_spec in E. change (Z.testbit 4 2) with true in E. by rewrite orb_true_r in E.
Qed.

Lemma own_unused tbl : reference_count tbl = 0 -> own tbl = [].
Proof. intros E. unfold own. rewrite E. by rewrite andb_false_r. Qed.
Lemma own_virtual tbl : physical (origin tbl) = false -> own tbl = [].
Proof. intros E. unfold own. by rewrite E. Qed.

Lemma memory_physical tbl : physical (origin tbl) = true -> memory tbl = [].
Proof. unfold physical, memory. intros Ho. destruct (Z.eqb_spec (origin tbl) UACPI_TABLE_ORIGIN_FIRMWARE_VIRTUAL) as [E|E]; [|done]. by rewrite E in Ho. Qed.

Lemma wp_check_flag t flag (Q : bool -> tstate -> Prop) : (forall f, Q f t) -> wp b (check_flag flag) Q t.
Proof. intros HQ. unfold check_flag. repeat wp_step. apply HQ. Qed.

Lemma wp_checksum_exact t p n (Q : Z -> tstate -> Prop) :
  Q (if truthy (table_checksum vm p n) && (rt_flags t &&& UACPI_FLAG_BAD_CSUM_FATAL =? UACPI_FLAG_BAD_CSUM_FATAL) then UACPI_STATUS_BAD_CHECKSUM else UACPI_STATUS_OK) t ->
  wp b (uacpi_verify_table_checksum vm p n) Q t.
Proof. intros HQ. unfold uacpi_verify_table_checksum. destruct (truthy _); cbn [andb] in HQ; [|by wp_step]. unfold check_flag. repeat wp_step. exact HQ. Qed.

Lemma wp_checksum t p n (Q : Z -> tstate -> Prop) : (forall r, r = UACPI_STATUS_OK \/ r = UACPI_STATUS_BAD_CHECKSUM -> Q r t) -> wp b (uacpi_verify_table_checksum vm p n) Q t.
Proof. intros HQ. apply wp_checksum_exact, HQ. destruct (_ && _); [by right|by left]. Qed.

(** Changing a table in physical memory that has no users; [t0]: the state it all began with. *)
Lemma wp_set_unused t0 E t i tbl1 (Q : () -> tstate -> Prop) : inv E H t -> rest_same t0 t -> (i < length (table_list t0))%nat ->
  (exists tbl0, table_list t = <[i := tbl0]> (table_list t0) /\ own tbl0 = [] /\ memory tbl0 = []) -> reference_count tbl1 = 0 -> physical (origin tbl1) = true ->
  (forall t', inv E H t' -> rest_same t0 t' -> table_list t' = <[i := tbl1]> (table_list t0) -> Q tt t') -> wp b (put_table (Z.of_nat i) tbl1) Q t.
Proof.
  intros Hi Hs Hlt (tbl0 & Hl & Ho0 & Hm0) Hz Hor HQ. eapply wp_put_table; [done|rewrite Hl; by apply list_lookup_insert_eq| | | |].
  - split; [lia|]. by rewrite Hz.
  - rewrite Hm0. by apply memory_physical.
  - by rewrite Ho0, (own_unused tbl1 Hz).
  - intros t2 Hi2 Hs2 Hl2. rewrite Hl, list_insert_insert_eq in Hl2. apply HQ; [done|by etrans|done].
Qed.

(** The first user of a table that was mapped. *)
Lemma first_user tbl E v f : physical (origin tbl) = true -> reference_count tbl = 0 -> v <> 0 -> let tbl1 := tbl <| ptr := v |> <| flags := f |> in
  table_ok (counted tbl1) /\ ((v, hdr_length (hdr tbl)) :: E) ++ own tbl1 ≡ₚ E ++ own (counted tbl1).
Proof.
  intros Ho E0 Hv tbl1. unfold counted. change (reference_count tbl1) with (reference_count tbl). rewrite E0. split; [by split|].
  rewrite (own_unused tbl1) by done. unfold own. cbn. rewrite Ho. rewrite app_nil_r. apply Permutation_cons_append.
Qed.

(** The last step, for a table that has no users in the state [t] and is [tbl1] by now. *)
Lemma wp_first_count t E i tbl tbl1 E1 t1 (Q : Z -> tstate -> Prop) : table_list t !! i = Some tbl -> inv E1 H t1 -> rest_same t t1 -> table_list t1 = <[i := tbl1]> (table_list t) ->
  table_ok (counted tbl1) -> E1 ++ own tbl1 ≡ₚ E ++ own (counted tbl1) ->
  (forall t', inv E H t' -> rest_same t t' -> table_list t' = <[i := counted tbl1]> (table_list t) -> Q UACPI_STATUS_OK t') -> wp b (count_up (Z.of_nat i)) Q t1.
Proof.
  intros Ht Hi1 Hs1 Hl1 Hok HE HQ. apply lookup_lt_Some in Ht. eapply wp_count_up; [done|rewrite Hl1; by apply list_lookup_insert_eq|done|done|].
  intros t2 Hi2 Hs2 Hl2. rewrite Hl1, list_insert_insert_eq in Hl2. apply HQ; [done|by etrans|done].
Qed.

(** A table in physical memory without users. *)
Lemma wp_ref_fresh t E i tbl (Q : Z -> tstate -> Prop) : inv E H t -> table_list t !! i = Some tbl -> reference_count tbl = 0 -> physical (origin tbl) = true -> invalid tbl = false ->
  (forall t', inv E H t' -> rest_same t t' -> table_list t' = <[i := (ref_spec (rt_flags t) tbl).2]> (table_list t) -> Q (ref_spec (rt_flags t) tbl).1 t') -> wp b (table_ref_unlocked vm kmap (Z.of_nat i)) Q t.
Proof.
  intros Hi Ht E0 Ho Hv HQ. unfold table_ref_unlocked. wp_step. eapply wp_get_table; [done|done|]. rewrite E0. change (0 =? 0) with true. cbv iota. fold (invalid tbl). rewrite Hv, Ho. cbn [negb].
  assert (Hf : fresh tbl = true) by (unfold fresh; by rewrite E0). assert (Hpl : place tbl = kmap (phys_addr tbl) (hdr_length (hdr tbl))) by (unfold place; by rewrite Hf).
  unfold ref_spec, spoilt, unplaced, used in HQ. rewrite E0, Hv, Hf in HQ. change (0 =? 0) with true in HQ. cbn [andb] in HQ.
  apply lookup_lt_Some in Ht as Hlt. assert (Hfirst : exists tbl0, table_list t = <[i := tbl0]> (table_list t) /\ own tbl0 = [] /\ memory tbl0 = [])
    by (exists tbl; rewrite list_insert_id by done; split_and!; [done|by apply own_unused|by apply memory_physical]).
  wp_step. eapply wp_map_exact; [done| |]; rewrite <- Hpl.
  - intros Hz. rewrite Hz in HQ. wp_step. eapply (wp_set_unused t); [done|done|done|exact Hfirst|exact E0|done|]. intros t2 Hi2 Hs2 Hl2. change (0 =? 0) with true. cbv iota. wp_step. by apply HQ.
  - intros t1 Hnz Hi1 Hs1 Htb. wp_step. eapply (wp_set_unused t); [exact Hi1|done|done|by rewrite Htb|exact E0|done|]. intros t2 Hi2 Hs2 Hl2. rewrite (proj2 (Z.eqb_neq _ 0) Hnz) in *. cbn [negb andb] in HQ.
    assert (Hlk : exists tbl0, table_list t2 = <[i := tbl0]> (table_list t) /\ own tbl0 = [] /\ memory tbl0 = []) by (exists (tbl <| ptr := place tbl |>); split_and!; [done|by apply own_unused|by apply memory_physical]).
    change (flags (tbl <| ptr := place tbl |>)) with (flags tbl). destruct (truthy (flags tbl &&& UACPI_TABLE_CSUM_VERIFIED)); cbn [negb andb] in HQ.
    { destruct (first_user tbl E (place tbl) (flags tbl) Ho E0 Hnz). eapply (wp_first_count t E i tbl (tbl <| ptr := place tbl |>)); [done|exact Hi2|done|done|done|done|exact HQ]. }
    wp_step. apply wp_checksum_exact. assert (Hfl : rt_flags t2 = rt_flags t) by (apply Hs2). rewrite Hfl. change (hdr_length (hdr (tbl <| ptr := place tbl |>))) with (hdr_length (hdr tbl)).
    destruct (truthy (table_checksum _ _ _) && _).
    + change (negb (UACPI_STATUS_BAD_CHECKSUM =? UACPI_STATUS_OK)) with true. cbv iota. wp_step. eapply wp_unmap; [exact Hi2|]. intros t3 Hi3 Hs3 Htb3. wp_step.
      eapply (wp_set_unused t); [exact Hi3|by etrans|done|by rewrite Htb3|exact E0|done|]. intros t4 Hi4 Hs4 Hl4. wp_step. by apply HQ.
    + change (negb (UACPI_STATUS_OK =? UACPI_STATUS_OK)) with false. cbv iota. wp_step. eapply (wp_set_unused t); [exact Hi2|done|done|exact Hlk|exact E0|done|]. intros t3 Hi3 Hs3 Hl3. destruct (first_user tbl E (place tbl) (flags tbl ||| UACPI_TABLE_CSUM_VERIFIED) Ho E0 Hnz).
      eapply (wp_first_count t E i tbl); [done|exact Hi3|done|exact Hl3|done|done|exact HQ].
Qed.

Lemma wp_ref t E i tbl (Q : Z -> tstate -> Prop) : inv E H t -> table_list t !! i = Some tbl ->
  (forall t', inv E H t' -> rest_same t t' -> table_list t' = <[i := (ref_spec (rt_flags t) tbl).2]> (table_list t) -> Q (ref_spec (rt_flags t) tbl).1 t') -> wp b (table_ref_unlocked vm kmap (Z.of_nat i)) Q t.
Proof.
  intros Hi Ht HQ. pose proof (in_counts _ _ _ Hi) as Hc. rewrite Forall_lookup in Hc. destruct (Hc _ _ Ht) as [Hr Hp].
  destruct (fresh tbl) eqn:Hf; [destruct (invalid tbl) eqn:Hv|].
  2: { unfold fresh in Hf. apply andb_true_iff in Hf as [Hz Ho]. apply (wp_ref_fresh t E i tbl); try done. lia. }
  - unfold ref_spec, fresh in *. apply andb_true_iff in Hf as [Hz Ho]. rewrite Hz, Hv in HQ. unfold table_ref_unlocked. wp_step. eapply wp_get_table; [done|done|].
    rewrite Hz. fold (invalid tbl). rewrite Hv. wp_step. apply HQ; [done|done|by rewrite list_insert_id].
  - unfold ref_spec, spoilt, unplaced, used in HQ. rewrite Hf in HQ. cbn [andb] in HQ. unfold table_ref_unlocked. wp_step. eapply wp_get_table; [done|done|]. unfold fresh in Hf. fold (invalid tbl).
    destruct (Z.eqb_spec (reference_count tbl) 0) as [E0|E0]; cbn [andb] in Hf, HQ; [rewrite Hf; cbn [negb]; destruct (invalid tbl); [wp_step; apply HQ; [done|done|by rewrite list_insert_id]|]|].
    all: eapply wp_count_up; [done|done| | |exact HQ]; unfold counted, own; destruct (Z.eqb_spec (reference_count tbl) 0xFFFF) as [E1|E1]; try done; try (by rewrite ?Hf).
    all: try (split; [cbn; lia|]; cbn; by rewrite ?Hf). all: cbn; rewrite ?Hf; try done; try (by rewrite (proj2 (Z.eqb_neq _ 0) E0), (proj2 (Z.eqb_neq (reference_count tbl + 1) 0)) by lia).
    split; [cbn; lia|]. intros Ho _. by apply Hp.
Qed.

Definition unref_result (tbl : uacpi_installed_table) (r : Z) (tbl' : uacpi_installed_table) : Prop :=
  phys_addr tbl' = phys_addr tbl /\ hdr tbl' = hdr tbl /\ origin tbl' = origin tbl /\ flags tbl' = flags tbl /\
  r = (if reference_count tbl =? 0 then UACPI_STATUS_INVALID_ARGUMENT else UACPI_STATUS_OK) /\
  reference_count tbl' = if (reference_count tbl =? 0) || (reference_count tbl =? 0xFFFF) then reference_count tbl else reference_count tbl - 1.

Lemma wp_unref t E i tbl (Q : Z -> tstate -> Prop) : inv E H t -> table_list t !! i = Some tbl ->
  (forall r t' tbl', inv E H t' -> rest_same t t' -> table_list t' = <[i := tbl']> (table_list t) -> unref_result tbl r tbl' -> Q r t') -> wp b (table_unref_unlocked (Z.of_nat i)) Q t.
Proof.
  intros Hi Ht HQ. unfold table_unref_unlocked. wp_step. eapply wp_get_table; [done|done|]. pose proof (in_counts _ _ _ Hi) as Hc. rewrite Forall_lookup in Hc. destruct (Hc _ _ Ht) as [Hr Hp].
  assert (Hsame : forall r, unref_result tbl r tbl -> Q r t) by (intros r Hres; eapply HQ; [done|done|by rewrite list_insert_id|done]).
  destruct (Z.eqb_spec (reference_count tbl) 0) as [E0|E0]; [wp_step; apply Hsame; unfold unref_result; by rewrite E0|].
  destruct (Z.eqb_spec (reference_count tbl) 0xFFFF) as [E1|E1]; [wp_step; apply Hsame; unfold unref_result; by rewrite E1|].
  assert (Hres : forall tbl', phys_addr tbl' = phys_addr tbl -> hdr tbl' = hdr tbl -> origin tbl' = origin tbl -> flags tbl' = flags tbl -> reference_count tbl' = reference_count tbl - 1 -> unref_result tbl UACPI_STATUS_OK tbl')
    by (intros tbl' ? ? ? ? Hrc; unfold unref_result; rewrite (proj2 (Z.eqb_neq _ _) E0), (proj2 (Z.eqb_neq _ _) E1); done).
  wp_step. destruct ((reference_count tbl =? 1) && physical (origin tbl)) eqn:El.
  - apply andb_true_iff in El as [El Ho]. apply Z.eqb_eq in El. assert (Hown : own tbl = [(ptr tbl, hdr_length (hdr tbl))]) by (unfold own; by rewrite Ho, El).
    apply twp_bind. destruct Hi as [Ha Hc' Hm Hh]. destruct (bind_insert own (table_list t) i tbl tbl Ht) as (r1 & Ho1 & _). fold (owned (table_list t)) in Ho1. rewrite Hown in Ho1. cbn [app] in Ho1.
    apply wp_unmap_raw; [rewrite Hm, Ho1; apply elem_of_app; right; constructor|]. intros l Hl. wp_step. wp_step. rewrite El. change (u16 (1 - 1)) with 0.
    eapply (wp_put_raw (t <| maps := l |>) E i tbl); [done|done|done|done|by split| | |].
    + rewrite !memory_physical by done. done.
    + intros rest Hrest. change (table_list (t <| maps := l |>)) with (table_list t) in Hrest. rewrite own_unused by done. cbn. apply (Permutation_cons_inv (a := (ptr tbl, hdr_length (hdr tbl)))).
      rewrite <- Hl, Hm, Hrest, Hown. cbn. by rewrite Permutation_middle.
    + intros t' Hi' Hs Hl'. wp_step. eapply HQ; [done|exact Hs|exact Hl'|]. apply Hres; try done. cbn. lia.
  - wp_step. wp_step. rewrite u16_small by lia. eapply wp_put_table; [done|done| | | |].
    + split; [cbn; lia|]. intros Ho _. by apply Hp.
    + done.
    + unfold own. cbn. destruct (physical (origin tbl)) eqn:Ho; [|done]. rewrite andb_true_r in El. apply Z.eqb_neq in El. rewrite (proj2 (Z.eqb_neq _ 0) E0), (proj2 (Z.eqb_neq (reference_count tbl - 1) 0)) by lia. done.
    + intros t' Hi' Hs Hl. wp_step. eapply HQ; [done|done|done|by apply Hres].
Qed.

(** ** Search *)

Section Search.
Context (wanted_hdr : acpi_sdt_hdr -> bool).

(** The tables the search looks at, and those it ends at: a table whose checksum turns out wrong is
    passed over and discarded. *)
Definition candidate (tbl : uacpi_installed_table) : bool := wanted_hdr (hdr tbl) && negb (invalid tbl).
Definition settles (fl : Z) (tbl : uacpi_installed_table) : bool := candidate tbl && negb (spoilt fl tbl).
Definition passed (fl : Z) (tbl : uacpi_installed_table) : uacpi_installed_table := if candidate tbl && spoilt fl tbl then discarded tbl else tbl.

(** The answer [r] to a search in the list [l] whose first table has the index [base], and the list
    [l'] afterwards.  The first table that settles it gets a user, or cannot be mapped; if
    there is none, none is found. *)
Definition found (fl : Z) (base : nat) (l : list uacpi_installed_table) (r : answer) (l' : list uacpi_installed_table) : Prop :=
  (exists before tbl after, l = before ++ tbl :: after /\ Forall (fun x => settles fl x = false) before /\ settles fl tbl = true /\
     if unplaced tbl then r = (UACPI_STATUS_MAPPING_FAILED, None) /\ l' = (passed fl <$> before) ++ tbl <| ptr := 0 |> :: after
     else r = (UACPI_STATUS_OK, Some (place tbl, Z.of_nat (base + length before))) /\ l' = (passed fl <$> before) ++ used tbl :: after) \/
  Forall (fun x => settles fl x = false) l /\ r = (UACPI_STATUS_NOT_FOUND, None) /\ l' = passed fl <$> l.

Lemma ptr_used tbl : ptr (used tbl) = place tbl.
Proof. unfold used, place, counted. destruct (fresh tbl); by destruct (_ =? _). Qed.

Lemma candidate_ref fl tbl : candidate tbl = true -> ref_spec fl tbl =
  if unplaced tbl then (UACPI_STATUS_MAPPING_FAILED, tbl <| ptr := 0 |>) else if spoilt fl tbl then (UACPI_STATUS_BAD_CHECKSUM, discarded tbl) else (UACPI_STATUS_OK, used tbl).
Proof. unfold candidate, ref_spec. intros [_ Hv]%andb_true_iff. apply negb_true_iff in Hv. rewrite Hv. by rewrite andb_false_r. Qed.

Lemma lookup_middle {A} (l1 l2 l3 : list A) x : (l1 ++ l2 ++ x :: l3) !! (length l1 + length l2)%nat = Some x.
Proof. rewrite app_assoc, lookup_app_r; rewrite length_app; [|lia]. by rewrite Nat.sub_diag. Qed.
Lemma insert_middle {A} (l1 l2 l3 : list A) x y : <[(length l1 + length l2)%nat := y]> (l1 ++ l2 ++ x :: l3) = l1 ++ l2 ++ y :: l3.
Proof. rewrite !app_assoc. rewrite insert_app_r_alt; rewrite length_app; [|lia]. by rewrite Nat.sub_diag. Qed.

Lemma wp_search_loop fl skip rest : forall seen t E (Q : answer -> tstate -> Prop), inv E H t -> rt_flags t = fl -> table_list t = skip ++ (passed fl <$> seen) ++ rest -> Forall (fun x => settles fl x = false) seen ->
  (forall r t' l', inv E H t' -> rest_same t t' -> table_list t' = skip ++ l' -> found fl (length skip) (seen ++ rest) r l' -> Q r t') ->
  wp b (for_each_loop (length rest) (Z.of_nat (length skip + length seen)) (do_search_tables vm kmap (fun tbl => wanted_hdr (hdr tbl))) (UACPI_STATUS_NOT_FOUND, None)) Q t.
Proof.
  induction rest as [|tbl rest IH]; intros seen t E Q Hi Hfl Hl Hs HQ; cbn [for_each_loop length].
  { wp_step. eapply HQ; [done|done|rewrite app_nil_r in Hl; exact Hl|]. right. by rewrite app_nil_r. }
  pose proof (lookup_middle skip (passed fl <$> seen) rest tbl) as Ht. rewrite <- Hl, length_fmap in Ht. wp_step. eapply wp_get_table; [done|done|].
  replace (Z.of_nat (length skip + length seen) + 1) with (Z.of_nat (length skip + length (seen ++ [tbl]))) by (rewrite length_app; cbn; lia).
  assert (Hnext : forall t', inv E H t' -> rest_same t t' -> table_list t' = skip ++ (passed fl <$> seen) ++ passed fl tbl :: rest -> settles fl tbl = false ->
    wp b (for_each_loop (length rest) (Z.of_nat (length skip + length (seen ++ [tbl]))) (do_search_tables vm kmap (fun tbl => wanted_hdr (hdr tbl))) (UACPI_STATUS_NOT_FOUND, None)) Q t').
  { intros t' Hi' Hs' Hl' Hn. eapply (IH (seen ++ [tbl])); [exact Hi'|rewrite <- Hfl; apply Hs'| | |].
    - rewrite Hl', fmap_app. cbn. by rewrite <- !app_assoc.
    - apply Forall_app. by repeat constructor.
    - intros r t2 l' Hi2 Hs2 Hl2 Hf. rewrite <- app_assoc in Hf. eapply HQ; [done|by etrans|done|done]. }
  fold (invalid tbl). destruct (candidate tbl) eqn:Hc.
  2: { assert (Hpass : passed fl tbl = tbl /\ settles fl tbl = false) by (unfold passed, settles; by rewrite Hc). destruct Hpass as [Hp1 Hp2]. specialize (Hnext t Hi (reflexivity t)). rewrite Hp1 in Hnext. specialize (Hnext Hl Hp2).
    unfold candidate in Hc. destruct (invalid tbl); [exact Hnext|]. rewrite andb_true_r in Hc. wp_step. unfold do_search_tables. wp_step. eapply wp_get_table; [done|done|]. rewrite Hc. cbn [negb]. wp_step. exact Hnext. }
  pose proof (candidate_ref fl tbl Hc) as Href. assert (Hset : settles fl tbl = negb (spoilt fl tbl)) by (unfold settles; by rewrite Hc).
  unfold candidate in Hc. apply andb_true_iff in Hc as [Hw Hv]. apply negb_true_iff in Hv. rewrite Hv. wp_step. unfold do_search_tables. wp_step. eapply wp_get_table; [done|done|]. rewrite Hw. cbn [negb].
  wp_step. eapply wp_ref; [done|done|]. intros t' Hi' Hs' Hl'. rewrite Hfl, Href in *. pose proof (insert_middle skip (passed fl <$> seen) rest tbl) as Hins. rewrite <- Hl, length_fmap in Hins. rewrite Hins in Hl'.
  assert (Hspu : unplaced tbl = true -> spoilt fl tbl = false) by (intros Hu; unfold spoilt; rewrite Hu; by rewrite andb_false_r).
  destruct (unplaced tbl) eqn:Hu; [|destruct (spoilt fl tbl) eqn:Hsp]; cbn [fst snd] in *.
  - cbn. eapply HQ; [done|done|exact Hl'|]. left. exists seen, tbl, rest. rewrite Hu, Hset, (Hspu eq_refl). by split_and!.
  - change (UACPI_STATUS_BAD_CHECKSUM =? UACPI_STATUS_OK) with false. change (UACPI_STATUS_BAD_CHECKSUM =? UACPI_STATUS_BAD_CHECKSUM) with true. cbv iota. wp_step. cbv iota. apply Hnext; [done|done| |by rewrite Hset].
    rewrite Hl'. unfold passed, candidate. by rewrite Hw, Hv, Hsp.
  - change (UACPI_STATUS_OK =? UACPI_STATUS_OK) with true. cbv iota. wp_step. pose proof (lookup_middle skip (passed fl <$> seen) rest (used tbl)) as Ht'. rewrite <- Hl', length_fmap in Ht'. eapply wp_get_table; [done|done|].
    wp_step. cbv iota. wp_step. rewrite ptr_used. eapply HQ; [done|done|exact Hl'|]. left. exists seen, tbl, rest. rewrite Hu, Hset. by split_and!.
Qed.
End Search.

(** ** The mutex *)

Definition calm (t : tstate) : Prop := table_mutex t = 0 \/ held t = false.
(** The same but for the mutex. *)
Definition quiet (t t' : tstate) : Prop :=
  early_table_access t' = early_table_access t /\ installation_handler t' = installation_handler t /\ table_mutex t' = table_mutex t /\
  rt_flags t' = rt_flags t /\ ts_init_level t' = ts_init_level t /\ ctx t' = ctx t.
Lemma rest_quiet t t' : rest_same t t' -> quiet t t'.
Proof. intros (? & ? & ? & ? & ? & ? & ?). by unfold quiet. Qed.
Lemma quiet_trans t1 t2 t3 : quiet t1 t2 -> quiet t2 t3 -> quiet t1 t3.
Proof. intros (?&?&?&?&?&?) (?&?&?&?&?&?). unfold quiet. split_and!; congruence. Qed.

Lemma wp_acquire t E (Q : () -> tstate -> Prop) : inv E H t -> (forall t', inv E H t' -> quiet t t' -> tables t' = tables t -> Q tt t') -> wp b acquire_mutex Q t.
Proof.
  intros Hi HQ. unfold acquire_mutex. repeat wp_step. destruct (Z.eqb_spec (table_mutex t) 0) as [E0|E0]; wp_step; [by apply HQ|]. apply HQ; [by destruct Hi|done..].
Qed.

Lemma wp_release t E (Q : () -> tstate -> Prop) : inv E H t -> (forall t', inv E H t' -> quiet t t' -> tables t' = tables t -> calm t' -> Q tt t') -> wp b release_mutex Q t.
Proof.
  intros Hi HQ. unfold release_mutex. repeat wp_step. destruct (Z.eqb_spec (table_mutex t) 0) as [E0|E0]; wp_step; (apply HQ; [by destruct Hi|done|done|]); [by left|by right].
Qed.

Lemma wp_online t (Q : bool -> tstate -> Prop) : Q (early_table_access t || negb (ts_init_level t <? UACPI_INIT_LEVEL_SUBSYSTEM_INITIALIZED)) t -> wp b ENSURE_TABLES_ONLINE Q t.
Proof. intros HQ. unfold ENSURE_TABLES_ONLINE. repeat wp_step. exact HQ. Qed.

Definition online (t : tstate) : Prop := early_table_access t = true \/ UACPI_INIT_LEVEL_SUBSYSTEM_INITIALIZED <= ts_init_level t.
Lemma online_dec t : online t /\ early_table_access t || negb (ts_init_level t <? UACPI_INIT_LEVEL_SUBSYSTEM_INITIALIZED) = true \/
  ~ online t /\ early_table_access t || negb (ts_init_level t <? UACPI_INIT_LEVEL_SUBSYSTEM_INITIALIZED) = false.
Proof.
  unfold online. destruct (early_table_access t); [left; by split; [left|]|]. cbn. destruct (Z.ltb_spec (ts_init_level t) UACPI_INIT_LEVEL_SUBSYSTEM_INITIALIZED); [right|left]; (split; [|done]); [intros [|]; [done|lia]|by right].
Qed.

(** Offline, nothing happens. *)
Lemma wp_find t base id (Q : answer -> tstate -> Prop) : inv [] H t ->
  (~ online t -> Q (UACPI_STATUS_INIT_LEVEL_MISMATCH, None) t) ->
  (forall r t' l', inv [] H t' -> quiet t t' -> calm t' -> table_list t' = take base (table_list t) ++ l' -> found (id_matches id) (rt_flags t) (length (take base (table_list t))) (drop base (table_list t)) r l' -> Q r t') ->
  wp b (find_table vm kmap (Z.of_nat base) id) Q t.
Proof.
  intros Hi Hoff HQ. unfold find_table, search, uacpi_for_each_table. wp_step. wp_step. apply wp_online. destruct (online_dec t) as [[_ ->]|[Ho ->]]; cbn [negb]; [|wp_step; wp_step; cbn; by apply Hoff].
  wp_step. eapply wp_acquire; [done|]. intros t1 Hi1 Hq1 Ht1. wp_step. wp_step. wp_step.
  pose proof (contents_length UACPI_STATIC_TABLE_ARRAY_LEN eq_refl (tables t1) (in_array _ _ _ Hi1)) as Hlen.
  assert (Hfl : rt_flags t1 = rt_flags t) by (apply Hq1).
  assert (Hdone : forall r t2 l', inv [] H t2 -> rest_same t1 t2 -> table_list t2 = take base (table_list t) ++ l' -> found (id_matches id) (rt_flags t) (length (take base (table_list t))) (drop base (table_list t)) r l' ->
    wp b (_ ← release_mutex; mret (UACPI_STATUS_OK, r)) (fun x => wp b (let '(ret, r) := x in mret (if negb (ret =? UACPI_STATUS_OK) then (ret, None) else r)) Q) t2).
  { intros r t2 l' Hi2 Hs2 Hl2 Hf. wp_step. eapply wp_release; [exact Hi2|]. intros t3 Hi3 Hq3 Ht3 Hc3. wp_step. wp_step. cbn.
    eapply HQ; [done|by eapply quiet_trans; [exact Hq1|eapply quiet_trans; [by apply rest_quiet|done]]|done|by rewrite Ht3|done]. }
  replace (Z.to_nat (table_array_size (tables t1) - Z.of_nat base)) with (length (drop base (table_list t))) by (rewrite length_drop, <- Ht1; unfold array_size; lia).
  destruct (decide (base <= length (table_list t))%nat) as [Hb|Hb].
  - replace (Z.of_nat base) with (Z.of_nat (length (take base (table_list t)) + length (@nil uacpi_installed_table))) by (rewrite length_take; cbn; lia).
    eapply (wp_search_loop (id_matches id) (rt_flags t) (take base (table_list t)) (drop base (table_list t)) []); [exact Hi1|done|by rewrite Ht1; cbn; rewrite take_drop|done|]. intros r t2 l' Hi2 Hs2 Hl2 Hf. by eapply Hdone.
  - rewrite (drop_ge (table_list t)) in * by lia. cbn [length for_each_loop]. wp_step. eapply (Hdone _ _ []); [done|done|by rewrite Ht1, take_ge, app_nil_r by lia|]. by right.
Qed.

(** ** Users and flags *)

Definition keeps_inv (i : nat) (m : tio Z) : Prop := forall t E, inv E H t -> (i < length (table_list t))%nat ->
  wp b m (fun _ t' => inv E H t' /\ rest_same t t' /\ length (table_list t') = length (table_list t)) t.

Lemma until_error_keeps i steps : Forall (keeps_inv i) steps -> keeps_inv i (until_error steps).
Proof.
  induction 1 as [|m steps Hm _ IH]; intros t E Hi Hlt; cbn [until_error]; [by wp_step|]. wp_step. eapply twp_mono; [by eapply Hm|]. cbv beta. intros r t1 (Hi1 & Hs1 & Hl1).
  destruct (negb (r =? UACPI_STATUS_OK)); [by wp_step|]. eapply twp_mono; [apply IH; [exact Hi1|lia]|]. cbv beta. intros r2 t2 (Hi2 & Hs2 & Hl2). split_and!; [done|by etrans|lia].
Qed.

Lemma flags_keep i (f : uacpi_installed_table -> Z) (r : Z) : keeps_inv i (tbl ← get_table (Z.of_nat i); _ ← put_table (Z.of_nat i) (tbl <| flags := f tbl |>); mret r).
Proof.
  intros t E Hi Hlt. destruct (lookup_lt_is_Some_2 _ _ Hlt) as [tbl Ht]. wp_step. eapply wp_get_table; [done|done|]. pose proof (in_counts _ _ _ Hi) as Hc. rewrite Forall_lookup in Hc.
  wp_step. eapply wp_put_table; [done|done|exact (Hc _ _ Ht)|done|done|]. intros t' Hi' Hs Hl. wp_step. split_and!; [done|done|]. by rewrite Hl, length_insert.
Qed.

Lemma look_keeps i (f : uacpi_installed_table -> Z) : keeps_inv i (tbl ← get_table (Z.of_nat i); mret (f tbl)).
Proof. intros t E Hi Hlt. destruct (lookup_lt_is_Some_2 _ _ Hlt) as [tbl Ht]. wp_step. eapply wp_get_table; [done|done|]. by wp_step. Qed.

Lemma ctl_steps_keep i req : Forall (keeps_inv i) (ctl_steps vm kmap (Z.of_nat i) req).
Proof.
  assert (Hwhen : forall bit m, keeps_inv i m -> keeps_inv i (when req bit m)) by (intros bit m Hm; unfold when; destruct (truthy _); [done|]; intros t E Hi Hlt; by wp_step).
  unfold ctl_steps. repeat apply Forall_cons_2; try apply Forall_nil_2; apply Hwhen; try apply look_keeps; try apply flags_keep.
  - intros t E Hi Hlt. destruct (lookup_lt_is_Some_2 _ _ Hlt) as [tbl Ht]. eapply wp_ref; [done|done|]. intros t' Hi' Hs Hl. split_and!; [done|done|by rewrite Hl, length_insert].
  - intros t E Hi Hlt. destruct (lookup_lt_is_Some_2 _ _ Hlt) as [tbl Ht]. eapply wp_unref; [done|done|]. intros r t' tbl' Hi' Hs Hl _. split_and!; [done|done|by rewrite Hl, length_insert].
Qed.

(** [table_ctl] on a table that is there and valid; [steps]: what its steps do. *)
Lemma wp_ctl t i req tbl (R : Z -> tstate -> Prop) (Q : Z * Z -> tstate -> Prop) : inv [] H t -> online t -> table_list t !! i = Some tbl -> invalid tbl = false ->
  (forall t1, inv [] H t1 -> quiet t t1 -> tables t1 = tables t -> wp b (until_error (ctl_steps vm kmap (Z.of_nat i) req)) (fun r t' => inv [] H t' /\ rest_same t1 t' /\ (i < length (table_list t'))%nat /\ R r t') t1) ->
  (forall r p t' t2, R r t2 -> inv [] H t' -> quiet t t' -> calm t' -> tables t' = tables t2 -> Q (r, p) t') -> wp b (table_ctl vm kmap (Z.of_nat i) req) Q t.
Proof.
  intros Hi Hon Ht Hv Hsteps HQ. unfold table_ctl. wp_step. apply wp_online. destruct (online_dec t) as [[_ ->]|[? _]]; [cbn [negb]|done].
  wp_step. eapply wp_acquire; [done|]. intros t1 Hi1 Hq1 Ht1. wp_step. wp_step. pose proof (contents_length UACPI_STATIC_TABLE_ARRAY_LEN eq_refl (tables t1) (in_array _ _ _ Hi1)) as Hlen.
  apply lookup_lt_Some in Ht as Hlt. unfold array_size. rewrite (proj2 (Z.leb_gt _ _)) by (rewrite Ht1 in *; lia). wp_step. eapply wp_get_table; [exact Hi1|by rewrite Ht1|]. fold (invalid tbl). rewrite Hv.
  wp_step. eapply twp_mono; [by apply Hsteps|]. cbv beta. intros r t2 (Hi2 & Hs2 & Hl2 & HR). destruct (lookup_lt_is_Some_2 _ _ Hl2) as [tbl2 Htb2]. wp_step. eapply wp_get_table; [done|done|].
  wp_step. eapply wp_release; [done|]. intros t3 Hi3 Hq3 Ht3 Hc3. wp_step. eapply HQ; [done|done| |done|done]. eapply quiet_trans; [done|]. eapply quiet_trans; [by apply rest_quiet|done].
Qed.

(** Whatever the request, the mappings stay right; an invalid table keeps the mutex. *)
Lemma wp_ctl_inv t i req (Q : Z * Z -> tstate -> Prop) : inv [] H t -> (forall r t', inv [] H t' -> quiet t t' -> Q r t') -> wp b (table_ctl vm kmap (Z.of_nat i) req) Q t.
Proof.
  intros Hi HQ. destruct (online_dec t) as [[Hon Hd]|[Hon Hd]].
  2: { unfold table_ctl. wp_step. apply wp_online. rewrite Hd. cbn [negb]. wp_step. by apply HQ. }
  destruct (table_list t !! i) as [tbl|] eqn:Ht; [destruct (invalid tbl) eqn:Hv|].
  - unfold table_ctl. wp_step. apply wp_online. rewrite Hd. cbn [negb]. wp_step. eapply wp_acquire; [done|]. intros t1 Hi1 Hq1 Ht1. wp_step. wp_step.
    pose proof (contents_length UACPI_STATIC_TABLE_ARRAY_LEN eq_refl (tables t1) (in_array _ _ _ Hi1)) as Hlen. apply lookup_lt_Some in Ht as Hlt. unfold array_size.
    rewrite (proj2 (Z.leb_gt _ _)) by (rewrite Ht1 in *; lia). wp_step. eapply wp_get_table; [exact Hi1|by rewrite Ht1|]. fold (invalid tbl). rewrite Hv. wp_step. by apply HQ.
  - eapply (wp_ctl t i req tbl (fun _ _ => True)); [done..| |intros r p t' t2 _ Hi' Hq' _ _; by apply HQ]. intros t1 Hi1 Hq1 Ht1. apply lookup_lt_Some in Ht.
    eapply twp_mono; [apply (until_error_keeps i _ (ctl_steps_keep i req)); [exact Hi1|by rewrite Ht1]|]. cbv beta. intros r t2 (? & ? & Hl). rewrite Hl, Ht1. done.
  - unfold table_ctl. wp_step. apply wp_online. rewrite Hd. cbn [negb]. wp_step. eapply wp_acquire; [done|]. intros t1 Hi1 Hq1 Ht1. wp_step. wp_step.
    pose proof (contents_length UACPI_STATIC_TABLE_ARRAY_LEN eq_refl (tables t1) (in_array _ _ _ Hi1)) as Hlen. apply lookup_ge_None in Ht. unfold array_size.
    rewrite (proj2 (Z.leb_le _ _)) by (rewrite Ht1 in *; lia). wp_step. eapply wp_release; [done|]. intros t2 Hi2 Hq2 _ _. wp_step. apply HQ; [done|by eapply quiet_trans].
Qed.

(** ** Installation *)

(** The same settings; the tables and what the FADT fills may change. *)
Definition settings (t t' : tstate) : Prop :=
  early_table_access t' = early_table_access t /\ installation_handler t' = installation_handler t /\ table_mutex t' = table_mutex t /\ held t' = held t /\
  rt_flags t' = rt_flags t /\ ts_init_level t' = ts_init_level t.
Lemma rest_settings t t' : rest_same t t' -> settings t t'.
Proof. intros (? & ? & ? & ? & ? & ? & ?). by unfold settings. Qed.
Lemma settings_trans t1 t2 t3 : settings t1 t2 -> settings t2 t3 -> settings t1 t3.
Proof. intros (?&?&?&?&?&?) (?&?&?&?&?&?). unfold settings. split_and!; congruence. Qed.

Lemma inv_ctx E t c : inv E H t -> inv E H (t <| ctx := c |>).
Proof. by intros []. Qed.

(** A new table at the end of the list, with whatever it holds until it is filled. *)
Lemma wp_table_alloc t E (Q : option Z -> tstate -> Prop) : inv E H t -> Q None t ->
  (forall t' x, array_ok UACPI_STATIC_TABLE_ARRAY_LEN (tables t') -> table_list t' = table_list t ++ [x] -> heap t' ≡ₚ H ++ buffers t' ++ (table_list t ≫= memory) -> maps t' = maps t -> settings t t' ->
     Q (Some (Z.of_nat (length (table_list t)))) t') -> wp b (table_alloc kalloc) Q t.
Proof.
  intros [Ha Hc Hm Hh] HN HQ. unfold table_alloc. wp_step. wp_step. wp_step. wp_step. destruct (early_table_access t && _) eqn:Eg; [by wp_step|]. wp_step. wp_step.
  pose proof (array_alloc_spec UACPI_STATIC_TABLE_ARRAY_LEN TABLE_SIZE blank eq_refl eq_refl (kalloc (heap t)) (tables t) Ha) as Hspec.
  pose proof (contents_length UACPI_STATIC_TABLE_ARRAY_LEN eq_refl (tables t) Ha) as Hlen.
  destruct (table_array_alloc (kalloc (heap t)) (tables t)) as [[arr []] [taken given]]; [|by wp_step]. destruct Hspec as (Ha' & [x Hx] & Hcase).
  pose proof (contents_length UACPI_STATIC_TABLE_ARRAY_LEN eq_refl arr Ha') as Hlen'. rewrite Hx, length_app in Hlen'. cbn in Hlen'.
  assert (Hidx : table_array_size arr - 1 = Z.of_nat (length (table_list t))) by (unfold array_size; lia). rewrite Hidx. wp_step. wp_step. wp_step.
  assert (Hdone : forall h, h ≡ₚ H ++ buffers (t <| tables := arr |>) ++ (table_list t ≫= memory) -> Q (Some (Z.of_nat (length (table_list t)))) (t <| tables := arr |> <| heap := h |>)) by (intros h Hh'; by apply (HQ _ x)).
  destruct Hcase as [(-> & -> & Hb)|(Hfull & -> & Hnz & Hgiven)].
  - wp_step. wp_step. apply Hdone. assert (buffers (t <| tables := arr |>) = buffers t) as -> by (unfold buffers; cbn; by rewrite Hb). exact Hh.
  - assert (Eearly : early_table_access t = false) by (destruct (early_table_access t); [|done]; cbn in Eg; unfold array_size, array_capacity in Eg; rewrite Hfull in Eg; by rewrite Z.eqb_refl in Eg).
    assert (Hbuf : buffers (t <| tables := arr |>) = [buffer arr]) by (unfold buffers; cbn; rewrite Eearly; by rewrite (proj2 (Z.eqb_neq _ 0) Hnz)).
    assert (Hold : buffers t = if buffer (tables t) =? 0 then [] else [buffer (tables t)]) by (unfold buffers; by rewrite Eearly).
    destruct (Z.eqb_spec (buffer (tables t)) 0) as [E0|E0]; subst given.
    + wp_step. wp_step. apply Hdone. rewrite Hbuf. change (heap (t <| tables := arr |>)) with (heap t). rewrite Hh, Hold. cbn [app]. by rewrite Permutation_middle.
    + unfold kernel_free. rewrite (proj2 (Z.eqb_neq _ 0) E0). wp_step. wp_step. wp_step.
      destruct (take_out_some (buffer (tables t)) (heap (t <| tables := arr |> <| heap := [buffer arr] ++ heap t |>))) as (l & Hl & Hp); [change (buffer (tables t) ∈ buffer arr :: heap t); rewrite Hh, Hold; set_solver|].
      apply (twp_lift _ _ l); [done|]. wp_step. wp_step. apply Hdone. rewrite Hbuf. apply (Permutation_cons_inv (a := buffer (tables t))). rewrite <- Hp. change (buffer arr :: heap t ≡ₚ buffer (tables t) :: H ++ [buffer arr] ++ (table_list t ≫= memory)). rewrite Hh, Hold. cbn [app]. rewrite <- !Permutation_middle. apply perm_swap.
Qed.

Lemma wp_fill t0 t E1 x new (Q : () -> tstate -> Prop) : array_ok UACPI_STATIC_TABLE_ARRAY_LEN (tables t) -> table_list t = table_list t0 ++ [x] -> heap t ≡ₚ H ++ buffers t ++ (table_list t0 ≫= memory) ->
  Forall table_ok (table_list t0) -> table_ok new -> memory new = [] -> maps t ≡ₚ (E1 ++ own new) ++ owned (table_list t0) ->
  (forall t', inv E1 H t' -> settings t t' -> Q tt t') -> wp b (put_table (Z.of_nat (length (table_list t0))) new) Q t.
Proof.
  intros Ha Hl Hh Hok Hnew Hmem Hm HQ. unfold put_table. repeat wp_step. pose proof (contents_length UACPI_STATIC_TABLE_ARRAY_LEN eq_refl (tables t) Ha) as Hlen. rewrite Hl, length_app in Hlen. cbn in Hlen.
  destruct (array_put_spec UACPI_STATIC_TABLE_ARRAY_LEN eq_refl (tables t) (Z.of_nat (length (table_list t0))) new Ha) as (arr & Hp & Ha' & Hc' & Hb); [lia|]. rewrite Nat2Z.id, Hl, insert_app_r_alt, Nat.sub_diag in Hc' by lia.
  apply (twp_lift _ _ arr); [done|]. wp_step. apply HQ; [|done]. split; [exact Ha'| | |]; change (table_list (t <| tables := arr |>)) with (contents arr); rewrite Hc'; cbn [insert list_insert].
  - apply Forall_app. split; [done|]. by apply Forall_singleton.
  - change (maps (t <| tables := arr |>)) with (maps t). unfold owned in *. rewrite Hm, bind_app. cbn. rewrite app_nil_r. by rewrite <- app_assoc, (Permutation_app_comm (own new)).
  - assert (buffers (t <| tables := arr |>) = buffers t) as -> by (unfold buffers; cbn; by rewrite Hb). rewrite bind_app. cbn. by rewrite Hmem, !app_nil_r.
Qed.

(** Requests of the program.  [P]: for which requests and settings the installing function is good. *)
Definition proper_request (r : request) : Prop := match r with Physical _ o _ _ => physical o = true | Virtual _ o _ => o = UACPI_TABLE_ORIGIN_HOST_VIRTUAL end.
Definition installs (P : request -> tstate -> Prop) (install : request -> tio answer) : Prop := forall r t E, proper_request r -> P r t -> inv E H t ->
  wp b (install r) (fun _ t' => inv E H t' /\ settings t t') t.

Section Install.
Context (install : request -> tio answer) (P : request -> tstate -> Prop) (Hinstall : installs P install) (HP : forall r t t', settings t t' -> P r t -> P r t').

Definition dsdt_allowed (t : tstate) : Prop := forall a, P (Physical a UACPI_TABLE_ORIGIN_FIRMWARE_PHYSICAL (Some ACPI_DSDT_SIGNATURE) false) t.
Definition overrides_allowed (t : tstate) : Prop := installation_handler t <> None -> forall a want, P (Virtual a UACPI_TABLE_ORIGIN_HOST_VIRTUAL want) t /\ P (Physical a UACPI_TABLE_ORIGIN_HOST_PHYSICAL None want) t.

Lemma wp_fadt t E virt (Q : Z -> tstate -> Prop) : inv E H t -> dsdt_allowed t -> (forall r t', inv E H t' -> settings t t' -> Q r t') -> wp b (initialize_fadt vm install virt) Q t.
Proof.
  intros Hi Hd HQ. unfold initialize_fadt. wp_step. wp_step. wp_step. wp_step. set (t1 := t <| ctx := _ |>). assert (Hi1 : inv E H t1) by (by apply inv_ctx). wp_step.
  assert (Hafter : forall r t2, inv E H t2 -> settings t t2 -> wp b (if negb (r =? UACPI_STATUS_OK) then mret r else _ ← modify (fun t => t <| ctx := fadt_after_dsdt (ctx t) |>); mret UACPI_STATUS_OK) Q t2).
  { intros r t2 Hi2 Hs2. destruct (negb _); [wp_step; by apply HQ|]. wp_step. wp_step. wp_step. apply HQ; [by apply inv_ctx|done]. }
  destruct (negb _); [|wp_step; by apply Hafter]. wp_step. eapply twp_mono; [apply Hinstall; [done|eapply HP; [|apply Hd]; done|done]|]. cbv beta. intros [r o] t2 [Hi2 Hs2]. wp_step. by apply Hafter.
Qed.

Definition is_fadt (h : acpi_sdt_hdr) : bool := uacpi_signatures_match (signature h) ACPI_FADT_SIGNATURE.

Lemma wp_check_table t E h phys virt want (Q : Z * Z -> tstate -> Prop) : inv E H t -> (is_fadt h = true -> dsdt_allowed t) ->
  (forall r t', inv E H t' -> settings t t' -> Q r t') -> wp b (check_table vm kmap install h phys virt want) Q t.
Proof.
  intros Hi Hd HQ. unfold check_table. fold (is_fadt h). destruct (uacpi_signatures_match _ ACPI_FACS_SIGNATURE); [wp_step; by apply HQ|]. wp_step. apply wp_check_flag. intros pro.
  destruct (pro || is_fadt h || want); [|wp_step; by apply HQ].
  assert (Hgo : forall E1 t1 mapping, inv E1 H t1 -> settings t t1 -> mapping <> 0 -> (forall r t2, inv E1 H t2 -> settings t t2 -> wp b (_ ← (if virt =? 0 then uacpi_kernel_unmap mapping (hdr_length h) else mret tt); mret r) Q t2) ->
    wp b (if mapping =? 0 then mret (UACPI_STATUS_MAPPING_FAILED, 0)
      else
        ret ← uacpi_verify_table_checksum vm mapping (hdr_length h);
        '(ret, f) ← (if ret =? UACPI_STATUS_OK then ret ← (if is_fadt h then initialize_fadt vm install mapping else mret ret); mret (ret, UACPI_TABLE_CSUM_VERIFIED) else mret (ret, 0));
        _ ← (if virt =? 0 then uacpi_kernel_unmap mapping (hdr_length h) else mret tt);
        mret (ret, f)) Q t1).
  { intros E1 t1 mapping Hi1 Hs1 Hm Hend. rewrite (proj2 (Z.eqb_neq _ 0) Hm). wp_step. apply wp_checksum. intros r _. wp_step. destruct (r =? UACPI_STATUS_OK); [|wp_step; by apply (Hend (r, 0))].
    wp_step. destruct (is_fadt h) eqn:Hf; [|wp_step; wp_step; by apply (Hend (r, UACPI_TABLE_CSUM_VERIFIED))]. eapply wp_fadt; [exact Hi1|intros a; eapply HP; [exact Hs1|by apply Hd]|].
    intros r2 t2 Hi2 Hs2. wp_step. apply (Hend (r2, UACPI_TABLE_CSUM_VERIFIED)); [done|by eapply settings_trans]. }
  wp_step. destruct (Z.eqb_spec virt 0) as [->|Hv].
  - eapply wp_map; [done|change (0 =? 0) with true; cbv iota; wp_step; by apply HQ|]. intros v t1 Hv Hi1 Hs1 _. apply rest_settings in Hs1. eapply Hgo; [exact Hi1|done|done|]. intros r t2 Hi2 Hs2. wp_step. eapply wp_unmap; [exact Hi2|].
    intros t3 Hi3 Hs3 _. wp_step. apply HQ; [done|]. eapply settings_trans; [done|by apply rest_settings].
  - wp_step. eapply Hgo; [exact Hi|done|done|]. intros r t2 Hi2 Hs2. wp_step. wp_step. wp_step. by apply HQ.
Qed.

(** [E1]: what others have once a table in physical memory that the caller wants has taken the
    caller's mapping. *)
Lemma wp_verify_install t E E1 h phys virt origin want (Q : answer -> tstate -> Prop) : inv E H t -> (is_fadt h = true -> dsdt_allowed t) -> origin <> UACPI_TABLE_ORIGIN_FIRMWARE_VIRTUAL ->
  (if physical origin && want then E ≡ₚ (virt, hdr_length h) :: E1 /\ virt <> 0 else E1 = E) ->
  (forall o t', inv E1 H t' -> settings t t' -> Q (UACPI_STATUS_OK, o) t') -> (forall r t', r <> UACPI_STATUS_OK -> inv E H t' -> settings t t' -> Q (r, None) t') ->
  wp b (verify_and_install_table vm kmap kalloc install h phys virt origin want) Q t.
Proof.
  intros Hi Hd Ho HE HQ1 HQ2. unfold verify_and_install_table. wp_step. eapply wp_check_table; [done|done|]. intros [r f] t1 Hi1 Hs1.
  destruct (Z.eqb_spec r UACPI_STATUS_OK) as [->|Hr]; cbn [negb]; [|wp_step; by apply HQ2]. wp_step.
  assert (Hadd : forall t2, inv E H t2 -> settings t t2 -> wp b (idx ← table_alloc kalloc; match idx with
    | None => mret (UACPI_STATUS_OUT_OF_MEMORY, None)
    | Some idx => _ ← put_table idx (Table phys h virt (if (want : bool) then 1 else 0) f origin); mret (UACPI_STATUS_OK, if (want : bool) then Some (virt, idx) else None) end) Q t2).
  { intros t2 Hi2 Hs2. wp_step. eapply wp_table_alloc; [exact Hi2|wp_step; by apply HQ2|]. intros t3 x Ha3 Hl3 Hh3 Hm3 Hs3. set (new := Table _ _ _ _ _ _). wp_step.
    eapply (wp_fill t2 t3 E1); [done|exact Hl3|done|apply Hi2| | | |].
    - unfold table_ok, new. cbn. destruct want; [|split; [lia|done]]. split; [lia|]. intros Hph _. rewrite Hph in HE. cbn in HE. by destruct HE.
    - unfold memory, new. cbn. by rewrite (proj2 (Z.eqb_neq _ _) Ho).
    - rewrite Hm3, (in_maps _ _ _ Hi2). f_equiv. unfold own, new. cbn. destruct (physical origin); cbn in *; [|by rewrite HE, app_nil_r]. destruct want; cbn in *; [|by rewrite HE, app_nil_r].
      destruct HE as [HE _]. rewrite HE. apply Permutation_cons_append.
    - intros t4 Hi4 Hs4. wp_step. apply HQ1; [done|]. eapply settings_trans; [exact Hs2|]. by eapply settings_trans. }
  destruct (uacpi_signatures_match _ ACPI_DSDT_SIGNATURE); wp_step; (apply Hadd; [by try apply inv_ctx|done]).
Qed.

Lemma wp_filter t E firmware virt want go (Q : answer -> tstate -> Prop) : inv E H t -> overrides_allowed t -> wp b go Q t ->
  (forall r o t', r <> UACPI_STATUS_OK -> inv E H t' -> settings t t' -> Q (r, o) t') -> wp b (filter_table install firmware virt want go) Q t.
Proof.
  intros Hi Hov Hgo HQ. unfold filter_table. wp_step. wp_step. destruct (installation_handler t) as [handler|] eqn:Eh; [|done]. destruct firmware; [|done]. destruct (handler virt) as [disp addr].
  destruct (disp =? DISPOSITON_ALLOW); [done|]. destruct (disp =? DISPOSITON_DENY); [wp_step; by apply HQ|]. wp_step.
  assert (Hres : forall r o t', inv E H t' -> settings t t' -> Q (if r =? UACPI_STATUS_OK then UACPI_STATUS_OVERRIDDEN else r, o) t') by (intros r o t' Hi' Hs'; apply HQ; [by destruct (Z.eqb_spec r UACPI_STATUS_OK)|done..]).
  destruct (Hov ltac:(congruence) addr want) as [Hv Hp]. unfold handle_table_override. destruct (disp =? DISPOSITON_VIRTUAL_OVERRIDE); [|destruct (disp =? DISPOSITON_PHYSICAL_OVERRIDE); [|wp_step; wp_step; by apply Hres]].
  - eapply twp_mono; [by apply Hinstall|]. cbv beta. intros [r o] t' [Hi' Hs']. wp_step. by apply Hres.
  - eapply twp_mono; [by apply Hinstall|]. cbv beta. intros [r o] t' [Hi' Hs']. wp_step. by apply Hres.
Qed.

Definition fatal_signatures (t : tstate) : bool := rt_flags t &&& UACPI_FLAG_BAD_TBL_SIGNATURE_FATAL =? UACPI_FLAG_BAD_TBL_SIGNATURE_FATAL.

Lemma wp_signature t sig expect (Q : Z -> tstate -> Prop) : (forall r, (r = UACPI_STATUS_OK -> sig = expect \/ fatal_signatures t = false) -> Q r t) -> wp b (uacpi_check_table_signature sig expect) Q t.
Proof.
  intros HQ. unfold uacpi_check_table_signature, uacpi_signatures_match. destruct (decide (sig = expect)) as [->|Hne]; [rewrite bool_decide_true by done; cbn [negb]; wp_step; apply HQ; by left|].
  rewrite bool_decide_false by done. cbn [negb]. wp_step. unfold check_flag. repeat wp_step. apply HQ. fold (fatal_signatures t). destruct (fatal_signatures t); [done|by right].
Qed.

Lemma wp_header t E phys (Q : Z + acpi_sdt_hdr -> tstate -> Prop) : inv E H t -> (forall r t', inv E H t' -> settings t t' -> Q r t') -> wp b (get_external_table_header vm kmap phys) Q t.
Proof.
  intros Hi HQ. unfold get_external_table_header. wp_step. eapply wp_map; [done|change (0 =? 0) with true; cbv iota; wp_step; by apply HQ|]. intros v t1 Hv Hi1 Hs1 _. rewrite (proj2 (Z.eqb_neq v 0) Hv).
  wp_step. eapply wp_unmap; [exact Hi1|]. intros t2 Hi2 Hs2 _. wp_step. apply HQ; [done|]. eapply settings_trans; by apply rest_settings.
Qed.

(** When a table that may be a FADT can lead to another. *)
Definition fadt_allowed (expected : option (list Z)) (t : tstate) : Prop :=
  forall h, is_fadt h = true -> (forall s, expected = Some s -> signature h = s \/ fatal_signatures t = false) -> dsdt_allowed t.

(** What follows the mapping of the table, if it was mapped. *)
Lemma wp_physical_body E E1 t h phys virt origin want : inv E1 H t -> physical origin = true -> overrides_allowed t -> (is_fadt h = true -> dsdt_allowed t) ->
  (virt = 0 /\ want = false /\ E1 = E \/ virt <> 0 /\ E1 = (virt, hdr_length h) :: E) ->
  wp b ('(ret, out) ← filter_table install (origin =? UACPI_TABLE_ORIGIN_FIRMWARE_PHYSICAL) virt want (verify_and_install_table vm kmap kalloc install h phys virt origin want);
    if (ret =? UACPI_STATUS_OK) && want then mret (ret, out)
    else _ ← (if negb (virt =? 0) then uacpi_kernel_unmap virt (hdr_length h) else mret tt); mret (UACPI_STATUS_OK, out)) (fun _ t' => inv E H t' /\ settings t t') t.
Proof.
  intros Hi Hph Hov Hda Hv. wp_step. assert (Horig : origin <> UACPI_TABLE_ORIGIN_FIRMWARE_VIRTUAL) by (by intros ->).
  assert (Hclose : forall (o : option (Z * Z)) t3, inv E1 H t3 -> settings t t3 -> wp b (_ ← (if negb (virt =? 0) then uacpi_kernel_unmap virt (hdr_length h) else mret tt); mret ((UACPI_STATUS_OK, o) : answer)) (fun _ t' => inv E H t' /\ settings t t') t3).
  { intros o t3 Hi3 Hs3. wp_step. destruct Hv as [(-> & _ & ->)|[Hv ->]].
    - cbn [negb Z.eqb]. wp_step. wp_step. by split.
    - rewrite (proj2 (Z.eqb_neq virt 0) Hv). cbn [negb]. eapply wp_unmap; [exact Hi3|]. intros t4 Hi4 Hs4 _. wp_step. split; [done|]. eapply settings_trans; [done|by apply rest_settings]. }
  eapply wp_filter; [exact Hi|done| |].
  - destruct want.
    + destruct Hv as [(_ & ? & _)|[Hv ->]]; [done|]. eapply (wp_verify_install t _ E); [exact Hi|done|done|rewrite Hph; by split| |].
      * intros o t3 Hi3 Hs3. change (UACPI_STATUS_OK =? UACPI_STATUS_OK) with true. cbn [andb]. wp_step. by split.
      * intros r3 t3 Hr3 Hi3 Hs3. rewrite (proj2 (Z.eqb_neq _ _) Hr3). cbn [andb]. by apply Hclose.
    + eapply (wp_verify_install t _ E1); [exact Hi|done|done|by rewrite andb_false_r| |]; intros; rewrite andb_false_r; by apply Hclose.
  - intros r3 o t3 Hr3 Hi3 Hs3. rewrite (proj2 (Z.eqb_neq _ _) Hr3). cbn [andb]. by apply Hclose.
Qed.

Lemma wp_physical t E phys origin expected want : inv E H t -> physical origin = true -> overrides_allowed t -> fadt_allowed expected t ->
  wp b (table_install_physical_with_origin_unlocked vm kmap kalloc install phys origin expected want) (fun _ t' => inv E H t' /\ settings t t') t.
Proof.
  intros Hi Hph Hov Hfa. unfold table_install_physical_with_origin_unlocked. wp_step. eapply wp_header; [done|]. intros [r|h] t1 Hi1 Hs1; [by wp_step|]. destruct (hdr_length h <? SDT_HDR_SIZE); [by wp_step|].
  wp_step.
  assert (Hsig : forall (Q : Z -> tstate -> Prop), (forall r, (r = UACPI_STATUS_OK -> forall s, expected = Some s -> signature h = s \/ fatal_signatures t = false) -> Q r t1) ->
    wp b (match expected with Some s => uacpi_check_table_signature (signature h) s | None => mret UACPI_STATUS_OK end) Q t1).
  { intros Q HQ. destruct expected as [s|]; [|wp_step; by apply HQ]. apply wp_signature. intros r Hr. apply HQ. intros -> s' [= <-]. unfold fatal_signatures in *. destruct Hs1 as (_ & _ & _ & _ & <- & _). by apply Hr. }
  apply Hsig. clear Hsig. intros r Hr. destruct (Z.eqb_spec r UACPI_STATUS_OK) as [E0|E0]; cbn [negb]; [|by wp_step]. specialize (Hr E0). wp_step. wp_step.
  set (mapped := match installation_handler t1 with Some _ => true | None => want end).
  assert (Hov1 : forall t2, settings t1 t2 -> overrides_allowed t2).
  { intros t2 Hs2 Hne a w. assert (Hs : settings t t2) by (by eapply settings_trans). destruct Hs2 as (_ & Eh & _). destruct Hs1 as (_ & Eh1 & _). rewrite Eh, Eh1 in Hne. destruct (Hov Hne a w). split; by eapply HP. }
  assert (Hda : forall t2, settings t1 t2 -> is_fadt h = true -> dsdt_allowed t2).
  { intros t2 Hs2 Hf a. eapply HP; [eapply settings_trans; [exact Hs1|exact Hs2]|]. by apply (Hfa h Hf). }
  destruct mapped eqn:Em; wp_step.
  - eapply wp_map; [done|cbn [andb Z.eqb]; by wp_step|]. intros v t2 Hv Hi2 Hs2 _. assert (true && (v =? 0) = false) as -> by (by rewrite (proj2 (Z.eqb_neq v 0) Hv)). eapply twp_mono; [apply (wp_physical_body E ((v, hdr_length h) :: E)); [done|done|apply Hov1; by apply rest_settings|apply Hda; by apply rest_settings|by right]|].
    cbv beta. intros _ t3 [Hi3 Hs3]. split; [done|]. eapply settings_trans; [exact Hs1|]. eapply settings_trans; [by apply rest_settings|done].
  - wp_step. cbn [andb]. eapply twp_mono; [apply (wp_physical_body E E); [done|done|by apply Hov1|by apply Hda|]|].
    + left. split_and!; try done. subst mapped. by destruct (installation_handler t1).
    + cbv beta. intros _ t3 [Hi3 Hs3]. split; [done|by eapply settings_trans].
Qed.

Lemma wp_virtual t E virt want : inv E H t -> overrides_allowed t -> dsdt_allowed t ->
  wp b (table_install_with_origin_unlocked vm kmap kalloc install virt UACPI_TABLE_ORIGIN_HOST_VIRTUAL want) (fun _ t' => inv E H t' /\ settings t t') t.
Proof.
  intros Hi Hov Hd. unfold table_install_with_origin_unlocked. destruct (hdr_length _ <? SDT_HDR_SIZE); [by wp_step|]. eapply wp_filter; [exact Hi|done| |by intros].
  eapply (wp_verify_install t E E); [exact Hi|done|done|done|by intros|by intros].
Qed.
End Install.

(** One table deeper. *)
Lemma installs_step (P P' : request -> tstate -> Prop) f : installs P (table_install vm kmap kalloc f) -> (forall r t t', settings t t' -> P r t -> P r t') ->
  (forall r t, proper_request r -> P' r t -> overrides_allowed P t /\ match r with Physical _ _ expected _ => fadt_allowed P expected t | Virtual _ _ _ => dsdt_allowed P t end) ->
  installs P' (table_install vm kmap kalloc (S f)).
Proof.
  intros Hf HP Hall r t E Hr HPr Hi. destruct (Hall r t Hr HPr) as [Hov Hd]. cbn [table_install]. destruct r as [phys o expected want|virt o want]; cbn in Hr; [by eapply wp_physical|subst o; by eapply wp_virtual].
Qed.
End Steps.

(** Installing never does wrong, however deep the tables are. *)
Lemma install_safe vm kmap kalloc H fuel : installs True H (fun _ _ => True) (table_install vm kmap kalloc fuel).
Proof. induction fuel as [|f IH]; [done|]. eapply (installs_step True vm kmap kalloc H (fun _ _ => True)); [exact IH|done|]. intros r t _ _. split; [done|]. by destruct r. Qed.

(** Without a handler and with signatures that must be right, two tables deep is enough. *)
Definition strict (t : tstate) : Prop := installation_handler t = None /\ fatal_signatures t = true.
Lemma strict_settings t t' : settings t t' -> strict t -> strict t'.
Proof. intros (_ & Hh & _ & _ & Hf & _) [H1 H2]. unfold strict, fatal_signatures in *. by rewrite Hh, Hf. Qed.

Lemma install_returns vm kmap kalloc H fuel : (2 <= fuel)%nat -> installs False H (fun _ t => strict t) (table_install vm kmap kalloc fuel).
Proof.
  intros Hf. set (P1 := fun r t => strict t /\ exists a o w, r = Physical a o (Some ACPI_DSDT_SIGNATURE) w).
  assert (H1 : forall f, installs False H P1 (table_install vm kmap kalloc (S f))).
  { intros f. eapply (installs_step False vm kmap kalloc H (fun _ _ => False)); [by intros ? ? ? _ []|done|]. intros r t _ [[Hh Hs] (a & o & w & ->)]. split; [by intros Hne|].
    intros h Hfd Hsig a'. exfalso. destruct (Hsig _ eq_refl) as [E|E]; [|congruence]. unfold is_fadt, uacpi_signatures_match in Hfd. apply bool_decide_eq_true in Hfd. rewrite E in Hfd. discriminate. }
  destruct fuel as [|[|f]]; [lia|lia|]. eapply installs_step; [apply H1| |].
  - intros r t t' Hs [Hst Hr]. split; [by eapply strict_settings|done].
  - intros r t _ Hst. assert (Hd : dsdt_allowed P1 t) by (intros a; split; [done|by eexists _, _, _]). split; [intros Hne; by destruct Hst|]. destruct r; [intros h _ _; exact Hd|exact Hd].
Qed.
