(* ===== verification/AcpiTablesThm.v ===== *)
(** * ACPI tables: what the operations promise *)

From stdpp Require Import strings.
From S2P Require Import Prelude Mem CString Layout KernelApi AcpiField AcpiRegion AcpiGas AcpiRegs AcpiLock AcpiNs AcpiNsIter AcpiNsInit AcpiDynArray AcpiFadt AcpiTables AcpiTablesOps AcpiTablesProps.
Open Scope Z_scope.

(** ** Any sequence of operations *)

Inductive table_op :=
  | Ref (idx : nat) | Unref (idx : nat) | MarkLoaded (idx : nat)
  | Find (id : uacpi_table_identifiers) | FindNext (p : Z) (idx : nat)
  | InstallAt (virt : Z) (want : bool) | InstallPhysical (addr : Z) (want : bool)
  | SetHandler (handler : option (Z -> Z * Z)).

Section Scripts.
Context (vm : mem) (kmap : Z -> Z -> Z) (kalloc : list Z -> Z -> Z) (fuel : nat).

Definition run_op (o : table_op) : tio () :=
  match o with
  | Ref i => _ ← uacpi_table_ref vm kmap (Z.of_nat i); mret tt
  | Unref i => _ ← uacpi_table_unref vm kmap (Z.of_nat i); mret tt
  | MarkLoaded i => uacpi_table_mark_as_loaded vm kmap (Z.of_nat i)
  | Find id => _ ← uacpi_table_find vm kmap id; mret tt
  | FindNext p i => _ ← uacpi_table_find_next_with_same_signature vm kmap p (Z.of_nat i); mret tt
  | InstallAt virt want => _ ← uacpi_table_install vm kmap kalloc fuel virt want; mret tt
  | InstallPhysical addr want => _ ← uacpi_table_install_physical vm kmap kalloc fuel addr want; mret tt
  | SetHandler h => _ ← uacpi_set_table_installation_handler h; mret tt
  end.
Fixpoint run (ops : list table_op) : tio () := match ops with [] => mret tt | o :: ops => _ ← run_op o; run ops end.

Context (H : list Z).

Lemma wp_install_locked r t (Q : answer -> tstate -> Prop) : proper_request r -> inv [] H t -> (forall a t', inv [] H t' -> Q a t') ->
  wp True (_ ← acquire_mutex; a ← table_install vm kmap kalloc fuel r; _ ← release_mutex; mret a) Q t.
Proof.
  intros Hr Hi HQ. wp_step. eapply wp_acquire; [done|]. intros t1 Hi1 _ _. wp_step. eapply twp_mono; [by apply (install_safe vm kmap kalloc H fuel r t1 [])|]. cbv beta. intros a t2 [Hi2 _].
  wp_step. eapply wp_release; [done|]. intros t3 Hi3 _ _ _. wp_step. by apply HQ.
Qed.

Lemma op_safe o t : inv [] H t -> wp True (run_op o) (fun _ t' => inv [] H t') t.
Proof.
  intros Hi. assert (Hctl : forall i req t (Q : Z * Z -> tstate -> Prop), inv [] H t -> (forall r t', inv [] H t' -> Q r t') -> wp True (table_ctl vm kmap (Z.of_nat i) req) Q t)
    by (intros i req t1 Q Hi1 HQ; eapply wp_ctl_inv; [exact Hi1|]; intros r t' Hi' _; by apply HQ).
  assert (Hfind : forall base id t (Q : answer -> tstate -> Prop), inv [] H t -> (forall r t', inv [] H t' -> Q r t') -> wp True (find_table vm kmap (Z.of_nat base) id) Q t)
    by (intros base id t1 Q Hi1 HQ; eapply wp_find; [exact Hi1|intros _; by apply HQ|]; intros; by apply HQ).
  destruct o as [i|i|i|id|p i|virt want|addr want|h]; cbn [run_op].
  - wp_step. unfold uacpi_table_ref. wp_step. apply Hctl; [done|]. intros [r p] t' Hi'. wp_step. by wp_step.
  - wp_step. unfold uacpi_table_unref. wp_step. apply Hctl; [done|]. intros [r p] t' Hi'. wp_step. by wp_step.
  - unfold uacpi_table_mark_as_loaded. wp_step. apply Hctl; [done|]. intros r t' Hi'. by wp_step.
  - wp_step. unfold uacpi_table_find. wp_step. apply wp_online. destruct (_ || _); cbn [negb]; [|wp_step; by wp_step]. apply (Hfind 0%nat); [done|]. intros r t' Hi'. by wp_step.
  - wp_step. unfold uacpi_table_find_next_with_same_signature. wp_step. apply wp_online. destruct (_ || _); cbn [negb]; [|wp_step; by wp_step]. destruct (p =? 0); [wp_step; by wp_step|].
    wp_step. unfold uacpi_table_unref. wp_step. apply Hctl; [done|]. intros [r q] t' Hi'. wp_step. replace (Z.of_nat i + 1) with (Z.of_nat (S i)) by lia. apply Hfind; [done|]. intros. by wp_step.
  - wp_step. unfold uacpi_table_install. wp_step. apply wp_online. destruct (_ || _); cbn [negb]; [|wp_step; by wp_step]. apply wp_install_locked; [done|done|]. intros. by wp_step.
  - wp_step. unfold uacpi_table_install_physical. wp_step. apply wp_online. destruct (_ || _); cbn [negb]; [|wp_step; by wp_step]. apply wp_install_locked; [done|done|]. intros. by wp_step.
  - wp_step. unfold uacpi_set_table_installation_handler. wp_step. eapply wp_acquire; [done|]. intros t1 Hi1 _ _. wp_step. wp_step. wp_step.
    assert (Hend : forall t2, inv [] H t2 -> wp True (_ ← release_mutex; mret UACPI_STATUS_OK) (fun _ => wp True (mret tt) (fun _ t' => inv [] H t')) t2)
      by (intros t2 Hi2; wp_step; eapply wp_release; [done|]; intros t3 Hi3 _ _ _; wp_step; by wp_step).
    destruct (installation_handler t1), h; wp_step; apply Hend; by destruct Hi1.
Qed.

Lemma run_safe ops : forall t, inv [] H t -> wp True (run ops) (fun _ t' => inv [] H t') t.
Proof. induction ops as [|o ops IH]; intros t Hi; cbn [run]; [by wp_step|]. wp_step. eapply twp_mono; [by apply op_safe|]. cbv beta. intros _ t' Hi'. by apply IH. Qed.
End Scripts.

(** C10: tables are mapped exactly while they have users.  From a state where this holds, any
    operations on the list (more or fewer users, marking, searching, installing tables whatever
    they contain and whatever the host's handler says) never unmap a mapping or free memory
    that is not theirs and never leave the list; whenever they are done, the mappings in use are those of
    the tables in physical memory that have users, no less and no more, each such table has
    an address, and the heap memory in use is the list's own. *)
Theorem tables_mapped_while_used vm kmap kalloc fuel H ops t : inv [] H t ->
  match run vm kmap kalloc fuel ops t with
  | Done _ t' => maps t' ≡ₚ owned (table_list t') /\ Forall table_ok (table_list t') /\ heap t' ≡ₚ H ++ buffers t' ++ (table_list t' ≫= memory)
  | Wrong => False
  | Endless => True
  end.
Proof. intros Hi. pose proof (run_safe vm kmap kalloc fuel H ops t Hi) as Hw. unfold wp in Hw. destruct (run vm kmap kalloc fuel ops t) as [x t'| |]; [|done|done]. by destruct Hw. Qed.

(** C11: searching returns, with the first table that has the identifiers and can be used.  Tables
    with other identifiers and invalid ones are passed over; so is one whose checksum is
    verified now, wrong, and that is fatal: it is discarded, unmapped and invalid from now on.  The first
    table left gets one user more (up to the limit) and the answer is its address and index, the
    address being where it is mapped if this is its first user in physical memory; only if that mapping
    fails is the answer that it failed.  Without such a table the answer is that none was
    found.  No other table changes, and the mutex is given back. *)
Theorem search_finds_first vm kmap H id t : inv [] H t -> online t ->
  exists r t', uacpi_table_find vm kmap id t = Done r t' /\ inv [] H t' /\ quiet t t' /\ calm t' /\
    found vm kmap (id_matches id) (rt_flags t) 0 (table_list t) r (table_list t').
Proof.
  intros Hi Hon. assert (Hw : wp False (uacpi_table_find vm kmap id) (fun r t' => inv [] H t' /\ quiet t t' /\ calm t' /\ found vm kmap (id_matches id) (rt_flags t) 0 (table_list t) r (table_list t')) t).
  { unfold uacpi_table_find. wp_step. apply wp_online. destruct (online_dec t) as [[_ ->]|[? _]]; [cbn [negb]|done]. eapply (wp_find False vm kmap H t 0); [done|done|]. intros r t' l' Hi' Hq' Hc' Hl' Hf. rewrite Hl'. by split_and!. }
  unfold wp in Hw. destruct (uacpi_table_find vm kmap id t) as [r t'| |]; [|done|done]. by exists r, t'.
Qed.

(** ** The end *)

Lemma wp_free b t p l (Q : () -> tstate -> Prop) : heap t ≡ₚ (if p =? 0 then [] else [p]) ++ l -> (forall h, h ≡ₚ l -> Q tt (t <| heap := h |>)) -> wp b (kernel_free p) Q t.
Proof.
  intros Hh HQ. unfold kernel_free. destruct (p =? 0); [wp_step|].
  - replace t with (t <| heap := heap t |>) by (by destruct t). by apply HQ.
  - wp_step. wp_step. wp_step. destruct (take_out_some p (heap t)) as (h & Hl & Hp); [rewrite Hh; constructor|]. apply (twp_lift _ _ h); [done|]. wp_step. apply HQ.
    apply (Permutation_cons_inv (a := p)). by rewrite <- Hp, Hh.
Qed.

Lemma wp_release_tables b K k : forall i t (Q : () -> tstate -> Prop), array_ok UACPI_STATIC_TABLE_ARRAY_LEN (tables t) -> k = (length (table_list t) - i)%nat ->
  maps t ≡ₚ owned (drop i (table_list t)) -> heap t ≡ₚ K ++ (drop i (table_list t) ≫= memory) ->
  (forall t', tables t' = tables t -> early_table_access t' = early_table_access t -> maps t' = [] -> heap t' ≡ₚ K -> Q tt t') -> wp b (release_tables k (Z.of_nat i)) Q t.
Proof.
  induction k as [|k IH]; intros i t Q Ha Hk Hm Hh HQ; cbn [release_tables].
  { wp_step. rewrite drop_ge in Hm, Hh by lia. cbn in Hm, Hh. rewrite app_nil_r in Hh. apply HQ; [done..| |done]. by apply Permutation_nil_r in Hm. }
  destruct (lookup_lt_is_Some_2 (table_list t) i) as [tbl Ht]; [lia|]. wp_step. unfold get_table. wp_step. wp_step.
  apply (twp_lift _ _ tbl); [rewrite array_at_spec by done; unfold zget; by rewrite (proj2 (Z.ltb_ge _ 0)), Nat2Z.id by lia|]. rewrite (drop_S _ tbl) in Hm, Hh by done. unfold owned in Hm. cbn [mbind list_bind] in Hm, Hh.
  assert (Hnext : forall t1, tables t1 = tables t -> early_table_access t1 = early_table_access t -> maps t1 ≡ₚ owned (drop (S i) (table_list t)) -> heap t1 ≡ₚ K ++ (drop (S i) (table_list t) ≫= memory) ->
    wp b (release_tables k (Z.of_nat i + 1)) Q t1).
  { intros t1 Ht1 He1 Hm1 Hh1. replace (Z.of_nat i + 1) with (Z.of_nat (S i)) by lia. apply IH; rewrite ?Ht1; [done|lia|done|done|]. intros t2 Ht2 He2. apply HQ; congruence. }
  wp_step. unfold own, memory in Hm, Hh. destruct (Z.eqb_spec (origin tbl) UACPI_TABLE_ORIGIN_FIRMWARE_VIRTUAL) as [Eo|Eo]; cbn [andb] in Hh.
  - assert (Hp : physical (origin tbl) = false) by (by rewrite Eo). rewrite Hp in Hm. cbn in Hm. eapply (wp_free _ _ _ (K ++ (drop (S i) (table_list t) ≫= memory))).
    { destruct (ptr tbl =? 0); cbn [negb] in Hh; [done|]. rewrite Hh. cbn. by rewrite Permutation_middle. }
    intros h Hh'. by apply Hnext.
  - cbn in Hh. destruct (physical (origin tbl) && negb (reference_count tbl =? 0)); cbn in Hm; [|wp_step; by apply Hnext].
    eapply wp_unmap_raw; [rewrite Hm; constructor|]. intros l Hl. apply Hnext; [done..| |done]. cbn. apply (Permutation_cons_inv (a := (ptr tbl, hdr_length (hdr tbl)))). by rewrite <- Hl, Hm.
Qed.

(** Taking the list down returns: no table is left, no mapping is in use, and the heap memory in use
    is what others have. *)
Theorem tables_deinitialized H t : inv [] H t ->
  exists t', uacpi_deinitialize_tables t = Done tt t' /\ table_list t' = [] /\ maps t' = [] /\ heap t' ≡ₚ H.
Proof.
  intros [Ha Hc Hm Hh]. assert (Hw : wp False uacpi_deinitialize_tables (fun _ t' => table_list t' = [] /\ maps t' = [] /\ heap t' ≡ₚ H) t).
  { unfold uacpi_deinitialize_tables. wp_step. wp_step. wp_step. pose proof (contents_length UACPI_STATIC_TABLE_ARRAY_LEN eq_refl (tables t) Ha) as Hlen.
    apply (wp_release_tables _ (H ++ buffers t) _ 0); [done|unfold array_size; lia|done|by rewrite <- app_assoc|]. intros t1 Ht1 He1 Hm1 Hh1. wp_step. wp_step. wp_step. unfold buffers in Hh1. rewrite <- He1 in Hh1.
    destruct (early_table_access t1); [rewrite app_nil_r in Hh1; wp_step; by wp_step|]. wp_step. wp_step. unfold array_clear. rewrite Ht1.
    destruct (Z.eqb_spec (buffer (tables t)) 0) as [E|E]; [rewrite app_nil_r in Hh1; wp_step; wp_step; wp_step; by wp_step|]. wp_step.
    eapply (wp_free _ _ _ H); [rewrite (proj2 (Z.eqb_neq _ 0) E), Hh1; by rewrite Permutation_app_comm|]. intros h Hh'. wp_step. by wp_step. }
  unfold wp in Hw. destruct (uacpi_deinitialize_tables t) as [[] t'| |]; [|done|done]. by exists t'.
Qed.

(** ** What goes wrong *)

(** Asking for an invalid table keeps the mutex: it is taken and not given back. *)
Theorem invalid_table_keeps_mutex vm kmap H t i tbl : inv [] H t -> online t -> table_mutex t <> 0 -> table_list t !! i = Some tbl -> invalid tbl = true ->
  exists t', uacpi_table_ref vm kmap (Z.of_nat i) t = Done UACPI_STATUS_INVALID_ARGUMENT t' /\ held t' = true /\ table_mutex t' = table_mutex t.
Proof.
  intros Hi Hon Hm Ht Hv. assert (Hw : wp False (uacpi_table_ref vm kmap (Z.of_nat i)) (fun r t' => r = UACPI_STATUS_INVALID_ARGUMENT /\ held t' = true /\ table_mutex t' = table_mutex t) t).
  { unfold uacpi_table_ref, table_ctl. wp_step. wp_step. apply wp_online. destruct (online_dec t) as [[_ ->]|[? _]]; [cbn [negb]|done]. wp_step. unfold acquire_mutex. wp_step. wp_step.
    rewrite (proj2 (Z.eqb_neq _ 0) Hm). wp_step. wp_step. wp_step. set (t1 := t <| held := true |>). assert (Hi1 : inv [] H t1) by (by destruct Hi).
    pose proof (contents_length UACPI_STATIC_TABLE_ARRAY_LEN eq_refl (tables t) (in_array _ _ _ Hi)) as Hlen. apply lookup_lt_Some in Ht as Hlt. change (tables t1) with (tables t). unfold array_size.
    rewrite (proj2 (Z.leb_gt _ _)) by lia. wp_step. eapply wp_get_table; [exact Hi1|exact Ht|]. fold (invalid tbl). rewrite Hv. wp_step. wp_step. done. }
  unfold wp in Hw. destruct (uacpi_table_ref vm kmap (Z.of_nat i) t) as [r t'| |]; [|done|done]. destruct Hw as (-> & Hh' & Hm'). by exists t'.
Qed.

Section SelfReference.
(** A FADT at [A], mapped at [v], that names itself as its DSDT. *)
Context (vm : mem) (kmap : Z -> Z -> Z) (kalloc : list Z -> Z -> Z) (H : list Z) (A v : Z).
Context (Hmap : forall n, kmap A n = v) (Hv : v <> 0) (HA : A <> 0) (Hsig : bytes vm v 4 = ACPI_FADT_SIGNATURE) (Hlen : ld32 vm (v + 4) = 276) (Hdsdt : ld64 vm (v + 140) = A).

Lemma wp_map_self b E t n (Q : Z -> tstate -> Prop) : inv E H t -> (forall t', inv ((v, n) :: E) H t' -> rest_same t t' -> Q v t') -> wp b (uacpi_kernel_map kmap A n) Q t.
Proof.
  intros [Ha Hc Hm Hh] HQ. unfold uacpi_kernel_map. rewrite Hmap, (proj2 (Z.eqb_neq v 0) Hv). repeat wp_step. apply HQ; [|done]. split; [done|done|cbn; by rewrite Hm|done].
Qed.

Lemma self_dsdt c : ld64 (fadt (fadt_before_dsdt vm v c)) (fadt_offset "x_dsdt") = A.
Proof.
  change (fadt_offset "x_dsdt") with 140. unfold fadt_before_dsdt. cbn [fadt set]. set (f := fadt_copy vm v (fadt c)). destruct (widened f) as [Hw _]. cbv zeta in Hw.
  assert (Hf : ld64 f 140 = A). { rewrite <- Hdsdt. unfold f, fadt_copy. rewrite Hlen. change (Z.min FADT_SIZE 276) with 276.
    assert (Hsh : forall k o, 0 <= o -> o + Z.of_nat k <= 276 -> ldn k (fun o => if (0 <=? o) && (o <? 276) then vm (v + o) else fadt c o) o = ldn k vm (v + o)).
    { induction k as [|k IH]; intros o Ho Hk; [done|]. unfold ldn; fold (ldn k). rewrite (proj2 (Z.leb_le 0 o)), (proj2 (Z.ltb_lt o 276)) by lia. cbn [andb]. f_equal. f_equal. rewrite IH by lia. f_equal. lia. }
    apply Hsh; cbn; lia. }
  rewrite Hf, (proj2 (Z.eqb_neq A 0) HA) in Hw. rewrite <- Hw. symmetry. apply ldn_ext. intros x Hx. apply firmware_ctrl_frame. cbn in Hx. lia.
Qed.

Theorem fadt_leads_to_itself fuel t expected : inv [] H t -> installation_handler t = None -> rt_flags t = 0 ->
  table_install vm kmap kalloc fuel (Physical A UACPI_TABLE_ORIGIN_FIRMWARE_PHYSICAL expected false) t = Endless.
Proof.
  assert (Hw : forall fuel t E expected, inv E H t -> installation_handler t = None -> rt_flags t = 0 ->
    wp True (table_install vm kmap kalloc fuel (Physical A UACPI_TABLE_ORIGIN_FIRMWARE_PHYSICAL expected false)) (fun _ _ => False) t).
  { clear fuel t expected. induction fuel as [|fuel IH]; intros t E expected Hi Hh Hf; [done|]. cbn [table_install]. unfold table_install_physical_with_origin_unlocked, get_external_table_header.
    wp_step. wp_step. eapply wp_map_self; [done|]. intros t1 Hi1 Hs1. rewrite (proj2 (Z.eqb_neq v 0) Hv). wp_step. eapply wp_unmap; [exact Hi1|]. intros t2 Hi2 Hs2 _. wp_step.
    set (h := read_hdr vm v). change (hdr_length h) with (ld32 vm (v + 4)). rewrite Hlen. change (276 <? SDT_HDR_SIZE) with false. cbv iota. wp_step.
    assert (Hf2 : rt_flags t2 = 0 /\ installation_handler t2 = None) by (destruct Hs1 as (_ & ? & _ & _ & ? & _), Hs2 as (_ & ? & _ & _ & ? & _); split; congruence). destruct Hf2 as [Hf2 Hh2].
    assert (Hgo : forall (m : Z -> tio answer), wp True (m UACPI_STATUS_OK) (fun _ _ => False) t2 ->
      wp True (match expected with Some s => uacpi_check_table_signature (signature h) s | None => mret UACPI_STATUS_OK end) (fun r => wp True (m r) (fun _ _ => False)) t2).
    { intros m Hm. destruct expected as [s|]; [|by wp_step]. unfold uacpi_check_table_signature. destruct (negb _); [|by wp_step]. wp_step. unfold check_flag. wp_step. wp_step. wp_step. rewrite Hf2. cbn. exact Hm. }
    apply (Hgo (fun r => if negb (r =? UACPI_STATUS_OK) then mret (r, None) else _)). clear Hgo. cbn [negb Z.eqb UACPI_STATUS_OK]. 
    wp_step. wp_step. rewrite Hh2. wp_step. wp_step. cbn [andb]. wp_step. unfold filter_table. wp_step. wp_step. rewrite Hh2. unfold verify_and_install_table. wp_step. unfold check_table.
    change (signature h) with (bytes vm v 4). rewrite Hsig. change (uacpi_signatures_match ACPI_FADT_SIGNATURE ACPI_FADT_SIGNATURE) with true.
    change (uacpi_signatures_match ACPI_FADT_SIGNATURE ACPI_FACS_SIGNATURE) with false. cbv iota. wp_step. apply wp_check_flag. intros pro. rewrite orb_true_r. cbn [orb]. change (0 =? 0) with true. cbv iota.
    wp_step. eapply wp_map_self; [exact Hi2|]. intros t3 Hi3 Hs3. rewrite (proj2 (Z.eqb_neq v 0) Hv). wp_step. unfold uacpi_verify_table_checksum.
    assert (Hf3 : rt_flags t3 = 0 /\ installation_handler t3 = None) by (destruct Hs3 as (_ & ? & _ & _ & ? & _); split; congruence). destruct Hf3 as [Hf3 Hh3].
    assert (Hck : forall (Q : Z -> tstate -> Prop), Q UACPI_STATUS_OK t3 -> wp True (if truthy (table_checksum vm v (hdr_length h)) then fatal ← check_flag UACPI_FLAG_BAD_CSUM_FATAL; mret (if (fatal : bool) then UACPI_STATUS_BAD_CHECKSUM else UACPI_STATUS_OK)
      else mret UACPI_STATUS_OK) Q t3).
    { intros Q HQ. destruct (truthy _); [|by wp_step]. wp_step. unfold check_flag. wp_step. wp_step. wp_step. rewrite Hf3. cbn. exact HQ. }
    apply Hck. clear Hck. change (UACPI_STATUS_OK =? UACPI_STATUS_OK) with true. cbv iota. wp_step. wp_step. unfold initialize_fadt. wp_step. wp_step. wp_step. wp_step.
    change (ctx (t3 <| ctx := fadt_before_dsdt vm v (ctx t3) |>)) with (fadt_before_dsdt vm v (ctx t3)). rewrite self_dsdt, (proj2 (Z.eqb_neq A 0) HA). cbn [negb]. wp_step. wp_step.
    eapply twp_mono; [eapply (IH _ ((v, 276) :: E)); [apply inv_ctx; rewrite <- Hlen; exact Hi3|exact Hh3|exact Hf3]|]. by intros. }
  intros Hi Hh Hf. specialize (Hw fuel t [] expected Hi Hh Hf). unfold wp in Hw. by destruct (table_install _ _ _ _ _ t).
Qed.
End SelfReference.

(** ** An example *)

(** A table of 36 bytes at the physical address 4096, mapped 4096 higher, whose checksum is wrong. *)
Definition demo_vm : mem := fun a => default 0 (zget (chars "APIC" ++ [36; 0; 0; 0; 1; 0]) (a - 8192)).
Definition demo_map (p n : Z) : Z := p + 4096.
Definition no_gas : acpi_gas := Gas 0 0 0 0 0.
Definition demo_tables (fl : Z) : tstate := TState blank_array false None 7 false [] [] fl 4 (FadtCtx (fun _ => 0) false false 0 no_gas no_gas no_gas no_gas).
Definition demo_id : uacpi_table_identifiers := by_signature (chars "APIC").

Lemma demo_tables_inv fl : inv [] [] (demo_tables fl).
Proof. split; [split; [done|done|done|by left]|constructor|done|done]. Qed.

Definition maps_after {A} (o : outcome A) : option (list (Z * Z)) := match o with Done _ t => Some (maps t) | _ => None end.

Lemma tables_mapped_while_used_witness :
  let ops := [InstallPhysical 4096 false; Find demo_id; Ref 0; Unref 0; Unref 0; Find demo_id] in
  maps_after (run demo_vm demo_map (fun _ _ => 0) 2 ops (demo_tables 0)) = Some [(8192, 36)] /\
  match run demo_vm demo_map (fun _ _ => 0) 2 ops (demo_tables 0) with
  | Done _ t' => maps t' ≡ₚ owned (table_list t') /\ Forall table_ok (table_list t') /\ heap t' ≡ₚ [] ++ buffers t' ++ (table_list t' ≫= memory)
  | Wrong => False
  | Endless => True
  end.
Proof.
  intros ops. split; [vm_compute; reflexivity|]. apply (tables_mapped_while_used demo_vm demo_map (fun _ _ => 0) 2 [] ops (demo_tables 0)). apply demo_tables_inv.
Defined.

(** A second such table, at 12288, whose checksum is right: both are installed, and then a wrong
    checksum becomes fatal. *)
Definition demo_vm2 : mem := fun a => if a <? 16384 then demo_vm a else default 0 (zget (chars "APIC" ++ [36; 0; 0; 0; 1; 190]) (a - 16384)).
Definition two_tables : tstate :=
  match run demo_vm2 demo_map (fun _ _ => 0) 2 [InstallPhysical 4096 false; InstallPhysical 12288 false] (demo_tables 0) with
  | Done _ t => t <| rt_flags := UACPI_FLAG_BAD_CSUM_FATAL |>
  | _ => demo_tables 0
  end.

Lemma run_inv vm kmap kalloc fuel H ops t d fl : inv [] H t -> inv [] H d ->
  inv [] H (match run vm kmap kalloc fuel ops t with Done _ t' => t' <| rt_flags := fl |> | _ => d end).
Proof.
  intros Hi Hd. pose proof (run_safe vm kmap kalloc fuel H ops t Hi) as Hw. unfold wp in Hw. destruct (run vm kmap kalloc fuel ops t) as [x t'| |]; [|done|done]. by destruct Hw.
Qed.

Lemma two_tables_inv : inv [] [] two_tables.
Proof. unfold two_tables. apply run_inv; apply demo_tables_inv. Qed.

(** The search passes over the first and finds the second. *)
Lemma search_finds_first_witness :
  exists r t', uacpi_table_find demo_vm2 demo_map demo_id two_tables = Done r t' /\
    found demo_vm2 demo_map (id_matches demo_id) UACPI_FLAG_BAD_CSUM_FATAL 0 (table_list two_tables) r (table_list t') /\
    r = (UACPI_STATUS_OK, Some (16384, 1)) /\ (invalid <$> table_list t') = [true; false] /\ maps t' = [(16384, 36)].
Proof.
  destruct (search_finds_first demo_vm2 demo_map [] demo_id two_tables) as (r & t' & E & _ & _ & _ & Hf).
  - apply two_tables_inv.
  - right. vm_compute. discriminate.
  - exists r, t'. split; [exact E|]. split; [exact Hf|]. vm_compute in E. injection E as <- <-. split; [reflexivity|]. split; reflexivity.
Defined.

(** A table in physical memory that cannot be installed, here because a wrong checksum is fatal, is
    reported as installed, and the caller's table is not written. *)
Theorem failed_installation_reported_ok :
  match uacpi_table_install_physical demo_vm demo_map (fun _ _ => 0) 2 4096 true (demo_tables UACPI_FLAG_BAD_CSUM_FATAL) with
  | Done r t' => r = (UACPI_STATUS_OK, None) /\ table_list t' = []
  | _ => False
  end.
Proof. vm_compute. split; reflexivity. Qed.
