(* ===== verification/Nvme.v ===== *)
(** * The NVMe driver (nvme.c, nvme.h)

    The controller is a parameter: its registers are device memory ([Mmio], [PortIo] for its
    configuration space) and it reads and writes main memory on its own, which [NvmeDma.dma]
    does at the points where the driver waits or fences.  Pages and heap objects come from
    [Block.KernelMem]; [nvme_controller] and [nvme_pair_queue] are records, the queues
    themselves are in memory.  Log lines are not modelled.  [init_disk] (Disk.v) and
    [map_page] (Paging.v) are called through variables. *)

From stdpp Require Import strings.
From S2P Require Import Prelude Mem Layout CString Frames Paging Block Hw Pci.

(** ** Structures *)

Definition NVME_REG_CAP : Z := 0.
Definition NVME_REG_VS : Z := 8.
Definition NVME_REG_CC : Z := 20.
Definition NVME_REG_CSTS : Z := 28.
Definition NVME_REG_AQA : Z := 36.
Definition NVME_REG_ASQ : Z := 40.
Definition NVME_REG_ACQ : Z := 48.
Definition NVME_CC_EN : Z := 1.
Definition NVME_CC_MPS (n : Z) : Z := u32 (n <<< 7).
Definition NVME_CC_IOSQES (n : Z) : Z := u32 (n <<< 16).
Definition NVME_CC_IOCQES (n : Z) : Z := u32 (n <<< 20).
Definition NVME_CAP_CSS_MASK : Z := 255 <<< 37.
Definition NVME_CAP_MPSMIN_MASK : Z := 15 <<< 48.
Definition NVME_CAP_MPSMAX_MASK : Z := 15 <<< 52.

(** Layouts of the objects in memory. *)
Definition nvme_command_l : layout :=
  [("cdw0", 4); ("nsid", 4); ("reserved", 8); ("metadata", 8); ("prp1", 8); ("prp2", 8); ("cdw10", 4); ("cdw11_15", 20)]%string.
Definition nvme_completion_l : layout :=
  [("result", 4); ("reserved", 4); ("sq_head", 2); ("sq_id", 2); ("command_id", 2); ("status", 2)]%string.
Definition nvme_lbaf : layout := [("ms", 2); ("ds", 1); ("rp", 1)]%string.
Definition nvme_id_ns : layout :=
  [("nsze", 8); ("ncap", 8); ("nuse", 8); ("nsfeat", 1); ("nlbaf", 1); ("flbas", 1); ("mc", 1); ("dpc", 1); ("dps", 1);
   ("nmic", 1); ("rescap", 1); ("fpi", 1); ("dlfeat", 1); ("nawun", 2); ("nawupf", 2); ("nacwu", 2); ("nabsn", 2);
   ("nabo", 2); ("nabspf", 2); ("noiob", 2); ("nvmcap", 16); ("npwg", 2); ("npwa", 2); ("npdg", 2); ("npda", 2); ("nows", 2);
   ("mssrl", 2); ("mcl", 4); ("msrc", 1); ("rsvd81", 11); ("anagrpid", 4); ("rsvd96", 3); ("nsattr", 1); ("nvmsetid", 2);
   ("endgid", 2); ("nguid", 16); ("eui64", 8); ("lbaf", 64); ("rsvd192", 192); ("vs", 3712)]%string.
Definition nvme_queue_l : layout := [("address", 8); ("size", 8)]%string.
Definition nvme_pair_queue_l : layout :=
  [("sq", 16); ("cq", 16); ("sq_tail", 8); ("cq_head", 8); ("phase", 1); ("qid", 1); ("padding", 6); ("sq_doorbell", 8);
   ("cq_doorbell", 8); ("lock", 1); ("padding2", 7)]%string.
Definition nvme_namespace_l : layout :=
  [("nsid", 4); ("padding", 4); ("size", 8); ("lba_size", 4); ("lba_shift", 2); ("valid", 1); ("padding2", 1); ("ns_data", 8)]%string.
Definition nvme_controller_l : layout :=
  [("bar0", 8); ("stride", 4); ("page_size", 4); ("max_queue_entries", 2); ("padding", 6); ("admin_sq", 16); ("admin_cq", 16);
   ("admin_sq_tail", 8); ("admin_cq_head", 8); ("admin_phase", 1); ("padding2", 7); ("main_io_queue", 8);
   ("namespaces", 256 * 32); ("num_namespaces", 4); ("mpsmin", 1); ("padding3", 3); ("identify", 8)]%string.

Lemma nvme_layouts :
  (offset_of nvme_command_l "prp1", offset_of nvme_command_l "prp2", offset_of nvme_command_l "cdw10",
   offset_of nvme_command_l "cdw11_15", size_of nvme_command_l) = (Some 24, Some 32, Some 40, Some 44, 64) /\
  (offset_of nvme_completion_l "sq_head", offset_of nvme_completion_l "status", size_of nvme_completion_l) = (Some 8, Some 14, 16) /\
  (offset_of nvme_id_ns "nlbaf", offset_of nvme_id_ns "flbas", offset_of nvme_id_ns "lbaf", size_of nvme_id_ns)
  = (Some 25, Some 26, Some 128, 4096) /\
  (size_of nvme_lbaf, offset_of nvme_lbaf "ds") = (4, Some 2) /\
  (offset_of nvme_pair_queue_l "sq_tail", offset_of nvme_pair_queue_l "cq_head", size_of nvme_pair_queue_l) = (Some 32, Some 40, 80) /\
  (size_of nvme_namespace_l, size_of nvme_controller_l) = (32, 8296).
Proof. split_and_all; reflexivity. Qed.

(** A command; the members the driver leaves 0 are not listed. *)
Record nvme_command := Command { cdw0 : Z; c_nsid : Z; prp1 : Z; prp2 : Z; cdw10 : Z; cdw11 : Z; cdw12 : Z }.
Definition zero_command : nvme_command := Command 0 0 0 0 0 0 0.

(** [memcpy] of the 64 bytes of a command. *)
Definition store_command (m : mem) (a : Z) (c : nvme_command) : mem :=
  let m := memset m a 0 64 in
  let m := st32 m a (cdw0 c) in
  let m := st32 m (a + 4) (c_nsid c) in
  let m := st64 m (a + 24) (prp1 c) in
  let m := st64 m (a + 32) (prp2 c) in
  let m := st32 m (a + 40) (cdw10 c) in
  let m := st32 m (a + 44) (cdw11 c) in
  st32 m (a + 48) (cdw12 c).

Record nvme_completion := Completion { result : Z; sq_head : Z; sq_id : Z; command_id : Z; status : Z }.
Definition load_completion (m : mem) (a : Z) : nvme_completion :=
  Completion (ld32 m a) (ld16 m (a + 8)) (ld16 m (a + 10)) (ld16 m (a + 12)) (ld16 m (a + 14)).

Record nvme_queue := Queue { address : Z; size : Z }.

Record nvme_pair_queue := PairQueue {
  sq : nvme_queue; cq : nvme_queue; sq_tail : Z; cq_head : Z; phase : Z; qid : Z;
  sq_doorbell : Z; cq_doorbell : Z; lock : bool }.

Record nvme_namespace := Namespace { ns_nsid : Z; ns_size : Z; ns_lba_size : Z; ns_valid : bool; ns_data : Z }.

Record nvme_controller := Controller {
  nv_bar0 : Z; stride : Z; page_size : Z; max_queue_entries : Z;
  admin_sq : nvme_queue; admin_cq : nvme_queue; admin_sq_tail : Z; admin_cq_head : Z; admin_phase : Z;
  main_io_queue : option nvme_pair_queue; namespaces : list nvme_namespace; num_namespaces : Z; mpsmin : Z; identify : Z }.

(** ** The machine *)

Class NvmeDma (D : Type) := { dma : D -> mem -> D * mem }.

Record nworld (K D : Type) := NWorld { nk : K; nd : D; nm : mem }.
Arguments NWorld {K D}.
Arguments nk {K D}.
Arguments nd {K D}.
Arguments nm {K D}.

(** [NoPage], [NullObject]: the code goes on with an address it did not check.
    [BadNamespace]: [namespaces] is indexed outside its 256 elements.  [BadShift]: a shift
    by 32 or more.  [Waiting]: a loop that waits for the controller ran out of fuel. *)
Inductive fault := NoPage | NullObject | BadNamespace | BadShift | Deadlock | NoMemory | Waiting.

Definition nio (K D A : Type) : Type := nworld K D -> fault + (A * nworld K D).
#[global] Instance nio_ret {K D} : MRet (nio K D) := fun A a w => inr (a, w).
#[global] Instance nio_bind {K D} : MBind (nio K D) :=
  fun A B k e w => match e w with inl f => inl f | inr (a, w') => k a w' end.

Section Driver.
Context {hhdm : Z} {K : Type} `{KM : KernelMem hhdm K} {D : Type} `{!Mmio D} `{!PortIo D} `{!NvmeDma D}.
Context (PML4 : Z).
Notation M := (nio K D).

Definition raise {A} (f : fault) : M A := fun _ => inl f.
Definition with_mem (w : nworld K D) (m : mem) : nworld K D := NWorld (nk w) (nd w) m.
Definition getm : M mem := fun w => inr (nm w, w).
Definition setm (m : mem) : M unit := fun w => inr (tt, with_mem w m).
Definition dev {A} (e : io D A) : M A := fun w => let (a, d) := e (nd w) in inr (a, NWorld (nk w) d (nm w)).

(** [memory_barrier], [pause], [sleep(10)]: the controller works meanwhile. *)
Definition memory_barrier : M unit :=
  fun w => let (d, m) := dma (nd w) (nm w) in inr (tt, NWorld (nk w) d m).

(** [pmm_alloc_page] of one page; the callers use the address unchecked. *)
Definition new_page : M Z :=
  fun w => match page_alloc (nk w) with
           | None => inl NoMemory
           | Some (k, a) => if a =? 0 then inl NoPage else inr (a, NWorld k (nd w) (nm w))
           end.
Definition free_page (a : Z) : M unit :=
  fun w => match page_free (nk w) a with None => inl NoMemory | Some k => inr (tt, NWorld k (nd w) (nm w)) end.
Definition kmalloc (n : Z) : M Z :=
  fun w => match heap_alloc (nk w) n with
           | None => inl NoMemory
           | Some (k, a) => if a =? 0 then inl NullObject else inr (a, NWorld k (nd w) (nm w))
           end.

(** ** Submitting *)

Definition translate (m : mem) (va : Z) : Z := getPhysicalAddress (hhdm := hhdm) m PML4 va.

(** The entries of the PRP list: [inl] when a page is not mapped. *)
Definition prp_list (m : mem) (list buffer num_pages : Z) : mem + mem :=
  ploop (Z.to_nat (num_pages - 1)) 1
    (fun i m =>
       let page_phys := translate m (u64 (buffer + i * PAGE_SIZE)) in
       if page_phys =? 0 then inl m else inr (st64 m (list + 8 * (i - 1)) page_phys)) m.

(** [prp2]; [None] when the buffer is not mapped. *)
Definition second_prp (buffer num_pages : Z) : M (option Z) :=
  if num_pages =? 1 then mret (Some 0)
  else if num_pages =? 2 then
    m ← getm;
    let second := translate m (u64 (buffer + PAGE_SIZE)) in
    mret (if second =? 0 then None else Some second)
  else
    list_phys ← new_page;
    m ← getm;
    match prp_list m (u64 (hhdm + list_phys)) buffer num_pages with
    | inl m' => setm m';; free_page list_phys;; mret None
    | inr m' => setm m';; mret (Some list_phys)
    end.

(** The slot, the barrier, the tail and the doorbell. *)
Definition submit_io (q : nvme_pair_queue) (c : nvme_command) : M nvme_pair_queue :=
  m ← getm;
  setm (store_command m (u64 (hhdm + address (sq q) + 64 * sq_tail q)) c);;
  memory_barrier;;
  let tail := u64 (sq_tail q + 1) mod u64 (size (sq q) + 1) in
  dev (mmio_st 4 (sq_doorbell q) (u32 tail));;
  memory_barrier;;
  mret (PairQueue (sq q) (cq q) tail (cq_head q) (phase q) (qid q) (sq_doorbell q) (cq_doorbell q) (lock q)).

Definition nvme_send_io (q : nvme_pair_queue) (opcode nsid buffer lba num_blocks transfer_bytes : Z) : M nvme_pair_queue :=
  m ← getm;
  let data_phys := translate m buffer in
  if data_phys =? 0 then mret q
  else
    let num_pages := u64 (transfer_bytes + PAGE_SIZE - 1) / PAGE_SIZE in
    p ← second_prp buffer num_pages;
    match p with
    | None => mret q
    | Some p2 =>
        submit_io q (Command (u8 opcode) nsid data_phys p2 (u32 lba) (u32 (lba >>> 32)) (u32 (u16 num_blocks - 1)))
    end.

(** ** Completions *)

(** The entry at the head, if its phase tag says that it is new, and the queue behind it. *)
Definition io_poll (m : mem) (q : nvme_pair_queue) : option (nvme_completion * nvme_pair_queue) :=
  let c := load_completion m (u64 (hhdm + address (cq q) + 16 * cq_head q)) in
  if (status c &&& 1) =? phase q then
    let head := u64 (cq_head q + 1) mod u64 (size (cq q) + 1) in
    let ph := if head =? 0 then Z.lxor (phase q) 1 else phase q in
    Some (c, PairQueue (sq q) (cq q) (sq_tail q) head ph (qid q) (sq_doorbell q) (cq_doorbell q) (lock q))
  else None.

Definition status_code (c : nvme_completion) : Z := (status c >>> 1) &&& 32767.

(** The answer, the completion if there was one, and the queue. *)
Fixpoint nvme_wait_io (fuel : nat) (q : nvme_pair_queue) (elapsed timeout_ms : Z) : M (bool * option nvme_completion * nvme_pair_queue) :=
  match fuel with
  | O => raise Waiting
  | S fuel' =>
      if elapsed <? timeout_ms then
        memory_barrier;;
        m ← getm;
        match io_poll m q with
        | Some (c, q') =>
            dev (mmio_st 4 (cq_doorbell q') (u32 (cq_head q')));;
            memory_barrier;;
            mret (status_code c =? 0, Some c, q')
        | None => memory_barrier;; nvme_wait_io fuel' q (u64 (elapsed + 10)) timeout_ms
        end
      else mret (false, None, q)
  end.

(** ** Reading and writing blocks *)

Definition with_queue (c : nvme_controller) (q : nvme_pair_queue) : nvme_controller :=
  Controller (nv_bar0 c) (stride c) (page_size c) (max_queue_entries c) (admin_sq c) (admin_cq c) (admin_sq_tail c)
    (admin_cq_head c) (admin_phase c) (Some q) (namespaces c) (num_namespaces c) (mpsmin c) (identify c).
Definition with_lock (q : nvme_pair_queue) (b : bool) : nvme_pair_queue :=
  PairQueue (sq q) (cq q) (sq_tail q) (cq_head q) (phase q) (qid q) (sq_doorbell q) (cq_doorbell q) b.

Definition namespace_of (c : nvme_controller) (nsid : Z) : M nvme_namespace :=
  match namespaces c !! Z.to_nat (nsid - 1) with
  | Some n => if nsid <=? 0 then raise BadNamespace else mret n
  | None => raise BadNamespace
  end.
Definition io_queue_of (c : nvme_controller) : M nvme_pair_queue :=
  match main_io_queue c with Some q => mret q | None => raise NullObject end.

(** What both have in common: one command and its completion. *)
Definition transfer (opcode timeout : Z) (q : nvme_pair_queue) (nsid buffer lba len_in_blocks lba_size : Z) :
    M (bool * nvme_pair_queue) :=
  q ← nvme_send_io q opcode nsid buffer lba len_in_blocks (u64 (len_in_blocks * lba_size));
  '(ok, completion, q) ← nvme_wait_io (Z.to_nat (timeout / 10) + 1) q 0 timeout;
  if negb ok then mret (false, q)
  else match completion with
       | Some c => mret (negb (truthy (status_code c)), q)
       | None => mret (false, q)
       end.

Definition nvme_read (c : nvme_controller) (nsid buffer lba len_in_blocks : Z) : M (bool * nvme_controller) :=
  ns ← namespace_of c nsid;
  if truthy (buffer &&& (PAGE_SIZE - 1)) then mret (false, c)
  else
    q ← io_queue_of c;
    if lock q then raise Deadlock
    else
      '(ok, q) ← transfer 2 1000 (with_lock q true) nsid buffer lba len_in_blocks (ns_lba_size ns);
      mret (ok, with_queue c (with_lock q false)).

(** No lock is taken. *)
Definition nvme_write (c : nvme_controller) (nsid buffer lba len_in_blocks : Z) : M (bool * nvme_controller) :=
  ns ← namespace_of c nsid;
  if truthy (buffer &&& (PAGE_SIZE - 1)) then mret (false, c)
  else
    q ← io_queue_of c;
    '(ok, q) ← transfer 1 5000 q nsid buffer lba len_in_blocks (ns_lba_size ns);
    mret (ok, with_queue c q).

(** ** Registers *)

Definition nvme_read32 (c : nvme_controller) (offset : Z) : M Z := v ← dev (mmio_ld 4 (u64 (nv_bar0 c + offset))); mret (u32 v).
Definition nvme_write32 (c : nvme_controller) (offset value : Z) : M unit := dev (mmio_st 4 (u64 (nv_bar0 c + offset)) (u32 value)).
Definition nvme_read64 (c : nvme_controller) (offset : Z) : M Z := v ← dev (mmio_ld 8 (u64 (nv_bar0 c + offset))); mret (u64 v).
Definition nvme_write64 (c : nvme_controller) (offset value : Z) : M unit := dev (mmio_st 8 (u64 (nv_bar0 c + offset)) (u64 value)).

(** ** Admin queue *)

Definition with_admin (c : nvme_controller) (tail head ph : Z) : nvme_controller :=
  Controller (nv_bar0 c) (stride c) (page_size c) (max_queue_entries c) (admin_sq c) (admin_cq c) tail head ph
    (main_io_queue c) (namespaces c) (num_namespaces c) (mpsmin c) (identify c).

Definition nvme_submit_admin (c : nvme_controller) (cmd : nvme_command) : M nvme_controller :=
  m ← getm;
  setm (store_command m (u64 (hhdm + address (admin_sq c) + 64 * admin_sq_tail c)) cmd);;
  let tail := u64 (admin_sq_tail c + 1) in
  let tail := if 63 <? tail then 0 else tail in
  memory_barrier;;
  dev (mmio_st 4 (u64 (nv_bar0 c + 4096)) (u32 tail));;
  memory_barrier;;
  mret (with_admin c tail (admin_cq_head c) (admin_phase c)).

Definition admin_poll (m : mem) (c : nvme_controller) : option (nvme_completion * nvme_controller) :=
  let e := load_completion m (u64 (hhdm + address (admin_cq c) + 16 * admin_cq_head c)) in
  if (status e &&& 1) =? admin_phase c then
    let head := u64 (admin_cq_head c + 1) in
    Some (e, if 63 <? head then with_admin c (admin_sq_tail c) 0 (Z.lxor (admin_phase c) 1)
             else with_admin c (admin_sq_tail c) head (admin_phase c))
  else None.

(** [elapsed] is compared with a thousand times the timeout. *)
Fixpoint nvme_wait_admin (fuel : nat) (c : nvme_controller) (elapsed timeout_ms : Z) : M (bool * nvme_controller) :=
  match fuel with
  | O => raise Waiting
  | S fuel' =>
      if elapsed <? u64 (timeout_ms * 1000) then
        memory_barrier;;
        m ← getm;
        match admin_poll m c with
        | Some (e, c') =>
            dev (mmio_st 4 (u64 (nv_bar0 c + 4096 + stride c)) (u32 (admin_cq_head c')));;
            memory_barrier;;
            mret (negb (truthy ((status e >>> 1) &&& 255)), c')
        | None => memory_barrier;; nvme_wait_admin fuel' c (u64 (elapsed + 10)) timeout_ms
        end
      else mret (false, c)
  end.

Definition ADMIN_ROUNDS : nat := Z.to_nat 100001.
Definition admin_command (c : nvme_controller) (cmd : nvme_command) : M (bool * nvme_controller) :=
  c ← nvme_submit_admin c cmd; nvme_wait_admin ADMIN_ROUNDS c 0 1000.

(** ** Queues *)

Definition nvme_alloc_queue : M nvme_queue :=
  phys ← new_page;
  m ← getm;
  setm (memset m (u64 (hhdm + phys)) 0 4096);;
  mret (Queue phys 63).

(** [None] when the controller refuses.  [sq_tail] and [cq_head] are what the heap object
    held.  The last component is the new [nvme_qid_ptr]. *)
Definition nvme_create_io_queue (c : nvme_controller) (nvme_qid_ptr : Z) :
    M (option nvme_pair_queue * nvme_controller * Z) :=
  p ← kmalloc 80;
  m ← getm;
  let tail := ld64 m (p + 32) in
  let head := ld64 m (p + 40) in
  cq ← nvme_alloc_queue;
  sq ← nvme_alloc_queue;
  let qid := nvme_qid_ptr in
  '(ok, c) ← admin_command c
    (Command 5 0 (address cq) 0 (u32 (size cq <<< 16) ||| qid) 1 0);
  if negb ok then mret (None, c, nvme_qid_ptr)
  else
    '(ok, c) ← admin_command c
      (Command 1 0 (address sq) 0 (u32 (size sq <<< 16) ||| qid) (u32 (qid <<< 16) ||| 1) 0);
    if negb ok then mret (None, c, nvme_qid_ptr)
    else
      let base := u64 (nv_bar0 c + 4096) in
      let q := PairQueue sq cq tail head 1 qid (u64 (base + u32 (2 * qid * stride c)))
                 (u64 (base + u32 ((2 * qid + 1) * stride c))) false in
      mret (Some q, c, u8 (nvme_qid_ptr + 1)).

(** ** Identification *)

Definition with_identify (c : nvme_controller) (p : Z) : nvme_controller :=
  Controller (nv_bar0 c) (stride c) (page_size c) (max_queue_entries c) (admin_sq c) (admin_cq c) (admin_sq_tail c)
    (admin_cq_head c) (admin_phase c) (main_io_queue c) (namespaces c) (num_namespaces c) (mpsmin c) p.
Definition with_namespaces (c : nvme_controller) (l : list nvme_namespace) (n : Z) : nvme_controller :=
  Controller (nv_bar0 c) (stride c) (page_size c) (max_queue_entries c) (admin_sq c) (admin_cq c) (admin_sq_tail c)
    (admin_cq_head c) (admin_phase c) (main_io_queue c) l n (mpsmin c) (identify c).

Definition nvme_identify (c : nvme_controller) : M (bool * nvme_controller) :=
  phys_buffer ← new_page;
  '(ok, c) ← admin_command c (Command 6 0 phys_buffer 0 1 0 0);
  if negb ok then mret (false, c)
  else mret (true, with_identify c (u64 (phys_buffer + hhdm))).

Definition set_namespace (c : nvme_controller) (nsid : Z) (n : nvme_namespace) : nvme_controller :=
  with_namespaces c (<[Z.to_nat (nsid - 1) := n]> (namespaces c)) (num_namespaces c).

Definition nvme_identify_namespace (c : nvme_controller) (nsid : Z) : M (bool * nvme_controller) :=
  page ← new_page;
  ns ← namespace_of c nsid;
  let data := u64 (hhdm + page) in
  let c := set_namespace c nsid (Namespace (ns_nsid ns) (ns_size ns) (ns_lba_size ns) (ns_valid ns) data) in
  '(ok, c) ← admin_command c (Command 6 nsid page 0 0 0 0);
  if negb ok then mret (false, c)
  else
    m ← getm;
    let lba_format := ld8 m (data + 26) &&& 15 in
    let ds := ld8 m (data + 128 + 4 * lba_format + 2) in
    let counted := lba_format <? ld8 m (data + 25) in
    if counted && (32 <=? ds) then raise BadShift
    else
      let lba_size := if counted then u32 (1 <<< ds) else 512 in
      mret (true, set_namespace c nsid (Namespace nsid (ld64 m data) lba_size true data)).

(** [init_disk] of the new disk: its reads and writes go to the controller [c]. *)
Context (init_disk : nvme_controller -> Z -> Z -> M nvme_controller).

Definition nvme_init_namespace (c : nvme_controller) (nsid : Z) : M nvme_controller :=
  new_disk ← kmalloc 16;
  generic_disk ← kmalloc 40;
  ns ← namespace_of c nsid;
  init_disk c nsid (ns_lba_size ns).

Fixpoint namespace_loop (n : nat) (c : nvme_controller) (ns_ids i : Z) : M nvme_controller :=
  match n with
  | O => mret c
  | S n' =>
      m ← getm;
      let nsid := ld32 m (ns_ids + 4 * i) in
      if nsid =? 0 then mret c
      else
        '(ok, c) ← nvme_identify_namespace c nsid;
        if negb ok then namespace_loop n' c ns_ids (i + 1)
        else
          c ← nvme_init_namespace c nsid;
          namespace_loop n' (with_namespaces c (namespaces c) (u32 (num_namespaces c + 1))) ns_ids (i + 1)
  end.

Definition nvme_init_namespaces (c : nvme_controller) : M (bool * nvme_controller) :=
  ns_list_phys ← new_page;
  '(ok, c) ← admin_command c (Command 6 0 ns_list_phys 0 2 0 0);
  if negb ok then mret (false, c)
  else c ← namespace_loop 1024 c (u64 (hhdm + ns_list_phys)) 0; mret (true, c).

(** ** Starting a controller *)

(** [map_page(virt, phys, flags, pages)] *)
Context (map_page : Z -> Z -> Z -> Z -> M unit).

(** [while (CSTS.RDY == b) pause();] *)
Fixpoint wait_while_ready (fuel : nat) (c : nvme_controller) (b : bool) : M unit :=
  match fuel with
  | O => raise Waiting
  | S fuel' =>
      v ← nvme_read32 c NVME_REG_CSTS;
      if Bool.eqb (truthy (v &&& 1)) b then memory_barrier;; wait_while_ready fuel' c b else mret tt
  end.

Definition fresh_controller (bar0 : Z) : nvme_controller :=
  Controller bar0 0 0 0 (Queue 0 0) (Queue 0 0) 0 0 1 None (replicate 256 (Namespace 0 0 0 false 0)) 0 0 0.

(** The controller as it is entered into [kernel.nvme_controllers], or [None] when it is
    not taken; and the new [nvme_qid_ptr]. *)
Definition nvme_init (fuel : nat) (pci : mem) (bus device function nvme_qid_ptr : Z) : M (option nvme_controller * Z) :=
  if negb (progIF pci =? 2) then mret (None, nvme_qid_ptr)
  else
    cmd ← dev (pci_read_config16 bus device function 4);
    dev (pci_write_config16 bus device function 4 (cmd ||| 6));;
    let bar_phys := u64 (bar1 pci <<< 32) ||| (bar0 pci &&& 4294967280) in
    map_page (u64 (hhdm + bar_phys)) bar_phys (PTE_PRESENT ||| PTE_WRITABLE ||| 16) 4;;
    ctrl ← kmalloc 8296;
    let c := fresh_controller (u64 (hhdm + bar_phys)) in
    cap ← nvme_read64 c NVME_REG_CAP;
    let css := u32 ((cap &&& NVME_CAP_CSS_MASK) >>> 37) in
    vs ← nvme_read32 c NVME_REG_VS;
    if u16 (vs >>> 16) <? 1 then mret (None, nvme_qid_ptr)
    else if negb (truthy (css &&& 1)) then mret (None, nvme_qid_ptr)
    else
      let mpsmin := u32 ((cap &&& NVME_CAP_MPSMIN_MASK) >>> 48) in
      let mpsmax := u32 ((cap &&& NVME_CAP_MPSMAX_MASK) >>> 52) in
      let dstrd := u32 ((cap >>> 32) &&& 15) in
      if (0 <? mpsmin) || (mpsmax <? 0) then mret (None, nvme_qid_ptr)
      else
        cc ← nvme_read32 c 20;
        nvme_write32 c NVME_REG_CC (cc &&& u32 (Z.lnot NVME_CC_EN));;
        wait_while_ready fuel c true;;
        sq_phys ← new_page;
        cq_phys ← new_page;
        let c := Controller (nv_bar0 c) (u32 (4 <<< dstrd)) 4096 (u16 ((cap &&& 65535) + 1)) (Queue sq_phys 63)
                   (Queue cq_phys 63) 0 0 1 None (namespaces c) 0 (u8 mpsmin) 0 in
        nvme_write32 c NVME_REG_AQA (63 ||| (63 <<< 16));;
        nvme_write64 c NVME_REG_ASQ sq_phys;;
        nvme_write64 c NVME_REG_ACQ cq_phys;;
        let cc_val := NVME_CC_MPS 0 ||| NVME_CC_IOSQES 6 ||| NVME_CC_IOCQES 4 in
        nvme_write32 c NVME_REG_CC cc_val;;
        nvme_write32 c NVME_REG_CC (cc_val ||| NVME_CC_EN);;
        wait_while_ready fuel c false;;
        '(ok, c) ← nvme_identify c;
        if negb ok then mret (None, nvme_qid_ptr)
        else
          '(q, c, qid) ← nvme_create_io_queue c nvme_qid_ptr;
          match q with
          | None => mret (None, qid)
          | Some q =>
              '(_, c) ← nvme_init_namespaces (with_queue c q);
              mret (Some c, qid)
          end.
End Driver.
