(* ===== verification/NvmeProps.v ===== *)
(** * NVMe: queues and commands

    [completions_taken_once]: the head and phase handling of the two completion queues.
    [wait_io_bounded]: waiting ends.  [send_io_describes_buffer]: the command in the
    submission queue describes the caller's buffer. *)

From S2P Require Import Prelude Mem Layout CString Frames Paging Block Hw Pci Nvme.

(** ** Completion queues

    The controller's side of the protocol: it writes entries into the slots in order,
    with a phase tag that starts at 1 and flips each time it passes the end, and leaves
    one slot empty in front of the head it was told.  Completions are numbered from 0. *)

Section Cq.
(** the kernel address of the 64 slots *)
Context (A : Z).

Definition slot (j : Z) : Z := A + 16 * (j mod 64).
Definition tag (j : Z) : Z := (1 + j / 64) mod 2.
Definition tagged (j : Z) (c : nvme_completion) : Prop := status c &&& 1 = tag j.

Definition poller : Type := mem -> Z -> Z -> option (nvme_completion * Z * Z).

(** What both poll routines do with a head below 64. *)
Definition good_poll (poll : poller) : Prop :=
  forall m h p, 0 <= h < 64 -> 0 <= p < 2 ->
    poll m h p = (let c := load_completion m (A + 16 * h) in
      if (status c &&& 1) =? p
      then Some (c, (h + 1) mod 64, if h =? 63 then 1 - p else p) else None).

Record ring := Ring { rg_mem : mem; rg_head : Z; rg_phase : Z; posted : list nvme_completion; taken : list nvme_completion }.
Definition posts (r : ring) : Z := Z.of_nat (length (posted r)).
Definition takes (r : ring) : Z := Z.of_nat (length (taken r)).

(** One step: the controller posts an entry, the driver takes one, or somebody writes
    memory outside the queue. *)
Inductive cq_step (poll : poller) (r : ring) : ring -> Prop :=
| cq_post c m' :
    posts r < takes r + 63 -> load_completion m' (slot (posts r)) = c -> tagged (posts r) c ->
    (forall x, x < slot (posts r) \/ slot (posts r) + 16 <= x -> m' x = rg_mem r x) ->
    cq_step poll r (Ring m' (rg_head r) (rg_phase r) (posted r ++ [c]) (taken r))
| cq_take c h p :
    poll (rg_mem r) (rg_head r) (rg_phase r) = Some (c, h, p) ->
    cq_step poll r (Ring (rg_mem r) h p (posted r) (taken r ++ [c]))
| cq_other m' :
    (forall x, A <= x < A + 1024 -> m' x = rg_mem r x) ->
    cq_step poll r (Ring m' (rg_head r) (rg_phase r) (posted r) (taken r)).

Record ring_inv (r : ring) : Prop := {
  ri_prefix : exists pending, posted r = taken r ++ pending;
  ri_room : posts r <= takes r + 63;
  ri_head : rg_head r = takes r mod 64;
  ri_phase : rg_phase r = tag (takes r);
  ri_new j c : takes r <= j < posts r -> posted r !! Z.to_nat j = Some c ->
    load_completion (rg_mem r) (slot j) = c /\ tagged j c;
  ri_old j : posts r <= j < takes r + 64 -> status (load_completion (rg_mem r) (slot j)) &&& 1 = 1 - tag j }.

Lemma load_completion_ext m m' a : (forall x, a <= x < a + 16 -> m' x = m x) -> load_completion m' a = load_completion m a.
Proof. intros H. unfold load_completion. f_equal; apply ldn_ext; intros x Hx; apply H; lia. Qed.

Lemma slot_range j : A <= slot j /\ slot j + 16 <= A + 1024.
Proof. unfold slot. Z.div_mod_to_equations. lia. Qed.

Lemma slot_disjoint i j : i < j < i + 64 -> slot i + 16 <= slot j \/ slot j + 16 <= slot i.
Proof. unfold slot. intros. Z.div_mod_to_equations. lia. Qed.

Lemma slot_wrap j : slot (j + 64) = slot j.
Proof. unfold slot. Z.div_mod_to_equations. lia. Qed.

Lemma tag_range j : 0 <= tag j < 2.
Proof. unfold tag. apply Z.mod_pos_bound. lia. Qed.

Lemma tag_wrap j : tag (j + 64) = 1 - tag j.
Proof. unfold tag. Z.div_mod_to_equations. lia. Qed.

Lemma tag_next j : 0 <= j -> tag (j + 1) = if j mod 64 =? 63 then 1 - tag j else tag j.
Proof. intros. unfold tag. case_if; Z.div_mod_to_equations; lia. Qed.

Section Steps.
Context (poll : poller) (Hpoll : good_poll poll).

(** What polling finds: the oldest entry not taken yet, if there is one. *)
Lemma poll_next r : ring_inv r ->
  poll (rg_mem r) (rg_head r) (rg_phase r) =
    match drop (length (taken r)) (posted r) with
    | [] => None
    | c :: _ => Some (c, (takes r + 1) mod 64, tag (takes r + 1))
    end.
Proof.
  intros [[pending Hp] Hroom Hh Hph Hnew Hold]. rewrite Hp, drop_app_length. rewrite Hpoll, Hh, Hph;
    [|rewrite Hh; apply Z.mod_pos_bound; lia|rewrite Hph; apply tag_range].
  change (A + 16 * (takes r mod 64)) with (slot (takes r)). cbv zeta. unfold takes in *. destruct pending as [|c pending].
  - rewrite app_nil_r in Hp. rewrite (Hold (Z.of_nat (length (taken r)))) by (unfold posts; rewrite Hp; lia).
    pose proof (tag_range (Z.of_nat (length (taken r)))). by replace (_ =? _) with false by lia.
  - destruct (Hnew (Z.of_nat (length (taken r))) c) as [-> Ht].
    + unfold posts. rewrite Hp, length_app. cbn. lia.
    + rewrite Nat2Z.id, Hp. by rewrite lookup_app_r, Nat.sub_diag.
    + unfold tagged in Ht. rewrite Ht, Z.eqb_refl, tag_next by lia. rewrite Zplus_mod_idemp_l. done.
Qed.

Lemma ring_inv_step r r' : ring_inv r -> cq_step poll r r' -> ring_inv r'.
Proof.
  intros Hr Hs. pose proof (poll_next r Hr) as Hn. destruct Hr as [[pending Hp] Hroom Hh Hph Hnew Hold].
  assert (Hle : (length (taken r) <= length (posted r))%nat) by (rewrite Hp, length_app; lia).
  inversion Hs as [c m' Hg Hc Ht Hm|c h p Hpl|m' Hm]; subst r'.
  - split; cbn [rg_mem rg_head rg_phase posted taken]; unfold posts, takes in *; cbn [posted taken] in *; rewrite ?length_app; cbn [length]; try done; try lia.
    + exists (pending ++ [c]). by rewrite Hp, app_assoc.
    + intros j c' Hj Hl. destruct (Z.eq_dec j (Z.of_nat (length (posted r)))) as [->|Hne].
      * rewrite Nat2Z.id, lookup_app_r, Nat.sub_diag in Hl by lia. injection Hl as <-. by split.
      * rewrite lookup_app_l in Hl by lia. destruct (Hnew j c') as [H1 H2]; [lia|done|]. split; [|done].
        rewrite <- H1. apply load_completion_ext. intros x Hx. apply Hm. destruct (slot_disjoint j (Z.of_nat (length (posted r)))); lia.
    + intros j Hj. rewrite <- (Hold j) by lia. do 2 f_equal. apply load_completion_ext. intros x Hx. apply Hm.
      destruct (slot_disjoint (Z.of_nat (length (posted r))) j); lia.
  - rewrite Hpl in Hn. rewrite Hp, drop_app_length in Hn. destruct pending as [|c' pending]; [done|].
    injection Hn as <- -> ->.
    split; cbn [rg_mem rg_head rg_phase posted taken]; unfold posts, takes in *; cbn [posted taken] in *; rewrite ?length_app; cbn [length].
    + exists pending. by rewrite <- app_assoc.
    + rewrite Hp, length_app in *. cbn [length] in *. lia.
    + f_equal. lia.
    + f_equal. lia.
    + intros j c' Hj Hl. apply Hnew; [lia|done].
    + intros j Hj. destruct (Z.eq_dec j (Z.of_nat (length (taken r)) + 64)) as [->|Hne]; [|apply Hold; lia].
      rewrite slot_wrap, tag_wrap. destruct (Hnew (Z.of_nat (length (taken r))) c) as [-> Ht].
      * rewrite Hp, length_app. cbn. lia.
      * rewrite Nat2Z.id, Hp. by rewrite lookup_app_r, Nat.sub_diag.
      * unfold tagged in Ht. lia.
  - assert (E : forall j, load_completion m' (slot j) = load_completion (rg_mem r) (slot j)).
    { intros j. apply load_completion_ext. intros x Hx. apply Hm. pose proof (slot_range j). lia. }
    split; cbn [rg_mem rg_head rg_phase posted taken]; unfold posts, takes in *; cbn [posted taken] in *; try done.
    + by exists pending.
    + intros j c Hj Hl. rewrite E. by apply Hnew.
    + intros j Hj. rewrite E. by apply Hold.
Qed.

Lemma ring_inv_reach r r' : ring_inv r -> rtc (cq_step poll) r r' -> ring_inv r'.
Proof. intros H Hs. induction Hs as [|x y z Hxy _ IH]; [done|]. apply IH. by eapply ring_inv_step. Qed.
End Steps.

(** No entry of the queue has its phase bit set; a cleared page is one such. *)
Definition no_stale (m : mem) : Prop :=
  forall k, 0 <= k < 64 -> status (load_completion m (A + 16 * k)) &&& 1 = 0.

Lemma cleared_no_stale m : (forall x, A <= x < A + 1024 -> m x = 0) -> no_stale m.
Proof.
  intros Hm k Hk. change (status (load_completion m (A + 16 * k))) with (ld16 m (A + 16 * k + 14)).
  by rewrite ldn_zero by (intros x Hx; apply Hm; lia).
Qed.

Lemma ring_start m : no_stale m -> ring_inv (Ring m 0 1 [] []).
Proof.
  intros Hm. split; [by exists []|done|done|done| |].
  - intros j c Hj. unfold posts, takes in Hj. cbn [posted taken length Z.of_nat] in Hj. lia.
  - intros j Hj. unfold posts, takes in Hj. cbn [posted taken length Z.of_nat rg_mem] in *. pose proof (slot_range j).
    unfold slot. rewrite Hm by (apply Z.mod_pos_bound; lia). unfold tag. rewrite Z.div_small by lia. done.
Qed.
End Cq.

(** ** The driver's two poll routines *)

Section Pollers.
Context (hhdm : Z).

Definition io_view (q : nvme_pair_queue) : poller := fun m h p =>
  match io_poll (hhdm := hhdm) m (PairQueue (sq q) (cq q) (sq_tail q) h p (qid q) (sq_doorbell q) (cq_doorbell q) (lock q)) with
  | Some (c, q') => Some (c, cq_head q', phase q')
  | None => None
  end.

Definition admin_view (c : nvme_controller) : poller := fun m h p =>
  match admin_poll (hhdm := hhdm) m (with_admin c (admin_sq_tail c) h p) with
  | Some (e, c') => Some (e, admin_cq_head c', admin_phase c')
  | None => None
  end.

Lemma flip p : 0 <= p < 2 -> Z.lxor p 1 = 1 - p.
Proof. intros. assert (p = 0 \/ p = 1) as [->| ->] by lia; done. Qed.

Lemma io_view_good q :
  let A := hhdm + address (cq q) in size (cq q) = 63 -> 0 <= A -> A + 1024 <= 2 ^ 64 -> good_poll A (io_view q).
Proof.
  intros A Hs HA HA' m h p Hh Hp. change (2 ^ 64) with 18446744073709551616 in HA'. unfold io_view, io_poll. cbv zeta.
  cbn [cq cq_head phase sq sq_tail qid sq_doorbell cq_doorbell lock]. fold A. rewrite (u64_small (A + 16 * h)) by lia.
  rewrite Hs. change (u64 (63 + 1)) with 64. rewrite (u64_small (h + 1)) by lia.
  destruct (_ =? p); [|done]. cbn [cq_head phase]. rewrite flip by lia. do 2 f_equal.
  destruct (h =? 63) eqn:E; bool_to_prop; [subst h; done|].
  by replace ((h + 1) mod 64 =? 0) with false by (rewrite Z.mod_small by lia; lia).
Qed.

Lemma admin_view_good c :
  let A := hhdm + address (admin_cq c) in 0 <= A -> A + 1024 <= 2 ^ 64 -> good_poll A (admin_view c).
Proof.
  intros A HA HA' m h p Hh Hp. change (2 ^ 64) with 18446744073709551616 in HA'. unfold admin_view, admin_poll. cbv zeta.
  cbn [with_admin admin_cq admin_cq_head admin_phase]. fold A. rewrite (u64_small (A + 16 * h)) by lia.
  rewrite (u64_small (h + 1)) by lia. destruct (_ =? p); [|done]. destruct (h =? 63) eqn:E; bool_to_prop.
  - subst h. cbn [Z.ltb Z.compare Z.add Pos.add Pos.succ Pos.compare Pos.compare_cont admin_cq_head admin_phase]. rewrite flip by lia. done.
  - replace (63 <? h + 1) with false by lia. cbn [with_admin admin_cq_head admin_phase]. by rewrite (Z.mod_small (h + 1)) by lia.
Qed.
End Pollers.

(** C16: Completions are taken in order, each exactly once, and never one that is not there, from
    a queue that starts right.  For the I/O queue pair (63 as its size) as for the admin
    queue: if the driver starts with head 0 and phase 1 over a page in which no entry has its phase bit
    set, then under any interleaving of the controller posting entries by the protocol, the
    driver polling and other writes to memory, what the driver has taken is a prefix of what was
    posted, at most 63 entries wait, and the next poll takes the oldest waiting one and steps
    head and phase past it, or finds nothing if none waits.  The driver itself sets both
    phases and the admin head and clears the I/O page; the head of the I/O queue and the
    admin page are left as the memory was ([stale_entry_taken], [wrong_head_misses]). *)
Theorem completions_taken_once (hhdm A : Z) (q : nvme_pair_queue) (c : nvme_controller) (poll : poller) (m : mem) (r : ring) :
  (poll = io_view hhdm q /\ A = hhdm + address (cq q) /\ size (cq q) = 63 \/
   poll = admin_view hhdm c /\ A = hhdm + address (admin_cq c)) ->
  0 <= A -> A + 1024 <= 2 ^ 64 -> no_stale A m ->
  rtc (cq_step A poll) (Ring m 0 1 [] []) r ->
  exists waiting, posted r = taken r ++ waiting /\ (length waiting <= 63)%nat /\
    poll (rg_mem r) (rg_head r) (rg_phase r) =
      match waiting with
      | [] => None
      | e :: _ => Some (e, (takes r + 1) mod 64, tag (takes r + 1))
      end.
Proof.
  intros Hq HA HA' Hm Hr.
  assert (Hg : good_poll A poll) by (destruct Hq as [(-> & -> & Hs)|(-> & ->)]; [by apply io_view_good|by apply admin_view_good]).
  pose proof (ring_inv_reach A poll Hg _ _ (ring_start A m Hm) Hr) as Hi. pose proof (poll_next A poll Hg r Hi) as Hp.
  destruct Hi as [[w Hw] Hroom _ _ _ _]. exists w. rewrite Hw, drop_app_length in Hp. split_and_all; [done| |done].
  unfold posts, takes in Hroom. rewrite Hw, length_app in Hroom. lia.
Qed.

Definition demo_queue : nvme_pair_queue := PairQueue (Queue 8192 63) (Queue 4096 63) 0 0 1 1 0 0 false.

Lemma completions_taken_once_witness :
  exists r, rtc (cq_step 4096 (io_view 0 demo_queue)) (Ring (fun _ => 0) 0 1 [] []) r /\
    taken r = [Completion 0 0 0 0 1] /\ io_view 0 demo_queue (rg_mem r) (rg_head r) (rg_phase r) = None.
Proof.
  pose (m1 := st16 (fun _ => 0) 4110 1).
  pose (r := Ring m1 1 1 [Completion 0 0 0 0 1] [Completion 0 0 0 0 1]).
  assert (Hr : rtc (cq_step 4096 (io_view 0 demo_queue)) (Ring (fun _ => 0) 0 1 [] []) r).
  { eapply rtc_l; [apply (cq_post 4096 _ _ (Completion 0 0 0 0 1) m1); [reflexivity|reflexivity|reflexivity|]|].
    - intros x Hx. apply stn_out. change (x < 4096 \/ 4112 <= x) in Hx. lia.
    - eapply rtc_l; [apply (cq_take 4096 _ _ (Completion 0 0 0 0 1) 1 1); reflexivity|]. apply rtc_refl. }
  exists r. split; [exact Hr|]. split; [reflexivity|].
  destruct (completions_taken_once 0 4096 demo_queue (fresh_controller 0) (io_view 0 demo_queue) (fun _ => 0) r
    (or_introl (conj eq_refl (conj eq_refl eq_refl))) ltac:(lia) ltac:(lia) ltac:(by apply cleared_no_stale) Hr) as (w & Hw & _ & Hp).
  assert (w = []) as ->; [|exact Hp]. apply (f_equal length) in Hw. rewrite length_app in Hw. cbn in Hw. destruct w; [done|cbn in Hw; lia].
Defined.

(** Why the start matters: in an admin page that was not cleared, an entry with its phase bit set is
    taken before the controller has posted anything. *)
Theorem stale_entry_taken (hhdm : Z) (c : nvme_controller) (m : mem) :
  let A := hhdm + address (admin_cq c) in
  0 <= A -> A + 1024 <= 2 ^ 64 -> status (load_completion m A) &&& 1 = 1 ->
  exists r, rtc (cq_step A (admin_view hhdm c)) (Ring m 0 1 [] []) r /\ posted r = [] /\ taken r = [load_completion m A].
Proof.
  intros A HA HA' Hs. exists (Ring m 1 1 [] [load_completion m A]). split; [|done].
  apply rtc_once, (cq_take _ _ (Ring m 0 1 [] [])). cbn [rg_mem rg_head rg_phase].
  rewrite (admin_view_good hhdm c HA HA') by lia. cbv zeta. fold A. rewrite Z.mul_0_r, Z.add_0_r, Hs. done.
Qed.

(** And an I/O queue whose head is not 0 does not see the first entry posted. *)
Theorem wrong_head_misses (hhdm : Z) (q : nvme_pair_queue) (m : mem) (h : Z) :
  let A := hhdm + address (cq q) in
  size (cq q) = 63 -> 0 <= A -> A + 1024 <= 2 ^ 64 -> 0 < h < 64 ->
  (forall k, 0 < k < 64 -> status (load_completion m (A + 16 * k)) &&& 1 = 0) ->
  io_view hhdm q m h 1 = None.
Proof. intros A Hs HA HA' Hh Hm. rewrite (io_view_good hhdm q Hs HA HA') by lia. cbv zeta. fold A. by rewrite Hm. Qed.

(** ** Waiting and transfers *)

Section Transfers.
Context {hhdm : Z} {K : Type} `{KM : KernelMem hhdm K} {D : Type} `{!Mmio D} `{!PortIo D} `{!NvmeDma D} (PML4 : Z).

Lemma nio_bind_eq {A B} (e : nio K D A) (k : A -> nio K D B) w :
  (a ← e; k a) w = match e w with inl f => inl f | inr (a, w') => k a w' end.
Proof. done. Qed.

(** Running the plain steps of a driver: memory accesses, fences and doorbells. *)
Ltac nsteps :=
  repeat (rewrite nio_bind_eq; unfold getm, setm, with_mem, dev, memory_barrier; cbn [nk nd nm];
          try match goal with
              | |- context [dma ?d ?m] => destruct (dma d m)
              | |- context [mmio_st ?n ?a ?v ?d] => destruct (mmio_st n a v d)
              end).

(** The next tail, and the next head with its phase. *)
Definition tail_moved (q q' : nvme_pair_queue) : Prop :=
  q' = PairQueue (sq q) (cq q) (u64 (sq_tail q + 1) mod u64 (size (sq q) + 1)) (cq_head q) (phase q) (qid q)
         (sq_doorbell q) (cq_doorbell q) (lock q).

(** Waiting ends when the time is up at the latest: one completion was taken, or none. *)
Lemma wait_io_cases fuel q elapsed timeout (w : nworld K D) :
  0 <= elapsed -> timeout < 2 ^ 62 -> elapsed < 2 ^ 63 -> (0 < fuel)%nat -> timeout - elapsed <= 10 * (Z.of_nat fuel - 1) ->
  exists ok c q' w', nvme_wait_io (hhdm := hhdm) fuel q elapsed timeout w = inr (ok, c, q', w') /\ nk w' = nk w /\
    match c with
    | Some e => ok = (status_code e =? 0) /\ exists m, io_poll (hhdm := hhdm) m q = Some (e, q')
    | None => ok = false /\ q' = q
    end.
Proof.
  change (2 ^ 63) with 9223372036854775808. change (2 ^ 62) with 4611686018427387904. revert elapsed w.
  induction fuel as [|fuel IH]; intros elapsed w He Ht He' Hf0 Hf; cbn [nvme_wait_io].
  - lia.
  - destruct (elapsed <? timeout) eqn:E; bool_to_prop; [|by exists false, None, q, w].
    rewrite nio_bind_eq. unfold memory_barrier at 1. destruct (dma (nd w) (nm w)) as [d m]. rewrite nio_bind_eq. cbn [getm nm].
    destruct (io_poll m q) as [[e q']|] eqn:Ep.
    + rewrite nio_bind_eq. unfold dev. cbn [nd nk nm]. destruct (mmio_st 4 _ _ d) as [[] d1]. rewrite nio_bind_eq.
      unfold memory_barrier at 1. cbn [nd nk nm]. destruct (dma d1 m) as [d2 m2].
      exists (status_code e =? 0), (Some e), q', (NWorld (nk w) d2 m2). split_and_all; [done|done|done|]. by exists m.
    + rewrite nio_bind_eq. unfold memory_barrier at 1. cbn [nd nk nm]. destruct (dma d m) as [d2 m2].
      destruct (IH (u64 (elapsed + 10)) (NWorld (nk w) d2 m2)) as (ok & c & q' & w' & -> & Hk & Hc);
        try (rewrite ?u64_small by lia; lia). by exists ok, c, q', w'.
Qed.

Definition alloc_fault (f : fault) : Prop := f = NoPage \/ f = NoMemory.
Lemma no_page : alloc_fault NoPage.
Proof. by left. Qed.
Lemma no_memory : alloc_fault NoMemory.
Proof. by right. Qed.

Lemma second_prp_cases buffer n (w : nworld K D) :
  (exists f, second_prp PML4 buffer n w = inl f /\ alloc_fault f) \/
  (exists p w', second_prp PML4 buffer n w = inr (p, w')).
Proof.
  unfold second_prp. case_if; [right; by eexists _, _|]. case_if; [right; by eexists _, _|].
  rewrite nio_bind_eq. unfold new_page. destruct (page_alloc (nk w)) as [[k a]|]; [|left; exists NoMemory; by split; [|apply no_memory]].
  case_if; [left; exists NoPage; by split; [|apply no_page]|]. rewrite nio_bind_eq. cbn [getm nm].
  destruct (prp_list _ _ _ _ _) as [m'|m'].
  - rewrite !nio_bind_eq. cbn [setm with_mem nk nd nm]. rewrite nio_bind_eq. unfold free_page, with_mem. cbn [nk nd nm].
    destruct (page_free k a) as [k'|]; [|left; exists NoMemory; by split; [|apply no_memory]]. right. by eexists _, _.
  - right. by eexists _, _.
Qed.

Lemma submit_io_moves q c (w : nworld K D) : exists q' w', submit_io (hhdm := hhdm) q c w = inr (q', w') /\ tail_moved q q'.
Proof.
  unfold submit_io. nsteps. by eexists _, _.
Qed.

Lemma send_io_cases q op nsid buffer lba n bytes (w : nworld K D) :
  (exists f, nvme_send_io PML4 q op nsid buffer lba n bytes w = inl f /\ alloc_fault f) \/
  (exists q' w', nvme_send_io PML4 q op nsid buffer lba n bytes w = inr (q', w') /\ (q' = q \/ tail_moved q q')).
Proof.
  unfold nvme_send_io. rewrite nio_bind_eq. cbn [getm]. case_if; [right; exists q, w; by split; [|left]|].
  rewrite nio_bind_eq. destruct (second_prp_cases buffer (u64 (bytes + PAGE_SIZE - 1) / PAGE_SIZE) w) as [(f & -> & Hf)|([p|] & w' & ->)].
  - left. by exists f.
  - right. destruct (submit_io_moves q (Command (u8 op) nsid (translate (hhdm := hhdm) PML4 (nm w) buffer) p (u32 lba) (u32 (lba >>> 32)) (u32 (u16 n - 1))) w')
      as (q' & w2 & -> & Hm). exists q', w2. by split; [|right].
  - right. exists q, w'. by split; [|left].
Qed.

(** What a transfer does to the queue: one command at most, then one completion at most. *)
Definition transferred (q : nvme_pair_queue) (ok : bool) (q' : nvme_pair_queue) : Prop :=
  (sq_tail q' = sq_tail q \/ sq_tail q' = u64 (sq_tail q + 1) mod u64 (size (sq q) + 1)) /\
  (cq_head q' = cq_head q /\ phase q' = phase q /\ ok = false \/
   exists m e q2, io_poll (hhdm := hhdm) m q = Some (e, q2) /\ cq_head q' = cq_head q2 /\ phase q' = phase q2 /\
     ok = (status_code e =? 0)).

(** Polling looks at the completion queue only. *)
Lemma io_poll_same m q q1 : cq q1 = cq q -> cq_head q1 = cq_head q -> phase q1 = phase q ->
  match io_poll (hhdm := hhdm) m q1 with
  | Some (e, q2) => sq_tail q2 = sq_tail q1 /\ lock q2 = lock q1 /\
      exists q3, io_poll (hhdm := hhdm) m q = Some (e, q3) /\ cq_head q3 = cq_head q2 /\ phase q3 = phase q2
  | None => io_poll (hhdm := hhdm) m q = None
  end.
Proof.
  intros H1 H2 H3. unfold io_poll. cbv zeta. rewrite H1, H2, H3. destruct (_ =? phase q); [|done]. split_and_all; try done.
  by eexists.
Qed.

Lemma transfer_cases op timeout q q0 nsid buffer lba n lba_size (w : nworld K D) :
  0 <= timeout < 2 ^ 62 -> timeout mod 10 = 0 -> (exists b, q = with_lock q0 b) ->
  (exists f, transfer PML4 op timeout q nsid buffer lba n lba_size w = inl f /\ alloc_fault f) \/
  (exists ok q' w', transfer PML4 op timeout q nsid buffer lba n lba_size w = inr (ok, q', w') /\
     lock q' = lock q /\ transferred q0 ok q').
Proof.
  intros Ht Hten [b ->]. unfold transfer. rewrite nio_bind_eq.
  destruct (send_io_cases (with_lock q0 b) op nsid buffer lba n (u64 (n * lba_size)) w)
    as [(f & -> & Hf)|(q1 & w1 & -> & Hq)]; [left; by exists f|].
  right. rewrite nio_bind_eq.
  destruct (wait_io_cases (Z.to_nat (timeout / 10) + 1) q1 0 timeout w1) as (ok & c & q' & w' & -> & _ & Hc);
    [lia|lia|lia|lia|rewrite Nat2Z.inj_add, Z2Nat.id by (apply Z.div_pos; lia); Z.div_mod_to_equations; lia|].
  assert (Hq1 : cq q1 = cq q0 /\ cq_head q1 = cq_head q0 /\ phase q1 = phase q0 /\ lock q1 = b /\
    (sq_tail q1 = sq_tail q0 \/ sq_tail q1 = u64 (sq_tail q0 + 1) mod u64 (size (sq q0) + 1)))
    by (destruct Hq as [->|Hq]; [|unfold tail_moved in Hq; subst q1]; split_and_all; auto).
  destruct Hq1 as (E1 & E2 & E3 & E4 & E5). destruct c as [e|].
  - destruct Hc as [-> [m Hm]]. pose proof (io_poll_same m q0 q1 E1 E2 E3) as Hs. rewrite Hm in Hs.
    destruct Hs as (S1 & S2 & q3 & S3 & S4 & S5).
    assert (Hx : exists ok, ok = (status_code e =? 0) /\
      (if negb (status_code e =? 0) then mret (false, q') else mret (negb (truthy (status_code e)), q') : nio K D _) w' = inr (ok, q', w')).
    { exists (status_code e =? 0). split; [done|]. destruct (status_code e =? 0) eqn:E; cbn [negb]; bool_to_prop; [by rewrite E|done]. }
    destruct Hx as (ok & Hok & Hx). exists ok, q', w'. split; [exact Hx|]. split; [by rewrite S2|]. unfold transferred.
    rewrite S1. split; [done|]. right. by exists m, e, q3.
  - destruct Hc as [-> ->]. exists false, q1, w'. split; [done|]. split; [done|]. unfold transferred. split; [done|]. by left.
Qed.

Lemma buffer_aligned buffer : truthy (buffer &&& (PAGE_SIZE - 1)) = negb (buffer mod 4096 =? 0).
Proof. change (PAGE_SIZE - 1) with (2 ^ 12 - 1). rewrite land_mod by lia. done. Qed.
End Transfers.

(** C21: Reads and writes end.  For a namespace that exists on a controller with an I/O
    queue whose lock is free, whatever the controller does or does not do, [nvme_read] and
    [nvme_write] return within their time limits, unless memory for the PRP list is
    missing: an unaligned buffer is refused without touching anything; otherwise the tail
    moves by one command at most, and either no completion was taken and the answer is
    failure, or exactly one was and the answer says whether its status is 0; the lock is
    free again. *)
Theorem transfers_terminate {hhdm : Z} {K : Type} `{KM : KernelMem hhdm K} {D : Type} `{!Mmio D} `{!PortIo D} `{!NvmeDma D}
    (PML4 : Z) (c : nvme_controller) (ns : nvme_namespace) (q : nvme_pair_queue) (nsid buffer lba n : Z) (w : nworld K D)
    (run : nvme_controller -> Z -> Z -> Z -> Z -> nio K D (bool * nvme_controller)) :
  run = nvme_read PML4 \/ run = nvme_write PML4 ->
  namespaces c !! Z.to_nat (nsid - 1) = Some ns -> 0 < nsid -> main_io_queue c = Some q -> lock q = false ->
  (exists f, run c nsid buffer lba n w = inl f /\ alloc_fault f) \/
  (buffer mod 4096 <> 0 /\ run c nsid buffer lba n w = inr (false, c, w)) \/
  (buffer mod 4096 = 0 /\ exists ok q' w', run c nsid buffer lba n w = inr (ok, with_queue c q', w') /\
     lock q' = false /\ transferred (hhdm := hhdm) q ok q').
Proof.
  intros Hrun Hns Hpos Hq Hlock.
  destruct Hrun as [-> | ->]; unfold nvme_read, nvme_write; rewrite nio_bind_eq; unfold namespace_of; rewrite Hns;
    replace (nsid <=? 0) with false by lia; cbn [mret nio_ret]; rewrite buffer_aligned;
    (destruct (buffer mod 4096 =? 0) eqn:E; cbn [negb]; bool_to_prop; [|by right; left]);
    rewrite nio_bind_eq; unfold io_queue_of; rewrite Hq; cbn [mret nio_ret]; rewrite ?Hlock, nio_bind_eq.
  - destruct (transfer_cases PML4 2 1000 (with_lock q true) q nsid buffer lba n (ns_lba_size ns) w ltac:(lia) eq_refl (ex_intro _ true eq_refl))
      as [(f & -> & Hf)|(ok & q' & w' & -> & _ & Ht)]; [left; by exists f|].
    right; right. split; [done|]. by exists ok, (with_lock q' false), w'.
  - assert (Hw : q = with_lock q false) by (destruct q; cbn in Hlock; by subst).
    destruct (transfer_cases PML4 1 5000 q q nsid buffer lba n (ns_lba_size ns) w ltac:(lia) eq_refl (ex_intro _ false Hw))
      as [(f & -> & Hf)|(ok & q' & w' & -> & Hl & Ht)]; [left; by exists f|].
    right; right. split; [done|]. exists ok, q', w'. split; [done|]. split; [congruence|done].
Qed.

(** ** The command a transfer submits *)

Definition load_command (m : mem) (a : Z) : nvme_command :=
  Command (ld32 m a) (ld32 m (a + 4)) (ld64 m (a + 24)) (ld64 m (a + 32)) (ld32 m (a + 40)) (ld32 m (a + 44)) (ld32 m (a + 48)).

Lemma store_command_out m a c x : x < a \/ a + 64 <= x -> store_command m a c x = m x.
Proof.
  intros Hx. unfold store_command. cbv zeta. rewrite !stn_out by lia. rewrite memset_at by lia.
  by replace (_ && _) with false by lia.
Qed.

Lemma load_store_command m a c :
  0 <= cdw0 c < 2 ^ 32 -> 0 <= c_nsid c < 2 ^ 32 -> 0 <= prp1 c < 2 ^ 64 -> 0 <= prp2 c < 2 ^ 64 ->
  0 <= cdw10 c < 2 ^ 32 -> 0 <= cdw11 c < 2 ^ 32 -> 0 <= cdw12 c < 2 ^ 32 ->
  load_command (store_command m a c) a = c.
Proof.
  intros. unfold load_command, store_command. cbv zeta. byte_simpl. destruct c as [c0 c1 c2 c3 c4 c5 c6].
  cbn [cdw0 c_nsid prp1 prp2 cdw10 cdw11 cdw12] in *. change (256 ^ Z.of_nat 4) with (2 ^ 32). change (256 ^ Z.of_nat 8) with (2 ^ 64).
  by rewrite !Z.mod_small by lia.
Qed.

Lemma load_command_ext m m' a : (forall x, a <= x < a + 64 -> m' x = m x) -> load_command m' a = load_command m a.
Proof. intros H. unfold load_command. f_equal; apply ldn_ext; intros x Hx; apply H; lia. Qed.

Section Prp.
Context {hhdm : Z} (PML4 : Z).
Notation trans := (translate (hhdm := hhdm) PML4).

Lemma translate_range m va : 0 <= trans m va < 2 ^ 64.
Proof.
  unfold translate, getPhysicalAddress. cbv zeta. repeat (case_if; [lia|]). apply u64_range.
Qed.

(** How a controller finds the [k]-th page of a transfer of [n] pages. *)
Definition prp_page (m : mem) (c : nvme_command) (n k : Z) : Z :=
  if k =? 0 then prp1 c else if n =? 2 then prp2 c else ld64 m (hhdm + prp2 c + 8 * (k - 1)).

(** Translation does not depend on the list page [L]. *)
Definition stable (m : mem) (L buffer n : Z) : Prop :=
  forall m', (forall x, x < L \/ L + 4096 <= x -> m' x = m x) ->
    forall i, 0 <= i < n -> trans m' (buffer + i * 4096) = trans m (buffer + i * 4096).

Lemma prp_list_spec m L buffer n :
  0 <= buffer -> buffer + n * 4096 <= 2 ^ 64 -> 1 <= n <= 513 ->
  (forall i, 0 <= i < n -> trans m (buffer + i * 4096) <> 0) -> stable m L buffer n ->
  exists m', prp_list (hhdm := hhdm) PML4 m L buffer n = inr m' /\ (forall x, x < L \/ L + 4096 <= x -> m' x = m x) /\
    (forall j, 1 <= j < n -> ld64 m' (L + 8 * (j - 1)) = trans m (buffer + j * 4096)).
Proof.
  intros Hb Hb' Hn Hmap Hst. unfold prp_list. change (2 ^ 64) with 18446744073709551616 in Hb'.
  set (inv := fun i m' => (forall x, x < L \/ L + 4096 <= x -> m' x = m x) /\
      (forall j, 1 <= j < i -> ld64 m' (L + 8 * (j - 1)) = trans m (buffer + j * 4096))).
  set (body := fun i m => let page_phys := trans m (u64 (buffer + i * PAGE_SIZE)) in
       if page_phys =? 0 then inl m else inr (st64 m (L + 8 * (i - 1)) page_phys)).
  assert (Hstep : forall i x, 1 <= i < 1 + Z.of_nat (Z.to_nat (n - 1)) -> inv i x ->
    match body i x with inl _ => False | inr x' => inv (i + 1) x' end).
  { intros i x Hi [H1 H2]. unfold body. cbv zeta. unfold PAGE_SIZE.
    rewrite u64_small by lia. rewrite (Hst x H1 i) by lia. rewrite (proj2 (Z.eqb_neq _ 0)) by (apply Hmap; lia). split.
    - intros y Hy. rewrite stn_out by lia. by apply H1.
    - intros j Hj. destruct (Z.eq_dec j i) as [->|Hne].
      + apply ld64_st64_same. apply translate_range.
      + rewrite ldn_stn_disj by lia. apply H2. lia. }
  pose proof (ploop_inv (B := mem) inv (fun _ => False) body (Z.to_nat (n - 1)) 1 m ltac:(split; [done|lia]) Hstep) as H.
  destruct (ploop _ _ _ _) as [b|m']; [done|]. destruct H as [H1 H2]. exists m'. split_and_all; [done|done|].
  intros j Hj. apply H2. lia.
Qed.
End Prp.

Section Send.
Context {hhdm : Z} {K : Type} `{KM : KernelMem hhdm K} {D : Type} `{!Mmio D} `{!PortIo D} `{!NvmeDma D} (PML4 : Z).
Notation trans := (translate (hhdm := hhdm) PML4).

(** Memory handed out other than the submission queue, to which the controller's own
    writes are confined. *)
Definition inside (R : list (Z * Z)) (x : Z) : Prop := exists r, r ∈ R /\ r.1 <= x < r.1 + r.2.
Definition confined (R : list (Z * Z)) : Prop :=
  forall (d : D) m x, ~ inside R x -> (dma d m).2 x = m x.

Lemma held_regions_apart (k : K) r R x : held k (r :: R) -> r.1 <= x < r.1 + r.2 -> ~ inside R x.
Proof.
  intros Hh Hx (r' & Hin & Hx'). apply list_elem_of_split in Hin as (R1 & R2 & ->).
  assert (Hp : r :: R1 ++ r' :: R2 ≡ₚ r :: r' :: R1 ++ R2) by (constructor; symmetry; apply Permutation_middle).
  pose proof (held_disjoint _ _ _ _ (held_perm _ _ _ Hp Hh)) as Hd. unfold disjoint_regions in Hd. lia.
Qed.

(** What is in memory when the doorbell rings. *)
Definition described (m : mem) (a n : Z) (c : nvme_command) (pages : Z -> Z) : Prop :=
  load_command m a = c /\ forall i, 0 <= i < n -> prp_page (hhdm := hhdm) m c n i = pages i.

Definition rings (q q' : nvme_pair_queue) (k : K) (r : fault + (nvme_pair_queue * nworld K D)) (P : mem -> Prop) : Prop :=
  exists d m, P m /\ tail_moved q q' /\
    r = inr (q', let (d', m') := dma (mmio_st 4 (sq_doorbell q) (u32 (sq_tail q')) d).2 m in NWorld k d' m').

Lemma submit_io_rings q c (w : nworld K D) a R L pages n :
  a = hhdm + address (sq q) + 64 * sq_tail q -> 0 <= a < 2 ^ 64 -> confined R ->
  (forall x, a <= x < a + 64 -> ~ inside R x) -> (2 < n -> forall x, L <= x < L + 4096 -> ~ inside R x) ->
  (2 < n -> a + 64 <= L \/ L + 4096 <= a) -> load_command (store_command (nm w) a c) a = c ->
  (forall i, 0 <= i < n -> i = 0 /\ prp1 c = pages 0 \/ 0 < i /\ n = 2 /\ prp2 c = pages i \/
     0 < i /\ n <> 2 /\ L = hhdm + prp2 c /\ i <= 512 /\ ld64 (nm w) (L + 8 * (i - 1)) = pages i) ->
  exists q', rings q q' (nk w) (submit_io (hhdm := hhdm) q c w) (fun m => described m a n c pages).
Proof.
  intros Ha Har Hc Hsl HL Hd Hld Hpg. unfold submit_io. rewrite nio_bind_eq. unfold getm. rewrite nio_bind_eq. unfold setm, with_mem.
  change (2 ^ 64) with 18446744073709551616 in Har. rewrite <- Ha, (u64_small a) by lia. rewrite nio_bind_eq.
  unfold memory_barrier at 1. cbn [nk nd nm]. set (m1 := store_command (nm w) a c) in *.
  pose proof (Hc (nd w) m1) as Hm. destruct (dma (nd w) m1) as [d2 m2]. cbn [snd] in Hm.
  eexists. exists d2, m2. split; [|split; [done|]].
  - split; [rewrite <- Hld; apply load_command_ext; intros x Hx; apply Hm, Hsl; lia|].
    intros i Hi. unfold prp_page. destruct (Hpg i Hi) as [[-> H]|[(H0 & -> & H)|(H0 & H2 & HLe & H5 & H)]].
    + done.
    + by replace (i =? 0) with false by lia.
    + replace (i =? 0) with false by lia. replace (n =? 2) with false by lia. rewrite <- HLe, <- H. apply ldn_ext.
      intros x Hx. rewrite Hm by (apply HL; lia). specialize (Hd ltac:(lia)). unfold m1. apply store_command_out. lia.
  - rewrite nio_bind_eq. unfold dev. cbn [nk nd nm]. destruct (mmio_st 4 _ _ d2) as [[] d3]. rewrite nio_bind_eq.
    unfold memory_barrier. cbn [nk nd nm snd]. by destruct (dma d3 m2).
Qed.

(** The command as it is composed, and as it is read back. *)
Definition io_command (op nsid p1 p2 lba blocks : Z) : nvme_command :=
  Command op nsid p1 p2 (lba mod 2 ^ 32) (lba / 2 ^ 32) (blocks - 1).

Lemma io_command_composed op nsid p1 p2 lba blocks : 0 <= op < 256 -> 0 <= lba < 2 ^ 64 -> 1 <= blocks < 65536 ->
  Command (u8 op) nsid p1 p2 (u32 lba) (u32 (lba >>> 32)) (u32 (u16 blocks - 1)) = io_command op nsid p1 p2 lba blocks.
Proof.
  intros. unfold io_command. rewrite shiftr_div by lia. change (2 ^ 32) with 4294967296 in *. change (2 ^ 64) with 18446744073709551616 in *.
  f_equal; [wrap_lia| |wrap_lia]. unfold u32. apply Z.mod_small. Z.div_mod_to_equations. lia.
Qed.

Lemma io_command_loads m a op nsid p1 p2 lba blocks :
  0 <= op < 256 -> 0 <= nsid < 2 ^ 32 -> 0 <= p1 < 2 ^ 64 -> 0 <= p2 < 2 ^ 64 -> 0 <= lba < 2 ^ 64 -> 1 <= blocks < 65536 ->
  load_command (store_command m a (io_command op nsid p1 p2 lba blocks)) a = io_command op nsid p1 p2 lba blocks.
Proof.
  intros. apply load_store_command; unfold io_command; cbn [cdw0 c_nsid prp1 prp2 cdw10 cdw11 cdw12]; try lia;
    change (2 ^ 32) with 4294967296 in *; change (2 ^ 64) with 18446744073709551616 in *; Z.div_mod_to_equations; lia.
Qed.

(** A page just handed out is apart from everything handed out before. *)
Lemma new_page_apart (k : K) L R r : held k ((L, 4096) :: R) -> r ∈ R -> disjoint_regions (L, 4096) r.
Proof.
  intros Hk Hr. apply list_elem_of_split in Hr as (R1 & R2 & ->). apply (held_disjoint k (L, 4096) r (R1 ++ R2)).
  eapply held_perm; [|exact Hk]. constructor. symmetry. apply Permutation_middle.
Qed.

(** What [second_prp] answers for a mapped buffer, and the memory it leaves. *)
Definition prp_ready (w : nworld K D) (R : list (Z * Z)) (buffer n p2 : Z) (w' : nworld K D) : Prop :=
  0 <= p2 < 2 ^ 64 /\
  (n = 1 /\ w' = w \/
   n = 2 /\ p2 = trans (nm w) (buffer + 4096) /\ w' = w \/
   2 < n /\ (forall r, r ∈ R -> disjoint_regions (hhdm + p2, 4096) r) /\
   forall j, 1 <= j < n -> ld64 (nm w') (hhdm + p2 + 8 * (j - 1)) = trans (nm w) (buffer + j * 4096)).

Lemma second_prp_ready (w : nworld K D) R buffer n :
  held (nk w) R -> 0 <= hhdm -> (forall k' a, page_alloc (nk w) = Some (k', a) -> 0 <= a) ->
  1 <= n <= 513 -> 0 <= buffer -> buffer + n * 4096 <= 2 ^ 64 ->
  (forall i, 0 <= i < n -> trans (nm w) (buffer + i * 4096) <> 0) ->
  (forall L, (forall r, r ∈ R -> disjoint_regions (L, 4096) r) -> stable (hhdm := hhdm) PML4 (nm w) L buffer n) ->
  second_prp PML4 buffer n w = inl NoPage \/
  exists p2 w', second_prp PML4 buffer n w = inr (Some p2, w') /\ prp_ready w R buffer n p2 w'.
Proof.
  intros Hheld Hh Hpos Hn Hb Hb' Hmap Hst. unfold second_prp, prp_ready. change (2 ^ 64) with 18446744073709551616 in *.
  destruct (n =? 1) eqn:E1; bool_to_prop; [right; exists 0, w; split; [done|]; split; [lia|by left]|].
  destruct (n =? 2) eqn:E2; bool_to_prop.
  { right. rewrite nio_bind_eq. cbn [getm mret nio_ret]. unfold PAGE_SIZE. rewrite u64_small by lia.
    pose proof (Hmap 1 ltac:(lia)) as H1. rewrite Z.mul_1_l in H1. rewrite (proj2 (Z.eqb_neq _ 0) H1).
    eexists _, w. split; [done|]. split; [apply translate_range|]. right. by left. }
  destruct (page_alloc_ok (nk w) R Hheld) as (k' & a & Ea & [[-> _]|[Ha Hk']]); rewrite nio_bind_eq;
    unfold new_page; rewrite Ea; [by left|]. right. rewrite (proj2 (Z.eqb_neq a 0) Ha), nio_bind_eq. cbn [getm nm nk nd].
  destruct (held_bounds _ _ _ Hk') as [HL1 HL2]. cbn [fst snd] in HL1, HL2. change (2 ^ 64) with 18446744073709551616 in HL2.
  pose proof (Hpos _ _ Ea) as Ha0. rewrite (u64_small (hhdm + a)) by lia.
  destruct (prp_list_spec PML4 (nm w) (hhdm + a) buffer n Hb Hb' Hn Hmap) as (m' & -> & Hm1 & Hm2);
    [apply Hst; intros r Hr; by eapply new_page_apart|].
  exists a, (NWorld k' (nd w) m'). split; [done|]. split; [lia|]. right. right.
  split_and_all; [lia| |exact Hm2]. intros r Hr. by eapply new_page_apart.
Qed.

(** C17: The command in the submission queue describes the caller's buffer.  For a mapped
    buffer of 1 to 513 pages, a tail within the queue, page tables that do not lie in a
    page the allocator could still hand out and a controller that writes only to memory
    handed out other than the submission queue: unless memory for the PRP list is missing,
    [nvme_send_io] rings the doorbell with the tail moved by one, and at that moment the
    slot holds the opcode, namespace, 64-bit block address and block count minus one, and
    following the command's PRP entries (directly or through the list) yields the
    address [getPhysicalAddress] gives for every page of the buffer, in order: the physical
    address of the page where that is below 1 TiB. *)
Theorem send_io_describes_buffer q op nsid buffer lba blocks bytes (w : nworld K D) R :
  let n := (bytes + 4095) / 4096 in
  let S := hhdm + address (sq q) in
  held (nk w) ((S, 4096) :: R) -> 0 <= sq_tail q < 64 -> confined R -> 0 <= hhdm ->
  (forall k' a, page_alloc (nk w) = Some (k', a) -> 0 <= a) ->
  0 <= bytes < 2 ^ 63 -> 1 <= n <= 513 -> 0 <= buffer -> buffer + n * 4096 <= 2 ^ 64 ->
  (forall i, 0 <= i < n -> trans (nm w) (buffer + i * 4096) <> 0) ->
  (forall L, (forall r, r ∈ (S, 4096) :: R -> disjoint_regions (L, 4096) r) -> stable (hhdm := hhdm) PML4 (nm w) L buffer n) ->
  0 <= op < 256 -> 0 <= nsid < 2 ^ 32 -> 0 <= lba < 2 ^ 64 -> 1 <= blocks < 65536 ->
  nvme_send_io PML4 q op nsid buffer lba blocks bytes w = inl NoPage \/
  exists q' k' p2, rings q q' k' (nvme_send_io PML4 q op nsid buffer lba blocks bytes w) (fun m =>
    described m (S + 64 * sq_tail q) n (io_command op nsid (trans (nm w) buffer) p2 lba blocks)
      (fun i => trans (nm w) (buffer + i * 4096))).
Proof.
  intros n S Hheld Htail Hconf Hh Hpos Hby Hn Hb Hb' Hmap Hst Hop Hns Hlba Hbl.
  destruct (held_bounds _ _ _ Hheld) as [HS1 HS2]. cbn [fst snd] in HS1, HS2.
  assert (H0 : trans (nm w) buffer <> 0) by (pose proof (Hmap 0 ltac:(lia)) as H; by rewrite Z.add_0_r in H).
  unfold nvme_send_io. rewrite nio_bind_eq. cbn [getm]. rewrite (proj2 (Z.eqb_neq _ 0) H0).
  assert (Hnp : u64 (bytes + PAGE_SIZE - 1) / PAGE_SIZE = n)
    by (unfold PAGE_SIZE, n; rewrite u64_small by lia; f_equal; lia).
  rewrite Hnp, nio_bind_eq.
  destruct (second_prp_ready w ((S, 4096) :: R) buffer n Hheld Hh Hpos Hn Hb Hb' Hmap Hst)
    as [->|(p2 & w' & -> & Hp2 & Hcase)]; [by left|]. right. rewrite io_command_composed by done.
  destruct (submit_io_rings q (io_command op nsid (trans (nm w) buffer) p2 lba blocks) w' (S + 64 * sq_tail q) R (hhdm + p2)
    (fun i => trans (nm w) (buffer + i * 4096)) n) as (q' & Hq'); try done; try lia.
  - intros x Hx. apply (held_regions_apart _ _ _ x Hheld). cbn [fst snd]. lia.
  - intros Hn2 x Hx (r & Hr & Hx'). destruct Hcase as [Hc|[Hc|(_ & Hd & _)]]; [lia|lia|].
    pose proof (Hd r ltac:(by right)) as Hd'. unfold disjoint_regions in Hd'. cbn [fst snd] in Hd'. lia.
  - intros Hn2. destruct Hcase as [Hc|[Hc|(_ & Hd & _)]]; [lia|lia|].
    pose proof (Hd (S, 4096) ltac:(left)) as Hd'. unfold disjoint_regions in Hd'. cbn [fst snd] in Hd'. lia.
  - apply io_command_loads; try done. apply translate_range.
  - intros i Hi. destruct (Z.eq_dec i 0) as [->|Hi0]; [left; split; [done|]; unfold io_command; cbn [prp1]; f_equal; lia|].
    right. destruct Hcase as [Hc|[(Hc & -> & _)|(Hc & _ & Hl)]]; [lia| |].
    + left. split_and_all; [lia|done|]. unfold io_command. cbn [prp2]. f_equal. lia.
    + right. split_and_all; [lia|lia|done|lia|]. apply Hl. lia.
  - by exists q', (nk w'), p2.
Qed.
End Send.

(** ** An example: three pages at 1 MiB, identity-mapped *)

Definition quiet : Type := unit.
#[local] Instance quiet_mmio : Mmio quiet := { mmio_ld _ _ := fun w => (0, w); mmio_st _ _ _ := fun w => (tt, w) }.
#[local] Instance quiet_ports : PortIo quiet := { inp _ _ := fun w => (0, w); outp _ _ _ := fun w => (tt, w) }.
#[local] Instance quiet_dma : NvmeDma quiet := { dma d m := (d, m) }.
#[local] Existing Instance arena_mem.

Definition demo_tables : mem :=
  st64 (st64 (st64 (st64 (st64 (st64 (fun _ => 0) 4096 8195) 8192 12291) 12288 16387) 18432 1048579) 18440 1052675) 18448 1056771.
Definition demo_nworld : nworld Z quiet := NWorld 24576 tt demo_tables.
Definition demo_pair : nvme_pair_queue := PairQueue (Queue 20480 63) (Queue 65536 63) 5 0 1 1 0 0 false.

(** Translation reads four table entries. *)
Lemma translation_ext (hhdm : Z) (m m' : mem) (PML4 va B n : Z) :
  (forall x, B <= x < B + n -> m' x = m x) ->
  let ok t i := B <= entry_at t i /\ entry_at t i + 8 <= B + n in
  let i4 := (va >>> 39) &&& 511 in let i3 := (va >>> 30) &&& 511 in
  let i2 := (va >>> 21) &&& 511 in let i1 := (va >>> 12) &&& 511 in
  let t3 := next_of (hhdm := hhdm) m PML4 i4 in let t2 := next_of (hhdm := hhdm) m t3 i3 in
  let t1 := next_of (hhdm := hhdm) m t2 i2 in
  ok PML4 i4 -> ok t3 i3 -> ok t2 i2 -> ok t1 i1 ->
  getPhysicalAddress (hhdm := hhdm) m' PML4 va = getPhysicalAddress (hhdm := hhdm) m PML4 va.
Proof.
  intros Hm ok i4 i3 i2 i1 t3 t2 t1 H4 H3 H2 H1.
  assert (E : forall t i, ok t i -> ld64 m' (entry_at t i) = ld64 m (entry_at t i)).
  { intros t i [Ha Hb]. apply ldn_ext. intros x Hx. apply Hm. lia. }
  unfold getPhysicalAddress. cbv zeta. fold i4 i3 i2 i1. unfold is_present, next_of in *.
  rewrite (E PML4 i4 H4). fold t3. rewrite (E t3 i3 H3). fold t2. rewrite (E t2 i2 H2). fold t1. by rewrite (E t1 i1 H1).
Qed.

Lemma demo_held : held (KernelMem := arena_mem 0) 24576 [(20480, 4096); (4096, 16384)].
Proof.
  unfold held, arena_mem, arena_held, ARENA_END. split_and_all; try lia.
  - cbn. split; [|done]. constructor; [|done]. unfold disjoint_regions. cbn. lia.
  - repeat constructor; cbn; lia.
Qed.

Lemma demo_pages i : 0 <= i < 3 ->
  translate (hhdm := 0) 4096 demo_tables (1048576 + i * 4096) = 1048576 + i * 4096 /\
  forall m', (forall x, 4096 <= x < 20480 -> m' x = demo_tables x) ->
    translate (hhdm := 0) 4096 m' (1048576 + i * 4096) = translate (hhdm := 0) 4096 demo_tables (1048576 + i * 4096).
Proof.
  intros Hi. assert (i = 0 \/ i = 1 \/ i = 2) as [-> |[-> | ->]] by lia; (split; [vm_compute; reflexivity|]);
    intros m' Hm; apply (translation_ext 0 demo_tables m' 4096 _ 4096 16384 Hm); vm_compute; split; discriminate.
Qed.

Lemma send_io_describes_buffer_witness :
  nvme_send_io (hhdm := 0) 4096 demo_pair 2 1 1048576 77 24 12288 demo_nworld = inl NoPage \/
  exists q' k' p2, rings demo_pair q' k' (nvme_send_io (hhdm := 0) 4096 demo_pair 2 1 1048576 77 24 12288 demo_nworld) (fun m =>
    described (hhdm := 0) m 20800 3 (io_command 2 1 1048576 p2 77 24)
      (fun i => translate (hhdm := 0) 4096 demo_tables (1048576 + i * 4096))).
Proof.
  refine (send_io_describes_buffer (hhdm := 0) 4096 demo_pair 2 1 1048576 77 24 12288 demo_nworld [(4096, 16384)]
    demo_held _ _ _ _ _ _ _ _ _ _ _ _ _ _).
  - cbn. lia.
  - intros d m x _. reflexivity.
  - lia.
  - intros k' a. cbn. intros [= _ <-]. lia.
  - lia.
  - vm_compute. split; discriminate.
  - lia.
  - vm_compute. discriminate.
  - intros i Hi. change (0 <= i < 3) in Hi. change (nm demo_nworld) with demo_tables.
    rewrite (proj1 (demo_pages i Hi)). lia.
  - intros L HL m' Hm i Hi. change (0 <= i < 3) in Hi. apply (proj2 (demo_pages i Hi)). intros x Hx. apply Hm.
    pose proof (HL (4096, 16384) ltac:(right; left)) as Hd. unfold disjoint_regions in Hd. cbn in Hd. lia.
  - lia.
  - lia.
  - lia.
  - lia.
Defined.

(** A controller that never answers. *)
Lemma transfers_terminate_witness :
  let c := with_queue (fresh_controller 0) demo_pair in
  (exists f, nvme_read (hhdm := 0) 4096 c 1 1048576 77 24 demo_nworld = inl f /\ alloc_fault f) \/
  exists ok q' w', nvme_read (hhdm := 0) 4096 c 1 1048576 77 24 demo_nworld = inr (ok, with_queue c q', w') /\
    lock q' = false /\ transferred (hhdm := 0) demo_pair ok q'.
Proof.
  cbv zeta.
  destruct (transfers_terminate (hhdm := 0) (D := quiet) 4096 (with_queue (fresh_controller 0) demo_pair) (Namespace 0 0 0 false 0)
    demo_pair 1 1048576 77 24 demo_nworld (nvme_read 4096) (or_introl eq_refl) eq_refl ltac:(lia) eq_refl eq_refl)
    as [H|[[H _]|[_ H]]]; [by left|exfalso; apply H; reflexivity|by right].
Defined.
