(* ===== verification/Boot.v ===== *)
(** * Boot and power (main.c, acpi.c, power.c, util.c, ktest.c)

    [init_framebuffer], the start of ACPI, shutdown and reboot, the legacy configuration
    accessors of util.c and the allocator's self test.  uACPI's entry points are
    parameters that answer a status; log lines are not modelled. *)

From S2P Require Import Prelude Mem CString Block Hw Pci KernelApi.

(** ** Clearing the screen *)

(** [pitch] of the response is in bytes; a pixel is four. *)
Definition init_framebuffer (m : mem) (address width height pitch bg_colour : Z) : mem :=
  let pitch := pitch / 4 in
  floop (Z.to_nat height) 0 (fun y m =>
    floop (Z.to_nat width) 0 (fun x m => st32 m (address + 4 * (y * pitch + x)) bg_colour) m) m.

Definition pixel (address pitch x y : Z) : Z := address + 4 * (y * (pitch / 4) + x).

(** One row. *)
Lemma row_filled address p y n bg m : 0 <= n ->
  let m' := floop (Z.to_nat n) 0 (fun x m => st32 m (address + 4 * (y * p + x)) bg) m in
  (forall x, 0 <= x < n -> ld32 m' (address + 4 * (y * p + x)) = bg mod 2 ^ 32) /\
  (forall a, a < address + 4 * (y * p) \/ address + 4 * (y * p + n) <= a -> m' a = m a).
Proof.
  intros Hn m'.
  pose proof (floop_inv (fun i m' => (forall x, 0 <= x < i -> ld32 m' (address + 4 * (y * p + x)) = bg mod 2 ^ 32) /\
      (forall a, a < address + 4 * (y * p) \/ address + 4 * (y * p + i) <= a -> m' a = m a))
    (fun x m => st32 m (address + 4 * (y * p + x)) bg) (Z.to_nat n) 0 m) as H.
  rewrite Z.add_0_l, Z2Nat.id in H by lia. apply H; [split; [lia|done]|]. clear H m'. intros i x Hi [H1 H2]. split.
  - intros j Hj. destruct (Z.eq_dec j i) as [->|Hne]; [by rewrite ldn_stn_same|]. rewrite ldn_stn_disj by lia. apply H1. lia.
  - intros a Ha. rewrite stn_out by lia. apply H2. lia.
Qed.

(** [init_framebuffer] paints the visible screen and nothing else: for rows that do
    not overlap (a width of at most the pitch in pixels) every pixel of the screen holds
    the background colour, and every byte that belongs to no visible pixel, the ends of
    the rows beyond the width included, keeps its value. *)
Theorem framebuffer_cleared m address width height pitch bg :
  0 <= width <= pitch / 4 -> 0 <= height ->
  let m' := init_framebuffer m address width height pitch bg in
  (forall x y, 0 <= x < width -> 0 <= y < height -> ld32 m' (pixel address pitch x y) = bg mod 2 ^ 32) /\
  (forall a, (forall x y, 0 <= x < width -> 0 <= y < height -> a < pixel address pitch x y \/ pixel address pitch x y + 4 <= a) ->
     m' a = m a).
Proof.
  intros Hw Hh m'. unfold pixel. set (p := pitch / 4) in *.
  pose proof (floop_inv (fun i m' =>
      (forall x y, 0 <= x < width -> 0 <= y < i -> ld32 m' (address + 4 * (y * p + x)) = bg mod 2 ^ 32) /\
      (forall a, (forall x y, 0 <= x < width -> 0 <= y < i ->
          a < address + 4 * (y * p + x) \/ address + 4 * (y * p + x) + 4 <= a) -> m' a = m a))
    (fun y m => floop (Z.to_nat width) 0 (fun x m => st32 m (address + 4 * (y * p + x)) bg) m) (Z.to_nat height) 0 m) as H.
  rewrite Z.add_0_l, Z2Nat.id in H by lia. apply H; [split; [lia|done]|]. clear H m'. intros i m1 Hi [H1 H2].
  destruct (row_filled address p i width bg m1 ltac:(lia)) as [R1 R2]. split.
  - intros x y Hx Hy. destruct (Z.eq_dec y i) as [->|Hne]; [by apply R1|].
    rewrite <- (H1 x y) by lia. apply ldn_ext. intros a Ha. apply R2. left. nia.
  - intros a Ha. rewrite <- H2 by (intros x y Hx Hy; apply Ha; lia). apply R2.
    destruct (Z_lt_ge_dec a (address + 4 * (i * p))) as [Hl|Hl]; [by left|]. right.
    destruct (Z_lt_ge_dec a (address + 4 * (i * p + width))) as [Hr|Hr]; [|lia]. exfalso.
    pose proof (Ha ((a - address) / 4 - i * p) i ltac:(Z.div_mod_to_equations; lia) ltac:(lia)) as Hc.
    replace (i * p + ((a - address) / 4 - i * p)) with ((a - address) / 4) in Hc by lia. Z.div_mod_to_equations. lia.
Qed.

Lemma framebuffer_cleared_witness :
  ld32 (init_framebuffer (fun _ => 7) 4096 3 2 16 104) 4120 = 104 /\ init_framebuffer (fun _ => 7) 4096 3 2 16 104 4108 = 7.
Proof.
  destruct (framebuffer_cleared (fun _ => 7) 4096 3 2 16 104) as [H1 H2]; [vm_compute; split; discriminate|lia|]. split.
  - exact (H1 2 1 ltac:(lia) ltac:(lia)).
  - apply (H2 4108). unfold pixel. change (16 / 4) with 4. intros x y Hx Hy. lia.
Defined.

(** ** ACPI, shutdown and reboot *)

Section Power.
Context {W : Type} `{!PortIo W}.
Context (uacpi_initialize uacpi_namespace_load uacpi_namespace_initialize uacpi_finalize_gpe_initialization
         uacpi_prepare_for_S5 uacpi_enter_S5 uacpi_reboot : io W Z).
(** loading an empty interrupt table and raising an exception, which resets the machine *)
Context (triple_fault : io W unit).

(** Each stage runs only if the one before answered OK; the answer: whether all did. *)
Fixpoint stages (l : list (io W Z)) : io W bool :=
  match l with
  | [] => mret true
  | f :: l' => ret ← f; if negb (ret =? UACPI_STATUS_OK) then mret false else stages l'
  end.

Definition acpi_init : io W bool :=
  stages [uacpi_initialize; uacpi_namespace_load; uacpi_namespace_initialize; uacpi_finalize_gpe_initialization].

Definition running_on_qemu : io W bool :=
  outPortD 3320 2147483648;; id ← inPortD 3324; mret ((id =? 305627270) || (id =? 700481670)).

Definition qemu_poweroff : io W unit := outPortW 1540 8192;; outPortW 45060 8192.

Definition shutdown : io W bool :=
  q ← running_on_qemu;
  (if q : bool then qemu_poweroff else mret tt);;
  stages [uacpi_prepare_for_S5; uacpi_enter_S5].

(** Returns only into [halt]. *)
Definition reboot : io W unit :=
  ret ← uacpi_reboot;
  if negb (ret =? UACPI_STATUS_OK) then outPortB 100 254;; triple_fault else mret tt.

(** ** Legacy configuration accessors

    The 32-bit address and data go through one-byte port accesses. *)
Definition pciConfigReadWord (bus slot func offset : Z) : io W Z :=
  outPortB 3320 (config_address bus slot func offset);;
  v ← inPortB 3324;
  mret (u16 ((v >>> ((offset &&& 2) * 8)) &&& 65535)).

Definition ConfigWriteDword (bus slot func offset conf : Z) : io W unit :=
  outPortB PCI_CONFIG_ADDRESS (config_address bus slot func offset);;
  outPortB PCI_CONFIG_DATA conf.
End Power.

(** Only the low byte of the address reaches the port: the enable bit, the bus and the device
    are lost. *)
Lemma legacy_read_address {W : Type} `{!PortIo W} bus slot func offset (w : W) :
  exists v w', pciConfigReadWord bus slot func offset w = (v, w') /\
    w' = (inp 1 3324 (outp 1 3320 (u8 (config_address bus slot func offset)) w).2).2 /\ 0 <= v < 65536.
Proof.
  unfold pciConfigReadWord, outPortB, inPortB. rewrite !io_bind_eq, !io_ret_eq. cbn [fst snd].
  eexists _, _. split; [done|]. split; [done|]. apply u16_range.
Qed.

(** ** The allocator's self test (ktest.c) *)

Section SelfTest.
Context {hhdm : Z} {K : Type} `{KM : KernelMem hhdm K}.

(** The values printed; [None] in the middle: the allocation failed. *)
Definition test (h : K) (m : mem) : option (K * mem * option (Z * Z * Z * Z)) :=
  '(h, t) ← heap_alloc h 8;
  if t =? 0 then Some (h, m, None)
  else
    let m := st8 m t 65 in
    let m := st32 m (t + 4) 123 in
    Some (h, m, Some (t, t + 4, ld8 m t, ld32 m (t + 4))).

Lemma test_prints h m R : held h R -> exists h' m' o, test h m = Some (h', m', o) /\
  match o with None => m' = m | Some (t, j, i, v) => j = t + 4 /\ i = 65 /\ v = 123 end.
Proof.
  intros Hh. destruct (heap_alloc_ok h R 8 Hh ltac:(lia)) as (h' & a & E & H). unfold test. rewrite E. cbn [mbind option_bind].
  destruct (a =? 0); [by exists h', m, None|]. eexists h', _, _. split; [done|]. split; [done|]. byte_simpl. done.
Qed.
End SelfTest.
