(* ===== verification/BootMem.v ===== *)
(** * Memory at boot: the first steps of [kmain] (main.c)

    [init_PMM], [initPML4], [test_pmm] and [kmem_init] one after the other on one memory,
    the page tables built over the bitmap allocator itself.  The steps between them
    ([initGdt], [InitIdt], [disableLegacyPIC]) touch neither and are in Trap.v and Hw.v. *)

From S2P Require Import Prelude Mem CString Kmem KmemProps Frames Pmm Paging PagingInit.

(** What the rest of the kernel runs on. *)
Record booted := Booted { bt_pmm : pmm; bt_PML4 : Z; bt_cr3 : Z; bt_heap : kheap }.

Definition kmain_memory (m : mem) (hhdm : Z) (entries : list memmap_entry) (k : kernel_addr)
    (p_kernel_start p_writeallowed_start p_kernel_end heap : Z) : option booted :=
  s ← init_PMM m hhdm entries;
  '(s, PML4, cr3) ← initPML4 (hhdm := hhdm) s entries k p_kernel_start p_writeallowed_start p_kernel_end;
  s ← test_pmm s;
  Some (Booted s PML4 cr3 (kmem_init heap (pmem s))).

(** ** Page tables under allocations *)

Section Keep.
Context {hhdm : Z} {St : Type} `{FA : FrameAllocator hhdm St}.

(** Tables stay valid, and every address keeps its translation, when only the
    allocator's own bytes change and the frames of the tables stay handed out. *)
Lemma pt_inv_keep s s' root T :
  pt_inv s root T -> fa_ok s' -> (forall f, T f <> None -> fa_frame s f -> fa_frame s' f) ->
  (forall x, ~ fa_private s x -> fa_mem s' x = fa_mem s x) ->
  pt_inv s' root T /\ forall va, getPhysicalAddress (hhdm := hhdm) (fa_mem s') (root + hhdm) va =
                                 getPhysicalAddress (hhdm := hhdm) (fa_mem s) (root + hhdm) va.
Proof.
  intros Hi Hok Hfr Hm.
  assert (He : forall f l p i, T f = Some (l, p) -> 0 <= i < 512 ->
    entry (hhdm := hhdm) (fa_mem s') f i = entry (hhdm := hhdm) (fa_mem s) f i).
  { intros f l p i HT Hr. apply entry_ext; [done|]. intros x Hx. apply Hm.
    destruct (pi_frame _ _ _ Hi _ _ _ HT) as [_ Hf].
    by apply (fa_frame_ok _ _ (pi_ok _ _ _ Hi) Hf). }
  assert (Hi' : pt_inv s' root T).
  { destruct Hi as [H1 H2 H3 H4 H5 H6]. constructor; try done.
    - intros f l p HT. destruct (H3 _ _ _ HT) as [Hl Hf]. split; [done|]. apply Hfr; congruence.
    - intros f l p i HT Hl Hr. rewrite (He _ _ _ _ HT Hr). by apply H4.
    - intros h k q HT Hk. destruct (H6 _ _ _ HT Hk) as (f & Hf & Hp & Ha). exists f. split; [done|].
      rewrite (He _ _ _ _ Hf) by (apply Z.mod_pos_bound; lia). done. }
  split; [done|]. intros va. rewrite (getPhysicalAddress_walk s' root T va Hi'), (getPhysicalAddress_walk s root T va Hi).
  apply (walk_same s root T); [done| |lia|].
  - rewrite pre_4. apply Hi.
  - intros g k _ HT. eapply He; [exact HT|apply idx_range].
Qed.
End Keep.

(** ** The page allocator's self test *)

(** A state reached by allocations and frees: still an allocator of the same region, the frames in
    [P] still taken, nothing but the bitmap written. *)
Definition pmm_after (hhdm : Z) (P : Z -> Prop) (s s' : pmm) : Prop :=
  s' = with_pmem s (pmem s') /\ pmm_ok hhdm s' /\ (forall f, P f -> page_frame s' f) /\
  (forall x, ~ bitmap_byte s x -> pmem s' x = pmem s x).

Lemma pmm_after_refl hhdm (P : Z -> Prop) s : pmm_ok hhdm s -> (forall f, P f -> page_frame s f) -> pmm_after hhdm P s s.
Proof. intros H1 H2. split; [by destruct s|done]. Qed.

Lemma pmm_after_trans hhdm P s1 s2 s3 : pmm_after hhdm P s1 s2 -> pmm_after hhdm P s2 s3 -> pmm_after hhdm P s1 s3.
Proof.
  intros (E1 & _ & _ & M1) (E2 & O2 & F2 & M2). split; [|split; [done|split; [done|]]].
  - rewrite E2 at 1. by rewrite E1.
  - intros x Hx. rewrite M2; [by apply M1|by rewrite E1].
Qed.

Lemma pmm_after_low hhdm P s s' : pmm_low hhdm s -> pmm_after hhdm P s s' -> pmm_low hhdm s'.
Proof. intros [_ Hl] (E & Hok & _). split; [done|]. by rewrite E. Qed.

Lemma bits_after hhdm (P : Z -> Prop) s m' :
  pmm_ok hhdm s -> (forall f, P f -> page_frame s f) ->
  (forall k, 0 <= k -> taken s k = true -> k < bitmap_pages s \/ P (phys_base s + k * 4096) ->
     taken (with_pmem s m') k = true) ->
  (forall x, ~ bitmap_byte s x -> m' x = pmem s x) -> pmm_after hhdm P s (with_pmem s m').
Proof.
  intros [H1 H2 H3 H4 H5 H6] HP Hb Hm. split; [done|split; [|split; [intros f Hf|done]]].
  - constructor; try done. intros i Hi. change (bitmap_pages (with_pmem s m')) with (bitmap_pages s) in Hi.
    apply Hb; [lia|by apply H6|lia].
  - destruct (HP f Hf) as (i & Hi & -> & Ht). exists i. split_and_all; [apply Hi|apply Hi|done|].
    assert (0 <= bitmap_pages s) by (unfold bitmap_pages; rewrite H5; wrap_lia).
    apply Hb; [lia|done|by right].
Qed.

(** An address [pmm_free] may be given for one page, outside the frames of [P]. *)
Definition freeable (P : Z -> Prop) (s : pmm) (a : Z) : Prop :=
  a = 0 \/ exists i, bitmap_pages s <= i < total_pages s /\ a = phys_base s + i * 4096 /\ ~ P a.

Lemma bits_inside s i n x :
  0 <= i -> 0 <= n -> i + n <= total_pages s -> bitmap_size s = (total_pages s + 7) / 8 -> ~ bitmap_byte s x ->
  x < bitmap s + i / 8 \/ bitmap s + (i + n + 7) / 8 <= x.
Proof.
  intros Hi Hn Ht Hb Hx. unfold bitmap_byte in Hx. rewrite Hb in Hx.
  assert (0 <= i / 8) by (apply Z.div_pos; lia).
  assert ((i + n + 7) / 8 <= (total_pages s + 7) / 8) by (apply Z.div_le_mono; lia). lia.
Qed.

Lemma pmm_alloc_after hhdm (P : Z -> Prop) s size :
  pmm_ok hhdm s -> (forall f, P f -> page_frame s f) -> 0 < size < 2 ^ 63 ->
  exists s' a, pmm_alloc_page s size = Some (s', a) /\ pmm_after hhdm P s s' /\ freeable P s' a.
Proof.
  intros Hok HP Hs. pose proof Hok as [H1 H2 H3 H4 H5 H6].
  destruct (pmm_alloc_cases s size ltac:(lia) ltac:(lia) ltac:(lia)) as (s' & a & E & Hc).
  exists s', a. split; [exact E|]. set (n := (size + 4095) / 4096) in *. assert (Hn : 0 < n) by (unfold n; wrap_lia).
  destruct Hc as [(-> & -> & _)|(i & Hfr & _ & -> & ->)]; [split; [by apply pmm_after_refl|by left]|].
  pose proof Hfr as (Hi0 & Hi1 & Hf). assert (Hti : taken s i = false) by (apply Hf; lia). split.
  - apply bits_after; [done|done| |].
    + intros k Hk Ht _. unfold taken. cbn [pmem bitmap with_pmem]. rewrite set_run_test by lia.
      fold (taken s k). rewrite Ht. apply orb_true_r.
    + intros x Hx. apply set_run_out; [lia|lia|]. apply bits_inside; try done; lia.
  - right. exists i. rewrite u64_small by lia. split_and_all; [|cbn; lia|done|].
    + change (bitmap_pages s <= i). destruct (Z_lt_ge_dec i (bitmap_pages s)); [|lia]. rewrite H6 in Hti by lia. done.
    + intros (k & _ & Ek & Ht)%HP. replace k with i in Ht by lia. congruence.
Qed.

Lemma pmm_free_after hhdm (P : Z -> Prop) s a :
  pmm_ok hhdm s -> (forall f, P f -> page_frame s f) -> freeable P s a -> pmm_after hhdm P s (pmm_free s a 1).
Proof.
  intros Hok HP Ha. pose proof Hok as [H1 H2 H3 H4 H5 H6]. unfold pmm_free, BLOCK_SIZE.
  destruct Ha as [->|(i & Hi & -> & Hn)]; [by apply pmm_after_refl|].
  assert (Hbp : 0 <= bitmap_pages s) by (unfold bitmap_pages; rewrite H5; wrap_lia).
  rewrite (proj2 (Z.eqb_neq _ _)) by lia. replace (phys_base s + i * 4096 - phys_base s) with (i * 4096) by lia.
  rewrite u64_small, Z.div_mul by lia. apply bits_after; [done|done| |].
  - intros k Hk Ht Hor. unfold taken. cbn [pmem bitmap with_pmem]. rewrite clear_run_test by lia.
    fold (taken s k). rewrite Ht, andb_true_r. apply negb_true_iff, andb_false_iff.
    destruct (Z.eq_dec k i) as [->|]; [|lia]. by destruct Hor; [lia|].
  - intros x Hx. apply clear_run_out; [lia|lia|]. apply bits_inside; try done; lia.
Qed.

Lemma freeable_after hhdm P s s' a : pmm_after hhdm P s s' -> freeable P s a -> freeable P s' a.
Proof. intros (-> & _). done. Qed.

(** The self test returns whatever the allocations answer. *)
Lemma test_pmm_after hhdm (P : Z -> Prop) s :
  pmm_ok hhdm s -> (forall f, P f -> page_frame s f) -> exists s', test_pmm s = Some s' /\ pmm_after hhdm P s s'.
Proof.
  intros Hok HP. unfold test_pmm.
  destruct (pmm_alloc_after hhdm P s 1 Hok HP ltac:(lia)) as (s1 & p1 & -> & A1 & F1). cbn [mbind option_bind].
  destruct (pmm_alloc_after hhdm P s1 100) as (s2 & p2 & -> & A2 & _); [apply A1|apply A1|lia|]. cbn [mbind option_bind].
  assert (A3 : pmm_after hhdm P s2 (pmm_free s2 p1 1)).
  { apply pmm_free_after; [apply A2|apply A2|]. by eapply freeable_after. }
  destruct (pmm_alloc_after hhdm P (pmm_free s2 p1 1) 100) as (s4 & p4 & -> & A4 & _); [apply A3|apply A3|lia|].
  exists s4. split; [done|]. eauto using pmm_after_trans.
Qed.

(** ** The whole *)

(** The pages of the region [init_PMM] leaves free: not under the bitmap, and among the first 64
    or with a zero bit in the memory the bitmap was laid over. *)
Definition pages_left (m : mem) (hhdm : Z) (e : memmap_entry) : nat :=
  let total := me_length e / 4096 in
  length (List.filter (fun i => negb ((Z.of_nat i <? ((total + 7) / 8 + 4095) / 4096) ||
            ((64 <=? Z.of_nat i) && BITMAP_TEST m (me_base e + hhdm) (Z.of_nat i)))) (seq 0 (Z.to_nat total))).

Lemma init_free_pages m hhdm entries e s :
  largest_usable entries = Some e -> init_PMM m hhdm entries = Some s -> 0 <= me_length e -> pmm_ok hhdm s ->
  phys_base s = me_base e -> total_pages s = me_length e / 4096 -> free_pages s = pages_left m hhdm e.
Proof.
  intros He Ei Hl Hok Hb Ht. unfold free_pages, pages_left. rewrite Ht. apply filter_length_ext.
  intros i _. rewrite (init_bits m hhdm e entries s He Ei Hl) by lia.
  unfold bitmap_pages. by rewrite (po_bsize _ _ Hok), (po_bitmap _ _ Hok), Hb, Ht.
Qed.

(** C14: at boot the three memory managers come up together.  On a memory map of page-aligned regions
    below 1 TiB whose direct map lies below the kernel image, with a page left for every table
    the map and the kernel image span, the steps of [kmain] up to [kmem_init] return.
    Then, self test included: the page allocator is well formed; the tables [cr3] points to are
    well formed and in pages the allocator counts as taken, so it cannot hand them out again; the
    direct map and the kernel image translate as the kernel expects; and the heap
    represents the empty object store. *)
Theorem kmain_memory_ready (m : mem) (hhdm : Z) (entries : list memmap_entry) (e : memmap_entry)
    (k : kernel_addr) (ro rw fin heap : Z) :
  2 ^ 64 - 2 ^ 48 <= hhdm /\ hhdm mod 4096 = 0 ->
  largest_usable entries = Some e -> 0 < me_base e ->
  Forall (fun e => mappable e = true -> entry_ok (hhdm := hhdm) ro e) entries -> image_ok k ro rw fin ->
  1 + frames_for (hhdm := hhdm) entries + tables_needed ro (ro_pages ro rw) + tables_needed rw (rw_pages rw fin)
    <= Z.of_nat (pages_left m hhdm e) ->
  heap_placed heap ->
  exists s root h T, kmain_memory m hhdm entries k ro rw fin heap = Some (Booted s (root + hhdm) root h) /\
    pmm_ok hhdm s /\ pt_inv (hhdm := hhdm) s root T /\
    (forall e p, e ∈ entries -> mappable e = true -> in_entry e p ->
       getPhysicalAddress (hhdm := hhdm) (pmem s) (root + hhdm) (hhdm + p) = p) /\
    (forall va, ro <= va < fin ->
       getPhysicalAddress (hhdm := hhdm) (pmem s) (root + hhdm) va = physical_base k + (va - virtual_base k)) /\
    represents heap h [].
Proof.
  intros Hhh He Hb0 Hent Him Hav Hp. pose proof (im_range _ _ _ _ Him) as Hr.
  destruct (largest_usable_spec _ _ He) as (Hin & Hty & _).
  assert (Hmp : mappable e = true) by (unfold mappable; by rewrite Hty).
  pose proof Hent as Hent'. rewrite Forall_forall in Hent'. destruct (Hent' e Hin Hmp) as (_ & Hal & Hlen & Htop & Hlow). clear Hent'.
  assert (Hl : me_length e <= entry_pages e * 4096) by (unfold entry_pages; wrap_lia).
  destruct (init_PMM m hhdm entries) as [s0|] eqn:Ei; [|unfold init_PMM in Ei; by rewrite He in Ei].
  destruct (init_PMM_ok m hhdm entries e s0 He Ei) as (Hok & Hpb & Ht); try lia.
  assert (Hok' : pmm_low hhdm s0) by (split; [done|]; rewrite Hpb, Ht; unfold entry_pages in Hlow; wrap_lia).
  rewrite <- (init_free_pages m hhdm entries e s0) in Hav by (done || lia).
  destruct (initPML4_ok (FA := pmm_frames hhdm) Hhh s0 entries k ro rw fin Hok' Hent Him Hav) as (s1 & root & T & E1 & Hi & Hd & Hk).
  destruct (test_pmm_after hhdm (fun f => T f <> None) s1) as (s2 & E2 & A2).
  { apply Hi. }
  { intros f Hf. destruct (T f) as [[l q]|] eqn:ET; [|done]. by apply (pi_frame _ _ _ Hi f l q). }
  destruct (pt_inv_keep (FA := pmm_frames hhdm) s1 s2 root T Hi) as [Hi2 Hw]; [by eapply pmm_after_low; [apply Hi|]|intros f Hf _; by apply A2|apply A2|].
  unfold kmain_memory. rewrite Ei. cbn [mbind option_bind]. rewrite E1. cbn [mbind option_bind]. rewrite E2. cbn [mbind option_bind].
  exists s2, root, (kmem_init heap (pmem s2)), T. split; [done|]. split; [apply A2|]. split; [done|].
  cbn [fa_mem pmm_frames] in Hw, Hd, Hk.
  split; [intros e' p He' Hm' Hin'; rewrite Hw; eauto|]. split; [intros va Hva; rewrite Hw; auto|by apply represents_init].
Qed.

Lemma kmain_memory_ready_witness :
  exists s root h, kmain_memory (fun _ => 0) demo_hhdm demo_map demo_kernel
      18446744071562067968 18446744071562076160 18446744071562080256 4096 = Some (Booted s (root + demo_hhdm) root h) /\
    getPhysicalAddress (hhdm := demo_hhdm) (pmem s) (root + demo_hhdm) (demo_hhdm + 1048999) = 1048999 /\
    represents 4096 h [].
Proof.
  destruct (kmain_memory_ready (fun _ => 0) demo_hhdm demo_map (MemmapEntry 1048576 1048576 0) demo_kernel
    18446744071562067968 18446744071562076160 18446744071562080256 4096)
    as (s & root & h & T & E & _ & _ & Hd & _ & Hh).
  - split; [discriminate|reflexivity].
  - reflexivity.
  - reflexivity.
  - repeat apply Forall_cons_2; try apply Forall_nil_2; intros Hm; try discriminate Hm;
      (split; [discriminate|split; [reflexivity|split; [reflexivity|split; discriminate]]]).
  - constructor; cbn.
    + split; [discriminate|split; [reflexivity|split; [reflexivity|discriminate]]].
    + split; reflexivity.
    + split; [discriminate|]. split; [reflexivity|]. split; [reflexivity|]. split; [discriminate|].
      split; [split; [discriminate|reflexivity]|discriminate].
  - vm_compute. discriminate.
  - split; reflexivity.
  - exists s, root, h. split; [exact E|]. split; [|exact Hh].
    apply (Hd (MemmapEntry 1048576 1048576 0)); [right; left|reflexivity|split; [discriminate|reflexivity]].
Defined.
